(* ===== verification/_CoqProject ===== *)
-Q . S2P
Prelude.v
Mem.v
Errors.v
Bits.v
BitStream.v
BitFields.v
Fse.v
FseSpread.v
FseBuild.v
FseState.v
FseCodec.v
NCount.v
HufStats.v
HufTable.v
HufCode.v
HufStream.v
HufCodec.v
Huf4X.v
HufSafe.v
Xxh64.v
Frame.v
FrameWalk.v
Normalize.v
Hist.v
ExecSeq.v
SeqTable.v
SeqStore.v
SeqEncode.v
SeqDecode.v
SeqBlock.v
SeqSafe.v
SeqHeaders.v
Cwksp.v
CwkspArena.v
CwkspClient.v
CParams.v
RecordUpdate.v
Calls.v
CCtxParams.v
CCtxApi.v
CCtxSize.v
CCtxReset.v
CCtxPlan.v
CCtxLayout.v
CCtxMatch.v
CCtxStores.v
CCtxUsable.v
CStream.v
CStreamOk.v
CStreamCall.v
CFrame.v
CFrameOk.v
CStreamFrames.v
Kotlin.v
Ring.v
ReactorQueue.v
IdMap.v
Packet.v
Payload.v
