(* ===== verification/Prelude.v ===== *)
(** * msgtrans-kotlin: a verification development

    msgtrans-kotlin is a message transport for Kotlin Multiplatform.  It frames
    packets (src/msgtrans/src/commonMain/kotlin/msgtrans/core), runs them over
    TCP, WebSocket and QUIC connections with request/response matching
    (.../msgtrans/transport), and compresses payloads with zstd or zlib.  For
    Android Native it builds the vendored zstd 1.5.7 amalgamation,
    src/msgtrans/src/nativeInterop/zstd/zstd.c ("zstd.c" below), which is most of
    the code.  This library models the two core parts: the zstd entropy and
    container layers, bottom up, and the packet, compression and queue layers of
    the Kotlin code.

    ** How code is modelled

    - A call is a value of [outcome E A]: a result, an error the code reports (a
      [ZSTD_ErrorCode], a Kotlin exception), or a [Fault], which the code has no
      value for: an access outside an object, a failed [assert], a division by
      zero, or fuel that ran out.  [wp m Q R] says that [m] gives a value in [Q]
      or an error in [R] and never a fault, so every theorem stated with [wp] or
      with [= Ok _] is also a memory-safety and termination theorem.
    - Machine integers are [Z] with wrap-around written out ([wrap], [sgn], [u32],
      [s32], [size_t]); theorems hold for both widths of [size_t] and both byte
      orders (class [Mem.Platform]).
    - A C buffer is a list of bytes and a pointer an index into it.  In [ExecSeq]
      source, destination, dictionary and literals live in one flat memory, since
      there the overlaps matter, and in [Cwksp] and the files on contexts a pointer is
      an address, since there alignment matters.  Pointers do not wrap.
    - [assert] is always modelled in the files on contexts; in the workspace it
      depends on [DEBUGLEVEL], the argument [D], and theorems hold for every value.
    - A C loop is [for_loop], or [loop] with fuel.  Fuel is always an expression
      in the sizes of the arguments (the number of bytes or table cells, plus one)
      and theorems show that it is not exhausted.
    - Code that is not in the repository is a class with laws: neton-io's buffer
      ([Packet.Buffer], [BufferLaws]), zstd-kmp's streams ([Payload.ZstdKmp],
      [ZstdKmpBounds], [ZstdKmpLaws]), the zlib codec ([Payload.CodecLaws]).  Each
      has a concrete instance on which the witnesses run.

    ** Files

    zstd.c, by the file it inlines:
    - [Mem]: mem.h.  Loads, stores and swaps mean the same on every platform and
      round trip.
    - [Errors]: zstd_errors.h, error_private.  The encoding of errors in [size_t].
    - [Bits]: bits.h.  Scans against their meaning, fallbacks against builtins.
    - [BitStream]: bitstream.h.  What is written forwards is read backwards, and
      the reader recognises its end.  [BitFields] sees a stream as a list of
      fields, each of its own width.
    - [Fse], [FseSpread], [FseBuild], [FseState], [FseCodec]: fse.h, and the table
      construction and coding loops of fse_compress.c and fse_decompress.c.  Both
      table builders compute reference tables that are inverse; a block coded with
      two interleaved states is decoded to itself, and decoding arbitrary bytes is
      safe.
    - [NCount], [HufStats]: entropy_common.c.  Parsing the headers of
      distributions and of Huffman weights is safe on arbitrary bytes, and what is
      accepted is a distribution ([norm_ok]), respectively a complete code.
    - [HufTable], [HufCode]: the encoding and decoding tables of huf_compress.c and
      huf_decompress.c that are read from a header of weights.  Both follow one
      canonical code, also when the decoding table is rescaled.
    - [HufStream]: the encoder of huf_compress.c, two registers filled from the top
      and every unrolling; it writes the stream [BitStream] would.  [HufCodec]: the
      single-symbol decoder, which inverts it.  [Huf4X]: four streams, decoded in
      lock step.  [HufSafe]: both decoders are safe on arbitrary bytes.
    - [Normalize]: the normalization of fse_compress.c.  Its result is a
      distribution the table builders accept, for every histogram.
    - [Hist]: hist.c.  The striped histogram is the histogram.
    - [Xxh64]: the XXH64 part of xxhash.h.  Streaming equals one-shot.
    - [Frame], [FrameWalk]: frame and block headers and the walks over frames of
      zstd_decompress.c and zstd_compress.c.  Headers round trip; on arbitrary
      bytes parsing and walking are safe and end; [ZSTD_compressBound] is enough.
    - [ExecSeq]: the execution of sequences of zstd_decompress_block.c.  The wild
      copies append what LZ77 defines, within the bounds of the output.
    - [SeqTable]: the decoding tables of sequence codes, built by
      [ZSTD_buildFSETable] or listed in the code, and that the two agree.
      [SeqStore]: the store of sequences and their codes.  [SeqEncode]:
      [ZSTD_encodeSequences], against the interface [Coder] of a table of codes.
      [SeqDecode]: [ZSTD_decodeSequence] and [ZSTD_decompressSequences].
      [SeqBlock]: encoding and decoding tables make coders, and decoding inverts
      encoding up to the executed block.  [SeqSafe], [SeqHeaders]: the headers of a
      sequences section, the choice of the decoder of offsets, and that a section
      is decoded safely on arbitrary bytes.
    - [Cwksp], [CwkspArena], [CwkspClient]: zstd_cwksp.h, the arena of a compression
      context.  Every reservation a client may make succeeds or is refused, blocks
      are disjoint, tables that are marked clean hold only small integers, and a
      workspace of the estimated size serves all requests.
    - [CParams]: the compression parameters of zstd_compress.c and clevels.h: every
      level, size and mode gives valid ones.
    - [CCtxParams]: the parameters of a compression, set one by one and read back,
      and the compression parameters derived from them.
    - [CCtxApi]: the interface of a compression context, which dictionaries,
      prefixes and parameters it holds and owns, as a state machine of its calls.
    - [CCtxSize]: the estimates of the memory a context takes.  [CCtxReset]: the
      reset of a context, [ZSTD_resetCCtx_internal].  [CCtxPlan]: the reservations a
      reset makes, and that the estimate is their sum.  [CCtxLayout]: rules for a
      run of reservations.  [CCtxMatch], [CCtxStores], [CCtxUsable]: by these, the
      two halves of the reservations and the whole; a context can be reset again and
      again.
    - [CStream]: streaming compression, [ZSTD_compressStream2] down to the state
      machine of [ZSTD_compressStream_generic], over the interface
      [FrameCompressor] of a frame.  [CStreamOk]: the laws of that interface, and
      the invariant of the loop.  [CStreamCall]: what holds between two calls, and
      what a call and [ZSTD_compress2] do.
    - [CFrame]: the functions that write a frame (header, blocks, last block,
      checksum) over the interface [BlockCompressor] of a block.  [CFrameOk]: frames
      as a format, and that these functions keep the laws of [FrameCompressor].
    - [CStreamFrames]: the theorems for callers: any sequence of calls gives frames
      of the input, whose ends [FrameWalk]'s functions find; examples, and the three
      ways to lose input that was left with the caller.
    - [RecordUpdate], [Calls]: notation and logic for C functions that change an
      object and may report an error in between.

    Kotlin:
    - [Kotlin]: exceptions, arrays and conversions of the language.
    - [Ring], [IdMap]: transport/Ring.kt, transport/IdMap.kt.  Any sequence of
      operations refines a queue, respectively a finite map.
    - [ReactorQueue]: transport/ReactorQueue.kt, with a producer and a consumer
      coroutine as a step relation.  Runs refine a bounded FIFO, no wake-up is lost,
      and what is sent is received.
    - [Packet]: core/Packet.kt, core/PacketCodec.kt,
      core/LengthPrefixedPacketCodec.kt.  Encoding and decoding round trip, and
      decoding arbitrary bytes is exact.
    - [Payload]: core/PayloadCompression.kt and ZstdCodec.zstdKmp.kt.  The
      streaming loops are bounded whatever the decompressor does, and make a codec
      of zstd-kmp's streams; compress, encode, decode, decompress is the identity.

    The components meet where the code's do: [FseCodec] is proved from the
    interface of [BitStream] (a stream as a number of bits) and from the reference
    tables of [FseBuild]; [norm_ok] is what [Normalize] and [NCount] promise and
    the table builders require; [HufStats] runs the FSE decoder, and [stats_ok] is
    what both Huffman tables are built from; [SeqEncode] and [SeqDecode] meet in
    the interface [Coder], and end in the copies of [ExecSeq]; a reset runs on the
    commands of [CwkspArena], and what it needs of parameters is what [CCtxParams]
    promises; a stream is proved against [FrameCompressorLaws], which the frames of
    [CFrame] discharge from [BlockCompressorLaws], and a simple block compressor shows
    that these can be kept; [Payload] runs the packet codec and is proved against [CodecLaws], which its zstd codec discharges.

    ** Bounds

    Ring and IdMap theorems cover fewer than 2^29 and 2^27 operations: beyond them
    the array sizes leave [Int].  Packets are smaller than 2^31 bytes, as a
    [ByteArray] is; payloads that are compressed have at most 2^30 bytes, so that a
    compressed frame still fits an array.  A Huffman block has at most
    [HUF_BLOCKSIZE_MAX] symbols, so that no count of bits wraps.  The memory of a
    context must be a number a [size_t] can hold; on 64 bits it always is.  The buffers
    of a stream take less than half the address space, so that differences of pointers
    are numbers, and a stream has less than 2^64 bytes; a call goes round its
    loop at most once for each byte of input, and three times more.

    ** Not modelled

    In zstd.c: building and writing Huffman tables from a histogram, the
    double-symbol and the fast Huffman decoders, the headers of literals, the
    choice of the encodings of sequences, the decoders of sequences for split
    literals and with prefetching, match finders and the compression of a block (the
    interface [BlockCompressor]: a block is compressed from its contents and a state, so
    that it does not show how much of the history lies in the buffer of a stream),
    collecting sequences, digested dictionaries, decompression contexts,
    multithreading (compiled out), dictionary training, XXH32 and XXH3, and BMI2 and
    SIMD variants, which compute the same.  Null pointers, and the release of memory.  In Kotlin: connections,
    transports and handlers (coroutines and callbacks over neton-io), the zlib
    codecs and the Android Native zstd codec, and the texts of exceptions.

    What would come next: Huffman trees from histograms and the headers of
    literals. *)
From stdpp Require Export base tactics numbers list.
From Stdlib Require Export ZArith Znumtheory Lia Btauto.

#[global] Open Scope Z_scope.

(** ** Results of C (and Kotlin) calls

    A call ends with a value, with an error the code itself reports (a
    [ZSTD_ErrorCode], an exception), or with a fault: an access outside an
    object, a failed [assert], a loop whose fuel ran out, or a division by 0.  The code has no
    fault value; a theorem that a call is [safe] says that none of them
    can happen. *)
Inductive fault := Oob | AssertFailed | OutOfFuel | DivByZero.

Inductive outcome (E A : Type) :=
| Ok (a : A)
| Err (e : E)
| Fault (f : fault).
Arguments Ok {E A} _.
Arguments Err {E A} _.
Arguments Fault {E A} _.

Definition obind {E A B} (m : outcome E A) (k : A -> outcome E B) : outcome E B :=
  match m with
  | Ok a => k a
  | Err e => Err e
  | Fault f => Fault f
  end.

Declare Scope outcome_scope.
Delimit Scope outcome_scope with outcome.
#[global] Open Scope outcome_scope.

Notation "'let*' x := m 'in' k" := (obind m (fun x => k))
  (at level 200, x pattern, m at level 100, k at level 200, right associativity) : outcome_scope.
Notation "m ;;; k" := (obind m (fun _ => k))
  (at level 199, k at level 200, right associativity) : outcome_scope.

(** [assert(c)]. *)
Definition oassert {E} (b : bool) : outcome E unit :=
  if b then Ok tt else Fault AssertFailed.

(** [if (b) return ERROR(e);] *)
Definition reject_if {E} (b : bool) (e : E) : outcome E unit :=
  if b then Err e else Ok tt.

(** Postconditions of a call: a value satisfying [Q], or a reported error
    satisfying [R], never a fault. *)
Definition wp {E A} (m : outcome E A) (Q : A -> Prop) (R : E -> Prop) : Prop :=
  match m with
  | Ok a => Q a
  | Err e => R e
  | Fault _ => False
  end.

Notation safe m Q := (wp m Q (fun _ => True)).

Section Wp.
Context {E A B : Type}.
Implicit Types (Q : A -> Prop) (R : E -> Prop).

Lemma wp_bind (m : outcome E A) (k : A -> outcome E B) (Q : B -> Prop) R :
  wp m (fun a => wp (k a) Q R) R -> wp (obind m k) Q R.
Proof. by destruct m. Qed.

Lemma wp_mono (m : outcome E A) Q Q' R R' :
  wp m Q R -> (forall a, Q a -> Q' a) -> (forall e, R e -> R' e) -> wp m Q' R'.
Proof. destruct m; simpl; auto. Qed.

Lemma wp_conj (m : outcome E A) Q Q' R :
  wp m Q R -> wp m Q' R -> wp m (fun a => Q a /\ Q' a) R.
Proof. destruct m; simpl; auto. Qed.

Lemma wp_Ok_inv (m : outcome E A) Q R a : wp m Q R -> m = Ok a -> Q a.
Proof. by intros H ->. Qed.

Lemma wp_not_fault (m : outcome E A) Q R f : wp m Q R -> m <> Fault f.
Proof. by intros H ->. Qed.

Lemma wp_exists (m : outcome E A) Q : wp m Q (fun _ => False) -> exists a, m = Ok a /\ Q a.
Proof. destruct m; simpl; naive_solver. Qed.

Lemma bind_Ok (m : outcome E A) (k : A -> outcome E B) b :
  obind m k = Ok b -> exists a, m = Ok a /\ k a = Ok b.
Proof. destruct m; simpl; naive_solver. Qed.
End Wp.

Lemma wp_assert {E} b (Q : unit -> Prop) (R : E -> Prop) :
  b = true -> Q tt -> wp (oassert b) Q R.
Proof. by intros ->. Qed.

Lemma wp_reject_if {E} b (e : E) (Q : unit -> Prop) (R : E -> Prop) :
  (b = true -> R e) -> (b = false -> Q tt) -> wp (reject_if b e) Q R.
Proof. destruct b; simpl; auto. Qed.

(** ** Loops *)

Section Loops.
Context {E S : Type}.

(** [for (k = i; k < i + n; k++) body] *)
Fixpoint for_loop (n : nat) (i : Z) (body : Z -> S -> outcome E S) (s : S) : outcome E S :=
  match n with
  | O => Ok s
  | Datatypes.S n => let* s := body i s in for_loop n (i + 1) body s
  end.

(** [while (1) body]: [body] either continues ([inl]) or leaves ([inr]). *)
Fixpoint loop {R} (fuel : nat) (body : S -> outcome E (S + R)) (s : S) : outcome E R :=
  match fuel with
  | O => Fault OutOfFuel
  | Datatypes.S fuel =>
      let* r := body s in
      match r with
      | inl s => loop fuel body s
      | inr r => Ok r
      end
  end.

Lemma wp_for_loop (I : Z -> S -> Prop) (RE : E -> Prop) body n i s :
  I i s ->
  (forall j s, i <= j < i + Z.of_nat n -> I j s -> wp (body j s) (I (j + 1)) RE) ->
  wp (for_loop n i body s) (I (i + Z.of_nat n)) RE.
Proof.
  revert i s; induction n as [|n IH]; intros i s HI Hb; simpl.
  - by replace (i + Z.of_nat 0) with i by lia.
  - apply wp_bind. eapply wp_mono; [apply Hb; [lia|done] | | done].
    intros s' HI'. replace (i + Z.of_nat (Datatypes.S n)) with (i + 1 + Z.of_nat n) by lia.
    apply IH; [done|]. intros j t Hj. apply Hb. lia.
Qed.

Lemma wp_loop {R} (I : S -> Prop) (m : S -> Z) (Q : R -> Prop) (RE : E -> Prop) body fuel s :
  I s -> m s < Z.of_nat fuel ->
  (forall s, I s -> 0 <= m s) ->
  (forall s, I s -> wp (body s)
     (fun r => match r with inl s' => I s' /\ m s' < m s | inr r => Q r end) RE) ->
  wp (loop fuel body s) Q RE.
Proof.
  intros HI Hm Hpos Hb. revert s HI Hm; induction fuel as [|fuel IH]; intros s HI Hm; simpl.
  - specialize (Hpos s HI). lia.
  - apply wp_bind. eapply wp_mono; [by apply Hb | | done].
    intros [s'|r]; [|done]. intros [HI' Hlt]. apply IH; [done|lia].
Qed.

(** [for (k = lo; k < hi; k++) body] and [for (k = lo; k < hi; k += step) body] *)
Definition for_range (lo hi : Z) (body : Z -> S -> outcome E S) (s : S) : outcome E S :=
  for_loop (Z.to_nat (hi - lo)) lo body s.

Definition for_step (lo hi step : Z) (body : Z -> S -> outcome E S) (s : S) : outcome E S :=
  for_loop (Z.to_nat ((hi - lo + step - 1) / step)) 0 (fun k => body (lo + step * k)) s.

Lemma wp_for_range (I : Z -> S -> Prop) (RE : E -> Prop) body lo hi s :
  lo <= hi -> I lo s ->
  (forall j s, lo <= j < hi -> I j s -> wp (body j s) (I (j + 1)) RE) ->
  wp (for_range lo hi body s) (I hi) RE.
Proof.
  intros Hle HI Hb. unfold for_range. replace hi with (lo + Z.of_nat (Z.to_nat (hi - lo))) at 2 by lia.
  apply wp_for_loop; [done|]. intros j t Hj. apply Hb. lia.
Qed.

(** Running [f] over the elements of a list. *)
Fixpoint ofold {A} (f : A -> S -> outcome E S) (l : list A) (s : S) : outcome E S :=
  match l with
  | [] => Ok s
  | x :: l => let* s := f x s in ofold f l s
  end.

Lemma ofold_app {A} (f : A -> S -> outcome E S) l1 l2 s :
  ofold f (l1 ++ l2) s = let* s := ofold f l1 s in ofold f l2 s.
Proof.
  revert s; induction l1 as [|x l1 IH]; intros s; simpl; [done|].
  destruct (f x s); simpl; auto.
Qed.

Lemma ofold_replicate {A} (f : A -> S -> outcome E S) n x i s :
  for_loop n i (fun _ => f x) s = ofold f (replicate n x) s.
Proof.
  revert i s; induction n as [|n IH]; intros i s; simpl; [done|].
  destruct (f x s); simpl; auto.
Qed.

Lemma for_loop_ext body body' n i s :
  (forall j s, i <= j < i + Z.of_nat n -> body j s = body' j s) ->
  for_loop n i body s = for_loop n i body' s.
Proof.
  revert i s; induction n as [|n IH]; intros i s H; simpl; [done|].
  rewrite H by lia. destruct (body' i s); simpl; auto. apply IH. intros. apply H. lia.
Qed.

Lemma for_loop_add n1 n2 i body s :
  for_loop (n1 + n2) i body s =
  let* s := for_loop n1 i body s in for_loop n2 (i + Z.of_nat n1) body s.
Proof.
  revert i s; induction n1 as [|n1 IH]; intros i s; simpl.
  - by replace (i + Z.of_nat 0) with i by lia.
  - destruct (body i s); simpl; auto. rewrite IH.
    by replace (i + 1 + Z.of_nat n1) with (i + Z.of_nat (Datatypes.S n1)) by lia.
Qed.

Lemma for_loop_snoc n i body s :
  for_loop (Datatypes.S n) i body s =
  let* s := for_loop n i body s in body (i + Z.of_nat n) s.
Proof.
  replace (Datatypes.S n) with (n + 1)%nat by lia. rewrite for_loop_add.
  destruct (for_loop n i body s); simpl; [|done..]. by destruct (body _ _).
Qed.
End Loops.

(** ** Machine integers: a [w]-bit unsigned value is a [Z] in [0, 2^w) *)

Definition wrap (w x : Z) : Z := x mod 2 ^ w.
Notation u8 x := (wrap 8 x).
Notation u16 x := (wrap 16 x).
Notation u32 x := (wrap 32 x).
Notation u64 x := (wrap 64 x).

(** The value of a [w]-bit pattern read as two's complement. *)
Definition sgn (w x : Z) : Z := (x + 2 ^ (w - 1)) mod 2 ^ w - 2 ^ (w - 1).
Notation s16 x := (sgn 16 x).
Notation s32 x := (sgn 32 x).

Definition is_byte (b : Z) : Prop := 0 <= b < 256.
Notation bytes l := (Forall is_byte l).

#[export] Instance is_byte_dec b : Decision (is_byte b).
Proof. unfold is_byte. apply _. Defined.

(** The same test by evaluation, for closed buffers. *)
Definition bytesb (l : list Z) : bool := forallb (fun b => (0 <=? b) && (b <? 256)) l.

Lemma bytesb_bytes l : bytesb l = true -> bytes l.
Proof.
  unfold bytesb. induction l as [|b l IH]; simpl; intros H; constructor;
    apply andb_prop in H as [H1 H2].
  - unfold is_byte. lia.
  - by apply IH.
Qed.

Ltac eval_bytes := apply bytesb_bytes; vm_compute; reflexivity.

Lemma pow2_pos w : 0 <= w -> 0 < 2 ^ w.
Proof. intros. by apply Z.pow_pos_nonneg. Qed.

Lemma pow_mono a b : 0 <= a <= b -> 2 ^ a <= 2 ^ b.
Proof. intros. apply Z.pow_le_mono_r; lia. Qed.

Lemma wrap_range w x : 0 <= w -> 0 <= wrap w x < 2 ^ w.
Proof. intros. apply Z.mod_pos_bound. by apply pow2_pos. Qed.

Lemma wrap_small w x : 0 <= x < 2 ^ w -> wrap w x = x.
Proof. intros. by apply Z.mod_small. Qed.

Lemma sgn_small w x : 0 < w -> - 2 ^ (w - 1) <= x < 2 ^ (w - 1) -> sgn w x = x.
Proof.
  intros Hw Hx. unfold sgn.
  assert (2 ^ w = 2 * 2 ^ (w - 1)) by (rewrite <- Z.pow_succ_r by lia; f_equal; lia).
  rewrite Z.mod_small; lia.
Qed.

(** ** Arrays indexed by [Z], with out-of-range accesses as faults *)

Section Arrays.
Context {E A : Type}.
Implicit Types (l : list A) (i : Z).

Definition zlen l : Z := Z.of_nat (length l).

Definition aget l i : outcome E A :=
  if 0 <=? i then match l !! Z.to_nat i with Some x => Ok x | None => Fault Oob end
  else Fault Oob.

Definition aset l i (x : A) : outcome E (list A) :=
  if (0 <=? i) && (i <? zlen l) then Ok (<[Z.to_nat i := x]> l) else Fault Oob.

(** The [n] elements from index [i] on; [l] with [k] written at index [i]. *)
Definition slice l i n : list A := take (Z.to_nat n) (drop (Z.to_nat i) l).

Definition splice l i (k : list A) : list A :=
  take (Z.to_nat i) l ++ k ++ drop (Z.to_nat i + length k) l.

(** The two sides of a [memcpy]. *)
Definition asub l i n : outcome E (list A) :=
  if (0 <=? i) && (0 <=? n) && (i + n <=? zlen l) then Ok (slice l i n) else Fault Oob.

Definition awrite l i (k : list A) : outcome E (list A) :=
  if (0 <=? i) && (i + zlen k <=? zlen l) then Ok (splice l i k) else Fault Oob.

Lemma zlen_nonneg l : 0 <= zlen l.
Proof. unfold zlen. lia. Qed.

Lemma aget_Ok l i x : aget l i = Ok x <-> 0 <= i /\ l !! Z.to_nat i = Some x.
Proof.
  unfold aget. destruct (Z.leb_spec 0 i); [|split; [done|lia]].
  destruct (l !! Z.to_nat i); naive_solver.
Qed.

Lemma wp_aget l i (Q : A -> Prop) (R : E -> Prop) :
  0 <= i < zlen l -> (forall x, l !! Z.to_nat i = Some x -> Q x) -> wp (aget l i) Q R.
Proof.
  unfold zlen, aget. intros Hi HQ. destruct (Z.leb_spec 0 i); [|lia].
  destruct (lookup_lt_is_Some_2 l (Z.to_nat i)) as [x Hx]; [lia|].
  rewrite Hx. simpl. auto.
Qed.

Lemma aset_Ok l i x : 0 <= i < zlen l -> aset l i x = Ok (<[Z.to_nat i := x]> l).
Proof.
  intros Hi. unfold aset. destruct (Z.leb_spec 0 i), (Z.ltb_spec i (zlen l)); done || lia.
Qed.

Lemma wp_aset l i x (Q : list A -> Prop) (R : E -> Prop) :
  0 <= i < zlen l -> Q (<[Z.to_nat i := x]> l) -> wp (aset l i x) Q R.
Proof. intros Hi HQ. by rewrite aset_Ok. Qed.

Lemma asub_Ok l i n :
  0 <= i -> 0 <= n -> i + n <= zlen l -> asub l i n = Ok (slice l i n).
Proof.
  intros. unfold asub.
  destruct (Z.leb_spec 0 i), (Z.leb_spec 0 n), (Z.leb_spec (i + n) (zlen l)); done || lia.
Qed.

Lemma awrite_Ok l i k :
  0 <= i -> i + zlen k <= zlen l -> awrite l i k = Ok (splice l i k).
Proof.
  intros. unfold awrite.
  destruct (Z.leb_spec 0 i), (Z.leb_spec (i + zlen k) (zlen l)); done || lia.
Qed.

Lemma zlen_slice l i n : 0 <= i -> 0 <= n -> i + n <= zlen l -> zlen (slice l i n) = n.
Proof. unfold zlen, slice. intros. rewrite length_take, length_drop. lia. Qed.

Lemma zlen_splice l i k : 0 <= i -> i + zlen k <= zlen l -> zlen (splice l i k) = zlen l.
Proof.
  unfold zlen, splice. intros. rewrite !length_app, length_take, length_drop. lia.
Qed.

Lemma slice_splice l i k : 0 <= i -> i + zlen k <= zlen l -> slice (splice l i k) i (zlen k) = k.
Proof.
  unfold zlen, slice, splice. intros. rewrite drop_app_le by (rewrite length_take; lia).
  rewrite drop_ge, app_nil_l by (rewrite length_take; lia).
  rewrite Nat2Z.id, take_app_le by lia. by rewrite take_ge by lia.
Qed.

Lemma lookup_slice l i n k :
  0 <= i -> (k < Z.to_nat n)%nat -> slice l i n !! k = l !! (Z.to_nat i + k)%nat.
Proof. unfold slice. intros. by rewrite lookup_take_lt, lookup_drop by lia. Qed.

Lemma slice_cons l i n x :
  0 <= i -> 0 < n -> l !! Z.to_nat i = Some x -> slice l i n = x :: slice l (i + 1) (n - 1).
Proof.
  unfold slice. intros Hi Hn Hx. rewrite (drop_S l x) by done.
  replace (Z.to_nat n) with (S (Z.to_nat (n - 1))) by lia.
  replace (Z.to_nat (i + 1)) with (S (Z.to_nat i)) by lia. done.
Qed.

Lemma slice_snoc l i n x :
  0 <= i -> 0 <= n -> l !! Z.to_nat (i + n) = Some x -> slice l i (n + 1) = slice l i n ++ [x].
Proof.
  unfold slice. intros Hi Hn Hx. replace (Z.to_nat (n + 1)) with (S (Z.to_nat n)) by lia.
  apply take_S_r. rewrite lookup_drop, <- Hx. f_equal. lia.
Qed.

Lemma slice_app l i n m :
  0 <= i -> 0 <= n -> 0 <= m -> slice l i n ++ slice l (i + n) m = slice l i (n + m).
Proof.
  unfold slice. intros. replace (Z.to_nat (n + m)) with (Z.to_nat n + Z.to_nat m)%nat by lia.
  rewrite <- take_take_drop, drop_drop. do 2 f_equal. f_equal. lia.
Qed.

Lemma drop_slice l i n k :
  0 <= i -> 0 <= k <= n -> drop (Z.to_nat k) (slice l i n) = slice l (i + k) (n - k).
Proof.
  unfold slice. intros. rewrite skipn_firstn_comm, drop_drop. f_equal; [lia|f_equal; lia].
Qed.

Lemma slice_slice l i n j k :
  0 <= i -> 0 <= j -> 0 <= k -> j + k <= n -> slice (slice l i n) j k = slice l (i + j) k.
Proof.
  intros. unfold slice at 1. rewrite drop_slice by lia. unfold slice. rewrite take_take. f_equal. lia.
Qed.

Lemma splice_one l i x : 0 <= i < zlen l -> splice l i [x] = <[Z.to_nat i := x]> l.
Proof.
  unfold zlen, splice. intros. rewrite insert_take_drop by lia. simpl.
  by rewrite Nat.add_1_r.
Qed.

Lemma splice_app l i k1 k2 :
  0 <= i -> i + zlen k1 + zlen k2 <= zlen l ->
  splice (splice l i k1) (i + zlen k1) k2 = splice l i (k1 ++ k2).
Proof.
  unfold zlen, splice. intros Hi Hl. rewrite length_app.
  assert (length (take (Z.to_nat i) l) = Z.to_nat i) as Ht by (rewrite length_take; lia).
  replace (Z.to_nat (i + Z.of_nat (length k1))) with (Z.to_nat i + length k1)%nat by lia.
  rewrite (app_assoc (take _ _) k1). rewrite take_app_length' by (rewrite length_app; lia).
  rewrite drop_app_ge by (rewrite length_app; lia). rewrite length_app, Ht.
  rewrite drop_drop, <- !app_assoc. do 4 f_equal. lia.
Qed.

(** The part before, written afterwards. *)
Lemma splice_before l i k1 k2 :
  0 <= i -> i + zlen k1 + zlen k2 <= zlen l ->
  splice (splice l (i + zlen k1) k2) i k1 = splice l i (k1 ++ k2).
Proof.
  unfold zlen, splice. intros Hi Hl. rewrite length_app.
  assert (length (take (Z.to_nat (i + Z.of_nat (length k1))) l) = Z.to_nat i + length k1)%nat as Ht by (rewrite length_take; lia).
  rewrite take_app_le by lia. rewrite take_take, drop_app_length' by lia. rewrite <- !app_assoc. f_equal; [f_equal; lia|].
  do 3 f_equal. lia.
Qed.

Lemma slice_splice_prefix l i k s m :
  0 <= s <= i -> 0 <= m <= zlen k -> i + zlen k <= zlen l ->
  slice (splice l i k) s (i - s + m) = slice l s (i - s) ++ take (Z.to_nat m) k.
Proof.
  unfold zlen, slice, splice. intros Hs Hm Hl.
  assert (length (take (Z.to_nat i) l) = Z.to_nat i) as Ht by (rewrite length_take; lia).
  rewrite drop_app_le by lia. rewrite skipn_firstn_comm.
  replace (Z.to_nat (i - s + m)) with ((Z.to_nat i - Z.to_nat s) + Z.to_nat m)%nat by lia.
  replace (Z.to_nat (i - s)) with (Z.to_nat i - Z.to_nat s)%nat by lia.
  rewrite take_app_add' by (rewrite length_take, length_drop; lia).
  by rewrite take_app_le by lia.
Qed.

Lemma take_splice l i k s :
  0 <= s <= i -> i <= zlen l -> take (Z.to_nat s) (splice l i k) = take (Z.to_nat s) l.
Proof.
  unfold splice, zlen. intros. rewrite take_app_le by (rewrite length_take; lia).
  rewrite take_take. f_equal. lia.
Qed.

Lemma bytes_of_splice (P : A -> Prop) l i k :
  Forall P l -> Forall P k -> Forall P (splice l i k).
Proof. intros. unfold splice. rewrite !Forall_app. auto using Forall_take, Forall_drop. Qed.
End Arrays.

Lemma list_filter_True {A} (Q : A -> Prop) {HQ : forall x, Decision (Q x)} (l : list A) :
  (forall x, x ∈ l -> Q x) -> filter Q l = l.
Proof.
  induction l as [|x l IH]; intros H; [done|]. rewrite filter_cons_True by (apply H; left).
  by rewrite IH by (intros; apply H; by right).
Qed.

Lemma list_filter_False {A} (Q : A -> Prop) {HQ : forall x, Decision (Q x)} (l : list A) :
  (forall x, x ∈ l -> ~ Q x) -> filter Q l = [].
Proof.
  induction l as [|x l IH]; intros H; [done|]. rewrite filter_cons_False by (apply H; left).
  by apply IH; intros; apply H; right.
Qed.

(** The elements of a list with their indices. *)
Fixpoint zindex {A} (i : Z) (l : list A) : list (Z * A) :=
  match l with
  | [] => []
  | x :: l => (i, x) :: zindex (i + 1) l
  end.

(** A loop that reads an array in order runs over the elements. *)
Lemma for_list {E S A} (f : Z -> A -> S -> outcome E S) (l : list A) : forall pre post s,
  for_loop (length l) (zlen pre)
    (fun k s => let* x := aget (pre ++ l ++ post) k in f k x s) s =
  ofold (fun p => f p.1 p.2) (zindex (zlen pre) l) s.
Proof.
  induction l as [|x l IH]; intros pre post s; [done|].
  cbn [length for_loop zindex ofold fst snd].
  assert (aget (pre ++ (x :: l) ++ post) (zlen pre) = (Ok x : outcome E A)) as ->.
  { apply aget_Ok. unfold zlen. split; [lia|]. rewrite Nat2Z.id. by apply list_lookup_middle. }
  cbn [obind]. destruct (f (zlen pre) x s) as [s'| |]; simpl; [|done..].
  specialize (IH (pre ++ [x]) post s'). rewrite <- app_assoc in IH. simpl in IH.
  replace (zlen pre + 1) with (zlen (pre ++ [x])); [done|].
  unfold zlen. rewrite length_app. simpl. lia.
Qed.

Lemma for_prefix {E S A} (f : Z -> A -> S -> outcome E S) (l arr : list A) s :
  l `prefix_of` arr ->
  for_range 0 (zlen l) (fun k s => let* x := aget arr k in f k x s) s =
  ofold (fun p => f p.1 p.2) (zindex 0 l) s.
Proof.
  intros [post ->]. unfold for_range, zlen at 1. rewrite Z.sub_0_r, Nat2Z.id.
  apply (for_list f l [] post s).
Qed.

Lemma bytes_slice l i n : bytes l -> bytes (slice l i n).
Proof. intros. unfold slice. by apply Forall_take, Forall_drop. Qed.

Lemma zlen_app {A} (l k : list A) : zlen (l ++ k) = zlen l + zlen k.
Proof. unfold zlen. rewrite length_app. lia. Qed.

Lemma zlen_insert {A} (l : list A) i x : zlen (<[i := x]> l) = zlen l.
Proof. unfold zlen. by rewrite length_insert. Qed.

Lemma lookup_insert_Z {A} (l : list A) i x : 0 <= i < zlen l -> <[Z.to_nat i := x]> l !! Z.to_nat i = Some x.
Proof. unfold zlen. intros. apply list_lookup_insert_eq. lia. Qed.

Lemma zlen_replicate {A} n (x : A) : zlen (replicate n x) = Z.of_nat n.
Proof. unfold zlen. by rewrite length_replicate. Qed.

Lemma zlen_cons {A} (x : A) l : zlen (x :: l) = zlen l + 1.
Proof. unfold zlen. simpl. lia. Qed.

#[export] Hint Rewrite @zlen_app @zlen_insert @zlen_replicate @zlen_cons : zlen.

Lemma bytes_insert l i b : bytes l -> is_byte b -> bytes (<[i := b]> l).
Proof. intros. by apply Forall_insert. Qed.

Lemma bytes_lookup l i b : bytes l -> l !! i = Some b -> is_byte b.
Proof. intros H. by apply Forall_lookup_1. Qed.

(** ** Bits *)

Lemma testbit_wrap w x i : 0 <= w -> 0 <= i -> Z.testbit (wrap w x) i = (i <? w) && Z.testbit x i.
Proof. intros. unfold wrap. apply Z.testbit_mod_pow2. lia. Qed.

Lemma testbit_small x w i : 0 <= x < 2 ^ w -> w <= i -> Z.testbit x i = false.
Proof.
  intros Hx Hi. destruct (decide (0 <= w)).
  - rewrite <- (Z.mod_small x (2 ^ w)) by done. by apply Z.mod_pow2_bits_high.
  - rewrite Z.pow_neg_r in Hx by lia. lia.
Qed.

(** [a] fits below bit [n], so or-ing in [b << n] is an addition. *)
Lemma lor_shiftl_add a b n : 0 <= n -> 0 <= a < 2 ^ n -> Z.lor a (Z.shiftl b n) = a + b * 2 ^ n.
Proof.
  intros Hn Ha. rewrite <- Z.shiftl_mul_pow2 by done.
  apply Z.bits_inj'. intros i Hi.
  rewrite Z.lor_spec, Z.shiftl_spec by done.
  destruct (Z.lt_ge_cases i n).
  - rewrite (Z.testbit_neg_r b) by lia. rewrite orb_false_r.
    rewrite Z.shiftl_mul_pow2 by done.
    rewrite <- (Z.mod_pow2_bits_low (a + b * 2 ^ n) n i) by lia.
    by rewrite Z.mod_add, Z.mod_small by lia.
  - rewrite (testbit_small a n) by lia. simpl.
    rewrite Z.shiftl_mul_pow2 by done.
    replace i with (i - n + n) at 2 by lia.
    rewrite <- Z.shiftr_spec by lia. f_equal.
    by rewrite Z.shiftr_div_pow2, Z.div_add, Z.div_small by lia.
Qed.

Lemma land_ones_wrap x n : 0 <= n -> Z.land x (2 ^ n - 1) = wrap n x.
Proof.
  intros. replace (2 ^ n - 1) with (Z.ones n) by (rewrite Z.ones_equiv; lia).
  by apply Z.land_ones.
Qed.

(** A boolean property of every number below a concrete bound, by evaluation. *)
Definition all_below (n : nat) (f : Z -> bool) : bool := forallb (fun k => f (Z.of_nat k)) (seq 0 n).

Lemma all_below_spec n f k : all_below n f = true -> 0 <= k < Z.of_nat n -> f k = true.
Proof.
  unfold all_below. rewrite List.forallb_forall. intros H Hk.
  specialize (H (Z.to_nat k)). rewrite Z2Nat.id in H by lia. apply H.
  apply List.in_seq. lia.
Qed.

(** ** Tactics *)

(** Case analysis on the boolean comparisons of the goal, as [Z] facts. *)
Ltac zcases :=
  repeat match goal with
  | |- context [?a <=? ?b] => destruct (Z.leb_spec a b)
  | |- context [?a <? ?b] => destruct (Z.ltb_spec a b)
  | |- context [?a =? ?b] => destruct (Z.eqb_spec a b)
  end.

(** Decide the comparisons of the goal that the hypotheses settle. *)
Ltac zdecide :=
  repeat match goal with
  | |- context [?a <=? ?b] =>
      first [ rewrite (proj2 (Z.leb_le a b)) by lia | rewrite (proj2 (Z.leb_gt a b)) by lia ]
  | |- context [?a <? ?b] =>
      first [ rewrite (proj2 (Z.ltb_lt a b)) by lia | rewrite (proj2 (Z.ltb_ge a b)) by lia ]
  | |- context [?a =? ?b] =>
      first [ rewrite (proj2 (Z.eqb_eq a b)) by lia | rewrite (proj2 (Z.eqb_neq a b)) by lia ]
  end.

(** Equal constructors and calls whose integer arguments [lia] identifies. *)
Ltac eq_lia := repeat first [reflexivity | lia | progress f_equal].

(** One step through a monadic definition under [wp]. *)
Ltac wp_step :=
  match goal with
  | |- wp (obind _ _) _ _ => apply wp_bind
  | |- wp (oassert _) _ _ => apply wp_assert
  | |- wp (reject_if _ _) _ _ => apply wp_reject_if; intros ?
  | |- wp (aget _ _) _ _ => apply wp_aget
  | |- wp (aset _ _ _) _ _ => apply wp_aset
  | |- wp (Ok _) _ _ => simpl
  | |- wp (Err _) _ _ => simpl
  end.
