(* ===== verification/Mem.v ===== *)
(** * mem.h: unaligned memory access in a chosen byte order

    Models the "Memory I/O" functions of zstd's [mem.h] (inlined in
    src/msgtrans/src/nativeInterop/zstd/zstd.c).  A buffer is a list of bytes
    and a pointer an index into it; an access outside the buffer is a fault.
    The two facts of the target the code tests, the width of [size_t] and the
    byte order, are the fields of the class [Platform]. *)
From S2P Require Import Prelude.

(** [sizeof(size_t)==8], [__BYTE_ORDER__ == __ORDER_LITTLE_ENDIAN__], and
    whether the compiler defines [__GNUC__] (it then has [__builtin_ctz] and the
    like).  The Android targets the library is built for are little-endian with
    both widths (armeabi-v7a and x86; arm64-v8a and x86_64), built with clang. *)
Class Platform := {
  MEM_64bits : bool;
  MEM_isLittleEndian : bool;
  GNUC : bool
}.

Definition arm64_v8a : Platform :=
  {| MEM_64bits := true; MEM_isLittleEndian := true; GNUC := true |}.
Definition armeabi_v7a : Platform :=
  {| MEM_64bits := false; MEM_isLittleEndian := true; GNUC := true |}.
(** A target with none of the three. *)
Definition be32_plain : Platform :=
  {| MEM_64bits := false; MEM_isLittleEndian := false; GNUC := false |}.

Definition MEM_32bits `{Platform} : bool := negb MEM_64bits.

Definition sizeof_size_t `{Platform} : Z := if MEM_64bits then 8 else 4.

(** ** Byte sequences and the numbers they stand for *)

Fixpoint le_val (bs : list Z) : Z :=
  match bs with
  | [] => 0
  | b :: bs => b + 256 * le_val bs
  end.

Definition be_val (bs : list Z) : Z := le_val (rev bs).

Fixpoint le_bytes (n : nat) (x : Z) : list Z :=
  match n with
  | O => []
  | S n => x mod 256 :: le_bytes n (x / 256)
  end.

(** ** Native loads and stores *)

Section Access.
Context `{P : Platform} {E : Type}.
Implicit Types (buf : list Z) (p v : Z).

Definition load_native (n : Z) buf p : outcome E Z :=
  let* bs := asub buf p n in
  Ok (if MEM_isLittleEndian then le_val bs else be_val bs).

Definition store_native (n : nat) buf p v : outcome E (list Z) :=
  awrite buf p (if MEM_isLittleEndian then le_bytes n v else rev (le_bytes n v)).

Definition MEM_read16 buf p : outcome E Z := load_native 2 buf p.
Definition MEM_read32 buf p : outcome E Z := load_native 4 buf p.
Definition MEM_read64 buf p : outcome E Z := load_native 8 buf p.
Definition MEM_readST buf p : outcome E Z := load_native sizeof_size_t buf p.

Definition MEM_write16 buf p v : outcome E (list Z) := store_native 2 buf p v.
Definition MEM_write32 buf p v : outcome E (list Z) := store_native 4 buf p v.
Definition MEM_write64 buf p v : outcome E (list Z) := store_native 8 buf p v.

(** ** Byte swaps *)

Definition MEM_swap32_fallback (x : Z) : Z :=
  Z.lor (Z.lor (Z.lor
    (Z.land (u32 (Z.shiftl x 24)) 0xff000000)
    (Z.land (u32 (Z.shiftl x 8)) 0x00ff0000))
    (Z.land (Z.shiftr x 8) 0x0000ff00))
    (Z.land (Z.shiftr x 24) 0x000000ff).

Definition MEM_swap64_fallback (x : Z) : Z :=
  Z.lor (Z.lor (Z.lor (Z.lor (Z.lor (Z.lor (Z.lor
    (Z.land (u64 (Z.shiftl x 56)) 0xff00000000000000)
    (Z.land (u64 (Z.shiftl x 40)) 0x00ff000000000000))
    (Z.land (u64 (Z.shiftl x 24)) 0x0000ff0000000000))
    (Z.land (u64 (Z.shiftl x 8)) 0x000000ff00000000))
    (Z.land (Z.shiftr x 8) 0x00000000ff000000))
    (Z.land (Z.shiftr x 24) 0x0000000000ff0000))
    (Z.land (Z.shiftr x 40) 0x000000000000ff00))
    (Z.land (Z.shiftr x 56) 0x00000000000000ff).

(** [__builtin_bswap32]/[__builtin_bswap64] where the compiler has them, the
    fallback otherwise; [bswap32_builtin] below shows they agree. *)
Definition MEM_swap32 (x : Z) : Z := MEM_swap32_fallback x.
Definition MEM_swap64 (x : Z) : Z := MEM_swap64_fallback x.

Definition MEM_swapST (x : Z) : Z :=
  if MEM_32bits then MEM_swap32 (u32 x) else MEM_swap64 x.

(** ** Little-endian access *)

Definition MEM_readLE16 buf p : outcome E Z :=
  if MEM_isLittleEndian then MEM_read16 buf p
  else
    let* p0 := aget buf p in
    let* p1 := aget buf (p + 1) in
    Ok (u16 (p0 + Z.shiftl p1 8)).

Definition MEM_writeLE16 buf p v : outcome E (list Z) :=
  if MEM_isLittleEndian then MEM_write16 buf p v
  else
    let* buf := aset buf p (u8 v) in
    aset buf (p + 1) (u8 (Z.shiftr v 8)).

Definition MEM_readLE24 buf p : outcome E Z :=
  let* lo := MEM_readLE16 buf p in
  let* hi := aget buf (p + 2) in
  Ok (u32 (lo + u32 (Z.shiftl hi 16))).

Definition MEM_writeLE24 buf p v : outcome E (list Z) :=
  let* buf := MEM_writeLE16 buf p (u16 v) in
  aset buf (p + 2) (u8 (Z.shiftr v 16)).

Definition MEM_readLE32 buf p : outcome E Z :=
  if MEM_isLittleEndian then MEM_read32 buf p
  else let* v := MEM_read32 buf p in Ok (MEM_swap32 v).

Definition MEM_writeLE32 buf p v : outcome E (list Z) :=
  if MEM_isLittleEndian then MEM_write32 buf p v
  else MEM_write32 buf p (MEM_swap32 v).

Definition MEM_readLE64 buf p : outcome E Z :=
  if MEM_isLittleEndian then MEM_read64 buf p
  else let* v := MEM_read64 buf p in Ok (MEM_swap64 v).

Definition MEM_writeLE64 buf p v : outcome E (list Z) :=
  if MEM_isLittleEndian then MEM_write64 buf p v
  else MEM_write64 buf p (MEM_swap64 v).

Definition MEM_readLEST buf p : outcome E Z :=
  if MEM_32bits then MEM_readLE32 buf p else MEM_readLE64 buf p.

Definition MEM_writeLEST buf p v : outcome E (list Z) :=
  if MEM_32bits then MEM_writeLE32 buf p (u32 v) else MEM_writeLE64 buf p v.

(** ** Big-endian access *)

Definition MEM_readBE32 buf p : outcome E Z :=
  if MEM_isLittleEndian then let* v := MEM_read32 buf p in Ok (MEM_swap32 v)
  else MEM_read32 buf p.

Definition MEM_writeBE32 buf p v : outcome E (list Z) :=
  if MEM_isLittleEndian then MEM_write32 buf p (MEM_swap32 v)
  else MEM_write32 buf p v.

Definition MEM_readBE64 buf p : outcome E Z :=
  if MEM_isLittleEndian then let* v := MEM_read64 buf p in Ok (MEM_swap64 v)
  else MEM_read64 buf p.

Definition MEM_writeBE64 buf p v : outcome E (list Z) :=
  if MEM_isLittleEndian then MEM_write64 buf p (MEM_swap64 v)
  else MEM_write64 buf p v.

Definition MEM_readBEST buf p : outcome E Z :=
  if MEM_32bits then MEM_readBE32 buf p else MEM_readBE64 buf p.

Definition MEM_writeBEST buf p v : outcome E (list Z) :=
  if MEM_32bits then MEM_writeBE32 buf p (u32 v) else MEM_writeBE64 buf p v.
End Access.

(** ** Numbers and bytes *)

Lemma length_le_bytes n x : length (le_bytes n x) = n.
Proof. revert x; induction n; simpl; auto. Qed.

Lemma bytes_le_bytes n x : bytes (le_bytes n x).
Proof.
  revert x; induction n as [|n IH]; intros x; simpl; constructor; [|apply IH].
  unfold is_byte. apply Z.mod_pos_bound. lia.
Qed.

Lemma le_val_range bs : bytes bs -> 0 <= le_val bs < 256 ^ zlen bs.
Proof.
  induction 1 as [|b bs Hb _ IH]; [done|]. cbn [le_val].
  rewrite zlen_cons, Z.pow_add_r by (unfold zlen; lia). unfold is_byte in Hb. lia.
Qed.

Lemma le_val_bytes n x : le_val (le_bytes n x) = x mod 256 ^ Z.of_nat n.
Proof.
  revert x; induction n as [|n IH]; intros x; cbn [le_bytes le_val]; [by rewrite Z.mod_1_r|].
  rewrite IH, Nat2Z.inj_succ, Z.pow_succ_r, Z.rem_mul_r by lia. lia.
Qed.

Lemma le_bytes_val bs : bytes bs -> le_bytes (length bs) (le_val bs) = bs.
Proof.
  induction 1 as [|b bs Hb _ IH]; [done|]. cbn [le_bytes le_val length]. unfold is_byte in Hb.
  rewrite (Z.mul_comm 256), Z.mod_add, Z.mod_small, Z.div_add, Z.div_small by lia.
  by rewrite Z.add_0_l, IH.
Qed.

Lemma le_bytes_mod n x : le_bytes n (x mod 256 ^ Z.of_nat n) = le_bytes n x.
Proof.
  rewrite <- le_val_bytes. pose proof (le_bytes_val (le_bytes n x) (bytes_le_bytes n x)) as H.
  by rewrite length_le_bytes in H.
Qed.

Lemma le_val_app a b : le_val (a ++ b) = le_val a + 256 ^ zlen a * le_val b.
Proof.
  induction a as [|x a IH]; cbn [le_val app]; [unfold zlen; simpl; lia|].
  rewrite IH, zlen_cons, Z.pow_add_r by (unfold zlen; lia). lia.
Qed.

Lemma le_val_testbit bs i :
  bytes bs -> 0 <= i ->
  Z.testbit (le_val bs) i = Z.testbit (nth (Z.to_nat (i / 8)) bs 0) (i mod 8).
Proof.
  intros Hbs; revert i; induction Hbs as [|b bs Hb _ IH]; intros i Hi.
  - cbn [le_val]. destruct (Z.to_nat (i / 8)); cbn [nth]; by rewrite !Z.bits_0.
  - cbn [le_val]. unfold is_byte in Hb.
    rewrite (Z.mul_comm 256). change 256 with (2 ^ 8) in *.
    rewrite <- (lor_shiftl_add b) by lia. rewrite Z.lor_spec, Z.shiftl_spec by done.
    destruct (Z.lt_ge_cases i 8).
    + rewrite (Z.testbit_neg_r _ (i - 8)), orb_false_r by lia.
      by rewrite Z.div_small, Z.mod_small by lia.
    + rewrite (testbit_small b 8) by lia. simpl. rewrite IH by lia.
      replace (i / 8) with ((i - 8) / 8 + 1)
        by (rewrite <- Z.div_add by lia; f_equal; lia).
      replace (i mod 8) with ((i - 8) mod 8)
        by (rewrite <- (Z.mod_add _ 1) by lia; f_equal; lia).
      assert (0 <= (i - 8) / 8) by (apply Z.div_pos; lia).
      by rewrite Z2Nat.inj_add, Nat.add_1_r by lia.
Qed.

Lemma take_le_bytes k n x : (k <= n)%nat -> take k (le_bytes n x) = le_bytes k x.
Proof.
  revert n x; induction k as [|k IH]; intros [|n] x Hk; try done; try lia.
  cbn [le_bytes take]. by rewrite IH by lia.
Qed.

(** ** Swaps reverse the bytes *)

Lemma le_bytes_byte n x i :
  (i < n)%nat -> nth i (le_bytes n x) 0 = (x / 256 ^ Z.of_nat i) mod 256.
Proof.
  revert x i; induction n as [|n IH]; intros x i Hi; [lia|]. destruct i as [|i]; cbn [le_bytes nth].
  - by rewrite Z.pow_0_r, Z.div_1_r.
  - rewrite IH by lia. rewrite Z.div_div by lia.
    rewrite <- Z.pow_succ_r, Nat2Z.inj_succ by lia. done.
Qed.

Lemma le_bytes_lookup n x i :
  (i < n)%nat -> le_bytes n x !! i = Some ((x / 256 ^ Z.of_nat i) mod 256).
Proof.
  intros Hi. destruct (nth_lookup_or_length (le_bytes n x) i 0) as [H|H].
  - by rewrite H, le_bytes_byte.
  - rewrite length_le_bytes in H. lia.
Qed.

Lemma testbit_byte x k i :
  0 <= k -> 0 <= i < 8 -> Z.testbit ((x / 256 ^ k) mod 256) i = Z.testbit x (8 * k + i).
Proof.
  intros Hk Hi. change 256 with (2 ^ 8) at 2. rewrite Z.mod_pow2_bits_low by lia.
  change 256 with (2 ^ 8). rewrite <- Z.pow_mul_r by lia.
  rewrite Z.div_pow2_bits by lia. f_equal; lia.
Qed.

(** Bit [i] of a byte-reversed [n]-byte number. *)
Lemma testbit_swap n x i :
  0 <= i ->
  Z.testbit (le_val (rev (le_bytes n x))) i =
  (i <? 8 * Z.of_nat n) && Z.testbit x (8 * (Z.of_nat n - 1 - i / 8) + i mod 8).
Proof.
  intros Hi. rewrite le_val_testbit; [|by apply List.Forall_rev, bytes_le_bytes|done].
  assert (Hr : 0 <= i mod 8 < 8) by (apply Z.mod_pos_bound; lia).
  assert (Hd : i = 8 * (i / 8) + i mod 8) by (apply Z.div_mod; lia).
  assert (0 <= i / 8) by (apply Z.div_pos; lia).
  destruct (Z.ltb_spec i (8 * Z.of_nat n)); simpl.
  - rewrite rev_nth by (rewrite length_le_bytes; lia). rewrite length_le_bytes.
    rewrite le_bytes_byte by lia. rewrite testbit_byte by lia. f_equal. lia.
  - rewrite nth_overflow by (rewrite length_rev, length_le_bytes; lia). apply Z.bits_0.
Qed.

Lemma testbit_land_mask y m i :
  0 <= m -> 0 <= i ->
  Z.testbit (Z.land y (Z.shiftl 255 m)) i = (m <=? i) && (i <? m + 8) && Z.testbit y i.
Proof.
  intros Hm Hi. rewrite Z.land_spec, Z.shiftl_spec by done.
  change 255 with (Z.ones 8). rewrite Z.testbit_ones by lia.
  zcases; try lia; simpl; by rewrite ?andb_true_r, ?andb_false_r.
Qed.

(** The byte [i] belongs to, as one of the eight possible cases. *)
Ltac byte_cases i :=
  let q := fresh "q" in let r := fresh "r" in let Hq := fresh "Hq" in
  pose proof (Z.div_mod i 8 ltac:(lia)); pose proof (Z.mod_pos_bound i 8 ltac:(lia));
  set (q := i / 8) in *; set (r := i mod 8) in *;
  assert (q = 0 \/ q = 1 \/ q = 2 \/ q = 3 \/ q = 4 \/ q = 5 \/ q = 6 \/ q = 7) as Hq by lia;
  repeat (destruct Hq as [Hq|Hq]).

Ltac swap_bits x i :=
  rewrite ?Z.lor_spec;
  repeat (rewrite testbit_land_mask by lia);
  repeat (rewrite testbit_wrap by lia);
  repeat (rewrite Z.shiftl_spec by lia);
  repeat (rewrite Z.shiftr_spec by lia);
  zdecide; rewrite ?andb_true_l, ?andb_false_l, ?orb_false_l, ?orb_false_r;
  try (f_equal; lia); try done.

Lemma MEM_swap32_fallback_rev x :
  0 <= x < 2 ^ 32 -> MEM_swap32_fallback x = le_val (rev (le_bytes 4 x)).
Proof.
  intros Hx. unfold MEM_swap32_fallback.
  change 0xff000000 with (Z.shiftl 255 24). change 0x00ff0000 with (Z.shiftl 255 16).
  change 0x0000ff00 with (Z.shiftl 255 8). change 0x000000ff with (Z.shiftl 255 0).
  apply Z.bits_inj'. intros i Hi. rewrite testbit_swap by done. change (Z.of_nat 4) with 4.
  destruct (Z.ltb_spec i (8 * 4)).
  - byte_cases i; swap_bits x i.
  - swap_bits x i.
Qed.

Lemma MEM_swap64_fallback_rev x :
  0 <= x < 2 ^ 64 -> MEM_swap64_fallback x = le_val (rev (le_bytes 8 x)).
Proof.
  intros Hx. unfold MEM_swap64_fallback.
  change 0xff00000000000000 with (Z.shiftl 255 56). change 0x00ff000000000000 with (Z.shiftl 255 48).
  change 0x0000ff0000000000 with (Z.shiftl 255 40). change 0x000000ff00000000 with (Z.shiftl 255 32).
  change 0x00000000ff000000 with (Z.shiftl 255 24). change 0x0000000000ff0000 with (Z.shiftl 255 16).
  change 0x000000000000ff00 with (Z.shiftl 255 8). change 0x00000000000000ff with (Z.shiftl 255 0).
  apply Z.bits_inj'. intros i Hi. rewrite testbit_swap by done. change (Z.of_nat 8) with 8.
  destruct (Z.ltb_spec i (8 * 8)).
  - byte_cases i; swap_bits x i.
  - swap_bits x i.
Qed.

(** ** The accessors, on any platform, read and write the same numbers *)

Section Accessors.
Context `{P : Platform} {E : Type}.

Lemma swap_le_be bs n :
  bytes bs -> length bs = n -> le_val (rev (le_bytes n (be_val bs))) = le_val bs.
Proof.
  intros Hb <-. unfold be_val. rewrite <- (length_rev bs).
  rewrite le_bytes_val by by apply List.Forall_rev. by rewrite rev_involutive.
Qed.

Lemma length_slice_bytes (buf : list Z) p n :
  0 <= p -> 0 <= n -> p + n <= zlen buf -> length (slice buf p n) = Z.to_nat n.
Proof. intros. pose proof (zlen_slice buf p n). unfold zlen in *. lia. Qed.

Lemma le_val_slice_range buf p n :
  bytes buf -> 0 <= p -> 0 <= n -> p + n <= zlen buf ->
  0 <= le_val (slice buf p n) < 2 ^ (8 * n).
Proof.
  intros Hb Hp Hn Hl. pose proof (le_val_range (slice buf p n)) as H.
  rewrite zlen_slice in H by done. change 256 with (2 ^ 8) in H.
  rewrite <- Z.pow_mul_r in H by lia. by apply H, bytes_slice.
Qed.

Lemma be_val_slice_range buf p n :
  bytes buf -> 0 <= p -> 0 <= n -> p + n <= zlen buf ->
  0 <= be_val (slice buf p n) < 2 ^ (8 * n).
Proof.
  intros Hb Hp Hn Hl. unfold be_val. pose proof (le_val_range (rev (slice buf p n))) as H.
  unfold zlen in H. rewrite length_rev, length_slice_bytes, Z2Nat.id in H by lia.
  change 256 with (2 ^ 8) in H. rewrite <- Z.pow_mul_r in H by lia.
  by apply H, List.Forall_rev, bytes_slice.
Qed.

Lemma MEM_readLE16_val buf p :
  bytes buf -> 0 <= p -> p + 2 <= zlen buf ->
  MEM_readLE16 buf p = (Ok (le_val (slice buf p 2)) : outcome E Z).
Proof.
  intros Hb Hp Hl. unfold MEM_readLE16, MEM_read16, load_native.
  rewrite asub_Ok by lia. destruct MEM_isLittleEndian; simpl; [done|].
  destruct (lookup_lt_is_Some_2 buf (Z.to_nat p)) as [b0 H0]; [unfold zlen in *; lia|].
  destruct (lookup_lt_is_Some_2 buf (Z.to_nat (p + 1))) as [b1 H1]; [unfold zlen in *; lia|].
  rewrite (proj2 (aget_Ok buf p b0)), (proj2 (aget_Ok buf (p + 1) b1)) by (split; [lia|done]).
  simpl. pose proof (bytes_lookup _ _ _ Hb H0). pose proof (bytes_lookup _ _ _ Hb H1).
  unfold is_byte in *. rewrite Z.shiftl_mul_pow2, wrap_small by lia.
  rewrite (slice_cons _ _ _ b0), (slice_cons _ (p + 1) _ b1) by (lia || done).
  unfold slice. simpl. f_equal. lia.
Qed.

Lemma MEM_readLE24_val buf p :
  bytes buf -> 0 <= p -> p + 3 <= zlen buf ->
  MEM_readLE24 buf p = (Ok (le_val (slice buf p 3)) : outcome E Z).
Proof.
  intros Hb Hp Hl. unfold MEM_readLE24. rewrite MEM_readLE16_val by (done || lia). simpl.
  destruct (lookup_lt_is_Some_2 buf (Z.to_nat (p + 2))) as [b2 H2]; [unfold zlen in *; lia|].
  rewrite (proj2 (aget_Ok buf (p + 2) b2)) by (split; [lia|done]). simpl.
  pose proof (bytes_lookup _ _ _ Hb H2). unfold is_byte in *.
  pose proof (le_val_slice_range buf p 2 Hb Hp ltac:(lia) ltac:(lia)).
  rewrite Z.shiftl_mul_pow2, !wrap_small by (rewrite ?wrap_small; lia).
  assert (slice buf p 3 = slice buf p 2 ++ [b2]) as ->.
  { unfold slice. change (Z.to_nat 3) with (S 2). rewrite (take_S_r _ _ b2); [done|].
    rewrite lookup_drop. rewrite <- H2. f_equal. lia. }
  rewrite le_val_app, zlen_slice by lia. simpl. f_equal. lia.
Qed.

Lemma MEM_readLE32_val buf p :
  bytes buf -> 0 <= p -> p + 4 <= zlen buf ->
  MEM_readLE32 buf p = (Ok (le_val (slice buf p 4)) : outcome E Z).
Proof.
  intros Hb Hp Hl. unfold MEM_readLE32, MEM_read32, load_native.
  rewrite asub_Ok by lia. destruct MEM_isLittleEndian; simpl; [done|].
  unfold MEM_swap32. rewrite MEM_swap32_fallback_rev by by apply be_val_slice_range.
  rewrite swap_le_be; [done|by apply bytes_slice|by apply length_slice_bytes].
Qed.

Lemma MEM_readLE64_val buf p :
  bytes buf -> 0 <= p -> p + 8 <= zlen buf ->
  MEM_readLE64 buf p = (Ok (le_val (slice buf p 8)) : outcome E Z).
Proof.
  intros Hb Hp Hl. unfold MEM_readLE64, MEM_read64, load_native.
  rewrite asub_Ok by lia. destruct MEM_isLittleEndian; simpl; [done|].
  unfold MEM_swap64. rewrite MEM_swap64_fallback_rev by by apply be_val_slice_range.
  rewrite swap_le_be; [done|by apply bytes_slice|by apply length_slice_bytes].
Qed.

Lemma MEM_readLEST_val buf p :
  bytes buf -> 0 <= p -> p + sizeof_size_t <= zlen buf ->
  MEM_readLEST buf p = (Ok (le_val (slice buf p sizeof_size_t)) : outcome E Z).
Proof.
  unfold MEM_readLEST, MEM_32bits, sizeof_size_t. destruct MEM_64bits; simpl; intros.
  - by apply MEM_readLE64_val.
  - by apply MEM_readLE32_val.
Qed.

Lemma zlen_le_bytes n x : zlen (le_bytes n x) = Z.of_nat n.
Proof. unfold zlen. by rewrite length_le_bytes. Qed.

Lemma swap_bytes n x :
  0 <= x < 256 ^ Z.of_nat n ->
  rev (le_bytes n (le_val (rev (le_bytes n x)))) = le_bytes n x.
Proof.
  intros Hx. pose proof (length_le_bytes n x) as Hl. rewrite <- length_rev in Hl.
  rewrite <- Hl at 1. rewrite le_bytes_val by by apply List.Forall_rev, bytes_le_bytes.
  by rewrite rev_involutive.
Qed.

Lemma MEM_writeLE32_val buf p v :
  0 <= v < 2 ^ 32 -> 0 <= p -> p + 4 <= zlen buf ->
  MEM_writeLE32 buf p v = (Ok (splice buf p (le_bytes 4 v)) : outcome E (list Z)).
Proof.
  intros Hv Hp Hl. unfold MEM_writeLE32, MEM_write32, store_native, MEM_swap32.
  rewrite MEM_swap32_fallback_rev, swap_bytes by done.
  destruct MEM_isLittleEndian; apply awrite_Ok; rewrite ?zlen_le_bytes; lia.
Qed.

Lemma MEM_writeLE64_val buf p v :
  0 <= v < 2 ^ 64 -> 0 <= p -> p + 8 <= zlen buf ->
  MEM_writeLE64 buf p v = (Ok (splice buf p (le_bytes 8 v)) : outcome E (list Z)).
Proof.
  intros Hv Hp Hl. unfold MEM_writeLE64, MEM_write64, store_native, MEM_swap64.
  rewrite MEM_swap64_fallback_rev, swap_bytes by done.
  destruct MEM_isLittleEndian; apply awrite_Ok; rewrite ?zlen_le_bytes; lia.
Qed.

Lemma MEM_writeLE16_val buf p v :
  0 <= v < 2 ^ 16 -> 0 <= p -> p + 2 <= zlen buf ->
  MEM_writeLE16 buf p v = (Ok (splice buf p (le_bytes 2 v)) : outcome E (list Z)).
Proof.
  intros Hv Hp Hl. unfold MEM_writeLE16, MEM_write16, store_native.
  destruct MEM_isLittleEndian; [apply awrite_Ok; rewrite ?zlen_le_bytes; lia|].
  rewrite aset_Ok by lia. simpl. rewrite aset_Ok by (rewrite zlen_insert; lia). f_equal.
  rewrite <- !splice_one by (rewrite ?zlen_insert; lia).
  rewrite (splice_app buf p [_] [_]) by (unfold zlen in *; simpl; lia). simpl.
  unfold wrap. by rewrite Z.shiftr_div_pow2 by lia.
Qed.

Lemma MEM_writeLE24_val buf p v :
  0 <= v < 2 ^ 24 -> 0 <= p -> p + 3 <= zlen buf ->
  MEM_writeLE24 buf p v = (Ok (splice buf p (le_bytes 3 v)) : outcome E (list Z)).
Proof.
  intros Hv Hp Hl. unfold MEM_writeLE24.
  rewrite MEM_writeLE16_val by (lia || (apply wrap_range; lia)). cbn [obind].
  rewrite aset_Ok by (rewrite zlen_splice; unfold zlen in *; simpl in *; lia). f_equal.
  rewrite <- splice_one by (rewrite zlen_splice; unfold zlen in *; simpl in *; lia).
  unfold wrap. change (2 ^ 16) with (256 ^ Z.of_nat 2). rewrite le_bytes_mod.
  rewrite (splice_app buf p (le_bytes 2 v) [_]) by (unfold zlen in *; simpl; lia). rewrite Z.shiftr_div_pow2 by lia.
  cbn [le_bytes app]. by rewrite Z.div_div by lia.
Qed.

(** The [k]-byte little-endian image of a [size_t]. *)
Lemma MEM_writeLEST_val buf p v :
  0 <= v < 2 ^ (8 * sizeof_size_t) -> 0 <= p -> p + sizeof_size_t <= zlen buf ->
  MEM_writeLEST buf p v =
  (Ok (splice buf p (le_bytes (Z.to_nat sizeof_size_t) v)) : outcome E (list Z)).
Proof.
  unfold MEM_writeLEST, MEM_32bits, sizeof_size_t. destruct MEM_64bits; simpl; intros.
  - by apply MEM_writeLE64_val.
  - rewrite wrap_small by done. by apply MEM_writeLE32_val.
Qed.

Lemma MEM_readBE32_val buf p :
  bytes buf -> 0 <= p -> p + 4 <= zlen buf ->
  MEM_readBE32 buf p = (Ok (be_val (slice buf p 4)) : outcome E Z).
Proof.
  intros Hb Hp Hl. unfold MEM_readBE32, MEM_read32, load_native.
  rewrite asub_Ok by lia. destruct MEM_isLittleEndian; simpl; [|done].
  unfold MEM_swap32. rewrite MEM_swap32_fallback_rev by by apply le_val_slice_range.
  pose proof (le_bytes_val (slice buf p 4) (bytes_slice _ _ _ Hb)) as H.
  rewrite length_slice_bytes in H by lia. change (Z.to_nat 4) with 4%nat in H. by rewrite H.
Qed.

Lemma MEM_readBE64_val buf p :
  bytes buf -> 0 <= p -> p + 8 <= zlen buf ->
  MEM_readBE64 buf p = (Ok (be_val (slice buf p 8)) : outcome E Z).
Proof.
  intros Hb Hp Hl. unfold MEM_readBE64, MEM_read64, load_native.
  rewrite asub_Ok by lia. destruct MEM_isLittleEndian; simpl; [|done].
  unfold MEM_swap64. rewrite MEM_swap64_fallback_rev by by apply le_val_slice_range.
  pose proof (le_bytes_val (slice buf p 8) (bytes_slice _ _ _ Hb)) as H.
  rewrite length_slice_bytes in H by lia. change (Z.to_nat 8) with 8%nat in H. by rewrite H.
Qed.

Lemma MEM_writeBE32_val buf p v :
  0 <= v < 2 ^ 32 -> 0 <= p -> p + 4 <= zlen buf ->
  MEM_writeBE32 buf p v = (Ok (splice buf p (rev (le_bytes 4 v))) : outcome E (list Z)).
Proof.
  intros Hv Hp Hl. unfold MEM_writeBE32, MEM_write32, store_native, MEM_swap32.
  rewrite MEM_swap32_fallback_rev by done.
  assert (le_bytes 4 (le_val (rev (le_bytes 4 v))) = rev (le_bytes 4 v)) as ->.
  { rewrite <- (rev_involutive (le_bytes 4 (le_val _))). by rewrite swap_bytes. }
  destruct MEM_isLittleEndian; apply awrite_Ok; unfold zlen in *; simpl; lia.
Qed.

Lemma MEM_writeBE64_val buf p v :
  0 <= v < 2 ^ 64 -> 0 <= p -> p + 8 <= zlen buf ->
  MEM_writeBE64 buf p v = (Ok (splice buf p (rev (le_bytes 8 v))) : outcome E (list Z)).
Proof.
  intros Hv Hp Hl. unfold MEM_writeBE64, MEM_write64, store_native, MEM_swap64.
  rewrite MEM_swap64_fallback_rev by done.
  assert (le_bytes 8 (le_val (rev (le_bytes 8 v))) = rev (le_bytes 8 v)) as ->.
  { rewrite <- (rev_involutive (le_bytes 8 (le_val _))). by rewrite swap_bytes. }
  destruct MEM_isLittleEndian; apply awrite_Ok; unfold zlen in *; simpl; lia.
Qed.
End Accessors.

(** ** Properties *)

(** On every platform (either width of [size_t], either byte order), reading
    inside a byte buffer with the little-endian accessors gives the number whose
    little-endian digits are the bytes there, and with the big-endian accessors
    the number whose big-endian digits they are: what is read depends on the
    bytes only, never on the host's byte order. *)
Theorem MEM_read_endian_independent `{P : Platform} {E} (buf : list Z) p n :
  bytes buf -> 0 <= p -> p + n <= zlen buf ->
  (n = 2 -> MEM_readLE16 buf p = (Ok (le_val (slice buf p n)) : outcome E Z)) /\
  (n = 3 -> MEM_readLE24 buf p = (Ok (le_val (slice buf p n)) : outcome E Z)) /\
  (n = 4 -> MEM_readLE32 buf p = (Ok (le_val (slice buf p n)) : outcome E Z)) /\
  (n = 8 -> MEM_readLE64 buf p = (Ok (le_val (slice buf p n)) : outcome E Z)) /\
  (n = sizeof_size_t -> MEM_readLEST buf p = (Ok (le_val (slice buf p n)) : outcome E Z)) /\
  (n = 4 -> MEM_readBE32 buf p = (Ok (be_val (slice buf p n)) : outcome E Z)) /\
  (n = 8 -> MEM_readBE64 buf p = (Ok (be_val (slice buf p n)) : outcome E Z)).
Proof.
  intros Hb Hp Hl. repeat split; intros ->;
    auto using MEM_readLE16_val, MEM_readLE24_val, MEM_readLE32_val, MEM_readLE64_val,
      MEM_readLEST_val, MEM_readBE32_val, MEM_readBE64_val.
Qed.

Lemma MEM_read_endian_independent_witness :
  MEM_readLE24 (P := be32_plain)
    [7; 1; 2; 3; 9] 1 = (Ok (1 + 256 * 2 + 65536 * 3) : outcome unit Z).
Proof.
  refine (proj1 (proj2 (MEM_read_endian_independent [7; 1; 2; 3; 9] 1 3 _ _ _)) eq_refl).
  - eval_bytes.
  - lia.
  - vm_compute. congruence.
Defined.

(** Reads under [wp]: in bounds, the value fits its width. *)
Section WpReads.
Context `{P : Platform} {E : Type} (buf : list Z).
Hypothesis Hb : bytes buf.

Lemma wp_readLE16 p (Q : Z -> Prop) (R : E -> Prop) :
  0 <= p -> p + 2 <= zlen buf -> (forall v, 0 <= v < 2 ^ 16 -> Q v) -> wp (MEM_readLE16 buf p) Q R.
Proof. intros Hp Hl HQ. rewrite MEM_readLE16_val by done. apply HQ, (le_val_slice_range buf p 2); done || lia. Qed.

Lemma wp_readLE24 p (Q : Z -> Prop) (R : E -> Prop) :
  0 <= p -> p + 3 <= zlen buf -> (forall v, 0 <= v < 2 ^ 24 -> Q v) -> wp (MEM_readLE24 buf p) Q R.
Proof. intros Hp Hl HQ. rewrite MEM_readLE24_val by done. apply HQ, (le_val_slice_range buf p 3); done || lia. Qed.

Lemma wp_readLE32 p (Q : Z -> Prop) (R : E -> Prop) :
  0 <= p -> p + 4 <= zlen buf -> (forall v, 0 <= v < 2 ^ 32 -> Q v) -> wp (MEM_readLE32 buf p) Q R.
Proof. intros Hp Hl HQ. rewrite MEM_readLE32_val by done. apply HQ, (le_val_slice_range buf p 4); done || lia. Qed.

Lemma wp_readLE64 p (Q : Z -> Prop) (R : E -> Prop) :
  0 <= p -> p + 8 <= zlen buf -> (forall v, 0 <= v < 2 ^ 64 -> Q v) -> wp (MEM_readLE64 buf p) Q R.
Proof. intros Hp Hl HQ. rewrite MEM_readLE64_val by done. apply HQ, (le_val_slice_range buf p 8); done || lia. Qed.

Lemma wp_byte p (Q : Z -> Prop) (R : E -> Prop) :
  0 <= p < zlen buf -> (forall v, 0 <= v < 256 -> Q v) -> wp (aget buf p) Q R.
Proof. intros Hp HQ. apply wp_aget; [done|]. intros x Hx. by apply HQ, (bytes_lookup _ _ _ Hb Hx). Qed.
End WpReads.

Lemma le_val_le_bytes_small n x : 0 <= x < 256 ^ Z.of_nat n -> le_val (le_bytes n x) = x.
Proof. intros. rewrite le_val_bytes. by apply Z.mod_small. Qed.

(** A write in a given byte order followed by the read in that order at the
    same place. *)
Definition write_then_read {E} (w : outcome E (list Z)) (r : list Z -> Z -> outcome E Z) (p : Z) :
  outcome E Z := let* buf := w in r buf p.

Lemma write_then_read_val {E} (w : outcome E (list Z)) r buf p n (bs : list Z) v :
  bytes buf -> bytes bs -> zlen bs = n -> 0 <= p -> p + n <= zlen buf ->
  w = Ok (splice buf p bs) ->
  (forall b, bytes b -> zlen b = zlen buf -> slice b p n = bs -> r b p = Ok v) ->
  write_then_read w r p = Ok v.
Proof.
  intros Hb Hbs <- Hp Hl -> Hr. simpl. apply Hr.
  - by apply bytes_of_splice.
  - by apply zlen_splice.
  - by apply slice_splice.
Qed.

(** A number written with a little- or big-endian accessor is read back
    unchanged by the matching accessor, on every platform, for every width the
    code has, wherever the write fits in the buffer. *)
Theorem MEM_write_read `{P : Platform} {E} (buf : list Z) p v n :
  bytes buf -> 0 <= p -> p + n <= zlen buf -> 0 <= v < 256 ^ n ->
  (n = 2 -> write_then_read (MEM_writeLE16 buf p v) MEM_readLE16 p = (Ok v : outcome E Z)) /\
  (n = 3 -> write_then_read (MEM_writeLE24 buf p v) MEM_readLE24 p = (Ok v : outcome E Z)) /\
  (n = 4 -> write_then_read (MEM_writeLE32 buf p v) MEM_readLE32 p = (Ok v : outcome E Z)) /\
  (n = 8 -> write_then_read (MEM_writeLE64 buf p v) MEM_readLE64 p = (Ok v : outcome E Z)) /\
  (n = 4 -> write_then_read (MEM_writeBE32 buf p v) MEM_readBE32 p = (Ok v : outcome E Z)) /\
  (n = 8 -> write_then_read (MEM_writeBE64 buf p v) MEM_readBE64 p = (Ok v : outcome E Z)).
Proof.
  intros Hb Hp Hl Hv. repeat split; intros ->;
    (eapply write_then_read_val;
     [ done | | | done | done | first
       [ by apply MEM_writeLE16_val | by apply MEM_writeLE24_val | by apply MEM_writeLE32_val
       | by apply MEM_writeLE64_val | by apply MEM_writeBE32_val | by apply MEM_writeBE64_val ]
     | ]);
    try apply bytes_le_bytes; try apply List.Forall_rev, bytes_le_bytes;
    try (unfold zlen; rewrite ?length_rev, length_le_bytes; reflexivity);
    intros b Hbb Hbl Hs;
    (rewrite MEM_readLE16_val || rewrite MEM_readLE24_val || rewrite MEM_readLE32_val
     || rewrite MEM_readLE64_val || rewrite MEM_readBE32_val || rewrite MEM_readBE64_val);
    try done; try lia; f_equal; unfold be_val; rewrite Hs, ?rev_involutive;
    by apply le_val_le_bytes_small.
Qed.

Lemma MEM_write_read_witness :
  write_then_read (MEM_writeLE24 (P := arm64_v8a) [0; 0; 0; 0] 1 0x123456)
    (MEM_readLE24 (P := arm64_v8a)) 1 = (Ok 0x123456 : outcome unit Z).
Proof.
  refine (proj1 (proj2 (MEM_write_read (P := arm64_v8a) [0; 0; 0; 0] 1 0x123456 3 _ _ _ _)) eq_refl).
  - eval_bytes.
  - lia.
  - vm_compute. congruence.
  - lia.
Defined.
