(* ===== verification/Errors.v ===== *)
(** * zstd_errors.h, error_private.h, error_private.c: error codes

    The library reports an error by returning [(size_t)-code]; a caller tests
    the result with [ERR_isError].  The rest of the development returns the
    code as the [Err] case of an [outcome]; this file relates the two. *)
From S2P Require Import Prelude Mem.
From Stdlib Require Import String.
#[local] Open Scope string_scope.
#[local] Open Scope Z_scope.

Inductive ZSTD_ErrorCode :=
| ZSTD_error_no_error
| ZSTD_error_GENERIC
| ZSTD_error_prefix_unknown
| ZSTD_error_version_unsupported
| ZSTD_error_frameParameter_unsupported
| ZSTD_error_frameParameter_windowTooLarge
| ZSTD_error_corruption_detected
| ZSTD_error_checksum_wrong
| ZSTD_error_literals_headerWrong
| ZSTD_error_dictionary_corrupted
| ZSTD_error_dictionary_wrong
| ZSTD_error_dictionaryCreation_failed
| ZSTD_error_parameter_unsupported
| ZSTD_error_parameter_combination_unsupported
| ZSTD_error_parameter_outOfBound
| ZSTD_error_tableLog_tooLarge
| ZSTD_error_maxSymbolValue_tooLarge
| ZSTD_error_maxSymbolValue_tooSmall
| ZSTD_error_cannotProduce_uncompressedBlock
| ZSTD_error_stabilityCondition_notRespected
| ZSTD_error_stage_wrong
| ZSTD_error_init_missing
| ZSTD_error_memory_allocation
| ZSTD_error_workSpace_tooSmall
| ZSTD_error_dstSize_tooSmall
| ZSTD_error_srcSize_wrong
| ZSTD_error_dstBuffer_null
| ZSTD_error_noForwardProgress_destFull
| ZSTD_error_noForwardProgress_inputEmpty
| ZSTD_error_frameIndex_tooLarge
| ZSTD_error_seekableIO
| ZSTD_error_dstBuffer_wrong
| ZSTD_error_srcBuffer_wrong
| ZSTD_error_sequenceProducer_failed
| ZSTD_error_externalSequences_invalid
| ZSTD_error_maxCode.

#[export] Instance ZSTD_ErrorCode_eq_dec : EqDecision ZSTD_ErrorCode.
Proof. solve_decision. Defined.

(** The values of the enumeration. *)
Definition error_value (e : ZSTD_ErrorCode) : Z :=
  match e with
  | ZSTD_error_no_error => 0
  | ZSTD_error_GENERIC => 1
  | ZSTD_error_prefix_unknown => 10
  | ZSTD_error_version_unsupported => 12
  | ZSTD_error_frameParameter_unsupported => 14
  | ZSTD_error_frameParameter_windowTooLarge => 16
  | ZSTD_error_corruption_detected => 20
  | ZSTD_error_checksum_wrong => 22
  | ZSTD_error_literals_headerWrong => 24
  | ZSTD_error_dictionary_corrupted => 30
  | ZSTD_error_dictionary_wrong => 32
  | ZSTD_error_dictionaryCreation_failed => 34
  | ZSTD_error_parameter_unsupported => 40
  | ZSTD_error_parameter_combination_unsupported => 41
  | ZSTD_error_parameter_outOfBound => 42
  | ZSTD_error_tableLog_tooLarge => 44
  | ZSTD_error_maxSymbolValue_tooLarge => 46
  | ZSTD_error_maxSymbolValue_tooSmall => 48
  | ZSTD_error_cannotProduce_uncompressedBlock => 49
  | ZSTD_error_stabilityCondition_notRespected => 50
  | ZSTD_error_stage_wrong => 60
  | ZSTD_error_init_missing => 62
  | ZSTD_error_memory_allocation => 64
  | ZSTD_error_workSpace_tooSmall => 66
  | ZSTD_error_dstSize_tooSmall => 70
  | ZSTD_error_srcSize_wrong => 72
  | ZSTD_error_dstBuffer_null => 74
  | ZSTD_error_noForwardProgress_destFull => 80
  | ZSTD_error_noForwardProgress_inputEmpty => 82
  | ZSTD_error_frameIndex_tooLarge => 100
  | ZSTD_error_seekableIO => 102
  | ZSTD_error_dstBuffer_wrong => 104
  | ZSTD_error_srcBuffer_wrong => 105
  | ZSTD_error_sequenceProducer_failed => 106
  | ZSTD_error_externalSequences_invalid => 107
  | ZSTD_error_maxCode => 120
  end.

(** Functions that return a [size_t] which may be an error. *)
Notation res := (outcome ZSTD_ErrorCode).

(** [switch (code)] over the enumeration's values, with its default. *)
Definition ERR_getErrorString (code : Z) : string :=
  if code =? error_value ZSTD_error_no_error then "No error detected"
  else if code =? error_value ZSTD_error_GENERIC then "Error (generic)"
  else if code =? error_value ZSTD_error_prefix_unknown then "Unknown frame descriptor"
  else if code =? error_value ZSTD_error_version_unsupported then "Version not supported"
  else if code =? error_value ZSTD_error_frameParameter_unsupported then "Unsupported frame parameter"
  else if code =? error_value ZSTD_error_frameParameter_windowTooLarge then "Frame requires too much memory for decoding"
  else if code =? error_value ZSTD_error_corruption_detected then "Data corruption detected"
  else if code =? error_value ZSTD_error_checksum_wrong then "Restored data doesn't match checksum"
  else if code =? error_value ZSTD_error_literals_headerWrong then "Header of Literals' block doesn't respect format specification"
  else if code =? error_value ZSTD_error_dictionary_corrupted then "Dictionary is corrupted"
  else if code =? error_value ZSTD_error_dictionary_wrong then "Dictionary mismatch"
  else if code =? error_value ZSTD_error_dictionaryCreation_failed then "Cannot create Dictionary from provided samples"
  else if code =? error_value ZSTD_error_parameter_unsupported then "Unsupported parameter"
  else if code =? error_value ZSTD_error_parameter_combination_unsupported then "Unsupported combination of parameters"
  else if code =? error_value ZSTD_error_parameter_outOfBound then "Parameter is out of bound"
  else if code =? error_value ZSTD_error_tableLog_tooLarge then "tableLog requires too much memory : unsupported"
  else if code =? error_value ZSTD_error_maxSymbolValue_tooLarge then "Unsupported max Symbol Value : too large"
  else if code =? error_value ZSTD_error_maxSymbolValue_tooSmall then "Specified maxSymbolValue is too small"
  else if code =? error_value ZSTD_error_cannotProduce_uncompressedBlock then "This mode cannot generate an uncompressed block"
  else if code =? error_value ZSTD_error_stabilityCondition_notRespected then "pledged buffer stability condition is not respected"
  else if code =? error_value ZSTD_error_stage_wrong then "Operation not authorized at current processing stage"
  else if code =? error_value ZSTD_error_init_missing then "Context should be init first"
  else if code =? error_value ZSTD_error_memory_allocation then "Allocation error : not enough memory"
  else if code =? error_value ZSTD_error_workSpace_tooSmall then "workSpace buffer is not large enough"
  else if code =? error_value ZSTD_error_dstSize_tooSmall then "Destination buffer is too small"
  else if code =? error_value ZSTD_error_srcSize_wrong then "Src size is incorrect"
  else if code =? error_value ZSTD_error_dstBuffer_null then "Operation on NULL destination buffer"
  else if code =? error_value ZSTD_error_noForwardProgress_destFull then "Operation made no progress over multiple calls, due to output buffer being full"
  else if code =? error_value ZSTD_error_noForwardProgress_inputEmpty then "Operation made no progress over multiple calls, due to input being empty"
  else if code =? error_value ZSTD_error_frameIndex_tooLarge then "Frame index is too large"
  else if code =? error_value ZSTD_error_seekableIO then "An I/O error occurred when reading/seeking"
  else if code =? error_value ZSTD_error_dstBuffer_wrong then "Destination buffer is wrong"
  else if code =? error_value ZSTD_error_srcBuffer_wrong then "Source buffer is wrong"
  else if code =? error_value ZSTD_error_sequenceProducer_failed then "Block-level external sequence producer returned an error code"
  else if code =? error_value ZSTD_error_externalSequences_invalid then "External sequences are not valid"
  else "Unspecified error code".

Section SizeT.
Context `{P : Platform}.

(** [size_t] arithmetic. *)
Definition size_t (x : Z) : Z := wrap (8 * sizeof_size_t) x.

(** [ERROR(name)], i.e. [(size_t)-ZSTD_error_name]. *)
Definition ERROR (e : ZSTD_ErrorCode) : Z := size_t (- error_value e).

Definition ERR_isError (code : Z) : bool := ERROR ZSTD_error_maxCode <? code.

(** The conversion to the enumeration keeps the number. *)
Definition ERR_getErrorCode (code : Z) : Z :=
  if negb (ERR_isError code) then 0 else size_t (0 - code).

Definition ERR_getErrorName (code : Z) : string := ERR_getErrorString (ERR_getErrorCode code).

(** How a result is returned in a [size_t]. *)
Definition to_size_t (r : res Z) : option Z :=
  match r with
  | Ok n => Some n
  | Err e => Some (ERROR e)
  | Fault _ => None
  end.
End SizeT.

(** The codes the library returns: neither [no_error] nor the sentinel. *)
Definition reportable (e : ZSTD_ErrorCode) : Prop :=
  e <> ZSTD_error_no_error /\ e <> ZSTD_error_maxCode.

Lemma reportable_value e : reportable e -> 0 < error_value e < error_value ZSTD_error_maxCode.
Proof. intros [H1 H2]. destruct e; simpl; done || lia. Qed.

Lemma error_value_inj e e' : error_value e = error_value e' -> e = e'.
Proof. by destruct e, e'. Qed.

Lemma sizeof_size_t_cases `{P : Platform} : sizeof_size_t = 4 \/ sizeof_size_t = 8.
Proof. unfold sizeof_size_t. destruct MEM_64bits; auto. Qed.

Lemma size_t_small `{P : Platform} x : 0 <= x < 2 ^ 32 -> size_t x = x.
Proof.
  intros Hx. unfold size_t. apply wrap_small. destruct sizeof_size_t_cases as [-> | ->]; simpl; lia.
Qed.

Lemma ERROR_value `{P : Platform} e :
  0 < error_value e <= error_value ZSTD_error_maxCode ->
  ERROR e = 2 ^ (8 * sizeof_size_t) - error_value e.
Proof.
  intros He. change (error_value ZSTD_error_maxCode) with 120 in He.
  unfold ERROR, size_t, wrap. set (v := error_value e) in *.
  rewrite <- (Z.mod_add _ 1) by (destruct sizeof_size_t_cases as [-> | ->]; done).
  rewrite Z.mod_small; [lia|]. destruct sizeof_size_t_cases as [-> | ->]; lia.
Qed.

(** The codes that are errors. *)
Definition real_error (e : ZSTD_ErrorCode) : Prop := 0 < error_value e < error_value ZSTD_error_maxCode.

Lemma isError_ERROR `{P : Platform} e : real_error e -> ERR_isError (ERROR e) = true.
Proof.
  unfold real_error, ERR_isError. intros He. rewrite !ERROR_value by (vm_compute (error_value ZSTD_error_maxCode) in *; lia).
  apply Z.ltb_lt. lia.
Qed.

Lemma isError_size `{P : Platform} n : n <= 2 ^ (8 * sizeof_size_t) - 120 -> ERR_isError n = false.
Proof.
  intros Hn. unfold ERR_isError. rewrite ERROR_value by (vm_compute; split; congruence).
  change (error_value ZSTD_error_maxCode) with 120. apply Z.ltb_ge. lia.
Qed.

(** A function's [size_t] result tells a size from an error code without
    ambiguity: every error the library reports is recognised by [ERR_isError]
    and gives back its own code and message, and no size up to
    [2^w - 120] is taken for an error. *)
Theorem ERR_encoding_faithful `{P : Platform} :
  (forall e, reportable e ->
     ERR_isError (ERROR e) = true /\
     ERR_getErrorCode (ERROR e) = error_value e /\
     ERR_getErrorName (ERROR e) = ERR_getErrorString (error_value e)) /\
  (forall n, 0 <= n <= 2 ^ (8 * sizeof_size_t) - 120 ->
     ERR_isError n = false /\ ERR_getErrorCode n = 0) /\
  (forall e e', reportable e -> reportable e' -> ERROR e = ERROR e' -> e = e').
Proof.
  assert (Hmax : ERROR ZSTD_error_maxCode = 2 ^ (8 * sizeof_size_t) - 120)
    by (apply ERROR_value; simpl; lia).
  assert (Hrep : forall e, reportable e -> ERR_isError (ERROR e) = true /\
            ERR_getErrorCode (ERROR e) = error_value e).
  { intros e He. apply reportable_value in He. simpl in He.
    unfold ERR_getErrorCode, ERR_isError. rewrite Hmax, ERROR_value by (simpl; lia).
    rewrite (proj2 (Z.ltb_lt _ _)) by lia. split; [done|]. simpl negb. cbv iota.
    unfold size_t, wrap. rewrite <- (Z.mod_add _ 1) by (destruct sizeof_size_t_cases as [-> | ->]; done).
    rewrite Z.mod_small; [lia|]. destruct sizeof_size_t_cases as [-> | ->]; lia. }
  repeat split.
  - by apply Hrep.
  - by apply Hrep.
  - unfold ERR_getErrorName. by rewrite (proj2 (Hrep e H)).
  - unfold ERR_isError. rewrite Hmax. lia.
  - unfold ERR_getErrorCode, ERR_isError. rewrite Hmax.
    by rewrite (proj2 (Z.ltb_ge _ _)) by lia.
  - intros e e' He He' Heq. apply error_value_inj.
    rewrite <- (proj2 (Hrep e He)), <- (proj2 (Hrep e' He')). by rewrite Heq.
Qed.
