(* ===== verification/Bits.v ===== *)
(** * bits.h: bit scans and rotations

    Each scan has a compiler-builtin version and a portable fallback with a
    de Bruijn table; [GNUC] selects.  The builtins are modelled by their
    documented meaning, and the fallbacks are shown to compute the same. *)
From S2P Require Import Prelude Mem.

(** [__builtin_ctz], [__builtin_clz] of a nonzero value. *)
Fixpoint pos_ctz (p : positive) : Z :=
  match p with
  | xO p => 1 + pos_ctz p
  | _ => 0
  end.

Definition builtin_ctz (v : Z) : Z := match v with Zpos p => pos_ctz p | _ => 0 end.
Definition builtin_clz (w v : Z) : Z := w - 1 - Z.log2 v.

Definition DeBruijnBytePos : list Z :=
  [0; 1; 28; 2; 29; 14; 24; 3;
   30; 22; 20; 15; 25; 17; 4; 8;
   31; 27; 13; 23; 21; 19; 16; 7;
   26; 12; 18; 6; 11; 5; 10; 9].

Definition DeBruijnClz : list Z :=
  [0; 9; 1; 10; 13; 21; 2; 29;
   11; 14; 16; 18; 22; 25; 3; 30;
   8; 12; 20; 28; 15; 17; 24; 7;
   19; 27; 23; 6; 26; 5; 4; 31].

Section Bits.
Context `{P : Platform} {E : Type}.
Implicit Types val count : Z.

Definition ZSTD_countTrailingZeros32_fallback val : outcome E Z :=
  oassert (negb (val =? 0)) ;;;
  aget DeBruijnBytePos (Z.shiftr (u32 (Z.land val (u32 (- val)) * 0x077CB531)) 27).

Definition ZSTD_countTrailingZeros32 val : outcome E Z :=
  oassert (negb (val =? 0)) ;;;
  if GNUC then Ok (builtin_ctz val)
  else ZSTD_countTrailingZeros32_fallback val.

Definition ZSTD_countLeadingZeros32_fallback val : outcome E Z :=
  oassert (negb (val =? 0)) ;;;
  let val := Z.lor val (Z.shiftr val 1) in
  let val := Z.lor val (Z.shiftr val 2) in
  let val := Z.lor val (Z.shiftr val 4) in
  let val := Z.lor val (Z.shiftr val 8) in
  let val := Z.lor val (Z.shiftr val 16) in
  let* d := aget DeBruijnClz (Z.shiftr (u32 (val * 0x07C4ACDD)) 27) in
  Ok (31 - d).

Definition ZSTD_countLeadingZeros32 val : outcome E Z :=
  oassert (negb (val =? 0)) ;;;
  if GNUC then Ok (builtin_clz 32 val)
  else ZSTD_countLeadingZeros32_fallback val.

(** [__LP64__] holds on the 64-bit targets. *)
Definition ZSTD_countTrailingZeros64 val : outcome E Z :=
  oassert (negb (val =? 0)) ;;;
  if GNUC && MEM_64bits then Ok (builtin_ctz val)
  else
    let mostSignificantWord := u32 (Z.shiftr val 32) in
    let leastSignificantWord := u32 val in
    if leastSignificantWord =? 0
    then let* c := ZSTD_countTrailingZeros32 mostSignificantWord in Ok (32 + c)
    else ZSTD_countTrailingZeros32 leastSignificantWord.

Definition ZSTD_countLeadingZeros64 val : outcome E Z :=
  oassert (negb (val =? 0)) ;;;
  if GNUC then Ok (builtin_clz 64 val)
  else
    let mostSignificantWord := u32 (Z.shiftr val 32) in
    let leastSignificantWord := u32 val in
    if mostSignificantWord =? 0
    then let* c := ZSTD_countLeadingZeros32 leastSignificantWord in Ok (32 + c)
    else ZSTD_countLeadingZeros32 mostSignificantWord.

Definition ZSTD_NbCommonBytes val : outcome E Z :=
  if MEM_isLittleEndian then
    if MEM_64bits
    then let* c := ZSTD_countTrailingZeros64 val in Ok (Z.shiftr c 3)
    else let* c := ZSTD_countTrailingZeros32 (u32 val) in Ok (Z.shiftr c 3)
  else
    if MEM_64bits
    then let* c := ZSTD_countLeadingZeros64 val in Ok (Z.shiftr c 3)
    else let* c := ZSTD_countLeadingZeros32 (u32 val) in Ok (Z.shiftr c 3).

Definition ZSTD_highbit32 val : outcome E Z :=
  oassert (negb (val =? 0)) ;;;
  let* c := ZSTD_countLeadingZeros32 val in Ok (31 - c).

Definition ZSTD_rotateRight_U64 (value count : Z) : outcome E Z :=
  oassert (count <? 64) ;;;
  let count := Z.land count 0x3F in
  Ok (Z.lor (Z.shiftr value count) (u64 (Z.shiftl value (Z.land (u32 (0 - count)) 0x3F)))).

Definition ZSTD_rotateRight_U32 (value count : Z) : outcome E Z :=
  oassert (count <? 32) ;;;
  let count := Z.land count 0x1F in
  Ok (Z.lor (Z.shiftr value count) (u32 (Z.shiftl value (Z.land (u32 (0 - count)) 0x1F)))).

Definition ZSTD_rotateRight_U16 (value count : Z) : outcome E Z :=
  oassert (count <? 16) ;;;
  let count := Z.land count 0x0F in
  Ok (Z.lor (Z.shiftr value count) (u16 (Z.shiftl value (Z.land (u32 (0 - count)) 0x0F)))).
End Bits.

(** ** Trailing zeros *)

Lemma pos_ctz_nonneg p : 0 <= pos_ctz p.
Proof. induction p; simpl; lia. Qed.

Lemma land_opp v : 0 < v -> Z.land v (- v) = 2 ^ builtin_ctz v.
Proof.
  intros Hv. destruct v as [|p|p]; try lia. clear Hv. unfold builtin_ctz.
  induction p as [p IH|p IH|]; [| |done].
  - simpl pos_ctz. replace (- Zpos p~1) with (2 * Z.lnot (Zpos p) + 1) by (unfold Z.lnot; lia).
    replace (Zpos p~1) with (2 * Zpos p + 1) by lia.
    apply Z.bits_inj'. intros i Hi. rewrite Z.land_spec. destruct (Z.eq_dec i 0) as [->|Hne].
    + by rewrite !Z.testbit_odd_0.
    + replace i with (Z.succ (i - 1)) by lia. rewrite !Z.testbit_odd_succ by lia.
      rewrite Z.lnot_spec by lia. rewrite andb_negb_r.
      symmetry. apply (testbit_small 1 1); lia.
  - simpl pos_ctz. replace (- Zpos p~0) with (2 * - Zpos p) by lia.
    replace (Zpos p~0) with (2 * Zpos p) by lia.
    rewrite Z.pow_add_r, <- IH by (try apply pos_ctz_nonneg; lia).
    change (2 ^ 1) with 2. apply Z.bits_inj'. intros i Hi.
    rewrite Z.land_spec. destruct (Z.eq_dec i 0) as [->|Hne].
    + by rewrite !Z.testbit_even_0.
    + replace i with (Z.succ (i - 1)) by lia.
      by rewrite !Z.testbit_even_succ, Z.land_spec by lia.
Qed.

(** [ctz v] is the exponent of the largest power of two dividing [v]. *)
Lemma builtin_ctz_spec v :
  0 < v -> 0 <= builtin_ctz v /\ v mod 2 ^ builtin_ctz v = 0 /\ Z.odd (v / 2 ^ builtin_ctz v) = true.
Proof.
  intros Hv. destruct v as [|p|p]; try lia. clear Hv. unfold builtin_ctz.
  induction p as [p IH|p IH|]; [| |done].
  - simpl pos_ctz. rewrite Z.pow_0_r, Z.mod_1_r, Z.div_1_r. done.
  - destruct IH as (H1 & H2 & H3). simpl pos_ctz. split; [lia|].
    rewrite Z.pow_add_r by lia. change (2 ^ 1) with 2. replace (Zpos p~0) with (2 * Zpos p) by lia.
    assert (0 < 2 ^ pos_ctz p) by (apply pow2_pos; lia).
    rewrite Z.mul_mod_distr_l, H2, Z.div_mul_cancel_l by lia. done.
Qed.

Lemma builtin_ctz_lt v w : 0 < v < 2 ^ w -> builtin_ctz v < w.
Proof.
  intros Hv. destruct (builtin_ctz_spec v) as (H1 & H2 & H3); [lia|].
  destruct (Z.lt_ge_cases (builtin_ctz v) w); [done|].
  assert (v / 2 ^ builtin_ctz v = 0) as H0.
  { apply Z.div_small. split; [lia|]. eapply Z.lt_le_trans; [apply Hv|].
    by apply Z.pow_le_mono_r. }
  by rewrite H0 in H3.
Qed.

Definition ok_eqb {E} (m : outcome E Z) (k : Z) : bool :=
  match m with Ok x => x =? k | _ => false end.

Lemma ok_eqb_eq {E} (m : outcome E Z) k : ok_eqb m k = true -> m = Ok k.
Proof. destruct m; simpl; try done. intros ?%Z.eqb_eq. by f_equal. Qed.

Section Fallbacks.
Context {E : Type}.

Lemma DeBruijnBytePos_pow2 k :
  0 <= k < 32 ->
  aget DeBruijnBytePos (Z.shiftr (u32 (2 ^ k * 0x077CB531)) 27) = (Ok k : outcome E Z).
Proof.
  intros Hk. apply ok_eqb_eq.
  refine (all_below_spec 32 (fun k => ok_eqb (aget _ (Z.shiftr (u32 (2 ^ k * _)) 27)) k) k _ Hk).
  vm_compute. reflexivity.
Qed.

Lemma DeBruijnClz_ones k :
  0 <= k < 32 ->
  aget DeBruijnClz (Z.shiftr (u32 ((2 ^ (k + 1) - 1) * 0x07C4ACDD)) 27) = (Ok k : outcome E Z).
Proof.
  intros Hk. apply ok_eqb_eq.
  refine (all_below_spec 32
    (fun k => ok_eqb (aget _ (Z.shiftr (u32 ((2 ^ (k + 1) - 1) * _)) 27)) k) k _ Hk).
  vm_compute. reflexivity.
Qed.

Lemma land_wrap_l v w x : 0 <= w -> 0 <= v < 2 ^ w -> Z.land v (wrap w x) = Z.land v x.
Proof.
  intros Hw Hv. apply Z.bits_inj'. intros i Hi. rewrite !Z.land_spec, testbit_wrap by done.
  destruct (Z.ltb_spec i w); [done|]. by rewrite (testbit_small v w).
Qed.

Lemma nonzero_assert val : 0 < val -> oassert (negb (val =? 0)) = (Ok tt : outcome E unit).
Proof. intros. by rewrite (proj2 (Z.eqb_neq val 0)) by lia. Qed.

Lemma ctz32_fallback_builtin val :
  0 < val < 2 ^ 32 -> ZSTD_countTrailingZeros32_fallback val = (Ok (builtin_ctz val) : outcome E Z).
Proof.
  intros Hv. unfold ZSTD_countTrailingZeros32_fallback. rewrite nonzero_assert by lia. cbn [obind].
  rewrite land_wrap_l, land_opp by lia. apply DeBruijnBytePos_pow2.
  split; [apply builtin_ctz_spec; lia|by apply builtin_ctz_lt].
Qed.

(** The top bit of [v] is [k] and the [m] bits from [k] down are set. *)
Definition smeared (v k m : Z) : Prop :=
  (forall i, k < i -> Z.testbit v i = false) /\
  (forall i, 0 <= i -> k - m < i <= k -> Z.testbit v i = true).

Lemma smear_step v k m : 0 < m -> smeared v k m -> smeared (Z.lor v (Z.shiftr v m)) k (2 * m).
Proof.
  intros Hm [Hhi Hlo]. split; intros i Hi.
  - destruct (Z.lt_ge_cases i 0); [by rewrite Z.testbit_neg_r|].
    rewrite Z.lor_spec, Z.shiftr_spec by lia. by rewrite !Hhi by lia.
  - intros Hk. rewrite Z.lor_spec, Z.shiftr_spec by lia.
    destruct (Z.lt_ge_cases (k - m) i).
    + by rewrite Hlo by lia.
    + rewrite (Hlo (i + m)) by lia. apply orb_true_r.
Qed.

Lemma smeared_log2 v : 0 < v -> smeared v (Z.log2 v) 1.
Proof.
  intros Hv. split.
  - intros i Hi. apply Z.bits_above_log2; lia.
  - intros i _ Hi. replace i with (Z.log2 v) by lia. by apply Z.bit_log2.
Qed.

Lemma smeared_all v k m : 0 <= k < m -> smeared v k m -> v = 2 ^ (k + 1) - 1.
Proof.
  intros Hk [Hhi Hlo]. replace (2 ^ (k + 1) - 1) with (Z.ones (k + 1)) by (rewrite Z.ones_equiv; lia).
  apply Z.bits_inj'. intros i Hi. rewrite Z.testbit_ones by lia.
  destruct (Z.lt_ge_cases k i).
  - rewrite Hhi by done. zdecide. done.
  - rewrite Hlo by lia. zdecide. done.
Qed.

Lemma clz32_fallback_builtin val :
  0 < val < 2 ^ 32 -> ZSTD_countLeadingZeros32_fallback val = (Ok (builtin_clz 32 val) : outcome E Z).
Proof.
  intros Hv. unfold ZSTD_countLeadingZeros32_fallback. rewrite nonzero_assert by lia. cbn [obind].
  assert (Hl : 0 <= Z.log2 val < 32) by (split; [apply Z.log2_nonneg|apply Z.log2_lt_pow2; lia]).
  cbv zeta. match goal with
  | |- context [u32 (?v * _)] => assert (smeared v (Z.log2 val) 32) as Hs
  end.
  - apply (smear_step _ _ 16), (smear_step _ _ 8), (smear_step _ _ 4), (smear_step _ _ 2),
      (smear_step _ _ 1), smeared_log2; lia.
  - rewrite (smeared_all _ _ _ Hl Hs), DeBruijnClz_ones by done.
    done.
Qed.
End Fallbacks.

Lemma builtin_ctz_unique t m : 0 <= t -> 0 < m -> Z.odd m = true -> builtin_ctz (2 ^ t * m) = t.
Proof.
  intros Ht Hm Ho. assert (0 < 2 ^ t) by (apply pow2_pos; lia).
  destruct (builtin_ctz_spec (2 ^ t * m)) as (H1 & H2 & H3); [lia|].
  set (c := builtin_ctz _) in *. destruct (Z.lt_trichotomy c t) as [Hlt|[?|Hgt]]; [exfalso|done|exfalso].
  - replace t with (c + (1 + (t - c - 1))) in H3 by lia. rewrite !Z.pow_add_r in H3 by lia.
    rewrite <- !Z.mul_assoc, Z.mul_comm, Z.div_mul in H3 by (apply Z.pow_nonzero; lia).
    change (2 ^ 1) with 2 in H3. by rewrite Z.odd_mul in H3.
  - replace c with (t + (1 + (c - t - 1))) in H2 by lia. rewrite (Z.pow_add_r 2 t) in H2 by lia.
    rewrite Z.mul_mod_distr_l in H2 by (try apply Z.pow_nonzero; lia).
    rewrite Z.pow_add_r in H2 by lia. change (2 ^ 1) with 2 in H2.
    assert (0 < 2 ^ (c - t - 1)) by (apply pow2_pos; lia).
    assert (m mod 2 = 0) as Hm2.
    { rewrite Z.rem_mul_r in H2 by lia.
      pose proof (Z.mod_pos_bound m 2). pose proof (Z.mod_pos_bound (m / 2) (2 ^ (c - t - 1))). lia. }
    rewrite Zmod_odd, Ho in Hm2. done.
Qed.

Lemma builtin_ctz_add_high d r w :
  0 < d < 2 ^ w -> 0 <= r -> builtin_ctz (d + 2 ^ w * r) = builtin_ctz d.
Proof.
  intros Hd Hr. destruct (builtin_ctz_spec d) as (H1 & H2 & H3); [lia|].
  pose proof (builtin_ctz_lt d w Hd) as Hlt. set (c := builtin_ctz d) in *.
  assert (0 < 2 ^ c) by (apply pow2_pos; lia).
  assert (0 < 2 ^ (w - c - 1)) by (apply pow2_pos; lia).
  assert (d = 2 ^ c * (d / 2 ^ c)) as Hdc by (apply Z.div_exact; lia).
  set (q := d / 2 ^ c) in *. assert (0 < q) by nia.
  replace (d + 2 ^ w * r) with (2 ^ c * (q + 2 * (2 ^ (w - c - 1) * r))).
  - apply builtin_ctz_unique; [lia|nia|]. by rewrite Z.odd_add_mul_2.
  - assert (2 ^ w = 2 ^ c * (2 * 2 ^ (w - c - 1))) as ->; [|nia].
    rewrite <- (Z.pow_succ_r 2), <- Z.pow_add_r by lia. f_equal. lia.
Qed.

Section Scans.
Context `{P : Platform} {E : Type}.

Lemma ctz32_val val :
  0 < val < 2 ^ 32 -> ZSTD_countTrailingZeros32 val = (Ok (builtin_ctz val) : outcome E Z).
Proof.
  intros. unfold ZSTD_countTrailingZeros32. rewrite nonzero_assert by lia. simpl.
  destruct GNUC; [done|by apply ctz32_fallback_builtin].
Qed.

Lemma clz32_val val :
  0 < val < 2 ^ 32 -> ZSTD_countLeadingZeros32 val = (Ok (31 - Z.log2 val) : outcome E Z).
Proof.
  intros. unfold ZSTD_countLeadingZeros32. rewrite nonzero_assert by lia. simpl.
  destruct GNUC; [|rewrite clz32_fallback_builtin by done]; done.
Qed.

Lemma split64 val : 0 <= val < 2 ^ 64 ->
  val = u32 val + 2 ^ 32 * u32 (Z.shiftr val 32) /\
  0 <= u32 val < 2 ^ 32 /\ 0 <= u32 (Z.shiftr val 32) < 2 ^ 32.
Proof.
  intros Hv. rewrite Z.shiftr_div_pow2 by lia.
  rewrite (wrap_small 32 (val / 2 ^ 32)).
  - unfold wrap. pose proof (Z.div_mod val (2 ^ 32) ltac:(lia)).
    pose proof (Z.mod_pos_bound val (2 ^ 32) ltac:(lia)). lia.
  - split; [apply Z.div_pos; lia|apply Z.div_lt_upper_bound; lia].
Qed.

Lemma ctz64_val val :
  0 < val < 2 ^ 64 -> ZSTD_countTrailingZeros64 val = (Ok (builtin_ctz val) : outcome E Z).
Proof.
  intros Hv. unfold ZSTD_countTrailingZeros64. rewrite nonzero_assert by lia. cbn [obind].
  destruct (GNUC && MEM_64bits); [done|].
  destruct (split64 val) as (Hs & Hlo & Hhi); [lia|].
  destruct (Z.eqb_spec (u32 val) 0) as [H0|Hne].
  - rewrite ctz32_val by lia. cbn [obind]. f_equal.
    assert (Hh : 0 < u32 (Z.shiftr val 32)) by lia.
    destruct (builtin_ctz_spec _ Hh) as (H1 & H2 & H3).
    set (h := u32 (Z.shiftr val 32)) in *. rewrite Hs, H0, Z.add_0_l.
    assert (0 < 2 ^ builtin_ctz h) by (apply pow2_pos; lia).
    assert (h = 2 ^ builtin_ctz h * (h / 2 ^ builtin_ctz h)) as Hd by (apply Z.div_exact; lia).
    rewrite Hd at 2. rewrite Z.mul_assoc, <- Z.pow_add_r by lia.
    set (q := h / _) in *. rewrite builtin_ctz_unique; [done|lia|nia|done].
  - rewrite ctz32_val by lia. f_equal. rewrite Hs at 2. symmetry. apply builtin_ctz_add_high; lia.
Qed.

Lemma log2_add_high lo hi w :
  0 <= w -> 0 <= lo < 2 ^ w -> 0 < hi -> Z.log2 (lo + 2 ^ w * hi) = w + Z.log2 hi.
Proof.
  intros Hw Hlo Hhi. destruct (Z.log2_spec hi Hhi) as [H1 H2].
  pose proof (Z.log2_nonneg hi). apply Z.log2_unique; [lia|].
  rewrite Z.pow_succ_r in * by lia. rewrite Z.pow_add_r by lia. nia.
Qed.

Lemma clz64_val val :
  0 < val < 2 ^ 64 -> ZSTD_countLeadingZeros64 val = (Ok (63 - Z.log2 val) : outcome E Z).
Proof.
  intros Hv. unfold ZSTD_countLeadingZeros64. rewrite nonzero_assert by lia. cbn [obind].
  destruct GNUC; [done|]. destruct (split64 val) as (Hs & Hlo & Hhi); [lia|].
  destruct (Z.eqb_spec (u32 (Z.shiftr val 32)) 0) as [H0|Hne].
  - rewrite clz32_val by lia. cbn [obind]. f_equal. rewrite Hs at 2. rewrite H0, Z.mul_0_r, Z.add_0_r. lia.
  - rewrite clz32_val by lia. f_equal. rewrite Hs at 2. rewrite log2_add_high by lia. lia.
Qed.

Lemma highbit32_val val :
  0 < val < 2 ^ 32 -> ZSTD_highbit32 val = (Ok (Z.log2 val) : outcome E Z).
Proof.
  intros. unfold ZSTD_highbit32. rewrite nonzero_assert by lia. cbn [obind].
  rewrite clz32_val by done. simpl. f_equal. lia.
Qed.

Lemma wp_highbit32 val (Q : Z -> Prop) (R : E -> Prop) :
  0 < val < 2 ^ 32 -> Q (Z.log2 val) -> wp (ZSTD_highbit32 val) Q R.
Proof. intros. by rewrite highbit32_val. Qed.
End Scans.

(** ** Common prefixes of two words *)

Lemma lxor_range a b n : 0 <= n -> 0 <= a < 2 ^ n -> 0 <= b < 2 ^ n -> 0 <= Z.lxor a b < 2 ^ n.
Proof.
  intros Hn Ha Hb. assert (Z.lxor a b = wrap n (Z.lxor a b)) as ->; [|by apply wrap_range].
  apply Z.bits_inj'. intros i Hi. rewrite testbit_wrap by done.
  destruct (Z.ltb_spec i n); [done|]. rewrite Z.lxor_spec.
  by rewrite (testbit_small a n), (testbit_small b n) by lia.
Qed.

Lemma lxor_split a b r s n :
  0 <= n -> 0 <= a < 2 ^ n -> 0 <= b < 2 ^ n ->
  Z.lxor (a + r * 2 ^ n) (b + s * 2 ^ n) = Z.lxor a b + Z.lxor r s * 2 ^ n.
Proof.
  intros Hn Ha Hb. pose proof (lxor_range a b n Hn Ha Hb).
  rewrite <- !lor_shiftl_add by done. apply Z.bits_inj'. intros i Hi.
  rewrite Z.lxor_spec, !Z.lor_spec, Z.lxor_spec, !Z.shiftl_spec by done.
  destruct (Z.lt_ge_cases i n).
  - rewrite !(Z.testbit_neg_r _ (i - n)) by lia. btauto.
  - rewrite (testbit_small a n), (testbit_small b n), Z.lxor_spec by lia. btauto.
Qed.

Fixpoint common_prefix (xs ys : list Z) : Z :=
  match xs, ys with
  | x :: xs, y :: ys => if x =? y then 1 + common_prefix xs ys else 0
  | _, _ => 0
  end.

Lemma common_prefix_split xs ys :
  length xs = length ys -> xs <> ys ->
  exists c a b xs' ys', xs = c ++ a :: xs' /\ ys = c ++ b :: ys' /\ a <> b /\
    length xs' = length ys' /\ common_prefix xs ys = zlen c.
Proof.
  revert ys; induction xs as [|x xs IH]; intros [|y ys] Hl Hne; try done. simpl in Hl |- *.
  destruct (Z.eqb_spec x y) as [->|Hxy].
  - destruct (IH ys) as (c & a & b & xs' & ys' & -> & -> & Hab & Hl' & Hc); [lia|congruence|].
    exists (y :: c), a, b, xs', ys'. rewrite zlen_cons. repeat split; done || lia.
  - exists [], x, y, xs, ys. repeat split; auto.
Qed.

(** What a native load of the word's bytes gives. *)
Definition native_val `{P : Platform} (bs : list Z) : Z :=
  if MEM_isLittleEndian then le_val bs else be_val bs.

Lemma le_val_cons_pow a l : le_val (a :: l) = a + le_val l * 2 ^ 8.
Proof. cbn [le_val]. lia. Qed.

Lemma le_val_app_pow a b : le_val (a ++ b) = le_val a + le_val b * 2 ^ (8 * zlen a).
Proof.
  rewrite le_val_app, (Z.pow_mul_r 2 8) by (unfold zlen; lia). change (2 ^ 8) with 256. lia.
Qed.

Lemma le_val_range_pow bs : bytes bs -> 0 <= le_val bs < 2 ^ (8 * zlen bs).
Proof.
  intros H. rewrite (Z.pow_mul_r 2 8) by (unfold zlen; lia). by apply le_val_range.
Qed.

Lemma lxor_pos a b : 0 <= a -> 0 <= b -> a <> b -> 0 < Z.lxor a b.
Proof.
  intros. pose proof (proj2 (Z.lxor_nonneg a b)) as Hnn.
  assert (Z.lxor a b <> 0) by (intros ?%Z.lxor_eq; done). lia.
Qed.

Lemma lxor_byte_range a b : is_byte a -> is_byte b -> a <> b -> 0 < Z.lxor a b < 2 ^ 8.
Proof.
  unfold is_byte. intros. split; [apply lxor_pos; lia|apply lxor_range; lia].
Qed.

Section Prefix.
Context `{P : Platform}.
Variables (c xs ys : list Z) (a b : Z).
Hypotheses (Hc : bytes c) (Hxs : bytes xs) (Hys : bytes ys) (Ha : is_byte a) (Hb : is_byte b).
Hypotheses (Hab : a <> b) (Hl : length xs = length ys).

Let d := Z.lxor a b.

Lemma lxor_le_prefix :
  Z.lxor (le_val (c ++ a :: xs)) (le_val (c ++ b :: ys)) =
  2 ^ (8 * zlen c) * (d + 2 ^ 8 * Z.lxor (le_val xs) (le_val ys)).
Proof.
  pose proof (zlen_nonneg c). rewrite !le_val_app_pow, !le_val_cons_pow.
  rewrite lxor_split by (lia || by apply le_val_range_pow).
  rewrite Z.lxor_nilpotent, lxor_split by (unfold is_byte in *; lia). unfold d. lia.
Qed.

Lemma lxor_be_prefix :
  exists r, 0 <= r < 2 ^ (8 * zlen xs) /\
  Z.lxor (be_val (c ++ a :: xs)) (be_val (c ++ b :: ys)) = r + 2 ^ (8 * zlen xs) * d.
Proof.
  unfold be_val. rewrite !rev_app_distr. cbn [rev]. rewrite <- !app_assoc.
  exists (Z.lxor (le_val (rev xs)) (le_val (rev ys))).
  assert (zlen (rev xs) = zlen xs /\ zlen (rev ys) = zlen xs) as [Hzx Hzy]
    by (unfold zlen; rewrite !length_rev; lia).
  pose proof (le_val_range_pow (rev xs)) as Hrx. pose proof (le_val_range_pow (rev ys)) as Hry.
  rewrite Hzx in Hrx. rewrite Hzy in Hry. pose proof (zlen_nonneg xs).
  assert (bytes (rev xs) /\ bytes (rev ys)) as [? ?] by (split; by apply List.Forall_rev).
  split; [by apply lxor_range; [lia|apply Hrx|apply Hry]|].
  rewrite !le_val_app_pow, Hzx, Hzy. rewrite lxor_split by auto with lia.
  change (8 * zlen [a]) with 8. change (8 * zlen [b]) with 8. cbn [le_val].
  rewrite !Z.mul_0_r, !Z.add_0_r, lxor_split by (unfold is_byte in *; lia).
  rewrite Z.lxor_nilpotent. unfold d. lia.
Qed.
End Prefix.

Lemma ctz_mul_pow2 k m : 0 <= k -> 0 < m -> builtin_ctz (2 ^ k * m) = k + builtin_ctz m.
Proof.
  intros Hk Hm. destruct (builtin_ctz_spec m Hm) as (H1 & H2 & H3).
  set (t := builtin_ctz m) in *. assert (0 < 2 ^ t) by (apply pow2_pos; lia).
  assert (m = 2 ^ t * (m / 2 ^ t)) as Hd by (apply Z.div_exact; lia).
  set (q := m / 2 ^ t) in *. rewrite Hd, Z.mul_assoc, <- Z.pow_add_r by lia.
  apply builtin_ctz_unique; [lia|nia|done].
Qed.

Lemma NbCommonBytes_val `{P : Platform} {E} v :
  0 < v < 2 ^ (8 * sizeof_size_t) ->
  ZSTD_NbCommonBytes v = (Ok ((if MEM_isLittleEndian then builtin_ctz v
                               else 8 * sizeof_size_t - 1 - Z.log2 v) / 8) : outcome E Z).
Proof.
  unfold ZSTD_NbCommonBytes, sizeof_size_t.
  destruct MEM_64bits; intros Hv; [change (8 * 8) with 64 in *|change (8 * 4) with 32 in *].
  - rewrite ctz64_val, clz64_val by done.
    destruct MEM_isLittleEndian; cbn [obind]; by rewrite Z.shiftr_div_pow2 by lia.
  - rewrite (wrap_small 32 v), ctz32_val, clz32_val by lia.
    destruct MEM_isLittleEndian; cbn [obind]; by rewrite Z.shiftr_div_pow2 by lia.
Qed.

Section NbCommon.
Context `{P : Platform} {E : Type}.
Variables (c xs ys : list Z) (a b : Z).
Hypotheses (Hc : bytes c) (Hxs : bytes xs) (Hys : bytes ys) (Ha : is_byte a) (Hb : is_byte b).
Hypotheses (Hab : a <> b) (Hl : length xs = length ys).
Hypothesis Hw : zlen c + (zlen xs + 1) = sizeof_size_t.

Lemma NbCommonBytes_le :
  MEM_isLittleEndian = true ->
  ZSTD_NbCommonBytes (Z.lxor (le_val (c ++ a :: xs)) (le_val (c ++ b :: ys))) =
  (Ok (zlen c) : outcome E Z).
Proof.
  intros Hle. pose proof (lxor_byte_range a b Ha Hb Hab) as Hd. pose proof (zlen_nonneg c) as Hzc.
  pose proof (le_val_range_pow xs Hxs) as Hx. pose proof (le_val_range_pow ys Hys) as Hy.
  replace (zlen ys) with (zlen xs) in Hy by (unfold zlen; lia). pose proof (zlen_nonneg xs) as Hzx.
  pose proof (lxor_range _ _ (8 * zlen xs) ltac:(lia) Hx Hy) as Hr.
  rewrite lxor_le_prefix by done. set (d := Z.lxor a b) in *. set (r := Z.lxor _ _) in *.
  assert (0 < 2 ^ (8 * zlen c)) by (apply pow2_pos; lia).
  rewrite NbCommonBytes_val, Hle.
  - rewrite ctz_mul_pow2, builtin_ctz_add_high by lia.
    pose proof (builtin_ctz_lt d 8 Hd). pose proof (proj1 (builtin_ctz_spec d ltac:(lia))).
    f_equal. rewrite Z.mul_comm, Z.div_add_l, Z.div_small by lia. lia.
  - rewrite <- Hw. replace (8 * (zlen c + (zlen xs + 1))) with (8 * zlen c + (8 + 8 * zlen xs)) by lia.
    rewrite !(Z.pow_add_r 2) by lia. change (2 ^ 8) with 256 in *. nia.
Qed.

Lemma NbCommonBytes_be :
  MEM_isLittleEndian = false ->
  ZSTD_NbCommonBytes (Z.lxor (be_val (c ++ a :: xs)) (be_val (c ++ b :: ys))) =
  (Ok (zlen c) : outcome E Z).
Proof.
  intros Hbe. pose proof (lxor_byte_range a b Ha Hb Hab) as Hd. pose proof (zlen_nonneg c) as Hzc.
  destruct (lxor_be_prefix c xs ys a b) as (r & Hr & ->); try done. pose proof (zlen_nonneg xs) as Hzx.
  set (d := Z.lxor a b) in *. rewrite NbCommonBytes_val, Hbe.
  - rewrite log2_add_high by lia. f_equal.
    assert (0 <= Z.log2 d < 8) by (split; [apply Z.log2_nonneg|apply Z.log2_lt_pow2; lia]).
    replace (_ - 1 - _) with ((7 - Z.log2 d) + zlen c * 8) by lia.
    rewrite Z.div_add, Z.div_small by lia. lia.
  - rewrite <- Hw. replace (8 * (zlen c + (zlen xs + 1))) with (8 * zlen c + (8 + 8 * zlen xs)) by lia.
    rewrite !(Z.pow_add_r 2) by lia. change (2 ^ 8) with 256 in *.
    assert (0 < 2 ^ (8 * zlen c)) by (apply pow2_pos; lia). nia.
Qed.
End NbCommon.

(** On every platform, the number of common leading bytes of two different
    [size_t] words loaded from memory is what [ZSTD_NbCommonBytes] returns for
    the exclusive-or of the two words: the length of the common prefix in memory
    order, whatever the byte order of the host and with or without the compiler
    builtins. *)
Theorem ZSTD_NbCommonBytes_common_prefix `{P : Platform} {E} (xs ys : list Z) :
  bytes xs -> bytes ys -> zlen xs = sizeof_size_t -> zlen ys = sizeof_size_t -> xs <> ys ->
  ZSTD_NbCommonBytes (Z.lxor (native_val xs) (native_val ys)) =
  (Ok (common_prefix xs ys) : outcome E Z).
Proof.
  intros Hxs Hys Hlx Hly Hne. destruct (common_prefix_split xs ys) as
    (c & a & b & xs' & ys' & -> & -> & Hab & Hl & ->); [unfold zlen in *; lia|done|].
  apply Forall_app in Hxs as [Hc [Ha Hx']%Forall_cons]. apply Forall_app in Hys as [_ [Hb Hy']%Forall_cons].
  autorewrite with zlen in Hlx. pose proof (zlen_nonneg c). pose proof (zlen_nonneg xs').
  unfold native_val. destruct MEM_isLittleEndian eqn:Hen.
  - by apply NbCommonBytes_le.
  - by apply NbCommonBytes_be.
Qed.

Lemma ZSTD_NbCommonBytes_common_prefix_witness :
  ZSTD_NbCommonBytes (P := be32_plain)
    (Z.lxor (native_val (P := be32_plain) [1; 2; 3; 4]) (native_val (P := be32_plain) [1; 2; 9; 4])) =
  (Ok 2 : outcome unit Z).
Proof.
  refine (ZSTD_NbCommonBytes_common_prefix (P := be32_plain) [1; 2; 3; 4] [1; 2; 9; 4] _ _ _ _ _);
    [eval_bytes | eval_bytes | reflexivity | reflexivity | congruence].
Defined.

(** With the compiler builtins or without them, the scans return the position
    of the lowest and of the highest set bit: [ZSTD_countTrailingZeros32/64] the
    exponent of the largest power of two dividing the value, [ZSTD_highbit32]
    the integer logarithm, the leading-zero counts their complement; the
    de Bruijn fallbacks compute the same as the builtins. *)
Theorem ZSTD_bit_scans `{P : Platform} {E} val :
  0 < val ->
  (val < 2 ^ 32 ->
     ZSTD_countTrailingZeros32 val = (Ok (builtin_ctz val) : outcome E Z) /\
     ZSTD_countTrailingZeros32_fallback val = (Ok (builtin_ctz val) : outcome E Z) /\
     ZSTD_countLeadingZeros32 val = (Ok (31 - Z.log2 val) : outcome E Z) /\
     ZSTD_countLeadingZeros32_fallback val = (Ok (31 - Z.log2 val) : outcome E Z) /\
     ZSTD_highbit32 val = (Ok (Z.log2 val) : outcome E Z)) /\
  (val < 2 ^ 64 ->
     ZSTD_countTrailingZeros64 val = (Ok (builtin_ctz val) : outcome E Z) /\
     ZSTD_countLeadingZeros64 val = (Ok (63 - Z.log2 val) : outcome E Z)) /\
  val mod 2 ^ builtin_ctz val = 0 /\ Z.odd (val / 2 ^ builtin_ctz val) = true.
Proof.
  intros Hv. repeat match goal with |- _ /\ _ => split end; try (intros Hlt; repeat split);
    auto using ctz32_val, ctz32_fallback_builtin, clz32_val, highbit32_val, ctz64_val, clz64_val.
  - by apply clz32_fallback_builtin.
  - by apply builtin_ctz_spec.
  - by apply builtin_ctz_spec.
Qed.

Lemma ZSTD_bit_scans_witness :
  ZSTD_countTrailingZeros64 (P := be32_plain) (12 * 2 ^ 40) = (Ok 42 : outcome unit Z).
Proof.
  refine (proj1 (proj1 (proj2 (ZSTD_bit_scans (P := be32_plain) (12 * 2 ^ 40) _)) _)); lia.
Defined.

(** The three rotations at width [2^k]. *)
Lemma rotate_bits w k v c i :
  w = 2 ^ k -> 0 < k <= 32 -> 0 <= v < 2 ^ w -> 0 <= c < w -> 0 <= i < w ->
  Z.testbit
    (Z.lor (Z.shiftr v (Z.land c (w - 1)))
           (wrap w (Z.shiftl v (Z.land (u32 (0 - Z.land c (w - 1))) (w - 1))))) i =
  Z.testbit v ((i + c) mod w).
Proof.
  intros Hw Hk Hv Hc Hi. rewrite Hw at 1 3 4. rewrite !land_ones_wrap by lia.
  rewrite (wrap_small k c) by lia. rewrite Z.sub_0_l.
  assert (wrap k (u32 (- c)) = (- c) mod w) as ->.
  { unfold wrap. rewrite <- Hw. rewrite <- Znumtheory.Zmod_div_mod; [done|lia|lia|].
    exists (2 ^ (32 - k)). rewrite Hw, <- Z.pow_add_r by lia. f_equal. lia. }
  rewrite Z.lor_spec, testbit_wrap, Z.shiftr_spec, Z.shiftl_spec by lia. zdecide.
  destruct (Z.eq_dec c 0) as [->|Hne].
  - rewrite Z.mod_0_l, !Z.add_0_r, Z.sub_0_r, Z.mod_small by lia. apply orb_diag.
  - replace ((- c) mod w) with (w - c)
      by (symmetry; rewrite <- (Z.mod_add _ 1) by lia; rewrite Z.mod_small; lia).
    destruct (Z.lt_ge_cases (i + c) w).
    + rewrite (Z.testbit_neg_r v (i - _)), orb_false_r, Z.mod_small by lia. done.
    + rewrite (testbit_small v w (i + c)) by lia. simpl.
      rewrite <- (Z.mod_add _ (-1)) by lia. rewrite Z.mod_small by lia. f_equal. lia.
Qed.

(** [ZSTD_rotateRight_U64/U32/U16] rotate: bit [i] of the result is bit
    [i + count] (modulo the width) of the value; no bit is lost, whatever the
    count below the width, including 0. *)
Theorem ZSTD_rotateRight_rotates {E} value count i :
  0 <= count -> 0 <= i ->
  (0 <= value < 2 ^ 64 -> count < 64 -> i < 64 ->
     exists r, ZSTD_rotateRight_U64 value count = (Ok r : outcome E Z) /\
       Z.testbit r i = Z.testbit value ((i + count) mod 64)) /\
  (0 <= value < 2 ^ 32 -> count < 32 -> i < 32 ->
     exists r, ZSTD_rotateRight_U32 value count = (Ok r : outcome E Z) /\
       Z.testbit r i = Z.testbit value ((i + count) mod 32)) /\
  (0 <= value < 2 ^ 16 -> count < 16 -> i < 16 ->
     exists r, ZSTD_rotateRight_U16 value count = (Ok r : outcome E Z) /\
       Z.testbit r i = Z.testbit value ((i + count) mod 16)).
Proof.
  intros Hc Hi. unfold ZSTD_rotateRight_U64, ZSTD_rotateRight_U32, ZSTD_rotateRight_U16.
  split; [|split]; intros Hv Hlt Hil; rewrite (proj2 (Z.ltb_lt count _)) by done;
    (eexists; split; [reflexivity|]).
  - by apply (rotate_bits 64 6).
  - by apply (rotate_bits 32 5).
  - by apply (rotate_bits 16 4).
Qed.

Lemma ZSTD_rotateRight_rotates_witness :
  exists r, ZSTD_rotateRight_U32 0x80000001 1 = (Ok r : outcome unit Z) /\
    Z.testbit r 31 = Z.testbit 0x80000001 0.
Proof.
  refine (proj1 (proj2 (ZSTD_rotateRight_rotates 0x80000001 1 31 _ _)) _ _ _); lia.
Defined.
