(* ===== verification/BitStream.v ===== *)
(** * bitstream.h: writing bits forward, reading them back in reverse

    [BIT_CStream_t] accumulates bit fields in a register and writes whole bytes
    to memory; [BIT_DStream_t] reads a finished stream from its end, so the last
    field written is the first one read.  A pointer is an offset into the buffer
    the stream works on, which the model keeps as a field of the stream. *)
From S2P Require Import Prelude Mem Errors Bits.

Section Definitions.
Context `{P : Platform}.

(** [sizeof(bitContainer)*8] *)
Definition regBits : Z := sizeof_size_t * 8.

Record BIT_CStream_t := {
  c_mem : list Z;              (* the object [startPtr] points into *)
  c_bitContainer : Z;
  c_bitPos : Z;
  c_startPtr : Z;
  c_ptr : Z;
  c_endPtr : Z
}.

Definition BIT_mask : list Z :=
  [0; 1; 3; 7; 0xF; 0x1F;
   0x3F; 0x7F; 0xFF; 0x1FF; 0x3FF; 0x7FF;
   0xFFF; 0x1FFF; 0x3FFF; 0x7FFF; 0xFFFF; 0x1FFFF;
   0x3FFFF; 0x7FFFF; 0xFFFFF; 0x1FFFFF; 0x3FFFFF; 0x7FFFFF;
   0xFFFFFF; 0x1FFFFFF; 0x3FFFFFF; 0x7FFFFFF; 0xFFFFFFF; 0x1FFFFFFF;
   0x3FFFFFFF; 0x7FFFFFFF].

Definition BIT_MASK_SIZE : Z := zlen BIT_mask.

(** ** Encoding *)

Definition BIT_initCStream (mem : list Z) (startPtr dstCapacity : Z) : res BIT_CStream_t :=
  let bitC := {| c_mem := mem; c_bitContainer := 0; c_bitPos := 0;
                 c_startPtr := startPtr; c_ptr := startPtr;
                 c_endPtr := startPtr + dstCapacity - sizeof_size_t |} in
  if dstCapacity <=? sizeof_size_t then Err ZSTD_error_dstSize_tooSmall
  else Ok bitC.

(** Without BMI2. *)
Definition BIT_getLowerBits (bitContainer nbBits : Z) : res Z :=
  oassert (nbBits <? BIT_MASK_SIZE) ;;;
  let* m := aget BIT_mask nbBits in
  Ok (Z.land bitContainer m).

Definition BIT_addBits (bitC : BIT_CStream_t) (value nbBits : Z) : res BIT_CStream_t :=
  oassert (nbBits <? BIT_MASK_SIZE) ;;;
  oassert (nbBits + c_bitPos bitC <? regBits) ;;;
  let* lower := BIT_getLowerBits value nbBits in
  Ok {| c_mem := c_mem bitC;
        c_bitContainer := Z.lor (c_bitContainer bitC) (size_t (Z.shiftl lower (c_bitPos bitC)));
        c_bitPos := u32 (c_bitPos bitC + nbBits);
        c_startPtr := c_startPtr bitC; c_ptr := c_ptr bitC; c_endPtr := c_endPtr bitC |}.

Definition BIT_addBitsFast (bitC : BIT_CStream_t) (value nbBits : Z) : res BIT_CStream_t :=
  oassert (Z.shiftr value nbBits =? 0) ;;;
  oassert (nbBits + c_bitPos bitC <? regBits) ;;;
  Ok {| c_mem := c_mem bitC;
        c_bitContainer := Z.lor (c_bitContainer bitC) (size_t (Z.shiftl value (c_bitPos bitC)));
        c_bitPos := u32 (c_bitPos bitC + nbBits);
        c_startPtr := c_startPtr bitC; c_ptr := c_ptr bitC; c_endPtr := c_endPtr bitC |}.

Definition BIT_flushBitsFast (bitC : BIT_CStream_t) : res BIT_CStream_t :=
  let nbBytes := Z.shiftr (c_bitPos bitC) 3 in
  oassert (c_bitPos bitC <? regBits) ;;;
  oassert (c_ptr bitC <=? c_endPtr bitC) ;;;
  let* mem := MEM_writeLEST (c_mem bitC) (c_ptr bitC) (c_bitContainer bitC) in
  Ok {| c_mem := mem;
        c_bitContainer := Z.shiftr (c_bitContainer bitC) (nbBytes * 8);
        c_bitPos := Z.land (c_bitPos bitC) 7;
        c_startPtr := c_startPtr bitC; c_ptr := c_ptr bitC + nbBytes; c_endPtr := c_endPtr bitC |}.

Definition BIT_flushBits (bitC : BIT_CStream_t) : res BIT_CStream_t :=
  let nbBytes := Z.shiftr (c_bitPos bitC) 3 in
  oassert (c_bitPos bitC <? regBits) ;;;
  oassert (c_ptr bitC <=? c_endPtr bitC) ;;;
  let* mem := MEM_writeLEST (c_mem bitC) (c_ptr bitC) (c_bitContainer bitC) in
  let ptr := c_ptr bitC + nbBytes in
  let ptr := if c_endPtr bitC <? ptr then c_endPtr bitC else ptr in
  Ok {| c_mem := mem;
        c_bitContainer := Z.shiftr (c_bitContainer bitC) (nbBytes * 8);
        c_bitPos := Z.land (c_bitPos bitC) 7;
        c_startPtr := c_startPtr bitC; c_ptr := ptr; c_endPtr := c_endPtr bitC |}.

(** Returns the stream too, whose memory now holds the closed bit stream. *)
Definition BIT_closeCStream (bitC : BIT_CStream_t) : res (Z * BIT_CStream_t) :=
  let* bitC := BIT_addBitsFast bitC 1 1 in
  let* bitC := BIT_flushBits bitC in
  if c_endPtr bitC <=? c_ptr bitC then Ok (0, bitC)
  else Ok (c_ptr bitC - c_startPtr bitC + (if 0 <? c_bitPos bitC then 1 else 0), bitC).

(** ** Decoding *)

(** [d_ptr] is [None] once it points to the static [zeroFilled] word. *)
Record BIT_DStream_t := {
  d_mem : list Z;
  d_bitContainer : Z;
  d_bitsConsumed : Z;
  d_ptr : option Z;
  d_start : Z;
  d_limitPtr : Z
}.

Inductive BIT_DStream_status :=
| BIT_DStream_unfinished
| BIT_DStream_endOfBuffer
| BIT_DStream_completed
| BIT_DStream_overflow.

#[export] Instance BIT_DStream_status_eq_dec : EqDecision BIT_DStream_status.
Proof. solve_decision. Defined.

(** The enumerators' values. *)
Definition status_value (s : BIT_DStream_status) : Z :=
  match s with
  | BIT_DStream_unfinished => 0
  | BIT_DStream_endOfBuffer => 1
  | BIT_DStream_completed => 2
  | BIT_DStream_overflow => 3
  end.

(** [case k: bitContainer += srcBuffer[k-1] << shift; FALLTHROUGH], for a
    [switch] on [srcSize] entered at or above [k]. *)
Definition init_case (mem : list Z) (srcBuffer srcSize k shift acc : Z) : res Z :=
  if k <=? srcSize then
    let* b := aget mem (srcBuffer + (k - 1)) in
    Ok (size_t (acc + size_t (Z.shiftl b shift)))
  else Ok acc.

Definition BIT_initDStream (mem : list Z) (srcBuffer srcSize : Z) : res BIT_DStream_t :=
  if srcSize <? 1 then Err ZSTD_error_srcSize_wrong else
  let start := srcBuffer in
  let limitPtr := start + sizeof_size_t in
  if sizeof_size_t <=? srcSize then
    let ptr := srcBuffer + srcSize - sizeof_size_t in
    let* bitContainer := MEM_readLEST mem ptr in
    let* lastByte := aget mem (srcBuffer + (srcSize - 1)) in
    if lastByte =? 0 then Err ZSTD_error_GENERIC else
    let* hb := ZSTD_highbit32 lastByte in
    Ok {| d_mem := mem; d_bitContainer := bitContainer; d_bitsConsumed := 8 - hb;
          d_ptr := Some ptr; d_start := start; d_limitPtr := limitPtr |}
  else
    let* b0 := aget mem start in
    let* acc := init_case mem srcBuffer srcSize 7 (regBits - 16) b0 in
    let* acc := init_case mem srcBuffer srcSize 6 (regBits - 24) acc in
    let* acc := init_case mem srcBuffer srcSize 5 (regBits - 32) acc in
    let* acc := init_case mem srcBuffer srcSize 4 24 acc in
    let* acc := init_case mem srcBuffer srcSize 3 16 acc in
    let* acc := init_case mem srcBuffer srcSize 2 8 acc in
    let* lastByte := aget mem (srcBuffer + (srcSize - 1)) in
    if lastByte =? 0 then Err ZSTD_error_corruption_detected else
    let* hb := ZSTD_highbit32 lastByte in
    Ok {| d_mem := mem; d_bitContainer := acc;
          d_bitsConsumed := u32 (8 - hb + u32 (sizeof_size_t - srcSize) * 8);
          d_ptr := Some start; d_start := start; d_limitPtr := limitPtr |}.

Definition BIT_getUpperBits (bitContainer start : Z) : Z := Z.shiftr bitContainer start.

Definition BIT_getMiddleBits (bitContainer start nbBits : Z) : res Z :=
  let regMask := regBits - 1 in
  oassert (nbBits <? BIT_MASK_SIZE) ;;;
  let* m := aget BIT_mask nbBits in
  Ok (Z.land (Z.shiftr bitContainer (Z.land start regMask)) m).

(** [start] is computed in [size_t] and passed as a [U32]. *)
Definition BIT_lookBits (bitD : BIT_DStream_t) (nbBits : Z) : res Z :=
  BIT_getMiddleBits (d_bitContainer bitD)
    (u32 (size_t (regBits - d_bitsConsumed bitD - nbBits))) nbBits.

Definition BIT_lookBitsFast (bitD : BIT_DStream_t) (nbBits : Z) : res Z :=
  let regMask := regBits - 1 in
  oassert (1 <=? nbBits) ;;;
  Ok (Z.shiftr (size_t (Z.shiftl (d_bitContainer bitD) (Z.land (d_bitsConsumed bitD) regMask)))
        (Z.land (u32 (regMask + 1 - nbBits)) regMask)).

Definition BIT_skipBits (bitD : BIT_DStream_t) (nbBits : Z) : BIT_DStream_t :=
  {| d_mem := d_mem bitD; d_bitContainer := d_bitContainer bitD;
     d_bitsConsumed := u32 (d_bitsConsumed bitD + nbBits);
     d_ptr := d_ptr bitD; d_start := d_start bitD; d_limitPtr := d_limitPtr bitD |}.

Definition BIT_readBits (bitD : BIT_DStream_t) (nbBits : Z) : res (Z * BIT_DStream_t) :=
  let* value := BIT_lookBits bitD nbBits in
  Ok (value, BIT_skipBits bitD nbBits).

Definition BIT_readBitsFast (bitD : BIT_DStream_t) (nbBits : Z) : res (Z * BIT_DStream_t) :=
  let* value := BIT_lookBitsFast bitD nbBits in
  oassert (1 <=? nbBits) ;;;
  Ok (value, BIT_skipBits bitD nbBits).

(** A pointer into the source buffer; comparing or moving [&zeroFilled]
    against it would be an error. *)
Definition src_ptr (bitD : BIT_DStream_t) : res Z :=
  match d_ptr bitD with
  | Some p => Ok p
  | None => Fault Oob
  end.

Definition BIT_reloadDStream_internal (bitD : BIT_DStream_t) : res (BIT_DStream_status * BIT_DStream_t) :=
  oassert (d_bitsConsumed bitD <=? regBits) ;;;
  let* ptr := src_ptr bitD in
  let ptr := ptr - Z.shiftr (d_bitsConsumed bitD) 3 in
  oassert (d_start bitD <=? ptr) ;;;
  let* c := MEM_readLEST (d_mem bitD) ptr in
  Ok (BIT_DStream_unfinished,
      {| d_mem := d_mem bitD; d_bitContainer := c;
         d_bitsConsumed := Z.land (d_bitsConsumed bitD) 7;
         d_ptr := Some ptr; d_start := d_start bitD; d_limitPtr := d_limitPtr bitD |}).

Definition BIT_reloadDStreamFast (bitD : BIT_DStream_t) : res (BIT_DStream_status * BIT_DStream_t) :=
  let* ptr := src_ptr bitD in
  if ptr <? d_limitPtr bitD then Ok (BIT_DStream_overflow, bitD)
  else BIT_reloadDStream_internal bitD.

Definition BIT_reloadDStream (bitD : BIT_DStream_t) : res (BIT_DStream_status * BIT_DStream_t) :=
  if regBits <? d_bitsConsumed bitD then
    Ok (BIT_DStream_overflow,
        {| d_mem := d_mem bitD; d_bitContainer := d_bitContainer bitD;
           d_bitsConsumed := d_bitsConsumed bitD; d_ptr := None;
           d_start := d_start bitD; d_limitPtr := d_limitPtr bitD |})
  else
    let* ptr := src_ptr bitD in
    oassert (d_start bitD <=? ptr) ;;;
    if d_limitPtr bitD <=? ptr then BIT_reloadDStream_internal bitD
    else if ptr =? d_start bitD then
      if d_bitsConsumed bitD <? regBits then Ok (BIT_DStream_endOfBuffer, bitD)
      else Ok (BIT_DStream_completed, bitD)
    else
      let nbBytes := Z.shiftr (d_bitsConsumed bitD) 3 in
      let '(nbBytes, result) :=
        if ptr - nbBytes <? d_start bitD
        then (u32 (ptr - d_start bitD), BIT_DStream_endOfBuffer)
        else (nbBytes, BIT_DStream_unfinished) in
      let ptr := ptr - nbBytes in
      let* c := MEM_readLEST (d_mem bitD) ptr in
      Ok (result,
          {| d_mem := d_mem bitD; d_bitContainer := c;
             d_bitsConsumed := u32 (d_bitsConsumed bitD - nbBytes * 8);
             d_ptr := Some ptr; d_start := d_start bitD; d_limitPtr := d_limitPtr bitD |}).

Definition BIT_endOfDStream (DStream : BIT_DStream_t) : bool :=
  match d_ptr DStream with
  | Some p => (p =? d_start DStream) && (d_bitsConsumed DStream =? regBits)
  | None => false
  end.
End Definitions.

(** ** The encoder *)

Section Encoder.
Context `{P : Platform}.
Implicit Types c : BIT_CStream_t.

Lemma regBits_cases : regBits = 32 \/ regBits = 64.
Proof. unfold regBits. destruct sizeof_size_t_cases as [-> | ->]; auto. Qed.

Lemma regBits_bytes : 8 * sizeof_size_t = regBits.
Proof. unfold regBits. lia. Qed.

Lemma BIT_mask_val n : 0 <= n < 32 -> aget BIT_mask n = (Ok (2 ^ n - 1) : res Z).
Proof.
  intros Hn. apply ok_eqb_eq.
  refine (all_below_spec 32 (fun n => ok_eqb (aget BIT_mask n) (2 ^ n - 1)) n _ Hn).
  vm_compute. reflexivity.
Qed.

(** The stream stays inside its buffer, and the register holds [bitPos] bits. *)
Definition c_wf c : Prop :=
  bytes (c_mem c) /\
  0 <= c_startPtr c <= c_ptr c /\ c_ptr c <= c_endPtr c /\
  c_endPtr c + sizeof_size_t <= zlen (c_mem c) /\
  0 <= c_bitPos c < regBits /\ 0 <= c_bitContainer c < 2 ^ c_bitPos c.

(** The [N] bits written so far, first bit lowest, are the number [V]. *)
Definition c_holds c (V N : Z) : Prop :=
  N = 8 * (c_ptr c - c_startPtr c) + c_bitPos c /\
  V = le_val (slice (c_mem c) (c_startPtr c) (c_ptr c - c_startPtr c))
      + 2 ^ (8 * (c_ptr c - c_startPtr c)) * c_bitContainer c.

(** What an operation leaves alone. *)
Definition c_frame c c' : Prop :=
  c_startPtr c' = c_startPtr c /\ c_endPtr c' = c_endPtr c /\
  zlen (c_mem c') = zlen (c_mem c) /\
  take (Z.to_nat (c_startPtr c)) (c_mem c') = take (Z.to_nat (c_startPtr c)) (c_mem c).

Lemma c_frame_trans c1 c2 c3 : c_frame c1 c2 -> c_frame c2 c3 -> c_frame c1 c3.
Proof.
  intros (H1 & H2 & H3 & H4) (K1 & K2 & K3 & K4). rewrite H1 in K4. repeat split; congruence.
Qed.

Lemma initCStream_wf mem start cap :
  bytes mem -> 0 <= start -> start + cap <= zlen mem -> sizeof_size_t < cap ->
  exists c, BIT_initCStream mem start cap = Ok c /\ c_wf c /\ c_holds c 0 0 /\
    c_mem c = mem /\ c_startPtr c = start /\ c_endPtr c = start + cap - sizeof_size_t /\
    c_bitPos c = 0 /\ c_ptr c = start.
Proof.
  intros Hb Hs Hl Hc. unfold BIT_initCStream. rewrite (proj2 (Z.leb_gt _ _)) by lia.
  eexists. split; [reflexivity|]. unfold c_wf, c_holds; simpl.
  destruct sizeof_size_t_cases as [E|E]; destruct regBits_cases as [E'|E'];
    rewrite ?E, ?E' in *; rewrite Z.sub_diag; repeat split; try done; try lia;
    unfold slice; simpl; lia.
Qed.

(** Or-ing [v] in above the [bitPos] bits of the register. *)
Lemma add_register c v nb :
  c_wf c -> 0 <= nb -> nb + c_bitPos c < regBits -> 0 <= v < 2 ^ nb ->
  Z.lor (c_bitContainer c) (size_t (Z.shiftl v (c_bitPos c))) =
  c_bitContainer c + v * 2 ^ c_bitPos c.
Proof.
  intros (_ & _ & _ & _ & Hp & Hc) Hnb Hlt Hv.
  assert (0 < 2 ^ c_bitPos c) by (apply pow2_pos; lia).
  assert (v * 2 ^ c_bitPos c < 2 ^ regBits).
  { eapply Z.lt_le_trans with (2 ^ (nb + c_bitPos c)).
    - rewrite Z.pow_add_r by lia. nia.
    - apply Z.pow_le_mono_r; lia. }
  unfold size_t. rewrite regBits_bytes. rewrite Z.shiftl_mul_pow2 by lia. rewrite wrap_small by nia.
  rewrite <- (Z.shiftl_mul_pow2 v) at 1 by lia. apply lor_shiftl_add; lia.
Qed.

Definition c_push c v nb : BIT_CStream_t :=
  {| c_mem := c_mem c; c_bitContainer := c_bitContainer c + v * 2 ^ c_bitPos c;
     c_bitPos := c_bitPos c + nb;
     c_startPtr := c_startPtr c; c_ptr := c_ptr c; c_endPtr := c_endPtr c |}.

Lemma c_push_wf c v nb :
  c_wf c -> 0 <= nb -> nb + c_bitPos c < regBits -> 0 <= v < 2 ^ nb ->
  c_wf (c_push c v nb) /\ c_frame c (c_push c v nb).
Proof.
  intros (Hb & Hs & Hp & He & Hbp & Hc) Hnb Hlt Hv. unfold c_wf, c_frame, c_push; simpl.
  assert (0 < 2 ^ c_bitPos c) by (apply pow2_pos; lia).
  repeat split; try done; try lia; rewrite ?Z.pow_add_r by lia; nia.
Qed.

Lemma c_push_holds c v nb V N :
  c_wf c -> c_holds c V N -> c_holds (c_push c v nb) (V + v * 2 ^ N) (N + nb).
Proof.
  intros (Hb & Hs & Hp & He & Hbp & Hc) [HN HV]. unfold c_holds, c_push; simpl. split; [lia|].
  rewrite HV at 1. rewrite HN, Z.pow_add_r by lia. lia.
Qed.

Lemma addBits_push c value nb :
  c_wf c -> 0 <= nb < 32 -> nb + c_bitPos c < regBits ->
  BIT_addBits c value nb = Ok (c_push c (value mod 2 ^ nb) nb).
Proof.
  intros Hwf Hnb Hlt. assert (Hp : 0 <= c_bitPos c < regBits) by apply Hwf.
  unfold BIT_addBits. change BIT_MASK_SIZE with 32.
  rewrite (proj2 (Z.ltb_lt nb 32)), (proj2 (Z.ltb_lt (nb + _) _)) by lia. cbn [oassert obind].
  unfold BIT_getLowerBits. change BIT_MASK_SIZE with 32. rewrite (proj2 (Z.ltb_lt nb 32)) by lia.
  cbn [oassert obind]. rewrite BIT_mask_val by lia. cbn [obind]. rewrite land_ones_wrap by lia.
  pose proof (wrap_range nb value ltac:(lia)).
  rewrite (add_register c (wrap nb value) nb) by (done || lia).
  rewrite (wrap_small 32) by (destruct regBits_cases; lia). done.
Qed.

Lemma addBitsFast_push c value nb :
  c_wf c -> 0 <= nb -> nb + c_bitPos c < regBits -> 0 <= value < 2 ^ nb ->
  BIT_addBitsFast c value nb = Ok (c_push c value nb).
Proof.
  intros Hwf Hnb Hlt Hv. assert (Hp : 0 <= c_bitPos c < regBits) by apply Hwf.
  unfold BIT_addBitsFast. rewrite Z.shiftr_div_pow2, Z.div_small by lia.
  rewrite (proj2 (Z.ltb_lt (nb + _) _)) by lia. cbn [Z.eqb oassert obind].
  rewrite (add_register c value nb) by (done || lia).
  by rewrite (wrap_small 32) by (destruct regBits_cases; lia).
Qed.

(** [MEM_writeLEST] at [ptr] and the shift by [nb] whole bytes. *)
Section Flush.
Variable c : BIT_CStream_t.
Hypothesis Hwf : c_wf c.

Let nb := Z.shiftr (c_bitPos c) 3.
Let img := le_bytes (Z.to_nat sizeof_size_t) (c_bitContainer c).

Lemma flush_arith :
  nb = c_bitPos c / 8 /\ 0 <= nb < sizeof_size_t /\ zlen img = sizeof_size_t /\
  Z.land (c_bitPos c) 7 = c_bitPos c mod 8 /\ c_bitPos c = 8 * nb + c_bitPos c mod 8 /\
  0 <= c_bitPos c mod 8 < 8 /\ 0 <= c_bitContainer c < 2 ^ regBits.
Proof.
  destruct Hwf as (Hb & Hs & Hp & He & Hbp & Hc).
  assert (nb = c_bitPos c / 8) as Hnb by (unfold nb; rewrite Z.shiftr_div_pow2 by lia; done).
  pose proof (Z.div_mod (c_bitPos c) 8 ltac:(lia)). pose proof (Z.mod_pos_bound (c_bitPos c) 8 ltac:(lia)).
  assert (regBits = 8 * sizeof_size_t) by (unfold regBits; lia).
  assert (0 <= c_bitPos c / 8) by (apply Z.div_pos; lia).
  repeat split; try done; try lia.
  - unfold img. rewrite zlen_le_bytes. destruct sizeof_size_t_cases as [-> | ->]; lia.
  - by apply (land_ones_wrap (c_bitPos c) 3).
  - eapply Z.lt_le_trans; [apply Hc|]. apply Z.pow_le_mono_r; lia.
Qed.

Lemma flush_write :
  MEM_writeLEST (c_mem c) (c_ptr c) (c_bitContainer c) =
  (Ok (splice (c_mem c) (c_ptr c) img) : res (list Z)).
Proof.
  destruct flush_arith as (_ & _ & _ & _ & _ & _ & Hc). destruct Hwf as (Hb & Hs & Hp & He & _).
  apply MEM_writeLEST_val; rewrite ?regBits_bytes; lia.
Qed.

Lemma flush_container :
  0 <= Z.shiftr (c_bitContainer c) (nb * 8) < 2 ^ (c_bitPos c mod 8) /\
  c_bitContainer c = c_bitContainer c mod 2 ^ (8 * nb) + 2 ^ (8 * nb) * Z.shiftr (c_bitContainer c) (nb * 8).
Proof.
  destruct flush_arith as (_ & Hnb & _ & _ & Hbp & Hr & _). destruct Hwf as (_ & _ & _ & _ & _ & Hc).
  rewrite (Z.mul_comm nb 8). rewrite Z.shiftr_div_pow2 by lia.
  assert (0 < 2 ^ (8 * nb)) by (apply pow2_pos; lia).
  pose proof (Z.div_mod (c_bitContainer c) (2 ^ (8 * nb)) ltac:(lia)).
  split; [|lia]. split; [apply Z.div_pos; lia|]. apply Z.div_lt_upper_bound; [lia|].
  rewrite <- Z.pow_add_r by lia. rewrite <- Hbp. apply Hc.
Qed.

Lemma flush_holds V N :
  c_holds c V N ->
  N = 8 * (c_ptr c + nb - c_startPtr c) + c_bitPos c mod 8 /\
  V = le_val (slice (splice (c_mem c) (c_ptr c) img) (c_startPtr c) (c_ptr c + nb - c_startPtr c))
      + 2 ^ (8 * (c_ptr c + nb - c_startPtr c)) * Z.shiftr (c_bitContainer c) (nb * 8).
Proof.
  intros [HN HV]. destruct flush_arith as (_ & Hnb & Hl & _ & Hbp & Hr & Hreg).
  destruct flush_container as [_ Hcc]. destruct Hwf as (Hb & Hs & Hp & He & _ & Hc).
  split; [lia|].
  replace (c_ptr c + nb - c_startPtr c) with (c_ptr c - c_startPtr c + nb) by lia.
  rewrite slice_splice_prefix by lia. rewrite le_val_app_pow, zlen_slice by lia.
  unfold img. rewrite take_le_bytes by lia. rewrite le_val_bytes, Z2Nat.id by lia.
  change 256 with (2 ^ 8). rewrite <- Z.pow_mul_r by lia.
  rewrite Z.mul_add_distr_l, Z.pow_add_r by lia. rewrite HV, Hcc at 1. lia.
Qed.

Lemma flush_next_byte :
  splice (c_mem c) (c_ptr c) img !! Z.to_nat (c_ptr c + nb) = Some (Z.shiftr (c_bitContainer c) (nb * 8)).
Proof.
  destruct flush_arith as (_ & Hnb & Hl & _ & Hbp & Hr & Hreg).
  destruct flush_container as [Hcc _]. destruct Hwf as (Hb & Hs & Hp & He & _).
  assert (length img = Z.to_nat sizeof_size_t) as Hli by (unfold img; apply length_le_bytes).
  unfold splice. rewrite lookup_app_r by (rewrite length_take; lia).
  rewrite length_take, Nat.min_l by (unfold zlen in *; lia).
  replace (Z.to_nat (c_ptr c + nb) - Z.to_nat (c_ptr c))%nat with (Z.to_nat nb) by lia.
  rewrite lookup_app_l by lia. unfold img. rewrite le_bytes_lookup, Z2Nat.id by lia. f_equal.
  change 256 with (2 ^ 8) at 1. rewrite <- Z.pow_mul_r, (Z.mul_comm 8), <- Z.shiftr_div_pow2 by lia.
  apply Z.mod_small. pose proof (Z.pow_le_mono_r 2 (c_bitPos c mod 8) 8). lia.
Qed.
End Flush.

Lemma flushBits_spec c :
  c_wf c ->
  exists c', BIT_flushBits c = Ok c' /\ c_wf c' /\ c_frame c c' /\
    c_bitPos c' = c_bitPos c mod 8 /\
    c_ptr c' = Z.min (c_endPtr c) (c_ptr c + c_bitPos c / 8) /\
    (c_ptr c + c_bitPos c / 8 <= c_endPtr c ->
       (forall V N, c_holds c V N -> c_holds c' V N) /\
       c_mem c' !! Z.to_nat (c_ptr c') = Some (c_bitContainer c')).
Proof.
  intros Hwf. unfold BIT_flushBits. rewrite flush_write by done.
  destruct (flush_arith c Hwf) as (Hnb & Hnb' & Hl & -> & Hbp & Hr & _).
  destruct (flush_container c Hwf) as [Hcc _].
  pose proof (flush_holds c Hwf) as Hh. pose proof (flush_next_byte c Hwf) as Hn.
  destruct Hwf as (Hb & Hs & Hp & He & Hbp' & Hc).
  rewrite (proj2 (Z.ltb_lt _ _)), (proj2 (Z.leb_le _ _)) by lia. cbn [oassert obind].
  set (nb := Z.shiftr (c_bitPos c) 3) in *. set (img := le_bytes _ _) in *.
  assert (zlen (splice (c_mem c) (c_ptr c) img) = zlen (c_mem c)) as Hz by (apply zlen_splice; lia).
  eexists; split; [reflexivity|]. unfold c_wf, c_frame, c_holds; simpl. rewrite Hz, <- Hnb.
  assert (8 <= regBits) by (destruct regBits_cases; lia).
  repeat split; try (zcases; lia); try (by apply Hcc).
  - apply bytes_of_splice; [done|apply bytes_le_bytes].
  - apply take_splice; lia.
  - zcases; [lia|]. by apply (Hh V N).
  - zcases; [lia|]. done.
Qed.

(** Closing a stream: 0 when the buffer is full, else the size of the image of
    its [N] bits with the end mark on top. *)
Lemma closeCStream_spec c V N :
  c_wf c -> c_bitPos c + 1 < regBits ->
  (c_ptr c + (c_bitPos c + 1) / 8 < c_endPtr c -> c_holds c V N) ->
  exists size c', BIT_closeCStream c = Ok (size, c') /\ c_wf c' /\ c_frame c c' /\
    (c_endPtr c <= c_ptr c + (c_bitPos c + 1) / 8 -> size = 0) /\
    (c_ptr c + (c_bitPos c + 1) / 8 < c_endPtr c ->
     size = N / 8 + 1 /\ c_startPtr c + size <= c_endPtr c + sizeof_size_t /\
     le_val (slice (c_mem c') (c_startPtr c) size) = V + 2 ^ N).
Proof.
  intros Hwf Hlt Hh. unfold BIT_closeCStream.
  rewrite (addBitsFast_push c 1 1) by (done || lia). cbn [obind].
  destruct (c_push_wf c 1 1) as [Hwf1 Hfr1]; [done|lia|lia|lia|].
  destruct (flushBits_spec _ Hwf1) as (c' & -> & Hwf' & Hfr' & Hbp & Hptr & Himg). cbn [obind].
  pose proof (c_frame_trans _ _ _ Hfr1 Hfr') as Hfr. pose proof Hfr as (Hst & Hen & _ & _).
  cbn [c_push c_endPtr c_ptr c_bitPos] in *. rewrite Hst, Hen.
  destruct (Z.leb_spec (c_endPtr c) (c_ptr c')).
  - eexists _, c'. split; [reflexivity|]. do 2 (split; [done|]). split; [done|lia].
  - eexists _, c'. split; [reflexivity|]. do 2 (split; [done|]). split; [lia|]. intros Hfit.
    destruct Himg as [Himg Hnext]; [lia|]. specialize (Hh Hfit).
    apply (c_push_holds c 1 1 V N Hwf) in Hh. rewrite Z.mul_1_l in Hh.
    apply Himg in Hh as [HN HV]. destruct Hwf' as (Hb' & Hs' & Hp' & He' & Hbp' & Hc').
    set (p := c_bitPos c') in *.
    assert (0 <= p < 8) by (rewrite Hbp; apply Z.mod_pos_bound; lia).
    pose proof sizeof_size_t_cases. rewrite Hst, Hen in *. destruct (Z.ltb_spec 0 p).
    + assert (N = (c_ptr c' - c_startPtr c) * 8 + (p - 1)) as -> by lia.
      rewrite Z.div_add_l, Z.div_small by lia. split; [lia|]. split; [lia|].
      rewrite (slice_snoc _ _ _ (c_bitContainer c')); [|lia|lia|].
      * rewrite le_val_app_pow, zlen_slice by lia. cbn [le_val]. rewrite HV. lia.
      * rewrite <- Hnext. f_equal. lia.
    + assert (N = (c_ptr c' - c_startPtr c - 1) * 8 + 7) as HN' by lia.
      rewrite HN' at 1. rewrite Z.div_add_l, Z.div_small by lia. split; [lia|]. split; [lia|].
      assert (p = 0) as Hp0 by lia. rewrite Hp0 in Hc'.
      assert (c_bitContainer c' = 0) as Hc0 by lia. rewrite Z.add_0_r, HV, Hc0. lia.
Qed.
End Encoder.

(** ** The decoder *)

Section Decoder.
Context `{P : Platform}.
Implicit Types d : BIT_DStream_t.

(** The reader stays inside the [size] bytes at [start].  Once more bits were
    asked for than the stream has ([bitsConsumed] above the register's width)
    the pointer is no longer used. *)
Definition d_wf d (size : Z) : Prop :=
  bytes (d_mem d) /\ 0 <= d_start d /\ d_start d + size <= zlen (d_mem d) /\ 1 <= size /\
  d_limitPtr d = d_start d + sizeof_size_t /\
  0 <= d_bitsConsumed d < 2 ^ 32 /\ 0 <= d_bitContainer d < 2 ^ regBits /\
  (d_bitsConsumed d <= regBits ->
     exists p, d_ptr d = Some p /\ d_start d <= p /\
       (size < sizeof_size_t -> p = d_start d) /\
       (sizeof_size_t <= size -> p + sizeof_size_t <= d_start d + size)).

(** [n] bits of the stream [X] (its bytes as a number) remain to be read. *)
Definition d_holds d (X n : Z) : Prop :=
  d_bitsConsumed d <= regBits /\
  exists p, d_ptr d = Some p /\ d_start d <= p /\
    n = 8 * (p - d_start d) + regBits - d_bitsConsumed d /\
    d_bitContainer d = (X / 2 ^ (8 * (p - d_start d))) mod 2 ^ regBits.

(** The source bytes as a number. *)
Definition d_image d (size : Z) : Z := le_val (slice (d_mem d) (d_start d) size).

Definition d_same_src d d' : Prop :=
  d_mem d' = d_mem d /\ d_start d' = d_start d /\ d_limitPtr d' = d_limitPtr d.

Lemma d_holds_nonneg d X n : d_holds d X n -> 0 <= n.
Proof. intros (Hb & p & _ & Hp & -> & _). lia. Qed.

Lemma land_regMask x : 0 <= x < regBits -> Z.land x (regBits - 1) = x.
Proof.
  intros Hx. destruct regBits_cases as [E|E]; rewrite E in *.
  - change (32 - 1) with (2 ^ 5 - 1). rewrite land_ones_wrap by lia. by apply wrap_small.
  - change (64 - 1) with (2 ^ 6 - 1). rewrite land_ones_wrap by lia. by apply wrap_small.
Qed.

Lemma mod_div_mod x s nb W :
  0 <= s -> 0 <= nb -> s + nb <= W -> ((x mod 2 ^ W) / 2 ^ s) mod 2 ^ nb = (x / 2 ^ s) mod 2 ^ nb.
Proof.
  intros Hs Hn Hw. apply Z.bits_inj'. intros i Hi.
  rewrite !Z.testbit_mod_pow2 by lia. destruct (Z.ltb_spec i nb); [|done]. simpl.
  rewrite !Z.div_pow2_bits by lia. rewrite Z.mod_pow2_bits_low by lia. done.
Qed.

Lemma middleBits_val c start nb :
  0 <= c -> 0 <= nb < 32 ->
  BIT_getMiddleBits c start nb = Ok ((c / 2 ^ Z.land start (regBits - 1)) mod 2 ^ nb).
Proof.
  intros Hc Hnb. unfold BIT_getMiddleBits. change BIT_MASK_SIZE with 32.
  rewrite (proj2 (Z.ltb_lt nb 32)) by lia. cbn [oassert obind].
  rewrite BIT_mask_val by lia. cbn [obind]. rewrite land_ones_wrap by lia.
  assert (0 <= Z.land start (regBits - 1)).
  { apply Z.land_nonneg. right. destruct regBits_cases; lia. }
  by rewrite Z.shiftr_div_pow2 by lia.
Qed.

Lemma lookBits_range d nb size (Q : Z -> Prop) R :
  d_wf d size -> 0 <= nb < 32 -> (forall v, 0 <= v < 2 ^ nb -> Q v) -> wp (BIT_lookBits d nb) Q R.
Proof.
  intros (_ & _ & _ & _ & _ & _ & Hc & _) Hnb HQ. unfold BIT_lookBits.
  rewrite middleBits_val by lia. apply HQ. apply Z.mod_pos_bound, pow2_pos. lia.
Qed.

Lemma lookBits_val d size X n nb :
  d_wf d size -> d_holds d X n -> 0 <= nb < 32 -> nb + d_bitsConsumed d <= regBits ->
  BIT_lookBits d nb = Ok ((X / 2 ^ (n - nb)) mod 2 ^ nb).
Proof.
  intros (_ & _ & _ & _ & _ & Hbc & Hc & _) (_ & p & _ & Hp & Hn & HX) Hnb Hlt.
  unfold BIT_lookBits, size_t. rewrite regBits_bytes.
  rewrite (wrap_small regBits) by (destruct regBits_cases as [E|E]; rewrite E in *; lia).
  rewrite (wrap_small 32) by (destruct regBits_cases as [E|E]; rewrite E in *; lia).
  rewrite middleBits_val by lia. f_equal.
  destruct (decide (nb = 0)) as [->|Hne]; [by rewrite !Z.mod_1_r|].
  rewrite land_regMask by lia. rewrite HX, mod_div_mod by lia.
  rewrite Z.div_div by (apply Z.pow_nonzero || apply pow2_pos; lia).
  rewrite <- Z.pow_add_r by lia. do 3 f_equal. lia.
Qed.

Lemma skipBits_wf d size nb :
  d_wf d size -> 0 <= nb -> d_bitsConsumed d + nb < 2 ^ 32 ->
  d_wf (BIT_skipBits d nb) size /\ d_same_src d (BIT_skipBits d nb) /\
  d_bitsConsumed (BIT_skipBits d nb) = d_bitsConsumed d + nb.
Proof.
  intros (Hb & Hs & Hl & Hsz & Hli & Hbc & Hc & Hp) Hnb Hlt.
  unfold d_wf, d_same_src, BIT_skipBits; simpl. rewrite (wrap_small 32) by lia.
  repeat split; try done; try lia. intros. apply Hp. lia.
Qed.

Lemma skipBits_holds d X n nb :
  d_holds d X n -> 0 <= d_bitsConsumed d -> 0 <= nb -> nb + d_bitsConsumed d <= regBits ->
  d_holds (BIT_skipBits d nb) X (n - nb).
Proof.
  intros (Hb & p & Hp & Hsp & Hn & HX) Hbc Hnb Hlt. unfold d_holds, BIT_skipBits; simpl.
  rewrite (wrap_small 32) by (destruct regBits_cases as [E|E]; rewrite E in *; lia).
  split; [lia|]. exists p. repeat split; try done. lia.
Qed.

Lemma readBits_spec d size X n nb :
  d_wf d size -> d_holds d X n -> 0 <= nb < 32 -> nb + d_bitsConsumed d <= regBits ->
  exists d', BIT_readBits d nb = Ok ((X / 2 ^ (n - nb)) mod 2 ^ nb, d') /\
    d_wf d' size /\ d_same_src d d' /\ d_holds d' X (n - nb) /\
    d_bitsConsumed d' = d_bitsConsumed d + nb.
Proof.
  intros Hwf Hh Hnb Hlt. unfold BIT_readBits. rewrite (lookBits_val d size X n) by done.
  exists (BIT_skipBits d nb). assert (0 <= d_bitsConsumed d < 2 ^ 32) by apply Hwf.
  destruct (skipBits_wf d size nb Hwf) as (H1 & H2 & H3); [lia| |].
  { destruct regBits_cases as [E|E]; rewrite E in *; lia. }
  do 3 (split; [done|]). split; [|done]. apply skipBits_holds; lia || done.
Qed.

(** Reading without looking at what is left: the value fits in [nb] bits. *)
Lemma wp_readBits d size nb (Q : Z * BIT_DStream_t -> Prop) R :
  d_wf d size -> 0 <= nb < 32 -> d_bitsConsumed d + nb < 2 ^ 32 ->
  (forall v d', 0 <= v < 2 ^ nb -> d_wf d' size -> d_same_src d d' ->
     d_bitsConsumed d' = d_bitsConsumed d + nb -> Q (v, d')) ->
  wp (BIT_readBits d nb) Q R.
Proof.
  intros Hwf Hnb Hlt HQ. unfold BIT_readBits. apply wp_bind. eapply lookBits_range; [done|done|].
  intros v Hv. simpl. destruct (skipBits_wf d size nb Hwf) as (H1 & H2 & H3); [lia|lia|]. by apply HQ.
Qed.

(** ** The fast reads, which need at least one bit *)

Lemma lookBitsFast_shift d nb :
  1 <= nb < 32 -> 0 <= d_bitContainer d ->
  BIT_lookBitsFast d nb =
  Ok ((size_t (Z.shiftl (d_bitContainer d) (Z.land (d_bitsConsumed d) (regBits - 1)))) / 2 ^ (regBits - nb)).
Proof.
  intros Hnb Hc. unfold BIT_lookBitsFast. rewrite (proj2 (Z.leb_le 1 nb)) by lia. cbn [oassert obind].
  rewrite (wrap_small 32) by (destruct regBits_cases as [E|E]; rewrite E; lia).
  replace (regBits - 1 + 1 - nb) with (regBits - nb) by lia. rewrite (land_regMask (regBits - nb)).
  - rewrite Z.shiftr_div_pow2; [done|]. destruct regBits_cases; lia.
  - destruct regBits_cases; lia.
Qed.

Lemma lookBitsFast_val d nb :
  0 <= d_bitContainer d < 2 ^ regBits -> 0 <= d_bitsConsumed d ->
  1 <= nb < 32 -> nb + d_bitsConsumed d <= regBits -> BIT_lookBitsFast d nb = BIT_lookBits d nb.
Proof.
  intros Hc Hbc Hnb Hlt. rewrite lookBitsFast_shift by lia. unfold BIT_lookBits, size_t.
  rewrite regBits_bytes. rewrite (wrap_small regBits (regBits - _ - _))
    by (destruct regBits_cases as [E|E]; rewrite E in *; lia).
  rewrite (wrap_small 32) by (destruct regBits_cases as [E|E]; rewrite E in *; lia).
  rewrite middleBits_val by lia. f_equal.
  rewrite (land_regMask (d_bitsConsumed d)), (land_regMask (regBits - _ - _)) by lia.
  apply Z.bits_inj'. intros i Hi.
  rewrite Z.div_pow2_bits by lia. rewrite Z.testbit_mod_pow2 by lia. rewrite Z.div_pow2_bits by lia.
  rewrite testbit_wrap, Z.shiftl_spec by lia. destruct (Z.ltb_spec i nb).
  - rewrite (proj2 (Z.ltb_lt _ regBits)) by lia. simpl. f_equal. lia.
  - by rewrite (proj2 (Z.ltb_ge _ regBits)) by lia.
Qed.

Lemma wp_readBitsFast d size nb (Q : Z * BIT_DStream_t -> Prop) R :
  d_wf d size -> 1 <= nb < 32 -> d_bitsConsumed d + nb < 2 ^ 32 ->
  (forall v d', 0 <= v < 2 ^ nb -> d_wf d' size -> d_same_src d d' ->
     d_bitsConsumed d' = d_bitsConsumed d + nb -> Q (v, d')) ->
  wp (BIT_readBitsFast d nb) Q R.
Proof.
  intros Hwf Hnb Hlt HQ. unfold BIT_readBitsFast.
  pose proof Hwf as (_ & _ & _ & _ & _ & _ & Hc & _).
  rewrite lookBitsFast_shift by lia. cbn [obind]. rewrite (proj2 (Z.leb_le 1 nb)) by lia. cbn [oassert obind wp].
  destruct (skipBits_wf d size nb Hwf) as (H1 & H2 & H3); [lia|lia|]. apply HQ; try done.
  unfold size_t. rewrite regBits_bytes. set (y := Z.shiftl _ _).
  assert (0 <= regBits) as Hr by (destruct regBits_cases; lia). pose proof (wrap_range regBits y Hr).
  assert (nb <= regBits) by (destruct regBits_cases; lia). split.
  - apply Z.div_pos; [lia|]. apply pow2_pos. lia.
  - apply Z.div_lt_upper_bound; [apply pow2_pos; lia|]. rewrite <- Z.pow_add_r by lia.
    replace (regBits - nb + nb) with regBits by lia. lia.
Qed.

Lemma readBitsFast_val d size nb :
  d_wf d size -> 1 <= nb < 32 -> nb + d_bitsConsumed d <= regBits ->
  BIT_readBitsFast d nb = BIT_readBits d nb.
Proof.
  intros (_ & _ & _ & _ & _ & Hbc & Hc & _) Hnb Hlt. unfold BIT_readBitsFast, BIT_readBits.
  rewrite lookBitsFast_val by lia. destruct (BIT_lookBits d nb); simpl; [|done..].
  by rewrite (proj2 (Z.leb_le 1 nb)) by lia.
Qed.

Lemma MEM_readLEST_image d size p :
  d_wf d size -> d_start d <= p -> p + sizeof_size_t <= d_start d + size ->
  MEM_readLEST (d_mem d) p =
  (Ok ((d_image d size / 2 ^ (8 * (p - d_start d))) mod 2 ^ regBits) : res Z).
Proof.
  intros (Hb & Hs & Hl & Hsz & _) Hp Hp'. pose proof sizeof_size_t_cases.
  rewrite MEM_readLEST_val by (done || lia). f_equal. unfold d_image.
  set (S := sizeof_size_t) in *. set (o := p - d_start d).
  assert (slice (d_mem d) (d_start d) size =
          slice (d_mem d) (d_start d) o ++ slice (d_mem d) p S ++
          slice (d_mem d) (p + S) (size - o - S)) as ->.
  { replace size with (o + (S + (size - o - S))) at 1 by lia.
    rewrite <- !slice_app by lia. by replace (d_start d + o) with p by lia. }
  rewrite !le_val_app_pow, !zlen_slice by lia.
  pose proof (le_val_slice_range (d_mem d) (d_start d) o Hb ltac:(lia) ltac:(lia) ltac:(lia)).
  pose proof (le_val_slice_range (d_mem d) p S Hb ltac:(lia) ltac:(lia) ltac:(lia)).
  rewrite Z.div_add, Z.div_small, Z.add_0_l by (try apply Z.pow_nonzero; lia).
  replace regBits with (8 * S) by apply regBits_bytes.
  rewrite Z.mod_add, Z.mod_small by (try apply Z.pow_nonzero; lia). done.
Qed.

(** Moving the window down by whole bytes keeps what remains to be read. *)
Lemma reload_step d size q k :
  d_wf d size -> d_ptr d = Some q -> 0 <= k -> 8 * k <= d_bitsConsumed d <= regBits ->
  d_start d <= q - k -> q - k + sizeof_size_t <= d_start d + size ->
  exists c, MEM_readLEST (d_mem d) (q - k) = (Ok c : res Z) /\
    let d' := {| d_mem := d_mem d; d_bitContainer := c; d_bitsConsumed := d_bitsConsumed d - 8 * k;
                 d_ptr := Some (q - k); d_start := d_start d; d_limitPtr := d_limitPtr d |} in
    d_wf d' size /\ (forall n, d_holds d (d_image d size) n -> d_holds d' (d_image d size) n).
Proof.
  intros Hwf Hq Hk Hbc Hqk Hqs. rewrite (MEM_readLEST_image d size) by done.
  eexists; split; [reflexivity|]. pose proof Hwf as (Hb & Hs & Hl & Hsz & Hli & Hbc' & _ & _).
  assert (0 < 2 ^ regBits) by (apply pow2_pos; destruct regBits_cases; lia).
  split.
  - unfold d_wf; simpl. repeat (split; [done || lia || (apply Z.mod_pos_bound; lia)|]).
    intros _. exists (q - k). repeat split; lia.
  - intros n (_ & p & Hp & Hsp & Hn & HX). rewrite Hq in Hp. injection Hp as <-.
    unfold d_holds; simpl. split; [lia|]. exists (q - k). repeat split; lia.
Qed.

(** What a reload that did not overflow guarantees. *)
Definition reloaded d d' (size : Z) (st : BIT_DStream_status) : Prop :=
  d_bitsConsumed d' <= regBits /\
  (forall n, d_holds d (d_image d size) n -> d_holds d' (d_image d size) n) /\
  (d_bitsConsumed d' <= 7 \/ d_ptr d' = Some (d_start d)) /\
  (st = BIT_DStream_unfinished -> d_bitsConsumed d' <= 7) /\
  (st = BIT_DStream_completed <-> d_bitsConsumed d = regBits /\ d_ptr d = Some (d_start d)) /\
  (st = BIT_DStream_endOfBuffer -> d_ptr d' = Some (d_start d)).

(** The two moves of [BIT_reloadDStream]: all consumed bytes, or as many as
    the buffer has below the window. *)
Lemma reload_moved d size q k st :
  d_wf d size -> d_ptr d = Some q -> 0 <= k -> 8 * k <= d_bitsConsumed d <= regBits ->
  d_start d <= q - k -> q - k + sizeof_size_t <= d_start d + size -> q <> d_start d ->
  (st = BIT_DStream_unfinished /\ d_bitsConsumed d - 8 * k <= 7 \/
   st = BIT_DStream_endOfBuffer /\ q - k = d_start d) ->
  exists c, MEM_readLEST (d_mem d) (q - k) = (Ok c : res Z) /\
    let d' := {| d_mem := d_mem d; d_bitContainer := c; d_bitsConsumed := d_bitsConsumed d - 8 * k;
                 d_ptr := Some (q - k); d_start := d_start d; d_limitPtr := d_limitPtr d |} in
    d_wf d' size /\ d_same_src d d' /\ st <> BIT_DStream_overflow /\ reloaded d d' size st.
Proof.
  intros Hwf Hq Hk Hbc Hqk Hqs Hne Hst.
  destruct (reload_step d size q k) as (c & Hc & Hwf' & Hh); try done.
  exists c. split; [done|]. split; [done|]. split; [done|].
  split; [destruct Hst as [[-> _]|[-> _]]; done|].
  unfold reloaded; cbn [d_bitsConsumed d_ptr]. split; [lia|]. split; [done|].
  split; [destruct Hst as [[_ ?]|[_ ->]]; [by left|by right]|].
  split; [intros ->; destruct Hst as [[_ ?]|[? _]]; done|].
  split; [|intros ->; destruct Hst as [[? _]|[_ ->]]; done].
  split; [intros ->; destruct Hst as [[? _]|[? _]]; done|].
  intros [_ Hq']. rewrite Hq in Hq'. by injection Hq'.
Qed.

Lemma reload_in_register d size :
  d_wf d size -> d_bitsConsumed d <= regBits -> d_ptr d = Some (d_start d) ->
  reloaded d d size (if d_bitsConsumed d <? regBits then BIT_DStream_endOfBuffer
                     else BIT_DStream_completed).
Proof.
  intros Hwf Hbc Hp. unfold reloaded. split; [done|]. split; [done|]. split; [by right|].
  destruct (Z.ltb_spec (d_bitsConsumed d) regBits).
  - split; [done|]. split; [|done]. split; [done|]. intros [? _]. lia.
  - split; [done|]. split; [|done]. split; [|done]. intros _. split; [lia|done].
Qed.

Lemma reloadDStream_spec d size :
  d_wf d size ->
  exists st d', BIT_reloadDStream d = Ok (st, d') /\ d_wf d' size /\ d_same_src d d' /\
    (st = BIT_DStream_overflow <-> regBits < d_bitsConsumed d) /\
    (st = BIT_DStream_overflow -> d_bitsConsumed d' = d_bitsConsumed d) /\
    (st <> BIT_DStream_overflow -> reloaded d d' size st).
Proof.
  intros Hwf. pose proof Hwf as (Hb & Hs & Hl & Hsz & Hli & Hbc & Hc & Hptr).
  pose proof sizeof_size_t_cases as HS. assert (Hreg : regBits = 8 * sizeof_size_t) by (unfold regBits; lia).
  unfold BIT_reloadDStream. destruct (Z.ltb_spec regBits (d_bitsConsumed d)) as [Hov|Hnov].
  { eexists _, _. split; [reflexivity|]. split; [|unfold d_same_src; naive_solver].
    unfold d_wf; simpl. repeat (split; [done|]). lia. }
  destruct (Hptr Hnov) as (q & Hq & Hsq & Hsmall & Hbig).
  cut (exists st d', BIT_reloadDStream d = Ok (st, d') /\ d_wf d' size /\ d_same_src d d' /\
         st <> BIT_DStream_overflow /\ reloaded d d' size st).
  { unfold BIT_reloadDStream. rewrite (proj2 (Z.ltb_ge regBits _)) by done.
    intros (st & d' & -> & H1 & H2 & H3 & H4). exists st, d'. naive_solver lia. }
  unfold BIT_reloadDStream. rewrite (proj2 (Z.ltb_ge regBits _)) by done.
  unfold BIT_reloadDStream_internal, src_ptr. rewrite Hq. cbn [obind].
  rewrite (proj2 (Z.leb_le (d_start d) q)) by done. cbn [oassert obind].
  set (k := Z.shiftr (d_bitsConsumed d) 3).
  assert (k = d_bitsConsumed d / 8) as Hk by (unfold k; rewrite Z.shiftr_div_pow2 by lia; done).
  pose proof (Z.div_mod (d_bitsConsumed d) 8 ltac:(lia)).
  pose proof (Z.mod_pos_bound (d_bitsConsumed d) 8 ltac:(lia)).
  assert (0 <= k) by (rewrite Hk; apply Z.div_pos; lia).
  destruct (Z.leb_spec (d_limitPtr d) q) as [Hlim|Hlim].
  - rewrite (proj2 (Z.leb_le (d_bitsConsumed d) _)), (proj2 (Z.leb_le (d_start d) (q - k))) by lia.
    cbn [oassert obind].
    assert (Z.land (d_bitsConsumed d) 7 = d_bitsConsumed d - 8 * k) as ->.
    { rewrite (land_ones_wrap _ 3 ltac:(lia) : Z.land _ 7 = _). unfold wrap. change (2 ^ 3) with 8. lia. }
    destruct (reload_moved d size q k BIT_DStream_unfinished) as (c & -> & H');
      [done|done|lia|lia|lia|lia|lia|left; split; [done|lia]|].
    eexists _, _. split; [reflexivity|exact H'].
  - destruct (Z.eqb_spec q (d_start d)) as [->|Hne].
    + pose proof (reload_in_register d size Hwf Hnov Hq) as Hr.
      destruct (_ <? regBits); eexists _, d; (split; [reflexivity|]); done.
    + destruct (Z.ltb_spec (q - k) (d_start d)).
      * rewrite (wrap_small 32 (q - _)) by lia.
        destruct (reload_moved d size q (q - d_start d) BIT_DStream_endOfBuffer) as (c & -> & H');
          [done|done|lia|lia|lia|lia|lia|right; split; [done|lia]|].
        cbn [obind]. rewrite (wrap_small 32), (Z.mul_comm _ 8) by lia.
        eexists _, _. split; [reflexivity|exact H'].
      * destruct (reload_moved d size q k BIT_DStream_unfinished) as (c & -> & H');
      [done|done|lia|lia|lia|lia|lia|left; split; [done|lia]|].
        cbn [obind]. rewrite (wrap_small 32), (Z.mul_comm k 8) by lia.
        eexists _, _. split; [reflexivity|exact H'].
Qed.

(** A taken case of the [switch] that fills the register from a short stream. *)
Lemma init_case_take mem start size k shift acc b :
  k <= size -> aget mem (start + (k - 1)) = (Ok b : res Z) -> is_byte b -> 0 <= shift ->
  0 <= acc -> acc + b * 2 ^ shift < 2 ^ regBits ->
  init_case mem start size k shift acc = Ok (acc + b * 2 ^ shift).
Proof.
  intros Hk Hb Hbb Hsh Ha Hlt. unfold init_case, size_t. rewrite (proj2 (Z.leb_le _ _)), Hb by done.
  cbn [obind]. unfold is_byte in Hbb. rewrite Z.shiftl_mul_pow2, regBits_bytes by done.
  assert (0 < 2 ^ shift) by by apply pow2_pos.
  rewrite (wrap_small _ (b * _)) by nia. by rewrite wrap_small by nia.
Qed.

Lemma init_case_skip mem start size k shift acc :
  size < k -> init_case mem start size k shift acc = Ok acc.
Proof. intros. unfold init_case. by rewrite (proj2 (Z.leb_gt _ _)). Qed.

Lemma aget_slice_byte mem start size i :
  bytes mem -> 0 <= start -> start + size <= zlen mem -> 0 <= i < size ->
  exists b, aget mem (start + i) = (Ok b : res Z) /\ is_byte b /\
    slice mem (start + i) (size - i) = b :: slice mem (start + (i + 1)) (size - (i + 1)).
Proof.
  intros Hb Hs Hl Hi.
  destruct (lookup_lt_is_Some_2 mem (Z.to_nat (start + i))) as [b Hbk]; [unfold zlen in *; lia|].
  exists b. split; [apply aget_Ok; split; [lia|done]|]. split; [by eapply bytes_lookup|].
  rewrite (slice_cons _ _ _ b) by (lia || done). do 2 f_equal; lia.
Qed.

Definition short_register (mem : list Z) (start size : Z) : res Z :=
  let* b0 := aget mem start in
  let* acc := init_case mem start size 7 (regBits - 16) b0 in
  let* acc := init_case mem start size 6 (regBits - 24) acc in
  let* acc := init_case mem start size 5 (regBits - 32) acc in
  let* acc := init_case mem start size 4 24 acc in
  let* acc := init_case mem start size 3 16 acc in
  init_case mem start size 2 8 acc.

(** The bytes [b_i .. b_{size-1}] of a stream of known size, one at a time. *)
Ltac short_bytes mem start size i :=
  tryif assert (i < size) by lia then
    let b := fresh "b" in let Hg := fresh "Hg" in let Hb := fresh "Hb" in let Hs := fresh "Hs" in
    destruct (aget_slice_byte mem start size i) as (b & Hg & Hb & Hs); [done|lia|lia|lia|];
    unfold is_byte in Hb;
    let j := eval vm_compute in (i + 1) in change (i + 1) with j in Hs;
    short_bytes mem start size j
  else idtac.

Ltac short_solve mem start :=
  match goal with
  | |- short_register _ _ ?n = _ =>
    short_bytes mem start n 0; unfold short_register;
    rewrite Z.add_0_r in *; rewrite Z.sub_0_r in *;
    repeat match goal with H : aget mem start = _ |- _ => rewrite H; clear H end; cbn [obind];
    repeat (first
      [ rewrite init_case_skip by lia
      | erewrite init_case_take
          by (eassumption || (unfold is_byte; lia) || lia ||
          match goal with Hr : regBits = _ |- _ => rewrite Hr; lia end) ]; cbn [obind]);
    f_equal;
    repeat match goal with H : slice mem _ _ = _ :: _ |- _ => rewrite H; clear H end;
    unfold slice; rewrite ?Z.sub_diag; change (Z.to_nat 0) with 0%nat; rewrite !take_0;
    cbn [le_val]; match goal with Hr : regBits = _ |- _ => rewrite ?Hr; lia end
  end.

Lemma short_register_val mem start size :
  bytes mem -> 0 <= start -> start + size <= zlen mem -> 1 <= size < sizeof_size_t ->
  short_register mem start size = Ok (le_val (slice mem start size)).
Proof.
  intros Hb Hs Hl Hsz. destruct sizeof_size_t_cases as [HS|HS]; rewrite HS in Hsz;
    assert (regBits = 8 * sizeof_size_t) as Hr by (unfold regBits; lia); rewrite HS in Hr.
  - assert (size = 1 \/ size = 2 \/ size = 3) as Hc by lia.
    destruct Hc as [->|[->| ->]]; short_solve mem start.
  - assert (size = 1 \/ size = 2 \/ size = 3 \/ size = 4 \/ size = 5 \/ size = 6 \/ size = 7) as Hc by lia.
    destruct Hc as [->|[->|[->|[->|[->|[->| ->]]]]]]; short_solve mem start.
Qed.

(** A number whose top byte is not zero. *)
Lemma log2_top_byte mem start size last :
  bytes mem -> 0 <= start -> 1 <= size -> start + size <= zlen mem ->
  mem !! Z.to_nat (start + (size - 1)) = Some last -> last <> 0 ->
  Z.log2 (le_val (slice mem start size)) = 8 * (size - 1) + Z.log2 last /\
  0 <= Z.log2 last < 8 /\ 0 < last < 2 ^ 8.
Proof.
  intros Hb Hs Hsz Hl Hlast Hne. pose proof (bytes_lookup _ _ _ Hb Hlast) as Hlb. unfold is_byte in Hlb.
  assert (0 <= Z.log2 last < 8) by (split; [apply Z.log2_nonneg|apply Z.log2_lt_pow2; lia]).
  split; [|lia]. replace size with (size - 1 + 1) at 1 by lia.
  rewrite (slice_snoc _ _ _ last) by (lia || done). rewrite le_val_app_pow, zlen_slice by lia.
  cbn [le_val]. rewrite Z.mul_0_r, Z.add_0_r, Z.mul_comm. apply log2_add_high; [lia| |lia].
  apply le_val_slice_range; lia || done.
Qed.

(** The state [BIT_initDStream] builds, with [bc] bits of the register's top
    consumed and the register filled from [p] on. *)
Lemma initDStream_state mem start size bc c p :
  let X := le_val (slice mem start size) in
  let d := {| d_mem := mem; d_bitContainer := c; d_bitsConsumed := bc; d_ptr := Some p;
              d_start := start; d_limitPtr := start + sizeof_size_t |} in
  bytes mem -> 0 <= start -> 1 <= size -> start + size <= zlen mem ->
  0 <= bc <= regBits -> start <= p -> (size < sizeof_size_t -> p = start) ->
  (sizeof_size_t <= size -> p + sizeof_size_t <= start + size) ->
  Z.log2 X = 8 * (p - start) + regBits - bc ->
  c = (X / 2 ^ (8 * (p - start))) mod 2 ^ regBits ->
  d_wf d size /\ d_mem d = mem /\ d_start d = start /\ d_holds d X (Z.log2 X).
Proof.
  intros X d Hb Hs Hsz Hl Hbc Hp Hp1 Hp2 Hlg ->. unfold d_wf, d_holds; simpl.
  assert (0 < 2 ^ regBits) by (apply pow2_pos; destruct regBits_cases; lia).
  pose proof (Z.mod_pos_bound (X / 2 ^ (8 * (p - start))) (2 ^ regBits)).
  destruct regBits_cases; split; [|naive_solver lia| |naive_solver lia];
    repeat (split; [done || lia|]); exists p; naive_solver lia.
Qed.

(** Opening a stream of [size] bytes whose last byte is not zero: all the bits
    below the end mark remain to be read. *)
Lemma initDStream_spec mem start size last :
  bytes mem -> 0 <= start -> 1 <= size -> start + size <= zlen mem ->
  mem !! Z.to_nat (start + (size - 1)) = Some last -> last <> 0 ->
  exists d, BIT_initDStream mem start size = Ok d /\
    (d_bitsConsumed d <= 8 \/ d_ptr d = Some (d_start d)) /\ d_wf d size /\
    d_mem d = mem /\ d_start d = start /\
    d_holds d (le_val (slice mem start size)) (Z.log2 (le_val (slice mem start size))).
Proof.
  intros Hb Hs Hsz Hl Hlast Hne.
  destruct (log2_top_byte mem start size last) as (Hlog & Hl8 & Hlr); try done.
  unfold BIT_initDStream. rewrite (proj2 (Z.ltb_ge size 1)) by lia. pose proof sizeof_size_t_cases as HS.
  assert (regBits = 8 * sizeof_size_t) as Hr by (unfold regBits; lia).
  assert (0 < 2 ^ regBits) by (apply pow2_pos; lia).
  assert (aget mem (start + (size - 1)) = (Ok last : res Z)) as Hag by (apply aget_Ok; split; [lia|done]).
  pose proof (le_val_slice_range mem start size Hb Hs ltac:(lia) Hl) as HX.
  set (X := le_val (slice mem start size)) in *.
  destruct (Z.leb_spec sizeof_size_t size).
  - rewrite MEM_readLEST_val by (done || lia). cbn [obind]. rewrite Hag. cbn [obind].
    rewrite (proj2 (Z.eqb_neq last 0)), highbit32_val by lia. cbn [obind].
    eexists; split; [reflexivity|]. split; [left; simpl; lia|].
    apply initDStream_state; try done; try (fold X; lia).
    unfold X. replace size with ((size - sizeof_size_t) + sizeof_size_t) at 2 by lia.
    rewrite <- slice_app, le_val_app_pow, zlen_slice by lia.
    replace (8 * (start + size - sizeof_size_t - start)) with (8 * (size - sizeof_size_t)) by lia.
    rewrite Z.div_add, Z.div_small, Z.add_0_l
      by (try apply Z.pow_nonzero; try apply le_val_slice_range; lia || done).
    replace (start + (size - sizeof_size_t)) with (start + size - sizeof_size_t) by lia.
    rewrite Z.mod_small; [done|]. rewrite Hr. apply le_val_slice_range; lia || done.
  - pose proof (short_register_val mem start size Hb Hs Hl ltac:(lia)) as Hsr.
    unfold short_register in Hsr. fold X in Hsr. destruct (aget mem start) as [b0| |]; try done.
    cbn [obind] in *. repeat (apply bind_Ok in Hsr as (? & -> & Hsr); cbn [obind]).
    rewrite Hsr. cbn [obind]. rewrite Hag. cbn [obind].
    rewrite (proj2 (Z.eqb_neq last 0)), highbit32_val by lia. cbn [obind].
    rewrite (wrap_small 32 (sizeof_size_t - size)) by lia. rewrite (wrap_small 32) by lia.
    eexists; split; [reflexivity|]. split; [by right|].
    apply initDStream_state; try done; try (fold X; lia).
    rewrite Z.sub_diag, Z.mul_0_r, Z.pow_0_r, Z.div_1_r. symmetry. apply Z.mod_small.
    split; [lia|]. eapply Z.lt_le_trans; [apply HX|]. apply Z.pow_le_mono_r; lia.
Qed.
(** A stream without its end mark, or empty, is rejected. *)
Lemma initDStream_reject mem start size :
  bytes mem -> 0 <= start -> 1 <= size -> start + size <= zlen mem ->
  mem !! Z.to_nat (start + (size - 1)) = Some 0 ->
  exists e, BIT_initDStream mem start size = Err e.
Proof.
  intros Hb Hs Hsz Hl Hlast. unfold BIT_initDStream. rewrite (proj2 (Z.ltb_ge size 1)) by lia.
  pose proof sizeof_size_t_cases as HS.
  assert (aget mem (start + (size - 1)) = (Ok 0 : res Z)) as Hag by (apply aget_Ok; split; [lia|done]).
  destruct (Z.leb_spec sizeof_size_t size).
  - rewrite MEM_readLEST_val by (done || lia). cbn [obind]. rewrite Hag. by eexists.
  - pose proof (short_register_val mem start size Hb Hs Hl ltac:(lia)) as Hsr.
    unfold short_register in Hsr. destruct (aget mem start) as [b0| |]; try done.
    cbn [obind] in *. repeat (apply bind_Ok in Hsr as (? & -> & Hsr); cbn [obind]).
    rewrite Hsr. cbn [obind]. rewrite Hag. by eexists.
Qed.

Lemma wp_initDStream_full mem start size (Q : BIT_DStream_t -> Prop) :
  bytes mem -> 0 <= start -> start + size <= zlen mem ->
  (forall d, d_wf d size -> d_bitsConsumed d <= regBits -> d_bitsConsumed d <= 8 \/ d_ptr d = Some (d_start d) -> Q d) ->
  safe (BIT_initDStream mem start size) Q.
Proof.
  intros Hb Hs Hl HQ. destruct (decide (1 <= size)) as [Hsz|Hsz].
  - destruct (lookup_lt_is_Some_2 mem (Z.to_nat (start + (size - 1)))) as [last Hlast];
      [unfold zlen in *; lia|].
    destruct (decide (last = 0)) as [->|Hne].
    + destruct (initDStream_reject mem start size) as (e & ->); done.
    + destruct (initDStream_spec mem start size last) as (d & -> & Hcons & Hwf & _ & _ & Hh & _); try done.
      simpl. by apply HQ.
  - unfold BIT_initDStream. by rewrite (proj2 (Z.ltb_lt size 1)) by lia.
Qed.

Lemma wp_initDStream mem start size (Q : BIT_DStream_t -> Prop) :
  bytes mem -> 0 <= start -> start + size <= zlen mem ->
  (forall d, d_wf d size -> d_bitsConsumed d <= regBits -> Q d) ->
  safe (BIT_initDStream mem start size) Q.
Proof. intros Hb Hs Hl HQ. apply wp_initDStream_full; auto. Qed.
End Decoder.

(** ** Writing fields and reading them back *)

Section Fields.
Context `{P : Platform}.

(** The use the stream's documentation describes: every field is added and
    flushed; every field is read, in reverse order, and the register reloaded. *)
Fixpoint write_fields (c : BIT_CStream_t) (fs : list (Z * Z)) : res BIT_CStream_t :=
  match fs with
  | [] => Ok c
  | (v, nb) :: fs =>
      let* c := BIT_addBits c v nb in
      let* c := BIT_flushBits c in
      write_fields c fs
  end.

Fixpoint read_fields (d : BIT_DStream_t) (nbs : list Z) : res (list Z * BIT_DStream_t) :=
  match nbs with
  | [] => Ok ([], d)
  | nb :: nbs =>
      let* (v, d) := BIT_readBits d nb in
      let* (_, d) := BIT_reloadDStream d in
      let* (vs, d) := read_fields d nbs in
      Ok (v :: vs, d)
  end.

(** A field of [nb] bits fits in the register beside the at most 7 bits a flush
    leaves there. *)
Definition field_ok (f : Z * Z) : Prop := 0 <= f.2 < 32 /\ f.2 + 8 <= regBits.

Definition fields_bits (fs : list (Z * Z)) : Z := foldr (fun f n => f.2 + n) 0 fs.

(** The fields as one number, the first field in the lowest bits. *)
Fixpoint fields_val (fs : list (Z * Z)) : Z :=
  match fs with
  | [] => 0
  | (v, nb) :: fs => v mod 2 ^ nb + 2 ^ nb * fields_val fs
  end.

Lemma fields_bits_nonneg fs : Forall field_ok fs -> 0 <= fields_bits fs.
Proof. induction 1 as [|f fs [? _] _ IH]; simpl; lia. Qed.

Lemma fields_val_range fs : Forall field_ok fs -> 0 <= fields_val fs < 2 ^ fields_bits fs.
Proof.
  induction 1 as [|[v nb] fs [Hnb _] Hfs IH]; [simpl; lia|]. cbn [fields_val fields_bits foldr snd] in *.
  fold (fields_bits fs). pose proof (fields_bits_nonneg fs Hfs).
  rewrite Z.pow_add_r by lia. assert (0 < 2 ^ nb) by (apply pow2_pos; lia).
  pose proof (Z.mod_pos_bound v (2 ^ nb)). nia.
Qed.

(** Between two fields: [N] bits written, the last partial byte in the register;
    once the buffer is full the pointer stays at [endPtr]. *)
Definition w_state (c : BIT_CStream_t) (V N : Z) : Prop :=
  c_wf c /\ 0 <= N /\ c_bitPos c = N mod 8 /\
  c_ptr c = Z.min (c_endPtr c) (c_startPtr c + N / 8) /\
  (c_startPtr c + N / 8 <= c_endPtr c -> c_holds c V N).

Lemma add_div8 N m :
  0 <= N -> 0 <= m -> N / 8 + (N mod 8 + m) / 8 = (N + m) / 8 /\ (N mod 8 + m) mod 8 = (N + m) mod 8.
Proof.
  intros. rewrite (Z.div_mod N 8) at 3 5 by lia.
  replace (8 * (N / 8) + N mod 8 + m) with (N mod 8 + m + (N / 8) * 8) by lia.
  rewrite Z.div_add, Z.mod_add by lia. lia.
Qed.

(** Between two flushes: [a] of the [N] bits are not flushed yet. *)
Definition w_pend (c : BIT_CStream_t) (V N a : Z) : Prop :=
  c_wf c /\ 0 <= a <= N /\ c_bitPos c = (N - a) mod 8 + a /\
  c_ptr c = Z.min (c_endPtr c) (c_startPtr c + (N - a) / 8) /\
  (c_startPtr c + (N - a) / 8 <= c_endPtr c -> c_holds c V N).

Lemma w_state_pend c V N : w_state c V N <-> w_pend c V N 0.
Proof. unfold w_state, w_pend. rewrite Z.sub_0_r, Z.add_0_r. naive_solver lia. Qed.

Lemma pend_add_exact c V N a v nb :
  w_pend c V N a -> 0 <= nb < 32 -> (N - a) mod 8 + a + nb < regBits ->
  exists c', BIT_addBits c v nb = Ok c' /\ c_frame c c' /\
    w_pend c' (V + (v mod 2 ^ nb) * 2 ^ N) (N + nb) (a + nb).
Proof.
  intros (Hwf & Ha & Hbp & Hptr & Hh) Hnb Hreg. pose proof (Z.mod_pos_bound (N - a) 8 ltac:(lia)).
  rewrite addBits_push by (done || lia). eexists; split; [reflexivity|].
  pose proof (Z.mod_pos_bound v (2 ^ nb) ltac:(apply pow2_pos; lia)).
  destruct (c_push_wf c (v mod 2 ^ nb) nb Hwf) as [Hwf1 Hfr1]; [lia|lia|done|]. split; [done|].
  unfold w_pend. replace (N + nb - (a + nb)) with (N - a) by lia. cbn [c_push c_bitPos c_ptr c_endPtr c_startPtr].
  split; [done|]. split; [lia|]. split; [lia|]. split; [done|]. intros. apply c_push_holds; [done|]. by apply Hh.
Qed.

Lemma pend_add c V N a v nb :
  w_pend c V N a -> 0 <= nb < 32 -> a + nb + 7 < regBits ->
  exists c', BIT_addBits c v nb = Ok c' /\ c_frame c c' /\
    w_pend c' (V + (v mod 2 ^ nb) * 2 ^ N) (N + nb) (a + nb).
Proof.
  intros Hw Hnb Hreg. apply pend_add_exact; [done|done|]. pose proof (Z.mod_pos_bound (N - a) 8). lia.
Qed.

Lemma pend_flush c V N a :
  w_pend c V N a -> exists c', BIT_flushBits c = Ok c' /\ c_frame c c' /\ w_state c' V N.
Proof.
  intros (Hwf & Ha & Hbp & Hptr & Hh).
  destruct (flushBits_spec _ Hwf) as (c' & -> & Hwf' & Hfr & Hbp' & Hptr' & Hh').
  exists c'. split; [done|]. split; [done|]. destruct Hfr as (Hst & Hen & _ & _).
  destruct (add_div8 (N - a) a) as [Hd Hm]; [lia|lia|]. replace (N - a + a) with N in * by lia.
  assert (0 <= ((N - a) mod 8 + a) / 8) by (apply Z.div_pos; pose proof (Z.mod_pos_bound (N - a) 8); lia).
  rewrite Hbp in *. unfold w_state. rewrite Hst, Hen.
  split; [done|]. split; [lia|]. split; [lia|]. split; [lia|]. intros Hle. apply Hh'; [lia|]. apply Hh. lia.
Qed.

(** The unchecked flush does the same where the checked one does not clamp. *)
Lemma pend_flushFast c V N a :
  w_pend c V N a -> c_startPtr c + N / 8 <= c_endPtr c -> BIT_flushBitsFast c = BIT_flushBits c.
Proof.
  intros (Hwf & Ha & Hbp & Hptr & Hh) Hfit. unfold BIT_flushBitsFast, BIT_flushBits.
  destruct (add_div8 (N - a) a) as [Hd Hm]; [lia|lia|]. replace (N - a + a) with N in * by lia.
  assert (0 <= ((N - a) mod 8 + a) / 8) by (apply Z.div_pos; pose proof (Z.mod_pos_bound (N - a) 8); lia).
  rewrite Hbp in *. rewrite (Z.shiftr_div_pow2 _ 3) by lia. change (2 ^ 3) with 8.
  by rewrite (proj2 (Z.ltb_ge (c_endPtr c) _)) by lia.
Qed.

Lemma write_field c V N v nb :
  w_state c V N -> field_ok (v, nb) ->
  exists c1 c', BIT_addBits c v nb = Ok c1 /\ BIT_flushBits c1 = Ok c' /\
    w_state c' (V + (v mod 2 ^ nb) * 2 ^ N) (N + nb) /\ c_frame c c'.
Proof.
  intros Hw [Hnb Hreg]. cbn [snd] in *. apply w_state_pend in Hw.
  destruct (pend_add c V N 0 v nb Hw) as (c1 & -> & Hfr1 & Hw1); [done|lia|].
  destruct (pend_flush c1 _ _ _ Hw1) as (c' & Hc' & Hfr & Hw'). exists c1, c'.
  split; [done|]. split; [done|]. split; [done|]. by eapply c_frame_trans.
Qed.

Lemma write_fields_spec fs : forall c V N,
  w_state c V N -> Forall field_ok fs ->
  exists c', write_fields c fs = Ok c' /\ c_frame c c' /\
    w_state c' (V + fields_val fs * 2 ^ N) (N + fields_bits fs).
Proof.
  induction fs as [|[v nb] fs IH]; intros c V N Hst Hf.
  - exists c. split; [done|]. split; [done|]. simpl. by rewrite !Z.add_0_r.
  - apply Forall_cons in Hf as [Hf Hfs].
    destruct (write_field c V N v nb Hst Hf) as (c1 & c2 & H1 & H2 & Hst2 & Hfr).
    destruct (IH c2 _ _ Hst2 Hfs) as (c' & H' & Hfr' & Hst').
    exists c'. cbn [write_fields]. rewrite H1. cbn [obind]. rewrite H2. cbn [obind].
    split; [done|]. split; [by eapply c_frame_trans|].
    cbn [fields_val fields_bits foldr snd]. fold (fields_bits fs).
    assert (0 <= N) by apply Hst. destruct Hf as [Hnb _]. cbn [snd] in Hnb.
    replace (V + (v mod 2 ^ nb + 2 ^ nb * fields_val fs) * 2 ^ N)
      with (V + v mod 2 ^ nb * 2 ^ N + fields_val fs * 2 ^ (N + nb))
      by (rewrite Z.pow_add_r by lia; lia).
    by replace (N + (nb + fields_bits fs)) with (N + nb + fields_bits fs) by lia.
Qed.

(** After a reload the register holds enough bits for the next field. *)
Definition r_state (d : BIT_DStream_t) (size n : Z) : Prop :=
  d_wf d size /\ d_holds d (d_image d size) n /\
  (d_bitsConsumed d <= 8 \/ d_ptr d = Some (d_start d)).

Lemma r_state_avail d size n nb :
  r_state d size n -> 0 <= nb <= n -> nb + 8 <= regBits -> nb + d_bitsConsumed d <= regBits.
Proof.
  intros (_ & (_ & p & Hp & _ & Hn & _) & [Hle|Hst]) Hnb Hr; [lia|].
  rewrite Hp in Hst. injection Hst as ->. lia.
Qed.

Lemma read_field d size n nb :
  r_state d size n -> 0 <= nb < 32 -> nb <= n -> nb + 8 <= regBits ->
  exists d1 st d', BIT_readBits d nb = Ok ((d_image d size / 2 ^ (n - nb)) mod 2 ^ nb, d1) /\
    BIT_reloadDStream d1 = Ok (st, d') /\ d_same_src d d' /\ r_state d' size (n - nb).
Proof.
  intros Hr Hnb Hn Hreg. pose proof (r_state_avail d size n nb Hr ltac:(lia) Hreg) as Hav.
  destruct Hr as (Hwf & Hh & _).
  destruct (readBits_spec d size _ n nb Hwf Hh Hnb Hav) as (d1 & Hrd & Hwf1 & Hsrc1 & Hh1 & Hbc1).
  destruct (reloadDStream_spec d1 size Hwf1) as (st & d' & Hre & Hwf' & Hsrc' & Hov & _ & Hrel).
  destruct Hrel as (_ & Hkeep & Hfull & _); [rewrite Hov; lia|].
  assert (d_image d1 size = d_image d size) as Himg
    by (unfold d_image; destruct Hsrc1 as (-> & -> & _); done).
  assert (d_image d' size = d_image d1 size) as Himg'
    by (unfold d_image; destruct Hsrc' as (-> & -> & _); done).
  assert (d_same_src d d') by (unfold d_same_src in *; naive_solver congruence).
  exists d1, st, d'. do 3 (split; [done|]). split; [done|].
  rewrite Himg', Himg in *. split; [by apply Hkeep|].
  destruct Hsrc' as (_ & -> & _). destruct Hfull; [left; lia|by right].
Qed.

Lemma fields_val_snoc fs v nb :
  Forall field_ok fs ->
  fields_val (fs ++ [(v, nb)]) = fields_val fs + 2 ^ fields_bits fs * (v mod 2 ^ nb) /\
  fields_bits (fs ++ [(v, nb)]) = fields_bits fs + nb.
Proof.
  induction 1 as [|[w m] fs [Hm _] Hfs [IH1 IH2]]; cbn [app fields_val fields_bits foldr snd] in *.
  - lia.
  - fold (fields_bits fs) in *. fold (fields_bits (fs ++ [(v, nb)])). rewrite IH1, IH2.
    pose proof (fields_bits_nonneg fs Hfs). rewrite Z.pow_add_r by lia. lia.
Qed.

Lemma read_fields_spec fs : forall d size,
  Forall field_ok fs -> r_state d size (fields_bits fs) ->
  d_image d size mod 2 ^ fields_bits fs = fields_val fs ->
  exists d', read_fields d (map snd (rev fs)) = Ok (map (fun f => f.1 mod 2 ^ f.2) (rev fs), d') /\
    r_state d' size 0 /\ d_same_src d d'.
Proof.
  induction fs as [|[v nb] fs IH] using rev_ind; intros d size Hf Hr HX.
  - exists d. done.
  - apply Forall_app in Hf as [Hfs Hf]. apply Forall_singleton in Hf as [Hnb Hreg]. cbn [snd] in *.
    destruct (fields_val_snoc fs v nb Hfs) as [Hv Hb]. rewrite Hv, Hb in *.
    pose proof (fields_bits_nonneg fs Hfs) as Hnn. pose proof (fields_val_range fs Hfs) as Hrg.
    set (b := fields_bits fs) in *. assert (0 < 2 ^ b) by (apply pow2_pos; lia).
    assert (0 < 2 ^ nb) by (apply pow2_pos; lia). pose proof (Z.mod_pos_bound v (2 ^ nb) ltac:(lia)).
    destruct (read_field d size (b + nb) nb) as (d1 & st & d2 & Hrd & Hrl & Hsrc & Hr2); try done; try lia.
    replace (b + nb - nb) with b in * by lia.
    assert (d_image d2 size = d_image d size) as Himg
      by (unfold d_image; destruct Hsrc as (-> & -> & _); done).
    set (X := d_image d size) in *. set (w := v mod 2 ^ nb) in *.
    assert ((X / 2 ^ b) mod 2 ^ nb = w) as Hw.
    { rewrite <- (mod_div_mod X b nb (b + nb)) by lia. rewrite HX, Z.add_comm, Z.mul_comm.
      rewrite Z.div_add_l, Z.div_small, Z.add_0_r by lia. by apply Z.mod_small. }
    destruct (IH d2 size) as (d' & H' & Hr' & Hsrc'); [done|done| |].
    { rewrite Himg. rewrite <- (Z.mod_small (fields_val fs) (2 ^ b)) by lia.
      rewrite <- (Z.mod_add (fields_val fs) w) by lia. rewrite (Z.mul_comm w), <- HX.
      rewrite Z.pow_add_r by lia. rewrite Z.rem_mul_r by lia.
      by rewrite (Z.mul_comm (2 ^ b)), Z.mod_add, Z.mod_mod by lia. }
    exists d'. rewrite rev_app_distr. cbn [rev app map read_fields snd].
    rewrite Hrd. cbn [obind]. rewrite Hrl. cbn [obind]. rewrite H'. cbn [obind fst snd].
    split; [by rewrite Hw|]. split; [done|]. unfold d_same_src in *. naive_solver congruence.
Qed.

Lemma r_state_end d size : r_state d size 0 -> BIT_endOfDStream d = true.
Proof.
  intros (Hwf & (Hb & p & Hp & Hs & Hn & _) & _). unfold BIT_endOfDStream. rewrite Hp. lia.
Qed.

(** Closing a stream between two fields, in a buffer of [cap] bytes. *)
Lemma close_state c V N cap :
  w_state c V N -> c_endPtr c = c_startPtr c + cap - sizeof_size_t ->
  exists size c', BIT_closeCStream c = Ok (size, c') /\ c_wf c' /\ c_frame c c' /\
    (cap - sizeof_size_t <= (N + 1) / 8 -> size = 0) /\
    ((N + 1) / 8 < cap - sizeof_size_t ->
     size = N / 8 + 1 /\ size <= cap /\ le_val (slice (c_mem c') (c_startPtr c) size) = V + 2 ^ N).
Proof.
  intros (Hwf & HN & Hbp & Hptr & Hh) Hen.
  destruct (add_div8 N 1) as [Hd _]; [lia|lia|]. pose proof (Z.mod_pos_bound N 8 ltac:(lia)).
  assert (N / 8 <= (N + 1) / 8) by (apply Z.div_le_mono; lia).
  assert (0 <= (N mod 8 + 1) / 8) by (apply Z.div_pos; lia).
  destruct (closeCStream_spec c V N) as (size & c' & -> & Hwf' & Hfr & Hfull & Hok).
  { done. } { destruct regBits_cases; lia. } { intros Hx. rewrite Hbp in Hx. apply Hh. lia. }
  rewrite Hbp in Hfull, Hok. exists size, c'. do 3 (split; [done|]).
  split; [intros; apply Hfull; lia|]. intros Hfit.
  destruct Hok as (Hsize & Hsz & Himg); [lia|]. split; [done|]. split; [lia|done].
Qed.

Lemma encode_fields mem start cap fs :
  bytes mem -> 0 <= start -> start + cap <= zlen mem -> sizeof_size_t < cap ->
  Forall field_ok fs ->
  exists size c,
    (let* c := BIT_initCStream mem start cap in
     let* c := write_fields c fs in
     BIT_closeCStream c) = Ok (size, c) /\
    zlen (c_mem c) = zlen mem /\ bytes (c_mem c) /\
    take (Z.to_nat start) (c_mem c) = take (Z.to_nat start) mem /\
    (cap - sizeof_size_t <= (fields_bits fs + 1) / 8 -> size = 0) /\
    ((fields_bits fs + 1) / 8 < cap - sizeof_size_t ->
     size = fields_bits fs / 8 + 1 /\ size <= cap /\
     le_val (slice (c_mem c) start size) = fields_val fs + 2 ^ fields_bits fs).
Proof.
  intros Hb Hs Hl Hc Hf.
  destruct (initCStream_wf mem start cap) as (c0 & -> & Hwf0 & Hh0 & Hm0 & Hst0 & Hen0 & Hbp0 & Hp0); try done.
  cbn [obind]. destruct (write_fields_spec fs c0 0 0) as (c1 & -> & Hfr1 & Hw1); [|done|].
  { unfold w_state. rewrite Hbp0, Hp0, Hst0, Hen0. split; [done|]. split; [lia|]. split; [done|].
    split; [change (0 / 8) with 0; lia|done]. }
  cbn [obind]. rewrite Z.mul_1_r, !Z.add_0_l in Hw1. destruct Hfr1 as (Hst1 & Hen1 & Hz1 & Ht1).
  destruct (close_state c1 _ _ cap Hw1) as (size & c & -> & Hwf & (Hst & Hen & Hz & Ht) & Hfull & Hok); [lia|].
  rewrite Hst1, Hst0 in *. exists size, c. split; [done|]. split; [congruence|]. split; [apply Hwf|]. split; [congruence|done].
Qed.

Lemma top_byte_nonzero mem start N V :
  bytes mem -> 0 <= start -> 0 <= N -> 0 <= V -> start + (N / 8 + 1) <= zlen mem ->
  le_val (slice mem start (N / 8 + 1)) = V + 2 ^ N ->
  exists last, mem !! Z.to_nat (start + (N / 8 + 1 - 1)) = Some last /\ last <> 0.
Proof.
  intros Hb Hs HN HV Hl Himg. assert (0 <= N / 8) by (apply Z.div_pos; lia).
  destruct (lookup_lt_is_Some_2 mem (Z.to_nat (start + (N / 8 + 1 - 1)))) as [last Hlast];
    [unfold zlen in *; lia|].
  exists last. split; [done|]. intros ->.
  rewrite (slice_snoc _ _ _ 0) in Himg; [|lia|lia|rewrite <- Hlast; f_equal; lia].
  rewrite le_val_app_pow in Himg. cbn [le_val] in Himg.
  pose proof (le_val_slice_range mem start (N / 8) Hb Hs ltac:(lia) ltac:(lia)).
  pose proof (Z.div_mod N 8 ltac:(lia)). pose proof (Z.mod_pos_bound N 8 ltac:(lia)).
  assert (2 ^ (8 * (N / 8)) <= 2 ^ N) by (apply Z.pow_le_mono_r; lia). lia.
Qed.

Lemma decode_fields mem start fs :
  let N := fields_bits fs in let size := N / 8 + 1 in
  bytes mem -> 0 <= start -> start + size <= zlen mem -> Forall field_ok fs ->
  le_val (slice mem start size) = fields_val fs + 2 ^ N ->
  exists d d', BIT_initDStream mem start size = Ok d /\
    read_fields d (map snd (rev fs)) = Ok (map (fun f => f.1 mod 2 ^ f.2) (rev fs), d') /\
    BIT_endOfDStream d' = true.
Proof.
  intros N size Hb Hs Hl Hf Himg. pose proof (fields_bits_nonneg fs Hf) as HN.
  pose proof (fields_val_range fs Hf) as HV. fold N in HV, HN. set (V := fields_val fs) in *.
  assert (0 < 2 ^ N) by (apply pow2_pos; lia). assert (0 <= N / 8) by (apply Z.div_pos; lia).
  assert (Hlog : Z.log2 (V + 2 ^ N) = N).
  { replace (V + 2 ^ N) with (V + 2 ^ N * 1) by lia. rewrite log2_add_high by lia. simpl. lia. }
  destruct (top_byte_nonzero mem start N V) as (last & Hlast & Hne); try done; try lia.
  destruct (initDStream_spec mem start size last) as
    (d & Hd & Hcons & Hwf & Hdm & Hds & Hdh); try done; try lia.
  rewrite Himg, Hlog in Hdh.
  assert (d_image d size = V + 2 ^ N) as HX by (unfold d_image; by rewrite Hdm, Hds).
  destruct (read_fields_spec fs d size Hf) as (d' & Hrd & Hre & _); fold N V.
  - split; [done|]. by rewrite HX.
  - rewrite HX. replace (V + 2 ^ N) with (V + 1 * 2 ^ N) by lia. by rewrite Z.mod_add, Z.mod_small by lia.
  - exists d, d'. split; [done|]. split; [done|]. by apply (r_state_end d' size).
Qed.
End Fields.

(** C17: A bit stream is a stack.  Fields added with [BIT_addBits] and flushed,
    then closed, come back in reverse order from [BIT_readBits] after
    [BIT_initDStream] on the bytes that were written, each reduced to its width,
    and [BIT_endOfDStream] then reports the exact end.  Nothing is written
    outside the [cap] bytes given; when the bits and the end mark do not leave a
    register's width free at the end of the buffer, [BIT_closeCStream] returns 0
    instead. *)
Theorem BIT_stream_lifo `{P : Platform} (mem : list Z) start cap fs :
  bytes mem -> 0 <= start -> start + cap <= zlen mem -> sizeof_size_t < cap ->
  Forall field_ok fs ->
  exists size c,
    (let* c := BIT_initCStream mem start cap in
     let* c := write_fields c fs in
     BIT_closeCStream c) = Ok (size, c) /\
    zlen (c_mem c) = zlen mem /\
    take (Z.to_nat start) (c_mem c) = take (Z.to_nat start) mem /\
    (cap - sizeof_size_t <= (fields_bits fs + 1) / 8 -> size = 0) /\
    ((fields_bits fs + 1) / 8 < cap - sizeof_size_t ->
     size = fields_bits fs / 8 + 1 /\
     exists d d', BIT_initDStream (c_mem c) start size = Ok d /\
       read_fields d (map snd (rev fs)) = Ok (map (fun f => f.1 mod 2 ^ f.2) (rev fs), d') /\
       BIT_endOfDStream d' = true).
Proof.
  intros Hb Hs Hl Hc Hf.
  destruct (encode_fields mem start cap fs) as (size & c & -> & Hz & Hbc & Ht & Hfull & Hok); try done.
  exists size, c. do 4 (split; [done|]). intros Hfit.
  destruct (Hok Hfit) as (-> & Hsz & Himg). split; [done|]. apply decode_fields; done || lia.
Qed.

Lemma BIT_stream_lifo_witness :
  exists size c,
    (let* c := BIT_initCStream (P := arm64_v8a) (replicate 20 0) 1 15 in
     let* c := write_fields (P := arm64_v8a) c [(5, 3); (300, 9); (1, 1); (77, 20)] in
     BIT_closeCStream (P := arm64_v8a) c) = Ok (size, c) /\ size = 5 /\
    exists d d', BIT_initDStream (P := arm64_v8a) (c_mem c) 1 size = Ok d /\
      read_fields (P := arm64_v8a) d [20; 1; 9; 3] = Ok ([77; 1; 300; 5], d') /\
      BIT_endOfDStream (P := arm64_v8a) d' = true.
Proof.
  destruct (BIT_stream_lifo (P := arm64_v8a) (replicate 20 0) 1 15
              [(5, 3); (300, 9); (1, 1); (77, 20)])
    as (size & c & Hw & _ & _ & _ & Hfit).
  - eval_bytes.
  - lia.
  - vm_compute. congruence.
  - vm_compute. congruence.
  - repeat constructor; vm_compute; congruence.
  - exists size, c. split; [exact Hw|]. apply Hfit. vm_compute. congruence.
Defined.
