(* ===== verification/BitFields.v ===== *)
(** * Bit streams as lists of fields

    The coders of sequences add several fields between two flushes and read several between two
    reloads.  [w_fields] and [r_fields] describe a stream by the list of fields written so far and
    by the list of fields still to be read, with a bound on what the register holds. *)
From S2P Require Import Prelude Mem Errors Bits BitStream.

Definition nonneg (f : Z * Z) : Prop := 0 <= f.2.

Lemma bits_nonneg fs : Forall nonneg fs -> 0 <= fields_bits fs.
Proof. induction 1 as [|f fs Hf _ IH]; cbn; [lia|]. unfold nonneg in Hf. fold (fields_bits fs). lia. Qed.

Lemma bits_app fs gs : fields_bits (fs ++ gs) = fields_bits fs + fields_bits gs.
Proof. induction fs as [|f fs IH]; cbn; [done|]. fold (fields_bits fs) (fields_bits (fs ++ gs)). lia. Qed.

Lemma val_app fs gs : Forall nonneg fs -> fields_val (fs ++ gs) = fields_val fs + 2 ^ fields_bits fs * fields_val gs.
Proof.
  induction 1 as [|[v nb] fs Hf Hfs IH]; cbn -[Z.pow]; [by destruct (fields_val gs)|]. fold (fields_bits fs). rewrite IH.
  change (0 <= nb) in Hf. rewrite Z.pow_add_r by (lia || by apply bits_nonneg). lia.
Qed.

Lemma val_range fs : Forall nonneg fs -> 0 <= fields_val fs < 2 ^ fields_bits fs.
Proof.
  induction 1 as [|[v nb] fs Hf Hfs IH]; cbn -[Z.pow]; [lia|]. fold (fields_bits fs). change (0 <= nb) in Hf.
  rewrite Z.pow_add_r by (lia || by apply bits_nonneg). pose proof (Z.mod_pos_bound v (2 ^ nb) ltac:(by apply pow2_pos)). nia.
Qed.

(** A field is its low bits followed by its high bits. *)
Lemma field_split fs v e b : Forall nonneg fs -> 0 <= e <= b ->
  fields_val (fs ++ [(v, b)]) = fields_val (fs ++ [(v, e); (Z.shiftr v e, b - e)]) /\
  fields_bits (fs ++ [(v, b)]) = fields_bits (fs ++ [(v, e); (Z.shiftr v e, b - e)]).
Proof.
  intros Hfs He. rewrite !val_app, !bits_app by done. cbn -[Z.pow]. split; [|lia]. f_equal. f_equal.
  rewrite Z.shiftr_div_pow2 by lia. replace b with (e + (b - e)) at 1 by lia. rewrite Z.pow_add_r by lia.
  rewrite Z.rem_mul_r by (apply Z.pow_nonzero || apply pow2_pos; lia). lia.
Qed.

Section Write.
Context `{P : Platform}.

(** The fields [fs] are written, [a] of their bits not flushed yet. *)
Definition w_fields (c : BIT_CStream_t) (fs : list (Z * Z)) (a : Z) : Prop :=
  Forall nonneg fs /\ w_pend c (fields_val fs) (fields_bits fs) a.

Lemma w_fields_same c fs gs a : Forall nonneg gs -> fields_val fs = fields_val gs -> fields_bits fs = fields_bits gs -> w_fields c fs a -> w_fields c gs a.
Proof. intros Hg Hv Hb [_ H]. split; [done|]. by rewrite <- Hv, <- Hb. Qed.

Lemma w_add_exact c fs a v nb : w_fields c fs a -> 0 <= nb < 32 -> (fields_bits fs - a) mod 8 + a + nb < regBits ->
  exists c', BIT_addBits c v nb = Ok c' /\ c_frame c c' /\ w_fields c' (fs ++ [(v, nb)]) (a + nb).
Proof.
  intros [Hfs Hw] Hnb Hreg. destruct (pend_add_exact c _ _ a v nb Hw Hnb Hreg) as (c' & -> & Hfr & Hw'). exists c'.
  split; [done|]. split; [done|]. split; [apply Forall_app; split; [done|]; constructor; [apply Hnb|done]|].
  rewrite val_app, bits_app by done. cbn -[Z.pow]. rewrite Z.mul_0_r, !Z.add_0_r. rewrite (Z.mul_comm (2 ^ _)). done.
Qed.

Lemma w_add c fs a v nb : w_fields c fs a -> 0 <= nb < 32 -> a + nb + 7 < regBits ->
  exists c', BIT_addBits c v nb = Ok c' /\ c_frame c c' /\ w_fields c' (fs ++ [(v, nb)]) (a + nb).
Proof. intros Hw Hnb Hreg. apply w_add_exact; [done|done|]. pose proof (Z.mod_pos_bound (fields_bits fs - a) 8). lia. Qed.

Lemma w_flush c fs a : w_fields c fs a -> exists c', BIT_flushBits c = Ok c' /\ c_frame c c' /\ w_fields c' fs 0.
Proof.
  intros [Hfs Hw]. destruct (pend_flush c _ _ _ Hw) as (c' & -> & Hfr & Hw'). exists c'. split; [done|]. split; [done|].
  split; [done|]. by apply w_state_pend.
Qed.

Lemma w_open mem start cap : bytes mem -> 0 <= start -> start + cap <= zlen mem -> sizeof_size_t < cap ->
  exists c, BIT_initCStream mem start cap = Ok c /\ w_fields c [] 0 /\ c_mem c = mem /\ c_startPtr c = start /\ c_endPtr c = start + cap - sizeof_size_t.
Proof.
  intros Hb Hs Hl Hc. destruct (initCStream_wf mem start cap) as (c & -> & Hwf & Hh & Hm & Hst & Hen & Hbp & Hp); try done.
  exists c. split; [done|]. split; [|done]. split; [constructor|]. unfold w_pend. change (fields_bits []) with 0. change (fields_val []) with 0.
  rewrite Hbp, Hp, Hst, Hen. split; [done|]. split; [lia|]. split; [done|]. split; [change ((0 - 0) / 8) with 0; lia|done].
Qed.

(** What closing a stream of fields returns and leaves in memory. *)
Lemma w_close c fs cap : w_fields c fs 0 -> c_endPtr c = c_startPtr c + cap - sizeof_size_t ->
  exists size c', BIT_closeCStream c = Ok (size, c') /\ c_wf c' /\ c_frame c c' /\
    (cap - sizeof_size_t <= (fields_bits fs + 1) / 8 -> size = 0) /\
    ((fields_bits fs + 1) / 8 < cap - sizeof_size_t ->
     size = fields_bits fs / 8 + 1 /\ size <= cap /\ le_val (slice (c_mem c') (c_startPtr c) size) = fields_val fs + 2 ^ fields_bits fs).
Proof. intros [Hfs Hw] Hen. apply close_state; [by apply w_state_pend|done]. Qed.
End Write.

Section Read.
Context `{P : Platform}.

(** The fields [fs] remain to be read, the last one first; at most [lim] bits of the register are consumed, unless it holds all that is left. *)
Definition r_fields (d : BIT_DStream_t) (size : Z) (fs : list (Z * Z)) (lim : Z) : Prop :=
  Forall nonneg fs /\ d_wf d size /\ d_holds d (d_image d size) (fields_bits fs) /\
  d_image d size mod 2 ^ fields_bits fs = fields_val fs /\ (d_bitsConsumed d <= lim \/ d_ptr d = Some (d_start d)).

Lemma r_fields_same d size fs gs lim : Forall nonneg gs -> fields_val fs = fields_val gs -> fields_bits fs = fields_bits gs -> r_fields d size fs lim -> r_fields d size gs lim.
Proof. intros Hg Hv Hb (_ & H). split; [done|]. by rewrite <- Hv, <- Hb. Qed.

Lemma r_weaken d size fs lim lim' : r_fields d size fs lim -> lim <= lim' -> r_fields d size fs lim'.
Proof. intros (H1 & H2 & H3 & H4 & H5) Hl. do 4 (split; [done|]). destruct H5; [left; lia|by right]. Qed.

(** Reading the last field. *)
Lemma r_read d size fs v nb lim : r_fields d size (fs ++ [(v, nb)]) lim -> nb < 32 -> lim + nb <= regBits ->
  nb + d_bitsConsumed d <= regBits /\
  exists d', BIT_readBits d nb = Ok (v mod 2 ^ nb, d') /\ r_fields d' size fs (lim + nb).
Proof.
  intros (Hnn & Hwf & Hh & Himg & Hlim) Hnb Hreg. apply Forall_app in Hnn as [Hfs Hf]. rewrite Forall_singleton in Hf. change (0 <= nb) in Hf.
  assert (nb + d_bitsConsumed d <= regBits) as Hav.
  { destruct Hlim as [Hl|Hst]; [lia|]. destruct Hh as (_ & p & Hp & _ & Hn & _). rewrite Hp in Hst. injection Hst as ->.
    rewrite bits_app in Hn. cbn in Hn. pose proof (bits_nonneg fs Hfs). lia. }
  split; [done|]. destruct (readBits_spec d size _ _ nb Hwf Hh ltac:(lia) Hav) as (d' & -> & Hwf' & Hsrc & Hh' & Hb).
  assert (d_image d' size = d_image d size) as Hi by (unfold d_image; by destruct Hsrc as (-> & -> & _)).
  rewrite val_app, bits_app in Himg by done. rewrite bits_app in *. cbn -[Z.pow] in *. rewrite !Z.add_0_r in *.
  replace (fields_bits fs + nb - nb) with (fields_bits fs) in * by lia. rewrite Z.mul_0_r, Z.add_0_r in Himg.
  pose proof (val_range fs Hfs) as Hr. pose proof (bits_nonneg fs Hfs) as Hn0. set (n := fields_bits fs) in *. set (X := d_image d size) in *.
  assert (0 < 2 ^ n) by (apply pow2_pos; lia). assert (0 < 2 ^ nb) by (apply pow2_pos; lia). pose proof (Z.mod_pos_bound v (2 ^ nb) ltac:(lia)).
  rewrite Z.pow_add_r in Himg by lia. rewrite Z.rem_mul_r in Himg by lia. pose proof (Z.mod_pos_bound X (2 ^ n) ltac:(lia)).
  assert (X mod 2 ^ n = fields_val fs /\ (X / 2 ^ n) mod 2 ^ nb = v mod 2 ^ nb) as [E1 E2].
  { destruct (Z.div_mod_unique (2 ^ n) ((X / 2 ^ n) mod 2 ^ nb) (v mod 2 ^ nb) (X mod 2 ^ n) (fields_val fs)); [lia|lia|lia|done]. }
  exists d'. rewrite E2. split; [done|]. split; [done|]. split; [done|]. rewrite Hi. split; [done|]. split; [done|].
  destruct Hlim as [Hl|Hst]; [left; lia|]. unfold BIT_readBits in *. right.
  destruct Hh' as (_ & p & Hp & Hsp & Hn & _). rewrite Hp. destruct Hsrc as (_ & Hs & _). rewrite Hs in *.
  destruct Hh as (_ & q & Hq & _ & Hn2 & _). rewrite Hst in Hq. injection Hq as <-. f_equal. lia.
Qed.

Lemma r_readFast d size fs v nb lim : r_fields d size (fs ++ [(v, nb)]) lim -> 1 <= nb < 32 -> lim + nb <= regBits ->
  exists d', BIT_readBitsFast d nb = Ok (v mod 2 ^ nb, d') /\ r_fields d' size fs (lim + nb).
Proof.
  intros Hr Hnb Hreg. destruct (r_read d size fs v nb lim Hr ltac:(lia) Hreg) as (Hav & d' & Hd & Hr').
  exists d'. split; [|done]. rewrite <- Hd. apply (readBitsFast_val d size); [apply Hr|done|done].
Qed.

Lemma r_reload d size fs lim : r_fields d size fs lim -> exists st d', BIT_reloadDStream d = Ok (st, d') /\ r_fields d' size fs 7.
Proof.
  intros (Hfs & Hwf & Hh & Himg & _). destruct (reloadDStream_spec d size Hwf) as (st & d' & Hre & Hwf' & Hsrc & Hov & _ & Hrel).
  exists st, d'. split; [done|]. destruct Hrel as (_ & Hkeep & Hfull & _); [rewrite Hov; destruct Hh; lia|].
  assert (d_image d' size = d_image d size) as Hi by (unfold d_image; by destruct Hsrc as (-> & -> & _)).
  split; [done|]. split; [done|]. rewrite Hi. split; [by apply Hkeep|]. split; [done|]. destruct Hsrc as (_ & -> & _). done.
Qed.

Lemma r_end d size lim : r_fields d size [] lim -> BIT_endOfDStream d = true.
Proof. intros (_ & Hwf & (Hb & p & Hp & Hs & Hn & _) & _). change (fields_bits []) with 0 in Hn. unfold BIT_endOfDStream. rewrite Hp. lia. Qed.

(** Opening what closing a stream left in memory. *)
Lemma r_open mem start fs : let N := fields_bits fs in
  bytes mem -> 0 <= start -> start + (N / 8 + 1) <= zlen mem -> Forall nonneg fs ->
  le_val (slice mem start (N / 8 + 1)) = fields_val fs + 2 ^ N ->
  exists d, BIT_initDStream mem start (N / 8 + 1) = Ok d /\ r_fields d (N / 8 + 1) fs 8.
Proof.
  intros N Hb Hs Hl Hf Himg. pose proof (bits_nonneg fs Hf) as HN. pose proof (val_range fs Hf) as HV. fold N in HV, HN.
  assert (0 < 2 ^ N) by (apply pow2_pos; lia). assert (0 <= N / 8) by (apply Z.div_pos; lia).
  assert (Hlog : Z.log2 (fields_val fs + 2 ^ N) = N).
  { replace (fields_val fs + 2 ^ N) with (fields_val fs + 2 ^ N * 1) by lia. rewrite log2_add_high by lia. simpl. lia. }
  destruct (top_byte_nonzero mem start N (fields_val fs)) as (last & Hlast & Hne); try done; try lia.
  destruct (initDStream_spec mem start (N / 8 + 1) last) as (d & Hd & Hcons & Hwf & Hdm & Hds & Hdh); try done; try lia.
  rewrite Himg, Hlog in Hdh. assert (d_image d (N / 8 + 1) = fields_val fs + 2 ^ N) as HX by (unfold d_image; by rewrite Hdm, Hds).
  exists d. split; [done|]. split; [done|]. split; [done|]. rewrite HX. fold N. split; [done|]. split; [|done].
  replace (fields_val fs + 2 ^ N) with (fields_val fs + 1 * 2 ^ N) by lia. by rewrite Z.mod_add, Z.mod_small by lia.
Qed.
End Read.
