(* ===== verification/Fse.v ===== *)
(** * fse.h: Finite State Entropy tables and the inlined state machines

    The decoding and encoding tables, their headers and the operations on a
    decoding or encoding state.  A table is a record of its arrays; a state
    keeps the table it runs on, as the [table], [stateTable] and [symbolTT]
    pointers of the code do. *)
From S2P Require Import Prelude Mem Errors Bits BitStream.

(** ** Constants *)

Definition FSE_MAX_MEMORY_USAGE : Z := 14.
Definition FSE_MAX_SYMBOL_VALUE : Z := 255.
Definition FSE_MAX_TABLELOG : Z := FSE_MAX_MEMORY_USAGE - 2.
Definition FSE_DEFAULT_TABLELOG : Z := 13 - 2.
Definition FSE_MIN_TABLELOG : Z := 5.
Definition FSE_TABLELOG_ABSOLUTE_MAX : Z := 15.

Definition FSE_TABLESTEP (tableSize : Z) : Z := Z.shiftr tableSize 1 + Z.shiftr tableSize 3 + 3.

(** Sizes in bytes of tables and of the workspaces used to build them. *)
Definition FSE_DTABLE_SIZE_U32 (maxTableLog : Z) : Z := 1 + Z.shiftl 1 maxTableLog.
Definition FSE_DTABLE_SIZE (maxTableLog : Z) : Z := FSE_DTABLE_SIZE_U32 maxTableLog * 4.
Definition FSE_BUILD_DTABLE_WKSP_SIZE (maxTableLog maxSymbolValue : Z) : Z :=
  2 * (maxSymbolValue + 1) + Z.shiftl 1 maxTableLog + 8.
Definition FSE_BUILD_DTABLE_WKSP_SIZE_U32 (maxTableLog maxSymbolValue : Z) : Z :=
  (FSE_BUILD_DTABLE_WKSP_SIZE maxTableLog maxSymbolValue + 4 - 1) / 4.
Definition FSE_DECOMPRESS_WKSP_SIZE_U32 (maxTableLog maxSymbolValue : Z) : Z :=
  FSE_DTABLE_SIZE_U32 maxTableLog + 1 + FSE_BUILD_DTABLE_WKSP_SIZE_U32 maxTableLog maxSymbolValue
  + (FSE_MAX_SYMBOL_VALUE + 1) / 2 + 1.
Definition FSE_DECOMPRESS_WKSP_SIZE (maxTableLog maxSymbolValue : Z) : Z :=
  FSE_DECOMPRESS_WKSP_SIZE_U32 maxTableLog maxSymbolValue * 4.
Definition FSE_BUILD_CTABLE_WORKSPACE_SIZE_U32 (maxSymbolValue tableLog : Z) : Z :=
  ((maxSymbolValue + 2) + Z.shiftl 1 tableLog) / 2 + 8 / 4.
Definition FSE_BUILD_CTABLE_WORKSPACE_SIZE (maxSymbolValue tableLog : Z) : Z :=
  4 * FSE_BUILD_CTABLE_WORKSPACE_SIZE_U32 maxSymbolValue tableLog.

(** ** Tables *)

Record FSE_decode_t := { newState : Z; symbol : Z; nbBits : Z }.

#[export] Instance FSE_decode_t_eq_dec : EqDecision FSE_decode_t.
Proof. solve_decision. Defined.

(** The [FSE_DTableHeader] and the cells that follow it. *)
Record FSE_DTable := { dt_tableLog : Z; dt_fastMode : Z; dt_table : list FSE_decode_t }.

Record FSE_symbolCompressionTransform := { deltaFindState : Z; deltaNbBits : Z }.

#[export] Instance FSE_symbolCompressionTransform_eq_dec : EqDecision FSE_symbolCompressionTransform.
Proof. solve_decision. Defined.

(** [tableU16[-2]], [tableU16[-1]], [tableU16] and [symbolTT]. *)
Record FSE_CTable := {
  ct_tableLog : Z;
  ct_maxSymbolValue : Z;
  ct_stateTable : list Z;
  ct_symbolTT : list FSE_symbolCompressionTransform
}.

Section States.
Context `{P : Platform}.

(** ** Encoding states *)

Record FSE_CState_t := {
  cs_value : Z;                 (* ptrdiff_t *)
  cs_stateTable : list Z;
  cs_symbolTT : list FSE_symbolCompressionTransform;
  cs_stateLog : Z
}.

Definition cs_set_value (st : FSE_CState_t) (v : Z) : FSE_CState_t :=
  {| cs_value := v; cs_stateTable := cs_stateTable st;
     cs_symbolTT := cs_symbolTT st; cs_stateLog := cs_stateLog st |}.

(** [ptrdiff_t + U32]: signed 64-bit on a 64-bit target, unsigned 32-bit
    otherwise; and the conversion of a [U32] to [ptrdiff_t]. *)
Definition add_ptrdiff_u32 (a b : Z) : Z := if MEM_64bits then a + b else u32 (a + b).
Definition ptrdiff_of_u32 (x : Z) : Z := if MEM_64bits then x else s32 x.

Definition FSE_initCState (ct : FSE_CTable) : FSE_CState_t :=
  let tableLog := ct_tableLog ct in
  {| cs_value := Z.shiftl 1 tableLog; cs_stateTable := ct_stateTable ct;
     cs_symbolTT := ct_symbolTT ct; cs_stateLog := tableLog |}.

Definition FSE_initCState2 (ct : FSE_CTable) (sym : Z) : res FSE_CState_t :=
  let st := FSE_initCState ct in
  let* symbolTT := aget (cs_symbolTT st) sym in
  let nbBitsOut := Z.shiftr (u32 (deltaNbBits symbolTT + Z.shiftl 1 15)) 16 in
  let value := ptrdiff_of_u32 (u32 (u32 (Z.shiftl nbBitsOut 16) - deltaNbBits symbolTT)) in
  let* value := aget (cs_stateTable st) (Z.shiftr value nbBitsOut + deltaFindState symbolTT) in
  Ok (cs_set_value st value).

Definition FSE_encodeSymbol (bitC : BIT_CStream_t) (st : FSE_CState_t) (sym : Z)
  : res (BIT_CStream_t * FSE_CState_t) :=
  let* symbolTT := aget (cs_symbolTT st) sym in
  let nbBitsOut := u32 (Z.shiftr (add_ptrdiff_u32 (cs_value st) (deltaNbBits symbolTT)) 16) in
  let* bitC := BIT_addBits bitC (size_t (cs_value st)) nbBitsOut in
  let* value := aget (cs_stateTable st)
                  (Z.shiftr (cs_value st) nbBitsOut + deltaFindState symbolTT) in
  Ok (bitC, cs_set_value st value).

Definition FSE_flushCState (bitC : BIT_CStream_t) (st : FSE_CState_t) : res BIT_CStream_t :=
  let* bitC := BIT_addBits bitC (size_t (cs_value st)) (cs_stateLog st) in
  BIT_flushBits bitC.

Definition FSE_getMaxNbBits (symbolTT : list FSE_symbolCompressionTransform) (symbolValue : Z) : res Z :=
  let* stt := aget symbolTT symbolValue in
  Ok (Z.shiftr (u32 (deltaNbBits stt + (Z.shiftl 1 16 - 1))) 16).

Definition FSE_bitCost (symbolTT : list FSE_symbolCompressionTransform)
    (tableLog symbolValue accuracyLog : Z) : res Z :=
  let* stt := aget symbolTT symbolValue in
  let minNbBits := Z.shiftr (deltaNbBits stt) 16 in
  let threshold := u32 (Z.shiftl (minNbBits + 1) 16) in
  oassert (tableLog <? 16) ;;;
  oassert (accuracyLog <? 31 - tableLog) ;;;
  let tableSize := Z.shiftl 1 tableLog in
  let deltaFromThreshold := u32 (threshold - u32 (deltaNbBits stt + tableSize)) in
  let normalizedDeltaFromThreshold :=
    Z.shiftr (u32 (Z.shiftl deltaFromThreshold accuracyLog)) tableLog in
  let bitMultiplier := Z.shiftl 1 accuracyLog in
  oassert (u32 (deltaNbBits stt + tableSize) <=? threshold) ;;;
  oassert (normalizedDeltaFromThreshold <=? bitMultiplier) ;;;
  Ok (u32 (u32 ((minNbBits + 1) * bitMultiplier) - normalizedDeltaFromThreshold)).

(** ** Decoding states *)

Record FSE_DState_t := { ds_state : Z; ds_table : list FSE_decode_t }.

Definition FSE_initDState (bitD : BIT_DStream_t) (dt : FSE_DTable) : res (FSE_DState_t * BIT_DStream_t) :=
  let* (state, bitD) := BIT_readBits bitD (dt_tableLog dt) in
  let* (_, bitD) := BIT_reloadDStream bitD in
  Ok ({| ds_state := state; ds_table := dt_table dt |}, bitD).

Definition FSE_peekSymbol (st : FSE_DState_t) : res Z :=
  let* DInfo := aget (ds_table st) (ds_state st) in
  Ok (symbol DInfo).

Definition FSE_updateState (st : FSE_DState_t) (bitD : BIT_DStream_t) : res (FSE_DState_t * BIT_DStream_t) :=
  let* DInfo := aget (ds_table st) (ds_state st) in
  let* (lowBits, bitD) := BIT_readBits bitD (nbBits DInfo) in
  Ok ({| ds_state := size_t (newState DInfo + lowBits); ds_table := ds_table st |}, bitD).

Definition FSE_decodeSymbol (st : FSE_DState_t) (bitD : BIT_DStream_t)
  : res (Z * FSE_DState_t * BIT_DStream_t) :=
  let* DInfo := aget (ds_table st) (ds_state st) in
  let* (lowBits, bitD) := BIT_readBits bitD (nbBits DInfo) in
  Ok (symbol DInfo, {| ds_state := size_t (newState DInfo + lowBits); ds_table := ds_table st |}, bitD).

Definition FSE_decodeSymbolFast (st : FSE_DState_t) (bitD : BIT_DStream_t)
  : res (Z * FSE_DState_t * BIT_DStream_t) :=
  let* DInfo := aget (ds_table st) (ds_state st) in
  let* (lowBits, bitD) := BIT_readBitsFast bitD (nbBits DInfo) in
  Ok (symbol DInfo, {| ds_state := size_t (newState DInfo + lowBits); ds_table := ds_table st |}, bitD).

Definition FSE_endOfDState (st : FSE_DState_t) : bool := ds_state st =? 0.
End States.

(** ** Spreading symbols over a table

    [FSE_buildDTable_internal], [FSE_buildCTable_wksp] and
    [ZSTD_buildFSETable_body] place symbols with the same two loops; [put] is
    the store into the table each of them builds.  Positions and steps stay far
    below 2^32. *)
Section Spread.
Context `{P : Platform} {T : Type}.
Variable put : list T -> Z -> Z -> res (list T).

(** Symbols in order, eight bytes at a time. *)
Definition lay_down (normalizedCounter : list Z) (maxSV1 : Z) (spread : list Z) : res (list Z) :=
  let add := 0x0101010101010101 in
  let* (spread, _, _) := for_range 0 maxSV1 (fun s st =>
    let* n := aget normalizedCounter s in
    let '(spread, pos, sv) := st in
    let* spread := MEM_write64 spread pos sv in
    let* spread := for_step 8 n 8 (fun i spread => MEM_write64 spread (pos + i) sv) spread in
    Ok (spread, size_t (pos + size_t n), u64 (sv + add))) (spread, 0, 0) in
  Ok spread.

(** The laid-down symbols across the table, two per iteration. *)
Definition walk_unrolled (spread : list Z) (tableSize : Z) (table : list T) : res (list T) :=
  let tableMask := tableSize - 1 in
  let step := FSE_TABLESTEP tableSize in
  let unroll := 2 in
  oassert (tableSize mod unroll =? 0) ;;;
  let* (table, position) := for_step 0 tableSize unroll (fun s '(table, position) =>
    let* table := for_range 0 unroll (fun u table =>
      let uPosition := Z.land (position + u * step) tableMask in
      let* sym := aget spread (s + u) in
      put table uPosition sym) table in
    Ok (table, Z.land (position + unroll * step) tableMask)) (table, 0) in
  oassert (position =? 0) ;;;
  Ok table.

(** [while (position > highThreshold) position = (position + step) & tableMask] *)
Definition skip_lowprob (tableSize highThreshold position : Z) : res Z :=
  loop (S (Z.to_nat tableSize)) (fun position =>
    if highThreshold <? position
    then Ok (inl (Z.land (position + FSE_TABLESTEP tableSize) (tableSize - 1)))
    else Ok (inr position)) position.

(** Symbols across the cells below [highThreshold]; the position reached. *)
Definition walk_lowprob (normalizedCounter : list Z) (maxSV1 tableSize highThreshold : Z)
    (table : list T) : res (list T * Z) :=
  let tableMask := tableSize - 1 in
  let step := FSE_TABLESTEP tableSize in
  for_range 0 maxSV1 (fun s st =>
    let* n := aget normalizedCounter s in
    for_range 0 n (fun _ '(table, position) =>
      let* table := put table position (u8 s) in
      let* position := skip_lowprob tableSize highThreshold (Z.land (position + step) tableMask) in
      Ok (table, position)) st) (table, 0).
End Spread.
