(* ===== verification/FseSpread.v ===== *)
(** * How symbols are spread over an FSE table

    A table of [2^k] cells is filled by walking it with an odd step, so every
    cell is met once; symbols of probability "less than one" take the cells at
    the top instead.  [spread_ok] says which symbol each cell gets, and the two
    walks of the code are shown to produce it. *)
From S2P Require Import Prelude Mem Errors Bits BitStream Fse.
From Stdlib Require Znumtheory Zpow_facts.

(** ** Counts *)

(** The number of cells of a symbol with normalized count [n]. *)
Definition occ (n : Z) : Z := if n =? -1 then 1 else n.

Fixpoint total (norm : list Z) : Z :=
  match norm with
  | [] => 0
  | n :: norm => occ n + total norm
  end.

Lemma total_app l r : total (l ++ r) = total l + total r.
Proof. induction l as [|n l IH]; simpl; [done|]. rewrite IH. lia. Qed.

(** Counts for a table of [2^k] cells, as [FSE_readNCount] and
    [FSE_normalizeCount] promise them. *)
Definition norm_ok (norm : list Z) (k : Z) : Prop :=
  5 <= k <= 15 /\ 0 < zlen norm <= 256 /\ Forall (fun n => -1 <= n) norm /\ total norm = 2 ^ k.

(** The symbols laid down in order, and the low-probability ones. *)
Fixpoint expand (s : Z) (norm : list Z) : list Z :=
  match norm with
  | [] => []
  | n :: norm => replicate (Z.to_nat n) s ++ expand (s + 1) norm
  end.

Fixpoint lows (s : Z) (norm : list Z) : list Z :=
  match norm with
  | [] => []
  | n :: norm => if n =? -1 then s :: lows (s + 1) norm else lows (s + 1) norm
  end.

Lemma total_split norm s :
  Forall (fun n => -1 <= n) norm -> total norm = zlen (expand s norm) + zlen (lows s norm).
Proof.
  intros H. revert s. induction H as [|n norm Hn H IH]; intros s; simpl; [done|].
  unfold occ. rewrite (IH (s + 1)). destruct (Z.eqb_spec n (-1)) as [->|Hne];
    autorewrite with zlen; lia.
Qed.

Lemma total_nonneg norm : Forall (fun n => -1 <= n) norm -> 0 <= total norm.
Proof. intros H. rewrite (total_split norm 0 H). unfold zlen. lia. Qed.

Lemma occ_le_total norm i n :
  Forall (fun n => -1 <= n) norm -> norm !! i = Some n -> 0 <= occ n <= total norm.
Proof.
  intros H. revert i. induction H as [|m norm Hm H IH]; intros i Hi; [done|].
  pose proof (total_nonneg norm H). destruct i as [|i]; simpl in *.
  - injection Hi as ->. unfold occ. zcases; lia.
  - specialize (IH i Hi). assert (0 <= occ m) by (unfold occ; zcases; lia). lia.
Qed.

Lemma expand_range norm s : Forall (fun e => s <= e < s + zlen norm) (expand s norm).
Proof.
  revert s; induction norm as [|n norm IH]; intros s; simpl; [constructor|].
  rewrite Forall_app. autorewrite with zlen. pose proof (zlen_nonneg norm). split.
  - apply Forall_replicate. lia.
  - eapply Forall_impl; [apply IH|]. simpl. lia.
Qed.

Lemma lows_range norm s : Forall (fun e => s <= e < s + zlen norm) (lows s norm).
Proof.
  revert s; induction norm as [|n norm IH]; intros s; simpl; [constructor|].
  autorewrite with zlen. pose proof (zlen_nonneg norm).
  assert (Forall (fun e => s <= e < s + (zlen norm + 1)) (lows (s + 1) norm))
    by (eapply Forall_impl; [apply IH|]; simpl; lia).
  destruct (n =? -1); [constructor; [lia|done]|done].
Qed.

Definition count_sym (s : Z) (l : list Z) : Z := zlen (filter (fun e => e = s) l).

Lemma count_sym_app s l1 l2 : count_sym s (l1 ++ l2) = count_sym s l1 + count_sym s l2.
Proof. unfold count_sym. rewrite filter_app. apply zlen_app. Qed.

Lemma count_sym_cons s x l : count_sym s (x :: l) = (if decide (x = s) then 1 else 0) + count_sym s l.
Proof. unfold count_sym. rewrite filter_cons. destruct (decide (x = s)); autorewrite with zlen; lia. Qed.

Lemma count_sym_absent s l : Forall (fun e => e <> s) l -> count_sym s l = 0.
Proof.
  induction 1 as [|x l Hx Hl IH]; [done|]. rewrite count_sym_cons, IH. by destruct (decide (x = s)).
Qed.

Lemma count_sym_replicate s n : count_sym s (replicate n s) = Z.of_nat n.
Proof.
  induction n as [|n IH]; [done|]. simpl replicate. rewrite count_sym_cons, IH.
  destruct (decide (s = s)); [lia|done].
Qed.

Lemma count_sym_nonneg s l : 0 <= count_sym s l.
Proof. unfold count_sym. apply zlen_nonneg. Qed.

(** Every symbol is laid down as often as its count says. *)
Lemma count_expand norm s i n :
  Forall (fun n => -1 <= n) norm -> norm !! i = Some n ->
  count_sym (s + Z.of_nat i) (expand s norm ++ lows s norm) = occ n.
Proof.
  intros H. revert s i. induction H as [|m norm Hm H IH]; intros s i Hi; [done|].
  rewrite count_sym_app. simpl. rewrite count_sym_app. destruct i as [|i]; simpl in Hi.
  - injection Hi as ->. rewrite Z.add_0_r, count_sym_replicate.
    assert (forall l, Forall (fun e => s + 1 <= e < s + 1 + zlen norm) l -> count_sym s l = 0) as Habs.
    { intros l Hl. apply count_sym_absent. eapply Forall_impl; [exact Hl|]. simpl. lia. }
    rewrite (Habs (expand _ _)) by apply expand_range. unfold occ. destruct (Z.eqb_spec n (-1)) as [->|].
    + rewrite count_sym_cons, (Habs (lows _ _)) by apply lows_range. destruct (decide (s = s)); done.
    + rewrite (Habs (lows _ _)) by apply lows_range. lia.
  - specialize (IH (s + 1) i Hi). rewrite count_sym_app in IH.
    replace (s + Z.of_nat (S i)) with (s + 1 + Z.of_nat i) by lia.
    rewrite (count_sym_absent _ (replicate _ _)) by (apply Forall_replicate; lia).
    destruct (m =? -1); [|lia]. rewrite count_sym_cons. destruct (decide (s = _)); lia.
Qed.

(** ** The walk *)

Section Walk.
Variable k : Z.
Hypothesis Hk : 4 <= k.
Let T := 2 ^ k.
Let step := FSE_TABLESTEP T.

(** The position after [j] steps. *)
Definition pos_at (j : nat) : Z := (Z.of_nat j * FSE_TABLESTEP (2 ^ k)) mod 2 ^ k.

Definition posl (j : nat) : list Z := map pos_at (seq 0 j).

(** The cells below [lim], in the order of the walk. *)
Definition cells (lim : Z) : list Z := filter (fun p => p < lim) (posl (Z.to_nat (2 ^ k))).

Lemma T_pos : 16 <= 2 ^ k.
Proof. change 16 with (2 ^ 4). apply Z.pow_le_mono_r; lia. Qed.

Lemma step_odd : exists m, FSE_TABLESTEP (2 ^ k) = 2 * m + 1.
Proof.
  unfold FSE_TABLESTEP. rewrite !Z.shiftr_div_pow2 by lia.
  replace k with (4 + (k - 4)) by lia. rewrite Z.pow_add_r by lia. set (q := 2 ^ (k - 4)).
  exists (4 * q + q + 1). change (2 ^ 4) with 16. change (2 ^ 1) with 2. change (2 ^ 3) with 8.
  replace (16 * q) with (8 * q * 2) at 1 by lia. rewrite Z.div_mul by lia.
  replace (16 * q) with (2 * q * 8) by lia. rewrite Z.div_mul by lia. lia.
Qed.

Lemma step_range : 0 < FSE_TABLESTEP (2 ^ k).
Proof.
  unfold FSE_TABLESTEP. pose proof T_pos. rewrite !Z.shiftr_div_pow2 by lia.
  assert (0 <= 2 ^ k / 2 ^ 1) by (apply Z.div_pos; lia).
  assert (0 <= 2 ^ k / 2 ^ 3) by (apply Z.div_pos; lia). lia.
Qed.

Lemma pos_at_range j : 0 <= pos_at j < 2 ^ k.
Proof. apply Z.mod_pos_bound. pose proof T_pos. lia. Qed.

Lemma pos_at_end : pos_at (Z.to_nat (2 ^ k)) = 0.
Proof. unfold pos_at. pose proof T_pos. rewrite Z2Nat.id, Z.mul_comm by lia.
  apply Z.mod_mul. lia.
Qed.

Lemma land_mask x : Z.land x (2 ^ k - 1) = x mod 2 ^ k.
Proof. by rewrite land_ones_wrap by lia. Qed.

Lemma pos_at_S j m :
  Z.land (pos_at j + Z.of_nat m * FSE_TABLESTEP (2 ^ k)) (2 ^ k - 1) = pos_at (j + m).
Proof.
  rewrite land_mask. unfold pos_at. pose proof T_pos. rewrite Z.add_mod_idemp_l by lia. f_equal. lia.
Qed.

(** An odd step meets every cell. *)
Lemma pos_at_inj i j : Z.of_nat i < 2 ^ k -> Z.of_nat j < 2 ^ k -> pos_at i = pos_at j -> i = j.
Proof.
  intros Hi Hj Heq. unfold pos_at in Heq. pose proof T_pos.
  assert ((2 ^ k | (Z.of_nat i - Z.of_nat j) * FSE_TABLESTEP (2 ^ k))) as Hdiv.
  { apply Z.mod_divide; [lia|]. rewrite Z.mul_sub_distr_r, Zminus_mod, Heq.
    by rewrite Z.sub_diag. }
  rewrite Z.mul_comm in Hdiv. apply Z.gauss in Hdiv as [q Hq].
  - assert (q < 1 /\ -1 < q) by nia. assert (q = 0) as -> by lia. lia.
  - destruct step_odd as [m ->]. apply Znumtheory.Zgcd_1_rel_prime.
    apply Znumtheory.rel_prime_sym. apply Zpow_facts.rel_prime_Zpower_r; [lia|].
    apply Znumtheory.Zgcd_1_rel_prime. rewrite Z.gcd_comm, Z.add_comm.
    rewrite (Z.mul_comm 2), Z.gcd_add_mult_diag_r. done.
Qed.

Lemma posl_S j : posl (S j) = posl j ++ [pos_at j].
Proof. unfold posl. by rewrite seq_S, map_app. Qed.

Lemma length_posl j : length (posl j) = j.
Proof. unfold posl. by rewrite length_map, length_seq. Qed.

Lemma NoDup_posl j : Z.of_nat j <= 2 ^ k -> NoDup (posl j).
Proof.
  intros Hj. unfold posl. apply NoDup_fmap_2_strong; [|apply NoDup_seq].
  intros x y Hx Hy. rewrite !elem_of_seq in *. apply pos_at_inj; lia.
Qed.

Lemma posl_range j : Forall (fun p => 0 <= p < 2 ^ k) (posl j).
Proof. unfold posl. apply Forall_map, Forall_true. intros. apply pos_at_range. Qed.

(** Numbers [0..n-1]. *)
Definition zseq (n : nat) : list Z := map Z.of_nat (seq 0 n).

Lemma posl_perm : posl (Z.to_nat (2 ^ k)) ≡ₚ zseq (Z.to_nat (2 ^ k)).
Proof.
  apply submseteq_length_Permutation.
  - apply NoDup_submseteq; [apply NoDup_posl; lia|].
    intros x Hx. pose proof (proj1 (Forall_forall _ _) (posl_range _) x Hx) as Hr. simpl in Hr.
    unfold zseq. apply list_elem_of_fmap. exists (Z.to_nat x). rewrite elem_of_seq. lia.
  - unfold zseq. rewrite length_posl, length_map, length_seq. done.
Qed.

(** The cells below [lim] and those above it, counted down from the top. *)
Lemma filter_lt_zseq lim n :
  0 <= lim <= Z.of_nat n -> filter (fun p => p < lim) (zseq n) = zseq (Z.to_nat lim).
Proof.
  intros Hl. unfold zseq. replace n with (Z.to_nat lim + (n - Z.to_nat lim))%nat by lia.
  rewrite seq_app, map_app, filter_app. rewrite list_filter_True, list_filter_False, app_nil_r; [done| |];
    intros x [y [-> Hy]]%list_elem_of_fmap; rewrite elem_of_seq in Hy; lia.
Qed.

Lemma zlen_cells lim : 0 <= lim <= 2 ^ k -> zlen (cells lim) = lim.
Proof.
  intros Hl. unfold cells, zlen. rewrite posl_perm, filter_lt_zseq by lia.
  unfold zseq. rewrite length_map, length_seq. lia.
Qed.

Lemma NoDup_cells lim : NoDup (cells lim).
Proof. apply NoDup_filter, NoDup_posl. pose proof T_pos. lia. Qed.

Lemma cells_range lim : Forall (fun p => 0 <= p < 2 ^ k /\ p < lim) (cells lim).
Proof.
  apply Forall_forall. intros p [Hp Hin]%list_elem_of_filter. split; [|done].
  by apply (proj1 (Forall_forall _ _) (posl_range (Z.to_nat (2 ^ k)))).
Qed.

Definition top_cells (n : nat) : list Z := map (fun i => 2 ^ k - 1 - Z.of_nat i) (seq 0 n).

Lemma NoDup_top_cells n : NoDup (top_cells n).
Proof. apply NoDup_fmap_2_strong; [|apply NoDup_seq]. intros x y _ _. lia. Qed.

Lemma all_cells_perm n :
  Z.of_nat n <= 2 ^ k ->
  cells (2 ^ k - Z.of_nat n) ++ top_cells n ≡ₚ zseq (Z.to_nat (2 ^ k)).
Proof.
  intros Hn. apply submseteq_length_Permutation.
  - apply NoDup_submseteq.
    + apply NoDup_app. split; [apply NoDup_cells|]. split; [|apply NoDup_top_cells].
      intros x Hx Hy. pose proof (proj1 (Forall_forall _ _) (cells_range _) x Hx) as Hr. simpl in Hr.
      unfold top_cells in Hy. apply list_elem_of_fmap in Hy as (y & -> & Hy%elem_of_seq). lia.
    + intros x Hx. unfold zseq. apply list_elem_of_fmap. exists (Z.to_nat x). rewrite elem_of_seq.
      apply elem_of_app in Hx as [Hx|Hx].
      * pose proof (proj1 (Forall_forall _ _) (cells_range _) x Hx) as Hr. simpl in Hr. lia.
      * unfold top_cells in Hx. apply list_elem_of_fmap in Hx as (y & -> & Hy%elem_of_seq). lia.
  - pose proof (zlen_cells (2 ^ k - Z.of_nat n) ltac:(lia)) as Hc. unfold zlen in Hc.
    rewrite length_app. unfold zseq, top_cells. rewrite !length_map, !length_seq. lia.
Qed.

(** The walk over the cells below [lim]: from step [j] on, the next such cell. *)
Lemma skip_lowprob_spec lim high j :
  1 <= lim -> (forall p, 0 <= p < 2 ^ k -> high < p <-> lim <= p) ->
  Z.of_nat j <= 2 ^ k ->
  exists j', skip_lowprob (2 ^ k) high (pos_at j) = Ok (pos_at j') /\
    (j <= j')%nat /\ Z.of_nat j' <= 2 ^ k /\ pos_at j' < lim /\
    forall i, (j <= i < j')%nat -> lim <= pos_at i.
Proof.
  intros Hlim Hh. unfold skip_lowprob.
  assert (forall fuel j, Z.of_nat j <= 2 ^ k -> (Z.to_nat (2 ^ k) - j < fuel)%nat ->
    exists j', loop fuel (fun position => if high <? position
      then Ok (inl (Z.land (position + FSE_TABLESTEP (2 ^ k)) (2 ^ k - 1))) else Ok (inr position))
        (pos_at j) = (Ok (pos_at j') : res Z) /\
    (j <= j')%nat /\ Z.of_nat j' <= 2 ^ k /\ pos_at j' < lim /\
    forall i, (j <= i < j')%nat -> lim <= pos_at i) as Hloop; [|intros Hj; apply Hloop; lia].
  clear j. induction fuel as [|fuel IH]; intros j Hj Hf; [lia|]. cbn [loop obind].
  pose proof (pos_at_range j). pose proof (Hh (pos_at j) ltac:(lia)).
  destruct (Z.ltb_spec high (pos_at j)); cbn [obind].
  - assert (j <> Z.to_nat (2 ^ k)) by (intros ->; rewrite pos_at_end in *; lia).
    pose proof (pos_at_S j 1) as Hs. rewrite Z.mul_1_l in Hs. rewrite Hs.
    destruct (IH (j + 1)%nat) as (j' & -> & Hjj & Hj' & Hlt & Hall); [lia|lia|].
    exists j'. split; [done|]. split; [lia|]. do 2 (split; [done|]).
    intros i Hi. destruct (decide (i = j)) as [->|]; [lia|apply Hall; lia].
  - exists j. split; [done|]. split; [lia|]. split; [done|]. split; [lia|]. lia.
Qed.

Lemma filter_posl_skip lim j j' :
  (j <= j')%nat -> (forall i, (j <= i < j')%nat -> lim <= pos_at i) ->
  filter (fun p => p < lim) (posl j') = filter (fun p => p < lim) (posl j).
Proof.
  intros Hj Hall. unfold posl. replace j' with (j + (j' - j))%nat by lia.
  rewrite seq_app, map_app, filter_app.
  rewrite (list_filter_False _ (map _ (seq (0 + j) _))), app_nil_r; [done|].
  intros x [i [-> Hi]]%list_elem_of_fmap. rewrite elem_of_seq in Hi. specialize (Hall i). lia.
Qed.
End Walk.

(** ** Filling the table *)

(** Stores at the given positions, in order. *)
Definition write_all (l : list Z) (pes : list (Z * Z)) : list Z :=
  foldl (fun l pe => <[Z.to_nat pe.1 := pe.2]> l) l pes.

Lemma length_write_all pes : forall l, length (write_all l pes) = length l.
Proof. induction pes as [|pe pes IH]; intros l; [done|]. simpl. by rewrite IH, length_insert. Qed.

Lemma write_all_other pes : forall l p,
  Forall (fun pe => pe.1 <> p /\ 0 <= pe.1) pes -> 0 <= p ->
  write_all l pes !! Z.to_nat p = l !! Z.to_nat p.
Proof.
  induction pes as [|pe pes IH]; intros l p H Hp; [done|]. inversion_clear H. simpl.
  rewrite IH by done. apply list_lookup_insert_ne. lia.
Qed.

Lemma write_all_lookup ps : forall es l i p e,
  NoDup ps -> Forall (fun p => 0 <= p < zlen l) ps ->
  ps !! i = Some p -> es !! i = Some e ->
  write_all l (zip ps es) !! Z.to_nat p = Some e.
Proof.
  induction ps as [|q ps IH]; intros [|f es] l i p e Hnd Hr Hp He; try done.
  inversion_clear Hnd as [|? ? Hnin Hnd']. inversion_clear Hr as [|? ? Hq Hr'].
  destruct i as [|i]; simpl in Hp, He.
  - injection Hp as ->. injection He as ->. simpl.
    rewrite write_all_other; [apply list_lookup_insert_eq; unfold zlen in Hq; lia| |lia].
    apply Forall_forall. intros [q f'] Hqf. apply elem_of_zip_l in Hqf as Hqf'. simpl. split.
    + intros ->. done.
    + apply (proj1 (Forall_forall _ _) Hr') in Hqf'. simpl in Hqf'. lia.
  - simpl. apply (IH es _ i p e); try done. by rewrite zlen_insert.
Qed.

(** Which symbol each cell holds. *)
Definition spread_ok (norm : list Z) (k : Z) (syms : list Z) : Prop :=
  zlen syms = 2 ^ k /\
  (forall i s, lows 0 norm !! i = Some s -> syms !! Z.to_nat (2 ^ k - 1 - Z.of_nat i) = Some s) /\
  (forall i s, expand 0 norm !! i = Some s ->
     exists p, cells k (2 ^ k - zlen (lows 0 norm)) !! i = Some p /\ syms !! Z.to_nat p = Some s).

Lemma lookup_total_map (l : list Z) (ps es : list Z) :
  length ps = length es -> (forall i p e, ps !! i = Some p -> es !! i = Some e -> l !! Z.to_nat p = Some e) ->
  map (fun p => nth (Z.to_nat p) l 0) ps = es.
Proof.
  revert es. induction ps as [|p ps IH]; intros [|e es] Hl H; try done. simpl. f_equal.
  - specialize (H 0%nat p e eq_refl eq_refl). by apply nth_lookup_Some.
  - apply IH; [simpl in Hl; lia|]. intros i. apply (H (S i)).
Qed.

Lemma map_nth_zseq (l : list Z) : map (fun p => nth (Z.to_nat p) l 0) (zseq (length l)) = l.
Proof.
  apply list_eq. intros i. unfold zseq. rewrite map_map, list_lookup_fmap.
  destruct (decide (i < length l)%nat) as [Hi|Hi].
  - rewrite lookup_seq_lt by done. simpl. rewrite Nat2Z.id.
    destruct (lookup_lt_is_Some_2 l i Hi) as [x Hx]. rewrite Hx. f_equal. by apply nth_lookup_Some.
  - rewrite lookup_seq_ge by lia. simpl. symmetry. apply lookup_ge_None. lia.
Qed.

(** The cells hold exactly the symbols laid down. *)
Lemma spread_perm norm k syms :
  norm_ok norm k -> spread_ok norm k syms -> syms ≡ₚ expand 0 norm ++ lows 0 norm.
Proof.
  intros (Hk & _ & Hge & Htot) (Hlen & Hlow & Hexp).
  pose proof (total_split norm 0 Hge) as Hsplit. rewrite Htot in Hsplit.
  set (nl := length (lows 0 norm)). assert (zlen (lows 0 norm) = Z.of_nat nl) as Hnl by done.
  pose proof (zlen_nonneg (expand 0 norm)).
  assert (Z.to_nat (2 ^ k) = length syms) as HT by (unfold zlen in Hlen; lia).
  rewrite <- (map_nth_zseq syms) at 1. rewrite <- HT, <- (all_cells_perm k ltac:(lia) nl) by lia.
  rewrite map_app. f_equiv.
  - rewrite (lookup_total_map syms _ (expand 0 norm)); [done| |].
    + pose proof (zlen_cells k ltac:(lia) (2 ^ k - Z.of_nat nl) ltac:(lia)) as Hc.
      unfold zlen in *. lia.
    + intros i p e Hp He. destruct (Hexp i e He) as (p' & Hp' & Hs). rewrite Hnl in Hp'. congruence.
  - rewrite (lookup_total_map syms _ (lows 0 norm)); [done| |].
    + unfold top_cells. by rewrite length_map, length_seq.
    + intros i p e Hp He. unfold top_cells in Hp. rewrite list_lookup_fmap in Hp.
      destruct (seq 0 nl !! i) as [j|] eqn:Hj; [|done]. apply lookup_seq in Hj as [-> _].
      injection Hp as <-. by apply Hlow.
Qed.

Lemma spread_unique norm k s1 s2 :
  norm_ok norm k -> spread_ok norm k s1 -> spread_ok norm k s2 -> s1 = s2.
Proof.
  intros (Hk & _ & Hge & Htot) (Hl1 & Hlow1 & Hexp1) (Hl2 & Hlow2 & Hexp2).
  pose proof (total_split norm 0 Hge) as Hsplit. rewrite Htot in Hsplit.
  set (nl := length (lows 0 norm)). assert (zlen (lows 0 norm) = Z.of_nat nl) as Hnl by done.
  pose proof (zlen_nonneg (expand 0 norm)).
  apply (list_eq_same_length _ _ (Z.to_nat (2 ^ k))); [unfold zlen in *; lia..|].
  intros i x y Hi Hx Hy.
  assert (Z.of_nat i ∈ cells k (2 ^ k - Z.of_nat nl) ++ top_cells k nl) as Hin.
  { rewrite (all_cells_perm k) by lia. unfold zseq. apply list_elem_of_fmap. exists i.
    rewrite elem_of_seq. lia. }
  apply elem_of_app in Hin as [Hin|Hin].
  - apply list_elem_of_lookup in Hin as [c Hc]. rewrite <- Hnl in Hc.
    destruct (lookup_lt_is_Some_2 (expand 0 norm) c) as [e He].
    { apply lookup_lt_Some in Hc. pose proof (zlen_cells k ltac:(lia) (2 ^ k - zlen (lows 0 norm)) ltac:(lia)).
      unfold zlen in *. lia. }
    destruct (Hexp1 c e He) as (p1 & Hp1 & He1). destruct (Hexp2 c e He) as (p2 & Hp2 & He2).
    simplify_eq. rewrite Nat2Z.id in *. congruence.
  - unfold top_cells in Hin. apply list_elem_of_fmap in Hin as (j & Hij & Hj%elem_of_seq).
    destruct (lookup_lt_is_Some_2 (lows 0 norm) j) as [e He]; [fold nl; lia|].
    specialize (Hlow1 j e He). specialize (Hlow2 j e He).
    rewrite <- Hij, Nat2Z.id in Hlow1, Hlow2. congruence.
Qed.

Lemma spread_count norm k syms i n :
  norm_ok norm k -> spread_ok norm k syms -> norm !! i = Some n ->
  count_sym (Z.of_nat i) syms = occ n.
Proof.
  intros Hn Hs Hi. unfold count_sym, zlen. rewrite (spread_perm norm k syms Hn Hs).
  apply (count_expand norm 0 i n); [apply Hn|done].
Qed.

Lemma spread_range norm k syms :
  norm_ok norm k -> spread_ok norm k syms -> Forall (fun s => 0 <= s < zlen norm) syms.
Proof.
  intros Hn Hs. rewrite (spread_perm norm k syms Hn Hs). apply Forall_app. split.
  - apply (expand_range norm 0).
  - apply (lows_range norm 0).
Qed.

(** ** The code's walks *)

Section Put.
Context `{P : Platform} {T : Type} (put : list T -> Z -> Z -> res (list T)) (view : T -> Z).
Hypothesis put_spec : forall table i s, 0 <= i < zlen table ->
  exists table', put table i s = Ok table' /\ map view table' = <[Z.to_nat i := s]> (map view table).

Lemma zlen_view (t t' : list T) l : map view t' = write_all (map view t) l -> zlen t' = zlen t.
Proof.
  intros H. apply (f_equal length) in H. rewrite length_write_all, !length_map in H.
  unfold zlen. by rewrite H.
Qed.

Section Low.
Context (norm : list Z) (k lim high : Z).
Hypothesis Hnorm : norm_ok norm k.
Hypothesis Hlim : lim = 2 ^ k - zlen (lows 0 norm).
Hypothesis Hhigh : 1 <= lim -> high = lim - 1.

(** The state of [walk_lowprob] after it placed [done]. *)
Definition walk_inv (table0 : list T) (placed : list Z) (st : list T * Z) : Prop :=
  exists j, st.2 = pos_at k j /\ Z.of_nat j <= 2 ^ k /\
    (Z.of_nat j = 2 ^ k \/ pos_at k j < lim) /\
    length (filter (fun p => p < lim) (posl k j)) = length placed /\
    map view st.1 = write_all (map view table0) (zip (filter (fun p => p < lim) (posl k j)) placed).

Definition walk_body (s : Z) (st : list T * Z) : res (list T * Z) :=
  let '(table, position) := st in
  let* table := put table position (u8 s) in
  let* position := skip_lowprob (2 ^ k) high (Z.land (position + FSE_TABLESTEP (2 ^ k)) (2 ^ k - 1)) in
  Ok (table, position).

Lemma expand_lim : zlen (expand 0 norm) = lim.
Proof.
  destruct Hnorm as (_ & _ & Hge & Htot). pose proof (total_split norm 0 Hge). lia.
Qed.

Lemma expand_byte s : s ∈ expand 0 norm -> 0 <= s < 2 ^ 8.
Proof.
  intros Hs. apply (proj1 (Forall_forall _ _) (expand_range norm 0)) in Hs. simpl in Hs.
  destruct Hnorm as (_ & Hl & _). lia.
Qed.

Lemma walk_step table0 placed s rest st :
  zlen table0 = 2 ^ k -> placed ++ s :: rest = expand 0 norm -> walk_inv table0 placed st ->
  exists st', walk_body s st = Ok st' /\ walk_inv table0 (placed ++ [s]) st'.
Proof.
  intros Ht0 He (j & Hpos & Hj & Hend & Hlen & Hv). destruct st as [table position]; simpl in *.
  assert (Hk : 4 <= k) by (destruct Hnorm; lia). pose proof (T_pos k Hk).
  pose proof expand_lim as Hel. rewrite <- He in Hel. autorewrite with zlen in Hel.
  assert (zlen placed < lim) by (pose proof (zlen_nonneg rest); lia).
  pose proof (zlen_nonneg placed). pose proof (zlen_nonneg (lows 0 norm)).
  assert (Z.of_nat j <> 2 ^ k) as Hne.
  { intros Heq. pose proof (zlen_cells k Hk lim ltac:(lia)) as Hc. unfold cells, zlen in *.
    replace (Z.to_nat (2 ^ k)) with j in Hc by lia. lia. }
  destruct Hend as [?|Hp]; [lia|]. pose proof (pos_at_range k Hk j).
  pose proof (zlen_view _ _ _ Hv) as Hz.
  destruct (put_spec table position s) as (table' & Hput & Hv'); [lia|].
  unfold walk_body. rewrite (wrap_small 8 s), Hput by (apply expand_byte; rewrite <- He; apply elem_of_app; right; left).
  cbn [obind].
  pose proof (pos_at_S k Hk j 1) as Hs. rewrite Z.mul_1_l in Hs. rewrite Hpos, Hs.
  destruct (skip_lowprob_spec k Hk lim high (j + 1)) as (j' & -> & Hjj & Hj' & Hlt & Hall); [lia| |lia|].
  { intros p Hp'. rewrite Hhigh by lia. lia. }
  cbn [obind]. eexists; split; [reflexivity|]. exists j'. split; [done|]. split; [done|].
  split; [by right|]. rewrite (filter_posl_skip k Hk lim (j + 1) j') by done.
  rewrite Nat.add_1_r, posl_S, filter_app, filter_singleton_True by done.
  rewrite !length_app, Hlen. split; [done|]. cbn [fst]. rewrite Hv', Hv, Hpos.
  rewrite zip_with_app by done. unfold write_all at 2. by rewrite foldl_app.
Qed.

Lemma walk_all table0 rest : forall placed st,
  zlen table0 = 2 ^ k -> placed ++ rest = expand 0 norm -> walk_inv table0 placed st ->
  exists st', ofold walk_body rest st = Ok st' /\ walk_inv table0 (expand 0 norm) st'.
Proof.
  induction rest as [|s rest IH]; intros placed st Ht He Hi.
  - rewrite app_nil_r in He. subst placed. by exists st.
  - destruct (walk_step table0 placed s rest st) as (st1 & H1 & Hi1); try done.
    cbn [ofold]. rewrite H1. cbn [obind]. apply (IH (placed ++ [s])); try done.
    by rewrite <- app_assoc.
Qed.

Lemma walk_start table :
  1 <= lim -> walk_inv table [] (table, 0).
Proof.
  intros H. exists 0%nat. pose proof (T_pos k ltac:(destruct Hnorm; lia)).
  assert (pos_at k 0 = 0) as E by (unfold pos_at; by rewrite Zmod_0_l). rewrite E.
  repeat split; try done; [lia|right; lia].
Qed.

Lemma walk_end table table' position :
  walk_inv table (expand 0 norm) (table', position) ->
  position = 0 /\ map view table' = write_all (map view table) (zip (cells k lim) (expand 0 norm)).
Proof.
  intros (j & Hp & Hj & Hend & Hlen & Hv). cbn [fst snd] in *.
  assert (Hk : 4 <= k) by (destruct Hnorm; lia). pose proof expand_lim as Hel.
  pose proof (zlen_nonneg (expand 0 norm)). pose proof (zlen_nonneg (lows 0 norm)).
  assert (j = Z.to_nat (2 ^ k)) as ->.
  { destruct (decide (Z.of_nat j = 2 ^ k)); [lia|]. destruct Hend as [|Hlt]; [lia|].
    pose proof (zlen_cells k Hk lim ltac:(lia)) as Hc. unfold cells, posl in Hc.
    replace (Z.to_nat (2 ^ k)) with (S j + (Z.to_nat (2 ^ k) - S j))%nat in Hc by lia.
    rewrite seq_app, map_app, filter_app in Hc. fold (posl k (S j)) in Hc.
    rewrite posl_S, filter_app, filter_singleton_True in Hc by done.
    unfold zlen in *. rewrite !length_app in Hc. simpl in Hc. lia. }
  split; [by rewrite Hp, pos_at_end|done].
Qed.

Lemma walk_fold norm' : forall s st,
  ofold (fun p => (fun s n => for_range 0 n (fun _ => walk_body s)) p.1 p.2) (zindex s norm') st =
  ofold walk_body (expand s norm') st.
Proof.
  induction norm' as [|n norm' IH]; intros s st; [done|]. cbn [zindex expand ofold fst snd].
  rewrite ofold_app. unfold for_range at 1. rewrite Z.sub_0_r, ofold_replicate.
  destruct (ofold walk_body (replicate _ s) st); simpl; [|done..]. apply IH.
Qed.

(** [walk_lowprob] places every symbol and comes back to position 0. *)
Lemma walk_lowprob_spec counter table :
  norm `prefix_of` counter -> zlen table = 2 ^ k ->
  exists table', walk_lowprob put counter (zlen norm) (2 ^ k) high table = Ok (table', 0) /\
    map view table' = write_all (map view table) (zip (cells k lim) (expand 0 norm)).
Proof.
  intros Hpre Ht. unfold walk_lowprob.
  rewrite (for_prefix (fun s n => for_range 0 n (fun _ => walk_body s)) norm counter), walk_fold by done.
  pose proof expand_lim as Hel. pose proof (zlen_nonneg (expand 0 norm)).
  destruct (decide (1 <= lim)).
  - destruct (walk_all table (expand 0 norm) [] (table, 0)) as ([t' p'] & -> & Hi);
      [done|done|by apply walk_start|].
    destruct (walk_end _ _ _ Hi) as [-> Hv]. by exists t'.
  - exists table. assert (expand 0 norm = []) as -> by (apply length_zero_iff_nil; unfold zlen in *; lia).
    split; [done|]. by rewrite zip_with_nil_r.
Qed.
End Low.

Section Unrolled.
Context (k : Z) (spread : list Z) (table : list T).
Hypothesis Hk : 4 <= k.
Hypothesis Hspread : 2 ^ k <= zlen spread.
Hypothesis Htable : zlen table = 2 ^ k.

Definition unrolled_inv (j : nat) (table' : list T) : Prop :=
  map view table' = write_all (map view table) (zip (posl k j) (take j spread)).

Lemma unrolled_put (j m : nat) t :
  Z.of_nat (j + m) < 2 ^ k -> unrolled_inv (j + m) t ->
  exists t', (let* sym := aget spread (Z.of_nat j + Z.of_nat m) in
              put t (Z.land (pos_at k j + Z.of_nat m * FSE_TABLESTEP (2 ^ k)) (2 ^ k - 1)) sym) = Ok t' /\
    unrolled_inv (j + (m + 1)) t'.
Proof.
  intros Hj Hi. destruct (lookup_lt_is_Some_2 spread (j + m)) as [e He]; [unfold zlen in *; lia|].
  assert (aget spread (Z.of_nat j + Z.of_nat m) = (Ok e : res Z)) as ->.
  { apply aget_Ok. split; [lia|]. rewrite <- He. f_equal. lia. }
  cbn [obind]. rewrite pos_at_S by done. pose proof (pos_at_range k Hk (j + m)) as Hr.
  destruct (put_spec t (pos_at k (j + m)) e) as (t' & -> & Hv).
  { rewrite (zlen_view _ _ _ Hi). lia. }
  exists t'. split; [done|]. unfold unrolled_inv in *.
  rewrite Hv, Hi, Nat.add_assoc, Nat.add_1_r, posl_S, (take_S_r spread _ e) by done.
  rewrite zip_with_app by (rewrite length_posl, length_take; unfold zlen in *; lia).
  unfold write_all at 2. by rewrite foldl_app.
Qed.

Lemma unrolled_body (j : nat) t :
  Z.of_nat j + 2 <= 2 ^ k -> unrolled_inv j t ->
  exists t', for_range 0 2 (fun u table =>
      let* sym := aget spread (Z.of_nat j + u) in
      put table (Z.land (pos_at k j + u * FSE_TABLESTEP (2 ^ k)) (2 ^ k - 1)) sym) t = Ok t' /\
    unrolled_inv (j + 2) t'.
Proof.
  intros Hj Hi.
  destruct (unrolled_put j 0 t) as (t1 & H1 & Hi1); [lia|by rewrite Nat.add_0_r|].
  destruct (unrolled_put j 1 t1) as (t2 & H2 & Hi2); [lia|done|].
  exists t2. split; [|done]. unfold for_range. change (Z.to_nat (2 - 0)) with 2%nat.
  cbn [for_loop]. change (Z.of_nat 0) with 0 in H1. rewrite H1. cbn [obind].
  change (0 + 1) with (Z.of_nat 1). by rewrite H2.
Qed.

Lemma walk_unrolled_spec :
  exists table', walk_unrolled put spread (2 ^ k) table = Ok table' /\
    map view table' = write_all (map view table) (zip (cells k (2 ^ k)) (take (Z.to_nat (2 ^ k)) spread)).
Proof.
  pose proof (T_pos k Hk). unfold walk_unrolled.
  assert (2 ^ k = 2 * 2 ^ (k - 1)) as HT by (rewrite <- Z.pow_succ_r by lia; f_equal; lia).
  assert (2 ^ k mod 2 =? 0 = true) as ->.
  { apply Z.eqb_eq. rewrite HT, Z.mul_comm. by apply Z.mod_mul. }
  cbn [oassert obind]. unfold for_step. rewrite Z.sub_0_r.
  assert ((2 ^ k + 2 - 1) / 2 = 2 ^ (k - 1)) as ->.
  { rewrite HT. replace (2 * 2 ^ (k - 1) + 2 - 1) with (2 ^ (k - 1) * 2 + 1) by lia.
    rewrite Z.div_add_l by lia. change (1 / 2) with 0. lia. }
  match goal with |- context [for_loop ?n 0 ?body (table, 0)] =>
    destruct (wp_exists (for_loop n 0 body (table, 0)) (fun st =>
      st.2 = pos_at k (Z.to_nat (2 ^ k)) /\ unrolled_inv (Z.to_nat (2 ^ k)) st.1))
      as ([t p] & -> & Hp & Hv) end.
  - eapply wp_mono; [eapply (wp_for_loop (fun i st => st.2 = pos_at k (Z.to_nat (2 * i)) /\
      unrolled_inv (Z.to_nat (2 * i)) st.1) (fun _ => False))| |done].
    + done.
    + intros i [t p] Hi [Hp Hv]. cbn [fst snd] in *.
      destruct (unrolled_body (Z.to_nat (2 * i)) t) as (t' & Ht' & Hv'); [lia|done|].
      replace (0 + 2 * i) with (Z.of_nat (Z.to_nat (2 * i))) by lia. rewrite Hp, Ht'. cbn [obind wp].
      cbn [fst snd]. rewrite (pos_at_S k Hk _ 2 : Z.land (_ + 2 * _) _ = _).
      replace (Z.to_nat (2 * (i + 1))) with (Z.to_nat (2 * i) + 2)%nat by lia. done.
    + intros [t p]. cbn [fst snd]. replace (2 * _) with (2 ^ k) by lia. done.
  - cbn [obind fst snd] in *. rewrite Hp, pos_at_end by done. exists t. split; [done|].
    rewrite Hv. f_equal. unfold cells. rewrite list_filter_True; [done|].
    intros x Hx. apply (proj1 (Forall_forall _ _) (posl_range k Hk _)) in Hx. simpl in Hx. lia.
Qed.
End Unrolled.
End Put.

(** ** Laying the symbols down in order *)

Section LayDown.
Context `{P : Platform}.

Definition lay_add : Z := 0x0101010101010101.

Lemma lay_word s : 0 <= s < 256 -> le_bytes 8 (u64 (s * lay_add)) = replicate 8 s.
Proof.
  intros Hs. eapply bool_decide_eq_true_1.
  refine (all_below_spec 256 (fun s => bool_decide (le_bytes 8 (u64 (s * lay_add)) = replicate 8 s)) s _ Hs).
  vm_compute. reflexivity.
Qed.

Lemma write64_lay buf p s :
  0 <= s < 256 -> 0 <= p -> p + 8 <= zlen buf ->
  MEM_write64 buf p (u64 (s * lay_add)) = (Ok (splice buf p (replicate 8 s)) : res (list Z)).
Proof.
  intros Hs Hp Hl. unfold MEM_write64, store_native. rewrite lay_word by done.
  assert ((if MEM_isLittleEndian then replicate 8 s else rev (replicate 8 s)) = replicate 8 s) as ->
    by (destruct MEM_isLittleEndian; done).
  apply awrite_Ok; [done|]. rewrite zlen_replicate. lia.
Qed.

Lemma lay_inner buf p s m :
  0 <= s < 256 -> 0 <= p -> p + 8 + 8 * Z.of_nat m <= zlen buf ->
  for_loop m 0 (fun i b => MEM_write64 b (p + (8 + 8 * i)) (u64 (s * lay_add)))
    (splice buf p (replicate 8 s)) =
  (Ok (splice buf p (replicate (8 + 8 * m) s)) : res (list Z)).
Proof.
  intros Hs Hp. induction m as [|m IH]; intros Hl; [done|].
  rewrite for_loop_snoc, IH by lia. cbn [obind].
  assert (zlen (replicate (8 + 8 * m) s) = 8 + 8 * Z.of_nat m) as Hz by (rewrite zlen_replicate; lia).
  rewrite Z.add_0_l, write64_lay by (rewrite ?zlen_splice; lia). f_equal.
  replace (p + (8 + 8 * Z.of_nat m)) with (p + zlen (replicate (8 + 8 * m) s)) by lia.
  rewrite splice_app by (rewrite ?zlen_replicate in *; lia). f_equal.
  rewrite <- replicate_add. f_equal. lia.
Qed.

Definition lay_body (s n : Z) (st : list Z * Z * Z) : res (list Z * Z * Z) :=
  let '(spread, pos, sv) := st in
  let* spread := MEM_write64 spread pos sv in
  let* spread := for_step 8 n 8 (fun i spread => MEM_write64 spread (pos + i) sv) spread in
  Ok (spread, size_t (pos + size_t n), u64 (sv + lay_add)).

Lemma lay_step spread pos s n :
  0 <= s < 256 -> 0 <= pos -> 0 <= n -> pos + n + 8 <= zlen spread -> pos + n < 2 ^ 32 ->
  exists spread', lay_body s n (spread, pos, u64 (s * lay_add)) =
      Ok (spread', pos + n, u64 ((s + 1) * lay_add)) /\
    zlen spread' = zlen spread /\ slice spread' 0 (pos + n) = slice spread 0 pos ++ replicate (Z.to_nat n) s.
Proof.
  intros Hs Hp Hn Hl H32. unfold lay_body, for_step. rewrite write64_lay by lia. cbn [obind].
  pose proof (Z.div_mod (n - 8 + 8 - 1) 8 ltac:(lia)). pose proof (Z.mod_pos_bound (n - 8 + 8 - 1) 8 ltac:(lia)).
  set (m := Z.to_nat ((n - 8 + 8 - 1) / 8)). rewrite lay_inner by lia. cbn [obind].
  assert (zlen (replicate (8 + 8 * m) s) = 8 + 8 * Z.of_nat m) as Hz by (rewrite zlen_replicate; lia).
  eexists. split.
  - rewrite Z.mul_add_distr_r, Z.mul_1_l. unfold size_t.
    destruct sizeof_size_t_cases as [-> | ->]; cbn [Z.mul Pos.mul];
      rewrite !(wrap_small _ n), (wrap_small _ (pos + n)) by lia;
      unfold wrap; rewrite Zplus_mod_idemp_l; reflexivity.
  - split; [apply zlen_splice; lia|].
    pose proof (slice_splice_prefix spread pos (replicate (8 + 8 * m) s) 0 n) as Hpre.
    rewrite Z.sub_0_r in Hpre. rewrite Hpre by lia. f_equal. rewrite take_replicate. f_equal. lia.
Qed.

Lemma lay_all norm : forall s spread pos,
  Forall (fun n => 0 <= n) norm -> 0 <= s -> s + zlen norm <= 256 -> 0 <= pos ->
  pos + zlen (expand s norm) + 8 <= zlen spread -> pos + zlen (expand s norm) < 2 ^ 32 ->
  exists spread' pos' sv, ofold (fun p => lay_body p.1 p.2) (zindex s norm)
      (spread, pos, u64 (s * lay_add)) = Ok (spread', pos', sv) /\
    zlen spread' = zlen spread /\
    slice spread' 0 (pos + zlen (expand s norm)) = slice spread 0 pos ++ expand s norm.
Proof.
  induction norm as [|n norm IH]; intros s spread pos Hf Hs Hl Hp Hz H32.
  - exists spread, pos, (u64 (s * lay_add)). split; [done|]. split; [done|].
    cbn [expand] in *. rewrite Z.add_0_r. by rewrite app_nil_r.
  - inversion_clear Hf as [|? ? Hn Hf']. cbn [expand zindex ofold fst snd] in *.
    autorewrite with zlen in *. pose proof (zlen_nonneg norm). pose proof (zlen_nonneg (expand (s + 1) norm)).
    destruct (lay_step spread pos s n) as (sp1 & -> & Hz1 & Hs1); [lia..|]. cbn [obind].
    destruct (IH (s + 1) sp1 (pos + n)) as (sp2 & p2 & sv2 & -> & Hz2 & Hs2); [done|lia..|].
    exists sp2, p2, sv2. split; [done|]. split; [lia|].
    replace (pos + (Z.of_nat (Z.to_nat n) + zlen (expand (s + 1) norm)))
      with (pos + n + zlen (expand (s + 1) norm)) by lia.
    by rewrite Hs2, Hs1, <- app_assoc.
Qed.

Lemma lay_down_spec norm k counter spread :
  norm_ok norm k -> lows 0 norm = [] -> norm `prefix_of` counter -> 2 ^ k + 8 <= zlen spread ->
  exists spread', lay_down counter (zlen norm) spread = Ok spread' /\
    zlen spread' = zlen spread /\ take (Z.to_nat (2 ^ k)) spread' = expand 0 norm.
Proof.
  intros Hn Hlow Hpre Hz. unfold lay_down. pose proof Hn as (Hk & Hl & Hge & Htot).
  rewrite (for_prefix lay_body norm counter _ Hpre).
  pose proof (total_split norm 0 Hge) as Hsp. rewrite Hlow, Htot in Hsp. change (zlen []) with 0 in Hsp.
  assert (2 ^ k <= 2 ^ 15) by (apply Z.pow_le_mono_r; lia).
  assert (Forall (fun n => 0 <= n) norm) as Hge0.
  { clear - Hge Hlow. revert Hlow. generalize 0 at 1. induction Hge as [|n norm H1 H2 IH]; intros s Hlow; [done|].
    simpl in Hlow. destruct (Z.eqb_spec n (-1)); [done|]. constructor; [lia|by eapply IH]. }
  destruct (lay_all norm 0 spread 0) as (sp & p & sv & Hf & Hz' & Hs); [done|lia..|].
  change (u64 (0 * lay_add)) with 0 in Hf. rewrite Hf. cbn [obind].
  exists sp. split; [done|]. split; [done|]. rewrite Z.add_0_l in Hs. unfold slice in Hs at 1.
  rewrite drop_0 in Hs. replace (2 ^ k) with (zlen (expand 0 norm)) by lia. done.
Qed.
End LayDown.

Lemma cells_full k : 4 <= k -> cells k (2 ^ k) = posl k (Z.to_nat (2 ^ k)).
Proof.
  intros Hk. unfold cells. apply list_filter_True.
  intros x Hx. apply (proj1 (Forall_forall _ _) (posl_range k Hk _)) in Hx. simpl in Hx. lia.
Qed.

(** A table whose top cells hold the low-probability symbols, with the others
    written along the walk, is spread. *)
Lemma spread_written norm k syms0 :
  norm_ok norm k -> zlen syms0 = 2 ^ k ->
  (forall i s, lows 0 norm !! i = Some s -> syms0 !! Z.to_nat (2 ^ k - 1 - Z.of_nat i) = Some s) ->
  spread_ok norm k
    (write_all syms0 (zip (cells k (2 ^ k - zlen (lows 0 norm))) (expand 0 norm))).
Proof.
  intros (Hk & Hl & Hge & Htot) Hz Hlow. pose proof (total_split norm 0 Hge) as Hsp.
  pose proof (zlen_nonneg (expand 0 norm)). pose proof (zlen_nonneg (lows 0 norm)).
  set (lim := 2 ^ k - zlen (lows 0 norm)) in *. pose proof (zlen_cells k ltac:(lia) lim ltac:(lia)) as Hc.
  split; [|split].
  - unfold zlen. rewrite length_write_all. done.
  - intros i s Hs. assert (Z.of_nat i < zlen (lows 0 norm)).
    { apply lookup_lt_Some in Hs. unfold zlen. lia. }
    rewrite write_all_other; [by apply Hlow| |lia].
    apply Forall_forall. intros [p e] Hpe. apply elem_of_zip_l in Hpe.
    apply (proj1 (Forall_forall _ _) (cells_range k ltac:(lia) lim)) in Hpe. simpl in *. lia.
  - intros i s Hs. destruct (lookup_lt_is_Some_2 (cells k lim) i) as [p Hp].
    { apply lookup_lt_Some in Hs. unfold zlen in *. lia. }
    exists p. split; [done|]. eapply write_all_lookup; [apply NoDup_cells; lia| |done|done].
    eapply Forall_impl; [apply (cells_range k ltac:(lia) lim)|]. simpl. lia.
Qed.
