(* ===== verification/FseBuild.v ===== *)
(** * fse_decompress.c, fse_compress.c: building the tables

    [FSE_buildDTable_internal] and [FSE_buildCTable_wksp] turn the same
    normalized counts into a decoding and an encoding table.  Both are shown to
    compute the table of the reference definitions [dtable_ref] and
    [ctable_ref]; the encoding table inverts the decoding one. *)
From S2P Require Import Prelude Mem Errors Bits BitStream Fse FseSpread.

Section Definitions.
Context `{P : Platform}.

(** ** The decoding table *)

(** [tableDecode[i].symbol = s] *)
Definition put_symbol (tableDecode : list FSE_decode_t) (i s : Z) : res (list FSE_decode_t) :=
  let* c := aget tableDecode i in
  aset tableDecode i {| newState := newState c; symbol := s; nbBits := nbBits c |}.

(** Header, counters and low-probability symbols:
    ([tableDecode], [symbolNext], [highThreshold], [fastMode]). *)
Definition dtable_lowprob (normalizedCounter : list Z) (tableLog s : Z)
    (st : list FSE_decode_t * list Z * Z * Z) : res (list FSE_decode_t * list Z * Z * Z) :=
  let largeLimit := s16 (Z.shiftl 1 (tableLog - 1)) in
  let* n := aget normalizedCounter s in
  let '(tableDecode, symbolNext, highThreshold, fastMode) := st in
  if n =? -1 then
    let* tableDecode := put_symbol tableDecode highThreshold (u8 s) in
    let* symbolNext := aset symbolNext s 1 in
    Ok (tableDecode, symbolNext, u32 (highThreshold - 1), fastMode)
  else
    let fastMode := if largeLimit <=? n then 0 else fastMode in
    let* symbolNext := aset symbolNext s (u16 n) in
    Ok (tableDecode, symbolNext, highThreshold, fastMode).

(** One cell of the decoding table: ([tableDecode], [symbolNext]). *)
Definition dtable_cell (tableLog u : Z) (st : list FSE_decode_t * list Z)
  : res (list FSE_decode_t * list Z) :=
  let '(tableDecode, symbolNext) := st in
  let tableSize := Z.shiftl 1 tableLog in
  let* c := aget tableDecode u in
  let sym := symbol c in
  let* nextState := aget symbolNext sym in
  let* symbolNext := aset symbolNext sym (u16 (nextState + 1)) in
  let* hb := ZSTD_highbit32 nextState in
  let nb := u8 (tableLog - hb) in
  let* tableDecode := aset tableDecode u
    {| newState := u16 (u32 (u32 (Z.shiftl nextState nb) - tableSize)); symbol := sym; nbBits := nb |} in
  Ok (tableDecode, symbolNext).

(** [dt] is the storage of the table, of which the first [tableSize] cells are
    used; [workSpace] holds [symbolNext] and then the [spread] area. *)
Definition FSE_buildDTable_internal (dt : FSE_DTable) (normalizedCounter : list Z)
    (maxSymbolValue tableLog : Z) (workSpace : list Z) : res FSE_DTable :=
  let maxSV1 := maxSymbolValue + 1 in
  let tableSize := Z.shiftl 1 tableLog in
  let highThreshold := tableSize - 1 in
  reject_if (zlen workSpace <? FSE_BUILD_DTABLE_WKSP_SIZE tableLog maxSymbolValue)
    ZSTD_error_maxSymbolValue_tooLarge ;;;
  reject_if (FSE_MAX_SYMBOL_VALUE <? maxSymbolValue) ZSTD_error_maxSymbolValue_tooLarge ;;;
  reject_if (FSE_MAX_TABLELOG <? tableLog) ZSTD_error_tableLog_tooLarge ;;;
  let symbolNext := replicate (Z.to_nat maxSV1) 0 in
  let spread := drop (Z.to_nat (2 * maxSV1)) workSpace in
  let* tableDecode := asub (dt_table dt) 0 tableSize in
  let* (tableDecode, symbolNext, highThreshold, fastMode) :=
    for_range 0 maxSV1 (dtable_lowprob normalizedCounter tableLog)
      (tableDecode, symbolNext, highThreshold, 1) in
  let* tableDecode :=
    if highThreshold =? tableSize - 1 then
      let* spread := lay_down normalizedCounter maxSV1 spread in
      walk_unrolled put_symbol spread tableSize tableDecode
    else
      let* (tableDecode, position) :=
        walk_lowprob put_symbol normalizedCounter maxSV1 tableSize highThreshold tableDecode in
      reject_if (negb (position =? 0)) ZSTD_error_GENERIC ;;;
      Ok tableDecode in
  let* (tableDecode, _) := for_range 0 tableSize (dtable_cell tableLog) (tableDecode, symbolNext) in
  Ok {| dt_tableLog := u16 tableLog; dt_fastMode := fastMode;
        dt_table := splice (dt_table dt) 0 tableDecode |}.

Definition FSE_buildDTable_wksp := FSE_buildDTable_internal.

(** ** The encoding table *)

(** Start positions of the symbols: ([cumul], [tableSymbol], [highThreshold]). *)
Definition ctable_cumul (normalizedCounter : list Z) (u : Z)
    (st : list Z * list Z * Z) : res (list Z * list Z * Z) :=
  let* n := aget normalizedCounter (u - 1) in
  let '(cumul, tableSymbol, highThreshold) := st in
  let* prev := aget cumul (u - 1) in
  if n =? -1 then
    let* cumul := aset cumul u (u16 (prev + 1)) in
    let* tableSymbol := aset tableSymbol highThreshold (u8 (u - 1)) in
    Ok (cumul, tableSymbol, u32 (highThreshold - 1))
  else
    oassert (0 <=? n) ;;;
    let c := u16 (prev + u16 n) in
    let* cumul := aset cumul u c in
    oassert (prev <=? c) ;;;
    Ok (cumul, tableSymbol, highThreshold).

(** One state: ([tableU16], [cumul]). *)
Definition ctable_state (tableSymbol : list Z) (tableSize u : Z) (st : list Z * list Z)
  : res (list Z * list Z) :=
  let '(tableU16, cumul) := st in
  let* s := aget tableSymbol u in
  let* c := aget cumul s in
  let* tableU16 := aset tableU16 c (u16 (tableSize + u)) in
  let* cumul := aset cumul s (u16 (c + 1)) in
  Ok (tableU16, cumul).

(** One symbol's transformation: ([symbolTT], [total]). *)
Definition ctable_symbolTT (normalizedCounter : list Z) (tableLog s : Z)
    (st : list FSE_symbolCompressionTransform * Z) : res (list FSE_symbolCompressionTransform * Z) :=
  let* n := aget normalizedCounter s in
  let '(symbolTT, total) := st in
  if n =? 0 then
    let* tr := aget symbolTT s in
    let* symbolTT := aset symbolTT s
      {| deltaNbBits := u32 (u32 (Z.shiftl (tableLog + 1) 16) - Z.shiftl 1 tableLog);
         deltaFindState := deltaFindState tr |} in
    Ok (symbolTT, total)
  else if (n =? -1) || (n =? 1) then
    oassert (total <=? 2 ^ 31 - 1) ;;;
    let* symbolTT := aset symbolTT s
      {| deltaNbBits := u32 (u32 (Z.shiftl tableLog 16) - Z.shiftl 1 tableLog);
         deltaFindState := s32 (u32 (total - 1)) |} in
    Ok (symbolTT, u32 (total + 1))
  else
    oassert (1 <? n) ;;;
    let* hb := ZSTD_highbit32 (u32 (n - 1)) in
    let maxBitsOut := u32 (tableLog - hb) in
    let minStatePlus := u32 (Z.shiftl n maxBitsOut) in
    let* symbolTT := aset symbolTT s
      {| deltaNbBits := u32 (u32 (Z.shiftl maxBitsOut 16) - minStatePlus);
         deltaFindState := s32 (u32 (total - n)) |} in
    Ok (symbolTT, u32 (total + n)).

(** [ct] is the storage of the table; [workSpace] holds [cumul], [tableSymbol]
    and the [spread] area.  The asserted signs of the counts are those the loop
    over [cumul] asserts first. *)
Definition FSE_buildCTable_wksp (ct : FSE_CTable) (normalizedCounter : list Z)
    (maxSymbolValue tableLog : Z) (workSpace : list Z) : res FSE_CTable :=
  let tableSize := Z.shiftl 1 tableLog in
  let maxSV1 := maxSymbolValue + 1 in
  reject_if (zlen workSpace <? FSE_BUILD_CTABLE_WORKSPACE_SIZE maxSymbolValue tableLog)
    ZSTD_error_tableLog_tooLarge ;;;
  oassert (tableLog <? 16) ;;;
  let cumul := replicate (Z.to_nat (maxSV1 + 1)) 0 in
  let* tableSymbol := asub workSpace (2 * (maxSV1 + 1)) tableSize in
  let spread := drop (Z.to_nat (2 * (maxSV1 + 1) + tableSize)) workSpace in
  let* tableU16 := asub (ct_stateTable ct) 0 tableSize in
  let* symbolTT := asub (ct_symbolTT ct) 0 maxSV1 in
  let* (cumul, tableSymbol, highThreshold) :=
    for_range 1 (maxSV1 + 1) (ctable_cumul normalizedCounter) (cumul, tableSymbol, tableSize - 1) in
  let* cumul := aset cumul maxSV1 (u16 (tableSize + 1)) in
  let* tableSymbol :=
    if highThreshold =? tableSize - 1 then
      let* spread := lay_down normalizedCounter maxSV1 spread in
      walk_unrolled aset spread tableSize tableSymbol
    else
      let* (tableSymbol, position) :=
        walk_lowprob aset normalizedCounter maxSV1 tableSize highThreshold tableSymbol in
      oassert (position =? 0) ;;;
      Ok tableSymbol in
  let* (tableU16, _) := for_range 0 tableSize (ctable_state tableSymbol tableSize) (tableU16, cumul) in
  let* (symbolTT, _) := for_range 0 maxSV1 (ctable_symbolTT normalizedCounter tableLog) (symbolTT, 0) in
  Ok {| ct_tableLog := u16 tableLog; ct_maxSymbolValue := u16 maxSymbolValue;
        ct_stateTable := tableU16; ct_symbolTT := symbolTT |}.

Definition FSE_buildCTable_rle (ct : FSE_CTable) (symbolValue : Z) : res FSE_CTable :=
  let* tableU16 := aset (replicate 2 0) 0 0 in
  let* tableU16 := aset tableU16 1 0 in
  let* symbolTT := aset (ct_symbolTT ct) symbolValue {| deltaNbBits := 0; deltaFindState := 0 |} in
  Ok {| ct_tableLog := 0; ct_maxSymbolValue := u16 symbolValue;
        ct_stateTable := tableU16; ct_symbolTT := symbolTT |}.
End Definitions.

(** ** The reference tables *)

Section Reference.
Variables (norm : list Z) (k : Z).

(** The number of cells of symbol [s]. *)
Definition freq (s : Z) : Z := occ (nth (Z.to_nat s) norm 0).

(** The encoder's sub-state for cell [u]: the cells of a symbol with frequency
    [f] are numbered from [f] to [2f - 1] in table order. *)
Definition sub_state (syms : list Z) (u : nat) (s : Z) : Z := freq s + count_sym s (take u syms).

Definition dcell (x s : Z) : FSE_decode_t :=
  {| newState := x * 2 ^ (k - Z.log2 x) - 2 ^ k; symbol := s; nbBits := k - Z.log2 x |}.

Definition dtable_ref (syms : list Z) : list FSE_decode_t :=
  imap (fun u s => dcell (sub_state syms u s) s) syms.
End Reference.

Section RefFacts.
Context (norm : list Z) (k : Z) (syms : list Z).
Hypothesis Hnorm : norm_ok norm k.
Hypothesis Hsyms : spread_ok norm k syms.

Lemma freq_lookup i n : norm !! i = Some n -> freq norm (Z.of_nat i) = occ n.
Proof. intros Hi. unfold freq. rewrite Nat2Z.id. by rewrite (nth_lookup_Some _ _ _ _ Hi). Qed.

Lemma freq_count s : 0 <= s < zlen norm -> count_sym s syms = freq norm s.
Proof.
  intros Hs. destruct (lookup_lt_is_Some_2 norm (Z.to_nat s)) as [n Hn]; [unfold zlen in *; lia|].
  replace s with (Z.of_nat (Z.to_nat s)) by lia. rewrite (freq_lookup _ n Hn).
  by apply (spread_count norm k).
Qed.

Lemma freq_range s : 0 <= freq norm s <= 2 ^ k.
Proof.
  unfold freq. destruct Hnorm as (Hk & Hl & Hge & <-).
  destruct (norm !! Z.to_nat s) as [n|] eqn:Hn.
  - rewrite (nth_lookup_Some _ _ _ _ Hn). by apply (occ_le_total norm (Z.to_nat s)).
  - rewrite nth_overflow by (by apply lookup_ge_None). split; [done|]. by apply total_nonneg.
Qed.

Lemma sym_range u s : syms !! u = Some s -> 0 <= s < zlen norm.
Proof. intros Hu. by apply (proj1 (Forall_lookup _ _) (spread_range norm k syms Hnorm Hsyms) u). Qed.

Lemma count_take_lt u s : syms !! u = Some s -> count_sym s (take u syms) < freq norm s.
Proof.
  intros Hu. rewrite <- (freq_count s) by (by eapply sym_range).
  rewrite <- (take_drop_middle syms u s Hu) at 2. rewrite count_sym_app, count_sym_cons.
  pose proof (count_sym_nonneg s (drop (S u) syms)). destruct (decide (s = s)); [lia|done].
Qed.

Lemma sub_state_range u s :
  syms !! u = Some s -> freq norm s <= sub_state norm syms u s < 2 * freq norm s /\ 0 < freq norm s.
Proof.
  intros Hu. pose proof (count_take_lt u s Hu). pose proof (count_sym_nonneg s (take u syms)).
  unfold sub_state. lia.
Qed.

(** The number of low bits that bring [x] back between [2^k] and [2^(k+1)]. *)
Lemma log2_state x : 0 < x < 2 * 2 ^ k ->
  0 <= Z.log2 x <= k /\ 2 ^ k <= x * 2 ^ (k - Z.log2 x) /\
  (x + 1) * 2 ^ (k - Z.log2 x) <= 2 * 2 ^ k.
Proof.
  intros Hx. assert (0 <= k) by (destruct Hnorm; lia). pose proof (Z.log2_nonneg x).
  destruct (Z.log2_spec x) as [H1 H2]; [lia|]. rewrite Z.pow_succ_r in H2 by lia.
  assert (Z.log2 x <= k).
  { apply Z.lt_succ_r, (Z.pow_lt_mono_r_iff 2); [lia|lia|]. rewrite Z.pow_succ_r by lia. lia. }
  assert (2 ^ k = 2 ^ Z.log2 x * 2 ^ (k - Z.log2 x)) as E by (rewrite <- Z.pow_add_r by lia; f_equal; lia).
  assert (0 < 2 ^ (k - Z.log2 x)) by (apply pow2_pos; lia). split; [lia|]. rewrite E. nia.
Qed.

(** Decoding a cell lands in the table, whatever the bits read. *)
Lemma dtable_ref_wf u c :
  dtable_ref norm k syms !! u = Some c ->
  0 <= nbBits c <= k /\ 0 <= newState c /\ newState c + 2 ^ nbBits c <= 2 ^ k /\
  0 <= symbol c < zlen norm /\
  (Forall (fun n => n < 2 ^ (k - 1)) norm -> 1 <= nbBits c).
Proof.
  unfold dtable_ref. rewrite list_lookup_imap. destruct (syms !! u) as [s|] eqn:Hu; [|done].
  simpl. intros [= <-]. simpl. pose proof (sub_state_range u s Hu) as Hx. pose proof (freq_range s).
  set (x := sub_state norm syms u s) in *. destruct (log2_state x) as (H1 & H2 & H3); [lia|].
  assert (x * 2 ^ (k - Z.log2 x) - 2 ^ k + 2 ^ (k - Z.log2 x) = (x + 1) * 2 ^ (k - Z.log2 x) - 2 ^ k) as E by lia.
  rewrite E. repeat split; try lia; try (eapply sym_range; done).
  intros Hf. assert (2 ^ k = 2 * 2 ^ (k - 1)) as Hk2.
  { destruct Hnorm. rewrite <- Z.pow_succ_r by lia. f_equal. lia. }
  assert (freq norm s <= 2 ^ (k - 1)).
  { unfold freq. destruct (norm !! Z.to_nat s) as [n|] eqn:Hn.
    - rewrite (nth_lookup_Some _ _ _ _ Hn). apply (proj1 (Forall_lookup _ _) Hf) in Hn.
      unfold occ. destruct Hnorm. assert (0 < 2 ^ (k - 1)) by (apply pow2_pos; lia). zcases; lia.
    - rewrite nth_overflow by (by apply lookup_ge_None). unfold occ; simpl. lia. }
  assert (Z.log2 x < k); [|lia]. apply Z.log2_lt_pow2; lia.
Qed.
End RefFacts.

(** ** The decoding table is the reference table *)

Section BuildD.
Context `{P : Platform} (norm : list Z) (k : Z) (counter : list Z).
Hypothesis Hnorm : norm_ok norm k.
Hypothesis Hpre : norm `prefix_of` counter.

Lemma counter_lookup i n : norm !! i = Some n -> aget counter (Z.of_nat i) = (Ok n : res Z).
Proof.
  intros Hi. apply aget_Ok. split; [lia|]. rewrite Nat2Z.id. by eapply prefix_lookup_Some.
Qed.

Lemma norm_lookup j : 0 <= j < zlen norm ->
  exists n, norm !! Z.to_nat j = Some n /\ aget counter j = (Ok n : res Z) /\ -1 <= n /\
    0 <= occ n <= 2 ^ k.
Proof.
  intros Hj. destruct (lookup_lt_is_Some_2 norm (Z.to_nat j)) as [n Hn]; [unfold zlen in *; lia|].
  exists n. split; [done|]. split; [rewrite <- (counter_lookup _ n Hn); f_equal; lia|].
  destruct Hnorm as (_ & _ & Hge & <-). split; [by apply (proj1 (Forall_lookup _ _) Hge _ _ Hn)|].
  by eapply occ_le_total.
Qed.

Lemma pow_k_bound : 32 <= 2 ^ k <= 2 ^ 15.
Proof.
  destruct Hnorm. change 32 with (2 ^ 5). split; apply Z.pow_le_mono_r; lia.
Qed.

Lemma put_symbol_spec (table : list FSE_decode_t) i s : 0 <= i < zlen table ->
  exists table', put_symbol table i s = Ok table' /\
    map symbol table' = <[Z.to_nat i := s]> (map symbol table).
Proof.
  intros Hi. unfold put_symbol.
  destruct (lookup_lt_is_Some_2 table (Z.to_nat i)) as [c Hc]; [unfold zlen in *; lia|].
  assert (aget table i = (Ok c : res FSE_decode_t)) as -> by (apply aget_Ok; split; [lia|done]).
  cbn [obind]. rewrite aset_Ok by done. eexists; split; [reflexivity|].
  by rewrite (list_fmap_insert symbol).
Qed.

Lemma lows_snoc l n : forall s,
  lows s (l ++ [n]) = lows s l ++ (if n =? -1 then [s + zlen l] else []).
Proof.
  induction l as [|m l IH]; intros s; simpl.
  - rewrite Z.add_0_r. by destruct (n =? -1).
  - rewrite IH. autorewrite with zlen. replace (s + 1 + zlen l) with (s + (zlen l + 1)) by lia.
    by destruct (m =? -1).
Qed.

Lemma zlen_lows_app l r : forall s, zlen (lows s l) <= zlen (lows s (l ++ r)).
Proof.
  induction l as [|n l IH]; intros s; simpl; [apply zlen_nonneg|].
  specialize (IH (s + 1)). destruct (n =? -1); autorewrite with zlen; lia.
Qed.

Lemma zlen_lows_take j : zlen (lows 0 (take j norm)) <= zlen (lows 0 norm).
Proof. rewrite <- (take_drop j norm) at 2. apply zlen_lows_app. Qed.

Definition fast_of (l : list Z) : Z := if forallb (fun n => n <? 2 ^ (k - 1)) l then 1 else 0.

(** The tables after the counters of the first [j] symbols. *)
Definition low_inv (table0 : list FSE_decode_t) (j : Z) (st : list FSE_decode_t * list Z * Z * Z) : Prop :=
  let '(table, symbolNext, high, fast) := st in
  let lw := lows 0 (take (Z.to_nat j) norm) in
  map symbol table = write_all (map symbol table0) (zip (top_cells k (length lw)) lw) /\
  zlen symbolNext = zlen norm /\
  (forall i n, Z.of_nat i < j -> norm !! i = Some n -> symbolNext !! i = Some (occ n)) /\
  high = u32 (2 ^ k - 1 - zlen lw) /\ fast = fast_of (take (Z.to_nat j) norm).

Lemma take_snoc_norm j n : 0 <= j -> norm !! Z.to_nat j = Some n ->
  take (Z.to_nat (j + 1)) norm = take (Z.to_nat j) norm ++ [n] /\ zlen (take (Z.to_nat j) norm) = j.
Proof.
  intros Hj Hn. replace (Z.to_nat (j + 1)) with (S (Z.to_nat j)) by lia. split; [by apply take_S_r|].
  apply lookup_lt_Some in Hn. unfold zlen. rewrite length_take. lia.
Qed.

Lemma top_cells_S n : top_cells k (S n) = top_cells k n ++ [2 ^ k - 1 - Z.of_nat n].
Proof. unfold top_cells. by rewrite seq_S, map_app. Qed.

Lemma zlen_lows : zlen (lows 0 norm) <= 2 ^ k.
Proof.
  destruct Hnorm as (_ & _ & Hge & <-). pose proof (total_split norm 0 Hge).
  pose proof (zlen_nonneg (expand 0 norm)). lia.
Qed.

(** Placing the next low-probability symbol. *)
Lemma low_write {A} (view : A -> Z) (put : list A -> Z -> Z -> res (list A)) table0 table j n :
  (forall table i s, 0 <= i < zlen table ->
     exists table', put table i s = Ok table' /\ map view table' = <[Z.to_nat i := s]> (map view table)) ->
  zlen table0 = 2 ^ k -> 0 <= j -> norm !! Z.to_nat j = Some n -> n = -1 ->
  let lw := lows 0 (take (Z.to_nat j) norm) in
  let lw' := lows 0 (take (Z.to_nat (j + 1)) norm) in
  map view table = write_all (map view table0) (zip (top_cells k (length lw)) lw) ->
  u32 (2 ^ k - 1 - zlen lw) = 2 ^ k - 1 - zlen lw /\ zlen lw' = zlen lw + 1 /\
  exists table', put table (2 ^ k - 1 - zlen lw) (u8 j) = Ok table' /\
    map view table' = write_all (map view table0) (zip (top_cells k (length lw')) lw').
Proof.
  intros Hput Ht0 Hj Hn -> lw lw' Hv. destruct (take_snoc_norm j (-1) Hj Hn) as [Hs Hz].
  assert (lw' = lw ++ [j]) as Hlw'.
  { unfold lw', lw. rewrite Hs, lows_snoc, Hz. done. }
  assert (zlen lw' <= 2 ^ k) by (pose proof zlen_lows; pose proof (zlen_lows_take (Z.to_nat (j + 1))); unfold lw'; lia).
  rewrite Hlw' in *. autorewrite with zlen in *. change (zlen []) with 0 in *. pose proof (zlen_nonneg lw).
  pose proof pow_k_bound. split; [apply wrap_small; lia|]. split; [lia|].
  pose proof (zlen_view view _ _ _ Hv) as Hzt.
  assert (Z.of_nat (length (take (Z.to_nat j) norm)) < 256).
  { apply lookup_lt_Some in Hn. destruct Hnorm as (_ & Hl & _). rewrite length_take. unfold zlen in Hl. lia. }
  rewrite (wrap_small 8) by (unfold zlen in Hz; lia).
  destruct (Hput table (2 ^ k - 1 - zlen lw) j) as (t' & Ht' & Hv'); [lia|].
  exists t'. split; [done|]. rewrite Hv', Hv, length_app, Nat.add_1_r, top_cells_S.
  rewrite zip_with_app by (unfold top_cells; by rewrite length_map, length_seq).
  unfold write_all at 2. by rewrite foldl_app.
Qed.

Lemma dtable_lowprob_step table0 j st :
  k <= FSE_MAX_TABLELOG -> zlen table0 = 2 ^ k -> 0 <= j < zlen norm -> low_inv table0 j st ->
  exists st', dtable_lowprob counter k j st = Ok st' /\ low_inv table0 (j + 1) st'.
Proof.
  intros HkD Ht0 Hj. destruct st as [[[table symbolNext] high] fast]. intros (Hv & Hz & Hsn & Hh & Hf).
  destruct (norm_lookup j Hj) as (n & Hn & Hget & Hge & Hocc). pose proof pow_k_bound.
  destruct (take_snoc_norm j n ltac:(lia) Hn) as [Hs Hzt].
  unfold dtable_lowprob. rewrite Hget. cbn [obind]. unfold FSE_MAX_TABLELOG, FSE_MAX_MEMORY_USAGE in HkD.
  assert (s16 (Z.shiftl 1 (k - 1)) = 2 ^ (k - 1)) as ->.
  { destruct Hnorm. rewrite Z.shiftl_mul_pow2, Z.mul_1_l by lia.
    assert (0 < 2 ^ (k - 1)) by (apply pow2_pos; lia).
    assert (2 ^ (k - 1) <= 2 ^ 11) by (apply Z.pow_le_mono_r; lia). apply sgn_small; lia. }
  assert (forall v, v = occ n -> forall i m, Z.of_nat i < j + 1 -> norm !! i = Some m ->
            <[Z.to_nat j := v]> symbolNext !! i = Some (occ m)) as Hsn'.
  { intros v -> i m Hi Hm. destruct (decide (i = Z.to_nat j)) as [->|Hne].
    - rewrite list_lookup_insert_eq by (unfold zlen in *; lia). congruence.
    - rewrite list_lookup_insert_ne by done. apply Hsn; [lia|done]. }
  assert (fast_of (take (Z.to_nat (j + 1)) norm) = if 2 ^ (k - 1) <=? n then 0 else fast) as Hfast.
  { rewrite Hs, Hf. unfold fast_of. rewrite forallb_app. simpl.
    destruct (forallb _ _); simpl; zcases; try done; lia. }
  assert (0 < 2 ^ (k - 1)) by (apply pow2_pos; destruct Hnorm; lia).
  destruct (Z.eqb_spec n (-1)) as [->|Hne].
  - destruct (low_write symbol put_symbol table0 table j (-1) put_symbol_spec Ht0 ltac:(lia) Hn eq_refl Hv)
      as (Hu & Hl' & t' & Ht' & Hv').
    rewrite Hh, Hu, Ht'. cbn [obind]. rewrite aset_Ok by lia. cbn [obind].
    eexists; split; [reflexivity|]. split; [done|]. split; [by rewrite zlen_insert|].
    split; [by apply Hsn'|]. split; [f_equal; lia|]. rewrite Hfast. zcases; [lia|done].
  - rewrite aset_Ok by lia. cbn [obind]. unfold occ in *. rewrite (proj2 (Z.eqb_neq _ _)) in * by done.
    rewrite (wrap_small 16) by lia. eexists; split; [reflexivity|].
    assert (lows 0 (take (Z.to_nat (j + 1)) norm) = lows 0 (take (Z.to_nat j) norm)) as Hlw.
    { rewrite Hs, lows_snoc, (proj2 (Z.eqb_neq _ _)), app_nil_r by done. done. }
    unfold low_inv. rewrite Hlw. split; [done|]. split; [by rewrite zlen_insert|].
    split; [by apply Hsn'|]. split; [done|]. by rewrite Hfast.
Qed.

(** Both walks place the remaining symbols. *)
Lemma spread_placed {A} (view : A -> Z) (put : list A -> Z -> Z -> res (list A)) chk spread table0 table :
  (forall table i s, 0 <= i < zlen table ->
     exists table', put table i s = Ok table' /\ map view table' = <[Z.to_nat i := s]> (map view table)) ->
  chk 0 = (Ok tt : res unit) ->
  zlen table0 = 2 ^ k -> 2 ^ k + 8 <= zlen spread ->
  map view table = write_all (map view table0) (zip (top_cells k (length (lows 0 norm))) (lows 0 norm)) ->
  exists table',
    (if u32 (2 ^ k - 1 - zlen (lows 0 norm)) =? 2 ^ k - 1 then
       let* spread := lay_down counter (zlen norm) spread in
       walk_unrolled put spread (2 ^ k) table
     else
       let* (table, position) := walk_lowprob put counter (zlen norm) (2 ^ k)
                                   (u32 (2 ^ k - 1 - zlen (lows 0 norm))) table in
       chk position ;;; Ok table) = Ok table' /\
    spread_ok norm k (map view table').
Proof.
  intros Hput Hchk Ht0 Hsp Hv. pose proof pow_k_bound as Hb. pose proof zlen_lows as Hlw.
  assert (Hk : 4 <= k) by (destruct Hnorm; lia). pose proof (zlen_nonneg (lows 0 norm)).
  pose proof (zlen_view view _ _ _ Hv) as Hzt.
  assert (spread_ok norm k (write_all (map view table)
            (zip (cells k (2 ^ k - zlen (lows 0 norm))) (expand 0 norm)))) as Hok.
  { apply spread_written; [done|by unfold zlen in *; rewrite length_map; lia|].
    intros i s Hs. rewrite Hv. assert (i < length (lows 0 norm))%nat by (by eapply lookup_lt_Some).
    eapply (write_all_lookup _ _ _ i); [by apply NoDup_top_cells| | |done].
    - apply Forall_forall. unfold top_cells. intros x (y & -> & Hy%elem_of_seq)%list_elem_of_fmap.
      unfold zlen in *. rewrite length_map. lia.
    - unfold top_cells. rewrite list_lookup_fmap, lookup_seq_lt by done. done. }
  destruct (Z.eqb_spec (u32 (2 ^ k - 1 - zlen (lows 0 norm))) (2 ^ k - 1)) as [He|Hne].
  - assert (lows 0 norm = []) as Hnil.
    { destruct (lows 0 norm) as [|x l] eqn:E; [done|]. exfalso. rewrite zlen_cons in He, Hlw.
      pose proof (zlen_nonneg l). unfold wrap in He.
      destruct (decide (zlen l + 1 <= 2 ^ k - 1)).
      - rewrite Z.mod_small in He by lia. lia.
      - replace (2 ^ k - 1 - (zlen l + 1)) with (-1) in He by lia.
        change ((-1) mod 2 ^ 32) with 4294967295 in He. lia. }
    rewrite Hnil in *. rewrite Z.sub_0_r in *.
    destruct (lay_down_spec norm k counter spread) as (sp & -> & Hz & Htk); try done. cbn [obind].
    destruct (walk_unrolled_spec put view Hput k sp table) as (t' & -> & Hv'); [lia..|].
    exists t'. split; [done|]. by rewrite Hv', Htk.
  - destruct (walk_lowprob_spec put view Hput norm k (2 ^ k - zlen (lows 0 norm))
                (u32 (2 ^ k - 1 - zlen (lows 0 norm))) Hnorm eq_refl) with (counter := counter) (table := table)
      as (t' & -> & Hv'); [|done|lia|].
    { intros. rewrite wrap_small by lia. lia. }
    cbn [obind]. rewrite Hchk. cbn [obind]. exists t'. split; [done|]. by rewrite Hv'.
Qed.

(** The cells of the decoding table, one by one. *)
Definition cell_inv (syms : list Z) (u : Z) (st : list FSE_decode_t * list Z) : Prop :=
  let '(table, symbolNext) := st in
  zlen table = 2 ^ k /\ zlen symbolNext = zlen norm /\
  (forall i, Z.of_nat i < u -> table !! i = dtable_ref norm k syms !! i) /\
  (forall i, u <= Z.of_nat i -> symbol <$> table !! i = syms !! i) /\
  (forall s, 0 <= s < zlen norm ->
     symbolNext !! Z.to_nat s = Some (freq norm s + count_sym s (take (Z.to_nat u) syms))).

Lemma dtable_cell_step syms u st :
  k <= FSE_MAX_TABLELOG -> spread_ok norm k syms -> 0 <= u < 2 ^ k -> cell_inv syms u st ->
  exists st', dtable_cell k u st = Ok st' /\ cell_inv syms (u + 1) st'.
Proof.
  intros HkD Hsy Hu. destruct st as [table symbolNext]. intros (Ht & Hz & Hdone & Htodo & Hcnt).
  pose proof pow_k_bound as Hb. assert (Hk : 0 <= k) by (destruct Hnorm; lia).
  assert (2 ^ k <= 2 ^ 12) by (apply Z.pow_le_mono_r; unfold FSE_MAX_TABLELOG, FSE_MAX_MEMORY_USAGE in HkD; lia).
  destruct (lookup_lt_is_Some_2 syms (Z.to_nat u)) as [s Hs]; [destruct Hsy as [Hsz _]; unfold zlen in *; lia|].
  destruct (lookup_lt_is_Some_2 table (Z.to_nat u)) as [c Hc]; [unfold zlen in *; lia|].
  assert (symbol c = s) as Hsc.
  { specialize (Htodo (Z.to_nat u) ltac:(lia)). rewrite Hc, Hs in Htodo. simpl in Htodo. congruence. }
  pose proof (sym_range norm k syms Hnorm Hsy _ s Hs) as Hsr.
  pose proof (sub_state_range norm k syms Hnorm Hsy _ s Hs) as [Hxr Hf].
  pose proof (freq_range norm k Hnorm s) as Hfr. fold (sub_state norm syms (Z.to_nat u) s) in Hcnt.
  set (x := sub_state norm syms (Z.to_nat u) s) in *.
  destruct (log2_state norm k Hnorm x) as (Hlg & Hlo & Hhi); [lia|].
  assert (0 < 2 ^ (k - Z.log2 x)) by (apply pow2_pos; lia).
  unfold dtable_cell. assert (aget table u = (Ok c : res FSE_decode_t)) as -> by (apply aget_Ok; split; [lia|done]).
  cbn [obind]. rewrite Hsc.
  assert (aget symbolNext s = (Ok x : res Z)) as -> by (apply aget_Ok; split; [lia|by apply Hcnt]).
  cbn [obind]. rewrite aset_Ok by lia. cbn [obind]. rewrite highbit32_val by lia. cbn [obind].
  rewrite (wrap_small 8) by (destruct Hnorm; lia). rewrite aset_Ok by lia. cbn [obind].
  rewrite !Z.shiftl_mul_pow2, Z.mul_1_l by lia. rewrite (wrap_small 32 (x * _)) by lia.
  rewrite (wrap_small 32), (wrap_small 16 (x + 1)), (wrap_small 16) by lia. eexists; split; [reflexivity|].
  unfold cell_inv. split; [by rewrite zlen_insert|]. split; [by rewrite zlen_insert|].
  replace (Z.to_nat (u + 1)) with (S (Z.to_nat u)) by lia. rewrite (take_S_r syms _ s) by done.
  split; [|split].
  - intros i Hi. destruct (decide (i = Z.to_nat u)) as [->|Hne].
    + rewrite list_lookup_insert_eq by (unfold zlen in *; lia).
      unfold dtable_ref. rewrite list_lookup_imap, Hs. done.
    + rewrite list_lookup_insert_ne by done. apply Hdone. lia.
  - intros i Hi. rewrite list_lookup_insert_ne by lia. apply Htodo. lia.
  - intros s' Hs'. rewrite count_sym_app, count_sym_cons. change (count_sym s' []) with 0.
    destruct (decide (s = s')) as [->|Hne].
    + rewrite list_lookup_insert_eq by (unfold zlen in *; lia). f_equal. unfold x, sub_state. lia.
    + rewrite list_lookup_insert_ne by lia. rewrite Hcnt by done. f_equal. lia.
Qed.

Definition dt_storage (dt : FSE_DTable) : Prop := 2 ^ k <= zlen (dt_table dt).

Lemma fast_of_spec : fast_of norm = 1 -> Forall (fun n => n < 2 ^ (k - 1)) norm.
Proof.
  unfold fast_of. destruct (forallb _ norm) eqn:E; [|done]. intros _.
  rewrite List.forallb_forall in E. apply Forall_forall. intros n Hn%list_elem_of_In.
  specialize (E n Hn). lia.
Qed.

(** [FSE_buildDTable_internal] on admissible counts: no error, and the
    reference table. *)
Lemma buildDTable_spec dt workSpace :
  k <= FSE_MAX_TABLELOG -> dt_storage dt ->
  FSE_BUILD_DTABLE_WKSP_SIZE k (zlen norm - 1) <= zlen workSpace ->
  exists syms, spread_ok norm k syms /\
    FSE_buildDTable_internal dt counter (zlen norm - 1) k workSpace =
    Ok {| dt_tableLog := k; dt_fastMode := fast_of norm;
          dt_table := splice (dt_table dt) 0 (dtable_ref norm k syms) |}.
Proof.
  intros HkD Hdt Hw. unfold dt_storage in Hdt. pose proof pow_k_bound as Hb. pose proof Hnorm as (Hk & Hl & _).
  assert (Z.shiftl 1 k = 2 ^ k) as Hsh by (rewrite Z.shiftl_mul_pow2 by lia; lia).
  unfold FSE_buildDTable_internal. rewrite Hsh.
  unfold FSE_BUILD_DTABLE_WKSP_SIZE, FSE_MAX_SYMBOL_VALUE in *. rewrite Hsh in Hw |- *. zdecide. cbn [reject_if obind].
  replace (zlen norm - 1 + 1) with (zlen norm) in * by lia. rewrite asub_Ok by lia. cbn [obind].
  set (t0 := slice (dt_table dt) 0 (2 ^ k)). assert (zlen t0 = 2 ^ k) as Ht0 by (apply zlen_slice; lia).
  destruct (wp_exists (for_range 0 (zlen norm) (dtable_lowprob counter k)
      (t0, replicate (Z.to_nat (zlen norm)) 0, 2 ^ k - 1, 1)) (low_inv t0 (zlen norm)))
    as ([[[t1 sn] hi] fast] & -> & Hv & Hz & Hsn & -> & ->).
  { apply wp_for_range; [lia| |].
    - unfold low_inv. simpl take. cbn [lows length top_cells zip]. split; [done|].
      split; [rewrite zlen_replicate; lia|]. split; [intros; lia|]. split; [|done].
      change (zlen (lows 0 (take (Z.to_nat 0) norm))) with 0. rewrite wrap_small by lia. lia.
    - intros j st Hj Hi. destruct (dtable_lowprob_step t0 j st) as (st' & -> & Hi'); done. }
  cbn [obind]. rewrite take_ge in * by (unfold zlen; lia).
  destruct (spread_placed symbol put_symbol
      (fun p => reject_if (negb (p =? 0)) ZSTD_error_GENERIC)
      (drop (Z.to_nat (2 * zlen norm)) workSpace) t0 t1) as (t2 & -> & Hsy); try done.
  { apply put_symbol_spec. }
  { unfold zlen in *. rewrite length_drop. lia. }
  cbn [obind]. exists (map symbol t2). split; [done|].
  destruct (wp_exists (for_range 0 (2 ^ k) (dtable_cell k) (t2, sn)) (cell_inv (map symbol t2) (2 ^ k)))
    as ([t3 sn3] & -> & Ht3 & _ & Hdone & _).
  { apply wp_for_range; [lia| |].
    - pose proof Hsy as [Hz2 _]. unfold cell_inv. split; [unfold zlen in *; rewrite length_map in Hz2; lia|].
      split; [done|]. split; [intros; lia|]. split; [intros i _; by rewrite list_lookup_fmap|].
      intros s Hs. simpl. change (count_sym s []) with 0. rewrite Z.add_0_r.
      destruct (norm_lookup s Hs) as (n & Hn & _). rewrite (Hsn _ n) by (done || lia).
      f_equal. rewrite <- (freq_lookup norm _ n Hn). f_equal. lia.
    - intros u st Hu Hi. destruct (dtable_cell_step (map symbol t2) u st) as (st' & -> & Hi'); done. }
  cbn [obind]. rewrite (wrap_small 16) by lia. do 3 f_equal.
  apply (list_eq_same_length _ _ (Z.to_nat (2 ^ k))).
  - unfold dtable_ref. rewrite length_imap. destruct Hsy as [Hz2 _]. unfold zlen in *. lia.
  - unfold zlen in *. lia.
  - intros i x y Hi Hx Hy. specialize (Hdone i ltac:(lia)). congruence.
Qed.
End BuildD.

(** ** The encoding table *)

Section RefC.
Variables (norm : list Z) (k : Z).

(** The first index of the states of symbol [s]. *)
Definition cum (s : Z) : Z := total (take (Z.to_nat s) norm).

(** The bits a symbol of frequency [f] needs at most. *)
Definition max_bits (f : Z) : Z := if f =? 1 then k else k - Z.log2 (f - 1).

Definition tt_ref (s : Z) : FSE_symbolCompressionTransform :=
  {| deltaFindState := cum s - freq norm s;
     deltaNbBits := max_bits (freq norm s) * 2 ^ 16 -
       (if freq norm s =? 1 then 2 ^ k else freq norm s * 2 ^ max_bits (freq norm s)) |}.

(** What [FSE_encodeSymbol] relies on. *)
Definition ctable_ok (syms : list Z) (ct : FSE_CTable) : Prop :=
  ct_tableLog ct = k /\ zlen (ct_symbolTT ct) = zlen norm /\ zlen (ct_stateTable ct) = 2 ^ k /\
  (forall u s, syms !! u = Some s ->
     ct_stateTable ct !! Z.to_nat (cum s + count_sym s (take u syms)) = Some (2 ^ k + Z.of_nat u)) /\
  (forall s, 0 <= s < zlen norm -> 0 < freq norm s -> ct_symbolTT ct !! Z.to_nat s = Some (tt_ref s)).
End RefC.

Section BuildC.
Context `{P : Platform} (norm : list Z) (k : Z) (counter : list Z).
Hypothesis Hnorm : norm_ok norm k.
Hypothesis Hpre : norm `prefix_of` counter.

Lemma cum_S j n : 0 <= j -> norm !! Z.to_nat j = Some n -> cum norm (j + 1) = cum norm j + occ n.
Proof.
  intros Hj Hn. unfold cum. destruct (take_snoc_norm norm j n Hj Hn) as [-> _].
  rewrite total_app. simpl. lia.
Qed.

Lemma freq_at j n : 0 <= j -> norm !! Z.to_nat j = Some n -> freq norm j = occ n.
Proof. intros Hj Hn. unfold freq. by rewrite (nth_lookup_Some _ _ _ _ Hn). Qed.

Lemma cum_range j : 0 <= cum norm j <= 2 ^ k.
Proof.
  destruct Hnorm as (_ & _ & Hge & <-). unfold cum. set (j' := Z.to_nat j).
  pose proof (total_nonneg (take j' norm) ltac:(by apply Forall_take)).
  pose proof (total_nonneg (drop j' norm) ltac:(by apply Forall_drop)).
  assert (total norm = total (take j' norm) + total (drop j' norm))
    by (by rewrite <- total_app, take_drop). lia.
Qed.

Lemma cum_disjoint s s' : 0 <= s -> s < s' <= zlen norm -> cum norm s + freq norm s <= cum norm s'.
Proof.
  intros Hs Hs'. destruct (lookup_lt_is_Some_2 norm (Z.to_nat s)) as [n Hn]; [unfold zlen in *; lia|].
  rewrite (freq_at s n), <- (cum_S s n) by done. unfold cum.
  replace (Z.to_nat s') with (Z.to_nat (s + 1) + (Z.to_nat s' - Z.to_nat (s + 1)))%nat by lia.
  rewrite <- (take_take_drop norm), total_app.
  pose proof (total_nonneg (take (Z.to_nat s' - Z.to_nat (s + 1)) (drop (Z.to_nat (s + 1)) norm))
    ltac:(destruct Hnorm as (_ & _ & ? & _); by apply Forall_take, Forall_drop)). lia.
Qed.

Lemma aset_put (table : list Z) i s : 0 <= i < zlen table ->
  exists table', aset table i s = (Ok table' : res (list Z)) /\
    map (fun x => x) table' = <[Z.to_nat i := s]> (map (fun x => x) table).
Proof. intros Hi. rewrite aset_Ok by done. eexists; split; [done|]. by rewrite !map_id. Qed.

(** The start positions of the first [u - 1] symbols. *)
Definition cumul_inv (t0 : list Z) (u : Z) (st : list Z * list Z * Z) : Prop :=
  let '(cumul, table, high) := st in
  let lw := lows 0 (take (Z.to_nat (u - 1)) norm) in
  map (fun x => x) table = write_all (map (fun x => x) t0) (zip (top_cells k (length lw)) lw) /\
  zlen cumul = zlen norm + 1 /\
  (forall i, 0 <= i < u -> cumul !! Z.to_nat i = Some (cum norm i)) /\
  high = u32 (2 ^ k - 1 - zlen lw).

Lemma ctable_cumul_step t0 u st :
  zlen t0 = 2 ^ k -> 1 <= u < zlen norm + 1 -> cumul_inv t0 u st ->
  exists st', ctable_cumul counter u st = Ok st' /\ cumul_inv t0 (u + 1) st'.
Proof.
  intros Ht0 Hu. destruct st as [[cumul table] high]. intros (Hv & Hz & Hc & Hh).
  destruct (norm_lookup norm k counter Hnorm Hpre (u - 1)) as (n & Hn & Hget & Hge & Hocc); [lia|].
  pose proof (pow_k_bound norm k Hnorm) as Hb.
  pose proof (cum_S (u - 1) n ltac:(lia) Hn) as HS. replace (u - 1 + 1) with u in HS by lia.
  pose proof (cum_range u). pose proof (cum_range (u - 1)).
  unfold ctable_cumul. rewrite Hget. cbn [obind].
  assert (aget cumul (u - 1) = (Ok (cum norm (u - 1)) : res Z)) as ->
    by (apply aget_Ok; split; [lia|apply Hc; lia]).
  cbn [obind].
  assert (forall v, v = cum norm u -> forall i, 0 <= i < u + 1 ->
            <[Z.to_nat u := v]> cumul !! Z.to_nat i = Some (cum norm i)) as Hc'.
  { intros v -> i Hi. destruct (decide (i = u)) as [->|Hne].
    - apply list_lookup_insert_eq. unfold zlen in *. lia.
    - rewrite list_lookup_insert_ne by lia. apply Hc. lia. }
  unfold cumul_inv. replace (u + 1 - 1) with (u - 1 + 1) by lia. destruct (Z.eqb_spec n (-1)) as [->|Hne].
  - destruct (low_write norm k Hnorm (fun x => x) aset t0 table (u - 1) (-1) aset_put
      Ht0 ltac:(lia) Hn eq_refl Hv) as (Hu' & Hl' & t' & Ht' & Hv').
    rewrite aset_Ok by lia. cbn [obind]. rewrite Hh, Hu', Ht'. cbn [obind].
    eexists; split; [reflexivity|]. split; [done|]. split; [by rewrite zlen_insert|].
    split; [apply Hc'; rewrite wrap_small; unfold occ in *; simpl in *; lia|]. f_equal. lia.
  - rewrite (proj2 (Z.leb_le 0 n)) by lia. cbn [oassert obind]. unfold occ in *.
    rewrite (proj2 (Z.eqb_neq _ _)) in * by done.
    rewrite (wrap_small 16 n), (wrap_small 16) by lia. rewrite aset_Ok by lia. cbn [obind].
    rewrite (proj2 (Z.leb_le (cum _ _) _)) by lia. cbn [oassert obind].
    eexists; split; [reflexivity|].
    assert (lows 0 (take (Z.to_nat (u - 1 + 1)) norm) = lows 0 (take (Z.to_nat (u - 1)) norm)) as Hlw.
    { destruct (take_snoc_norm norm (u - 1) n ltac:(lia) Hn) as [-> _].
      rewrite lows_snoc, (proj2 (Z.eqb_neq _ _)), app_nil_r by done. done. }
    rewrite Hlw. split; [done|]. split; [by rewrite zlen_insert|]. split; [|done]. apply Hc'. lia.
Qed.

(** The states written for the first [u] cells. *)
Definition state_inv (syms : list Z) (u : Z) (st : list Z * list Z) : Prop :=
  let '(tableU16, cumul) := st in
  zlen tableU16 = 2 ^ k /\ zlen cumul = zlen norm + 1 /\
  (forall s, 0 <= s < zlen norm ->
     cumul !! Z.to_nat s = Some (cum norm s + count_sym s (take (Z.to_nat u) syms))) /\
  (forall i s, Z.of_nat i < u -> syms !! i = Some s ->
     tableU16 !! Z.to_nat (cum norm s + count_sym s (take i syms)) = Some (2 ^ k + Z.of_nat i)).

Lemma count_take_mono s (l : list Z) i j :
  (i < j)%nat -> l !! i = Some s -> count_sym s (take i l) < count_sym s (take j l).
Proof.
  intros Hij Hi. replace j with (S i + (j - S i))%nat by lia.
  rewrite <- (take_take_drop l (S i)), (take_S_r l i s) by done.
  rewrite !count_sym_app, count_sym_cons. pose proof (count_sym_nonneg s (take (j - S i) (drop (S i) l))).
  change (count_sym s []) with 0. destruct (decide (s = s)); [lia|done].
Qed.

Lemma ctable_state_step syms u st :
  spread_ok norm k syms -> 0 <= u < 2 ^ k -> state_inv syms u st ->
  exists st', ctable_state syms (2 ^ k) u st = Ok st' /\ state_inv syms (u + 1) st'.
Proof.
  intros Hsy Hu. destruct st as [tab cumul]. intros (Ht & Hz & Hc & Hd).
  pose proof (pow_k_bound norm k Hnorm) as Hb.
  destruct (lookup_lt_is_Some_2 syms (Z.to_nat u)) as [s Hs]; [destruct Hsy as [Hsz _]; unfold zlen in *; lia|].
  pose proof (sym_range norm k syms Hnorm Hsy _ s Hs) as Hsr.
  pose proof (count_take_lt norm k syms Hnorm Hsy _ s Hs) as Hlt.
  pose proof (count_sym_nonneg s (take (Z.to_nat u) syms)) as Hnn.
  pose proof (cum_range s). pose proof (cum_range (s + 1)).
  pose proof (cum_disjoint s (s + 1) ltac:(lia) ltac:(lia)).
  set (c := cum norm s + count_sym s (take (Z.to_nat u) syms)) in *.
  unfold ctable_state. assert (aget syms u = (Ok s : res Z)) as -> by (apply aget_Ok; split; [lia|done]).
  cbn [obind]. assert (aget cumul s = (Ok c : res Z)) as -> by (apply aget_Ok; split; [lia|by apply Hc]).
  cbn [obind]. rewrite aset_Ok by lia. cbn [obind]. rewrite aset_Ok by lia. cbn [obind].
  rewrite (wrap_small 16 (c + 1)), (wrap_small 16) by lia. eexists; split; [reflexivity|].
  unfold state_inv. split; [by rewrite zlen_insert|]. split; [by rewrite zlen_insert|].
  replace (Z.to_nat (u + 1)) with (S (Z.to_nat u)) by lia. rewrite (take_S_r syms _ s) by done. split.
  - intros s' Hs'. rewrite count_sym_app, count_sym_cons. change (count_sym s' []) with 0.
    destruct (decide (s = s')) as [<-|Hne].
    + rewrite list_lookup_insert_eq by (unfold zlen in *; lia). f_equal. unfold c. lia.
    + rewrite list_lookup_insert_ne by lia. rewrite Hc by done. f_equal. lia.
  - intros i s' Hi Hs'. destruct (decide (i = Z.to_nat u)) as [->|Hne].
    + assert (s' = s) as -> by congruence. fold c.
      rewrite list_lookup_insert_eq by (unfold zlen in *; lia). f_equal. lia.
    + pose proof (sym_range norm k syms Hnorm Hsy _ s' Hs').
      pose proof (count_take_lt norm k syms Hnorm Hsy _ s' Hs').
      pose proof (count_sym_nonneg s' (take i syms)). pose proof (cum_range s').
      rewrite list_lookup_insert_ne; [apply Hd; [lia|done]|].
      destruct (Z.lt_trichotomy s s') as [Hlt'|[<-|Hlt']].
      * pose proof (cum_disjoint s s' ltac:(lia) ltac:(lia)). lia.
      * pose proof (count_take_mono s syms i (Z.to_nat u) ltac:(lia) Hs'). lia.
      * pose proof (cum_disjoint s' s ltac:(lia) ltac:(lia)). lia.
Qed.

(** The transformations of the first [s] symbols. *)
Definition tt_inv (s : Z) (st : list FSE_symbolCompressionTransform * Z) : Prop :=
  let '(symbolTT, tot) := st in
  zlen symbolTT = zlen norm /\ tot = cum norm s /\
  (forall i, 0 <= i < s -> 0 < freq norm i -> symbolTT !! Z.to_nat i = Some (tt_ref norm k i)).

Lemma s32_u32 x : - 2 ^ 31 <= x < 2 ^ 31 -> s32 (u32 x) = x.
Proof.
  intros Hx. unfold sgn, wrap. rewrite Zplus_mod_idemp_l. change (2 ^ (32 - 1)) with (2 ^ 31).
  rewrite Z.mod_small by lia. lia.
Qed.

Lemma max_bits_range f :
  1 <= f <= 2 ^ k ->
  (f = 1 -> max_bits k f = k) /\
  (2 <= f -> 1 <= max_bits k f <= k /\ 2 ^ k <= (f - 1) * 2 ^ max_bits k f /\
     f * 2 ^ max_bits k f <= 2 * 2 ^ k).
Proof.
  intros Hf. unfold max_bits. split; [intros ->; done|]. intros H2. rewrite (proj2 (Z.eqb_neq _ _)) by lia.
  destruct (log2_state norm k Hnorm (f - 1)) as (H1 & H3 & H4); [lia|].
  replace (f - 1 + 1) with f in H4 by lia. split; [|done]. split; [|lia].
  assert (Z.log2 (f - 1) < k); [|lia]. apply Z.log2_lt_pow2; lia.
Qed.

Lemma ctable_symbolTT_step s st :
  0 <= s < zlen norm -> tt_inv s st ->
  exists st', ctable_symbolTT counter k s st = Ok st' /\ tt_inv (s + 1) st'.
Proof.
  intros Hs. destruct st as [tts tot]. intros (Hz & -> & Hd).
  destruct (norm_lookup norm k counter Hnorm Hpre s Hs) as (n & Hn & Hget & Hge & Hocc).
  pose proof (pow_k_bound norm k Hnorm) as Hb. pose proof Hnorm as (Hk & _).
  pose proof (cum_S s n ltac:(lia) Hn) as HS. pose proof (cum_range (s + 1)). pose proof (cum_range s).
  pose proof (freq_at s n ltac:(lia) Hn) as Hfr.
  assert (forall v, (0 < freq norm s -> v = tt_ref norm k s) ->
    forall i, 0 <= i < s + 1 -> 0 < freq norm i ->
      <[Z.to_nat s := v]> tts !! Z.to_nat i = Some (tt_ref norm k i)) as Hd'.
  { intros v Hv i Hi Hf. destruct (decide (i = s)) as [->|Hne].
    - rewrite list_lookup_insert_eq by (unfold zlen in *; lia). by rewrite Hv.
    - rewrite list_lookup_insert_ne by lia. apply Hd; [lia|done]. }
  unfold ctable_symbolTT. rewrite Hget. cbn [obind]. rewrite !Z.shiftl_mul_pow2, Z.mul_1_l by lia.
  destruct (Z.eqb_spec n 0) as [->|Hn0]; [|destruct (Z.eqb_spec n (-1)) as [->|Hnm];
    [|destruct (Z.eqb_spec n 1) as [->|Hn1]]]; cbn [orb].
  - destruct (lookup_lt_is_Some_2 tts (Z.to_nat s)) as [tr Htr]; [unfold zlen in *; lia|].
    assert (aget tts s = (Ok tr : res FSE_symbolCompressionTransform)) as -> by (apply aget_Ok; split; [lia|done]).
    cbn [obind]. rewrite aset_Ok by lia. eexists; split; [reflexivity|].
    split; [by rewrite zlen_insert|]. change (occ 0) with 0 in *. split; [lia|]. apply Hd'. lia.
  - rewrite (proj2 (Z.leb_le _ _)) by lia. cbn [oassert obind]. rewrite aset_Ok by lia.
    eexists; split; [reflexivity|]. split; [by rewrite zlen_insert|]. change (occ (-1)) with 1 in *.
    split; [rewrite wrap_small; lia|]. apply Hd'. intros _. unfold tt_ref, max_bits. rewrite Hfr. simpl.
    rewrite s32_u32, !wrap_small by (rewrite ?wrap_small; lia). done.
  - rewrite (proj2 (Z.leb_le _ _)) by lia. cbn [oassert obind]. rewrite aset_Ok by lia.
    eexists; split; [reflexivity|]. split; [by rewrite zlen_insert|]. change (occ 1) with 1 in *.
    split; [rewrite wrap_small; lia|]. apply Hd'. intros _. unfold tt_ref, max_bits. rewrite Hfr. simpl.
    rewrite s32_u32, !wrap_small by (rewrite ?wrap_small; lia). done.
  - assert (occ n = n) as Ho by (unfold occ; rewrite (proj2 (Z.eqb_neq _ _)) by done; done). rewrite Ho in *.
    rewrite (proj2 (Z.ltb_lt _ _)) by lia. cbn [oassert obind]. rewrite (wrap_small 32 (n - 1)) by lia.
    rewrite highbit32_val by lia. cbn [obind]. rewrite aset_Ok by lia.
    destruct (max_bits_range n) as [_ Hmb]; [lia|]. destruct Hmb as (Hm1' & Hm2 & Hm3); [lia|].
    assert (max_bits k n = k - Z.log2 (n - 1)) as Hmx
      by (unfold max_bits; rewrite (proj2 (Z.eqb_neq _ _)) by lia; done).
    rewrite (wrap_small 32 (k - _)), <- Hmx by lia. rewrite !Z.shiftl_mul_pow2 by lia.
    eexists; split; [reflexivity|]. split; [by rewrite zlen_insert|].
    split; [rewrite wrap_small; lia|]. apply Hd'. intros _. unfold tt_ref. rewrite Hfr.
    rewrite (proj2 (Z.eqb_neq n 1)) by lia. rewrite s32_u32, !wrap_small by (rewrite ?wrap_small; lia). done.
Qed.

(** [FSE_buildCTable_wksp] on admissible counts, with the workspace it writes. *)
Lemma buildCTable_spec ct workSpace :
  2 ^ k <= zlen (ct_stateTable ct) -> zlen norm <= zlen (ct_symbolTT ct) ->
  2 * (zlen norm + 1) + 2 * 2 ^ k + 8 <= zlen workSpace ->
  exists syms ct', spread_ok norm k syms /\
    FSE_buildCTable_wksp ct counter (zlen norm - 1) k workSpace = Ok ct' /\
    ctable_ok norm k syms ct' /\ ct_maxSymbolValue ct' = zlen norm - 1.
Proof.
  intros Hst Htt Hw. pose proof (pow_k_bound norm k Hnorm) as Hb. pose proof Hnorm as (Hk & Hl & _).
  assert (Z.shiftl 1 k = 2 ^ k) as Hsh by (rewrite Z.shiftl_mul_pow2 by lia; lia).
  unfold FSE_buildCTable_wksp, FSE_BUILD_CTABLE_WORKSPACE_SIZE, FSE_BUILD_CTABLE_WORKSPACE_SIZE_U32.
  rewrite Hsh. replace (zlen norm - 1 + 1) with (zlen norm) in * by lia.
  pose proof (Z.div_mod (zlen norm - 1 + 2 + 2 ^ k) 2 ltac:(lia)).
  pose proof (Z.mod_pos_bound (zlen norm - 1 + 2 + 2 ^ k) 2 ltac:(lia)). change (8 / 4) with 2.
  zdecide. cbn [reject_if oassert obind]. rewrite !asub_Ok by lia. cbn [obind].
  set (t0 := slice workSpace (2 * (zlen norm + 1)) (2 ^ k)).
  assert (zlen t0 = 2 ^ k) as Ht0 by (apply zlen_slice; lia).
  destruct (wp_exists (for_range 1 (zlen norm + 1) (ctable_cumul counter)
      (replicate (Z.to_nat (zlen norm + 1)) 0, t0, 2 ^ k - 1)) (cumul_inv t0 (zlen norm + 1)))
    as ([[cm t1] hi] & -> & Hv & Hz & Hc & ->).
  { apply wp_for_range; [lia| |].
    - unfold cumul_inv. simpl take. cbn [lows length top_cells zip]. split; [done|].
      split; [rewrite zlen_replicate; lia|]. change (zlen (lows 0 (take (Z.to_nat (1 - 1)) norm))) with 0.
      split; [|rewrite wrap_small; lia]. intros i Hi. assert (i = 0) as -> by lia.
      rewrite lookup_replicate_2 by lia. done.
    - intros j st Hj Hi. destruct (ctable_cumul_step t0 j st) as (st' & -> & Hi'); done. }
  cbn [obind]. replace (zlen norm + 1 - 1) with (zlen norm) in * by lia.
  rewrite take_ge in * by (unfold zlen; lia). rewrite aset_Ok by lia. cbn [obind].
  destruct (spread_placed norm k counter Hnorm Hpre (fun x => x) aset (fun p => oassert (p =? 0))
      (drop (Z.to_nat (2 * (zlen norm + 1) + 2 ^ k)) workSpace) t0 t1) as (t2 & -> & Hsy); try done.
  { apply aset_put. }
  { unfold zlen in *. rewrite length_drop. lia. }
  rewrite map_id in Hsy. cbn [obind].
  destruct (wp_exists (for_range 0 (2 ^ k) (ctable_state t2 (2 ^ k))
      (slice (ct_stateTable ct) 0 (2 ^ k), <[Z.to_nat (zlen norm) := u16 (2 ^ k + 1)]> cm))
      (state_inv t2 (2 ^ k))) as ([tab cm'] & -> & Htab & _ & _ & Hd).
  { apply wp_for_range; [lia| |].
    - split; [apply zlen_slice; lia|]. split; [by rewrite zlen_insert|]. split; [|intros; lia].
      intros s Hs. rewrite list_lookup_insert_ne, Hc by lia. change (count_sym s (take (Z.to_nat 0) t2)) with 0.
      by rewrite Z.add_0_r.
    - intros u st Hu Hi. destruct (ctable_state_step t2 u st) as (st' & -> & Hi'); done. }
  cbn [obind].
  destruct (wp_exists (for_range 0 (zlen norm) (ctable_symbolTT counter k)
      (slice (ct_symbolTT ct) 0 (zlen norm), 0)) (tt_inv (zlen norm))) as ([tts tot] & -> & Htz & _ & Htd).
  { apply wp_for_range; [lia| |].
    - split; [apply zlen_slice; lia|]. split; [done|]. intros; lia.
    - intros s st Hs Hi. destruct (ctable_symbolTT_step s st) as (st' & -> & Hi'); done. }
  cbn [obind]. eexists t2, _. split; [done|]. split; [reflexivity|]. rewrite !(wrap_small 16) by lia.
  split; [|done]. unfold ctable_ok; simpl. repeat (split; [done|]). split.
  - intros u s Hs. apply Hd; [|done]. apply lookup_lt_Some in Hs. destruct Hsy as [Hz2 _]. unfold zlen in *. lia.
  - intros s Hs Hf. by apply Htd.
Qed.
End BuildC.

(** The size test of [FSE_buildCTable_wksp] and the workspace it writes.
    For an even [maxSymbolValue] a workspace that passes the test is large
    enough: the table is built.  For an odd one the size macro rounds down and
    the test can accept a workspace too short for the eight-byte stores of the
    spread: with 2 symbols of counts 31 and 1 in a table of 32 cells, the 76
    bytes the macro asks for are accepted and one byte is written past them. *)
Theorem FSE_buildCTable_workspace `{P : Platform} norm k counter ct workSpace :
  norm_ok norm k -> norm `prefix_of` counter ->
  2 ^ k <= zlen (ct_stateTable ct) -> zlen norm <= zlen (ct_symbolTT ct) ->
  FSE_BUILD_CTABLE_WORKSPACE_SIZE (zlen norm - 1) k <= zlen workSpace -> (zlen norm - 1) mod 2 = 0 ->
  (exists ct' syms, FSE_buildCTable_wksp ct counter (zlen norm - 1) k workSpace = Ok ct' /\
     spread_ok norm k syms /\ ctable_ok norm k syms ct') /\
  FSE_BUILD_CTABLE_WORKSPACE_SIZE 1 5 = 76 /\ norm_ok [31; 1] 5 /\
  FSE_buildCTable_wksp
    {| ct_tableLog := 0; ct_maxSymbolValue := 0; ct_stateTable := replicate 32 0;
       ct_symbolTT := replicate 2 {| deltaFindState := 0; deltaNbBits := 0 |} |}
    [31; 1] 1 5 (replicate 76 0) = Fault Oob.
Proof.
  intros Hn Hpre Hst Htt Hw Hodd. split; [|split; [done|split]].
  - destruct (buildCTable_spec norm k counter Hn Hpre ct workSpace) as (syms & ct' & Hsy & Hb & Hok & _);
      [done|done| |by exists ct', syms].
    unfold FSE_BUILD_CTABLE_WORKSPACE_SIZE, FSE_BUILD_CTABLE_WORKSPACE_SIZE_U32 in Hw.
    destruct Hn as (Hk & _). assert (2 ^ k = 2 * 2 ^ (k - 1)) as HT by (rewrite <- Z.pow_succ_r by lia; f_equal; lia).
    rewrite Z.shiftl_mul_pow2, Z.mul_1_l in Hw by lia. change (8 / 4) with 2 in Hw.
    pose proof (Z.div_mod (zlen norm - 1) 2 ltac:(lia)) as Hd. rewrite Hodd in Hd.
    replace (zlen norm - 1 + 2 + 2 ^ k) with (((zlen norm - 1) / 2 + 1 + 2 ^ (k - 1)) * 2) in Hw by lia.
    rewrite Z.div_mul in Hw by lia. lia.
  - unfold norm_ok. vm_compute. repeat split; try congruence. repeat constructor; congruence.
  - destruct P as [[] [] []]; vm_compute; reflexivity.
Qed.

Lemma FSE_buildCTable_workspace_witness :
  exists ct' syms, FSE_buildCTable_wksp (P := armeabi_v7a)
      {| ct_tableLog := 0; ct_maxSymbolValue := 0; ct_stateTable := replicate 32 0;
         ct_symbolTT := replicate 3 {| deltaFindState := 0; deltaNbBits := 0 |} |}
      [30; 1; 1] 2 5 (replicate 80 0) = Ok ct' /\
    spread_ok [30; 1; 1] 5 syms /\ ctable_ok [30; 1; 1] 5 syms ct'.
Proof.
  apply (FSE_buildCTable_workspace (P := armeabi_v7a) [30; 1; 1] 5 [30; 1; 1]
      {| ct_tableLog := 0; ct_maxSymbolValue := 0; ct_stateTable := replicate 32 0;
         ct_symbolTT := replicate 3 {| deltaFindState := 0; deltaNbBits := 0 |} |} (replicate 80 0)).
  - unfold norm_ok. vm_compute. repeat split; try congruence. repeat constructor; congruence.
  - done.
  - vm_compute. congruence.
  - vm_compute. congruence.
  - vm_compute. congruence.
  - reflexivity.
Defined.
