(* ===== verification/FseState.v ===== *)
(** * Encoding and decoding states are inverse

    [FSE_encodeSymbol] moves a state [v] in [[2^k, 2^(k+1))] to a state of the
    symbol and emits the low bits of [v]; [FSE_decodeSymbol] on that state gives
    the symbol back and, from the same bits, [v].  [decodes] describes what two
    interleaved decoding states produce from a bit stream. *)
From S2P Require Import Prelude Mem Errors Bits BitStream Fse FseSpread FseBuild.

Section Inverse.
Context `{P : Platform} (norm : list Z) (k : Z) (syms : list Z).
Hypothesis Hnorm : norm_ok norm k.
Hypothesis Hsyms : spread_ok norm k syms.

(** Decoding state [v'] gives [s], reads [nb] bits, and from the low bits of
    [v] goes back to [v]. *)
Definition tans_step (v s nb v' : Z) : Prop :=
  exists u c, v' = 2 ^ k + Z.of_nat u /\ dtable_ref norm k syms !! u = Some c /\
    symbol c = s /\ nbBits c = nb /\ newState c + v mod 2 ^ nb = v - 2 ^ k.

Lemma rank_exists s r :
  0 <= r < count_sym s syms -> exists u, syms !! u = Some s /\ count_sym s (take u syms) = r.
Proof.
  clear. revert r. induction syms as [|x l IH]; intros r Hr; [unfold count_sym, zlen in Hr; simpl in Hr; lia|].
  rewrite count_sym_cons in Hr. destruct (decide (x = s)) as [->|Hne].
  - destruct (decide (r = 0)) as [->|]; [by exists 0%nat|].
    destruct (IH (r - 1)) as (u & Hu & Hc); [lia|]. exists (S u). split; [done|].
    simpl. rewrite count_sym_cons. destruct (decide (s = s)); [lia|done].
  - destruct (IH r) as (u & Hu & Hc); [lia|]. exists (S u). split; [done|].
    simpl. rewrite count_sym_cons. destruct (decide (x = s)); [done|lia].
Qed.

(** The cell of symbol [s] with sub-state [x], and where the encoder finds it. *)
Lemma cell_at s x :
  0 <= s < zlen norm -> freq norm s <= x < 2 * freq norm s ->
  exists u, syms !! u = Some s /\ count_sym s (take u syms) = x - freq norm s /\
    dtable_ref norm k syms !! u = Some (dcell k x s) /\ Z.of_nat u < 2 ^ k.
Proof.
  intros Hs Hx. destruct (rank_exists s (x - freq norm s)) as (u & Hu & Hc).
  { rewrite (freq_count norm k syms Hnorm Hsyms s Hs). lia. }
  exists u. split; [done|]. split; [done|]. split.
  - unfold dtable_ref. rewrite list_lookup_imap, Hu. simpl. unfold sub_state. rewrite Hc.
    by replace (freq norm s + (x - freq norm s)) with x by lia.
  - apply lookup_lt_Some in Hu. destruct Hsyms as [Hz _]. unfold zlen in *. lia.
Qed.

Lemma cell_of ct s x :
  ctable_ok norm k syms ct -> 0 <= s < zlen norm -> freq norm s <= x < 2 * freq norm s ->
  exists u, dtable_ref norm k syms !! u = Some (dcell k x s) /\
    aget (ct_stateTable ct) (x + (cum norm s - freq norm s)) = (Ok (2 ^ k + Z.of_nat u) : res Z) /\
    Z.of_nat u < 2 ^ k.
Proof.
  intros (_ & _ & _ & Hst & _) Hs Hx. destruct (cell_at s x Hs Hx) as (u & Hu & Hc & Href & Hlt).
  exists u. split; [done|]. split; [|done]. pose proof (cum_range norm k Hnorm s). apply aget_Ok. split; [lia|].
  rewrite <- (Hst u s Hu), Hc. f_equal. lia.
Qed.

Lemma div_range x y m : 0 < y -> m * y <= x -> m <= x / y.
Proof. intros. apply Z.div_le_lower_bound; lia. Qed.

(** The bits [FSE_encodeSymbol] takes off a state. *)
Lemma encode_bits v s :
  2 ^ k <= v < 2 * 2 ^ k -> 0 < freq norm s ->
  let nb := (v + deltaNbBits (tt_ref norm k s)) / 2 ^ 16 in
  0 <= nb <= k /\ freq norm s <= v / 2 ^ nb < 2 * freq norm s /\ Z.log2 (v / 2 ^ nb) = k - nb.
Proof.
  intros Hv Hf. pose proof Hnorm as (Hk & _). pose proof (pow_k_bound norm k Hnorm) as Hb.
  pose proof (freq_range norm k Hnorm s) as Hfr. simpl. set (f := freq norm s) in *.
  assert (forall nb, 0 <= nb <= k -> Z.log2 (v / 2 ^ nb) = k - nb) as Hlog.
  { intros nb Hnb. rewrite <- Z.shiftr_div_pow2, Z.log2_shiftr by lia.
    assert (Z.log2 v = k) as ->; [|lia]. apply Z.log2_unique; [lia|]. rewrite Z.pow_succ_r by lia. lia. }
  destruct (max_bits_range norm k Hnorm f ltac:(lia)) as [H1 H2].
  destruct (Z.eqb_spec f 1) as [E|Hne].
  - rewrite (H1 E). replace (v + (k * 2 ^ 16 - 2 ^ k)) with (k * 2 ^ 16 + (v - 2 ^ k)) by lia.
    rewrite Z.div_add_l, (Z.div_small (v - 2 ^ k)), Z.add_0_r by lia. split; [lia|]. split; [|apply Hlog; lia].
    rewrite <- (Z.div_unique v (2 ^ k) 1 (v - 2 ^ k)); lia.
  - destruct H2 as (Hmb & Hlo & Hhi); [lia|]. set (mb := max_bits k f) in *.
    assert (0 < 2 ^ mb) by (apply pow2_pos; lia). assert (0 < 2 ^ (mb - 1)) by (apply pow2_pos; lia).
    assert (2 ^ mb = 2 * 2 ^ (mb - 1)) as Hmb2 by (rewrite <- Z.pow_succ_r by lia; f_equal; lia).
    destruct (Z.le_gt_cases (f * 2 ^ mb) v) as [Hge|Hlt].
    + replace (v + (mb * 2 ^ 16 - f * 2 ^ mb)) with (mb * 2 ^ 16 + (v - f * 2 ^ mb)) by lia.
      rewrite Z.div_add_l, (Z.div_small (v - _)), Z.add_0_r by lia. split; [lia|]. split; [|apply Hlog; lia].
      split; [by apply div_range|]. apply Z.div_lt_upper_bound; [lia|]. nia.
    + replace (v + (mb * 2 ^ 16 - f * 2 ^ mb)) with ((mb - 1) * 2 ^ 16 + (2 ^ 16 + v - f * 2 ^ mb)) by lia.
      rewrite Z.div_add_l, (Z.div_small (2 ^ 16 + _ - _)), Z.add_0_r by lia.
      split; [lia|]. split; [|apply Hlog; lia].
      split; [apply div_range; [lia|nia]|]. apply Z.div_lt_upper_bound; [lia|]. nia.
Qed.

(** A state as the encoder keeps it. *)
Definition cs_ok (ct : FSE_CTable) (st : FSE_CState_t) (v : Z) : Prop :=
  cs_value st = v /\ cs_stateTable st = ct_stateTable ct /\ cs_symbolTT st = ct_symbolTT ct /\
  cs_stateLog st = k /\ 2 ^ k <= v < 2 * 2 ^ k.

Lemma deltaNbBits_range s : 0 < freq norm s -> 0 <= deltaNbBits (tt_ref norm k s) < 2 ^ 20.
Proof.
  intros Hf. pose proof Hnorm as (Hk & _). pose proof (pow_k_bound norm k Hnorm) as Hb.
  pose proof (freq_range norm k Hnorm s) as Hfr. simpl. set (f := freq norm s) in *.
  destruct (max_bits_range norm k Hnorm f ltac:(lia)) as [H1 H2]. destruct (Z.eqb_spec f 1) as [E|Hne].
  - rewrite (H1 E). lia.
  - destruct H2 as (Hmb & Hlo & Hhi); [lia|]. assert (0 < 2 ^ max_bits k f) by (apply pow2_pos; lia). nia.
Qed.

Lemma symbolTT_get ct s :
  ctable_ok norm k syms ct -> 0 <= s < zlen norm -> 0 < freq norm s ->
  aget (ct_symbolTT ct) s = (Ok (tt_ref norm k s) : res FSE_symbolCompressionTransform).
Proof.
  intros (_ & _ & _ & _ & Htt) Hs Hf. apply aget_Ok. split; [lia|]. by apply Htt.
Qed.

Lemma encodeSymbol_spec ct c st v s V N a :
  ctable_ok norm k syms ct -> cs_ok ct st v -> 0 <= s < zlen norm -> 0 < freq norm s ->
  w_pend c V N a -> a + k + 7 < regBits ->
  exists c' v' nb, FSE_encodeSymbol c st s = Ok (c', cs_set_value st v') /\
    c_frame c c' /\ cs_ok ct (cs_set_value st v') v' /\ tans_step v s nb v' /\ 0 <= nb <= k /\
    w_pend c' (V + (v mod 2 ^ nb) * 2 ^ N) (N + nb) (a + nb).
Proof.
  intros Hct (<- & Hst & Htt & Hsl & Hv) Hs Hf Hw Ha. set (v := cs_value st) in *.
  pose proof Hnorm as (Hk & _). pose proof (pow_k_bound norm k Hnorm) as Hb.
  destruct (encode_bits v s Hv Hf) as (Hnb & Hx & Hlog). pose proof (deltaNbBits_range s Hf) as Hd.
  unfold FSE_encodeSymbol. rewrite Htt, (symbolTT_get ct s Hct Hs Hf). cbn [obind].
  fold v. set (nb := (v + deltaNbBits (tt_ref norm k s)) / 2 ^ 16) in *.
  assert (u32 (Z.shiftr (add_ptrdiff_u32 v (deltaNbBits (tt_ref norm k s))) 16) = nb) as ->.
  { unfold add_ptrdiff_u32. rewrite (wrap_small 32 (v + _)) by lia.
    replace (if MEM_64bits then _ else _) with (v + deltaNbBits (tt_ref norm k s)) by (by destruct MEM_64bits).
    rewrite Z.shiftr_div_pow2 by lia. fold nb. apply wrap_small. lia. }
  rewrite size_t_small by lia.
  destruct (pend_add c V N a v nb Hw) as (c' & -> & Hfr & Hw'); [lia|lia|]. cbn [obind].
  rewrite Z.shiftr_div_pow2 by lia. set (x := v / 2 ^ nb) in *.
  destruct (cell_of ct s x Hct Hs Hx) as (u & Hu & Hget & Hu'). rewrite Hst.
  change (deltaFindState (tt_ref norm k s)) with (cum norm s - freq norm s). rewrite Hget. cbn [obind].
  exists c', (2 ^ k + Z.of_nat u), nb. split; [done|]. split; [done|].
  split; [repeat split; try done; simpl; lia|]. split; [|done].
  exists u, (dcell k x s). split; [done|]. split; [done|]. simpl. rewrite Hlog.
  split; [done|]. split; [lia|]. replace (k - (k - nb)) with nb by lia.
  pose proof (Z.div_mod v (2 ^ nb) ltac:(apply Z.pow_nonzero; lia)). fold x in H. lia.
Qed.

(** The cheapest state of a symbol, for the first one encoded. *)
Lemma initCState2_spec ct s :
  ctable_ok norm k syms ct -> k <= 14 -> 0 <= s < zlen norm -> 0 < freq norm s ->
  exists st u, FSE_initCState2 ct s = Ok st /\ cs_ok ct st (2 ^ k + Z.of_nat u) /\
    dtable_ref norm k syms !! u = Some (dcell k (freq norm s) s).
Proof.
  intros Hct Hk14 Hs Hf. pose proof Hnorm as (Hk & _). pose proof (pow_k_bound norm k Hnorm) as Hb.
  assert (2 ^ k <= 2 ^ 14) by (apply Z.pow_le_mono_r; lia). pose proof Hct as (Hlog & _).
  unfold FSE_initCState2, FSE_initCState. cbn [cs_symbolTT cs_stateTable].
  rewrite (symbolTT_get ct s Hct Hs Hf). cbn [obind]. pose proof (deltaNbBits_range s Hf) as Hd.
  pose proof (freq_range norm k Hnorm s) as Hfr. set (f := freq norm s) in *.
  destruct (cell_of ct s f Hct Hs ltac:(fold f; lia)) as (u & Hu & Hget & Hu'). fold f in Hget.
  set (D := deltaNbBits (tt_ref norm k s)) in *.
  assert (exists nb, Z.shiftr (u32 (D + Z.shiftl 1 15)) 16 = nb /\ 0 <= nb <= k /\
    0 <= nb * 2 ^ 16 - D < 2 ^ 16 /\ Z.shiftr (nb * 2 ^ 16 - D) nb = f) as (nb & -> & Hnb & Hval & Hsh).
  { change (Z.shiftl 1 15) with (2 ^ 15). rewrite (wrap_small 32) by lia. rewrite Z.shiftr_div_pow2 by lia.
    destruct (max_bits_range norm k Hnorm f ltac:(lia)) as [H1 H2].
    unfold D, tt_ref; cbn [deltaNbBits]. fold f. destruct (Z.eqb_spec f 1) as [E|Hne].
    - rewrite (H1 E). exists k. replace (k * 2 ^ 16 - 2 ^ k + 2 ^ 15) with (k * 2 ^ 16 + (2 ^ 15 - 2 ^ k)) by lia.
      rewrite Z.div_add_l, Z.div_small by lia. split; [lia|]. split; [lia|]. split; [lia|].
      rewrite Z.shiftr_div_pow2 by lia. replace (k * 2 ^ 16 - (k * 2 ^ 16 - 2 ^ k)) with (2 ^ k) by lia.
      rewrite Z.div_same by lia. lia.
    - destruct H2 as (Hmb & Hlo & Hhi); [lia|]. set (mb := max_bits k f) in *.
      assert (0 < 2 ^ mb) by (apply pow2_pos; lia). exists mb.
      replace (mb * 2 ^ 16 - f * 2 ^ mb + 2 ^ 15) with (mb * 2 ^ 16 + (2 ^ 15 - f * 2 ^ mb)) by lia.
      rewrite Z.div_add_l, Z.div_small by lia. split; [lia|]. split; [lia|]. split; [lia|].
      rewrite Z.shiftr_div_pow2 by lia.
      replace (mb * 2 ^ 16 - (mb * 2 ^ 16 - f * 2 ^ mb)) with (f * 2 ^ mb) by lia. apply Z.div_mul. lia. }
  rewrite (Z.shiftl_mul_pow2 nb) by lia. rewrite !(wrap_small 32) by (rewrite ?wrap_small; lia).
  assert (ptrdiff_of_u32 (nb * 2 ^ 16 - D) = nb * 2 ^ 16 - D) as ->.
  { unfold ptrdiff_of_u32. rewrite sgn_small by lia. by destruct MEM_64bits. }
  rewrite Hsh. change (deltaFindState (tt_ref norm k s)) with (cum norm s - f). rewrite Hget. cbn [obind].
  eexists _, u. split; [reflexivity|]. split; [|done].
  unfold cs_ok; simpl. repeat split; try done; lia.
Qed.
End Inverse.

(** ** Decoding *)

Section Decode.
Context `{P : Platform}.

(** [FSE_GETSYMBOL] *)
Definition FSE_GETSYMBOL (fast : bool) (st : FSE_DState_t) (bitD : BIT_DStream_t)
  : res (Z * FSE_DState_t * BIT_DStream_t) :=
  if fast then FSE_decodeSymbolFast st bitD else FSE_decodeSymbol st bitD.

(** A table that decoding can run on: the cell of every state exists and leads
    back into the table. *)
Definition cell_ok (k : Z) (fast : bool) (c : FSE_decode_t) : Prop :=
  0 <= nbBits c <= k /\ 0 <= newState c /\ newState c + 2 ^ nbBits c <= 2 ^ k /\
  0 <= symbol c < 256 /\ (fast = true -> 1 <= nbBits c).

Definition dtable_ok (k : Z) (fast : bool) (table : list FSE_decode_t) : Prop :=
  0 <= k <= 15 /\ forall u, 0 <= u < 2 ^ k -> exists c, table !! Z.to_nat u = Some c /\ cell_ok k fast c.

Definition ds_ok (k : Z) (table : list FSE_decode_t) (st : FSE_DState_t) : Prop :=
  ds_table st = table /\ 0 <= ds_state st < 2 ^ k.

Lemma size_t_state k x : k <= 15 -> 0 <= x < 2 ^ k -> size_t x = x.
Proof.
  intros Hk Hx. apply size_t_small. assert (2 ^ k <= 2 ^ 15) by (apply Z.pow_le_mono_r; lia). lia.
Qed.

(** On any input the state stays in the table. *)
Lemma wp_getSymbol k fast table st d size (Q : Z * FSE_DState_t * BIT_DStream_t -> Prop) R :
  dtable_ok k fast table -> ds_ok k table st -> d_wf d size -> d_bitsConsumed d + k < 2 ^ 32 ->
  (forall c st' d', table !! Z.to_nat (ds_state st) = Some c -> cell_ok k fast c ->
     ds_ok k table st' -> d_wf d' size -> d_same_src d d' ->
     d_bitsConsumed d' = d_bitsConsumed d + nbBits c -> Q (symbol c, st', d')) ->
  wp (FSE_GETSYMBOL fast st d) Q R.
Proof.
  intros [Hk Ht] [Htab Hst] Hwf Hbc HQ. destruct (Ht _ Hst) as (c & Hc & Hok).
  pose proof Hok as (Hnb & Hns & Hsum & Hsym & Hfast).
  assert (aget (ds_table st) (ds_state st) = (Ok c : res FSE_decode_t)) as Hget
    by (apply aget_Ok; rewrite Htab; split; [lia|done]).
  assert (0 <= d_bitsConsumed d) by (destruct Hwf as (_ & _ & _ & _ & _ & ? & _); lia).
  assert (forall v d', 0 <= v < 2 ^ nbBits c -> d_wf d' size -> d_same_src d d' ->
     d_bitsConsumed d' = d_bitsConsumed d + nbBits c ->
     Q (symbol c, {| ds_state := size_t (newState c + v); ds_table := ds_table st |}, d')) as HQ'.
  { intros v d' Hv Hwf' Hsrc Hb. apply HQ; try done. split; [done|]. simpl.
    rewrite (size_t_state k) by lia. lia. }
  unfold FSE_GETSYMBOL, FSE_decodeSymbolFast, FSE_decodeSymbol.
  destruct fast; rewrite Hget; cbn [obind]; apply wp_bind.
  - apply (wp_readBitsFast d size); [done|specialize (Hfast eq_refl); lia|lia|]. intros; by apply HQ'.
  - apply (wp_readBits d size); [done|lia|lia|]. intros; by apply HQ'.
Qed.

(** With enough bits in the register, the bits read are the next of the stream. *)
Lemma getSymbol_val k fast table st d size X n c :
  dtable_ok k fast table -> ds_ok k table st -> d_wf d size -> d_holds d X n ->
  table !! Z.to_nat (ds_state st) = Some c -> nbBits c + d_bitsConsumed d <= regBits ->
  exists d', FSE_GETSYMBOL fast st d =
      Ok (symbol c, {| ds_state := newState c + (X / 2 ^ (n - nbBits c)) mod 2 ^ nbBits c;
                       ds_table := table |}, d') /\
    d_wf d' size /\ d_same_src d d' /\ d_holds d' X (n - nbBits c) /\
    d_bitsConsumed d' = d_bitsConsumed d + nbBits c.
Proof.
  intros [Hk Ht] [Htab Hst] Hwf Hh Hc Hlt. destruct (Ht _ Hst) as (c' & Hc' & Hok).
  assert (c' = c) as -> by congruence. destruct Hok as (Hnb & Hns & Hsum & Hsym & Hfast).
  destruct (readBits_spec d size X n (nbBits c) Hwf Hh) as (d' & Hrd & Hwf' & Hsrc & Hh' & Hb); [lia|lia|].
  exists d'. split; [|done].
  assert (aget (ds_table st) (ds_state st) = (Ok c : res FSE_decode_t)) as Hget
    by (apply aget_Ok; rewrite Htab; split; [lia|done]).
  pose proof (Z.mod_pos_bound (X / 2 ^ (n - nbBits c)) (2 ^ nbBits c) ltac:(apply pow2_pos; lia)).
  unfold FSE_GETSYMBOL, FSE_decodeSymbolFast, FSE_decodeSymbol.
  destruct fast; rewrite Hget; cbn [obind];
    rewrite ?(readBitsFast_val d size) by (done || specialize (Hfast eq_refl); lia);
    rewrite Hrd; cbn [obind]; rewrite (size_t_state k) by lia; by rewrite Htab.
Qed.
End Decode.

(** ** The cells of a symbol tile the table *)

Lemma interval_div k x y : 0 <= k -> 0 < y < 2 * 2 ^ k -> 0 <= k - Z.log2 y ->
  let c := dcell k y 0 in
  newState c <= x < newState c + 2 ^ nbBits c <-> (2 ^ k + x) / 2 ^ (k - Z.log2 y) = y.
Proof.
  intros Hk Hy Hnb. simpl. set (nb := k - Z.log2 y) in *. assert (0 < 2 ^ nb) by by apply pow2_pos.
  split.
  - intros Hx. symmetry. apply Z.div_unique with (2 ^ k + x - y * 2 ^ nb); lia.
  - intros E. pose proof (Z.div_mod (2 ^ k + x) (2 ^ nb) ltac:(lia)) as Hd.
    pose proof (Z.mod_pos_bound (2 ^ k + x) (2 ^ nb) ltac:(lia)). rewrite E in Hd. lia.
Qed.

Lemma sub_state_unique v f y y' k :
  0 <= k -> 0 < f -> f <= y < 2 * f -> f <= y' < 2 * f -> Z.log2 y <= k -> Z.log2 y' <= k ->
  v / 2 ^ (k - Z.log2 y) = y -> v / 2 ^ (k - Z.log2 y') = y' -> Z.log2 y <= Z.log2 y' -> y = y'.
Proof.
  intros Hk Hf Hy Hy' Hl Hl' E E' Hle. destruct (decide (Z.log2 y = Z.log2 y')) as [Eq|Hne].
  - rewrite Eq in E. congruence.
  - exfalso. set (d := Z.log2 y' - Z.log2 y) in *.
    assert (2 * y <= y'); [|lia]. rewrite <- E, <- E'.
    replace (k - Z.log2 y) with ((k - Z.log2 y') + d) by lia.
    rewrite Z.pow_add_r, <- Z.div_div by (lia || (try apply Z.pow_nonzero; try apply pow2_pos; lia)).
    set (q := v / 2 ^ (k - Z.log2 y')) in *. assert (2 ^ 1 <= 2 ^ d) by (apply Z.pow_le_mono_r; lia).
    pose proof (Z.mul_div_le q (2 ^ d) ltac:(lia)).
    assert (0 <= q / 2 ^ d) by (apply Z.div_pos; lia). nia.
Qed.

(** The table the builder returns, cell by cell. *)
Lemma dtable_ref_ok norm k syms storage :
  norm_ok norm k -> spread_ok norm k syms -> 2 ^ k <= zlen storage ->
  let table := splice storage 0 (dtable_ref norm k syms) in
  (forall u c, dtable_ref norm k syms !! u = Some c -> table !! u = Some c) /\
  dtable_ok k (fast_of k norm =? 1) table.
Proof.
  intros Hn Hsy Hst table.
  assert (forall u c, dtable_ref norm k syms !! u = Some c -> table !! u = Some c) as Hc.
  { intros u c Hu. unfold table, splice. simpl. by apply lookup_app_l_Some. }
  split; [done|]. split; [destruct Hn; lia|]. intros u Hu.
  destruct (lookup_lt_is_Some_2 (dtable_ref norm k syms) (Z.to_nat u)) as [c Hcu].
  { unfold dtable_ref. rewrite length_imap. destruct Hsy as [Hz _]. unfold zlen in Hz. lia. }
  exists c. split; [by apply Hc|].
  destruct (dtable_ref_wf norm k syms Hn Hsy _ c Hcu) as (H1 & H2 & H3 & H4 & H5).
  destruct Hn as (_ & Hl & _). split; [done|]. split; [done|]. split; [done|]. split; [lia|].
  intros Hf. apply H5, (fast_of_spec norm k). lia.
Qed.

Lemma sub_state_inj norm k syms u u' s :
  norm_ok norm k -> spread_ok norm k syms -> syms !! u = Some s -> syms !! u' = Some s ->
  sub_state norm syms u s = sub_state norm syms u' s -> u = u'.
Proof.
  intros Hn Hsy Hu Hu' E. unfold sub_state in E. destruct (Nat.lt_trichotomy u u') as [H|[H|H]]; [|done|].
  - pose proof (count_take_mono s syms u u' H Hu). lia.
  - pose proof (count_take_mono s syms u' u H Hu'). lia.
Qed.

Lemma dtable_ref_symbol norm k syms u c :
  norm_ok norm k -> spread_ok norm k syms -> dtable_ref norm k syms !! u = Some c ->
  syms !! u = Some (symbol c) /\ c = dcell k (sub_state norm syms u (symbol c)) (symbol c).
Proof.
  intros Hn Hsy. unfold dtable_ref. rewrite list_lookup_imap. destruct (syms !! u) as [s|]; [|done].
  simpl. intros [= <-]. done.
Qed.

Lemma dtable_ref_tiles norm k syms s x :
  norm_ok norm k -> spread_ok norm k syms -> 0 <= s < zlen norm -> 0 < freq norm s -> 0 <= x < 2 ^ k ->
  exists! u : nat, exists c, dtable_ref norm k syms !! u = Some c /\
    symbol c = s /\ newState c <= x < newState c + 2 ^ nbBits c.
Proof.
  intros Hn Hsy Hs Hf Hx. assert (0 <= k) by (destruct Hn; lia). pose proof (freq_range norm k Hn s).
  destruct (encode_bits norm k Hn (2 ^ k + x) s) as (Hnb & Hy & Hlog); [lia|done|].
  set (nb := (2 ^ k + x + deltaNbBits (tt_ref norm k s)) / 2 ^ 16) in *.
  set (y := (2 ^ k + x) / 2 ^ nb) in *.
  destruct (cell_at norm k syms Hn Hsy s y Hs Hy) as (u & Hu & Hcnt & Href & _).
  exists u. split.
  - exists (dcell k y s). split; [done|]. split; [done|].
    apply (interval_div k x y); [lia|lia|lia|]. rewrite Hlog. by replace (k - (k - nb)) with nb by lia.
  - intros u' (c & Hc & <- & Hr). destruct (dtable_ref_symbol norm k syms u' c Hn Hsy Hc) as [Hu' Hce].
    set (s := symbol c) in *. set (y' := sub_state norm syms u' s) in *.
    destruct (sub_state_range norm k syms Hn Hsy u' s Hu') as [Hy' _]. fold y' in Hy'.
    assert ((2 ^ k + x) / 2 ^ (k - Z.log2 y') = y') as E'.
    { destruct (log2_state norm k Hn y') as (Hl' & _); [lia|]. apply interval_div; [lia|lia|lia|].
      rewrite Hce in Hr. exact Hr. }
    assert ((2 ^ k + x) / 2 ^ (k - Z.log2 y) = y) as E
      by (rewrite Hlog; by replace (k - (k - nb)) with nb by lia).
    destruct (log2_state norm k Hn y') as (Hl' & _); [lia|]. destruct (log2_state norm k Hn y) as (Hl & _); [lia|].
    assert (y = y') as Eq.
    { destruct (Z.le_ge_cases (Z.log2 y) (Z.log2 y')).
      - apply (sub_state_unique (2 ^ k + x) (freq norm s) y y' k); lia || done.
      - symmetry. apply (sub_state_unique (2 ^ k + x) (freq norm s) y' y k); lia || done. }
    apply (sub_state_inj norm k syms u u' s); try done.
    fold y'. rewrite <- Eq. unfold sub_state. lia.
Qed.

(** C29: The decoding table is a numeration system.  Every cell leads to a range
    of states inside the table, and for each symbol that occurs and each state
    [x] there is exactly one cell of that symbol whose range contains [x]: that
    cell is the one the encoder goes to from [x], so every symbol can be coded
    from every state.  In a table built in fast mode every cell reads at least
    one bit. *)
Theorem FSE_buildDTable_tiles `{P : Platform} norm k counter dt wkD s x :
  norm_ok norm k -> k <= FSE_MAX_TABLELOG -> norm `prefix_of` counter ->
  2 ^ k <= zlen (dt_table dt) -> FSE_BUILD_DTABLE_WKSP_SIZE k (zlen norm - 1) <= zlen wkD ->
  0 <= s < zlen norm -> 0 < freq norm s -> 0 <= x < 2 ^ k ->
  exists dt', FSE_buildDTable_wksp dt counter (zlen norm - 1) k wkD = Ok dt' /\
    dt_tableLog dt' = k /\ zlen (dt_table dt') = zlen (dt_table dt) /\
    (forall u c, 0 <= u < 2 ^ k -> dt_table dt' !! Z.to_nat u = Some c ->
       cell_ok k (dt_fastMode dt' =? 1) c) /\
    exists! u, 0 <= u < 2 ^ k /\ exists c, dt_table dt' !! Z.to_nat u = Some c /\
      symbol c = s /\ newState c <= x < newState c + 2 ^ nbBits c.
Proof.
  intros Hn Hk Hpre Hdt HwD Hs Hf Hx.
  destruct (buildDTable_spec norm k counter Hn Hpre dt wkD) as (syms & Hsy & Hbd); [done..|].
  destruct (dtable_ref_ok norm k syms (dt_table dt) Hn Hsy Hdt) as [Hcells [_ Htab]].
  assert (zlen (dtable_ref norm k syms) = 2 ^ k) as Hz
    by (unfold dtable_ref, zlen; rewrite length_imap; apply Hsy).
  assert (forall u, 0 <= u < 2 ^ k -> splice (dt_table dt) 0 (dtable_ref norm k syms) !! Z.to_nat u =
    dtable_ref norm k syms !! Z.to_nat u) as Heq.
  { intros u Hu. unfold splice. simpl. apply lookup_app_l. unfold zlen in Hz. lia. }
  eexists. split; [exact Hbd|]. cbn [dt_tableLog dt_table dt_fastMode]. split; [done|].
  split; [apply zlen_splice; lia|]. split.
  - intros u c Hu Hc. destruct (Htab u Hu) as (c' & Hc' & Hok). congruence.
  - destruct (dtable_ref_tiles norm k syms s x Hn Hsy Hs Hf Hx) as (u & (c & Hc & Hr) & Huniq).
    assert (Z.of_nat u < 2 ^ k) by (apply lookup_lt_Some in Hc; unfold zlen in Hz; lia).
    exists (Z.of_nat u). split.
    + split; [lia|]. exists c. rewrite Heq, Nat2Z.id by lia. done.
    + intros u' (Hu' & c' & Hc' & Hr'). rewrite Heq in Hc' by done.
      rewrite (Huniq (Z.to_nat u')); [lia|]. by exists c'.
Qed.

Lemma FSE_buildDTable_tiles_witness :
  exists dt', FSE_buildDTable_wksp (P := be32_plain)
      {| dt_tableLog := 0; dt_fastMode := 0;
         dt_table := replicate 40 {| newState := 0; symbol := 0; nbBits := 0 |} |}
      [20; -1; 5; 6; 0] 3 5 (replicate 48 0) = Ok dt' /\
    exists! u, 0 <= u < 32 /\ exists c, dt_table dt' !! Z.to_nat u = Some c /\
      symbol c = 2 /\ newState c <= 17 < newState c + 2 ^ nbBits c.
Proof.
  destruct (FSE_buildDTable_tiles (P := be32_plain) [20; -1; 5; 6] 5 [20; -1; 5; 6; 0]
      {| dt_tableLog := 0; dt_fastMode := 0;
         dt_table := replicate 40 {| newState := 0; symbol := 0; nbBits := 0 |} |}
      (replicate 48 0) 2 17) as (dt' & Hb & _ & _ & _ & Hu).
  - unfold norm_ok. vm_compute. repeat split; try congruence. repeat constructor; congruence.
  - vm_compute. congruence.
  - by exists [0].
  - vm_compute. congruence.
  - vm_compute. congruence.
  - vm_compute. split; congruence.
  - vm_compute. reflexivity.
  - lia.
  - exists dt'. split; [exact Hb|]. exact Hu.
Defined.
