(* ===== verification/FseCodec.v ===== *)
(** * fse_compress.c, fse_decompress.c: coding a block with two states

    [FSE_compress_usingCTable_generic] codes a block of symbols backwards with
    two interleaved states; [FSE_decompress_usingDTable_generic] decodes it
    forwards, four symbols at a time while the bit stream lasts, and stops when
    a state needs more bits than the stream has. *)
From S2P Require Import Prelude Mem Errors Bits BitStream Fse FseSpread FseBuild FseState.

Section Definitions.
Context `{P : Platform}.

(** ** Decompression *)

(** [op], the states and the bit stream; the destination buffer. *)
Record dec_loop := {
  dl_dst : list Z; dl_op : Z;
  dl_state1 : FSE_DState_t; dl_state2 : FSE_DState_t; dl_bitD : BIT_DStream_t
}.

(** [op[i] = FSE_GETSYMBOL(&state1)], and the same for [state2]. *)
Definition get1 (fast : bool) (s : dec_loop) (i : Z) : res dec_loop :=
  let* (sym, st, bitD) := FSE_GETSYMBOL fast (dl_state1 s) (dl_bitD s) in
  let* dst := aset (dl_dst s) (dl_op s + i) sym in
  Ok {| dl_dst := dst; dl_op := dl_op s; dl_state1 := st; dl_state2 := dl_state2 s; dl_bitD := bitD |}.

Definition get2 (fast : bool) (s : dec_loop) (i : Z) : res dec_loop :=
  let* (sym, st, bitD) := FSE_GETSYMBOL fast (dl_state2 s) (dl_bitD s) in
  let* dst := aset (dl_dst s) (dl_op s + i) sym in
  Ok {| dl_dst := dst; dl_op := dl_op s; dl_state1 := dl_state1 s; dl_state2 := st; dl_bitD := bitD |}.

Definition dl_advance (s : dec_loop) (n : Z) : dec_loop :=
  {| dl_dst := dl_dst s; dl_op := dl_op s + n;
     dl_state1 := dl_state1 s; dl_state2 := dl_state2 s; dl_bitD := dl_bitD s |}.

Definition dl_reload (s : dec_loop) : res (BIT_DStream_status * dec_loop) :=
  let* (status, bitD) := BIT_reloadDStream (dl_bitD s) in
  Ok (status, {| dl_dst := dl_dst s; dl_op := dl_op s;
                 dl_state1 := dl_state1 s; dl_state2 := dl_state2 s; dl_bitD := bitD |}).

(** Four symbols per iteration; the condition reloads first. *)
Definition dec_four (fast : bool) (olimit : Z) (s : dec_loop) : res (dec_loop + dec_loop) :=
  let* (status, s) := dl_reload s in
  if negb (bool_decide (status = BIT_DStream_unfinished) && (dl_op s <? olimit)) then Ok (inr s)
  else
    let* s := get1 fast s 0 in
    let* s := if regBits <? FSE_MAX_TABLELOG * 2 + 7
              then let* (_, s) := dl_reload s in Ok s else Ok s in
    let* s := get2 fast s 1 in
    let* (stop, s) := if regBits <? FSE_MAX_TABLELOG * 4 + 7
                      then let* (status, s) := dl_reload s in
                           Ok (0 <? status_value status, s)
                      else Ok (false, s) in
    if stop : bool then Ok (inr (dl_advance s 2))
    else
      let* s := get1 fast s 2 in
      let* s := if regBits <? FSE_MAX_TABLELOG * 2 + 7
                then let* (_, s) := dl_reload s in Ok s else Ok s in
      let* s := get2 fast s 3 in
      Ok (inl (dl_advance s 4)).

(** One symbol at a time, until the stream overflows. *)
Definition dec_tail (fast : bool) (omax : Z) (s : dec_loop) : res (dec_loop + dec_loop) :=
  if omax - 2 <? dl_op s then Err ZSTD_error_dstSize_tooSmall
  else
    let* s := get1 fast s 0 in
    let s := dl_advance s 1 in
    let* (status, s) := dl_reload s in
    if bool_decide (status = BIT_DStream_overflow) then
      let* s := get2 fast s 0 in
      Ok (inr (dl_advance s 1))
    else if omax - 2 <? dl_op s then Err ZSTD_error_dstSize_tooSmall
    else
      let* s := get2 fast s 0 in
      let s := dl_advance s 1 in
      let* (status, s) := dl_reload s in
      if bool_decide (status = BIT_DStream_overflow) then
        let* s := get1 fast s 0 in
        Ok (inr (dl_advance s 1))
      else Ok (inl s).

(** The number of symbols and the buffer they were written to. *)
Definition FSE_decompress_usingDTable_generic (dst : list Z) (ostart maxDstSize : Z)
    (src : list Z) (cSrc cSrcSize : Z) (dt : FSE_DTable) (fast : bool) : res (Z * list Z) :=
  let omax := ostart + maxDstSize in
  let olimit := omax - 3 in
  let fuel := S (Z.to_nat maxDstSize) in
  let* bitD := BIT_initDStream src cSrc cSrcSize in
  let* (state1, bitD) := FSE_initDState bitD dt in
  let* (state2, bitD) := FSE_initDState bitD dt in
  let* (status, bitD) := BIT_reloadDStream bitD in
  reject_if (bool_decide (status = BIT_DStream_overflow)) ZSTD_error_corruption_detected ;;;
  let* s := loop fuel (dec_four fast olimit)
              {| dl_dst := dst; dl_op := ostart; dl_state1 := state1; dl_state2 := state2; dl_bitD := bitD |} in
  let* s := loop fuel (dec_tail fast omax) s in
  oassert (ostart <=? dl_op s) ;;;
  Ok (dl_op s - ostart, dl_dst s).

(** ** Compression *)

Definition FSE_BLOCKBOUND (size : Z) : Z := size + Z.shiftr size 7 + 4 + sizeof_size_t.
Definition FSE_COMPRESSBOUND (size : Z) : Z := 512 + FSE_BLOCKBOUND size.
Definition FSE_compressBound (size : Z) : Z := size_t (FSE_COMPRESSBOUND size).

Definition FSE_FLUSHBITS (fast : bool) (bitC : BIT_CStream_t) : res BIT_CStream_t :=
  if fast then BIT_flushBitsFast bitC else BIT_flushBits bitC.

Record enc_loop := {
  el_bitC : BIT_CStream_t; el_state1 : FSE_CState_t; el_state2 : FSE_CState_t; el_ip : Z
}.

(** [FSE_encodeSymbol(&bitC, &CState1, *--ip)], and the same for [CState2]. *)
Definition enc1 (src : list Z) (s : enc_loop) : res enc_loop :=
  let* sym := aget src (el_ip s - 1) in
  let* (bitC, st) := FSE_encodeSymbol (el_bitC s) (el_state1 s) sym in
  Ok {| el_bitC := bitC; el_state1 := st; el_state2 := el_state2 s; el_ip := el_ip s - 1 |}.

Definition enc2 (src : list Z) (s : enc_loop) : res enc_loop :=
  let* sym := aget src (el_ip s - 1) in
  let* (bitC, st) := FSE_encodeSymbol (el_bitC s) (el_state2 s) sym in
  Ok {| el_bitC := bitC; el_state1 := el_state1 s; el_state2 := st; el_ip := el_ip s - 1 |}.

Definition el_flush (fast : bool) (s : enc_loop) : res enc_loop :=
  let* bitC := FSE_FLUSHBITS fast (el_bitC s) in
  Ok {| el_bitC := bitC; el_state1 := el_state1 s; el_state2 := el_state2 s; el_ip := el_ip s |}.

(** Two or four symbols per iteration. *)
Definition enc_loop_body (src : list Z) (fast : bool) (s : enc_loop) : res (enc_loop + enc_loop) :=
  if negb (0 <? el_ip s) then Ok (inr s)
  else
    let* s := enc2 src s in
    let* s := if regBits <? FSE_MAX_TABLELOG * 2 + 7 then el_flush fast s else Ok s in
    let* s := enc1 src s in
    let* s := if FSE_MAX_TABLELOG * 4 + 7 <? regBits
              then let* s := enc2 src s in enc1 src s else Ok s in
    let* s := el_flush fast s in
    Ok (inl s).

(** The size of the bit stream written at [dst] in [mem] (0 if it does not
    fit), and the memory. *)
Definition FSE_compress_usingCTable_generic (mem : list Z) (dst dstSize : Z)
    (src : list Z) (srcSize : Z) (ct : FSE_CTable) (fast : bool) : res (Z * list Z) :=
  if srcSize <=? 2 then Ok (0, mem)
  else match BIT_initCStream mem dst dstSize with
  | Fault f => Fault f
  | Err _ => Ok (0, mem)
  | Ok bitC =>
      let* last := aget src (srcSize - 1) in
      let* prev := aget src (srcSize - 2) in
      let* stl := FSE_initCState2 ct last in
      let* stp := FSE_initCState2 ct prev in
      let* s :=
        if Z.testbit srcSize 0 then
          let* s := enc1 src {| el_bitC := bitC; el_state1 := stl; el_state2 := stp; el_ip := srcSize - 2 |} in
          el_flush fast s
        else Ok {| el_bitC := bitC; el_state1 := stp; el_state2 := stl; el_ip := srcSize - 2 |} in
      let* s :=
        if (FSE_MAX_TABLELOG * 4 + 7 <? regBits) && Z.testbit (srcSize - 2) 1 then
          let* s := enc2 src s in
          let* s := enc1 src s in
          el_flush fast s
        else Ok s in
      let* s := loop (S (Z.to_nat srcSize)) (enc_loop_body src fast) s in
      let* bitC := FSE_flushCState (el_bitC s) (el_state2 s) in
      let* bitC := FSE_flushCState bitC (el_state1 s) in
      let* (size, bitC) := BIT_closeCStream bitC in
      Ok (size, c_mem bitC)
  end.

Definition FSE_compress_usingCTable (mem : list Z) (dst dstSize : Z)
    (src : list Z) (srcSize : Z) (ct : FSE_CTable) : res (Z * list Z) :=
  let fast := FSE_BLOCKBOUND srcSize <=? dstSize in
  if fast then FSE_compress_usingCTable_generic mem dst dstSize src srcSize ct true
  else FSE_compress_usingCTable_generic mem dst dstSize src srcSize ct false.
End Definitions.

(** ** Decoding any input stays inside its buffers *)

Section Safety.
Context `{P : Platform} (k : Z) (fast : bool) (table : list FSE_decode_t) (size : Z).
Context (dst0 : list Z) (ostart maxDstSize : Z).
Hypothesis Hk : k <= FSE_MAX_TABLELOG.
Hypothesis Htable : dtable_ok k fast table.
Hypothesis Hbytes : bytes dst0.
Hypothesis Hstart : 0 <= ostart.
Hypothesis Hmax : 0 <= maxDstSize.
Hypothesis Hroom : ostart + maxDstSize <= zlen dst0.

(** The state of the loops: at most [B] bits consumed in the register, and only
    the [maxDstSize] bytes at [ostart] written. *)
Definition dl_inv (B op : Z) (s : dec_loop) : Prop :=
  ds_ok k table (dl_state1 s) /\ ds_ok k table (dl_state2 s) /\
  d_wf (dl_bitD s) size /\ d_bitsConsumed (dl_bitD s) <= B /\
  zlen (dl_dst s) = zlen dst0 /\ bytes (dl_dst s) /\ dl_op s = op /\
  (forall i, Z.of_nat i < ostart \/ ostart + maxDstSize <= Z.of_nat i -> dl_dst s !! i = dst0 !! i).

Lemma k_small : 0 <= k <= 12.
Proof. destruct Htable as [? _]. unfold FSE_MAX_TABLELOG, FSE_MAX_MEMORY_USAGE in Hk. lia. Qed.

Lemma wp_get1 B op s i (Q : dec_loop -> Prop) R :
  dl_inv B op s -> B <= 1000 -> ostart <= op + i < ostart + maxDstSize ->
  (forall s', dl_inv (B + k) op s' -> Q s') -> wp (get1 fast s i) Q R.
Proof.
  intros (H1 & H2 & Hwf & HB & Hz & Hb & <- & Hfr) HB' Hi HQ. pose proof k_small. unfold get1. apply wp_bind.
  apply (wp_getSymbol k fast table _ _ size); [done|done|done|lia|].
  intros c st' d' Hc (Hnb & _ & _ & Hsym & _) Hst' Hwf' _ Hbc. cbn beta iota. apply wp_bind, wp_aset; [lia|].
  apply HQ. unfold dl_inv; simpl. split; [done|]. split; [done|]. split; [done|]. split; [lia|].
  split; [by rewrite zlen_insert|]. split; [by apply bytes_insert|]. split; [done|].
  intros j Hj. rewrite list_lookup_insert_ne by lia. by apply Hfr.
Qed.

Lemma wp_get2 B op s i (Q : dec_loop -> Prop) R :
  dl_inv B op s -> B <= 1000 -> ostart <= op + i < ostart + maxDstSize ->
  (forall s', dl_inv (B + k) op s' -> Q s') -> wp (get2 fast s i) Q R.
Proof.
  intros (H1 & H2 & Hwf & HB & Hz & Hb & <- & Hfr) HB' Hi HQ. pose proof k_small. unfold get2. apply wp_bind.
  apply (wp_getSymbol k fast table _ _ size); [done|done|done|lia|].
  intros c st' d' Hc (Hnb & _ & _ & Hsym & _) Hst' Hwf' _ Hbc. cbn beta iota. apply wp_bind, wp_aset; [lia|].
  apply HQ. unfold dl_inv; simpl. split; [done|]. split; [done|]. split; [done|]. split; [lia|].
  split; [by rewrite zlen_insert|]. split; [by apply bytes_insert|]. split; [done|].
  intros j Hj. rewrite list_lookup_insert_ne by lia. by apply Hfr.
Qed.

(** A reload that reports overflow keeps the bits consumed, any other leaves at
    most a register's width. *)
Lemma wp_reload B op s (Q : BIT_DStream_status * dec_loop -> Prop) R :
  dl_inv B op s ->
  (forall st s', dl_inv (if bool_decide (st = BIT_DStream_overflow) then B else regBits) op s' -> Q (st, s')) ->
  wp (dl_reload s) Q R.
Proof.
  intros (H1 & H2 & Hwf & HB & Hz & Hb & Hop & Hfr) HQ. unfold dl_reload.
  destruct (reloadDStream_spec _ _ Hwf) as (st & d' & -> & Hwf' & _ & _ & Hov & Hrel). cbn [obind wp].
  apply HQ. unfold dl_inv; simpl. repeat (split; [done|]). split; [|done].
  case_bool_decide as Hst; [rewrite Hov by done; lia|]. by destruct (Hrel Hst).
Qed.

Lemma dl_inv_weaken B B' op s : dl_inv B op s -> B <= B' -> dl_inv B' op s.
Proof. intros (H1 & H2 & H3 & H4 & H5 & H6 & H7 & H8) HB. repeat (split; [done || lia|]). done. Qed.

Lemma dl_inv_advance B op s n : dl_inv B op s -> dl_inv B (op + n) (dl_advance s n).
Proof. intros (H1 & H2 & H3 & H4 & H5 & H6 & H7 & H8). repeat (split; [done || (simpl; lia)|]). done. Qed.

(** Between iterations. *)
Definition dl_at (B : Z) (s : dec_loop) : Prop :=
  ostart <= dl_op s <= ostart + maxDstSize /\ dl_inv B (dl_op s) s.

Lemma dl_at_intro B B' op s :
  dl_inv B op s -> B <= B' -> ostart <= op <= ostart + maxDstSize -> dl_at B' s.
Proof.
  intros Hi HB Hop. assert (dl_op s = op) as Ho by apply Hi. unfold dl_at. rewrite Ho.
  split; [done|]. by eapply dl_inv_weaken.
Qed.

Lemma dec_four_safe s :
  dl_at 150 s ->
  wp (dec_four fast (ostart + maxDstSize - 3) s) (fun r => match r with
    | inl s' => dl_at 150 s' /\ dl_op s < dl_op s'
    | inr s' => dl_at 150 s' end) (fun _ => True).
Proof.
  intros [Hop Hi]. set (op := dl_op s) in *. pose proof k_small. unfold dec_four. apply wp_bind.
  eapply wp_reload; [exact Hi|]. intros st s1 Hi1. destruct (bool_decide (st = BIT_DStream_unfinished)) eqn:Hun.
  2: { simpl. eapply dl_at_intro; [exact Hi1| |lia]. destruct (bool_decide (st = BIT_DStream_overflow)), regBits_cases; lia. }
  apply bool_decide_eq_true in Hun as ->. rewrite bool_decide_eq_false_2 in Hi1 by done.
  assert (dl_op s1 = op) as Ho1 by apply Hi1. rewrite Ho1. cbn [andb].
  assert (Hreg : regBits <= 64) by (destruct regBits_cases; lia).
  destruct (Z.ltb_spec op (ostart + maxDstSize - 3)); cbn [negb]; [|simpl; eapply dl_at_intro; [exact Hi1|lia|lia]].
  change (FSE_MAX_TABLELOG * 2 + 7) with 31. change (FSE_MAX_TABLELOG * 4 + 7) with 55.
  rewrite (proj2 (Z.ltb_ge regBits 31)) by (destruct regBits_cases; lia).
  apply wp_bind. eapply wp_get1; [exact Hi1|lia|lia|]. intros s2 Hi2. cbn [obind].
  apply wp_bind. eapply wp_get2; [exact Hi2|lia|lia|]. intros s3 Hi3.
  apply wp_bind, (wp_mono _ (fun r => dl_inv 100 op r.2) _ (fun _ => True)); [| |done].
  { destruct (regBits <? 55); [|simpl; eapply dl_inv_weaken; [exact Hi3|lia]].
    apply wp_bind. eapply wp_reload; [exact Hi3|]. intros st4 s4 Hi4. simpl.
    eapply dl_inv_weaken; [exact Hi4|]. case_bool_decide; lia. }
  intros [stop s4] Hi4. cbn [snd] in Hi4. destruct stop.
  { simpl. eapply dl_at_intro; [apply dl_inv_advance; exact Hi4|lia|lia]. }
  apply wp_bind. eapply wp_get1; [exact Hi4|lia|lia|]. intros s5 Hi5. cbn [obind].
  apply wp_bind. eapply wp_get2; [exact Hi5|lia|lia|]. intros s6 Hi6. simpl.
  split; [eapply dl_at_intro; [apply dl_inv_advance; exact Hi6|lia|lia]|].
  destruct Hi6 as (_ & _ & _ & _ & _ & _ & -> & _). lia.
Qed.

Lemma dec_tail_safe s :
  dl_at 150 s ->
  wp (dec_tail fast (ostart + maxDstSize) s) (fun r => match r with
    | inl s' => dl_at 150 s' /\ dl_op s < dl_op s'
    | inr s' => dl_at 200 s' end) (fun _ => True).
Proof.
  intros [Hop Hi]. set (op := dl_op s) in *. pose proof k_small. unfold dec_tail. fold op.
  assert (Hreg : regBits <= 64) by (destruct regBits_cases; lia).
  destruct (Z.ltb_spec (ostart + maxDstSize - 2) op); [done|].
  apply wp_bind. eapply wp_get1; [exact Hi|lia|lia|]. intros s1 Hi1. apply wp_bind.
  eapply wp_reload; [apply dl_inv_advance; exact Hi1|]. intros st s2 Hi2. case_bool_decide.
  { apply wp_bind. eapply wp_get2; [exact Hi2|lia|lia|]. intros s3 Hi3. simpl.
    eapply dl_at_intro; [apply dl_inv_advance; exact Hi3|lia|lia]. }
  assert (dl_op s2 = op + 1) as Ho2 by apply Hi2. rewrite Ho2.
  destruct (Z.ltb_spec (ostart + maxDstSize - 2) (op + 1)); [done|].
  apply wp_bind. eapply wp_get2; [exact Hi2|lia|lia|]. intros s3 Hi3. apply wp_bind.
  eapply wp_reload; [apply dl_inv_advance; exact Hi3|]. intros st4 s4 Hi4. case_bool_decide.
  { apply wp_bind. eapply wp_get1; [exact Hi4|lia|lia|]. intros s5 Hi5. simpl.
    eapply dl_at_intro; [apply dl_inv_advance; exact Hi5|lia|lia]. }
  simpl. split; [eapply dl_at_intro; [exact Hi4|lia|lia]|].
  destruct Hi4 as (_ & _ & _ & _ & _ & _ & -> & _). lia.
Qed.

Lemma wp_initDState dt d B (Q : FSE_DState_t * BIT_DStream_t -> Prop) R :
  dt_tableLog dt = k -> dt_table dt = table -> d_wf d size -> d_bitsConsumed d <= B <= 1000 ->
  (forall st d', ds_ok k table st -> d_wf d' size -> d_bitsConsumed d' <= Z.max regBits (B + k) -> Q (st, d')) ->
  wp (FSE_initDState d dt) Q R.
Proof.
  intros Hlog Htab Hwf HB HQ. pose proof k_small. unfold FSE_initDState. rewrite Hlog, Htab. apply wp_bind.
  apply (wp_readBits d size); [done|lia|lia|]. intros v d1 Hv Hwf1 _ Hb1.
  destruct (reloadDStream_spec _ _ Hwf1) as (st & d' & Hre & Hwf' & _ & _ & Hov & Hrel).
  cbn beta iota. rewrite Hre. cbn [obind wp]. apply HQ; [done|done|].
  destruct (decide (st = BIT_DStream_overflow)) as [Hst|Hst]; [rewrite Hov by done; lia|].
  destruct (Hrel Hst). lia.
Qed.

Definition frame_dst (dst : list Z) : Prop :=
  zlen dst = zlen dst0 /\ bytes dst /\
  forall i, Z.of_nat i < ostart \/ ostart + maxDstSize <= Z.of_nat i -> dst !! i = dst0 !! i.

Lemma decompress_generic_safe dt src cSrc :
  dt_tableLog dt = k -> dt_table dt = table ->
  bytes src -> 0 <= cSrc -> cSrc + size <= zlen src ->
  safe (FSE_decompress_usingDTable_generic dst0 ostart maxDstSize src cSrc size dt fast)
    (fun r => 0 <= r.1 <= maxDstSize /\ frame_dst r.2).
Proof.
  intros Hlog Htab Hb Hs Hl. pose proof k_small. unfold FSE_decompress_usingDTable_generic.
  assert (Hreg : regBits <= 64) by (destruct regBits_cases; lia).
  apply wp_bind. apply (wp_initDStream src cSrc size); try done. intros d Hwf Hbc.
  apply wp_bind. eapply (wp_initDState dt d 64); [done|done|done|lia|]. intros st1 d1 Hst1 Hwf1 Hb1.
  cbn beta iota. apply wp_bind. eapply (wp_initDState dt d1 80); [done|done|done|lia|].
  intros st2 d2 Hst2 Hwf2 Hb2. cbn beta iota. apply wp_bind.
  destruct (reloadDStream_spec _ _ Hwf2) as (st & d3 & -> & Hwf3 & _ & _ & Hov & Hrel). cbn [wp].
  apply wp_bind, wp_reject_if; [done|]. intros Hst.
  assert (d_bitsConsumed d3 <= 150) as Hb3.
  { destruct (decide (st = BIT_DStream_overflow)) as [E|E]; [rewrite Hov by done; lia|].
    destruct (Hrel E). lia. }
  apply wp_bind. eapply wp_mono; [apply (wp_loop (dl_at 150) (fun s => ostart + maxDstSize - dl_op s) (dl_at 150))| |].
  - split; [simpl; lia|]. repeat (split; [done|]). done.
  - simpl. lia.
  - intros s [Hop _]. lia.
  - intros s Hs'. eapply wp_mono; [by apply dec_four_safe| |done]. intros [s'|s'] Hr; [|done].
    destruct Hr as [? ?]. split; [done|lia].
  - intros s Hat. apply wp_bind.
    eapply wp_mono; [apply (wp_loop (dl_at 150) (fun s => ostart + maxDstSize - dl_op s) (dl_at 200))| |].
    + done.
    + destruct Hat. lia.
    + intros s' [Hop _]. lia.
    + intros s' Hs'. eapply wp_mono; [by apply dec_tail_safe| |done]. intros [s''|s''] Hr; [|done].
      destruct Hr as [? ?]. split; [done|lia].
    + intros s' [Hop Hi]. apply wp_bind, wp_assert; [lia|]. simpl. split; [lia|].
      destruct Hi as (_ & _ & _ & _ & Hz & Hby & _ & Hfr). done.
    + done.
  - done.
Qed.
End Safety.

(** ** Round trip *)

(** What two interleaved decoding states produce: [decodes v1 v2 V N out] says
    that from the states [v1] (the next one used) and [v2] and the [N] bits [V]
    the symbols [out] come out, the last two from the states alone. *)
Inductive decodes (norm : list Z) (k : Z) (syms : list Z) : Z -> Z -> Z -> Z -> list Z -> Prop :=
| decodes_two u1 u2 s1 s2 :
    dtable_ref norm k syms !! u1 = Some (dcell k (freq norm s1) s1) ->
    dtable_ref norm k syms !! u2 = Some (dcell k (freq norm s2) s2) ->
    0 < freq norm s1 ->
    decodes norm k syms (2 ^ k + Z.of_nat u1) (2 ^ k + Z.of_nat u2) 0 0 [s1; s2]
| decodes_cons v1 v2 V N out s nb v' :
    tans_step norm k syms v2 s nb v' -> 0 <= nb <= k ->
    decodes norm k syms v1 v2 V N out ->
    decodes norm k syms v' v1 (V + (v2 mod 2 ^ nb) * 2 ^ N) (N + nb) (s :: out).

Section Encode.
Context `{P : Platform} (norm : list Z) (k : Z) (syms : list Z) (ct : FSE_CTable) (src : list Z).
Context (c0 : BIT_CStream_t) (fast : bool).
Hypothesis Hnorm : norm_ok norm k.
Hypothesis Hsyms : spread_ok norm k syms.
Hypothesis Hct : ctable_ok norm k syms ct.
Hypothesis Hk : k <= FSE_MAX_TABLELOG.
Hypothesis Hsrc : Forall (fun s => 0 <= s < zlen norm /\ 0 < freq norm s) src.
(** The unchecked flushes need room for [k] bits per symbol. *)
Hypothesis Hfast : fast = true -> c_startPtr c0 + (k * zlen src) / 8 <= c_endPtr c0.

(** [ip] symbols are left, [a] bits are not flushed yet. *)
Definition el_inv (a : Z) (s : enc_loop) : Prop :=
  exists v1 v2 V N, cs_ok k ct (el_state1 s) v1 /\ cs_ok k ct (el_state2 s) v2 /\
    w_pend (el_bitC s) V N a /\ c_frame c0 (el_bitC s) /\ 0 <= el_ip s <= zlen src /\
    N <= k * (zlen src - el_ip s) /\
    decodes norm k syms v1 v2 V N (drop (Z.to_nat (el_ip s)) src).

(** The same after an odd number of symbols, [state2] being the last used. *)
Definition el_inv' (a : Z) (s : enc_loop) : Prop :=
  exists v1 v2 V N, cs_ok k ct (el_state1 s) v1 /\ cs_ok k ct (el_state2 s) v2 /\
    w_pend (el_bitC s) V N a /\ c_frame c0 (el_bitC s) /\ 0 <= el_ip s <= zlen src /\
    N <= k * (zlen src - el_ip s) /\
    decodes norm k syms v2 v1 V N (drop (Z.to_nat (el_ip s)) src).

Lemma k_enc : 5 <= k <= 12.
Proof. destruct Hnorm. unfold FSE_MAX_TABLELOG, FSE_MAX_MEMORY_USAGE in Hk. lia. Qed.

Lemma src_symbol i : 0 <= i < zlen src ->
  exists s, aget src i = (Ok s : res Z) /\ 0 <= s < zlen norm /\ 0 < freq norm s /\
    drop (Z.to_nat i) src = s :: drop (Z.to_nat (i + 1)) src.
Proof.
  intros Hi. destruct (lookup_lt_is_Some_2 src (Z.to_nat i)) as [s Hs]; [unfold zlen in *; lia|].
  exists s. split; [apply aget_Ok; split; [lia|done]|].
  destruct (proj1 (Forall_lookup _ _) Hsrc _ _ Hs) as [H1 H2]. split; [done|]. split; [done|].
  replace (Z.to_nat (i + 1)) with (S (Z.to_nat i)) by lia. by apply drop_S.
Qed.

Lemma enc2_spec a s :
  el_inv a s -> a + k + 7 < regBits -> 1 <= el_ip s ->
  exists s' nb, enc2 src s = Ok s' /\ 0 <= nb <= k /\ el_ip s' = el_ip s - 1 /\ el_inv' (a + nb) s'.
Proof.
  intros (v1 & v2 & V & N & H1 & H2 & Hw & Hfr & Hip & HN & Hdec) Ha Hip1. pose proof k_enc.
  destruct (src_symbol (el_ip s - 1)) as (sy & Hget & Hsy & Hf & Hdrop); [lia|].
  unfold enc2. rewrite Hget. cbn [obind].
  destruct (encodeSymbol_spec norm k syms Hnorm Hsyms ct _ _ v2 sy V N a Hct H2 Hsy Hf Hw Ha)
    as (c' & v' & nb & -> & Hfr' & Hcs & Hst & Hnb & Hw').
  cbn [obind]. eexists _, nb. split; [reflexivity|]. split; [done|]. split; [done|].
  exists v1, v', (V + v2 mod 2 ^ nb * 2 ^ N), (N + nb). simpl. split; [done|]. split; [done|].
  split; [done|]. split; [by eapply c_frame_trans|]. split; [lia|]. split; [nia|].
  rewrite Hdrop. replace (el_ip s - 1 + 1) with (el_ip s) by lia. by apply decodes_cons.
Qed.

Lemma enc1_spec a s :
  el_inv' a s -> a + k + 7 < regBits -> 1 <= el_ip s ->
  exists s' nb, enc1 src s = Ok s' /\ 0 <= nb <= k /\ el_ip s' = el_ip s - 1 /\ el_inv (a + nb) s'.
Proof.
  intros (v1 & v2 & V & N & H1 & H2 & Hw & Hfr & Hip & HN & Hdec) Ha Hip1. pose proof k_enc.
  destruct (src_symbol (el_ip s - 1)) as (sy & Hget & Hsy & Hf & Hdrop); [lia|].
  unfold enc1. rewrite Hget. cbn [obind].
  destruct (encodeSymbol_spec norm k syms Hnorm Hsyms ct _ _ v1 sy V N a Hct H1 Hsy Hf Hw Ha)
    as (c' & v' & nb & -> & Hfr' & Hcs & Hst & Hnb & Hw').
  cbn [obind]. eexists _, nb. split; [reflexivity|]. split; [done|]. split; [done|].
  exists v', v2, (V + v1 mod 2 ^ nb * 2 ^ N), (N + nb). simpl. split; [done|]. split; [done|].
  split; [done|]. split; [by eapply c_frame_trans|]. split; [lia|]. split; [nia|].
  rewrite Hdrop. replace (el_ip s - 1 + 1) with (el_ip s) by lia. by apply decodes_cons.
Qed.

Lemma flush_spec a s :
  el_inv a s -> exists s', el_flush fast s = Ok s' /\ el_ip s' = el_ip s /\ el_inv 0 s'.
Proof.
  intros (v1 & v2 & V & N & H1 & H2 & Hw & Hfr & Hip & HN & Hdec). pose proof k_enc.
  destruct (pend_flush _ _ _ _ Hw) as (c' & Hc' & Hfr' & Hw'). unfold el_flush, FSE_FLUSHBITS.
  assert ((if fast then BIT_flushBitsFast (el_bitC s) else BIT_flushBits (el_bitC s)) = Ok c') as ->.
  { destruct fast; [|done]. rewrite (pend_flushFast _ _ _ _ Hw); [done|].
    destruct Hfr as (-> & -> & _). specialize (Hfast eq_refl).
    assert (N / 8 <= k * zlen src / 8); [|lia]. apply Z.div_le_mono; nia. }
  cbn [obind]. eexists; split; [reflexivity|]. split; [done|]. exists v1, v2, V, N. simpl.
  split; [done|]. split; [done|]. split; [by apply w_state_pend|]. split; [by eapply c_frame_trans|]. done.
Qed.

(** Two symbols and, where the register is wide enough, four. *)
Lemma pair_spec a s :
  el_inv a s -> a + 2 * k + 7 < regBits -> 2 <= el_ip s ->
  exists s' nb, (let* s := enc2 src s in enc1 src s) = Ok s' /\ 0 <= nb <= 2 * k /\
    el_ip s' = el_ip s - 2 /\ el_inv (a + nb) s'.
Proof.
  intros Hi Ha Hip. pose proof k_enc.
  destruct (enc2_spec a s Hi) as (s1 & n1 & -> & Hn1 & Hip1 & Hi1); [lia|lia|]. cbn [obind].
  destruct (enc1_spec _ s1 Hi1) as (s2 & n2 & -> & Hn2 & Hip2 & Hi2); [lia|lia|].
  exists s2, (n1 + n2). split; [done|]. split; [lia|]. split; [lia|].
  by replace (a + (n1 + n2)) with (a + n1 + n2) by lia.
Qed.

(** The symbols one iteration takes. *)
Definition group : Z := if 55 <? regBits then 4 else 2.

Lemma body_spec s :
  el_inv 0 s -> 0 < el_ip s -> el_ip s mod group = 0 ->
  exists s', enc_loop_body src fast s = Ok (inl s') /\ el_inv 0 s' /\ el_ip s' = el_ip s - group.
Proof.
  intros Hi Hip Hg. pose proof k_enc. unfold enc_loop_body. rewrite (proj2 (Z.ltb_lt 0 _)) by lia. cbn [negb].
  change (FSE_MAX_TABLELOG * 2 + 7) with 31. change (FSE_MAX_TABLELOG * 4 + 7) with 55.
  rewrite (proj2 (Z.ltb_ge regBits 31)) by (destruct regBits_cases; lia).
  assert (group <= el_ip s) as Hge.
  { apply Z.mod_divide in Hg as [q Hq]; [unfold group in *; zcases; nia|]. unfold group. by zcases. }
  destruct (pair_spec 0 s Hi) as (s1 & n1 & Hp1 & Hn1 & Hip1 & Hi1);
    [destruct regBits_cases; lia|assert (2 <= group) by (unfold group; zcases; lia); lia|].
  apply bind_Ok in Hp1 as (s01 & -> & Hp1). cbn [obind]. rewrite Hp1. cbn [obind].
  unfold group in *. destruct (Z.ltb_spec 55 regBits).
  - destruct (pair_spec _ s1 Hi1) as (s2 & n2 & Hp2 & Hn2 & Hip2 & Hi2); [destruct regBits_cases; lia|lia|].
    rewrite Hp2. cbn [obind]. destruct (flush_spec _ _ Hi2) as (s3 & -> & Hip3 & Hi3).
    exists s3. split; [done|]. split; [done|]. lia.
  - cbn [obind]. destruct (flush_spec _ _ Hi1) as (s3 & -> & Hip3 & Hi3).
    exists s3. split; [done|]. split; [done|]. lia.
Qed.

Lemma loop_spec fuel : forall s,
  el_inv 0 s -> el_ip s mod group = 0 -> el_ip s < Z.of_nat fuel ->
  exists s', loop fuel (enc_loop_body src fast) s = Ok s' /\ el_inv 0 s' /\ el_ip s' = 0.
Proof.
  induction fuel as [|fuel IH]; intros s Hi Hg Hf.
  - destruct Hi as (? & ? & ? & ? & ? & ? & ? & ? & ? & _). lia.
  - cbn [loop]. assert (0 <= el_ip s) by (destruct Hi as (? & ? & ? & ? & ? & ? & ? & ? & ? & _); lia).
    assert (2 <= group) by (unfold group; zcases; lia).
    destruct (decide (el_ip s = 0)) as [E|Hne].
    + unfold enc_loop_body at 1. rewrite E. simpl. by exists s.
    + destruct (body_spec s Hi) as (s1 & -> & Hi1 & Hip1); [lia|done|]. cbn [obind]. apply IH; [done| |lia].
      rewrite Hip1, Zminus_mod, Hg, Z_mod_same_full. done.
Qed.

(** The finished stream: the bits of the symbols, the two states, the end mark. *)
Definition stream_val (v1 v2 V N : Z) : Z :=
  V + (v2 - 2 ^ k) * 2 ^ N + (v1 - 2 ^ k) * 2 ^ (N + k) + 2 ^ (N + k + k).

Lemma flushState_spec c st v V N :
  cs_ok k ct st v -> w_state c V N ->
  exists c', FSE_flushCState c st = Ok c' /\ c_frame c c' /\ w_state c' (V + (v - 2 ^ k) * 2 ^ N) (N + k).
Proof.
  intros (Hv & _ & _ & Hl & Hr) Hw. pose proof k_enc. unfold FSE_flushCState. rewrite Hv, Hl.
  assert (2 ^ k <= 2 ^ 12) by (apply Z.pow_le_mono_r; lia). rewrite size_t_small by lia.
  destruct (write_field c V N v k Hw) as (c1 & c' & -> & Hc' & Hw' & Hfr).
  { split; simpl; [lia|]. destruct regBits_cases; lia. }
  cbn [obind]. exists c'. split; [done|]. split; [done|].
  assert (v mod 2 ^ k = v - 2 ^ k) as E; [|by rewrite E in Hw'].
  symmetry. apply Z.mod_unique_pos with 1; lia.
Qed.

Lemma finish_spec s :
  el_inv 0 s -> el_ip s = 0 ->
  exists size c v1 v2 V N,
    (let* bitC := FSE_flushCState (el_bitC s) (el_state2 s) in
     let* bitC := FSE_flushCState bitC (el_state1 s) in
     BIT_closeCStream bitC) = Ok (size, c) /\
    c_frame c0 c /\ bytes (c_mem c) /\ decodes norm k syms v1 v2 V N src /\
    2 ^ k <= v1 < 2 * 2 ^ k /\ 2 ^ k <= v2 < 2 * 2 ^ k /\ 0 <= N /\
    (size = 0 \/ size = (N + k + k) / 8 + 1 /\ c_startPtr c0 + size <= c_endPtr c0 + sizeof_size_t /\
       le_val (slice (c_mem c) (c_startPtr c0) size) = stream_val v1 v2 V N).
Proof.
  intros (v1 & v2 & V & N & H1 & H2 & Hw & Hfr & _ & HN & Hdec) Hip. rewrite Hip in Hdec.
  pose proof k_enc. assert (0 <= N) by (destruct Hw as (_ & ? & _); lia). apply w_state_pend in Hw.
  destruct (flushState_spec _ _ v2 V N H2 Hw) as (c1 & -> & Hfr1 & Hw1). cbn [obind].
  destruct (flushState_spec _ _ v1 _ _ H1 Hw1) as (c2 & -> & Hfr2 & Hw2). cbn [obind].
  pose proof (c_frame_trans _ _ _ Hfr (c_frame_trans _ _ _ Hfr1 Hfr2)) as Hfr02.
  destruct Hw2 as (Hwf & HN2 & Hbp & Hptr & Hh). pose proof (Z.mod_pos_bound (N + k + k) 8 ltac:(lia)).
  assert (0 <= (c_bitPos c2 + 1) / 8) by (apply Z.div_pos; lia).
  edestruct (closeCStream_spec c2) as (size & c & -> & Hwf' & Hfr' & Hz & Hok).
  { done. } { destruct regBits_cases; lia. } { intros Hlt. apply Hh. lia. }
  pose proof (c_frame_trans _ _ _ Hfr02 Hfr') as Hfr03. pose proof Hfr02 as (Hst & Hen & _ & _).
  exists size, c, v1, v2, V, N. split; [done|]. split; [done|]. split; [apply Hwf'|]. split; [done|].
  split; [apply H1|]. split; [apply H2|]. split; [done|]. rewrite Hst, Hen in *.
  destruct (Z.lt_ge_cases (c_ptr c2 + (c_bitPos c2 + 1) / 8) (c_endPtr c0)) as [Hlt|Hge]; [right|left; by apply Hz].
  destruct (Hok Hlt) as (-> & Hsz & Himg). split; [done|]. split; [done|]. rewrite Himg.
  unfold stream_val. done.
Qed.

Lemma testbit0 n : Z.testbit n 0 = negb (n mod 2 =? 0).
Proof. rewrite Z.bit0_odd, Zodd_mod. pose proof (Z.mod_pos_bound n 2 ltac:(lia)). zcases; simpl; lia. Qed.

Lemma testbit1 n r : 0 <= n -> n mod 2 = 0 -> 0 <= r <= 1 -> Z.testbit (n + r) 1 = negb (n mod 4 =? 0).
Proof.
  intros Hn He Hr. rewrite Z.testbit_eqb by lia. change (2 ^ 1) with 2. change 4 with (2 * 2).
  rewrite Z.rem_mul_r, He by lia. pose proof (Z.div_mod n 2 ltac:(lia)).
  assert ((n + r) / 2 = n / 2) as ->.
  { symmetry. apply Z.div_unique with r; lia. }
  pose proof (Z.mod_pos_bound (n / 2) 2 ltac:(lia)). zcases; simpl; lia.
Qed.

(** The first symbols: the last two give the states; an odd one is coded, so
    that an even number is left. *)
Lemma parity_spec stl stp ul up sl sp :
  3 <= zlen src -> w_state c0 0 0 -> drop (Z.to_nat (zlen src - 2)) src = [sp; sl] ->
  0 < freq norm sp ->
  cs_ok k ct stl (2 ^ k + Z.of_nat ul) -> dtable_ref norm k syms !! ul = Some (dcell k (freq norm sl) sl) ->
  cs_ok k ct stp (2 ^ k + Z.of_nat up) -> dtable_ref norm k syms !! up = Some (dcell k (freq norm sp) sp) ->
  exists s1 n1, (if Z.testbit (zlen src) 0 then
        let* s := enc1 src {| el_bitC := c0; el_state1 := stl; el_state2 := stp; el_ip := zlen src - 2 |} in
        el_flush fast s
      else Ok {| el_bitC := c0; el_state1 := stp; el_state2 := stl; el_ip := zlen src - 2 |}) = Ok s1 /\
    el_inv 0 s1 /\ el_ip s1 = zlen src - 2 - n1 /\ 0 <= n1 <= 1 /\ (el_ip s1) mod 2 = 0.
Proof.
  intros Hlen Hw Hd2 Hf Hcl Hrl Hcp Hrp. pose proof k_enc. assert (c_frame c0 c0) as Hfr0 by done.
  rewrite testbit0. destruct (Z.eqb_spec (zlen src mod 2) 0) as [He|Ho]; cbn [negb].
  - eexists _, 0. split; [reflexivity|]. simpl. split.
    + exists (2 ^ k + Z.of_nat up), (2 ^ k + Z.of_nat ul), 0, 0. simpl. split; [done|]. split; [done|].
      split; [by apply w_state_pend|]. split; [done|]. split; [lia|]. split; [nia|]. rewrite Hd2.
      by apply decodes_two.
    + split; [lia|]. split; [lia|]. rewrite Zminus_mod, He. done.
  - destruct (enc1_spec 0 {| el_bitC := c0; el_state1 := stl; el_state2 := stp; el_ip := zlen src - 2 |})
      as (s1 & n1 & -> & Hn1 & Hip1 & Hi1).
    + exists (2 ^ k + Z.of_nat ul), (2 ^ k + Z.of_nat up), 0, 0. simpl. split; [done|]. split; [done|].
      split; [by apply w_state_pend|]. split; [done|]. split; [lia|]. split; [nia|]. rewrite Hd2.
      by apply decodes_two.
    + destruct regBits_cases; lia.
    + simpl. lia.
    + cbn [obind]. destruct (flush_spec _ _ Hi1) as (s2 & -> & Hip2 & Hi2). exists s2, 1.
      simpl in Hip1. split; [done|]. split; [done|]. split; [lia|]. split; [lia|].
      pose proof (Z.mod_pos_bound (zlen src) 2 ltac:(lia)). rewrite Hip2, Hip1, <- Z.sub_add_distr, Zminus_mod.
      assert (zlen src mod 2 = 1) as -> by lia. done.
Qed.

(** Where four symbols are taken at a time, two more may be coded first. *)
Lemma join_spec s1 n1 :
  el_inv 0 s1 -> el_ip s1 = zlen src - 2 - n1 -> 0 <= n1 <= 1 -> (el_ip s1) mod 2 = 0 -> 0 <= el_ip s1 ->
  exists s, (if (55 <? regBits) && Z.testbit (zlen src - 2) 1 then
        let* s := enc2 src s1 in let* s := enc1 src s in el_flush fast s
      else Ok s1) = Ok s /\
    el_inv 0 s /\ el_ip s mod group = 0 /\ el_ip s < zlen src.
Proof.
  intros Hi1 Hip1 Hn1 Hev Hpos. pose proof k_enc.
  assert (Z.testbit (zlen src - 2) 1 = negb (el_ip s1 mod 4 =? 0)) as ->.
  { rewrite <- (testbit1 _ n1) by lia. f_equal. lia. }
  unfold group. destruct (Z.ltb_spec 55 regBits); cbn [andb]; [|exists s1; split; [done|split; [done|split; [done|lia]]]].
  destruct (Z.eqb_spec (el_ip s1 mod 4) 0) as [E4|H4]; cbn [negb]; [exists s1; split; [done|split; [done|split; [done|lia]]]|].
  pose proof (Z.div_mod (el_ip s1) 2 ltac:(lia)). pose proof (Z.div_mod (el_ip s1) 4 ltac:(lia)).
  pose proof (Z.mod_pos_bound (el_ip s1) 4 ltac:(lia)). assert (el_ip s1 mod 4 = 2) as E4 by lia.
  destruct (pair_spec 0 s1 Hi1) as (s2 & n2 & Hp2 & Hn2 & Hip2 & Hi2); [lia| |].
  { assert (el_ip s1 <> 0) by (intros E; rewrite E in E4; done). lia. }
  apply bind_Ok in Hp2 as (s12 & -> & Hp2). cbn [obind]. rewrite Hp2. cbn [obind].
  destruct (flush_spec _ _ Hi2) as (s3 & -> & Hip3 & Hi3). exists s3. split; [done|]. split; [done|].
  split; [|lia]. rewrite Hip3, Hip2, Zminus_mod, E4. done.
Qed.
End Encode.

(** [FSE_compress_usingCTable_generic] either reports 0 or writes a stream that
    decodes to its source. *)
Lemma compress_spec `{P : Platform} norm k syms ct src fast mem dst dstSize :
  norm_ok norm k -> spread_ok norm k syms -> ctable_ok norm k syms ct -> k <= FSE_MAX_TABLELOG ->
  Forall (fun s => 0 <= s < zlen norm /\ 0 < freq norm s) src ->
  bytes mem -> 0 <= dst -> dst + dstSize <= zlen mem -> sizeof_size_t < dstSize -> 3 <= zlen src ->
  (fast = true -> (k * zlen src) / 8 + sizeof_size_t <= dstSize) ->
  exists size mem' v1 v2 V N,
    FSE_compress_usingCTable_generic mem dst dstSize src (zlen src) ct fast = Ok (size, mem') /\
    zlen mem' = zlen mem /\ bytes mem' /\
    take (Z.to_nat dst) mem' = take (Z.to_nat dst) mem /\ decodes norm k syms v1 v2 V N src /\
    2 ^ k <= v1 < 2 * 2 ^ k /\ 2 ^ k <= v2 < 2 * 2 ^ k /\ 0 <= N /\
    (size = 0 \/ size = (N + k + k) / 8 + 1 /\ size <= dstSize /\
       le_val (slice mem' dst size) = stream_val k v1 v2 V N).
Proof.
  intros Hn Hsy Hct Hk Hsrc Hb Hd Hl Hcap Hlen Hfast.
  unfold FSE_compress_usingCTable_generic. rewrite (proj2 (Z.leb_gt _ 2)) by lia.
  destruct (initCStream_wf mem dst dstSize) as (c0 & -> & Hwf0 & Hh0 & Hm0 & Hst0 & Hen0 & Hbp0 & Hp0); try done.
  assert (w_state c0 0 0) as Hw0.
  { unfold w_state. rewrite Hbp0, Hp0, Hst0, Hen0. split; [done|]. split; [lia|]. split; [done|].
    split; [change (0 / 8) with 0; lia|done]. }
  assert (fast = true -> c_startPtr c0 + (k * zlen src) / 8 <= c_endPtr c0) as Hf' by (intros H; specialize (Hfast H); lia).
  destruct (src_symbol norm src Hsrc (zlen src - 1)) as (sl & -> & Hsl & Hfl & Hdl); [lia|].
  destruct (src_symbol norm src Hsrc (zlen src - 2)) as (sp & -> & Hsp & Hfp & Hdp); [lia|]. cbn [obind].
  pose proof (k_enc norm k Hn Hk).
  destruct (initCState2_spec norm k syms Hn Hsy ct sl) as (stl & ul & -> & Hcl & Hrl); [done|lia|done|done|].
  destruct (initCState2_spec norm k syms Hn Hsy ct sp) as (stp & up & -> & Hcp & Hrp); [done|lia|done|done|].
  cbn [obind]. assert (drop (Z.to_nat (zlen src - 2)) src = [sp; sl]) as Hd2.
  { rewrite Hdp. f_equal. replace (zlen src - 2 + 1) with (zlen src - 1) by lia. rewrite Hdl. f_equal.
    apply drop_ge. unfold zlen. lia. }
  destruct (parity_spec norm k syms ct src c0 fast Hn Hsy Hct Hk Hsrc Hf' stl stp ul up sl sp)
    as (s1 & n1 & -> & Hi1 & Hip1 & Hn1 & Hev); try done. cbn [obind].
  change (FSE_MAX_TABLELOG * 4 + 7) with 55.
  destruct (join_spec norm k syms ct src c0 fast Hn Hsy Hct Hk Hsrc Hf' s1 n1)
    as (s2 & -> & Hi2 & Hg2 & Hip2); try done; [lia|]. cbn [obind].
  destruct (loop_spec norm k syms ct src c0 fast Hn Hsy Hct Hk Hsrc Hf' (S (Z.to_nat (zlen src))) s2)
    as (s3 & -> & Hi3 & Hip3); [done|done|lia|]. cbn [obind].
  destruct (finish_spec norm k syms ct src c0 Hn Hk s3 Hi3 Hip3)
    as (size & c & v1 & v2 & V & N & Hfin & (Hst & Hen & Hz & Htk) & Hby & Hdec & Hv1 & Hv2 & HN & Hsz).
  apply bind_Ok in Hfin as (c1 & -> & Hfin). cbn [obind]. apply bind_Ok in Hfin as (c2 & -> & Hfin).
  cbn [obind]. rewrite Hfin. cbn [obind]. exists size, (c_mem c), v1, v2, V, N.
  rewrite Hst0, Hm0, Hen0 in *. split; [done|]. split; [done|]. split; [done|]. split; [done|]. split; [done|].
  do 3 (split; [done|]). destruct Hsz as [->|(-> & ? & ?)]; [by left|right]. split; [done|]. split; [lia|done].
Qed.

Lemma decodes_range norm k syms v1 v2 V N out :
  0 <= k -> decodes norm k syms v1 v2 V N out -> 0 <= N /\ 0 <= V < 2 ^ N /\ 2 <= zlen out.
Proof.
  intros Hk. induction 1 as [|v1 v2 V N out s nb v' Hst Hnb Hd (HN & HV & Ho)]; [by rewrite Z.pow_0_r; unfold zlen; simpl; lia|].
  pose proof (Z.mod_pos_bound v2 (2 ^ nb) ltac:(apply pow2_pos; lia)).
  rewrite zlen_cons, Z.pow_add_r by lia. nia.
Qed.

Section Decode.
Context `{P : Platform} (norm : list Z) (k : Z) (syms : list Z) (fast : bool) (table : list FSE_decode_t).
Context (size X ostart maxDstSize : Z) (src : list Z).
Hypothesis Hk : 1 <= k <= FSE_MAX_TABLELOG.
Hypothesis Htable : dtable_ok k fast table.
Hypothesis Hcells : forall u c, dtable_ref norm k syms !! u = Some c -> table !! u = Some c.
Hypothesis Hfreq : forall s, freq norm s < 2 ^ k.
Hypothesis Hstart : 0 <= ostart.
Hypothesis Hlen : zlen src <= maxDstSize.

Definition dstate (v : Z) : FSE_DState_t := {| ds_state := v - 2 ^ k; ds_table := table |}.

(** [out] is still to be decoded, at [pos]; [sa] is the next state used. *)
Definition dec_inv (pos : Z) (dst : list Z) (sa sb : FSE_DState_t) (d : BIT_DStream_t) (out : list Z) : Prop :=
  exists v1 v2 V N, sa = dstate v1 /\ sb = dstate v2 /\
    2 ^ k <= v1 < 2 * 2 ^ k /\ 2 ^ k <= v2 < 2 * 2 ^ k /\
    decodes norm k syms v1 v2 V N out /\ d_wf d size /\ d_image d size = X /\ d_holds d X N /\
    X mod 2 ^ N = V /\ ostart + maxDstSize <= zlen dst /\ ostart <= pos /\
    slice dst ostart (pos - ostart) ++ out = src /\ zlen src = pos - ostart + zlen out.

Lemma k_dec : 0 <= k <= 12.
Proof. unfold FSE_MAX_TABLELOG, FSE_MAX_MEMORY_USAGE in Hk. lia. Qed.

Lemma state_ok v : 2 ^ k <= v < 2 * 2 ^ k -> ds_ok k table (dstate v).
Proof. intros. split; simpl; [done|lia]. Qed.

(** Decoding a symbol whose bits are in the register. *)
Lemma get_cons pos dst v' v1 V N out s nb v2 d :
  tans_step norm k syms v2 s nb v' -> 0 <= nb <= k -> decodes norm k syms v1 v2 V N out ->
  d_wf d size -> d_image d size = X -> d_holds d X (N + nb) ->
  X mod 2 ^ (N + nb) = V + (v2 mod 2 ^ nb) * 2 ^ N ->
  2 ^ k <= v' < 2 * 2 ^ k -> 2 ^ k <= v1 < 2 * 2 ^ k ->
  ostart + maxDstSize <= zlen dst -> ostart <= pos ->
  slice dst ostart (pos - ostart) ++ s :: out = src -> zlen src = pos - ostart + zlen (s :: out) ->
  nb + d_bitsConsumed d <= regBits ->
  exists st' d', FSE_GETSYMBOL fast (dstate v') d = Ok (s, st', d') /\
    dec_inv (pos + 1) (<[Z.to_nat pos := s]> dst) (dstate v1) st' d' out /\
    d_bitsConsumed d' = d_bitsConsumed d + nb.
Proof.
  intros (u & c & -> & Hc & <- & <- & Hns) Hnb Hdec Hwf Himg Hh HX Hv' Hv1 Hz Hpos Hsl Hl Hbc.
  destruct (decodes_range _ _ _ _ _ _ _ _ (proj1 k_dec) Hdec) as (HN & HV & Ho).
  destruct (getSymbol_val k fast table (dstate (2 ^ k + Z.of_nat u)) d size X (N + nbBits c) c)
    as (d' & -> & Hwf' & Hsrc & Hh' & Hb'); try done.
  { by apply state_ok. }
  { simpl. rewrite <- (Hcells u c Hc). f_equal. lia. }
  replace (N + nbBits c - nbBits c) with N in * by lia.
  assert (0 < 2 ^ N) by (apply pow2_pos; lia). assert (0 < 2 ^ nbBits c) by (apply pow2_pos; lia).
  pose proof (Z.mod_pos_bound v2 (2 ^ nbBits c) ltac:(lia)).
  assert ((X / 2 ^ N) mod 2 ^ nbBits c = v2 mod 2 ^ nbBits c) as Hlow.
  { rewrite <- (mod_div_mod X N (nbBits c) (N + nbBits c)) by lia. rewrite HX, Z.div_add by lia.
    rewrite Z.div_small, Z.add_0_l by lia. by rewrite Z.mod_mod by lia. }
  assert (X mod 2 ^ N = V) as HXN.
  { rewrite Z.pow_add_r, Z.rem_mul_r in HX by lia. rewrite Hlow in HX. lia. }
  rewrite Hlow, Hns. eexists _, d'. split; [reflexivity|]. split; [|done].
  exists v1, v2, V, N. split; [done|]. split; [done|]. split; [done|].
  split; [pose proof (proj2 Htable (Z.of_nat u)) as Hok; destruct Hok as (c' & Hc' & Hok); [lia|];
    rewrite Nat2Z.id, (Hcells u c Hc) in Hc'; injection Hc' as <-; destruct Hok as (_ & ? & ? & _); lia|].
  split; [done|]. split; [done|].
  split; [rewrite <- Himg; unfold d_image; by destruct Hsrc as (-> & -> & _)|].
  split; [done|]. split; [done|]. split; [by rewrite zlen_insert|]. split; [lia|].
  autorewrite with zlen in Hl. split; [|lia]. rewrite <- Hsl.
  assert (pos < zlen dst) by (pose proof (zlen_nonneg out); lia).
  rewrite <- (splice_one dst pos) by lia.
  pose proof (slice_splice_prefix dst pos [symbol c] ostart 1) as Hp.
  replace (pos - ostart + 1) with (pos + 1 - ostart) in Hp by lia. rewrite Hp by (unfold zlen in *; simpl; lia).
  by rewrite <- app_assoc.
Qed.

(** While the register holds more than [B] unread bits, the next symbol is not
    one of the last two. *)
Lemma get_main pos dst sa sb d out B :
  dec_inv pos dst sa sb d out -> d_bitsConsumed d <= B -> B + k <= regBits -> B < regBits ->
  exists s st' d' out', FSE_GETSYMBOL fast sa d = Ok (s, st', d') /\ out = s :: out' /\
    dec_inv (pos + 1) (<[Z.to_nat pos := s]> dst) sb st' d' out' /\ d_bitsConsumed d' <= B + k.
Proof.
  intros (v1 & v2 & V & N & -> & -> & Hv1 & Hv2 & Hdec & Hwf & Himg & Hh & HX & Hz & Hpos & Hsl & Hl) HB HBk HBr.
  assert (N <> 0) as HN0. { destruct Hh as (_ & p & _ & Hp & -> & _). lia. }
  inversion Hdec as [|v1' v2' V' N' out' s nb v'' Hst Hnb Hdec']; subst; [done|].
  destruct (get_cons pos dst v1 v2 V' N' out' s nb v2' d) as (st' & d' & Hg & Hi & Hb); try done; [lia|].
  exists s, st', d', out'. split; [done|]. split; [done|]. split; [done|]. lia.
Qed.

Lemma reload_inv pos dst sa sb d out :
  dec_inv pos dst sa sb d out ->
  exists st d', BIT_reloadDStream d = Ok (st, d') /\ st <> BIT_DStream_overflow /\
    dec_inv pos dst sa sb d' out /\ (d_bitsConsumed d' <= 7 \/ d_ptr d' = Some (d_start d')) /\
    (st = BIT_DStream_unfinished -> d_bitsConsumed d' <= 7).
Proof.
  intros (v1 & v2 & V & N & Hsa & Hsb & Hv1 & Hv2 & Hdec & Hwf & Himg & Hh & HX & Hrest).
  destruct (reloadDStream_spec d size Hwf) as (st & d' & Hre & Hwf' & Hsrc & Hov & _ & Hrel).
  assert (st <> BIT_DStream_overflow) as Hno.
  { rewrite Hov. destruct Hh as [? _]. lia. }
  destruct (Hrel Hno) as (_ & Hkeep & Hfull & Hun & _). exists st, d'. split; [done|]. split; [done|].
  split; [|split; [|done]].
  - exists v1, v2, V, N. do 5 (split; [done|]). split; [done|]. rewrite Himg in Hkeep.
    split; [rewrite <- Himg; unfold d_image; by destruct Hsrc as (-> & -> & _)|]. split; [by apply Hkeep|]. done.
  - destruct Hsrc as (_ & -> & _). done.
Qed.

Lemma pos_range pos dst sa sb d out : dec_inv pos dst sa sb d out -> 0 <= pos /\ pos + 1 < zlen dst /\
  pos + 2 <= ostart + maxDstSize.
Proof.
  intros (v1 & v2 & V & N & _ & _ & _ & _ & Hdec & _ & _ & _ & _ & Hz & Hpos & _ & Hl).
  destruct (decodes_range _ _ _ _ _ _ _ _ (proj1 k_dec) Hdec) as (_ & _ & Ho). lia.
Qed.

(** The loop state at offset [i]; [b] tells which state is next. *)
Definition dl_rt (i : Z) (b : bool) (s : dec_loop) (out : list Z) : Prop :=
  if b then dec_inv (dl_op s + i) (dl_dst s) (dl_state1 s) (dl_state2 s) (dl_bitD s) out
  else dec_inv (dl_op s + i) (dl_dst s) (dl_state2 s) (dl_state1 s) (dl_bitD s) out.

Lemma get1_main s i out B :
  dl_rt i true s out -> d_bitsConsumed (dl_bitD s) <= B -> B + k <= regBits -> B < regBits ->
  exists s' out', get1 fast s i = Ok s' /\ dl_op s' = dl_op s /\ dl_rt (i + 1) false s' out' /\
    zlen out = zlen out' + 1 /\ d_bitsConsumed (dl_bitD s') <= B + k.
Proof.
  intros Hi HB HBk HBr. pose proof (pos_range _ _ _ _ _ _ Hi) as Hp.
  destruct (get_main _ _ _ _ _ _ B Hi HB HBk HBr) as (sy & st' & d' & out' & Hg & -> & Hi' & Hb').
  unfold get1. rewrite Hg. cbn [obind]. rewrite aset_Ok by lia. cbn [obind].
  eexists _, out'. split; [reflexivity|]. split; [done|]. rewrite zlen_cons. split; [|done].
  unfold dl_rt; simpl. by rewrite Z.add_assoc.
Qed.

Lemma get2_main s i out B :
  dl_rt i false s out -> d_bitsConsumed (dl_bitD s) <= B -> B + k <= regBits -> B < regBits ->
  exists s' out', get2 fast s i = Ok s' /\ dl_op s' = dl_op s /\ dl_rt (i + 1) true s' out' /\
    zlen out = zlen out' + 1 /\ d_bitsConsumed (dl_bitD s') <= B + k.
Proof.
  intros Hi HB HBk HBr. pose proof (pos_range _ _ _ _ _ _ Hi) as Hp.
  destruct (get_main _ _ _ _ _ _ B Hi HB HBk HBr) as (sy & st' & d' & out' & Hg & -> & Hi' & Hb').
  unfold get2. rewrite Hg. cbn [obind]. rewrite aset_Ok by lia. cbn [obind].
  eexists _, out'. split; [reflexivity|]. split; [done|]. rewrite zlen_cons. split; [|done].
  unfold dl_rt; simpl. by rewrite Z.add_assoc.
Qed.

Lemma dl_reload_rt i b s out :
  dl_rt i b s out ->
  exists st s', dl_reload s = Ok (st, s') /\ st <> BIT_DStream_overflow /\ dl_op s' = dl_op s /\
    dl_rt i b s' out /\ (d_bitsConsumed (dl_bitD s') <= 7 \/ d_ptr (dl_bitD s') = Some (d_start (dl_bitD s'))) /\
    (st = BIT_DStream_unfinished -> d_bitsConsumed (dl_bitD s') <= 7).
Proof.
  intros Hi. unfold dl_reload, dl_rt in *. destruct b;
    destruct (reload_inv _ _ _ _ _ _ Hi) as (st & d' & -> & Hno & Hi' & Hfull & Hun); cbn [obind];
    eexists st, _; (split; [reflexivity|]); done.
Qed.

Lemma dl_advance_rt i b s out : dl_rt i b s out -> dl_rt 0 b (dl_advance s i) out.
Proof. unfold dl_rt; simpl. by rewrite Z.add_0_r. Qed.

(** After a reload: the register is full or holds all that is left. *)
Definition avail (d : BIT_DStream_t) : Prop := d_bitsConsumed d <= 7 \/ d_ptr d = Some (d_start d).

Lemma dec_four_rt s out :
  dl_rt 0 true s out ->
  exists r, dec_four fast (ostart + maxDstSize - 3) s = Ok r /\
    match r with
    | inl s' => exists out', dl_rt 0 true s' out' /\ zlen out' < zlen out
    | inr s' => exists out', dl_rt 0 true s' out' /\ avail (dl_bitD s')
    end.
Proof.
  intros Hi. pose proof k_dec. assert (1 <= k) by lia. unfold dec_four.
  destruct (dl_reload_rt _ _ _ _ Hi) as (st & s1 & -> & _ & Hop1 & Hi1 & Hav & Hun). cbn [obind].
  destruct (bool_decide (st = BIT_DStream_unfinished)) eqn:E; cbn [andb negb]; [|eexists; split; [reflexivity|by exists out]].
  apply bool_decide_eq_true in E. specialize (Hun E).
  destruct (dl_op s1 <? _); cbn [negb]; [|eexists; split; [reflexivity|by exists out]].
  change (FSE_MAX_TABLELOG * 2 + 7) with 31. change (FSE_MAX_TABLELOG * 4 + 7) with 55.
  rewrite (proj2 (Z.ltb_ge regBits 31)) by (destruct regBits_cases; lia).
  destruct (get1_main s1 0 out 7 Hi1 Hun) as (s2 & o2 & -> & Hop2 & Hi2 & Hl2 & Hb2); [destruct regBits_cases; lia..|].
  cbn [obind].
  destruct (get2_main s2 1 o2 (7 + k) Hi2 Hb2) as (s3 & o3 & -> & Hop3 & Hi3 & Hl3 & Hb3);
    [destruct regBits_cases; lia..|]. cbn [obind].
  assert (exists stop s4, (if regBits <? 55 then let* (status, s) := dl_reload s3 in
      Ok (0 <? status_value status, s) else Ok (false, s3)) = (Ok (stop, s4) : res (bool * dec_loop)) /\
    dl_rt 2 true s4 o3 /\ (stop = true -> avail (dl_bitD s4)) /\
    (stop = false -> d_bitsConsumed (dl_bitD s4) <= regBits - 2 * k)) as (stop & s4 & -> & Hi4 & Ha4 & Hb4).
  { destruct (Z.ltb_spec regBits 55).
    - destruct (dl_reload_rt _ _ _ _ Hi3) as (st4 & s4 & -> & _ & _ & Hi4 & Hav4 & Hun4). cbn [obind].
      eexists _, s4. split; [reflexivity|]. split; [done|]. split; [done|]. intros Hs.
      assert (st4 = BIT_DStream_unfinished) as E4 by (destruct st4; done).
      specialize (Hun4 E4). destruct regBits_cases; lia.
    - exists false, s3. split; [done|]. split; [done|]. split; [done|]. intros _. destruct regBits_cases; lia. }
  cbn [obind]. destruct stop; [eexists; split; [reflexivity|]; exists o3; split; [by apply dl_advance_rt|by apply Ha4]|].
  specialize (Hb4 eq_refl).
  destruct (get1_main s4 2 o3 _ Hi4 Hb4) as (s5 & o5 & -> & Hop5 & Hi5 & Hl5 & Hb5);
    [destruct regBits_cases; lia..|]. cbn [obind].
  destruct (get2_main s5 3 o5 _ Hi5 Hb5) as (s6 & o6 & -> & Hop6 & Hi6 & Hl6 & Hb6);
    [destruct regBits_cases; lia..|]. cbn [obind].
  eexists; split; [reflexivity|]. exists o6. split; [by apply dl_advance_rt|]. lia.
Qed.

Lemma cell_symbol u s : dtable_ref norm k syms !! u = Some (dcell k (freq norm s) s) -> 0 < freq norm s ->
  1 <= nbBits (dcell k (freq norm s) s).
Proof.
  intros _ Hf. simpl. specialize (Hfreq s). assert (Z.log2 (freq norm s) < k); [|lia].
  apply Z.log2_lt_pow2; lia.
Qed.

(** Decoding a state when no bits are left still gives its symbol. *)
Lemma get_any v u c d :
  v = 2 ^ k + Z.of_nat u -> 2 ^ k <= v < 2 * 2 ^ k -> dtable_ref norm k syms !! u = Some c ->
  d_wf d size -> d_bitsConsumed d <= 1000 ->
  exists st' d', FSE_GETSYMBOL fast (dstate v) d = Ok (symbol c, st', d') /\
    d_wf d' size /\ d_bitsConsumed d' = d_bitsConsumed d + nbBits c /\ 0 <= nbBits c <= k.
Proof.
  intros -> Hv Hu Hwf Hb. pose proof k_dec.
  destruct (wp_exists (FSE_GETSYMBOL fast (dstate (2 ^ k + Z.of_nat u)) d) (fun r =>
    r.1.1 = symbol c /\ d_wf r.2 size /\ d_bitsConsumed r.2 = d_bitsConsumed d + nbBits c /\ 0 <= nbBits c <= k))
    as ([[sy st'] d'] & -> & Hs & Hwf' & Hb' & Hnb); [|simpl in *; subst sy; by exists st', d'].
  apply (wp_getSymbol k fast table _ _ size); [done|by apply state_ok|done|lia|].
  intros c' st' d' Hc' (Hnb & _) _ Hwf' _ Hb'. simpl in *.
  replace (Z.to_nat (2 ^ k + Z.of_nat u - 2 ^ k)) with u in Hc' by lia. rewrite (Hcells u c Hu) in Hc'.
  injection Hc' as <-. done.
Qed.

(** One step of the tail: another symbol, or the last two. *)
Lemma tail_get pos dst sa sb d out :
  dec_inv pos dst sa sb d out -> avail d ->
  (exists s st' d' out', FSE_GETSYMBOL fast sa d = Ok (s, st', d') /\ zlen out = zlen out' + 1 /\
     dec_inv (pos + 1) (<[Z.to_nat pos := s]> dst) sb st' d' out') \/
  (exists s1 s2 st1 d1 d2 st2 d3, FSE_GETSYMBOL fast sa d = Ok (s1, st1, d1) /\
     BIT_reloadDStream d1 = Ok (BIT_DStream_overflow, d2) /\
     FSE_GETSYMBOL fast sb d2 = Ok (s2, st2, d3) /\
     slice (<[Z.to_nat (pos + 1) := s2]> (<[Z.to_nat pos := s1]> dst)) ostart (zlen src) = src /\
     pos + 2 = ostart + zlen src).
Proof.
  intros (v1 & v2 & V & N & -> & -> & Hv1 & Hv2 & Hdec & Hwf & Himg & Hh & HX & Hz & Hpos & Hsl & Hl) Hav.
  pose proof k_dec. inversion Hdec as [u1 u2 s1 s2 Hu1 Hu2 Hf1 | v1' v2' V' N' out' s nb v'' Hst Hnb Hdec']; subst.
  - right. pose proof Hh as (Hbc & p & Hp & Hsp & Hn & _). assert (d_bitsConsumed d = regBits) as Hbr by lia.
    destruct (get_any _ u1 _ d eq_refl Hv1 Hu1 Hwf) as (st1 & d1 & Hg1 & Hwf1 & Hb1 & Hnb1);
      [destruct regBits_cases; lia|].
    pose proof (cell_symbol u1 s1 Hu1 Hf1).
    destruct (reloadDStream_spec d1 size Hwf1) as (st & d2 & Hre & Hwf2 & _ & Hov & Hkeep & _).
    assert (st = BIT_DStream_overflow) as -> by (apply Hov; lia). specialize (Hkeep eq_refl).
    destruct (get_any _ u2 _ d2 eq_refl Hv2 Hu2 Hwf2) as (st2 & d3 & Hg2 & _); [destruct regBits_cases; lia|].
    exists s1, s2, st1, d1, d2, st2, d3. split; [done|]. split; [done|]. split; [done|].
    change (zlen [s1; s2]) with 2 in Hl. split; [|lia].
    rewrite <- (splice_one dst pos), <- (splice_one _ (pos + 1)) by (rewrite ?zlen_splice; unfold zlen in *; simpl; lia).
    change (pos + 1) with (pos + zlen [s1]). rewrite splice_app by (unfold zlen in *; simpl; lia).
    pose proof (slice_splice_prefix dst pos [s1; s2] ostart 2) as Hpre.
    cbn [app]. rewrite Hl, Hpre by (unfold zlen in *; simpl in *; lia). done.
  - left. destruct (decodes_range _ _ _ _ _ _ _ _ (proj1 k_dec) Hdec') as (HN & HV & Ho).
    destruct (get_cons pos dst v1 v2 V' N' out' s nb v2' d) as (st' & d' & Hg & Hi & Hb); try done.
    { destruct Hh as (_ & p & Hp & Hsp & Hn & _). destruct Hav as [Hav|Hav].
      - destruct regBits_cases; lia.
      - rewrite Hp in Hav. injection Hav as ->. lia. }
    exists s, st', d', out'. rewrite zlen_cons. split; [done|]. split; [lia|done].
Qed.

Definition decoded (s : dec_loop) : Prop :=
  dl_op s = ostart + zlen src /\ slice (dl_dst s) ostart (zlen src) = src.

Lemma dec_tail_rt s out :
  dl_rt 0 true s out -> avail (dl_bitD s) ->
  exists r, dec_tail fast (ostart + maxDstSize) s = Ok r /\
    match r with
    | inl s' => exists out', dl_rt 0 true s' out' /\ avail (dl_bitD s') /\ zlen out' < zlen out
    | inr s' => decoded s'
    end.
Proof.
  intros Hi Hav. pose proof (pos_range _ _ _ _ _ _ Hi) as Hp. unfold dl_rt in Hi. rewrite Z.add_0_r in *.
  unfold dec_tail. rewrite (proj2 (Z.ltb_ge _ (dl_op s))) by lia. unfold get1, get2, dl_reload. rewrite Z.add_0_r.
  destruct (tail_get _ _ _ _ _ _ Hi Hav) as
    [(sy & st' & d' & o1 & Hg & Hl1 & Hi1)|(s1 & s2 & st1 & d1 & d2 & st2 & d3 & Hg1 & Hre & Hg2 & Hsl & Hend)].
  - rewrite Hg. cbn [obind]. rewrite aset_Ok by lia. cbn [obind dl_advance dl_dst dl_op dl_state1 dl_state2 dl_bitD].
    destruct (reload_inv _ _ _ _ _ _ Hi1) as (st & d2 & Hre & Hno & Hi2 & Hav2 & _).
    rewrite Hre. cbn [obind].
    rewrite bool_decide_eq_false_2 by done. pose proof (pos_range _ _ _ _ _ _ Hi2) as Hp2. cbn [dl_op].
    rewrite (proj2 (Z.ltb_ge _ (dl_op s + 1))) by lia. cbn [dl_dst dl_op dl_state1 dl_state2 dl_bitD]. rewrite Z.add_0_r.
    destruct (tail_get _ _ _ _ _ _ Hi2 Hav2) as
      [(sy2 & st2 & d3 & o2 & Hg2 & Hl2 & Hi3)|(s1 & s2 & st1 & d3 & d4 & st2 & d5 & Hg1 & Hre1 & Hg2 & Hsl & Hend)].
    + rewrite Hg2. cbn [obind]. rewrite aset_Ok by (rewrite ?zlen_insert in *; lia).
      cbn [obind dl_advance dl_dst dl_op dl_state1 dl_state2 dl_bitD].
      destruct (reload_inv _ _ _ _ _ _ Hi3) as (st4 & d4 & Hre4 & Hno4 & Hi4 & Hav4 & _).
      rewrite Hre4. cbn [obind].
      rewrite bool_decide_eq_false_2 by done. eexists; split; [reflexivity|]. exists o2.
      split; [unfold dl_rt; cbn [dl_dst dl_op dl_state1 dl_state2 dl_bitD]; by rewrite Z.add_0_r|]. split; [done|]. lia.
    + rewrite Hg1. cbn [obind]. rewrite aset_Ok by (rewrite ?zlen_insert in *; lia).
      cbn [obind dl_advance dl_dst dl_op dl_state1 dl_state2 dl_bitD].
      rewrite Hre1. cbn [obind].
      rewrite bool_decide_eq_true_2 by done. cbn [dl_dst dl_op dl_state1 dl_state2 dl_bitD].
      rewrite Hg2. cbn [obind]. rewrite Z.add_0_r, aset_Ok by (rewrite ?zlen_insert in *; lia).
      eexists; split; [reflexivity|]. split; simpl; [lia|done].
  - rewrite Hg1. cbn [obind]. rewrite aset_Ok by lia. cbn [obind dl_advance dl_dst dl_op dl_state1 dl_state2 dl_bitD].
    rewrite Hre. cbn [obind].
    rewrite bool_decide_eq_true_2 by done. cbn [dl_dst dl_op dl_state1 dl_state2 dl_bitD].
    rewrite Hg2. cbn [obind]. rewrite Z.add_0_r, aset_Ok by (rewrite ?zlen_insert in *; lia).
    eexists; split; [reflexivity|]. split; simpl; [lia|done].
Qed.

Lemma four_loop fuel : forall s out,
  dl_rt 0 true s out -> zlen out < Z.of_nat fuel ->
  exists s' out', loop fuel (dec_four fast (ostart + maxDstSize - 3)) s = Ok s' /\
    dl_rt 0 true s' out' /\ avail (dl_bitD s').
Proof.
  induction fuel as [|fuel IH]; intros s out Hi Hf; [pose proof (zlen_nonneg out); lia|]. cbn [loop].
  destruct (dec_four_rt s out Hi) as (r & -> & Hr). cbn [obind]. destruct r as [s'|s'].
  - destruct Hr as (out' & Hi' & Hl). apply (IH s' out' Hi'). lia.
  - destruct Hr as (out' & Hi' & Ha). by exists s', out'.
Qed.

Lemma tail_loop fuel : forall s out,
  dl_rt 0 true s out -> avail (dl_bitD s) -> zlen out < Z.of_nat fuel ->
  exists s', loop fuel (dec_tail fast (ostart + maxDstSize)) s = Ok s' /\ decoded s'.
Proof.
  induction fuel as [|fuel IH]; intros s out Hi Ha Hf; [pose proof (zlen_nonneg out); lia|]. cbn [loop].
  destruct (dec_tail_rt s out Hi Ha) as (r & -> & Hr). cbn [obind]. destruct r as [s'|s'].
  - destruct Hr as (out' & Hi' & Ha' & Hl). apply (IH s' out' Hi' Ha'). lia.
  - by exists s'.
Qed.

Lemma dl_rt_length i b s out : dl_rt i b s out -> zlen out <= maxDstSize.
Proof.
  intros Hi. unfold dl_rt in Hi.
  destruct b; destruct Hi as (? & ? & ? & ? & _ & _ & _ & _ & _ & _ & _ & _ & _ & _ & Hp & _ & Hl); lia.
Qed.

(** The two states at the end of the stream, read back first. *)
Lemma init_states d dt v1 v2 V N :
  dt_tableLog dt = k -> dt_table dt = table -> 0 <= N -> 0 <= V < 2 ^ N ->
  2 ^ k <= v1 < 2 * 2 ^ k -> 2 ^ k <= v2 < 2 * 2 ^ k ->
  d_image d size = stream_val k v1 v2 V N -> r_state d size (N + k + k) ->
  exists d1 d2, FSE_initDState d dt = Ok (dstate v1, d1) /\ FSE_initDState d1 dt = Ok (dstate v2, d2) /\
    r_state d2 size N /\ d_image d2 size = d_image d size /\ d_image d size mod 2 ^ N = V.
Proof.
  intros Hlog Htab HN HV Hv1 Hv2 HX Hr. pose proof k_dec.
  assert (forall d', d_same_src d d' -> d_image d' size = d_image d size) as Hsame
    by (intros d' (Hm & Hs & _); unfold d_image; by rewrite Hm, Hs).
  unfold FSE_initDState. rewrite Hlog, Htab.
  destruct (read_field d size (N + k + k) k Hr) as (d1 & st1 & d1' & -> & Hre1 & Hs1 & Hr1);
    [lia|lia|destruct regBits_cases; lia|]. cbn [obind]. rewrite Hre1. cbn [obind].
  replace (N + k + k - k) with (N + k) in * by lia.
  destruct (read_field d1' size (N + k) k Hr1) as (d2 & st2 & d2' & Hrd2 & Hre2 & Hs2 & Hr2);
    [lia|lia|destruct regBits_cases; lia|]. rewrite Hsame in Hrd2 by done.
  replace (N + k - k) with N in * by lia. set (X0 := d_image d size) in *.
  assert (0 < 2 ^ N) by (apply pow2_pos; lia). assert (0 < 2 ^ k) by (apply pow2_pos; lia).
  unfold stream_val in HX. rewrite !Z.pow_add_r in HX by lia.
  assert (X0 = V + 2 ^ N * ((v2 - 2 ^ k) + 2 ^ k * ((v1 - 2 ^ k) + 2 ^ k * 1))) as HX' by nia.
  assert (X0 / 2 ^ N = (v2 - 2 ^ k) + 2 ^ k * ((v1 - 2 ^ k) + 2 ^ k * 1)) as Hq.
  { symmetry. apply Z.div_unique with V; lia. }
  assert ((X0 / 2 ^ N) mod 2 ^ k = v2 - 2 ^ k) as E2.
  { rewrite Hq, (Z.mul_comm (2 ^ k)), Z.mod_add, Z.mod_small by lia. done. }
  assert ((X0 / 2 ^ (N + k)) mod 2 ^ k = v1 - 2 ^ k) as E1.
  { rewrite Z.pow_add_r, <- Z.div_div, Hq by lia. rewrite (Z.mul_comm (2 ^ k) (_ + _)), Z.div_add by lia.
    rewrite Z.div_small, Z.add_0_l by lia. rewrite (Z.mul_comm (2 ^ k)), Z.mod_add, Z.mod_small by lia. done. }
  exists d1', d2'. rewrite E1, Hrd2, E2. cbn [obind]. rewrite Hre2. split; [done|]. split; [done|].
  split; [done|]. split.
  - rewrite <- (Hsame d1') by done. destruct Hs2 as (Hm & Hs & _). unfold d_image. by rewrite Hm, Hs.
  - rewrite HX', (Z.mul_comm (2 ^ N)), Z.mod_add, Z.mod_small by lia. done.
Qed.
End Decode.

(** [FSE_decompress_usingDTable_generic] decodes what the states and bits say. *)
Lemma decompress_spec `{P : Platform} norm k syms fast dt dst ostart maxDstSize mem cSrc src v1 v2 V N :
  1 <= k <= FSE_MAX_TABLELOG -> dt_tableLog dt = k -> dtable_ok k fast (dt_table dt) ->
  (forall u c, dtable_ref norm k syms !! u = Some c -> dt_table dt !! u = Some c) ->
  (forall s, freq norm s < 2 ^ k) ->
  0 <= ostart -> ostart + maxDstSize <= zlen dst -> zlen src <= maxDstSize ->
  decodes norm k syms v1 v2 V N src -> 2 ^ k <= v1 < 2 * 2 ^ k -> 2 ^ k <= v2 < 2 * 2 ^ k ->
  let size := (N + k + k) / 8 + 1 in
  bytes mem -> 0 <= cSrc -> cSrc + size <= zlen mem ->
  le_val (slice mem cSrc size) = stream_val k v1 v2 V N ->
  exists dst', FSE_decompress_usingDTable_generic dst ostart maxDstSize mem cSrc size dt fast = Ok (zlen src, dst') /\
    slice dst' ostart (zlen src) = src.
Proof.
  intros Hk Hlog Htab Hcells Hfreq Ho Hroom Hlen Hdec Hv1 Hv2 size Hb Hs Hl Himg.
  pose proof (k_dec k Hk) as Hk'. destruct (decodes_range _ _ _ _ _ _ _ _ (proj1 Hk') Hdec) as (HN & HV & Hout).
  assert (0 < 2 ^ N) by (apply pow2_pos; lia). assert (0 < 2 ^ k) by (apply pow2_pos; lia).
  assert (exists V', 0 <= V' < 2 ^ (N + k + k) /\ stream_val k v1 v2 V N = V' + 2 ^ (N + k + k) * 1) as (V' & HV' & HE).
  { exists (stream_val k v1 v2 V N - 2 ^ (N + k + k)). unfold stream_val. rewrite !Z.pow_add_r by lia. split; [|lia]. nia. }
  assert (0 <= (N + k + k) / 8) by (apply Z.div_pos; lia).
  destruct (top_byte_nonzero mem cSrc (N + k + k) V') as (last & Hlast & Hne); try done; try lia.
  { fold size. rewrite Himg, HE. lia. }
  destruct (initDStream_spec mem cSrc size last) as (d & Hd & Hcons & Hwf & Hdm & Hds & Hdh); try done; try lia.
  assert (d_image d size = stream_val k v1 v2 V N) as Hdi by (unfold d_image; by rewrite Hdm, Hds).
  assert (r_state d size (N + k + k)) as Hr.
  { split; [done|]. split; [|done]. rewrite Hdi. rewrite Himg in Hdh.
    assert (Z.log2 (stream_val k v1 v2 V N) = N + k + k) as El; [|by rewrite El in Hdh].
    rewrite HE, log2_add_high by lia. simpl. lia. }
  unfold FSE_decompress_usingDTable_generic. rewrite Hd. cbn [obind].
  destruct (init_states k (dt_table dt) size Hk d dt v1 v2 V N) as (d1 & d2 & -> & Hd2 & Hr2 & Him2 & HXN); try done.
  cbn [obind]. rewrite Hd2. cbn [obind].
  set (X := d_image d size) in *.
  assert (dec_inv norm k syms (dt_table dt) size X ostart maxDstSize src ostart dst
            (dstate k (dt_table dt) v1) (dstate k (dt_table dt) v2) d2 src) as Hinv.
  { destruct Hr2 as (Hwf2 & Hh2 & _). rewrite Him2 in Hh2. exists v1, v2, V, N. do 4 (split; [done|]). split; [done|].
    do 5 (split; [done|]). split; [lia|]. rewrite Z.sub_diag. unfold slice at 1. simpl. split; [done|lia]. }
  destruct (reload_inv _ _ _ _ _ _ _ _ _ _ _ _ _ _ _ Hinv) as (st & d3 & -> & Hno & Hinv3 & _). cbn [obind].
  rewrite bool_decide_eq_false_2 by done. cbn [reject_if obind].
  destruct (four_loop norm k syms fast (dt_table dt) size X ostart maxDstSize src Hk Htab Hcells Ho Hlen (S (Z.to_nat maxDstSize))
    {| dl_dst := dst; dl_op := ostart; dl_state1 := dstate k (dt_table dt) v1;
       dl_state2 := dstate k (dt_table dt) v2; dl_bitD := d3 |} src) as (s1 & o1 & -> & Hi1 & Ha1).
  { unfold dl_rt; simpl. by rewrite Z.add_0_r. }
  { lia. }
  cbn [obind].
  destruct (tail_loop norm k syms fast (dt_table dt) size X ostart maxDstSize src Hk Htab Hcells Hfreq Ho Hlen
    (S (Z.to_nat maxDstSize)) s1 o1 Hi1 Ha1) as (s2 & -> & Hop & Hsl).
  { apply dl_rt_length in Hi1; [lia|done]. }
  cbn [obind]. rewrite Hop, (proj2 (Z.leb_le ostart _)) by lia. cbn [oassert obind].
  eexists; split; [|exact Hsl]. do 2 f_equal. lia.
Qed.

(** C5: FSE coding is lossless.  A block of at least three symbols, coded with
    the table [FSE_buildCTable_wksp] makes from normalized counts, is decoded to
    the same symbols with the table [FSE_buildDTable_wksp] makes from the same
    counts, into any destination it fits; the coder writes only inside its
    destination and reports 0 when the stream does not fit.  No symbol may have
    the whole table (such blocks are coded as RLE), and the unchecked variant
    needs room for [k] bits per symbol. *)
Theorem FSE_round_trip `{P : Platform} norm k ct dt wkC wkD counter fast src mem dst dstSize out ostart outSize :
  norm_ok norm k -> k <= FSE_MAX_TABLELOG -> norm `prefix_of` counter ->
  2 ^ k <= zlen (ct_stateTable ct) -> zlen norm <= zlen (ct_symbolTT ct) ->
  2 * (zlen norm + 1) + 2 * 2 ^ k + 8 <= zlen wkC ->
  2 ^ k <= zlen (dt_table dt) -> FSE_BUILD_DTABLE_WKSP_SIZE k (zlen norm - 1) <= zlen wkD ->
  (forall s, freq norm s < 2 ^ k) ->
  Forall (fun s => 0 <= s < zlen norm /\ 0 < freq norm s) src -> 3 <= zlen src ->
  bytes mem -> 0 <= dst -> dst + dstSize <= zlen mem -> sizeof_size_t < dstSize ->
  (fast = true -> (k * zlen src) / 8 + sizeof_size_t <= dstSize) ->
  0 <= ostart -> ostart + outSize <= zlen out -> zlen src <= outSize ->
  exists ct' dt' size mem',
    FSE_buildCTable_wksp ct counter (zlen norm - 1) k wkC = Ok ct' /\
    FSE_buildDTable_wksp dt counter (zlen norm - 1) k wkD = Ok dt' /\
    FSE_compress_usingCTable_generic mem dst dstSize src (zlen src) ct' fast = Ok (size, mem') /\
    zlen mem' = zlen mem /\ take (Z.to_nat dst) mem' = take (Z.to_nat dst) mem /\ 0 <= size <= dstSize /\
    (size <> 0 -> exists out',
       FSE_decompress_usingDTable_generic out ostart outSize mem' dst size dt' (dt_fastMode dt' =? 1)
         = Ok (zlen src, out') /\
       slice out' ostart (zlen src) = src).
Proof.
  intros Hn Hk Hpre Hct Htt HwC Hdt HwD Hfreq Hsrc Hlen Hb Hd Hl Hcap Hfast Ho Hroom Hfit.
  destruct (buildCTable_spec norm k counter Hn Hpre ct wkC) as (syms & ct' & Hsy & -> & Hok & _); [done..|].
  destruct (buildDTable_spec norm k counter Hn Hpre dt wkD) as (syms' & Hsy' & Hbd); [done..|].
  rewrite <- (spread_unique norm k syms syms' Hn Hsy Hsy') in Hbd. clear syms' Hsy'.
  destruct (compress_spec norm k syms ct' src fast mem dst dstSize)
    as (size & mem' & v1 & v2 & V & N & Hcomp & Hz & Hby & Htk & Hdec & Hv1 & Hv2 & HN & Hsz); try done.
  destruct (dtable_ref_ok norm k syms (dt_table dt) Hn Hsy Hdt) as [Hcells Htab].
  eexists ct', _, size, mem'. split; [done|]. split; [exact Hbd|]. split; [done|]. split; [done|]. split; [done|].
  pose proof (k_enc norm k Hn Hk). assert (0 <= (N + k + k) / 8) by (apply Z.div_pos; lia).
  destruct Hsz as [->|(-> & Hle & Himg)]; [split; [pose proof sizeof_size_t_cases; lia|done]|].
  split; [lia|]. intros _. cbn [dt_fastMode].
  eapply (decompress_spec norm k syms); try done; try (simpl; lia).
Qed.

Lemma FSE_round_trip_witness :
  exists size mem' out',
    (let* ct := FSE_buildCTable_wksp (P := armeabi_v7a)
       {| ct_tableLog := 0; ct_maxSymbolValue := 0; ct_stateTable := replicate 32 0;
          ct_symbolTT := replicate 4 {| deltaFindState := 0; deltaNbBits := 0 |} |}
       [15; -1; 10; 6] 3 5 (replicate 82 0) in
     FSE_compress_usingCTable_generic (P := armeabi_v7a) (replicate 50 0) 3 40
       [0; 0; 2; 3; 0; 2; 1; 0; 0; 2; 3] 11 ct true) = Ok (size, mem') /\
    size = 4 /\
    (let* dt := FSE_buildDTable_wksp (P := armeabi_v7a)
       {| dt_tableLog := 0; dt_fastMode := 0;
          dt_table := replicate 32 {| newState := 0; symbol := 0; nbBits := 0 |} |}
       [15; -1; 10; 6] 3 5 (replicate 48 0) in
     FSE_decompress_usingDTable_generic (P := armeabi_v7a) (replicate 20 0) 1 11 mem' 3 size dt
       (dt_fastMode dt =? 1)) = Ok (11, out') /\
    slice out' 1 11 = [0; 0; 2; 3; 0; 2; 1; 0; 0; 2; 3].
Proof.
  destruct (FSE_round_trip (P := armeabi_v7a) [15; -1; 10; 6] 5
    {| ct_tableLog := 0; ct_maxSymbolValue := 0; ct_stateTable := replicate 32 0;
       ct_symbolTT := replicate 4 {| deltaFindState := 0; deltaNbBits := 0 |} |}
    {| dt_tableLog := 0; dt_fastMode := 0;
       dt_table := replicate 32 {| newState := 0; symbol := 0; nbBits := 0 |} |}
    (replicate 82 0) (replicate 48 0) [15; -1; 10; 6] true [0; 0; 2; 3; 0; 2; 1; 0; 0; 2; 3]
    (replicate 50 0) 3 40 (replicate 20 0) 1 11)
    as (ct & dt & size & mem' & Hc & Hd & Hcomp & _ & _ & _ & Hrt).
  - unfold norm_ok. vm_compute. repeat split; try congruence. repeat constructor; congruence.
  - vm_compute. congruence.
  - done.
  - vm_compute. congruence.
  - vm_compute. congruence.
  - vm_compute. congruence.
  - vm_compute. congruence.
  - vm_compute. congruence.
  - intros s. unfold freq. destruct (Z.to_nat s) as [|[|[|[|[|n]]]]]; vm_compute; reflexivity.
  - repeat constructor; vm_compute; congruence.
  - vm_compute. congruence.
  - eval_bytes.
  - lia.
  - vm_compute. congruence.
  - vm_compute. congruence.
  - vm_compute. congruence.
  - lia.
  - vm_compute. congruence.
  - vm_compute. congruence.
  - change (zlen [15; -1; 10; 6] - 1) with 3 in *. change (zlen [0; 0; 2; 3; 0; 2; 1; 0; 0; 2; 3]) with 11 in *.
    rewrite Hc, Hd. cbn [obind]. rewrite Hcomp.
    assert (size = 4) as Hs.
    { vm_compute in Hc. injection Hc as <-. vm_compute in Hcomp. by injection Hcomp. }
    destruct Hrt as (out' & Ho & Hsl); [lia|]. exists size, mem', out'.
    split; [done|]. split; [done|]. split; [done|]. done.
Defined.

(** C26: Decoding arbitrary bytes is safe.  On a table [FSE_buildDTable_wksp]
    made, [FSE_decompress_usingDTable_generic] never reads outside the source or
    writes outside the [maxDstSize] bytes it was given, whatever the source
    contains: it returns the number of symbols written or an error. *)
Theorem FSE_decompress_safe `{P : Platform} norm k counter dt wkD dt' dst ostart maxDstSize src cSrc cSrcSize :
  norm_ok norm k -> k <= FSE_MAX_TABLELOG -> norm `prefix_of` counter ->
  2 ^ k <= zlen (dt_table dt) -> FSE_BUILD_DTABLE_WKSP_SIZE k (zlen norm - 1) <= zlen wkD ->
  FSE_buildDTable_wksp dt counter (zlen norm - 1) k wkD = Ok dt' ->
  bytes dst -> 0 <= ostart -> 0 <= maxDstSize -> ostart + maxDstSize <= zlen dst ->
  bytes src -> 0 <= cSrc -> cSrc + cSrcSize <= zlen src ->
  safe (FSE_decompress_usingDTable_generic dst ostart maxDstSize src cSrc cSrcSize dt' (dt_fastMode dt' =? 1))
    (fun r => 0 <= r.1 <= maxDstSize /\ zlen r.2 = zlen dst /\ bytes r.2 /\
       forall i, Z.of_nat i < ostart \/ ostart + maxDstSize <= Z.of_nat i -> r.2 !! i = dst !! i).
Proof.
  intros Hn Hk Hpre Hdt HwD Hbd Hb Ho Hm Hroom Hbs Hs Hl.
  destruct (buildDTable_spec norm k counter Hn Hpre dt wkD) as (syms & Hsy & Hbd'); [done..|].
  unfold FSE_buildDTable_wksp in Hbd. rewrite Hbd in Hbd'. injection Hbd' as ->.
  destruct (dtable_ref_ok norm k syms (dt_table dt) Hn Hsy Hdt) as [_ Htab].
  eapply wp_mono; [eapply (decompress_generic_safe k _ _ cSrcSize dst ostart maxDstSize Hk Htab); done| |done].
  intros [n out] (Hn' & Hf). done.
Qed.

Lemma FSE_decompress_safe_witness :
  exists dt', FSE_buildDTable_wksp (P := arm64_v8a)
      {| dt_tableLog := 0; dt_fastMode := 0;
         dt_table := replicate 32 {| newState := 0; symbol := 0; nbBits := 0 |} |}
      [31; 1] 1 5 (replicate 44 0) = Ok dt' /\
    dt_fastMode dt' = 0 /\
    safe (FSE_decompress_usingDTable_generic (P := arm64_v8a) (replicate 20 0) 1 15 [7; 200; 5] 1 2 dt' false)
      (fun r => 0 <= r.1 <= 15 /\ zlen r.2 = 20).
Proof.
  destruct (FSE_buildDTable_wksp (P := arm64_v8a)
      {| dt_tableLog := 0; dt_fastMode := 0;
         dt_table := replicate 32 {| newState := 0; symbol := 0; nbBits := 0 |} |}
      [31; 1] 1 5 (replicate 44 0)) as [dt'|e|f] eqn:E; [|vm_compute in E; discriminate E..].
  assert (dt_fastMode dt' = 0) as Hf by (vm_compute in E; by injection E as <-).
  exists dt'. split; [done|]. split; [done|].
  assert (false = (dt_fastMode dt' =? 1)) as -> by (by rewrite Hf).
  eapply wp_mono; [apply (FSE_decompress_safe (P := arm64_v8a) [31; 1] 5 [31; 1]
      {| dt_tableLog := 0; dt_fastMode := 0;
         dt_table := replicate 32 {| newState := 0; symbol := 0; nbBits := 0 |} |} (replicate 44 0)
      dt' (replicate 20 0) 1 15 [7; 200; 5] 1 2)| |done].
  - unfold norm_ok. vm_compute. repeat split; try congruence. repeat constructor; congruence.
  - vm_compute. congruence.
  - done.
  - vm_compute. congruence.
  - vm_compute. congruence.
  - exact E.
  - eval_bytes.
  - lia.
  - lia.
  - vm_compute. congruence.
  - eval_bytes.
  - lia.
  - vm_compute. congruence.
  - intros r (H1 & H2 & _). split; [exact H1|exact H2].
Defined.
