(* ===== verification/NCount.v ===== *)
(** * entropy_common.c, fse_compress.c: the header of normalized counts

    [FSE_readNCount_body] parses the compact description of a distribution that
    precedes FSE-coded data, [FSE_writeNCount_generic] writes it.  Counts are
    coded with a number of bits that shrinks as the points still to distribute
    do; runs of zero counts are coded two bits per three symbols. *)
From S2P Require Import Prelude Mem Errors Bits BitStream Fse FseSpread.

Section Definitions.
Context `{P : Platform}.

(** ** Reading *)

(** The local variables of the loop. *)
Record rn_state := {
  rn_ip : Z; rn_bitStream : Z; rn_bitCount : Z;
  rn_remaining : Z; rn_threshold : Z; rn_nbBits : Z;
  rn_charnum : Z; rn_previous0 : bool; rn_counter : list Z
}.

(** [ZSTD_countTrailingZeros32(~bitStream | 0x80000000) >> 1] *)
Definition rn_repeats (bitStream : Z) : res Z :=
  let* t := ZSTD_countTrailingZeros32 (Z.lor (u32 (Z.lnot bitStream)) 0x80000000) in
  Ok (Z.shiftr t 1).

(** [while (repeats >= 12)]: 24 bits of repeat codes at a time.
    ([ip], [bitCount], [bitStream], [charnum], [repeats]). *)
Definition rn_long_run (hdr : list Z) (iend : Z) (st : Z * Z * Z * Z * Z)
  : res (Z * Z * Z * Z * Z + Z * Z * Z * Z * Z) :=
  let '(ip, bitCount, bitStream, charnum, repeats) := st in
  if repeats <? 12 then Ok (inr st)
  else
    let charnum := u32 (charnum + 3 * 12) in
    let '(ip, bitCount) :=
      if ip <=? iend - 7 then (ip + 3, bitCount)
      else (iend - 4, Z.land (bitCount - 8 * (iend - 7 - ip)) 31) in
    let* w := MEM_readLE32 hdr ip in
    let bitStream := Z.shiftr w bitCount in
    let* repeats := rn_repeats bitStream in
    Ok (inl (ip, bitCount, bitStream, charnum, repeats)).

(** Moving the 32-bit window to the next unread byte, or to the last four. *)
Definition rn_window (iend ip bitCount : Z) : Z * Z :=
  if (ip <=? iend - 7) || (ip + Z.shiftr bitCount 3 <=? iend - 4)
  then (ip + Z.shiftr bitCount 3, Z.land bitCount 7)
  else (iend - 4, Z.land (bitCount - 8 * (iend - 4 - ip)) 31).

(** A run of zero counts; [inr] is the [break] on too many symbols. *)
Definition rn_zeros (hdr : list Z) (iend maxSV1 : Z) (st : rn_state) : res (rn_state + rn_state) :=
  let* repeats := rn_repeats (rn_bitStream st) in
  let* (ip, bitCount, bitStream, charnum, repeats) :=
    loop (S (S (S (S (Z.to_nat iend))))) (rn_long_run hdr iend)
      (rn_ip st, rn_bitCount st, rn_bitStream st, rn_charnum st, repeats) in
  let charnum := u32 (charnum + 3 * repeats) in
  let bitStream := Z.shiftr bitStream (2 * repeats) in
  let bitCount := bitCount + 2 * repeats in
  oassert (Z.land bitStream 3 <? 3) ;;;
  let charnum := u32 (charnum + Z.land bitStream 3) in
  let bitCount := bitCount + 2 in
  let st := {| rn_ip := ip; rn_bitStream := bitStream; rn_bitCount := bitCount;
               rn_remaining := rn_remaining st; rn_threshold := rn_threshold st; rn_nbBits := rn_nbBits st;
               rn_charnum := charnum; rn_previous0 := rn_previous0 st; rn_counter := rn_counter st |} in
  if maxSV1 <=? charnum then Ok (inr st)
  else
    oassert (negb ((ip <=? iend - 7) || (ip + Z.shiftr bitCount 3 <=? iend - 4))
             || (Z.shiftr bitCount 3 <=? 3)) ;;;
    let '(ip, bitCount) := rn_window iend ip bitCount in
    let* w := MEM_readLE32 hdr ip in
    Ok (inl {| rn_ip := ip; rn_bitStream := Z.shiftr w bitCount; rn_bitCount := bitCount;
               rn_remaining := rn_remaining st; rn_threshold := rn_threshold st; rn_nbBits := rn_nbBits st;
               rn_charnum := charnum; rn_previous0 := rn_previous0 st; rn_counter := rn_counter st |}).

(** One count: ([count], [bitCount]) before [count--]. *)
Definition rn_count (st : rn_state) : Z * Z :=
  let threshold := rn_threshold st in
  let max := (2 * threshold - 1) - rn_remaining st in
  if Z.land (rn_bitStream st) (threshold - 1) <? u32 max then
    (Z.land (rn_bitStream st) (threshold - 1), rn_bitCount st + (rn_nbBits st - 1))
  else
    let count := Z.land (rn_bitStream st) (2 * threshold - 1) in
    (if threshold <=? count then count - max else count, rn_bitCount st + rn_nbBits st).

(** The body of [for (;;)]; [inr] is a [break]. *)
Definition rn_body (hdr : list Z) (iend maxSV1 : Z) (st : rn_state) : res (rn_state + rn_state) :=
  let* r := if rn_previous0 st then rn_zeros hdr iend maxSV1 st else Ok (inl st) in
  match r with
  | inr st => Ok (inr st)
  | inl st =>
      let '(count, bitCount) := rn_count st in
      let count := count - 1 in
      let* remaining :=
        if 0 <=? count then Ok (rn_remaining st - count)
        else oassert (count =? -1) ;;; Ok (rn_remaining st + count) in
      let* counter := aset (rn_counter st) (rn_charnum st) (s16 count) in
      let charnum := u32 (rn_charnum st + 1) in
      let previous0 := count =? 0 in
      let st1 := {| rn_ip := rn_ip st; rn_bitStream := rn_bitStream st; rn_bitCount := bitCount;
                    rn_remaining := remaining; rn_threshold := rn_threshold st; rn_nbBits := rn_nbBits st;
                    rn_charnum := charnum; rn_previous0 := previous0; rn_counter := counter |} in
      oassert (1 <? rn_threshold st) ;;;
      if (remaining <? rn_threshold st) && (remaining <=? 1) then Ok (inr st1)
      else
        let* nbBits := if remaining <? rn_threshold st
                       then let* hb := ZSTD_highbit32 remaining in Ok (hb + 1)
                       else Ok (rn_nbBits st) in
        let threshold := if remaining <? rn_threshold st then Z.shiftl 1 (nbBits - 1) else rn_threshold st in
        let st2 := {| rn_ip := rn_ip st; rn_bitStream := rn_bitStream st; rn_bitCount := bitCount;
                      rn_remaining := remaining; rn_threshold := threshold; rn_nbBits := nbBits;
                      rn_charnum := charnum; rn_previous0 := previous0; rn_counter := counter |} in
        if maxSV1 <=? charnum then Ok (inr st2)
        else
          let '(ip, bitCount) := rn_window iend (rn_ip st) bitCount in
          let* w := MEM_readLE32 hdr ip in
          Ok (inl {| rn_ip := ip; rn_bitStream := Z.shiftr w bitCount; rn_bitCount := bitCount;
                     rn_remaining := remaining; rn_threshold := threshold; rn_nbBits := nbBits;
                     rn_charnum := charnum; rn_previous0 := previous0; rn_counter := counter |})
  end.

(** What [FSE_readNCount] stores through its pointers, and the size it returns. *)
Record ncount := { nc_size : Z; nc_counter : list Z; nc_maxSV : Z; nc_tableLog : Z }.

(** [FSE_readNCount_body] for a header of at least eight bytes. *)
Definition FSE_readNCount_long (normalizedCounter : list Z) (maxSV : Z)
    (hdr : list Z) (istart hbSize : Z) : res ncount :=
  let iend := istart + hbSize in
  let maxSV1 := maxSV + 1 in
  oassert (8 <=? hbSize) ;;;
  let* normalizedCounter := awrite normalizedCounter 0 (replicate (Z.to_nat maxSV1) 0) in
  let* bitStream := MEM_readLE32 hdr istart in
  let nbBits := Z.land bitStream 0xF + FSE_MIN_TABLELOG in
  reject_if (FSE_TABLELOG_ABSOLUTE_MAX <? nbBits) ZSTD_error_tableLog_tooLarge ;;;
  let* st := loop (S (Z.to_nat maxSV1)) (rn_body hdr iend maxSV1)
    {| rn_ip := istart; rn_bitStream := Z.shiftr bitStream 4; rn_bitCount := 4;
       rn_remaining := Z.shiftl 1 nbBits + 1; rn_threshold := Z.shiftl 1 nbBits; rn_nbBits := nbBits + 1;
       rn_charnum := 0; rn_previous0 := false; rn_counter := normalizedCounter |} in
  reject_if (negb (rn_remaining st =? 1)) ZSTD_error_corruption_detected ;;;
  reject_if (maxSV1 <? rn_charnum st) ZSTD_error_maxSymbolValue_tooSmall ;;;
  reject_if (32 <? rn_bitCount st) ZSTD_error_corruption_detected ;;;
  Ok {| nc_size := rn_ip st + Z.shiftr (rn_bitCount st + 7) 3 - istart;
        nc_counter := rn_counter st; nc_maxSV := u32 (rn_charnum st - 1); nc_tableLog := nbBits |}.

(** A shorter header is copied to a buffer of eight bytes first. *)
Definition FSE_readNCount_body (normalizedCounter : list Z) (maxSV : Z)
    (hdr : list Z) (istart hbSize : Z) : res ncount :=
  if hbSize <? 8 then
    let* h := asub hdr istart hbSize in
    let* buffer := awrite (replicate 8 0) 0 h in
    let* r := FSE_readNCount_long normalizedCounter maxSV buffer 0 8 in
    reject_if (hbSize <? nc_size r) ZSTD_error_corruption_detected ;;;
    Ok r
  else FSE_readNCount_long normalizedCounter maxSV hdr istart hbSize.

Definition FSE_readNCount := FSE_readNCount_body.

(** ** Writing *)

Definition FSE_NCOUNTBOUND : Z := 512.

Definition FSE_NCountWriteBound (maxSymbolValue tableLog : Z) : Z :=
  let maxHeaderSize := ((maxSymbolValue + 1) * tableLog + 4 + 2) / 8 + 1 + 2 in
  if maxSymbolValue =? 0 then FSE_NCOUNTBOUND else maxHeaderSize.

Record wn_state := {
  wn_buf : list Z; wn_out : Z; wn_bitStream : Z; wn_bitCount : Z;
  wn_remaining : Z; wn_threshold : Z; wn_nbBits : Z; wn_symbol : Z; wn_previousIs0 : bool
}.

(** The low 16 bits of [bitStream] go to [out[0..1]]. *)
Definition wn_put (buf : list Z) (oend out bitStream : Z) (writeIsSafe : bool) : res (list Z) :=
  reject_if (negb writeIsSafe && (oend - 2 <? out)) ZSTD_error_dstSize_tooSmall ;;;
  let* buf := aset buf out (u8 bitStream) in
  aset buf (out + 1) (u8 (Z.shiftr bitStream 8)).

(** [if (bitCount>16) { ... }]: ([buf], [out], [bitStream], [bitCount]). *)
Definition wn_flush (buf : list Z) (oend out bitStream bitCount : Z) (writeIsSafe : bool)
  : res (list Z * Z * Z * Z) :=
  if 16 <? bitCount then
    let* buf := wn_put buf oend out bitStream writeIsSafe in
    Ok (buf, out + 2, Z.shiftr bitStream 16, bitCount - 16)
  else Ok (buf, out, bitStream, bitCount).

(** [while ((symbol < alphabetSize) && !normalizedCounter[symbol]) symbol++;] *)
Definition wn_skip_zeros (normalizedCounter : list Z) (alphabetSize symbol : Z) : res Z :=
  loop (S (Z.to_nat alphabetSize)) (fun symbol =>
    if symbol <? alphabetSize then
      let* n := aget normalizedCounter symbol in
      if n =? 0 then Ok (inl (symbol + 1)) else Ok (inr symbol)
    else Ok (inr symbol)) symbol.

(** [while (symbol >= start+24)]: ([buf], [out], [bitStream], [start]). *)
Definition wn_run24 (oend bitCount symbol : Z) (writeIsSafe : bool) (st : list Z * Z * Z * Z)
  : res (list Z * Z * Z * Z + list Z * Z * Z * Z) :=
  let '(buf, out, bitStream, start) := st in
  if start + 24 <=? symbol then
    let bitStream := u32 (bitStream + u32 (Z.shiftl 0xFFFF bitCount)) in
    let* buf := wn_put buf oend out bitStream writeIsSafe in
    Ok (inl (buf, out + 2, Z.shiftr bitStream 16, start + 24))
  else Ok (inr st).

(** [while (symbol >= start+3)]: ([bitStream], [bitCount], [start]). *)
Definition wn_run3 (symbol : Z) (st : Z * Z * Z) : res (Z * Z * Z + Z * Z * Z) :=
  let '(bitStream, bitCount, start) := st in
  if start + 3 <=? symbol
  then Ok (inl (u32 (bitStream + u32 (Z.shiftl 3 bitCount)), bitCount + 2, start + 3))
  else Ok (inr st).

(** The repeat codes of a run of zeros; [None] is the [break] on an alphabet
    that ends inside it. *)
Definition wn_zeros (normalizedCounter : list Z) (oend alphabetSize : Z) (writeIsSafe : bool)
    (st : wn_state) : res (wn_state + wn_state) :=
  let start := wn_symbol st in
  let* symbol := wn_skip_zeros normalizedCounter alphabetSize start in
  if symbol =? alphabetSize then
    Ok (inr {| wn_buf := wn_buf st; wn_out := wn_out st; wn_bitStream := wn_bitStream st;
               wn_bitCount := wn_bitCount st; wn_remaining := wn_remaining st;
               wn_threshold := wn_threshold st; wn_nbBits := wn_nbBits st; wn_symbol := symbol;
               wn_previousIs0 := wn_previousIs0 st |})
  else
    let* (buf, out, bitStream, start) := loop (S (Z.to_nat alphabetSize))
      (wn_run24 oend (wn_bitCount st) symbol writeIsSafe) (wn_buf st, wn_out st, wn_bitStream st, start) in
    let* (bitStream, bitCount, start) := loop (S (Z.to_nat alphabetSize))
      (wn_run3 symbol) (bitStream, wn_bitCount st, start) in
    let bitStream := u32 (bitStream + u32 (Z.shiftl (symbol - start) bitCount)) in
    let bitCount := bitCount + 2 in
    let* (buf, out, bitStream, bitCount) := wn_flush buf oend out bitStream bitCount writeIsSafe in
    Ok (inl {| wn_buf := buf; wn_out := out; wn_bitStream := bitStream; wn_bitCount := bitCount;
               wn_remaining := wn_remaining st; wn_threshold := wn_threshold st; wn_nbBits := wn_nbBits st;
               wn_symbol := symbol; wn_previousIs0 := wn_previousIs0 st |}).

(** [while (remaining<threshold) { nbBits--; threshold>>=1; }] *)
Definition wn_shrink (remaining nbBits threshold : Z) : res (Z * Z) :=
  loop (S (Z.to_nat nbBits)) (fun '(nbBits, threshold) =>
    if remaining <? threshold then Ok (inl (nbBits - 1, Z.shiftr threshold 1))
    else Ok (inr (nbBits, threshold))) (nbBits, threshold).

(** The body of the main loop; [inr] when its condition fails or on [break]. *)
Definition wn_body (normalizedCounter : list Z) (oend alphabetSize : Z) (writeIsSafe : bool)
    (st : wn_state) : res (wn_state + wn_state) :=
  if negb ((wn_symbol st <? alphabetSize) && (1 <? wn_remaining st)) then Ok (inr st)
  else
    let* r := if wn_previousIs0 st then wn_zeros normalizedCounter oend alphabetSize writeIsSafe st
              else Ok (inl st) in
    match r with
    | inr st => Ok (inr st)
    | inl st =>
        let* count := aget normalizedCounter (wn_symbol st) in
        let max := (2 * wn_threshold st - 1) - wn_remaining st in
        let remaining := wn_remaining st - (if count <? 0 then - count else count) in
        let count := count + 1 in
        let count := if wn_threshold st <=? count then count + max else count in
        let bitStream := u32 (wn_bitStream st + u32 (Z.shiftl (u32 count) (wn_bitCount st))) in
        let bitCount := wn_bitCount st + wn_nbBits st - (if count <? max then 1 else 0) in
        let previousIs0 := count =? 1 in
        reject_if (remaining <? 1) ZSTD_error_GENERIC ;;;
        let* (nbBits, threshold) := wn_shrink remaining (wn_nbBits st) (wn_threshold st) in
        let* (buf, out, bitStream, bitCount) :=
          wn_flush (wn_buf st) oend (wn_out st) bitStream bitCount writeIsSafe in
        Ok (inl {| wn_buf := buf; wn_out := out; wn_bitStream := bitStream; wn_bitCount := bitCount;
                   wn_remaining := remaining; wn_threshold := threshold; wn_nbBits := nbBits;
                   wn_symbol := wn_symbol st + 1; wn_previousIs0 := previousIs0 |})
    end.

(** The size of the header and the buffer it was written to. *)
Definition FSE_writeNCount_generic (header : list Z) (ostart headerBufferSize : Z)
    (normalizedCounter : list Z) (maxSymbolValue tableLog : Z) (writeIsSafe : bool) : res (Z * list Z) :=
  let oend := ostart + headerBufferSize in
  let tableSize := Z.shiftl 1 tableLog in
  let alphabetSize := maxSymbolValue + 1 in
  let* st := loop (S (S (Z.to_nat alphabetSize))) (wn_body normalizedCounter oend alphabetSize writeIsSafe)
    {| wn_buf := header; wn_out := ostart; wn_bitStream := u32 (tableLog - FSE_MIN_TABLELOG); wn_bitCount := 4;
       wn_remaining := tableSize + 1; wn_threshold := tableSize; wn_nbBits := tableLog + 1;
       wn_symbol := 0; wn_previousIs0 := false |} in
  reject_if (negb (wn_remaining st =? 1)) ZSTD_error_GENERIC ;;;
  oassert (wn_symbol st <=? alphabetSize) ;;;
  let* buf := wn_put (wn_buf st) oend (wn_out st) (wn_bitStream st) writeIsSafe in
  let out := wn_out st + (wn_bitCount st + 7) / 8 in
  oassert (ostart <=? out) ;;;
  Ok (out - ostart, buf).

Definition FSE_writeNCount (buffer : list Z) (ostart bufferSize : Z)
    (normalizedCounter : list Z) (maxSymbolValue tableLog : Z) : res (Z * list Z) :=
  reject_if (FSE_MAX_TABLELOG <? tableLog) ZSTD_error_tableLog_tooLarge ;;;
  reject_if (tableLog <? FSE_MIN_TABLELOG) ZSTD_error_GENERIC ;;;
  if bufferSize <? FSE_NCountWriteBound maxSymbolValue tableLog
  then FSE_writeNCount_generic buffer ostart bufferSize normalizedCounter maxSymbolValue tableLog false
  else FSE_writeNCount_generic buffer ostart bufferSize normalizedCounter maxSymbolValue tableLog true.
End Definitions.

(** ** Reading any header is safe *)

Section Repeats.
Context `{P : Platform}.

(** [~bitStream | 0x80000000] as a number. *)
Lemma repeats_arg bs i :
  0 <= bs < 2 ^ 32 -> 0 <= i < 31 ->
  Z.testbit (Z.lor (u32 (Z.lnot bs)) 0x80000000) i = negb (Z.testbit bs i).
Proof.
  intros Hbs Hi. rewrite Z.lor_spec, testbit_wrap, Z.lnot_spec by lia.
  rewrite (proj2 (Z.ltb_lt i 32)) by lia. change 0x80000000 with (2 ^ 31).
  rewrite Z.pow2_bits_false by lia. by rewrite orb_false_r.
Qed.

Lemma repeats_range bs :
  0 < Z.lor (u32 (Z.lnot bs)) 0x80000000 < 2 ^ 32.
Proof.
  set (v := Z.lor _ _). assert (0 <= v).
  { apply Z.lor_nonneg. split; [|lia]. apply wrap_range. lia. }
  assert (Z.testbit v 31 = true) as Hb.
  { unfold v. rewrite Z.lor_spec. change 0x80000000 with (2 ^ 31). rewrite Z.pow2_bits_true by lia.
    apply orb_true_r. }
  split; [destruct (decide (v = 0)) as [E|]; [rewrite E in Hb; done|lia]|].
  apply Z.log2_lt_cancel. change (Z.log2 (2 ^ 32)) with 32. unfold v.
  pose proof (wrap_range 32 (Z.lnot bs) ltac:(lia)) as Hr. rewrite Z.log2_lor by lia.
  assert (Z.log2 (u32 (Z.lnot bs)) < 32); [|change (Z.log2 2147483648) with 31; lia].
  destruct (decide (u32 (Z.lnot bs) = 0)) as [-> |]; [done|]. apply Z.log2_lt_pow2; lia.
Qed.

Lemma repeats_spec bs :
  0 <= bs < 2 ^ 32 ->
  exists r, rn_repeats bs = Ok r /\ 0 <= r <= 15 /\
    (r < 12 -> Z.land (Z.shiftr bs (2 * r)) 3 < 3) /\ (bs < 2 ^ 23 -> r < 12).
Proof.
  intros Hbs. pose proof (repeats_range bs) as Hr. unfold rn_repeats. rewrite ctz32_val by done. cbn [obind].
  set (v := Z.lor _ _) in *. destruct (builtin_ctz_spec v) as (Ht & Hz & Ho); [lia|].
  pose proof (builtin_ctz_lt v 32 Hr) as Ht'. set (t := builtin_ctz v) in *.
  rewrite Z.shiftr_div_pow2 by lia. change (2 ^ 1) with 2.
  pose proof (Z.div_mod t 2 ltac:(lia)) as Hd. pose proof (Z.mod_pos_bound t 2 ltac:(lia)).
  eexists. split; [reflexivity|]. split; [lia|].
  assert (Z.testbit v t = true) as Hvt.
  { rewrite <- Ho, <- Z.bit0_odd, Z.div_pow2_bits by lia. f_equal. }
  split.
  - intros Hlt. assert (Z.testbit bs t = false) as Hbt.
    { unfold v in Hvt. rewrite repeats_arg in Hvt by lia. by destruct (Z.testbit bs t). }
    set (x := Z.shiftr bs (2 * (t / 2))).
    change 3 with (2 ^ 2 - 1) at 1. rewrite land_ones_wrap by lia. pose proof (wrap_range 2 x ltac:(lia)) as Hw.
    destruct (decide (wrap 2 x = 3)) as [E|]; [|lia]. exfalso.
    assert (Z.testbit (wrap 2 x) (t mod 2) = false) as Hf.
    { rewrite testbit_wrap by lia. unfold x. rewrite Z.shiftr_spec by lia.
      replace (t mod 2 + 2 * (t / 2)) with t by lia. rewrite Hbt. apply andb_false_r. }
    rewrite E in Hf. assert (t mod 2 = 0 \/ t mod 2 = 1) as [E'|E'] by lia; rewrite E' in Hf; done.
  - intros Hsm. destruct (Z.lt_ge_cases (t / 2) 12) as [|Hge]; [done|]. exfalso.
    assert (Z.testbit v 23 = true) as H23.
    { unfold v. rewrite repeats_arg by lia. by rewrite (testbit_small bs 23) by lia. }
    assert (Z.testbit (v mod 2 ^ t) 23 = true) as E by (rewrite Z.mod_pow2_bits_low by lia; done).
    rewrite Hz in E. done.
Qed.
End Repeats.

Section ReadSafe.
Context `{P : Platform} (hdr : list Z) (istart hbSize maxSV : Z) (counter0 : list Z) (k : Z).
Hypothesis Hbytes : bytes hdr.
Hypothesis Hstart : 0 <= istart.
Hypothesis Hsize : 8 <= hbSize < 2 ^ 24.
Hypothesis Hend : istart + hbSize <= zlen hdr.
Hypothesis HmaxSV : 0 <= maxSV <= 255.
Hypothesis Hcounter : maxSV + 1 <= zlen counter0.
Hypothesis Hk : 5 <= k <= 15.
Let iend := istart + hbSize.

Lemma read_window ip bitCount :
  istart <= ip <= iend - 4 -> 0 <= bitCount <= 31 ->
  exists w, MEM_readLE32 hdr ip = (Ok w : res Z) /\ 0 <= Z.shiftr w bitCount < 2 ^ (32 - bitCount).
Proof.
  intros Hip Hb. rewrite MEM_readLE32_val by (done || (unfold iend in *; lia)). eexists; split; [reflexivity|].
  pose proof (le_val_slice_range hdr ip 4 Hbytes ltac:(lia) ltac:(lia) ltac:(unfold iend in *; lia)).
  rewrite Z.shiftr_div_pow2 by lia. assert (0 < 2 ^ bitCount) by (apply pow2_pos; lia). split.
  - apply Z.div_pos; lia.
  - apply Z.div_lt_upper_bound; [lia|]. rewrite <- Z.pow_add_r by lia.
    replace (bitCount + (32 - bitCount)) with (8 * 4) by lia. lia.
Qed.

(** Where the window may be: at most 7 bits into it, or on the last four bytes. *)
Definition pos_ok (ip bitCount : Z) : Prop :=
  istart <= ip <= iend - 4 /\ 0 <= bitCount <= 31 /\ (ip < iend - 4 -> bitCount <= 7).

Lemma window_ok ip bitCount :
  istart <= ip <= iend - 4 -> 0 <= bitCount -> (ip < iend - 4 -> bitCount <= 31) ->
  let '(ip', bitCount') := rn_window iend ip bitCount in pos_ok ip' bitCount'.
Proof.
  intros Hip Hb H31. unfold rn_window. rewrite (Z.shiftr_div_pow2 bitCount 3) by lia. change (2 ^ 3) with 8.
  pose proof (Z.div_mod bitCount 8 ltac:(lia)). pose proof (Z.mod_pos_bound bitCount 8 ltac:(lia)).
  assert (forall x n, 0 <= n -> 0 <= Z.land x (2 ^ n - 1) < 2 ^ n) as Hland.
  { intros x n Hn. rewrite land_ones_wrap by lia. by apply wrap_range. }
  unfold pos_ok. destruct (Z.leb_spec ip (iend - 7)), (Z.leb_spec (ip + bitCount / 8) (iend - 4)); cbn [orb].
  - specialize (Hland bitCount 3 ltac:(lia)). change (2 ^ 3 - 1) with 7 in Hland. change (2 ^ 3) with 8 in Hland. assert (0 <= bitCount / 8) by (apply Z.div_pos; lia). lia.
  - specialize (Hland bitCount 3 ltac:(lia)). change (2 ^ 3 - 1) with 7 in Hland. change (2 ^ 3) with 8 in Hland. lia.
  - specialize (Hland bitCount 3 ltac:(lia)). change (2 ^ 3 - 1) with 7 in Hland. change (2 ^ 3) with 8 in Hland. assert (0 <= bitCount / 8) by (apply Z.div_pos; lia). lia.
  - specialize (Hland (bitCount - 8 * (iend - 4 - ip)) 5 ltac:(lia)). change (2 ^ 5 - 1) with 31 in Hland. change (2 ^ 5) with 32 in Hland.
    unfold iend in *. split; [lia|]. split; [|lia]. lia.
Qed.

(** The long run of zeros: each round moves the window on, or changes the bits
    already read of the last one so that fewer than 12 repeats are left. *)
Definition run_measure (st : Z * Z * Z * Z * Z) : Z :=
  let '(ip, bitCount, bitStream, charnum, repeats) := st in
  (iend - 4 - ip) + (if repeats <? 12 then 0 else if bitCount <=? 7 then 1 else 2).

Definition run_inv (charnum0 limit : Z) (st : Z * Z * Z * Z * Z) : Prop :=
  let '(ip, bitCount, bitStream, charnum, repeats) := st in
  pos_ok ip bitCount /\ 0 <= bitStream < 2 ^ (32 - bitCount) /\ rn_repeats bitStream = Ok repeats /\
  charnum0 <= charnum /\ charnum + 36 * run_measure st <= limit.

Lemma few_repeats bitCount bitStream r :
  0 <= bitCount <= 31 -> 0 <= bitStream < 2 ^ (32 - bitCount) -> rn_repeats bitStream = Ok r ->
  0 <= r <= 15 /\ (9 <= bitCount -> r < 12).
Proof.
  intros Hb Hs Hr. assert (2 ^ (32 - bitCount) <= 2 ^ 32) by (apply pow_mono; lia).
  destruct (repeats_spec bitStream) as (r' & E & Hrr & _ & Hsm); [lia|]. assert (r' = r) as -> by congruence.
  split; [done|]. intros H9. apply Hsm. assert (2 ^ (32 - bitCount) <= 2 ^ 23) by (apply pow_mono; lia). lia.
Qed.

Lemma land31 x : 0 <= x < 64 -> Z.land x 31 = if x <? 32 then x else x - 32.
Proof.
  intros Hx. change 31 with (2 ^ 5 - 1). rewrite land_ones_wrap by lia. unfold wrap. change (2 ^ 5) with 32.
  destruct (Z.ltb_spec x 32); [apply Z.mod_small; lia|]. symmetry. apply Z.mod_unique_pos with 1; lia.
Qed.

Lemma run_measure_nonneg ip bitCount bs charnum r :
  pos_ok ip bitCount -> 0 <= run_measure (ip, bitCount, bs, charnum, r).
Proof. intros (H & _). unfold run_measure. zcases; lia. Qed.

Lemma long_run_step charnum0 limit st :
  0 <= charnum0 -> limit < 2 ^ 32 -> run_inv charnum0 limit st ->
  wp (rn_long_run hdr iend st) (fun r => match r with
    | inl st' => run_inv charnum0 limit st' /\ run_measure st' < run_measure st
    | inr st' => run_inv charnum0 limit st' /\ st'.2 < 12 end) (fun _ => False).
Proof.
  intros Hc0 Hlim. destruct st as [[[[ip bitCount] bitStream] charnum] repeats].
  intros (Hpos & Hbs & Hrep & Hch & Hm). unfold rn_long_run.
  destruct (Z.ltb_spec repeats 12) as [Hlt|Hge]; [simpl; done|].
  pose proof Hpos as (Hip & Hbc & H7).
  destruct (few_repeats bitCount bitStream repeats Hbc Hbs Hrep) as [Hr15 H9].
  assert (bitCount <= 8) by lia.
  set (ip' := if ip <=? iend - 7 then ip + 3 else iend - 4).
  set (bc' := if ip <=? iend - 7 then bitCount else Z.land (bitCount - 8 * (iend - 7 - ip)) 31).
  assert ((if ip <=? iend - 7 then (ip + 3, bitCount)
           else (iend - 4, Z.land (bitCount - 8 * (iend - 7 - ip)) 31)) = (ip', bc')) as ->
    by (unfold ip', bc'; by destruct (ip <=? iend - 7)).
  assert (pos_ok ip' bc' /\ iend - 4 - ip' + (if bc' <=? 8 then if bc' <=? 7 then 1 else 2 else 0) <
            run_measure (ip, bitCount, bitStream, charnum, repeats)) as [Hpos' Hlt'].
  { unfold pos_ok, run_measure, ip', bc'. rewrite (proj2 (Z.ltb_ge repeats 12)) by done.
    destruct (Z.leb_spec ip (iend - 7)).
    - destruct (Z.leb_spec bitCount 7), (Z.leb_spec bitCount 8); lia.
    - rewrite land31 by lia. zcases; lia. }
  destruct (read_window ip' bc') as (w & -> & Hw); [apply Hpos'|apply Hpos'|]. cbn [obind].
  assert (2 ^ (32 - bc') <= 2 ^ 32) by (apply pow_mono; destruct Hpos'; lia).
  destruct (repeats_spec (Z.shiftr w bc')) as (r' & Hr' & Hrr & _); [lia|]. rewrite Hr'. cbn [obind wp].
  destruct (few_repeats bc' _ r' ltac:(apply Hpos') Hw Hr') as [_ H9'].
  assert (run_measure (ip', bc', Z.shiftr w bc', u32 (charnum + 36), r') <=
    iend - 4 - ip' + (if bc' <=? 8 then if bc' <=? 7 then 1 else 2 else 0)) as Hle.
  { unfold run_measure. zcases; lia. }
  pose proof (run_measure_nonneg ip' bc' (Z.shiftr w bc') (u32 (charnum + 36)) r' Hpos').
  change (3 * 12) with 36. assert (u32 (charnum + 36) = charnum + 36) as Hu by (apply wrap_small; lia).
  split; [|lia]. split; [done|]. split; [done|]. split; [done|]. rewrite Hu in *. lia.
Qed.

(** The state between two counts. *)
Definition rn_inv (st : rn_state) : Prop :=
  pos_ok (rn_ip st) (rn_bitCount st) /\ 0 <= rn_bitStream st < 2 ^ (32 - rn_bitCount st) /\
  2 <= rn_nbBits st <= 16 /\ rn_threshold st = 2 ^ (rn_nbBits st - 1) /\
  2 <= rn_remaining st <= 2 ^ k + 1 /\ rn_threshold st <= rn_remaining st < 2 * rn_threshold st /\
  0 <= rn_charnum st <= maxSV.

(** The counts found so far: the first [charnum], the others still zero. *)
Definition rn_counts (charnum remaining : Z) (counter : list Z) : Prop :=
  zlen counter = zlen counter0 /\
  (forall i, maxSV < Z.of_nat i -> counter !! i = counter0 !! i) /\
  (forall i, charnum <= Z.of_nat i <= maxSV -> counter !! i = Some 0) /\
  (k <= 14 -> Forall (fun n => -1 <= n) (take (Z.to_nat charnum) counter) /\
     total (take (Z.to_nat charnum) counter) = 2 ^ k + 1 - remaining).

Lemma take_zeros counter c c' :
  0 <= c <= c' -> c' <= zlen counter -> (forall i, c <= Z.of_nat i < c' -> counter !! i = Some 0) ->
  exists n, take (Z.to_nat c') counter = take (Z.to_nat c) counter ++ replicate n 0.
Proof.
  intros Hc Hz Hzero. exists (Z.to_nat (c' - c)).
  replace (Z.to_nat c') with (Z.to_nat c + Z.to_nat (c' - c))%nat by lia.
  rewrite <- take_take_drop. f_equal. apply list_eq. intros i.
  destruct (decide (i < Z.to_nat (c' - c))%nat).
  - rewrite lookup_take_lt, lookup_drop, lookup_replicate_2 by lia. apply Hzero. lia.
  - rewrite !lookup_ge_None_2; [done| |]; [rewrite length_replicate|rewrite length_take]; lia.
Qed.

Lemma total_replicate0 n : total (replicate n 0) = 0.
Proof. induction n as [|n IH]; [done|]. simpl. rewrite IH. done. Qed.

(** Skipping zeros. *)
Lemma counts_skip c c' remaining counter :
  0 <= c <= c' -> c' <= maxSV + 1 -> rn_counts c remaining counter -> rn_counts c' remaining counter.
Proof.
  intros Hc Hc' (Hz & Hout & Hzero & Htot). split; [done|]. split; [done|].
  split; [intros i Hi; apply Hzero; lia|]. intros Hk14. destruct (Htot Hk14) as [Hf Ht].
  destruct (take_zeros counter c c') as [n ->]; [lia|lia|intros i Hi; apply Hzero; lia|].
  rewrite Forall_app, total_app, total_replicate0. split; [split; [done|]|lia].
  apply Forall_replicate. lia.
Qed.

(** Storing a count. *)
Lemma counts_store c remaining counter n :
  0 <= c <= maxSV -> -1 <= n <= 2 ^ k -> rn_counts c remaining counter ->
  exists counter', aset counter c (s16 n) = (Ok counter' : res (list Z)) /\
    rn_counts (c + 1) (remaining - occ n) counter'.
Proof.
  intros Hc Hn (Hz & Hout & Hzero & Htot). rewrite aset_Ok by lia. eexists; split; [reflexivity|].
  split; [by rewrite zlen_insert|]. split; [intros i Hi; rewrite list_lookup_insert_ne by lia; by apply Hout|].
  split; [intros i Hi; rewrite list_lookup_insert_ne by lia; apply Hzero; lia|].
  intros Hk14. destruct (Htot Hk14) as [Hf Ht].
  assert (2 ^ k <= 2 ^ 14) by (apply pow_mono; lia). rewrite sgn_small by lia.
  replace (Z.to_nat (c + 1)) with (S (Z.to_nat c)) by lia.
  rewrite (take_S_r _ _ n) by (apply list_lookup_insert_eq; unfold zlen in *; lia).
  rewrite take_insert_ge by lia. rewrite Forall_app, total_app, Forall_singleton. simpl.
  split; [split; [done|lia]|]. lia.
Qed.

(** What a run of zeros changes. *)
Definition rn_moved (st st' : rn_state) : Prop :=
  rn_remaining st' = rn_remaining st /\ rn_threshold st' = rn_threshold st /\
  rn_nbBits st' = rn_nbBits st /\ rn_counter st' = rn_counter st /\
  rn_charnum st <= rn_charnum st'.

Lemma zeros_safe st :
  rn_inv st ->
  wp (rn_zeros hdr iend (maxSV + 1) st) (fun r => match r with
    | inl st' => rn_inv st' /\ rn_moved st st'
    | inr st' => rn_moved st st' end) (fun _ => False).
Proof.
  intros (Hpos & Hbs & Hnb & Hthr & Hrem & Htr & Hch). unfold rn_zeros.
  assert (2 ^ (32 - rn_bitCount st) <= 2 ^ 32) by (apply pow_mono; destruct Hpos; lia).
  destruct (repeats_spec (rn_bitStream st)) as (r & Hr & _); [lia|]. rewrite Hr. cbn [obind].
  set (limit := rn_charnum st + 36 * hbSize).
  apply wp_bind. eapply wp_mono; [apply (wp_loop (run_inv (rn_charnum st) limit) run_measure
    (fun st' => run_inv (rn_charnum st) limit st' /\ st'.2 < 12) (fun _ => False))| |done].
  { split; [done|]. split; [done|]. split; [done|]. split; [lia|]. unfold run_measure, limit.
    destruct Hpos as (Hip & _). unfold iend in *. zcases; lia. }
  { unfold run_measure. destruct Hpos as (Hip & _). zcases; lia. }
  { intros [[[[ip b] bs] c] r'] (Hp & _). by apply run_measure_nonneg. }
  { intros st' Hi. apply long_run_step; [lia|unfold limit; lia|done]. }
  intros [[[[ip b] bs] c] r'] [(Hp & Hb & Hr' & Hc & Hm) Hlt]. cbn [snd] in Hlt.
  pose proof (run_measure_nonneg ip b bs c r' Hp). pose proof Hp as (Hip & Hbc & H7).
  assert (2 ^ (32 - b) <= 2 ^ 32) by (apply pow_mono; lia).
  destruct (repeats_spec bs) as (r2 & Hr2 & Hrr & Hland & _); [lia|]. assert (r2 = r') as -> by congruence.
  specialize (Hland Hlt). unfold limit in Hm.
  assert (0 <= Z.land (Z.shiftr bs (2 * r')) 3) by (apply Z.land_nonneg; right; lia).
  apply wp_bind, wp_assert; [lia|]. rewrite (wrap_small 32 (c + 3 * r')) by lia.
  rewrite (wrap_small 32) by lia. set (c' := c + 3 * r' + _). set (b' := b + 2 * r' + 2).
  destruct (Z.leb_spec (maxSV + 1) c'); [unfold rn_moved; simpl; repeat (split; [done|]); unfold c'; lia|].
  apply wp_bind, wp_assert.
  { rewrite (Z.shiftr_div_pow2 b' 3) by lia. change (2 ^ 3) with 8.
    pose proof (Z.div_mod b' 8 ltac:(lia)). pose proof (Z.mod_pos_bound b' 8 ltac:(lia)).
    unfold b' in *. zcases; simpl; try done; lia. }
  pose proof (window_ok ip b' Hip ltac:(unfold b'; lia) ltac:(unfold b'; lia)) as Hw.
  destruct (rn_window iend ip b') as [ip' bc']. 
  destruct (read_window ip' bc') as (w & -> & Hw'); [apply Hw|apply Hw|]. cbn [obind wp].
  unfold rn_inv, rn_moved; simpl. split; [do 6 (split; [done|]); unfold c' in *; lia|].
  do 4 (split; [done|]). unfold c'. lia.
Qed.

Lemma count_range st :
  rn_inv st ->
  let '(count, bitCount) := rn_count st in
  0 <= count <= rn_remaining st /\ rn_bitCount st + 1 <= bitCount <= rn_bitCount st + 16.
Proof.
  intros (Hpos & Hbs & Hnb & Hthr & Hrem & Htr & Hch). unfold rn_count.
  assert (2 ^ 1 <= 2 ^ (rn_nbBits st - 1) <= 2 ^ 15) by (split; apply pow_mono; lia).
  assert (2 * rn_threshold st = 2 ^ rn_nbBits st) as H2.
  { rewrite Hthr, <- Z.pow_succ_r by lia. f_equal. lia. }
  assert (Z.land (rn_bitStream st) (rn_threshold st - 1) = wrap (rn_nbBits st - 1) (rn_bitStream st)) as ->
    by (rewrite Hthr; apply land_ones_wrap; lia).
  assert (Z.land (rn_bitStream st) (2 * rn_threshold st - 1) = wrap (rn_nbBits st) (rn_bitStream st)) as ->
    by (rewrite H2; apply land_ones_wrap; lia).
  rewrite (wrap_small 32) by lia.
  pose proof (wrap_range (rn_nbBits st - 1) (rn_bitStream st) ltac:(lia)).
  pose proof (wrap_range (rn_nbBits st) (rn_bitStream st) ltac:(lia)).
  zcases; lia.
Qed.

(** After the loop: all counts found, or an error to report. *)
Definition rn_final (st : rn_state) : Prop :=
  istart <= rn_ip st <= iend - 4 /\ 1 <= rn_bitCount st /\ (rn_ip st < iend - 4 -> rn_bitCount st <= 23) /\
  1 <= rn_charnum st <= maxSV + 1 /\ rn_counts (rn_charnum st) (rn_remaining st) (rn_counter st).

Lemma body_safe st :
  rn_inv st -> rn_counts (rn_charnum st) (rn_remaining st) (rn_counter st) ->
  wp (rn_body hdr iend (maxSV + 1) st) (fun r => match r with
    | inl st' => (rn_inv st' /\ rn_counts (rn_charnum st') (rn_remaining st') (rn_counter st')) /\
        rn_charnum st < rn_charnum st'
    | inr st' => rn_remaining st' = 1 -> rn_final st' end) (fun _ => False).
Proof.
  intros Hi Hcnt. unfold rn_body. apply wp_bind.
  apply (wp_mono _ (fun r => match r with
    | inl st' => rn_inv st' /\ rn_moved st st'
    | inr st' => rn_moved st st' end) _ (fun _ => False)); [| |done].
  { destruct (rn_previous0 st); [by apply zeros_safe|]. simpl. split; [done|]. unfold rn_moved. repeat (split; [done|]). lia. }
  intros [st1|st1] Hst1; cbn [wp].
  2: { destruct Hst1 as (-> & _). intros E. destruct Hi as (_ & _ & _ & _ & ? & _). lia. }
  destruct Hst1 as [Hi1 (Hr & Ht & Hn & Hc & Hle)]. rewrite <- Hr, <- Hc in Hcnt. clear Hr Ht Hn Hc.
  apply (counts_skip _ (rn_charnum st1)) in Hcnt;
    [|destruct Hi as (_ & _ & _ & _ & _ & _ & ?); lia|destruct Hi1 as (_ & _ & _ & _ & _ & _ & ?); lia].
  pose proof (count_range st1 Hi1) as Hcr. destruct (rn_count st1) as [count b'].
  destruct Hcr as [Hcr Hb']. pose proof Hi1 as (Hpos & Hbs & Hnb & Hthr & Hrem & Htr & Hch).
  set (n := count - 1). assert (2 ^ 5 <= 2 ^ k) by (apply pow_mono; lia).
  assert ((if 0 <=? n then Ok (rn_remaining st1 - n) else oassert (n =? -1);;; Ok (rn_remaining st1 + n)) =
          (Ok (rn_remaining st1 - occ n) : res Z)) as ->.
  { unfold occ. destruct (Z.leb_spec 0 n); [by rewrite (proj2 (Z.eqb_neq n (-1))) by lia|].
    assert (n = -1) as -> by lia. done. }
  cbn [obind]. destruct (counts_store (rn_charnum st1) (rn_remaining st1) (rn_counter st1) n) as (ctr & -> & Hcnt');
    [lia|lia|done|]. cbn [obind]. rewrite (wrap_small 32 (rn_charnum st1 + 1)) by lia.
  assert (1 <= occ n <= rn_remaining st1 - 1 \/ n = 0) as Hocc by (unfold occ; zcases; lia).
  assert (0 <= occ n <= rn_remaining st1 - 1) as Hocc' by (unfold occ in *; zcases; lia). clear Hocc.
  set (rem := rn_remaining st1 - occ n) in *.
  assert (2 ^ 1 <= 2 ^ (rn_nbBits st1 - 1) <= 2 ^ 15) by (split; apply pow_mono; lia).
  apply wp_bind, wp_assert; [lia|].
  assert (rn_final {| rn_ip := rn_ip st1; rn_bitStream := rn_bitStream st1; rn_bitCount := b';
    rn_remaining := rem; rn_threshold := rn_threshold st1; rn_nbBits := rn_nbBits st1;
    rn_charnum := rn_charnum st1 + 1; rn_previous0 := n =? 0; rn_counter := ctr |}) as Hfin.
  { destruct Hpos as (Hip & Hbc & H7). unfold rn_final; simpl. repeat (split; [lia|]). done. }
  destruct ((rem <? rn_threshold st1) && (rem <=? 1)) eqn:Hbr; [simpl; done|].
  assert (exists nb, (if rem <? rn_threshold st1 then let* hb := ZSTD_highbit32 rem in Ok (hb + 1)
      else Ok (rn_nbBits st1)) = (Ok nb : res Z) /\ 2 <= nb <= 16 /\
      (if rem <? rn_threshold st1 then Z.shiftl 1 (nb - 1) else rn_threshold st1) = 2 ^ (nb - 1) /\
      2 <= rem /\ 2 ^ (nb - 1) <= rem < 2 * 2 ^ (nb - 1)) as (nb & -> & Hnb' & Hthr' & Hrem2 & Hrr).
  { destruct (Z.ltb_spec rem (rn_threshold st1)).
    - simpl in Hbr. rewrite highbit32_val by lia. cbn [obind]. eexists; split; [reflexivity|].
      destruct (Z.log2_spec rem) as [Hl1 Hl2]; [lia|]. rewrite Z.pow_succ_r in Hl2 by apply Z.log2_nonneg.
      assert (1 <= Z.log2 rem) by (apply Z.log2_le_pow2; lia).
      assert (Z.log2 rem < 15) by (apply Z.log2_lt_pow2; lia).
      replace (Z.log2 rem + 1 - 1) with (Z.log2 rem) by lia. rewrite Z.shiftl_mul_pow2 by lia. lia.
    - exists (rn_nbBits st1). split; [done|]. lia. }
  cbn [obind]. rewrite Hthr'. destruct (Z.leb_spec (maxSV + 1) (rn_charnum st1 + 1)).
  { simpl. intros _. exact Hfin. }
  destruct Hpos as (Hip & Hbc & H7).
  pose proof (window_ok (rn_ip st1) b' Hip ltac:(lia) ltac:(lia)) as Hw.
  destruct (rn_window iend (rn_ip st1) b') as [ip' bc'].
  destruct (read_window ip' bc') as (w & -> & Hw'); [apply Hw|apply Hw|]. cbn [obind wp].
  unfold rn_inv; simpl. split; [|lia]. split; [|done].
  split; [done|]. split; [done|]. split; [lia|]. split; [done|]. split; [lia|]. split; [lia|]. lia.
Qed.
End ReadSafe.

(** What a successful read promises. *)
Definition ncount_ok (counter0 : list Z) (maxSV hbSize : Z) (r : ncount) : Prop :=
  1 <= nc_size r <= hbSize /\ FSE_MIN_TABLELOG <= nc_tableLog r <= FSE_TABLELOG_ABSOLUTE_MAX /\
  0 <= nc_maxSV r <= maxSV /\ zlen (nc_counter r) = zlen counter0 /\
  (forall i, nc_maxSV r < Z.of_nat i <= maxSV -> nc_counter r !! i = Some 0) /\
  (forall i, maxSV < Z.of_nat i -> nc_counter r !! i = counter0 !! i) /\
  (nc_tableLog r <= 14 -> norm_ok (take (Z.to_nat (nc_maxSV r + 1)) (nc_counter r)) (nc_tableLog r)).

Lemma readNCount_long_safe `{P : Platform} hdr istart hbSize maxSV counter0 :
  bytes hdr -> 0 <= istart -> 8 <= hbSize < 2 ^ 24 -> istart + hbSize <= zlen hdr ->
  0 <= maxSV <= 255 -> maxSV + 1 <= zlen counter0 ->
  safe (FSE_readNCount_long counter0 maxSV hdr istart hbSize) (ncount_ok counter0 maxSV hbSize).
Proof.
  intros Hb Hs Hsz He HmaxSV Hc. unfold FSE_readNCount_long.
  apply wp_bind, wp_assert; [lia|]. rewrite awrite_Ok by (rewrite ?zlen_replicate; lia). cbn [obind].
  set (c1 := splice counter0 0 (replicate (Z.to_nat (maxSV + 1)) 0)).
  destruct (read_window hdr istart hbSize Hb Hs He istart 4) as (w & -> & Hw); [lia|lia|]. cbn [obind].
  change 15 with (2 ^ 4 - 1). rewrite land_ones_wrap by lia. pose proof (wrap_range 4 w ltac:(lia)).
  unfold FSE_MIN_TABLELOG. set (k := wrap 4 w + 5). apply wp_bind, wp_reject_if; [done|]. intros Hk.
  unfold FSE_TABLELOG_ABSOLUTE_MAX in Hk. assert (5 <= k) by (unfold k; lia). clearbody k.
  assert (rn_counts maxSV counter0 k 0 (Z.shiftl 1 k + 1) c1) as Hcnt.
  { rewrite Z.shiftl_mul_pow2 by lia. split; [apply zlen_splice; rewrite ?zlen_replicate; lia|].
    unfold c1, splice. simpl. rewrite length_replicate. split; [|split].
    - intros i Hi. rewrite lookup_app_r by (rewrite length_replicate; lia). rewrite length_replicate, lookup_drop.
      f_equal. lia.
    - intros i Hi. rewrite lookup_app_l by (rewrite length_replicate; lia). apply lookup_replicate_2. lia.
    - intros _. simpl. split; [constructor|]. lia. }
  assert (rn_inv istart hbSize maxSV k
    {| rn_ip := istart; rn_bitStream := Z.shiftr w 4; rn_bitCount := 4;
       rn_remaining := Z.shiftl 1 k + 1; rn_threshold := Z.shiftl 1 k; rn_nbBits := k + 1;
       rn_charnum := 0; rn_previous0 := false; rn_counter := c1 |}) as Hinv.
  { assert (2 ^ 5 <= 2 ^ k) by (apply pow_mono; lia). unfold rn_inv, pos_ok; simpl.
    rewrite !Z.shiftl_mul_pow2, Z.mul_1_l by lia. replace (k + 1 - 1) with k by lia.
    repeat (split; [done || lia|]). lia. }
  apply wp_bind. eapply wp_mono; [apply (wp_loop
    (fun st => rn_inv istart hbSize maxSV k st /\ rn_counts maxSV counter0 k (rn_charnum st) (rn_remaining st) (rn_counter st))
    (fun st => maxSV - rn_charnum st)
    (fun st => rn_remaining st = 1 -> rn_final istart hbSize maxSV counter0 k st) (fun _ => False))| |done].
  { done. } { simpl. lia. }
  { intros st [(_ & _ & _ & _ & _ & _ & ?) _]. lia. }
  { intros st [Hi Hcn]. eapply wp_mono; [apply (body_safe hdr istart hbSize maxSV counter0 k); done || lia| |done].
    intros [st'|st']; [|done]. intros [? ?]. split; [done|lia]. }
  intros st Hfin. apply wp_bind, wp_reject_if; [done|]. intros Hrem.
  destruct Hfin as (Hip & Hbc & H23 & Hch & (Hz & Hout & Hzero & Htot)); [lia|].
  apply wp_bind, wp_reject_if; [done|]. intros Hch'. apply wp_bind, wp_reject_if; [done|]. intros Hbc'.
  unfold ncount_ok, FSE_MIN_TABLELOG, FSE_TABLELOG_ABSOLUTE_MAX; cbn [wp nc_size nc_counter nc_maxSV nc_tableLog].
  rewrite (Z.shiftr_div_pow2 _ 3) by lia. change (2 ^ 3) with 8.
  pose proof (Z.div_mod (rn_bitCount st + 7) 8 ltac:(lia)). pose proof (Z.mod_pos_bound (rn_bitCount st + 7) 8 ltac:(lia)).
  rewrite (wrap_small 32) by lia. replace (rn_charnum st - 1 + 1) with (rn_charnum st) by lia.
  split; [|split; [lia|split; [lia|split; [done|split; [|split; [done|]]]]]].
  - destruct (decide (rn_ip st < istart + hbSize - 4)); lia.
  - intros i Hi. apply Hzero. lia.
  - intros Hk14. destruct (Htot Hk14) as [Hf Ht]. split; [lia|]. split; [|split; [done|lia]].
    unfold zlen in *. rewrite length_take. lia.
Qed.

Lemma readNCount_safe `{P : Platform} hdr istart hbSize maxSV counter0 :
  bytes hdr -> 0 <= istart -> 0 <= hbSize < 2 ^ 24 -> istart + hbSize <= zlen hdr ->
  0 <= maxSV <= 255 -> maxSV + 1 <= zlen counter0 ->
  safe (FSE_readNCount counter0 maxSV hdr istart hbSize) (ncount_ok counter0 maxSV hbSize).
Proof.
  intros Hb Hs Hsz He HmaxSV Hc. unfold FSE_readNCount, FSE_readNCount_body.
  destruct (Z.ltb_spec hbSize 8); [|apply readNCount_long_safe; done || lia].
  rewrite asub_Ok by lia. cbn [obind]. set (h := slice hdr istart hbSize).
  assert (zlen h = hbSize) as Hh by (apply zlen_slice; lia).
  rewrite awrite_Ok by (rewrite ?zlen_replicate; lia). cbn [obind].
  apply wp_bind. eapply wp_mono; [apply readNCount_long_safe| |done].
  - apply bytes_of_splice; [apply Forall_replicate; unfold is_byte; lia|by apply bytes_slice].
  - lia.
  - lia.
  - rewrite zlen_splice by (rewrite ?zlen_replicate; lia). by rewrite zlen_replicate.
  - done.
  - done.
  - intros r (H1 & H2 & H3 & H4). apply wp_bind, wp_reject_if; [done|]. intros Hle. simpl.
    split; [lia|done].
Qed.


