(* ===== verification/HufStats.v ===== *)
(** * entropy_common.c, fse_decompress.c: the weights of a Huffman tree

    [FSE_decompress_wksp_body] reads a distribution header, builds its decoding
    table and decodes the data after it.  [HUF_readStats_body] reads the weights
    of the symbols of a Huffman tree, either as four bits each or compressed
    with FSE, and completes the last one so that the code is complete. *)
From S2P Require Import Prelude Mem Errors Bits BitStream Fse FseSpread FseBuild FseState FseCodec NCount.

Definition HUF_TABLELOG_MAX : Z := 12.
Definition HUF_SYMBOLVALUE_MAX : Z := 255.

Section Definitions.
Context `{P : Platform}.

(** [sizeof(FSE_DecompressWksp)]: 256 shorts. *)
Definition sizeof_DecompressWksp : Z := 2 * (FSE_MAX_SYMBOL_VALUE + 1).

(** The workspace holds the counters, the decoding table and the workspace to
    build it; what it contains at first is never read. *)
Definition FSE_decompress_wksp_body (dst : list Z) (ostart dstCapacity : Z)
    (src : list Z) (cSrc cSrcSize maxLog : Z) (workSpace : list Z) : res (Z * list Z) :=
  let wkspSize := zlen workSpace in
  let ncount0 := replicate (Z.to_nat (FSE_MAX_SYMBOL_VALUE + 1)) 0 in
  reject_if (wkspSize <? sizeof_DecompressWksp) ZSTD_error_GENERIC ;;;
  let* nc := FSE_readNCount ncount0 FSE_MAX_SYMBOL_VALUE src cSrc cSrcSize in
  let tableLog := nc_tableLog nc in
  let NCountLength := nc_size nc in
  reject_if (maxLog <? tableLog) ZSTD_error_tableLog_tooLarge ;;;
  oassert (NCountLength <=? cSrcSize) ;;;
  let ip := cSrc + NCountLength in
  let cSrcSize := cSrcSize - NCountLength in
  reject_if (wkspSize <? FSE_DECOMPRESS_WKSP_SIZE tableLog (nc_maxSV nc)) ZSTD_error_tableLog_tooLarge ;;;
  oassert (sizeof_DecompressWksp + FSE_DTABLE_SIZE tableLog <=? wkspSize) ;;;
  let dtable := {| dt_tableLog := 0; dt_fastMode := 0;
                   dt_table := replicate (Z.to_nat (Z.shiftl 1 tableLog))
                                 {| newState := 0; symbol := 0; nbBits := 0 |} |} in
  let workSpace := drop (Z.to_nat (sizeof_DecompressWksp + FSE_DTABLE_SIZE tableLog)) workSpace in
  let* dtable := FSE_buildDTable_internal dtable (nc_counter nc) (nc_maxSV nc) tableLog workSpace in
  if negb (dt_fastMode dtable =? 0)
  then FSE_decompress_usingDTable_generic dst ostart dstCapacity src ip cSrcSize dtable true
  else FSE_decompress_usingDTable_generic dst ostart dstCapacity src ip cSrcSize dtable false.

Definition FSE_decompress_wksp_bmi2 := FSE_decompress_wksp_body.

(** What [HUF_readStats] stores through its pointers, and the size it returns. *)
Record huf_stats := {
  hs_huffWeight : list Z; hs_rankStats : list Z;
  hs_nbSymbols : Z; hs_tableLog : Z; hs_size : Z
}.

(** Weights of four bits each. *)
Definition read_direct (huffWeight src : list Z) (ip oSize : Z) : res (list Z) :=
  for_step 0 oSize 2 (fun n huffWeight =>
    let* b := aget src (ip + n / 2) in
    let* huffWeight := aset huffWeight n (Z.shiftr b 4) in
    aset huffWeight (n + 1) (Z.land b 15)) huffWeight.

(** ([rankStats], [weightTotal]) *)
Definition collect_weight (huffWeight : list Z) (n : Z) (st : list Z * Z) : res (list Z * Z) :=
  let '(rankStats, weightTotal) := st in
  let* w := aget huffWeight n in
  reject_if (HUF_TABLELOG_MAX <? w) ZSTD_error_corruption_detected ;;;
  let* r := aget rankStats w in
  let* rankStats := aset rankStats w (u32 (r + 1)) in
  Ok (rankStats, u32 (weightTotal + Z.shiftr (Z.shiftl 1 w) 1)).

(** The last weight completes the code; the pointers are stored through. *)
Definition finish_stats (huffWeight : list Z) (iSize oSize : Z) (st : list Z * Z) : res huf_stats :=
  let '(rankStats, weightTotal) := st in
  reject_if (weightTotal =? 0) ZSTD_error_corruption_detected ;;;
  let* hb := ZSTD_highbit32 weightTotal in
  let tableLog := hb + 1 in
  reject_if (HUF_TABLELOG_MAX <? tableLog) ZSTD_error_corruption_detected ;;;
  let total := Z.shiftl 1 tableLog in
  let rest := total - weightTotal in
  let* hbr := ZSTD_highbit32 rest in
  let verif := Z.shiftl 1 hbr in
  let lastWeight := hbr + 1 in
  reject_if (negb (verif =? rest)) ZSTD_error_corruption_detected ;;;
  let* huffWeight := aset huffWeight oSize (u8 lastWeight) in
  let* r := aget rankStats lastWeight in
  let* rankStats := aset rankStats lastWeight (u32 (r + 1)) in
  let* r1 := aget rankStats 1 in
  reject_if ((r1 <? 2) || negb (Z.land r1 1 =? 0)) ZSTD_error_corruption_detected ;;;
  Ok {| hs_huffWeight := huffWeight; hs_rankStats := rankStats;
        hs_nbSymbols := u32 (oSize + 1); hs_tableLog := tableLog; hs_size := iSize + 1 |}.

Definition HUF_readStats_body (huffWeight : list Z) (hwSize : Z) (rankStats : list Z)
    (src : list Z) (srcStart srcSize : Z) (workSpace : list Z) : res huf_stats :=
  reject_if (srcSize =? 0) ZSTD_error_srcSize_wrong ;;;
  let* iSize := aget src srcStart in
  let* (huffWeight, iSize, oSize) :=
    if 128 <=? iSize then
      let oSize := iSize - 127 in
      let iSize := (oSize + 1) / 2 in
      reject_if (srcSize <? iSize + 1) ZSTD_error_srcSize_wrong ;;;
      reject_if (hwSize <=? oSize) ZSTD_error_corruption_detected ;;;
      let* huffWeight := read_direct huffWeight src (srcStart + 1) oSize in
      Ok (huffWeight, iSize, oSize)
    else
      reject_if (srcSize <? iSize + 1) ZSTD_error_srcSize_wrong ;;;
      let* (oSize, huffWeight) :=
        FSE_decompress_wksp_bmi2 huffWeight 0 (hwSize - 1) src (srcStart + 1) iSize 6 workSpace in
      Ok (huffWeight, iSize, oSize) in
  let* rankStats := awrite rankStats 0 (replicate (Z.to_nat (HUF_TABLELOG_MAX + 1)) 0) in
  let* st := for_range 0 oSize (collect_weight huffWeight) (rankStats, 0) in
  finish_stats huffWeight iSize oSize st.

Definition HUF_readStats_wksp := HUF_readStats_body.
End Definitions.

(** ** Decoding with a header, on any input *)

Lemma fast_of_01 k norm : fast_of k norm = 0 \/ fast_of k norm = 1.
Proof. unfold fast_of. destruct (forallb _ _); auto. Qed.

Lemma decompress_wksp_safe `{P : Platform} dst ostart dstCapacity src cSrc cSrcSize maxLog workSpace :
  bytes dst -> 0 <= ostart -> 0 <= dstCapacity -> ostart + dstCapacity <= zlen dst ->
  bytes src -> 0 <= cSrc -> 0 <= cSrcSize < 2 ^ 24 -> cSrc + cSrcSize <= zlen src ->
  maxLog <= FSE_MAX_TABLELOG ->
  safe (FSE_decompress_wksp_body dst ostart dstCapacity src cSrc cSrcSize maxLog workSpace)
    (fun r => 0 <= r.1 <= dstCapacity /\ frame_dst dst ostart dstCapacity r.2).
Proof.
  intros Hbd Ho Hcap Hroom Hbs Hs Hsz Hl HmaxLog. unfold FSE_decompress_wksp_body.
  apply wp_bind, wp_reject_if; [done|]. intros _. apply wp_bind.
  eapply wp_mono; [apply readNCount_safe; [done|lia|lia|lia|done|done]| |done].
  intros nc (Hnsz & Htl & Hsv & Hcz & _ & _ & Hnorm).
  unfold FSE_MIN_TABLELOG, FSE_TABLELOG_ABSOLUTE_MAX, FSE_MAX_TABLELOG, FSE_MAX_MEMORY_USAGE in *.
  apply wp_bind, wp_reject_if; [done|]. intros Hlog. apply wp_bind, wp_assert; [lia|].
  apply wp_bind, wp_reject_if; [done|]. intros Hwk. set (k := nc_tableLog nc) in *.
  set (norm := take (Z.to_nat (nc_maxSV nc + 1)) (nc_counter nc)) in *. specialize (Hnorm ltac:(lia)).
  assert (zlen norm - 1 = nc_maxSV nc) as Hzn.
  { unfold norm, zlen. rewrite length_take. unfold zlen in Hcz. rewrite length_replicate in Hcz.
    unfold FSE_MAX_SYMBOL_VALUE in *. lia. }
  assert (Z.shiftl 1 k = 2 ^ k) as Hsh by (rewrite Z.shiftl_mul_pow2 by lia; lia).
  pose proof (pow_k_bound norm k Hnorm).
  assert (sizeof_DecompressWksp + FSE_DTABLE_SIZE k + FSE_BUILD_DTABLE_WKSP_SIZE k (nc_maxSV nc) <= zlen workSpace) as Hroom'.
  { unfold FSE_DECOMPRESS_WKSP_SIZE, FSE_DECOMPRESS_WKSP_SIZE_U32, FSE_BUILD_DTABLE_WKSP_SIZE_U32 in Hwk.
    unfold sizeof_DecompressWksp, FSE_DTABLE_SIZE, FSE_MAX_SYMBOL_VALUE in *.
    set (b := FSE_BUILD_DTABLE_WKSP_SIZE k (nc_maxSV nc)) in *. change ((255 + 1) / 2) with 128 in Hwk.
    pose proof (Z.div_mod (b + 4 - 1) 4 ltac:(lia)). pose proof (Z.mod_pos_bound (b + 4 - 1) 4 ltac:(lia)). lia. }
  unfold FSE_BUILD_DTABLE_WKSP_SIZE in Hroom'. rewrite Hsh in Hroom'.
  apply wp_bind, wp_assert; [lia|].
  set (dt0 := {| dt_tableLog := 0; dt_fastMode := 0; dt_table := _ |}).
  assert (zlen (dt_table dt0) = 2 ^ k) as Hdt by (simpl; rewrite zlen_replicate, Hsh; lia).
  assert (norm `prefix_of` nc_counter nc) as Hpre
    by (exists (drop (Z.to_nat (nc_maxSV nc + 1)) (nc_counter nc)); symmetry; apply take_drop).
  destruct (buildDTable_spec norm k (nc_counter nc) Hnorm Hpre dt0
    (drop (Z.to_nat (sizeof_DecompressWksp + FSE_DTABLE_SIZE k)) workSpace)) as (syms & Hsy & Hbuild).
  { unfold FSE_MAX_TABLELOG, FSE_MAX_MEMORY_USAGE. lia. } { unfold dt_storage. lia. }
  { unfold FSE_BUILD_DTABLE_WKSP_SIZE. rewrite Hsh, Hzn. unfold zlen in *. rewrite length_drop.
    unfold FSE_DTABLE_SIZE, FSE_DTABLE_SIZE_U32, sizeof_DecompressWksp, FSE_MAX_SYMBOL_VALUE in *. lia. }
  rewrite Hzn in Hbuild. rewrite Hbuild. cbn [obind dt_fastMode].
  destruct (dtable_ref_ok norm k syms (dt_table dt0) Hnorm Hsy ltac:(lia)) as [_ Htab].
  assert (k <= FSE_MAX_TABLELOG) by (unfold FSE_MAX_TABLELOG, FSE_MAX_MEMORY_USAGE; lia).
  destruct (fast_of_01 k norm) as [E|E]; rewrite E in *; simpl;
    (eapply decompress_generic_safe; [eassumption|eassumption|done|done|done|done|done|done|done|lia|lia]).
Qed.

(** ** Weights and complete codes *)

(** A symbol of weight [w] stands for [2^(w-1)] of the [2^tableLog] leaves. *)
Fixpoint weight_sum (l : list Z) : Z :=
  match l with
  | [] => 0
  | w :: l => Z.shiftr (Z.shiftl 1 w) 1 + weight_sum l
  end.

Lemma weight_sum_app l r : weight_sum (l ++ r) = weight_sum l + weight_sum r.
Proof. induction l as [|w l IH]; simpl; [done|]. rewrite IH. lia. Qed.

Lemma weight_val w : 0 <= w -> Z.shiftr (Z.shiftl 1 w) 1 = if w =? 0 then 0 else 2 ^ (w - 1).
Proof.
  intros Hw. rewrite Z.shiftr_div_pow2, Z.shiftl_mul_pow2, Z.mul_1_l by lia. change (2 ^ 1) with 2.
  destruct (Z.eqb_spec w 0) as [->|]; [done|]. replace w with (Z.succ (w - 1)) at 1 by lia.
  rewrite Z.pow_succ_r, Z.mul_comm, Z.div_mul by lia. done.
Qed.

(** A complete prefix code: the leaves of all symbols make up the whole tree,
    the ranks count the symbols of each weight, and the longest codes come in
    pairs. *)
Definition stats_ok (hwSize srcSize : Z) (s : huf_stats) : Prop :=
  let weights := take (Z.to_nat (hs_nbSymbols s)) (hs_huffWeight s) in
  2 <= hs_nbSymbols s <= hwSize /\ zlen weights = hs_nbSymbols s /\
  1 <= hs_tableLog s <= HUF_TABLELOG_MAX /\ 1 <= hs_size s <= srcSize /\
  Forall (fun w => 0 <= w <= hs_tableLog s) weights /\
  weight_sum weights = 2 ^ hs_tableLog s /\
  (forall w, 0 <= w <= HUF_TABLELOG_MAX -> hs_rankStats s !! Z.to_nat w = Some (count_sym w weights)) /\
  2 <= count_sym 1 weights /\ count_sym 1 weights mod 2 = 0.

Lemma count_sym_le s l : count_sym s l <= zlen l.
Proof.
  induction l as [|x l IH]; [done|]. rewrite count_sym_cons, zlen_cons. destruct (decide (x = s)); lia.
Qed.

Lemma weight_sum_nonneg l : Forall (fun w => 0 <= w) l -> 0 <= weight_sum l.
Proof.
  induction 1 as [|w l Hw Hl IH]; simpl; [done|]. rewrite weight_val by done.
  destruct (Z.eqb_spec w 0); [lia|]. pose proof (pow2_pos (w - 1)). lia.
Qed.

(** No symbol outweighs the whole tree. *)
Lemma weight_sum_log2 l w :
  Forall (fun w => 0 <= w) l -> w ∈ l -> 0 < weight_sum l -> w <= Z.log2 (weight_sum l) + 1.
Proof.
  intros Hf Hin Hpos. apply list_elem_of_split in Hin as (l1 & l2 & ->).
  rewrite weight_sum_app in *. cbn [weight_sum] in *. apply Forall_app in Hf as [Hf1 Hf2].
  apply Forall_cons in Hf2 as [Hw Hf2]. rewrite weight_val in * by done.
  pose proof (weight_sum_nonneg l1 Hf1). pose proof (weight_sum_nonneg l2 Hf2).
  destruct (Z.eqb_spec w 0); [pose proof (Z.log2_nonneg (weight_sum l1 + (0 + weight_sum l2))); lia|].
  enough (w - 1 <= Z.log2 (weight_sum l1 + (2 ^ (w - 1) + weight_sum l2))) by lia.
  rewrite <- (Z.log2_pow2 (w - 1)) at 1 by lia. apply Z.log2_le_mono. lia.
Qed.

(** One more symbol of weight [x]. *)
Lemma rank_bump rank ws x w :
  13 <= zlen rank -> (forall w, 0 <= w <= 12 -> rank !! Z.to_nat w = Some (count_sym w ws)) ->
  0 <= x <= 12 -> 0 <= w <= 12 ->
  <[Z.to_nat x := count_sym x ws + 1]> rank !! Z.to_nat w = Some (count_sym w (ws ++ [x])).
Proof.
  intros Hz Hcnt Hx Hw. rewrite count_sym_app, count_sym_cons. change (count_sym w []) with 0.
  destruct (decide (x = w)) as [<-|Hne].
  - rewrite list_lookup_insert_eq by (unfold zlen in *; lia). f_equal.
  - rewrite list_lookup_insert_ne, Hcnt by lia. f_equal. lia.
Qed.

(** The leaves that are missing fit in one symbol of weight at most the depth. *)
Lemma last_weight tot :
  let T := Z.log2 tot + 1 in let L := Z.log2 (2 ^ T - tot) in
  0 < tot -> 1 <= T /\ 0 < 2 ^ T - tot < 2 ^ T /\ 0 <= L < T.
Proof.
  intros T L Ht. pose proof (Z.log2_spec tot Ht) as Hlog. pose proof (Z.log2_nonneg tot).
  rewrite <- Z.add_1_r in Hlog. fold T in Hlog.
  assert (2 ^ T = 2 * 2 ^ Z.log2 tot) by (unfold T; rewrite Z.add_1_r; apply Z.pow_succ_r; lia).
  pose proof (Z.log2_spec (2 ^ T - tot) ltac:(lia)) as Hl2. pose proof (Z.log2_nonneg (2 ^ T - tot)).
  split; [unfold T; lia|]. split; [lia|]. split; [done|]. fold L in Hl2.
  assert (0 <= T) by (unfold T; lia). apply (Z.pow_lt_mono_r_iff 2); lia.
Qed.

Section ReadStats.
Context `{P : Platform} (huffWeight rankStats : list Z) (hwSize : Z).
Hypothesis Hhw : bytes huffWeight.
Hypothesis HhwSize : 1 <= hwSize <= 256.
Hypothesis Hroom : hwSize <= zlen huffWeight.
Hypothesis Hrank : HUF_TABLELOG_MAX + 1 <= zlen rankStats.

Lemma read_direct_safe src ip oSize (Q : list Z -> Prop) R :
  bytes src -> 0 <= ip -> 0 <= oSize < hwSize -> ip + (oSize + 1) / 2 <= zlen src ->
  (forall hw, zlen hw = zlen huffWeight -> bytes hw -> Q hw) ->
  wp (read_direct huffWeight src ip oSize) Q R.
Proof.
  intros Hb Hip Ho Hl HQ. unfold read_direct, for_step. rewrite Z.sub_0_r.
  replace (oSize + 2 - 1) with (oSize + 1) by lia.
  pose proof (Z.div_mod (oSize + 1) 2 ltac:(lia)). pose proof (Z.mod_pos_bound (oSize + 1) 2 ltac:(lia)).
  eapply wp_mono; [apply (wp_for_loop (fun _ hw => zlen hw = zlen huffWeight /\ bytes hw) (fun _ => False))| |done].
  - done.
  - intros j hw Hj [Hz Hbh]. rewrite Z.add_0_l, (Z.mul_comm 2), Z.div_mul by lia.
    apply wp_bind, wp_aget; [lia|]. intros b Hbb. apply (bytes_lookup _ _ _ Hb) in Hbb. unfold is_byte in Hbb.
    apply wp_bind, wp_aset; [lia|]. apply wp_aset; [rewrite zlen_insert; lia|].
    rewrite !zlen_insert. split; [done|]. apply bytes_insert; [apply bytes_insert; [done|]|]; unfold is_byte.
    + rewrite Z.shiftr_div_pow2 by lia. change (2 ^ 4) with 16. split; [apply Z.div_pos; lia|].
      apply Z.div_lt_upper_bound; lia.
    + change 15 with (2 ^ 4 - 1). rewrite land_ones_wrap by lia. pose proof (wrap_range 4 b ltac:(lia)). lia.
  - intros hw [Hz Hbh]. by apply HQ.
Qed.

(** The first [n] weights have been counted. *)
Definition collect_inv (hw : list Z) (n : Z) (st : list Z * Z) : Prop :=
  let '(rank, tot) := st in
  zlen rank = zlen rankStats /\
  Forall (fun w => 0 <= w <= HUF_TABLELOG_MAX) (take (Z.to_nat n) hw) /\
  tot = weight_sum (take (Z.to_nat n) hw) /\ 0 <= tot <= n * 2 ^ 11 /\
  (forall w, 0 <= w <= HUF_TABLELOG_MAX -> rank !! Z.to_nat w = Some (count_sym w (take (Z.to_nat n) hw))).


Lemma collect_step hw n st :
  bytes hw -> 0 <= n < 256 -> n < zlen hw -> collect_inv hw n st ->
  safe (collect_weight hw n st) (collect_inv hw (n + 1)).
Proof.
  intros Hb Hn Hz. destruct st as [rank tot]. intros (Hrz & Hf & Ht & Htot & Hcnt). unfold collect_weight.
  apply wp_bind, wp_aget; [lia|]. intros w Hw. pose proof (bytes_lookup _ _ _ Hb Hw) as Hwb. unfold is_byte in Hwb.
  apply wp_bind, wp_reject_if; [done|]. intros Hw12. unfold HUF_TABLELOG_MAX in *.
  apply wp_bind, wp_aget; [lia|]. intros r Hr. rewrite Hcnt in Hr by lia. injection Hr as <-.
  apply wp_bind, wp_aset; [lia|]. rewrite weight_val by lia.
  assert (0 <= (if w =? 0 then 0 else 2 ^ (w - 1)) <= 2 ^ 11) as Hwv.
  { destruct (Z.eqb_spec w 0); [lia|]. pose proof (pow2_pos (w - 1) ltac:(lia)). pose proof (pow_mono (w - 1) 11). lia. }
  pose proof (count_sym_nonneg w (take (Z.to_nat n) hw)). pose proof (count_sym_le w (take (Z.to_nat n) hw)) as Hcl.
  assert (zlen (take (Z.to_nat n) hw) <= n) by (unfold zlen; rewrite length_take; lia).
  rewrite !(wrap_small 32) by lia. unfold collect_inv; simpl. unfold HUF_TABLELOG_MAX.
  replace (Z.to_nat (n + 1)) with (S (Z.to_nat n)) by lia. rewrite (take_S_r hw _ w) by done.
  split; [by rewrite zlen_insert|]. split; [rewrite Forall_app, Forall_singleton; split; [done|lia]|].
  rewrite weight_sum_app. cbn [weight_sum]. rewrite weight_val by lia. split; [lia|]. split; [lia|].
  intros w' Hw'. apply rank_bump; [lia|done|lia|done].
Qed.

Lemma collect_safe hw n :
  bytes hw -> 0 <= n < 256 -> n < zlen hw ->
  safe (let* rankStats := awrite rankStats 0 (replicate (Z.to_nat (HUF_TABLELOG_MAX + 1)) 0) in
        for_range 0 n (collect_weight hw) (rankStats, 0)) (collect_inv hw n).
Proof.
  intros Hb Hn Hz. assert (zlen (replicate (Z.to_nat (HUF_TABLELOG_MAX + 1)) 0) = 13) as H13 by done.
  unfold HUF_TABLELOG_MAX in Hrank. rewrite awrite_Ok by lia. cbn [obind].
  apply wp_for_range; [lia| |].
  - split; [by rewrite zlen_splice by lia|]. split; [constructor|]. split; [done|]. split; [lia|].
    intros w Hw. unfold splice. simpl take. unfold HUF_TABLELOG_MAX in Hw. rewrite app_nil_l, lookup_app_l.
    + apply lookup_replicate_2. unfold HUF_TABLELOG_MAX. lia.
    + rewrite length_replicate. unfold HUF_TABLELOG_MAX. lia.
  - intros j st Hj Hinv. by apply collect_step; [|lia|lia|].
Qed.

Lemma finish_safe hw iSize oSize srcSize st :
  bytes hw -> 0 <= oSize < hwSize -> zlen hw = zlen huffWeight -> 0 <= iSize -> iSize + 1 <= srcSize ->
  collect_inv hw oSize st -> safe (finish_stats hw iSize oSize st) (stats_ok hwSize srcSize).
Proof.
  intros Hb Ho Hz Hi Hs. destruct st as [rank tot]. intros (Hrz & Hf & Ht & Htot & Hcnt). unfold finish_stats.
  apply wp_bind, wp_reject_if; [done|]. intros Hnz. apply wp_bind, wp_highbit32; [lia|].
  apply wp_bind, wp_reject_if; [done|]. unfold HUF_TABLELOG_MAX in *. intros Htl.
  pose proof (last_weight tot ltac:(lia)) as (HT1 & Hrest0 & HL). set (T := Z.log2 tot + 1) in *.
  rewrite Z.shiftl_mul_pow2, Z.mul_1_l by lia. pose proof (pow_mono T 12 ltac:(lia)) as HT12.
  apply wp_bind, wp_highbit32; [lia|]. set (L := Z.log2 (2 ^ T - tot)) in *.
  apply wp_bind, wp_reject_if; [done|]. rewrite Z.shiftl_mul_pow2, Z.mul_1_l by lia. intros Hv.
  assert (2 ^ L = 2 ^ T - tot) as Hrest by (destruct (Z.eqb_spec (2 ^ L) (2 ^ T - tot)); [done|discriminate Hv]).
  rewrite (wrap_small 8) by lia. apply wp_bind, wp_aset; [lia|].
  apply wp_bind, wp_aget; [lia|]. intros r Hr. rewrite Hcnt in Hr by lia. injection Hr as <-.
  set (ws := take (Z.to_nat oSize) hw) in *.
  assert (zlen ws = oSize) as Hzw by (unfold ws, zlen in *; rewrite length_take; lia).
  pose proof (count_sym_nonneg (L + 1) ws). pose proof (count_sym_le (L + 1) ws).
  rewrite (wrap_small 32) by lia. apply wp_bind, wp_aset; [lia|].
  assert (forall w, 0 <= w <= 12 -> <[Z.to_nat (L + 1) := count_sym (L + 1) ws + 1]> rank !! Z.to_nat w
    = Some (count_sym w (ws ++ [L + 1]))) as Hcnt' by (intros w Hw; apply rank_bump; [lia|done|lia|done]).
  apply wp_bind, wp_aget; [rewrite zlen_insert; lia|]. intros r1 Hr1. rewrite (Hcnt' 1) in Hr1 by lia.
  injection Hr1 as <-. apply wp_bind, wp_reject_if; [done|]. intros Hev. apply orb_false_iff in Hev as [Hge2 Hev].
  rewrite (wrap_small 32) by lia. unfold stats_ok; simpl.
  assert (take (Z.to_nat (oSize + 1)) (<[Z.to_nat oSize := L + 1]> hw) = ws ++ [L + 1]) as ->.
  { replace (Z.to_nat (oSize + 1)) with (S (Z.to_nat oSize)) by lia.
    rewrite (take_S_r _ _ (L + 1)) by (apply list_lookup_insert_eq; unfold zlen in *; lia).
    by rewrite take_insert_ge by lia. }
  assert (1 <= oSize).
  { destruct (Z.eq_dec oSize 0) as [E|]; [|lia]. unfold ws in Ht. rewrite E in Ht. simpl in Ht. lia. }
  split; [lia|]. split; [rewrite zlen_app, Hzw; done|]. split; [unfold HUF_TABLELOG_MAX; lia|]. split; [lia|].
  split; [rewrite Forall_app, Forall_singleton; split; [|lia]|].
  { apply Forall_forall. intros w Hw. rewrite Forall_forall in Hf. specialize (Hf w Hw).
    split; [lia|]. unfold T. rewrite Ht. apply weight_sum_log2; [|done|lia].
    apply Forall_take. eapply Forall_impl; [exact Hb|]. unfold is_byte. lia. }
  split; [|split; [exact Hcnt'|split; [lia|]]].
  - rewrite weight_sum_app. cbn [weight_sum]. rewrite weight_val by lia.
    destruct (Z.eqb_spec (L + 1) 0); [lia|]. replace (L + 1 - 1) with L by lia. lia.
  - pose proof (land_ones_wrap (count_sym 1 (ws ++ [L + 1])) 1 ltac:(lia)) as Hl.
    change (2 ^ 1 - 1) with 1 in Hl. rewrite Hl in Hev.
    unfold wrap in Hev. by destruct (Z.eqb_spec (count_sym 1 (ws ++ [L + 1]) mod 2 ^ 1) 0).
Qed.

Lemma read_weights_safe src srcStart srcSize workSpace :
  bytes src -> 0 <= srcStart -> 0 <= srcSize -> srcStart + srcSize <= zlen src ->
  safe (HUF_readStats_body huffWeight hwSize rankStats src srcStart srcSize workSpace) (stats_ok hwSize srcSize).
Proof.
  intros Hb Hs Hsz Hl. unfold HUF_readStats_body.
  apply wp_bind, wp_reject_if; [done|]. intros Hnz. apply wp_bind, wp_aget; [lia|]. intros i0 Hi0.
  apply (bytes_lookup _ _ _ Hb) in Hi0. unfold is_byte in Hi0.
  apply wp_bind. eapply (wp_mono _ (fun r => let '(hw, iSize, oSize) := r in
    zlen hw = zlen huffWeight /\ bytes hw /\ 0 <= iSize /\ iSize + 1 <= srcSize /\ 0 <= oSize < hwSize) _ (fun _ => True)); [| |done].
  - destruct (Z.leb_spec 128 i0).
    + pose proof (Z.div_pos (i0 - 127 + 1) 2 ltac:(lia) ltac:(lia)).
      apply wp_bind, wp_reject_if; [done|]. intros Hsw. apply wp_bind, wp_reject_if; [done|]. intros Hcd.
      apply wp_bind, read_direct_safe; [done|lia|lia|lia|]. intros hw Hz Hbh. simpl. repeat split; done || lia.
    + apply wp_bind, wp_reject_if; [done|]. intros Hsw. apply wp_bind.
      eapply wp_mono; [apply decompress_wksp_safe; [done|lia|lia|lia|done|lia|lia|lia|done]| |done].
      intros [o hw] (Ho & Hz & Hbh & _). simpl in *. repeat split; done || lia.
  - intros [[hw iSize] oSize] (Hz & Hbh & Hi & His & Ho).
    pose proof (collect_safe hw oSize Hbh ltac:(lia) ltac:(lia)) as Hc.
    destruct (awrite rankStats 0 _) as [rs| |] in Hc |- *; [|done..]. cbn [obind] in Hc |- *.
    apply wp_bind. eapply wp_mono; [exact Hc| |done]. intros st Hst. by eapply finish_safe.
Qed.
End ReadStats.

(** C28: [HUF_readStats] on any bytes: it never reads or writes outside its
    buffers, however the weights are given (four bits each, or compressed with
    FSE), whatever the workspace's size; and when it accepts a header, the weights
    it stores describe a complete prefix code: every weight is at most the depth
    [tableLog <= HUF_TABLELOG_MAX], the leaves of all symbols add up to exactly
    [2^tableLog] (the last weight is implied), [rankStats] counts the symbols of
    each weight, and the longest codes come in pairs. *)
Theorem HUF_readStats_safe `{P : Platform} (huffWeight rankStats : list Z) (hwSize : Z)
    (src : list Z) (srcStart srcSize : Z) (workSpace : list Z) :
  bytes huffWeight -> 1 <= hwSize <= 256 -> hwSize <= zlen huffWeight ->
  HUF_TABLELOG_MAX + 1 <= zlen rankStats ->
  bytes src -> 0 <= srcStart -> 0 <= srcSize -> srcStart + srcSize <= zlen src ->
  safe (HUF_readStats_wksp huffWeight hwSize rankStats src srcStart srcSize workSpace) (stats_ok hwSize srcSize).
Proof. intros. by apply read_weights_safe. Qed.

(** Eight weights of four bits: 1,1,2,3,4,0,0,5 completed by a 6. *)
Lemma HUF_readStats_safe_witness :
  exists s, HUF_readStats_wksp (P := arm64_v8a) (replicate 256 0) 256 (replicate 13 0)
              [135; 17; 35; 64; 5] 0 5 [] = Ok s /\
    hs_nbSymbols s = 9 /\ hs_tableLog s = 6 /\ stats_ok 256 5 s.
Proof.
  pose proof (HUF_readStats_safe (P := arm64_v8a) (replicate 256 0) (replicate 13 0) 256
    [135; 17; 35; 64; 5] 0 5 []) as H.
  eexists. split; [vm_compute; reflexivity|]. split; [reflexivity|]. split; [reflexivity|].
  refine (wp_Ok_inv _ _ _ _ (H _ _ _ _ _ _ _ _) _); try (vm_compute; reflexivity).
  - eval_bytes.
  - lia.
  - vm_compute; discriminate.
  - vm_compute; discriminate.
  - eval_bytes.
  - lia.
  - lia.
  - vm_compute; discriminate.
Defined.
