(* ===== verification/HufTable.v ===== *)
(** * huf.h, huf_compress.c, huf_decompress.c: Huffman tables

    [HUF_readCTable] and [HUF_readDTableX1_wksp] read the weights of the symbols
    from the same header and build an encoding and a decoding table.  Both follow
    one canonical code: symbols in order of weight, then of value, each owning
    [2^(weight-1)] consecutive cells of a table of [2^tableLog]; the code of a
    symbol is the common prefix of its cells. *)
From S2P Require Import Prelude Mem Errors Bits BitStream Fse FseSpread NCount HufStats.

Definition HUF_TABLELOG_DEFAULT : Z := 11.
Definition HUF_TABLELOG_ABSOLUTEMAX : Z := 12.
Definition HUF_DECODER_FAST_TABLELOG : Z := 11.

(** ** Encoding tables *)

(** A [HUF_CTable] is an array of [HUF_CElt], the first of which holds the header. *)
Record HUF_CTableHeader := { h_tableLog : Z; h_maxSymbolValue : Z }.
Record HUF_CTable := { hct_header : HUF_CTableHeader; hct_ct : list Z }.

Section Definitions.
Context `{P : Platform}.

Definition HUF_getNbBits (elt : Z) : Z := Z.land elt 255.
Definition HUF_getNbBitsFast (elt : Z) : Z := elt.
Definition HUF_getValue (elt : Z) : Z := Z.land elt (size_t (Z.lnot 255)).
Definition HUF_getValueFast (elt : Z) : Z := elt.

Definition HUF_setNbBits (nbBits : Z) : res Z :=
  oassert (nbBits <=? HUF_TABLELOG_ABSOLUTEMAX) ;;; Ok nbBits.

Definition HUF_setValue (elt value : Z) : res Z :=
  let nbBits := HUF_getNbBits elt in
  if 0 <? nbBits then
    oassert (Z.shiftr value nbBits =? 0) ;;;
    Ok (Z.lor elt (size_t (Z.shiftl value (sizeof_size_t * 8 - nbBits))))
  else Ok elt.

Definition HUF_readCTableHeader (ctable : HUF_CTable) : HUF_CTableHeader := hct_header ctable.

Definition HUF_writeCTableHeader (ctable : HUF_CTable) (tableLog maxSymbolValue : Z) : res HUF_CTable :=
  oassert (tableLog <? 256) ;;;
  oassert (maxSymbolValue <? 256) ;;;
  Ok {| hct_header := {| h_tableLog := u8 tableLog; h_maxSymbolValue := u8 maxSymbolValue |}; hct_ct := hct_ct ctable |}.

Definition HUF_READ_STATS_WORKSPACE_SIZE_U32 : Z := FSE_DECOMPRESS_WKSP_SIZE_U32 6 (HUF_TABLELOG_MAX - 1).
Definition HUF_READ_STATS_WORKSPACE_SIZE : Z := HUF_READ_STATS_WORKSPACE_SIZE_U32 * 4.

(** The local workspace is not read before it is written. *)
Definition HUF_readStats (huffWeight : list Z) (hwSize : Z) (rankStats src : list Z) (srcStart srcSize : Z) : res huf_stats :=
  HUF_readStats_wksp huffWeight hwSize rankStats src srcStart srcSize
    (replicate (Z.to_nat HUF_READ_STATS_WORKSPACE_SIZE) 0).

(** [nbPerRank[HUF_getNbBits(ct[n])]++] *)
Definition count_rank (ct : list Z) (n : Z) (nbPerRank : list Z) : res (list Z) :=
  let* elt := aget ct n in
  let r := HUF_getNbBits elt in
  let* x := aget nbPerRank r in
  aset nbPerRank r (u16 (x + 1)).

(** [valPerRank[n] = min; min += nbPerRank[n]; min >>= 1], for [n] from [maxNbBits] down to 1. *)
Definition rank_value (maxNbBits : Z) (nbPerRank : list Z) (i : Z) (st : list Z * Z) : res (list Z * Z) :=
  let '(valPerRank, min) := st in
  let n := maxNbBits - i in
  let* valPerRank := aset valPerRank n min in
  let* x := aget nbPerRank n in
  Ok (valPerRank, Z.shiftr (u16 (min + x)) 1).

(** [HUF_setValue(ct + n, valPerRank[HUF_getNbBits(ct[n])]++)] *)
Definition assign_value (n : Z) (st : list Z * list Z) : res (list Z * list Z) :=
  let '(ct, valPerRank) := st in
  let* elt := aget ct n in
  let r := HUF_getNbBits elt in
  let* v := aget valPerRank r in
  let* valPerRank := aset valPerRank r (u16 (v + 1)) in
  let* elt := HUF_setValue elt v in
  let* ct := aset ct n elt in
  Ok (ct, valPerRank).

(** [(BYTE)(tableLog + 1 - w) & -(w != 0)] *)
Definition bits_of_weight (tableLog w : Z) : Z := if w =? 0 then 0 else u8 (tableLog + 1 - w).

(** The size read, the table, the largest symbol and whether a weight is zero. *)
Definition HUF_readCTable (CTable : HUF_CTable) (maxSymbolValue : Z) (src : list Z) (srcStart srcSize : Z)
    : res (Z * HUF_CTable * Z * bool) :=
  let* s := HUF_readStats (replicate (Z.to_nat (HUF_SYMBOLVALUE_MAX + 1)) 0) (HUF_SYMBOLVALUE_MAX + 1)
              (replicate (Z.to_nat (HUF_TABLELOG_ABSOLUTEMAX + 1)) 0) src srcStart srcSize in
  let huffWeight := hs_huffWeight s in
  let rankVal := hs_rankStats s in
  let tableLog := hs_tableLog s in
  let nbSymbols := hs_nbSymbols s in
  let* r0 := aget rankVal 0 in
  let hasZeroWeights := 0 <? r0 in
  reject_if (HUF_TABLELOG_MAX <? tableLog) ZSTD_error_tableLog_tooLarge ;;;
  reject_if (maxSymbolValue + 1 <? nbSymbols) ZSTD_error_maxSymbolValue_tooSmall ;;;
  let maxSymbolValue := nbSymbols - 1 in
  let* CTable := HUF_writeCTableHeader CTable tableLog maxSymbolValue in
  let* _ := for_range 1 (tableLog + 1) (fun n '(rankVal, nextRankStart) =>
    let* x := aget rankVal n in
    let* rankVal := aset rankVal n nextRankStart in
    Ok (rankVal, u32 (nextRankStart + u32 (Z.shiftl x (n - 1))))) (rankVal, 0) in
  let* ct := for_range 0 nbSymbols (fun n ct =>
    let* w := aget huffWeight n in
    let* elt := HUF_setNbBits (bits_of_weight tableLog w) in
    aset ct n elt) (hct_ct CTable) in
  let* nbPerRank := for_range 0 nbSymbols (count_rank ct) (replicate (Z.to_nat (HUF_TABLELOG_MAX + 2)) 0) in
  let* valPerRank := aset (replicate (Z.to_nat (HUF_TABLELOG_MAX + 2)) 0) (tableLog + 1) 0 in
  let* (valPerRank, _) := for_range 0 tableLog (rank_value tableLog nbPerRank) (valPerRank, 0) in
  let* (ct, _) := for_range 0 nbSymbols assign_value (ct, valPerRank) in
  Ok (hs_size s, {| hct_header := hct_header CTable; hct_ct := ct |}, maxSymbolValue, hasZeroWeights).

Definition HUF_getNbBitsFromCTable (CTable : HUF_CTable) (symbolValue : Z) : res Z :=
  oassert (symbolValue <=? HUF_SYMBOLVALUE_MAX) ;;;
  if h_maxSymbolValue (HUF_readCTableHeader CTable) <? symbolValue then Ok 0
  else let* elt := aget (hct_ct CTable) symbolValue in Ok (HUF_getNbBits elt).

Definition HUF_estimateCompressedSize (CTable : HUF_CTable) (count : list Z) (maxSymbolValue : Z) : res Z :=
  let ct := hct_ct CTable in
  let* nbBits := for_range 0 (maxSymbolValue + 1) (fun s nbBits =>
    let* elt := aget ct s in
    let* c := aget count s in
    Ok (size_t (nbBits + size_t (HUF_getNbBits elt * c)))) 0 in
  Ok (Z.shiftr nbBits 3).

Definition HUF_validateCTable (CTable : HUF_CTable) (count : list Z) (maxSymbolValue : Z) : res bool :=
  let header := HUF_readCTableHeader CTable in
  let ct := hct_ct CTable in
  oassert (h_tableLog header <=? HUF_TABLELOG_ABSOLUTEMAX) ;;;
  if h_maxSymbolValue header <? maxSymbolValue then Ok false
  else
    let* bad := for_range 0 (maxSymbolValue + 1) (fun s bad =>
      let* c := aget count s in
      let* elt := aget ct s in
      Ok (bad || negb (c =? 0) && (HUF_getNbBits elt =? 0))) false in
    Ok (negb bad).

(** ** Decoding tables *)

(** The table descriptor, and the cells as bytes: [nbBits] then [byte], two bytes a cell. *)
Record HUF_DTable := {
  dtd_maxTableLog : Z; dtd_tableType : Z; dtd_tableLog : Z; dtd_reserved : Z; hdt_cells : list Z
}.

(** [dt[u] = D] with [D] the cell of [byte] and [nbBits]. *)
Definition set_cell (dt : list Z) (u byte nbBits : Z) : res (list Z) :=
  let* dt := aset dt (2 * u) nbBits in
  aset dt (2 * u + 1) byte.

Definition HUF_DEltX1_set4 (symbol nbBits : Z) : res Z :=
  let D4 := if MEM_isLittleEndian then Z.shiftl symbol 8 + nbBits else symbol + Z.shiftl nbBits 8 in
  oassert (D4 <? 2 ^ 16) ;;;
  Ok (u64 (D4 * 281479271743489)).

(** ([huffWeight], [rankVal], the new [tableLog]) *)
Definition HUF_rescaleStats (huffWeight rankVal : list Z) (nbSymbols tableLog targetTableLog : Z) : res (list Z * list Z * Z) :=
  if targetTableLog <? tableLog then Ok (huffWeight, rankVal, tableLog)
  else
    let* (huffWeight, rankVal) :=
      if tableLog <? targetTableLog then
        let scale := targetTableLog - tableLog in
        let* huffWeight := for_range 0 nbSymbols (fun s hw =>
          let* w := aget hw s in
          aset hw s (u8 (w + (if w =? 0 then 0 else scale)))) huffWeight in
        let* rankVal := for_range 0 (targetTableLog - scale) (fun i rankVal =>
          let s := targetTableLog - i in
          let* x := aget rankVal (s - scale) in
          aset rankVal s x) rankVal in
        let* rankVal := for_range 0 scale (fun i rankVal => aset rankVal (scale - i) 0) rankVal in
        Ok (huffWeight, rankVal)
      else Ok (huffWeight, rankVal) in
    Ok (huffWeight, rankVal, targetTableLog).

(** [sizeof(HUF_ReadDTableX1_Workspace)] *)
Definition sizeof_ReadDTableX1_Workspace : Z :=
  4 * (HUF_TABLELOG_ABSOLUTEMAX + 1) + 4 * (HUF_TABLELOG_ABSOLUTEMAX + 1) + HUF_READ_STATS_WORKSPACE_SIZE +
  (HUF_SYMBOLVALUE_MAX + 1) + (HUF_SYMBOLVALUE_MAX + 1).

(** [curr = nextRankStart; nextRankStart += rankVal[n]; rankStart[n] = curr] *)
Definition start_rank (rankVal : list Z) (n : Z) (st : list Z * Z) : res (list Z * Z) :=
  let '(rankStart, nextRankStart) := st in
  let* x := aget rankVal n in
  let* rankStart := aset rankStart n nextRankStart in
  Ok (rankStart, u32 (nextRankStart + x)).

(** [w = huffWeight[n]; symbols[rankStart[w]++] = n] *)
Definition place_symbol (huffWeight : list Z) (n : Z) (st : list Z * list Z) : res (list Z * list Z) :=
  let '(symbols, rankStart) := st in
  let* w := aget huffWeight n in
  let* p := aget rankStart w in
  let* symbols := aset symbols p (u8 n) in
  let* rankStart := aset rankStart w (u32 (p + 1)) in
  Ok (symbols, rankStart).

(** The cells of one symbol, for each [length]. *)
Definition fill_symbol (dt : list Z) (uStart length byte nbBits : Z) : res (list Z) :=
  if length =? 1 then set_cell dt uStart byte nbBits
  else if length =? 2 then
    let* dt := set_cell dt (uStart + 0) byte nbBits in
    set_cell dt (uStart + 1) byte nbBits
  else
    let* D4 := HUF_DEltX1_set4 byte nbBits in
    if length =? 4 then MEM_write64 dt (2 * uStart) D4
    else if length =? 8 then
      let* dt := MEM_write64 dt (2 * uStart) D4 in
      MEM_write64 dt (2 * (uStart + 4)) D4
    else
      let* dt := for_step 0 length 16 (fun u dt =>
        let* dt := MEM_write64 dt (2 * (uStart + u + 0)) D4 in
        let* dt := MEM_write64 dt (2 * (uStart + u + 4)) D4 in
        let* dt := MEM_write64 dt (2 * (uStart + u + 8)) D4 in
        MEM_write64 dt (2 * (uStart + u + 12)) D4) dt in
      let u := (length + 15) / 16 * 16 in
      oassert (u =? length) ;;;
      Ok dt.

(** The cells of the symbols of one weight: ([dt], [symbol], [rankStart]). *)
Definition fill_weight (symbols rankVal : list Z) (tableLog : Z) (w : Z) (st : list Z * Z * Z) : res (list Z * Z * Z) :=
  let '(dt, symbol, rankStart) := st in
  let* symbolCount := aget rankVal w in
  let length := Z.shiftr (Z.shiftl 1 w) 1 in
  let nbBits := u8 (tableLog + 1 - w) in
  let* (dt, _) := for_range 0 symbolCount (fun s '(dt, uStart) =>
    let* byte := aget symbols (symbol + s) in
    let* dt := fill_symbol dt uStart length byte nbBits in
    Ok (dt, uStart + length)) (dt, rankStart) in
  Ok (dt, symbol + symbolCount, rankStart + symbolCount * length).

(** The workspace's arrays are written before they are read. *)
Definition HUF_readDTableX1_wksp (DTable : HUF_DTable) (src : list Z) (srcStart srcSize wkspSize : Z) : res (Z * HUF_DTable) :=
  reject_if (wkspSize <? sizeof_ReadDTableX1_Workspace) ZSTD_error_tableLog_tooLarge ;;;
  let* s := HUF_readStats_wksp (replicate (Z.to_nat (HUF_SYMBOLVALUE_MAX + 1)) 0) (HUF_SYMBOLVALUE_MAX + 1)
              (replicate (Z.to_nat (HUF_TABLELOG_ABSOLUTEMAX + 1)) 0) src srcStart srcSize
              (replicate (Z.to_nat HUF_READ_STATS_WORKSPACE_SIZE) 0) in
  let nbSymbols := hs_nbSymbols s in
  let maxTableLog := dtd_maxTableLog DTable + 1 in
  let targetTableLog := Z.min maxTableLog HUF_DECODER_FAST_TABLELOG in
  let* (huffWeight, rankVal, tableLog) :=
    HUF_rescaleStats (hs_huffWeight s) (hs_rankStats s) nbSymbols (hs_tableLog s) targetTableLog in
  reject_if (dtd_maxTableLog DTable + 1 <? tableLog) ZSTD_error_tableLog_tooLarge ;;;
  let* (rankStart, _) := for_range 0 (tableLog + 1) (start_rank rankVal) (replicate (Z.to_nat (HUF_TABLELOG_ABSOLUTEMAX + 1)) 0, 0) in
  let unroll := 4 in
  let nLimit := nbSymbols - unroll + 1 in
  let* st := for_step 0 nLimit unroll (fun n st => for_range 0 unroll (fun u st => place_symbol huffWeight (n + u) st) st)
               (replicate (Z.to_nat (HUF_SYMBOLVALUE_MAX + 1)) 0, rankStart) in
  let n := if 0 <? nLimit then (nLimit + unroll - 1) / unroll * unroll else 0 in
  let* (symbols, _) := for_range n nbSymbols (place_symbol huffWeight) st in
  let* r0 := aget rankVal 0 in
  let* (dt, _, _) := for_range 1 (tableLog + 1) (fill_weight symbols rankVal tableLog) (hdt_cells DTable, r0, 0) in
  Ok (hs_size s, {| dtd_maxTableLog := dtd_maxTableLog DTable; dtd_tableType := 0; dtd_tableLog := u8 tableLog;
                    dtd_reserved := dtd_reserved DTable; hdt_cells := dt |}).
End Definitions.
