(* ===== verification/HufCode.v ===== *)
(** * The canonical Huffman code of a list of weights

    The reference definitions behind both Huffman tables: how many cells the
    lighter symbols take, where the cells of a symbol start, its code, and the
    decoding table as a list.  [HUF_readCTable] and [HUF_readDTableX1_wksp] are
    shown to compute them. *)
From S2P Require Import Prelude Mem Errors Bits BitStream Fse FseSpread FseBuild NCount HufStats HufTable.

(** Weights of a complete code of depth [k]. *)
Definition code_ok (ws : list Z) (k : Z) : Prop :=
  1 <= k <= HUF_TABLELOG_MAX /\ 2 <= zlen ws <= 256 /\ Forall (fun w => 0 <= w <= k) ws /\ weight_sum ws = 2 ^ k.

(** ** Symbols of a weight *)

Fixpoint idx_of (w i : Z) (l : list Z) : list Z :=
  match l with
  | [] => []
  | x :: l => (if x =? w then [i] else []) ++ idx_of w (i + 1) l
  end.

Definition of_weight (w : Z) (ws : list Z) : list Z := idx_of w 0 ws.

Lemma idx_of_app w l1 l2 : forall i, idx_of w i (l1 ++ l2) = idx_of w i l1 ++ idx_of w (i + zlen l1) l2.
Proof.
  induction l1 as [|x l1 IH]; intros i; [by rewrite Z.add_0_r|]. cbn [app idx_of]. rewrite IH, <- app_assoc, zlen_cons.
  do 3 f_equal. lia.
Qed.

Lemma zlen_idx_of w l : forall i, zlen (idx_of w i l) = count_sym w l.
Proof.
  induction l as [|x l IH]; intros i; [done|]. cbn [idx_of]. rewrite zlen_app, IH, count_sym_cons.
  destruct (Z.eqb_spec x w), (decide (x = w)); done.
Qed.

Lemma idx_of_range w l : forall i, Forall (fun s => i <= s < i + zlen l) (idx_of w i l).
Proof.
  induction l as [|x l IH]; intros i; [constructor|]. cbn [idx_of]. pose proof (zlen_nonneg l). rewrite zlen_cons. apply Forall_app. split.
  - destruct (x =? w); repeat constructor; lia.
  - eapply Forall_impl; [apply IH|]. simpl. lia.
Qed.

Lemma of_weight_snoc w l x : of_weight w (l ++ [x]) = of_weight w l ++ (if x =? w then [zlen l] else []).
Proof. unfold of_weight. rewrite idx_of_app. cbn [idx_of]. by rewrite app_nil_r. Qed.

Lemma zlen_of_weight w l : zlen (of_weight w l) = count_sym w l.
Proof. apply zlen_idx_of. Qed.

(** The symbols of weight [w] around [s]. *)
Lemma of_weight_split w ws s :
  ws !! s = Some w -> exists rest, of_weight w ws = of_weight w (take s ws) ++ Z.of_nat s :: rest.
Proof.
  intros Hs. assert (of_weight w ws = of_weight w (take s ws ++ w :: drop (S s) ws)) as -> by (by rewrite take_drop_middle).
  unfold of_weight. rewrite idx_of_app. cbn [idx_of]. rewrite Z.eqb_refl. eexists. cbn [app]. rewrite Z.add_0_l. unfold zlen. rewrite length_take_le; [reflexivity|].
  apply lookup_lt_Some in Hs. lia.
Qed.

(** ** Cells *)

(** The cells of the symbols of weights 1 to [n]. *)
Fixpoint cells_upto (ws : list Z) (n : nat) : Z :=
  match n with
  | O => 0
  | S m => cells_upto ws m + count_sym (Z.of_nat n) ws * 2 ^ Z.of_nat m
  end.

Definition cells (ws : list Z) (w : Z) : Z := cells_upto ws (Z.to_nat w).

Lemma cells_succ ws w : 0 <= w -> cells ws (w + 1) = cells ws w + count_sym (w + 1) ws * 2 ^ w.
Proof.
  intros Hw. unfold cells. replace (Z.to_nat (w + 1)) with (S (Z.to_nat w)) by lia. cbn [cells_upto].
  replace (Z.of_nat (S (Z.to_nat w))) with (w + 1) by lia. by rewrite Z2Nat.id by lia.
Qed.

Lemma cells_step ws w : 1 <= w -> cells ws w = cells ws (w - 1) + count_sym w ws * 2 ^ (w - 1).
Proof. intros Hw. replace w with (w - 1 + 1) at 1 by lia. rewrite cells_succ by lia. by replace (w - 1 + 1) with w by lia. Qed.

Lemma cells_cons ws x n : 0 <= x ->
  cells_upto (x :: ws) n = cells_upto ws n + (if (1 <=? x) && (x <=? Z.of_nat n) then 2 ^ (x - 1) else 0).
Proof.
  intros Hx. induction n as [|n IH]; [cbn [cells_upto]; zcases; simpl; lia|]. cbn [cells_upto]. rewrite IH, count_sym_cons.
  destruct (decide (x = Z.of_nat (S n))) as [->|Hne].
  - replace (Z.of_nat (S n) - 1) with (Z.of_nat n) by lia. zdecide. cbn [andb]. lia.
  - destruct (Z.leb_spec 1 x); cbn [andb]; [|lia]. zcases; lia.
Qed.

Lemma cells_weight_sum ws k : 0 <= k -> Forall (fun w => 0 <= w <= k) ws -> cells ws k = weight_sum ws.
Proof.
  intros Hk. induction 1 as [|x ws Hx Hws IH].
  - unfold cells. cbn [weight_sum]. generalize (Z.to_nat k). induction n as [|n IHn]; [done|]. cbn [cells_upto]. rewrite IHn. done.
  - unfold cells in *. rewrite cells_cons by lia. rewrite IH. cbn [weight_sum]. rewrite weight_val by lia. rewrite Z2Nat.id by lia.
    destruct (Z.eqb_spec x 0) as [->|]; [simpl; lia|]. zdecide. cbn [andb]. lia.
Qed.

Lemma cells_mono ws v w : 0 <= v <= w -> 0 <= cells ws v <= cells ws w.
Proof.
  intros Hv. unfold cells.
  assert (forall n, 0 <= cells_upto ws n) as H0.
  { induction n as [|n IH]; [done|]. cbn [cells_upto]. pose proof (count_sym_nonneg (Z.of_nat (S n)) ws). pose proof (pow2_pos (Z.of_nat n)). nia. }
  split; [apply H0|]. assert (Z.to_nat v <= Z.to_nat w)%nat as Hle by lia. induction Hle as [|m Hle IH]; [lia|]. cbn [cells_upto].
  pose proof (count_sym_nonneg (Z.of_nat (S m)) ws). pose proof (pow2_pos (Z.of_nat m)). nia.
Qed.

Section Code.
Context (ws : list Z) (k : Z) (Hok : code_ok ws k).

Lemma cells_total : cells ws k = 2 ^ k.
Proof. destruct Hok as (Hk & _ & Hf & Hs). rewrite cells_weight_sum by (done || lia). done. Qed.

(** The cells of the lighter weights end on a boundary of the next. *)
Lemma cells_divide j : 0 <= j <= k -> (2 ^ j | cells ws j).
Proof.
  intros Hj. destruct Hok as (Hk & _). replace j with (k - (k - j)) by lia. assert (0 <= k - j <= k) as Hd by lia. revert Hd.
  generalize (k - j). clear j Hj. intros d Hd. replace d with (Z.of_nat (Z.to_nat d)) in * by lia. revert Hd. generalize (Z.to_nat d). clear d.
  induction n as [|n IH]; intros Hd; [rewrite Z.sub_0_r, cells_total; by apply Z.divide_refl|].
  set (w := k - Z.of_nat n) in *. replace (k - Z.of_nat (S n)) with (w - 1) by lia. specialize (IH ltac:(lia)).
  pose proof (cells_step ws w ltac:(lia)) as Hs. replace (cells ws (w - 1)) with (cells ws w - count_sym w ws * 2 ^ (w - 1)) by lia.
  apply Z.divide_sub_r; [|apply Z.divide_factor_r]. eapply Z.divide_trans; [|exact IH].
  exists 2. replace w with (Z.succ (w - 1)) at 1 by lia. rewrite Z.pow_succ_r by lia. done.
Qed.

(** Where the cells of [s] start, and the code they share. *)
Definition first_cell (s : nat) (w : Z) : Z := cells ws (w - 1) + count_sym w (take s ws) * 2 ^ (w - 1).
Definition code_of (s : nat) (w : Z) : Z := cells ws (w - 1) / 2 ^ (w - 1) + count_sym w (take s ws).

Lemma weight_range s w : ws !! s = Some w -> 0 <= w <= k.
Proof. intros Hs. destruct Hok as (_ & _ & Hf & _). by apply (Forall_lookup_1 _ _ _ _ Hf Hs). Qed.

Lemma first_cell_code s w : ws !! s = Some w -> w <> 0 -> first_cell s w = code_of s w * 2 ^ (w - 1).
Proof.
  intros Hs Hw. pose proof (weight_range s w Hs). destruct (cells_divide (w - 1) ltac:(lia)) as [q Hq]. unfold first_cell, code_of. rewrite Hq.
  rewrite Z.div_mul by (apply Z.pow_nonzero; lia). lia.
Qed.

Lemma count_before s w : ws !! s = Some w -> count_sym w (take s ws) + 1 <= count_sym w ws.
Proof.
  intros Hs. rewrite <- (take_drop_middle ws s w Hs) at 2. rewrite count_sym_app, count_sym_cons.
  destruct (decide (w = w)); [|done]. pose proof (count_sym_nonneg w (drop (S s) ws)). lia.
Qed.

Lemma first_cell_range s w : ws !! s = Some w -> w <> 0 -> 0 <= first_cell s w /\ first_cell s w + 2 ^ (w - 1) <= cells ws w <= 2 ^ k.
Proof.
  intros Hs Hw. pose proof (weight_range s w Hs). pose proof (count_before s w Hs). pose proof (cells_mono ws (w - 1) (w - 1) ltac:(lia)).
  pose proof (cells_mono ws w k ltac:(lia)). rewrite cells_total in *. pose proof (cells_step ws w ltac:(lia)).
  pose proof (count_sym_nonneg w (take s ws)). pose proof (pow2_pos (w - 1) ltac:(lia)). unfold first_cell. nia.
Qed.

Lemma code_range s w : ws !! s = Some w -> w <> 0 -> 0 <= code_of s w < 2 ^ (k + 1 - w).
Proof.
  intros Hs Hw. pose proof (weight_range s w Hs). destruct (first_cell_range s w Hs Hw) as [H0 H1]. rewrite (first_cell_code s w Hs Hw) in *.
  pose proof (pow2_pos (w - 1) ltac:(lia)). replace k with ((k + 1 - w) + (w - 1)) in H1 by lia. rewrite Z.pow_add_r in H1 by lia. nia.
Qed.
End Code.

(** ** The decoding table *)

(** [n] cells of the symbol [s] with a code of [nb] bits. *)
Definition block (n : Z) (s nb : Z) : list Z := concat (replicate (Z.to_nat n) [nb; s]).

Definition row (ws : list Z) (k w : Z) : list Z := concat (map (fun s => block (2 ^ (w - 1)) s (k + 1 - w)) (of_weight w ws)).

Fixpoint rows_upto (ws : list Z) (k : Z) (n : nat) : list Z :=
  match n with
  | O => []
  | S m => rows_upto ws k m ++ row ws k (Z.of_nat n)
  end.

Definition rows (ws : list Z) (k w : Z) : list Z := rows_upto ws k (Z.to_nat w).

Lemma rows_succ ws k w : 0 <= w -> rows ws k (w + 1) = rows ws k w ++ row ws k (w + 1).
Proof.
  intros Hw. unfold rows. replace (Z.to_nat (w + 1)) with (S (Z.to_nat w)) by lia. cbn [rows_upto].
  by replace (Z.of_nat (S (Z.to_nat w))) with (w + 1) by lia.
Qed.

Lemma rows_step ws k w : 1 <= w -> rows ws k w = rows ws k (w - 1) ++ row ws k w.
Proof. intros Hw. replace w with (w - 1 + 1) at 1 by lia. rewrite rows_succ by lia. by replace (w - 1 + 1) with w by lia. Qed.

Lemma zlen_block n s nb : 0 <= n -> zlen (block n s nb) = 2 * n.
Proof.
  intros Hn. unfold block. replace n with (Z.of_nat (Z.to_nat n)) at 2 by lia. generalize (Z.to_nat n). induction n0 as [|m IH]; [done|].
  cbn [replicate concat]. rewrite zlen_app, IH. change (zlen [nb; s]) with 2. lia.
Qed.

Lemma block_add a b s nb : 0 <= a -> 0 <= b -> block (a + b) s nb = block a s nb ++ block b s nb.
Proof. intros Ha Hb. unfold block. by rewrite Z2Nat.inj_add, replicate_add, concat_app by lia. Qed.

Lemma lookup_block n s nb i : 0 <= i < n ->
  block n s nb !! Z.to_nat (2 * i) = Some nb /\ block n s nb !! Z.to_nat (2 * i + 1) = Some s.
Proof.
  intros Hi. replace n with (i + (1 + (n - i - 1))) by lia. rewrite !block_add by lia. change (block 1 s nb) with [nb; s].
  pose proof (zlen_block i s nb ltac:(lia)) as Hl. unfold zlen in Hl.
  rewrite (lookup_app_r _ _ (Z.to_nat (2 * i))), (lookup_app_r _ _ (Z.to_nat (2 * i + 1))) by lia.
  replace (Z.to_nat (2 * i) - length (block i s nb))%nat with 0%nat by lia.
  replace (Z.to_nat (2 * i + 1) - length (block i s nb))%nat with 1%nat by lia. split; reflexivity.
Qed.

(** The blocks of some symbols of one weight. *)
Definition blocks (k w : Z) (l : list Z) : list Z := concat (map (fun s => block (2 ^ (w - 1)) s (k + 1 - w)) l).

Lemma blocks_app k w l1 l2 : blocks k w (l1 ++ l2) = blocks k w l1 ++ blocks k w l2.
Proof. unfold blocks. by rewrite map_app, concat_app. Qed.

Lemma blocks_one k w s : blocks k w [s] = block (2 ^ (w - 1)) s (k + 1 - w).
Proof. unfold blocks. cbn [map concat]. by rewrite app_nil_r. Qed.

Lemma zlen_blocks k w l : 1 <= w -> zlen (blocks k w l) = 2 * (zlen l * 2 ^ (w - 1)).
Proof.
  intros Hw. pose proof (pow2_pos (w - 1) ltac:(lia)). induction l as [|s l IH]; [done|]. change (s :: l) with ([s] ++ l). rewrite blocks_app, zlen_app, IH.
  rewrite blocks_one, zlen_block, zlen_app by lia. change (zlen [s]) with 1. lia.
Qed.

Lemma zlen_row ws k w : 1 <= w -> zlen (row ws k w) = 2 * (count_sym w ws * 2 ^ (w - 1)).
Proof. intros Hw. rewrite <- (zlen_of_weight w ws). by apply zlen_blocks. Qed.

Lemma zlen_rows ws k w : 0 <= w -> zlen (rows ws k w) = 2 * cells ws w.
Proof.
  intros Hw. replace w with (Z.of_nat (Z.to_nat w)) by lia. generalize (Z.to_nat w). induction n as [|n IH]; [done|].
  replace (Z.of_nat (S n)) with (Z.of_nat n + 1) by lia. rewrite rows_succ, cells_succ, zlen_app, zlen_row, IH by lia.
  replace (Z.of_nat n + 1 - 1) with (Z.of_nat n) by lia. lia.
Qed.

Lemma rows_prefix ws k v w : 0 <= v <= w -> rows ws k v `prefix_of` rows ws k w.
Proof.
  intros Hv. replace w with (v + Z.of_nat (Z.to_nat (w - v))) by lia. generalize (Z.to_nat (w - v)). induction n as [|n IH]; [by rewrite Z.add_0_r|].
  replace (v + Z.of_nat (S n)) with (v + Z.of_nat n + 1) by lia. rewrite rows_succ by lia. by apply prefix_app_r.
Qed.

Section Lookup.
Context (ws : list Z) (k : Z) (Hok : code_ok ws k).

(** The cells of a symbol in the table. *)
Lemma rows_lookup s w v :
  ws !! s = Some w -> w <> 0 -> first_cell ws s w <= v < first_cell ws s w + 2 ^ (w - 1) ->
  rows ws k k !! Z.to_nat (2 * v) = Some (k + 1 - w) /\ rows ws k k !! Z.to_nat (2 * v + 1) = Some (Z.of_nat s).
Proof.
  intros Hs Hw Hv. pose proof (weight_range ws k Hok s w Hs) as Hwr. destruct (first_cell_range ws k Hok s w Hs Hw) as [H0 _].
  destruct (of_weight_split w ws s Hs) as [rest Hsp]. pose proof (pow2_pos (w - 1) ltac:(lia)).
  set (A := rows ws k (w - 1) ++ blocks k w (of_weight w (take s ws))).
  assert ((A ++ block (2 ^ (w - 1)) (Z.of_nat s) (k + 1 - w)) `prefix_of` rows ws k k) as [C HC].
  { etrans; [|apply (rows_prefix ws k w k); lia]. rewrite (rows_step ws k w) by lia. unfold A, row. fold (blocks k w (of_weight w ws)).
    rewrite Hsp. change (Z.of_nat s :: rest) with ([Z.of_nat s] ++ rest). rewrite !blocks_app, <- !app_assoc.
    rewrite blocks_one. do 2 apply prefix_app. by apply prefix_app_r. }
  assert (zlen A = 2 * first_cell ws s w) as HA.
  { unfold A. rewrite zlen_app, zlen_rows, zlen_blocks, zlen_of_weight by lia. unfold first_cell. lia. }
  destruct (lookup_block (2 ^ (w - 1)) (Z.of_nat s) (k + 1 - w) (v - first_cell ws s w) ltac:(lia)) as [L0 L1].
  rewrite HC, <- !app_assoc. unfold zlen in HA. rewrite (lookup_app_r _ _ (Z.to_nat (2 * v))), (lookup_app_r _ _ (Z.to_nat (2 * v + 1))) by lia.
  pose proof (zlen_block (2 ^ (w - 1)) (Z.of_nat s) (k + 1 - w) ltac:(lia)) as Hbl. unfold zlen in Hbl.
  split; (rewrite lookup_app_l by lia); [rewrite <- L0|rewrite <- L1]; f_equal; lia.
Qed.
End Lookup.

(** ** Laying cells down *)

Lemma prefix_splice (l mem k : list Z) :
  l `prefix_of` mem -> zlen l + zlen k <= zlen mem -> l ++ k `prefix_of` splice mem (zlen l) k.
Proof.
  intros [r ->] Hz. unfold splice, zlen. rewrite Nat2Z.id, take_app_length. apply prefix_app. by apply prefix_app_r.
Qed.

Section Fill.
Context `{P : Platform}.

(** A write right after what is laid down. *)
Lemma lay_write (l mem k : list Z) p :
  l `prefix_of` mem -> p = zlen l -> zlen l + zlen k <= zlen mem ->
  exists mem', awrite mem p k = (Ok mem' : res (list Z)) /\ (l ++ k) `prefix_of` mem' /\ zlen mem' = zlen mem.
Proof.
  intros Hl -> Hz. pose proof (zlen_nonneg l). rewrite awrite_Ok by lia. eexists. split; [reflexivity|].
  split; [by apply prefix_splice|]. apply zlen_splice; lia.
Qed.

Lemma lay_cell (l mem : list Z) u s nb :
  l `prefix_of` mem -> 2 * u = zlen l -> zlen l + 2 <= zlen mem ->
  exists mem', set_cell mem u s nb = Ok mem' /\ (l ++ block 1 s nb) `prefix_of` mem' /\ zlen mem' = zlen mem.
Proof.
  intros Hl Hu Hz. pose proof (zlen_nonneg l). unfold set_cell. rewrite aset_Ok by lia. cbn [obind]. rewrite aset_Ok by (rewrite zlen_insert; lia).
  eexists. split; [reflexivity|]. split; [|by rewrite !zlen_insert].
  rewrite <- (splice_one mem), <- (splice_one (splice _ _ _)) by (rewrite ?zlen_splice by (unfold zlen in *; simpl; lia); lia).
  change (2 * u + 1) with (2 * u + zlen [nb]). rewrite (splice_app mem (2 * u) [nb] [s]) by (unfold zlen in *; simpl; lia). rewrite Hu. by apply prefix_splice.
Qed.

Lemma set4_image s nb :
  0 <= s < 256 -> 0 <= nb < 256 ->
  exists D4, HUF_DEltX1_set4 s nb = Ok D4 /\ (if MEM_isLittleEndian then le_bytes 8 D4 else rev (le_bytes 8 D4)) = block 4 s nb.
Proof.
  intros Hs Hn. unfold HUF_DEltX1_set4. rewrite !Z.shiftl_mul_pow2 by lia.
  assert (bytes [nb; s; nb; s; nb; s; nb; s] /\ bytes [s; nb; s; nb; s; nb; s; nb]) as [Hb Hb']
    by (unfold is_byte; split; repeat constructor; lia).
  destruct MEM_isLittleEndian; rewrite (proj2 (Z.ltb_lt _ (2 ^ 16))) by lia; cbn [oassert obind]; eexists; (split; [reflexivity|]); rewrite wrap_small by lia.
  - replace ((s * 2 ^ 8 + nb) * 281479271743489) with (le_val [nb; s; nb; s; nb; s; nb; s]) by (cbn [le_val]; lia).
    exact (le_bytes_val [nb; s; nb; s; nb; s; nb; s] Hb).
  - replace ((s + nb * 2 ^ 8) * 281479271743489) with (le_val [s; nb; s; nb; s; nb; s; nb]) by (cbn [le_val]; lia).
    exact (f_equal (@rev Z) (le_bytes_val [s; nb; s; nb; s; nb; s; nb] Hb')).
Qed.

(** Four cells at a time. *)
Lemma lay_four (l mem : list Z) u s nb D4 p :
  (if MEM_isLittleEndian then le_bytes 8 D4 else rev (le_bytes 8 D4)) = block 4 s nb ->
  l `prefix_of` mem -> p = 2 * u -> 2 * u = zlen l -> zlen l + 8 <= zlen mem ->
  exists mem', MEM_write64 mem p D4 = (Ok mem' : res (list Z)) /\ (l ++ block 4 s nb) `prefix_of` mem' /\ zlen mem' = zlen mem.
Proof. intros Himg Hl -> Hu Hz. unfold MEM_write64, store_native. rewrite Himg. by apply lay_write. Qed.

Lemma pow_below_16 w : 1 <= w <= 12 -> 2 ^ (w - 1) = 1 \/ 2 ^ (w - 1) = 2 \/ 2 ^ (w - 1) = 4 \/ 2 ^ (w - 1) = 8 \/ exists m, 0 < m /\ 2 ^ (w - 1) = 16 * m.
Proof.
  intros Hw. destruct (Z.lt_ge_cases w 5).
  - assert (w = 1 \/ w = 2 \/ w = 3 \/ w = 4) as [->|[->|[->| ->]]] by lia; tauto.
  - do 4 right. exists (2 ^ (w - 5)). split; [apply pow2_pos; lia|]. change 16 with (2 ^ 4). rewrite <- Z.pow_add_r by lia. f_equal. lia.
Qed.

Lemma fill_symbol_spec (l mem : list Z) u w s nb :
  l `prefix_of` mem -> 2 * u = zlen l -> 1 <= w <= 12 -> 0 <= s < 256 -> 0 <= nb < 256 -> zlen l + 2 * 2 ^ (w - 1) <= zlen mem ->
  exists mem', fill_symbol mem u (2 ^ (w - 1)) s nb = Ok mem' /\ (l ++ block (2 ^ (w - 1)) s nb) `prefix_of` mem' /\ zlen mem' = zlen mem.
Proof.
  intros Hl Hu Hw Hs Hn Hz. unfold fill_symbol. destruct (set4_image s nb Hs Hn) as (D4 & ED & Himg).
  destruct (pow_below_16 w Hw) as [E|[E|[E|[E|(m & Hm & E)]]]]; rewrite E in *.
  - cbn [Z.eqb Pos.eqb]. by apply lay_cell.
  - cbn [Z.eqb Pos.eqb]. destruct (lay_cell l mem (u + 0) s nb) as (m1 & -> & H1 & Z1); [done|lia|lia|]. cbn [obind].
    destruct (lay_cell _ m1 (u + 1) s nb H1) as (m2 & -> & H2 & Z2); [rewrite zlen_app, zlen_block; lia..|].
    exists m2. split; [done|]. rewrite (block_add 1 1), app_assoc by lia. split; [done|lia].
  - cbn [Z.eqb Pos.eqb]. rewrite ED. cbn [obind]. by eapply lay_four.
  - cbn [Z.eqb Pos.eqb]. rewrite ED. cbn [obind]. destruct (lay_four l mem u s nb D4 (2 * u) Himg Hl) as (m1 & -> & H1 & Z1); [done|lia|lia|]. cbn [obind].
    destruct (lay_four _ m1 (u + 4) s nb D4 (2 * (u + 4)) Himg H1) as (m2 & -> & H2 & Z2); [done|rewrite zlen_app, zlen_block; lia..|].
    exists m2. split; [done|]. rewrite (block_add 4 4), app_assoc by lia. split; [done|lia].
  - zdecide. rewrite ED. cbn [obind]. unfold for_step.
    replace ((16 * m - 0 + 16 - 1) / 16) with m by (replace (16 * m - 0 + 16 - 1) with (15 + m * 16) by lia; rewrite Z.div_add by lia; done).
    assert (wp (for_loop (Z.to_nat m) 0 (fun k dt =>
        let* dt := MEM_write64 dt (2 * (u + (0 + 16 * k) + 0)) D4 in
        let* dt := MEM_write64 dt (2 * (u + (0 + 16 * k) + 4)) D4 in
        let* dt := MEM_write64 dt (2 * (u + (0 + 16 * k) + 8)) D4 in
        MEM_write64 dt (2 * (u + (0 + 16 * k) + 12)) D4) mem)
      (fun dt => (l ++ block (16 * (0 + Z.of_nat (Z.to_nat m))) s nb) `prefix_of` dt /\ zlen dt = zlen mem) (fun _ : ZSTD_ErrorCode => False)) as Hw'.
    { apply (wp_for_loop (fun k dt => (l ++ block (16 * k) s nb) `prefix_of` dt /\ zlen dt = zlen mem)).
      - split; [by rewrite app_nil_r|done].
      - intros j dt Hj [Hp Hzd].
        destruct (lay_four _ dt (u + 16 * j) s nb D4 (2 * (u + (0 + 16 * j) + 0)) Himg Hp) as (m1 & -> & H1 & Z1);
          [lia|rewrite zlen_app, zlen_block; lia..|]. cbn [obind].
        destruct (lay_four _ m1 (u + 16 * j + 4) s nb D4 (2 * (u + (0 + 16 * j) + 4)) Himg H1) as (m2 & -> & H2 & Z2);
          [lia|rewrite !zlen_app, !zlen_block; lia..|]. cbn [obind].
        destruct (lay_four _ m2 (u + 16 * j + 8) s nb D4 (2 * (u + (0 + 16 * j) + 8)) Himg H2) as (m3 & -> & H3 & Z3);
          [lia|rewrite !zlen_app, !zlen_block; lia..|]. cbn [obind].
        destruct (lay_four _ m3 (u + 16 * j + 12) s nb D4 (2 * (u + (0 + 16 * j) + 12)) Himg H3) as (m4 & -> & H4 & Z4);
          [lia|rewrite !zlen_app, !zlen_block; lia..|]. cbn [wp].
        split; [|lia]. replace (16 * (j + 1)) with (16 * j + (4 + (4 + (4 + 4)))) by lia.
        rewrite !block_add by lia. by rewrite !app_assoc. }
    apply wp_exists in Hw' as (dt & -> & Hp & Hzd). cbn [obind].
    replace ((16 * m + 15) / 16) with m by (rewrite (Z.add_comm (16 * m)), (Z.mul_comm 16), Z.div_add by lia; done). rewrite (proj2 (Z.eqb_eq (m * 16) (16 * m))) by lia. cbn [oassert obind].
    exists dt. split; [done|]. replace (16 * (0 + Z.of_nat (Z.to_nat m))) with (16 * m) in Hp by lia. done.
Qed.
End Fill.

(** ** Unrolled loops *)

Lemma for_loop_shift {E S} n i j (body : Z -> S -> outcome E S) s : for_loop n i (fun k => body (k + j)) s = for_loop n (i + j) body s.
Proof.
  revert i s; induction n as [|n IH]; intros i s; [done|]. cbn [for_loop]. destruct (body (i + j) s); cbn [obind]; [|done..].
  rewrite IH. f_equal. lia.
Qed.

Lemma for_unrolled {E S} (c m : nat) (f : Z -> S -> outcome E S) s :
  for_loop m 0 (fun k s => for_loop c 0 (fun u s => f (Z.of_nat c * k + u) s) s) s = for_loop (m * c) 0 f s.
Proof.
  induction m as [|m IH]; [done|]. rewrite for_loop_snoc, IH. replace (Datatypes.S m * c)%nat with (m * c + c)%nat by lia. rewrite for_loop_add.
  destruct (for_loop (m * c) 0 f s) as [s'| |]; cbn [obind]; [|done..]. rewrite !Z.add_0_l. rewrite Nat2Z.inj_mul, (Z.mul_comm (Z.of_nat m)).
  pose proof (for_loop_shift c 0 (Z.of_nat c * Z.of_nat m) f s') as E'. rewrite Z.add_0_l in E'. rewrite <- E'. apply for_loop_ext. intros j t _. f_equal. lia.
Qed.

(** A loop over [nb] elements unrolled four times, and its remainder. *)
Lemma for_unrolled4 {E S} (f : Z -> S -> outcome E S) nb s :
  0 <= nb ->
  (let* s := for_step 0 (nb - 4 + 1) 4 (fun n s => for_range 0 4 (fun u s => f (n + u) s) s) s in
   for_range (if 0 <? nb - 4 + 1 then (nb - 4 + 1 + 4 - 1) / 4 * 4 else 0) nb f s) = for_range 0 nb f s.
Proof.
  intros Hnb. unfold for_step, for_range. replace (nb - 4 + 1 - 0 + 4 - 1) with nb by lia. replace (nb - 4 + 1 + 4 - 1) with nb by lia.
  pose proof (Z.div_mod nb 4 ltac:(lia)). pose proof (Z.mod_pos_bound nb 4 ltac:(lia)).
  replace (if 0 <? nb - 4 + 1 then nb / 4 * 4 else 0) with (nb / 4 * 4).
  2: { destruct (Z.ltb_spec 0 (nb - 4 + 1)); [done|]. assert (nb / 4 = 0) as ->; [|done]. apply Z.div_small. lia. }
  replace (Z.to_nat (nb - 0)) with (Z.to_nat (nb / 4) * 4 + Z.to_nat (nb - nb / 4 * 4))%nat by lia.
  rewrite for_loop_add, <- for_unrolled. change (Z.of_nat 4) with 4. change (Z.to_nat (4 - 0)) with 4%nat.
  replace (0 + Z.of_nat (Z.to_nat (nb / 4) * 4)) with (nb / 4 * 4) by lia. f_equal.
Qed.

(** ** Sorting the symbols by weight *)

(** The number of symbols of weight below [n]. *)
Fixpoint lighter_upto (ws : list Z) (n : nat) : Z :=
  match n with
  | O => 0
  | S m => lighter_upto ws m + count_sym (Z.of_nat m) ws
  end.

Definition lighter (ws : list Z) (w : Z) : Z := lighter_upto ws (Z.to_nat w).

Lemma lighter_succ ws w : 0 <= w -> lighter ws (w + 1) = lighter ws w + count_sym w ws.
Proof. intros Hw. unfold lighter. replace (Z.to_nat (w + 1)) with (S (Z.to_nat w)) by lia. cbn [lighter_upto]. by rewrite Z2Nat.id by lia. Qed.

Lemma lighter_cons x ws n : 0 <= x -> lighter_upto (x :: ws) n = lighter_upto ws n + (if x <? Z.of_nat n then 1 else 0).
Proof.
  intros Hx. induction n as [|n IH]; [cbn [lighter_upto]; zcases; lia|]. cbn [lighter_upto]. rewrite IH, count_sym_cons.
  destruct (decide (x = Z.of_nat n)); zcases; lia.
Qed.

Lemma lighter_le ws w : Forall (fun x => 0 <= x) ws -> lighter ws w <= zlen ws.
Proof.
  intros Hf. unfold lighter. generalize (Z.to_nat w). intros n. induction Hf as [|x ws Hx Hf IH].
  - induction n as [|n IHn]; [done|]. cbn [lighter_upto]. change (count_sym (Z.of_nat n) []) with 0. lia.
  - rewrite lighter_cons, zlen_cons by done. zcases; lia.
Qed.

Lemma lighter_mono ws v w : 0 <= v <= w -> 0 <= lighter ws v <= lighter ws w.
Proof.
  intros Hv. unfold lighter. assert (forall n, 0 <= lighter_upto ws n) as H0.
  { induction n as [|n IH]; [done|]. cbn [lighter_upto]. pose proof (count_sym_nonneg (Z.of_nat n) ws). lia. }
  split; [apply H0|]. assert (Z.to_nat v <= Z.to_nat w)%nat as Hle by lia. induction Hle as [|m Hle IH]; [lia|]. cbn [lighter_upto].
  pose proof (count_sym_nonneg (Z.of_nat m) ws). lia.
Qed.

Section Sort.
Context `{P : Platform} (ws : list Z) (k : Z) (Hok : code_ok ws k).
Context (hw rankVal : list Z) (Hhw : ws `prefix_of` hw).
Context (Hrank : forall w, 0 <= w <= k -> rankVal !! Z.to_nat w = Some (count_sym w ws)).

Lemma k12 : 1 <= k <= 12.
Proof. destruct Hok as (Hk & _). unfold HUF_TABLELOG_MAX in Hk. lia. Qed.

Lemma hw_lookup n : 0 <= n < zlen ws -> exists w, ws !! Z.to_nat n = Some w /\ aget hw n = (Ok w : res Z) /\ 0 <= w <= k.
Proof.
  intros Hn. destruct (lookup_lt_is_Some_2 ws (Z.to_nat n)) as [w Hw]; [unfold zlen in Hn; lia|]. exists w. split; [done|].
  split; [|by eapply weight_range]. apply aget_Ok. split; [lia|]. destruct Hhw as [r ->]. by apply lookup_app_l_Some.
Qed.

Lemma lighter_256 w : lighter ws w <= 256.
Proof. destruct Hok as (_ & Hz & Hf & _). assert (Forall (fun x => 0 <= x) ws) as Hf0 by (eapply Forall_impl; [exact Hf|simpl; lia]). pose proof (lighter_le ws w Hf0). lia. Qed.

Lemma rank_starts start0 :
  zlen start0 = 13 ->
  exists rankStart x,
    for_range 0 (k + 1) (start_rank rankVal) (start0, 0) = Ok (rankStart, x) /\
    zlen rankStart = 13 /\ forall w, 0 <= w <= k -> rankStart !! Z.to_nat w = Some (lighter ws w).
Proof.
  intros Hz. pose proof k12.
  assert (wp (for_range 0 (k + 1) (start_rank rankVal) (start0, 0)) (fun st => st.2 = lighter ws (k + 1) /\ zlen st.1 = 13 /\
    forall w, 0 <= w < k + 1 -> st.1 !! Z.to_nat w = Some (lighter ws w)) (fun _ : ZSTD_ErrorCode => False)) as Hw.
  { apply (wp_for_range (fun n st => st.2 = lighter ws n /\ zlen st.1 = 13 /\ forall w, 0 <= w < n -> st.1 !! Z.to_nat w = Some (lighter ws w))).
    - lia.
    - split; [done|]. split; [done|]. lia.
    - intros n [start next] Hn (Hnx & Hzs & Hl). cbn [fst snd] in *. subst next. unfold start_rank.
      assert (aget rankVal n = (Ok (count_sym n ws) : res Z)) as -> by (apply aget_Ok; split; [lia|apply Hrank; lia]). cbn [obind].
      rewrite aset_Ok by lia. cbn [obind wp fst snd]. pose proof (lighter_256 (n + 1)). pose proof (lighter_mono ws n (n + 1) ltac:(lia)).
      rewrite lighter_succ in * by lia. rewrite wrap_small by lia. split; [done|]. rewrite zlen_insert. split; [done|].
      intros w Hw. destruct (decide (w = n)) as [->|]; [rewrite list_lookup_insert_eq by (unfold zlen in Hzs; lia); done|].
      rewrite list_lookup_insert_ne by lia. apply Hl. lia. }
  apply wp_exists in Hw as ([rs x] & -> & _ & Hzs & Hl). exists rs, x. split; [done|]. split; [done|]. intros w Hw. apply Hl. lia.
Qed.

(** After the first [n] symbols. *)
Definition placed (n : Z) (st : list Z * list Z) : Prop :=
  let '(symbols, rankStart) := st in
  zlen symbols = 256 /\ zlen rankStart = 13 /\ forall w, 0 <= w <= k ->
    rankStart !! Z.to_nat w = Some (lighter ws w + count_sym w (take (Z.to_nat n) ws)) /\
    slice symbols (lighter ws w) (count_sym w (take (Z.to_nat n) ws)) = of_weight w (take (Z.to_nat n) ws).

Lemma count_take_le w n : count_sym w (take n ws) <= count_sym w ws.
Proof. rewrite <- (take_drop n ws) at 2. rewrite count_sym_app. pose proof (count_sym_nonneg w (drop n ws)). lia. Qed.

Lemma slice_insert_out (l : list Z) i n p (x : Z) : 0 <= i -> 0 <= n -> (p < Z.to_nat i \/ Z.to_nat i + Z.to_nat n <= p)%nat -> slice (<[p := x]> l) i n = slice l i n.
Proof.
  intros Hi Hn Hp. unfold slice. destruct Hp as [Hp|Hp]; [by rewrite drop_insert_lt by lia|].
  rewrite drop_insert_ge by lia. rewrite take_insert_ge by lia. done.
Qed.

Lemma place_step n st : 0 <= n < zlen ws -> placed n st -> wp (place_symbol hw n st) (placed (n + 1)) (fun _ => False).
Proof.
  destruct st as [symbols rankStart]. intros Hn (Hzs & Hzr & Hp). pose proof k12. destruct (hw_lookup n Hn) as (w & Hws & Hget & Hwr).
  unfold place_symbol. rewrite Hget. cbn [obind]. destruct (Hp w Hwr) as [Hr Hs]. set (c := count_sym w (take (Z.to_nat n) ws)) in *.
  assert (aget rankStart w = (Ok (lighter ws w + c) : res Z)) as -> by (apply aget_Ok; split; [lia|done]). cbn [obind].
  pose proof (count_before ws (Z.to_nat n) w Hws) as Hcb. fold c in Hcb. pose proof (lighter_256 (w + 1)) as Hl256. rewrite lighter_succ in Hl256 by lia.
  pose proof (lighter_mono ws w w ltac:(lia)) as Hl0. pose proof (count_sym_nonneg w (take (Z.to_nat n) ws)) as Hc0. fold c in Hc0.
  destruct Hok as (_ & Hzw & _). rewrite aset_Ok by lia. cbn [obind]. rewrite aset_Ok by lia. cbn [obind wp]. unfold placed. rewrite !zlen_insert. split; [done|]. split; [done|].
  intros v Hv. assert (take (Z.to_nat (n + 1)) ws = take (Z.to_nat n) ws ++ [w]) as ->
    by (replace (Z.to_nat (n + 1)) with (S (Z.to_nat n)) by lia; by apply take_S_r).
  rewrite count_sym_app, of_weight_snoc, count_sym_cons. change (count_sym v []) with 0. rewrite (wrap_small 8), (wrap_small 32) by lia.
  assert (zlen (take (Z.to_nat n) ws) = n) as -> by (unfold zlen in *; rewrite length_take; lia).
  destruct (decide (w = v)) as [->|Hne].
  - rewrite Z.eqb_refl. fold c. rewrite list_lookup_insert_eq by (unfold zlen in Hzr; lia). split; [f_equal; lia|].
    replace (c + (1 + 0)) with (c + 1) by lia. rewrite (slice_snoc _ _ _ n) by (lia || (rewrite lookup_insert_Z by lia; done)).
    rewrite slice_insert_out by lia. by rewrite Hs.
  - rewrite (proj2 (Z.eqb_neq w v)) by done. rewrite list_lookup_insert_ne by lia. destruct (Hp v Hv) as [Hrv Hsv].
    rewrite app_nil_r. replace (count_sym v (take (Z.to_nat n) ws) + (0 + 0)) with (count_sym v (take (Z.to_nat n) ws)) by lia. split; [done|].
    pose proof (count_take_le v (Z.to_nat n)). pose proof (count_sym_nonneg v (take (Z.to_nat n) ws)). pose proof (lighter_mono ws v v ltac:(lia)).
    rewrite slice_insert_out; [done|lia|lia|]. destruct (Z.lt_ge_cases v w).
    + right. pose proof (lighter_mono ws (v + 1) w ltac:(lia)). rewrite lighter_succ in * by lia. lia.
    + left. pose proof (lighter_mono ws (w + 1) v ltac:(lia)). rewrite lighter_succ in * by lia. lia.
Qed.

Lemma place_all symbols rankStart :
  zlen symbols = 256 -> zlen rankStart = 13 -> (forall w, 0 <= w <= k -> rankStart !! Z.to_nat w = Some (lighter ws w)) ->
  exists symbols' rankStart', for_range 0 (zlen ws) (place_symbol hw) (symbols, rankStart) = Ok (symbols', rankStart') /\
    zlen symbols' = 256 /\ forall w, 0 <= w <= k -> slice symbols' (lighter ws w) (count_sym w ws) = of_weight w ws.
Proof.
  intros Hzs Hzr Hr. pose proof (zlen_nonneg ws).
  assert (wp (for_range 0 (zlen ws) (place_symbol hw) (symbols, rankStart)) (placed (zlen ws)) (fun _ => False)) as Hw.
  { apply (wp_for_range placed); [lia| |intros; by apply place_step]. split; [done|]. split; [done|]. intros w Hw'. change (Z.to_nat 0) with 0%nat. rewrite take_0.
    change (count_sym w []) with 0. split; [rewrite Hr by done; f_equal; lia|done]. }
  apply wp_exists in Hw as ([s' r'] & -> & Hzs' & _ & Hp). exists s', r'. split; [done|]. split; [done|]. intros w Hw.
  destruct (Hp w Hw) as [_ Hs]. rewrite take_ge in Hs by (unfold zlen; lia). done.
Qed.

(** Filling the cells of one weight, and of all. *)
Lemma fill_weight_spec symbols dt w :
  (forall w, 0 <= w <= k -> slice symbols (lighter ws w) (count_sym w ws) = of_weight w ws) -> zlen symbols = 256 ->
  1 <= w <= k -> rows ws k (w - 1) `prefix_of` dt -> 2 * 2 ^ k <= zlen dt ->
  exists dt', fill_weight symbols rankVal k w (dt, lighter ws w, cells ws (w - 1)) = Ok (dt', lighter ws (w + 1), cells ws w) /\
    rows ws k w `prefix_of` dt' /\ zlen dt' = zlen dt.
Proof.
  intros Hsym Hzs Hw Hpre Hroom. pose proof k12. unfold fill_weight.
  assert (aget rankVal w = (Ok (count_sym w ws) : res Z)) as -> by (apply aget_Ok; split; [lia|apply Hrank; lia]). cbn [obind].
  rewrite weight_val, (proj2 (Z.eqb_neq w 0)), (wrap_small 8) by lia. set (c := count_sym w ws).
  pose proof (count_sym_nonneg w ws) as Hc0. fold c in Hc0. pose proof (pow2_pos (w - 1) ltac:(lia)).
  pose proof (cells_step ws w ltac:(lia)) as Hcs. pose proof (cells_mono ws w k ltac:(lia)) as Hcm. rewrite (cells_total ws k Hok) in Hcm.
  pose proof (cells_mono ws (w - 1) w ltac:(lia)). pose proof (lighter_256 (w + 1)) as Hl. rewrite lighter_succ in Hl by lia. fold c in Hl, Hcs.
  pose proof (lighter_mono ws w w ltac:(lia)). set (l := of_weight w ws).
  assert (zlen l = c) as Hzl by apply zlen_of_weight.
  set (body := fun s '(dt, uStart) => _).
  assert (wp (for_range 0 c body (dt, cells ws (w - 1))) (fun st => ((rows ws k (w - 1) ++ blocks k w (take (Z.to_nat c) l)) `prefix_of` st.1 /\
     zlen st.1 = zlen dt) /\ st.2 = cells ws (w - 1) + c * 2 ^ (w - 1)) (fun _ : ZSTD_ErrorCode => False)) as Hwp.
  { apply (wp_for_range (fun s st => ((rows ws k (w - 1) ++ blocks k w (take (Z.to_nat s) l)) `prefix_of` st.1 /\ zlen st.1 = zlen dt) /\
      st.2 = cells ws (w - 1) + s * 2 ^ (w - 1))); [lia| |].
    - cbn [fst snd]. rewrite app_nil_r. split; [done|lia].
    - intros s [dt1 u] Hs [[Hp Hz] Hu]. cbn [fst snd] in *. subst body u. cbn beta iota.
      destruct (lookup_lt_is_Some_2 l (Z.to_nat s)) as [b Hb]; [unfold zlen in Hzl; lia|].
      assert (aget symbols (lighter ws w + s) = (Ok b : res Z)) as ->.
      { apply aget_Ok. split; [lia|]. rewrite <- Hb. unfold l. rewrite <- (Hsym w) by lia. rewrite lookup_slice by lia. f_equal. lia. }
      cbn [obind]. assert (zlen (take (Z.to_nat s) l) = s) as Hts by (unfold zlen in *; rewrite length_take; lia).
      assert (0 <= b < 256) as Hb256.
      { pose proof (Forall_lookup_1 _ _ _ _ (idx_of_range w ws 0) Hb) as Hr. destruct Hok as (_ & Hz256 & _). simpl in Hr. lia. }
      destruct (fill_symbol_spec _ dt1 (cells ws (w - 1) + s * 2 ^ (w - 1)) w b (k + 1 - w) Hp) as (dt2 & -> & Hp2 & Hz2).
      + rewrite zlen_app, zlen_rows, zlen_blocks, Hts by lia. lia.
      + lia.
      + done.
      + lia.
      + rewrite zlen_app, zlen_rows, zlen_blocks, Hts by lia. nia.
      + cbn [obind wp fst snd]. split; [|lia]. split; [|lia]. replace (Z.to_nat (s + 1)) with (S (Z.to_nat s)) by lia.
        rewrite (take_S_r _ _ _ Hb), blocks_app, blocks_one, app_assoc. done. }
  apply wp_exists in Hwp as ([dt' u] & -> & [Hp Hz] & _). cbn [obind fst] in *. exists dt'.
  rewrite take_ge in Hp by (unfold zlen in Hzl; lia). rewrite lighter_succ by lia. fold c. rewrite Hcs. split; [done|]. split; [|done].
  rewrite (rows_step ws k w) by lia. done.
Qed.

Lemma fill_all symbols dt r0 :
  (forall w, 0 <= w <= k -> slice symbols (lighter ws w) (count_sym w ws) = of_weight w ws) -> zlen symbols = 256 ->
  2 * 2 ^ k <= zlen dt -> r0 = count_sym 0 ws ->
  exists dt' a b, for_range 1 (k + 1) (fill_weight symbols rankVal k) (dt, r0, 0) = Ok (dt', a, b) /\
    rows ws k k `prefix_of` dt' /\ zlen dt' = zlen dt.
Proof.
  intros Hsym Hzs Hroom ->. pose proof k12.
  assert (wp (for_range 1 (k + 1) (fill_weight symbols rankVal k) (dt, count_sym 0 ws, 0)) (fun st =>
    st.1.2 = lighter ws (k + 1) /\ st.2 = cells ws (k + 1 - 1) /\ rows ws k (k + 1 - 1) `prefix_of` st.1.1 /\ zlen st.1.1 = zlen dt) (fun _ => False)) as Hw.
  { apply (wp_for_range (fun w st => st.1.2 = lighter ws w /\ st.2 = cells ws (w - 1) /\ rows ws k (w - 1) `prefix_of` st.1.1 /\ zlen st.1.1 = zlen dt)); [lia| |].
    - cbn [fst snd]. split; [exact (eq_sym (lighter_succ ws 0 ltac:(lia)))|]. split; [done|]. split; [apply prefix_nil|done].
    - intros w [[dt1 a] b] Hw (Ea & Eb & Hp & Hz). cbn [fst snd] in *. subst a b.
      destruct (fill_weight_spec symbols dt1 w Hsym Hzs ltac:(lia) Hp ltac:(lia)) as (dt2 & -> & Hp2 & Hz2). cbn [wp fst snd].
      replace (w + 1 - 1) with w by lia. split_and!; try done. lia. }
  apply wp_exists in Hw as ([[dt' a] b] & -> & _ & _ & Hp & Hz). replace (k + 1 - 1) with k in Hp by lia. by exists dt', a, b.
Qed.
End Sort.

(** ** Rescaling *)

Definition rescaled (scale : Z) (ws : list Z) : list Z := map (fun w => if w =? 0 then 0 else w + scale) ws.

Lemma zlen_rescaled scale ws : zlen (rescaled scale ws) = zlen ws.
Proof. unfold rescaled, zlen. by rewrite length_map. Qed.

Section Rescale.
Context (scale : Z) (Hscale : 0 <= scale).

Lemma count_rescaled ws w :
  Forall (fun x => 0 <= x) ws -> count_sym w (rescaled scale ws) = (if w =? 0 then count_sym 0 ws else if w <=? scale then (if w <? 0 then count_sym w (rescaled scale ws) else 0) else count_sym (w - scale) ws).
Proof.
  induction 1 as [|x ws Hx Hf IH]; [by zcases|]. cbn [rescaled map]. fold (rescaled scale ws). rewrite !count_sym_cons, IH. clear IH.
  destruct (Z.eqb_spec w 0) as [->|]; [|destruct (Z.leb_spec w scale)].
  - destruct (Z.eqb_spec x 0) as [->|]; [done|]. repeat case_decide; lia.
  - destruct (Z.ltb_spec w 0); [done|]. destruct (Z.eqb_spec x 0); repeat case_decide; lia.
  - destruct (Z.eqb_spec x 0); repeat case_decide; lia.
Qed.

Lemma cells_rescaled_low ws n : Forall (fun x => 0 <= x) ws -> Z.of_nat n <= scale -> cells (rescaled scale ws) (Z.of_nat n) = 0.
Proof.
  intros Hf. induction n as [|n IH]; intros Hle; [done|]. replace (Z.of_nat (S n)) with (Z.of_nat n + 1) by lia.
  rewrite cells_succ, IH, count_rescaled by (done || lia). by zdecide.
Qed.

Lemma cells_rescaled ws j : Forall (fun x => 0 <= x) ws -> 0 <= j -> cells (rescaled scale ws) (j + scale) = cells ws j * 2 ^ scale.
Proof.
  intros Hf Hj. replace j with (Z.of_nat (Z.to_nat j)) by lia. generalize (Z.to_nat j). clear j Hj. induction n as [|n IH].
  - change (Z.of_nat 0) with 0. rewrite Z.add_0_l. rewrite <- (Z2Nat.id scale) at 2 by lia. by rewrite cells_rescaled_low by (done || lia).
  - replace (Z.of_nat (S n) + scale) with (Z.of_nat n + scale + 1) by lia. replace (Z.of_nat (S n)) with (Z.of_nat n + 1) by lia.
    rewrite !cells_succ, IH, count_rescaled by (done || lia). zdecide. replace (Z.of_nat n + scale + 1 - scale) with (Z.of_nat n + 1) by lia.
    rewrite Z.pow_add_r by lia. lia.
Qed.

Lemma rescaled_ok ws k : code_ok ws k -> k + scale <= HUF_TABLELOG_MAX -> code_ok (rescaled scale ws) (k + scale).
Proof.
  intros Hok Hk'. pose proof Hok as (Hk & Hz & Hf & Hs). assert (Forall (fun x => 0 <= x) ws) as Hf0 by (eapply Forall_impl; [exact Hf|simpl; lia]).
  assert (Forall (fun w => 0 <= w <= k + scale) (rescaled scale ws)) as Hf'.
  { apply Forall_map. eapply Forall_impl; [exact Hf|]. intros w Hw. simpl in *. destruct (w =? 0); lia. }
  unfold code_ok. rewrite zlen_rescaled. split; [lia|]. split; [done|]. split; [done|].
  rewrite <- (cells_weight_sum _ (k + scale)) by (done || lia). rewrite cells_rescaled, cells_weight_sum, Hs by (done || lia). by rewrite Z.pow_add_r by lia.
Qed.

Lemma code_rescaled ws k s w :
  code_ok ws k -> ws !! s = Some w -> w <> 0 -> code_of (rescaled scale ws) s (w + scale) = code_of ws s w.
Proof.
  intros Hok Hs Hw. pose proof (weight_range ws k Hok s w Hs). pose proof Hok as (_ & _ & Hf & _).
  assert (Forall (fun x => 0 <= x) ws) as Hf0 by (eapply Forall_impl; [exact Hf|simpl; lia]). unfold code_of. f_equal.
  - replace (w + scale - 1) with (w - 1 + scale) by lia. rewrite cells_rescaled by (done || lia). rewrite Z.pow_add_r by lia.
    apply Z.div_mul_cancel_r; apply Z.pow_nonzero; lia.
  - assert (take s (rescaled scale ws) = rescaled scale (take s ws)) as -> by apply firstn_map. rewrite count_rescaled by (by apply Forall_take). zdecide.
    f_equal. lia.
Qed.
End Rescale.

Section RescaleStats.
Context `{P : Platform} (ws : list Z) (k : Z) (Hok : code_ok ws k).
Context (hw rankVal : list Z) (Hhw : ws `prefix_of` hw).
Context (Hrank : forall w, 0 <= w <= HUF_TABLELOG_MAX -> rankVal !! Z.to_nat w = Some (count_sym w ws)).

Lemma rescale_weights scale :
  0 <= scale -> k + scale <= 12 ->
  exists hw', for_range 0 (zlen ws) (fun s hw =>
      let* w := aget hw s in aset hw s (u8 (w + (if w =? 0 then 0 else scale)))) hw = (Ok hw' : res (list Z)) /\
    rescaled scale ws `prefix_of` hw'.
Proof.
  intros Hs Hk. pose proof (zlen_nonneg ws). destruct Hhw as [r ->].
  assert (wp (for_range 0 (zlen ws) (fun s hw => let* w := aget hw s in aset hw s (u8 (w + (if w =? 0 then 0 else scale)))) (ws ++ r))
    (fun h => h = rescaled scale (take (Z.to_nat (zlen ws)) ws) ++ drop (Z.to_nat (zlen ws)) ws ++ r) (fun _ : ZSTD_ErrorCode => False)) as Hw.
  { apply (wp_for_range (fun n h => h = rescaled scale (take (Z.to_nat n) ws) ++ drop (Z.to_nat n) ws ++ r)); [lia|by rewrite drop_0|].
    intros n h Hn ->. destruct (lookup_lt_is_Some_2 ws (Z.to_nat n)) as [w Hw]; [unfold zlen in Hn; lia|].
    pose proof (weight_range ws k Hok _ _ Hw) as Hwr. destruct Hok as (Hk' & _). unfold HUF_TABLELOG_MAX in Hk'.
    assert (zlen (rescaled scale (take (Z.to_nat n) ws)) = n) as Hz by (rewrite zlen_rescaled; unfold zlen in *; rewrite length_take; lia).
    rewrite (drop_S ws w) by done. set (A := rescaled scale (take (Z.to_nat n) ws)) in *. set (C := drop (S (Z.to_nat n)) ws).
    assert (aget (A ++ (w :: C) ++ r) n = (Ok w : res Z)) as ->.
    { apply aget_Ok. split; [lia|]. cbn [app]. apply list_lookup_middle. unfold zlen in Hz. lia. }
    cbn [obind]. cbn [app]. rewrite aset_Ok by (rewrite zlen_app, zlen_cons; pose proof (zlen_nonneg (C ++ r)); lia). cbn [wp].
    rewrite insert_app_r_alt by (unfold zlen in Hz; lia). replace (Z.to_nat n - length A)%nat with 0%nat by (unfold zlen in Hz; lia). cbn [insert list_insert].
    replace (Z.to_nat (n + 1)) with (S (Z.to_nat n)) by lia. rewrite (take_S_r _ _ _ Hw). unfold rescaled. rewrite map_app. fold (rescaled scale (take (Z.to_nat n) ws)). fold A C.
    rewrite <- app_assoc. cbn [map app]. do 2 f_equal. destruct (w =? 0) eqn:E0; [|by rewrite wrap_small by lia]. apply Z.eqb_eq in E0. subst w. done. }
  apply wp_exists in Hw as (h & -> & ->). eexists. split; [reflexivity|]. rewrite take_ge by (unfold zlen; lia). by apply prefix_app_r.
Qed.

Lemma rank_len : 13 <= zlen rankVal.
Proof. pose proof (Hrank 12 ltac:(unfold HUF_TABLELOG_MAX; lia)) as H. apply lookup_lt_Some in H. unfold zlen. lia. Qed.

Lemma rescale_ranks scale :
  0 <= scale -> k + scale <= 12 ->
  exists rv, (let* rankVal := for_range 0 (k + scale - scale) (fun i rankVal =>
          let s := k + scale - i in
          let* x := aget rankVal (s - scale) in
          aset rankVal s x) rankVal in
        for_range 0 scale (fun i rankVal => aset rankVal (scale - i) 0) rankVal) = (Ok rv : res (list Z)) /\
    forall w, 0 <= w <= k + scale -> rv !! Z.to_nat w = Some (count_sym w (rescaled scale ws)).
Proof.
  intros Hs Hk. pose proof rank_len as Hz. pose proof Hok as (Hk1 & _ & Hf & _).
  assert (Forall (fun x => 0 <= x) ws) as Hf0 by (eapply Forall_impl; [exact Hf|simpl; lia]). replace (k + scale - scale) with k by lia.
  assert (wp (for_range 0 k (fun i rankVal => let s := k + scale - i in let* x := aget rankVal (s - scale) in aset rankVal s x) rankVal)
    (fun rv => zlen rv = zlen rankVal /\ forall w, 0 <= w <= 12 -> rv !! Z.to_nat w =
       Some (if (k + scale - k <? w) && (w <=? k + scale) then count_sym (w - scale) ws else count_sym w ws)) (fun _ : ZSTD_ErrorCode => False)) as Hw.
  { apply (wp_for_range (fun i rv => zlen rv = zlen rankVal /\ forall w, 0 <= w <= 12 -> rv !! Z.to_nat w =
       Some (if (k + scale - i <? w) && (w <=? k + scale) then count_sym (w - scale) ws else count_sym w ws))); [lia| |].
    - split; [done|]. intros w Hw. rewrite Hrank by (unfold HUF_TABLELOG_MAX; lia). f_equal. zcases; cbn [andb]; (done || lia).
    - intros i rv Hi [Hzr Hl]. cbv zeta. assert (aget rv (k + scale - i - scale) = (Ok (count_sym (k - i) ws) : res Z)) as ->.
      { apply aget_Ok. split; [lia|]. rewrite Hl by lia. zdecide. cbn [andb]. do 2 f_equal. lia. }
      cbn [obind]. rewrite aset_Ok by lia. cbn [wp]. rewrite zlen_insert. split; [done|]. intros w Hw. destruct (decide (w = k + scale - i)) as [->|].
      + rewrite list_lookup_insert_eq by (unfold zlen in *; lia). zdecide. cbn [andb]. do 2 f_equal. lia.
      + rewrite list_lookup_insert_ne by lia. rewrite Hl by lia. f_equal. zcases; cbn [andb]; (done || lia). }
  apply wp_exists in Hw as (rv & -> & Hzr & Hl). cbn [obind].
  assert (wp (for_range 0 scale (fun i rankVal => aset rankVal (scale - i) 0) rv) (fun r => zlen r = zlen rv /\ forall w, 0 <= w <= 12 ->
    r !! Z.to_nat w = (if (scale - scale <? w) && (w <=? scale) then Some 0 else rv !! Z.to_nat w)) (fun _ : ZSTD_ErrorCode => False)) as Hw.
  { apply (wp_for_range (fun i r => zlen r = zlen rv /\ forall w, 0 <= w <= 12 ->
      r !! Z.to_nat w = (if (scale - i <? w) && (w <=? scale) then Some 0 else rv !! Z.to_nat w))); [lia| |].
    - split; [done|]. intros w Hw. zcases; cbn [andb]; (done || lia).
    - intros i r Hi [Hzr' Hl']. rewrite aset_Ok by lia. cbn [wp]. rewrite zlen_insert. split; [done|]. intros w Hw. destruct (decide (w = scale - i)) as [->|].
      + rewrite list_lookup_insert_eq by (unfold zlen in *; lia). zdecide. done.
      + rewrite list_lookup_insert_ne by lia. rewrite Hl' by lia. zcases; cbn [andb]; (done || lia). }
  apply wp_exists in Hw as (r & -> & Hzr' & Hl'). exists r. split; [done|]. intros w Hw. rewrite Hl', Hl, count_rescaled by (done || lia).
  destruct (Z.eqb_spec w 0) as [->|]; [zcases; cbn [andb]; (done || lia)|]. zcases; cbn [andb]; (done || lia).
Qed.

Lemma rescaled_0 l : rescaled 0 l = l.
Proof. unfold rescaled. rewrite <- (map_id l) at 2. apply map_ext. intros w. destruct (Z.eqb_spec w 0); lia. Qed.

(** The weights and ranks the decoding table is built from. *)
Lemma rescaleStats_spec target :
  target <= 12 ->
  let k' := Z.max k target in
  exists hw' rv, HUF_rescaleStats hw rankVal (zlen ws) k target = Ok (hw', rv, k') /\
    rescaled (k' - k) ws `prefix_of` hw' /\ (forall w, 0 <= w <= k' -> rv !! Z.to_nat w = Some (count_sym w (rescaled (k' - k) ws))).
Proof.
  intros Ht k'. destruct Hok as (Hk & _). unfold HUF_rescaleStats. destruct (Z.ltb_spec target k).
  { replace k' with k by lia. exists hw, rankVal. rewrite Z.sub_diag, rescaled_0. split; [done|]. split; [done|]. intros. apply Hrank. lia. }
  replace k' with target by lia. destruct (Z.ltb_spec k target).
  - destruct (rescale_weights (target - k)) as (hw' & -> & Hp); [lia..|]. cbn [obind].
    destruct (rescale_ranks (target - k)) as (rv & Hrv & Hl); [lia..|]. replace (k + (target - k)) with target in * by lia.
    destruct (for_range 0 (target - (target - k)) _ rankVal) as [r1| |] eqn:E1 in Hrv |- *; try done.
    cbn [obind] in Hrv |- *. rewrite Hrv. cbn [obind]. by exists hw', rv.
  - assert (target = k) as -> by lia. exists hw, rankVal. rewrite Z.sub_diag, rescaled_0. split; [done|]. split; [done|]. intros. apply Hrank. lia.
Qed.
End RescaleStats.

(** ** The encoding table *)

Section Assign.
Context `{P : Platform} (ws : list Z) (k : Z) (Hok : code_ok ws k).

(** A code of [nb] bits as a [HUF_CElt]. *)
Definition celt (v nb : Z) : Z := v * 2 ^ (regBits - nb) + nb.

Lemma getNbBits_small nb : 0 <= nb < 256 -> HUF_getNbBits nb = nb.
Proof. intros Hnb. unfold HUF_getNbBits. change 255 with (2 ^ 8 - 1). rewrite land_ones_wrap by lia. by apply wrap_small. Qed.

Lemma setValue_celt nb v : 1 <= nb <= 12 -> 0 <= v < 2 ^ nb -> HUF_setValue nb v = Ok (celt v nb).
Proof.
  intros Hnb Hv. unfold HUF_setValue. rewrite getNbBits_small by lia. rewrite (proj2 (Z.ltb_lt 0 nb)) by lia.
  rewrite Z.shiftr_div_pow2, Z.div_small by lia. cbn [Z.eqb oassert obind]. f_equal. unfold size_t. rewrite regBits_bytes. fold regBits.
  assert (20 <= regBits - nb) by (destruct regBits_cases as [E|E]; rewrite E; lia). rewrite Z.shiftl_mul_pow2 by lia.
  assert (0 < 2 ^ (regBits - nb)) by (apply pow2_pos; lia).
  assert (v * 2 ^ (regBits - nb) < 2 ^ regBits).
  { replace regBits with (nb + (regBits - nb)) at 2 by lia. rewrite Z.pow_add_r by lia. nia. }
  rewrite wrap_small by nia. rewrite <- Z.shiftl_mul_pow2 by lia. rewrite lor_shiftl_add; [unfold celt; lia|lia|].
  split; [lia|]. eapply Z.lt_le_trans; [|apply (Z.pow_le_mono_r 2 20); lia]. lia.
Qed.

Definition nb_of (w : Z) : Z := if w =? 0 then 0 else k + 1 - w.

Lemma nb_of_range w : 0 <= w <= k -> 0 <= nb_of w <= 12 /\ bits_of_weight k w = nb_of w.
Proof.
  intros Hw. destruct Hok as (Hk & _). unfold HUF_TABLELOG_MAX in Hk. unfold nb_of, bits_of_weight. destruct (Z.eqb_spec w 0); [lia|].
  rewrite wrap_small by lia. lia.
Qed.

Definition nbs : list Z := map nb_of ws.

(** The code lengths, then the number of codes of each length. *)
Lemma fill_lengths hw ct :
  ws `prefix_of` hw -> zlen ws <= zlen ct ->
  exists ct', for_range 0 (zlen ws) (fun n ct =>
      let* w := aget hw n in
      let* elt := HUF_setNbBits (bits_of_weight k w) in
      aset ct n elt) ct = Ok ct' /\ nbs `prefix_of` ct' /\ zlen ct' = zlen ct.
Proof.
  intros Hhw Hroom. pose proof (zlen_nonneg ws).
  assert (wp (for_range 0 (zlen ws) (fun n ct => let* w := aget hw n in let* elt := HUF_setNbBits (bits_of_weight k w) in aset ct n elt) ct)
    (fun c => map nb_of (take (Z.to_nat (zlen ws)) ws) `prefix_of` c /\ zlen c = zlen ct) (fun _ => False)) as Hw.
  { apply (wp_for_range (fun n c => map nb_of (take (Z.to_nat n) ws) `prefix_of` c /\ zlen c = zlen ct)); [lia|split; [apply prefix_nil|done]|].
    intros n c Hn [Hp Hz]. destruct (hw_lookup ws k Hok hw Hhw n Hn) as (w & Hws & -> & Hwr). cbn [obind].
    destruct (nb_of_range w Hwr) as [Hr ->]. unfold HUF_setNbBits, HUF_TABLELOG_ABSOLUTEMAX. rewrite (proj2 (Z.leb_le _ 12)) by lia. cbn [oassert obind].
    rewrite aset_Ok by lia. cbn [wp]. rewrite zlen_insert. split; [|done].
    replace (Z.to_nat (n + 1)) with (S (Z.to_nat n)) by lia. rewrite (take_S_r _ _ _ Hws), map_app. cbn [map].
    rewrite <- splice_one by lia. assert (n = zlen (map nb_of (take (Z.to_nat n) ws))) as E by (unfold zlen in *; rewrite length_map, length_take; lia).
    set (A := map nb_of (take (Z.to_nat n) ws)) in *. rewrite E. apply prefix_splice; [done|]. rewrite <- E. change (zlen [nb_of w]) with 1. lia. }
  apply wp_exists in Hw as (c & -> & Hp & Hz). exists c. split; [done|]. rewrite take_ge in Hp by (unfold zlen; lia). done.
Qed.

(** Codes of [r] bits belong to weight [k + 1 - r]; 0 bits to weight 0. *)
Definition weight_of (r : Z) : Z := if r =? 0 then 0 else k + 1 - r.

Lemma nb_weight w r : 0 <= w <= k -> 0 <= r <= k -> (nb_of w = r <-> w = weight_of r).
Proof. intros Hw Hr. unfold nb_of, weight_of. destruct (Z.eqb_spec w 0), (Z.eqb_spec r 0); lia. Qed.

Lemma nbs_lookup ct n : nbs `prefix_of` ct -> 0 <= n < zlen ws ->
  exists w, ws !! Z.to_nat n = Some w /\ aget ct n = (Ok (nb_of w) : res Z) /\ 0 <= w <= k.
Proof.
  intros [r ->] Hn. destruct (lookup_lt_is_Some_2 ws (Z.to_nat n)) as [w Hw]; [unfold zlen in Hn; lia|]. exists w. split; [done|].
  split; [|by eapply weight_range]. apply aget_Ok. split; [lia|]. apply lookup_app_l_Some. unfold nbs. rewrite list_lookup_fmap, Hw. done.
Qed.

Lemma count_lengths ct nb0 :
  nbs `prefix_of` ct -> zlen nb0 = 14 -> (forall r, 0 <= r <= k -> nb0 !! Z.to_nat r = Some 0) ->
  exists nb', for_range 0 (zlen ws) (count_rank ct) nb0 = Ok nb' /\ zlen nb' = 14 /\
    forall r, 0 <= r <= k -> nb' !! Z.to_nat r = Some (count_sym (weight_of r) ws).
Proof.
  intros Hct Hz0 H0. pose proof (zlen_nonneg ws). pose proof Hok as (Hk & Hzw & _). unfold HUF_TABLELOG_MAX in Hk.
  assert (wp (for_range 0 (zlen ws) (count_rank ct) nb0) (fun nb => zlen nb = 14 /\ forall r, 0 <= r <= k ->
    nb !! Z.to_nat r = Some (count_sym (weight_of r) (take (Z.to_nat (zlen ws)) ws))) (fun _ => False)) as Hw.
  { apply (wp_for_range (fun n nb => zlen nb = 14 /\ forall r, 0 <= r <= k -> nb !! Z.to_nat r = Some (count_sym (weight_of r) (take (Z.to_nat n) ws)))); [lia|by split|].
    intros n nb Hn [Hz Hl]. destruct (nbs_lookup ct n Hct Hn) as (w & Hws & Hget & Hwr). unfold count_rank. rewrite Hget. cbn [obind].
    destruct (nb_of_range w Hwr) as [Hr _]. rewrite getNbBits_small by lia. assert (0 <= nb_of w <= k) as Hrk by (unfold nb_of in *; destruct (Z.eqb_spec w 0); lia).
    assert (aget nb (nb_of w) = (Ok (count_sym (weight_of (nb_of w)) (take (Z.to_nat n) ws)) : res Z)) as -> by (apply aget_Ok; split; [lia|by apply Hl]).
    cbn [obind]. rewrite aset_Ok by lia. cbn [wp]. rewrite zlen_insert. split; [done|]. intros r Hr'.
    replace (Z.to_nat (n + 1)) with (S (Z.to_nat n)) by lia. rewrite (take_S_r _ _ _ Hws), count_sym_app, count_sym_cons. change (count_sym (weight_of r) []) with 0.
    pose proof (count_sym_le (weight_of r) (take (Z.to_nat n) ws)) as Hle. pose proof (count_sym_nonneg (weight_of r) (take (Z.to_nat n) ws)).
    assert (zlen (take (Z.to_nat n) ws) <= 256) by (unfold zlen in *; rewrite length_take; lia).
    pose proof (proj1 (nb_weight w r Hwr Hr')) as N1. pose proof (proj2 (nb_weight w r Hwr Hr')) as N2. destruct (decide (w = weight_of r)) as [E|E].
    - specialize (N2 E). subst r. rewrite list_lookup_insert_eq by (unfold zlen in *; lia). rewrite (wrap_small 16) by lia. f_equal; lia.
    - rewrite list_lookup_insert_ne by (intros E'; apply E, N1; lia). rewrite Hl by done. f_equal. lia. }
  apply wp_exists in Hw as (nb & -> & Hz & Hl). exists nb. split; [done|]. split; [done|]. intros r Hr. rewrite Hl by done.
  by rewrite take_ge by (unfold zlen; lia).
Qed.

(** The first code of each length. *)
Lemma rank_values nbPerRank val0 :
  zlen nbPerRank = 14 -> (forall r, 0 <= r <= k -> nbPerRank !! Z.to_nat r = Some (count_sym (weight_of r) ws)) ->
  zlen val0 = 14 -> val0 !! 0%nat = Some 0 ->
  exists val x, for_range 0 k (rank_value k nbPerRank) (val0, 0) = Ok (val, x) /\ zlen val = 14 /\ val !! 0%nat = Some 0 /\
    forall r, 1 <= r <= k -> val !! Z.to_nat r = Some (cells ws (k - r) / 2 ^ (k - r)).
Proof.
  intros Hzn Hn Hz0 H0. pose proof Hok as (Hk & Hzw & _). unfold HUF_TABLELOG_MAX in Hk.
  assert (wp (for_range 0 k (rank_value k nbPerRank) (val0, 0)) (fun st => st.2 = cells ws k / 2 ^ k /\ zlen st.1 = 14 /\ st.1 !! 0%nat = Some 0 /\
    forall r, k - k < r <= k -> st.1 !! Z.to_nat r = Some (cells ws (k - r) / 2 ^ (k - r))) (fun _ => False)) as Hw.
  { apply (wp_for_range (fun i st => st.2 = cells ws i / 2 ^ i /\ zlen st.1 = 14 /\ st.1 !! 0%nat = Some 0 /\
      forall r, k - i < r <= k -> st.1 !! Z.to_nat r = Some (cells ws (k - r) / 2 ^ (k - r)))); [lia| |].
    - split; [done|]. split; [done|]. split; [done|]. lia.
    - intros i [val m] Hi (Hm & Hz & Hv0 & Hl). cbn [fst snd] in *. subst m. unfold rank_value. rewrite aset_Ok by lia. cbn [obind].
      assert (aget nbPerRank (k - i) = (Ok (count_sym (i + 1) ws) : res Z)) as ->.
      { apply aget_Ok. split; [lia|]. rewrite Hn by lia. unfold weight_of. rewrite (proj2 (Z.eqb_neq (k - i) 0)) by lia. do 2 f_equal. lia. }
      cbn [obind wp fst snd]. rewrite zlen_insert. pose proof (cells_mono ws i k ltac:(lia)) as Hcm. rewrite (cells_total ws k Hok) in Hcm.
      pose proof (pow2_pos i ltac:(lia)). pose proof (Z.div_pos (cells ws i) (2 ^ i) ltac:(lia) ltac:(lia)).
      pose proof (Z.div_le_upper_bound (cells ws i) (2 ^ i) (2 ^ k) ltac:(lia) ltac:(nia)). pose proof (Z.pow_le_mono_r 2 k 12 ltac:(lia) ltac:(lia)).
      pose proof (count_sym_le (i + 1) ws). pose proof (count_sym_nonneg (i + 1) ws). rewrite (wrap_small 16) by lia.
      split; [|split; [done|split]].
      + rewrite Z.shiftr_div_pow2 by lia. rewrite cells_succ by lia. rewrite Z.pow_add_r by lia. rewrite <- Z.div_div by lia. by rewrite Z.div_add by lia.
      + rewrite list_lookup_insert_ne by lia. done.
      + intros r Hr. destruct (decide (r = k - i)) as [->|]; [|rewrite list_lookup_insert_ne by lia; apply Hl; lia].
        rewrite list_lookup_insert_eq by (unfold zlen in *; lia). by replace (k - (k - i)) with i by lia. }
  apply wp_exists in Hw as ([val x] & -> & _ & Hz & Hv0 & Hl). exists val, x. split; [done|]. split; [done|]. split; [done|]. intros r Hr. apply Hl. lia.
Qed.

(** The codes of the first [n] symbols are assigned. *)
Definition assigned (zc : Z) (n : Z) (st : list Z * list Z) : Prop :=
  zlen st.1 = zc /\ zlen st.2 = 14 /\
  (forall i w, ws !! i = Some w -> st.1 !! i = Some (if (Z.of_nat i <? n) && negb (w =? 0) then celt (code_of ws i w) (nb_of w) else nb_of w)) /\
  st.2 !! 0%nat = Some (count_sym 0 (take (Z.to_nat n) ws)) /\
  forall r, 1 <= r <= k -> st.2 !! Z.to_nat r = Some (cells ws (k - r) / 2 ^ (k - r) + count_sym (k + 1 - r) (take (Z.to_nat n) ws)).

Lemma assign_step zc n st : zlen ws <= zc -> 0 <= n < zlen ws -> assigned zc n st -> wp (assign_value n st) (assigned zc (n + 1)) (fun _ => False).
Proof.
  destruct st as [ct val]. intros Hroom Hn (Hzc & Hzv & Hct & Hv0 & Hv). cbn [fst snd] in *. pose proof Hok as (Hk & Hzw & _). unfold HUF_TABLELOG_MAX in Hk.
  destruct (lookup_lt_is_Some_2 ws (Z.to_nat n)) as [w Hws]; [unfold zlen in Hn; lia|]. pose proof (weight_range ws k Hok _ _ Hws) as Hwr.
  destruct (nb_of_range w Hwr) as [Hnb _]. unfold assign_value.
  assert (aget ct n = (Ok (nb_of w) : res Z)) as ->.
  { apply aget_Ok. split; [lia|]. rewrite (Hct _ w Hws). rewrite (proj2 (Z.ltb_ge _ n)) by lia. done. }
  cbn [obind]. rewrite getNbBits_small by lia.
  assert (take (Z.to_nat (n + 1)) ws = take (Z.to_nat n) ws ++ [w]) as Htake by (replace (Z.to_nat (n + 1)) with (S (Z.to_nat n)) by lia; by apply take_S_r).
  assert (forall v, count_sym v (take (Z.to_nat (n + 1)) ws) = count_sym v (take (Z.to_nat n) ws) + (if decide (w = v) then 1 else 0)) as Hcnt.
  { intros v. rewrite Htake, count_sym_app, count_sym_cons. change (count_sym v []) with 0. lia. }
  assert (forall v, 0 <= count_sym v (take (Z.to_nat n) ws) <= 256) as Hc256.
  { intros v. split; [apply count_sym_nonneg|]. etrans; [apply count_sym_le|]. unfold zlen in *. rewrite length_take. lia. }
  destruct (Z.eqb_spec w 0) as [->|Hw0].
  - change (nb_of 0) with 0. assert (aget val 0 = (Ok (count_sym 0 (take (Z.to_nat n) ws)) : res Z)) as -> by (by apply aget_Ok). cbn [obind].
    rewrite aset_Ok by lia. cbn [obind]. change (HUF_setValue 0 (count_sym 0 (take (Z.to_nat n) ws))) with (Ok 0 : res Z). cbn [obind].
    rewrite aset_Ok by lia. cbn [obind wp]. unfold assigned; cbn [fst snd]. rewrite !zlen_insert. specialize (Hc256 0) as Hc0. rewrite (wrap_small 16) by lia.
    split_and!; try done.
    + intros i v Hi. destruct (decide (i = Z.to_nat n)) as [->|].
      * rewrite list_lookup_insert_eq by (unfold zlen in *; lia). rewrite Hws in Hi. injection Hi as <-. by rewrite andb_false_r.
      * rewrite list_lookup_insert_ne by lia. rewrite (Hct i v Hi). replace (Z.of_nat i <? n + 1) with (Z.of_nat i <? n) by (zcases; (done || lia)). done.
    + rewrite list_lookup_insert_eq by (unfold zlen in *; lia). rewrite Hcnt. by destruct (decide (0 = 0)).
    + intros r Hr. rewrite list_lookup_insert_ne by lia. rewrite Hv, Hcnt by done. destruct (decide (0 = k + 1 - r)); [lia|]. f_equal. lia.
  - set (r := nb_of w). assert (r = k + 1 - w) as Er by (unfold r, nb_of; by rewrite (proj2 (Z.eqb_neq w 0))).
    pose proof (code_range ws k Hok _ w Hws Hw0) as Hcr.
    assert (aget val r = (Ok (code_of ws (Z.to_nat n) w) : res Z)) as ->.
    { apply aget_Ok. split; [lia|]. rewrite Hv by lia. unfold code_of. rewrite Er. f_equal. f_equal; [|f_equal; lia]. do 2 f_equal; lia. }
    cbn [obind]. rewrite aset_Ok by lia. cbn [obind]. rewrite setValue_celt by (try lia; by rewrite Er). cbn [obind].
    rewrite aset_Ok by lia. cbn [obind wp]. unfold assigned; cbn [fst snd]. rewrite !zlen_insert.
    assert (2 ^ (k + 1 - w) <= 2 ^ 12) by (apply Z.pow_le_mono_r; lia). rewrite (wrap_small 16) by lia. split_and!; try done.
    + intros i v Hi. destruct (decide (i = Z.to_nat n)) as [->|].
      * rewrite list_lookup_insert_eq by (unfold zlen in *; lia). rewrite Hws in Hi. injection Hi as <-. zdecide. done.
      * rewrite list_lookup_insert_ne by lia. rewrite (Hct i v Hi). replace (Z.of_nat i <? n + 1) with (Z.of_nat i <? n) by (zcases; (done || lia)). done.
    + rewrite list_lookup_insert_ne by lia. rewrite Hcnt, Hv0. destruct (decide (w = 0)); [done|]. f_equal. lia.
    + intros q Hq. rewrite Hcnt. destruct (decide (w = k + 1 - q)) as [E|E].
      * assert (q = r) as -> by lia. rewrite list_lookup_insert_eq by (unfold zlen in *; lia). unfold code_of. f_equal.
        replace (k - r) with (w - 1) by lia. rewrite <- E. lia.
      * rewrite list_lookup_insert_ne by lia. rewrite Hv by done. f_equal. lia.
Qed.

Lemma assign_all ct val :
  zlen ws <= zlen ct -> nbs `prefix_of` ct -> zlen val = 14 -> val !! 0%nat = Some 0 ->
  (forall r, 1 <= r <= k -> val !! Z.to_nat r = Some (cells ws (k - r) / 2 ^ (k - r))) ->
  exists ct' val', for_range 0 (zlen ws) assign_value (ct, val) = Ok (ct', val') /\ zlen ct' = zlen ct /\
    forall i w, ws !! i = Some w -> ct' !! i = Some (if w =? 0 then 0 else celt (code_of ws i w) (k + 1 - w)).
Proof.
  intros Hroom Hct Hzv Hv0 Hv. pose proof (zlen_nonneg ws).
  assert (wp (for_range 0 (zlen ws) assign_value (ct, val)) (assigned (zlen ct) (zlen ws)) (fun _ => False)) as Hw.
  { apply (wp_for_range (assigned (zlen ct))); [lia| |intros; by apply assign_step]. unfold assigned; cbn [fst snd]. change (Z.to_nat 0) with 0%nat. rewrite take_0.
    change (count_sym 0 []) with 0. split_and!; try done.
    - intros i w Hi. rewrite (proj2 (Z.ltb_ge _ 0)) by lia. cbn [andb]. destruct Hct as [r ->]. apply lookup_app_l_Some. unfold nbs. by rewrite list_lookup_fmap, Hi.
    - intros r Hr. rewrite Hv by done. change (count_sym (k + 1 - r) []) with 0. f_equal. lia. }
  apply wp_exists in Hw as ([ct' val'] & -> & Hz & _ & Hl & _). cbn [fst snd] in *. exists ct', val'. split; [done|]. split; [done|].
  intros i w Hi. rewrite (Hl i w Hi). apply lookup_lt_Some in Hi. rewrite (proj2 (Z.ltb_lt _ (zlen ws))) by (unfold zlen; lia). cbn [andb].
  unfold nb_of. by destruct (w =? 0).
Qed.
End Assign.

(** ** The two tables of a header *)

(** What a reader of the statistics of a tree relies on. *)
Definition weights_of (s : huf_stats) : list Z := take (Z.to_nat (hs_nbSymbols s)) (hs_huffWeight s).

Lemma stats_code n s : stats_ok 256 n s -> code_ok (weights_of s) (hs_tableLog s) /\ zlen (weights_of s) = hs_nbSymbols s /\
  weights_of s `prefix_of` hs_huffWeight s /\ forall w, 0 <= w <= HUF_TABLELOG_MAX -> hs_rankStats s !! Z.to_nat w = Some (count_sym w (weights_of s)).
Proof.
  intros (Hnb & Hz & Hk & _ & Hf & Hsum & Hr & _). fold (weights_of s) in *. split; [|split; [done|split; [apply prefix_take|done]]].
  unfold code_ok. rewrite Hz. done.
Qed.

Section Tables.
Context `{P : Platform} (src : list Z) (srcStart srcSize : Z) (s : huf_stats).
Context (Hread : HUF_readStats (replicate (Z.to_nat (HUF_SYMBOLVALUE_MAX + 1)) 0) (HUF_SYMBOLVALUE_MAX + 1)
              (replicate (Z.to_nat (HUF_TABLELOG_ABSOLUTEMAX + 1)) 0) src srcStart srcSize = Ok s).
Context (Hst : stats_ok 256 srcSize s).

Let ws := weights_of s.
Let k := hs_tableLog s.

Definition dtable_log (m : Z) : Z := Z.max k (Z.min (m + 1) HUF_DECODER_FAST_TABLELOG).

Lemma readDTableX1_spec DTable wkspSize :
  0 <= dtd_maxTableLog DTable <= 11 -> 2 * 2 ^ (dtd_maxTableLog DTable + 1) <= zlen (hdt_cells DTable) -> sizeof_ReadDTableX1_Workspace <= wkspSize ->
  let k' := dtable_log (dtd_maxTableLog DTable) in
  if dtd_maxTableLog DTable + 1 <? k then HUF_readDTableX1_wksp DTable src srcStart srcSize wkspSize = Err ZSTD_error_tableLog_tooLarge
  else exists D, HUF_readDTableX1_wksp DTable src srcStart srcSize wkspSize = Ok (hs_size s, D) /\ dtd_tableLog D = k' /\
    dtd_maxTableLog D = dtd_maxTableLog DTable /\ zlen (hdt_cells D) = zlen (hdt_cells DTable) /\ rows (rescaled (k' - k) ws) k' k' `prefix_of` hdt_cells D.
Proof.
  intros Hm Hroom Hwk k'. destruct (stats_code srcSize s Hst) as (Hok & Hz & Hpre & Hr). fold ws k in Hok, Hz, Hpre, Hr. pose proof Hok as (Hk & Hzw & _).
  unfold HUF_readDTableX1_wksp. rewrite (proj2 (Z.ltb_ge wkspSize _)) by lia. cbn [reject_if obind]. unfold HUF_readStats in Hread. rewrite Hread. cbn [obind]. fold k.
  rewrite <- Hz. destruct (rescaleStats_spec ws k Hok (hs_huffWeight s) (hs_rankStats s) Hpre Hr (Z.min (dtd_maxTableLog DTable + 1) HUF_DECODER_FAST_TABLELOG))
    as (hw & rv & -> & Hhw & Hrv); [unfold HUF_DECODER_FAST_TABLELOG; lia|]. fold (dtable_log (dtd_maxTableLog DTable)) in *. fold k' in Hhw, Hrv |- *. cbn [obind].
  unfold HUF_TABLELOG_MAX in Hk. assert (k <= k' <= 12) as Hk' by (unfold k', dtable_log, HUF_DECODER_FAST_TABLELOG; lia).
  destruct (Z.ltb_spec (dtd_maxTableLog DTable + 1) k) as [Hbig|Hfit].
  { replace (dtd_maxTableLog DTable + 1 <? k') with true; [done|]. symmetry. apply Z.ltb_lt. lia. }
  assert (k' <= dtd_maxTableLog DTable + 1) as Hk'' by (unfold k', dtable_log; lia). rewrite (proj2 (Z.ltb_ge _ k')) by done. cbn [reject_if obind].
  assert (code_ok (rescaled (k' - k) ws) k') as Hok'.
  { replace k' with (k + (k' - k)) at 2 by lia. apply rescaled_ok; [lia|done|unfold HUF_TABLELOG_MAX; lia]. }
  set (ws' := rescaled (k' - k) ws) in *. destruct (rank_starts ws' k' Hok' rv Hrv (replicate (Z.to_nat (HUF_TABLELOG_ABSOLUTEMAX + 1)) 0)) as (rs & x & -> & Hzrs & Hrs); [done|].
  cbn [obind]. pose proof (for_unrolled4 (place_symbol hw) (zlen ws) (replicate (Z.to_nat (HUF_SYMBOLVALUE_MAX + 1)) 0, rs) ltac:(lia)) as Hun.
  destruct (for_step 0 _ 4 _ _) as [st| |] eqn:Est; cbn [obind] in Hun |- *.
  2,3: exfalso; destruct (place_all ws' k' Hok' hw Hhw (replicate (Z.to_nat (HUF_SYMBOLVALUE_MAX + 1)) 0) rs) as (? & ? & E & _); [done..|]; unfold ws' in E; rewrite zlen_rescaled in E; congruence.
  rewrite Hun. clear Hun Est st.
  destruct (place_all ws' k' Hok' hw Hhw (replicate (Z.to_nat (HUF_SYMBOLVALUE_MAX + 1)) 0) rs) as (sy & rs' & E & Hzsy & Hsy); [done..|].
  unfold ws' in E. rewrite zlen_rescaled in E. rewrite E. cbn [obind].
  assert (aget rv 0 = (Ok (count_sym 0 ws') : res Z)) as -> by (apply aget_Ok; split; [lia|apply Hrv; lia]). cbn [obind].
  assert (2 * 2 ^ k' <= zlen (hdt_cells DTable)) as Hroom' by (pose proof (Z.pow_le_mono_r 2 k' (dtd_maxTableLog DTable + 1)); lia).
  destruct (fill_all ws' k' Hok' rv Hrv sy (hdt_cells DTable) (count_sym 0 ws') Hsy Hzsy Hroom' eq_refl) as (dt & a & b & -> & Hp & Hzd). cbn [obind].
  eexists. split; [reflexivity|]. cbn [dtd_tableLog dtd_maxTableLog hdt_cells]. rewrite wrap_small by lia. done.
Qed.

(** The unused ranks of [HUF_readCTable]. *)
Lemma rank_bases rankVal :
  13 <= zlen rankVal -> 1 <= k <= 12 ->
  exists r, for_range 1 (k + 1) (fun n '(rankVal, nextRankStart) =>
    let* x := aget rankVal n in
    let* rankVal := aset rankVal n nextRankStart in
    Ok (rankVal, u32 (nextRankStart + u32 (Z.shiftl x (n - 1))))) (rankVal, 0) = (Ok r : res (list Z * Z)).
Proof.
  intros Hz Hk. match goal with |- exists r, ?m = _ => assert (wp m (fun r => zlen r.1 = zlen rankVal) (fun _ : ZSTD_ErrorCode => False)) as Hw end.
  { apply (wp_for_range (fun _ r => zlen r.1 = zlen rankVal)); [lia|done|]. intros n [rv x] Hn Hzr. cbn [fst] in *.
    apply wp_bind, wp_aget; [lia|]. intros y _. rewrite aset_Ok by lia. cbn [obind wp fst]. by rewrite zlen_insert. }
  apply wp_exists in Hw as (r & -> & _). by exists r.
Qed.

Lemma readCTable_spec CTable maxSymbolValue :
  hs_nbSymbols s <= maxSymbolValue + 1 -> maxSymbolValue + 1 <= zlen (hct_ct CTable) ->
  exists C, HUF_readCTable CTable maxSymbolValue src srcStart srcSize = Ok (hs_size s, C, hs_nbSymbols s - 1, bool_decide (0 < count_sym 0 ws)) /\
    hct_header C = {| h_tableLog := k; h_maxSymbolValue := hs_nbSymbols s - 1 |} /\
    forall i w, ws !! i = Some w -> hct_ct C !! i = Some (if w =? 0 then 0 else celt (code_of ws i w) (k + 1 - w)).
Proof.
  intros Hmax Hroom. destruct (stats_code srcSize s Hst) as (Hok & Hz & Hpre & Hr). fold ws k in Hok, Hz, Hpre, Hr. pose proof Hok as (Hk & Hzw & _).
  pose proof (rank_len ws (hs_rankStats s) Hr) as Hlen. unfold HUF_TABLELOG_MAX in Hk.
  unfold HUF_readCTable. rewrite Hread. cbn [obind]. fold k.
  assert (aget (hs_rankStats s) 0 = (Ok (count_sym 0 ws) : res Z)) as -> by (apply aget_Ok; split; [lia|apply (Hr 0); unfold HUF_TABLELOG_MAX; lia]). cbn [obind].
  unfold HUF_TABLELOG_MAX at 1. rewrite (proj2 (Z.ltb_ge 12 k)), (proj2 (Z.ltb_ge (maxSymbolValue + 1) _)) by lia. cbn [reject_if obind].
  unfold HUF_writeCTableHeader. rewrite (proj2 (Z.ltb_lt k 256)), (proj2 (Z.ltb_lt _ 256)) by lia. cbn [oassert obind].
  destruct (rank_bases (hs_rankStats s)) as (rb & ->); [lia|lia|]. cbn [obind hct_ct hct_header]. rewrite <- Hz.
  destruct (fill_lengths ws k Hok (hs_huffWeight s) (hct_ct CTable) Hpre) as (ct1 & -> & Hp1 & Hz1); [lia|]. cbn [obind].
  destruct (count_lengths ws k Hok ct1 (replicate (Z.to_nat (HUF_TABLELOG_MAX + 2)) 0) Hp1) as (nb & -> & Hznb & Hnb); [done| |].
  { intros r Hr'. apply lookup_replicate. split; [done|]. unfold HUF_TABLELOG_MAX. lia. }
  cbn [obind]. rewrite aset_Ok by (rewrite zlen_replicate; unfold HUF_TABLELOG_MAX; lia). cbn [obind].
  destruct (rank_values ws k Hok nb (<[Z.to_nat (k + 1) := 0]> (replicate (Z.to_nat (HUF_TABLELOG_MAX + 2)) 0)) Hznb Hnb) as (val & x & -> & Hzv & Hv0 & Hv).
  { by rewrite zlen_insert. }
  { rewrite list_lookup_insert_ne by lia. done. }
  cbn [obind]. destruct (assign_all ws k Hok ct1 val) as (ct2 & val2 & -> & Hz2 & Hl2); try done; [lia|]. cbn [obind].
  exists {| hct_header := {| h_tableLog := u8 k; h_maxSymbolValue := u8 (zlen ws - 1) |}; hct_ct := ct2 |}.
  split; [|split; [|exact Hl2]]; cbn [hct_header hct_ct]; rewrite <- ?Hz.
  - do 2 f_equal. destruct (Z.ltb_spec 0 (count_sym 0 ws)); symmetry; [by apply bool_decide_true|apply bool_decide_false; lia].
  - by rewrite !wrap_small by lia.
Qed.
End Tables.
