(* ===== verification/HufStream.v ===== *)
(** * huf_compress.c: the Huffman encoder

    [HUF_CStream_t] builds the bit stream from the top of two registers, so that
    adding a code is one shift and one or; the unused low bits may be dirty.  It
    is related here to the plain [BIT_CStream_t] of [BitStream], and the unrolled
    loop is shown to write the codes of the source from its last symbol to its
    first. *)
From S2P Require Import Prelude Mem Errors Bits BitStream Fse FseSpread NCount HufStats HufTable HufCode.

Section Definitions.
Context `{P : Platform}.

Definition HUF_BLOCKSIZE_MAX : Z := 128 * 1024.
Definition HUF_BITS_IN_CONTAINER : Z := sizeof_size_t * 8.

(** [bitContainer[0]], [bitContainer[1]], [bitPos[0]] and [bitPos[1]]. *)
Record HUF_CStream_t := {
  hs_mem : list Z; hs_c0 : Z; hs_c1 : Z; hs_pos0 : Z; hs_pos1 : Z; hs_startPtr : Z; hs_ptr : Z; hs_endPtr : Z
}.

Definition HUF_initCStream (mem : list Z) (startPtr dstCapacity : Z) : res HUF_CStream_t :=
  reject_if (dstCapacity <=? sizeof_size_t) ZSTD_error_dstSize_tooSmall ;;;
  Ok {| hs_mem := mem; hs_c0 := 0; hs_c1 := 0; hs_pos0 := 0; hs_pos1 := 0; hs_startPtr := startPtr; hs_ptr := startPtr;
        hs_endPtr := startPtr + dstCapacity - sizeof_size_t |}.

(** The new container and position. *)
Definition add_elt (container pos elt : Z) (kFast : bool) : res (Z * Z) :=
  oassert (HUF_getNbBits elt <=? HUF_TABLELOG_ABSOLUTEMAX) ;;;
  let container := Z.shiftr container (HUF_getNbBits elt) in
  let container := Z.lor container (if kFast then HUF_getValueFast elt else HUF_getValue elt) in
  let pos := size_t (pos + HUF_getNbBitsFast elt) in
  oassert (Z.land pos 255 <=? HUF_BITS_IN_CONTAINER) ;;;
  Ok (container, pos).

Definition HUF_addBits (bitC : HUF_CStream_t) (elt idx : Z) (kFast : bool) : res HUF_CStream_t :=
  oassert (idx <=? 1) ;;;
  if idx =? 0 then
    let* (c, p) := add_elt (hs_c0 bitC) (hs_pos0 bitC) elt kFast in
    Ok {| hs_mem := hs_mem bitC; hs_c0 := c; hs_c1 := hs_c1 bitC; hs_pos0 := p; hs_pos1 := hs_pos1 bitC;
          hs_startPtr := hs_startPtr bitC; hs_ptr := hs_ptr bitC; hs_endPtr := hs_endPtr bitC |}
  else
    let* (c, p) := add_elt (hs_c1 bitC) (hs_pos1 bitC) elt kFast in
    Ok {| hs_mem := hs_mem bitC; hs_c0 := hs_c0 bitC; hs_c1 := c; hs_pos0 := hs_pos0 bitC; hs_pos1 := p;
          hs_startPtr := hs_startPtr bitC; hs_ptr := hs_ptr bitC; hs_endPtr := hs_endPtr bitC |}.

Definition HUF_zeroIndex1 (bitC : HUF_CStream_t) : HUF_CStream_t :=
  {| hs_mem := hs_mem bitC; hs_c0 := hs_c0 bitC; hs_c1 := 0; hs_pos0 := hs_pos0 bitC; hs_pos1 := 0;
     hs_startPtr := hs_startPtr bitC; hs_ptr := hs_ptr bitC; hs_endPtr := hs_endPtr bitC |}.

Definition HUF_mergeIndex1 (bitC : HUF_CStream_t) : res HUF_CStream_t :=
  oassert (Z.land (hs_pos1 bitC) 255 <? HUF_BITS_IN_CONTAINER) ;;;
  let c := Z.lor (Z.shiftr (hs_c0 bitC) (Z.land (hs_pos1 bitC) 255)) (hs_c1 bitC) in
  let p := size_t (hs_pos0 bitC + hs_pos1 bitC) in
  oassert (Z.land p 255 <=? HUF_BITS_IN_CONTAINER) ;;;
  Ok {| hs_mem := hs_mem bitC; hs_c0 := c; hs_c1 := hs_c1 bitC; hs_pos0 := p; hs_pos1 := hs_pos1 bitC;
        hs_startPtr := hs_startPtr bitC; hs_ptr := hs_ptr bitC; hs_endPtr := hs_endPtr bitC |}.

Definition HUF_flushBits (bitC : HUF_CStream_t) (kFast : bool) : res HUF_CStream_t :=
  let nbBits := Z.land (hs_pos0 bitC) 255 in
  let nbBytes := Z.shiftr nbBits 3 in
  let bitContainer := Z.shiftr (hs_c0 bitC) (HUF_BITS_IN_CONTAINER - nbBits) in
  oassert (0 <? nbBits) ;;;
  oassert (nbBits <=? HUF_BITS_IN_CONTAINER) ;;;
  oassert (hs_ptr bitC <=? hs_endPtr bitC) ;;;
  let* mem := MEM_writeLEST (hs_mem bitC) (hs_ptr bitC) bitContainer in
  let ptr := hs_ptr bitC + nbBytes in
  oassert (negb kFast || (ptr <=? hs_endPtr bitC)) ;;;
  let ptr := if negb kFast && (hs_endPtr bitC <? ptr) then hs_endPtr bitC else ptr in
  Ok {| hs_mem := mem; hs_c0 := hs_c0 bitC; hs_c1 := hs_c1 bitC; hs_pos0 := Z.land (hs_pos0 bitC) 7; hs_pos1 := hs_pos1 bitC;
        hs_startPtr := hs_startPtr bitC; hs_ptr := ptr; hs_endPtr := hs_endPtr bitC |}.

Definition HUF_endMark : res Z :=
  let* elt := HUF_setNbBits 1 in
  HUF_setValue elt 1.

(** The size, 0 when the stream does not fit, and the stream. *)
Definition HUF_closeCStream (bitC : HUF_CStream_t) : res (Z * HUF_CStream_t) :=
  let* endMark := HUF_endMark in
  let* bitC := HUF_addBits bitC endMark 0 false in
  let* bitC := HUF_flushBits bitC false in
  let nbBits := Z.land (hs_pos0 bitC) 255 in
  if hs_endPtr bitC <=? hs_ptr bitC then Ok (0, bitC)
  else Ok (hs_ptr bitC - hs_startPtr bitC + (if 0 <? nbBits then 1 else 0), bitC).

Definition HUF_encodeSymbol (bitC : HUF_CStream_t) (symbol : Z) (ct : list Z) (idx : Z) (fast : bool) : res HUF_CStream_t :=
  let* elt := aget ct symbol in
  HUF_addBits bitC elt idx fast.

(** [kUnroll] symbols down from [ip[n - 1]] into register [idx]. *)
Definition encode_unrolled (bitC : HUF_CStream_t) (src : list Z) (ip n : Z) (ct : list Z) (idx kUnroll : Z) (kLastFast : bool) : res HUF_CStream_t :=
  let* bitC := for_range 1 kUnroll (fun u bitC =>
    let* b := aget src (ip + (n - u)) in HUF_encodeSymbol bitC b ct idx true) bitC in
  let* b := aget src (ip + (n - kUnroll)) in
  HUF_encodeSymbol bitC b ct idx kLastFast.

(** One turn of the main loop: two runs, the second through register 1. *)
Definition encode_turn (src : list Z) (ip : Z) (ct : list Z) (kUnroll : Z) (kFastFlush kLastFast : bool) (st : HUF_CStream_t * Z)
    : res (HUF_CStream_t * Z + HUF_CStream_t * Z) :=
  let '(bitC, n) := st in
  if 0 <? n then
    let* bitC := encode_unrolled bitC src ip n ct 0 kUnroll kLastFast in
    let* bitC := HUF_flushBits bitC kFastFlush in
    let bitC := HUF_zeroIndex1 bitC in
    let* bitC := encode_unrolled bitC src ip (n - kUnroll) ct 1 kUnroll kLastFast in
    let* bitC := HUF_mergeIndex1 bitC in
    let* bitC := HUF_flushBits bitC kFastFlush in
    Ok (inl (bitC, n - 2 * kUnroll))
  else Ok (inr (bitC, n)).

Definition HUF_compress1X_usingCTable_internal_body_loop (bitC : HUF_CStream_t) (src : list Z) (ip srcSize : Z) (ct : list Z)
    (kUnroll : Z) (kFastFlush kLastFast : bool) : res HUF_CStream_t :=
  let n := srcSize in
  let rem := Z.rem n kUnroll in
  let* bitC :=
    if 0 <? rem then
      let* bitC := for_range 0 rem (fun i bitC =>
        let* b := aget src (ip + (n - 1 - i)) in HUF_encodeSymbol bitC b ct 0 false) bitC in
      HUF_flushBits bitC kFastFlush
    else Ok bitC in
  let n := if 0 <? rem then n - rem else n in
  oassert (Z.rem n kUnroll =? 0) ;;;
  let* (bitC, n) :=
    if negb (Z.rem n (2 * kUnroll) =? 0) then
      let* bitC := encode_unrolled bitC src ip n ct 0 kUnroll kLastFast in
      let* bitC := HUF_flushBits bitC kFastFlush in
      Ok (bitC, n - kUnroll)
    else Ok (bitC, n) in
  oassert (Z.rem n (2 * kUnroll) =? 0) ;;;
  let* (bitC, n) := loop (S (Z.to_nat n)) (encode_turn src ip ct kUnroll kFastFlush kLastFast) (bitC, n) in
  oassert (n =? 0) ;;;
  Ok bitC.

Definition HUF_tightCompressBound (srcSize tableLog : Z) : Z := size_t (Z.shiftr (size_t (srcSize * tableLog)) 3 + 8).

(** The unrolling for a table of [tableLog] bits: [kUnroll] and [kLastFast]. *)
Definition fast_unroll (tableLog : Z) : Z * bool :=
  if MEM_32bits then
    if tableLog =? 11 then (2, false)
    else if (tableLog =? 10) || (tableLog =? 9) || (tableLog =? 8) then (2, true)
    else (3, true)
  else
    if tableLog =? 11 then (5, false)
    else if tableLog =? 10 then (5, true)
    else if tableLog =? 9 then (6, false)
    else if tableLog =? 8 then (7, false)
    else if tableLog =? 7 then (8, false)
    else (9, true).

(** The size written at [dst] in [mem], 0 if it does not fit, and the memory. *)
Definition HUF_compress1X_usingCTable_internal_body (mem : list Z) (dst dstSize : Z) (src : list Z) (ip srcSize : Z) (CTable : HUF_CTable)
    : res (Z * list Z) :=
  let tableLog := h_tableLog (HUF_readCTableHeader CTable) in
  let ct := hct_ct CTable in
  if dstSize <? 8 then Ok (0, mem)
  else match HUF_initCStream mem dst dstSize with
  | Fault f => Fault f
  | Err _ => Ok (0, mem)
  | Ok bitC =>
      let* bitC :=
        if (dstSize <? HUF_tightCompressBound srcSize tableLog) || (11 <? tableLog) then
          HUF_compress1X_usingCTable_internal_body_loop bitC src ip srcSize ct (if MEM_32bits then 2 else 4) false false
        else
          let '(kUnroll, kLastFast) := fast_unroll tableLog in
          HUF_compress1X_usingCTable_internal_body_loop bitC src ip srcSize ct kUnroll true kLastFast in
      oassert (hs_ptr bitC <=? hs_endPtr bitC) ;;;
      let* (size, bitC) := HUF_closeCStream bitC in
      Ok (size, hs_mem bitC)
  end.

Definition HUF_compress1X_usingCTable := HUF_compress1X_usingCTable_internal_body.
End Definitions.

(** ** Registers filled from the top *)

Section Registers.
Context `{P : Platform}.

(** The top [pos] bits of the register are [B]; the bits below [e] may be dirty. *)
Definition cont (c pos B e : Z) : Prop :=
  0 <= pos /\ 0 <= e /\ pos + e <= regBits /\ 0 <= B < 2 ^ pos /\ exists r, c = B * 2 ^ (regBits - pos) + r /\ 0 <= r < 2 ^ e.

Lemma lor_bound x y m : 0 <= m -> 0 <= x < 2 ^ m -> 0 <= y < 2 ^ m -> 0 <= Z.lor x y < 2 ^ m.
Proof.
  intros Hm Hx Hy. rewrite <- (Z.mod_small x (2 ^ m)), <- (Z.mod_small y (2 ^ m)) by lia.
  rewrite <- !Z.land_ones, <- Z.land_lor_distr_l, Z.land_ones by lia. apply Z.mod_pos_bound. apply pow2_pos. lia.
Qed.

Lemma lor_low hi m lo1 lo2 : 0 <= m -> 0 <= lo1 < 2 ^ m -> 0 <= lo2 < 2 ^ m ->
  Z.lor (hi * 2 ^ m + lo1) lo2 = hi * 2 ^ m + Z.lor lo1 lo2.
Proof.
  intros Hm H1 H2. pose proof (lor_bound lo1 lo2 m Hm H1 H2).
  rewrite (Z.add_comm _ lo1), <- (lor_shiftl_add lo1 hi m) by lia. rewrite <- Z.lor_assoc, (Z.lor_comm _ lo2), Z.lor_assoc.
  rewrite lor_shiftl_add by lia. lia.
Qed.

(** The number of bits a length of at most [L] bits may dirty. *)
Definition dirty (L : Z) : Z := if L <=? 7 then 3 else 4.

Lemma reg_ge : 32 <= regBits.
Proof. destruct regBits_cases; lia. Qed.

(** Shifting the register down by [nb] and putting [v] on top. *)
Lemma cont_push c pos B e v nb lo d :
  cont c pos B e -> 0 <= nb -> pos + nb <= regBits -> 0 <= v < 2 ^ nb -> 0 <= d -> 0 <= lo < 2 ^ d -> pos + nb + d <= regBits ->
  cont (Z.lor (Z.shiftr c nb) (v * 2 ^ (regBits - nb) + lo)) (pos + nb) (v * 2 ^ pos + B) (Z.max d (e - nb)).
Proof.
  intros (Hpos & He & Hpe & HB & r & -> & Hr) Hnb Hfit Hv Hd Hlo Hdp. unfold cont.
  assert (0 < 2 ^ pos) by (apply pow2_pos; lia). assert (0 < 2 ^ (regBits - pos - nb)) by (apply pow2_pos; lia).
  split; [lia|]. split; [lia|]. split; [lia|]. split; [rewrite Z.pow_add_r by lia; nia|].
  assert (0 <= r / 2 ^ nb < 2 ^ Z.max 0 (e - nb)) as Hr'.
  { assert (0 < 2 ^ nb) by (apply pow2_pos; lia). split; [apply Z.div_pos; lia|]. apply Z.div_lt_upper_bound; [lia|]. rewrite <- Z.pow_add_r by lia.
    eapply Z.lt_le_trans; [apply Hr|]. apply Z.pow_le_mono_r; lia. }
  exists (Z.lor (r / 2 ^ nb) lo). split.
  - rewrite Z.shiftr_div_pow2 by lia. replace (regBits - pos) with ((regBits - pos - nb) + nb) by lia. rewrite Z.pow_add_r, Z.mul_assoc by lia.
    rewrite Z.div_add_l by (apply Z.pow_nonzero; lia).
    assert (r / 2 ^ nb < 2 ^ (regBits - pos - nb)) by (eapply Z.lt_le_trans; [apply Hr'|apply Z.pow_le_mono_r; lia]).
    assert (lo < 2 ^ (regBits - pos - nb)) by (eapply Z.lt_le_trans; [apply Hlo|apply Z.pow_le_mono_r; lia]).
    assert (v * 2 ^ (regBits - nb) = v * 2 ^ pos * 2 ^ (regBits - pos - nb)) as -> by (rewrite <- Z.mul_assoc, <- Z.pow_add_r by lia; do 2 f_equal; lia).
    rewrite (Z.lor_comm _ (_ + lo)). rewrite (Z.add_comm _ lo), <- (lor_shiftl_add lo _ (regBits - pos - nb)) by lia.
    rewrite <- Z.lor_assoc, (Z.lor_comm lo), <- Z.lor_assoc.
    rewrite (lor_low B (regBits - pos - nb)) by lia. rewrite Z.lor_comm.
    set (q := Z.lor (r / 2 ^ nb) lo). assert (0 <= q < 2 ^ (regBits - pos - nb)) as Hq by (unfold q; apply lor_bound; lia).
    replace (regBits - (pos + nb)) with (regBits - pos - nb) by lia.
    assert (2 ^ pos * 2 ^ (regBits - pos - nb) = 2 ^ (regBits - nb)) as Hpp by (rewrite <- Z.pow_add_r by lia; f_equal; lia).
    replace (Z.shiftl (v * 2 ^ pos) (regBits - pos - nb)) with (Z.shiftl v (regBits - nb)).
    2: { rewrite !Z.shiftl_mul_pow2 by lia. rewrite <- Hpp. lia. }
    rewrite lor_shiftl_add; [rewrite <- Hpp; lia|lia|]. rewrite <- Hpp. nia.
  - apply lor_bound; [lia| |].
    + split; [lia|]. eapply Z.lt_le_trans; [apply Hr'|apply Z.pow_le_mono_r; lia].
    + split; [lia|]. eapply Z.lt_le_trans; [apply Hlo|apply Z.pow_le_mono_r; lia].
Qed.

Lemma getNbBits_celt v nb : 0 <= v < 2 ^ nb -> 1 <= nb <= 12 -> HUF_getNbBits (celt v nb) = nb.
Proof.
  intros Hv Hnb. pose proof reg_ge. unfold HUF_getNbBits, celt. change 255 with (2 ^ 8 - 1). rewrite land_ones_wrap by lia. unfold wrap.
  replace (regBits - nb) with (regBits - nb - 8 + 8) by lia. rewrite Z.pow_add_r, Z.mul_assoc by lia. rewrite Z.add_comm, Z.mod_add by lia. apply Z.mod_small. lia.
Qed.

Lemma getValue_celt v nb : 0 <= v < 2 ^ nb -> 1 <= nb <= 12 -> HUF_getValue (celt v nb) = v * 2 ^ (regBits - nb) + 0.
Proof.
  intros Hv Hnb. pose proof reg_ge. unfold HUF_getValue. unfold size_t. rewrite regBits_bytes.
  assert (0 <= celt v nb < 2 ^ regBits) as Hc.
  { unfold celt. assert (0 < 2 ^ (regBits - nb)) by (apply pow2_pos; lia). assert (12 < 2 ^ (regBits - nb)) by (eapply Z.lt_le_trans with (2 ^ 4); [lia|apply Z.pow_le_mono_r; lia]).
    assert (2 ^ regBits = 2 ^ nb * 2 ^ (regBits - nb)) as -> by (rewrite <- Z.pow_add_r by lia; f_equal; lia). nia. }
  assert (Z.land (celt v nb) (wrap regBits (Z.lnot 255)) = Z.ldiff (celt v nb) 255) as ->.
  { apply Z.bits_inj'. intros i Hi. rewrite Z.land_spec, Z.ldiff_spec, testbit_wrap, Z.lnot_spec by lia.
    destruct (Z.ltb_spec i regBits); [done|]. rewrite (testbit_small (celt v nb) regBits) by lia. done. }
  change 255 with (Z.ones 8). rewrite Z.ldiff_ones_r, Z.shiftr_div_pow2, Z.shiftl_mul_pow2 by lia. unfold celt.
  replace (regBits - nb) with (regBits - nb - 8 + 8) by lia. rewrite Z.pow_add_r, Z.mul_assoc by lia. rewrite Z.div_add_l, (Z.div_small nb) by lia. lia.
Qed.

Lemma pos_land p : Z.land p 255 = p mod 256.
Proof. change 255 with (2 ^ 8 - 1). by rewrite land_ones_wrap by lia. Qed.

Lemma pos_sum a b : size_t (a + b) mod 256 = (a mod 256 + b mod 256) mod 256.
Proof.
  pose proof reg_ge. unfold size_t. rewrite regBits_bytes. unfold wrap. rewrite <- Z.add_mod by lia.
  rewrite <- Zmod_div_mod; [done|lia|apply pow2_pos; lia|]. exists (2 ^ (regBits - 8)). change 256 with (2 ^ 8). rewrite <- Z.pow_add_r by lia. f_equal. lia.
Qed.

(** Adding a code to a register. *)
Lemma add_elt_spec c pos p B e v nb fast L :
  cont c pos B e -> p mod 256 = pos -> 1 <= nb <= L -> L <= 12 -> 0 <= v < 2 ^ nb ->
  pos + nb <= regBits -> (fast = true -> pos + nb + dirty L <= regBits) ->
  exists c' p', add_elt c p (celt v nb) fast = Ok (c', p') /\ p' mod 256 = pos + nb /\
    cont c' (pos + nb) (v * 2 ^ pos + B) (Z.max (if fast then dirty L else 0) (e - nb)).
Proof.
  intros Hc Hp Hnb HL Hv Hfit Hfast. pose proof Hc as (Hpos & He & Hpe & _). pose proof reg_ge. unfold add_elt.
  rewrite getNbBits_celt by (done || lia). unfold HUF_TABLELOG_ABSOLUTEMAX. rewrite (proj2 (Z.leb_le nb 12)) by lia. cbn [oassert obind].
  assert (size_t (p + HUF_getNbBitsFast (celt v nb)) mod 256 = pos + nb) as Hp'.
  { rewrite pos_sum, Hp. unfold HUF_getNbBitsFast. rewrite <- (pos_land (celt v nb)). fold (HUF_getNbBits (celt v nb)). rewrite getNbBits_celt by (done || lia).
    apply Z.mod_small. destruct regBits_cases as [E|E]; rewrite E in *; lia. }
  rewrite pos_land, Hp'. unfold HUF_BITS_IN_CONTAINER. fold regBits. rewrite (proj2 (Z.leb_le _ regBits)) by lia. cbn [oassert obind].
  eexists _, _. split; [reflexivity|]. split; [done|]. destruct fast.
  - unfold HUF_getValueFast, celt. assert (nb < 2 ^ dirty L) by (unfold dirty; zcases; lia). assert (0 <= dirty L) by (unfold dirty; zcases; lia).
    apply cont_push; try done; try lia.
  - rewrite getValue_celt by (done || lia). apply (cont_push c pos B e v nb 0 0); try done; lia.
Qed.

Lemma cont_weaken c pos B e e' : cont c pos B e -> e <= e' -> pos + e' <= regBits -> cont c pos B e'.
Proof.
  intros (Hpos & He & Hpe & HB & r & Hc & Hr) Hle Hfit. unfold cont. split_and!; try done; try lia. exists r. split; [done|].
  pose proof (Z.pow_le_mono_r 2 e e'). lia.
Qed.

(** Forgetting the oldest bits. *)
Lemma cont_drop c pos B e j : cont c pos B e -> 0 <= j <= pos -> cont c (pos - j) (B / 2 ^ j) (regBits - (pos - j)).
Proof.
  intros (Hpos & He & Hpe & HB & r & -> & Hr) Hj. unfold cont. assert (0 < 2 ^ j) by (apply pow2_pos; lia).
  assert (0 < 2 ^ (regBits - pos)) by (apply pow2_pos; lia).
  split; [lia|]. split; [lia|]. split; [lia|]. split.
  { split; [apply Z.div_pos; lia|]. apply Z.div_lt_upper_bound; [lia|]. rewrite <- Z.pow_add_r by lia. replace (j + (pos - j)) with pos by lia. apply HB. }
  pose proof (Z.div_mod B (2 ^ j) ltac:(lia)) as Hdm. pose proof (Z.mod_pos_bound B (2 ^ j) ltac:(lia)).
  assert (2 ^ (regBits - (pos - j)) = 2 ^ j * 2 ^ (regBits - pos)) as -> by (rewrite <- Z.pow_add_r by lia; f_equal; lia).
  exists ((B mod 2 ^ j) * 2 ^ (regBits - pos) + r). split; [rewrite Hdm at 1; lia|].
  assert (r < 2 ^ (regBits - pos)) by (eapply Z.lt_le_trans; [apply Hr|apply Z.pow_le_mono_r; lia]). nia.
Qed.

(** ** The stream it stands for *)

(** [h] writes the stream [c]: same memory and pointers, register 0 holds the pending bits. *)
Definition h_rel (h : HUF_CStream_t) (c : BIT_CStream_t) : Prop :=
  hs_mem h = c_mem c /\ hs_startPtr h = c_startPtr c /\ hs_ptr h = c_ptr c /\ hs_endPtr h = c_endPtr c /\
  cont (hs_c0 h) (c_bitPos c) (c_bitContainer c) (regBits - c_bitPos c) /\ hs_pos0 h mod 256 = c_bitPos c.

Lemma pend_push c V N a v nb :
  w_pend c V N a -> 0 <= nb -> a + nb + 7 < regBits -> 0 <= v < 2 ^ nb ->
  w_pend (c_push c v nb) (V + v * 2 ^ N) (N + nb) (a + nb) /\ c_frame c (c_push c v nb).
Proof.
  intros (Hwf & Ha & Hbp & Hptr & Hh) Hnb Hreg Hv. pose proof (Z.mod_pos_bound (N - a) 8 ltac:(lia)).
  destruct (c_push_wf c v nb Hwf) as [Hwf1 Hfr1]; [lia|lia|done|]. split; [|done].
  unfold w_pend. replace (N + nb - (a + nb)) with (N - a) by lia. cbn [c_push c_bitPos c_ptr c_endPtr c_startPtr].
  split; [done|]. split; [lia|]. split; [lia|]. split; [done|]. intros. apply c_push_holds; [done|]. by apply Hh.
Qed.

Lemma pend_pos c V N a : w_pend c V N a -> a <= c_bitPos c <= a + 7.
Proof. intros (_ & _ & -> & _). pose proof (Z.mod_pos_bound (N - a) 8 ltac:(lia)). lia. Qed.

(** A code into register 0. *)
Lemma addBits0_spec h c V N a v nb fast L :
  h_rel h c -> w_pend c V N a -> 1 <= nb <= L -> L <= 12 -> 0 <= v < 2 ^ nb ->
  a + nb + 7 < regBits -> (fast = true -> a + nb + 7 + dirty L <= regBits) ->
  exists h', HUF_addBits h (celt v nb) 0 fast = Ok h' /\ h_rel h' (c_push c v nb) /\
    c_frame c (c_push c v nb) /\ w_pend (c_push c v nb) (V + v * 2 ^ N) (N + nb) (a + nb).
Proof.
  intros (Hm & Hs & Hp & He & Hc & Hpos) Hw Hnb HL Hv Hfit Hfast. pose proof (pend_pos c V N a Hw) as Hap. pose proof reg_ge.
  destruct (add_elt_spec (hs_c0 h) (c_bitPos c) (hs_pos0 h) _ _ v nb fast L Hc Hpos Hnb HL Hv) as (c0' & p' & Ha & Hp' & Hc'); [lia|intros; specialize (Hfast ltac:(done)); lia|].
  destruct (pend_push c V N a v nb Hw) as [Hw' Hfr]; [lia|lia|done|]. unfold HUF_addBits. cbn [Z.leb Z.compare Z.eqb oassert obind]. rewrite Ha. cbn [obind].
  eexists. split; [reflexivity|]. split; [|done]. unfold h_rel; cbn [hs_mem hs_startPtr hs_ptr hs_endPtr hs_c0 hs_pos0 c_push c_mem c_startPtr c_ptr c_endPtr c_bitPos c_bitContainer].
  split_and!; try done. rewrite (Z.add_comm (c_bitContainer c)). eapply cont_weaken; [exact Hc'| |lia]. destruct fast; [specialize (Hfast eq_refl)|]; lia.
Qed.

(** Codes gathered in register 1, with room for the 7 bits that may be left in register 0. *)
Definition h_side (h : HUF_CStream_t) (V1 N1 : Z) : Prop :=
  hs_pos1 h mod 256 = N1 /\ exists e, cont (hs_c1 h) N1 V1 e /\ 7 + N1 + e <= regBits.

Lemma addBits1_spec h c V1 N1 v nb fast L :
  h_rel h c -> h_side h V1 N1 -> 1 <= nb <= L -> L <= 12 -> 0 <= v < 2 ^ nb ->
  7 + N1 + nb <= regBits -> (fast = true -> 7 + N1 + nb + dirty L <= regBits) ->
  exists h', HUF_addBits h (celt v nb) 1 fast = Ok h' /\ h_rel h' c /\ h_side h' (V1 + v * 2 ^ N1) (N1 + nb).
Proof.
  intros Hrel (Hp1 & e & Hc1 & He1) Hnb HL Hv Hfit Hfast.
  destruct (add_elt_spec (hs_c1 h) N1 (hs_pos1 h) _ _ v nb fast L Hc1 Hp1 Hnb HL Hv) as (c1' & p' & Ha & Hp' & Hc'); [lia|intros; specialize (Hfast ltac:(done)); lia|].
  unfold HUF_addBits. cbn [Z.leb Z.compare Pos.compare Pos.compare_cont Z.eqb oassert obind]. rewrite Ha. cbn [obind].
  eexists. split; [reflexivity|]. split; [exact Hrel|]. unfold h_side; cbn [hs_pos1 hs_c1]. split; [done|]. rewrite (Z.add_comm V1).
  eexists. split; [exact Hc'|]. destruct fast; [specialize (Hfast eq_refl)|]; lia.
Qed.

Lemma zero_side h : h_side (HUF_zeroIndex1 h) 0 0.
Proof.
  pose proof reg_ge. split; [done|]. exists 0. split; [|lia]. unfold cont. cbn [HUF_zeroIndex1 hs_c1]. split_and!; try lia. exists 0. split; lia.
Qed.

Lemma merge_spec h c V N V1 N1 :
  h_rel h c -> w_pend c V N 0 -> h_side h V1 N1 -> N1 + 7 < regBits ->
  exists h' c', HUF_mergeIndex1 h = Ok h' /\ h_rel h' c' /\ c_frame c c' /\ w_pend c' (V + V1 * 2 ^ N) (N + N1) N1.
Proof.
  intros (Hm & Hs & Hp & He & Hc & Hpos) Hw (Hp1 & e & Hc1 & He1) Hfit. pose proof (pend_pos c V N 0 Hw) as Hap. pose proof reg_ge.
  pose proof Hc1 as (HN1 & He0 & _ & HV1 & r & Er & Hr). pose proof Hc as (_ & _ & _ & HB & _).
  unfold HUF_mergeIndex1. rewrite !pos_land, Hp1, pos_sum, Hpos, Hp1. rewrite (Z.mod_small (c_bitPos c + N1)) by (destruct regBits_cases as [E|E]; rewrite E in *; lia).
  unfold HUF_BITS_IN_CONTAINER. fold regBits. rewrite (proj2 (Z.ltb_lt N1 regBits)), (proj2 (Z.leb_le _ regBits)) by lia. cbn [oassert obind].
  destruct (pend_push c V N 0 V1 N1 Hw) as [Hw' Hfr]; [lia|lia|done|]. rewrite Z.add_0_l in Hw'.
  eexists _, (c_push c V1 N1). split; [reflexivity|]. split; [|done]. unfold h_rel; cbn [hs_mem hs_startPtr hs_ptr hs_endPtr hs_c0 hs_pos0 c_push c_mem c_startPtr c_ptr c_endPtr c_bitPos c_bitContainer].
  split_and!; try done.
  - pose proof (cont_push (hs_c0 h) (c_bitPos c) (c_bitContainer c) (regBits - c_bitPos c) V1 N1 r e Hc) as Hcp. rewrite <- Er in Hcp.
    rewrite Z.add_comm with (n := c_bitContainer c). eapply cont_weaken; [apply Hcp; lia|lia|lia].
  - rewrite pos_sum, Hpos, Hp1. apply Z.mod_small. destruct regBits_cases as [E|E]; rewrite E in *; lia.
Qed.

Lemma huf_flush_spec h c V N a fast :
  h_rel h c -> w_pend c V N a -> 1 <= a -> (fast = true -> c_startPtr c + N / 8 <= c_endPtr c) ->
  exists h' c', HUF_flushBits h fast = Ok h' /\ BIT_flushBits c = Ok c' /\ h_rel h' c' /\ c_frame c c' /\ w_pend c' V N 0.
Proof.
  intros (Hm & Hs & Hp & He & Hc & Hpos) Hw Ha Hfast. pose proof (pend_pos c V N a Hw) as Hap. pose proof Hw as (Hwf & HaN & Hbp & Hptr & _).
  pose proof Hwf as (_ & _ & Hpe & _ & Hbpr & _).
  destruct (pend_flush c V N a Hw) as (c' & Hc' & Hfr & Hst). apply w_state_pend in Hst.
  pose proof Hc' as Hflush. unfold BIT_flushBits in Hc'. rewrite flush_write in Hc' by done. destruct (flush_arith c Hwf) as (Hnb & Hnb' & _ & Hl7 & Hdec & Hr8 & _).
  rewrite (proj2 (Z.ltb_lt _ regBits)), (proj2 (Z.leb_le (c_ptr c) _)) in Hc' by lia. cbn [oassert obind] in Hc'. injection Hc' as <-.
  pose proof Hc as (_ & _ & _ & HB & r & Er & Hr). unfold HUF_flushBits. rewrite !pos_land, Hpos. unfold HUF_BITS_IN_CONTAINER. fold regBits.
  assert (Z.shiftr (hs_c0 h) (regBits - c_bitPos c) = c_bitContainer c) as ->.
  { rewrite Er, Z.shiftr_div_pow2 by lia. rewrite Z.div_add_l by (apply Z.pow_nonzero; lia). rewrite Z.div_small by lia. lia. }
  rewrite (proj2 (Z.ltb_lt 0 (c_bitPos c))), (proj2 (Z.leb_le (c_bitPos c) regBits)) by lia. rewrite Hp, He, (proj2 (Z.leb_le (c_ptr c) _)) by lia. cbn [oassert obind].
  rewrite Hm, flush_write by done. cbn [obind].
  assert (fast = true -> c_ptr c + Z.shiftr (c_bitPos c) 3 <= c_endPtr c) as Hfit.
  { intros Hf. specialize (Hfast Hf). destruct (add_div8 (N - a) a) as [Hd _]; [lia|lia|]. replace (N - a + a) with N in Hd by lia. rewrite <- Hbp, <- Hnb in Hd.
    assert (0 <= (N - a) / 8) by (apply Z.div_pos; lia). lia. }
  replace (negb fast || (c_ptr c + Z.shiftr (c_bitPos c) 3 <=? c_endPtr c)) with true.
  2: { destruct fast; [cbn [negb orb]; symmetry; apply Z.leb_le; auto|done]. }
  cbn [oassert obind]. eexists _, _. split; [reflexivity|]. split; [exact Hflush|]. split; [|split; [exact Hfr|exact Hst]].
  unfold h_rel; cbn [hs_mem hs_startPtr hs_ptr hs_endPtr hs_c0 hs_pos0 c_mem c_startPtr c_ptr c_endPtr c_bitPos c_bitContainer]. split_and!; try done.
  - destruct fast; cbn [negb andb]; [|done]. specialize (Hfit eq_refl). by rewrite (proj2 (Z.ltb_ge (c_endPtr c) _)) by lia.
  - pose proof (cont_drop _ _ _ _ (8 * Z.shiftr (c_bitPos c) 3) Hc ltac:(lia)) as Hd.
    replace (c_bitPos c - 8 * Z.shiftr (c_bitPos c) 3) with (Z.land (c_bitPos c) 7) in Hd by lia.
    rewrite <- Z.shiftr_div_pow2, (Z.mul_comm 8) in Hd by lia. exact Hd.
  - change 7 with (2 ^ 3 - 1). rewrite !land_ones_wrap by lia. unfold wrap. change (2 ^ 3) with 8.
    rewrite <- Hpos. rewrite (Z.mod_small (_ mod 8)) by (pose proof (Z.mod_pos_bound (hs_pos0 h) 8 ltac:(lia)); lia).
    apply Zmod_div_mod; [lia|lia|]. by exists 32.
Qed.
End Registers.

(** ** The loop over the source *)

Section Encode.
Context `{P : Platform}.
Variables (src : list Z) (ip srcSize : Z) (ct : list Z) (L : Z) (cv cn : Z -> Z).

(** The codes of a run of symbols, the first symbol in the top bits. *)
Fixpoint sbits (l : list Z) : Z :=
  match l with
  | [] => 0
  | b :: l => sbits l + cn b
  end.

Fixpoint sval (l : list Z) : Z :=
  match l with
  | [] => 0
  | b :: l => sval l + cv b * 2 ^ sbits l
  end.

Definition coded (b : Z) : Prop := aget ct b = (Ok (celt (cv b) (cn b)) : res Z) /\ 1 <= cn b <= L /\ 0 <= cv b < 2 ^ cn b.

Hypothesis HL : 1 <= L <= 12.
Hypothesis Hip : 0 <= ip.
Hypothesis Hsize : 0 <= srcSize /\ ip + srcSize <= zlen src.
Hypothesis Hcoded : Forall coded (slice src ip srcSize).

Lemma sbits_app l k : sbits (l ++ k) = sbits l + sbits k.
Proof. induction l; simpl; lia. Qed.

Lemma sbits_range l : Forall coded l -> zlen l <= sbits l <= zlen l * L.
Proof. induction 1 as [|b l (_ & Hb & _) _ IH]; [done|]. rewrite zlen_cons. cbn [sbits]. lia. Qed.

Lemma sval_app l k : Forall coded l -> Forall coded k -> sval (l ++ k) = sval k + sval l * 2 ^ sbits k.
Proof.
  intros Hl Hk. pose proof (sbits_range k Hk). pose proof (zlen_nonneg k).
  induction Hl as [|b l Hb Hl IH]; cbn [app sval]; [lia|]. pose proof (sbits_range l Hl). pose proof (zlen_nonneg l).
  rewrite sbits_app, Z.pow_add_r, IH by lia. lia.
Qed.

Lemma sval_range l : Forall coded l -> 0 <= sval l < 2 ^ sbits l.
Proof.
  induction 1 as [|b l (_ & Hn & Hv) Hl IH]; cbn [sval sbits]; [lia|]. pose proof (sbits_range l Hl). pose proof (zlen_nonneg l).
  rewrite Z.pow_add_r by lia. assert (0 < 2 ^ sbits l) by lia. nia.
Qed.

(** The symbols [n] to [m - 1] of the source. *)
Definition run (n m : Z) : list Z := slice src (ip + n) (m - n).

Lemma run_coded n m : 0 <= n <= m -> m <= srcSize -> Forall coded (run n m).
Proof.
  intros Hn Hm. unfold run. rewrite <- (slice_slice src ip srcSize n (m - n)) by lia. by apply Forall_take, Forall_drop.
Qed.

Lemma zlen_run n m : 0 <= n <= m -> m <= srcSize -> zlen (run n m) = m - n.
Proof. intros. unfold run. apply zlen_slice; lia. Qed.

Lemma run_app n m p : 0 <= n <= m -> m <= p <= srcSize -> run n m ++ run m p = run n p.
Proof. intros. unfold run. replace (ip + m) with (ip + n + (m - n)) by lia. rewrite slice_app by lia. f_equal. lia. Qed.

Lemma run_cons n m : 0 < n <= m -> m <= srcSize ->
  exists b, aget src (ip + (n - 1)) = (Ok b : res Z) /\ coded b /\ run (n - 1) m = b :: run n m.
Proof.
  intros Hn Hm. destruct (lookup_lt_is_Some_2 src (Z.to_nat (ip + (n - 1)))) as [b Hb]; [unfold zlen in *; lia|].
  assert (run (n - 1) m = b :: run n m) as E.
  { unfold run. rewrite (slice_cons _ _ _ b) by (done || lia). f_equal. f_equal; lia. }
  exists b. split; [apply aget_Ok; split; [lia|done]|]. split; [|done].
  pose proof (run_coded (n - 1) m) as H. rewrite E in H. specialize (H ltac:(lia) Hm). by apply Forall_cons in H as [H _].
Qed.

Definition suffix_bits (n : Z) : Z := sbits (run n srcSize).
Definition suffix_val (n : Z) : Z := sval (run n srcSize).

Lemma suffix_bits_range n : 0 <= n <= srcSize -> srcSize - n <= suffix_bits n <= (srcSize - n) * L.
Proof. intros. unfold suffix_bits. rewrite <- (zlen_run n srcSize) by lia. apply sbits_range, run_coded; lia. Qed.

Lemma suffix_bits_mono n : 0 <= n <= srcSize -> suffix_bits n <= suffix_bits 0.
Proof.
  intros. unfold suffix_bits. rewrite <- (run_app 0 n srcSize), sbits_app by lia. pose proof (sbits_range (run 0 n) ltac:(apply run_coded; lia)).
  pose proof (zlen_nonneg (run 0 n)). lia.
Qed.

(** The symbols from [n] on are written, with [a] bits not flushed, to a stream begun as [c0]. *)
Definition at_sym (c0 : BIT_CStream_t) (h : HUF_CStream_t) (n a : Z) : Prop :=
  exists c, h_rel h c /\ c_frame c0 c /\ w_pend c (suffix_val n) (suffix_bits n) a.

Lemma encode_one c0 h n a fast :
  at_sym c0 h n a -> 0 < n <= srcSize -> a + L + 7 < regBits -> (fast = true -> a + L + 7 + dirty L <= regBits) ->
  wp (let* b := aget src (ip + (n - 1)) in HUF_encodeSymbol h b ct 0 fast)
    (fun h' => exists a', a < a' <= a + L /\ at_sym c0 h' (n - 1) a') (fun _ => False).
Proof.
  intros (c & Hrel & Hfr & Hw) Hn Hfit Hfast. destruct (run_cons n srcSize) as (b & Hb & (Hct & Hnb & Hv) & Hrun); [lia|lia|].
  rewrite Hb. cbn [obind]. unfold HUF_encodeSymbol. rewrite Hct. cbn [obind].
  destruct (addBits0_spec h c _ _ a (cv b) (cn b) fast L Hrel Hw) as (h' & -> & Hrel' & Hfr' & Hw'); [lia|lia|done|lia|intros Hf; specialize (Hfast Hf); lia|].
  cbn [wp]. exists (a + cn b). split; [lia|]. exists (c_push c (cv b) (cn b)). split; [done|]. split; [by eapply c_frame_trans|].
  unfold suffix_val, suffix_bits. rewrite Hrun. exact Hw'.
Qed.

(** Register 1 holds the symbols [n] to [m - 1]. *)
Definition beside (c0 : BIT_CStream_t) (h : HUF_CStream_t) (n m : Z) : Prop :=
  at_sym c0 h m 0 /\ h_side h (sval (run n m)) (sbits (run n m)).

Lemma encode_one_beside c0 h n m fast :
  beside c0 h n m -> 0 < n <= m -> m <= srcSize -> 7 + sbits (run n m) + L <= regBits -> (fast = true -> 7 + sbits (run n m) + L + dirty L <= regBits) ->
  wp (let* b := aget src (ip + (n - 1)) in HUF_encodeSymbol h b ct 1 fast) (fun h' => beside c0 h' (n - 1) m) (fun _ => False).
Proof.
  intros [(c & Hrel & Hfr & Hw) Hside] Hn Hm Hfit Hfast. destruct (run_cons n m) as (b & Hb & (Hct & Hnb & Hv) & Hrun); [lia|lia|].
  rewrite Hb. cbn [obind]. unfold HUF_encodeSymbol. rewrite Hct. cbn [obind].
  destruct (addBits1_spec h c _ _ (cv b) (cn b) fast L Hrel Hside) as (h' & -> & Hrel' & Hside'); [lia|lia|done|lia|intros Hf; specialize (Hfast Hf); lia|].
  cbn [wp]. split; [by exists c|]. rewrite Hrun. exact Hside'.
Qed.

(** What an unrolling of [kUnroll] codes needs of the register. *)
Definition unroll_ok (kUnroll : Z) (lastFast : bool) : Prop :=
  1 <= kUnroll /\ 7 + kUnroll * L < regBits /\ 7 + (kUnroll - 1) * L + dirty L <= regBits /\ (lastFast = true -> 7 + kUnroll * L + dirty L <= regBits).

Lemma unrolled_spec c0 h n kUnroll lastFast :
  unroll_ok kUnroll lastFast -> at_sym c0 h n 0 -> kUnroll <= n <= srcSize ->
  wp (encode_unrolled h src ip n ct 0 kUnroll lastFast) (fun h' => exists a, 1 <= a /\ at_sym c0 h' (n - kUnroll) a) (fun _ => False).
Proof.
  intros (HU & HW & HD & HF) Hat Hn. unfold encode_unrolled. apply wp_bind.
  eapply wp_mono; [eapply (wp_for_range (fun u h => exists a, 0 <= a <= (u - 1) * L /\ at_sym c0 h (n - (u - 1)) a) (fun _ => False)); [lia| |] | |done].
  - exists 0. split; [lia|]. by replace (n - (1 - 1)) with n by lia.
  - intros u h' Hu (a & Ha & Hat'). replace (n - u) with (n - (u - 1) - 1) by lia. assert (u * L <= (kUnroll - 1) * L) by nia.
    eapply wp_mono; [apply (encode_one c0 h' (n - (u - 1)) a true); [done|lia|nia|nia] | |done].
    cbn beta. intros h'' (a' & Ha' & Hat''). exists a'. replace (u + 1 - 1) with u by lia. split; [lia|]. by replace (n - u) with (n - (u - 1) - 1) by lia.
  - cbn beta. intros h' (a & Ha & Hat'). replace (n - kUnroll) with (n - (kUnroll - 1) - 1) by lia.
    eapply wp_mono; [apply (encode_one c0 h' (n - (kUnroll - 1)) a lastFast); [done|lia|nia|intros Hf; specialize (HF Hf); nia] | |done].
    cbn beta. intros h'' (a' & Ha' & Hat''). exists a'. split; [lia|done].
Qed.

Lemma unrolled_beside c0 h n kUnroll lastFast :
  unroll_ok kUnroll lastFast -> at_sym c0 h n 0 -> kUnroll <= n <= srcSize ->
  wp (encode_unrolled (HUF_zeroIndex1 h) src ip n ct 1 kUnroll lastFast) (fun h' => beside c0 h' (n - kUnroll) n) (fun _ => False).
Proof.
  intros (HU & HW & HD & HF) Hat Hn. unfold encode_unrolled. apply wp_bind.
  assert (forall u, 0 <= u <= kUnroll -> sbits (run (n - u) n) <= u * L) as Hbits.
  { intros u Hu. pose proof (sbits_range (run (n - u) n) ltac:(apply run_coded; lia)) as Hr. rewrite zlen_run in Hr by lia. lia. }
  eapply wp_mono; [eapply (wp_for_range (fun u h => beside c0 h (n - (u - 1)) n) (fun _ => False)); [lia| |] | |done].
  - replace (n - (1 - 1)) with n by lia. split; [exact Hat|]. unfold run. rewrite Z.sub_diag. apply zero_side.
  - intros u h' Hu Hb. replace (n - u) with (n - (u - 1) - 1) by lia. assert (u * L <= (kUnroll - 1) * L) by nia. specialize (Hbits (u - 1) ltac:(lia)).
    eapply wp_mono; [apply (encode_one_beside c0 h' (n - (u - 1)) n true); [done|lia|lia|nia|nia] | |done].
    cbn beta. intros h''. by replace (n - (u - 1) - 1) with (n - (u + 1 - 1)) by lia.
  - cbn beta. intros h' Hb. replace (n - kUnroll) with (n - (kUnroll - 1) - 1) by lia. specialize (Hbits (kUnroll - 1) ltac:(lia)).
    apply (encode_one_beside c0 h' (n - (kUnroll - 1)) n lastFast); [done|lia|lia|nia|intros Hf; specialize (HF Hf); nia].
Qed.

Variables (c0 : BIT_CStream_t) (kUnroll : Z) (kFastFlush kLastFast : bool).
Hypothesis HU : unroll_ok kUnroll kLastFast.
Hypothesis Hroom : kFastFlush = true -> c_startPtr c0 + suffix_bits 0 / 8 <= c_endPtr c0.

Lemma flush_sym h n a :
  at_sym c0 h n a -> 1 <= a -> 0 <= n <= srcSize -> wp (HUF_flushBits h kFastFlush) (fun h' => at_sym c0 h' n 0) (fun _ => False).
Proof.
  intros (c & Hrel & Hfr & Hw) Ha Hn. pose proof Hfr as (Hs & He & _).
  destruct (huf_flush_spec h c _ _ a kFastFlush Hrel Hw Ha) as (h' & c' & -> & _ & Hrel' & Hfr' & Hw').
  - intros Hf. specialize (Hroom Hf). pose proof (suffix_bits_mono n Hn). assert (suffix_bits n / 8 <= suffix_bits 0 / 8) by (apply Z.div_le_mono; lia). lia.
  - cbn [wp]. exists c'. split; [done|]. split; [by eapply c_frame_trans|done].
Qed.

Lemma merge_sym h n m :
  beside c0 h n m -> 0 <= n < m -> m <= srcSize -> m - n <= kUnroll ->
  wp (HUF_mergeIndex1 h) (fun h' => exists a, 1 <= a /\ at_sym c0 h' n a) (fun _ => False).
Proof.
  intros [(c & Hrel & Hfr & Hw) Hside] Hn Hm Hk. destruct HU as (HU1 & HW & _).
  pose proof (sbits_range (run n m) ltac:(apply run_coded; lia)) as Hr. rewrite zlen_run in Hr by lia.
  destruct (merge_spec h c _ _ _ _ Hrel Hw Hside) as (h' & c' & -> & Hrel' & Hfr' & Hw'); [nia|].
  cbn [wp]. exists (sbits (run n m)). split; [lia|]. exists c'. split; [done|]. split; [by eapply c_frame_trans|].
  unfold suffix_val, suffix_bits in *. rewrite <- (run_app n m srcSize) by lia. rewrite sval_app, sbits_app by (apply run_coded; lia).
  rewrite (Z.add_comm (sbits _)). exact Hw'.
Qed.

Lemma turn_spec h n :
  at_sym c0 h n 0 -> 2 * kUnroll <= n <= srcSize ->
  wp (encode_turn src ip ct kUnroll kFastFlush kLastFast (h, n))
    (fun r => exists h', r = inl (h', n - 2 * kUnroll) /\ at_sym c0 h' (n - 2 * kUnroll) 0) (fun _ => False).
Proof.
  intros Hat Hn. pose proof HU as (HU1 & _). unfold encode_turn. zdecide. apply wp_bind.
  eapply wp_mono; [apply (unrolled_spec c0 h n kUnroll kLastFast HU Hat); lia| |done]. cbn beta. intros h1 (a & Ha & H1). apply wp_bind.
  eapply wp_mono; [apply (flush_sym h1 (n - kUnroll) a H1 Ha); lia| |done]. cbn beta zeta. intros h2 H2. apply wp_bind.
  eapply wp_mono; [apply (unrolled_beside c0 h2 (n - kUnroll) kUnroll kLastFast HU H2); lia| |done]. cbn beta. intros h3 H3. apply wp_bind.
  eapply wp_mono; [apply (merge_sym h3 _ _ H3); lia| |done]. cbn beta. intros h4 (a4 & Ha4 & H4). apply wp_bind.
  eapply wp_mono; [apply (flush_sym h4 _ a4 H4 Ha4); lia| |done]. cbn beta. intros h5 H5. cbn [wp].
  exists h5. replace (n - kUnroll - kUnroll) with (n - 2 * kUnroll) in H5 by lia. done.
Qed.

Lemma rest_spec h rem :
  at_sym c0 h srcSize 0 -> 0 < rem < kUnroll -> rem <= srcSize ->
  wp (for_range 0 rem (fun i h => let* b := aget src (ip + (srcSize - 1 - i)) in HUF_encodeSymbol h b ct 0 false) h)
    (fun h' => exists a, 1 <= a /\ at_sym c0 h' (srcSize - rem) a) (fun _ => False).
Proof.
  intros Hat Hrem Hle. destruct HU as (_ & HW & _).
  eapply wp_mono; [apply (wp_for_range (fun i h => exists a, i <= a <= i * L /\ at_sym c0 h (srcSize - i) a) (fun _ => False)); [lia| |] | |done].
  - exists 0. split; [lia|]. by rewrite Z.sub_0_r.
  - intros i h' Hi (a & Ha & Hat'). replace (srcSize - 1 - i) with (srcSize - i - 1) by lia.
    eapply wp_mono; [apply (encode_one c0 h' (srcSize - i) a false); [done|lia|nia|done] | |done].
    cbn beta. intros h'' (a' & Ha' & Hat''). exists a'. split; [lia|]. by replace (srcSize - (i + 1)) with (srcSize - i - 1) by lia.
  - cbn beta. intros h' (a & Ha & Hat'). exists a. split; [lia|done].
Qed.

(** Every symbol of the source, from the last to the first, is written once. *)
Lemma body_loop_spec h :
  at_sym c0 h srcSize 0 ->
  wp (HUF_compress1X_usingCTable_internal_body_loop h src ip srcSize ct kUnroll kFastFlush kLastFast) (fun h' => at_sym c0 h' 0 0) (fun _ => False).
Proof.
  intros Hat. pose proof HU as (HU1 & _). unfold HUF_compress1X_usingCTable_internal_body_loop. cbn zeta.
  rewrite Z.rem_mod_nonneg by lia. set (rem := srcSize mod kUnroll).
  pose proof (Z.mod_pos_bound srcSize kUnroll ltac:(lia)) as Hr. pose proof (Z.mod_le srcSize kUnroll ltac:(lia) ltac:(lia)) as Hr'. fold rem in Hr, Hr'.
  apply wp_bind. eapply (wp_mono _ (fun h => at_sym c0 h (srcSize - rem) 0) _ (fun _ => False)); [| |done].
  { destruct (Z.ltb_spec 0 rem); [|cbn [wp]; by replace (srcSize - rem) with srcSize by lia].
    apply wp_bind. eapply wp_mono; [apply (rest_spec h rem Hat); lia| |done]. cbn beta. intros h' (a & Ha & H'). eapply flush_sym; [exact H'|done|lia]. }
  intros h1 H1. replace (if 0 <? rem then srcSize - rem else srcSize) with (srcSize - rem) by (zcases; lia). cbn beta. set (n := srcSize - rem) in *.
  assert (n mod kUnroll = 0) as Hn0 by (unfold n, rem; rewrite Zminus_mod_idemp_r, Z.sub_diag; apply Z.mod_0_l; lia).
  assert (0 <= n <= srcSize) as Hnr by (unfold n; lia). clearbody n. rewrite !Z.rem_mod_nonneg by lia. rewrite Hn0. cbn [Z.eqb oassert obind].
  assert (n mod (2 * kUnroll) = 0 \/ n mod (2 * kUnroll) = kUnroll) as Hn2.
  { rewrite (Z.mul_comm 2), Z.rem_mul_r, Hn0 by lia. pose proof (Z.mod_pos_bound (n / kUnroll) 2 ltac:(lia)).
    destruct (decide ((n / kUnroll) mod 2 = 0)) as [->|]; [left; lia|]. replace ((n / kUnroll) mod 2) with 1 by lia. right; lia. }
  apply wp_bind. eapply (wp_mono _ (fun p => at_sym c0 p.1 p.2 0 /\ 0 <= p.2 <= n /\ p.2 mod (2 * kUnroll) = 0) _ (fun _ => False)); [| |done].
  { destruct Hn2 as [E|E]; rewrite E; [cbn [Z.eqb negb wp fst snd]; split_and!; try done; lia|]. rewrite (proj2 (Z.eqb_neq kUnroll 0)) by lia. cbn [negb].
    assert (kUnroll <= n) by (pose proof (Z.mod_le n (2 * kUnroll)); lia).
    apply wp_bind. eapply wp_mono; [apply (unrolled_spec c0 h1 n kUnroll kLastFast HU H1); lia| |done]. cbn beta. intros h2 (a & Ha & H2).
    apply wp_bind. eapply wp_mono; [apply (flush_sym h2 _ a H2 Ha); lia| |done]. cbn beta. intros h3 H3. cbn [wp fst snd]. split; [done|]. split; [lia|].
    rewrite Zminus_mod, E, (Z.mod_small kUnroll) by lia. rewrite Z.sub_diag. apply Z.mod_0_l; lia. }
  intros [h2 n2] (H2 & Hn2r & Hn2m). cbn [fst snd] in *. rewrite Z.rem_mod_nonneg, Hn2m by lia. cbn [Z.eqb oassert obind].
  apply wp_bind. eapply (wp_mono _ (fun p => at_sym c0 p.1 p.2 0 /\ p.2 = 0) _ (fun _ => False)); [| |done].
  2: { intros [h3 n3] [H3 E3]. cbn [fst snd] in *. rewrite E3 in H3 |- *. done. }
  apply (wp_loop (fun p => at_sym c0 p.1 p.2 0 /\ 0 <= p.2 <= n /\ p.2 mod (2 * kUnroll) = 0) (fun p => p.2)); [done|cbn [snd]; lia|cbn; tauto|].
  intros [h3 n3] (H3 & Hr3 & Hm3). cbn [fst snd] in *. destruct (decide (n3 = 0)) as [->|Hnz].
  - unfold encode_turn. cbn [Z.ltb Z.compare wp fst snd]. done.
  - assert (2 * kUnroll <= n3). { destruct (Z_lt_le_dec n3 (2 * kUnroll)); [|done]. rewrite Z.mod_small in Hm3 by lia. lia. }
    eapply wp_mono; [apply (turn_spec h3 n3 H3); lia| |done]. cbn beta. intros r (h4 & -> & H4). cbn [fst snd]. split; [|lia]. split; [done|]. split; [lia|].
    rewrite Zminus_mod, Hm3, Z_mod_same_full. done.
Qed.
End Encode.

(** ** One stream *)

Section Stream.
Context `{P : Platform}.

Lemma endMark_val : HUF_endMark = Ok (celt 1 1).
Proof. unfold HUF_endMark, HUF_setNbBits. cbn [Z.leb Z.compare oassert obind]. apply setValue_celt; lia. Qed.

(** The stream is closed as [BIT_closeCStream] closes its image. *)
Lemma close_spec h c V N :
  h_rel h c -> w_pend c V N 0 -> exists size h' c', HUF_closeCStream h = Ok (size, h') /\ BIT_closeCStream c = Ok (size, c') /\ h_rel h' c'.
Proof.
  intros Hrel Hw. pose proof reg_ge. pose proof Hw as (Hwf & HN & Hbp & _). rewrite Z.sub_0_r in Hbp. pose proof (Z.mod_pos_bound N 8 ltac:(lia)).
  unfold HUF_closeCStream, BIT_closeCStream. rewrite endMark_val. cbn [obind]. rewrite (addBitsFast_push c 1 1) by (done || lia). cbn [obind].
  destruct (addBits0_spec h c V N 0 1 1 false 1 Hrel Hw) as (h1 & -> & Hrel1 & _ & Hw1); [lia|lia|lia|lia|done|]. cbn [obind].
  destruct (huf_flush_spec h1 _ _ _ _ false Hrel1 Hw1) as (h2 & c2 & -> & -> & Hrel2 & _ & Hw2); [lia|done|]. cbn [obind].
  pose proof Hrel2 as (_ & Hs & Hp & He & _ & Hpos). rewrite pos_land, Hpos, Hs, Hp, He. destruct (Z.leb_spec (c_endPtr c2) (c_ptr c2)); eauto 10.
Qed.

Lemma initCStream_rel mem start cap :
  bytes mem -> 0 <= start -> start + cap <= zlen mem -> sizeof_size_t < cap ->
  exists h c, HUF_initCStream mem start cap = Ok h /\ h_rel h c /\ w_pend c 0 0 0 /\ c_mem c = mem /\ c_startPtr c = start /\ c_endPtr c = start + cap - sizeof_size_t.
Proof.
  intros Hb Hs Hl Hc. pose proof reg_ge.
  destruct (initCStream_wf mem start cap) as (c & Hi & Hwf & Hh & Hm & Hst & Hen & Hbp & Hp); try done.
  unfold HUF_initCStream. rewrite (proj2 (Z.leb_gt _ _)) by lia. cbn [reject_if obind].
  unfold BIT_initCStream in Hi. rewrite (proj2 (Z.leb_gt _ _)) in Hi by lia. cbn [reject_if obind] in Hi. injection Hi as <-. cbn in Hm, Hst, Hen.
  eexists _, {| c_mem := mem; c_bitContainer := 0; c_bitPos := 0; c_startPtr := start; c_ptr := start; c_endPtr := start + cap - sizeof_size_t |}.
  split; [reflexivity|]. cbn [c_mem c_startPtr c_endPtr]. split; [|split; [|done]].
  - unfold h_rel, cont. cbn [hs_mem hs_startPtr hs_ptr hs_endPtr hs_c0 hs_pos0 c_mem c_startPtr c_ptr c_endPtr c_bitPos c_bitContainer]. assert (0 < 2 ^ (regBits - 0)) by (apply pow2_pos; lia).
    split_and!; try done; try lia. exists 0. lia.
  - apply w_state_pend. unfold w_state. cbn [c_bitPos c_ptr c_startPtr c_endPtr]. change (0 mod 8) with 0. change (0 / 8) with 0. split_and!; try done; lia.
Qed.

Section Compress.
Variables (src : list Z) (ip srcSize : Z) (CTable : HUF_CTable) (cv cn : Z -> Z).
Notation L := (h_tableLog (HUF_readCTableHeader CTable)).
Notation syms := (slice src ip srcSize).
Hypothesis HL : 1 <= L <= 12.
Hypothesis Hip : 0 <= ip.
Hypothesis Hsize : 0 <= srcSize <= HUF_BLOCKSIZE_MAX /\ ip + srcSize <= zlen src.
Hypothesis Hcoded : Forall (coded (hct_ct CTable) L cv cn) syms.

Lemma run_all : run src ip 0 srcSize = syms.
Proof. unfold run. by rewrite Z.add_0_r, Z.sub_0_r. Qed.

Lemma tight_bound : HUF_tightCompressBound srcSize L = srcSize * L / 8 + 8.
Proof.
  pose proof reg_ge. unfold HUF_BLOCKSIZE_MAX in Hsize. assert (2 ^ 32 <= 2 ^ regBits) by (apply pow_mono; lia). assert (0 <= srcSize * L <= 131072 * 12) by nia.
  unfold HUF_tightCompressBound, size_t. rewrite !regBits_bytes. rewrite (wrap_small _ (srcSize * L)) by lia. rewrite Z.shiftr_div_pow2 by lia. change (2 ^ 3) with 8.
  assert (0 <= srcSize * L / 8 <= 131072 * 12) by (split; [apply Z.div_pos; lia|apply Z.div_le_upper_bound; lia]). apply wrap_small. lia.
Qed.

(** Both ways of unrolling leave the registers room. *)
Lemma unroll_slow : unroll_ok L (if MEM_32bits then 2 else 4) false.
Proof. unfold unroll_ok, dirty, regBits, sizeof_size_t, MEM_32bits. destruct MEM_64bits; cbn [negb]; zcases; split_and!; done || lia. Qed.

Lemma unroll_fast : L <= 11 -> unroll_ok L (fast_unroll L).1 (fast_unroll L).2.
Proof.
  intros H11. unfold unroll_ok, dirty, regBits, fast_unroll, sizeof_size_t, MEM_32bits.
  destruct MEM_64bits; cbn [negb]; repeat (case_match; cbn [fst snd orb] in *); split_and!; intros; done || lia.
Qed.

(** The codes of the source with the end mark on top, or 0 when they do not fit. *)
Lemma compress1X_spec mem dst dstSize :
  let N := sbits cn syms in
  bytes mem -> 0 <= dst -> 0 <= dstSize -> dst + dstSize <= zlen mem ->
  exists size mem', HUF_compress1X_usingCTable mem dst dstSize src ip srcSize CTable = Ok (size, mem') /\
    zlen mem' = zlen mem /\ bytes mem' /\ take (Z.to_nat dst) mem' = take (Z.to_nat dst) mem /\
    (dstSize < 8 \/ dstSize - sizeof_size_t <= (N + 1) / 8 -> size = 0) /\
    (8 <= dstSize -> (N + 1) / 8 < dstSize - sizeof_size_t ->
     size = N / 8 + 1 /\ size <= dstSize /\ le_val (slice mem' dst size) = sval cv cn syms + 2 ^ N).
Proof.
  intros N Hb Hd Hd0 Hl. unfold HUF_compress1X_usingCTable, HUF_compress1X_usingCTable_internal_body. cbn zeta.
  assert (0 <= N <= srcSize * L) as HN.
  { unfold N. pose proof (sbits_range (hct_ct CTable) L cv cn syms Hcoded) as Hr. rewrite zlen_slice in Hr by lia. lia. }
  assert (0 <= (N + 1) / 8) by (apply Z.div_pos; lia). assert (N / 8 <= srcSize * L / 8) by (apply Z.div_le_mono; lia).
  destruct (Z.ltb_spec dstSize 8) as [Hlt|Hge]; [exists 0, mem; split_and!; try done; lia|].
  destruct (Z_le_gt_dec dstSize sizeof_size_t) as [Hle|Hgt].
  { unfold HUF_initCStream. rewrite (proj2 (Z.leb_le _ _)) by lia. cbn [reject_if obind]. exists 0, mem; split_and!; try done; lia. }
  destruct (initCStream_rel mem dst dstSize) as (h0 & c0 & -> & Hrel0 & Hw0 & Hm0 & Hs0 & He0); [done|lia|lia|lia|].
  rewrite tight_bound. set (fast := (dstSize <? srcSize * L / 8 + 8) || (11 <? L)).
  set (ku := if fast then (if MEM_32bits then 2 else 4, false) else fast_unroll L).
  assert (unroll_ok L ku.1 ku.2) as HU.
  { unfold ku. destruct fast eqn:Ef; [apply unroll_slow|]. apply unroll_fast. unfold fast in Ef. apply orb_false_iff in Ef. lia. }
  assert (at_sym src ip srcSize cv cn c0 h0 srcSize 0) as Hat0.
  { exists c0. split; [done|]. split; [done|]. unfold suffix_val, suffix_bits, run. rewrite Z.sub_diag. exact Hw0. }
  destruct (wp_exists _ _ (body_loop_spec src ip srcSize (hct_ct CTable) L cv cn HL Hip ltac:(lia) Hcoded c0 ku.1 (negb fast) ku.2 HU
    ltac:(intros Hf; unfold suffix_bits; rewrite run_all; fold N; apply negb_true_iff, orb_false_iff in Hf; pose proof sizeof_size_t_cases; lia) h0 Hat0))
    as (h1 & Hloop & c1 & Hrel1 & Hfr1 & Hw1).
  replace (if fast then _ else _) with (Ok h1 : res HUF_CStream_t).
  2: { rewrite <- Hloop. unfold ku. destruct fast; [done|]. by destruct (fast_unroll L). }
  cbn [obind]. pose proof Hrel1 as (_ & _ & Hp1 & He1 & _). pose proof Hw1 as ((_ & _ & Hpe & _) & _). rewrite Hp1, He1, (proj2 (Z.leb_le (c_ptr c1) _)) by lia. cbn [oassert obind].
  destruct (close_spec h1 c1 _ _ Hrel1 Hw1) as (size & h2 & c2 & -> & Hbit & (Hm2 & _)). cbn [obind]. exists size, (hs_mem h2). split; [done|]. rewrite Hm2.
  apply w_state_pend in Hw1. destruct Hfr1 as (Hs1 & Hen1 & Hz1 & Ht1).
  destruct (close_state c1 _ _ dstSize Hw1) as (size' & c2' & Hbit' & Hwf2 & (Hs2 & _ & Hz2 & Ht2) & Hfull & Hok); [lia|].
  rewrite Hbit in Hbit'. injection Hbit' as <- <-. unfold suffix_val, suffix_bits in Hfull, Hok. rewrite run_all in Hfull, Hok. fold N in Hfull, Hok.
  rewrite Hs1, Hs0, Hm0 in *. split; [congruence|]. split; [apply Hwf2|]. split; [congruence|]. split; [|done]. intros [?|?]; [lia|auto].
Qed.
End Compress.
End Stream.
