(* ===== verification/HufCodec.v ===== *)
(** * huf_decompress.c: the single-symbol Huffman decoder

    [HUF_decodeStreamX1] reads one cell of the decoding table a symbol, reloading
    the bit stream once every four symbols (two on 32-bit platforms) while the
    buffer lasts.  It is shown to produce the symbols whose codes the stream holds
    and to stop exactly at its end, so that it inverts
    [HUF_compress1X_usingCTable]. *)
From S2P Require Import Prelude Mem Errors Bits BitStream Fse FseSpread NCount HufStats HufTable HufCode HufStream.

(** The output, the output pointer and the bit stream. *)
Record x1_state := { x_out : list Z; x_op : Z; x_bitD : BIT_DStream_t }.

Section Definitions.
Context `{P : Platform}.
Variables (dt : list Z) (dtLog : Z).

Definition HUF_decodeSymbolX1 (Dstream : BIT_DStream_t) : res (Z * BIT_DStream_t) :=
  let* val := BIT_lookBitsFast Dstream dtLog in
  let* c := aget dt (2 * val + 1) in
  let* nbBits := aget dt (2 * val) in
  Ok (c, BIT_skipBits Dstream nbBits).

Definition HUF_DECODE_SYMBOLX1_0 (st : x1_state) : res x1_state :=
  let* (c, bitD) := HUF_decodeSymbolX1 (x_bitD st) in
  let* out := aset (x_out st) (x_op st) c in
  Ok {| x_out := out; x_op := x_op st + 1; x_bitD := bitD |}.

Definition HUF_DECODE_SYMBOLX1_1 (st : x1_state) : res x1_state :=
  if MEM_64bits || (HUF_TABLELOG_MAX <=? 12) then HUF_DECODE_SYMBOLX1_0 st else Ok st.

Definition HUF_DECODE_SYMBOLX1_2 (st : x1_state) : res x1_state :=
  if MEM_64bits then HUF_DECODE_SYMBOLX1_0 st else Ok st.

(** The body of the main loop. *)
Definition decode_four (st : x1_state) : res x1_state :=
  let* st := HUF_DECODE_SYMBOLX1_2 st in
  let* st := HUF_DECODE_SYMBOLX1_1 st in
  let* st := HUF_DECODE_SYMBOLX1_2 st in
  HUF_DECODE_SYMBOLX1_0 st.

Definition reload_x1 (st : x1_state) : res (BIT_DStream_status * x1_state) :=
  let* (status, bitD) := BIT_reloadDStream (x_bitD st) in
  Ok (status, {| x_out := x_out st; x_op := x_op st; x_bitD := bitD |}).

(** [while ((BIT_reloadDStream(bitDPtr) == BIT_DStream_unfinished) & (p < limit)) body]: the reload is always done. *)
Definition while_unfinished (limit : Z) (body : x1_state -> res x1_state) (st : x1_state) : res (x1_state + x1_state) :=
  let* (status, st) := reload_x1 st in
  if bool_decide (status = BIT_DStream_unfinished) && (x_op st <? limit)
  then let* st := body st in Ok (inl st)
  else Ok (inr st).

(** The number of symbols decoded and the state. *)
Definition HUF_decodeStreamX1 (st : x1_state) (pEnd : Z) : res (Z * x1_state) :=
  let pStart := x_op st in
  let* st :=
    if 3 <? pEnd - x_op st then loop (S (Z.to_nat (pEnd - x_op st))) (while_unfinished (pEnd - 3) decode_four) st
    else let* (_, st) := reload_x1 st in Ok st in
  let* st :=
    if MEM_32bits then loop (S (Z.to_nat (pEnd - x_op st))) (while_unfinished pEnd HUF_DECODE_SYMBOLX1_0) st
    else Ok st in
  let* st := loop (S (Z.to_nat (pEnd - x_op st))) (fun st =>
    if x_op st <? pEnd then let* st := HUF_DECODE_SYMBOLX1_0 st in Ok (inl st) else Ok (inr st)) st in
  Ok (pEnd - pStart, st).
End Definitions.

Section Streams.
Context `{P : Platform}.

(** The size decoded at [dst] in [out], and the output. *)
Definition HUF_decompress1X1_usingDTable_internal_body (out : list Z) (dst dstSize : Z) (cMem : list Z) (cSrc cSrcSize : Z) (DTable : HUF_DTable)
    : res (Z * list Z) :=
  let op := dst in
  let oend := op + dstSize in
  let dt := hdt_cells DTable in
  let dtLog := dtd_tableLog DTable in
  let* bitD := BIT_initDStream cMem cSrc cSrcSize in
  let* (_, st) := HUF_decodeStreamX1 dt dtLog {| x_out := out; x_op := op; x_bitD := bitD |} oend in
  reject_if (negb (BIT_endOfDStream (x_bitD st))) ZSTD_error_corruption_detected ;;;
  Ok (dstSize, x_out st).
End Streams.

(** ** Looking up a code *)

Section Look.
Context `{P : Platform}.

(** The top [nb] of the [k] bits peeked at are the next [nb] bits, even when fewer than [k] bits are left. *)
Lemma lookFast_top d size k nb :
  d_wf d size -> 1 <= nb <= k -> k < 32 -> nb + d_bitsConsumed d <= regBits ->
  exists v, BIT_lookBitsFast d k = Ok v /\ 0 <= v < 2 ^ k /\ BIT_lookBits d nb = Ok (v / 2 ^ (k - nb)).
Proof.
  intros (_ & _ & _ & _ & _ & Hbc & Hc & _) Hnb Hk Hlt. pose proof reg_ge. rewrite lookBitsFast_shift by lia. eexists. split; [reflexivity|].
  unfold size_t. rewrite !regBits_bytes. set (y := Z.shiftl _ _). assert (0 <= wrap regBits y < 2 ^ regBits) as Hw by (apply wrap_range; lia). split.
  { split; [apply Z.div_pos; [lia|apply pow2_pos; lia]|]. apply Z.div_lt_upper_bound; [apply pow2_pos; lia|]. rewrite <- Z.pow_add_r by lia.
    replace (regBits - k + k) with regBits by lia. lia. }
  rewrite <- lookBitsFast_val by lia. rewrite lookBitsFast_shift by lia. unfold size_t. rewrite regBits_bytes. fold y. f_equal.
  rewrite Z.div_div by (apply Z.pow_nonzero || apply pow2_pos; lia). rewrite <- Z.pow_add_r by lia. do 2 f_equal. lia.
Qed.

(** At least [m] more bits are in the register, or all the stream is. *)
Definition avail (d : BIT_DStream_t) (m : Z) : Prop := d_bitsConsumed d + m <= regBits \/ d_ptr d = Some (d_start d).

Lemma avail_le d m m' : avail d m -> m' <= m -> avail d m'.
Proof. intros [H|H] Hle; [left; lia|by right]. Qed.

Lemma avail_bits d X n nb : d_holds d X n -> avail d nb -> nb <= n -> nb + d_bitsConsumed d <= regBits.
Proof. intros (_ & p & Hp & _ & Hn & _) [H|H] Hle; [lia|]. rewrite Hp in H. injection H as ->. lia. Qed.

Lemma avail_skip d m nb : avail d m -> 0 <= nb -> d_bitsConsumed d + nb < 2 ^ 32 -> 0 <= d_bitsConsumed d -> avail (BIT_skipBits d nb) (m - nb).
Proof. intros [H|H] Hnb Hlt Hbc; [left|by right]. cbn [BIT_skipBits d_bitsConsumed]. rewrite wrap_small by lia. lia. Qed.

Lemma end_of_stream d X : d_holds d X 0 -> BIT_endOfDStream d = true.
Proof. intros (Hb & p & Hp & Hs & Hn & _). unfold BIT_endOfDStream. rewrite Hp. lia. Qed.
End Look.

(** ** Decoding what was encoded *)

Section Decode.
Context `{P : Platform}.
Variables (dt : list Z) (k : Z) (cv cn : Z -> Z).

(** The table decodes the code of [b]: every cell that begins with it holds [b] and its length. *)
Definition decodes (b : Z) : Prop :=
  1 <= cn b <= k /\ 0 <= cv b < 2 ^ cn b /\
  forall v, 0 <= v < 2 ^ k -> v / 2 ^ (k - cn b) = cv b ->
    aget dt (2 * v) = (Ok (cn b) : res Z) /\ aget dt (2 * v + 1) = (Ok b : res Z).

Hypothesis Hk : 1 <= k <= 12.

Lemma decoded_bits l : Forall decodes l -> 0 <= sbits cn l <= zlen l * k /\ 0 <= sval cv cn l < 2 ^ sbits cn l.
Proof.
  induction 1 as [|b l (Hn & Hv & _) Hl [IH1 IH2]]; cbn [sbits sval]; [unfold zlen; simpl; lia|]. rewrite zlen_cons. split; [lia|].
  rewrite Z.pow_add_r by lia. assert (0 < 2 ^ sbits cn l) by lia. nia.
Qed.

(** The stream [d] holds the codes of [l]. *)
Definition pending (d : BIT_DStream_t) (size : Z) (l : list Z) : Prop :=
  d_wf d size /\ d_holds d (d_image d size) (sbits cn l) /\ d_image d size mod 2 ^ sbits cn l = sval cv cn l.

Lemma decodeSymbol_spec d size b l m :
  decodes b -> Forall decodes l -> pending d size (b :: l) -> avail d m -> k <= m ->
  exists d', HUF_decodeSymbolX1 dt k d = Ok (b, d') /\ pending d' size l /\ avail d' (m - k).
Proof.
  intros (Hn & Hv & Hcell) Hl (Hwf & Hh & HX) Hav Hm. destruct (decoded_bits l Hl) as [Hb Hs]. cbn [sbits sval] in Hh, HX. pose proof reg_ge.
  assert (cn b + d_bitsConsumed d <= regBits) as Hfit by (eapply avail_bits; [exact Hh|apply (avail_le d m); [done|lia]|lia]).
  destruct (lookFast_top d size k (cn b) Hwf) as (v & Hlook & Hvr & Htop); [lia..|].
  rewrite (lookBits_val d size (d_image d size) (sbits cn l + cn b) (cn b)) in Htop by (done || lia). injection Htop as Htop. replace (sbits cn l + cn b - cn b) with (sbits cn l) in Htop by lia.
  set (X := d_image d size) in *. set (N := sbits cn l) in *. assert (0 < 2 ^ N) by lia.
  assert ((X / 2 ^ N) mod 2 ^ cn b = cv b) as Hcode.
  { rewrite <- (mod_div_mod X N (cn b) (N + cn b)) by lia. rewrite HX, Z.add_comm, Z.div_add_l, Z.div_small, Z.add_0_r by lia. by apply Z.mod_small. }
  destruct (Hcell v Hvr) as [Hc0 Hc1]; [congruence|]. unfold HUF_decodeSymbolX1. rewrite Hlook. cbn [obind]. rewrite Hc1, Hc0. cbn [obind].
  eexists. split; [reflexivity|]. assert (0 <= d_bitsConsumed d) by (unfold d_wf in Hwf; tauto).
  assert (d_bitsConsumed d + cn b < 2 ^ 32) by (destruct regBits_cases as [E|E]; rewrite E in *; lia).
  destruct (skipBits_wf d size (cn b) Hwf) as (Hwf' & (Hm' & Hst' & _) & Hbc'); [lia|done|].
  split; [|apply (avail_le _ (m - cn b)); [by apply avail_skip; try lia|lia]].
  assert (d_image (BIT_skipBits d (cn b)) size = X) as HX' by (unfold X, d_image; by rewrite Hm', Hst').
  split; [done|]. rewrite HX'. split.
  - pose proof (skipBits_holds d _ _ (cn b) Hh ltac:(lia) ltac:(lia) Hfit) as Hh'. by replace (N + cn b - cn b) with N in Hh' by lia.
  - rewrite <- (Z.mod_small (sval cv cn l) (2 ^ N)) by lia. rewrite <- (Z.mod_add (sval cv cn l) (cv b)) by lia. rewrite <- HX.
    rewrite Z.pow_add_r, Z.rem_mul_r by (lia || apply Z.pow_nonzero || apply pow2_pos; lia). by rewrite (Z.mul_comm (2 ^ N)), Z.mod_add, Z.mod_mod by lia.
Qed.

Lemma reload_pending d size l :
  Forall decodes l -> pending d size l ->
  exists st d', BIT_reloadDStream d = Ok (st, d') /\ pending d' size l /\ avail d' (regBits - 7) /\
    (st <> BIT_DStream_unfinished -> d_ptr d' = Some (d_start d')).
Proof.
  intros Hl (Hwf & Hh & HX). destruct (reloadDStream_spec d size Hwf) as (st & d' & Hre & Hwf' & (Hm & Hs & _) & Hov & _ & Hrel).
  pose proof Hh as (Hbc & _). destruct Hrel as (_ & Hkeep & Hfull & Hunf & Hcomp & Hend); [rewrite Hov; lia|].
  assert (d_image d' size = d_image d size) as Himg by (unfold d_image; by rewrite Hm, Hs).
  exists st, d'. split; [done|]. split; [unfold pending; rewrite Himg; split; [done|split; [by apply Hkeep|done]]|]. rewrite <- Hs in *.
  split; [unfold avail; destruct Hfull; [left; lia|by right]|].
  intros Hne. destruct st; [done|by apply Hend| |].
  - destruct (proj1 Hcomp eq_refl) as [Hb Hp]. destruct (Hkeep _ Hh) as (_ & p' & Hp' & Hsp' & Hn' & _). destruct Hh as (_ & p & Hp2 & _ & Hn & _).
    rewrite Hp in Hp2. injection Hp2 as <-. rewrite Hp'. f_equal. destruct Hwf' as (_ & _ & _ & _ & _ & Hb' & _). rewrite <- Hs in Hn. destruct Hfull as [?|Hq]; [|congruence]. pose proof reg_ge. lia.
  - exfalso. pose proof (proj1 Hov eq_refl). lia.
Qed.

(** The symbols [T] are to appear at [dst]. *)
Variables (T : list Z) (dst : Z).
Hypothesis HT : Forall decodes T.
Hypothesis Hdst : 0 <= dst.

Definition right_at (out : list Z) (i : Z) : Prop := out !! Z.to_nat i = T !! Z.to_nat (i - dst).

(** Only right symbols were written. *)
Definition better (out out' : list Z) : Prop :=
  zlen out' = zlen out /\ forall i, 0 <= i -> out' !! Z.to_nat i = out !! Z.to_nat i \/ dst <= i < dst + zlen T /\ right_at out' i.

Lemma better_refl out : better out out.
Proof. split; [done|]. by left. Qed.

Lemma better_right out out' i : better out out' -> 0 <= i -> right_at out i -> right_at out' i.
Proof. intros [_ H] Hi Hr. destruct (H i Hi) as [E|[_ E]]; [|done]. unfold right_at in *. congruence. Qed.

Lemma better_trans o1 o2 o3 : better o1 o2 -> better o2 o3 -> better o1 o3.
Proof.
  intros [Hz H] [Kz K]. split; [congruence|]. intros i Hi. destruct (K i Hi) as [E|E]; [|by right]. destruct (H i Hi) as [E'|[Hr E']]; [left; congruence|].
  right. split; [done|]. unfold right_at in *. congruence.
Qed.

#[export] Instance better_preorder : PreOrder better.
Proof. split; [intros out; apply better_refl|intros o1 o2 o3; apply better_trans]. Qed.

(** The result of writing all of them. *)
Lemma better_all out out' : dst + zlen T <= zlen out -> better out out' -> (forall i, dst <= i < dst + zlen T -> right_at out' i) -> out' = splice out dst T.
Proof.
  intros Hl [Hz Hb] Hr. apply list_eq. intros n. unfold splice, zlen in *. destruct (decide (n < Z.to_nat dst)%nat).
  - rewrite lookup_app_l by (rewrite length_take; lia). rewrite lookup_take_lt by lia. destruct (Hb (Z.of_nat n) ltac:(lia)) as [E|[? _]]; [|lia]. by rewrite Nat2Z.id in E.
  - rewrite lookup_app_r by (rewrite length_take; lia). rewrite length_take. replace (Z.to_nat dst `min` length out)%nat with (Z.to_nat dst) by lia.
    destruct (decide (n < Z.to_nat dst + length T)%nat).
    + rewrite lookup_app_l by lia. pose proof (Hr (Z.of_nat n) ltac:(lia)) as E. unfold right_at in E. rewrite Nat2Z.id in E. rewrite E. f_equal. lia.
    + rewrite lookup_app_r by lia. rewrite lookup_drop. replace (Z.to_nat dst + length T + (n - Z.to_nat dst - length T))%nat with n by lia.
      destruct (Hb (Z.of_nat n) ltac:(lia)) as [E|[? _]]; [|lia]. by rewrite Nat2Z.id in E.
Qed.

(** A stream of [size] bytes holds the symbols from the output pointer to [pEnd]; those from [p0] on are written. *)
Section OneStream.
Variables (out0 : list Z) (size p0 pEnd : Z).
Hypothesis Hp0 : dst <= p0 <= pEnd.
Hypothesis HpEnd : pEnd <= dst + zlen T.
Hypothesis Hroom : dst + zlen T <= zlen out0.

Definition rest (p : Z) : list Z := slice T (p - dst) (pEnd - p).

Definition dec (st : x1_state) (m : Z) : Prop :=
  p0 <= x_op st <= pEnd /\ pending (x_bitD st) size (rest (x_op st)) /\ avail (x_bitD st) m /\
  better out0 (x_out st) /\ forall i, p0 <= i < x_op st -> right_at (x_out st) i.

Lemma rest_decodes p : Forall decodes (rest p).
Proof. unfold rest, slice. by apply Forall_take, Forall_drop. Qed.

Lemma dec_avail st m m' : dec st m -> avail (x_bitD st) m' -> dec st m'.
Proof. intros (H1 & H2 & _ & H4) Hav. exact (conj H1 (conj H2 (conj Hav H4))). Qed.

Lemma rest_cons p : p0 <= p < pEnd -> exists b, T !! Z.to_nat (p - dst) = Some b /\ decodes b /\ rest p = b :: rest (p + 1).
Proof.
  intros Hp. destruct (lookup_lt_is_Some_2 T (Z.to_nat (p - dst))) as [b Hb]; [unfold zlen in *; lia|]. exists b. split; [done|].
  split; [by apply (Forall_lookup_1 _ _ _ _ HT Hb)|]. unfold rest. rewrite (slice_cons _ _ _ b) by (done || lia). f_equal. f_equal; lia.
Qed.

Lemma decode_one st m :
  dec st m -> x_op st < pEnd -> k <= m -> wp (HUF_DECODE_SYMBOLX1_0 dt k st) (fun st' => dec st' (m - k) /\ x_op st' = x_op st + 1) (fun _ => False).
Proof.
  intros (Hop & Hpe & Hav & Hbe & Hri) Hlt Hm. destruct (rest_cons (x_op st)) as (b & HTb & Hdb & Hrest); [lia|].
  rewrite Hrest in Hpe. destruct (decodeSymbol_spec (x_bitD st) size b _ m Hdb (rest_decodes _) Hpe Hav Hm) as (d' & Hd & Hpe' & Hav').
  unfold HUF_DECODE_SYMBOLX1_0. rewrite Hd. cbn [obind]. pose proof Hbe as [Hz _]. rewrite aset_Ok by lia. cbn [obind wp x_op]. split; [|done].
  assert (right_at (<[Z.to_nat (x_op st):=b]> (x_out st)) (x_op st)) as Hnew by (unfold right_at; rewrite HTb; apply lookup_insert_Z; lia).
  assert (better (x_out st) (<[Z.to_nat (x_op st):=b]> (x_out st))) as Hbe'.
  { split; [apply zlen_insert|]. intros i Hi. destruct (decide (i = x_op st)) as [->|Hne]; [right; split; [lia|done]|left]. apply list_lookup_insert_ne. lia. }
  unfold dec; cbn [x_op x_bitD x_out]. split; [lia|]. split; [done|]. split; [done|]. split; [by eapply better_trans|].
  intros i Hi. destruct (decide (i = x_op st)) as [->|Hne]; [done|]. apply (better_right (x_out st)); [done|lia|apply Hri; lia].
Qed.

Lemma decode_four_spec st :
  dec st (regBits - 7) -> x_op st < pEnd - 3 -> wp (decode_four dt k st) (fun st' => dec st' 0 /\ x_op st < x_op st') (fun _ => False).
Proof.
  intros Hd Hlt. unfold decode_four, HUF_DECODE_SYMBOLX1_2, HUF_DECODE_SYMBOLX1_1, HUF_TABLELOG_MAX. cbn [Z.leb Z.compare Pos.compare Pos.compare_cont]. rewrite orb_true_r.
  assert (forall st1 j, (dec st1 (regBits - 7 - j * k) /\ x_op st1 = x_op st + j) -> 0 <= j <= 3 -> (j + 1) * k + 7 <= regBits ->
    wp (HUF_DECODE_SYMBOLX1_0 dt k st1) (fun st2 => dec st2 (regBits - 7 - (j + 1) * k) /\ x_op st2 = x_op st + (j + 1)) (fun _ => False)) as Hstep.
  { intros st1 j [Hd1 Ho1] Hj Hf. eapply wp_mono; [apply (decode_one st1 _ Hd1); lia| |done]. cbn beta. intros st2 [Hd2 Ho2]. split; [|lia].
    by replace (regBits - 7 - (j + 1) * k) with (regBits - 7 - j * k - k) by lia. }
  assert (forall st' j, dec st' (regBits - 7 - j * k) /\ x_op st' = x_op st + j -> 0 < j -> j * k + 7 <= regBits -> dec st' 0 /\ x_op st < x_op st') as Hlast.
  { intros st' j [Hd' Ho'] Hj Hf. split; [|lia]. eapply dec_avail; [exact Hd'|]. eapply avail_le; [apply Hd'|lia]. }
  assert (dec st (regBits - 7 - 0 * k) /\ x_op st = x_op st + 0) as H0 by (rewrite Z.mul_0_l, Z.sub_0_r; split; [done|lia]).
  assert (regBits = if MEM_64bits then 64 else 32) as Hreg by (unfold regBits, sizeof_size_t; by destruct MEM_64bits). destruct MEM_64bits.
  - apply wp_bind. eapply wp_mono; [apply (Hstep st 0 H0); lia| |done]. intros s1 H1. apply wp_bind. eapply wp_mono; [apply (Hstep s1 _ H1); lia| |done]. intros s2 H2.
    apply wp_bind. eapply wp_mono; [apply (Hstep s2 _ H2); lia| |done]. intros s3 H3. eapply wp_mono; [apply (Hstep s3 _ H3); lia| |done]. intros s4 H4. apply (Hlast s4 _ H4); lia.
  - cbn [obind]. apply wp_bind. eapply wp_mono; [apply (Hstep st 0 H0); lia| |done]. intros s1 H1. cbn [obind].
    eapply wp_mono; [apply (Hstep s1 _ H1); lia| |done]. intros s2 H2. apply (Hlast s2 _ H2); lia.
Qed.

Lemma reload_dec st m : dec st m ->
  wp (reload_x1 st) (fun r => dec r.2 (regBits - 7) /\ x_op r.2 = x_op st /\
    (r.1 <> BIT_DStream_unfinished -> d_ptr (x_bitD r.2) = Some (d_start (x_bitD r.2)))) (fun _ => False).
Proof.
  intros (Hop & Hpe & Hav & Hbe & Hri). destruct (reload_pending (x_bitD st) size _ (rest_decodes _) Hpe) as (s & d' & Hre & Hpe' & Hav' & Hend).
  unfold reload_x1. rewrite Hre. cbn [obind wp fst snd x_op x_bitD]. split; [|done]. unfold dec; cbn [x_op x_bitD x_out]. done.
Qed.

Lemma while_spec limit body st :
  limit <= pEnd -> (forall st, dec st (regBits - 7) -> x_op st < limit -> wp (body st) (fun st' => dec st' 0 /\ x_op st < x_op st') (fun _ => False)) -> dec st 0 ->
  wp (loop (S (Z.to_nat (pEnd - x_op st))) (while_unfinished limit body) st)
    (fun st' => dec st' (regBits - 7) /\ (limit <= x_op st' \/ d_ptr (x_bitD st') = Some (d_start (x_bitD st')))) (fun _ => False).
Proof.
  intros Hlim Hbody Hd. apply (wp_loop (fun st => dec st 0) (fun st => pEnd - x_op st)); [done|unfold dec in Hd; lia|intros s (? & _); lia|].
  intros s Hs. unfold while_unfinished. apply wp_bind. eapply wp_mono; [apply (reload_dec s 0 Hs)| |done]. cbn beta. intros [r s'] (Hd' & Hop' & Hend). cbn [fst snd] in *.
  destruct (bool_decide_reflect (r = BIT_DStream_unfinished)) as [->|Hne]; cbn [andb].
  2: { cbn [wp]. split; [done|right; auto]. }
  destruct (Z.ltb_spec (x_op s') limit); [|cbn [wp]; split; [done|by left]].
  apply wp_bind. eapply wp_mono; [apply (Hbody s' Hd'); lia| |done]. cbn beta. intros s2 [Hd2 Hlt2]. cbn [wp]. split; [done|lia].
Qed.

(** The whole stream is decoded, to its last bit. *)
Lemma decodeStreamX1_spec st :
  dec st 0 ->
  wp (HUF_decodeStreamX1 dt k st pEnd)
    (fun r => r.1 = pEnd - x_op st /\ dec r.2 0 /\ x_op r.2 = pEnd /\ BIT_endOfDStream (x_bitD r.2) = true) (fun _ => False).
Proof.
  intros Hd. pose proof Hd as (Hop & _). unfold HUF_decodeStreamX1. cbn zeta. pose proof reg_ge as Hreg.
  assert (MEM_64bits = true -> regBits = 64) as H64 by (unfold regBits, sizeof_size_t; intros ->; done).
  assert (forall st m, dec st m -> avail (x_bitD st) ((pEnd - x_op st) * k) -> dec st ((pEnd - x_op st) * k)) as Hkeep by (intros; by eapply dec_avail).
  apply wp_bind. eapply (wp_mono _ (fun s => dec s (regBits - 7) /\ (MEM_64bits = true -> avail (x_bitD s) ((pEnd - x_op s) * k))) _ (fun _ => False)); [| |done].
  { assert (forall s, dec s (regBits - 7) -> pEnd - 3 <= x_op s -> MEM_64bits = true -> avail (x_bitD s) ((pEnd - x_op s) * k)) as Hnear.
    { intros s Hs Hnear E. eapply avail_le; [apply Hs|]. rewrite H64 by done. nia. }
    destruct (Z.ltb_spec 3 (pEnd - x_op st)).
    - eapply wp_mono; [apply (while_spec (pEnd - 3)); [lia|intros; by apply decode_four_spec|done]| |done]. cbn beta. intros s [Hs [Hlim|Hend]]; (split; [done|]).
      + by apply Hnear.
      + intros _. by right.
    - apply wp_bind. eapply wp_mono; [apply (reload_dec st 0 Hd)| |done]. cbn beta. intros [r s] (Hs & Hops & Hend). cbn [fst snd wp] in *. split; [done|]. apply Hnear; [done|lia]. }
  intros s1 [Hs1 Hav1]. apply wp_bind. eapply (wp_mono _ (fun s => dec s ((pEnd - x_op s) * k)) _ (fun _ => False)); [| |done].
  { unfold MEM_32bits. destruct MEM_64bits; cbn [negb]; [cbn [wp]; eapply Hkeep; [exact Hs1|auto]|].
    eapply wp_mono; [apply (while_spec pEnd); [lia| |]| |done].
    - intros s Hs Hlt. eapply wp_mono; [apply (decode_one s _ Hs Hlt); lia| |done]. cbn beta. intros s' [Hs' Ho']. split; [|lia].
      eapply dec_avail; [exact Hs'|]. eapply avail_le; [apply Hs'|lia].
    - eapply dec_avail; [exact Hs1|]. eapply avail_le; [apply Hs1|lia].
    - cbn beta. intros s [Hs Hexit]. eapply Hkeep; [exact Hs|]. destruct Hexit as [Hlim|Hend]; [|by right]. eapply avail_le; [apply Hs|]. destruct Hs as (Ho & _). nia. }
  intros s2 Hs2. apply wp_bind. eapply (wp_mono _ (fun s => dec s 0 /\ x_op s = pEnd) _ (fun _ => False)); [| |done].
  { apply (wp_loop (fun s => dec s ((pEnd - x_op s) * k)) (fun s => pEnd - x_op s)); [done|destruct Hs2; lia|intros s (? & _); lia|].
    intros s Hs. pose proof Hs as (Ho & _). destruct (Z.ltb_spec (x_op s) pEnd) as [Hlt|Hge].
    - apply wp_bind. eapply wp_mono; [apply (decode_one s _ Hs Hlt); nia| |done]. cbn beta. intros s' [Hs' Ho']. cbn [wp]. split; [|lia].
      rewrite Ho'. by replace ((pEnd - (x_op s + 1)) * k) with ((pEnd - x_op s) * k - k) by lia.
    - cbn [wp]. split; [|lia]. eapply dec_avail; [exact Hs|]. eapply avail_le; [apply Hs|nia]. }
  intros s3 [Hs3 Ho3]. cbn [wp fst snd]. split; [done|]. split; [done|]. split; [done|]. destruct Hs3 as (_ & (_ & Hh & _) & _). rewrite Ho3 in Hh.
  unfold rest in Hh. rewrite Z.sub_diag in Hh. by eapply end_of_stream.
Qed.
End OneStream.
End Decode.

(** ** The two tables of a header agree *)

Section Agree.
Context `{P : Platform} (hdr : list Z) (hdrStart hdrSize : Z) (s : huf_stats).
Context (Hread : HUF_readStats (replicate (Z.to_nat (HUF_SYMBOLVALUE_MAX + 1)) 0) (HUF_SYMBOLVALUE_MAX + 1)
              (replicate (Z.to_nat (HUF_TABLELOG_ABSOLUTEMAX + 1)) 0) hdr hdrStart hdrSize = Ok s).
Context (Hst : stats_ok 256 hdrSize s).

Definition weight_of (b : Z) : Z := default 0 (weights_of s !! Z.to_nat b).
Definition code_val (b : Z) : Z := code_of (weights_of s) (Z.to_nat b) (weight_of b).
Definition code_len (b : Z) : Z := hs_tableLog s + 1 - weight_of b.
Definition has_code (b : Z) : Prop := 0 <= b /\ weight_of b <> 0.

Lemma has_code_lookup b : has_code b -> weights_of s !! Z.to_nat b = Some (weight_of b).
Proof. intros [_ Hw]. unfold weight_of in *. by destruct (weights_of s !! Z.to_nat b). Qed.

Lemma read_both CTable maxSymbolValue DTable wkspSize r1 C m z r2 D :
  maxSymbolValue + 1 <= zlen (hct_ct CTable) -> 0 <= dtd_maxTableLog DTable <= 11 -> 2 * 2 ^ (dtd_maxTableLog DTable + 1) <= zlen (hdt_cells DTable) ->
  HUF_readCTable CTable maxSymbolValue hdr hdrStart hdrSize = Ok (r1, C, m, z) ->
  HUF_readDTableX1_wksp DTable hdr hdrStart hdrSize wkspSize = Ok (r2, D) ->
  h_tableLog (HUF_readCTableHeader C) = hs_tableLog s /\ h_maxSymbolValue (HUF_readCTableHeader C) = zlen (weights_of s) - 1 /\
  1 <= hs_tableLog s <= 12 /\ 1 <= dtd_tableLog D <= 12 /\
  (forall b, 0 <= b < zlen (weights_of s) -> (exists e, aget (hct_ct C) b = (Ok e : res Z) /\ (HUF_getNbBits e <> 0 -> has_code b /\ HUF_getNbBits e = code_len b))) /\
  (forall b, has_code b -> coded (hct_ct C) (hs_tableLog s) code_val code_len b /\ decodes (hdt_cells D) (dtd_tableLog D) code_val code_len b).
Proof.
  intros Hct Hm Hcells HC HD. destruct (stats_code hdrSize s Hst) as (Hok & Hz & Hpre & Hr). pose proof Hok as (Hk & Hzw & _). unfold HUF_TABLELOG_MAX in Hk.
  assert (sizeof_ReadDTableX1_Workspace <= wkspSize) as Hwk.
  { unfold HUF_readDTableX1_wksp in HD. destruct (Z.ltb_spec wkspSize sizeof_ReadDTableX1_Workspace); [done|lia]. }
  assert (hs_nbSymbols s <= maxSymbolValue + 1) as Hms.
  { unfold HUF_readCTable in HC. rewrite Hread in HC. cbn [obind] in HC. apply bind_Ok in HC as (r0 & _ & HC). apply bind_Ok in HC as (? & _ & HC).
    destruct (Z.ltb_spec (maxSymbolValue + 1) (hs_nbSymbols s)); [done|lia]. }
  destruct (readCTable_spec hdr hdrStart hdrSize s Hread Hst CTable maxSymbolValue Hms Hct) as (C' & HC' & Hhdr & Hcell). rewrite HC in HC'. injection HC' as -> <- -> ->.
  pose proof (readDTableX1_spec hdr hdrStart hdrSize s Hread Hst DTable wkspSize Hm Hcells Hwk) as Hdt. cbn zeta in Hdt.
  set (k := hs_tableLog s) in *. set (k' := dtable_log s (dtd_maxTableLog DTable)) in *.
  destruct (Z.ltb_spec (dtd_maxTableLog DTable + 1) k) as [?|Hfit]; [congruence|]. destruct Hdt as (D' & HD' & Hlog & _ & _ & Hrows). rewrite HD in HD'. injection HD' as -> <-.
  assert (k <= k' <= 12) as Hk' by (unfold k', dtable_log, HUF_DECODER_FAST_TABLELOG; fold k; lia).
  unfold HUF_readCTableHeader. rewrite Hhdr, Hlog. cbn [h_tableLog h_maxSymbolValue]. split; [done|]. split; [lia|]. split; [lia|]. split; [lia|].
  assert (forall b, has_code b -> 1 <= weight_of b <= k) as Hwr.
  { intros b Hb. pose proof (weight_range _ _ Hok _ _ (has_code_lookup b Hb)). destruct Hb as [_ Hw]. lia. }
  split.
  - intros b Hb. destruct (lookup_lt_is_Some_2 (weights_of s) (Z.to_nat b)) as [w Hw]; [unfold zlen in *; lia|].
    pose proof (Hcell _ _ Hw) as He. eexists. split; [apply aget_Ok; split; [lia|exact He]|]. assert (weight_of b = w) as Hwb by (unfold weight_of; by rewrite Hw).
    destruct (Z.eqb_spec w 0) as [->|Hnz]; [done|]. intros _. assert (has_code b) as Hhb by (split; [lia|congruence]). split; [done|].
    pose proof (code_range _ _ Hok _ _ Hw Hnz). pose proof (Hwr b Hhb). unfold code_len. rewrite Hwb in *. apply getNbBits_celt; [done|fold k; lia].
  - intros b Hb. pose proof (has_code_lookup b Hb) as Hw. pose proof (Hwr b Hb) as Hwb. pose proof Hb as [Hb0 Hnz].
    pose proof (code_range _ _ Hok _ _ Hw Hnz) as Hcr. fold (code_val b) in Hcr. fold k in Hcr. fold (code_len b) in Hcr. split.
    + split; [|split; [unfold code_len; fold k; lia|done]]. apply aget_Ok. split; [lia|]. rewrite (Hcell _ _ Hw). by rewrite (proj2 (Z.eqb_neq _ 0)) by lia.
    + split; [unfold code_len; fold k; lia|]. split; [done|]. intros v Hv Hdiv. set (ws' := rescaled (k' - k) (weights_of s)) in *. set (w' := weight_of b + (k' - k)).
      assert (code_ok ws' k') as Hok'.
      { replace k' with (k + (k' - k)) by lia. apply rescaled_ok; [lia|done|unfold HUF_TABLELOG_MAX; lia]. }
      assert (ws' !! Z.to_nat b = Some w') as Hw'.
      { unfold ws', rescaled. rewrite list_lookup_fmap, Hw. cbn [fmap option_fmap option_map]. by rewrite (proj2 (Z.eqb_neq _ 0)) by lia. }
      assert (code_of ws' (Z.to_nat b) w' = code_val b) as Hcode by (apply (code_rescaled (k' - k) ltac:(lia) _ k); done).
      assert (w' <> 0) as Hnz' by (unfold w'; lia). pose proof (first_cell_code ws' k' Hok' _ _ Hw' Hnz') as Hfc. rewrite Hcode in Hfc.
      replace (k' - code_len b) with (w' - 1) in Hdiv by (unfold code_len, w'; fold k; lia).
      pose proof (Z.div_mod v (2 ^ (w' - 1)) ltac:(apply Z.pow_nonzero; lia)) as Hdm. pose proof (Z.mod_pos_bound v (2 ^ (w' - 1)) ltac:(apply pow2_pos; lia)) as Hmb. rewrite Hdiv in Hdm.
      destruct (rows_lookup ws' k' Hok' _ _ v Hw') as [Hc0 Hc1]; [lia|lia|]. destruct Hrows as [tail Htail]. rewrite Htail.
      replace (k' + 1 - w') with (code_len b) in Hc0 by (unfold code_len, w'; fold k; lia). rewrite Z2Nat.id in Hc1 by lia.
      split; apply aget_Ok; (split; [lia|]); by apply lookup_app_l_Some.
Qed.
End Agree.

(** ** Opening and closing *)

Section RoundTrip.
Context `{P : Platform}.

(** The codes of [T] with the end mark, as bytes, are a stream that holds [T]. *)
Lemma open_pending dt k cv cn T mem start :
  let N := sbits cn T in
  1 <= k <= 12 -> Forall (decodes dt k cv cn) T -> bytes mem -> 0 <= start -> start + (N / 8 + 1) <= zlen mem -> le_val (slice mem start (N / 8 + 1)) = sval cv cn T + 2 ^ N ->
  exists d, BIT_initDStream mem start (N / 8 + 1) = Ok d /\ pending cv cn d (N / 8 + 1) T /\ avail d (regBits - 8).
Proof.
  intros N Hk HT Hb Hs Hl Himg. destruct (decoded_bits dt k cv cn Hk T HT) as [HN HV]. fold N in HN, HV. set (V := sval cv cn T) in *.
  assert (0 < 2 ^ N) by (apply pow2_pos; lia). assert (0 <= N / 8) by (apply Z.div_pos; lia).
  assert (Z.log2 (V + 2 ^ N) = N) as Hlog.
  { replace (V + 2 ^ N) with (V + 2 ^ N * 1) by lia. rewrite log2_add_high by lia. simpl. lia. }
  destruct (top_byte_nonzero mem start N V) as (last & Hlast & Hne); try done; try lia.
  destruct (initDStream_spec mem start (N / 8 + 1) last) as (d & Hd & Hcons & Hwf & Hdm & Hds & Hdh); try done; try lia.
  rewrite Himg, Hlog in Hdh. exists d. split; [done|]. assert (d_image d (N / 8 + 1) = V + 2 ^ N) as HX by (unfold d_image; by rewrite Hdm, Hds). split.
  - split; [done|]. rewrite HX. split; [done|]. fold N V. replace (V + 2 ^ N) with (V + 1 * 2 ^ N) by lia. by rewrite Z.mod_add, Z.mod_small by lia.
  - unfold avail. destruct Hcons; [left; lia|by right].
Qed.

Lemma decompress1X1_spec D cv cn T mem start out dst :
  let N := sbits cn T in
  1 <= dtd_tableLog D <= 12 -> Forall (decodes (hdt_cells D) (dtd_tableLog D) cv cn) T ->
  bytes mem -> 0 <= start -> start + (N / 8 + 1) <= zlen mem -> le_val (slice mem start (N / 8 + 1)) = sval cv cn T + 2 ^ N ->
  0 <= dst -> dst + zlen T <= zlen out ->
  HUF_decompress1X1_usingDTable_internal_body out dst (zlen T) mem start (N / 8 + 1) D = Ok (zlen T, splice out dst T).
Proof.
  intros N Hk HT Hb Hs Hl Himg Hd Hroom. pose proof (zlen_nonneg T).
  destruct (open_pending _ _ cv cn T mem start Hk HT Hb Hs Hl Himg) as (d & Hopen & Hpend & Hav). fold N in Hopen, Hpend.
  unfold HUF_decompress1X1_usingDTable_internal_body. rewrite Hopen. cbn [obind].
  destruct (wp_exists _ _ (decodeStreamX1_spec (hdt_cells D) (dtd_tableLog D) cv cn Hk T dst HT Hd out (N / 8 + 1) dst (dst + zlen T)
    ltac:(lia) ltac:(lia) Hroom {| x_out := out; x_op := dst; x_bitD := d |}
    ltac:(split; [cbn [x_op]; lia|]; cbn [x_op x_bitD x_out]; unfold rest; rewrite Z.sub_diag, Z.add_simpl_l; unfold slice; rewrite drop_0, take_ge by (unfold zlen; lia);
      split; [exact Hpend|]; split; [eapply avail_le; [exact Hav|pose proof reg_ge; lia]|]; split; [apply better_refl|lia])))
    as ([n st] & -> & _ & Hdec & Hop & Hend). cbn [fst snd obind] in *. rewrite Hend. cbn [negb reject_if obind]. do 2 f_equal.
  destruct Hdec as (_ & _ & _ & Hbe & Hri). apply (better_all T dst Hd); [done|done|]. intros i Hi. apply Hri. lia.
Qed.

(** The sum over the symbols is the sum over the occurrences. *)
Fixpoint weighted (cn : Z -> Z) (l : list Z) (n : nat) : Z :=
  match n with
  | O => 0
  | S n => weighted cn l n + cn (Z.of_nat n) * count_sym (Z.of_nat n) l
  end.

Lemma weighted_cons cn b l n : weighted cn (b :: l) n = weighted cn l n + (if (0 <=? b) && (b <? Z.of_nat n) then cn b else 0).
Proof.
  induction n as [|n IH]; cbn [weighted]; [destruct (Z.leb_spec 0 b), (Z.ltb_spec b (Z.of_nat 0)); cbn [andb]; lia|]. rewrite IH, count_sym_cons.
  destruct (decide (b = Z.of_nat n)) as [->|Hne];
    [destruct (Z.leb_spec 0 (Z.of_nat n)), (Z.ltb_spec (Z.of_nat n) (Z.of_nat n)), (Z.ltb_spec (Z.of_nat n) (Z.of_nat (S n)))
    |destruct (Z.leb_spec 0 b), (Z.ltb_spec b (Z.of_nat n)), (Z.ltb_spec b (Z.of_nat (S n)))]; cbn [andb]; lia.
Qed.

Lemma weighted_sbits cn l n : Forall (fun b => 0 <= b < Z.of_nat n) l -> weighted cn l n = sbits cn l.
Proof.
  induction 1 as [|b l Hb Hl IH]; cbn [sbits].
  - induction n as [|n IH]; [done|]. cbn [weighted]. rewrite IH. change (count_sym (Z.of_nat n) []) with 0. lia.
  - rewrite weighted_cons, IH. by replace ((0 <=? b) && (b <? Z.of_nat n)) with true by lia.
Qed.

Lemma weighted_mono cn l n m : (forall b, 0 <= b < Z.of_nat m -> 0 <= cn b * count_sym b l) -> (n <= m)%nat -> 0 <= weighted cn l n <= weighted cn l m.
Proof.
  intros Hp Hle. induction Hle as [|m Hle IH]; cbn [weighted].
  - split; [|done]. induction n as [|n IH]; cbn [weighted]; [done|]. pose proof (Hp (Z.of_nat n) ltac:(lia)). specialize (IH ltac:(intros; apply Hp; lia)). lia.
  - pose proof (Hp (Z.of_nat m) ltac:(lia)). specialize (IH ltac:(intros; apply Hp; lia)). lia.
Qed.

Section Valid.
Variables (C : HUF_CTable) (count : list Z) (maxSymbolValue : Z) (T : list Z).
Hypothesis Hmax : 0 <= maxSymbolValue.
Hypothesis Hcount : forall s, 0 <= s <= maxSymbolValue -> aget count s = (Ok (count_sym s T) : res Z).
Hypothesis Hcells : forall b, 0 <= b <= h_maxSymbolValue (HUF_readCTableHeader C) -> exists e, aget (hct_ct C) b = (Ok e : res Z).

(** What a table that passes [HUF_validateCTable] guarantees. *)
Lemma validate_spec :
  HUF_validateCTable C count maxSymbolValue = Ok true ->
  maxSymbolValue <= h_maxSymbolValue (HUF_readCTableHeader C) /\
  forall b, 0 <= b <= maxSymbolValue -> count_sym b T <> 0 -> exists e, aget (hct_ct C) b = (Ok e : res Z) /\ HUF_getNbBits e <> 0.
Proof.
  unfold HUF_validateCTable. intros H. destruct (_ <=? HUF_TABLELOG_ABSOLUTEMAX); [cbn [oassert obind] in H|done].
  destruct (Z.ltb_spec (h_maxSymbolValue (HUF_readCTableHeader C)) maxSymbolValue) as [|Hle]; [done|]. split; [done|].
  apply bind_Ok in H as (bad & Hbad & H). injection H as Hb. destruct bad; [done|].
  set (good n := forall b, 0 <= b < n -> count_sym b T <> 0 -> exists e, aget (hct_ct C) b = (Ok e : res Z) /\ HUF_getNbBits e <> 0).
  assert (wp (for_range 0 (maxSymbolValue + 1) (fun s bad => let* c := aget count s in let* elt := aget (hct_ct C) s in
    Ok (bad || negb (c =? 0) && (HUF_getNbBits elt =? 0))) false) (fun bad => bad = false -> good (maxSymbolValue + 1)) (fun _ : ZSTD_ErrorCode => False)) as Hw.
  { apply (wp_for_range (fun n bad => bad = false -> good n)); [lia|intros _ b ?; lia|]. intros n bad Hn IH. rewrite Hcount by lia. cbn [obind].
    destruct (Hcells n ltac:(lia)) as (e & He). rewrite He. cbn [obind wp]. intros Hf. apply orb_false_iff in Hf as [-> Hf]. specialize (IH eq_refl).
    intros b Hb' Hc. destruct (decide (b = n)) as [->|]; [exists e; split; [done|]; lia|apply IH; [lia|done]]. }
  pose proof (wp_Ok_inv _ _ _ _ Hw Hbad eq_refl) as Hgood. intros b Hb'. apply Hgood. lia.
Qed.

Lemma estimate_spec cn :
  maxSymbolValue <= h_maxSymbolValue (HUF_readCTableHeader C) ->
  (forall b e, 0 <= b <= maxSymbolValue -> aget (hct_ct C) b = (Ok e : res Z) -> count_sym b T <> 0 -> HUF_getNbBits e = cn b /\ 1 <= cn b) ->
  Forall (fun b => 0 <= b <= maxSymbolValue) T -> sbits cn T < 2 ^ 32 ->
  HUF_estimateCompressedSize C count maxSymbolValue = Ok (sbits cn T / 8).
Proof.
  intros Hle Hlen HT Hfit. pose proof reg_ge. assert (2 ^ 32 <= 2 ^ regBits) by (apply pow_mono; lia).
  assert (weighted cn T (Z.to_nat (maxSymbolValue + 1)) = sbits cn T) as Htot by (apply weighted_sbits; eapply Forall_impl; [exact HT|cbn beta; lia]).
  assert (forall b, 0 <= b < Z.of_nat (Z.to_nat (maxSymbolValue + 1)) -> 0 <= cn b * count_sym b T) as Hpos.
  { intros b Hb. destruct (decide (count_sym b T = 0)) as [->|Hnz]; [lia|]. destruct (Hcells b ltac:(lia)) as (e & He). destruct (Hlen b e ltac:(lia) He Hnz).
    pose proof (count_sym_nonneg b T). nia. }
  unfold HUF_estimateCompressedSize.
  assert (wp (for_range 0 (maxSymbolValue + 1) (fun s nbBits => let* elt := aget (hct_ct C) s in let* c := aget count s in
    Ok (size_t (nbBits + size_t (HUF_getNbBits elt * c)))) 0) (fun r => r = weighted cn T (Z.to_nat (maxSymbolValue + 1))) (fun _ : ZSTD_ErrorCode => False)) as Hw.
  { apply (wp_for_range (fun n r => r = weighted cn T (Z.to_nat n))); [lia|done|]. intros n r Hn ->. destruct (Hcells n ltac:(lia)) as (e & He). rewrite He, Hcount by lia. cbn [obind wp].
    assert (HUF_getNbBits e * count_sym n T = cn n * count_sym n T) as ->.
    { destruct (decide (count_sym n T = 0)) as [->|Hnz]; [lia|]. by destruct (Hlen n e ltac:(lia) He Hnz) as [-> _]. }
    replace (Z.to_nat (n + 1)) with (S (Z.to_nat n)) by lia. cbn [weighted]. rewrite Z2Nat.id by lia.
    pose proof (weighted_mono cn T (Z.to_nat n) (S (Z.to_nat n)) ltac:(intros; apply Hpos; lia) ltac:(lia)) as Hm1. cbn [weighted] in Hm1. rewrite Z2Nat.id in Hm1 by lia.
    pose proof (weighted_mono cn T (S (Z.to_nat n)) (Z.to_nat (maxSymbolValue + 1)) Hpos ltac:(lia)) as Hm2. cbn [weighted] in Hm2. rewrite Z2Nat.id in Hm2 by lia.
    unfold size_t. rewrite !regBits_bytes. rewrite (wrap_small _ (cn n * _)), wrap_small; lia. }
  apply wp_exists in Hw as (r & -> & ->). cbn [obind]. rewrite Htot. by rewrite Z.shiftr_div_pow2 by lia.
Qed.
End Valid.
End RoundTrip.

(** [C] and [D] were read from the weights of one header. *)
Definition same_header `{P : Platform} (C : HUF_CTable) (D : HUF_DTable) : Prop :=
  exists hdr hdrStart hdrSize CTable maxSymbolValue DTable wkspSize r1 m z r2,
    bytes hdr /\ 0 <= hdrStart /\ 0 <= hdrSize /\ hdrStart + hdrSize <= zlen hdr /\
    maxSymbolValue + 1 <= zlen (hct_ct CTable) /\
    0 <= dtd_maxTableLog DTable <= 11 /\ 2 * 2 ^ (dtd_maxTableLog DTable + 1) <= zlen (hdt_cells DTable) /\
    HUF_readCTable CTable maxSymbolValue hdr hdrStart hdrSize = Ok (r1, C, m, z) /\
    HUF_readDTableX1_wksp DTable hdr hdrStart hdrSize wkspSize = Ok (r2, D).

(** [count] is the histogram of [T], and [HUF_validateCTable] accepts the table for it. *)
Definition accepted (C : HUF_CTable) (count : list Z) (maxSym : Z) (T : list Z) : Prop :=
  0 <= maxSym /\ Forall (fun b => 0 <= b <= maxSym) T /\
  (forall s, 0 <= s <= maxSym -> aget count s = (Ok (count_sym s T) : res Z)) /\
  HUF_validateCTable C count maxSym = Ok true.

(** What the encoder and the decoder need of the two tables. *)
Lemma tables_code `{P : Platform} C D count maxSym T :
  same_header C D -> accepted C count maxSym T -> zlen T <= HUF_BLOCKSIZE_MAX ->
  exists cv cn, 1 <= h_tableLog (HUF_readCTableHeader C) <= 12 /\ 1 <= dtd_tableLog D <= 12 /\
    Forall (coded (hct_ct C) (h_tableLog (HUF_readCTableHeader C)) cv cn) T /\ Forall (decodes (hdt_cells D) (dtd_tableLog D) cv cn) T /\
    HUF_estimateCompressedSize C count maxSym = Ok (sbits cn T / 8).
Proof.
  intros (hdr & hdrStart & hdrSize & CTable & maxSymbolValue & DTable & wkspSize & r1 & m & z & r2 & Hb & Hs0 & Hs1 & Hs2 & Hct & Hm & Hcells & HC & HD)
    (Hms & HT & Hcount & Hval) Hsmall.
  destruct (HUF_readStats (replicate (Z.to_nat (HUF_SYMBOLVALUE_MAX + 1)) 0) (HUF_SYMBOLVALUE_MAX + 1) (replicate (Z.to_nat (HUF_TABLELOG_ABSOLUTEMAX + 1)) 0) hdr hdrStart hdrSize)
    as [s| |] eqn:Hread; [|unfold HUF_readCTable in HC; rewrite Hread in HC; done..].
  assert (stats_ok 256 hdrSize s) as Hst.
  { refine (wp_Ok_inv _ _ _ _ (read_weights_safe _ _ _ _ _ _ _ _ _ _ _ _ _ _ _) Hread); try done. apply Forall_replicate; unfold is_byte; lia. }
  destruct (read_both hdr hdrStart hdrSize s Hread Hst CTable maxSymbolValue DTable wkspSize r1 C m z r2 D Hct Hm Hcells HC HD) as (Hlog & Hhm & Hk & Hk' & Hlen & Hcode).
  assert (forall b, 0 <= b <= h_maxSymbolValue (HUF_readCTableHeader C) -> exists e, aget (hct_ct C) b = (Ok e : res Z)) as Hex.
  { intros b Hb'. destruct (Hlen b ltac:(lia)) as (e & He & _). by exists e. }
  destruct (validate_spec C count maxSym T Hms Hcount Hex Hval) as [Hle Hgood].
  assert (Forall (has_code s) T) as Hhc.
  { apply Forall_forall. intros b Hb'. rewrite Forall_forall in HT. destruct (Hgood b (HT b Hb')) as (e & He & Hne).
    - apply list_elem_of_split in Hb' as (l1 & l2 & ->). rewrite count_sym_app, count_sym_cons. destruct (decide (b = b)); [|done].
      pose proof (count_sym_nonneg b l1). pose proof (count_sym_nonneg b l2). lia.
    - specialize (HT b Hb'). destruct (Hlen b ltac:(lia)) as (e' & He' & Hc). rewrite He in He'. injection He' as <-. by apply Hc. }
  exists (code_val s), (code_len s). rewrite Hlog. split; [done|]. split; [done|].
  assert (Forall (coded (hct_ct C) (hs_tableLog s) (code_val s) (code_len s)) T) as Hcoded by (eapply Forall_impl; [exact Hhc|intros b Hb'; by apply Hcode]).
  split; [done|]. split; [eapply Forall_impl; [exact Hhc|intros b Hb'; by apply Hcode]|].
  apply estimate_spec; try done.
  - intros b e Hb' He Hne. destruct (Hgood b Hb' Hne) as (e' & He' & Hn'). rewrite He in He'. injection He' as <-. destruct (Hlen b ltac:(lia)) as (e' & He' & Hc). rewrite He in He'. injection He' as <-.
    destruct (Hc Hn') as [Hhb ->]. split; [done|]. destruct (Hcode b Hhb) as [(_ & ? & _) _]; lia.
  - pose proof (sbits_range _ _ _ _ T Hcoded). unfold HUF_BLOCKSIZE_MAX in Hsmall. nia.
Qed.


(** The header of nine weights above, a table of 256 cells, twelve symbols. *)
Definition sample_header : list Z := [135; 17; 35; 64; 5].
Definition sample_CTable : HUF_CTable := {| hct_header := {| h_tableLog := 0; h_maxSymbolValue := 0 |}; hct_ct := replicate 256 0 |}.
Definition sample_DTable : HUF_DTable :=
  {| dtd_maxTableLog := 7; dtd_tableType := 0; dtd_tableLog := 0; dtd_reserved := 0; hdt_cells := replicate 512 0 |}.

Lemma same_sample : exists C D, same_header (P := arm64_v8a) C D /\
  exists r1 m z r2, HUF_readCTable (P := arm64_v8a) sample_CTable 255 sample_header 0 5 = Ok (r1, C, m, z) /\
    HUF_readDTableX1_wksp (P := arm64_v8a) sample_DTable sample_header 0 5 3000 = Ok (r2, D).
Proof.
  destruct (HUF_readCTable (P := arm64_v8a) sample_CTable 255 sample_header 0 5) as [[[[r1 C] m] z]| |] eqn:HC; [|vm_compute in HC; discriminate..].
  destruct (HUF_readDTableX1_wksp (P := arm64_v8a) sample_DTable sample_header 0 5 3000) as [[r2 D]| |] eqn:HD; [|vm_compute in HD; discriminate..].
  exists C, D. split; [|exists r1, m, z, r2; split; reflexivity]. exists sample_header, 0, 5, sample_CTable, 255, sample_DTable, 3000, r1, m, z, r2.
  split; [eval_bytes|]. split_and!; try done; vm_compute; discriminate.
Defined.

(** The histogram by evaluation. *)
Definition histogram (l : list Z) : list Z := map (fun s => count_sym (Z.of_nat s) l) (seq 0 9).

Lemma accepted_histogram C l :
  forallb (fun b => (0 <=? b) && (b <=? 8)) l = true -> HUF_validateCTable C (histogram l) 8 = Ok true -> accepted C (histogram l) 8 l.
Proof.
  intros Hl Hval. split; [lia|]. split; [apply Forall_forall; intros b Hb; rewrite List.forallb_forall in Hl; apply list_elem_of_In, Hl in Hb; lia|]. split; [|done].
  intros s Hs. apply aget_Ok. split; [lia|]. unfold histogram. rewrite list_lookup_fmap, lookup_seq_lt by lia. cbn [fmap option_fmap option_map]. do 2 f_equal. lia.
Qed.

