(* ===== verification/Huf4X.v ===== *)
(** * huf_compress.c, huf_decompress.c: four Huffman streams

    [HUF_compress4X_usingCTable] cuts the source into four segments, compresses
    each as a stream of its own and puts the sizes of the first three in a jump
    table; [HUF_decompress4X1_usingDTable] decodes the four streams in lock step
    into one output buffer and finishes them one by one. *)
From S2P Require Import Prelude Mem Errors Bits BitStream Fse FseSpread NCount HufStats HufTable HufCode HufStream HufCodec.

Section Definitions.
Context `{P : Platform}.

(** One segment at [op], then the rest of the function; 0 when it does not fit. *)
Definition compress_segment (mem : list Z) (op oend : Z) (src : list Z) (ip n : Z) (CTable : HUF_CTable) (next : Z -> list Z -> res (Z * list Z))
    : res (Z * list Z) :=
  oassert (op <=? oend) ;;;
  let* (cSize, mem) := HUF_compress1X_usingCTable mem op (oend - op) src ip n CTable in
  if (cSize =? 0) || (65535 <? cSize) then Ok (0, mem) else next cSize mem.

Definition HUF_compress4X_usingCTable_internal (mem : list Z) (dst dstSize : Z) (src : list Z) (ip srcSize : Z) (CTable : HUF_CTable)
    : res (Z * list Z) :=
  let segmentSize := size_t (srcSize + 3) / 4 in
  let iend := ip + srcSize in
  let ostart := dst in
  let oend := ostart + dstSize in
  let op := ostart in
  if dstSize <? 6 + 1 + 1 + 1 + 8 then Ok (0, mem)
  else if srcSize <? 12 then Ok (0, mem)
  else
    let op := op + 6 in
    compress_segment mem op oend src ip segmentSize CTable (fun cSize mem =>
    let* mem := MEM_writeLE16 mem ostart (u16 cSize) in
    let op := op + cSize in
    let ip := ip + segmentSize in
    compress_segment mem op oend src ip segmentSize CTable (fun cSize mem =>
    let* mem := MEM_writeLE16 mem (ostart + 2) (u16 cSize) in
    let op := op + cSize in
    let ip := ip + segmentSize in
    compress_segment mem op oend src ip segmentSize CTable (fun cSize mem =>
    let* mem := MEM_writeLE16 mem (ostart + 4) (u16 cSize) in
    let op := op + cSize in
    let ip := ip + segmentSize in
    oassert (ip <=? iend) ;;;
    compress_segment mem op oend src ip (iend - ip) CTable (fun cSize mem =>
    let op := op + cSize in
    Ok (op - ostart, mem))))).

Definition HUF_compress4X_usingCTable := HUF_compress4X_usingCTable_internal.

(** The output and the four streams: output pointer and bit stream. *)
Record x4_state := { y_out : list Z; y_streams : list (Z * BIT_DStream_t) }.

(** A step of one of the streams. *)
Definition on_stream (f : x1_state -> res x1_state) (i : Z) (st : x4_state) : res x4_state :=
  let* (op, d) := aget (y_streams st) i in
  let* s := f {| x_out := y_out st; x_op := op; x_bitD := d |} in
  let* streams := aset (y_streams st) i (x_op s, x_bitD s) in
  Ok {| y_out := x_out s; y_streams := streams |}.

Definition on_each (f : x1_state -> res x1_state) : x4_state -> res x4_state := for_range 0 4 (on_stream f).

(** [endSignal &= BIT_reloadDStreamFast(&bitD) == BIT_DStream_unfinished] *)
Definition reload_fast (i : Z) (st : bool * x4_state) : res (bool * x4_state) :=
  let '(endSignal, st) := st in
  let* (op, d) := aget (y_streams st) i in
  let* (status, d) := BIT_reloadDStreamFast d in
  let* streams := aset (y_streams st) i (op, d) in
  Ok (endSignal && bool_decide (status = BIT_DStream_unfinished), {| y_out := y_out st; y_streams := streams |}).

Section Turn.
Variables (dt : list Z) (dtLog : Z).

(** [for ( ; (endSignal) & (op4 < olimit) ; ) ...] *)
Definition decode_turn4 (olimit : Z) (st : bool * x4_state) : res (bool * x4_state + x4_state) :=
  let '(endSignal, st) := st in
  let* (op4, _) := aget (y_streams st) 3 in
  if endSignal && (op4 <? olimit) then
    let* st := on_each (HUF_DECODE_SYMBOLX1_2 dt dtLog) st in
    let* st := on_each (HUF_DECODE_SYMBOLX1_1 dt dtLog) st in
    let* st := on_each (HUF_DECODE_SYMBOLX1_2 dt dtLog) st in
    let* st := on_each (HUF_DECODE_SYMBOLX1_0 dt dtLog) st in
    let* r := for_range 0 4 reload_fast (endSignal, st) in
    Ok (inl r)
  else Ok (inr st).

(** [HUF_decodeStreamX1(op, &bitD, pEnd, dt, dtLog)] on stream [i]. *)
Definition finish_stream (i pEnd : Z) : x4_state -> res x4_state :=
  on_stream (fun s => let* (_, s) := HUF_decodeStreamX1 dt dtLog s pEnd in Ok s) i.

(** "finish bitStreams one by one" *)
Definition finish_streams (opStart2 opStart3 opStart4 oend : Z) (st : x4_state) : res x4_state :=
  let* st := finish_stream 0 opStart2 st in
  let* st := finish_stream 1 opStart3 st in
  let* st := finish_stream 2 opStart4 st in
  finish_stream 3 oend st.
End Turn.

Definition HUF_decompress4X1_usingDTable_internal_body (out : list Z) (dst dstSize : Z) (cMem : list Z) (cSrc cSrcSize : Z) (DTable : HUF_DTable)
    : res (Z * list Z) :=
  reject_if (cSrcSize <? 10) ZSTD_error_corruption_detected ;;;
  reject_if (dstSize <? 6) ZSTD_error_corruption_detected ;;;
  let istart := cSrc in
  let ostart := dst in
  let oend := ostart + dstSize in
  let olimit := oend - 3 in
  let dt := hdt_cells DTable in
  let* length1 := MEM_readLE16 cMem istart in
  let* length2 := MEM_readLE16 cMem (istart + 2) in
  let* length3 := MEM_readLE16 cMem (istart + 4) in
  let length4 := size_t (cSrcSize - (length1 + length2 + length3 + 6)) in
  let istart1 := istart + 6 in
  let istart2 := istart1 + length1 in
  let istart3 := istart2 + length2 in
  let istart4 := istart3 + length3 in
  let segmentSize := size_t (dstSize + 3) / 4 in
  let opStart2 := ostart + segmentSize in
  let opStart3 := opStart2 + segmentSize in
  let opStart4 := opStart3 + segmentSize in
  let dtLog := dtd_tableLog DTable in
  reject_if (cSrcSize <? length4) ZSTD_error_corruption_detected ;;;
  reject_if (oend <? opStart4) ZSTD_error_corruption_detected ;;;
  oassert (6 <=? dstSize) ;;;
  let* bitD1 := BIT_initDStream cMem istart1 length1 in
  let* bitD2 := BIT_initDStream cMem istart2 length2 in
  let* bitD3 := BIT_initDStream cMem istart3 length3 in
  let* bitD4 := BIT_initDStream cMem istart4 length4 in
  let st := {| y_out := out; y_streams := [(ostart, bitD1); (opStart2, bitD2); (opStart3, bitD3); (opStart4, bitD4)] |} in
  let* st :=
    if sizeof_size_t <=? oend - opStart4 then loop (S (Z.to_nat dstSize)) (decode_turn4 dt dtLog olimit) (true, st)
    else Ok st in
  let* (op1, _) := aget (y_streams st) 0 in
  let* (op2, _) := aget (y_streams st) 1 in
  let* (op3, _) := aget (y_streams st) 2 in
  reject_if (opStart2 <? op1) ZSTD_error_corruption_detected ;;;
  reject_if (opStart3 <? op2) ZSTD_error_corruption_detected ;;;
  reject_if (opStart4 <? op3) ZSTD_error_corruption_detected ;;;
  let* st := finish_streams dt dtLog opStart2 opStart3 opStart4 oend st in
  let endCheck := forallb (fun s => BIT_endOfDStream s.2) (y_streams st) in
  reject_if (negb endCheck) ZSTD_error_corruption_detected ;;;
  Ok (dstSize, y_out st).
End Definitions.

(** ** Encoding *)

(** Nothing but [a, b) differs. *)
Definition keeps (a b : Z) (mem mem' : list Z) : Prop :=
  zlen mem' = zlen mem /\ forall i, 0 <= i -> i < a \/ b <= i -> mem' !! Z.to_nat i = mem !! Z.to_nat i.

Lemma keeps_trans a b m1 m2 m3 : keeps a b m1 m2 -> keeps a b m2 m3 -> keeps a b m1 m3.
Proof. intros [Hz H] [Kz K]. split; [congruence|]. intros i Hi Ho. by rewrite K, H. Qed.

Lemma keeps_wider a b a' b' m1 m2 : keeps a b m1 m2 -> a' <= a -> b <= b' -> keeps a' b' m1 m2.
Proof. intros [Hz H] Ha Hb. split; [done|]. intros i Hi Ho. apply H; lia. Qed.

Lemma keeps_slice a b m1 m2 p n : keeps a b m1 m2 -> 0 <= p -> p + n <= a \/ b <= p -> slice m2 p n = slice m1 p n.
Proof.
  intros [Hz H] Hp Ho. apply list_eq. intros i. destruct (decide (i < Z.to_nat n)%nat) as [Hi|Hi].
  - rewrite !lookup_slice by lia. replace (Z.to_nat p + i)%nat with (Z.to_nat (p + Z.of_nat i)) by lia. apply H; lia.
  - unfold slice. rewrite !lookup_take_ge by lia. done.
Qed.

Lemma keeps_splice mem p (k : list Z) : 0 <= p -> p + zlen k <= zlen mem -> keeps p (p + zlen k) mem (splice mem p k).
Proof.
  intros Hp Hl. split; [by apply zlen_splice|]. intros i Hi Ho. unfold splice, zlen in *. destruct Ho as [Ho|Ho].
  - rewrite lookup_app_l by (rewrite length_take; lia). by rewrite lookup_take_lt by lia.
  - rewrite lookup_app_r by (rewrite length_take; lia). rewrite length_take, lookup_app_r by lia. rewrite lookup_drop. f_equal. lia.
Qed.

Lemma keeps_take a m1 m2 : zlen m2 = zlen m1 -> 0 <= a -> take (Z.to_nat a) m2 = take (Z.to_nat a) m1 -> keeps a (zlen m1) m1 m2.
Proof.
  intros Hz Ha Ht. split; [done|]. unfold zlen in *. intros i Hi [Hlt|Hge].
  - rewrite <- (lookup_take_lt m2 (Z.to_nat a)), <- (lookup_take_lt m1 (Z.to_nat a)) by lia. by rewrite Ht.
  - by rewrite !lookup_ge_None_2 by lia.
Qed.

Section Encode4.
Context `{P : Platform}.
Variables (src : list Z) (CTable : HUF_CTable) (cv cn : Z -> Z).
Notation L := (h_tableLog (HUF_readCTableHeader CTable)).
Hypothesis HL : 1 <= L <= 12.

(** The number of bytes of a stream, and that the stream of [T] stands at [p]. *)
Definition stream_size (T : list Z) : Z := sbits cn T / 8 + 1.
Definition stream_at (mem : list Z) (p : Z) (T : list Z) : Prop := le_val (slice mem p (stream_size T)) = sval cv cn T + 2 ^ sbits cn T.

Definition codable (ip n : Z) : Prop := 0 <= ip /\ 0 <= n <= HUF_BLOCKSIZE_MAX /\ ip + n <= zlen src /\ Forall (coded (hct_ct CTable) L cv cn) (slice src ip n).

Lemma stream_size_range ip n : codable ip n -> 1 <= stream_size (slice src ip n) <= n * L / 8 + 1.
Proof.
  intros (? & ? & ? & Hf). unfold stream_size. pose proof (sbits_range _ _ _ _ _ Hf) as HN. rewrite zlen_slice in HN by lia.
  assert (0 <= sbits cn (slice src ip n) / 8) by (apply Z.div_pos; lia). assert (sbits cn (slice src ip n) / 8 <= n * L / 8) by (apply Z.div_le_mono; lia). lia.
Qed.

Lemma segment_spec mem op oend ip n next (Q : Z * list Z -> Prop) :
  let T := slice src ip n in
  codable ip n -> bytes mem -> 0 <= op <= oend -> oend <= zlen mem ->
  (forall mem', bytes mem' -> keeps op (zlen mem) mem mem' -> (n <= 32768 -> oend - op < n * L / 8 + 10) -> Q (0, mem')) ->
  (forall mem', bytes mem' -> keeps op (zlen mem) mem mem' -> stream_size T <= 65535 -> op + stream_size T <= oend -> stream_at mem' op T ->
     wp (next (stream_size T) mem') Q (fun _ => False)) ->
  wp (compress_segment mem op oend src ip n CTable next) Q (fun _ => False).
Proof.
  intros T Hc Hb Hop Hend H0 H1. pose proof (stream_size_range ip n Hc) as Hpos. fold T in Hpos. destruct Hc as (Hip & Hn & Hl & Hf). unfold compress_segment. zdecide. cbn [oassert obind].
  destruct (compress1X_spec src ip n CTable cv cn HL Hip ltac:(lia) Hf mem op (oend - op) Hb ltac:(lia) ltac:(lia) ltac:(lia)) as (size & mem' & -> & Hz & Hb' & Ht & Hfull & Hok).
  cbn [obind]. fold T in Hfull, Hok. pose proof (keeps_take op mem mem' Hz ltac:(lia) Ht) as Hk.
  pose proof (sbits_range _ _ _ _ _ Hf) as HN. fold T in HN. assert (zlen T = n) as Hzt by (apply zlen_slice; lia). rewrite Hzt in HN. pose proof sizeof_size_t_cases.
  assert (sbits cn T / 8 <= n * L / 8) by (apply Z.div_le_mono; lia). assert ((sbits cn T + 1) / 8 <= (n * L + 1 * 8) / 8) as Hup by (apply Z.div_le_mono; lia). rewrite Z.div_add in Hup by lia.
  destruct (decide (8 <= oend - op /\ (sbits cn T + 1) / 8 < oend - op - sizeof_size_t)) as [[H8 Hfit]|Hno].
  - destruct (Hok H8 Hfit) as (Hs & Hle & Himg). fold (stream_size T) in Hs. rewrite Hs in *. rewrite (proj2 (Z.eqb_neq (stream_size T) 0)) by lia. cbn [orb].
    destruct (Z.ltb_spec 65535 (stream_size T)); [|apply H1; try done; lia]. apply H0; try done. intros Hsmall. unfold stream_size in *.
    assert (n * L / 8 <= 32768 * 12 / 8) as Hup' by (apply Z.div_le_mono; [lia|apply Z.mul_le_mono_nonneg; lia]). change (32768 * 12 / 8) with 49152 in Hup'. lia.
  - rewrite Hfull by lia. cbn [Z.eqb orb wp]. apply H0; try done. lia.
Qed.

(** A jump table entry. *)
Lemma jump_entry mem p v (k : list Z -> res (Z * list Z)) (Q : Z * list Z -> Prop) :
  bytes mem -> 0 <= p -> p + 2 <= zlen mem -> 0 <= v <= 65535 ->
  (forall mem', bytes mem' -> keeps p (p + 2) mem mem' -> le_val (slice mem' p 2) = v -> wp (k mem') Q (fun _ => False)) ->
  wp (let* mem := MEM_writeLE16 mem p (u16 v) in k mem) Q (fun _ => False).
Proof.
  intros Hb Hp Hl Hv Hk. rewrite (wrap_small 16) by lia. rewrite MEM_writeLE16_val by lia. cbn [obind]. assert (zlen (le_bytes 2 v) = 2) as Hz by apply zlen_le_bytes. apply Hk.
  - apply bytes_of_splice; [done|apply bytes_le_bytes].
  - rewrite <- Hz at 1. apply keeps_splice; [done|by rewrite Hz].
  - rewrite <- Hz at 1. rewrite slice_splice by (done || (rewrite Hz; lia)). apply le_val_le_bytes_small. lia.
Qed.

(** A segment and its entry at [p]: what stands between the entry and the segment, or before the entry, stays. *)
Lemma segment_entry mem op oend ip n p next (Q : Z * list Z -> Prop) :
  let T := slice src ip n in
  codable ip n -> bytes mem -> 0 <= p -> p + 2 <= op <= oend -> oend <= zlen mem ->
  (forall mem', bytes mem' -> keeps p (zlen mem) mem mem' -> (n <= 32768 -> oend - op < n * L / 8 + 10) -> Q (0, mem')) ->
  (forall mem', bytes mem' -> keeps p (zlen mem) mem mem' -> (forall q l, 0 <= q -> q + l <= p \/ p + 2 <= q /\ q + l <= op -> slice mem' q l = slice mem q l) ->
     op + stream_size T <= oend -> le_val (slice mem' p 2) = stream_size T -> stream_at mem' op T -> wp (next (stream_size T) mem') Q (fun _ => False)) ->
  wp (compress_segment mem op oend src ip n CTable (fun cSize mem => let* mem := MEM_writeLE16 mem p (u16 cSize) in next cSize mem)) Q (fun _ => False).
Proof.
  intros T Hc Hb Hp Hop Hend H0 H1. pose proof (stream_size_range ip n Hc) as Hpos. fold T in Hpos.
  apply segment_spec; [done|done|lia|lia| |]; intros m1 Hb1 Hk1; pose proof (keeps_wider _ _ p (zlen mem) _ _ Hk1 ltac:(lia) ltac:(lia)) as Hw1; [by apply H0|].
  fold T. intros Hu Hf Hst. pose proof Hk1 as [Hz1 _]. apply jump_entry; [done|lia|lia|lia|]. intros m2 Hb2 Hk2 Hw2.
  apply H1; try done.
  - eapply keeps_trans; [exact Hw1|]. eapply keeps_wider; [exact Hk2|lia|lia].
  - intros q l Hq Ho. rewrite (keeps_slice _ _ _ _ _ _ Hk2), (keeps_slice _ _ _ _ _ _ Hk1) by lia. done.
  - unfold stream_at in *. fold T in Hst. by rewrite (keeps_slice _ _ _ _ _ _ Hk2) by lia.
Qed.

(** The jump table and the four streams at [dst], [size] bytes in all. *)
Definition four_streams (mem : list Z) (dst size : Z) (T1 T2 T3 T4 : list Z) : Prop :=
  let n1 := stream_size T1 in let n2 := stream_size T2 in let n3 := stream_size T3 in
  size = 6 + n1 + n2 + n3 + stream_size T4 /\
  le_val (slice mem dst 2) = n1 /\ le_val (slice mem (dst + 2) 2) = n2 /\ le_val (slice mem (dst + 4) 2) = n3 /\
  stream_at mem (dst + 6) T1 /\ stream_at mem (dst + 6 + n1) T2 /\ stream_at mem (dst + 6 + n1 + n2) T3 /\ stream_at mem (dst + 6 + n1 + n2 + n3) T4.

(** The [i]-th segment of the source. *)
Definition segment_of (ip srcSize i : Z) : list Z :=
  let seg := (srcSize + 3) / 4 in slice src (ip + i * seg) (if i =? 3 then srcSize - 3 * seg else seg).

Lemma segment_sizes srcSize : 12 <= srcSize -> 3 <= (srcSize + 3) / 4 /\ 0 <= srcSize - 3 * ((srcSize + 3) / 4) <= (srcSize + 3) / 4 /\ srcSize <= 4 * ((srcSize + 3) / 4) /\ 4 * ((srcSize + 3) / 4) <= srcSize + 3.
Proof. intros. pose proof (Z.div_mod (srcSize + 3) 4 ltac:(lia)). pose proof (Z.mod_pos_bound (srcSize + 3) 4 ltac:(lia)). lia. Qed.

Lemma codable_part ip n j m : codable ip n -> 0 <= j -> 0 <= m -> j + m <= n -> codable (ip + j) m.
Proof.
  intros (Hip & Hn & Hl & Hf) Hj Hm Hjm. split; [lia|]. split; [lia|]. split; [lia|]. rewrite <- (slice_slice src ip n j m) by lia. by apply Forall_take, Forall_drop.
Qed.

Lemma size_seg n : 0 <= n <= HUF_BLOCKSIZE_MAX -> size_t (n + 3) / 4 = (n + 3) / 4.
Proof.
  unfold HUF_BLOCKSIZE_MAX. intros Hn. pose proof reg_ge. assert (2 ^ 32 <= 2 ^ regBits) by (apply pow_mono; lia). unfold size_t. rewrite regBits_bytes. by rewrite wrap_small by lia.
Qed.

(** A destination that is always large enough. *)
Definition room4 (srcSize : Z) : Z := 6 + 4 * ((srcSize + 3) / 4 * L / 8 + 1) + 9.

Lemma compress4X_spec mem dst dstSize ip srcSize :
  codable ip srcSize -> bytes mem -> 0 <= dst -> 0 <= dstSize -> dst + dstSize <= zlen mem ->
  wp (HUF_compress4X_usingCTable mem dst dstSize src ip srcSize CTable)
    (fun r => bytes r.2 /\ keeps dst (zlen mem) mem r.2 /\ 0 <= r.1 <= dstSize /\
       (12 <= srcSize -> room4 srcSize <= dstSize -> r.1 <> 0) /\
       (r.1 <> 0 -> 12 <= srcSize /\ four_streams r.2 dst r.1 (segment_of ip srcSize 0) (segment_of ip srcSize 1) (segment_of ip srcSize 2) (segment_of ip srcSize 3)))
    (fun _ => False).
Proof.
  intros Hc Hb Hd Hd0 Hl. pose proof Hc as (_ & Hn & _). unfold HUF_compress4X_usingCTable, HUF_compress4X_usingCTable_internal. rewrite size_seg by done. cbn zeta.
  assert (keeps dst (zlen mem) mem mem) as Hkr by done.
  destruct (Z.ltb_spec dstSize (6 + 1 + 1 + 1 + 8)).
  { cbn [wp fst snd]. split_and!; try done; try lia. intros H12 Hr. unfold room4 in Hr. assert (0 <= (srcSize + 3) / 4 * L / 8) by (apply Z.div_pos; [destruct (segment_sizes srcSize H12); nia|lia]). lia. }
  destruct (Z.ltb_spec srcSize 12) as [|H12]; [cbn [wp fst snd]; split_and!; done || lia|]. destruct (segment_sizes srcSize H12) as (Hs1 & Hs2 & Hs3 & Hs4).
  set (seg := (srcSize + 3) / 4) in *.
  assert (forall i m, 0 <= i <= 3 -> 0 <= m -> i * seg + m <= srcSize -> codable (ip + i * seg) m) as Hcod by (intros i m Hi Hm Him; apply (codable_part ip srcSize); try done; nia).
  assert (forall mem1 mem2, keeps dst (zlen mem) mem mem1 -> forall a b, keeps a b mem1 mem2 -> dst <= a -> b <= zlen mem1 -> keeps dst (zlen mem) mem mem2) as Hstep.
  { intros m1 m2 H1 a b H2 Ha Hb2. eapply keeps_trans; [exact H1|]. eapply keeps_wider; [exact H2|done|]. destruct H1; lia. }
  assert (0 <= seg * L / 8) as Hsl by (apply Z.div_pos; nia).
  assert (forall m', bytes m' -> keeps dst (zlen mem) mem m' -> dstSize < room4 srcSize ->
    bytes (0, m').2 /\ keeps dst (zlen mem) mem (0, m').2 /\ 0 <= (0, m').1 <= dstSize /\
    (12 <= srcSize -> room4 srcSize <= dstSize -> (0, m').1 <> 0) /\
    ((0, m').1 <> 0 -> 12 <= srcSize /\ four_streams (0, m').2 dst (0, m').1 (segment_of ip srcSize 0) (segment_of ip srcSize 1) (segment_of ip srcSize 2) (segment_of ip srcSize 3))) as Hzero.
  { intros m' Hb' Hk' Hno. cbn [fst snd]. split_and!; done || lia. }
  set (T i := segment_of ip srcSize i) in *. set (n i := stream_size (T i)).
  assert (forall i, 0 <= i <= 2 -> slice src (ip + i * seg) seg = T i) as HT by (intros i Hi; unfold T, segment_of; fold seg; by rewrite (proj2 (Z.eqb_neq i 3)) by lia).
  assert (slice src (ip + 3 * seg) (srcSize - 3 * seg) = T 3) as HT3 by done.
  assert (forall i, 0 <= i <= 3 -> 1 <= n i <= seg * L / 8 + 1) as Hnpos.
  { intros i Hi. unfold n. destruct (decide (i = 3)) as [->|]; [|rewrite <- HT by lia; apply stream_size_range, Hcod; nia].
    rewrite <- HT3. destruct (stream_size_range _ _ (Hcod 3 (srcSize - 3 * seg) ltac:(lia) ltac:(lia) ltac:(lia))) as [H1 H2]. split; [done|].
    assert ((srcSize - 3 * seg) * L / 8 <= seg * L / 8) by (apply Z.div_le_mono; nia). lia. }
  assert (seg <= 32768) as Hbig by (unfold HUF_BLOCKSIZE_MAX in Hn; lia). assert (room4 srcSize = 6 + 4 * (seg * L / 8 + 1) + 9) as Hroom by done.
  assert ((srcSize - 3 * seg) * L / 8 <= seg * L / 8) by (apply Z.div_le_mono; nia).
  pose proof (Hnpos 0 ltac:(lia)). pose proof (Hnpos 1 ltac:(lia)). pose proof (Hnpos 2 ltac:(lia)). pose proof (Hnpos 3 ltac:(lia)).
  replace ip with (ip + 0 * seg) at 1 by lia.
  apply segment_entry; [apply Hcod; lia|done|lia|lia|lia|intros m' Hb' Hk' Hno; apply Hzero; [done|eapply Hstep; [exact Hkr|exact Hk'|lia|lia]|lia]|].
  rewrite (HT 0) by lia. fold (n 0). intros m1 Hb1 Hk1 _ Hf1 Hw1 Hst1. pose proof (Hstep _ _ Hkr _ _ Hk1 ltac:(lia) ltac:(lia)) as Ha1. pose proof Ha1 as [Hz1 _].
  replace (ip + seg) with (ip + 1 * seg) by lia.
  apply segment_entry; [apply Hcod; lia|done|lia|lia|lia|intros m' Hb' Hk' Hno; apply Hzero; [done|eapply Hstep; [exact Ha1|exact Hk'|lia|lia]|lia]|].
  rewrite (HT 1) by lia. fold (n 1). intros m2 Hb2 Hk2 Hs2' Hf2 Hw2 Hst2. pose proof (Hstep _ _ Ha1 _ _ Hk2 ltac:(lia) ltac:(lia)) as Ha2. pose proof Ha2 as [Hz2 _].
  replace (ip + 1 * seg + seg) with (ip + 2 * seg) by lia.
  apply segment_entry; [apply Hcod; lia|done|lia|lia|lia|intros m' Hb' Hk' Hno; apply Hzero; [done|eapply Hstep; [exact Ha2|exact Hk'|lia|lia]|lia]|].
  rewrite (HT 2) by lia. fold (n 2). intros m3 Hb3 Hk3 Hs3' Hf3 Hw3 Hst3. pose proof (Hstep _ _ Ha2 _ _ Hk3 ltac:(lia) ltac:(lia)) as Ha3. pose proof Ha3 as [Hz3 _].
  replace (ip + 2 * seg + seg) with (ip + 3 * seg) by lia. rewrite (proj2 (Z.leb_le (ip + 3 * seg) _)) by lia. cbn [oassert obind].
  replace (ip + srcSize - (ip + 3 * seg)) with (srcSize - 3 * seg) by lia.
  apply segment_spec; [apply Hcod; lia|done|lia|lia|intros m' Hb' Hk' Hno; apply Hzero; [done|eapply Hstep; [exact Ha3|exact Hk'|lia|lia]|lia]|].
  rewrite HT3. fold (n 3). intros m4 Hb4 Hk4 _ Hf4 Hst4. pose proof (Hstep _ _ Ha3 _ _ Hk4 ltac:(lia) ltac:(lia)) as Ha4.
  cbn [wp fst snd]. split; [done|]. split; [done|]. split; [lia|]. split; [lia|]. intros _. split; [done|]. unfold four_streams, stream_at in *. fold (n 0) (n 1) (n 2) (n 3) in Hst1, Hst2, Hst3, Hst4 |- *.
  split; [lia|]. split_and!; rewrite ?(keeps_slice _ _ _ _ _ _ Hk4) by lia; try rewrite ?Hs3' by lia; try rewrite ?Hs2' by lia; done.
Qed.
End Encode4.

(** ** Four streams in one output *)

Section All4.
Context `{P : Platform} (R : list Z -> list Z -> Prop) `{!PreOrder R}.

(** A property of a stream survives what the others write. *)
Definition stable (Q : Z -> x1_state -> Prop) : Prop :=
  forall i op d out out', 0 <= i -> Q i {| x_out := out; x_op := op; x_bitD := d |} -> R out out' -> Q i {| x_out := out'; x_op := op; x_bitD := d |}.

Definition all4 (Q : Z -> x1_state -> Prop) (st : x4_state) : Prop :=
  zlen (y_streams st) = 4 /\
  forall i op d, 0 <= i -> y_streams st !! Z.to_nat i = Some (op, d) -> Q i {| x_out := y_out st; x_op := op; x_bitD := d |}.

Lemma all4_impl (Q Q' : Z -> x1_state -> Prop) st : all4 Q st -> (forall i s, 0 <= i < 4 -> Q i s -> Q' i s) -> all4 Q' st.
Proof.
  intros [Hz H] Himp. split; [done|]. intros i op d Hi Hl. apply Himp; [|by apply H]. apply lookup_lt_Some in Hl. unfold zlen in Hz. lia.
Qed.

Lemma all4_get Q st i : all4 Q st -> 0 <= i < 4 ->
  exists op d, aget (y_streams st) i = (Ok (op, d) : res _) /\ Q i {| x_out := y_out st; x_op := op; x_bitD := d |}.
Proof.
  intros [Hz H] Hi. destruct (lookup_lt_is_Some_2 (y_streams st) (Z.to_nat i)) as [[op d] Hl]; [unfold zlen in Hz; lia|].
  exists op, d. split; [apply aget_Ok; split; [lia|done]|]. apply H; [lia|done].
Qed.

Lemma all4_set (Q Q' : Z -> x1_state -> Prop) st i s :
  stable Q -> all4 Q st -> 0 <= i < 4 -> R (y_out st) (x_out s) -> Q' i s ->
  all4 (fun j => if j =? i then Q' j else Q j) {| y_out := x_out s; y_streams := <[Z.to_nat i := (x_op s, x_bitD s)]> (y_streams st) |}.
Proof.
  intros Hst [Hz H] Hi Hb Hs. split; cbn [y_streams y_out]; [by rewrite zlen_insert|]. intros j op d Hj Hl. destruct (Z.eqb_spec j i) as [->|Hne].
  - rewrite lookup_insert_Z in Hl by lia. injection Hl as <- <-. by destruct s.
  - rewrite list_lookup_insert_ne in Hl by lia. eapply Hst; [done|by apply H|done].
Qed.

Lemma on_stream_spec f i (Q Q' : Z -> x1_state -> Prop) st :
  stable Q -> 0 <= i < 4 -> (forall s, Q i s -> wp (f s) (fun s' => Q' i s' /\ R (x_out s) (x_out s')) (fun _ => False)) -> all4 Q st ->
  wp (on_stream f i st) (fun st' => all4 (fun j => if j =? i then Q' j else Q j) st' /\ R (y_out st) (y_out st')) (fun _ => False).
Proof.
  intros Hst Hi Hf Hall. destruct (all4_get Q st i Hall Hi) as (op & d & Hg & HQ). unfold on_stream. rewrite Hg. cbn [obind].
  apply wp_bind. eapply wp_mono; [by apply Hf| |done]. cbn beta. intros s [HQ' Hb]. cbn [x_out] in Hb. rewrite aset_Ok by (destruct Hall; lia). cbn [obind wp y_out]. split; [|done].
  by apply all4_set.
Qed.

Lemma stable_mix n (Q Q' : Z -> x1_state -> Prop) : stable Q -> stable Q' -> stable (fun i => if i <? n then Q' i else Q i).
Proof. intros HQ HQ' i op d o o' Hi. cbn beta. destruct (i <? n); [by apply HQ'|by apply HQ]. Qed.

(** Stream [n] joins those before it. *)
Lemma all4_next n (Q Q' : Z -> x1_state -> Prop) st :
  all4 (fun j => if j =? n then Q' j else if j <? n then Q' j else Q j) st -> all4 (fun i => if i <? n + 1 then Q' i else Q i) st.
Proof.
  intros H. eapply all4_impl; [exact H|]. cbn beta. intros i s Hi. destruct (Z.eqb_spec i n); [rewrite (proj2 (Z.ltb_lt i (n + 1))) by lia; done|].
  destruct (Z.ltb_spec i n); [rewrite (proj2 (Z.ltb_lt i (n + 1))) by lia; done|]. by rewrite (proj2 (Z.ltb_ge i (n + 1))) by lia.
Qed.

Lemma on_each_spec f (Q Q' : Z -> x1_state -> Prop) st :
  stable Q -> stable Q' -> (forall i s, 0 <= i < 4 -> Q i s -> wp (f s) (fun s' => Q' i s' /\ R (x_out s) (x_out s')) (fun _ => False)) -> all4 Q st ->
  wp (on_each f st) (fun st' => all4 Q' st' /\ R (y_out st) (y_out st')) (fun _ => False).
Proof.
  intros HQ HQ' Hf Hall. unfold on_each.
  eapply wp_mono; [apply (wp_for_range (fun n st' => all4 (fun i => if i <? n then Q' i else Q i) st' /\ R (y_out st) (y_out st')) (fun _ => False)); [lia| |] | |done].
  - split; [|reflexivity]. eapply all4_impl; [exact Hall|]. intros i s Hi. cbn beta. by rewrite (proj2 (Z.ltb_ge i 0)) by lia.
  - intros n st' Hn [Hall' Hb]. eapply wp_mono; [apply (on_stream_spec f n _ Q' st' (stable_mix n Q Q' HQ HQ') Hn); [|exact Hall']| |done].
    + intros s. cbn beta. rewrite Z.ltb_irrefl. by apply Hf.
    + cbn beta. intros st2 [H2 Hb2]. split; [by apply all4_next|by etrans].
  - cbn beta. intros st' [H' Hb']. split; [|done]. eapply all4_impl; [exact H'|]. intros i s Hi. cbn beta. by rewrite (proj2 (Z.ltb_lt i 4)) by lia.
Qed.
End All4.

(** ** Decoding in lock step *)

(** The segments of [n] bytes at [dst]. *)
Definition start_of (dst n i : Z) : Z := dst + i * ((n + 3) / 4).
Definition stop_of (dst n i : Z) : Z := if i =? 3 then dst + n else dst + (i + 1) * ((n + 3) / 4).

Lemma part_bounds dst n i : 0 <= n -> 3 * ((n + 3) / 4) <= n -> 0 <= i < 4 ->
  dst <= start_of dst n i <= stop_of dst n i /\ stop_of dst n i <= dst + n /\ n - 3 * ((n + 3) / 4) <= stop_of dst n i - start_of dst n i.
Proof.
  intros Hn H3 Hi. pose proof (Z.div_mod (n + 3) 4 ltac:(lia)). pose proof (Z.mod_pos_bound (n + 3) 4 ltac:(lia)).
  unfold start_of, stop_of. destruct (Z.eqb_spec i 3) as [->|]; nia.
Qed.

Section Decode4.
Context `{P : Platform}.
Variables (dt : list Z) (k : Z) (cv cn : Z -> Z) (T : list Z) (dst : Z).
Hypothesis Hk : 1 <= k <= 12.
Hypothesis HT : Forall (decodes dt k cv cn) T.
Hypothesis Hdst : 0 <= dst.
Notation n := (zlen T).
Notation seg := ((zlen T + 3) / 4).
Hypothesis Hn : 12 <= n.

Notation seg_start := (start_of dst (zlen T)).
Notation seg_stop := (stop_of dst (zlen T)).
Variable size : Z -> Z.

Lemma seg_bounds i : 0 <= i < 4 -> dst <= seg_start i <= seg_stop i /\ seg_stop i <= dst + n /\ n - 3 * seg <= seg_stop i - seg_start i.
Proof. clear Hk. intros Hi. pose proof (segment_sizes n Hn) as Hs. apply part_bounds; lia. Qed.

(** Stream [i] has decoded [j] symbols and has [m] bits at hand. *)
Definition strm (j m : Z) (i : Z) (s : x1_state) : Prop :=
  dec cv cn T dst (x_out s) (size i) (seg_start i) (seg_stop i) s m /\ x_op s = seg_start i + j /\ dst + n <= zlen (x_out s).

(** Stream [i] has decoded all its symbols, to its last bit. *)
Definition strm_end (i : Z) (s : x1_state) : Prop :=
  strm (seg_stop i - seg_start i) 0 i s /\ BIT_endOfDStream (x_bitD s) = true.

Lemma dec_base out0 sz p0 pEnd s m : dec cv cn T dst out0 sz p0 pEnd s m -> dec cv cn T dst (x_out s) sz p0 pEnd s m.
Proof. intros (H1 & H2 & H3 & _ & H5). split; [done|]. split; [done|]. split; [done|]. split; [apply better_refl|done]. Qed.

Lemma strm_stable j m : stable (better T dst) (strm j m).
Proof.
  intros i op d out out' Hi [(H1 & H2 & H3 & H4 & H5) [Ho Hz]] Hb. cbn [x_out x_op x_bitD] in *. split; [|split; [done|destruct Hb; cbn [x_out]; lia]].
  split; [done|]. split; [done|]. split; [done|]. cbn [x_out x_op]. split; [apply better_refl|]. intros q Hq. apply (better_right T dst out); [done| |by apply H5].
  unfold start_of in *. pose proof (segment_sizes n Hn). nia.
Qed.

Lemma strm_end_stable : stable (better T dst) strm_end.
Proof. intros i op d out out' Hi [H He] Hb. split; [by eapply strm_stable|done]. Qed.

Lemma strm_weaken j m m' i s : strm j m i s -> m' <= m -> strm j m' i s.
Proof. intros (H1 & H2 & H3) Hle. split; [|done]. eapply dec_avail; [exact H1|]. eapply avail_le; [apply H1|done]. Qed.

Lemma strm_one j m i s :
  0 <= i < 4 -> strm j m i s -> seg_start i + j < seg_stop i -> k <= m ->
  wp (HUF_DECODE_SYMBOLX1_0 dt k s) (fun s' => strm (j + 1) (m - k) i s' /\ better T dst (x_out s) (x_out s')) (fun _ => False).
Proof.
  intros Hi (Hd & Ho & Hz) Hlt Hm. destruct (seg_bounds i Hi) as (Hb1 & Hb2 & _).
  eapply wp_mono; [apply (decode_one dt k cv cn Hk T dst HT Hdst (x_out s) (size i) _ _ Hb1 Hb2 Hz s m Hd); lia| |done]. cbn beta.
  intros s' [Hd' Ho']. pose proof Hd' as (_ & _ & _ & Hb & _). split; [|done]. split; [by eapply dec_base|]. split; [lia|]. destruct Hb; lia.
Qed.

Lemma strm_finish j i s :
  0 <= i < 4 -> strm j 0 i s ->
  wp (let* (_, s) := HUF_decodeStreamX1 dt k s (seg_stop i) in Ok s) (fun s' => strm_end i s' /\ better T dst (x_out s) (x_out s')) (fun _ => False).
Proof.
  intros Hi (Hd & Ho & Hz). destruct (seg_bounds i Hi) as (Hb1 & Hb2 & _). apply wp_bind.
  eapply wp_mono; [apply (decodeStreamX1_spec dt k cv cn Hk T dst HT Hdst (x_out s) (size i) _ _ Hb1 Hb2 Hz s Hd)| |done]. cbn beta.
  intros [r s'] (_ & Hd' & Ho' & He). cbn [fst snd wp] in *. pose proof Hd' as (_ & _ & _ & Hb & _). split; [|done]. split; [|done]. split; [by eapply dec_base|]. split; [lia|]. destruct Hb; lia.
Qed.

Lemma strm_reload j i op d out :
  strm j 0 i {| x_out := out; x_op := op; x_bitD := d |} ->
  exists st d', BIT_reloadDStreamFast d = Ok (st, d') /\ strm j (if bool_decide (st = BIT_DStream_unfinished) then regBits - 7 else 0) i {| x_out := out; x_op := op; x_bitD := d' |}.
Proof.
  intros ((H1 & H2 & H3 & H4 & H5) & Ho & Hz). cbn [x_out x_op x_bitD] in *. pose proof H2 as (Hwf & (Hbc & p & Hp & Hsp & _) & _).
  unfold BIT_reloadDStreamFast, src_ptr. rewrite Hp. cbn [obind]. destruct (Z.ltb_spec p (d_limitPtr d)).
  - eexists _, d. split; [reflexivity|]. rewrite bool_decide_false by done. split; [|done]. split; [done|]. split; [done|]. split; [done|]. split; done.
  - destruct (reload_pending dt k cv cn d (size i) _ (rest_decodes dt k cv cn T dst HT (seg_stop i) op) H2) as (st & d' & Hre & H2' & Hav & _).
    unfold BIT_reloadDStream in Hre. rewrite (proj2 (Z.ltb_ge regBits _)) in Hre by lia. unfold src_ptr in Hre. rewrite Hp in Hre. cbn [obind] in Hre.
    rewrite (proj2 (Z.leb_le (d_start d) p)), (proj2 (Z.leb_le (d_limitPtr d) p)) in Hre by lia. cbn [oassert obind] in Hre. exists st, d'. split; [done|].
    assert (avail d' (if bool_decide (st = BIT_DStream_unfinished) then regBits - 7 else 0)) as Hav' by (pose proof reg_ge; destruct (bool_decide _); [done|eapply avail_le; [exact Hav|lia]]).
    split; [|done]. split; [done|]. split; [done|]. split; [done|]. split; done.
Qed.

(** The reloads that end a turn. *)
Lemma reload_all j st :
  all4 (strm j 0) st ->
  wp (for_range 0 4 reload_fast (true, st))
    (fun r => all4 (strm j (if r.1 then regBits - 7 else 0)) r.2 /\ y_out r.2 = y_out st) (fun _ => False).
Proof.
  intros Hall. pose proof reg_ge.
  eapply wp_mono; [apply (wp_for_range (fun c (r : bool * x4_state) => all4 (fun i => if i <? c then strm j (if r.1 then regBits - 7 else 0) i else strm j 0 i) r.2 /\ y_out r.2 = y_out st) (fun _ => False)); [lia| |] | |done].
  - split; [|done]. cbn [fst snd]. eapply all4_impl; [exact Hall|]. intros i s Hi. cbn beta. by rewrite (proj2 (Z.ltb_ge i 0)) by lia.
  - intros c [e st'] Hc [Hall' Hout]. cbn [fst snd] in *. destruct (all4_get _ _ c Hall' Hc) as (op & d & Hg & HQ). cbn beta in HQ. rewrite Z.ltb_irrefl in HQ.
    unfold reload_fast. rewrite Hg. cbn [obind]. destruct (strm_reload j c op d (y_out st') HQ) as (status & d' & -> & HQ'). cbn [obind].
    rewrite aset_Ok by (destruct Hall'; lia). cbn [obind wp fst snd y_out]. split; [|done]. set (e' := e && bool_decide (status = BIT_DStream_unfinished)).
    assert (forall m, (m = 0 \/ m = regBits - 7) -> strm j m c {| x_out := y_out st'; x_op := op; x_bitD := d' |} \/ e' = false -> strm j (if e' then m else 0) c {| x_out := y_out st'; x_op := op; x_bitD := d' |}) as Hnew.
    { intros m Hm [Hs|Hs]; [destruct e'; [done|]; eapply strm_weaken; [exact Hs|lia]|]. rewrite Hs. eapply strm_weaken; [exact HQ'|]. destruct (bool_decide _); lia. }
    apply (all4_next c). pose proof (all4_set (better T dst) _ (fun i => strm j (if e' then regBits - 7 else 0) i) st' c {| x_out := y_out st'; x_op := op; x_bitD := d' |}
      (stable_mix (better T dst) c _ _ (strm_stable j 0) (strm_stable j (if e then regBits - 7 else 0))) Hall' Hc (better_refl T dst _)) as Hset. cbn [x_out x_op x_bitD] in Hset.
    eapply all4_impl; [apply Hset|].
    + apply Hnew; [by right|]. unfold e'. destruct (bool_decide (status = BIT_DStream_unfinished)); [by left|right; apply andb_false_r].
    + cbn beta. intros i s Hi. destruct (i =? c), (i <? c); try done. intros Hs. unfold e'. destruct e; cbn [andb]; [|done]. destruct (bool_decide _); [done|]. eapply strm_weaken; [exact Hs|lia].
  - cbn beta. intros [e st'] [Hall' Hout]. cbn [fst snd] in *. split; [|done]. eapply all4_impl; [exact Hall'|]. intros i s Hi. cbn beta. by rewrite (proj2 (Z.ltb_lt i 4)) by lia.
Qed.

(** A round: every stream decodes one symbol, or none. *)
Lemma round_spec j m st (b : bool) :
  all4 (strm j m) st -> 0 <= j < n - 3 * seg -> k <= m ->
  wp (on_each (fun s => if b then HUF_DECODE_SYMBOLX1_0 dt k s else Ok s) st)
    (fun st' => all4 (strm (j + Z.b2z b) (m - Z.b2z b * k)) st' /\ better T dst (y_out st) (y_out st')) (fun _ => False).
Proof.
  intros Hall Hj Hm. apply (on_each_spec (better T dst) _ (strm j m)); [apply strm_stable|apply strm_stable| |done]. intros i s Hi Hs. destruct (seg_bounds i Hi) as (_ & _ & Hlen). destruct b; cbn [Z.b2z].
  - replace (m - 1 * k) with (m - k) by lia. apply strm_one; try done; lia.
  - cbn [wp]. replace (j + 0) with j by lia. replace (m - 0 * k) with m by lia. split; [done|apply better_refl].
Qed.

(** The symbols of a turn. *)
Definition per_turn : Z := if MEM_64bits then 4 else 2.

Lemma turn4_spec j st :
  all4 (strm j (regBits - 8)) st -> 0 <= j -> j + 4 <= n - 3 * seg ->
  wp (decode_turn4 dt k (dst + n - 3) (true, st))
    (fun r => exists e st', r = inl (e, st') /\ all4 (strm (j + per_turn) (if e then regBits - 8 else 0)) st' /\ better T dst (y_out st) (y_out st')) (fun _ => False).
Proof.
  intros Hall Hj Hfit. unfold decode_turn4. destruct (all4_get _ _ 3 Hall ltac:(lia)) as (op & d & -> & (_ & Ho & _)). cbn [obind]. unfold start_of in Ho. cbn [x_op] in Ho.
  rewrite (proj2 (Z.ltb_lt op _)) by lia. cbn [andb].
  assert (regBits = if MEM_64bits then 64 else 32) as Hreg by (unfold regBits, sizeof_size_t; by destruct MEM_64bits).
  apply wp_bind. eapply wp_mono; [apply (round_spec j (regBits - 8) st MEM_64bits Hall); destruct MEM_64bits; lia| |done]. cbn beta. intros s1 [H1 B1].
  apply wp_bind. eapply wp_mono; [apply (round_spec _ _ s1 (MEM_64bits || (HUF_TABLELOG_MAX <=? 12)) H1); destruct MEM_64bits; cbn [Z.b2z]; lia| |done].
  unfold HUF_TABLELOG_MAX. cbn [Z.leb Z.compare Pos.compare Pos.compare_cont]. rewrite orb_true_r. cbn beta. intros s2 [H2 B2].
  apply wp_bind. eapply wp_mono; [apply (round_spec _ _ s2 MEM_64bits H2); destruct MEM_64bits; cbn [Z.b2z]; lia| |done]. cbn beta. intros s3 [H3 B3].
  apply wp_bind. eapply wp_mono; [apply (round_spec _ _ s3 true H3); destruct MEM_64bits; cbn [Z.b2z]; lia| |done]. cbn beta. intros s4 [H4 B4].
  replace (j + Z.b2z MEM_64bits + Z.b2z true + Z.b2z MEM_64bits + Z.b2z true) with (j + per_turn) in H4 by (unfold per_turn; destruct MEM_64bits; cbn [Z.b2z]; lia).
  apply wp_bind. eapply wp_mono; [apply (reload_all (j + per_turn) s4); eapply all4_impl; [exact H4|]; intros i s Hi Hs; eapply strm_weaken; [exact Hs|destruct MEM_64bits; cbn [Z.b2z]; lia]| |done].
  cbn beta. intros [e s5] [H5 Hout]. cbn [fst snd wp] in *. exists e, s5. split; [done|]. split.
  - eapply all4_impl; [exact H5|]. intros i s Hi Hs. eapply strm_weaken; [exact Hs|destruct e; lia].
  - rewrite Hout. do 3 (eapply better_trans; [eassumption|]). done.
Qed.

Definition fourth (st : x4_state) : Z :=
  match y_streams st !! 3%nat with
  | Some (op, _) => op
  | None => dst
  end.

Lemma fourth_strm j m st : all4 (strm j m) st -> 0 <= j -> fourth st = seg_start 3 + j /\ j <= n - 3 * seg.
Proof.
  intros Hall Hj. destruct (all4_get _ _ 3 Hall ltac:(lia)) as (op & d & Hg & ((H1 & _) & Ho & _)). apply aget_Ok in Hg as [_ Hg]. unfold fourth.
  change (Z.to_nat 3) with 3%nat in Hg. rewrite Hg. cbn [x_op] in *. split; [done|]. unfold stop_of, start_of in *. cbn [Z.eqb Pos.eqb] in H1. lia.
Qed.

Lemma loop4_spec st0 fuel :
  all4 (strm 0 (regBits - 8)) st0 -> n < Z.of_nat fuel ->
  wp (loop fuel (decode_turn4 dt k (dst + n - 3)) (true, st0))
    (fun st => exists j, 0 <= j /\ all4 (strm j 0) st /\ better T dst (y_out st0) (y_out st)) (fun _ => False).
Proof.
  intros Hall Hfuel. pose proof reg_ge. pose proof (segment_sizes n Hn).
  apply (wp_loop (fun r : bool * x4_state => exists j, 0 <= j /\ all4 (strm j (if r.1 then regBits - 8 else 0)) r.2 /\ better T dst (y_out st0) (y_out r.2)) (fun r : bool * x4_state => dst + n - fourth r.2)).
  - exists 0. split; [done|]. split; [done|apply better_refl].
  - cbn [snd]. destruct (fourth_strm _ _ _ Hall ltac:(lia)) as [-> _]. unfold start_of. lia.
  - intros [e st] (j & Hj & Hst & _). cbn [fst snd] in *. destruct (fourth_strm _ _ _ Hst Hj) as [-> Hle]. unfold start_of. lia.
  - intros [e st] (j & Hj & Hst & Hb). cbn [fst snd] in *. destruct (fourth_strm _ _ _ Hst Hj) as [H4 Hle].
    destruct (decide (e = true /\ j + 4 <= n - 3 * seg)) as [[-> Hfit]|Hno].
    + eapply wp_mono; [apply (turn4_spec j st Hst Hj Hfit)| |done]. cbn beta. intros r (e & st' & -> & Hst' & Hb'). cbn [fst snd].
      assert (2 <= per_turn) by (unfold per_turn; destruct MEM_64bits; lia). split; [exists (j + per_turn); split; [lia|]; split; [done|by eapply better_trans]|].
      destruct (fourth_strm _ _ _ Hst' ltac:(lia)) as [-> _]. lia.
    + unfold decode_turn4. destruct (all4_get _ _ 3 Hst ltac:(lia)) as (op & d & Hg & (_ & Ho & _)). rewrite Hg. cbn [obind x_op] in *. unfold start_of in Ho.
      replace (e && (op <? dst + n - 3)) with false by (destruct e; [|done]; symmetry; apply Z.ltb_ge; lia). cbn [wp]. exists j. split; [done|]. split; [|done].
      eapply all4_impl; [exact Hst|]. intros i s Hi Hs. eapply strm_weaken; [exact Hs|destruct e; lia].
Qed.

Lemma finish_step j i st :
  all4 (fun x => if x <? i then strm_end x else strm j 0 x) st -> 0 <= i < 4 ->
  wp (finish_stream dt k i (seg_stop i) st)
    (fun st' => all4 (fun x => if x <? i + 1 then strm_end x else strm j 0 x) st' /\ better T dst (y_out st) (y_out st')) (fun _ => False).
Proof.
  intros Hall Hi. eapply wp_mono; [apply (on_stream_spec (better T dst) _ i _ strm_end st (stable_mix (better T dst) i _ _ (strm_stable j 0) strm_end_stable) Hi); [|exact Hall]| |done].
  - cbn beta. intros s. rewrite Z.ltb_irrefl. by apply strm_finish.
  - cbn beta. intros st' [H' Hb]. split; [by apply all4_next|done].
Qed.

(** What the four finished streams have written. *)
Lemma finished out st : all4 strm_end st -> better T dst out (y_out st) ->
  forallb (fun s => BIT_endOfDStream s.2) (y_streams st) = true /\ y_out st = splice out dst T.
Proof.
  intros Hall Hb. pose proof (segment_sizes n Hn) as Hsz. split.
  - apply List.forallb_forall. intros [op d] Hin. apply list_elem_of_In, list_elem_of_lookup in Hin as [i Hi]. destruct Hall as [_ H].
    destruct (H (Z.of_nat i) op d) as [_ He]; [lia|by rewrite Nat2Z.id|done].
  - assert (forall i q, 0 <= i < 4 -> seg_start i <= q < seg_stop i -> right_at T dst (y_out st) q) as Hseg.
    { intros i q Hi Hq. destruct (all4_get _ _ i Hall Hi) as (op & d & _ & (((_ & _ & _ & _ & H5) & Ho & _) & _)). cbn [x_op x_out] in *. apply H5. lia. }
    destruct (all4_get _ _ 0 Hall ltac:(lia)) as (op & d & _ & ((_ & _ & Hz) & _)). cbn [x_out] in Hz.
    apply better_all; [done|destruct Hb; lia|done|]. intros q Hq. unfold start_of, stop_of in Hseg.
    destruct (Z_lt_le_dec q (dst + seg)); [apply (Hseg 0); cbn [Z.eqb]; lia|]. destruct (Z_lt_le_dec q (dst + 2 * seg)); [apply (Hseg 1); cbn [Z.eqb Pos.eqb]; lia|].
    destruct (Z_lt_le_dec q (dst + 3 * seg)); [apply (Hseg 2); cbn [Z.eqb Pos.eqb]; lia|apply (Hseg 3); cbn [Z.eqb Pos.eqb]; lia].
Qed.

Lemma finish_streams_spec j out st :
  all4 (strm j 0) st -> better T dst out (y_out st) ->
  wp (finish_streams dt k (dst + seg) (dst + seg + seg) (dst + seg + seg + seg) (dst + n) st)
    (fun st' => forallb (fun s => BIT_endOfDStream s.2) (y_streams st') = true /\ y_out st' = splice out dst T) (fun _ => False).
Proof.
  intros Hst Hb. assert (all4 (fun x => if x <? 0 then strm_end x else strm j 0 x) st) as F0.
  { eapply all4_impl; [exact Hst|]. intros i s Hi. cbn beta. by rewrite (proj2 (Z.ltb_ge i 0)) by lia. }
  unfold finish_streams. replace (dst + seg + seg + seg) with (seg_stop 2) by (unfold stop_of; cbn [Z.eqb Pos.eqb]; lia).
  replace (dst + seg + seg) with (seg_stop 1) by (unfold stop_of; cbn [Z.eqb Pos.eqb]; lia). replace (dst + seg) with (seg_stop 0) by (unfold stop_of; cbn [Z.eqb Pos.eqb]; lia).
  change (dst + n) with (seg_stop 3).
  apply wp_bind. eapply wp_mono; [apply (finish_step j 0 st F0); lia| |done]. intros f1 [F1 B1]. apply wp_bind. eapply wp_mono; [apply (finish_step j 1 f1 F1); lia| |done]. intros f2 [F2 B2].
  apply wp_bind. eapply wp_mono; [apply (finish_step j 2 f2 F2); lia| |done]. intros f3 [F3 B3]. eapply wp_mono; [apply (finish_step j 3 f3 F3); lia| |done]. intros f4 [F4 B4].
  apply finished.
  - eapply all4_impl; [exact F4|]. intros i s Hi. cbn beta. by rewrite (proj2 (Z.ltb_lt i (3 + 1))) by lia.
  - do 4 (eapply better_trans; [eassumption|]). done.
Qed.
End Decode4.

Section Body4.
Context `{P : Platform}.
Variables (D : HUF_DTable) (cv cn : Z -> Z) (T : list Z) (dst : Z).
Notation dt := (hdt_cells D).
Notation k := (dtd_tableLog D).
Notation n := (zlen T).
Notation seg := ((zlen T + 3) / 4).
Hypothesis Hk : 1 <= k <= 12.
Hypothesis HT : Forall (decodes dt k cv cn) T.
Hypothesis Hdst : 0 <= dst.
Hypothesis Hn : 12 <= n <= HUF_BLOCKSIZE_MAX.

Definition part (i : Z) : list Z := segment_of T 0 n i.

Lemma part_rest i : 0 <= i < 4 -> part i = rest T dst (stop_of dst (zlen T) i) (start_of dst (zlen T) i).
Proof.
  intros Hi. unfold part, segment_of, rest, stop_of, start_of. rewrite Z.add_0_l. destruct (Z.eqb_spec i 3) as [->|]; f_equal; lia.
Qed.

Lemma part_decodes i : Forall (decodes dt k cv cn) (part i).
Proof. unfold part, segment_of, slice. by apply Forall_take, Forall_drop. Qed.

Lemma part_size i : 1 <= stream_size cn (part i) <= 1572865.
Proof.
  unfold stream_size. destruct (decoded_bits dt k cv cn Hk (part i) (part_decodes i)) as [Hb _].
  assert (zlen (part i) <= n) as Hz by (unfold part, segment_of, slice, zlen; rewrite length_take, length_drop; lia). unfold HUF_BLOCKSIZE_MAX in Hn.
  assert (sbits cn (part i) <= 131072 * 12) by nia. split; [assert (0 <= sbits cn (part i) / 8) by (apply Z.div_pos; lia); lia|].
  assert (sbits cn (part i) / 8 <= 131072 * 12) by (apply Z.div_le_upper_bound; lia). lia.
Qed.

(** Opening stream [i]. *)
Lemma open_part cMem p i out :
  0 <= i < 4 -> bytes cMem -> 0 <= p -> p + stream_size cn (part i) <= zlen cMem -> stream_at cv cn cMem p (part i) -> dst + n <= zlen out ->
  exists d, BIT_initDStream cMem p (stream_size cn (part i)) = Ok d /\
    strm cv cn T dst (fun i => stream_size cn (part i)) 0 (regBits - 8) i {| x_out := out; x_op := start_of dst (zlen T) i; x_bitD := d |}.
Proof.
  intros Hi Hb Hp Hl Hst Hroom. destruct (open_pending dt k cv cn (part i) cMem p Hk (part_decodes i) Hb Hp Hl Hst) as (d & Hd & Hpe & Hav).
  destruct (seg_bounds T dst ltac:(lia) i Hi) as (Hs & _). exists d. split; [done|]. split; [|split; [cbn [x_op]; lia|done]].
  split; [cbn [x_op]; lia|]. cbn [x_op x_bitD x_out]. rewrite <- part_rest by done. split; [done|]. split; [done|]. split; [apply better_refl|lia].
Qed.

(** The four streams that [four_streams] describes decode to [T]. *)
Lemma decompress4X1_spec out cMem cSrc cSize :
  bytes cMem -> 0 <= cSrc -> cSrc + cSize <= zlen cMem -> four_streams cv cn cMem cSrc cSize (part 0) (part 1) (part 2) (part 3) -> dst + n <= zlen out ->
  HUF_decompress4X1_usingDTable_internal_body out dst n cMem cSrc cSize D = Ok (n, splice out dst T).
Proof.
  intros Hb Hc Hl (Hsize & Hw1 & Hw2 & Hw3 & Hs1 & Hs2 & Hs3 & Hs4) Hroom. pose proof reg_ge as Hreg. pose proof (segment_sizes n ltac:(lia)) as Hsg.
  pose proof (part_size 0). pose proof (part_size 1). pose proof (part_size 2). pose proof (part_size 3).
  unfold HUF_decompress4X1_usingDTable_internal_body. rewrite (proj2 (Z.ltb_ge cSize 10)), (proj2 (Z.ltb_ge n 6)) by lia. cbn [reject_if obind].
  rewrite !MEM_readLE16_val by (done || lia). cbn [obind]. rewrite Hw1, Hw2, Hw3, size_seg by lia.
  assert (2 ^ 32 <= 2 ^ regBits) by (apply pow_mono; lia). unfold size_t. rewrite !regBits_bytes.
  replace (cSize - (stream_size cn (part 0) + stream_size cn (part 1) + stream_size cn (part 2) + 6)) with (stream_size cn (part 3)) by lia. rewrite (wrap_small regBits) by lia.
  rewrite (proj2 (Z.ltb_ge cSize _)), (proj2 (Z.ltb_ge (dst + n) _)), (proj2 (Z.leb_le 6 n)) by lia. cbn [reject_if oassert obind].
  destruct (open_part cMem (cSrc + 6) 0 out ltac:(lia) Hb ltac:(lia) ltac:(lia) Hs1 Hroom) as (d1 & -> & Hd1). cbn [obind].
  destruct (open_part cMem (cSrc + 6 + stream_size cn (part 0)) 1 out ltac:(lia) Hb ltac:(lia) ltac:(lia) Hs2 Hroom) as (d2 & -> & Hd2). cbn [obind].
  destruct (open_part cMem (cSrc + 6 + stream_size cn (part 0) + stream_size cn (part 1)) 2 out ltac:(lia) Hb ltac:(lia) ltac:(lia) Hs3 Hroom) as (d3 & -> & Hd3). cbn [obind].
  destruct (open_part cMem (cSrc + 6 + stream_size cn (part 0) + stream_size cn (part 1) + stream_size cn (part 2)) 3 out ltac:(lia) Hb ltac:(lia) ltac:(lia) Hs4 Hroom) as (d4 & -> & Hd4). cbn [obind].
  set (st0 := {| y_out := out; y_streams := _ |}). set (sz := fun i => stream_size cn (part i)) in *.
  assert (all4 (strm cv cn T dst sz 0 (regBits - 8)) st0) as Hall.
  { split; [done|]. intros i op d Hi Hlk. unfold st0 in *. cbn [y_streams y_out] in *. pose proof (lookup_lt_Some _ _ _ Hlk) as Hlt. cbn [length] in Hlt.
    replace (start_of dst (zlen T) 0) with dst in Hd1 by (unfold start_of; lia). replace (start_of dst (zlen T) 1) with (dst + seg) in Hd2 by (unfold start_of; lia).
    replace (start_of dst (zlen T) 2) with (dst + seg + seg) in Hd3 by (unfold start_of; lia). replace (start_of dst (zlen T) 3) with (dst + seg + seg + seg) in Hd4 by (unfold start_of; lia).
    assert (i = 0 \/ i = 1 \/ i = 2 \/ i = 3) as [-> | [-> | [-> | ->]]] by lia; cbn in Hlk; injection Hlk as <- <-; assumption. }
  assert (wp (if sizeof_size_t <=? dst + n - (dst + seg + seg + seg) then loop (S (Z.to_nat n)) (decode_turn4 dt k (dst + n - 3)) (true, st0) else Ok st0)
    (fun st => exists j, 0 <= j /\ all4 (strm cv cn T dst sz j 0) st /\ better T dst out (y_out st)) (fun _ => False)) as Hloop.
  { destruct (Z.leb_spec sizeof_size_t (dst + n - (dst + seg + seg + seg))).
    - apply (loop4_spec dt k cv cn T dst Hk HT Hdst ltac:(lia) sz st0); [done|lia].
    - cbn [wp]. exists 0. split; [done|]. split; [|apply better_refl]. eapply all4_impl; [exact Hall|]. intros i s Hi Hs. eapply strm_weaken; [exact Hs|lia]. }
  apply wp_exists in Hloop as (st & -> & j & Hj & Hst & Hbe). cbn [obind].
  destruct (all4_get _ _ 0 Hst ltac:(lia)) as (o1 & e1 & -> & ((Ho1 & _) & _)). destruct (all4_get _ _ 1 Hst ltac:(lia)) as (o2 & e2 & -> & ((Ho2 & _) & _)).
  destruct (all4_get _ _ 2 Hst ltac:(lia)) as (o3 & e3 & -> & ((Ho3 & _) & _)). cbn [obind x_op] in *. unfold stop_of in Ho1, Ho2, Ho3. cbn [Z.eqb Pos.eqb] in Ho1, Ho2, Ho3.
  rewrite (proj2 (Z.ltb_ge (dst + seg) o1)), (proj2 (Z.ltb_ge (dst + seg + seg) o2)), (proj2 (Z.ltb_ge (dst + seg + seg + seg) o3)) by lia. cbn [reject_if obind].
  destruct (wp_exists _ _ (finish_streams_spec dt k cv cn T dst Hk HT Hdst ltac:(lia) sz j out st Hst Hbe)) as (f & Ef & He & Ho).
  rewrite Ef. cbn [obind]. rewrite He. cbn [negb reject_if obind]. by rewrite Ho.
Qed.
End Body4.

Lemma part_segment src ip srcSize i :
  0 <= ip -> 12 <= srcSize -> ip + srcSize <= zlen src -> 0 <= i < 4 -> segment_of src ip srcSize i = part (slice src ip srcSize) i.
Proof.
  intros Hip Hs Hl Hi. destruct (segment_sizes srcSize Hs) as (H1 & H2 & H3 & H4). unfold part, segment_of. rewrite zlen_slice, Z.add_0_l by lia. symmetry.
  set (seg := (srcSize + 3) / 4) in *. apply slice_slice; [lia|nia|destruct (i =? 3); lia|]. destruct (Z.eqb_spec i 3) as [->|]; nia.
Qed.

(** C8: Four Huffman streams come back.  With two tables read from one header and
    accepted for the histogram of the source, [HUF_compress4X_usingCTable] stays
    inside its destination and writes a jump table and four streams, or reports 0;
    it never reports 0 for a source of 12 bytes or more when the destination has
    room for the longest codes of four segments.  [HUF_decompress4X1_usingDTable]
    on what it wrote decodes the four streams in lock step into one buffer, each
    to its exact last bit, and writes the source back and nothing else. *)
Theorem HUF_4X_round_trip `{P : Platform} C D count maxSym src ip srcSize mem dst dstSize :
  same_header C D -> accepted C count maxSym (slice src ip srcSize) ->
  0 <= ip -> 0 <= srcSize <= HUF_BLOCKSIZE_MAX -> ip + srcSize <= zlen src ->
  bytes mem -> 0 <= dst -> 0 <= dstSize -> dst + dstSize <= zlen mem ->
  exists size mem',
    HUF_compress4X_usingCTable mem dst dstSize src ip srcSize C = Ok (size, mem') /\
    keeps dst (zlen mem) mem mem' /\ 0 <= size <= dstSize /\
    (12 <= srcSize -> 6 + 4 * ((srcSize + 3) / 4 * h_tableLog (HUF_readCTableHeader C) / 8 + 1) + 9 <= dstSize -> size <> 0) /\
    (size <> 0 -> forall out p, 0 <= p -> p + srcSize <= zlen out ->
       HUF_decompress4X1_usingDTable_internal_body out p srcSize mem' dst size D = Ok (srcSize, splice out p (slice src ip srcSize))).
Proof.
  intros Hhdr Hacc Hip Hsize Hsrc Hbm Hd0 Hd1 Hd2. assert (zlen (slice src ip srcSize) = srcSize) as Hz by (apply zlen_slice; lia).
  destruct (tables_code C D count maxSym (slice src ip srcSize)) as (cv & cn & Hk & Hk' & Hco & Hde & _); try done; [lia|].
  destruct (wp_exists _ _ (compress4X_spec src C cv cn Hk mem dst dstSize ip srcSize ltac:(done) Hbm Hd0 Hd1 Hd2)) as ([size mem'] & Hc & Hb' & Hkp & Hr & Hfit & Hok).
  cbn [fst snd] in *. exists size, mem'. do 4 (split; [done|]). intros Hne out p Hp Hroom. destruct (Hok Hne) as [H12 H4].
  rewrite !part_segment in H4 by lia. set (T := slice src ip srcSize) in *. clearbody T. subst srcSize. apply (decompress4X1_spec D cv cn); try done; [lia|destruct Hkp; lia].
Qed.

Lemma HUF_4X_round_trip_witness :
  let p := arm64_v8a in
  let src := [8; 7; 0; 8; 4; 3; 2; 1; 8; 8; 7; 8; 8; 4; 8; 0; 7; 8; 8; 8; 3; 8] in
  exists C D size mem', same_header (P := p) C D /\
    HUF_compress4X_usingCTable (P := p) (replicate 90 0) 2 60 src 0 22 C = Ok (size, mem') /\ size <> 0 /\
    HUF_decompress4X1_usingDTable_internal_body (P := p) (replicate 22 0) 0 22 mem' 2 size D = Ok (22, src).
Proof.
  cbv zeta. destruct same_sample as (C & D & Hsame & r1 & m & z & r2 & HC & HD). set (src := [8; 7; 0; 8; 4; 3; 2; 1; 8; 8; 7; 8; 8; 4; 8; 0; 7; 8; 8; 8; 3; 8]).
  assert (accepted C (histogram src) 8 src) as Hacc.
  { apply accepted_histogram; [reflexivity|]. vm_compute in HC. injection HC as <- <- <- <-. vm_compute. reflexivity. }
  destruct (HUF_4X_round_trip (P := arm64_v8a) C D (histogram src) 8 src 0 22 (replicate 90 0) 2 60 Hsame Hacc) as (size & mem' & Hc & _ & _ & Hfit & Hd);
    [lia|vm_compute; split; discriminate|vm_compute; discriminate|eval_bytes|lia|lia|vm_compute; discriminate|].
  assert (size <> 0) as Hne by (apply Hfit; vm_compute in HC; injection HC as <- <- <- <-; vm_compute; discriminate).
  exists C, D, size, mem'. split; [exact Hsame|]. split; [exact Hc|]. split; [exact Hne|].
  rewrite (Hd Hne (replicate 22 0) 0) by (lia || (vm_compute; discriminate)). vm_compute. reflexivity.
Defined.
