(* ===== verification/HufSafe.v ===== *)
(** * huf_decompress.c: the single-symbol decoders on any input

    Whatever bytes they are given as streams, [HUF_decompress1X1_usingDTable] and
    [HUF_decompress4X1_usingDTable] with a table that [HUF_readDTableX1_wksp] built
    read inside the source, write inside the destination, fail no assertion and
    come to an end. *)
From S2P Require Import Prelude Mem Errors Bits BitStream Fse FseSpread NCount HufStats HufTable HufCode HufStream HufCodec Huf4X.

(** ** Tables *)

(** Cells of at most 12 bits. *)
Inductive pairs : list Z -> Prop :=
| pairs_nil : pairs []
| pairs_cons nb s l : 0 <= nb <= 12 -> is_byte s -> pairs l -> pairs (nb :: s :: l).

Lemma pairs_app l1 l2 : pairs l1 -> pairs l2 -> pairs (l1 ++ l2).
Proof. induction 1; intros; cbn [app]; [done|constructor; auto]. Qed.

Lemma pairs_concat ls : Forall pairs ls -> pairs (concat ls).
Proof. induction 1; [constructor|]. by apply pairs_app. Qed.

Lemma pairs_block n s nb : 0 <= nb <= 12 -> is_byte s -> pairs (block n s nb).
Proof. intros Hn Hs. apply pairs_concat, Forall_replicate. apply pairs_cons; [done|done|apply pairs_nil]. Qed.

Lemma pairs_rows ws k w : code_ok ws k -> 0 <= w <= k -> pairs (rows ws k w).
Proof.
  intros (Hk & Hz & _) Hw. unfold HUF_TABLELOG_MAX in Hk. replace w with (Z.of_nat (Z.to_nat w)) in * by lia. revert Hw. generalize (Z.to_nat w).
  induction n as [|n IH]; intros Hw; [constructor|]. replace (Z.of_nat (S n)) with (Z.of_nat n + 1) by lia. rewrite rows_succ by lia. apply pairs_app; [apply IH; lia|].
  apply pairs_concat, Forall_map. eapply Forall_impl; [apply (idx_of_range (Z.of_nat n + 1) ws 0)|]. intros s Hs. cbn beta in *. apply pairs_block; [lia|unfold is_byte; lia].
Qed.

Lemma pairs_lookup l : pairs l -> forall v, 0 <= v -> 2 * v < zlen l ->
  exists nb s, l !! Z.to_nat (2 * v) = Some nb /\ l !! Z.to_nat (2 * v + 1) = Some s /\ 0 <= nb <= 12 /\ is_byte s.
Proof.
  induction 1 as [|nb s l Hn Hs Hl IH]; intros v Hv Hlt; [unfold zlen in Hlt; simpl in Hlt; lia|]. rewrite !zlen_cons in Hlt.
  destruct (decide (v = 0)) as [->|Hne]; [by exists nb, s|]. destruct (IH (v - 1)) as (nb' & s' & H1 & H2 & H3); [lia|lia|]. exists nb', s'.
  replace (Z.to_nat (2 * v)) with (S (S (Z.to_nat (2 * (v - 1))))) by lia. replace (Z.to_nat (2 * v + 1)) with (S (S (Z.to_nat (2 * (v - 1) + 1)))) by lia. done.
Qed.

(** What the decoders need of a table. *)
Definition table_ok (D : HUF_DTable) : Prop :=
  1 <= dtd_tableLog D <= 12 /\
  forall v, 0 <= v < 2 ^ dtd_tableLog D -> exists nb s, aget (hdt_cells D) (2 * v) = (Ok nb : res Z) /\ aget (hdt_cells D) (2 * v + 1) = (Ok s : res Z) /\ 0 <= nb <= 12 /\ is_byte s.

(** [D] was read from a header. *)
Definition from_header `{P : Platform} (D : HUF_DTable) : Prop :=
  exists hdr hdrStart hdrSize DTable wkspSize r,
    bytes hdr /\ 0 <= hdrStart /\ 0 <= hdrSize /\ hdrStart + hdrSize <= zlen hdr /\
    0 <= dtd_maxTableLog DTable <= 11 /\ 2 * 2 ^ (dtd_maxTableLog DTable + 1) <= zlen (hdt_cells DTable) /\
    HUF_readDTableX1_wksp DTable hdr hdrStart hdrSize wkspSize = Ok (r, D).

Lemma from_header_ok `{P : Platform} D : from_header D -> table_ok D.
Proof.
  intros (hdr & hs & hn & DT & wk & r & Hb & Hs0 & Hs1 & Hs2 & Hm & Hcells & HD).
  assert (sizeof_ReadDTableX1_Workspace <= wk) as Hwk.
  { unfold HUF_readDTableX1_wksp in HD. destruct (Z.ltb_spec wk sizeof_ReadDTableX1_Workspace); [done|lia]. }
  destruct (HUF_readStats (replicate (Z.to_nat (HUF_SYMBOLVALUE_MAX + 1)) 0) (HUF_SYMBOLVALUE_MAX + 1) (replicate (Z.to_nat (HUF_TABLELOG_ABSOLUTEMAX + 1)) 0) hdr hs hn)
    as [s| |] eqn:Hread.
  2,3: unfold HUF_readDTableX1_wksp in HD; rewrite (proj2 (Z.ltb_ge wk _)) in HD by lia; cbn [reject_if obind] in HD; unfold HUF_readStats in Hread; rewrite Hread in HD; done.
  assert (stats_ok 256 hn s) as Hst.
  { refine (wp_Ok_inv _ _ _ _ (read_weights_safe _ _ _ _ _ _ _ _ _ _ _ _ _ _ _) Hread); try done. apply Forall_replicate; unfold is_byte; lia. }
  destruct (stats_code hn s Hst) as (Hok & _). pose proof Hok as (Hk & _). unfold HUF_TABLELOG_MAX in Hk.
  pose proof (readDTableX1_spec hdr hs hn s Hread Hst DT wk Hm Hcells Hwk) as Hdt. cbn zeta in Hdt. set (k := hs_tableLog s) in *. set (k' := dtable_log s (dtd_maxTableLog DT)) in *.
  destruct (Z.ltb_spec (dtd_maxTableLog DT + 1) k) as [?|Hfit]; [congruence|]. destruct Hdt as (D' & HD' & Hlog & _ & _ & [tail Htail]). rewrite HD in HD'. injection HD' as -> <-.
  assert (k <= k' <= 12) as Hk' by (unfold k', dtable_log, HUF_DECODER_FAST_TABLELOG; fold k; lia). set (ws' := rescaled (k' - k) (weights_of s)) in *.
  assert (code_ok ws' k') as Hok'. { replace k' with (k + (k' - k)) by lia. apply rescaled_ok; [lia|done|unfold HUF_TABLELOG_MAX; lia]. }
  split; [lia|]. rewrite Hlog, Htail. intros v Hv. assert (zlen (rows ws' k' k') = 2 * 2 ^ k') as Hzr by (rewrite zlen_rows, (cells_total ws' k' Hok') by lia; lia).
  destruct (pairs_lookup _ (pairs_rows ws' k' k' Hok' ltac:(lia)) v) as (nb & b & H1 & H2 & H3 & H4); [lia|lia|]. exists nb, b.
  split; [apply aget_Ok; split; [lia|by apply lookup_app_l_Some]|]. split; [apply aget_Ok; split; [lia|by apply lookup_app_l_Some]|done].
Qed.

(** ** One stream *)

Section Stream.
Context `{P : Platform} (D : HUF_DTable) (HD : table_ok D).
Notation dt := (hdt_cells D).
Notation k := (dtd_tableLog D).

Lemma decodeSymbol_safe d size :
  d_wf d size -> d_bitsConsumed d + 12 < 2 ^ 32 ->
  wp (HUF_decodeSymbolX1 dt k d) (fun r => is_byte r.1 /\ d_wf r.2 size /\ d_ptr r.2 = d_ptr d /\ d_start r.2 = d_start d /\ d_limitPtr r.2 = d_limitPtr d /\
    d_bitsConsumed d <= d_bitsConsumed r.2 <= d_bitsConsumed d + 12) (fun _ => False).
Proof.
  intros Hwf Hlt. destruct HD as [Hk Hcell]. pose proof Hwf as (_ & _ & _ & _ & _ & Hbc & Hc & _). pose proof reg_ge.
  unfold HUF_decodeSymbolX1. rewrite lookBitsFast_shift by lia. cbn [obind]. unfold size_t. rewrite regBits_bytes. set (y := Z.shiftl _ _).
  assert (0 <= wrap regBits y < 2 ^ regBits) as Hw by (apply wrap_range; lia).
  destruct (Hcell (wrap regBits y / 2 ^ (regBits - k))) as (nb & s & -> & -> & Hnb & Hs).
  { split; [apply Z.div_pos; [lia|apply pow2_pos; lia]|]. apply Z.div_lt_upper_bound; [apply pow2_pos; lia|]. rewrite <- Z.pow_add_r by lia.
    replace (regBits - k + k) with regBits by lia. lia. }
  cbn [obind wp fst snd]. destruct (skipBits_wf d size nb Hwf) as (H1 & _ & H3); [lia|lia|]. split; [done|]. split; [done|]. split; [done|]. split; [done|]. split; [done|]. lia.
Qed.

Variables (dst dstSize : Z).
Hypothesis Hdst : 0 <= dst.
Hypothesis Hsize : 0 <= dstSize <= HUF_BLOCKSIZE_MAX.

(** Only bytes of the destination were written. *)
Definition writes (out out' : list Z) : Prop := keeps dst (dst + dstSize) out out' /\ (bytes out -> bytes out').

#[export] Instance writes_preorder : PreOrder writes.
Proof. split; [by intros out|]. intros o1 o2 o3 [H1 H2] [H3 H4]. split; [by eapply keeps_trans|auto]. Qed.

Lemma writes_one out p b : dst <= p < dst + dstSize -> dst + dstSize <= zlen out -> is_byte b -> writes out (<[Z.to_nat p := b]> out).
Proof.
  intros Hp Hz Hb. split; [|intros; by apply bytes_insert]. split; [apply zlen_insert|]. intros i Hi Ho. apply list_lookup_insert_ne. lia.
Qed.

(** A stream of [size] bytes, decoded from [p0] on up to [pEnd]: at most 12 bits a symbol were used. *)
Definition sdec (size p0 pEnd : Z) (st : x1_state) : Prop :=
  p0 <= x_op st <= pEnd /\ d_wf (x_bitD st) size /\ d_bitsConsumed (x_bitD st) <= regBits + 12 * (x_op st - p0) /\ dst + dstSize <= zlen (x_out st).

Section One.
Variables (size p0 pEnd : Z).
Hypothesis Hp0 : dst <= p0 <= pEnd.
Hypothesis HpEnd : pEnd <= dst + dstSize.

Lemma sdec_room st : sdec size p0 pEnd st -> d_bitsConsumed (x_bitD st) + 12 < 2 ^ 32.
Proof. intros (Hop & _ & Hbc & _). unfold HUF_BLOCKSIZE_MAX in Hsize. destruct regBits_cases as [E|E]; rewrite E in *; lia. Qed.

Lemma decode_one_safe st :
  sdec size p0 pEnd st -> x_op st < pEnd ->
  wp (HUF_DECODE_SYMBOLX1_0 dt k st) (fun st' => sdec size p0 pEnd st' /\ x_op st' = x_op st + 1 /\ writes (x_out st) (x_out st') /\
    d_ptr (x_bitD st') = d_ptr (x_bitD st) /\ d_start (x_bitD st') = d_start (x_bitD st) /\ d_limitPtr (x_bitD st') = d_limitPtr (x_bitD st) /\
    d_bitsConsumed (x_bitD st') <= d_bitsConsumed (x_bitD st) + 12) (fun _ => False).
Proof.
  intros Hs Hlt. pose proof (sdec_room st Hs) as Hr. destruct Hs as (Hop & Hwf & Hbc & Hz). unfold HUF_DECODE_SYMBOLX1_0. apply wp_bind.
  eapply wp_mono; [apply (decodeSymbol_safe _ size Hwf Hr)| |done]. cbn beta. intros [c d] (Hc & Hwf' & Hp & Hst & Hli & Hb'). cbn [fst snd] in *.
  rewrite aset_Ok by lia. cbn [obind wp x_op x_bitD x_out]. split; [|split; [done|split; [apply writes_one; done || lia|split; [done|split; [done|split; [done|lia]]]]]].
  split; cbn [x_op x_bitD x_out]; [lia|]. split; [done|]. split; [lia|]. by rewrite zlen_insert.
Qed.

Lemma reload_safe st : sdec size p0 pEnd st ->
  wp (reload_x1 st) (fun r => sdec size p0 pEnd r.2 /\ x_op r.2 = x_op st /\ x_out r.2 = x_out st) (fun _ => False).
Proof.
  intros (Hop & Hwf & Hbc & Hz). destruct (reloadDStream_spec (x_bitD st) size Hwf) as (status & d & Hre & Hwf' & _ & Hov & Hsame & Hrel).
  unfold reload_x1. rewrite Hre. cbn [obind wp fst snd x_op x_out]. split; [|done]. split; cbn [x_op x_bitD x_out]; [lia|]. split; [done|]. split; [|done].
  destruct (decide (status = BIT_DStream_overflow)) as [He|He]; [rewrite Hsame by done; lia|]. destruct (Hrel He) as (Hle & _). lia.
Qed.

(** Progress of a loop over the symbols. *)
Definition further (st st' : x1_state) : Prop := sdec size p0 pEnd st' /\ x_op st <= x_op st' /\ writes (x_out st) (x_out st').

Lemma decode_some_safe (b : bool) st :
  sdec size p0 pEnd st -> x_op st < pEnd ->
  wp (if b then HUF_DECODE_SYMBOLX1_0 dt k st else Ok st) (fun st' => further st st' /\ x_op st' <= x_op st + 1 /\ (b = true -> x_op st < x_op st')) (fun _ => False).
Proof.
  intros Hs Hlt. destruct b.
  - eapply wp_mono; [apply (decode_one_safe st Hs Hlt)| |done]. cbn beta. intros st' (H1 & H2 & H3 & _). unfold further. split; [split; [done|split; [lia|done]]|]. lia.
  - cbn [wp]. unfold further. split; [split; [done|split; [lia|reflexivity]]|]. split; [lia|done].
Qed.

Lemma further_trans s1 s2 s3 : further s1 s2 -> further s2 s3 -> further s1 s3.
Proof. intros (H1 & H2 & H3) (K1 & K2 & K3). split; [done|]. split; [lia|by etrans]. Qed.

Lemma decode_four_safe st :
  sdec size p0 pEnd st -> x_op st < pEnd - 3 -> wp (decode_four dt k st) (fun st' => further st st' /\ x_op st < x_op st') (fun _ => False).
Proof.
  intros Hs Hlt. unfold decode_four, HUF_DECODE_SYMBOLX1_2, HUF_DECODE_SYMBOLX1_1.
  apply wp_bind. eapply wp_mono; [apply (decode_some_safe MEM_64bits st Hs); lia| |done]. cbn beta. intros s1 (F1 & L1 & _).
  apply wp_bind. eapply wp_mono; [apply (decode_some_safe _ s1); [apply F1|lia]| |done]. cbn beta. intros s2 (F2 & L2 & _).
  apply wp_bind. eapply wp_mono; [apply (decode_some_safe _ s2); [apply F2|lia]| |done]. cbn beta. intros s3 (F3 & L3 & _).
  eapply wp_mono; [apply (decode_some_safe true s3); [apply F3|lia]| |done]. cbn beta. intros s4 (F4 & _ & G4). specialize (G4 eq_refl).
  split; [do 3 (eapply further_trans; [eassumption|]); done|]. destruct F1 as (_ & ? & _), F2 as (_ & ? & _), F3 as (_ & ? & _). lia.
Qed.

Lemma while_safe limit body st :
  limit <= pEnd -> (forall s, sdec size p0 pEnd s -> x_op s < limit -> wp (body s) (fun s' => further s s' /\ x_op s < x_op s') (fun _ => False)) -> sdec size p0 pEnd st ->
  wp (loop (S (Z.to_nat (pEnd - x_op st))) (while_unfinished limit body) st) (further st) (fun _ => False).
Proof.
  intros Hlim Hbody Hs. apply (wp_loop (further st) (fun s => pEnd - x_op s)).
  - split; [done|]. split; [lia|reflexivity].
  - destruct Hs as (? & _). lia.
  - intros s ((? & _) & _). lia.
  - intros s Hf. unfold while_unfinished. apply wp_bind. eapply wp_mono; [apply (reload_safe s); apply Hf| |done]. cbn beta. intros [r s'] (Hs' & Ho & Hout). cbn [fst snd] in *.
    assert (further s s') as Hf' by (split; [done|]; split; [lia|]; rewrite Hout; reflexivity).
    destruct (bool_decide (r = BIT_DStream_unfinished) && (x_op s' <? limit)) eqn:E; [|cbn [wp]; by eapply further_trans].
    apply andb_true_iff in E as [_ E]. apply wp_bind. eapply wp_mono; [apply (Hbody s' Hs'); lia| |done]. cbn beta. intros s2 [Hf2 Hlt]. cbn [wp]. split; [|lia].
    do 2 (eapply further_trans; [eassumption|]). done.
Qed.

(** The stream is decoded to the end of its segment, whatever it holds. *)
Lemma decodeStream_safe st :
  sdec size p0 pEnd st -> wp (HUF_decodeStreamX1 dt k st pEnd) (fun r => further st r.2 /\ x_op r.2 = pEnd) (fun _ => False).
Proof.
  intros Hs. unfold HUF_decodeStreamX1. cbn zeta. apply wp_bind. eapply (wp_mono _ (further st) _ (fun _ => False)); [| |done].
  { destruct (Z.ltb_spec 3 (pEnd - x_op st)).
    - apply (while_safe (pEnd - 3)); [lia| |done]. intros s Hs' Hlt. apply decode_four_safe; [done|lia].
    - apply wp_bind. eapply wp_mono; [apply (reload_safe st Hs)| |done]. cbn beta. intros [r s] (Hs' & Ho & Hout). cbn [fst snd wp] in *. split; [done|]. split; [lia|]. rewrite Hout. reflexivity. }
  intros s1 F1. apply wp_bind. eapply (wp_mono _ (further s1) _ (fun _ => False)); [| |done].
  { destruct MEM_32bits; [|cbn [wp]; split; [apply F1|split; [lia|reflexivity]]]. apply while_safe; [lia| |apply F1]. intros s Hs' Hlt.
    eapply wp_mono; [apply (decode_some_safe true s Hs'); lia| |done]. cbn beta. intros s' (F & _ & G). split; [done|auto]. }
  intros s2 F2. apply wp_bind. eapply (wp_mono _ (fun s => further s2 s /\ x_op s = pEnd) _ (fun _ => False)); [| |done].
  { pose proof F2 as (Hs2 & _). apply (wp_loop (further s2) (fun s => pEnd - x_op s)); [split; [done|split; [lia|reflexivity]]|destruct Hs2; lia|intros s ((? & _) & _); lia|].
    intros s F. destruct (Z.ltb_spec (x_op s) pEnd) as [Hlt|Hge].
    - apply wp_bind. eapply wp_mono; [apply (decode_some_safe true s); [apply F|lia]| |done]. cbn beta. intros s' (F' & _ & G). cbn [wp]. specialize (G eq_refl). split; [by eapply further_trans|lia].
    - cbn [wp]. split; [done|]. destruct F as ((? & _) & _). lia. }
  intros s3 [F3 Ho]. cbn [wp snd]. split; [|done]. do 2 (eapply further_trans; [eassumption|]). done.
Qed.
End One.

Lemma decompress1X1_safe out cMem cSrc cSrcSize :
  dst + dstSize <= zlen out -> bytes cMem -> 0 <= cSrc -> cSrc + cSrcSize <= zlen cMem ->
  safe (HUF_decompress1X1_usingDTable_internal_body out dst dstSize cMem cSrc cSrcSize D) (fun r => r.1 = dstSize /\ writes out r.2).
Proof.
  intros Hroom Hb Hc Hl. unfold HUF_decompress1X1_usingDTable_internal_body. apply wp_bind, wp_initDStream; try done. intros d Hwf Hbc. apply wp_bind.
  eapply wp_mono; [apply (decodeStream_safe cSrcSize dst (dst + dstSize)); [lia|lia|]| |done].
  - split; cbn [x_op x_bitD x_out]; [lia|]. split; [done|]. split; [lia|done].
  - cbn beta. intros [n st] [(_ & _ & Hw) _]. cbn [snd x_out] in Hw. apply wp_bind, wp_reject_if; [done|]. intros _. cbn [wp fst snd]. done.
Qed.

(** ** Four streams *)

Section Four.
Notation n := dstSize.
Notation seg := ((dstSize + 3) / 4).
Variable size : Z -> Z.
Hypothesis H3 : 3 * seg <= n.

(** Stream [i] has decoded [j] symbols; while it may be reloaded, at most [c] bits of its register are used. *)
Definition sst (j c i : Z) (s : x1_state) : Prop :=
  sdec (size i) (start_of dst n i) (stop_of dst n i) s /\ x_op s = start_of dst n i + j /\
  exists p, d_ptr (x_bitD s) = Some p /\ (d_limitPtr (x_bitD s) <= p -> d_bitsConsumed (x_bitD s) <= c).

(** Stream [i] has filled its segment. *)
Definition sst_end (i : Z) (s : x1_state) : Prop := sdec (size i) (start_of dst n i) (stop_of dst n i) s /\ x_op s = stop_of dst n i.

Lemma sdec_writes sz p0 pEnd out out' op d :
  sdec sz p0 pEnd {| x_out := out; x_op := op; x_bitD := d |} -> writes out out' -> sdec sz p0 pEnd {| x_out := out'; x_op := op; x_bitD := d |}.
Proof. intros (K1 & K2 & K3 & K4) [[Hz _] _]. cbn [x_out x_op x_bitD] in *. split; [done|]. split; [done|]. split; [done|]. cbn [x_out]. lia. Qed.

Lemma sst_stable j c : stable writes (sst j c).
Proof. intros i op d out out' _ (K1 & K2 & K3) Hw. split; [by eapply sdec_writes|done]. Qed.

Lemma sst_end_stable : stable writes sst_end.
Proof. intros i op d out out' _ (K1 & K2) Hw. split; [by eapply sdec_writes|done]. Qed.

Lemma round_safe j c st (b : bool) :
  all4 (sst j c) st -> 0 <= j < n - 3 * seg ->
  wp (on_each (fun s => if b then HUF_DECODE_SYMBOLX1_0 dt k s else Ok s) st)
    (fun st' => all4 (sst (j + Z.b2z b) (c + 12 * Z.b2z b)) st' /\ writes (y_out st) (y_out st')) (fun _ => False).
Proof.
  intros Hall Hj. apply (on_each_spec writes _ (sst j c)); [apply sst_stable|apply sst_stable| |done]. intros i s Hi (K1 & K2 & p & K3 & K4).
  destruct (part_bounds dst n i ltac:(lia) H3 Hi) as (B1 & B2 & B3). destruct b; cbn [Z.b2z].
  - eapply wp_mono; [apply (decode_one_safe (size i) _ _ B1 B2 s K1); lia| |done]. cbn beta. intros s' (L1 & L2 & L3 & L4 & L5 & L6 & L7). split; [|done]. split; [done|]. split; [lia|].
    exists p. split; [congruence|]. rewrite L6. intros Hp. specialize (K4 Hp). lia.
  - cbn [wp]. split; [|reflexivity]. split; [done|]. split; [lia|]. exists p. split; [done|]. intros Hp. specialize (K4 Hp). lia.
Qed.

Lemma reload_fast_safe j c i op d out :
  c <= regBits -> sst j c i {| x_out := out; x_op := op; x_bitD := d |} ->
  exists st d', BIT_reloadDStreamFast d = Ok (st, d') /\ sst j 8 i {| x_out := out; x_op := op; x_bitD := d' |}.
Proof.
  intros Hc ((K1 & K2 & K3 & K4) & Ho & p & Hp & Hcons). cbn [x_out x_op x_bitD] in *. unfold BIT_reloadDStreamFast, src_ptr. rewrite Hp. cbn [obind].
  destruct (Z.ltb_spec p (d_limitPtr d)) as [Hlt|Hge].
  - eexists _, d. split; [reflexivity|]. split; [done|]. split; [done|]. exists p. cbn [x_bitD]. split; [done|lia].
  - specialize (Hcons Hge). destruct (reloadDStream_spec d (size i) K2) as (st & d' & Hre & Hwf' & (_ & Hs' & Hl') & Hov & _ & Hrel). pose proof K2 as (_ & _ & _ & _ & Hlim & _). pose proof sizeof_size_t_cases.
    unfold BIT_reloadDStream in Hre. rewrite (proj2 (Z.ltb_ge regBits _)) in Hre by lia. unfold src_ptr in Hre. rewrite Hp in Hre. cbn [obind] in Hre.
    rewrite (proj2 (Z.leb_le (d_start d) p)), (proj2 (Z.leb_le (d_limitPtr d) p)) in Hre by lia. cbn [oassert obind] in Hre. exists st, d'. split; [done|].
    assert (st = BIT_DStream_unfinished) as Hunf.
    { unfold BIT_reloadDStream_internal in Hre. repeat (apply bind_Ok in Hre as (? & _ & Hre)). by injection Hre as <- _. }
    destruct Hrel as (Hle & _ & _ & H7 & _); [by rewrite Hunf|]. specialize (H7 Hunf). destruct Hwf' as (W1 & W2 & W3 & W4 & W5 & W6 & W7 & W8). destruct (W8 Hle) as (q & Hq & _).
    split; [split; cbn [x_op x_bitD x_out]; [done|]; split; [done|]; split; [lia|done]|]. split; [done|]. exists q. cbn [x_bitD]. split; [done|lia].
Qed.

Lemma reload_all_safe j c st e :
  c <= regBits -> all4 (sst j c) st -> wp (for_range 0 4 reload_fast (e, st)) (fun r => all4 (sst j 8) r.2 /\ y_out r.2 = y_out st) (fun _ => False).
Proof.
  intros Hc Hall.
  eapply wp_mono; [apply (wp_for_range (fun m (r : bool * x4_state) => all4 (fun i => if i <? m then sst j 8 i else sst j c i) r.2 /\ y_out r.2 = y_out st) (fun _ => False)); [lia| |] | |done].
  - split; [|done]. cbn [snd]. eapply all4_impl; [exact Hall|]. intros i s Hi. cbn beta. by rewrite (proj2 (Z.ltb_ge i 0)) by lia.
  - intros m [e' st'] Hm [Hall' Hout]. cbn [fst snd] in *. destruct (all4_get _ _ m Hall' Hm) as (op & d & Hg & HQ). cbn beta in HQ. rewrite Z.ltb_irrefl in HQ.
    unfold reload_fast. rewrite Hg. cbn [obind]. destruct (reload_fast_safe j c m op d (y_out st') Hc HQ) as (status & d' & -> & HQ'). cbn [obind].
    rewrite aset_Ok by (destruct Hall'; lia). cbn [obind wp fst snd y_out]. split; [|done]. apply (all4_next m).
    apply (all4_set writes _ (sst j 8) st' m {| x_out := y_out st'; x_op := op; x_bitD := d' |}); try done. apply stable_mix; apply sst_stable.
  - cbn beta. intros [e' st'] [Hall' Hout]. cbn [fst snd] in *. split; [|done]. eapply all4_impl; [exact Hall'|]. intros i s Hi. cbn beta. by rewrite (proj2 (Z.ltb_lt i 4)) by lia.
Qed.

Lemma fourth_sst j c st : all4 (sst j c) st -> fourth dst st = start_of dst n 3 + j /\ j <= n - 3 * seg.
Proof.
  intros Hall. destruct (all4_get _ _ 3 Hall ltac:(lia)) as (op & d & Hg & ((K1 & _) & Ho & _)). apply aget_Ok in Hg as [_ Hg]. unfold fourth.
  change (Z.to_nat 3) with 3%nat in Hg. rewrite Hg. cbn [x_op] in *. split; [done|]. unfold stop_of, start_of in *. cbn [Z.eqb Pos.eqb] in K1. lia.
Qed.

Lemma turn4_safe j st e :
  all4 (sst j 8) st -> 0 <= j ->
  wp (decode_turn4 dt k (dst + n - 3) (e, st))
    (fun r => match r with
              | inl (_, st') => exists j', j < j' /\ all4 (sst j' 8) st' /\ writes (y_out st) (y_out st')
              | inr st' => st' = st
              end) (fun _ => False).
Proof.
  intros Hall Hj. unfold decode_turn4. destruct (all4_get _ _ 3 Hall ltac:(lia)) as (op & d & -> & (_ & Ho & _)). cbn [obind]. unfold start_of in Ho. cbn [x_op] in Ho.
  destruct (e && (op <? dst + n - 3)) eqn:E; [|done]. apply andb_true_iff in E as [_ E].
  assert (regBits = if MEM_64bits then 64 else 32) as Hreg by (unfold regBits, sizeof_size_t; by destruct MEM_64bits).
  apply wp_bind. eapply wp_mono; [apply (round_safe j 8 st MEM_64bits Hall); lia| |done]. cbn beta. intros s1 [A1 B1].
  apply wp_bind. eapply wp_mono; [apply (round_safe _ _ s1 (MEM_64bits || (HUF_TABLELOG_MAX <=? 12)) A1); destruct MEM_64bits; cbn [Z.b2z]; lia| |done].
  unfold HUF_TABLELOG_MAX. cbn [Z.leb Z.compare Pos.compare Pos.compare_cont]. rewrite orb_true_r. cbn beta. intros s2 [A2 B2].
  apply wp_bind. eapply wp_mono; [apply (round_safe _ _ s2 MEM_64bits A2); destruct MEM_64bits; cbn [Z.b2z]; lia| |done]. cbn beta. intros s3 [A3 B3].
  apply wp_bind. eapply wp_mono; [apply (round_safe _ _ s3 true A3); destruct MEM_64bits; cbn [Z.b2z]; lia| |done]. cbn beta. intros s4 [A4 B4].
  apply wp_bind. eapply wp_mono; [eapply (reload_all_safe _ _ s4 _); [|exact A4]; destruct MEM_64bits; cbn [Z.b2z]; lia| |done].
  cbn beta. intros [e' s5] [A5 Hout]. cbn [fst snd wp] in *. eexists. split; [|split; [exact A5|]]; [destruct MEM_64bits; cbn [Z.b2z]; lia|].
  rewrite Hout. do 3 (etrans; [eassumption|]). done.
Qed.

Lemma loop4_safe st0 fuel :
  all4 (sst 0 8) st0 -> n < Z.of_nat fuel ->
  wp (loop fuel (decode_turn4 dt k (dst + n - 3)) (true, st0)) (fun st => exists j, 0 <= j /\ all4 (sst j 8) st /\ writes (y_out st0) (y_out st)) (fun _ => False).
Proof.
  intros Hall Hfuel. apply (wp_loop (fun r : bool * x4_state => exists j, 0 <= j /\ all4 (sst j 8) r.2 /\ writes (y_out st0) (y_out r.2)) (fun r : bool * x4_state => dst + n - fourth dst r.2)).
  - exists 0. split; [done|]. split; [done|reflexivity].
  - cbn [snd]. destruct (fourth_sst _ _ _ Hall) as [-> _]. unfold start_of. assert (0 <= seg) by (apply Z.div_pos; lia). lia.
  - intros [e st] (j & Hj & Hst & _). cbn [snd] in *. destruct (fourth_sst _ _ _ Hst) as [-> Hle]. unfold start_of. lia.
  - intros [e st] (j & Hj & Hst & Hw). cbn [snd] in *. eapply wp_mono; [apply (turn4_safe j st e Hst Hj)| |done]. intros [[e' st']|st'].
    + intros (j' & Hlt & Hst' & Hw'). cbn [snd]. split; [exists j'; split; [lia|]; split; [done|by etrans]|]. destruct (fourth_sst _ _ _ Hst) as [-> _]. destruct (fourth_sst _ _ _ Hst') as [-> _]. lia.
    + intros ->. by exists j.
Qed.

Lemma finish_safe_step j i st :
  all4 (fun x => if x <? i then sst_end x else sst j 8 x) st -> 0 <= i < 4 ->
  wp (finish_stream dt k i (stop_of dst n i) st)
    (fun st' => all4 (fun x => if x <? i + 1 then sst_end x else sst j 8 x) st' /\ writes (y_out st) (y_out st')) (fun _ => False).
Proof.
  intros Hall Hi. destruct (part_bounds dst n i ltac:(lia) H3 Hi) as (B1 & B2 & _).
  eapply wp_mono; [apply (on_stream_spec writes _ i _ sst_end st (stable_mix writes i _ _ (sst_stable j 8) sst_end_stable) Hi); [|exact Hall]| |done].
  - cbn beta. intros s. rewrite Z.ltb_irrefl. intros (Hs & _). apply wp_bind. eapply wp_mono; [apply (decodeStream_safe (size i) _ _ B1 B2 s Hs)| |done].
    cbn beta. intros [r s'] [(Hs' & _ & Hw) Ho]. cbn [snd wp] in *. split; [by split|done].
  - cbn beta. intros st' [H' Hb]. split; [by apply all4_next|done].
Qed.
End Four.

(** Opening a stream for the lock-step loop. *)
Lemma open_safe cMem p len i sz out (Q : BIT_DStream_t -> Prop) :
  bytes cMem -> 0 <= p -> p + len <= zlen cMem -> sz i = len -> start_of dst dstSize i <= stop_of dst dstSize i -> dst + dstSize <= zlen out ->
  (forall d, sst sz 0 8 i {| x_out := out; x_op := start_of dst dstSize i; x_bitD := d |} -> Q d) -> safe (BIT_initDStream cMem p len) Q.
Proof.
  intros Hb Hp Hl Hsz Hss Hroom HQ. apply wp_initDStream_full; try done. intros d Hwf Hbc Hcons. apply HQ. pose proof Hwf as (_ & _ & _ & _ & Hlim & _ & _ & Hptr).
  destruct (Hptr Hbc) as (q & Hq & _). pose proof sizeof_size_t_cases. rewrite <- Hsz in Hwf.
  split; [split; cbn [x_op x_bitD x_out]; [lia|]; split; [done|]; split; [lia|done]|]. split; [cbn [x_op]; lia|]. exists q. cbn [x_bitD]. split; [done|]. intros Hle.
  destruct Hcons as [|Hs]; [done|]. rewrite Hq in Hs. injection Hs as ->. lia.
Qed.

Lemma finish_streams_safe sz j st :
  3 * ((dstSize + 3) / 4) <= dstSize -> all4 (sst sz j 8) st ->
  let seg := (dstSize + 3) / 4 in
  wp (finish_streams dt k (dst + seg) (dst + seg + seg) (dst + seg + seg + seg) (dst + dstSize) st) (fun st' => writes (y_out st) (y_out st')) (fun _ => False).
Proof.
  intros H3 Hst seg. assert (all4 (fun x => if x <? 0 then sst_end sz x else sst sz j 8 x) st) as F0.
  { eapply all4_impl; [exact Hst|]. intros i s Hi. cbn beta. by rewrite (proj2 (Z.ltb_ge i 0)) by lia. }
  unfold finish_streams. replace (dst + seg + seg + seg) with (stop_of dst dstSize 2) by (unfold stop_of; fold seg; cbn [Z.eqb Pos.eqb]; lia).
  replace (dst + seg + seg) with (stop_of dst dstSize 1) by (unfold stop_of; fold seg; cbn [Z.eqb Pos.eqb]; lia).
  replace (dst + seg) with (stop_of dst dstSize 0) by (unfold stop_of; fold seg; cbn [Z.eqb Pos.eqb]; lia). change (dst + dstSize) with (stop_of dst dstSize 3).
  apply wp_bind. eapply wp_mono; [apply (finish_safe_step sz H3 j 0 st F0); lia| |done]. intros f1 [F1 B1].
  apply wp_bind. eapply wp_mono; [apply (finish_safe_step sz H3 j 1 f1 F1); lia| |done]. intros f2 [F2 B2].
  apply wp_bind. eapply wp_mono; [apply (finish_safe_step sz H3 j 2 f2 F2); lia| |done]. intros f3 [F3 B3].
  eapply wp_mono; [apply (finish_safe_step sz H3 j 3 f3 F3); lia| |done]. intros f4 [F4 B4]. do 3 (etrans; [eassumption|]). done.
Qed.

Lemma decompress4X1_safe out cMem cSrc cSrcSize :
  dst + dstSize <= zlen out -> bytes cMem -> 0 <= cSrc -> 0 <= cSrcSize < 2 ^ regBits -> cSrc + cSrcSize <= zlen cMem ->
  safe (HUF_decompress4X1_usingDTable_internal_body out dst dstSize cMem cSrc cSrcSize D) (fun r => r.1 = dstSize /\ writes out r.2).
Proof.
  intros Hroom Hb Hc Hcs Hl. pose proof reg_ge. unfold HUF_decompress4X1_usingDTable_internal_body.
  apply wp_bind, wp_reject_if; [done|]. intros H10. apply wp_bind, wp_reject_if; [done|]. intros H6. cbn zeta.
  rewrite !MEM_readLE16_val by (done || lia). cbn [obind]. rewrite size_seg by lia. set (seg := (dstSize + 3) / 4).
  pose proof (le_val_slice_range cMem cSrc 2 Hb ltac:(lia) ltac:(lia) ltac:(lia)) as R1. pose proof (le_val_slice_range cMem (cSrc + 2) 2 Hb ltac:(lia) ltac:(lia) ltac:(lia)) as R2.
  pose proof (le_val_slice_range cMem (cSrc + 4) 2 Hb ltac:(lia) ltac:(lia) ltac:(lia)) as R3. change (2 ^ (8 * 2)) with 65536 in R1, R2, R3.
  set (l1 := le_val (slice cMem cSrc 2)) in *. set (l2 := le_val (slice cMem (cSrc + 2) 2)) in *. set (l3 := le_val (slice cMem (cSrc + 4) 2)) in *.
  assert (2 ^ 32 <= 2 ^ regBits) by (apply pow_mono; lia). unfold size_t. rewrite regBits_bytes. set (l4 := wrap regBits _).
  apply wp_bind, wp_reject_if; [done|]. intros H4. apply wp_bind, wp_reject_if; [done|]. intros Hop. apply wp_bind, wp_assert; [lia|].
  assert (l4 = cSrcSize - (l1 + l2 + l3 + 6) /\ 0 <= l4) as [Hl4 Hl4'].
  { unfold l4 in *. unfold wrap in *. destruct (Z_le_gt_dec 0 (cSrcSize - (l1 + l2 + l3 + 6))); [rewrite Z.mod_small by lia; lia|].
    rewrite <- (Z.mod_add _ 1), Z.mod_small in H4 by lia. lia. }
  set (sz i := if i =? 0 then l1 else if i =? 1 then l2 else if i =? 2 then l3 else l4). assert (3 * seg <= dstSize) as H3 by lia.
  assert (forall i, 0 <= i < 4 -> start_of dst dstSize i <= stop_of dst dstSize i) as Hss by (intros i Hi; apply part_bounds; done || lia).
  apply wp_bind, (open_safe _ _ _ 0 sz out); [done|lia|lia|done|apply Hss; lia|done|]. intros d1 D1. apply wp_bind, (open_safe _ _ _ 1 sz out); [done|lia|lia|done|apply Hss; lia|done|]. intros d2 D2.
  apply wp_bind, (open_safe _ _ _ 2 sz out); [done|lia|lia|done|apply Hss; lia|done|]. intros d3 D3. apply wp_bind, (open_safe _ _ _ 3 sz out); [done|lia|lia|done|apply Hss; lia|done|]. intros d4 D4.
  set (st0 := {| y_out := out; y_streams := _ |}). assert (all4 (sst sz 0 8) st0) as Hall.
  { split; [done|]. intros i op d Hi Hlk. unfold st0 in *. cbn [y_streams y_out] in *. pose proof (lookup_lt_Some _ _ _ Hlk) as Hlt. cbn [length] in Hlt.
    replace (start_of dst dstSize 0) with dst in D1 by (unfold start_of; lia). replace (start_of dst dstSize 1) with (dst + seg) in D2 by (unfold start_of; fold seg; lia).
    replace (start_of dst dstSize 2) with (dst + seg + seg) in D3 by (unfold start_of; fold seg; lia). replace (start_of dst dstSize 3) with (dst + seg + seg + seg) in D4 by (unfold start_of; fold seg; lia).
    assert (i = 0 \/ i = 1 \/ i = 2 \/ i = 3) as [-> | [-> | [-> | ->]]] by lia; cbn in Hlk; injection Hlk as <- <-; assumption. }
  apply wp_bind. eapply (wp_mono _ (fun st => exists j, 0 <= j /\ all4 (sst sz j 8) st /\ writes out (y_out st)) _ (fun _ => False)); [| |done].
  { destruct (sizeof_size_t <=? _); [apply (loop4_safe sz H3 st0); [done|lia]|]. exists 0. split; [done|]. split; [done|reflexivity]. }
  intros st (j & Hj & Hst & Hw). destruct (all4_get _ _ 0 Hst ltac:(lia)) as (o1 & e1 & -> & _). destruct (all4_get _ _ 1 Hst ltac:(lia)) as (o2 & e2 & -> & _).
  destruct (all4_get _ _ 2 Hst ltac:(lia)) as (o3 & e3 & -> & _). cbn [obind]. do 3 (apply wp_bind, wp_reject_if; [done|]; intros _).
  apply wp_bind. eapply wp_mono; [apply (finish_streams_safe sz j st H3 Hst)| |done]. cbn beta. intros f Hf. apply wp_bind, wp_reject_if; [done|]. intros _. cbn [wp fst snd]. split; [done|by etrans].
Qed.
End Stream.

(** C10: The Huffman decoders on any stream.  With a table that
    [HUF_readDTableX1_wksp] built from some header, [HUF_decompress1X1_usingDTable]
    and [HUF_decompress4X1_usingDTable] accept any bytes at all as their source, with
    any jump table: no read outside it, no write outside the [dstSize] bytes of the
    destination, no failed assertion, no endless loop; they return [dstSize], with
    nothing but the destination changed, or an error. *)
Theorem HUF_decompressX1_safe `{P : Platform} D out dst dstSize cMem cSrc cSrcSize :
  from_header D -> 0 <= dst -> 0 <= dstSize <= HUF_BLOCKSIZE_MAX -> dst + dstSize <= zlen out ->
  bytes cMem -> 0 <= cSrc -> 0 <= cSrcSize < 2 ^ regBits -> cSrc + cSrcSize <= zlen cMem ->
  safe (HUF_decompress1X1_usingDTable_internal_body out dst dstSize cMem cSrc cSrcSize D)
    (fun r => r.1 = dstSize /\ keeps dst (dst + dstSize) out r.2) /\
  safe (HUF_decompress4X1_usingDTable_internal_body out dst dstSize cMem cSrc cSrcSize D)
    (fun r => r.1 = dstSize /\ keeps dst (dst + dstSize) out r.2).
Proof.
  intros HD Hd Hs Hroom Hb Hc Hcs Hl. apply from_header_ok in HD. split.
  - eapply wp_mono; [apply (decompress1X1_safe D HD dst dstSize); done|intros r [H1 [H2 _]]; done|done].
  - eapply wp_mono; [apply (decompress4X1_safe D HD dst dstSize); done|intros r [H1 [H2 _]]; done|done].
Qed.

(** A stream of arbitrary bytes after a jump table that points into them. *)
Lemma HUF_decompressX1_safe_witness :
  let p := arm64_v8a in
  let junk := [3; 0; 2; 0; 4; 0; 251; 17; 9; 200; 130; 5; 66; 33; 1; 90; 90; 255; 1] in
  exists D, from_header (P := p) D /\
    safe (HUF_decompress4X1_usingDTable_internal_body (P := p) (replicate 40 0) 3 30 junk 0 19 D) (fun r => r.1 = 30 /\ keeps 3 33 (replicate 40 0) r.2).
Proof.
  cbv zeta. destruct same_sample as (C & D & _ & r1 & m & z & r2 & _ & HD).
  assert (from_header (P := arm64_v8a) D) as Hfrom.
  { exists sample_header, 0, 5, sample_DTable, 3000, r2. split; [eval_bytes|]. split_and!; try exact HD; vm_compute; discriminate. }
  exists D. split; [exact Hfrom|].
  apply (HUF_decompressX1_safe (P := arm64_v8a) D (replicate 40 0) 3 30 [3; 0; 2; 0; 4; 0; 251; 17; 9; 200; 130; 5; 66; 33; 1; 90; 90; 255; 1] 0 19 Hfrom);
    [lia|vm_compute; split; discriminate|vm_compute; discriminate|eval_bytes|lia|vm_compute; split; [discriminate|reflexivity]|vm_compute; discriminate].
Defined.
