(* ===== verification/Xxh64.v ===== *)
(** * xxhash.h: the XXH64 checksum

    zstd ends a frame with 32 bits of [XXH64] of the content, computed block by
    block with [XXH64_reset], [XXH64_update] and [XXH64_digest].  Models the
    one-shot function, the streaming state and the canonical representation;
    the theorem is that streaming any sequence of chunks gives the one-shot
    hash of their concatenation, on every platform. *)
From S2P Require Import Prelude Mem Errors Bits BitStream.

Definition XXH_PRIME64_1 : Z := 0x9E3779B185EBCA87.
Definition XXH_PRIME64_2 : Z := 0xC2B2AE3D27D4EB4F.
Definition XXH_PRIME64_3 : Z := 0x165667B19E3779F9.
Definition XXH_PRIME64_4 : Z := 0x85EBCA77C2B2AE63.
Definition XXH_PRIME64_5 : Z := 0x27D4EB2F165667C5.

Definition XXH_rotl64 (x r : Z) : Z := Z.lor (u64 (Z.shiftl x r)) (Z.shiftr x (64 - r)).

Definition XXH64_round (acc input : Z) : Z :=
  let acc := u64 (acc + u64 (input * XXH_PRIME64_2)) in
  let acc := XXH_rotl64 acc 31 in
  u64 (acc * XXH_PRIME64_1).

Definition XXH64_mergeRound (acc val : Z) : Z :=
  let val := XXH64_round 0 val in
  let acc := Z.lxor acc val in
  u64 (u64 (acc * XXH_PRIME64_1) + XXH_PRIME64_4).

Definition XXH64_avalanche (hash : Z) : Z :=
  let hash := Z.lxor hash (Z.shiftr hash 33) in
  let hash := u64 (hash * XXH_PRIME64_2) in
  let hash := Z.lxor hash (Z.shiftr hash 29) in
  let hash := u64 (hash * XXH_PRIME64_3) in
  Z.lxor hash (Z.shiftr hash 32).

(** The four accumulators. *)
Definition lanes : Type := Z * Z * Z * Z.

Definition init_lanes (seed : Z) : lanes :=
  (u64 (u64 (seed + XXH_PRIME64_1) + XXH_PRIME64_2), u64 (seed + XXH_PRIME64_2),
   u64 (seed + 0), u64 (seed - XXH_PRIME64_1)).

Definition merge_lanes (v : lanes) : Z :=
  let '(v1, v2, v3, v4) := v in
  let h64 := u64 (u64 (u64 (XXH_rotl64 v1 1 + XXH_rotl64 v2 7) + XXH_rotl64 v3 12) + XXH_rotl64 v4 18) in
  let h64 := XXH64_mergeRound h64 v1 in
  let h64 := XXH64_mergeRound h64 v2 in
  let h64 := XXH64_mergeRound h64 v3 in
  XXH64_mergeRound h64 v4.

Inductive XXH_alignment := XXH_aligned | XXH_unaligned.

(** [total_len], [v[4]], the 32 bytes of [mem64], [memsize]. *)
Record XXH64_state_t := { total_len : Z; xv : lanes; mem64 : list Z; memsize : Z }.

Section Definitions.
Context `{P : Platform}.
Implicit Types (buf : list Z) (p len seed : Z).

Definition XXH_read64 buf p : res Z := MEM_read64 buf p.
Definition XXH_swap64 (x : Z) : Z := MEM_swap64 x.

Definition XXH_readLE64 buf p : res Z :=
  let* x := XXH_read64 buf p in
  Ok (if MEM_isLittleEndian then x else XXH_swap64 x).

Definition XXH_readBE64 buf p : res Z :=
  let* x := XXH_read64 buf p in
  Ok (if MEM_isLittleEndian then XXH_swap64 x else x).

Definition XXH_readLE64_align buf p (align : XXH_alignment) : res Z :=
  match align with
  | XXH_unaligned => XXH_readLE64 buf p
  | XXH_aligned =>
      let* x := XXH_read64 buf p in
      Ok (if MEM_isLittleEndian then x else XXH_swap64 x)
  end.

Definition XXH_readLE32 buf p : res Z :=
  let* x := MEM_read32 buf p in
  Ok (if MEM_isLittleEndian then x else MEM_swap32 x).

Definition XXH_readLE32_align buf p (align : XXH_alignment) : res Z :=
  match align with
  | XXH_unaligned => XXH_readLE32 buf p
  | XXH_aligned =>
      let* x := MEM_read32 buf p in
      Ok (if MEM_isLittleEndian then x else MEM_swap32 x)
  end.

(** [while (len >= 8)]: ([hash], [ptr], [len]). *)
Definition finalize8 buf (align : XXH_alignment) (st : Z * Z * Z) : res (Z * Z * Z + Z * Z * Z) :=
  let '(hash, ptr, len) := st in
  if 8 <=? len then
    let* x := XXH_readLE64_align buf ptr align in
    let k1 := XXH64_round 0 x in
    let hash := Z.lxor hash k1 in
    let hash := u64 (u64 (XXH_rotl64 hash 27 * XXH_PRIME64_1) + XXH_PRIME64_4) in
    Ok (inl (hash, ptr + 8, len - 8))
  else Ok (inr st).

(** [while (len > 0)] *)
Definition finalize1 buf (st : Z * Z * Z) : res (Z * Z * Z + Z) :=
  let '(hash, ptr, len) := st in
  if 0 <? len then
    let* b := aget buf ptr in
    let hash := Z.lxor hash (u64 (b * XXH_PRIME64_5)) in
    let hash := u64 (XXH_rotl64 hash 11 * XXH_PRIME64_1) in
    Ok (inl (hash, ptr + 1, len - 1))
  else Ok (inr hash).

Definition XXH64_finalize (hash : Z) buf (ptr len : Z) (align : XXH_alignment) : res Z :=
  let len := Z.land len 31 in
  let* (hash, ptr, len) := loop 8 (finalize8 buf align) (hash, ptr, len) in
  let* (hash, ptr, len) :=
    if 4 <=? len then
      let* x := XXH_readLE32_align buf ptr align in
      let hash := Z.lxor hash (u64 (x * XXH_PRIME64_1)) in
      let hash := u64 (u64 (XXH_rotl64 hash 23 * XXH_PRIME64_2) + XXH_PRIME64_3) in
      Ok (hash, ptr + 4, len - 4)
    else Ok (hash, ptr, len) in
  let* hash := loop 8 (finalize1 buf) (hash, ptr, len) in
  Ok (XXH64_avalanche hash).

(** Four rounds over 32 bytes, read with [get]. *)
Definition stripe (get : list Z -> Z -> res Z) buf p (v : lanes) : res lanes :=
  let '(v1, v2, v3, v4) := v in
  let* x := get buf p in
  let v1 := XXH64_round v1 x in
  let* x := get buf (p + 8) in
  let v2 := XXH64_round v2 x in
  let* x := get buf (p + 16) in
  let v3 := XXH64_round v3 x in
  let* x := get buf (p + 24) in
  let v4 := XXH64_round v4 x in
  Ok (v1, v2, v3, v4).

Definition XXH64_endian_align buf (input len seed : Z) (align : XXH_alignment) : res Z :=
  let* (h64, input) :=
    if 32 <=? len then
      let bEnd := input + len in
      let limit := bEnd - 31 in
      let* (v, input) := loop (S (Z.to_nat len)) (fun '(v, input) =>
        let* v := stripe (fun buf p => XXH_readLE64_align buf p align) buf input v in
        let input := input + 32 in
        Ok (if input <? limit then inl (v, input) else inr (v, input))) (init_lanes seed, input) in
      Ok (merge_lanes v, input)
    else Ok (u64 (seed + XXH_PRIME64_5), input) in
  let h64 := u64 (h64 + len) in
  XXH64_finalize h64 buf input len align.

(** [XXH_FORCE_ALIGN_CHECK] is 0 on the targets that allow unaligned access. *)
Definition XXH64 buf (input len seed : Z) (XXH_FORCE_ALIGN_CHECK : bool) : res Z :=
  if XXH_FORCE_ALIGN_CHECK && (Z.land input 7 =? 0)
  then XXH64_endian_align buf input len seed XXH_aligned
  else XXH64_endian_align buf input len seed XXH_unaligned.

Definition XXH64_reset (seed : Z) : XXH64_state_t :=
  {| total_len := 0; xv := init_lanes seed; mem64 := replicate 32 0; memsize := 0 |}.

(** The part of [XXH64_update] after the buffer has been emptied:
    whole stripes from the input, the rest into the buffer. *)
Definition update_rest (buf : list Z) (p bEnd len : Z) (v : lanes) (mem : list Z) (ms total : Z) : res XXH64_state_t :=
  let* (v, p) :=
    if p + 32 <=? bEnd then
      let limit := bEnd - 32 in
      loop (S (Z.to_nat len)) (fun '(v, p) =>
        let* v := stripe XXH_readLE64 buf p v in
        let p := p + 32 in
        Ok (if p <=? limit then inl (v, p) else inr (v, p))) (v, p)
    else Ok (v, p) in
  if p <? bEnd then
    let* bs := asub buf p (bEnd - p) in
    let* mem := awrite mem 0 bs in
    Ok {| total_len := total; xv := v; mem64 := mem; memsize := u32 (bEnd - p) |}
  else Ok {| total_len := total; xv := v; mem64 := mem; memsize := ms |}.

(** [None] is the null pointer. *)
Definition XXH64_update (state : XXH64_state_t) buf (input : option Z) (len : Z) : res XXH64_state_t :=
  match input with
  | None => oassert (len =? 0) ;;; Ok state
  | Some p =>
      let bEnd := p + len in
      let total := u64 (total_len state + len) in
      if size_t (memsize state + len) <? 32 then
        let* bs := asub buf p len in
        let* mem := awrite (mem64 state) (memsize state) bs in
        Ok {| total_len := total; xv := xv state; mem64 := mem; memsize := u32 (memsize state + u32 len) |}
      else
        let* (v, mem, p, ms) :=
          if negb (memsize state =? 0) then
            let* bs := asub buf p (32 - memsize state) in
            let* mem := awrite (mem64 state) (memsize state) bs in
            let* v := stripe XXH_readLE64 mem 0 (xv state) in
            Ok (v, mem, p + (32 - memsize state), 0)
          else Ok (xv state, mem64 state, p, memsize state) in
        update_rest buf p bEnd len v mem ms total
  end.

Definition XXH64_digest (state : XXH64_state_t) : res Z :=
  let h64 := if 32 <=? total_len state then merge_lanes (xv state)
             else let '(_, _, v3, _) := xv state in u64 (v3 + XXH_PRIME64_5) in
  let h64 := u64 (h64 + total_len state) in
  XXH64_finalize h64 (mem64 state) 0 (size_t (total_len state)) XXH_aligned.

Definition XXH64_canonicalFromHash (dst : list Z) (p hash : Z) : res (list Z) :=
  let hash := if MEM_isLittleEndian then XXH_swap64 hash else hash in
  MEM_write64 dst p hash.

Definition XXH64_hashFromCanonical (src : list Z) (p : Z) : res Z := XXH_readBE64 src p.
End Definitions.

(** ** The hash as a function of the bytes *)

Definition word (l : list Z) (i : Z) : Z := le_val (slice l i 8).

Definition stripe_ref (v : lanes) (l : list Z) : lanes :=
  let '(v1, v2, v3, v4) := v in
  (XXH64_round v1 (word l 0), XXH64_round v2 (word l 8),
   XXH64_round v3 (word l 16), XXH64_round v4 (word l 24)).

(** The first [n] stripes of 32 bytes. *)
Fixpoint stripes (n : nat) (v : lanes) (l : list Z) : lanes :=
  match n with
  | O => v
  | S n => stripes n (stripe_ref v (take 32 l)) (drop 32 l)
  end.

Fixpoint tail8 (n : nat) (h : Z) (l : list Z) : Z :=
  match n with
  | O => h
  | S n =>
      let h := Z.lxor h (XXH64_round 0 (word l 0)) in
      tail8 n (u64 (u64 (XXH_rotl64 h 27 * XXH_PRIME64_1) + XXH_PRIME64_4)) (drop 8 l)
  end.

Definition tail4 (h : Z) (l : list Z) : Z :=
  let h := Z.lxor h (u64 (le_val (slice l 0 4) * XXH_PRIME64_1)) in
  u64 (u64 (XXH_rotl64 h 23 * XXH_PRIME64_2) + XXH_PRIME64_3).

Fixpoint tail1 (h : Z) (l : list Z) : Z :=
  match l with
  | [] => h
  | b :: l =>
      let h := Z.lxor h (u64 (b * XXH_PRIME64_5)) in
      tail1 (u64 (XXH_rotl64 h 11 * XXH_PRIME64_1)) l
  end.

Definition finalize_ref (h : Z) (l : list Z) : Z :=
  let n := (length l / 8)%nat in
  let h := tail8 n h l in
  let l := drop (8 * n) l in
  let '(h, l) := if (4 <=? length l)%nat then (tail4 h l, drop 4 l) else (h, l) in
  XXH64_avalanche (tail1 h l).

(** The hash after [n] stripes with [rest] left, [len] bytes in all. *)
Definition finish_ref (seed len : Z) (v : lanes) (rest : list Z) : Z :=
  let h := if 32 <=? len then merge_lanes v else u64 (seed + XXH_PRIME64_5) in
  finalize_ref (u64 (h + len)) rest.

Definition xxh64_ref (seed : Z) (l : list Z) : Z :=
  let n := (length l / 32)%nat in
  finish_ref seed (zlen l) (stripes n (init_lanes seed) l) (drop (32 * n) l).

Lemma stripes_add n m v l1 l2 :
  length l1 = (32 * n)%nat -> stripes (n + m) v (l1 ++ l2) = stripes m (stripes n v l1) l2.
Proof.
  revert v l1; induction n as [|n IH]; intros v l1 Hl; simpl.
  - by destruct l1.
  - rewrite take_app_le, drop_app_le by lia. apply IH. rewrite length_drop. lia.
Qed.

Lemma stripes_prefix n v l1 l2 : (32 * n <= length l1)%nat -> stripes n v (l1 ++ l2) = stripes n v l1.
Proof.
  revert v l1; induction n as [|n IH]; intros v l1 Hl; simpl; [done|].
  rewrite take_app_le, drop_app_le by lia. apply IH. rewrite length_drop. lia.
Qed.

(** ** The C definitions compute it *)

Section Correct.
Context `{P : Platform}.

Lemma XXH_readLE64_val buf p :
  bytes buf -> 0 <= p -> p + 8 <= zlen buf -> XXH_readLE64 buf p = Ok (le_val (slice buf p 8)).
Proof.
  intros. rewrite <- (MEM_readLE64_val (E := ZSTD_ErrorCode)) by done.
  unfold XXH_readLE64, XXH_read64, MEM_readLE64. destruct MEM_isLittleEndian, (MEM_read64 buf p); done.
Qed.

Lemma XXH_readLE64_align_val buf p a :
  bytes buf -> 0 <= p -> p + 8 <= zlen buf -> XXH_readLE64_align buf p a = Ok (le_val (slice buf p 8)).
Proof. destruct a; apply XXH_readLE64_val. Qed.

Lemma XXH_readLE32_align_val buf p a :
  bytes buf -> 0 <= p -> p + 4 <= zlen buf -> XXH_readLE32_align buf p a = Ok (le_val (slice buf p 4)).
Proof.
  intros. rewrite <- (MEM_readLE32_val (E := ZSTD_ErrorCode)) by done.
  unfold XXH_readLE32_align, XXH_readLE32, MEM_readLE32.
  destruct a, MEM_isLittleEndian, (MEM_read32 buf p); done.
Qed.

Lemma word_slice buf p len j : 0 <= p -> 0 <= j -> j + 8 <= len -> word (slice buf p len) j = le_val (slice buf (p + j) 8).
Proof. intros. unfold word. by rewrite slice_slice by lia. Qed.

Lemma finalize8_val buf a n : forall fuel h ptr len,
  bytes buf -> 0 <= ptr -> ptr + len <= zlen buf -> 8 * Z.of_nat n <= len < 8 * Z.of_nat n + 8 -> (n < fuel)%nat ->
  loop fuel (finalize8 buf a) (h, ptr, len) =
  Ok (tail8 n h (slice buf ptr len), ptr + 8 * Z.of_nat n, len - 8 * Z.of_nat n).
Proof.
  induction n as [|n IH]; intros fuel h ptr len Hb Hp Hl Hn Hf; (destruct fuel as [|fuel]; [lia|]);
    cbn [loop]; unfold finalize8 at 1.
  - rewrite (proj2 (Z.leb_gt 8 len)) by lia. cbn [obind tail8]. eq_lia.
  - rewrite (proj2 (Z.leb_le 8 len)) by lia. rewrite XXH_readLE64_align_val by (done || lia). cbn [obind].
    rewrite IH by (done || lia). cbn [tail8]. rewrite word_slice, Z.add_0_r by lia.
    change 8%nat with (Z.to_nat 8). rewrite drop_slice by lia. eq_lia.
Qed.

Lemma finalize1_val buf n : forall fuel h ptr,
  0 <= ptr -> ptr + Z.of_nat n <= zlen buf -> (n < fuel)%nat ->
  loop fuel (finalize1 buf) (h, ptr, Z.of_nat n) = Ok (tail1 h (slice buf ptr (Z.of_nat n))).
Proof.
  induction n as [|n IH]; intros fuel h ptr Hp Hl Hf; (destruct fuel as [|fuel]; [lia|]);
    cbn [loop]; unfold finalize1 at 1.
  - done.
  - rewrite (proj2 (Z.ltb_lt 0 _)) by lia.
    destruct (lookup_lt_is_Some_2 buf (Z.to_nat ptr)) as [b Hx]; [unfold zlen in *; lia|].
    rewrite (proj2 (aget_Ok buf ptr b)) by (split; [lia|done]). cbn [obind].
    rewrite (slice_cons buf ptr _ b) by (done || lia).
    replace (Z.of_nat (S n) - 1) with (Z.of_nat n) by lia. apply IH; lia.
Qed.

Lemma finalize_val h buf ptr len a :
  bytes buf -> 0 <= ptr -> 0 <= len -> ptr + len mod 32 <= zlen buf ->
  XXH64_finalize h buf ptr len a = Ok (finalize_ref h (slice buf ptr (len mod 32))).
Proof.
  intros Hb Hp Hlen Hl. unfold XXH64_finalize. change 31 with (2 ^ 5 - 1). rewrite land_ones_wrap by lia.
  unfold wrap. change (2 ^ 5) with 32. pose proof (Z.mod_pos_bound len 32 ltac:(lia)).
  set (r := len mod 32) in *. pose proof (Z.div_mod r 8 ltac:(lia)). pose proof (Z.mod_pos_bound r 8 ltac:(lia)).
  pose proof (Z.div_pos r 8 ltac:(lia) ltac:(lia)). assert (r / 8 <= 3) by lia.
  rewrite (finalize8_val buf a (Z.to_nat (r / 8))) by (done || lia). cbn [obind].
  unfold finalize_ref. pose proof (zlen_slice buf ptr r ltac:(lia) ltac:(lia) ltac:(lia)) as Hz.
  assert (length (slice buf ptr r) / 8 = Z.to_nat (r / 8))%nat as ->.
  { apply Nat2Z.inj. rewrite Nat2Z.inj_div, Z2Nat.id by lia. unfold zlen in Hz. by rewrite Hz. }
  set (q := Z.to_nat (r / 8)). assert (8 * q = Z.to_nat (8 * (r / 8)))%nat as -> by lia.
  rewrite drop_slice by lia. replace (r - 8 * Z.of_nat q) with (r - 8 * (r / 8)) by lia.
  replace (ptr + 8 * Z.of_nat q) with (ptr + 8 * (r / 8)) by lia.
  set (p' := ptr + 8 * (r / 8)). set (r' := r - 8 * (r / 8)).
  set (h' := tail8 q h (slice buf ptr r)).
  assert (0 <= p' /\ 0 <= r' < 8 /\ p' + r' <= zlen buf) as (Hp' & Hr' & Hpr) by (subst p' r'; lia).
  pose proof (zlen_slice buf p' r' ltac:(lia) ltac:(lia) ltac:(lia)) as Hz'.
  destruct (Z.leb_spec 4 r') as [H4|H4].
  - rewrite XXH_readLE32_align_val by (done || lia). cbn [obind].
    rewrite (proj2 (Nat.leb_le 4 _)) by (unfold zlen in Hz'; lia).
    replace (r' - 4) with (Z.of_nat (Z.to_nat (r' - 4))) by lia. rewrite finalize1_val by lia. cbn [obind].
    unfold tail4. rewrite slice_slice, Z.add_0_r by lia. change 4%nat with (Z.to_nat 4). rewrite drop_slice by lia.
    eq_lia.
  - cbn [obind]. rewrite (proj2 (Nat.leb_gt 4 _)) by (unfold zlen in Hz'; lia).
    replace r' with (Z.of_nat (Z.to_nat r')) at 1 by lia. rewrite finalize1_val by lia. cbn [obind].
    eq_lia.
Qed.

Definition reads_words (get : list Z -> Z -> res Z) : Prop :=
  forall buf p, bytes buf -> 0 <= p -> p + 8 <= zlen buf -> get buf p = Ok (le_val (slice buf p 8)).

Lemma stripe_val get buf p v :
  reads_words get -> bytes buf -> 0 <= p -> p + 32 <= zlen buf ->
  stripe get buf p v = Ok (stripe_ref v (slice buf p 32)).
Proof.
  intros Hg Hb Hp Hl. destruct v as [[[v1 v2] v3] v4]. unfold stripe, stripe_ref.
  rewrite !word_slice, Z.add_0_r by lia.
  rewrite (Hg buf p) by (done || lia). cbn [obind]. rewrite (Hg buf (p + 8)) by (done || lia). cbn [obind].
  rewrite (Hg buf (p + 16)) by (done || lia). cbn [obind]. by rewrite (Hg buf (p + 24)) by (done || lia).
Qed.

(** A [do ... while] loop over stripes that goes on while [more p] holds, i.e. while 32 bytes are left. *)
Lemma stripe_loop get buf (more : Z -> bool) e n : forall fuel v p,
  reads_words get -> bytes buf -> 0 <= p -> e <= zlen buf ->
  (forall q, more q = (q + 32 <=? e)) ->
  p + 32 * (Z.of_nat n + 1) <= e < p + 32 * (Z.of_nat n + 2) -> (n < fuel)%nat ->
  loop fuel (fun '(v, p) =>
    let* v := stripe get buf p v in
    let p := p + 32 in
    Ok (if more p then inl (v, p) else inr (v, p))) (v, p) =
  Ok (stripes (S n) v (slice buf p (e - p)), p + 32 * (Z.of_nat n + 1)).
Proof.
  induction n as [|n IH]; intros fuel v p Hg Hb Hp He Hm Hn Hf; (destruct fuel as [|fuel]; [lia|]);
    cbn [loop]; rewrite stripe_val by (done || lia); cbn [obind]; rewrite Hm.
  - rewrite (proj2 (Z.leb_gt _ e)) by lia. cbn [stripes].
    change 32%nat with (Z.to_nat 32). unfold slice at 2. rewrite take_take.
    unfold slice. eq_lia.
  - rewrite (proj2 (Z.leb_le _ e)) by lia. rewrite IH by (done || lia).
    cbn [stripes]. change 32%nat with (Z.to_nat 32).
    rewrite !drop_slice by lia. replace (e - p - 32) with (e - (p + 32)) by lia.
    assert (take (Z.to_nat 32) (slice buf p (e - p)) = slice buf p 32) as ->
      by (unfold slice; rewrite take_take; f_equal; lia).
    eq_lia.
Qed.

Lemma endian_align_val buf input len seed a :
  bytes buf -> 0 <= input -> 0 <= len -> input + len <= zlen buf ->
  XXH64_endian_align buf input len seed a = Ok (xxh64_ref seed (slice buf input len)).
Proof.
  intros Hb Hi Hlen Hl. unfold XXH64_endian_align, xxh64_ref, finish_ref.
  rewrite zlen_slice, length_slice_bytes by lia. pose proof (Z.div_mod len 32 ltac:(lia)).
  pose proof (Z.mod_pos_bound len 32 ltac:(lia)). pose proof (Z.div_pos len 32 ltac:(lia) ltac:(lia)).
  assert (Z.to_nat len / 32 = Z.to_nat (len / 32))%nat as -> by (by rewrite Z2Nat.inj_div by lia).
  assert (32 * Z.to_nat (len / 32) = Z.to_nat (32 * (len / 32)))%nat as -> by lia.
  rewrite drop_slice by lia. destruct (Z.leb_spec 32 len).
  - pose proof (stripe_loop (fun buf p => XXH_readLE64_align buf p a) buf (fun q => q <? input + len - 31)
      (input + len) (Z.to_nat (len / 32 - 1)) (S (Z.to_nat len)) (init_lanes seed) input) as Hs.
    cbv beta zeta in Hs. cbv beta zeta. rewrite Hs; [|intros ?????; by apply XXH_readLE64_align_val|done|lia|lia| |lia|lia].
    2:{ intros q. zcases; lia || done. }
    cbn [obind]. rewrite finalize_val by (done || lia). do 2 f_equal; [do 3 f_equal|]; eq_lia.
  - cbn [obind]. rewrite finalize_val by (done || lia). eq_lia.
Qed.

(** ** Streaming *)

(** The bytes [D] have been absorbed: whole stripes [A] in the lanes, the rest
    [B] in the buffer. *)
Definition held (seed : Z) (D : list Z) (v : lanes) (mem : list Z) (ms : Z) : Prop :=
  exists A B n, D = A ++ B /\ length A = (32 * n)%nat /\ (length B < 32)%nat /\
    v = stripes n (init_lanes seed) A /\ length mem = 32%nat /\ bytes mem /\
    ms = zlen B /\ take (length B) mem = B.

Definition absorbed (seed : Z) (D : list Z) (st : XXH64_state_t) : Prop :=
  total_len st = zlen D /\ held seed D (xv st) (mem64 st) (memsize st).

Lemma reset_absorbed seed : absorbed seed [] (XXH64_reset seed).
Proof. split; [done|]. exists [], [], 0%nat. repeat split; [simpl; lia|]. by apply Forall_replicate. Qed.

Lemma splice_prefix {A} (l k : list A) n :
  (n + length k <= length l)%nat -> take (n + length k) (splice l (Z.of_nat n) k) = take n l ++ k.
Proof.
  intros Hl. unfold splice. rewrite Nat2Z.id, app_assoc. apply take_app_length'.
  rewrite length_app, length_take. lia.
Qed.

Lemma whole_stripes buf p e len v :
  bytes buf -> 0 <= p -> p <= e -> e <= zlen buf -> e - p <= len ->
  (if p + 32 <=? e then
      loop (S (Z.to_nat len)) (fun '(v, p) =>
        let* v := stripe XXH_readLE64 buf p v in
        let p := p + 32 in
        Ok (if p <=? e - 32 then inl (v, p) else inr (v, p))) (v, p)
   else Ok (v, p)) =
  let q := (e - p) / 32 in
  Ok (stripes (Z.to_nat q) v (slice buf p (32 * q)), p + 32 * q).
Proof.
  intros Hb Hp Hpe He Hlen. cbv zeta. pose proof (Z.div_mod (e - p) 32 ltac:(lia)).
  pose proof (Z.mod_pos_bound (e - p) 32 ltac:(lia)). pose proof (Z.div_pos (e - p) 32 ltac:(lia) ltac:(lia)).
  destruct (Z.leb_spec (p + 32) e).
  - pose proof (stripe_loop XXH_readLE64 buf (fun q => q <=? e - 32) e (Z.to_nat ((e - p) / 32 - 1))
      (S (Z.to_nat len)) v p) as Hs.
    cbv beta zeta in Hs. cbv beta zeta. rewrite Hs; [|intros ?????; by apply XXH_readLE64_val|done|lia|lia| |lia|lia].
    2:{ intros q. zcases; lia || done. }
    replace (S (Z.to_nat ((e - p) / 32 - 1))) with (Z.to_nat ((e - p) / 32)) by lia.
    rewrite <- (stripes_prefix _ v (slice buf p (32 * ((e - p) / 32))) (slice buf (p + 32 * ((e - p) / 32)) ((e - p) mod 32)))
      by (rewrite length_slice_bytes by lia; lia).
    rewrite slice_app by lia. eq_lia.
  - assert ((e - p) / 32 = 0) as -> by lia. simpl. eq_lia.
Qed.

Lemma update_rest_held seed D A n buf p e len v mem total :
  bytes buf -> 0 <= p -> p <= e -> e <= zlen buf -> e - p <= len ->
  D = A ++ slice buf p (e - p) -> length A = (32 * n)%nat -> v = stripes n (init_lanes seed) A ->
  length mem = 32%nat -> bytes mem ->
  exists st, update_rest buf p e len v mem 0 total = Ok st /\ total_len st = total /\
    held seed D (xv st) (mem64 st) (memsize st).
Proof.
  intros Hb Hp Hpe He Hlen HD HA Hv Hm Hbm. unfold update_rest. rewrite whole_stripes by done. cbn [obind].
  pose proof (Z.div_mod (e - p) 32 ltac:(lia)). pose proof (Z.mod_pos_bound (e - p) 32 ltac:(lia)).
  pose proof (Z.div_pos (e - p) 32 ltac:(lia) ltac:(lia)). set (q := (e - p) / 32) in *.
  set (A' := A ++ slice buf p (32 * q)). set (B := slice buf (p + 32 * q) (e - (p + 32 * q))).
  assert (D = A' ++ B) as HD'.
  { subst A' B. rewrite HD, <- app_assoc, slice_app by lia. eq_lia. }
  assert (length A' = 32 * (n + Z.to_nat q))%nat as HA'
    by (unfold A'; rewrite length_app, length_slice_bytes by lia; lia).
  assert (length B = Z.to_nat (e - (p + 32 * q))) as HB by (unfold B; rewrite length_slice_bytes by lia; lia).
  assert (stripes (Z.to_nat q) v (slice buf p (32 * q)) = stripes (n + Z.to_nat q) (init_lanes seed) A') as Hv'
    by (unfold A'; rewrite Hv, stripes_add; done).
  rewrite Hv'. destruct (Z.ltb_spec (p + 32 * q) e).
  - rewrite asub_Ok by lia. fold B. cbn [obind]. rewrite awrite_Ok by (unfold zlen; lia). cbn [obind].
    eexists. split; [reflexivity|]. split; [done|]. exists A', B, (n + Z.to_nat q)%nat. simpl.
    rewrite (wrap_small 32) by lia. repeat split; try done; try lia.
    + pose proof (zlen_splice mem 0 B ltac:(lia)). unfold zlen in *. lia.
    + apply bytes_of_splice; [done|]. by apply bytes_slice.
    + unfold zlen. lia.
    + change 0 with (Z.of_nat 0). rewrite <- (Nat.add_0_l (length B)), splice_prefix by lia. done.
  - eexists. split; [reflexivity|]. split; [done|]. exists A', B, (n + Z.to_nat q)%nat. simpl.
    assert (B = []) as -> by (apply length_zero_iff_nil; lia). repeat split; done || lia.
Qed.

(** A full buffer becomes one more stripe. *)
Lemma buffer_stripe seed A B n mem C1 :
  length A = (32 * n)%nat -> length mem = 32%nat -> bytes mem -> bytes C1 ->
  take (length B) mem = B -> (length B + length C1 = 32)%nat ->
  let mem' := splice mem (zlen B) C1 in
  mem' = B ++ C1 /\ stripe XXH_readLE64 mem' 0 (stripes n (init_lanes seed) A) =
    Ok (stripes (n + 1) (init_lanes seed) (A ++ B ++ C1)).
Proof.
  intros HA Hm Hbm Hb1 HB H32. simpl.
  pose proof (zlen_splice mem (zlen B) C1 ltac:(unfold zlen; lia) ltac:(unfold zlen; lia)) as Hz.
  assert (splice mem (zlen B) C1 = B ++ C1) as Hm'.
  { rewrite <- (take_ge (splice _ _ _) (length B + length C1)) by (unfold zlen in *; lia).
    unfold zlen. rewrite splice_prefix by lia. by rewrite HB. }
  split; [done|]. rewrite Hm', stripe_val.
  - rewrite stripes_add by done. cbn [stripes]. unfold slice. simpl (drop (Z.to_nat 0) _). done.
  - intros ?????. by apply XXH_readLE64_val.
  - rewrite <- Hm'. by apply bytes_of_splice.
  - lia.
  - unfold zlen. rewrite length_app. lia.
Qed.

Lemma update_absorb seed D st buf p len :
  absorbed seed D st -> bytes buf -> 0 <= p -> 0 <= len -> p + len <= zlen buf ->
  len + 32 <= 2 ^ (8 * sizeof_size_t) -> zlen D + len < 2 ^ 64 ->
  exists st', XXH64_update st buf (Some p) len = Ok st' /\ absorbed seed (D ++ slice buf p len) st'.
Proof.
  intros [Ht (A & B & n & HD & HA & HB & Hv & Hm & Hbm & Hms & Htk)] Hb Hp Hlen Hl H32 H64.
  unfold XXH64_update. pose proof (zlen_slice buf p len Hp Hlen Hl) as Hz.
  assert (0 <= zlen D) by apply zlen_nonneg. assert (0 <= memsize st < 32) by (unfold zlen in Hms; lia).
  rewrite Ht, (wrap_small 64) by lia. unfold size_t. rewrite (wrap_small (8 * sizeof_size_t)) by lia.
  replace (zlen D + len) with (zlen (D ++ slice buf p len)) by (rewrite zlen_app; lia).
  destruct (Z.ltb_spec (memsize st + len) 32).
  - rewrite asub_Ok by lia. cbn [obind]. rewrite awrite_Ok by (rewrite ?Hz; unfold zlen; lia). cbn [obind].
    eexists. split; [reflexivity|]. split; [done|]. cbn [xv mem64 memsize].
    rewrite (wrap_small 32 len), wrap_small by lia.
    exists A, (B ++ slice buf p len), n. rewrite app_assoc, <- HD, length_app. repeat split; try done.
    + unfold zlen in Hz. unfold zlen in Hms. lia.
    + pose proof (zlen_splice (mem64 st) (memsize st) (slice buf p len) ltac:(lia)
        ltac:(rewrite Hz; unfold zlen; lia)) as Hzs. unfold zlen in Hzs. lia.
    + apply bytes_of_splice; [done|]. by apply bytes_slice.
    + rewrite zlen_app. lia.
    + rewrite Hms. unfold zlen. rewrite splice_prefix by (unfold zlen in Hz, Hms; lia). by rewrite Htk.
  - destruct (Z.eqb_spec (memsize st) 0) as [E|E]; cbn [negb].
    + cbn [obind]. rewrite E. assert (B = []) as ->.
      { apply length_zero_iff_nil. unfold zlen in Hms. lia. }
      rewrite app_nil_r in HD. subst A.
      destruct (update_rest_held seed (D ++ slice buf p len) D n buf p (p + len) len (xv st) (mem64 st)
        (zlen (D ++ slice buf p len))) as (st' & Hu & Htl & Hh); try done; try lia.
      { do 2 f_equal. lia. } by exists st'.
    + rewrite asub_Ok by lia. cbn [obind]. set (C1 := slice buf p (32 - memsize st)).
      assert (zlen C1 = 32 - memsize st) as HC1 by (apply zlen_slice; lia).
      rewrite awrite_Ok by (rewrite ?HC1; unfold zlen; lia). cbn [obind].
      destruct (buffer_stripe seed A B n (mem64 st) C1) as [Hm' Hs];
        [done|done|done|by apply bytes_slice|done|unfold zlen in *; lia|].
      rewrite Hms, Hv, Hs. cbn [obind]. rewrite Hm'.
      destruct (update_rest_held seed (D ++ slice buf p len) (A ++ B ++ C1) (n + 1) buf (p + (32 - zlen B)) (p + len) len
        (stripes (n + 1) (init_lanes seed) (A ++ B ++ C1)) (B ++ C1) (zlen (D ++ slice buf p len)))
        as (st' & Hu & Htl & Hh); try done; try lia.
      * rewrite HD, <- !app_assoc. do 2 f_equal. unfold C1. rewrite Hms, slice_app by lia. f_equal. lia.
      * rewrite !length_app. unfold zlen in *. lia.
      * rewrite length_app. unfold zlen in *. lia.
      * rewrite <- Hm'. apply bytes_of_splice; [done|by apply bytes_slice].
      * by exists st'.
Qed.

Lemma digest_val seed D st :
  0 <= seed < 2 ^ 64 -> absorbed seed D st -> XXH64_digest st = Ok (xxh64_ref seed D).
Proof.
  intros Hs [Ht (A & B & n & HD & HA & HB & Hv & Hm & Hbm & Hms & Htk)].
  unfold XXH64_digest, xxh64_ref, finish_ref. rewrite Ht.
  assert (length D = 32 * n + length B)%nat as HlD by (rewrite HD, length_app; lia).
  assert (length D / 32 = n)%nat as ->.
  { rewrite HlD, Nat.mul_comm, Nat.div_add_l, Nat.div_small by lia. lia. }
  assert (drop (32 * n) D = B) as -> by (rewrite HD; by apply drop_app_length').
  assert (stripes n (init_lanes seed) D = xv st) as -> by (rewrite HD, stripes_prefix; [done|lia]).
  assert (size_t (zlen D) mod 32 = zlen B) as Hmod.
  { unfold size_t, wrap. rewrite <- (Znumtheory.Zmod_div_mod 32) by
      first [lia | destruct sizeof_size_t_cases as [-> | ->]; first [lia | by exists (2 ^ 27) | by exists (2 ^ 59)]].
    unfold zlen. rewrite HlD, Nat2Z.inj_add, Nat2Z.inj_mul, Z.add_comm, Z.mul_comm, Z.mod_add by lia.
    apply Z.mod_small. lia. }
  rewrite finalize_val; [|done|lia| |rewrite Hmod; unfold zlen; lia].
  2:{ unfold size_t. apply wrap_range. destruct sizeof_size_t_cases as [-> | ->]; lia. }
  rewrite Hmod. assert (slice (mem64 st) 0 (zlen B) = B) as -> by (unfold slice, zlen; by rewrite Nat2Z.id, drop_0).
  do 4 f_equal. destruct (Z.leb_spec 32 (zlen D)); [done|].
  assert (n = 0)%nat as -> by (unfold zlen in *; lia). simpl in Hv. rewrite Hv. unfold init_lanes.
  by rewrite Z.add_0_r, (wrap_small 64 seed).
Qed.
End Correct.

(** A call to [XXH64_update]: the buffer, the pointer into it and the length. *)
Definition chunk : Type := list Z * option Z * Z.

Definition chunk_bytes (c : chunk) : list Z :=
  let '(buf, input, len) := c in
  match input with Some p => slice buf p len | None => [] end.

Definition chunk_ok (c : chunk) : Prop :=
  let '(buf, input, len) := c in
  bytes buf /\
  match input with
  | Some p => 0 <= p /\ 0 <= len <= 2 ^ 32 - 32 /\ p + len <= zlen buf
  | None => len = 0
  end.

Definition feed `{Platform} (c : chunk) (st : XXH64_state_t) : res XXH64_state_t :=
  let '(buf, input, len) := c in XXH64_update st buf input len.

Lemma feed_all `{P : Platform} seed chunks : forall D st,
  Forall chunk_ok chunks -> absorbed seed D st -> zlen (D ++ concat (map chunk_bytes chunks)) < 2 ^ 64 ->
  exists st', ofold feed chunks st = Ok st' /\ absorbed seed (D ++ concat (map chunk_bytes chunks)) st'.
Proof.
  induction chunks as [|[[buf input] len] chunks IH]; intros D st Hc Hst Hz; cbn [ofold map concat] in *.
  - exists st. by rewrite app_nil_r.
  - apply Forall_cons in Hc as [[Hb Hc] Hcs]. rewrite app_assoc in Hz |- *. cbn [feed].
    assert (exists st', XXH64_update st buf input len = Ok st' /\
      absorbed seed (D ++ chunk_bytes (buf, input, len)) st') as (st' & -> & Hst').
    { destruct input as [p|]; simpl in Hc |- *.
      - destruct Hc as (Hp & Hlen & Hl). apply update_absorb; try done; try lia; [destruct sizeof_size_t_cases as [-> | ->]; lia|].
        rewrite !zlen_app in Hz. cbn [chunk_bytes] in Hz. rewrite zlen_slice in Hz by lia.
        pose proof (zlen_nonneg (concat (map chunk_bytes chunks))). lia.
      - subst len. exists st. by rewrite app_nil_r. }
    cbn [obind]. by apply IH.
Qed.

(** C34: Streaming is hashing the concatenation.  Any sequence of [XXH64_update]
    calls after [XXH64_reset] (chunks of any sizes, null pointers with no bytes
    included), up to 2^64 bytes in all, makes [XXH64_digest] return what the
    one-shot [XXH64] returns on the concatenation of the chunks; both are total,
    in bounds, and independent of the platform's byte order, word size and
    alignment checks: they are the function [xxh64_ref] of the bytes alone. *)
Theorem XXH64_streaming `{P : Platform} (seed : Z) (chunks : list chunk) (align_check : bool) :
  0 <= seed < 2 ^ 64 -> Forall chunk_ok chunks ->
  let D := concat (map chunk_bytes chunks) in
  zlen D < 2 ^ 64 ->
  (let* st := ofold feed chunks (XXH64_reset seed) in XXH64_digest st) = Ok (xxh64_ref seed D) /\
  XXH64 D 0 (zlen D) seed align_check = Ok (xxh64_ref seed D).
Proof.
  intros Hs Hc D Hz.
  assert (bytes D) as HbD.
  { apply Forall_concat, Forall_map. eapply Forall_impl; [exact Hc|].
    intros [[buf [p|]] len] [Hb _]; simpl; [by apply bytes_slice|constructor]. }
  split.
  - destruct (feed_all seed chunks [] _ Hc (reset_absorbed seed) Hz) as (st' & -> & Hst).
    by apply digest_val.
  - assert (slice D 0 (zlen D) = D) as HD by (unfold slice, zlen; rewrite Nat2Z.id; by apply take_ge).
    pose proof (zlen_nonneg D). rewrite <- HD at 3.
    unfold XXH64. destruct (align_check && _); apply endian_align_val; (done || lia).
Qed.

Lemma XXH64_streaming_witness :
  (let* st := ofold (feed (H := be32_plain))
     [(replicate 40 7, Some 1, 30); ([], None, 0); (replicate 80 9, Some 5, 71)] (XXH64_reset 5) in
   XXH64_digest (P := be32_plain) st) =
  XXH64 (P := be32_plain) (replicate 30 7 ++ replicate 71 9) 0 101 5 true.
Proof.
  destruct (XXH64_streaming (P := be32_plain) 5
    [(replicate 40 7, Some 1, 30); ([], None, 0); (replicate 80 9, Some 5, 71)] true) as [H1 H2].
  - lia.
  - repeat constructor; try (vm_compute; congruence); eval_bytes.
  - vm_compute. reflexivity.
  - rewrite H1. symmetry. exact H2.
Defined.
