(* ===== verification/Frame.v ===== *)
(** * zstd_decompress.c, zstd_compress.c: frames and blocks

    The container format: frame headers written by [ZSTD_writeFrameHeader] and
    parsed by [ZSTD_getFrameHeader_advanced], skippable frames, block headers,
    and the functions that walk over frames without decoding them
    ([ZSTD_findFrameSizeInfo], [ZSTD_findDecompressedSize],
    [ZSTD_decompressBound]).  A pointer is an index into a buffer, so the tests
    for null pointers never fire; legacy formats are compiled out. *)
From S2P Require Import Prelude Mem Errors.

Inductive ZSTD_format_e := ZSTD_f_zstd1 | ZSTD_f_zstd1_magicless.
Inductive ZSTD_FrameType_e := ZSTD_frame | ZSTD_skippableFrame.
Inductive blockType_e := bt_raw | bt_rle | bt_compressed | bt_reserved.

#[export] Instance ZSTD_format_e_eq_dec : EqDecision ZSTD_format_e.
Proof. solve_decision. Defined.
#[export] Instance ZSTD_FrameType_e_eq_dec : EqDecision ZSTD_FrameType_e.
Proof. solve_decision. Defined.
#[export] Instance blockType_e_eq_dec : EqDecision blockType_e.
Proof. solve_decision. Defined.

Record ZSTD_FrameHeader := {
  frameContentSize : Z; windowSize : Z; blockSizeMax : Z; frameType : ZSTD_FrameType_e;
  headerSize : Z; dictID : Z; checksumFlag : Z
}.

Record blockProperties_t := { blockType : blockType_e; lastBlock : Z; origSize : Z }.

Record ZSTD_frameSizeInfo := { nbBlocks : Z; compressedSize : Z; decompressedBound : Z }.

(** The parameters a frame header depends on. *)
Record ZSTD_frameParameters := { contentSizeFlag : Z; p_checksumFlag : Z; noDictIDFlag : Z }.

Definition ZSTD_MAGICNUMBER : Z := 0xFD2FB528.
Definition ZSTD_MAGIC_SKIPPABLE_START : Z := 0x184D2A50.
Definition ZSTD_MAGIC_SKIPPABLE_MASK : Z := 0xFFFFFFF0.
Definition ZSTD_BLOCKSIZE_MAX : Z := Z.shiftl 1 17.
Definition ZSTD_CONTENTSIZE_UNKNOWN : Z := u64 (0 - 1).
Definition ZSTD_CONTENTSIZE_ERROR : Z := u64 (0 - 2).
Definition ZSTD_FRAMEHEADERSIZE_PREFIX (format : ZSTD_format_e) : Z :=
  if decide (format = ZSTD_f_zstd1) then 5 else 1.
Definition ZSTD_FRAMEHEADERSIZE_MIN (format : ZSTD_format_e) : Z :=
  if decide (format = ZSTD_f_zstd1) then 6 else 2.
Definition ZSTD_FRAMEHEADERSIZE_MAX : Z := 18.
Definition ZSTD_SKIPPABLEHEADERSIZE : Z := 8.
Definition ZSTD_WINDOWLOG_ABSOLUTEMIN : Z := 10.
Definition ZSTD_FRAMEIDSIZE : Z := 4.
Definition ZSTD_blockHeaderSize : Z := 3.
Definition ZSTD_fcs_fieldSize : list Z := [0; 2; 4; 8].
Definition ZSTD_did_fieldSize : list Z := [0; 1; 2; 4].

(** [!b] and a comparison used as an integer. *)
Definition b2z (b : bool) : Z := if b then 1 else 0.

Section Definitions.
Context `{P : Platform}.
Implicit Types (buf : list Z) (src srcSize : Z).

Definition ZSTD_WINDOWLOG_MAX : Z := if sizeof_size_t =? 4 then 30 else 31.
Definition ZSTD_MAX_INPUT_SIZE : Z := if sizeof_size_t =? 8 then 0xFF00FF00FF00FF00 else 0xFF00FF00.

(** Intermediate sums are in [size_t]. *)
Definition ZSTD_COMPRESSBOUND (srcSize : Z) : Z :=
  if ZSTD_MAX_INPUT_SIZE <=? srcSize then 0
  else size_t (size_t (srcSize + Z.shiftr srcSize 8)
       + (if srcSize <? Z.shiftl 128 10 then Z.shiftr (Z.shiftl 128 10 - srcSize) 11 else 0)).

Definition ZSTD_compressBound (srcSize : Z) : res Z :=
  let r := ZSTD_COMPRESSBOUND srcSize in
  reject_if (r =? 0) ZSTD_error_srcSize_wrong ;;;
  Ok r.

(** ** Reading headers *)

Definition ZSTD_startingInputLength (format : ZSTD_format_e) : Z := ZSTD_FRAMEHEADERSIZE_PREFIX format.

Definition is_skippable_magic (magic : Z) : bool :=
  Z.land magic ZSTD_MAGIC_SKIPPABLE_MASK =? ZSTD_MAGIC_SKIPPABLE_START.

Definition ZSTD_isFrame buf src srcSize : res bool :=
  if srcSize <? ZSTD_FRAMEIDSIZE then Ok false
  else
    let* magic := MEM_readLE32 buf src in
    Ok ((magic =? ZSTD_MAGICNUMBER) || is_skippable_magic magic).

Definition ZSTD_isSkippableFrame buf src srcSize : res bool :=
  if srcSize <? ZSTD_FRAMEIDSIZE then Ok false
  else
    let* magic := MEM_readLE32 buf src in
    Ok (is_skippable_magic magic).

Definition ZSTD_frameHeaderSize_internal buf src srcSize (format : ZSTD_format_e) : res Z :=
  let minInputSize := ZSTD_startingInputLength format in
  reject_if (srcSize <? minInputSize) ZSTD_error_srcSize_wrong ;;;
  let* fhd := aget buf (src + minInputSize - 1) in
  let dictID := Z.land fhd 3 in
  let singleSegment := Z.land (Z.shiftr fhd 5) 1 in
  let fcsId := Z.shiftr fhd 6 in
  let* did := aget ZSTD_did_fieldSize dictID in
  let* fcs := aget ZSTD_fcs_fieldSize fcsId in
  Ok (minInputSize + b2z (singleSegment =? 0) + did + fcs
      + b2z (negb (singleSegment =? 0) && (fcsId =? 0))).

Definition ZSTD_frameHeaderSize buf src srcSize : res Z :=
  ZSTD_frameHeaderSize_internal buf src srcSize ZSTD_f_zstd1.

Definition zero_header : ZSTD_FrameHeader :=
  {| frameContentSize := 0; windowSize := 0; blockSizeMax := 0; frameType := ZSTD_frame;
     headerSize := 0; dictID := 0; checksumFlag := 0 |}.

(** Fewer than [minInputSize] bytes: do they start a known magic number? *)
Definition check_partial_magic buf src srcSize (format : ZSTD_format_e) : res unit :=
  if (0 <? srcSize) && bool_decide (format <> ZSTD_f_zstd1_magicless) then
    let toCopy := Z.min 4 srcSize in
    let* bs := asub buf src toCopy in
    let* hbuf := MEM_writeLE32 [0; 0; 0; 0] 0 ZSTD_MAGICNUMBER in
    let* hbuf := awrite hbuf 0 bs in
    let* m := MEM_readLE32 hbuf 0 in
    if negb (m =? ZSTD_MAGICNUMBER) then
      let* hbuf := MEM_writeLE32 hbuf 0 ZSTD_MAGIC_SKIPPABLE_START in
      let* hbuf := awrite hbuf 0 bs in
      let* m := MEM_readLE32 hbuf 0 in
      reject_if (negb (is_skippable_magic m)) ZSTD_error_prefix_unknown
    else Ok tt
  else Ok tt.

(** [switch(dictIDSizeCode)] and [switch(fcsID)] *)
Definition read_dictID buf src (pos dictIDSizeCode : Z) : res (Z * Z) :=
  match dictIDSizeCode with
  | 0 => Ok (0, pos)
  | 1 => let* d := aget buf (src + pos) in Ok (d, pos + 1)
  | 2 => let* d := MEM_readLE16 buf (src + pos) in Ok (d, pos + 2)
  | 3 => let* d := MEM_readLE32 buf (src + pos) in Ok (d, pos + 4)
  | _ => Fault AssertFailed
  end.

Definition read_fcs buf src (pos fcsID : Z) (singleSegment : bool) : res Z :=
  match fcsID with
  | 0 => if singleSegment then aget buf (src + pos) else Ok ZSTD_CONTENTSIZE_UNKNOWN
  | 1 => let* x := MEM_readLE16 buf (src + pos) in Ok (x + 256)
  | 2 => MEM_readLE32 buf (src + pos)
  | 3 => MEM_readLE64 buf (src + pos)
  | _ => Fault AssertFailed
  end.

(** The fields after the descriptor byte, all of them present. *)
Definition read_fields buf src (minInputSize fhsize : Z) : res (Z * ZSTD_FrameHeader) :=
  let* fhdByte := aget buf (src + minInputSize - 1) in
  let pos := minInputSize in
  let dictIDSizeCode := Z.land fhdByte 3 in
  let checksumFlag := Z.land (Z.shiftr fhdByte 2) 1 in
  let singleSegment := Z.land (Z.shiftr fhdByte 5) 1 in
  let fcsID := Z.shiftr fhdByte 6 in
  reject_if (negb (Z.land fhdByte 0x08 =? 0)) ZSTD_error_frameParameter_unsupported ;;;
  let* (windowSize, pos) :=
    if singleSegment =? 0 then
      let* wlByte := aget buf (src + pos) in
      let windowLog := Z.shiftr wlByte 3 + ZSTD_WINDOWLOG_ABSOLUTEMIN in
      reject_if (ZSTD_WINDOWLOG_MAX <? windowLog) ZSTD_error_frameParameter_windowTooLarge ;;;
      let windowSize := Z.shiftl 1 windowLog in
      Ok (u64 (windowSize + u64 (Z.shiftr windowSize 3 * Z.land wlByte 7)), pos + 1)
    else Ok (0, pos) in
  let* (dictID, pos) := read_dictID buf src pos dictIDSizeCode in
  let* frameContentSize := read_fcs buf src pos fcsID (negb (singleSegment =? 0)) in
  let windowSize := if negb (singleSegment =? 0) then frameContentSize else windowSize in
  Ok (0, {| frameContentSize := frameContentSize; windowSize := windowSize;
            blockSizeMax := u32 (Z.min windowSize ZSTD_BLOCKSIZE_MAX); frameType := ZSTD_frame;
            headerSize := fhsize; dictID := dictID; checksumFlag := checksumFlag |}).

(** The value returned (0, or the input size wanted) and what [zfhPtr] points to. *)
Definition ZSTD_getFrameHeader_advanced (zfh : ZSTD_FrameHeader) buf src srcSize (format : ZSTD_format_e)
  : res (Z * ZSTD_FrameHeader) :=
  let minInputSize := ZSTD_startingInputLength format in
  if srcSize <? minInputSize then
    check_partial_magic buf src srcSize format ;;;
    Ok (minInputSize, zfh)
  else
    let* magic := if decide (format = ZSTD_f_zstd1_magicless) then Ok ZSTD_MAGICNUMBER
                  else MEM_readLE32 buf src in
    if negb (magic =? ZSTD_MAGICNUMBER) then
      if is_skippable_magic magic then
        if srcSize <? ZSTD_SKIPPABLEHEADERSIZE then Ok (ZSTD_SKIPPABLEHEADERSIZE, zero_header)
        else
          let* n := MEM_readLE32 buf (src + ZSTD_FRAMEIDSIZE) in
          Ok (0, {| frameContentSize := n; windowSize := 0; blockSizeMax := 0;
                    frameType := ZSTD_skippableFrame; headerSize := ZSTD_SKIPPABLEHEADERSIZE;
                    dictID := u32 (magic - ZSTD_MAGIC_SKIPPABLE_START); checksumFlag := 0 |})
      else Err ZSTD_error_prefix_unknown
    else
      let* fhsize := ZSTD_frameHeaderSize_internal buf src srcSize format in
      if srcSize <? fhsize then Ok (fhsize, zero_header)
      else read_fields buf src minInputSize (u32 fhsize).

Definition ZSTD_getFrameHeader (zfh : ZSTD_FrameHeader) buf src srcSize : res (Z * ZSTD_FrameHeader) :=
  ZSTD_getFrameHeader_advanced zfh buf src srcSize ZSTD_f_zstd1.

Definition ZSTD_getFrameContentSize buf src srcSize : res Z :=
  match ZSTD_getFrameHeader zero_header buf src srcSize with
  | Ok (ret, zfh) =>
      if negb (ret =? 0) then Ok ZSTD_CONTENTSIZE_ERROR
      else if decide (frameType zfh = ZSTD_skippableFrame) then Ok 0
      else Ok (frameContentSize zfh)
  | Err _ => Ok ZSTD_CONTENTSIZE_ERROR
  | Fault f => Fault f
  end.

Definition ZSTD_getDecompressedSize buf src srcSize : res Z :=
  let* ret := ZSTD_getFrameContentSize buf src srcSize in
  Ok (if ZSTD_CONTENTSIZE_ERROR <=? ret then 0 else ret).

(** ** Skippable frames *)

Definition readSkippableFrameSize buf src srcSize : res Z :=
  reject_if (srcSize <? ZSTD_SKIPPABLEHEADERSIZE) ZSTD_error_srcSize_wrong ;;;
  let* sizeU32 := MEM_readLE32 buf (src + ZSTD_FRAMEIDSIZE) in
  reject_if (u32 (sizeU32 + ZSTD_SKIPPABLEHEADERSIZE) <? sizeU32) ZSTD_error_frameParameter_unsupported ;;;
  let skippableSize := size_t (ZSTD_SKIPPABLEHEADERSIZE + sizeU32) in
  reject_if (srcSize <? skippableSize) ZSTD_error_srcSize_wrong ;;;
  Ok skippableSize.

(** A [size_t] result kept as a number, error codes included. *)
Definition as_size (r : res Z) : res Z :=
  match r with
  | Ok n => Ok n
  | Err e => Ok (ERROR e)
  | Fault f => Fault f
  end.

(** The number of bytes delivered, the destination and the magic variant. *)
Definition ZSTD_readSkippableFrame (mem : list Z) (dst dstCapacity : Z) buf src srcSize : res (Z * list Z * Z) :=
  reject_if (srcSize <? ZSTD_SKIPPABLEHEADERSIZE) ZSTD_error_srcSize_wrong ;;;
  let* magicNumber := MEM_readLE32 buf src in
  let* skippableFrameSize := as_size (readSkippableFrameSize buf src srcSize) in
  let skippableContentSize := size_t (skippableFrameSize - ZSTD_SKIPPABLEHEADERSIZE) in
  let* isSkippable := ZSTD_isSkippableFrame buf src srcSize in
  reject_if (negb isSkippable) ZSTD_error_frameParameter_unsupported ;;;
  reject_if ((skippableFrameSize <? ZSTD_SKIPPABLEHEADERSIZE) || (srcSize <? skippableFrameSize))
    ZSTD_error_srcSize_wrong ;;;
  reject_if (dstCapacity <? skippableContentSize) ZSTD_error_dstSize_tooSmall ;;;
  let* mem :=
    if 0 <? skippableContentSize then
      let* bs := asub buf (src + ZSTD_SKIPPABLEHEADERSIZE) skippableContentSize in
      awrite mem dst bs
    else Ok mem in
  Ok (skippableContentSize, mem, u32 (magicNumber - ZSTD_MAGIC_SKIPPABLE_START)).

Definition ZSTD_writeSkippableFrame (mem : list Z) (dst dstCapacity : Z) buf src srcSize (magicVariant : Z)
  : res (Z * list Z) :=
  reject_if (dstCapacity <? size_t (srcSize + ZSTD_SKIPPABLEHEADERSIZE)) ZSTD_error_dstSize_tooSmall ;;;
  reject_if (0xFFFFFFFF <? srcSize) ZSTD_error_srcSize_wrong ;;;
  reject_if (15 <? magicVariant) ZSTD_error_parameter_outOfBound ;;;
  let* mem := MEM_writeLE32 mem dst (u32 (ZSTD_MAGIC_SKIPPABLE_START + magicVariant)) in
  let* mem := MEM_writeLE32 mem (dst + 4) (u32 srcSize) in
  let* bs := asub buf src srcSize in
  let* mem := awrite mem (dst + 8) bs in
  Ok (size_t (srcSize + ZSTD_SKIPPABLEHEADERSIZE), mem).

(** ** Blocks *)

Definition blockType_of (n : Z) : blockType_e :=
  match n with 0 => bt_raw | 1 => bt_rle | 2 => bt_compressed | _ => bt_reserved end.

Definition blockType_val (t : blockType_e) : Z :=
  match t with bt_raw => 0 | bt_rle => 1 | bt_compressed => 2 | bt_reserved => 3 end.

Definition ZSTD_getcBlockSize buf src srcSize : res (Z * blockProperties_t) :=
  reject_if (srcSize <? ZSTD_blockHeaderSize) ZSTD_error_srcSize_wrong ;;;
  let* cBlockHeader := MEM_readLE24 buf src in
  let cSize := Z.shiftr cBlockHeader 3 in
  let bp := {| lastBlock := Z.land cBlockHeader 1;
               blockType := blockType_of (Z.land (Z.shiftr cBlockHeader 1) 3);
               origSize := cSize |} in
  if decide (blockType bp = bt_rle) then Ok (1, bp)
  else
    reject_if (bool_decide (blockType bp = bt_reserved)) ZSTD_error_corruption_detected ;;;
    Ok (cSize, bp).

Definition ZSTD_noCompressBlock (mem : list Z) (dst dstCapacity : Z) buf src srcSize (lastBlock : Z)
  : res (Z * list Z) :=
  let cBlockHeader24 := u32 (u32 (lastBlock + Z.shiftl (blockType_val bt_raw) 1) + u32 (size_t (Z.shiftl srcSize 3))) in
  reject_if (dstCapacity <? size_t (srcSize + ZSTD_blockHeaderSize)) ZSTD_error_dstSize_tooSmall ;;;
  let* mem := MEM_writeLE24 mem dst cBlockHeader24 in
  let* bs := asub buf src srcSize in
  let* mem := awrite mem (dst + ZSTD_blockHeaderSize) bs in
  Ok (size_t (ZSTD_blockHeaderSize + srcSize), mem).

Definition ZSTD_rleCompressBlock (mem : list Z) (dst dstCapacity : Z) (b srcSize lastBlock : Z) : res (Z * list Z) :=
  let cBlockHeader := u32 (u32 (lastBlock + Z.shiftl (blockType_val bt_rle) 1) + u32 (size_t (Z.shiftl srcSize 3))) in
  reject_if (dstCapacity <? 4) ZSTD_error_dstSize_tooSmall ;;;
  let* mem := MEM_writeLE24 mem dst cBlockHeader in
  let* mem := aset mem (dst + 3) b in
  Ok (4, mem).

Definition ZSTD_writeLastEmptyBlock (mem : list Z) (dst dstCapacity : Z) : res (Z * list Z) :=
  reject_if (dstCapacity <? ZSTD_blockHeaderSize) ZSTD_error_dstSize_tooSmall ;;;
  let cBlockHeader24 := 1 + Z.shiftl (blockType_val bt_raw) 1 in
  let* mem := MEM_writeLE24 mem dst cBlockHeader24 in
  Ok (ZSTD_blockHeaderSize, mem).

(** ** Writing a frame header *)

(** [switch(dictIDSizeCode)] and [switch(fcsCode)] *)
Definition write_dictID (mem : list Z) (dst pos dictIDSizeCode dictID : Z) : res (list Z * Z) :=
  match dictIDSizeCode with
  | 0 => Ok (mem, pos)
  | 1 => let* mem := aset mem (dst + pos) (u8 dictID) in Ok (mem, pos + 1)
  | 2 => let* mem := MEM_writeLE16 mem (dst + pos) (u16 dictID) in Ok (mem, pos + 2)
  | 3 => let* mem := MEM_writeLE32 mem (dst + pos) dictID in Ok (mem, pos + 4)
  | _ => Fault AssertFailed
  end.

Definition write_fcs (mem : list Z) (dst pos fcsCode : Z) (singleSegment : bool) (pledgedSrcSize : Z)
  : res (list Z * Z) :=
  match fcsCode with
  | 0 => if singleSegment then let* mem := aset mem (dst + pos) (u8 pledgedSrcSize) in Ok (mem, pos + 1)
         else Ok (mem, pos)
  | 1 => let* mem := MEM_writeLE16 mem (dst + pos) (u16 (pledgedSrcSize - 256)) in Ok (mem, pos + 2)
  | 2 => let* mem := MEM_writeLE32 mem (dst + pos) (u32 pledgedSrcSize) in Ok (mem, pos + 4)
  | 3 => let* mem := MEM_writeLE64 mem (dst + pos) (u64 pledgedSrcSize) in Ok (mem, pos + 8)
  | _ => Fault AssertFailed
  end.

(** [params->format], [params->cParams.windowLog] and [params->fParams] are the
    fields of the parameters that are read. *)
Definition ZSTD_writeFrameHeader (mem : list Z) (dst dstCapacity : Z) (format : ZSTD_format_e)
    (windowLog : Z) (fParams : ZSTD_frameParameters) (pledgedSrcSize dictID : Z) : res (Z * list Z) :=
  let dictIDSizeCodeLength := b2z (0 <? dictID) + b2z (256 <=? dictID) + b2z (65536 <=? dictID) in
  let dictIDSizeCode := if negb (noDictIDFlag fParams =? 0) then 0 else dictIDSizeCodeLength in
  let checksumFlag := b2z (0 <? p_checksumFlag fParams) in
  let windowSize := u32 (Z.shiftl 1 windowLog) in
  let singleSegment := negb (contentSizeFlag fParams =? 0) && (pledgedSrcSize <=? windowSize) in
  let windowLogByte := u8 (Z.shiftl (u32 (windowLog - ZSTD_WINDOWLOG_ABSOLUTEMIN)) 3) in
  let fcsCode := if negb (contentSizeFlag fParams =? 0)
    then b2z (256 <=? pledgedSrcSize) + b2z (65536 + 256 <=? pledgedSrcSize) + b2z (0xFFFFFFFF <=? pledgedSrcSize)
    else 0 in
  let frameHeaderDescriptionByte :=
    u8 (dictIDSizeCode + Z.shiftl checksumFlag 2 + Z.shiftl (b2z singleSegment) 5 + Z.shiftl fcsCode 6) in
  oassert (negb (negb (contentSizeFlag fParams =? 0) && (pledgedSrcSize =? ZSTD_CONTENTSIZE_UNKNOWN))) ;;;
  reject_if (dstCapacity <? ZSTD_FRAMEHEADERSIZE_MAX) ZSTD_error_dstSize_tooSmall ;;;
  let* (mem, pos) :=
    if decide (format = ZSTD_f_zstd1) then
      let* mem := MEM_writeLE32 mem dst ZSTD_MAGICNUMBER in Ok (mem, 4)
    else Ok (mem, 0) in
  let* mem := aset mem (dst + pos) frameHeaderDescriptionByte in
  let pos := pos + 1 in
  let* (mem, pos) :=
    if negb singleSegment then let* mem := aset mem (dst + pos) windowLogByte in Ok (mem, pos + 1)
    else Ok (mem, pos) in
  let* (mem, pos) := write_dictID mem dst pos dictIDSizeCode dictID in
  let* (mem, pos) := write_fcs mem dst pos fcsCode singleSegment pledgedSrcSize in
  Ok (pos, mem).

(** ** Walking over frames *)

Definition ZSTD_errorFrameSizeInfo (ret : Z) : ZSTD_frameSizeInfo :=
  {| nbBlocks := 0; compressedSize := ret; decompressedBound := ZSTD_CONTENTSIZE_ERROR |}.

(** Each block: ([ip], [remainingSize], [nbBlocks]); [inr] is the end of the
    frame or an error. *)
Definition block_step buf (st : Z * Z * Z) : res (Z * Z * Z + (Z * Z * Z + ZSTD_frameSizeInfo)) :=
  let '(ip, remainingSize, nbBlocks) := st in
  match ZSTD_getcBlockSize buf ip remainingSize with
  | Err e => Ok (inr (inr (ZSTD_errorFrameSizeInfo (ERROR e))))
  | Fault f => Fault f
  | Ok (cBlockSize, bp) =>
      if remainingSize <? ZSTD_blockHeaderSize + cBlockSize
      then Ok (inr (inr (ZSTD_errorFrameSizeInfo (ERROR ZSTD_error_srcSize_wrong))))
      else
        let st := (ip + (ZSTD_blockHeaderSize + cBlockSize),
                   remainingSize - (ZSTD_blockHeaderSize + cBlockSize), nbBlocks + 1) in
        Ok (if negb (lastBlock bp =? 0) then inr (inl st) else inl st)
  end.

Definition ZSTD_findFrameSizeInfo buf src srcSize (format : ZSTD_format_e) : res ZSTD_frameSizeInfo :=
  let* skippable :=
    if bool_decide (format = ZSTD_f_zstd1) && (ZSTD_SKIPPABLEHEADERSIZE <=? srcSize) then
      let* magic := MEM_readLE32 buf src in Ok (is_skippable_magic magic)
    else Ok false in
  if skippable : bool then
    let* n := as_size (readSkippableFrameSize buf src srcSize) in
    oassert (ERR_isError n || (n <=? srcSize)) ;;;
    Ok {| nbBlocks := 0; compressedSize := n; decompressedBound := 0 |}
  else
    match ZSTD_getFrameHeader_advanced zero_header buf src srcSize format with
    | Err e => Ok (ZSTD_errorFrameSizeInfo (ERROR e))
    | Fault f => Fault f
    | Ok (ret, zfh) =>
        if 0 <? ret then Ok (ZSTD_errorFrameSizeInfo (ERROR ZSTD_error_srcSize_wrong))
        else
          let* r := loop (S (Z.to_nat srcSize)) (block_step buf)
                      (src + headerSize zfh, srcSize - headerSize zfh, 0) in
          match r with
          | inr info => Ok info
          | inl (ip, remainingSize, nbBlocks) =>
              if negb (checksumFlag zfh =? 0) && (remainingSize <? 4)
              then Ok (ZSTD_errorFrameSizeInfo (ERROR ZSTD_error_srcSize_wrong))
              else
                let ip := if negb (checksumFlag zfh =? 0) then ip + 4 else ip in
                Ok {| nbBlocks := nbBlocks; compressedSize := ip - src;
                      decompressedBound :=
                        if negb (frameContentSize zfh =? ZSTD_CONTENTSIZE_UNKNOWN) then frameContentSize zfh
                        else u64 (nbBlocks * blockSizeMax zfh) |}
          end
    end.

Definition ZSTD_findFrameCompressedSize_advanced buf src srcSize (format : ZSTD_format_e) : res Z :=
  let* info := ZSTD_findFrameSizeInfo buf src srcSize format in
  Ok (compressedSize info).

Definition ZSTD_findFrameCompressedSize buf src srcSize : res Z :=
  ZSTD_findFrameCompressedSize_advanced buf src srcSize ZSTD_f_zstd1.

(** ([src], [srcSize], [totalDstSize]) *)
Definition size_step buf (st : Z * Z * Z) : res (Z * Z * Z + Z) :=
  let '(src, srcSize, totalDstSize) := st in
  if ZSTD_startingInputLength ZSTD_f_zstd1 <=? srcSize then
    let* magicNumber := MEM_readLE32 buf src in
    if is_skippable_magic magicNumber then
      let* skippableSize := as_size (readSkippableFrameSize buf src srcSize) in
      if ERR_isError skippableSize then Ok (inr ZSTD_CONTENTSIZE_ERROR)
      else
        oassert (skippableSize <=? srcSize) ;;;
        Ok (inl (src + skippableSize, srcSize - skippableSize, totalDstSize))
    else
      let* fcs := ZSTD_getFrameContentSize buf src srcSize in
      if ZSTD_CONTENTSIZE_ERROR <=? fcs then Ok (inr fcs)
      else if u64 (totalDstSize + fcs) <? totalDstSize then Ok (inr ZSTD_CONTENTSIZE_ERROR)
      else
        let totalDstSize := u64 (totalDstSize + fcs) in
        let* frameSrcSize := ZSTD_findFrameCompressedSize buf src srcSize in
        if ERR_isError frameSrcSize then Ok (inr ZSTD_CONTENTSIZE_ERROR)
        else
          oassert (frameSrcSize <=? srcSize) ;;;
          Ok (inl (src + frameSrcSize, srcSize - frameSrcSize, totalDstSize))
  else if negb (srcSize =? 0) then Ok (inr ZSTD_CONTENTSIZE_ERROR)
  else Ok (inr totalDstSize).

Definition ZSTD_findDecompressedSize buf src srcSize : res Z :=
  loop (S (Z.to_nat srcSize)) (size_step buf) (src, srcSize, 0).

(** ([src], [srcSize], [bound]) *)
Definition bound_step buf (st : Z * Z * Z) : res (Z * Z * Z + Z) :=
  let '(src, srcSize, bound) := st in
  if 0 <? srcSize then
    let* info := ZSTD_findFrameSizeInfo buf src srcSize ZSTD_f_zstd1 in
    if ERR_isError (compressedSize info) || (decompressedBound info =? ZSTD_CONTENTSIZE_ERROR)
    then Ok (inr ZSTD_CONTENTSIZE_ERROR)
    else
      oassert (compressedSize info <=? srcSize) ;;;
      Ok (inl (src + compressedSize info, srcSize - compressedSize info, u64 (bound + decompressedBound info)))
  else Ok (inr bound).

Definition ZSTD_decompressBound buf src srcSize : res Z :=
  loop (S (Z.to_nat srcSize)) (bound_step buf) (src, srcSize, 0).

(** ([src], [srcSize], [margin], [maxBlockSize]) *)
Definition margin_step buf (st : Z * Z * Z * Z) : res (Z * Z * Z * Z + Z) :=
  let '(src, srcSize, margin, maxBlockSize) := st in
  if 0 <? srcSize then
    let* info := ZSTD_findFrameSizeInfo buf src srcSize ZSTD_f_zstd1 in
    let* (ret, zfh) := ZSTD_getFrameHeader zero_header buf src srcSize in
    reject_if (ERR_isError (compressedSize info) || (decompressedBound info =? ZSTD_CONTENTSIZE_ERROR))
      ZSTD_error_corruption_detected ;;;
    let* (margin, maxBlockSize) :=
      if decide (frameType zfh = ZSTD_frame) then
        let margin := size_t (margin + headerSize zfh) in
        let margin := size_t (margin + (if negb (checksumFlag zfh =? 0) then 4 else 0)) in
        let margin := size_t (margin + size_t (3 * nbBlocks info)) in
        Ok (margin, Z.max maxBlockSize (blockSizeMax zfh))
      else
        oassert (bool_decide (frameType zfh = ZSTD_skippableFrame)) ;;;
        Ok (size_t (margin + compressedSize info), maxBlockSize) in
    oassert (compressedSize info <=? srcSize) ;;;
    Ok (inl (src + compressedSize info, srcSize - compressedSize info, margin, maxBlockSize))
  else Ok (inr (size_t (margin + maxBlockSize))).

Definition ZSTD_decompressionMargin buf src srcSize : res Z :=
  loop (S (Z.to_nat srcSize)) (margin_step buf) (src, srcSize, 0, 0).
End Definitions.

(** ** A frame header as bytes *)

(** The three optional fields: the byte with the window's size, the dictionary's
    identifier and the content size. *)
Definition wl_bytes (ss : bool) (wlb : Z) : list Z := if ss then [] else [wlb].

Definition did_size (code : Z) : nat := match code with 1 => 1%nat | 2 => 2%nat | 3 => 4%nat | _ => 0%nat end.
Definition did_bytes (code did : Z) : list Z := le_bytes (did_size code) did.

Definition fcs_size (code : Z) (ss : bool) : nat :=
  match code with 0 => (if ss then 1 else 0)%nat | 1 => 2%nat | 2 => 4%nat | _ => 8%nat end.
Definition fcs_bytes (code : Z) (ss : bool) (fcs : Z) : list Z :=
  le_bytes (fcs_size code ss) (if code =? 1 then fcs - 256 else fcs).

Definition magic_bytes (format : ZSTD_format_e) : list Z :=
  if decide (format = ZSTD_f_zstd1) then le_bytes 4 ZSTD_MAGICNUMBER else [].

Definition fhd_byte (dcode c : Z) (ss : bool) (fcode : Z) : Z := dcode + 4 * c + 32 * b2z ss + 64 * fcode.

Definition header_bytes (format : ZSTD_format_e) (dcode c : Z) (ss : bool) (fcode wlb did fcs : Z) : list Z :=
  magic_bytes format ++ [fhd_byte dcode c ss fcode] ++ wl_bytes ss wlb ++ did_bytes dcode did ++ fcs_bytes fcode ss fcs.

(** The fields of the descriptor byte. *)
Lemma fhd_fields dcode c ss fcode :
  0 <= dcode < 4 -> 0 <= c < 2 -> 0 <= fcode < 4 ->
  let fhd := fhd_byte dcode c ss fcode in
  is_byte fhd /\ Z.land fhd 3 = dcode /\ Z.land (Z.shiftr fhd 2) 1 = c /\
  Z.land (Z.shiftr fhd 5) 1 = b2z ss /\ Z.shiftr fhd 6 = fcode /\ Z.land fhd 0x08 = 0.
Proof.
  intros Hd Hc Hf. assert (dcode = 0 \/ dcode = 1 \/ dcode = 2 \/ dcode = 3) as Hd' by lia.
  assert (fcode = 0 \/ fcode = 1 \/ fcode = 2 \/ fcode = 3) as Hf' by lia. assert (c = 0 \/ c = 1) as Hc' by lia.
  destruct ss, Hc' as [-> | ->], Hd' as [-> |[-> |[-> | ->]]], Hf' as [-> |[-> |[-> | ->]]]; vm_compute; repeat split; congruence.
Qed.

Lemma length_did code did : zlen (did_bytes code did) = Z.of_nat (did_size code).
Proof. apply zlen_le_bytes. Qed.

Lemma length_fcs code ss fcs : zlen (fcs_bytes code ss fcs) = Z.of_nat (fcs_size code ss).
Proof. apply zlen_le_bytes. Qed.

Lemma did_size_le code : 0 <= Z.of_nat (did_size code) <= 4.
Proof. unfold did_size. destruct code as [|[[]|[]|]|]; lia. Qed.

Lemma fcs_size_le code ss : 0 <= Z.of_nat (fcs_size code ss) <= 8.
Proof. unfold fcs_size. destruct code as [|[[]|[]|]|], ss; lia. Qed.

Lemma did_field d : 0 <= d < 4 -> aget ZSTD_did_fieldSize d = (Ok (Z.of_nat (did_size d)) : res Z).
Proof. intros. assert (d = 0 \/ d = 1 \/ d = 2 \/ d = 3) as [-> |[-> |[-> | ->]]] by lia; done. Qed.

Lemma fcs_field f : 0 <= f < 4 -> aget ZSTD_fcs_fieldSize f = (Ok (Z.of_nat (fcs_size f false)) : res Z).
Proof. intros. assert (f = 0 \/ f = 1 \/ f = 2 \/ f = 3) as [-> |[-> |[-> | ->]]] by lia; done. Qed.

Lemma fcs_size_split f ss :
  0 <= f < 4 -> Z.of_nat (fcs_size f false) + b2z (ss && (f =? 0)) = Z.of_nat (fcs_size f ss).
Proof. intros. assert (f = 0 \/ f = 1 \/ f = 2 \/ f = 3) as [-> |[-> |[-> | ->]]] by lia; by destruct ss. Qed.

Lemma le_bytes_wrap n x : le_bytes n (wrap (8 * Z.of_nat n) x) = le_bytes n x.
Proof.
  unfold wrap. rewrite Z.pow_mul_r by lia. change (2 ^ 8) with 256. apply le_bytes_mod.
Qed.

Section WriteHeader.
Context `{P : Platform} (mem : list Z) (dst : Z).
Hypothesis Hdst : 0 <= dst.

(** One more byte, or a number, after the bytes [w] already written. *)
Lemma emit1 w b :
  dst + zlen w + 1 <= zlen mem ->
  aset (splice mem dst w) (dst + zlen w) b = (Ok (splice mem dst (w ++ [b])) : res (list Z)).
Proof.
  intros Hr. pose proof (zlen_nonneg w). rewrite aset_Ok by (rewrite zlen_splice; lia).
  rewrite <- splice_one by (rewrite zlen_splice; lia). rewrite splice_app; [done|lia|].
  change (zlen [b]) with 1. lia.
Qed.

Lemma emit_le n w v :
  dst + zlen w + Z.of_nat n <= zlen mem ->
  splice (splice mem dst w) (dst + zlen w) (le_bytes n v) = splice mem dst (w ++ le_bytes n v).
Proof. intros Hr. apply splice_app; [lia|]. rewrite zlen_le_bytes. lia. Qed.

Lemma write_dictID_val w code did :
  0 <= code < 4 -> 0 <= did < 2 ^ 32 -> dst + zlen w + Z.of_nat (did_size code) <= zlen mem ->
  write_dictID (splice mem dst w) dst (zlen w) code did =
  Ok (splice mem dst (w ++ did_bytes code did), zlen w + Z.of_nat (did_size code)).
Proof.
  intros Hc Hd Hr. pose proof (zlen_nonneg w). unfold did_bytes.
  assert (code = 0 \/ code = 1 \/ code = 2 \/ code = 3) as [-> |[-> |[-> | ->]]] by lia; cbn [did_size write_dictID] in *.
  - rewrite app_nil_r. eq_lia.
  - rewrite emit1 by lia. cbn [obind]. do 5 f_equal.
  - rewrite MEM_writeLE16_val by (rewrite ?zlen_splice by lia; try lia; apply wrap_range; lia). cbn [obind].
    rewrite (le_bytes_wrap 2), emit_le by lia. done.
  - rewrite MEM_writeLE32_val by (rewrite ?zlen_splice by lia; lia). cbn [obind]. rewrite emit_le by lia. done.
Qed.

Lemma write_fcs_val w code ss fcs :
  0 <= code < 4 -> dst + zlen w + Z.of_nat (fcs_size code ss) <= zlen mem ->
  write_fcs (splice mem dst w) dst (zlen w) code ss fcs =
  Ok (splice mem dst (w ++ fcs_bytes code ss fcs), zlen w + Z.of_nat (fcs_size code ss)).
Proof.
  intros Hc Hr. pose proof (zlen_nonneg w). unfold fcs_bytes.
  assert (code = 0 \/ code = 1 \/ code = 2 \/ code = 3) as [-> |[-> |[-> | ->]]] by lia;
    cbn [fcs_size write_fcs Z.eqb Pos.eqb] in *.
  - destruct ss; [|rewrite app_nil_r; eq_lia]. rewrite emit1 by lia. cbn [obind]. do 5 f_equal.
  - rewrite MEM_writeLE16_val by (rewrite ?zlen_splice by lia; try lia; apply wrap_range; lia). cbn [obind].
    rewrite (le_bytes_wrap 2), emit_le by lia. done.
  - rewrite MEM_writeLE32_val by (rewrite ?zlen_splice by lia; try lia; apply wrap_range; lia). cbn [obind].
    rewrite (le_bytes_wrap 4), emit_le by lia. done.
  - rewrite MEM_writeLE64_val by (rewrite ?zlen_splice by lia; try lia; apply wrap_range; lia). cbn [obind].
    rewrite (le_bytes_wrap 8), emit_le by lia. done.
Qed.
End WriteHeader.

(** A part of a sequence of bytes that stands at [src] in a buffer. *)
Definition stands_at (buf : list Z) (src : Z) (l : list Z) : Prop :=
  0 <= src /\ src + zlen l <= zlen buf /\ slice buf src (zlen l) = l.

Lemma stands_at_mid buf src a x y :
  stands_at buf src (a ++ x ++ y) -> stands_at buf (src + zlen a) x.
Proof.
  intros (Hs & Hl & He). rewrite !zlen_app in Hl. pose proof (zlen_nonneg a). pose proof (zlen_nonneg x).
  pose proof (zlen_nonneg y). split; [lia|]. split; [lia|].
  rewrite <- (slice_slice buf src (zlen (a ++ x ++ y)) (zlen a) (zlen x)) by (rewrite ?zlen_app; lia).
  rewrite He. unfold slice, zlen. rewrite !Nat2Z.id, drop_app_length, take_app_length. done.
Qed.

Lemma stands_at_le `{P : Platform} buf p n x :
  stands_at buf p (le_bytes n x) -> p + Z.of_nat n <= zlen buf /\ slice buf p (Z.of_nat n) = le_bytes n x.
Proof. intros (Hp & Hl & He). by rewrite zlen_le_bytes in Hl, He. Qed.

Lemma stands_at_byte buf p b : stands_at buf p [b] -> aget buf p = (Ok b : res Z).
Proof.
  intros (Hp & Hl & He). apply aget_Ok. split; [lia|]. change (zlen [b]) with 1 in *.
  rewrite <- (Nat.add_0_r (Z.to_nat p)), <- (lookup_slice buf p 1 0) by lia. by rewrite He.
Qed.

Section ReadHeader.
Context `{P : Platform} (buf : list Z) (src : Z).
Hypothesis Hb : bytes buf.

Lemma read_dictID_val pos code did :
  0 <= code < 4 -> 0 <= did < 256 ^ Z.of_nat (did_size code) -> stands_at buf (src + pos) (did_bytes code did) ->
  read_dictID buf src pos code = Ok (did, pos + Z.of_nat (did_size code)).
Proof.
  intros Hc Hd Hst. pose proof Hst as (Hp & _). apply stands_at_le in Hst as Hle. destruct Hle as [Hl Hsl].
  assert (code = 0 \/ code = 1 \/ code = 2 \/ code = 3) as [-> |[-> |[-> | ->]]] by lia;
    cbn [did_size read_dictID] in *.
  - eq_lia.
  - rewrite (stands_at_byte buf _ did); [done|]. unfold did_bytes in Hst; simpl in Hst. by rewrite Z.mod_small in Hst by lia.
  - rewrite MEM_readLE16_val by (done || lia). cbn [obind]. change 2 with (Z.of_nat 2) at 1. by rewrite Hsl, le_val_le_bytes_small.
  - rewrite MEM_readLE32_val by (done || lia). cbn [obind]. change 4 with (Z.of_nat 4) at 1. by rewrite Hsl, le_val_le_bytes_small.
Qed.

Lemma read_fcs_val pos code ss fcs :
  0 <= code < 4 ->
  (if code =? 1 then 256 <= fcs < 65536 + 256 else 0 <= fcs < 256 ^ Z.of_nat (fcs_size code true)) ->
  stands_at buf (src + pos) (fcs_bytes code ss fcs) ->
  read_fcs buf src pos code ss = Ok (if (code =? 0) && negb ss then ZSTD_CONTENTSIZE_UNKNOWN else fcs).
Proof.
  intros Hc Hd Hst. pose proof Hst as (Hp & _). apply stands_at_le in Hst as Hle. destruct Hle as [Hl Hsl].
  assert (code = 0 \/ code = 1 \/ code = 2 \/ code = 3) as [-> |[-> |[-> | ->]]] by lia;
    cbn [fcs_size read_fcs Z.eqb Pos.eqb andb] in *.
  - destruct ss; [|done]. rewrite (stands_at_byte buf _ fcs); [done|]. unfold fcs_bytes in Hst; simpl in Hst.
    by rewrite Z.mod_small in Hst by lia.
  - rewrite MEM_readLE16_val by (done || lia). cbn [obind]. change 2 with (Z.of_nat 2) at 1.
    rewrite Hsl, le_val_le_bytes_small by (change (256 ^ Z.of_nat 2) with 65536; lia). eq_lia.
  - rewrite MEM_readLE32_val by (done || lia). change 4 with (Z.of_nat 4) at 1. by rewrite Hsl, le_val_le_bytes_small.
  - rewrite MEM_readLE64_val by (done || lia). change 8 with (Z.of_nat 8) at 1. by rewrite Hsl, le_val_le_bytes_small.
Qed.

Lemma b2z_eqb b : (b2z b =? 0) = negb b.
Proof. by destruct b. Qed.

(** The size computed from the descriptor byte is the size of the header. *)
Lemma frameHeaderSize_val format dcode c ss fcode wlb did fcs srcSize :
  0 <= dcode < 4 -> 0 <= c < 2 -> 0 <= fcode < 4 ->
  stands_at buf src (magic_bytes format ++ [fhd_byte dcode c ss fcode]) ->
  ZSTD_startingInputLength format <= srcSize ->
  ZSTD_frameHeaderSize_internal buf src srcSize format =
  Ok (zlen (header_bytes format dcode c ss fcode wlb did fcs)).
Proof.
  intros Hd Hc Hf Hst Hsz. unfold ZSTD_frameHeaderSize_internal.
  unfold reject_if. rewrite (proj2 (Z.ltb_ge _ _)) by lia. cbn [obind].
  assert (ZSTD_startingInputLength format = zlen (magic_bytes format) + 1) as Hmin
    by (unfold ZSTD_startingInputLength, ZSTD_FRAMEHEADERSIZE_PREFIX, magic_bytes; by destruct (decide _)).
  rewrite <- (app_nil_r [_]) in Hst. apply stands_at_mid in Hst.
  replace (src + ZSTD_startingInputLength format - 1) with (src + zlen (magic_bytes format)) by lia.
  rewrite (stands_at_byte _ _ _ Hst). cbn [obind].
  pose proof (fhd_fields dcode c ss fcode Hd Hc Hf) as (_ & -> & _ & -> & -> & _). cbv zeta.
  unfold header_bytes. rewrite !zlen_app, length_did, length_fcs, b2z_eqb, negb_involutive, Hmin.
  rewrite did_field, fcs_field by done. cbn [obind]. rewrite <- (fcs_size_split fcode ss) by done.
  f_equal. destruct ss; cbn [negb b2z wl_bytes]; rewrite ?zlen_cons; change (@zlen Z []) with 0; lia.
Qed.

(** What the window byte stands for. *)
Definition window_of (wlb : Z) : Z :=
  let w := Z.shiftl 1 (Z.shiftr wlb 3 + ZSTD_WINDOWLOG_ABSOLUTEMIN) in
  u64 (w + u64 (Z.shiftr w 3 * Z.land wlb 7)).

Definition header_of (format : ZSTD_format_e) (dcode c : Z) (ss : bool) (fcode wlb did fcs : Z) : ZSTD_FrameHeader :=
  let content := if (fcode =? 0) && negb ss then ZSTD_CONTENTSIZE_UNKNOWN else fcs in
  let window := if ss then content else window_of wlb in
  {| frameContentSize := content; windowSize := window; blockSizeMax := u32 (Z.min window ZSTD_BLOCKSIZE_MAX);
     frameType := ZSTD_frame; headerSize := zlen (header_bytes format dcode c ss fcode wlb did fcs);
     dictID := did; checksumFlag := c |}.

Lemma starting_length format : ZSTD_startingInputLength format = zlen (magic_bytes format) + 1.
Proof. unfold ZSTD_startingInputLength, ZSTD_FRAMEHEADERSIZE_PREFIX, magic_bytes. by destruct (decide _). Qed.

Lemma read_fields_val format dcode c ss fcode wlb did fcs :
  0 <= dcode < 4 -> 0 <= c < 2 -> 0 <= fcode < 4 -> is_byte wlb ->
  (ss = false -> Z.shiftr wlb 3 + ZSTD_WINDOWLOG_ABSOLUTEMIN <= ZSTD_WINDOWLOG_MAX) ->
  0 <= did < 256 ^ Z.of_nat (did_size dcode) ->
  (if fcode =? 1 then 256 <= fcs < 65536 + 256 else 0 <= fcs < 256 ^ Z.of_nat (fcs_size fcode true)) ->
  let hb := header_bytes format dcode c ss fcode wlb did fcs in
  stands_at buf src hb ->
  read_fields buf src (ZSTD_startingInputLength format) (zlen hb) =
  Ok (0, header_of format dcode c ss fcode wlb did fcs).
Proof.
  intros Hd Hc Hf Hwb Hw Hdid Hfcs hb Hst. unfold read_fields. rewrite starting_length.
  pose proof (fhd_fields dcode c ss fcode Hd Hc Hf) as (_ & E1 & E2 & E3 & E4 & E5). cbv zeta in *.
  set (m := magic_bytes format) in *. set (fhd := fhd_byte dcode c ss fcode) in *.
  unfold hb, header_bytes in Hst. fold m fhd in Hst.
  rewrite (stands_at_byte buf (src + (zlen m + 1) - 1) fhd)
    by (replace (src + (zlen m + 1) - 1) with (src + zlen m) by lia; by eapply stands_at_mid).
  cbn [obind]. rewrite E1, E2, E3, E4, E5. cbn [reject_if negb Z.eqb obind].
  rewrite b2z_eqb, negb_involutive. rewrite app_assoc in Hst.
  assert (zlen m + 1 = zlen (m ++ [fhd])) as -> by (by rewrite zlen_app).
  set (pre := m ++ [fhd]) in *. pose proof (stands_at_mid _ _ _ _ _ Hst) as Hwl.
  assert ((if negb ss then
     let* wlByte := aget buf (src + zlen pre) in
     reject_if (ZSTD_WINDOWLOG_MAX <? Z.shiftr wlByte 3 + ZSTD_WINDOWLOG_ABSOLUTEMIN)
       ZSTD_error_frameParameter_windowTooLarge;;;
     Ok (u64 (Z.shiftl 1 (Z.shiftr wlByte 3 + ZSTD_WINDOWLOG_ABSOLUTEMIN) +
           u64 (Z.shiftr (Z.shiftl 1 (Z.shiftr wlByte 3 + ZSTD_WINDOWLOG_ABSOLUTEMIN)) 3 * Z.land wlByte 7)), zlen pre + 1)
    else Ok (0, zlen pre)) = (Ok (if ss then 0 else window_of wlb, zlen (pre ++ wl_bytes ss wlb)) : res (Z * Z))) as ->.
  { destruct ss; cbn [negb wl_bytes] in *; rewrite zlen_app; [change (@zlen Z []) with 0; eq_lia|].
    rewrite (stands_at_byte _ _ _ Hwl). cbn [obind]. unfold reject_if.
    rewrite (proj2 (Z.ltb_ge _ _)) by (by apply Hw). done. }
  cbn [obind]. rewrite app_assoc in Hst. set (pre2 := pre ++ wl_bytes ss wlb) in *.
  rewrite (read_dictID_val _ _ did) by (done || by eapply stands_at_mid). cbn [obind].
  rewrite app_assoc, <- (app_nil_r (fcs_bytes _ _ _)) in Hst.
  assert (zlen pre2 + Z.of_nat (did_size dcode) = zlen (pre2 ++ did_bytes dcode did)) as ->
    by (by rewrite zlen_app, length_did).
  rewrite (read_fcs_val _ _ _ fcs) by (done || by eapply stands_at_mid). cbn [obind].
  unfold header_of. by destruct ss.
Qed.

Lemma header_size_max format dcode c ss fcode wlb did fcs :
  zlen (magic_bytes format) + 1 <= zlen (header_bytes format dcode c ss fcode wlb did fcs) <= ZSTD_FRAMEHEADERSIZE_MAX.
Proof.
  unfold header_bytes. rewrite !zlen_app, length_did, length_fcs. change (zlen [_]) with 1.
  pose proof (did_size_le dcode). pose proof (fcs_size_le fcode ss). unfold ZSTD_FRAMEHEADERSIZE_MAX.
  assert (0 <= zlen (wl_bytes ss wlb) <= 1) by (destruct ss; vm_compute; split; congruence).
  assert (0 <= zlen (magic_bytes format) <= 4) by (unfold magic_bytes; destruct (decide _); vm_compute; split; congruence).
  lia.
Qed.

Lemma stands_at_app buf' src' a b : stands_at buf' src' (a ++ b) -> stands_at buf' src' a.
Proof. intros H. apply (stands_at_mid buf' src' [] a b) in H. by rewrite Z.add_0_r in H. Qed.

Lemma magic_read format rest :
  stands_at buf src (magic_bytes format ++ rest) ->
  (if decide (format = ZSTD_f_zstd1_magicless) then Ok ZSTD_MAGICNUMBER else MEM_readLE32 buf src)
  = (Ok ZSTD_MAGICNUMBER : res Z).
Proof.
  intros Hst. apply stands_at_app in Hst as Hm. destruct format; [|done].
  rewrite decide_False by done. unfold magic_bytes in Hm. rewrite decide_True in Hm by done.
  pose proof Hm as (Hs & _). apply stands_at_le in Hm as [Hl He].
  rewrite MEM_readLE32_val by (done || lia). change 4 with (Z.of_nat 4). rewrite He. done.
Qed.

Lemma getFrameHeader_val format dcode c ss fcode wlb did fcs zfh srcSize :
  0 <= dcode < 4 -> 0 <= c < 2 -> 0 <= fcode < 4 -> is_byte wlb ->
  (ss = false -> Z.shiftr wlb 3 + ZSTD_WINDOWLOG_ABSOLUTEMIN <= ZSTD_WINDOWLOG_MAX) ->
  0 <= did < 256 ^ Z.of_nat (did_size dcode) ->
  (if fcode =? 1 then 256 <= fcs < 65536 + 256 else 0 <= fcs < 256 ^ Z.of_nat (fcs_size fcode true)) ->
  let hb := header_bytes format dcode c ss fcode wlb did fcs in
  stands_at buf src hb -> zlen hb <= srcSize ->
  ZSTD_getFrameHeader_advanced zfh buf src srcSize format = Ok (0, header_of format dcode c ss fcode wlb did fcs).
Proof.
  intros Hd Hc Hf Hwb Hw Hdid Hfcs hb Hst Hsz. unfold ZSTD_getFrameHeader_advanced.
  pose proof (header_size_max format dcode c ss fcode wlb did fcs) as Hmax. fold hb in Hmax.
  unfold ZSTD_FRAMEHEADERSIZE_MAX in Hmax. pose proof (starting_length format) as Hmin.
  rewrite (proj2 (Z.ltb_ge srcSize _)) by lia. rewrite (magic_read format _ Hst). cbn [obind].
  change (ZSTD_MAGICNUMBER =? ZSTD_MAGICNUMBER) with true. cbn [negb].
  rewrite (frameHeaderSize_val format dcode c ss fcode wlb did fcs); [|done|done|done| |lia].
  2:{ unfold hb, header_bytes in Hst. rewrite app_assoc in Hst. by eapply stands_at_app. }
  cbn [obind]. fold hb. rewrite (proj2 (Z.ltb_ge srcSize _)) by lia. pose proof (zlen_nonneg hb).
  rewrite (wrap_small 32) by lia. by apply read_fields_val.
Qed.

Lemma partial_magic n :
  0 <= n < 5 -> stands_at buf src (take (Z.to_nat n) (le_bytes 4 ZSTD_MAGICNUMBER)) ->
  check_partial_magic buf src n ZSTD_f_zstd1 = Ok tt.
Proof.
  intros Hn (Hs & Hl & He). unfold check_partial_magic. rewrite bool_decide_true by done.
  destruct (Z.ltb_spec 0 n); [|done]. cbn [andb].
  set (M := le_bytes 4 ZSTD_MAGICNUMBER) in *.
  assert (zlen (take (Z.to_nat n) M) = Z.min 4 n) as Hz by (unfold zlen, M; rewrite length_take, length_le_bytes; lia).
  rewrite Hz in Hl, He. rewrite asub_Ok by lia. rewrite He. cbn [obind].
  rewrite MEM_writeLE32_val by (first [lia | vm_compute; first [split; congruence | congruence]]). fold M. cbn [obind].
  rewrite awrite_Ok by (rewrite ?Hz; change (zlen (splice [0; 0; 0; 0] 0 M)) with 4; lia). cbn [obind].
  assert (splice (splice [0; 0; 0; 0] 0 M) 0 (take (Z.to_nat n) M) = M) as ->.
  { assert (n = 1 \/ n = 2 \/ n = 3 \/ n = 4) as [-> |[-> |[-> | ->]]] by lia; reflexivity. }
  rewrite MEM_readLE32_val; [reflexivity|by apply bytes_le_bytes|lia|vm_compute; congruence].
Qed.

(** On a proper prefix of a header the reader asks for more. *)
Lemma getFrameHeader_prefix format dcode c ss fcode wlb did fcs zfh n :
  0 <= dcode < 4 -> 0 <= c < 2 -> 0 <= fcode < 4 ->
  let hb := header_bytes format dcode c ss fcode wlb did fcs in
  0 <= n < zlen hb -> stands_at buf src (take (Z.to_nat n) hb) ->
  exists w z, ZSTD_getFrameHeader_advanced zfh buf src n format = Ok (w, z) /\ n < w <= zlen hb.
Proof.
  intros Hd Hc Hf hb Hn Hst. unfold ZSTD_getFrameHeader_advanced.
  pose proof (header_size_max format dcode c ss fcode wlb did fcs) as Hmax. fold hb in Hmax.
  pose proof (starting_length format) as Hmin. destruct (Z.ltb_spec n (ZSTD_startingInputLength format)).
  - assert (check_partial_magic buf src n format = Ok tt) as ->; [|cbn [obind]; eexists _, _; split; [reflexivity|lia]].
    destruct format.
    + change (ZSTD_startingInputLength ZSTD_f_zstd1) with 5 in *. apply partial_magic; [lia|].
      unfold hb, header_bytes, magic_bytes in Hst. rewrite decide_True in Hst by done.
      by rewrite take_app_le in Hst by (rewrite length_le_bytes; lia).
    + unfold check_partial_magic. rewrite bool_decide_false by (intros []; done). by rewrite andb_false_r.
  - set (pre := magic_bytes format ++ [fhd_byte dcode c ss fcode]).
    assert (zlen pre = zlen (magic_bytes format) + 1) as Hpre by (unfold pre; by rewrite zlen_app).
    assert (exists rest, take (Z.to_nat n) hb = pre ++ rest) as [rest Hr].
    { unfold hb, header_bytes. rewrite app_assoc. fold pre. rewrite take_app_ge by (unfold zlen in *; lia). eauto. }
    rewrite Hr in Hst. unfold pre in Hst. rewrite <- app_assoc in Hst. rewrite (magic_read format _ Hst). cbn [obind].
    rewrite app_assoc in Hst. change (ZSTD_MAGICNUMBER =? ZSTD_MAGICNUMBER) with true. cbn [negb].
    rewrite (frameHeaderSize_val format dcode c ss fcode wlb did fcs); [|done|done|done|by eapply stands_at_app|lia].
    cbn [obind]. fold hb. rewrite (proj2 (Z.ltb_lt n _)) by lia. eexists _, _. split; [reflexivity|lia].
Qed.
End ReadHeader.

(** ** Writing then reading a frame header *)

Section RoundTrip.
Context `{P : Platform} (format : ZSTD_format_e) (windowLog : Z) (fp : ZSTD_frameParameters) (pledged did : Z).
Hypothesis Hwl : ZSTD_WINDOWLOG_ABSOLUTEMIN <= windowLog <= ZSTD_WINDOWLOG_MAX.
Hypothesis Hdid : 0 <= did < 2 ^ 32.
Hypothesis Hpl : 0 <= pledged < 2 ^ 64.
Hypothesis Hknown : contentSizeFlag fp <> 0 -> pledged <> ZSTD_CONTENTSIZE_UNKNOWN.

(** The codes the writer chooses. *)
Definition w_dcode : Z :=
  if negb (noDictIDFlag fp =? 0) then 0 else b2z (0 <? did) + b2z (256 <=? did) + b2z (65536 <=? did).
Definition w_ss : bool := negb (contentSizeFlag fp =? 0) && (pledged <=? 2 ^ windowLog).
Definition w_fcode : Z :=
  if negb (contentSizeFlag fp =? 0)
  then b2z (256 <=? pledged) + b2z (65536 + 256 <=? pledged) + b2z (0xFFFFFFFF <=? pledged) else 0.
Definition w_did : Z := if negb (noDictIDFlag fp =? 0) then 0 else did.
Definition w_fcs : Z := if negb (contentSizeFlag fp =? 0) then pledged else 0.

Lemma windowLog_max : 10 <= windowLog <= 31.
Proof.
  revert Hwl. unfold ZSTD_WINDOWLOG_ABSOLUTEMIN, ZSTD_WINDOWLOG_MAX. destruct (_ =? 4); lia.
Qed.

Lemma w_dcode_ok : 0 <= w_dcode < 4 /\ 0 <= w_did < 256 ^ Z.of_nat (did_size w_dcode) /\
  did_bytes w_dcode did = did_bytes w_dcode w_did.
Proof.
  unfold w_dcode, w_did. destruct (noDictIDFlag fp =? 0); cbn [negb]; [|vm_compute; repeat split; congruence].
  zcases; unfold b2z; change (1 + 1 + 1) with 3; cbn; repeat split; lia || done.
Qed.

Lemma w_fcode_ok : 0 <= w_fcode < 4 /\
  (if w_fcode =? 1 then 256 <= w_fcs < 65536 + 256 else 0 <= w_fcs < 256 ^ Z.of_nat (fcs_size w_fcode true)) /\
  fcs_bytes w_fcode w_ss pledged = fcs_bytes w_fcode w_ss w_fcs /\
  ((w_fcode =? 0) && negb w_ss = (contentSizeFlag fp =? 0)).
Proof.
  pose proof windowLog_max as Hw. pose proof (pow_mono 10 windowLog ltac:(lia)).
  unfold w_fcode, w_fcs, w_ss. destruct (contentSizeFlag fp =? 0); cbn [negb andb]; [vm_compute; repeat split; congruence|].
  zcases; unfold b2z; change (1 + 1 + 1) with 3; change (1 + 1 + 0) with 2; cbn; repeat split; lia || done.
Qed.

Definition w_hb : list Z :=
  header_bytes format w_dcode (b2z (0 <? p_checksumFlag fp)) w_ss w_fcode (8 * (windowLog - 10)) w_did w_fcs.

Lemma writeFrameHeader_val mem dst dstCapacity :
  ZSTD_FRAMEHEADERSIZE_MAX <= dstCapacity -> 0 <= dst -> dst + dstCapacity <= zlen mem ->
  ZSTD_writeFrameHeader mem dst dstCapacity format windowLog fp pledged did =
  Ok (zlen w_hb, splice mem dst w_hb).
Proof.
  intros Hcap Hdst Hroom. unfold ZSTD_writeFrameHeader. pose proof windowLog_max as Hw.
  pose proof w_dcode_ok as (Hdc & _ & Hdb). pose proof w_fcode_ok as (Hfc & _ & Hfb & _).
  fold w_dcode w_fcode. rewrite (Z.shiftl_mul_pow2 1 windowLog), Z.mul_1_l by lia.
  pose proof (pow_mono windowLog 31 ltac:(lia)). pose proof (pow2_pos windowLog ltac:(lia)).
  rewrite (wrap_small 32 (2 ^ windowLog)) by lia. fold w_ss.
  assert (oassert (negb (negb (contentSizeFlag fp =? 0) && (pledged =? ZSTD_CONTENTSIZE_UNKNOWN))) = (Ok tt : res unit)) as ->.
  { destruct (Z.eqb_spec (contentSizeFlag fp) 0) as [|Hn]; [done|]. specialize (Hknown Hn).
    cbn [negb andb]. by rewrite (proj2 (Z.eqb_neq _ _)). }
  cbn [obind]. unfold reject_if. rewrite (proj2 (Z.ltb_ge dstCapacity _)) by lia. cbn [obind].
  set (c := b2z (0 <? p_checksumFlag fp)). assert (0 <= c < 2) as Hc by (unfold c; destruct (0 <? _); vm_compute; split; congruence).
  pose proof (header_size_max format w_dcode c w_ss w_fcode (8 * (windowLog - 10)) w_did w_fcs) as Hmax.
  change (zlen (magic_bytes format) + 1 <= zlen w_hb <= ZSTD_FRAMEHEADERSIZE_MAX) in Hmax.
  unfold w_hb, header_bytes in Hmax |- *. fold c in Hmax |- *. rewrite !zlen_app in Hmax.
  rewrite !Z.shiftl_mul_pow2 by lia. unfold ZSTD_WINDOWLOG_ABSOLUTEMIN.
  rewrite (wrap_small 32 (windowLog - 10)), (wrap_small 8 ((windowLog - 10) * 2 ^ 3)) by lia.
  replace ((windowLog - 10) * 2 ^ 3) with (8 * (windowLog - 10)) by lia.
  pose proof (fhd_fields w_dcode c w_ss w_fcode Hdc Hc Hfc) as (Hbyte & _). unfold is_byte, fhd_byte in Hbyte.
  rewrite (wrap_small 8) by lia.
  replace (w_dcode + c * 2 ^ 2 + b2z w_ss * 2 ^ 5 + w_fcode * 2 ^ 6) with (fhd_byte w_dcode c w_ss w_fcode)
    by (unfold fhd_byte; lia).
  rewrite <- Hdb, <- Hfb in Hmax |- *. rewrite length_did, length_fcs in Hmax.
  assert ((if decide (format = ZSTD_f_zstd1) then let* mem := MEM_writeLE32 mem dst ZSTD_MAGICNUMBER in Ok (mem, 4)
    else Ok (mem, 0)) = (Ok (splice mem dst (magic_bytes format), zlen (magic_bytes format)) : res (list Z * Z))) as ->.
  { unfold magic_bytes in Hmax |- *. destruct (decide _).
    - rewrite MEM_writeLE32_val by (unfold ZSTD_FRAMEHEADERSIZE_MAX in *; lia || done). done.
    - unfold splice. rewrite app_nil_l, Nat.add_0_r, take_drop. done. }
  cbn [obind]. pose proof (zlen_nonneg (magic_bytes format)). pose proof (zlen_nonneg (wl_bytes w_ss (8 * (windowLog - 10)))).
  pose proof (did_size_le w_dcode). pose proof (fcs_size_le w_fcode w_ss). change (zlen [_]) with 1 in Hmax.
  rewrite emit1 by lia. cbn [obind]. set (pre := magic_bytes format ++ [fhd_byte w_dcode c w_ss w_fcode]).
  assert (zlen (magic_bytes format) + 1 = zlen pre) as Hpre by (unfold pre; by rewrite zlen_app). rewrite Hpre in *.
  assert ((if negb w_ss then let* mem := aset (splice mem dst pre) (dst + zlen pre) (8 * (windowLog - 10)) in Ok (mem, zlen pre + 1)
    else Ok (splice mem dst pre, zlen pre)) = (Ok (splice mem dst (pre ++ wl_bytes w_ss (8 * (windowLog - 10))),
      zlen (pre ++ wl_bytes w_ss (8 * (windowLog - 10)))) : res (list Z * Z))) as ->.
  { destruct w_ss; cbn [negb wl_bytes] in *; [by rewrite app_nil_r|]. change (zlen [_]) with 1 in Hmax.
    rewrite emit1 by lia. cbn [obind]. by rewrite zlen_app. }
  cbn [obind]. rewrite write_dictID_val by (try done; rewrite ?zlen_app; lia). cbn [obind].
  rewrite <- (length_did w_dcode did), <- zlen_app. rewrite write_fcs_val by (try done; rewrite ?zlen_app, ?length_did; lia).
  cbn [obind]. rewrite <- (length_fcs w_fcode w_ss pledged), <- zlen_app. unfold pre. rewrite <- !app_assoc. done.
Qed.

(** What the reader must find. *)
Definition expected (pos : Z) : ZSTD_FrameHeader :=
  let known := negb (contentSizeFlag fp =? 0) in
  let window := if known && (pledged <=? 2 ^ windowLog) then pledged else 2 ^ windowLog in
  {| frameContentSize := if known then pledged else ZSTD_CONTENTSIZE_UNKNOWN; windowSize := window;
     blockSizeMax := Z.min window ZSTD_BLOCKSIZE_MAX; frameType := ZSTD_frame; headerSize := pos;
     dictID := if negb (noDictIDFlag fp =? 0) then 0 else did; checksumFlag := b2z (0 <? p_checksumFlag fp) |}.

Lemma window_of_log : window_of (8 * (windowLog - 10)) = 2 ^ windowLog.
Proof.
  pose proof windowLog_max as Hw. unfold window_of, ZSTD_WINDOWLOG_ABSOLUTEMIN.
  assert (Z.shiftr (8 * (windowLog - 10)) 3 = windowLog - 10) as ->.
  { rewrite Z.shiftr_div_pow2, Z.mul_comm by lia. apply Z.div_mul. lia. }
  change (Z.land (8 * (windowLog - 10)) 7) with (Z.land (8 * (windowLog - 10)) (2 ^ 3 - 1)).
  rewrite (land_ones_wrap (8 * (windowLog - 10)) 3), (Z.mul_comm 8) by lia.
  unfold wrap at 3. rewrite Z.mod_mul, Z.mul_0_r by lia.
  rewrite Z.shiftl_mul_pow2, Z.mul_1_l by lia. replace (windowLog - 10 + 10) with windowLog by lia.
  rewrite (wrap_small 64 0), Z.add_0_r by lia. apply wrap_small.
  pose proof (pow_mono windowLog 31 ltac:(lia)). pose proof (pow2_pos windowLog ltac:(lia)). lia.
Qed.

Lemma header_of_expected :
  header_of format w_dcode (b2z (0 <? p_checksumFlag fp)) w_ss w_fcode (8 * (windowLog - 10)) w_did w_fcs =
  expected (zlen w_hb).
Proof.
  unfold header_of, expected. fold w_hb. rewrite window_of_log.
  pose proof w_fcode_ok as (_ & _ & _ & ->). fold w_ss.
  pose proof (pow2_pos windowLog ltac:(pose proof windowLog_max; lia)).
  assert (forall x, 0 <= x -> u32 (Z.min x ZSTD_BLOCKSIZE_MAX) = Z.min x ZSTD_BLOCKSIZE_MAX) as Hmin.
  { intros x Hx. apply wrap_small. change ZSTD_BLOCKSIZE_MAX with (2 ^ 17). lia. }
  unfold w_ss, w_fcs, w_did.
  destruct (contentSizeFlag fp =? 0); cbn [negb andb]; [by rewrite Hmin by lia|].
  destruct (pledged <=? 2 ^ windowLog); by rewrite Hmin by lia.
Qed.

Lemma checksum_bit : 0 <= b2z (0 <? p_checksumFlag fp) < 2.
Proof. destruct (0 <? _); vm_compute; split; congruence. Qed.

Lemma w_hb_read buf src zfh n :
  bytes buf -> stands_at buf src w_hb -> zlen w_hb <= n ->
  ZSTD_getFrameHeader_advanced zfh buf src n format = Ok (0, expected (zlen w_hb)).
Proof.
  intros Hb Hst Hn. rewrite <- header_of_expected. pose proof windowLog_max.
  pose proof w_dcode_ok as (Hdc & Hdd & _). pose proof w_fcode_ok as (Hfc & Hff & _).
  apply getFrameHeader_val; try done; [apply checksum_bit|unfold is_byte; lia|].
  intros _. rewrite Z.shiftr_div_pow2 by lia. change (2 ^ 3) with 8. rewrite Z.mul_comm, Z.div_mul by lia.
  unfold ZSTD_WINDOWLOG_ABSOLUTEMIN. lia.
Qed.

Lemma w_hb_prefix buf src zfh n :
  bytes buf -> 0 <= n < zlen w_hb -> stands_at buf src (take (Z.to_nat n) w_hb) ->
  exists w z, ZSTD_getFrameHeader_advanced zfh buf src n format = Ok (w, z) /\ n < w <= zlen w_hb.
Proof.
  intros Hb Hn Hst. pose proof w_dcode_ok as (Hdc & _). pose proof w_fcode_ok as (Hfc & _).
  by apply getFrameHeader_prefix; try apply checksum_bit.
Qed.

Lemma w_hb_bytes : bytes w_hb.
Proof.
  pose proof windowLog_max. pose proof w_dcode_ok as (Hdc & _). pose proof w_fcode_ok as (Hfc & _).
  unfold w_hb, header_bytes. rewrite !Forall_app. repeat split; try apply bytes_le_bytes.
  - unfold magic_bytes. destruct (decide _); [apply bytes_le_bytes|constructor].
  - constructor; [|constructor]. apply (fhd_fields _ _ _ _ Hdc checksum_bit Hfc).
  - unfold wl_bytes. destruct w_ss; repeat constructor; lia.
Qed.
End RoundTrip.

(** C31: A frame header is read back as it was written.  For every window log
    a decoder accepts, every content size (known or not), dictionary identifier
    and flags, with or without the magic number, [ZSTD_writeFrameHeader] writes
    at most 18 bytes and nothing else; [ZSTD_getFrameHeader_advanced] on the
    result (followed by anything) returns 0 and the fields that were written, a
    window size that covers the content or the requested window, and the size
    of the header; on any proper prefix it reports no error and asks for more
    bytes, never more than the header has. *)
Theorem ZSTD_frameHeader_round_trip `{P : Platform} (mem : list Z) (dst dstCapacity : Z) (format : ZSTD_format_e)
    (windowLog : Z) (fp : ZSTD_frameParameters) (pledged did : Z) :
  ZSTD_WINDOWLOG_ABSOLUTEMIN <= windowLog <= ZSTD_WINDOWLOG_MAX -> 0 <= did < 2 ^ 32 -> 0 <= pledged < 2 ^ 64 ->
  (contentSizeFlag fp <> 0 -> pledged <> ZSTD_CONTENTSIZE_UNKNOWN) ->
  bytes mem -> ZSTD_FRAMEHEADERSIZE_MAX <= dstCapacity -> 0 <= dst -> dst + dstCapacity <= zlen mem ->
  exists hb, ZSTD_writeFrameHeader mem dst dstCapacity format windowLog fp pledged did
    = Ok (zlen hb, splice mem dst hb) /\ zlen hb <= ZSTD_FRAMEHEADERSIZE_MAX /\
  (forall n zfh, zlen hb <= n ->
     ZSTD_getFrameHeader_advanced zfh (splice mem dst hb) dst n format = Ok (0, expected windowLog fp pledged did (zlen hb))) /\
  (forall n zfh, 0 <= n < zlen hb -> exists w z,
     ZSTD_getFrameHeader_advanced zfh (splice mem dst hb) dst n format = Ok (w, z) /\ n < w <= zlen hb).
Proof.
  intros Hwl Hd Hp Hk Hb Hcap Hdst Hroom. set (hb := w_hb format windowLog fp pledged did). exists hb.
  assert (zlen hb <= ZSTD_FRAMEHEADERSIZE_MAX) as Hmax by apply header_size_max.
  assert (bytes (splice mem dst hb)) as Hbs by (apply bytes_of_splice; [done|by apply w_hb_bytes]).
  assert (stands_at (splice mem dst hb) dst hb) as Hst.
  { split; [done|]. rewrite zlen_splice by lia. split; [lia|]. by apply slice_splice; lia. }
  split; [by apply writeFrameHeader_val|]. split; [done|]. split.
  - intros n zfh Hn. by apply w_hb_read.
  - intros n zfh Hn. apply w_hb_prefix; try done. rewrite <- (take_drop (Z.to_nat n) hb) in Hst at 2.
    by eapply stands_at_app.
Qed.

Lemma ZSTD_frameHeader_round_trip_witness :
  exists m, ZSTD_writeFrameHeader (P := armeabi_v7a) (replicate 30 0) 2 20 ZSTD_f_zstd1 20
      {| contentSizeFlag := 1; p_checksumFlag := 1; noDictIDFlag := 0 |} 5000 300 = Ok (9, m) /\
    ZSTD_getFrameHeader_advanced (P := armeabi_v7a) zero_header m 2 20 ZSTD_f_zstd1 =
      Ok (0, {| frameContentSize := 5000; windowSize := 5000; blockSizeMax := 5000; frameType := ZSTD_frame;
                headerSize := 9; dictID := 300; checksumFlag := 1 |}).
Proof.
  destruct (ZSTD_frameHeader_round_trip (P := armeabi_v7a) (replicate 30 0) 2 20 ZSTD_f_zstd1 20
      {| contentSizeFlag := 1; p_checksumFlag := 1; noDictIDFlag := 0 |} 5000 300) as (hb & Hw & Hmax & Hr & _).
  - vm_compute. split; congruence.
  - lia.
  - lia.
  - vm_compute. congruence.
  - eval_bytes.
  - vm_compute. congruence.
  - lia.
  - vm_compute. congruence.
  - assert (exists m, ZSTD_writeFrameHeader (P := armeabi_v7a) (replicate 30 0) 2 20 ZSTD_f_zstd1 20
      {| contentSizeFlag := 1; p_checksumFlag := 1; noDictIDFlag := 0 |} 5000 300 = Ok (9, m)) as [m Hm]
      by (eexists; vm_compute; reflexivity).
    exists m. split; [exact Hm|]. rewrite Hm in Hw. injection Hw as Hz ->. rewrite Hr by lia. by rewrite <- Hz.
Defined.
