(* ===== verification/FrameWalk.v ===== *)
(** * zstd_decompress.c: frames of unknown origin

    Theorems about the definitions of [Frame] on arbitrary bytes: parsing
    headers, walking over frames, skippable frames, blocks, and the bound on
    the compressed size. *)
From S2P Require Import Prelude Mem Errors Frame.

(** ** Reading any bytes *)

(** A parsed header, or a request for more input. *)
Definition fh_ok (srcSize : Z) (r : Z * ZSTD_FrameHeader) : Prop :=
  let '(ret, zfh) := r in
  (srcSize < ret <= ZSTD_FRAMEHEADERSIZE_MAX) \/
  (ret = 0 /\ 2 <= headerSize zfh <= srcSize /\ headerSize zfh <= ZSTD_FRAMEHEADERSIZE_MAX /\
   0 <= frameContentSize zfh < 2 ^ 64 /\ 0 <= windowSize zfh < 2 ^ 64 /\
   0 <= blockSizeMax zfh <= ZSTD_BLOCKSIZE_MAX /\ blockSizeMax zfh <= windowSize zfh /\
   0 <= dictID zfh < 2 ^ 32 /\ 0 <= checksumFlag zfh <= 1).

Section ReadAny.
Context `{P : Platform} (buf : list Z).
Hypothesis Hb : bytes buf.

Lemma land_range x n : 0 <= n -> 0 <= Z.land x (2 ^ n - 1) < 2 ^ n.
Proof. intros Hn. rewrite land_ones_wrap by done. by apply wrap_range. Qed.

(** A descriptor byte taken apart. *)
Lemma fhd_ranges fhd :
  is_byte fhd -> 0 <= Z.land fhd 3 < 4 /\ 0 <= Z.land (Z.shiftr fhd 2) 1 < 2 /\
    0 <= Z.land (Z.shiftr fhd 5) 1 < 2 /\ 0 <= Z.shiftr fhd 6 < 4.
Proof.
  unfold is_byte. intros Hf. split; [apply (land_range fhd 2); lia|]. split; [apply (land_range _ 1); lia|].
  split; [apply (land_range _ 1); lia|]. rewrite Z.shiftr_div_pow2 by lia. change (2 ^ 6) with 64.
  split; [apply Z.div_pos; lia|apply Z.div_lt_upper_bound; lia].
Qed.

Lemma frameHeaderSize_safe src srcSize format (Q : Z -> Prop) :
  0 <= src -> 0 <= srcSize -> src + srcSize <= zlen buf ->
  (forall fhd, is_byte fhd -> ZSTD_startingInputLength format <= srcSize ->
     aget buf (src + ZSTD_startingInputLength format - 1) = (Ok fhd : res Z) ->
     Q (ZSTD_startingInputLength format + b2z (Z.land (Z.shiftr fhd 5) 1 =? 0) + Z.of_nat (did_size (Z.land fhd 3))
        + Z.of_nat (fcs_size (Z.shiftr fhd 6) (negb (Z.land (Z.shiftr fhd 5) 1 =? 0))))) ->
  wp (ZSTD_frameHeaderSize_internal buf src srcSize format) Q real_error.
Proof.
  intros Hs Hsz Hl HQ. unfold ZSTD_frameHeaderSize_internal.
  assert (1 <= ZSTD_startingInputLength format) by (destruct format; vm_compute; congruence).
  apply wp_bind, wp_reject_if; [done|]. intros Hmin.
  destruct (lookup_lt_is_Some_2 buf (Z.to_nat (src + ZSTD_startingInputLength format - 1))) as [fhd Hfhd];
    [unfold zlen in *; lia|].
  assert (aget buf (src + ZSTD_startingInputLength format - 1) = (Ok fhd : res Z)) as Hget
    by (apply aget_Ok; split; [lia|done]).
  rewrite Hget. cbn [obind]. pose proof (bytes_lookup _ _ _ Hb Hfhd) as Hbf.
  specialize (HQ fhd Hbf ltac:(lia) Hget). pose proof (fhd_ranges fhd Hbf) as (Hd & _ & Hss & Hf).
  rewrite did_field, fcs_field by done. cbn [obind]. rewrite <- fcs_size_split in HQ by done.
  simpl. by rewrite <- Z.add_assoc.
Qed.

Lemma read_dictID_safe src pos code (Q : Z * Z -> Prop) :
  0 <= code < 4 -> 0 <= src + pos -> src + pos + Z.of_nat (did_size code) <= zlen buf ->
  (forall d, 0 <= d < 2 ^ 32 -> Q (d, pos + Z.of_nat (did_size code))) ->
  wp (read_dictID buf src pos code) Q real_error.
Proof.
  intros Hc Hp Hl HQ. assert (code = 0 \/ code = 1 \/ code = 2 \/ code = 3) as [-> |[-> |[-> | ->]]] by lia;
    cbn [did_size read_dictID] in *.
  - simpl. replace pos with (pos + Z.of_nat 0) by lia. apply HQ. lia.
  - apply wp_bind, wp_byte; [done|lia|]. intros v Hv. apply HQ. lia.
  - apply wp_bind, wp_readLE16; [done|lia|lia|]. intros v Hv. apply HQ. lia.
  - apply wp_bind, wp_readLE32; [done|lia|lia|]. intros v Hv. apply HQ. lia.
Qed.

Lemma read_fcs_safe src pos code ss (Q : Z -> Prop) :
  0 <= code < 4 -> 0 <= src + pos -> src + pos + Z.of_nat (fcs_size code ss) <= zlen buf ->
  (forall d, 0 <= d < 2 ^ 64 -> Q d) -> wp (read_fcs buf src pos code ss) Q real_error.
Proof.
  intros Hc Hp Hl HQ. assert (code = 0 \/ code = 1 \/ code = 2 \/ code = 3) as [-> |[-> |[-> | ->]]] by lia;
    cbn [fcs_size read_fcs] in *.
  - destruct ss; [|apply HQ; vm_compute; split; congruence]. apply wp_byte; [done|lia|]. intros v Hv. apply HQ. lia.
  - apply wp_bind, wp_readLE16; [done|lia|lia|]. intros v Hv. apply HQ. lia.
  - apply wp_readLE32; [done|lia|lia|]. intros v Hv. apply HQ. lia.
  - apply wp_readLE64; [done|lia|lia|]. intros v Hv. apply HQ. lia.
Qed.

Lemma read_fields_safe src format fhd srcSize :
  0 <= src -> src + srcSize <= zlen buf -> is_byte fhd ->
  aget buf (src + ZSTD_startingInputLength format - 1) = (Ok fhd : res Z) ->
  let fhsize := ZSTD_startingInputLength format + b2z (Z.land (Z.shiftr fhd 5) 1 =? 0)
     + Z.of_nat (did_size (Z.land fhd 3)) + Z.of_nat (fcs_size (Z.shiftr fhd 6) (negb (Z.land (Z.shiftr fhd 5) 1 =? 0))) in
  2 <= fhsize <= srcSize -> fhsize <= ZSTD_FRAMEHEADERSIZE_MAX ->
  wp (read_fields buf src (ZSTD_startingInputLength format) fhsize) (fh_ok srcSize) real_error.
Proof.
  intros Hs Hl Hbf Hget fhsize Hfh Hmax. unfold read_fields. rewrite Hget. cbn [obind].
  pose proof (fhd_ranges fhd Hbf) as (Hd & Hc & Hss & Hf). unfold fhsize in Hfh, Hmax. fold fhsize.
  pose proof (did_size_le (Z.land fhd 3)) as Hds.
  pose proof (fcs_size_le (Z.shiftr fhd 6) (negb (Z.land (Z.shiftr fhd 5) 1 =? 0))) as Hfs.
  set (d := Z.land fhd 3) in *. set (c := Z.land (Z.shiftr fhd 2) 1) in *. set (ss := Z.land (Z.shiftr fhd 5) 1) in *.
  set (f := Z.shiftr fhd 6) in *. set (min := ZSTD_startingInputLength format) in *.
  assert (1 <= min) as Hmin by (unfold min; destruct format; vm_compute; congruence).
  apply wp_bind, wp_reject_if; [done|]. intros _. apply wp_bind.
  apply (wp_mono _ (fun r => 0 <= r.1 < 2 ^ 64 /\ r.2 = min + b2z (ss =? 0)) _ real_error); [| |done].
  { destruct (Z.eqb_spec ss 0); cbn [b2z] in *; [|simpl; lia].
    apply wp_bind, wp_byte; [done|lia|]. intros wl Hwl. apply wp_bind, wp_reject_if; [done|]. intros Hlog. simpl.
    split; [apply wrap_range|]; lia. }
  intros [win pos] [Hwin Hpos]. simpl in Hwin, Hpos. subst pos.
  assert (0 <= b2z (ss =? 0) <= 1) by (destruct (ss =? 0); vm_compute; split; congruence).
  apply wp_bind, read_dictID_safe; [done|lia|lia|]. intros did Hdid.
  apply wp_bind, read_fcs_safe; [done|lia|lia|]. intros fcs Hfcs. simpl. right.
  set (w := if negb (ss =? 0) then fcs else win). assert (0 <= w < 2 ^ 64) as Hw by (unfold w; destruct (negb _); done).
  assert (u32 (Z.min w ZSTD_BLOCKSIZE_MAX) = Z.min w ZSTD_BLOCKSIZE_MAX) as ->
    by (apply wrap_small; change ZSTD_BLOCKSIZE_MAX with (2 ^ 17); lia).
  assert (0 < ZSTD_BLOCKSIZE_MAX) by done. repeat split; try done; try lia.
Qed.

Lemma check_partial_magic_safe src srcSize format :
  0 <= src -> 0 <= srcSize -> src + srcSize <= zlen buf ->
  wp (check_partial_magic buf src srcSize format) (fun _ => True) real_error.
Proof.
  intros Hs Hsz Hl. unfold check_partial_magic. destruct (_ && _); [|done]. rewrite asub_Ok by lia. cbn [obind].
  assert (zlen (slice buf src (Z.min 4 srcSize)) <= 4) as Hz4 by (rewrite zlen_slice; lia).
  assert (bytes (slice buf src (Z.min 4 srcSize))) as Hbs by (by apply bytes_slice).
  rewrite MEM_writeLE32_val by (first [lia | vm_compute; first [split; congruence | congruence]]). cbn [obind].
  rewrite awrite_Ok by (lia || exact Hz4). cbn [obind]. set (h := splice _ 0 _).
  assert (zlen h = 4) as Hzh by (unfold h; rewrite zlen_splice; [done|lia|exact Hz4]).
  assert (bytes h) as Hbh by (unfold h; apply bytes_of_splice; [eval_bytes|done]).
  apply wp_bind, wp_readLE32; [done|lia|lia|]. intros m _. destruct (negb _); [|done].
  rewrite MEM_writeLE32_val by (first [lia | vm_compute; first [split; congruence | congruence]]). cbn [obind].
  assert (zlen (splice h 0 (le_bytes 4 ZSTD_MAGIC_SKIPPABLE_START)) = 4) as Hz2
    by (rewrite zlen_splice; [done|lia|rewrite zlen_le_bytes; lia]).
  rewrite awrite_Ok by lia. cbn [obind]. apply wp_bind, wp_readLE32;
    [apply bytes_of_splice; [apply bytes_of_splice; [done|apply bytes_le_bytes]|done]|lia|rewrite zlen_splice; lia|].
  intros m2 _. by apply wp_reject_if.
Qed.

Lemma getFrameHeader_safe zfh src srcSize format :
  0 <= src -> 0 <= srcSize -> src + srcSize <= zlen buf ->
  wp (ZSTD_getFrameHeader_advanced zfh buf src srcSize format) (fh_ok srcSize) real_error.
Proof.
  intros Hs Hsz Hl. unfold ZSTD_getFrameHeader_advanced.
  assert (1 <= ZSTD_startingInputLength format <= 5 /\ (format = ZSTD_f_zstd1 -> ZSTD_startingInputLength format = 5))
    as [Hmin H5] by (destruct format; vm_compute; repeat split; congruence).
  destruct (Z.ltb_spec srcSize (ZSTD_startingInputLength format)).
  - apply wp_bind. apply (wp_mono _ (fun _ => True) _ real_error);
      [|intros _ _; simpl; left; unfold ZSTD_FRAMEHEADERSIZE_MAX; lia|done].
    apply check_partial_magic_safe; lia.
  - apply wp_bind. apply (wp_mono _ (fun m => 0 <= m < 2 ^ 32) _ real_error); [| |done].
    { destruct (decide _); [vm_compute; split; congruence|]. apply wp_readLE32; [done|lia| |done].
      destruct format; [|done]. specialize (H5 eq_refl). lia. }
    intros magic Hm. destruct (negb _).
    + destruct (is_skippable_magic magic); [|done]. destruct (Z.ltb_spec srcSize ZSTD_SKIPPABLEHEADERSIZE) as [|H8].
      { simpl. left. unfold ZSTD_SKIPPABLEHEADERSIZE, ZSTD_FRAMEHEADERSIZE_MAX in *. lia. }
      unfold ZSTD_SKIPPABLEHEADERSIZE in H8.
      apply wp_bind, wp_readLE32; [done|unfold ZSTD_FRAMEIDSIZE; lia|unfold ZSTD_FRAMEIDSIZE; lia|]. intros n Hn.
      simpl. right. pose proof (wrap_range 32 (magic - ZSTD_MAGIC_SKIPPABLE_START) ltac:(lia)).
      unfold ZSTD_SKIPPABLEHEADERSIZE, ZSTD_FRAMEHEADERSIZE_MAX, ZSTD_BLOCKSIZE_MAX. repeat split; try done; lia.
    + apply wp_bind, frameHeaderSize_safe; [done|lia|done|]. intros fhd Hbf Hle Hget.
      pose proof (did_size_le (Z.land fhd 3)) as Hds. pose proof (fhd_ranges fhd Hbf) as (_ & _ & Hss & Hf).
      pose proof (fcs_size_le (Z.shiftr fhd 6) (negb (Z.land (Z.shiftr fhd 5) 1 =? 0))) as Hfs.
      set (fhs := ZSTD_startingInputLength format + _ + _ + _).
      assert (2 <= fhs <= ZSTD_FRAMEHEADERSIZE_MAX) as Hfhs.
      { unfold fhs, ZSTD_FRAMEHEADERSIZE_MAX. destruct (Z.eqb_spec (Z.land (Z.shiftr fhd 5) 1) 0); cbn [b2z negb] in *; [lia|].
        assert (1 <= Z.of_nat (fcs_size (Z.shiftr fhd 6) true)); [|lia].
        clear -Hf. unfold fcs_size. destruct (Z.shiftr fhd 6) as [|[[]|[]|]|]; lia. }
      destruct (Z.ltb_spec srcSize fhs); [simpl; left; lia|].
      assert (u32 fhs = fhs) as Hu by (apply wrap_small; unfold ZSTD_FRAMEHEADERSIZE_MAX in Hfhs; lia). rewrite Hu.
      apply (read_fields_safe src format fhd srcSize); try done; lia.
Qed.

Lemma readSkippableFrameSize_safe src srcSize :
  0 <= src -> 0 <= srcSize -> src + srcSize <= zlen buf ->
  wp (readSkippableFrameSize buf src srcSize) (fun n => ZSTD_SKIPPABLEHEADERSIZE <= n <= srcSize) real_error.
Proof.
  intros Hs Hsz Hl. unfold readSkippableFrameSize, ZSTD_SKIPPABLEHEADERSIZE, ZSTD_FRAMEIDSIZE.
  apply wp_bind, wp_reject_if; [done|]. intros H8. apply wp_bind, wp_readLE32; [done|lia|lia|]. intros n Hn.
  apply wp_bind, wp_reject_if; [done|]. intros Hov. apply wp_bind, wp_reject_if; [done|]. intros Hfit. simpl.
  assert (n + 8 < 2 ^ 32) as Hsmall.
  { destruct (Z.lt_ge_cases (n + 8) (2 ^ 32)); [done|]. unfold wrap in Hov.
    rewrite <- (Z.mod_add _ (-1)), Z.mod_small in Hov by lia. lia. }
  rewrite size_t_small in Hfit |- * by lia. lia.
Qed.

Lemma wp_as_size (r : res Z) (Q : Z -> Prop) :
  wp r Q real_error -> wp (as_size r) (fun n => Q n \/ ERR_isError n = true) (fun _ => False).
Proof. destruct r; simpl; [by left|intros; right; by apply isError_ERROR|done]. Qed.

Lemma getcBlockSize_safe src srcSize :
  0 <= src -> 0 <= srcSize -> src + srcSize <= zlen buf ->
  wp (ZSTD_getcBlockSize buf src srcSize)
    (fun r => 0 <= r.1 < 2 ^ 21 /\ 0 <= origSize r.2 < 2 ^ 21 /\ blockType r.2 <> bt_reserved /\ 3 <= srcSize) real_error.
Proof.
  intros Hs Hsz Hl. unfold ZSTD_getcBlockSize, ZSTD_blockHeaderSize.
  apply wp_bind, wp_reject_if; [done|]. intros H3. apply wp_bind, wp_readLE24; [done|lia|lia|]. intros h Hh.
  assert (0 <= Z.shiftr h 3 < 2 ^ 21) as Hc.
  { rewrite Z.shiftr_div_pow2 by lia. split; [apply Z.div_pos; lia|apply Z.div_lt_upper_bound; lia]. }
  cbn [blockType]. destruct (decide _) as [E|].
  - simpl. rewrite E. repeat split; done || lia.
  - apply wp_bind, wp_reject_if; [done|]. intros Hr. apply bool_decide_eq_false in Hr. simpl. repeat split; done || lia.
Qed.

(** The part of a frame a walk has not passed yet. *)
Definition walk_at (src srcSize : Z) (st : Z * Z * Z) : Prop :=
  let '(ip, rem, _) := st in src + 2 <= ip /\ 0 <= rem /\ ip + rem = src + srcSize.

Definition info_ok (srcSize : Z) (info : ZSTD_frameSizeInfo) : Prop :=
  ERR_isError (compressedSize info) = true \/
  (2 <= compressedSize info <= srcSize /\ 0 <= decompressedBound info < 2 ^ 64).

Lemma error_info srcSize e : real_error e -> info_ok srcSize (ZSTD_errorFrameSizeInfo (ERROR e)).
Proof. intros He. left. by apply isError_ERROR. Qed.

Lemma block_walk_safe src srcSize st fuel :
  0 <= src -> src + srcSize <= zlen buf -> walk_at src srcSize st -> srcSize < Z.of_nat fuel ->
  wp (loop fuel (block_step buf) st)
    (fun r => match r with inl st => walk_at src srcSize st | inr info => ERR_isError (compressedSize info) = true end) (fun _ => False).
Proof.
  intros Hs Hl Hst Hfuel. eapply (wp_loop (walk_at src srcSize) (fun st => st.1.2)); [done| | |].
  - destruct st as [[ip rem] nb]. unfold walk_at in Hst. simpl. lia.
  - intros [[ip rem] nb] H. unfold walk_at in H. simpl. lia.
  - intros [[ip rem] nb] Hw. unfold block_step. unfold walk_at in Hw.
    pose proof (getcBlockSize_safe ip rem ltac:(lia) ltac:(lia) ltac:(lia)) as Hg.
    destruct (ZSTD_getcBlockSize buf ip rem) as [[cs bp]|e|f]; simpl in Hg; [|by apply isError_ERROR|done].
    destruct (Z.ltb_spec rem (ZSTD_blockHeaderSize + cs)); [by apply isError_ERROR|].
    unfold ZSTD_blockHeaderSize in *. destruct (negb _); simpl; unfold walk_at; lia.
Qed.

Lemma findFrameSizeInfo_safe src srcSize format :
  0 <= src -> 0 <= srcSize -> src + srcSize <= zlen buf ->
  wp (ZSTD_findFrameSizeInfo buf src srcSize format) (info_ok srcSize) (fun _ => False).
Proof.
  intros Hs Hsz Hl. unfold ZSTD_findFrameSizeInfo. apply wp_bind.
  apply (wp_mono _ (fun _ => True) _ (fun _ => False)); [| |done].
  { destruct (_ && _) eqn:E; [|done]. apply andb_prop in E as [_ E]. unfold ZSTD_SKIPPABLEHEADERSIZE in E.
    apply wp_bind, wp_readLE32; [done|lia|lia|done]. }
  intros sk _. destruct sk.
  - apply wp_bind. eapply wp_mono; [apply wp_as_size, readSkippableFrameSize_safe; done| |done].
    intros n Hn. unfold ZSTD_SKIPPABLEHEADERSIZE in Hn. apply wp_bind, wp_assert.
    + apply orb_true_iff. destruct Hn; [right; lia|by left].
    + simpl. destruct Hn as [Hn|Hn]; [right; simpl; lia|by left].
  - pose proof (getFrameHeader_safe zero_header src srcSize format Hs Hsz Hl) as Hg.
    destruct (ZSTD_getFrameHeader_advanced _ _ _ _ _) as [[ret zfh]|e|f]; simpl in Hg; [|by apply error_info|done].
    destruct Hg as [Hret|(-> & Hh & _ & Hfcs & _ & Hbs & _ & _ & Hck)].
    { destruct (Z.ltb_spec 0 ret); [by apply error_info|lia]. }
    cbn [Z.ltb]. apply wp_bind. eapply wp_mono; [apply (block_walk_safe src srcSize)| |done]; [done|done| |lia|].
    { unfold walk_at. lia. }
    intros [[[ip rem] nb]|info] Hr; [|by left]. unfold walk_at in Hr.
    destruct (Z.eqb_spec (checksumFlag zfh) 0); cbn [negb andb];
      [|destruct (Z.ltb_spec rem 4); [by apply error_info|]]; simpl; right; simpl;
      (split; [lia|destruct (negb _); [done|apply wrap_range; lia]]).
Qed.

(** ** Walks over several frames *)

Lemma isError_le n srcSize : srcSize <= 2 ^ (8 * sizeof_size_t) - 120 -> n <= srcSize -> ERR_isError n = false.
Proof. intros. apply isError_size. lia. Qed.

Lemma bound_step_safe src srcSize bound :
  0 <= src -> 0 <= srcSize -> src + srcSize <= zlen buf -> 0 <= bound < 2 ^ 64 ->
  wp (bound_step buf (src, srcSize, bound))
    (fun r => match r with
      | inl (src', srcSize', bound') => src' + srcSize' = src + srcSize /\ src <= src' /\ 0 <= srcSize' < srcSize /\ 0 <= bound' < 2 ^ 64
      | inr m => 0 <= m < 2 ^ 64 end) (fun _ => False).
Proof.
  intros Hs Hsz Hl Hbd. unfold bound_step. destruct (Z.ltb_spec 0 srcSize); [|done].
  apply wp_bind. eapply wp_mono; [by apply findFrameSizeInfo_safe| |done]. intros info [He|[Hc Hd]].
  - rewrite He. vm_compute. split; congruence.
  - destruct (_ || _); [vm_compute; split; congruence|]. apply wp_bind, wp_assert; [lia|]. simpl.
    pose proof (wrap_range 64 (bound + decompressedBound info) ltac:(lia)). lia.
Qed.

Definition walk_in (st : Z * Z * Z) : Prop :=
  let '(src, srcSize, x) := st in 0 <= src /\ 0 <= srcSize /\ src + srcSize <= zlen buf /\ 0 <= x < 2 ^ 64.

Lemma bound_total fuel st :
  walk_in st -> st.1.2 < Z.of_nat fuel -> exists m, loop fuel (bound_step buf) st = Ok m /\ 0 <= m < 2 ^ 64.
Proof.
  intros Hst Hf. apply wp_exists. eapply (wp_loop walk_in (fun st => st.1.2)); [done|done| |].
  - intros [[src sz] x] (? & ? & ?). done.
  - intros [[src sz] x] (Hs & Hsz & Hl & Hx). eapply wp_mono; [by apply bound_step_safe| |done].
    intros [[[src' sz'] x']|m]; [|done]. simpl. lia.
Qed.

Lemma plain_frame_type src srcSize magic zfh :
  MEM_readLE32 buf src = (Ok magic : res Z) -> is_skippable_magic magic = false ->
  ZSTD_getFrameHeader zero_header buf src srcSize = Ok (0, zfh) -> frameType zfh = ZSTD_frame.
Proof.
  intros Hmag Hsk Hh. unfold ZSTD_getFrameHeader, ZSTD_getFrameHeader_advanced in Hh. destruct (srcSize <? _).
  { by apply bind_Ok in Hh as (? & _ & ?). }
  rewrite decide_False in Hh by done. rewrite Hmag in Hh. cbn [obind] in Hh. rewrite Hsk in Hh.
  destruct (negb _); [done|]. apply bind_Ok in Hh as (fs & _ & Hh). destruct (srcSize <? fs); [by injection Hh as _ <-|].
  unfold read_fields in Hh. apply bind_Ok in Hh as (fhd & _ & Hh). apply bind_Ok in Hh as (? & _ & Hh).
  apply bind_Ok in Hh as ([w p] & _ & Hh). apply bind_Ok in Hh as ([d q] & _ & Hh).
  apply bind_Ok in Hh as (f & _ & Hh). by injection Hh as <-.
Qed.

(** The content size of a zstd frame is what [ZSTD_findFrameSizeInfo] reports. *)
Lemma plain_frame_info src srcSize magic zfh info :
  0 <= src -> 0 <= srcSize -> src + srcSize <= zlen buf ->
  MEM_readLE32 buf src = (Ok magic : res Z) -> is_skippable_magic magic = false ->
  ZSTD_getFrameHeader zero_header buf src srcSize = Ok (0, zfh) -> frameContentSize zfh <> ZSTD_CONTENTSIZE_UNKNOWN ->
  ZSTD_findFrameSizeInfo buf src srcSize ZSTD_f_zstd1 = Ok info -> ERR_isError (compressedSize info) = false ->
  decompressedBound info = frameContentSize zfh.
Proof.
  intros Hs Hsz Hl Hmag Hsk Hh Hk Hinfo Hne.
  unfold ZSTD_findFrameSizeInfo in Hinfo. unfold ZSTD_getFrameHeader in Hh. rewrite Hh, Hmag in Hinfo.
  assert ((if bool_decide (ZSTD_f_zstd1 = ZSTD_f_zstd1) && (ZSTD_SKIPPABLEHEADERSIZE <=? srcSize)
    then let* magic0 := Ok magic in Ok (is_skippable_magic magic0) else Ok false) = (Ok false : res bool)) as Hf
    by (cbn [obind]; rewrite Hsk; by destruct (_ && _)).
  rewrite Hf in Hinfo. cbn [obind Z.ltb Z.compare] in Hinfo. apply bind_Ok in Hinfo as ([[[ip rem] nb]|i] & Hlp & Hinfo).
  - destruct (_ && (_ <? 4)).
    { injection Hinfo as <-. simpl in Hne. by rewrite isError_ERROR in Hne. }
    injection Hinfo as <-. simpl. by rewrite (proj2 (Z.eqb_neq _ _)) by done.
  - injection Hinfo as ->. pose proof (getFrameHeader_safe zero_header src srcSize ZSTD_f_zstd1 Hs Hsz Hl) as Hg.
    apply (wp_Ok_inv _ _ _ _ Hg) in Hh. destruct Hh as [?|(_ & Hhs & _)]; [lia|].
    assert (walk_at src srcSize (src + headerSize zfh, srcSize - headerSize zfh, 0)) as Hw by (unfold walk_at; lia).
    pose proof (block_walk_safe src srcSize _ (S (Z.to_nat srcSize)) Hs Hl Hw ltac:(lia)) as Hb'.
    apply (wp_Ok_inv _ _ _ _ Hb') in Hlp. by rewrite Hlp in Hne.
Qed.

Lemma getFrameContentSize_total src srcSize :
  0 <= src -> 0 <= srcSize -> src + srcSize <= zlen buf ->
  exists fcs, ZSTD_getFrameContentSize buf src srcSize = Ok fcs /\ 0 <= fcs < 2 ^ 64 /\
    (fcs < ZSTD_CONTENTSIZE_ERROR -> exists zfh, ZSTD_getFrameHeader zero_header buf src srcSize = Ok (0, zfh) /\
       (frameType zfh = ZSTD_frame -> fcs = frameContentSize zfh)).
Proof.
  intros Hs Hsz Hl. unfold ZSTD_getFrameContentSize.
  pose proof (getFrameHeader_safe zero_header src srcSize ZSTD_f_zstd1 Hs Hsz Hl) as Hg.
  unfold ZSTD_getFrameHeader. assert (0 <= ZSTD_CONTENTSIZE_ERROR < 2 ^ 64) by (vm_compute; split; congruence).
  destruct (ZSTD_getFrameHeader_advanced _ _ _ _ _) as [[ret zfh]|e|f]; [| |done].
  - destruct Hg as [Hg|(-> & _ & _ & Hfcs & _)].
    + rewrite (proj2 (Z.eqb_neq ret 0)) by lia. cbn [negb]. eexists. split; [done|]. split; [done|lia].
    + cbn [Z.eqb negb]. destruct (decide _) as [E|E]; (eexists; split; [done|]; split; [lia|]; intros _; exists zfh; split; [done|]);
        [by rewrite E|done].
  - eexists. split; [done|]. split; [done|lia].
Qed.

(** While sizes are known, both walks take the same step. *)
Lemma step_agree src srcSize tot :
  walk_in (src, srcSize, tot) -> 5 <= srcSize -> srcSize <= 2 ^ (8 * sizeof_size_t) - 120 ->
  (exists n, size_step buf (src, srcSize, tot) = Ok (inr n) /\ ZSTD_CONTENTSIZE_ERROR <= n < 2 ^ 64) \/
  (exists st, size_step buf (src, srcSize, tot) = Ok (inl st) /\ bound_step buf (src, srcSize, tot) = Ok (inl st) /\
     walk_in st /\ st.1.2 < srcSize).
Proof.
  intros (Hs & Hsz & Hl & Ht) H5 Hmax. unfold size_step, bound_step.
  change (ZSTD_startingInputLength ZSTD_f_zstd1) with 5. rewrite (proj2 (Z.leb_le 5 srcSize)), (proj2 (Z.ltb_lt 0 srcSize)) by lia.
  pose proof (MEM_readLE32_val (E := ZSTD_ErrorCode) buf src Hb Hs ltac:(lia)) as Hmag.
  set (magic := le_val (slice buf src 4)) in *. rewrite Hmag. cbn [obind].
  pose proof (findFrameSizeInfo_safe src srcSize ZSTD_f_zstd1 Hs Hsz Hl) as Hinfo.
  apply wp_exists in Hinfo as (info & Einfo & Hinfo).
  unfold ZSTD_findFrameCompressedSize, ZSTD_findFrameCompressedSize_advanced.
  assert (0 <= ZSTD_CONTENTSIZE_ERROR < 2 ^ 64) by (vm_compute; split; congruence).
  destruct (is_skippable_magic magic) eqn:Esk.
  - pose proof (wp_as_size _ _ (readSkippableFrameSize_safe src srcSize Hs Hsz Hl)) as Hr.
    apply wp_exists in Hr as (k & Ek & Hk). rewrite Ek. cbn [obind].
    destruct (ERR_isError k) eqn:Eerr; [left; eexists; split; [done|lia]|]. destruct Hk as [Hk|]; [|done].
    unfold ZSTD_SKIPPABLEHEADERSIZE in Hk. right. eexists. rewrite (proj2 (Z.leb_le k srcSize)) by lia. split; [done|].
    unfold ZSTD_findFrameSizeInfo. rewrite bool_decide_true by done. unfold ZSTD_SKIPPABLEHEADERSIZE.
    rewrite (proj2 (Z.leb_le 8 srcSize)) by lia. cbn [andb]. rewrite Hmag. cbn [obind]. rewrite Esk, Ek. cbn [obind].
    rewrite Eerr, (proj2 (Z.leb_le k srcSize)) by lia. cbn [orb oassert obind compressedSize decompressedBound].
    rewrite Eerr, (proj2 (Z.leb_le k srcSize)) by lia. change (0 =? ZSTD_CONTENTSIZE_ERROR) with false.
    cbn [orb oassert obind]. rewrite Z.add_0_r, (wrap_small 64 tot) by done. split; [done|]. unfold walk_in. simpl. lia.
  - destruct (getFrameContentSize_total src srcSize Hs Hsz Hl) as (fcs & -> & Hfcs & Hzfh). cbn [obind].
    destruct (Z.leb_spec ZSTD_CONTENTSIZE_ERROR fcs); [left; exists fcs; split; [done|lia]|].
    destruct (Z.ltb_spec (u64 (tot + fcs)) tot); [left; eexists; split; [done|lia]|].
    rewrite Einfo. cbn [obind]. destruct (ERR_isError (compressedSize info)) eqn:Eerr; [left; eexists; split; [done|lia]|].
    destruct Hinfo as [|[Hc Hd]]; [congruence|]. destruct (Hzfh ltac:(done)) as (zfh & Hh & Heq). right. eexists.
    rewrite (proj2 (Z.leb_le _ srcSize)) by lia. split; [done|].
    specialize (Heq (plain_frame_type _ _ _ _ Hmag Esk Hh)).
    assert (frameContentSize zfh <> ZSTD_CONTENTSIZE_UNKNOWN) as Hk.
    { change ZSTD_CONTENTSIZE_UNKNOWN with (ZSTD_CONTENTSIZE_ERROR + 1). lia. }
    rewrite (plain_frame_info src srcSize magic zfh info) in * by done. rewrite <- Heq.
    rewrite (proj2 (Z.eqb_neq fcs _)) by lia. split; [done|].
    pose proof (wrap_range 64 (tot + fcs) ltac:(lia)). unfold walk_in. simpl. lia.
Qed.

Lemma sizes_agree fuel : forall src srcSize tot,
  walk_in (src, srcSize, tot) -> srcSize < Z.of_nat fuel -> srcSize <= 2 ^ (8 * sizeof_size_t) - 120 ->
  exists n m, loop fuel (size_step buf) (src, srcSize, tot) = Ok n /\
    loop fuel (bound_step buf) (src, srcSize, tot) = Ok m /\ 0 <= n < 2 ^ 64 /\ 0 <= m < 2 ^ 64 /\
    (n < ZSTD_CONTENTSIZE_ERROR -> m = n).
Proof.
  assert (0 <= ZSTD_CONTENTSIZE_ERROR < 2 ^ 64) as Herr by (vm_compute; split; congruence).
  induction fuel as [|fuel IH]; intros src srcSize tot Hin Hf Hmax; [destruct Hin; lia|].
  destruct (bound_total (S fuel) _ Hin Hf) as (m & Hm & Hm0). cbn [loop] in Hm |- *.
  destruct (Z.le_gt_cases 5 srcSize).
  - destruct (step_agree src srcSize tot Hin) as [(n & -> & Hn)|([[src' sz'] tot'] & -> & -> & Hin' & Hlt)]; [done|done| |].
    + exists n, m. rewrite Hm. cbn [obind]. repeat split; try done; lia.
    + cbn [obind]. simpl in Hlt. apply IH; [done|lia|lia].
  - unfold size_step at 1. change (ZSTD_startingInputLength ZSTD_f_zstd1) with 5.
    rewrite (proj2 (Z.leb_gt 5 srcSize)) by lia. destruct Hin as (_ & Hsz & _ & Ht).
    destruct (Z.eqb_spec srcSize 0) as [->|]; cbn [negb obind].
    + exists tot, tot. done.
    + exists ZSTD_CONTENTSIZE_ERROR, m. rewrite Hm. repeat split; try done; lia.
Qed.

Lemma margin_safe fuel src srcSize m mb :
  0 <= src -> 0 <= srcSize -> src + srcSize <= zlen buf -> srcSize <= 2 ^ (8 * sizeof_size_t) - 120 ->
  srcSize < Z.of_nat fuel ->
  safe (loop fuel (margin_step buf) (src, srcSize, m, mb)) (fun n => 0 <= n < 2 ^ (8 * sizeof_size_t)).
Proof.
  intros Hs Hsz Hl Hmax Hf.
  set (I := fun st : Z * Z * Z * Z => let '(src, sz, _, _) := st in 0 <= src /\ 0 <= sz <= srcSize /\ src + sz <= zlen buf).
  apply (wp_loop I (fun st => st.1.1.2)); [unfold I; lia|done|intros [[[? ?] ?] ?] (? & ? & ?); simpl; lia|].
  intros [[[s sz] mg] b] (Hs' & Hsz' & Hl'). unfold margin_step.
  assert (0 < 2 ^ (8 * sizeof_size_t)) by (destruct sizeof_size_t_cases as [-> | ->]; lia).
  destruct (Z.ltb_spec 0 sz); [|simpl; unfold size_t; apply Z.mod_pos_bound; done].
  pose proof (findFrameSizeInfo_safe s sz ZSTD_f_zstd1 Hs' ltac:(lia) Hl') as Hi.
  apply wp_exists in Hi as (info & -> & Hi). cbn [obind].
  pose proof (getFrameHeader_safe zero_header s sz ZSTD_f_zstd1 Hs' ltac:(lia) Hl') as Hg. unfold ZSTD_getFrameHeader.
  destruct (ZSTD_getFrameHeader_advanced _ _ _ _ _) as [[ret zfh]|e|f]; [|done..]. cbn [obind].
  apply wp_bind, wp_reject_if; [done|]. intros Hne. apply orb_false_iff in Hne as [Hne _].
  destruct Hi as [Hi|[Hc _]]; [congruence|]. apply wp_bind.
  apply (wp_mono _ (fun _ => True) _ (fun _ => True)); [| |done].
  { destruct (decide _) as [|Hn]; [done|]. apply wp_bind, wp_assert; [|done].
    apply bool_decide_eq_true. by destruct (frameType zfh). }
  intros [mg' b'] _. apply wp_bind, wp_assert; [lia|]. simpl. lia.
Qed.
End ReadAny.

(** C32: Parsing a frame header never goes wrong.  On any bytes, in either
    format, [ZSTD_getFrameHeader_advanced] reads only the [srcSize] bytes it is
    given; it reports an error, asks for a larger input (more than it was given,
    at most 18 bytes), or fills a header whose size is within the input, whose
    sizes fit 64 bits, and whose blocks are at most 128 KB and at most the
    window. *)
Theorem ZSTD_getFrameHeader_safe `{P : Platform} (zfh : ZSTD_FrameHeader) (buf : list Z) (src srcSize : Z)
    (format : ZSTD_format_e) :
  bytes buf -> 0 <= src -> 0 <= srcSize -> src + srcSize <= zlen buf ->
  wp (ZSTD_getFrameHeader_advanced zfh buf src srcSize format) (fh_ok srcSize) real_error.
Proof. intros. by apply getFrameHeader_safe. Qed.

Lemma ZSTD_getFrameHeader_safe_witness :
  wp (ZSTD_getFrameHeader_advanced (P := arm64_v8a) zero_header [9; 40; 181; 47; 253; 0; 88; 7] 1 7 ZSTD_f_zstd1)
    (fh_ok 7) real_error.
Proof.
  apply (ZSTD_getFrameHeader_safe (P := arm64_v8a)); [eval_bytes|lia|lia|vm_compute; congruence].
Defined.

(** C30: Walking over frames terminates, stays in bounds, and its two sizes
    agree.  On any bytes, [ZSTD_findDecompressedSize] and [ZSTD_decompressBound]
    return (the latter never more than 64 bits), [ZSTD_decompressionMargin]
    returns or reports an error, all without reading outside the input; and
    when [ZSTD_findDecompressedSize] finds the total content size,
    [ZSTD_decompressBound] is exactly that size. *)
Theorem ZSTD_frame_walks `{P : Platform} (buf : list Z) (src srcSize : Z) :
  bytes buf -> 0 <= src -> 0 <= srcSize -> src + srcSize <= zlen buf -> srcSize <= 2 ^ (8 * sizeof_size_t) - 120 ->
  (exists n m, ZSTD_findDecompressedSize buf src srcSize = Ok n /\ ZSTD_decompressBound buf src srcSize = Ok m /\
     0 <= n < 2 ^ 64 /\ 0 <= m < 2 ^ 64 /\ (n < ZSTD_CONTENTSIZE_ERROR -> m = n)) /\
  safe (ZSTD_decompressionMargin buf src srcSize) (fun n => 0 <= n < 2 ^ (8 * sizeof_size_t)).
Proof.
  intros Hb Hs Hsz Hl Hmax. split; [|apply margin_safe; done || lia].
  apply sizes_agree; [done|unfold walk_in; lia|lia|done].
Qed.

(** A frame with 5 bytes of content, a skippable frame, and another frame. *)
Definition three_frames : list Z :=
  [40; 181; 47; 253; 32; 5; 41; 0; 0; 1; 2; 3; 4; 5] ++ [80; 42; 77; 24; 2; 0; 0; 0; 9; 9] ++
  [40; 181; 47; 253; 32; 2; 19; 0; 0; 7].

Lemma ZSTD_frame_walks_witness :
  exists n m, ZSTD_findDecompressedSize (P := armeabi_v7a) three_frames 0 34 = Ok n /\
    ZSTD_decompressBound (P := armeabi_v7a) three_frames 0 34 = Ok m /\ n = 7 /\ m = n.
Proof.
  destruct (ZSTD_frame_walks (P := armeabi_v7a) three_frames 0 34) as [(n & m & Hn & Hm & _ & _ & Heq) _].
  - eval_bytes.
  - lia.
  - lia.
  - vm_compute. congruence.
  - vm_compute. congruence.
  - exists n, m. split; [exact Hn|]. split; [exact Hm|]. vm_compute in Hn. injection Hn as <-.
    split; [reflexivity|]. apply Heq. vm_compute. reflexivity.
Defined.

(** The sum of [ZSTD_decompressBound] is not checked for overflow: two frames
    that announce 2^63 bytes each (and have one empty block) have the bound 0,
    where [ZSTD_findDecompressedSize] reports an error. *)
Lemma ZSTD_decompressBound_wraps `{P : Platform} :
  let frame := [40; 181; 47; 253; 192; 0; 0; 0; 0; 0; 0; 0; 0; 128; 1; 0; 0] in
  ZSTD_decompressBound frame 0 17 = Ok (2 ^ 63) /\
  ZSTD_decompressBound (frame ++ frame) 0 34 = Ok 0 /\
  ZSTD_findDecompressedSize (frame ++ frame) 0 34 = Ok ZSTD_CONTENTSIZE_ERROR.
Proof. destruct P as [[] [] []]; vm_compute; repeat split. Qed.

(** ** Skippable frames and block headers: writing then reading *)

Lemma skippable_magic v :
  0 <= v <= 15 -> is_skippable_magic (ZSTD_MAGIC_SKIPPABLE_START + v) = true /\
    u32 (ZSTD_MAGIC_SKIPPABLE_START + v) = ZSTD_MAGIC_SKIPPABLE_START + v.
Proof.
  intros Hv. split; [|apply wrap_small; unfold ZSTD_MAGIC_SKIPPABLE_START; lia].
  apply (all_below_spec 16 (fun v => is_skippable_magic (ZSTD_MAGIC_SKIPPABLE_START + v)) v); [reflexivity|lia].
Qed.

Section Skippable.
Context `{P : Platform} (v : Z) (data : list Z).
Hypothesis Hv : 0 <= v <= 15.
Hypothesis Hdata : bytes data.
Hypothesis Hlen : zlen data < 2 ^ 32.

Definition skippable_bytes : list Z :=
  le_bytes 4 (ZSTD_MAGIC_SKIPPABLE_START + v) ++ le_bytes 4 (zlen data) ++ data.

Lemma zlen_skippable : zlen skippable_bytes = zlen data + 8.
Proof. unfold skippable_bytes. rewrite !zlen_app, !zlen_le_bytes. lia. Qed.

Lemma writeSkippable_val mem dst dstCapacity buf src :
  0 <= dst -> zlen data + 8 <= dstCapacity -> dst + dstCapacity <= zlen mem ->
  zlen data + 8 < 2 ^ (8 * sizeof_size_t) -> stands_at buf src data ->
  ZSTD_writeSkippableFrame mem dst dstCapacity buf src (zlen data) v =
  Ok (zlen data + 8, splice mem dst skippable_bytes).
Proof.
  intros Hd Hcap Hroom Hfit (Hs & Hl & He). pose proof (zlen_nonneg data).
  unfold ZSTD_writeSkippableFrame, ZSTD_SKIPPABLEHEADERSIZE.
  assert (size_t (zlen data + 8) = zlen data + 8) as -> by (apply wrap_small; lia).
  unfold reject_if. rewrite (proj2 (Z.ltb_ge dstCapacity _)), (proj2 (Z.ltb_ge _ (zlen data))), (proj2 (Z.ltb_ge 15 v)) by lia.
  cbn [obind]. destruct (skippable_magic v Hv) as [_ ->].
  rewrite MEM_writeLE32_val by (unfold ZSTD_MAGIC_SKIPPABLE_START; lia). cbn [obind].
  set (w1 := le_bytes 4 (ZSTD_MAGIC_SKIPPABLE_START + v)). assert (zlen w1 = 4) as Hw1 by (unfold w1; by rewrite zlen_le_bytes).
  rewrite (wrap_small 32 (zlen data)) by lia. replace (dst + 4) with (dst + zlen w1) by lia.
  rewrite MEM_writeLE32_val by (rewrite ?zlen_splice by lia; lia). rewrite emit_le by lia. cbn [obind].
  rewrite asub_Ok by lia. rewrite He. cbn [obind]. set (w2 := w1 ++ le_bytes 4 (zlen data)).
  assert (zlen w2 = 8) as Hw2 by (unfold w2; rewrite zlen_app, zlen_le_bytes; lia).
  replace (dst + 8) with (dst + zlen w2) by lia. rewrite awrite_Ok by (rewrite ?zlen_splice by lia; lia). cbn [obind].
  rewrite splice_app by lia. unfold w2, skippable_bytes. by rewrite <- app_assoc.
Qed.

Lemma skippable_fields buf src :
  bytes buf -> stands_at buf src skippable_bytes ->
  MEM_readLE32 buf src = (Ok (ZSTD_MAGIC_SKIPPABLE_START + v) : res Z) /\
  MEM_readLE32 buf (src + ZSTD_FRAMEIDSIZE) = (Ok (zlen data) : res Z) /\
  stands_at buf (src + 8) data.
Proof.
  intros Hb Hst. pose proof (zlen_nonneg data). unfold ZSTD_FRAMEIDSIZE.
  assert (forall p x, 0 <= x < 2 ^ 32 -> stands_at buf p (le_bytes 4 x) -> MEM_readLE32 buf p = (Ok x : res Z)) as Hrd.
  { intros p x Hx Hp. pose proof Hp as (Hp0 & _). apply stands_at_le in Hp as [Hl He].
    rewrite MEM_readLE32_val by (done || lia). change 4 with (Z.of_nat 4). by rewrite He, le_val_le_bytes_small. }
  unfold skippable_bytes in Hst. split; [|split].
  - apply Hrd; [unfold ZSTD_MAGIC_SKIPPABLE_START; lia|]. by eapply stands_at_app.
  - apply Hrd; [lia|]. by apply stands_at_mid in Hst.
  - rewrite app_assoc, <- (app_nil_r data) in Hst. apply stands_at_mid in Hst.
    rewrite zlen_app, !zlen_le_bytes in Hst. exact Hst.
Qed.

Lemma readSkippable_val mem2 dst2 cap2 buf src srcSize :
  bytes buf -> stands_at buf src skippable_bytes -> zlen data + 8 <= srcSize ->
  srcSize <= 2 ^ (8 * sizeof_size_t) - 120 -> 0 <= dst2 -> zlen data <= cap2 -> dst2 + cap2 <= zlen mem2 ->
  ZSTD_readSkippableFrame mem2 dst2 cap2 buf src srcSize =
  if zlen data + 8 <? 2 ^ 32 then Ok (zlen data, splice mem2 dst2 data, v) else Err ZSTD_error_srcSize_wrong.
Proof.
  intros Hb Hst Hsz Hmax Hd Hcap Hroom. destruct (skippable_fields buf src Hb Hst) as (Hm & Hn & Hdat).
  pose proof (zlen_nonneg data). unfold ZSTD_readSkippableFrame, readSkippableFrameSize, ZSTD_isSkippableFrame.
  unfold ZSTD_SKIPPABLEHEADERSIZE, ZSTD_FRAMEIDSIZE in *. unfold reject_if.
  rewrite (proj2 (Z.ltb_ge srcSize 8)), (proj2 (Z.ltb_ge srcSize 4)) by lia. cbn [obind]. rewrite Hm, Hn. cbn [obind].
  destruct (skippable_magic v Hv) as [-> _]. cbn [negb].
  destruct (Z.ltb_spec (zlen data + 8) (2 ^ 32)) as [Hs|Hs].
  - rewrite (wrap_small 32) by lia. rewrite (proj2 (Z.ltb_ge _ (zlen data))) by lia. cbn [obind].
    rewrite (size_t_small (8 + zlen data)) by lia. rewrite (proj2 (Z.ltb_ge srcSize (8 + zlen data))) by lia. cbn [obind as_size].
    rewrite (proj2 (Z.ltb_ge (8 + zlen data) 8)), (proj2 (Z.ltb_ge srcSize _)) by lia. cbn [orb obind].
    replace (8 + zlen data - 8) with (zlen data) by lia. rewrite size_t_small by lia.
    rewrite (proj2 (Z.ltb_ge cap2 _)) by lia. cbn [obind]. destruct Hdat as (Hd0 & Hdl & Hde).
    replace (ZSTD_MAGIC_SKIPPABLE_START + v - ZSTD_MAGIC_SKIPPABLE_START) with v by lia. rewrite (wrap_small 32 v) by lia.
    destruct (Z.ltb_spec 0 (zlen data)) as [Hp|Hp].
    + rewrite asub_Ok by lia. rewrite Hde. cbn [obind]. by rewrite awrite_Ok by lia.
    + assert (data = []) as -> by (apply length_zero_iff_nil; unfold zlen in *; lia).
      cbn [obind]. do 3 f_equal. unfold splice. rewrite app_nil_l, Nat.add_0_r. by rewrite take_drop.
  - assert (u32 (zlen data + 8) <? zlen data = true) as ->.
    { unfold wrap. rewrite <- (Z.mod_add _ (-1)), Z.mod_small by lia. apply Z.ltb_lt. lia. }
    cbn [obind as_size]. assert (srcSize < ERROR ZSTD_error_frameParameter_unsupported) as Herr.
    { rewrite ERROR_value by (vm_compute; split; congruence).
      assert (error_value ZSTD_error_frameParameter_unsupported < 120) by done. lia. }
    rewrite (proj2 (Z.ltb_lt srcSize _)) by done. by rewrite orb_true_r.
Qed.
End Skippable.

(** A skippable frame carries its payload.  [ZSTD_writeSkippableFrame]
    followed by [ZSTD_readSkippableFrame] delivers the payload and the magic
    variant, whatever follows the frame, as long as the frame's size fits 32
    bits; a payload of 2^32-8 to 2^32-1 bytes, which the writer accepts on a
    64-bit platform, makes a frame the reader refuses. *)
Theorem ZSTD_skippable_round_trip `{P : Platform} (mem : list Z) (dst dstCapacity : Z) (buf : list Z) (src : Z)
    (data : list Z) (v : Z) (mem2 : list Z) (dst2 cap2 n : Z) :
  bytes mem -> bytes data -> 0 <= v <= 15 -> zlen data < 2 ^ 32 -> stands_at buf src data ->
  0 <= dst -> zlen data + 8 <= dstCapacity -> dst + dstCapacity <= zlen mem ->
  zlen data + 8 <= n <= 2 ^ (8 * sizeof_size_t) - 120 ->
  0 <= dst2 -> zlen data <= cap2 -> dst2 + cap2 <= zlen mem2 ->
  exists mem', ZSTD_writeSkippableFrame mem dst dstCapacity buf src (zlen data) v = Ok (zlen data + 8, mem') /\
    ZSTD_readSkippableFrame mem2 dst2 cap2 mem' dst n =
    if zlen data + 8 <? 2 ^ 32 then Ok (zlen data, splice mem2 dst2 data, v) else Err ZSTD_error_srcSize_wrong.
Proof.
  intros Hbm Hbd Hv Hlen Hst Hd Hcap Hroom Hn Hd2 Hcap2 Hroom2. pose proof (zlen_nonneg data).
  exists (splice mem dst (skippable_bytes v data)). split; [apply writeSkippable_val; done || lia|].
  pose proof (zlen_skippable v data) as Hz.
  apply readSkippable_val; try done; try lia.
  - apply bytes_of_splice; [done|]. unfold skippable_bytes. rewrite !Forall_app. auto using bytes_le_bytes.
  - split; [done|]. rewrite zlen_splice by lia. split; [lia|]. apply slice_splice; lia.
Qed.

Lemma ZSTD_skippable_round_trip_witness :
  exists mem', ZSTD_writeSkippableFrame (P := arm64_v8a) (replicate 20 0) 1 19 [1; 2; 3] 0 3 7 = Ok (11, mem') /\
    ZSTD_readSkippableFrame (P := arm64_v8a) (replicate 5 0) 1 4 mem' 1 19 = Ok (3, [0; 1; 2; 3; 0], 7).
Proof.
  apply (ZSTD_skippable_round_trip (P := arm64_v8a) (replicate 20 0) 1 19 [1; 2; 3] 0 [1; 2; 3] 7 (replicate 5 0) 1 4 19);
    try eval_bytes; try lia; try (vm_compute; repeat split; congruence).
Defined.

Lemma block_header_fields last t s :
  0 <= last <= 1 -> 0 <= t <= 3 -> 0 <= s < 2 ^ 21 ->
  let h := last + 2 * t + 8 * s in
  Z.land h 1 = last /\ Z.land (Z.shiftr h 1) 3 = t /\ Z.shiftr h 3 = s.
Proof.
  intros Hl Ht Hs h. change 1 with (2 ^ 1 - 1) at 1. rewrite land_ones_wrap by lia.
  rewrite !Z.shiftr_div_pow2 by lia. change 3 with (2 ^ 2 - 1) at 1. rewrite land_ones_wrap by lia. unfold wrap, h.
  change (2 ^ 1) with 2. change (2 ^ 2) with 4. change (2 ^ 3) with 8.
  replace (last + 2 * t + 8 * s) with (last + (t + 4 * s) * 2) by lia.
  rewrite Z.mod_add, Z.div_add, Z.mod_small, (Z.div_small last), Z.add_0_l by lia.
  replace (t + 4 * s) with (t + s * 4) by lia. rewrite Z.mod_add, Z.mod_small by lia. split; [done|]. split; [done|].
  replace (last + (t + s * 4) * 2) with (last + 2 * t + s * 8) by lia. rewrite Z.div_add, Z.div_small by lia. lia.
Qed.

Lemma blockType_of_val t : blockType_of (blockType_val t) = t.
Proof. by destruct t. Qed.

Section Blocks.
Context `{P : Platform}.

Lemma block_header_word last t s :
  0 <= last <= 1 -> 0 <= s < 2 ^ 21 ->
  u32 (u32 (last + Z.shiftl (blockType_val t) 1) + u32 (size_t (Z.shiftl s 3))) = last + 2 * blockType_val t + 8 * s.
Proof.
  intros Hl Hs. assert (0 <= blockType_val t <= 3) by (destruct t; vm_compute; split; congruence).
  rewrite !Z.shiftl_mul_pow2 by lia. rewrite (size_t_small (s * 2 ^ 3)) by lia.
  rewrite (wrap_small 32 (s * 2 ^ 3)), (wrap_small 32 (last + _)) by lia. rewrite wrap_small by lia. lia.
Qed.

Lemma getcBlockSize_val buf src srcSize last t s :
  bytes buf -> 0 <= last <= 1 -> 0 <= s < 2 ^ 21 -> t <> bt_reserved -> 3 <= srcSize ->
  stands_at buf src (le_bytes 3 (last + 2 * blockType_val t + 8 * s)) ->
  ZSTD_getcBlockSize buf src srcSize =
  Ok (if decide (t = bt_rle) then 1 else s, {| blockType := t; lastBlock := last; origSize := s |}).
Proof.
  intros Hb Hl Hs Ht Hsz Hst. assert (0 <= blockType_val t <= 3) as Hr by (destruct t; vm_compute; split; congruence).
  pose proof Hst as (Hp & _). apply stands_at_le in Hst as [Hlen He].
  unfold ZSTD_getcBlockSize, ZSTD_blockHeaderSize, reject_if. rewrite (proj2 (Z.ltb_ge srcSize 3)) by lia. cbn [obind].
  rewrite MEM_readLE24_val by (done || lia). cbn [obind]. change 3 with (Z.of_nat 3). rewrite He.
  rewrite le_val_le_bytes_small by (change (256 ^ Z.of_nat 3) with (2 ^ 24); lia).
  destruct (block_header_fields last (blockType_val t) s Hl Hr Hs) as (E1 & E2 & E3).
  change (Z.of_nat 3) with 3. rewrite E1, E2, E3. cbn [blockType]. rewrite blockType_of_val. destruct (decide (t = bt_rle)); [done|].
  by rewrite bool_decide_false by done.
Qed.

Lemma block_header_fit t s last : 0 <= last <= 1 -> 0 <= s < 2 ^ 21 -> 0 <= last + 2 * blockType_val t + 8 * s < 2 ^ 24.
Proof. intros Hl Hs. assert (0 <= blockType_val t <= 3) by (destruct t; vm_compute; split; congruence). lia. Qed.

(** A header and the content [k] after it, written at [dst]. *)
Lemma written_block mem dst n last t s k :
  bytes mem -> 0 <= dst -> 3 <= n -> 0 <= last <= 1 -> 0 <= s < 2 ^ 21 -> t <> bt_reserved -> bytes k ->
  dst + 3 + zlen k <= zlen mem ->
  let m := splice mem dst (le_bytes 3 (last + 2 * blockType_val t + 8 * s) ++ k) in
  ZSTD_getcBlockSize m dst n = Ok (if decide (t = bt_rle) then 1 else s, {| blockType := t; lastBlock := last; origSize := s |}) /\
  stands_at m (dst + 3) k.
Proof.
  intros Hbm Hd Hn Hl Hs Ht Hk Hr m. set (h := le_bytes 3 (last + 2 * blockType_val t + 8 * s)) in *.
  assert (zlen (h ++ k) = 3 + zlen k) as Hzk by (unfold h; rewrite zlen_app, zlen_le_bytes; lia).
  assert (stands_at m dst (h ++ k)) as Hm.
  { unfold m. split; [done|]. rewrite zlen_splice by lia. split; [lia|]. apply slice_splice; lia. }
  split.
  - apply getcBlockSize_val; try done.
    + unfold m. apply bytes_of_splice; [done|]. apply Forall_app. split; [apply bytes_le_bytes|done].
    + by eapply stands_at_app.
  - rewrite <- (app_nil_r k) in Hm. apply stands_at_mid in Hm. unfold h in Hm. by rewrite zlen_le_bytes in Hm.
Qed.
End Blocks.

(** Blocks are read back as they were written.  For every block size a
    frame can have, the raw block of [ZSTD_noCompressBlock], the run of
    [ZSTD_rleCompressBlock] and the empty block of [ZSTD_writeLastEmptyBlock]
    have a header from which [ZSTD_getcBlockSize] recovers the block's type,
    size and last flag, and their content follows it. *)
Theorem ZSTD_block_round_trip `{P : Platform} (mem : list Z) (dst dstCapacity : Z) (buf : list Z) (src : Z)
    (data : list Z) (b last n : Z) :
  bytes mem -> bytes data -> is_byte b -> 0 <= last <= 1 -> zlen data <= ZSTD_BLOCKSIZE_MAX -> stands_at buf src data ->
  0 <= dst -> zlen data + 4 <= dstCapacity -> dst + dstCapacity <= zlen mem -> 3 <= n ->
  (exists m, ZSTD_noCompressBlock mem dst dstCapacity buf src (zlen data) last = Ok (3 + zlen data, m) /\
     ZSTD_getcBlockSize m dst n = Ok (zlen data, {| blockType := bt_raw; lastBlock := last; origSize := zlen data |}) /\
     stands_at m (dst + 3) data) /\
  (exists m, ZSTD_rleCompressBlock mem dst dstCapacity b (zlen data) last = Ok (4, m) /\
     ZSTD_getcBlockSize m dst n = Ok (1, {| blockType := bt_rle; lastBlock := last; origSize := zlen data |}) /\
     stands_at m (dst + 3) [b]) /\
  (exists m, ZSTD_writeLastEmptyBlock mem dst dstCapacity = Ok (3, m) /\
     ZSTD_getcBlockSize m dst n = Ok (0, {| blockType := bt_raw; lastBlock := 1; origSize := 0 |})).
Proof.
  intros Hbm Hbd Hb Hl Hz Hst Hd Hcap Hroom Hn. pose proof (zlen_nonneg data). change ZSTD_BLOCKSIZE_MAX with (2 ^ 17) in Hz.
  destruct Hst as (Hs & Hsl & He). unfold is_byte in Hb.
  unfold ZSTD_noCompressBlock, ZSTD_rleCompressBlock, ZSTD_writeLastEmptyBlock, ZSTD_blockHeaderSize, reject_if.
  rewrite (size_t_small (zlen data + 3)), (size_t_small (3 + zlen data)) by lia. rewrite !block_header_word by lia.
  rewrite (proj2 (Z.ltb_ge dstCapacity (zlen data + 3))), (proj2 (Z.ltb_ge dstCapacity 4)), (proj2 (Z.ltb_ge dstCapacity 3)) by lia.
  cbn [obind]. rewrite !MEM_writeLE24_val by (try apply (block_header_fit bt_raw 0); try apply block_header_fit; lia). cbn [obind]. split; [|split].
  - rewrite asub_Ok by lia. rewrite He. cbn [obind].
    rewrite awrite_Ok by (rewrite ?zlen_splice by (rewrite ?zlen_le_bytes; lia); lia). cbn [obind]. eexists. split; [reflexivity|].
    replace (dst + 3) with (dst + zlen (le_bytes 3 (last + 2 * blockType_val bt_raw + 8 * zlen data))) at 1 2
      by (rewrite zlen_le_bytes; lia).
    rewrite splice_app by (rewrite ?zlen_le_bytes; lia). apply (written_block mem dst n last bt_raw); done || lia.
  - pose proof (emit1 mem dst Hd (le_bytes 3 (last + 2 * blockType_val bt_rle + 8 * zlen data)) b) as Hem.
    rewrite zlen_le_bytes in Hem. change (Z.of_nat 3) with 3 in Hem. rewrite Hem by lia. cbn [obind].
    eexists. split; [reflexivity|]. apply (written_block mem dst n last bt_rle); [done|lia|lia|lia|lia|done| |change (zlen [b]) with 1; lia].
    constructor; [unfold is_byte; lia|constructor].
  - change (1 + Z.shiftl (blockType_val bt_raw) 1) with (1 + 2 * blockType_val bt_raw + 8 * 0).
    rewrite MEM_writeLE24_val by (try apply block_header_fit; lia). cbn [obind]. eexists. split; [reflexivity|]. pose proof (written_block mem dst n 1 bt_raw 0 []) as Hr. rewrite app_nil_r in Hr.
    apply Hr; [done|lia|lia|lia|lia|done|constructor|change (@zlen Z []) with 0; lia].
Qed.

Lemma ZSTD_block_round_trip_witness :
  exists m, ZSTD_noCompressBlock (P := be32_plain) (replicate 12 0) 2 10 [8; 9; 10] 0 3 1 = Ok (6, m) /\
    ZSTD_getcBlockSize (P := be32_plain) m 2 10 = Ok (3, {| blockType := bt_raw; lastBlock := 1; origSize := 3 |}).
Proof.
  destruct (ZSTD_block_round_trip (P := be32_plain) (replicate 12 0) 2 10 [8; 9; 10] 0 [8; 9; 10] 5 1 10)
    as [(m & Hw & Hr & _) _].
  - eval_bytes.
  - eval_bytes.
  - unfold is_byte. lia.
  - lia.
  - vm_compute. congruence.
  - repeat split; vm_compute; congruence.
  - lia.
  - vm_compute. congruence.
  - vm_compute. congruence.
  - lia.
  - by exists m.
Defined.

(** ** The worst case of single-pass compression *)

Definition bound_val (s : Z) : Z := s + s / 256 + (if s <? 131072 then (131072 - s) / 2048 else 0).

Lemma compressBound_val `{P : Platform} s :
  0 <= s < ZSTD_MAX_INPUT_SIZE -> ZSTD_COMPRESSBOUND s = bound_val s /\ 0 < bound_val s < 2 ^ (8 * sizeof_size_t).
Proof.
  intros Hs. unfold ZSTD_COMPRESSBOUND. rewrite (proj2 (Z.leb_gt _ s)) by lia.
  rewrite !Z.shiftr_div_pow2 by lia. change (Z.shiftl 128 10) with 131072. change (2 ^ 8) with 256. change (2 ^ 11) with 2048.
  pose proof (Z.div_mod s 256 ltac:(lia)). pose proof (Z.mod_pos_bound s 256 ltac:(lia)).
  pose proof (Z.div_mod (131072 - s) 2048 ltac:(lia)). pose proof (Z.mod_pos_bound (131072 - s) 2048 ltac:(lia)).
  unfold bound_val. assert (s + s / 256 < 2 ^ (8 * sizeof_size_t) /\ (if s <? 131072 then s + s / 256 + (131072 - s) / 2048 else 0) < 2 ^ 31) as [Hx1 Hx2].
  { revert Hs. unfold ZSTD_MAX_INPUT_SIZE. destruct sizeof_size_t_cases as [-> | ->]; cbn [Z.eqb Pos.eqb]; intros Hs;
      (split; [lia|destruct (Z.ltb_spec s 131072); lia]). }
  assert (2 ^ 31 < 2 ^ (8 * sizeof_size_t)) by (destruct sizeof_size_t_cases as [-> | ->]; lia).
  unfold size_t. rewrite (wrap_small _ (s + s / 256)) by lia.
  destruct (Z.ltb_spec s 131072); rewrite wrap_small by lia; lia.
Qed.

(** [ZSTD_compressBound] is large enough and superadditive.  Below
    [ZSTD_MAX_INPUT_SIZE] the computation does not overflow and gives room for
    a frame of raw blocks: the largest frame header, a header for each block of
    128 KB (at least one), the content and the checksum; from that size on it
    reports [srcSize_wrong].  As its comment says, bound(A) + bound(B) <=
    bound(A+B) as long as A and B are at least 128 KB. *)
Theorem ZSTD_compressBound_enough `{P : Platform} (s a b : Z) :
  0 <= s < 2 ^ (8 * sizeof_size_t) -> 131072 <= a -> 131072 <= b -> a + b < ZSTD_MAX_INPUT_SIZE ->
  (if s <? ZSTD_MAX_INPUT_SIZE
   then exists r, ZSTD_compressBound s = Ok r /\ r < 2 ^ (8 * sizeof_size_t) /\
     ZSTD_FRAMEHEADERSIZE_MAX + Z.max 1 ((s + ZSTD_BLOCKSIZE_MAX - 1) / ZSTD_BLOCKSIZE_MAX) * ZSTD_blockHeaderSize + s + 4 <= r
   else ZSTD_compressBound s = Err ZSTD_error_srcSize_wrong) /\
  exists ra rb rab, ZSTD_compressBound a = Ok ra /\ ZSTD_compressBound b = Ok rb /\
    ZSTD_compressBound (a + b) = Ok rab /\ ra + rb <= rab.
Proof.
  intros Hs Ha Hb Hab.
  assert (forall x, 0 <= x < ZSTD_MAX_INPUT_SIZE -> ZSTD_compressBound x = Ok (bound_val x)) as Hval.
  { intros x Hx. destruct (compressBound_val x Hx) as [E Hpos]. unfold ZSTD_compressBound, reject_if. rewrite E.
    by rewrite (proj2 (Z.eqb_neq _ 0)) by lia. }
  split.
  - destruct (Z.ltb_spec s ZSTD_MAX_INPUT_SIZE) as [Hlt|Hge].
    + exists (bound_val s). split; [apply Hval; lia|]. pose proof (compressBound_val s (conj (proj1 Hs) Hlt)) as [_ Hpos]. split; [lia|].
      unfold bound_val, ZSTD_FRAMEHEADERSIZE_MAX, ZSTD_blockHeaderSize. change ZSTD_BLOCKSIZE_MAX with 131072.
      pose proof (Z.div_mod s 256 ltac:(lia)). pose proof (Z.mod_pos_bound s 256 ltac:(lia)).
      pose proof (Z.div_mod (131072 - s) 2048 ltac:(lia)). pose proof (Z.mod_pos_bound (131072 - s) 2048 ltac:(lia)).
      pose proof (Z.div_mod (s + 131072 - 1) 131072 ltac:(lia)). pose proof (Z.mod_pos_bound (s + 131072 - 1) 131072 ltac:(lia)).
      destruct (Z.ltb_spec s 131072); lia.
    + unfold ZSTD_compressBound, ZSTD_COMPRESSBOUND. by rewrite (proj2 (Z.leb_le _ s)) by lia.
  - exists (bound_val a), (bound_val b), (bound_val (a + b)). split; [apply Hval; lia|]. split; [apply Hval; lia|].
    split; [apply Hval; lia|]. unfold bound_val. rewrite !(proj2 (Z.ltb_ge _ 131072)) by lia.
    pose proof (Z.div_mod a 256 ltac:(lia)). pose proof (Z.mod_pos_bound a 256 ltac:(lia)).
    pose proof (Z.div_mod b 256 ltac:(lia)). pose proof (Z.mod_pos_bound b 256 ltac:(lia)).
    pose proof (Z.div_mod (a + b) 256 ltac:(lia)). pose proof (Z.mod_pos_bound (a + b) 256 ltac:(lia)). lia.
Qed.

Lemma ZSTD_compressBound_enough_witness :
  exists ra rb rab, ZSTD_compressBound (P := armeabi_v7a) 131072 = Ok ra /\
    ZSTD_compressBound (P := armeabi_v7a) 200000 = Ok rb /\
    ZSTD_compressBound (P := armeabi_v7a) (131072 + 200000) = Ok rab /\ ra + rb <= rab.
Proof.
  apply (ZSTD_compressBound_enough (P := armeabi_v7a) 1000 131072 200000); [vm_compute; split; congruence|lia|lia|].
  vm_compute. reflexivity.
Defined.
