(* ===== verification/Normalize.v ===== *)
(** * fse_compress.c: normalizing counts

    [FSE_normalizeCount] turns the histogram of a block into counts that add up
    to the size of a table, falling back to [FSE_normalizeM2] when rounding went
    too far; [FSE_optimalTableLog] chooses the table's size.  The theorem is that
    what it returns is a distribution the other FSE functions accept, in which
    exactly the symbols of the block are present. *)
From S2P Require Import Prelude Mem Errors Bits BitStream Fse FseSpread.

Definition rtbTable : list Z := [0; 473195; 504333; 520860; 550000; 700000; 750000; 830000].
Definition NOT_YET_ASSIGNED : Z := -2.

(** [ZSTD_div64] *)
Definition ZSTD_div64 (dividend divisor : Z) : Z := dividend / divisor.

Section Definitions.
Context `{P : Platform}.
Implicit Types (count norm : list Z).

Definition FSE_minTableLog (srcSize maxSymbolValue : Z) : res Z :=
  let* hs := ZSTD_highbit32 (u32 srcSize) in
  let minBitsSrc := hs + 1 in
  let* hm := ZSTD_highbit32 maxSymbolValue in
  let minBitsSymbols := hm + 2 in
  let minBits := if minBitsSrc <? minBitsSymbols then minBitsSrc else minBitsSymbols in
  oassert (1 <? srcSize) ;;;
  Ok minBits.

Definition FSE_optimalTableLog_internal (maxTableLog srcSize maxSymbolValue minus : Z) : res Z :=
  let* h := ZSTD_highbit32 (u32 (srcSize - 1)) in
  let maxBitsSrc := u32 (h - minus) in
  let tableLog := maxTableLog in
  let* minBits := FSE_minTableLog srcSize maxSymbolValue in
  oassert (1 <? srcSize) ;;;
  let tableLog := if tableLog =? 0 then FSE_DEFAULT_TABLELOG else tableLog in
  let tableLog := if maxBitsSrc <? tableLog then maxBitsSrc else tableLog in
  let tableLog := if tableLog <? minBits then minBits else tableLog in
  let tableLog := if tableLog <? FSE_MIN_TABLELOG then FSE_MIN_TABLELOG else tableLog in
  let tableLog := if FSE_MAX_TABLELOG <? tableLog then FSE_MAX_TABLELOG else tableLog in
  Ok tableLog.

Definition FSE_optimalTableLog (maxTableLog srcSize maxSymbolValue : Z) : res Z :=
  FSE_optimalTableLog_internal maxTableLog srcSize maxSymbolValue 2.

(** ** The secondary method *)

(** The first pass: ([norm], [distributed], [total]). *)
Definition m2_first count (lowThreshold lowOne lowProbCount s : Z) (st : list Z * Z * Z) : res (list Z * Z * Z) :=
  let '(norm, distributed, total) := st in
  let* c := aget count s in
  if c =? 0 then
    let* norm := aset norm s 0 in Ok (norm, distributed, total)
  else if c <=? lowThreshold then
    let* norm := aset norm s lowProbCount in Ok (norm, u32 (distributed + 1), size_t (total - c))
  else if c <=? lowOne then
    let* norm := aset norm s 1 in Ok (norm, u32 (distributed + 1), size_t (total - c))
  else
    let* norm := aset norm s NOT_YET_ASSIGNED in Ok (norm, distributed, total).

(** The second pass, when rounding to zero is a risk. *)
Definition m2_second count (lowOne s : Z) (st : list Z * Z * Z) : res (list Z * Z * Z) :=
  let '(norm, distributed, total) := st in
  let* n := aget norm s in
  let* c := aget count s in
  if (n =? NOT_YET_ASSIGNED) && (c <=? lowOne) then
    let* norm := aset norm s 1 in Ok (norm, u32 (distributed + 1), size_t (total - c))
  else Ok (norm, distributed, total).

(** The most frequent symbol: ([maxV], [maxC]). *)
Definition m2_max count (s : Z) (st : Z * Z) : res (Z * Z) :=
  let '(maxV, maxC) := st in
  let* c := aget count s in
  Ok (if maxC <? c then (s, c) else (maxV, maxC)).

(** [for (s=0; ToDistribute > 0; s = (s+1)%(maxSymbolValue+1))] *)
Definition m2_round (maxSymbolValue : Z) (st : list Z * Z * Z) : res (list Z * Z * Z + list Z) :=
  let '(norm, s, ToDistribute) := st in
  if 0 <? ToDistribute then
    let* n := aget norm s in
    let* (norm, ToDistribute) :=
      if 0 <? n then let* norm := aset norm s (s16 (n + 1)) in Ok (norm, ToDistribute - 1)
      else Ok (norm, ToDistribute) in
    Ok (inl (norm, (s + 1) mod (maxSymbolValue + 1), ToDistribute))
  else Ok (inr norm).

(** Scaling the symbols left: ([norm], [tmpTotal]). *)
Definition m2_scale count (vStepLog rStep s : Z) (st : list Z * Z) : res (list Z * Z) :=
  let '(norm, tmpTotal) := st in
  let* n := aget norm s in
  if n =? NOT_YET_ASSIGNED then
    let* c := aget count s in
    let end_ := u64 (tmpTotal + u64 (c * rStep)) in
    let sStart := u32 (Z.shiftr tmpTotal vStepLog) in
    let sEnd := u32 (Z.shiftr end_ vStepLog) in
    let weight := u32 (sEnd - sStart) in
    reject_if (weight <? 1) ZSTD_error_GENERIC ;;;
    let* norm := aset norm s (s16 weight) in
    Ok (norm, end_)
  else Ok (norm, tmpTotal).

Definition FSE_normalizeM2 norm (tableLog : Z) count (total maxSymbolValue lowProbCount : Z) : res (list Z) :=
  let maxSV1 := maxSymbolValue + 1 in
  let lowThreshold := u32 (Z.shiftr total tableLog) in
  let lowOne := u32 (Z.shiftr (size_t (total * 3)) (tableLog + 1)) in
  let* (norm, distributed, total) :=
    for_range 0 maxSV1 (m2_first count lowThreshold lowOne lowProbCount) (norm, 0, total) in
  let ToDistribute := u32 (Z.shiftl 1 tableLog - distributed) in
  if ToDistribute =? 0 then Ok norm
  else
    let* (norm, distributed, total, ToDistribute) :=
      if lowOne <? total / ToDistribute then
        let lowOne := u32 (size_t (total * 3) / u32 (ToDistribute * 2)) in
        let* (norm, distributed, total) := for_range 0 maxSV1 (m2_second count lowOne) (norm, distributed, total) in
        Ok (norm, distributed, total, u32 (Z.shiftl 1 tableLog - distributed))
      else Ok (norm, distributed, total, ToDistribute) in
    if distributed =? maxSV1 then
      let* (maxV, maxC) := for_range 0 maxSV1 (m2_max count) (0, 0) in
      let* n := aget norm maxV in
      aset norm maxV (s16 (n + s16 ToDistribute))
    else if total =? 0 then
      loop (S (Z.to_nat (maxSV1 * (ToDistribute + 1)))) (m2_round maxSymbolValue) (norm, 0, ToDistribute)
    else
      let vStepLog := 62 - tableLog in
      let mid := Z.shiftl 1 (vStepLog - 1) - 1 in
      let rStep := ZSTD_div64 (u64 (u64 (Z.shiftl 1 vStepLog * ToDistribute) + mid)) (u32 total) in
      let* (norm, tmpTotal) := for_range 0 maxSV1 (m2_scale count vStepLog rStep) (norm, mid) in
      Ok norm.

(** ** The primary method *)

Record nc_state := {
  nc_s : Z; nc_norm : list Z; nc_still : Z; nc_largest : Z; nc_largestP : Z
}.

(** [proba], with its rounding for small values. *)
Definition nc_proba (c step scale vStep : Z) : res Z :=
  let proba := s16 (Z.shiftr (u64 (c * step)) scale) in
  if proba <? 8 then
    let* rtb := aget rtbTable proba in
    let restToBeat := u64 (vStep * rtb) in
    Ok (s16 (proba + (if restToBeat <? u64 (u64 (c * step) - u64 (Z.shiftl proba scale)) then 1 else 0)))
  else Ok proba.

(** One symbol; [inr (inl _)] is the early return on a single symbol. *)
Definition nc_body count (total maxSymbolValue lowThreshold lowProbCount step scale vStep : Z) (st : nc_state)
  : res (nc_state + (list Z + nc_state)) :=
  let s := nc_s st in
  if s <=? maxSymbolValue then
    let* c := aget count s in
    if c =? total then Ok (inr (inl (nc_norm st)))
    else if c =? 0 then
      let* norm := aset (nc_norm st) s 0 in
      Ok (inl {| nc_s := s + 1; nc_norm := norm; nc_still := nc_still st;
                 nc_largest := nc_largest st; nc_largestP := nc_largestP st |})
    else if c <=? lowThreshold then
      let* norm := aset (nc_norm st) s lowProbCount in
      Ok (inl {| nc_s := s + 1; nc_norm := norm; nc_still := nc_still st - 1;
                 nc_largest := nc_largest st; nc_largestP := nc_largestP st |})
    else
      let* proba := nc_proba c step scale vStep in
      let '(largest, largestP) :=
        if nc_largestP st <? proba then (s, proba) else (nc_largest st, nc_largestP st) in
      let* norm := aset (nc_norm st) s proba in
      Ok (inl {| nc_s := s + 1; nc_norm := norm; nc_still := nc_still st - proba;
                 nc_largest := largest; nc_largestP := largestP |})
  else Ok (inr (inr st)).

(** The table log (0 for a single symbol) and the counters. *)
Definition FSE_normalizeCount (normalizedCounter : list Z) (tableLog : Z) count
    (total maxSymbolValue : Z) (useLowProbCount : bool) : res (Z * list Z) :=
  let tableLog := if tableLog =? 0 then FSE_DEFAULT_TABLELOG else tableLog in
  reject_if (tableLog <? FSE_MIN_TABLELOG) ZSTD_error_GENERIC ;;;
  reject_if (FSE_MAX_TABLELOG <? tableLog) ZSTD_error_tableLog_tooLarge ;;;
  let* minLog := FSE_minTableLog total maxSymbolValue in
  reject_if (tableLog <? minLog) ZSTD_error_GENERIC ;;;
  let lowProbCount := if useLowProbCount then -1 else 1 in
  let scale := 62 - tableLog in
  let step := ZSTD_div64 (Z.shiftl 1 62) (u32 total) in
  let vStep := Z.shiftl 1 (scale - 20) in
  let lowThreshold := u32 (Z.shiftr total tableLog) in
  let* r := loop (S (S (Z.to_nat maxSymbolValue)))
    (nc_body count total maxSymbolValue lowThreshold lowProbCount step scale vStep)
    {| nc_s := 0; nc_norm := normalizedCounter; nc_still := Z.shiftl 1 tableLog; nc_largest := 0; nc_largestP := 0 |} in
  match r with
  | inl norm => Ok (0, norm)
  | inr st =>
      let* n := aget (nc_norm st) (nc_largest st) in
      if Z.shiftr n 1 <=? - nc_still st then
        let* norm := FSE_normalizeM2 (nc_norm st) tableLog count total maxSymbolValue lowProbCount in
        Ok (tableLog, norm)
      else
        let* norm := aset (nc_norm st) (nc_largest st) (s16 (n + s16 (nc_still st))) in
        Ok (tableLog, norm)
  end.
End Definitions.

(** ** Counts and points *)

Fixpoint sumz (l : list Z) : Z := match l with [] => 0 | c :: l => c + sumz l end.

Lemma sumz_app l1 l2 : sumz (l1 ++ l2) = sumz l1 + sumz l2.
Proof. induction l1 as [|c l1 IH]; simpl; [done|]. rewrite IH. lia. Qed.

Lemma sumz_le l b : Forall (fun c => c <= b) l -> sumz l <= zlen l * b.
Proof. induction 1 as [|c l Hc Hl IH]; simpl; [done|]. rewrite zlen_cons. lia. Qed.

Lemma sumz_nonneg l : Forall (fun c => 0 <= c) l -> 0 <= sumz l.
Proof. induction 1; simpl; lia. Qed.

Lemma sumz_elem l c : Forall (fun c => 0 <= c) l -> c ∈ l -> c <= sumz l.
Proof.
  intros Hl Hc. apply list_elem_of_split in Hc as (l1 & l2 & ->). rewrite Forall_app, Forall_cons in Hl.
  destruct Hl as (H1 & _ & H2). rewrite sumz_app. simpl. pose proof (sumz_nonneg l1 H1). pose proof (sumz_nonneg l2 H2). lia.
Qed.

(** Points given out so far, and what the symbols still waiting count for. *)
Definition pts (n : Z) : Z := if n =? NOT_YET_ASSIGNED then 0 else occ n.

Fixpoint points (norm : list Z) : Z := match norm with [] => 0 | n :: norm => pts n + points norm end.

Fixpoint waiting (cs norm : list Z) : Z :=
  match cs, norm with
  | c :: cs, n :: norm => (if n =? NOT_YET_ASSIGNED then c else 0) + waiting cs norm
  | _, _ => 0
  end.

Lemma points_app l1 l2 : points (l1 ++ l2) = points l1 + points l2.
Proof. induction l1 as [|c l1 IH]; simpl; [done|]. rewrite IH. lia. Qed.

Lemma waiting_app cs1 cs2 l1 l2 :
  length cs1 = length l1 -> waiting (cs1 ++ cs2) (l1 ++ l2) = waiting cs1 l1 + waiting cs2 l2.
Proof.
  revert l1. induction cs1 as [|c cs1 IH]; intros [|n l1] Hl; simpl; try done.
  rewrite IH by (simpl in Hl; lia). lia.
Qed.

Lemma take_insert_snoc {A} (l : list A) s x :
  0 <= s < zlen l -> take (Z.to_nat (s + 1)) (<[Z.to_nat s := x]> l) = take (Z.to_nat s) l ++ [x].
Proof.
  unfold zlen. intros Hs. replace (Z.to_nat (s + 1)) with (S (Z.to_nat s)) by lia.
  rewrite (take_S_r _ _ x) by (apply list_lookup_insert_eq; lia). by rewrite take_insert_ge by lia.
Qed.

Lemma take_snoc {A} (l : list A) s x :
  0 <= s -> l !! Z.to_nat s = Some x -> take (Z.to_nat (s + 1)) l = take (Z.to_nat s) l ++ [x].
Proof. intros Hs Hx. replace (Z.to_nat (s + 1)) with (S (Z.to_nat s)) by lia. by apply take_S_r. Qed.

Lemma points_insert l i n m : l !! i = Some n -> points (<[i := m]> l) = points l - pts n + pts m.
Proof.
  intros Hi. pose proof (lookup_lt_Some _ _ _ Hi). rewrite insert_take_drop by done.
  rewrite <- (take_drop_middle l i n Hi) at 3. rewrite !points_app. cbn [points]. lia.
Qed.

Lemma waiting_insert cs i c : forall l n m,
  cs !! i = Some c -> l !! i = Some n ->
  waiting cs (<[i := m]> l) = waiting cs l - (if n =? NOT_YET_ASSIGNED then c else 0) + (if m =? NOT_YET_ASSIGNED then c else 0).
Proof.
  revert i. induction cs as [|c' cs IH]; intros [|i] [|n' l] n m Hc Hl; simplify_eq/=; [lia|].
  rewrite (IH i l n m) by done. lia.
Qed.

Section Normalize.
Context `{P : Platform} (count cs : list Z) (tot k maxSV : Z).
Hypothesis Hcs : cs `prefix_of` count.
Hypothesis Hn : zlen cs = maxSV + 1.
Hypothesis HmaxSV : 1 <= maxSV <= 255.
Hypothesis Hk : 5 <= k <= 12.
Hypothesis Hpos : Forall (fun c => 0 <= c) cs.
Hypothesis Hsum : sumz cs = tot.
Hypothesis Htot : 2 <= tot <= 2 ^ 30.
Hypothesis Hmin : tot < 2 ^ k \/ maxSV + 1 < 2 ^ k.

Definition thr : Z := tot / 2 ^ k.

(** What a symbol of count [c] gets: nothing if absent, points otherwise. *)
Definition placed (c n : Z) : Prop := (c = 0 /\ n = 0) \/ (0 < c /\ (n = -1 \/ 1 <= n <= 2 ^ k)).

Lemma pow_k : 32 <= 2 ^ k <= 4096.
Proof. pose proof (pow_mono 5 k ltac:(lia)). pose proof (pow_mono k 12 ltac:(lia)). lia. Qed.

Lemma count_at s : 0 <= s <= maxSV -> exists c, cs !! Z.to_nat s = Some c /\ aget count s = (Ok c : res Z) /\ 0 <= c <= tot.
Proof.
  intros Hs. destruct (lookup_lt_is_Some_2 cs (Z.to_nat s)) as [c Hc]; [unfold zlen in *; lia|].
  exists c. split; [done|]. split.
  - apply aget_Ok. split; [lia|]. destruct Hcs as [post ->]. by apply lookup_app_l_Some.
  - split; [by apply (Forall_lookup_1 _ _ _ _ Hpos Hc)|]. rewrite <- Hsum.
    apply sumz_elem; [done|]. by apply list_elem_of_lookup_2 in Hc.
Qed.

Lemma thr_val : u32 (Z.shiftr tot k) = thr /\ 0 <= thr /\ thr * 2 ^ k <= tot.
Proof.
  pose proof pow_k. rewrite Z.shiftr_div_pow2 by lia. unfold thr.
  pose proof (Z.div_mod tot (2 ^ k) ltac:(lia)). pose proof (Z.mod_pos_bound tot (2 ^ k) ltac:(lia)).
  pose proof (Z.div_pos tot (2 ^ k) ltac:(lia) ltac:(lia)).
  split; [apply wrap_small; split; [done|apply Z.div_lt_upper_bound; lia]|]. split; [done|lia].
Qed.

(** Some symbol is above the low-probability threshold. *)
Lemma some_high : exists i c, cs !! i = Some c /\ thr < c.
Proof.
  destruct (decide (Forall (fun c => c <= thr) cs)) as [Hall|Hno].
  - exfalso. pose proof (sumz_le cs thr Hall) as Hle. rewrite Hsum, Hn in Hle.
    destruct thr_val as (_ & H0 & Hmul). pose proof pow_k. destruct Hmin as [Hlt|Hlt]; [|nia].
    assert (thr = 0) as E by (unfold thr; apply Z.div_small; lia). rewrite E in Hle. lia.
  - apply not_Forall_Exists in Hno; [|apply _]. apply Exists_exists in Hno as (c & Hc & Hgt).
    apply list_elem_of_lookup in Hc as [i Hi]. simpl in Hgt. exists i, c. split; [done|lia].
Qed.

(** ** Scaling one count *)

Definition scale : Z := 62 - k.
Definition step : Z := 2 ^ 62 / tot.

Lemma proba_range c :
  0 < c < tot -> exists p, nc_proba c step scale (Z.shiftl 1 (scale - 20)) = Ok p /\ 1 <= p <= 2 ^ k.
Proof.
  intros Hc. pose proof pow_k. unfold nc_proba.
  assert (1 <= step) as Hst by (apply Z.div_le_lower_bound; lia).
  assert (tot * step <= 2 ^ 62) as Hts by (apply Z.mul_div_le; lia).
  assert (0 < c * step < 2 ^ 62) as Hcs' by nia. rewrite (wrap_small 64 (c * step)) by lia.
  assert (2 ^ 62 = 2 ^ k * 2 ^ scale) as Hpw by (unfold scale; rewrite <- Z.pow_add_r by lia; f_equal; lia).
  assert (2 ^ 50 <= 2 ^ scale) as Hsc by (apply pow_mono; unfold scale; lia).
  rewrite Z.shiftr_div_pow2 by (unfold scale; lia). set (q := c * step / 2 ^ scale).
  assert (0 <= q < 2 ^ k) as Hq.
  { unfold q. split; [apply Z.div_pos; lia|apply Z.div_lt_upper_bound; lia]. }
  assert (- 2 ^ (16 - 1) <= q < 2 ^ (16 - 1)) as Hq16 by (change (2 ^ (16 - 1)) with 32768; lia).
  rewrite (sgn_small 16 q) by (lia || done). destruct (Z.ltb_spec q 8); [|exists q; split; [done|lia]].
  pose proof (Z.div_mod (c * step) (2 ^ scale) ltac:(lia)) as Hdm. fold q in Hdm.
  pose proof (Z.mod_pos_bound (c * step) (2 ^ scale) ltac:(lia)) as Hmb.
  rewrite !Z.shiftl_mul_pow2 by (unfold scale; lia).
  assert (0 <= q * 2 ^ scale <= c * step) by lia. rewrite (wrap_small 64 (q * 2 ^ scale)) by lia.
  rewrite (wrap_small 64 (c * step - q * 2 ^ scale)) by lia.
  destruct (lookup_lt_is_Some_2 rtbTable (Z.to_nat q)) as [rtb Hr]; [simpl; lia|].
  rewrite (proj2 (aget_Ok rtbTable q rtb)) by (split; [lia|done]). cbn [obind]. eexists. split; [reflexivity|].
  destruct (Z.ltb_spec (u64 (1 * 2 ^ (scale - 20) * rtb)) (c * step - q * 2 ^ scale)) as [Hb|Hb].
  - rewrite sgn_small by (lia || (change (2 ^ (16 - 1)) with 32768; lia)). lia.
  - rewrite Z.add_0_r, sgn_small by (lia || done). destruct (Z.eq_dec q 0) as [E|]; [|lia]. exfalso.
    rewrite E in *. simpl in Hr. injection Hr as <-. rewrite Z.mul_0_r in Hb. change (wrap 64 0) with 0 in Hb. lia.
Qed.

Section Passes.
Context (norm0 : list Z) (lowP : Z).
Hypothesis Hroom : maxSV + 1 <= zlen norm0.
Hypothesis HlowP : lowP = -1 \/ lowP = 1.

(** ** The primary pass *)

Definition nc_inv (st : nc_state) : Prop :=
  let s := nc_s st in
  0 <= s <= maxSV + 1 /\ zlen (nc_norm st) = zlen norm0 /\
  Forall2 placed (take (Z.to_nat s) cs) (take (Z.to_nat s) (nc_norm st)) /\
  nc_still st = 2 ^ k - total (take (Z.to_nat s) (nc_norm st)) /\
  0 <= nc_largestP st <= 2 ^ k /\
  (nc_largestP st = 0 -> Forall (fun c => c <= thr) (take (Z.to_nat s) cs)) /\
  (0 < nc_largestP st -> 0 <= nc_largest st < s /\ nc_norm st !! Z.to_nat (nc_largest st) = Some (nc_largestP st)).

(** Symbol [s] gets [n]. *)
Lemma nc_inv_step st c n largest largestP :
  nc_inv st -> nc_s st <= maxSV -> cs !! Z.to_nat (nc_s st) = Some c -> placed c n ->
  (thr < c -> 1 <= n) ->
  (largest, largestP) = (if (thr <? c) && (nc_largestP st <? n) then (nc_s st, n) else (nc_largest st, nc_largestP st)) ->
  nc_inv {| nc_s := nc_s st + 1; nc_norm := <[Z.to_nat (nc_s st) := n]> (nc_norm st);
            nc_still := nc_still st - occ n; nc_largest := largest; nc_largestP := largestP |}.
Proof.
  intros (Hs & Hz & Hp & Hst & Hl & Hl0 & Hl1) Hle Hc Hpl Hhi Hlg. unfold nc_inv; cbn [nc_s nc_norm nc_still nc_largest nc_largestP].
  pose proof pow_k. rewrite zlen_insert, take_insert_snoc, (take_snoc cs _ c) by (lia || done).
  rewrite total_app. cbn [total]. split; [lia|]. split; [done|].
  split; [apply Forall2_app; [done|by constructor]|]. split; [lia|].
  destruct (Z.ltb_spec thr c) as [Ht|Ht]; cbn [andb] in Hlg; [destruct (Z.ltb_spec (nc_largestP st) n)|]; injection Hlg as -> ->.
  - split; [destruct Hpl as [[? ->]|[_ [->|?]]]; lia|]. split; [lia|]. intros _. split; [lia|].
    apply list_lookup_insert_eq. unfold zlen in *. lia.
  - specialize (Hhi Ht). split; [done|]. split; [lia|]. intros Hp1. destruct (Hl1 Hp1) as [Hr Hlk]. split; [lia|].
    by rewrite list_lookup_insert_ne by lia.
  - split; [done|]. split; [intros E; apply Forall_app; split; [by apply Hl0|by constructor; [lia|]]|].
    intros Hp1. destruct (Hl1 Hp1) as [Hr Hlk]. split; [lia|]. by rewrite list_lookup_insert_ne by lia.
Qed.

Lemma nc_body_inv st :
  nc_inv st ->
  wp (nc_body count tot maxSV thr lowP step scale (Z.shiftl 1 (scale - 20)) st)
    (fun r => match r with
      | inl st' => nc_inv st' /\ nc_s st' = nc_s st + 1 /\ nc_s st <= maxSV
      | inr (inl norm) => tot ∈ cs
      | inr (inr st') => nc_inv st' /\ nc_s st' = maxSV + 1 end) (fun _ => False).
Proof.
  intros Hi. pose proof Hi as (Hs & Hz & _). unfold nc_body. destruct (Z.leb_spec (nc_s st) maxSV) as [Hle|Hgt].
  2:{ simpl. split; [done|lia]. }
  destruct (count_at (nc_s st)) as (c & Hc & -> & Hcr); [lia|]. cbn [obind].
  destruct (Z.eqb_spec c tot) as [E|Hnt]; [subst c; simpl; by apply list_elem_of_lookup_2 in Hc|].
  destruct thr_val as (_ & Hthr0 & _).
  destruct (Z.eqb_spec c 0) as [->|Hnz]; [|destruct (Z.leb_spec c thr) as [Hlow|Hhigh]].
  - rewrite aset_Ok by lia. simpl. split; [|lia].
    pose proof (nc_inv_step st 0 0 (nc_largest st) (nc_largestP st) Hi Hle Hc) as Hstep.
    change (occ 0) with 0 in Hstep. rewrite Z.sub_0_r in Hstep. apply Hstep; [by left|lia|].
    by rewrite (proj2 (Z.ltb_ge thr 0)) by lia.
  - rewrite aset_Ok by lia. simpl. split; [|lia]. replace (nc_still st - 1) with (nc_still st - occ lowP)
      by (destruct HlowP as [-> | ->]; done).
    pose proof pow_k. apply (nc_inv_step st c); try done; [right; split; [lia|]; destruct HlowP as [-> | ->]; [by left|right; lia]|lia|].
    by rewrite (proj2 (Z.ltb_ge thr c)) by lia.
  - destruct (proba_range c ltac:(lia)) as (p & -> & Hp). cbn [obind].
    destruct (if nc_largestP st <? p then (nc_s st, p) else (nc_largest st, nc_largestP st)) as [lg lp] eqn:Elg.
    rewrite aset_Ok by lia. simpl. split; [|lia]. replace (nc_still st - p) with (nc_still st - occ p)
      by (unfold occ; zcases; lia).
    apply (nc_inv_step st c); try done; [right; lia|lia|].
    rewrite (proj2 (Z.ltb_lt thr c)) by lia. cbn [andb]. done.
Qed.

Lemma nc_loop_inv :
  wp (loop (S (S (Z.to_nat maxSV))) (nc_body count tot maxSV thr lowP step scale (Z.shiftl 1 (scale - 20)))
       {| nc_s := 0; nc_norm := norm0; nc_still := 2 ^ k; nc_largest := 0; nc_largestP := 0 |})
    (fun r => match r with inl _ => tot ∈ cs | inr st => nc_inv st /\ nc_s st = maxSV + 1 end) (fun _ => False).
Proof.
  apply (wp_loop nc_inv (fun st => maxSV + 1 - nc_s st)).
  - unfold nc_inv; simpl. pose proof pow_k. repeat split; try done; try lia.
  - simpl. lia.
  - intros st (Hs & _). lia.
  - intros st Hi. eapply wp_mono; [by apply nc_body_inv| |done].
    intros [st'|[norm|st']]; [|done|done]. intros (Hi' & E & Hle). split; [done|lia].
Qed.

(** The counters of a finished distribution. *)
Definition distribution (norm : list Z) : Prop :=
  zlen norm = zlen norm0 /\ Forall2 placed cs (take (Z.to_nat (maxSV + 1)) norm) /\
  total (take (Z.to_nat (maxSV + 1)) norm) = 2 ^ k.

Lemma take_cs : take (Z.to_nat (maxSV + 1)) cs = cs.
Proof. apply take_ge. unfold zlen in Hn. lia. Qed.

Lemma total_insert (l : list Z) i n m :
  l !! i = Some n -> total (<[i := m]> l) = total l - occ n + occ m.
Proof.
  intros Hi. pose proof (lookup_lt_Some _ _ _ Hi). rewrite insert_take_drop by done.
  rewrite <- (take_drop_middle l i n Hi) at 3. rewrite !total_app. cbn [total]. lia.
Qed.

Lemma occ_pos n : 1 <= n -> occ n = n.
Proof. unfold occ. zcases; lia. Qed.

Lemma placed_ge cs' norm : Forall2 placed cs' norm -> Forall (fun n => -1 <= n) norm.
Proof. induction 1 as [|c n cs' norm Hp H IH]; constructor; [|done]. destruct Hp as [[? ->]|[? [->|?]]]; lia. Qed.

(** One symbol with points gets [m] points instead of [n]. *)
Lemma replace_placed norm i n m :
  Forall2 placed cs (take (Z.to_nat (maxSV + 1)) norm) ->
  0 <= i <= maxSV -> norm !! Z.to_nat i = Some n -> 1 <= n -> 1 <= m ->
  total (take (Z.to_nat (maxSV + 1)) norm) - n + m <= 2 ^ k ->
  let l := take (Z.to_nat (maxSV + 1)) (<[Z.to_nat i := m]> norm) in
  Forall2 placed cs l /\ total l = total (take (Z.to_nat (maxSV + 1)) norm) - n + m.
Proof.
  intros Hp Hi Hlk Hn1 Hm1 Hsum'. cbv zeta. rewrite take_insert_lt by lia.
  set (l := take (Z.to_nat (maxSV + 1)) norm) in *.
  assert (l !! Z.to_nat i = Some n) as Hl by (unfold l; by rewrite lookup_take_lt by lia).
  assert (total (<[Z.to_nat i := m]> l) = total l - n + m) as Ht by (rewrite (total_insert l _ n) by done; by rewrite !occ_pos by lia).
  split; [|done]. destruct (Forall2_lookup_r _ _ _ _ _ Hp Hl) as (c & Hc & Hpl).
  assert (0 < c) as Hc0 by (destruct Hpl as [[? ?]|[? ?]]; lia).
  rewrite <- (list_insert_id cs (Z.to_nat i) c Hc). apply Forall2_insert; [done|]. right. split; [done|]. right. split; [done|].
  assert (Forall (fun n => -1 <= n) (<[Z.to_nat i := m]> l)) as Hge
    by (apply Forall_insert; [by eapply placed_ge|lia]).
  assert (<[Z.to_nat i := m]> l !! Z.to_nat i = Some m) as Hm by (apply list_lookup_insert_eq; by eapply lookup_lt_Some).
  pose proof (occ_le_total _ _ _ Hge Hm) as Ho. rewrite occ_pos in Ho by done. lia.
Qed.

Lemma replace_points norm i n m :
  zlen norm = zlen norm0 -> Forall2 placed cs (take (Z.to_nat (maxSV + 1)) norm) ->
  0 <= i <= maxSV -> norm !! Z.to_nat i = Some n -> 1 <= n -> 1 <= m ->
  total (take (Z.to_nat (maxSV + 1)) norm) - n + m = 2 ^ k ->
  distribution (<[Z.to_nat i := m]> norm).
Proof.
  intros Hz Hp Hi Hlk Hn1 Hm1 Hsum'. unfold distribution. rewrite zlen_insert. split; [done|].
  destruct (replace_placed norm i n m) as [H1 H2]; try done; [lia|]. split; [done|lia].
Qed.

Lemma largest_high st :
  nc_inv st -> nc_s st = maxSV + 1 ->
  1 <= nc_largestP st <= 2 ^ k /\ 0 <= nc_largest st <= maxSV /\ nc_norm st !! Z.to_nat (nc_largest st) = Some (nc_largestP st).
Proof.
  intros (Hs & _ & _ & _ & Hl & Hl0 & Hl1) E. rewrite E, take_cs in Hl0.
  destruct (Z.eq_dec (nc_largestP st) 0) as [E0|Hne].
  - specialize (Hl0 E0). destruct some_high as (i & c & Hc & Hgt). pose proof (Forall_lookup_1 _ _ _ _ Hl0 Hc). simpl in *. lia.
  - destruct (Hl1 ltac:(lia)) as [Hr Hlk]. split; [lia|]. split; [lia|done].
Qed.

(** The most frequent symbol takes the rounding error. *)
Lemma nc_finish st :
  nc_inv st -> nc_s st = maxSV + 1 -> - nc_still st < Z.shiftr (nc_largestP st) 1 ->
  distribution (<[Z.to_nat (nc_largest st) := s16 (nc_largestP st + s16 (nc_still st))]> (nc_norm st)).
Proof.
  intros Hi E Hst. destruct (largest_high st Hi E) as (Hlp & Hlg & Hlk).
  destruct Hi as (_ & Hz & Hp & Hstill & _). rewrite E in Hp, Hstill. rewrite take_cs in Hp. pose proof pow_k.
  pose proof (total_nonneg _ (placed_ge _ _ Hp)). rewrite Z.shiftr_div_pow2 in Hst by lia. change (2 ^ 1) with 2 in Hst.
  pose proof (Z.div_mod (nc_largestP st) 2 ltac:(lia)). pose proof (Z.mod_pos_bound (nc_largestP st) 2 ltac:(lia)).
  rewrite (sgn_small 16 (nc_still st)) by (lia || (change (2 ^ (16 - 1)) with 32768; lia)).
  rewrite sgn_small by (lia || (change (2 ^ (16 - 1)) with 32768; lia)).
  apply (replace_points _ _ (nc_largestP st)); try done; lia.
Qed.

(** ** The secondary method *)

Definition m2_ok (c n : Z) : Prop :=
  (c = 0 /\ n = 0) \/ (0 < c /\ ((n = lowP /\ c <= thr) \/ n = 1 \/ n = NOT_YET_ASSIGNED)).

Lemma m2_pts c n : m2_ok c n -> 0 <= pts n <= 1 /\ pts n <= c /\ 0 <= c.
Proof.
  unfold m2_ok, pts, occ, NOT_YET_ASSIGNED. intros [[-> ->]|[Hc [[-> _]|[->| ->]]]]; [done|destruct HlowP as [-> | ->]; simpl; lia|simpl; lia|simpl; lia].
Qed.

Lemma m2_points cs' l : Forall2 m2_ok cs' l -> 0 <= points l <= zlen cs' /\ points l <= sumz cs'.
Proof.
  induction 1 as [|c n cs' l Hm H IH]; [done|]. cbn [points sumz]. rewrite zlen_cons. pose proof (m2_pts c n Hm). lia.
Qed.

Lemma m2_waiting cs' l : Forall2 m2_ok cs' l -> 0 <= waiting cs' l <= sumz cs'.
Proof.
  induction 1 as [|c n cs' l Hm H IH]; [done|]. cbn [waiting sumz]. pose proof (m2_pts c n Hm). zcases; lia.
Qed.

Lemma points_lt l : Forall2 m2_ok cs l -> 0 <= points l < 2 ^ k.
Proof. intros H. destruct (m2_points cs l H) as [H1 H2]. rewrite Hn in H1. rewrite Hsum in H2. destruct Hmin; lia. Qed.

(** Nobody waits: the points are the cells. *)
Lemma no_waiting cs' l :
  Forall2 m2_ok cs' l -> waiting cs' l = 0 -> Forall2 placed cs' l /\ total l = points l.
Proof.
  pose proof pow_k. induction 1 as [|c n cs' l Hm H' IH]; intros Hw; [done|]. cbn [waiting] in Hw.
  pose proof (m2_waiting cs' l H') as Hw'. pose proof (m2_pts c n Hm) as Hp.
  assert (n <> NOT_YET_ASSIGNED \/ c = 0) as Hne by (destruct (Z.eqb_spec n NOT_YET_ASSIGNED); lia).
  destruct IH as [IH1 IH2]; [destruct (n =? NOT_YET_ASSIGNED); lia|]. cbn [total points]. rewrite IH2.
  destruct Hm as [[-> ->]|[Hc Hm]]; [split; [constructor; [by left|done]|done]|].
  destruct Hne as [Hne|?]; [|lia]. split.
  - constructor; [|done]. right. split; [done|]. destruct Hm as [[-> _]|[->|?]]; [destruct HlowP as [-> | ->]; lia|lia|done].
  - unfold pts. by rewrite (proj2 (Z.eqb_neq n _)) by done.
Qed.

Definition m2_inv (s : Z) (st : list Z * Z * Z) : Prop :=
  let '(norm, distributed, rem) := st in
  let l := take (Z.to_nat s) norm in let c := take (Z.to_nat s) cs in
  zlen norm = zlen norm0 /\ Forall2 m2_ok c l /\ distributed = points l /\ rem = tot - sumz c + waiting c l.

Lemma m2_inv_step s norm distributed rem c n d' r' :
  0 <= s <= maxSV -> m2_inv s (norm, distributed, rem) -> cs !! Z.to_nat s = Some c -> m2_ok c n ->
  d' = distributed + pts n -> r' = rem - c + (if n =? NOT_YET_ASSIGNED then c else 0) ->
  m2_inv (s + 1) (<[Z.to_nat s := n]> norm, d', r').
Proof.
  intros Hs (Hz & Hf & -> & ->) Hc Hm -> ->. unfold m2_inv. rewrite zlen_insert, take_insert_snoc, (take_snoc cs _ c) by (lia || done).
  split; [done|]. split; [apply Forall2_app; [done|by constructor]|]. rewrite points_app, sumz_app. cbn [points sumz].
  split; [lia|]. rewrite waiting_app by (by apply Forall2_length in Hf). cbn [waiting]. lia.
Qed.

Lemma m2_total_range s norm distributed rem c :
  0 <= s <= maxSV -> m2_inv s (norm, distributed, rem) -> cs !! Z.to_nat s = Some c ->
  0 <= distributed <= 256 /\ c <= rem <= tot.
Proof.
  intros Hs (Hz & Hf & -> & ->) Hc. pose proof (m2_points _ _ Hf) as [Hp _]. pose proof (m2_waiting _ _ Hf).
  assert (zlen (take (Z.to_nat s) cs) <= 256) by (unfold zlen in *; rewrite length_take; lia).
  assert (sumz (take (Z.to_nat s) cs) + c <= tot); [|lia].
  rewrite <- Hsum. rewrite <- (take_drop_middle cs (Z.to_nat s) c Hc) at 2. rewrite sumz_app. cbn [sumz].
  pose proof (sumz_nonneg (drop (S (Z.to_nat s)) cs) ltac:(by apply Forall_drop)). lia.
Qed.

Lemma m2_first_inv lowOne s st :
  0 <= s <= maxSV -> m2_inv s st -> wp (m2_first count thr lowOne lowP s st) (m2_inv (s + 1)) (fun _ => False).
Proof.
  intros Hs Hi. destruct st as [[norm distributed] rem]. pose proof Hi as (Hz & _). unfold m2_first.
  destruct (count_at s Hs) as (c & Hc & -> & Hcr). cbn [obind]. destruct (m2_total_range s norm distributed rem c Hs Hi Hc) as [Hd Hr].
  rewrite !aset_Ok by lia. cbn [obind]. rewrite (wrap_small 32 (distributed + 1)), (size_t_small (rem - c)) by lia.
  destruct (Z.eqb_spec c 0) as [->|Hnz]; [|destruct (Z.leb_spec c thr); [|destruct (Z.leb_spec c lowOne)]]; simpl;
    eapply m2_inv_step; try done.
  - by left.
  - change (pts 0) with 0. lia.
  - change (0 =? NOT_YET_ASSIGNED) with false. cbn iota. lia.
  - right. split; [lia|]. by left.
  - unfold pts. destruct HlowP as [-> | ->]; done.
  - destruct HlowP as [-> | ->]; change (_ =? NOT_YET_ASSIGNED) with false; cbn iota; lia.
  - right. split; [lia|]. right. by left.
  - change (1 =? NOT_YET_ASSIGNED) with false; cbn iota; lia.
  - right. split; [lia|]. right. by right.
  - change (pts NOT_YET_ASSIGNED) with 0. lia.
  - change (NOT_YET_ASSIGNED =? NOT_YET_ASSIGNED) with true. cbn iota. lia.
Qed.

(** After a whole pass. *)
Definition m2_full (st : list Z * Z * Z) : Prop :=
  let '(norm, distributed, rem) := st in
  let l := take (Z.to_nat (maxSV + 1)) norm in
  zlen norm = zlen norm0 /\ Forall2 m2_ok cs l /\ distributed = points l /\ rem = waiting cs l.

Lemma m2_inv_full st : m2_inv (maxSV + 1) st -> m2_full st.
Proof.
  destruct st as [[norm d] rem]. unfold m2_inv, m2_full. rewrite take_cs. intros (? & ? & ? & ->). repeat split; try done. lia.
Qed.

Lemma m2_full_range norm d rem : m2_full (norm, d, rem) -> 0 <= d < 2 ^ k /\ 0 <= rem <= tot.
Proof. intros (_ & Hf & -> & ->). pose proof (points_lt _ Hf). pose proof (m2_waiting _ _ Hf). rewrite Hsum in *. lia. Qed.

Lemma m2_second_full lowOne s st :
  0 <= s <= maxSV -> m2_full st -> wp (m2_second count lowOne s st) m2_full (fun _ => False).
Proof.
  intros Hs Hi. destruct st as [[norm d] rem]. pose proof (m2_full_range norm d rem Hi) as [Hd Hr].
  destruct Hi as (Hz & Hf & -> & ->). pose proof pow_k. unfold m2_second.
  apply wp_bind, wp_aget; [lia|]. intros n Hlk. destruct (count_at s Hs) as (c & Hc & -> & Hcr). cbn [obind].
  destruct (Z.eqb_spec n NOT_YET_ASSIGNED) as [->|]; cbn [andb]; [|by repeat split].
  destruct (Z.leb_spec c lowOne); [|by repeat split]. rewrite aset_Ok by lia. cbn [obind].
  set (l := take (Z.to_nat (maxSV + 1)) norm) in *.
  assert (l !! Z.to_nat s = Some NOT_YET_ASSIGNED) as Hl by (unfold l; by rewrite lookup_take_lt by lia).
  pose proof (Forall2_lookup_lr _ _ _ _ _ _ Hf Hc Hl) as Hm.
  assert (0 < c) as Hc0 by (destruct Hm as [[_ ?]|[? _]]; [discriminate|done]).
  assert (m2_ok c 1) as Hm1 by (right; split; [done|]; right; by left).
  assert (Forall2 m2_ok cs (<[Z.to_nat s := 1]> l)) as Hf'
    by (rewrite <- (list_insert_id cs (Z.to_nat s) c Hc); by apply Forall2_insert).
  pose proof (points_insert l _ _ 1 Hl) as Hp. change (pts NOT_YET_ASSIGNED) with 0 in Hp. change (pts 1) with 1 in Hp.
  pose proof (waiting_insert cs _ c l _ 1 Hc Hl) as Hw. change (NOT_YET_ASSIGNED =? NOT_YET_ASSIGNED) with true in Hw.
  change (1 =? NOT_YET_ASSIGNED) with false in Hw. cbn iota in Hw.
  pose proof (m2_waiting _ _ Hf'). rewrite (wrap_small 32 (points l + 1)), (size_t_small (waiting cs l - c)) by lia.
  simpl. rewrite zlen_insert, take_insert_lt by lia. fold l. split; [done|]. split; [done|]. lia.
Qed.

(** All symbols have points: the most frequent one takes the rest. *)
Lemma m2_max_val :
  exists v c, for_range 0 (maxSV + 1) (m2_max count) (0, 0) = (Ok (v, c) : res (Z * Z)) /\
    0 <= v <= maxSV /\ cs !! Z.to_nat v = Some c /\ thr < c.
Proof.
  assert (wp (for_range 0 (maxSV + 1) (m2_max count) (0, 0))
    (fun st => 0 <= st.1 <= maxSV /\ 0 <= st.2 /\ (0 < st.2 -> cs !! Z.to_nat st.1 = Some st.2) /\
       Forall (fun c => c <= st.2) (take (Z.to_nat (maxSV + 1)) cs)) (fun _ : ZSTD_ErrorCode => False)) as H.
  { apply (wp_for_range (fun s st => 0 <= st.1 <= maxSV /\ 0 <= st.2 /\ (0 < st.2 -> cs !! Z.to_nat st.1 = Some st.2) /\
       Forall (fun c => c <= st.2) (take (Z.to_nat s) cs))); [lia|simpl; repeat split; try lia; constructor|].
    intros s [v c] Hs (Hv & Hc0 & Hc & Hall). simpl in *. unfold m2_max.
    destruct (count_at s ltac:(lia)) as (c' & Hc' & -> & Hcr). cbn [obind]. rewrite (take_snoc cs s c') by (lia || done).
    destruct (Z.ltb_spec c c'); simpl.
    - repeat split; try lia; [done|]. apply Forall_app. split; [|by constructor; [lia|]].
      eapply Forall_impl; [exact Hall|]. simpl. lia.
    - repeat split; try lia; [done|]. apply Forall_app. split; [done|by constructor; [lia|]]. }
  apply wp_exists in H as ([v c] & E & Hv & Hc0 & Hc & Hall). rewrite take_cs in Hall. simpl in *.
  destruct some_high as (i & c' & Hc' & Hgt). pose proof (Forall_lookup_1 _ _ _ _ Hall Hc') as Hle. simpl in Hle.
  destruct thr_val as (_ & H0 & _). exists v, c. split; [done|]. split; [done|]. split; [apply Hc; lia|lia].
Qed.

Lemma all_placed cs' l : Forall2 m2_ok cs' l -> points l = zlen cs' -> waiting cs' l = 0.
Proof.
  induction 1 as [|c n cs' l Hm H IH]; [done|]. cbn [points waiting]. rewrite zlen_cons. intros Hp.
  pose proof (m2_pts c n Hm). pose proof (m2_points _ _ H) as [Hpl _]. rewrite IH by lia.
  destruct (Z.eqb_spec n NOT_YET_ASSIGNED) as [->|]; [|done]. change (pts NOT_YET_ASSIGNED) with 0 in *. lia.
Qed.
(** A count above the threshold has its one point when nobody waits. *)
Lemma high_point l i c :
  Forall2 m2_ok cs l -> waiting cs l = 0 -> cs !! i = Some c -> thr < c -> l !! i = Some 1.
Proof.
  intros Hf Hw Hc Hgt. destruct (Forall2_lookup_l _ _ _ _ _ Hf Hc) as (n & Hl & Hm).
  destruct thr_val as (_ & H0 & _). rewrite Hl. f_equal. destruct Hm as [[? ?]|[_ [[_ ?]|[->|E]]]]; try lia.
  pose proof (waiting_insert cs i c l n 1 Hc Hl) as Hwi. rewrite E, Hw in Hwi. simpl in Hwi.
  assert (m2_ok c 1) as Hm1 by (right; split; [lia|]; right; by left).
  pose proof (m2_waiting cs (<[i := 1]> l) ltac:(rewrite <- (list_insert_id cs i c Hc); by apply Forall2_insert)) as Hge.
  rewrite E in *. lia.
Qed.

Section Rest.
Context (norm : list Z) (T : Z).
Let l := take (Z.to_nat (maxSV + 1)) norm.
Hypothesis Hz : zlen norm = zlen norm0.
Hypothesis Hf : Forall2 m2_ok cs l.
Hypothesis HT : T = 2 ^ k - points l.

Lemma T_range : 1 <= T <= 2 ^ k.
Proof. pose proof (points_lt l Hf). lia. Qed.

(** The most frequent symbol takes all. *)
Lemma m2_give_max v c :
  waiting cs l = 0 -> 0 <= v <= maxSV -> cs !! Z.to_nat v = Some c -> thr < c ->
  wp (let* n := aget norm v in aset norm v (s16 (n + s16 T))) distribution (fun _ : ZSTD_ErrorCode => False).
Proof.
  intros Hw Hv Hc Hgt. pose proof pow_k. pose proof T_range. destruct (no_waiting cs l Hf Hw) as [Hp Ht].
  pose proof (high_point l _ c Hf Hw Hc Hgt) as Hl. unfold l in Hl. rewrite lookup_take_lt in Hl by lia.
  rewrite (proj2 (aget_Ok norm v 1)) by (split; [lia|done]). cbn [obind]. apply wp_aset; [lia|].
  rewrite (sgn_small 16 T), sgn_small by (lia || (change (2 ^ (16 - 1)) with 32768; lia)).
  apply (replace_points _ _ 1); try done; fold l; lia.
Qed.

(** ** Round robin *)

(** Steps before the round robin comes to [p]. *)
Definition steps_to (p s : Z) : Z := if s <=? p then p - s else p - s + (maxSV + 1).

Definition round_inv (p : Z) (st : list Z * Z * Z) : Prop :=
  let '(norm, s, T) := st in
  zlen norm = zlen norm0 /\ Forall2 placed cs (take (Z.to_nat (maxSV + 1)) norm) /\
  total (take (Z.to_nat (maxSV + 1)) norm) + T = 2 ^ k /\ 0 <= s <= maxSV /\ 0 <= T /\
  exists n, norm !! Z.to_nat p = Some n /\ 1 <= n.

Lemma next_steps p s :
  0 <= p <= maxSV -> 0 <= s <= maxSV -> let s' := (s + 1) mod (maxSV + 1) in
  0 <= s' <= maxSV /\ 0 <= steps_to p s' <= maxSV /\ (s <> p -> steps_to p s' < steps_to p s) /\ 0 <= steps_to p s.
Proof.
  intros Hp Hs s'. unfold steps_to. destruct (Z.eq_dec s maxSV) as [E|E].
  - assert (s' = 0) as -> by (unfold s'; rewrite E; apply Z.mod_same; lia). zcases; lia.
  - assert (s' = s + 1) as -> by (apply Z.mod_small; lia). zcases; lia.
Qed.

Lemma m2_round_step p st :
  0 <= p <= maxSV -> round_inv p st ->
  wp (m2_round maxSV st) (fun r => match r with
    | inl st' => round_inv p st' /\ st'.2 * (maxSV + 1) + steps_to p st'.1.2 < st.2 * (maxSV + 1) + steps_to p st.1.2
    | inr norm => distribution norm end) (fun _ => False).
Proof.
  intros Hp Hi. destruct st as [[nm s] t]. destruct Hi as (Hz' & Hpl & Htot' & Hs & Ht & n & Hlk & Hn1). unfold m2_round.
  destruct (Z.ltb_spec 0 t); [|simpl; unfold distribution; repeat split; try done; lia].
  apply wp_bind, wp_aget; [lia|]. intros m Hm. destruct (next_steps p s Hp Hs) as (Hs' & Hd & Hne & Hd0). pose proof pow_k.
  destruct (Z.ltb_spec 0 m).
  - pose proof (total_nonneg _ (placed_ge _ _ Hpl)).
    assert (m <= 2 ^ k) as Hmk.
    { pose proof (occ_le_total _ (Z.to_nat s) m (placed_ge _ _ Hpl)) as Ho. rewrite occ_pos in Ho by lia.
      enough (m <= total (take (Z.to_nat (maxSV + 1)) nm)) by lia. apply Ho. by rewrite lookup_take_lt by lia. }
    rewrite aset_Ok by lia. cbn [obind]. rewrite sgn_small by (lia || (change (2 ^ (16 - 1)) with 32768; lia)).
    destruct (replace_placed nm s m (m + 1)) as [Hp1 Hp2]; try done; try lia. simpl. split; [|nia].
    rewrite zlen_insert. split; [done|]. split; [done|]. split; [lia|]. split; [done|]. split; [lia|].
    destruct (Z.eq_dec p s) as [->|]; [|exists n; by rewrite list_lookup_insert_ne by lia].
    exists (m + 1). split; [apply list_lookup_insert_eq; unfold zlen in *; lia|lia].
  - simpl. assert (s <> p) by (intros ->; simplify_eq; lia). split; [|lia]. repeat split; try done; try lia. by exists n.
Qed.

Lemma m2_give_round :
  waiting cs l = 0 ->
  wp (loop (S (Z.to_nat ((maxSV + 1) * (T + 1)))) (m2_round maxSV) (norm, 0, T)) distribution (fun _ => False).
Proof.
  intros Hw. pose proof T_range. destruct (no_waiting cs l Hf Hw) as [Hp Ht]. destruct some_high as (i & c & Hc & Hgt).
  pose proof (high_point l i c Hf Hw Hc Hgt) as Hl. pose proof (lookup_lt_Some _ _ _ Hc) as Hlt.
  assert (0 <= Z.of_nat i <= maxSV) as Hi by (unfold zlen in *; lia).
  unfold l in Hl. rewrite lookup_take_lt in Hl by lia.
  apply (wp_loop (round_inv (Z.of_nat i)) (fun st => st.2 * (maxSV + 1) + steps_to (Z.of_nat i) st.1.2)).
  - repeat split; try done; try lia; [fold l; lia|]. exists 1. rewrite Nat2Z.id. done.
  - simpl. destruct (next_steps (Z.of_nat i) maxSV Hi ltac:(lia)) as (_ & Hb & _).
    rewrite Z.mod_same in Hb by lia. nia.
  - intros [[nm s] t] (_ & _ & _ & Hs & Ht0 & _). simpl. destruct (next_steps (Z.of_nat i) s Hi Hs) as (_ & _ & _ & ?). nia.
  - intros st Hst. by apply m2_round_step.
Qed.
(** ** Scaling the symbols that wait *)

Section Scale.
Hypothesis HW : 0 < waiting cs l.

Definition vstep : Z := 62 - k.
Definition mid : Z := 2 ^ (vstep - 1) - 1.
Definition rstep : Z := (2 ^ vstep * T + mid) / waiting cs l.

(** The scaled counts before symbol [s]. *)
Definition scaled (s : Z) : Z := mid + rstep * waiting (take (Z.to_nat s) cs) (take (Z.to_nat s) l).

Lemma scale_consts : 2 ^ 50 <= 2 ^ vstep <= 2 ^ 57 /\ 2 ^ vstep = 2 * (mid + 1) /\ 2 ^ vstep * 2 ^ k = 2 ^ 62 /\ 0 <= rstep.
Proof.
  unfold rstep, mid, vstep. assert (2 ^ (62 - k) = 2 * 2 ^ (62 - k - 1)) as E
    by (rewrite <- Z.pow_succ_r by lia; f_equal; lia).
  pose proof (pow_mono 50 (62 - k) ltac:(lia)). pose proof (pow_mono (62 - k) 57 ltac:(lia)). pose proof T_range.
  split; [lia|]. split; [lia|]. split; [rewrite <- Z.pow_add_r by lia; f_equal; lia|].
  apply Z.div_pos; [|lia]. apply Z.add_nonneg_nonneg; [apply Z.mul_nonneg_nonneg|]; lia.
Qed.

Lemma waiting_take s : 0 <= waiting (take (Z.to_nat s) cs) (take (Z.to_nat s) l) <= waiting cs l.
Proof.
  pose proof (m2_waiting _ _ (Forall2_take _ _ _ (Z.to_nat s) Hf)). split; [lia|].
  rewrite <- (take_drop (Z.to_nat s) cs) at 2. rewrite <- (take_drop (Z.to_nat s) l) at 2.
  rewrite waiting_app by (apply (Forall2_length m2_ok), Forall2_take, Hf).
  pose proof (m2_waiting _ _ (Forall2_drop _ _ _ (Z.to_nat s) Hf)). lia.
Qed.

(** The scaled counts end in the cells to distribute, exactly. *)
Lemma scaled_range s : mid <= scaled s < 2 ^ vstep * (T + 1).
Proof.
  destruct scale_consts as (Hv & Hm & _ & Hr). pose proof (waiting_take s). unfold scaled.
  assert (rstep * waiting cs l <= 2 ^ vstep * T + mid) as Hle by (rewrite Z.mul_comm; apply Z.mul_div_le; lia). nia.
Qed.

Lemma scaled_end : Z.shiftr (scaled (maxSV + 1)) vstep = T.
Proof.
  destruct scale_consts as (Hv & Hm & _ & Hr). pose proof (scaled_range (maxSV + 1)) as Hu.
  rewrite Z.shiftr_div_pow2 by (unfold vstep; lia). symmetry. apply (Z.div_unique_pos _ _ _ (scaled (maxSV + 1) - 2 ^ vstep * T)); [|lia].
  split; [|lia]. unfold scaled. rewrite take_cs. rewrite (take_ge l) by (unfold l; rewrite length_take; lia).
  pose proof (Z.div_mod (2 ^ vstep * T + mid) (waiting cs l) ltac:(lia)) as Hd. fold rstep in Hd.
  pose proof (Z.mod_pos_bound (2 ^ vstep * T + mid) (waiting cs l) HW).
  pose proof (m2_waiting cs l Hf) as Hw. rewrite Hsum in Hw. lia.
Qed.

Definition scale_inv (s : Z) (st : list Z * Z) : Prop :=
  let '(nm, tmpTotal) := st in
  zlen nm = zlen norm0 /\ drop (Z.to_nat s) nm = drop (Z.to_nat s) norm /\
  Forall2 placed (take (Z.to_nat s) cs) (take (Z.to_nat s) nm) /\ tmpTotal = scaled s /\
  total (take (Z.to_nat s) nm) = points (take (Z.to_nat s) l) + Z.shiftr (scaled s) vstep.

Lemma scaled_next s c n :
  0 <= s <= maxSV -> cs !! Z.to_nat s = Some c -> l !! Z.to_nat s = Some n ->
  scaled (s + 1) = scaled s + (if n =? NOT_YET_ASSIGNED then c * rstep else 0) /\
  points (take (Z.to_nat (s + 1)) l) = points (take (Z.to_nat s) l) + pts n.
Proof.
  intros Hs Hc Hl. unfold scaled. rewrite (take_snoc cs s c), (take_snoc l s n) by (lia || done).
  rewrite waiting_app by (apply (Forall2_length m2_ok), Forall2_take, Hf). rewrite points_app. cbn [waiting points].
  split; [destruct (n =? NOT_YET_ASSIGNED); lia|lia].
Qed.

(** Symbol [s] has [m] in the end. *)
Lemma scale_inv_step s nm c m :
  0 <= s <= maxSV -> scale_inv s (nm, scaled s) -> cs !! Z.to_nat s = Some c -> placed c m ->
  points (take (Z.to_nat (s + 1)) l) + Z.shiftr (scaled (s + 1)) vstep =
    points (take (Z.to_nat s) l) + Z.shiftr (scaled s) vstep + occ m ->
  scale_inv (s + 1) (<[Z.to_nat s := m]> nm, scaled (s + 1)).
Proof.
  intros Hs (Hzn & Hd & Hp & _ & Ht) Hc Hpl Hsum'. unfold scale_inv. rewrite zlen_insert, take_insert_snoc, (take_snoc cs s c) by (lia || done).
  split; [done|]. split.
  { replace (Z.to_nat (s + 1)) with (1 + Z.to_nat s)%nat by lia. rewrite drop_insert_lt by lia.
    rewrite Nat.add_comm. by rewrite <- !drop_drop, Hd. }
  split; [apply Forall2_app; [done|by constructor]|]. split; [done|]. rewrite total_app. cbn [total]. lia.
Qed.

Lemma m2_scale_step s st :
  0 <= s <= maxSV -> scale_inv s st -> wp (m2_scale count vstep rstep s st) (scale_inv (s + 1)) (fun e => e = ZSTD_error_GENERIC).
Proof.
  intros Hs Hi. destruct st as [nm tmp]. pose proof Hi as (Hzn & Hd & _ & -> & _). unfold m2_scale.
  destruct (count_at s Hs) as (c & Hc & Hag & Hcr). destruct (Forall2_lookup_l _ _ _ _ _ Hf Hc) as (n & Hl & Hm).
  assert (nm !! Z.to_nat s = Some n) as Hnm.
  { rewrite <- (Nat.add_0_r (Z.to_nat s)), <- lookup_drop, Hd, lookup_drop, Nat.add_0_r. unfold l in Hl. by rewrite lookup_take_lt in Hl by lia. }
  rewrite (proj2 (aget_Ok nm s n)) by (split; [lia|done]). cbn [obind]. rewrite Hag. cbn [obind].
  destruct (scaled_next s c n Hs Hc Hl) as [Hnx Hpx]. pose proof (scaled_range s) as Hr1. pose proof (scaled_range (s + 1)) as Hr2.
  destruct scale_consts as (Hv & Hmid & Hvk & Hr0). pose proof T_range. pose proof pow_k.
  assert (2 ^ vstep * (T + 1) <= 2 ^ 63) as Hb by nia.
  destruct (Z.eqb_spec n NOT_YET_ASSIGNED) as [E|E].
  - assert (0 <= c * rstep) by nia.
    rewrite (wrap_small 64 (c * rstep)), (wrap_small 64 (scaled s + c * rstep)) by lia. rewrite <- Hnx.
    assert (forall j, 0 <= Z.shiftr (scaled j) vstep <= T) as Hsh.
    { intros j. rewrite Z.shiftr_div_pow2 by (unfold vstep; lia). pose proof (scaled_range j). split; [apply Z.div_pos; lia|].
      enough (scaled j / 2 ^ vstep < T + 1) by lia. apply Z.div_lt_upper_bound; lia. }
    pose proof (Hsh s). pose proof (Hsh (s + 1)).
    assert (Z.shiftr (scaled s) vstep <= Z.shiftr (scaled (s + 1)) vstep)
      by (rewrite !Z.shiftr_div_pow2 by (unfold vstep; lia); apply Z.div_le_mono; lia).
    rewrite (wrap_small 32 (Z.shiftr (scaled s) vstep)), (wrap_small 32 (Z.shiftr (scaled (s + 1)) vstep)) by lia.
    rewrite (wrap_small 32 (_ - _)) by lia. set (w := Z.shiftr (scaled (s + 1)) vstep - Z.shiftr (scaled s) vstep) in *.
    apply wp_bind, wp_reject_if; [done|]. intros Hw1%Z.ltb_ge. rewrite aset_Ok by lia. simpl.
    rewrite (sgn_small 16 w) by (lia || (change (2 ^ (16 - 1)) with 32768; lia)).
    assert (0 < c) as Hc0 by (destruct Hm as [[_ ?]|[? _]]; [simplify_eq|done]).
    apply (scale_inv_step s nm c w); try done; [right; lia|]. rewrite Hpx, E. change (pts NOT_YET_ASSIGNED) with 0.
    rewrite occ_pos by lia. lia.
  - cbn [wp]. rewrite Z.add_0_r in Hnx. rewrite <- Hnx. rewrite <- (list_insert_id nm (Z.to_nat s) n Hnm).
    apply (scale_inv_step s nm c n); try done.
    + destruct Hm as [[? ?]|[? [[-> _]|[->|?]]]]; [by left|right|right; lia|done]. split; [done|]. destruct HlowP as [-> | ->]; lia.
    + rewrite Hpx, Hnx. unfold pts. rewrite (proj2 (Z.eqb_neq n _)) by done. lia.
Qed.

Lemma m2_give_scaled :
  wp (for_range 0 (maxSV + 1) (m2_scale count vstep rstep) (norm, mid)) (fun st => distribution st.1) (fun e => e = ZSTD_error_GENERIC).
Proof.
  destruct scale_consts as (Hv & Hmid & _). apply (wp_mono _ (scale_inv (maxSV + 1)) _ (fun e => e = ZSTD_error_GENERIC)); [|intros [nm t]|done].
  - apply wp_for_range; [lia| |intros s st Hs Hi; apply m2_scale_step; [lia|done]].
    assert (scaled 0 = mid) as E by (unfold scaled; simpl; lia). unfold scale_inv. rewrite E.
    repeat split; try done. simpl. rewrite Z.shiftr_div_pow2 by (unfold vstep; lia). rewrite Z.div_small; [done|].
    pose proof (scaled_range 0). lia.
  - intros (Hzn & _ & Hp & _ & Ht). rewrite take_cs in Hp. rewrite scaled_end in Ht. simpl. split; [done|]. split; [done|].
    rewrite Ht, HT. rewrite (take_ge l) by (unfold l; rewrite length_take; lia). lia.
Qed.
End Scale.

(** What is left to do once the points are counted. *)
Lemma m2_finish :
  wp (if points l =? maxSV + 1 then
        let* (maxV, maxC) := for_range 0 (maxSV + 1) (m2_max count) (0, 0) in
        let* n := aget norm maxV in
        aset norm maxV (s16 (n + s16 T))
      else if waiting cs l =? 0 then
        loop (S (Z.to_nat ((maxSV + 1) * (T + 1)))) (m2_round maxSV) (norm, 0, T)
      else
        let vStepLog := 62 - k in
        let mid := Z.shiftl 1 (vStepLog - 1) - 1 in
        let rStep := ZSTD_div64 (u64 (u64 (Z.shiftl 1 vStepLog * T) + mid)) (u32 (waiting cs l)) in
        let* (norm, tmpTotal) := for_range 0 (maxSV + 1) (m2_scale count vStepLog rStep) (norm, mid) in
        Ok norm) distribution (fun e => e = ZSTD_error_GENERIC).
Proof.
  pose proof (m2_waiting cs l Hf) as Hw. rewrite Hsum in Hw. destruct (Z.eqb_spec (points l) (maxSV + 1)) as [E|_].
  - rewrite <- Hn in E. destruct m2_max_val as (v & c & -> & Hv & Hc & Hgt). cbn [obind].
    eapply wp_mono; [by eapply m2_give_max; [apply all_placed| | |]|done|done].
  - destruct (Z.eqb_spec (waiting cs l) 0) as [E|HW]; [eapply wp_mono; [by apply m2_give_round|done|done]|]. cbv zeta.
    destruct scale_consts as (Hv & Hmid & Hvk & _); [lia|]. pose proof T_range. rewrite !Z.shiftl_1_l.
    fold vstep mid. assert (2 ^ vstep * T <= 2 ^ 62) by nia.
    rewrite (wrap_small 64 (2 ^ vstep * T)), (wrap_small 64 (_ + _)), (wrap_small 32 (waiting cs l)) by lia.
    apply wp_bind. eapply (wp_mono _ _ _ (fun e => e = ZSTD_error_GENERIC)); [apply m2_give_scaled; lia|by intros []|done].
Qed.
End Rest.

Lemma normalizeM2_ok norm :
  zlen norm = zlen norm0 -> wp (FSE_normalizeM2 norm k count tot maxSV lowP) distribution (fun e => e = ZSTD_error_GENERIC).
Proof.
  intros Hz. pose proof pow_k. unfold FSE_normalizeM2. cbv zeta. rewrite (proj1 thr_val), Z.shiftl_1_l. apply wp_bind.
  set (lowOne := u32 (Z.shiftr (size_t (tot * 3)) (k + 1))).
  eapply (wp_mono _ _ _ (fun _ => False)); [apply (wp_for_range m2_inv); [lia| |intros s st Hs Hi; apply m2_first_inv; [lia|done]]| |done].
  { unfold m2_inv. simpl. repeat split; try done. lia. }
  intros [[nm d] rem] Hi%m2_inv_full. destruct (m2_full_range _ _ _ Hi) as [Hd Hr].
  rewrite (wrap_small 32 (2 ^ k - d)) by lia. destruct (Z.eqb_spec (2 ^ k - d) 0); [lia|]. apply wp_bind.
  apply (wp_mono _ (fun st => let '(nm, d, rem, T) := st in m2_full (nm, d, rem) /\ T = 2 ^ k - d) _ (fun _ => False)); [| |done].
  - destruct (lowOne <? rem / (2 ^ k - d)); [|done]. apply wp_bind.
    apply (wp_mono _ m2_full _ (fun _ => False)); [|intros [[nm' d'] rem'] Hi'|done].
    { apply (wp_for_range (fun _ => m2_full)); [lia|done|]. intros s st Hs Hst. apply m2_second_full; [lia|done]. }
    destruct (m2_full_range _ _ _ Hi') as [Hd' _]. simpl. rewrite (wrap_small 32 (2 ^ k - d')) by lia. done.
  - intros [[[nm' d'] rem'] T] [(Hz' & Hf & -> & ->) ->]. by apply m2_finish.
Qed.

(** The whole function, from its sanity checks on. *)
Lemma normalize_passes :
  wp (let* r := loop (S (S (Z.to_nat maxSV))) (nc_body count tot maxSV thr lowP step scale (Z.shiftl 1 (scale - 20)))
        {| nc_s := 0; nc_norm := norm0; nc_still := 2 ^ k; nc_largest := 0; nc_largestP := 0 |} in
      match r with
      | inl norm => Ok (0, norm)
      | inr st =>
          let* n := aget (nc_norm st) (nc_largest st) in
          if Z.shiftr n 1 <=? - nc_still st then
            let* norm := FSE_normalizeM2 (nc_norm st) k count tot maxSV lowP in Ok (k, norm)
          else
            let* norm := aset (nc_norm st) (nc_largest st) (s16 (n + s16 (nc_still st))) in Ok (k, norm)
      end) (fun r => (r.1 = 0 /\ tot ∈ cs) \/ (r.1 = k /\ distribution r.2)) (fun e => e = ZSTD_error_GENERIC).
Proof.
  apply wp_bind. eapply (wp_mono _ _ _ (fun _ => False)); [apply nc_loop_inv| |done].
  intros [norm|st]; [by left|]. intros [Hi E]. destruct (largest_high st Hi E) as (Hlp & Hlg & Hlk).
  pose proof Hi as (_ & Hz & _). rewrite (proj2 (aget_Ok _ _ _) (conj (proj1 Hlg) Hlk)). cbn [obind].
  destruct (Z.leb_spec (Z.shiftr (nc_largestP st) 1) (- nc_still st)).
  - apply wp_bind. eapply wp_mono; [by apply normalizeM2_ok|by right|done].
  - rewrite aset_Ok by lia. right. split; [done|]. by apply nc_finish.
Qed.
End Passes.
End Normalize.

(** ** The properties *)

(** The table logs that [FSE_minTableLog] admits leave room for every symbol. *)
Lemma minTableLog_room `{P : Platform} tot maxSV k :
  2 <= tot <= 2 ^ 30 -> 1 <= maxSV <= 255 -> 5 <= k ->
  exists m, FSE_minTableLog tot maxSV = Ok m /\ 1 <= m <= 9 /\ (m <= k -> tot < 2 ^ k \/ maxSV + 1 < 2 ^ k).
Proof.
  intros Ht Hm Hk. unfold FSE_minTableLog. rewrite (wrap_small 32 tot), !highbit32_val by lia. cbn [obind].
  unfold oassert. rewrite (proj2 (Z.ltb_lt 1 tot)) by lia. cbn [obind]. eexists. split; [reflexivity|].
  pose proof (Z.log2_spec tot ltac:(lia)) as Hl1. pose proof (Z.log2_spec maxSV ltac:(lia)) as Hl2.
  pose proof (Z.log2_nonneg tot). pose proof (Z.log2_nonneg maxSV).
  assert (Z.log2 maxSV <= 7) by (change 7 with (Z.log2 255); apply Z.log2_le_mono; lia).
  assert (1 <= Z.log2 tot) by (change 1 with (Z.log2 2) at 1; apply Z.log2_le_mono; lia).
  split; [zcases; lia|]. intros Hle. revert Hle. zcases; intros Hle.
  - left. pose proof (pow_mono (Z.succ (Z.log2 tot)) k ltac:(lia)). lia.
  - right. pose proof (pow_mono (Z.succ (Z.log2 maxSV) + 1) k ltac:(lia)) as Hp. rewrite Z.pow_add_r in Hp by lia. lia.
Qed.


Lemma placed_props k cs norm :
  5 <= k <= 12 -> Forall2 (placed k) cs norm -> total norm = 2 ^ k -> 0 < zlen cs <= 256 ->
  norm_ok norm k /\ forall s c n, cs !! s = Some c -> norm !! s = Some n -> (c = 0 <-> n = 0).
Proof.
  intros Hk Hp Ht Hl. split.
  - split; [lia|]. split; [unfold zlen in *; by rewrite <- (Forall2_length _ _ _ Hp)|]. split; [by eapply placed_ge|done].
  - intros s c n Hc Hn. pose proof (Forall2_lookup_lr _ _ _ _ _ _ Hp Hc Hn) as [[-> ->]|[Hc0 [->|?]]]; [done|lia|lia].
Qed.

(** C19: [FSE_normalizeCount] on a histogram of 2 to 2^30 symbols never leaves its arrays nor divides by
    zero, and either reports that one symbol is the whole block (table log 0), or fails with one of its two
    errors, or returns the table log in force and counters that fill a table of that size exactly, in which
    a symbol has cells if and only if it occurs: whichever of the two methods, and of the three endings of
    the second, produced them. *)
Theorem FSE_normalizeCount_distribution `{P : Platform} (normalizedCounter count : list Z)
    (tableLog total maxSymbolValue : Z) (useLowProbCount : bool) :
  let cs := take (Z.to_nat (maxSymbolValue + 1)) count in
  1 <= maxSymbolValue <= 255 -> maxSymbolValue + 1 <= zlen count -> maxSymbolValue + 1 <= zlen normalizedCounter ->
  Forall (fun c => 0 <= c) cs -> sumz cs = total -> 2 <= total <= 2 ^ 30 ->
  wp (FSE_normalizeCount normalizedCounter tableLog count total maxSymbolValue useLowProbCount)
    (fun '(k, counters) =>
       let norm := take (Z.to_nat (maxSymbolValue + 1)) counters in
       (k = 0 /\ total ∈ cs) \/
       (k = (if tableLog =? 0 then FSE_DEFAULT_TABLELOG else tableLog) /\ norm_ok norm k /\
        forall s c n, cs !! s = Some c -> norm !! s = Some n -> (c = 0 <-> n = 0)))
    (fun e => e = ZSTD_error_GENERIC \/ e = ZSTD_error_tableLog_tooLarge).
Proof.
  intros cs Hm Hc Hr Hpos Hsum Ht. unfold FSE_normalizeCount. cbv zeta.
  set (k := if tableLog =? 0 then FSE_DEFAULT_TABLELOG else tableLog).
  apply wp_bind, wp_reject_if; [by left|]. intros H1%Z.ltb_ge. apply wp_bind, wp_reject_if; [by right|]. intros H2%Z.ltb_ge.
  unfold FSE_MIN_TABLELOG, FSE_MAX_TABLELOG, FSE_MAX_MEMORY_USAGE in *. change (14 - 2) with 12 in H2.
  destruct (minTableLog_room total maxSymbolValue k Ht Hm H1) as (m & -> & _ & Hroom). cbn [obind].
  apply wp_bind, wp_reject_if; [by left|]. intros H3%Z.ltb_ge. specialize (Hroom H3).
  assert (zlen cs = maxSymbolValue + 1) as Hn by (unfold cs, zlen in *; rewrite length_take; lia).
  assert (cs `prefix_of` count) as Hpre by apply prefix_take.
  rewrite (proj1 (thr_val total k ltac:(lia) ltac:(lia))), (Z.shiftl_1_l k).
  rewrite (wrap_small 32 total) by lia. change (ZSTD_div64 (Z.shiftl 1 62) total) with (step total). fold (scale k).
  eapply wp_mono; [eapply (normalize_passes count cs total k maxSymbolValue); try done; try lia; by destruct useLowProbCount; [left|right]| |by left].
  intros [k' norm] [[E Hin]|[E (_ & Hp & Hto)]]; simpl in E; [by left|right]. split; [done|]. subst k'.
  apply (placed_props k cs); [lia|done|done|lia].
Qed.

Lemma FSE_normalizeCount_distribution_witness :
  wp (FSE_normalizeCount (P := arm64_v8a) (replicate 6 9) 5 [10; 0; 3; 1; 0; 7] 21 5 true)
    (fun '(k, counters) => k = 5 /\ take 6 counters = [15; 0; 5; 2; 0; 10]) (fun _ => False) /\
  wp (FSE_normalizeCount (P := arm64_v8a) (replicate 6 9) 5 [10; 0; 3; 1; 0; 7] 21 5 true)
    (fun '(k, counters) => (k = 0 /\ 21 ∈ [10; 0; 3; 1; 0; 7]) \/
       (k = 5 /\ norm_ok (take 6 counters) k /\
        forall s c n, [10; 0; 3; 1; 0; 7] !! s = Some c -> take 6 counters !! s = Some n -> (c = 0 <-> n = 0)))
    (fun e => e = ZSTD_error_GENERIC \/ e = ZSTD_error_tableLog_tooLarge).
Proof.
  split; [vm_compute; done|].
  apply (FSE_normalizeCount_distribution (replicate 6 9) [10; 0; 3; 1; 0; 7] 5 21 5 true).
  - lia.
  - by vm_compute.
  - by vm_compute.
  - repeat constructor; lia.
  - reflexivity.
  - lia.
Defined.

(** For a block of 2 to 2^30 symbols [FSE_optimalTableLog] chooses a table log between
    [FSE_MIN_TABLELOG] and [FSE_MAX_TABLELOG], never below the minimum of [FSE_minTableLog]: the sanity
    checks of [FSE_normalizeCount] accept it. *)
Theorem FSE_optimalTableLog_accepted `{P : Platform} (maxTableLog srcSize maxSymbolValue : Z) :
  0 <= maxTableLog < 2 ^ 32 -> 2 <= srcSize <= 2 ^ 30 -> 1 <= maxSymbolValue <= 255 ->
  exists k m, FSE_optimalTableLog maxTableLog srcSize maxSymbolValue = Ok k /\
    FSE_minTableLog srcSize maxSymbolValue = Ok m /\ m <= k /\ FSE_MIN_TABLELOG <= k <= FSE_MAX_TABLELOG.
Proof.
  intros Ht Hs Hm. destruct (minTableLog_room srcSize maxSymbolValue 12 Hs Hm ltac:(lia)) as (m & E & Hm9 & _).
  unfold FSE_optimalTableLog, FSE_optimalTableLog_internal. rewrite (wrap_small 32 (srcSize - 1)), highbit32_val by lia.
  cbn [obind]. rewrite E. cbn [obind]. unfold oassert. rewrite (proj2 (Z.ltb_lt 1 srcSize)) by lia. cbn [obind].
  eexists _, m. split; [reflexivity|]. split; [done|].
  unfold FSE_MIN_TABLELOG, FSE_MAX_TABLELOG, FSE_MAX_MEMORY_USAGE, FSE_DEFAULT_TABLELOG. change (14 - 2) with 12.
  lazymatch goal with |- context [if ?t <? m then m else ?t] =>
    assert (m <= (if t <? m then m else t)) as Hu by (destruct (Z.ltb_spec t m); lia); revert Hu; generalize (if t <? m then m else t)
  end.
  intros u Hu. destruct (Z.ltb_spec u 5); zcases; lia.
Qed.

Lemma FSE_optimalTableLog_accepted_witness :
  FSE_optimalTableLog (P := arm64_v8a) 9 1000 35 = Ok 7 /\
  exists k m, FSE_optimalTableLog (P := arm64_v8a) 9 1000 35 = Ok k /\
    FSE_minTableLog (P := arm64_v8a) 1000 35 = Ok m /\ m <= k /\ FSE_MIN_TABLELOG <= k <= FSE_MAX_TABLELOG.
Proof. split; [vm_compute; reflexivity|]. apply FSE_optimalTableLog_accepted; lia. Defined.
