(* ===== verification/Hist.v ===== *)
(** * hist.c: byte histograms

    [HIST_count_simple] counts byte by byte; [HIST_count_parallel_wksp] reads
    four bytes at a time and spreads them over four tables that it adds up at the
    end.  Both are equal to one reference histogram, through every entry point. *)
From S2P Require Import Prelude Mem Errors.

Definition HIST_WKSP_SIZE_U32 : Z := 1024.
Definition HIST_WKSP_SIZE : Z := HIST_WKSP_SIZE_U32 * 4.

Inductive HIST_checkInput_e := trustInput | checkMaxSymbolValue.
#[export] Instance HIST_checkInput_eq_dec : EqDecision HIST_checkInput_e.
Proof. solve_decision. Defined.

Section Definitions.
Context `{P : Platform}.
Implicit Types (count src : list Z).

(** [count[b]++] *)
Definition bump count (b : Z) : res (list Z) :=
  let* n := aget count b in
  aset count b (u32 (n + 1)).

Definition HIST_add count src : res (list Z) :=
  for_range 0 (zlen src) (fun ip count => let* b := aget src ip in bump count b) count.

(** [while (!count[maxSymbolValue]) maxSymbolValue--;] *)
Definition last_used count (maxSymbolValue : Z) : res Z :=
  loop (S (Z.to_nat maxSymbolValue)) (fun m =>
    let* n := aget count m in
    Ok (if n =? 0 then inl (u32 (m - 1)) else inr m)) maxSymbolValue.

(** [if (count[s] > largest) largest = count[s];] over [0..maxSymbolValue] *)
Definition largest_of count (maxSymbolValue : Z) : res Z :=
  for_range 0 (maxSymbolValue + 1) (fun s largest =>
    let* n := aget count s in
    Ok (if largest <? n then n else largest)) 0.

(** The largest count, the largest symbol and the histogram. *)
Definition HIST_count_simple count (maxSymbolValue : Z) src : res (Z * Z * list Z) :=
  let* count := awrite count 0 (replicate (Z.to_nat (maxSymbolValue + 1)) 0) in
  if zlen src =? 0 then Ok (0, 0, count)
  else
    let* count := for_range 0 (zlen src) (fun ip count =>
      let* b := aget src ip in
      oassert (b <=? maxSymbolValue) ;;;
      bump count b) count in
    let* maxSymbolValue := last_used count maxSymbolValue in
    let* largestCount := largest_of count maxSymbolValue in
    Ok (largestCount, maxSymbolValue, count).

Record stripes := {
  Counting1 : list Z; Counting2 : list Z; Counting3 : list Z; Counting4 : list Z;
  cached : Z; st_ip : Z
}.

(** [c = cached; cached = MEM_read32(ip); ip += 4;] and the four counters of [c]. *)
Definition stripe_word src (st : stripes) : res stripes :=
  let c := cached st in
  let* cached' := MEM_read32 src (st_ip st) in
  let* c1 := bump (Counting1 st) (u8 c) in
  let* c2 := bump (Counting2 st) (u8 (Z.shiftr c 8)) in
  let* c3 := bump (Counting3 st) (u8 (Z.shiftr c 16)) in
  let* c4 := bump (Counting4 st) (Z.shiftr c 24) in
  Ok {| Counting1 := c1; Counting2 := c2; Counting3 := c3; Counting4 := c4;
        cached := cached'; st_ip := st_ip st + 4 |}.

(** One turn of [while (ip < iend-15)]. *)
Definition stripe_body src (st : stripes) : res (stripes + stripes) :=
  if st_ip st <? zlen src - 15 then
    let* st := stripe_word src st in
    let* st := stripe_word src st in
    let* st := stripe_word src st in
    let* st := stripe_word src st in
    Ok (inl st)
  else Ok (inr st).

(** Adding up the tables: ([Counting1], [max]). *)
Definition combine (c2 c3 c4 : list Z) (s : Z) (st : list Z * Z) : res (list Z * Z) :=
  let '(c1, max) := st in
  let* n1 := aget c1 s in
  let* n2 := aget c2 s in
  let* n3 := aget c3 s in
  let* n4 := aget c4 s in
  let n := u32 (n1 + (n2 + n3 + n4)) in
  let* c1 := aset c1 s n in
  Ok (c1, if max <? n then n else max).

Definition HIST_count_parallel_wksp count (maxSymbolValue : Z) src (check : HIST_checkInput_e) : res (Z * Z * list Z) :=
  let countLen := maxSymbolValue + 1 in
  oassert (maxSymbolValue <=? 255) ;;;
  if zlen src =? 0 then
    let* count := awrite count 0 (replicate (Z.to_nat countLen) 0) in
    Ok (0, 0, count)
  else
    let zero := replicate 256 0 in
    let* cached := MEM_read32 src 0 in
    let* st := loop (S (length src)) (stripe_body src)
      {| Counting1 := zero; Counting2 := zero; Counting3 := zero; Counting4 := zero; cached := cached; st_ip := 4 |} in
    let* c1 := for_range (st_ip st - 4) (zlen src) (fun ip c1 =>
      let* b := aget src ip in bump c1 b) (Counting1 st) in
    let* (c1, max) := for_range 0 256 (combine (Counting2 st) (Counting3 st) (Counting4 st)) (c1, 0) in
    let* m := last_used c1 255 in
    match check with
    | checkMaxSymbolValue => reject_if (maxSymbolValue <? m) ZSTD_error_maxSymbolValue_tooSmall
    | trustInput => Ok tt
    end ;;;
    let* low := asub c1 0 countLen in
    let* count := awrite count 0 low in
    Ok (max, m, count).

(** [workSpace] is the address of the scratch buffer. *)
Definition HIST_countFast_wksp count (maxSymbolValue : Z) src (workSpace workSpaceSize : Z) : res (Z * Z * list Z) :=
  if zlen src <? 1500 then HIST_count_simple count maxSymbolValue src
  else
    reject_if (negb (Z.land workSpace 3 =? 0)) ZSTD_error_GENERIC ;;;
    reject_if (workSpaceSize <? HIST_WKSP_SIZE) ZSTD_error_workSpace_tooSmall ;;;
    HIST_count_parallel_wksp count maxSymbolValue src trustInput.

Definition HIST_count_wksp count (maxSymbolValue : Z) src (workSpace workSpaceSize : Z) : res (Z * Z * list Z) :=
  reject_if (negb (Z.land workSpace 3 =? 0)) ZSTD_error_GENERIC ;;;
  reject_if (workSpaceSize <? HIST_WKSP_SIZE) ZSTD_error_workSpace_tooSmall ;;;
  if maxSymbolValue <? 255 then HIST_count_parallel_wksp count maxSymbolValue src checkMaxSymbolValue
  else HIST_countFast_wksp count 255 src workSpace workSpaceSize.

(** [tmpCounters] is an array of [unsigned] on the stack: aligned. *)
Definition HIST_countFast count (maxSymbolValue : Z) src : res (Z * Z * list Z) :=
  HIST_countFast_wksp count maxSymbolValue src 0 HIST_WKSP_SIZE.

Definition HIST_count count (maxSymbolValue : Z) src : res (Z * Z * list Z) :=
  HIST_count_wksp count maxSymbolValue src 0 HIST_WKSP_SIZE.
End Definitions.

(** ** The reference histogram *)

Definition occurrences (l : list Z) (s : Z) : Z := zlen (filter (fun b => b = s) l).

Definition histogram (l : list Z) (n : Z) : list Z :=
  map (fun s => occurrences l (Z.of_nat s)) (seq 0 (Z.to_nat n)).

Definition largest (l : list Z) : Z := foldr Z.max 0 l.

Lemma occurrences_nil s : occurrences [] s = 0.
Proof. done. Qed.

Lemma occurrences_cons b l s : occurrences (b :: l) s = occurrences l s + (if b =? s then 1 else 0).
Proof.
  unfold occurrences. rewrite filter_cons. destruct (Z.eqb_spec b s); [rewrite decide_True|rewrite decide_False]; try done;
    rewrite ?zlen_cons; lia.
Qed.

Lemma occurrences_app l k s : occurrences (l ++ k) s = occurrences l s + occurrences k s.
Proof. unfold occurrences. by rewrite filter_app, zlen_app. Qed.

#[export] Instance occurrences_Perm s : Proper ((≡ₚ) ==> (=)) (fun l => occurrences l s).
Proof. intros l k H. unfold occurrences, zlen. f_equal. apply Permutation_length. by rewrite H. Qed.

Lemma occurrences_range l s : 0 <= occurrences l s <= zlen l.
Proof. induction l as [|b l IH]; [done|]. rewrite occurrences_cons, zlen_cons. zcases; lia. Qed.

Lemma occurrences_0 l s : occurrences l s = 0 <-> s ∉ l.
Proof.
  induction l as [|b l IH]; [split; [intros _; apply not_elem_of_nil|done]|].
  rewrite occurrences_cons, not_elem_of_cons, <- IH. pose proof (occurrences_range l s). destruct (Z.eqb_spec b s); split; intros H'.
  - lia.
  - destruct H'; congruence.
  - split; [congruence|lia].
  - destruct H' as [_ ->]. done.
Qed.

Lemma zlen_histogram l n : 0 <= n -> zlen (histogram l n) = n.
Proof. intros. unfold histogram, zlen. rewrite length_map, length_seq. lia. Qed.

Lemma histogram_lookup l n s : 0 <= s < n -> histogram l n !! Z.to_nat s = Some (occurrences l s).
Proof.
  intros. unfold histogram. rewrite list_lookup_fmap, (lookup_seq_lt 0) by lia. simpl. by rewrite Z2Nat.id by lia.
Qed.

#[export] Instance histogram_Perm : Proper ((≡ₚ) ==> (=) ==> (=)) histogram.
Proof. intros l k H n ? <-. unfold histogram. apply map_ext. intros s. by apply occurrences_Perm. Qed.

Lemma histogram_nil n : histogram [] n = replicate (Z.to_nat n) 0.
Proof.
  unfold histogram. generalize 0%nat. induction (Z.to_nat n) as [|m IH]; intros i; [done|]. cbn [seq map replicate]. by rewrite IH.
Qed.

Lemma largest_ge l x : x ∈ l -> x <= largest l.
Proof. induction 1; simpl; unfold largest in *; lia. Qed.

Lemma largest_nonneg l : 0 <= largest l.
Proof. induction l; simpl; unfold largest in *; lia. Qed.

Lemma largest_le l b : 0 <= b -> (forall x, x ∈ l -> x <= b) -> largest l <= b.
Proof.
  intros Hb H. induction l as [|x l IH]; [done|]. cbn [largest foldr]. pose proof (H x ltac:(constructor)).
  pose proof (IH ltac:(intros y Hy; apply H; by constructor)). unfold largest in *. lia.
Qed.

Lemma largest_elem l : l <> [] -> Forall (fun x => 0 <= x) l -> largest l ∈ l.
Proof.
  induction l as [|x l IH]; [done|]. intros _ [Hx Hl]%Forall_cons. cbn [largest foldr]. destruct l as [|y l].
  - rewrite Z.max_l by (simpl; lia). constructor.
  - specialize (IH ltac:(done) Hl). unfold largest in IH. destruct (Z.max_spec x (foldr Z.max 0 (y :: l))) as [[_ ->]|[_ ->]]; by constructor.
Qed.

(** How often the most frequent element occurs. *)
Definition largest_count (l : list Z) : Z := largest (map (occurrences l) l).

Lemma largest_count_unique l r :
  0 <= r -> (forall b, b ∈ l -> occurrences l b <= r) -> (r = 0 \/ exists s, r = occurrences l s) -> r = largest_count l.
Proof.
  intros H0 Hge Hat. apply Z.le_antisymm.
  - destruct Hat as [->|[s ->]]; [apply largest_nonneg|]. destruct (decide (s ∈ l)) as [Hs|Hs].
    + apply largest_ge. by apply list_elem_of_fmap_2.
    + apply occurrences_0 in Hs. rewrite Hs. apply largest_nonneg.
  - apply largest_le; [done|]. intros x Hx. apply list_elem_of_fmap in Hx as (b & -> & Hb). by apply Hge.
Qed.

Lemma largest_count_Perm l k : l ≡ₚ k -> largest_count l = largest_count k.
Proof.
  intros H. symmetry. apply largest_count_unique; [apply largest_nonneg| |].
  - intros b Hb. rewrite (occurrences_Perm b l k H). apply largest_ge, list_elem_of_fmap_2. by rewrite <- H.
  - destruct k as [|b k]; [by left|]. right.
    assert (largest_count (b :: k) ∈ map (occurrences (b :: k)) (b :: k)) as Hin.
    { apply largest_elem; [done|]. apply Forall_forall. intros x Hx. apply list_elem_of_fmap in Hx as (y & -> & _). apply occurrences_range. }
    apply list_elem_of_fmap in Hin as (y & -> & _). exists y. by rewrite (occurrences_Perm y l (b :: k) H).
Qed.

Lemma histogram_low l n m : 0 <= m <= n -> slice (histogram l n) 0 m = histogram l m.
Proof.
  intros Hm. unfold slice. rewrite drop_0. apply list_eq. intros i. destruct (decide (Z.of_nat i < m)).
  - rewrite lookup_take_lt by lia. rewrite <- (Nat2Z.id i). by rewrite !histogram_lookup by lia.
  - rewrite !lookup_ge_None_2; [done| |rewrite length_take; lia].
    pose proof (zlen_histogram l m ltac:(lia)). unfold zlen in *. lia.
Qed.

Section Counting.
Context `{P : Platform}.
Implicit Types (l src rest : list Z).

Lemma table_get l n rest s : 0 <= s < n -> aget (histogram l n ++ rest) s = (Ok (occurrences l s) : res Z).
Proof. intros. apply aget_Ok. split; [lia|]. by apply lookup_app_l_Some, histogram_lookup. Qed.

Lemma bump_histogram l n rest b :
  0 <= b < n -> zlen l + 1 < 2 ^ 32 -> bump (histogram l n ++ rest) b = Ok (histogram (b :: l) n ++ rest).
Proof.
  intros Hb Hl. unfold bump. rewrite table_get by done. cbn [obind]. pose proof (occurrences_range l b).
  rewrite wrap_small by lia. rewrite aset_Ok by (rewrite zlen_app, zlen_histogram; pose proof (zlen_nonneg rest); lia). f_equal.
  rewrite insert_app_l by (unfold zlen in *; pose proof (zlen_histogram l n ltac:(lia)); unfold zlen in *; lia). f_equal.
  apply list_eq. intros i. destruct (decide (i = Z.to_nat b)) as [->|Hi].
  - rewrite list_lookup_insert_eq by (pose proof (zlen_histogram l n ltac:(lia)); unfold zlen in *; lia).
    rewrite histogram_lookup by done. by rewrite occurrences_cons, Z.eqb_refl.
  - rewrite list_lookup_insert_ne by done. destruct (decide (Z.of_nat i < n)).
    + rewrite <- (Nat2Z.id i). rewrite !histogram_lookup by lia. rewrite occurrences_cons.
      rewrite (proj2 (Z.eqb_neq b _)) by lia. by rewrite Z.add_0_r.
    + rewrite !lookup_ge_None_2; [done| |]; [pose proof (zlen_histogram (b :: l) n ltac:(lia))|pose proof (zlen_histogram l n ltac:(lia))];
        unfold zlen in *; lia.
Qed.

(** Counting the bytes from [lo] on, one at a time. *)
Lemma count_bytes src l n rest lo body :
  0 <= lo <= zlen src -> zlen l + (zlen src - lo) < 2 ^ 32 ->
  (forall ip b c, lo <= ip < zlen src -> src !! Z.to_nat ip = Some b -> body ip c = bump c b) ->
  Forall (fun b => 0 <= b < n) (drop (Z.to_nat lo) src) ->
  for_range lo (zlen src) body (histogram l n ++ rest) = Ok (histogram (drop (Z.to_nat lo) src ++ l) n ++ rest).
Proof.
  intros Hlo Hl Hbody Hn.
  assert (wp (for_range lo (zlen src) body (histogram l n ++ rest))
    (fun c => c = histogram (slice src lo (zlen src - lo) ++ l) n ++ rest) (fun _ => False)) as H.
  { apply (wp_for_range (fun ip c => c = histogram (slice src lo (ip - lo) ++ l) n ++ rest)); [lia| |].
    - unfold slice. by rewrite Z.sub_diag.
    - intros ip c Hip ->. destruct (lookup_lt_is_Some_2 src (Z.to_nat ip)) as [b Hb]; [unfold zlen in *; lia|].
      rewrite (Hbody ip b) by done.
      assert (0 <= b < n).
      { apply (Forall_lookup_1 _ _ (Z.to_nat (ip - lo)) _ Hn). rewrite lookup_drop, <- Hb. f_equal. lia. }
      rewrite bump_histogram; [|done|].
      + cbn [wp]. apply (f_equal (fun t => t ++ rest)), histogram_Perm; [|done]. replace (ip + 1 - lo) with (ip - lo + 1) by lia.
        rewrite (slice_snoc src lo (ip - lo) b) by (try lia; rewrite <- Hb; f_equal; lia).
        rewrite <- app_assoc. apply Permutation_middle.
      + rewrite zlen_app, zlen_slice by lia. lia. }
  apply wp_exists in H as (c & -> & ->). unfold slice. rewrite take_ge; [done|]. rewrite length_drop. unfold zlen. lia.
Qed.

Lemma last_used_histogram l n rest :
  l <> [] -> Forall (fun b => 0 <= b < n) l -> n <= 256 -> last_used (histogram l n ++ rest) (n - 1) = Ok (largest l).
Proof.
  intros Hne Hl Hn. assert (largest l ∈ l) as Hin by (apply largest_elem; [done|]; eapply Forall_impl; [exact Hl|]; simpl; lia).
  pose proof (proj1 (Forall_forall _ _) Hl _ Hin) as Hr. cbv beta in Hr.
  assert (wp (last_used (histogram l n ++ rest) (n - 1)) (fun m => m = largest l) (fun _ => False)) as H.
  { unfold last_used. apply (wp_loop (fun m => largest l <= m < n) (fun m => m)); [lia|lia|intros; lia|].
    intros m Hm. rewrite table_get by lia. cbn [obind]. destruct (Z.eqb_spec (occurrences l m) 0) as [E|E]; simpl.
    - apply occurrences_0 in E. assert (m <> largest l) by congruence. rewrite wrap_small by lia. lia.
    - destruct (decide (m ∈ l)) as [Hml|Hml%occurrences_0]; [|done]. pose proof (largest_ge l m Hml). lia. }
  by apply wp_exists in H as (m & -> & ->).
Qed.

(** A running maximum over the table. *)
Definition max_inv l (s r : Z) : Prop :=
  0 <= r /\ (forall b, 0 <= b < s -> occurrences l b <= r) /\ (r = 0 \/ exists s, r = occurrences l s).

Lemma max_inv_0 l : max_inv l 0 0.
Proof. split; [done|]. split; [lia|by left]. Qed.

Lemma max_inv_step l s r :
  0 <= s -> max_inv l s r -> max_inv l (s + 1) (if r <? occurrences l s then occurrences l s else r).
Proof.
  intros Hs (H0 & Hge & Hat). destruct (Z.ltb_spec r (occurrences l s)) as [Hlt|Hle].
  - split; [lia|]. split; [|right; by exists s]. intros b Hb. destruct (Z.eq_dec b s) as [->|]; [done|]. specialize (Hge b ltac:(lia)). lia.
  - split; [done|]. split; [|done]. intros b Hb. destruct (Z.eq_dec b s) as [->|]; [done|]. apply Hge. lia.
Qed.

Lemma max_inv_end l s r : max_inv l s r -> Forall (fun b => 0 <= b < s) l -> r = largest_count l.
Proof. intros (H0 & Hge & Hat) Hl. apply largest_count_unique; [done| |done]. intros b Hb. apply Hge. by apply (proj1 (Forall_forall _ _) Hl). Qed.

Lemma largest_of_histogram l n rest m :
  0 <= m < n -> Forall (fun b => 0 <= b <= m) l -> largest_of (histogram l n ++ rest) m = Ok (largest_count l).
Proof.
  intros Hm Hl. assert (wp (largest_of (histogram l n ++ rest) m) (max_inv l (m + 1)) (fun _ => False)) as H.
  { apply wp_for_range; [lia|apply max_inv_0|]. intros s r Hs Hi. rewrite table_get by lia. simpl. apply max_inv_step; [lia|done]. }
  apply wp_exists in H as (r & -> & Hr). f_equal. apply (max_inv_end _ _ _ Hr). eapply Forall_impl; [exact Hl|]. simpl. lia.
Qed.
End Counting.

(** What every entry point returns on success. *)
Definition hist_result (count : list Z) (maxSymbolValue : Z) (src : list Z) : Z * Z * list Z :=
  (largest_count src, largest src, histogram src (maxSymbolValue + 1) ++ drop (Z.to_nat (maxSymbolValue + 1)) count).

Section Results.
Context `{P : Platform} (count src : list Z) (maxSV : Z).
Hypothesis HmaxSV : 0 <= maxSV <= 255.
Hypothesis Hcount : maxSV + 1 <= zlen count.
Hypothesis Hsrc : bytes src.
Hypothesis Hlen : zlen src < 2 ^ 32.

Lemma write_low (k : list Z) :
  zlen k = maxSV + 1 -> awrite count 0 k = (Ok (k ++ drop (Z.to_nat (maxSV + 1)) count) : res (list Z)).
Proof.
  intros Hk. rewrite awrite_Ok by lia. f_equal. unfold splice. simpl. do 2 f_equal. unfold zlen in Hk. lia.
Qed.

Lemma clear_low :
  awrite count 0 (replicate (Z.to_nat (maxSV + 1)) 0) = (Ok (histogram [] (maxSV + 1) ++ drop (Z.to_nat (maxSV + 1)) count) : res (list Z)).
Proof. rewrite write_low by (rewrite zlen_replicate; lia). by rewrite histogram_nil. Qed.

Lemma empty_result : src = [] -> Ok (0, 0, histogram [] (maxSV + 1) ++ drop (Z.to_nat (maxSV + 1)) count) = (Ok (hist_result count maxSV src) : res _).
Proof. by intros ->. Qed.

Lemma zlen_0 : zlen src = 0 -> src = [].
Proof. unfold zlen. destruct src; [done|]. simpl. lia. Qed.

Lemma count_simple_val :
  Forall (fun b => b <= maxSV) src -> HIST_count_simple count maxSV src = Ok (hist_result count maxSV src).
Proof.
  intros Hmax. unfold HIST_count_simple. rewrite clear_low. cbn [obind].
  destruct (Z.eqb_spec (zlen src) 0) as [E|Hne]; [by apply empty_result, zlen_0|].
  assert (Forall (fun b => 0 <= b < maxSV + 1) src) as Hr.
  { apply Forall_forall. intros b Hb. pose proof (proj1 (Forall_forall _ _) Hsrc b Hb) as H1. pose proof (proj1 (Forall_forall _ _) Hmax b Hb) as H2.
    unfold is_byte in *. simpl in *. lia. }
  assert (src <> []) as Hnil by (intros ->; done).
  pose proof (zlen_nonneg src). rewrite (count_bytes src [] (maxSV + 1)); [| lia | unfold zlen in *; simpl; lia | | by rewrite drop_0].
  - rewrite drop_0, app_nil_r. cbn [obind]. 
    pose proof (last_used_histogram src (maxSV + 1) (drop (Z.to_nat (maxSV + 1)) count) Hnil Hr ltac:(lia)) as Hlast.
    rewrite Z.add_simpl_r in Hlast. rewrite Hlast. cbn [obind].
    pose proof (largest_nonneg src). rewrite largest_of_histogram; [done| |].
    + split; [done|]. enough (largest src <= maxSV) by lia. apply largest_le; [lia|]. intros x Hx. by apply (proj1 (Forall_forall _ _) Hmax).
    + apply Forall_forall. intros b Hb. pose proof (proj1 (Forall_forall _ _) Hr b Hb). simpl in *. split; [lia|by apply largest_ge].
  - intros ip b c Hip Hb. rewrite (proj2 (aget_Ok src ip b)) by (split; [lia|done]). cbn [obind].
    pose proof (Forall_lookup_1 _ _ _ _ Hmax Hb) as Hbm. simpl in Hbm. unfold oassert. by rewrite (proj2 (Z.leb_le b maxSV)) by lia.
Qed.

(** ** Stripes *)

Definition word_bytes (w : Z) : list Z := [u8 w; u8 (Z.shiftr w 8); u8 (Z.shiftr w 16); Z.shiftr w 24].

Lemma word_bytes_le w : 0 <= w < 2 ^ 32 -> word_bytes w = le_bytes 4 w.
Proof.
  intros Hw. unfold word_bytes, le_bytes. rewrite !Z.shiftr_div_pow2 by lia. unfold wrap.
  change (2 ^ 8) with 256. change (2 ^ 16) with (256 * 256). change (2 ^ 24) with (256 * 256 * 256).
  rewrite <- !Z.div_div by lia. do 3 f_equal. symmetry. f_equal. apply Z.mod_small.
  split; [repeat apply Z.div_pos; lia|]. rewrite !Z.div_div by lia. apply Z.div_lt_upper_bound; lia.
Qed.

(** The bytes of a word loaded in either byte order. *)
Lemma load_bytes p :
  0 <= p -> p + 4 <= zlen src -> exists w, MEM_read32 src p = (Ok w : res Z) /\ word_bytes w ≡ₚ slice src p 4.
Proof.
  intros Hp Hq. unfold MEM_read32, load_native. rewrite asub_Ok by lia. cbn [obind]. eexists. split; [reflexivity|].
  pose proof (bytes_slice src p 4 Hsrc) as Hb. assert (length (slice src p 4) = 4%nat) as Hl.
  { pose proof (zlen_slice src p 4 ltac:(lia) ltac:(lia) ltac:(lia)). unfold zlen in *. lia. }
  assert (forall bs, bytes bs -> length bs = 4%nat -> word_bytes (le_val bs) = bs) as Hw.
  { intros bs Hbs Hl4. pose proof (le_val_range bs Hbs) as Hr. unfold zlen in Hr. rewrite Hl4 in Hr. change (256 ^ Z.of_nat 4) with (2 ^ 32) in Hr.
    rewrite word_bytes_le by done. rewrite <- Hl4. by apply le_bytes_val. }
  destruct MEM_isLittleEndian; [by rewrite Hw|]. unfold be_val. rewrite Hw.
  - symmetry. apply Permutation_rev.
  - by apply Forall_rev.
  - by rewrite length_rev.
Qed.

Definition stripe_inv (st : stripes) : Prop :=
  4 <= st_ip st <= zlen src /\ word_bytes (cached st) ≡ₚ slice src (st_ip st - 4) 4 /\
  exists l1 l2 l3 l4,
    Counting1 st = histogram l1 256 /\ Counting2 st = histogram l2 256 /\
    Counting3 st = histogram l3 256 /\ Counting4 st = histogram l4 256 /\
    l1 ++ l2 ++ l3 ++ l4 ≡ₚ take (Z.to_nat (st_ip st - 4)) src.

Lemma bump_table l b : is_byte b -> zlen l + 1 < 2 ^ 32 -> bump (histogram l 256) b = Ok (histogram (b :: l) 256).
Proof. intros Hb Hl. pose proof (bump_histogram l 256 [] b Hb Hl) as H. by rewrite !app_nil_r in H. Qed.

Lemma stripe_word_inv st :
  stripe_inv st -> st_ip st + 4 <= zlen src ->
  wp (stripe_word src st) (fun st' => stripe_inv st' /\ st_ip st' = st_ip st + 4) (fun _ => False).
Proof.
  intros (Hip & Hc & l1 & l2 & l3 & l4 & E1 & E2 & E3 & E4 & Hperm) Hle. unfold stripe_word.
  destruct (load_bytes (st_ip st)) as (w & -> & Hw); [lia|lia|]. cbn [obind]. rewrite E1, E2, E3, E4.
  assert (bytes (word_bytes (cached st))) as Hb by (rewrite Hc; by apply bytes_slice).
  unfold word_bytes in Hb. rewrite !Forall_cons in Hb. destruct Hb as (B1 & B2 & B3 & B4 & _).
  assert (zlen l1 + zlen l2 + zlen l3 + zlen l4 = st_ip st - 4) as Hl.
  { apply Permutation_length in Hperm. rewrite !length_app, length_take in Hperm. unfold zlen in *. lia. }
  pose proof (zlen_nonneg l1). pose proof (zlen_nonneg l2). pose proof (zlen_nonneg l3). pose proof (zlen_nonneg l4).
  rewrite !bump_table by (done || lia). simpl. split; [|lia]. split; [simpl; lia|]. cbn [st_ip cached Counting1 Counting2 Counting3 Counting4].
  replace (st_ip st + 4 - 4) with (st_ip st) by lia. split; [done|].
  eexists (_ :: l1), (_ :: l2), (_ :: l3), (_ :: l4). do 4 (split; [reflexivity|]).
  transitivity (word_bytes (cached st) ++ (l1 ++ l2 ++ l3 ++ l4)).
  - unfold word_bytes. simpl. apply Permutation_skip. rewrite <- Permutation_middle. apply Permutation_skip.
    rewrite (assoc_L (++) l1 l2), <- Permutation_middle, <- !(assoc_L (++)). apply Permutation_skip.
    rewrite (assoc_L (++) l2 l3), (assoc_L (++) l1), <- Permutation_middle, <- !(assoc_L (++)). done.
  - rewrite Hc, Hperm, Permutation_app_comm. unfold slice.
    replace (Z.to_nat (st_ip st)) with (Z.to_nat (st_ip st - 4) + Z.to_nat 4)%nat by lia. by rewrite take_take_drop.
Qed.
Lemma stripe_loop_inv :
  4 <= zlen src ->
  exists w, MEM_read32 src 0 = (Ok w : res Z) /\
  wp (loop (S (length src)) (stripe_body src)
       {| Counting1 := replicate 256 0; Counting2 := replicate 256 0; Counting3 := replicate 256 0;
          Counting4 := replicate 256 0; cached := w; st_ip := 4 |}) stripe_inv (fun _ => False).
Proof.
  intros H4. destruct (load_bytes 0) as (w & E & Hw); [lia|lia|]. exists w. split; [done|].
  apply (wp_loop stripe_inv (fun st => zlen src - st_ip st)).
  - split; [simpl; lia|]. cbn [cached st_ip]. split; [done|]. exists [], [], [], []. by rewrite histogram_nil.
  - cbn [st_ip]. unfold zlen. lia.
  - intros st [Hip _]. lia.
  - intros st Hi. unfold stripe_body. destruct (Z.ltb_spec (st_ip st) (zlen src - 15)); [|done].
    do 4 (apply wp_bind; eapply wp_mono; [apply stripe_word_inv; [eassumption|lia]| |done]; clear Hi; intros ? [Hi ?]).
    simpl. split; [done|lia].
Qed.

(** The first [s] entries of [a], the others of [b]. *)
Lemma mix_step (a b : list Z) s x :
  length a = length b -> a !! s = Some x -> <[s := x]> (take s a ++ drop s b) = take (S s) a ++ drop (S s) b.
Proof.
  intros Hl Hx. pose proof (lookup_lt_Some _ _ _ Hx). rewrite insert_app_r_alt by (rewrite length_take; lia).
  rewrite length_take_le, Nat.sub_diag by lia. destruct (lookup_lt_is_Some_2 b s) as [y Hy]; [lia|].
  rewrite (drop_S b y s Hy). cbn [insert list_insert]. by rewrite (take_S_r a s x), <- (assoc_L (++)).
Qed.

Lemma combine_loop l1 l2 l3 l4 :
  zlen l1 + zlen l2 + zlen l3 + zlen l4 < 2 ^ 32 -> bytes (l1 ++ l2 ++ l3 ++ l4) ->
  let l := l1 ++ l2 ++ l3 ++ l4 in
  for_range 0 256 (combine (histogram l2 256) (histogram l3 256) (histogram l4 256)) (histogram l1 256, 0) =
  Ok (histogram l 256, largest_count l).
Proof.
  intros Hl Hb l.
  assert (length (histogram l 256) = 256%nat /\ length (histogram l1 256) = 256%nat) as [Hl256 Hl1].
  { pose proof (zlen_histogram l 256 ltac:(lia)). pose proof (zlen_histogram l1 256 ltac:(lia)). unfold zlen in *. lia. }
  assert (wp (for_range 0 256 (combine (histogram l2 256) (histogram l3 256) (histogram l4 256)) (histogram l1 256, 0))
    (fun st => st.1 = take 256 (histogram l 256) ++ drop 256 (histogram l1 256) /\ max_inv l 256 st.2) (fun _ => False)) as H.
  { apply (wp_for_range (fun s st => st.1 = take (Z.to_nat s) (histogram l 256) ++ drop (Z.to_nat s) (histogram l1 256) /\ max_inv l s st.2));
      [lia|split; [by rewrite take_0, drop_0|apply max_inv_0]|].
    intros s [c1 r] Hs [E Hr]. cbn [fst snd] in E, Hr. subst c1. unfold combine.
    rewrite (proj2 (aget_Ok (take (Z.to_nat s) (histogram l 256) ++ drop (Z.to_nat s) (histogram l1 256)) s (occurrences l1 s))).
    2:{ split; [lia|]. rewrite lookup_app_r by (rewrite length_take; lia). rewrite length_take_le by lia.
        rewrite Nat.sub_diag, lookup_drop, Nat.add_0_r. by apply histogram_lookup. }
    pose proof (table_get l2 256 [] s Hs) as G2. pose proof (table_get l3 256 [] s Hs) as G3. pose proof (table_get l4 256 [] s Hs) as G4.
    rewrite app_nil_r in G2, G3, G4. cbn [obind]. rewrite G2, G3, G4. cbn [obind].
    pose proof (occurrences_range l1 s). pose proof (occurrences_range l2 s). pose proof (occurrences_range l3 s). pose proof (occurrences_range l4 s).
    rewrite wrap_small by lia. replace (occurrences l1 s + _) with (occurrences l s) by (unfold l; rewrite !occurrences_app; lia).
    rewrite aset_Ok by (rewrite zlen_app; unfold zlen; rewrite length_take, length_drop; lia). cbn [obind wp fst snd].
    split; [|apply max_inv_step; [lia|done]]. rewrite (mix_step _ _ _ (occurrences l s)); [|lia|by apply histogram_lookup].
    by replace (Z.to_nat (s + 1)) with (S (Z.to_nat s)) by lia. }
  apply wp_exists in H as ([c1 r] & -> & E & Hr). cbn [fst snd] in *. subst c1.
  rewrite take_ge, drop_ge, app_nil_r by lia. f_equal. f_equal. by apply (max_inv_end _ _ _ Hr).
Qed.

Lemma count_parallel_val check :
  zlen src = 0 \/ 4 <= zlen src ->
  HIST_count_parallel_wksp count maxSV src check =
    (if bool_decide (check = checkMaxSymbolValue /\ maxSV < largest src) then Err ZSTD_error_maxSymbolValue_tooSmall
     else Ok (hist_result count maxSV src)).
Proof.
  intros Hsz. unfold HIST_count_parallel_wksp. cbv zeta. unfold oassert. rewrite (proj2 (Z.leb_le maxSV 255)) by lia. cbn [obind].
  destruct (Z.eqb_spec (zlen src) 0) as [E|Hne].
  { rewrite clear_low. cbn [obind]. rewrite empty_result by (by apply zlen_0). rewrite bool_decide_eq_false_2; [done|].
    rewrite (zlen_0 E). simpl. lia. }
  destruct stripe_loop_inv as (w & -> & Hloop); [lia|]. cbn [obind]. apply wp_exists in Hloop as (st & -> & Hip & _ & l1 & l2 & l3 & l4 & E1 & E2 & E3 & E4 & Hperm).
  cbn [obind]. rewrite E1, E2, E3, E4.
  assert (zlen l1 + zlen l2 + zlen l3 + zlen l4 = st_ip st - 4) as Hl.
  { apply Permutation_length in Hperm. rewrite !length_app, length_take in Hperm. unfold zlen in *. lia. }
  pose proof (zlen_nonneg l2). pose proof (zlen_nonneg l3). pose proof (zlen_nonneg l4).
  pose proof (count_bytes src l1 256 [] (st_ip st - 4) (fun ip c1 => let* b := aget src ip in bump c1 b)) as Htail.
  rewrite !app_nil_r in Htail. rewrite Htail; [|lia|lia| |by apply Forall_drop].
  2:{ intros ip b c Hb Hlk. by rewrite (proj2 (aget_Ok src ip b)) by (split; [lia|done]). }
  set (rest := drop (Z.to_nat (st_ip st - 4)) src) in *. cbn [obind].
  assert ((rest ++ l1) ++ l2 ++ l3 ++ l4 ≡ₚ src) as Hall.
  { rewrite <- (assoc_L (++)), Permutation_app_comm, Hperm. unfold rest. by rewrite take_drop. }
  rewrite combine_loop.
  2:{ rewrite zlen_app. unfold rest, zlen in *. rewrite length_drop. lia. }
  2:{ by rewrite Hall. }
  cbn [obind]. rewrite (histogram_Perm _ _ Hall 256 256 eq_refl), (largest_count_Perm _ _ Hall).
  pose proof (last_used_histogram src 256 [] ltac:(by intros ->) Hsrc ltac:(lia)) as Hlast. rewrite app_nil_r in Hlast.
  change (256 - 1) with 255 in Hlast. rewrite Hlast. cbn [obind]. unfold reject_if.
  rewrite asub_Ok by (rewrite ?zlen_histogram; lia). rewrite histogram_low by lia.
  pose proof (write_low (histogram src (maxSV + 1)) ltac:(apply zlen_histogram; lia)) as Hwrite.
  destruct check; cbn [obind]; [rewrite Hwrite, bool_decide_eq_false_2 by (by intros [? _]); done|].
  destruct (Z.ltb_spec maxSV (largest src)); cbn [obind];
    [by rewrite bool_decide_eq_true_2|rewrite Hwrite, bool_decide_eq_false_2 by (intros [_ ?]; lia); done].
Qed.

(** A word is read from a source shorter than a word. *)
Lemma count_parallel_short check :
  1 <= zlen src <= 3 -> HIST_count_parallel_wksp count maxSV src check = Fault Oob.
Proof.
  intros H. unfold HIST_count_parallel_wksp. cbv zeta. unfold oassert. rewrite (proj2 (Z.leb_le maxSV 255)) by lia. cbn [obind].
  rewrite (proj2 (Z.eqb_neq (zlen src) 0)) by lia. unfold MEM_read32, load_native, asub.
  by rewrite (proj2 (Z.leb_gt (0 + 4) (zlen src))), andb_false_r by lia.
Qed.
End Results.

(** ** The properties *)

(** C33: [HIST_countFast_wksp], on bytes within the announced alphabet and an adequate workspace, returns the
    number of occurrences of the most frequent byte, the largest byte and the exact histogram, whether it counts
    byte by byte (below 1500 bytes) or in stripes of 16 over four tables, on either byte order. *)
Theorem HIST_countFast_wksp_exact `{P : Platform} (count src : list Z) (maxSymbolValue workSpace workSpaceSize : Z) :
  0 <= maxSymbolValue <= 255 -> maxSymbolValue + 1 <= zlen count ->
  bytes src -> zlen src < 2 ^ 32 -> Forall (fun b => b <= maxSymbolValue) src ->
  Z.land workSpace 3 = 0 -> HIST_WKSP_SIZE <= workSpaceSize ->
  HIST_countFast_wksp count maxSymbolValue src workSpace workSpaceSize = Ok (hist_result count maxSymbolValue src).
Proof.
  intros Hm Hc Hb Hl Hmax Hal Hws. unfold HIST_countFast_wksp, reject_if. rewrite Hal. cbn [Z.eqb negb obind].
  rewrite (proj2 (Z.ltb_ge workSpaceSize HIST_WKSP_SIZE)) by done. cbn [obind].
  destruct (Z.ltb_spec (zlen src) 1500); [by apply count_simple_val|].
  rewrite count_parallel_val by (try done; lia). by rewrite bool_decide_eq_false_2 by (by intros [? _]).
Qed.

Lemma HIST_countFast_wksp_exact_witness :
  HIST_countFast_wksp (P := arm64_v8a) [7; 7; 7; 7; 7; 7] 4 [1; 3; 1; 0] 4096 4096 = Ok (2, 3, [1; 2; 0; 1; 0; 7]) /\
  HIST_countFast_wksp (P := be32_plain) (replicate 6 7) 4 (replicate 1501 3) 0 4096 = Ok (hist_result (replicate 6 7) 4 (replicate 1501 3)).
Proof.
  split; [vm_compute; reflexivity|]. apply HIST_countFast_wksp_exact.
  - lia.
  - vm_compute; discriminate.
  - apply Forall_replicate. unfold is_byte. lia.
  - by vm_compute.
  - apply Forall_replicate. lia.
  - reflexivity.
  - unfold HIST_WKSP_SIZE, HIST_WKSP_SIZE_U32. lia.
Defined.

(** [HIST_count_wksp] checks its input: for any bytes (none, or at least four) it returns the same exact
    result, or the error [maxSymbolValue_tooSmall] precisely when some byte exceeds the announced alphabet, the
    caller's [count] being written only within [maxSymbolValue + 1] entries; a source of one to three bytes with an
    alphabet below 255 is read beyond its end. *)
Theorem HIST_count_wksp_checked `{P : Platform} (count src : list Z) (maxSymbolValue workSpace workSpaceSize : Z) :
  0 <= maxSymbolValue <= 255 -> maxSymbolValue + 1 <= zlen count ->
  bytes src -> zlen src < 2 ^ 32 -> Z.land workSpace 3 = 0 -> HIST_WKSP_SIZE <= workSpaceSize ->
  HIST_count_wksp count maxSymbolValue src workSpace workSpaceSize =
    (if bool_decide (maxSymbolValue < 255 /\ 1 <= zlen src <= 3) then Fault Oob
     else if maxSymbolValue <? largest src then Err ZSTD_error_maxSymbolValue_tooSmall
     else Ok (hist_result count maxSymbolValue src)).
Proof.
  intros Hm Hc Hb Hl Hal Hws. unfold HIST_count_wksp, reject_if. rewrite Hal. cbn [Z.eqb negb obind].
  rewrite (proj2 (Z.ltb_ge workSpaceSize HIST_WKSP_SIZE)) by done. cbn [obind].
  assert (forall x, x ∈ src -> x <= 255) as H255.
  { intros x Hx. pose proof (proj1 (Forall_forall _ _) Hb x Hx). unfold is_byte in *. simpl in *. lia. }
  pose proof (zlen_nonneg src). destruct (Z.ltb_spec maxSymbolValue 255) as [Hlt|Hge].
  - destruct (decide (1 <= zlen src <= 3)).
    + rewrite count_parallel_short by done. by rewrite bool_decide_eq_true_2.
    + rewrite count_parallel_val by (try done; lia). rewrite (bool_decide_eq_false_2 (_ < 255 /\ _)) by tauto.
      destruct (Z.ltb_spec maxSymbolValue (largest src)); [by rewrite bool_decide_eq_true_2|by rewrite bool_decide_eq_false_2 by lia].
  - assert (maxSymbolValue = 255) as -> by lia. rewrite (bool_decide_eq_false_2 (_ < _ /\ _)) by lia.
    rewrite (proj2 (Z.ltb_ge 255 (largest src))) by (apply largest_le; [lia|done]).
    unfold HIST_countFast_wksp, reject_if. rewrite Hal. cbn [Z.eqb negb obind].
    rewrite (proj2 (Z.ltb_ge workSpaceSize HIST_WKSP_SIZE)) by done. cbn [obind].
    destruct (Z.ltb_spec (zlen src) 1500); [apply count_simple_val; try done; by apply Forall_forall|].
    rewrite count_parallel_val by (try done; lia). by rewrite bool_decide_eq_false_2 by (by intros [? _]).
Qed.

Lemma HIST_count_wksp_checked_witness :
  HIST_count_wksp (P := armeabi_v7a) (replicate 5 9) 4 [1; 2; 1; 5] 0 4096 = Err ZSTD_error_maxSymbolValue_tooSmall /\
  HIST_count_wksp (P := armeabi_v7a) (replicate 5 9) 4 [1; 2] 0 4096 = Fault Oob.
Proof.
  split.
  - rewrite HIST_count_wksp_checked; [by vm_compute|lia|vm_compute; discriminate|eval_bytes|by vm_compute|done|unfold HIST_WKSP_SIZE, HIST_WKSP_SIZE_U32; lia].
  - rewrite HIST_count_wksp_checked; [by vm_compute|lia|vm_compute; discriminate|eval_bytes|by vm_compute|done|unfold HIST_WKSP_SIZE, HIST_WKSP_SIZE_U32; lia].
Defined.
