(* ===== verification/ExecSeq.v ===== *)
(** * zstd_decompress_block.c: executing sequences

    A sequence appends literals and then a match, bytes found earlier in the
    output or in a dictionary.  The code copies in strides of 8 and 16 bytes,
    over-reading and over-writing, and spreads short offsets so that strides do
    not overlap.  The theorem is that what it appends is what the byte-by-byte
    definition of LZ77 appends.

    All buffers live in one flat memory, a list of bytes indexed by address, so
    that overlaps are the real ones; pointer arithmetic is exact. *)
From S2P Require Import Prelude Mem Errors.

Definition WILDCOPY_OVERLENGTH : Z := 32.
Definition WILDCOPY_VECLEN : Z := 16.

Inductive ZSTD_overlap_e := ZSTD_no_overlap | ZSTD_overlap_src_before_dst.

Definition is_src_before_dst (o : ZSTD_overlap_e) : bool :=
  match o with ZSTD_overlap_src_before_dst => true | ZSTD_no_overlap => false end.

Record seq_t := { litLength : Z; matchLength : Z; offset : Z }.

Section Definitions.
Context `{P : Platform}.
Implicit Types (m : list Z) (op ip dst src : Z).

(** [memmove], and [memcpy] whose operands may not overlap. *)
Definition memmove m dst src (n : Z) : res (list Z) :=
  let* bs := asub m src n in awrite m dst bs.

Definition memcpy m dst src (n : Z) : res (list Z) :=
  oassert ((n <=? dst - src) || (n <=? src - dst)) ;;;
  memmove m dst src n.

Definition ZSTD_copy4 m dst src : res (list Z) := memcpy m dst src 4.
Definition ZSTD_copy8 m dst src : res (list Z) := memcpy m dst src 8.
Definition ZSTD_copy16 m dst src : res (list Z) := memmove m dst src 16.

(** [do { COPY8(op, ip); } while (op < oend);] *)
Definition wild8 (oend : Z) (st : list Z * Z * Z) : res (list Z * Z * Z + list Z) :=
  let '(m, op, ip) := st in
  let* m := ZSTD_copy8 m op ip in
  Ok (if op + 8 <? oend then inl (m, op + 8, ip + 8) else inr m).

(** [do { COPY16(op, ip); COPY16(op, ip); } while (op < oend);] *)
Definition wild32 (oend : Z) (st : list Z * Z * Z) : res (list Z * Z * Z + list Z) :=
  let '(m, op, ip) := st in
  let* m := ZSTD_copy16 m op ip in
  let* m := ZSTD_copy16 m (op + 16) (ip + 16) in
  Ok (if op + 32 <? oend then inl (m, op + 32, ip + 32) else inr m).

Definition ZSTD_wildcopy m dst src (length : Z) (ovtype : ZSTD_overlap_e) : res (list Z) :=
  let diff := dst - src in
  let oend := dst + length in
  if is_src_before_dst ovtype && (diff <? WILDCOPY_VECLEN) then
    loop (S (Z.to_nat length)) (wild8 oend) (m, dst, src)
  else
    oassert ((WILDCOPY_VECLEN <=? diff) || (diff <=? - WILDCOPY_VECLEN)) ;;;
    let* m := ZSTD_copy16 m dst src in
    if length <=? 16 then Ok m
    else loop (S (Z.to_nat length)) (wild32 oend) (m, dst + 16, src + 16).

(** [while (op < oend) *op++ = *ip++;] *)
Definition copy_bytes m op ip (n : Z) : res (list Z) :=
  for_range 0 n (fun i m => let* b := aget m (ip + i) in aset m (op + i) b) m.

Definition dec32table : list Z := [0; 1; 2; 1; 4; 4; 4; 4].
Definition dec64table : list Z := [8; 8; 8; 7; 8; 9; 10; 11].

(** The memory, and the updated [op] and [ip]. *)
Definition ZSTD_overlapCopy8 m op ip (offset : Z) : res (list Z * Z * Z) :=
  oassert (ip <=? op) ;;;
  let* (m, ip) :=
    if offset <? 8 then
      let* sub2 := aget dec64table offset in
      let* m := copy_bytes m op ip 4 in
      let* add := aget dec32table offset in
      let* m := ZSTD_copy4 m (op + 4) (ip + add) in
      Ok (m, ip + add - sub2)
    else
      let* m := ZSTD_copy8 m op ip in
      Ok (m, ip) in
  oassert (8 <=? (op + 8) - (ip + 8)) ;;;
  Ok (m, op + 8, ip + 8).

Definition ZSTD_safecopy m op (oend_w : Z) ip (length : Z) (ovtype : ZSTD_overlap_e) : res (list Z) :=
  let diff := op - ip in
  let oend := op + length in
  oassert (if is_src_before_dst ovtype then 0 <=? diff
           else (diff <=? -8) || (8 <=? diff) || (oend_w <=? op)) ;;;
  if length <? 8 then copy_bytes m op ip length
  else
    let* (m, op, ip, length) :=
      if is_src_before_dst ovtype then
        let* (m, op, ip) := ZSTD_overlapCopy8 m op ip diff in
        oassert (8 <=? op - ip) ;;;
        oassert (op <=? oend) ;;;
        Ok (m, op, ip, length - 8)
      else Ok (m, op, ip, length) in
    if oend <=? oend_w then ZSTD_wildcopy m op ip length ovtype
    else
      let* (m, op, ip) :=
        if op <=? oend_w then
          let* m := ZSTD_wildcopy m op ip (oend_w - op) ovtype in
          Ok (m, oend_w, ip + (oend_w - op))
        else Ok (m, op, ip) in
      copy_bytes m op ip (oend - op).

Definition ZSTD_safecopyDstBeforeSrc m op ip (length : Z) : res (list Z) :=
  let diff := op - ip in
  let oend := op + length in
  if (length <? 8) || (-8 <? diff) then copy_bytes m op ip length
  else
    let* (m, op, ip) :=
      if (op <=? oend - WILDCOPY_OVERLENGTH) && (diff <? - WILDCOPY_VECLEN) then
        let n := oend - WILDCOPY_OVERLENGTH - op in
        let* m := ZSTD_wildcopy m op ip n ZSTD_no_overlap in
        Ok (m, op + n, ip + n)
      else Ok (m, op, ip) in
    copy_bytes m op ip (oend - op).

Section Sequence.
(** The output buffer's end, the literals' end, the current prefix, the start of the
    history as if it were contiguous with the prefix, and the end of the previous segment. *)
Context (oend litLimit prefixStart virtualStart dictEnd : Z).

(** The match of a sequence, once its literals are in place and [op = oLitEnd]: the part
    before the prefix is copied here, the rest by [tail_copy]. *)
Definition copy_match (tail_copy : list Z -> Z -> Z -> Z -> res (list Z)) m (oLitEnd : Z) (sequence : seq_t) : res (list Z) :=
  let mtch := oLitEnd - offset sequence in
  if size_t (oLitEnd - prefixStart) <? offset sequence then
    reject_if (size_t (oLitEnd - virtualStart) <? offset sequence) ZSTD_error_corruption_detected ;;;
    let mtch := dictEnd - (prefixStart - mtch) in
    if mtch + matchLength sequence <=? dictEnd then memmove m oLitEnd mtch (matchLength sequence)
    else
      let length1 := dictEnd - mtch in
      let* m := memmove m oLitEnd mtch length1 in
      tail_copy m (oLitEnd + length1) prefixStart (matchLength sequence - length1)
  else tail_copy m oLitEnd mtch (matchLength sequence).

(** The bytes produced, the new [*litPtr] and the memory. *)
Definition ZSTD_execSequenceEnd m op (sequence : seq_t) (litPtr : Z) : res (Z * Z * list Z) :=
  let oLitEnd := op + litLength sequence in
  let sequenceLength := size_t (litLength sequence + matchLength sequence) in
  let iLitEnd := litPtr + litLength sequence in
  let oend_w := oend - WILDCOPY_OVERLENGTH in
  reject_if (size_t (oend - op) <? sequenceLength) ZSTD_error_dstSize_tooSmall ;;;
  reject_if (size_t (litLimit - litPtr) <? litLength sequence) ZSTD_error_corruption_detected ;;;
  oassert (op <? op + sequenceLength) ;;;
  oassert (oLitEnd <? op + sequenceLength) ;;;
  let* m := ZSTD_safecopy m op oend_w litPtr (litLength sequence) ZSTD_no_overlap in
  let* m := copy_match (fun m op mtch n => ZSTD_safecopy m op oend_w mtch n ZSTD_overlap_src_before_dst) m oLitEnd sequence in
  Ok (sequenceLength, iLitEnd, m).

(** The copy of a match within the prefix that may write 32 bytes further. *)
Definition fast_match (oend_w prefixStart oMatchEnd offset : Z) m op mtch (n : Z) : res (list Z) :=
  oassert (op <=? oMatchEnd) ;;;
  oassert (oMatchEnd <=? oend_w) ;;;
  oassert (prefixStart <=? mtch) ;;;
  oassert (1 <=? n) ;;;
  if WILDCOPY_VECLEN <=? offset then ZSTD_wildcopy m op mtch n ZSTD_no_overlap
  else
    oassert (offset <? WILDCOPY_VECLEN) ;;;
    let* (m, op, mtch) := ZSTD_overlapCopy8 m op mtch offset in
    if 8 <? n then
      oassert (op <? oMatchEnd) ;;;
      ZSTD_wildcopy m op mtch (n - 8) ZSTD_overlap_src_before_dst
    else Ok m.

(** The common part of the two fast paths, after their bounds checks. *)
Definition exec_fast (oend_w : Z) m op (sequence : seq_t) (litPtr : Z) : res (Z * Z * list Z) :=
  let oLitEnd := op + litLength sequence in
  let sequenceLength := size_t (litLength sequence + matchLength sequence) in
  let oMatchEnd := op + sequenceLength in
  let iLitEnd := litPtr + litLength sequence in
  oassert (op <=? oLitEnd) ;;;
  oassert (oLitEnd <? oMatchEnd) ;;;
  oassert (oMatchEnd <=? oend) ;;;
  oassert (iLitEnd <=? litLimit) ;;;
  oassert (oLitEnd <=? oend_w) ;;;
  oassert (oMatchEnd <=? oend_w) ;;;
  let* m := ZSTD_copy16 m op litPtr in
  let* m :=
    if 16 <? litLength sequence then
      ZSTD_wildcopy m (op + 16) (litPtr + 16) (litLength sequence - 16) ZSTD_no_overlap
    else Ok m in
  let* m := copy_match (fast_match oend_w prefixStart oMatchEnd (offset sequence)) m oLitEnd sequence in
  Ok (sequenceLength, iLitEnd, m).

Definition ZSTD_execSequence m op (sequence : seq_t) (litPtr : Z) : res (Z * Z * list Z) :=
  let sequenceLength := size_t (litLength sequence + matchLength sequence) in
  let oMatchEnd := op + sequenceLength in
  let oend_w := oend - WILDCOPY_OVERLENGTH in
  let iLitEnd := litPtr + litLength sequence in
  oassert (oend_w <? oend) ;;;
  if (litLimit <? iLitEnd) || (oend_w <? oMatchEnd) ||
     (MEM_32bits && (size_t (oend - op) <? size_t (sequenceLength + WILDCOPY_OVERLENGTH)))
  then ZSTD_execSequenceEnd m op sequence litPtr
  else exec_fast oend_w m op sequence litPtr.

(** The variants for literals that lie within the output buffer, ahead of [op]. *)
Definition ZSTD_execSequenceEndSplitLitBuffer (oend_w : Z) m op (sequence : seq_t) (litPtr : Z) : res (Z * Z * list Z) :=
  let oLitEnd := op + litLength sequence in
  let sequenceLength := size_t (litLength sequence + matchLength sequence) in
  let iLitEnd := litPtr + litLength sequence in
  reject_if (size_t (oend - op) <? sequenceLength) ZSTD_error_dstSize_tooSmall ;;;
  reject_if (size_t (litLimit - litPtr) <? litLength sequence) ZSTD_error_corruption_detected ;;;
  oassert (op <? op + sequenceLength) ;;;
  oassert (oLitEnd <? op + sequenceLength) ;;;
  reject_if ((litPtr <? op) && (op <? litPtr + litLength sequence)) ZSTD_error_dstSize_tooSmall ;;;
  let* m := ZSTD_safecopyDstBeforeSrc m op litPtr (litLength sequence) in
  let* m := copy_match (fun m op mtch n => ZSTD_safecopy m op oend_w mtch n ZSTD_overlap_src_before_dst) m oLitEnd sequence in
  Ok (sequenceLength, iLitEnd, m).

Definition ZSTD_execSequenceSplitLitBuffer (oend_w : Z) m op (sequence : seq_t) (litPtr : Z) : res (Z * Z * list Z) :=
  let sequenceLength := size_t (litLength sequence + matchLength sequence) in
  let oMatchEnd := op + sequenceLength in
  let iLitEnd := litPtr + litLength sequence in
  oassert (oend_w <? oend) ;;;
  if (litLimit <? iLitEnd) || (oend_w <? oMatchEnd) ||
     (MEM_32bits && (size_t (oend - op) <? size_t (sequenceLength + WILDCOPY_OVERLENGTH)))
  then ZSTD_execSequenceEndSplitLitBuffer oend_w m op sequence litPtr
  else exec_fast oend_w m op sequence litPtr.
End Sequence.
End Definitions.

(** ** Copies, by the address each byte comes from *)

(** The byte at an address. *)
Definition rd (m : list Z) (a : Z) : Z := nth (Z.to_nat a) m 0.

(** [m'] is [m] where the [k] bytes from [dst] on are those [m] had at the addresses [f 0], [f 1], ... *)
Definition filled (m m' : list Z) (dst : Z) (f : Z -> Z) (k : Z) : Prop :=
  zlen m' = zlen m /\
  (forall a, 0 <= a -> a < dst \/ dst + k <= a -> rd m' a = rd m a) /\
  (forall i, 0 <= i < k -> rd m' (dst + i) = rd m (f i)).

(** Reading [b] bytes at [s] gives bytes [p] to [p + b - 1], the first [k] being in place. *)
Definition chunk_ok (f : Z -> Z) (dst k p s b : Z) : Prop :=
  forall j, 0 <= j < b ->
    ((s + j < dst \/ dst + k <= s + j) /\ f (p + j) = s + j) \/
    (dst <= s + j < dst + k /\ f (p + j) = f (s + j - dst)).

Lemma filled_0 m dst f : filled m m dst f 0.
Proof. split; [done|]. split; [done|]. lia. Qed.

Section Copies.
Context `{P : Platform}.
Implicit Types (m : list Z) (f : Z -> Z).

Lemma rd_lookup m a : 0 <= a < zlen m -> m !! Z.to_nat a = Some (rd m a).
Proof.
  intros Ha. unfold rd. destruct (lookup_lt_is_Some_2 m (Z.to_nat a)) as [x Hx]; [unfold zlen in *; lia|].
  by rewrite (nth_lookup_Some _ _ _ _ Hx).
Qed.

Lemma rd_of_lookup m a x : m !! Z.to_nat a = Some x -> rd m a = x.
Proof. intros H. unfold rd. by rewrite (nth_lookup_Some _ _ _ _ H). Qed.

Lemma rd_out m a : zlen m <= a -> rd m a = 0.
Proof. intros H. unfold rd. apply nth_overflow. unfold zlen in H. lia. Qed.

Lemma memmove_spec m dst src n :
  0 <= src -> src + n <= zlen m -> 0 <= dst -> dst + n <= zlen m -> 0 <= n ->
  exists m', memmove m dst src n = Ok m' /\ zlen m' = zlen m /\
    forall a, 0 <= a -> rd m' a = if (dst <=? a) && (a <? dst + n) then rd m (src + (a - dst)) else rd m a.
Proof.
  intros Hs Hs' Hd Hd' Hn. unfold memmove. rewrite asub_Ok by lia. cbn [obind].
  pose proof (zlen_slice m src n Hs Hn Hs') as Hl. rewrite awrite_Ok by lia.
  eexists. split; [reflexivity|]. split; [apply zlen_splice; lia|]. intros a Ha. unfold rd.
  unfold splice, zlen in *. set (k := slice m src n) in *.
  rewrite !nth_lookup.
  destruct (Z.leb_spec dst a) as [H1|H1]; [destruct (Z.ltb_spec a (dst + n)) as [H2|H2]|]; cbn [andb]; f_equal.
  - rewrite lookup_app_r by (rewrite length_take; lia). rewrite length_take, lookup_app_l by lia.
    unfold k, slice. rewrite lookup_take_lt, lookup_drop by lia. f_equal. lia.
  - rewrite lookup_app_r by (rewrite length_take; lia). rewrite length_take, lookup_app_r by lia.
    rewrite lookup_drop. f_equal. lia.
  - rewrite lookup_app_l by (rewrite length_take; lia). by rewrite lookup_take_lt by lia.
Qed.

(** One stride, possibly over bytes that are already in place. *)
Lemma filled_move_at m m' dst f k p s b :
  filled m m' dst f k -> chunk_ok f dst k p s b ->
  0 <= p <= k -> 0 <= b -> 0 <= dst -> dst + p + b <= zlen m -> 0 <= s -> s + b <= zlen m ->
  exists m'', memmove m' (dst + p) s b = Ok m'' /\ filled m m'' dst f (Z.max k (p + b)).
Proof.
  intros (Hz & Hout & Hin) Hck Hk Hb Hd Hd' Hs Hs'.
  destruct (memmove_spec m' (dst + p) s b) as (m'' & E & Hz'' & Hrd); try lia.
  exists m''. split; [done|]. split; [lia|]. split.
  - intros a Ha Ho. rewrite Hrd by done. destruct (Z.leb_spec (dst + p) a), (Z.ltb_spec a (dst + p + b)); cbn [andb]; try lia; apply Hout; lia.
  - intros i Hi. rewrite Hrd by lia. destruct (Z.leb_spec (dst + p) (dst + i)); [|cbn [andb]; apply Hin; lia].
    destruct (Z.ltb_spec (dst + i) (dst + p + b)); [|cbn [andb]; apply Hin; lia]. cbn [andb].
    replace (s + (dst + i - (dst + p))) with (s + (i - p)) by lia.
    specialize (Hck (i - p) ltac:(lia)). replace (p + (i - p)) with i in Hck by lia.
    destruct Hck as [[Ho ->]|[Hr ->]]; [apply Hout; lia|].
    rewrite <- (Hin (s + (i - p) - dst)) by lia. f_equal. lia.
Qed.

Lemma filled_move m m' dst f k s b :
  filled m m' dst f k -> chunk_ok f dst k k s b ->
  0 <= k -> 0 <= b -> 0 <= dst -> dst + k + b <= zlen m -> 0 <= s -> s + b <= zlen m ->
  exists m'', memmove m' (dst + k) s b = Ok m'' /\ filled m m'' dst f (k + b).
Proof.
  intros Hf Hck Hk Hb Hd Hd' Hs Hs'. rewrite <- (Z.max_r k (k + b)) by lia. apply filled_move_at; try done; lia.
Qed.

Lemma byte_move m d s :
  0 <= s < zlen m -> 0 <= d < zlen m -> (let* b := aget m s in aset m d b) = memmove m d s 1.
Proof.
  intros Hs Hd. unfold memmove. pose proof (rd_lookup m s Hs) as Hx. rewrite (proj2 (aget_Ok m s _) (conj (proj1 Hs) Hx)). cbn [obind].
  rewrite asub_Ok by lia. cbn [obind]. rewrite (slice_cons m s 1 _) by (lia || done).
  change (1 - 1) with 0. unfold slice. rewrite take_0. rewrite aset_Ok by done.
  rewrite awrite_Ok by (rewrite ?zlen_cons; unfold zlen in *; simpl; lia). by rewrite splice_one.
Qed.

Lemma copy_bytes_filled m m' dst f k p s n :
  filled m m' dst f k -> 0 <= p <= k -> 0 <= n -> 0 <= dst -> dst + p + n <= zlen m -> 0 <= s -> s + n <= zlen m ->
  (forall t, 0 <= t < n -> chunk_ok f dst (Z.max k (p + t)) (p + t) (s + t) 1) ->
  exists m'', copy_bytes m' (dst + p) s n = Ok m'' /\ filled m m'' dst f (Z.max k (p + n)).
Proof.
  intros Hf Hk Hn Hd Hd' Hs Hs' Hck. apply wp_exists. unfold copy_bytes.
  apply (wp_for_range (fun i m1 => filled m m1 dst f (Z.max k (p + i)))); [done|by rewrite Z.max_l by lia|].
  intros i m1 Hi H1. pose proof H1 as (Hz & _). rewrite byte_move by lia.
  destruct (filled_move_at m m1 dst f (Z.max k (p + i)) (p + i) (s + i) 1 H1 (Hck i Hi)) as (m2 & E & H2); try lia.
  replace (dst + p + i) with (dst + (p + i)) by lia. rewrite E. simpl.
  by replace (Z.max k (p + (i + 1))) with (Z.max (Z.max k (p + i)) (p + i + 1)) by lia.
Qed.

Section Wild.
Context (m : list Z) (dst : Z) (f : Z -> Z) (k s n : Z).
Hypothesis Hk : 0 <= k.
Hypothesis Hd : 0 <= dst.
Hypothesis Hd' : dst + k + n + 32 <= zlen m.
Hypothesis Hs : 0 <= s.
Hypothesis Hs' : s + n + 32 <= zlen m.

Lemma wild8_filled m' :
  filled m m' dst f k -> 0 <= n -> 8 <= dst + k - s ->
  (forall t, 0 <= t <= n + 24 -> chunk_ok f dst (k + t) (k + t) (s + t) 8) ->
  wp (loop (S (Z.to_nat n)) (wild8 (dst + k + n)) (m', dst + k, s))
    (fun m'' => exists k', k + n <= k' <= k + n + 32 /\ filled m m'' dst f k') (fun _ => False).
Proof.
  intros Hf Hn Hdiff Hck.
  apply (wp_loop (fun st => let '(m1, op, ip) := st in exists t, 0 <= t /\ (t = 0 \/ t < n) /\ op = dst + k + t /\ ip = s + t /\ filled m m1 dst f (k + t))
    (fun st => n - (st.1.2 - (dst + k)))).
  - exists 0. rewrite !Z.add_0_r. split; [lia|]. split; [by left|]. done.
  - cbn [fst snd]. lia.
  - intros [[m1 op] ip] (t & Ht & Hlt & -> & -> & H1). cbn [fst snd]. lia.
  - intros [[m1 op] ip] (t & Ht & Hlt & -> & -> & H1). unfold wild8, ZSTD_copy8, memcpy, oassert.
    rewrite (proj2 (Z.leb_le 8 (dst + k + t - (s + t)))) by lia. cbn [orb obind].
    destruct (filled_move m m1 dst f (k + t) (s + t) 8 H1) as (m2 & E & H2); try lia; [apply Hck; lia|].
    replace (dst + k + t) with (dst + (k + t)) by lia. rewrite E. cbn [obind].
    destruct (Z.ltb_spec (dst + (k + t) + 8) (dst + k + n)); simpl.
    + split; [|lia]. exists (t + 8). split; [lia|]. split; [right; lia|]. split; [lia|]. split; [lia|].
      by replace (k + (t + 8)) with (k + t + 8) by lia.
    + exists (k + t + 8). split; [lia|done].
Qed.

Lemma wild32_filled m' :
  filled m m' dst f (k + 16) -> 16 < n ->
  (forall t, 0 <= t <= n + 16 -> chunk_ok f dst (k + t) (k + t) (s + t) 16) ->
  wp (loop (S (Z.to_nat n)) (wild32 (dst + k + n)) (m', dst + k + 16, s + 16))
    (fun m'' => exists k', k + n <= k' <= k + n + 32 /\ filled m m'' dst f k') (fun _ => False).
Proof.
  intros Hf Hn Hck.
  apply (wp_loop (fun st => let '(m1, op, ip) := st in exists t, 16 <= t < n /\ op = dst + k + t /\ ip = s + t /\ filled m m1 dst f (k + t))
    (fun st => n - (st.1.2 - (dst + k)))).
  - exists 16. repeat split; try lia; apply Hf.
  - cbn [fst snd]. lia.
  - intros [[m1 op] ip] (t & Ht & -> & -> & H1). cbn [fst snd]. lia.
  - intros [[m1 op] ip] (t & Ht & -> & -> & H1). unfold wild32, ZSTD_copy16.
    destruct (filled_move m m1 dst f (k + t) (s + t) 16 H1) as (m2 & E & H2); try lia; [apply Hck; lia|].
    replace (dst + k + t) with (dst + (k + t)) by lia. rewrite E. cbn [obind].
    destruct (filled_move m m2 dst f (k + t + 16) (s + t + 16) 16 H2) as (m3 & E' & H3); try lia.
    { replace (k + t + 16) with (k + (t + 16)) by lia. replace (s + t + 16) with (s + (t + 16)) by lia. apply Hck. lia. }
    replace (dst + (k + t) + 16) with (dst + (k + t + 16)) by lia. rewrite E'. cbn [obind].
    destruct (Z.ltb_spec (dst + (k + t) + 32) (dst + k + n)); simpl.
    + split; [|lia]. exists (t + 32). split; [lia|]. split; [lia|]. split; [lia|]. by replace (k + (t + 32)) with (k + t + 16 + 16) by lia.
    + exists (k + t + 16 + 16). split; [lia|done].
Qed.

(** [ZSTD_wildcopy] fills at least [n] bytes and at most [WILDCOPY_OVERLENGTH] more. *)
Lemma wildcopy_filled m' ov :
  filled m m' dst f k -> 0 <= n ->
  (if is_src_before_dst ov && (dst + k - s <? 16) then 8 <= dst + k - s else 16 <= dst + k - s \/ dst + k - s <= -16) ->
  (forall t, let b := if is_src_before_dst ov && (dst + k - s <? 16) then 8 else 16 in
     0 <= t <= n + 32 - b -> chunk_ok f dst (k + t) (k + t) (s + t) b) ->
  exists m'' k', ZSTD_wildcopy m' (dst + k) s n ov = Ok m'' /\ k + n <= k' <= k + n + 32 /\ filled m m'' dst f k'.
Proof.
  intros Hf Hn Hdiff Hck.
  enough (wp (ZSTD_wildcopy m' (dst + k) s n ov) (fun m'' => exists k', k + n <= k' <= k + n + 32 /\ filled m m'' dst f k') (fun _ => False)) as H.
  { apply wp_exists in H as (m'' & E & k' & Hk' & Hf'). by exists m'', k'. }
  cbv zeta in Hck. unfold ZSTD_wildcopy, WILDCOPY_VECLEN. destruct (is_src_before_dst ov && (dst + k - s <? 16)).
  { apply wild8_filled; try done. intros t Ht. apply Hck. lia. }
  unfold oassert. replace ((16 <=? dst + k - s) || (dst + k - s <=? - (16))) with true by (symmetry; apply orb_true_iff; zcases; lia).
  cbn [obind]. unfold ZSTD_copy16.
  destruct (filled_move m m' dst f k s 16 Hf) as (m1 & E & H1); try lia.
  { specialize (Hck 0 ltac:(lia)). by rewrite !Z.add_0_r in Hck. }
  rewrite E. cbn [obind]. destruct (Z.leb_spec n 16); [|apply wild32_filled; try done; intros t Ht; apply Hck; lia].
  simpl. exists (k + 16). split; [lia|done].
Qed.
End Wild.
End Copies.

(** ** Matches *)

(** The two tables spread a short offset to a multiple of it. *)
Lemma spread_tables d :
  1 <= d < 8 -> exists add sub, aget dec32table d = (Ok add : res Z) /\ aget dec64table d = (Ok sub : res Z) /\ 0 <= add <= d /\
    8 <= d + sub - add <= d + 7 /\ (d + sub - add) mod d = 0 /\ (d + 4 - add) mod d = 0 /\ 4 <= d + 4 - add.
Proof.
  intros Hd. assert (d = 1 \/ d = 2 \/ d = 3 \/ d = 4 \/ d = 5 \/ d = 6 \/ d = 7) as Hc by lia.
  repeat destruct Hc as [->|Hc]; [..|subst d]; (eexists _, _; split; [reflexivity|]; split; [reflexivity|]; cbv; intuition discriminate).
Qed.

Section Match.
Context `{P : Platform} (m : list Z) (oend prefixStart virtualStart dictEnd base d : Z).

(** Where a byte of the history lives. *)
Definition vaddr (a : Z) : Z := if a <? prefixStart then dictEnd - (prefixStart - a) else a.

(** Byte [i] of a match at distance [d] before [base]. *)
Definition match_src (i : Z) : Z := vaddr (base - d + i mod d).

Hypothesis Hd : 1 <= d <= base - virtualStart.
Hypothesis Hprefix : 0 <= virtualStart <= prefixStart /\ prefixStart <= base.
Hypothesis Hroom : base <= oend <= zlen m.
Hypothesis Hdict : virtualStart < prefixStart ->
  0 <= dictEnd - (prefixStart - virtualStart) /\ dictEnd <= zlen m.

(** A stride within the prefix, at a distance that is a multiple of [d]. *)
Lemma chunk_match k p s b D :
  s = base + p - D -> D mod d = 0 -> b <= D -> 0 <= p <= k -> prefixStart <= s -> base - d <= s -> chunk_ok match_src base k p s b.
Proof.
  intros -> HD Hb Hk Hp Hs j Hj. apply Z.mod_divide in HD as [q HD]; [|lia].
  assert (forall x, (x - D) mod d = x mod d) as Hm.
  { intros x. replace (x - D) with (x + (- q) * d) by lia. apply Z.mod_add. lia. }
  destruct (Z.lt_ge_cases (p + j - D) 0) as [Ht|Ht].
  - left. split; [lia|]. unfold match_src. rewrite <- (Hm (p + j)).
    replace ((p + j - D) mod d) with (p + j - D + d) by (rewrite <- (Z.mod_add _ 1) by lia; rewrite Z.mod_small; lia).
    unfold vaddr. rewrite (proj2 (Z.ltb_ge _ prefixStart)) by lia. lia.
  - right. split; [lia|]. unfold match_src. rewrite <- (Hm (p + j)). by replace (base + p - D + j - base) with (p + j - D) by lia.
Qed.

(** [ZSTD_overlapCopy8] widens the distance to a multiple of [d] that is at least 8. *)
Lemma overlapCopy8_filled m' k :
  filled m m' base match_src k -> 0 <= k -> base + k + 8 <= zlen m -> prefixStart <= base + k - d ->
  exists m'' D, ZSTD_overlapCopy8 m' (base + k) (base + k - d) d = Ok (m'', base + k + 8, base + k + 8 - D) /\
    8 <= D <= d + 7 /\ D mod d = 0 /\ filled m m'' base match_src (k + 8).
Proof.
  intros Hf Hk Hz Hp. unfold ZSTD_overlapCopy8, oassert. rewrite (proj2 (Z.leb_le (base + k - d) _)) by lia. cbn [obind].
  destruct (Z.ltb_spec d 8) as [Hlt|Hge].
  - destruct (spread_tables d ltac:(lia)) as (add & sub & -> & -> & Hadd & HD & HDm & H4m & H4).
    cbn [obind].
    destruct (copy_bytes_filled m m' base match_src k k (base + k - d) 4 Hf) as (m1 & -> & H1); try lia.
    { intros t Ht. apply (chunk_match _ _ _ _ d); try lia. apply Z.mod_same. lia. }
    rewrite Z.max_r in H1 by lia. cbn [obind]. unfold ZSTD_copy4, memcpy, oassert.
    rewrite (proj2 (Z.leb_le 4 (base + k + 4 - (base + k - d + add)))) by lia. cbn [orb obind].
    destruct (filled_move m m1 base match_src (k + 4) (base + k - d + add) 4 H1) as (m2 & E & H2); try lia.
    { apply (chunk_match _ _ _ _ (d + 4 - add)); lia. }
    replace (base + k + 4) with (base + (k + 4)) by lia. rewrite E. cbn [obind].
    rewrite (proj2 (Z.leb_le 8 _)) by lia. cbn [obind]. exists m2, (d + sub - add). split; [eq_lia|]. split; [lia|]. split; [done|].
    by replace (k + 8) with (k + 4 + 4) by lia.
  - unfold ZSTD_copy8, memcpy, oassert. rewrite (proj2 (Z.leb_le 8 (base + k - (base + k - d)))) by lia. cbn [orb obind].
    destruct (filled_move m m' base match_src k (base + k - d) 8 Hf) as (m1 & -> & H1); try lia.
    { apply (chunk_match _ _ _ _ d); try lia. apply Z.mod_same. lia. }
    cbn [obind]. rewrite (proj2 (Z.leb_le 8 _)) by lia. cbn [obind]. exists m1, d. split; [eq_lia|]. split; [lia|]. split; [apply Z.mod_same; lia|done].
Qed.

(** A wild copy at a distance [D], a multiple of [d]. *)
Lemma wild_match m' k n D ov :
  filled m m' base match_src k -> 0 <= k -> 0 <= n -> base + k + n + 32 <= oend ->
  D mod d = 0 -> prefixStart <= base + k - D -> base - d <= base + k - D ->
  (if is_src_before_dst ov then 8 <= D else 16 <= D) ->
  exists m'' k', ZSTD_wildcopy m' (base + k) (base + k - D) n ov = Ok m'' /\
    k + n <= k' <= oend - base /\ filled m m'' base match_src k'.
Proof.
  intros Hf Hk Hn Hz HD Hp Hs Hov.
  assert (8 <= D) by (destruct (is_src_before_dst ov); lia).
  destruct (wildcopy_filled m base match_src k (base + k - D) n ltac:(lia) ltac:(lia) ltac:(lia) ltac:(lia) ltac:(lia) m' ov Hf Hn)
    as (m'' & k' & E & Hk' & Hf').
  - destruct (is_src_before_dst ov); cbn [andb]; zcases; lia.
  - intros t b Ht. apply (chunk_match _ _ _ _ D); try lia; unfold b in *; destruct (is_src_before_dst ov); cbn [andb] in *; revert Ht; zcases; lia.
  - exists m'', k'. split; [done|]. split; [lia|done].
Qed.

Lemma bytes_match m' k p n D :
  filled m m' base match_src k -> 0 <= p <= k -> 0 <= n -> base + p + n <= oend ->
  D mod d = 0 -> 1 <= D -> prefixStart <= base + p - D -> base - d <= base + p - D ->
  exists m'', copy_bytes m' (base + p) (base + p - D) n = Ok m'' /\ filled m m'' base match_src (Z.max k (p + n)).
Proof.
  intros Hf Hk Hn Hz HD H1 Hp Hs. apply copy_bytes_filled; try lia; [done|]. intros t Ht. apply (chunk_match _ _ _ _ D); lia.
Qed.

(** What the copy of the rest of a match must do. *)
Definition tail_ok (tail_copy : list Z -> Z -> Z -> Z -> res (list Z)) (total : Z) : Prop :=
  forall m' k, filled m m' base match_src k -> 0 <= k < total -> prefixStart <= base + k - d ->
  exists m'' k', tail_copy m' (base + k) (base + k - d) (total - k) = Ok m'' /\
    total <= k' <= oend - base /\ filled m m'' base match_src k'.

Lemma safecopy_tail oend_w total :
  oend_w + WILDCOPY_OVERLENGTH <= oend -> base + total <= oend ->
  tail_ok (fun m op mtch n => ZSTD_safecopy m op oend_w mtch n ZSTD_overlap_src_before_dst) total.
Proof.
  unfold WILDCOPY_OVERLENGTH. intros Hw Hend m' k Hf Hk Hp. unfold ZSTD_safecopy, oassert. cbn [is_src_before_dst].
  pose proof (Z.mod_same d ltac:(lia)) as Hdd.
  rewrite (proj2 (Z.leb_le 0 _)) by lia. cbn [obind]. replace (base + k - (base + k - d)) with d by lia.
  destruct (Z.ltb_spec (total - k) 8).
  { destruct (bytes_match m' k k (total - k) d) as (m'' & E & Hf'); try lia; [done|]. exists m'', (Z.max k (k + (total - k))).
    split; [done|]. split; [lia|done]. }
  destruct (overlapCopy8_filled m' k) as (m1 & D & -> & HD & HDm & H1); try lia; [done|]. cbn [obind].
  rewrite (proj2 (Z.leb_le 8 _)), (proj2 (Z.leb_le (base + k + 8) _)) by lia. cbn [obind].
  replace (base + k + (total - k)) with (base + total) by lia. replace (base + k + 8) with (base + (k + 8)) by lia.
  destruct (Z.leb_spec (base + total) (oend_w)).
  { destruct (wild_match m1 (k + 8) (total - k - 8) D ZSTD_overlap_src_before_dst) as (m'' & k' & -> & Hk' & Hf'); try done; try lia; try (simpl; lia).
    exists m'', k'. split; [done|]. split; [lia|done]. }
  destruct (Z.leb_spec (base + (k + 8)) (oend_w)).
  - destruct (wild_match m1 (k + 8) (oend_w - (base + (k + 8))) D ZSTD_overlap_src_before_dst) as (m2 & k2 & -> & Hk2 & Hf2); try done; try lia; try (simpl; lia).
    cbn [obind]. destruct (bytes_match m2 k2 (oend_w - base) (base + total - (oend_w)) D) as (m3 & E3 & Hf3); try done; try lia.
    exists m3, (Z.max k2 (oend_w - base + (base + total - (oend_w)))). split; [rewrite <- E3; eq_lia|]. split; [lia|done].
  - cbn [obind]. destruct (bytes_match m1 (k + 8) (k + 8) (base + total - (base + (k + 8))) D) as (m3 & E3 & Hf3); try done; try lia.
    eexists m3, _. split; [exact E3|]. split; [|done]. lia.
Qed.

Lemma fast_tail oend_w total :
  oend_w + WILDCOPY_OVERLENGTH <= oend -> base + total <= oend_w ->
  tail_ok (fast_match oend_w prefixStart (base + total) d) total.
Proof.
  unfold WILDCOPY_OVERLENGTH. intros Hw Hend m' k Hf Hk Hp. unfold fast_match, oassert, WILDCOPY_VECLEN.
  pose proof (Z.mod_same d ltac:(lia)) as Hdd. zdecide. cbn [obind]. destruct (Z.leb_spec 16 d).
  { destruct (wild_match m' k (total - k) d ZSTD_no_overlap) as (m'' & k' & -> & Hk' & Hf'); try done; try lia; try (simpl; lia).
    exists m'', k'. split; [done|]. split; [lia|done]. }
  rewrite (proj2 (Z.ltb_lt d 16)) by lia. cbn [obind].
  destruct (overlapCopy8_filled m' k) as (m1 & D & -> & HD & HDm & H1); try lia; [done|]. cbn [obind].
  destruct (Z.ltb_spec 8 (total - k)); [|exists m1, (k + 8); split; [done|]; split; [lia|done]].
  rewrite (proj2 (Z.ltb_lt (base + k + 8) _)) by lia. cbn [obind]. replace (base + k + 8) with (base + (k + 8)) by lia.
  destruct (wild_match m1 (k + 8) (total - k - 8) D ZSTD_overlap_src_before_dst) as (m'' & k' & -> & Hk' & Hf'); try done; try lia; try (simpl; lia).
  exists m'', k'. split; [done|]. split; [lia|done].
Qed.

(** The whole match, wherever it starts. *)
Lemma copy_match_filled tail_copy sequence :
  offset sequence = d -> 1 <= matchLength sequence -> base + matchLength sequence <= oend ->
  base < 2 ^ (8 * sizeof_size_t) -> tail_ok tail_copy (matchLength sequence) ->
  exists m' k', copy_match prefixStart virtualStart dictEnd tail_copy m base sequence = Ok m' /\
    matchLength sequence <= k' <= oend - base /\ filled m m' base match_src k'.
Proof.
  intros Ho Hn Hend Hsz Htail. unfold copy_match. rewrite Ho. set (n := matchLength sequence) in *. cbv zeta. unfold size_t.
  rewrite !wrap_small by lia. destruct (Z.ltb_spec (base - prefixStart) d) as [Hlt|Hge].
  - rewrite (proj2 (Z.ltb_ge (base - virtualStart) d)) by lia. cbn [reject_if obind]. destruct (Hdict ltac:(lia)) as [Hd0 Hd1].
    assert (forall b, b <= prefixStart - (base - d) -> chunk_ok match_src base 0 0 (dictEnd - (prefixStart - (base - d))) b) as Hck.
    { intros b Hb j Hj. left. split; [lia|]. unfold match_src, vaddr. rewrite Z.mod_small by lia.
      rewrite (proj2 (Z.ltb_lt _ prefixStart)) by lia. lia. }
    destruct (Z.leb_spec (dictEnd - (prefixStart - (base - d)) + n) dictEnd) as [Hle|Hgt].
    + destruct (filled_move m m base match_src 0 (dictEnd - (prefixStart - (base - d))) n (filled_0 _ _ _) ltac:(apply Hck; lia)) as (m' & E & H'); try lia.
      rewrite Z.add_0_r in E. exists m', n. split; [done|]. split; [lia|done].
    + set (l1 := prefixStart - (base - d)) in *. replace (dictEnd - (dictEnd - l1)) with l1 by lia.
      destruct (filled_move m m base match_src 0 (dictEnd - l1) l1 (filled_0 _ _ _) ltac:(apply Hck; lia)) as (m1 & E & H1); try lia.
      rewrite Z.add_0_r in E. rewrite E. cbn [obind].
      destruct (Htail m1 l1 H1) as (m' & k' & E' & Hk' & H'); [lia|lia|].
      exists m', k'. split; [|done]. rewrite <- E'. f_equal; lia.
  - destruct (Htail m 0 (filled_0 _ _ _)) as (m' & k' & E' & Hk' & H'); [lia|lia|].
    exists m', k'. split; [|done]. rewrite <- E'. f_equal; lia.
Qed.
End Match.

(** ** Literals *)

Section Literals.
Context `{P : Platform} (m : list Z) (op oend litPtr n : Z).
Hypothesis Hn : 0 <= n.
Hypothesis Hop : 0 <= op /\ oend <= zlen m.
Hypothesis Hfit : op + n <= oend.
Hypothesis Hlit : 0 <= litPtr /\ litPtr + n + WILDCOPY_OVERLENGTH <= zlen m.
(** The literals and the 32 bytes after them are not in the room left in the output, or they are
    32 bytes ahead of [op]. *)
Hypothesis Hsep : litPtr + n + WILDCOPY_OVERLENGTH <= op \/ oend <= litPtr \/ op + WILDCOPY_OVERLENGTH <= litPtr.

Lemma wild_lits m' k q :
  filled m m' op (fun i => litPtr + i) k -> 0 <= k -> 0 <= q -> k + q <= n -> op + k + q + 32 <= oend ->
  exists m'' k', ZSTD_wildcopy m' (op + k) (litPtr + k) q ZSTD_no_overlap = Ok m'' /\
    k + q <= k' <= oend - op /\ filled m m'' op (fun i => litPtr + i) k'.
Proof.
  unfold WILDCOPY_OVERLENGTH in *. intros Hf Hk Hq Hkq Hz.
  destruct (wildcopy_filled m op (fun i => litPtr + i) k (litPtr + k) q ltac:(lia) ltac:(lia) ltac:(lia) ltac:(lia) ltac:(lia) m' ZSTD_no_overlap Hf Hq)
    as (m'' & k' & E & Hk' & Hf').
  - simpl. lia.
  - intros t b Ht j Hj. simpl in b. unfold b in *. left. split; [|lia]. lia.
  - exists m'', k'. split; [done|]. split; [lia|done].
Qed.

Lemma bytes_lits m' k p q :
  filled m m' op (fun i => litPtr + i) k -> 0 <= p <= k -> k <= p + 32 -> 0 <= q -> p + q <= n -> op + k <= oend ->
  exists m'', copy_bytes m' (op + p) (litPtr + p) q = Ok m'' /\ filled m m'' op (fun i => litPtr + i) (Z.max k (p + q)).
Proof.
  unfold WILDCOPY_OVERLENGTH in *. intros Hf Hp Hpk Hq Hpq Hk. apply copy_bytes_filled; try lia; [done|].
  intros t Ht j Hj. left. split; lia.
Qed.

Definition lits_copied (r : res (list Z)) : Prop :=
  exists m' k', r = Ok m' /\ n <= k' <= oend - op /\ filled m m' op (fun i => litPtr + i) k'.

Lemma safecopy_lits : lits_copied (ZSTD_safecopy m op (oend - WILDCOPY_OVERLENGTH) litPtr n ZSTD_no_overlap).
Proof.
  unfold ZSTD_safecopy, oassert. cbn [is_src_before_dst obind]. pose proof (filled_0 m op (fun i => litPtr + i)) as H0.
  replace ((op - litPtr <=? -8) || (8 <=? op - litPtr) || (oend - WILDCOPY_OVERLENGTH <=? op)) with true
    by (symmetry; rewrite !orb_true_iff, !Z.leb_le; unfold WILDCOPY_OVERLENGTH in *; lia). cbn [obind].
  pose proof (bytes_lits m 0 0 n H0) as Hb. rewrite !Z.add_0_r, Z.max_r in Hb by lia.
  unfold WILDCOPY_OVERLENGTH in *. destruct (Z.ltb_spec n 8) as [Hlt|Hge].
  { destruct Hb as (m' & -> & H'); try lia. exists m', n. split; [done|]. split; [lia|done]. }
  pose proof (wild_lits m 0 n H0) as Hw. rewrite !Z.add_0_r in Hw. destruct (Z.leb_spec (op + n) (oend - 32)).
  { destruct Hw as (m' & k' & -> & Hk' & H'); try lia. by exists m', k'. }
  destruct (Z.leb_spec op (oend - 32)).
  - pose proof (wild_lits m 0 (oend - 32 - op) H0) as Hw2. rewrite !Z.add_0_r in Hw2.
    destruct Hw2 as (m1 & k1 & -> & Hk1 & Hf1); try lia. cbn [obind].
    destruct (bytes_lits m1 k1 (oend - 32 - op) (op + n - (oend - 32)) Hf1) as (m2 & E & Hf2); try lia.
    eexists m2, _. split; [rewrite <- E; f_equal; lia|]. split; [|done]. lia.
  - cbn [obind]. replace (op + n - op) with n by lia. destruct Hb as (m' & -> & H'); try lia. exists m', n. split; [done|]. split; [lia|done].
Qed.

Lemma fast_lits :
  op + n + WILDCOPY_OVERLENGTH <= oend ->
  lits_copied (let* m := ZSTD_copy16 m op litPtr in
    if 16 <? n then ZSTD_wildcopy m (op + 16) (litPtr + 16) (n - 16) ZSTD_no_overlap else Ok m).
Proof.
  unfold WILDCOPY_OVERLENGTH, lits_copied in *. intros Hw. unfold ZSTD_copy16. pose proof (filled_0 m op (fun i => litPtr + i)) as H0.
  destruct (filled_move m m op (fun i => litPtr + i) 0 litPtr 16 H0) as (m1 & E & H1); try lia.
  { intros j Hj. left. split; lia. }
  rewrite Z.add_0_r in E. rewrite E. cbn [obind]. destruct (Z.ltb_spec 16 n).
  - destruct (wild_lits m1 16 (n - 16) H1) as (m2 & k2 & -> & Hk2 & H2); try lia. exists m2, k2. split; [done|]. split; [lia|done].
  - exists m1, 16. split; [done|]. split; [lia|done].
Qed.
End Literals.

(** Literals ahead of the output, closer than a stride or further than an overshoot. *)
Lemma dstBeforeSrc_filled m op litPtr n :
  0 <= n -> 0 <= op -> op + n <= zlen m -> 0 <= litPtr -> litPtr + n <= zlen m ->
  litPtr + n <= op \/ 0 <= litPtr - op <= 16 \/ 32 <= litPtr - op ->
  exists m', ZSTD_safecopyDstBeforeSrc m op litPtr n = Ok m' /\ filled m m' op (fun i => litPtr + i) n.
Proof.
  intros Hn Hop Hz Hl Hlz Hsep. pose proof (filled_0 m op (fun i => litPtr + i)) as H0.
  assert (exists m', copy_bytes m op litPtr n = Ok m' /\ filled m m' op (fun i => litPtr + i) n) as Hbytes.
  { pose proof (copy_bytes_filled m m op (fun i => litPtr + i) 0 0 litPtr n H0) as Hb. rewrite !Z.add_0_r, Z.max_r in Hb by lia.
    apply Hb; try lia. intros t Ht j Hj. left. split; lia. }
  unfold ZSTD_safecopyDstBeforeSrc, WILDCOPY_OVERLENGTH, WILDCOPY_VECLEN. cbv zeta.
  destruct (Z.ltb_spec n 8); [done|]. cbn [orb]. destruct (Z.ltb_spec (-8) (op - litPtr)); [done|].
  destruct (Z.leb_spec op (op + n - 32)); [destruct (Z.ltb_spec (op - litPtr) (- (16)))|]; cbn [andb obind].
  2, 3: by replace (op + n - op) with n by lia.
  replace (op + n - 32 - op) with (n - 32) by lia.
  destruct (wildcopy_filled m op (fun i => litPtr + i) 0 litPtr (n - 32) ltac:(lia) ltac:(lia) ltac:(lia) ltac:(lia) ltac:(lia) m ZSTD_no_overlap H0)
    as (m1 & k1 & E & Hk1 & Hf1); [lia|simpl; lia|intros t b Ht j Hj; simpl in b; unfold b in *; left; split; lia|].
  rewrite Z.add_0_r in E. rewrite E. cbn [obind].
  destruct (copy_bytes_filled m m1 op (fun i => litPtr + i) k1 (n - 32) (litPtr + (n - 32)) 32 Hf1) as (m2 & E2 & Hf2); try lia.
  { intros t Ht j Hj. left. split; lia. }
  exists m2. split; [rewrite <- E2; f_equal; lia|]. by replace n with (Z.max k1 (n - 32 + 32)) by lia.
Qed.

(** ** The reference: LZ77, a byte at a time *)

(** The history followed by [n] bytes, each the one [d] places earlier. *)
Fixpoint lz_copy (n : nat) (d : Z) (h : list Z) : list Z :=
  match n with
  | O => h
  | S n => let h' := lz_copy n d h in h' ++ [rd h' (zlen h' - d)]
  end.

Lemma zlen_lz_copy n d h : zlen (lz_copy n d h) = zlen h + Z.of_nat n.
Proof. induction n as [|n IH]; simpl; [lia|]. rewrite zlen_app, IH, zlen_cons. unfold zlen at 2. simpl. lia. Qed.

Lemma rd_app_l h k a : 0 <= a < zlen h -> rd (h ++ k) a = rd h a.
Proof. intros Ha. unfold rd, zlen in *. by rewrite app_nth1 by lia. Qed.

Lemma rd_app_r h k a : zlen h <= a -> rd (h ++ k) a = rd k (a - zlen h).
Proof. intros Ha. unfold rd, zlen in *. rewrite app_nth2 by lia. f_equal. lia. Qed.

Lemma rd_lz_copy n d h a :
  1 <= d <= zlen h -> 0 <= a < zlen h + Z.of_nat n ->
  rd (lz_copy n d h) a = if a <? zlen h then rd h a else rd h (zlen h - d + (a - zlen h) mod d).
Proof.
  intros Hd. revert a. induction n as [|n IH]; intros a Ha; cbn [lz_copy].
  - rewrite (proj2 (Z.ltb_lt a _)) by lia. done.
  - pose proof (zlen_lz_copy n d h) as Hl. destruct (Z.lt_ge_cases a (zlen h + Z.of_nat n)) as [Hlt|Hge].
    + rewrite rd_app_l by lia. apply IH. lia.
    + assert (a = zlen h + Z.of_nat n) as -> by lia. rewrite rd_app_r, Hl by lia.
      rewrite Z.sub_diag. change (rd [?x] 0) with x. rewrite IH by lia.
      rewrite (proj2 (Z.ltb_ge (zlen h + Z.of_nat n) _)) by lia. replace (zlen h + Z.of_nat n - zlen h) with (Z.of_nat n) by lia.
      destruct (Z.ltb_spec (zlen h + Z.of_nat n - d) (zlen h)).
      * f_equal. rewrite Z.mod_small by lia. lia.
      * do 2 f_equal. replace (zlen h + Z.of_nat n - d - zlen h) with (Z.of_nat n + (-1) * d) by lia. apply Z.mod_add. lia.
Qed.

Lemma list_rd_eq (l k : list Z) : zlen l = zlen k -> (forall a, 0 <= a < zlen l -> rd l a = rd k a) -> l = k.
Proof.
  intros Hz H. apply (nth_ext l k 0 0); [unfold zlen in Hz; lia|]. intros i Hi.
  specialize (H (Z.of_nat i) ltac:(unfold zlen; lia)). unfold rd in H. by rewrite !Nat2Z.id in H.
Qed.

Section History.
Context (prefixStart virtualStart dictEnd : Z).

(** The history up to [op]: the previous segment, then the current prefix. *)
Definition history (m : list Z) (op : Z) : list Z :=
  map (fun a => rd m (vaddr prefixStart dictEnd a)) (seqZ virtualStart (op - virtualStart)).

Lemma zlen_history m op : virtualStart <= op -> zlen (history m op) = op - virtualStart.
Proof. intros. unfold history, zlen. rewrite length_map, length_seqZ. lia. Qed.

Lemma rd_history m op x : 0 <= x < op - virtualStart -> rd (history m op) x = rd m (vaddr prefixStart dictEnd (virtualStart + x)).
Proof.
  intros Hx. apply rd_of_lookup. unfold history. rewrite list_lookup_fmap, lookup_seqZ_lt by lia. simpl. do 3 f_equal. lia.
Qed.

(** Bytes added after a history that is left alone. *)
Lemma history_append `{P : Platform} m m1 op src n :
  virtualStart <= prefixStart <= op -> 0 <= n -> 0 <= src -> src + n <= zlen m ->
  (forall a, virtualStart <= a < op -> rd m1 (vaddr prefixStart dictEnd a) = rd m (vaddr prefixStart dictEnd a)) ->
  (forall i, 0 <= i < n -> rd m1 (op + i) = rd m (src + i)) ->
  history m1 (op + n) = history m op ++ slice m src n.
Proof.
  intros Hop Hn Hs Hz Hold Hnew. apply list_rd_eq.
  - rewrite zlen_app, zlen_slice, !zlen_history by lia. lia.
  - intros x. rewrite zlen_history by lia. intros Hx. rewrite rd_history by lia.
    destruct (Z.lt_ge_cases x (op - virtualStart)) as [Hlt|Hge].
    + rewrite rd_app_l by (rewrite zlen_history; lia). rewrite rd_history by lia. apply Hold. lia.
    + rewrite rd_app_r; rewrite zlen_history by lia; [|lia]. unfold vaddr. rewrite (proj2 (Z.ltb_ge _ prefixStart)) by lia.
      replace (virtualStart + x) with (op + (x - (op - virtualStart))) by lia. rewrite Hnew by lia.
      symmetry. apply rd_of_lookup. rewrite lookup_slice by lia.
      replace (src + (x - (op - virtualStart))) with (src + Z.of_nat (Z.to_nat (x - (op - virtualStart)))) by lia.
      rewrite <- rd_lookup by lia. f_equal. lia.
Qed.
End History.

(** ** The theorem *)

(** Where the buffers lie: the history, the room from [op] to [wend] that a sequence may write to, the end
    [oend] of the output, and the literals with the bytes that may be read after them. *)
Record layout `{P : Platform} (m : list Z) (op oend wend litPtr litLimit prefixStart virtualStart dictEnd : Z) : Prop := {
  lay_out : 0 <= virtualStart <= prefixStart /\ prefixStart <= op <= oend /\ oend <= zlen m /\ op <= wend <= zlen m;
  lay_lit : 0 <= litPtr <= litLimit /\ litLimit + WILDCOPY_OVERLENGTH <= zlen m;
  lay_dict : virtualStart < prefixStart ->
    0 <= dictEnd - (prefixStart - virtualStart) /\ dictEnd <= zlen m /\
    (dictEnd <= op \/ wend <= dictEnd - (prefixStart - virtualStart));
  lay_size : zlen m < 2 ^ (8 * sizeof_size_t)
}.

Definition seq_ok `{P : Platform} (s : seq_t) : Prop :=
  0 <= litLength s /\ 1 <= matchLength s /\ 1 <= offset s /\
  litLength s + matchLength s + WILDCOPY_OVERLENGTH < 2 ^ (8 * sizeof_size_t).

Section Exec.
Context `{P : Platform} (m : list Z) (op oend wend litPtr litLimit prefixStart virtualStart dictEnd : Z) (s : seq_t).
Hypothesis Hlay : layout m op oend wend litPtr litLimit prefixStart virtualStart dictEnd.
Hypothesis Hseq : seq_ok s.

Let lit := litLength s.
Let total := litLength s + matchLength s.
Let base := op + lit.
Let hist := history prefixStart virtualStart dictEnd.

(** The outcome of a sequence: its two refusals, or the history it leaves. *)
Definition exec_spec (r : res (Z * Z * list Z)) : Prop :=
  if oend - op <? total then r = Err ZSTD_error_dstSize_tooSmall
  else if litLimit - litPtr <? lit then r = Err ZSTD_error_corruption_detected
  else if base - virtualStart <? offset s then r = Err ZSTD_error_corruption_detected
  else exists m', r = Ok (total, litPtr + lit, m') /\ zlen m' = zlen m /\
    hist m' (op + total) = lz_copy (Z.to_nat (matchLength s)) (offset s) (hist m op ++ slice m litPtr lit) /\
    forall a, 0 <= a -> a < op \/ wend <= a -> rd m' a = rd m a.

(** A byte of the history before [op] is not in the room left. *)
Lemma vaddr_before a : virtualStart <= a < op -> let v := vaddr prefixStart dictEnd a in 0 <= v /\ (v < op \/ wend <= v).
Proof.
  destruct Hlay as [Ho _ Hd _]. intros Ha. unfold vaddr. cbv zeta. destruct (Z.ltb_spec a prefixStart); [|lia].
  specialize (Hd ltac:(lia)). lia.
Qed.

Lemma vaddr_after a : op <= a -> vaddr prefixStart dictEnd a = a.
Proof. destruct Hlay as [Ho _ _ _]. intros. unfold vaddr. by rewrite (proj2 (Z.ltb_ge a _)) by lia. Qed.

Section AfterLits.
Context (m1 : list Z) (k1 : Z).
Hypothesis Hfit : total <= oend - op.
Hypothesis Hwend : op + total <= wend.
Hypothesis Hk1 : lit <= k1 <= wend - op.
Hypothesis Hf1 : filled m m1 op (fun i => litPtr + i) k1.
Hypothesis Hin : lit <= litLimit - litPtr.

Lemma hist_lits : hist m1 base = hist m op ++ slice m litPtr lit.
Proof.
  destruct Hlay as [Ho Hl _ _]. destruct Hseq as (Hs0 & _). destruct Hf1 as (_ & Hout & Hfill). unfold WILDCOPY_OVERLENGTH in *.
  fold lit in Hs0. apply (history_append prefixStart virtualStart dictEnd m m1 op litPtr lit); [lia|lia|lia|lia| |intros i Hi; apply Hfill; lia].
  intros a Ha. destruct (vaddr_before a Ha) as [Hv0 Hv]. apply Hout; lia.
Qed.

Lemma hist_match m2 k2 :
  1 <= offset s <= base - virtualStart -> matchLength s <= k2 <= wend - base ->
  filled m1 m2 base (match_src prefixStart dictEnd base (offset s)) k2 ->
  hist m2 (op + total) = lz_copy (Z.to_nat (matchLength s)) (offset s) (hist m1 base).
Proof.
  intros Hd Hk2 (Hz2 & Hout & Hfill). destruct Hlay as [Ho _ _ _]. destruct Hseq as (Hs0 & Hs1 & _). fold lit in Hs0.
  assert (op + total = base + matchLength s) as -> by (unfold total, base, lit; lia).
  unfold hist. apply list_rd_eq.
  - rewrite zlen_lz_copy, !zlen_history by (unfold base; lia). lia.
  - intros x. rewrite zlen_history by (unfold base; lia). intros Hx.
    rewrite rd_lz_copy; rewrite ?zlen_history by (unfold base; lia); try lia. rewrite rd_history by lia.
    destruct (Z.ltb_spec x (base - virtualStart)) as [Hlt|Hge].
    + rewrite rd_history by lia. destruct (Z.lt_ge_cases (virtualStart + x) op) as [H1|H1].
      * destruct (vaddr_before (virtualStart + x)) as [Hv0 Hv]; [lia|]. apply Hout; [done|]. unfold base, total, lit in *. lia.
      * rewrite vaddr_after by lia. apply Hout; lia.
    + rewrite vaddr_after by (unfold base in *; lia). replace (virtualStart + x) with (base + (x - (base - virtualStart))) by lia.
      rewrite Hfill by lia. unfold match_src. pose proof (Z.mod_pos_bound (x - (base - virtualStart)) (offset s) ltac:(lia)).
      rewrite rd_history by lia. do 2 f_equal. lia.
Qed.

(** The literals are in place; the match follows. *)
Lemma exec_finish tail_copy :
  (1 <= offset s <= base - virtualStart -> tail_ok m1 wend prefixStart dictEnd base (offset s) tail_copy (matchLength s)) ->
  exec_spec (let* m' := copy_match prefixStart virtualStart dictEnd tail_copy m1 base s in Ok (total, litPtr + lit, m')).
Proof.
  intros Htail. destruct Hlay as [Ho Hl Hd Hsz]. destruct Hseq as (Hs0 & Hs1 & Hs2 & _). pose proof Hf1 as (Hz1 & Hout1 & _).
  unfold exec_spec. rewrite (proj2 (Z.ltb_ge (oend - op) total)) by lia. rewrite (proj2 (Z.ltb_ge (litLimit - litPtr) lit)) by lia.
  fold lit in Hs0. assert (op <= base) by (unfold base; lia). assert (base + matchLength s = op + total) by (unfold base, total, lit; lia).
  destruct (Z.ltb_spec (base - virtualStart) (offset s)) as [Hbad|Hgood].
  - unfold copy_match, size_t. rewrite !wrap_small by lia. rewrite (proj2 (Z.ltb_lt (base - prefixStart) _)) by lia.
    rewrite (proj2 (Z.ltb_lt (base - virtualStart) _)) by lia. done.
  - assert (base + matchLength s <= wend) by lia.
    destruct (copy_match_filled m1 wend prefixStart virtualStart dictEnd base (offset s)) with (tail_copy := tail_copy) (sequence := s)
      as (m2 & k2 & -> & Hk2 & Hf2); [lia|lia|lia|intros Hv; specialize (Hd Hv); lia|done|done|done|lia|apply Htail; lia|].
    cbn [obind]. exists m2. split; [done|]. pose proof Hf2 as (Hz2 & Hout2 & _). split; [lia|]. split.
    + rewrite (hist_match m2 k2) by (try done; lia). by rewrite hist_lits.
    + intros a Ha Hab. rewrite Hout2, Hout1 by lia. done.
Qed.
End AfterLits.

Lemma sizes : size_t total = total /\ size_t (oend - op) = oend - op /\ size_t (litLimit - litPtr) = litLimit - litPtr /\
  size_t (total + WILDCOPY_OVERLENGTH) = total + WILDCOPY_OVERLENGTH.
Proof.
  destruct Hlay as [Ho Hl _ Hsz]. destruct Hseq as (Hs0 & Hs1 & _ & Hs3). unfold size_t, total, WILDCOPY_OVERLENGTH in *.
  rewrite !wrap_small by lia. done.
Qed.

(** Both careful paths, given how they copy literals. *)
Lemma exec_end_spec copy_lits oend_w :
  (total <= oend - op -> lit <= litLimit - litPtr -> op + total <= wend /\ lits_copied m op wend litPtr lit copy_lits) ->
  oend_w + WILDCOPY_OVERLENGTH <= wend ->
  exec_spec (
    reject_if (size_t (oend - op) <? size_t total) ZSTD_error_dstSize_tooSmall ;;;
    reject_if (size_t (litLimit - litPtr) <? lit) ZSTD_error_corruption_detected ;;;
    oassert (op <? op + size_t total) ;;;
    oassert (base <? op + size_t total) ;;;
    let* m := copy_lits in
    let* m := copy_match prefixStart virtualStart dictEnd
      (fun m op mtch n => ZSTD_safecopy m op oend_w mtch n ZSTD_overlap_src_before_dst) m base s in
    Ok (size_t total, litPtr + lit, m)).
Proof.
  intros Hcopy Hw. destruct Hlay as [Ho Hl Hd Hsz]. destruct Hseq as (Hs0 & Hs1 & Hs2 & Hs3). destruct sizes as (E1 & E2 & E3 & _).
  rewrite E1, E2, E3. unfold reject_if.
  destruct (Z.ltb_spec (oend - op) total) as [Hbig|Hfit]; cbn [obind].
  { unfold exec_spec. by rewrite (proj2 (Z.ltb_lt (oend - op) total)). }
  destruct (Z.ltb_spec (litLimit - litPtr) lit) as [Hbad|Hin]; cbn [obind].
  { unfold exec_spec. rewrite (proj2 (Z.ltb_ge (oend - op) total)) by done. by rewrite (proj2 (Z.ltb_lt (litLimit - litPtr) lit)). }
  unfold oassert. fold lit in Hs0. assert (total = lit + matchLength s) as Et by done. assert (base = op + lit) as Eb by done.
  rewrite (proj2 (Z.ltb_lt op _)), (proj2 (Z.ltb_lt base _)) by lia. cbn [obind].
  destruct (Hcopy ltac:(lia) ltac:(lia)) as [Hwend (m1 & k1 & E & Hk1 & Hf1)]. rewrite E. cbn [obind].
  apply (exec_finish m1 k1); try done; try lia. intros Hoff. apply (safecopy_tail _ _ _ virtualStart); try done; try lia.
  destruct Hf1 as [-> _]. lia.
Qed.

Lemma exec_fast_spec oend_w :
  lit <= litLimit - litPtr -> total <= oend - op -> op + total <= oend_w -> oend_w + WILDCOPY_OVERLENGTH <= wend ->
  litPtr + lit + WILDCOPY_OVERLENGTH <= op \/ wend <= litPtr \/ op + WILDCOPY_OVERLENGTH <= litPtr ->
  exec_spec (exec_fast oend litLimit prefixStart virtualStart dictEnd oend_w m op s litPtr).
Proof.
  intros Hin Hfit Hroom Hw Hsep. destruct Hlay as [Ho Hl Hd Hsz]. destruct Hseq as (Hs0 & Hs1 & Hs2 & Hs3). destruct sizes as (E1 & _).
  unfold exec_fast. cbv zeta. fold total lit base. rewrite E1. unfold oassert. assert (total = lit + matchLength s) as Et by done.
  assert (base = op + lit) as Eb by done. fold lit in Hs0. unfold WILDCOPY_OVERLENGTH in *. zdecide. cbn [obind].
  destruct (fast_lits m op wend litPtr lit) as (m1 & k1 & E & Hk1 & Hf1); try (unfold WILDCOPY_OVERLENGTH; lia).
  destruct (ZSTD_copy16 m op litPtr) as [m0| |]; [|done..]. cbn [obind] in *. rewrite E. cbn [obind].
  apply (exec_finish m1 k1); try done; try lia. intros Hoff. assert (op + total = base + matchLength s) as -> by lia.
  apply (fast_tail _ wend _ virtualStart); try (unfold WILDCOPY_OVERLENGTH; lia). destruct Hf1 as [-> _]. lia.
Qed.
End Exec.

Section Paths.
Context `{P : Platform} (m : list Z) (op oend litPtr litLimit prefixStart virtualStart dictEnd : Z) (s : seq_t).
Hypothesis Hseq : seq_ok s.

Lemma execSequence_spec :
  layout m op oend oend litPtr litLimit prefixStart virtualStart dictEnd ->
  litLimit + WILDCOPY_OVERLENGTH <= op \/ oend <= litPtr ->
  exec_spec m op oend oend litPtr litLimit prefixStart virtualStart dictEnd s
    (ZSTD_execSequence oend litLimit prefixStart virtualStart dictEnd m op s litPtr).
Proof.
  intros Hlay Hsep. destruct (sizes m op oend oend litPtr litLimit prefixStart virtualStart dictEnd s Hlay Hseq) as (E1 & E2 & E3 & E4).
  pose proof Hlay as [Ho Hl Hd Hsz]. pose proof Hseq as (Hs0 & Hs1 & _).
  assert (exec_spec m op oend oend litPtr litLimit prefixStart virtualStart dictEnd s
    (ZSTD_execSequenceEnd oend litLimit prefixStart virtualStart dictEnd m op s litPtr)) as Hslow.
  { apply exec_end_spec; [done|done| |lia]. intros Hfit Hin. split; [lia|]. apply safecopy_lits; unfold WILDCOPY_OVERLENGTH in *; lia. }
  unfold ZSTD_execSequence. cbv zeta. rewrite E1, E2, E4. unfold oassert.
  rewrite (proj2 (Z.ltb_lt (oend - WILDCOPY_OVERLENGTH) oend)) by (unfold WILDCOPY_OVERLENGTH; lia). cbn [obind].
  destruct (Z.ltb_spec litLimit (litPtr + litLength s)); [done|].
  destruct (Z.ltb_spec (oend - WILDCOPY_OVERLENGTH) (op + (litLength s + matchLength s))); [done|]. cbn [orb].
  destruct (MEM_32bits && _); [done|]. unfold WILDCOPY_OVERLENGTH in *. apply exec_fast_spec; try done; unfold WILDCOPY_OVERLENGTH; lia.
Qed.

Lemma execSequenceSplit_spec :
  let wend := Z.max (litPtr + litLength s) (op + litLength s + matchLength s) in
  layout m op oend wend litPtr litLimit prefixStart virtualStart dictEnd ->
  op + WILDCOPY_OVERLENGTH <= litPtr -> litPtr + litLength s <= oend ->
  exec_spec m op oend wend litPtr litLimit prefixStart virtualStart dictEnd s
    (ZSTD_execSequenceSplitLitBuffer oend litLimit prefixStart virtualStart dictEnd
       (litPtr + litLength s - WILDCOPY_OVERLENGTH) m op s litPtr).
Proof.
  intros wend Hlay Hahead Hle. destruct (sizes m op oend wend litPtr litLimit prefixStart virtualStart dictEnd s Hlay Hseq) as (E1 & E2 & E3 & E4).
  pose proof Hlay as [Ho Hl Hd Hsz]. pose proof Hseq as (Hs0 & Hs1 & _). unfold WILDCOPY_OVERLENGTH in *.
  assert (exec_spec m op oend wend litPtr litLimit prefixStart virtualStart dictEnd s
    (ZSTD_execSequenceEndSplitLitBuffer oend litLimit prefixStart virtualStart dictEnd (litPtr + litLength s - 32) m op s litPtr)) as Hslow.
  { unfold ZSTD_execSequenceEndSplitLitBuffer. cbv zeta. rewrite (proj2 (Z.ltb_ge litPtr op)) by lia. cbn [andb].
    cbn [reject_if]. change (Ok tt ;;; ?k) with k. apply exec_end_spec; [done|done| |unfold WILDCOPY_OVERLENGTH, wend; lia].
    intros Hfit Hin. split; [unfold wend; lia|].
    destruct (dstBeforeSrc_filled m op litPtr (litLength s)) as (m1 & E & Hf1); try lia. exists m1, (litLength s).
    split; [done|]. split; [unfold wend; lia|done]. }
  unfold ZSTD_execSequenceSplitLitBuffer. cbv zeta. unfold WILDCOPY_OVERLENGTH. rewrite E1, E2, E4. unfold oassert.
  rewrite (proj2 (Z.ltb_lt (litPtr + litLength s - 32) oend)) by lia. cbn [obind].
  destruct (Z.ltb_spec litLimit (litPtr + litLength s)); [done|].
  destruct (Z.ltb_spec (litPtr + litLength s - 32) (op + (litLength s + matchLength s))); [done|]. cbn [orb].
  destruct (MEM_32bits && _); [done|]. apply exec_fast_spec; try done; unfold wend, WILDCOPY_OVERLENGTH; lia.
Qed.
End Paths.

(** C7: [ZSTD_execSequence], whichever of its paths it takes (strides of 16 or 8 bytes that over-read and
    over-write, short offsets spread to at least 8, the careful path near the end of the output, a match in the
    previous segment or across both), appends to the history exactly the literals and the match that the
    byte-by-byte definition of LZ77 appends; it reports [dstSize_tooSmall] when they do not fit,
    [corruption_detected] when the literals run out or the offset reaches before the history, and writes nothing
    outside the room left in the output. *)
Theorem ZSTD_execSequence_lz77 `{P : Platform} (m : list Z)
    (op oend litPtr litLimit prefixStart virtualStart dictEnd : Z) (sequence : seq_t) :
  layout m op oend oend litPtr litLimit prefixStart virtualStart dictEnd -> seq_ok sequence ->
  litLimit + WILDCOPY_OVERLENGTH <= op \/ oend <= litPtr ->
  exec_spec m op oend oend litPtr litLimit prefixStart virtualStart dictEnd sequence
    (ZSTD_execSequence oend litLimit prefixStart virtualStart dictEnd m op sequence litPtr).
Proof. intros Hlay Hseq Hsep. by apply execSequence_spec. Qed.

(** Two literals and a match of 11 bytes at offset 3, in the fast path; the literals lie at address 200. *)
Definition demo_mem : list Z := [1; 2; 3] ++ replicate 197 0 ++ [65; 66; 67] ++ replicate 60 9.

Lemma ZSTD_execSequence_lz77_witness :
  (exists m', ZSTD_execSequence (P := arm64_v8a) 200 203 0 0 0 demo_mem 3 {| litLength := 2; matchLength := 11; offset := 3 |} 200 = Ok (13, 202, m') /\
     take 16 m' = [1; 2; 3; 65; 66; 3; 65; 66; 3; 65; 66; 3; 65; 66; 3; 65]) /\
  exec_spec demo_mem 3 200 200 200 203 0 0 0 {| litLength := 2; matchLength := 11; offset := 3 |}
    (ZSTD_execSequence (P := arm64_v8a) 200 203 0 0 0 demo_mem 3 {| litLength := 2; matchLength := 11; offset := 3 |} 200).
Proof.
  split; [eexists; split; vm_compute; reflexivity|]. apply ZSTD_execSequence_lz77.
  - constructor; unfold WILDCOPY_OVERLENGTH; change (zlen demo_mem) with 263; try lia. by vm_compute.
  - unfold seq_ok; simpl; split_and!; first [lia | by vm_compute].
  - right. lia.
Defined.

(** With the literals inside the output buffer, at least 32 bytes ahead of [op],
    [ZSTD_execSequenceSplitLitBuffer] appends the same bytes, and while the output stays behind the literals it
    has used it leaves every literal still to be read intact. *)
Theorem ZSTD_execSequenceSplit_lz77 `{P : Platform} (m : list Z)
    (op oend litPtr litLimit prefixStart virtualStart dictEnd : Z) (sequence : seq_t) :
  let wend := Z.max (litPtr + litLength sequence) (op + litLength sequence + matchLength sequence) in
  layout m op oend wend litPtr litLimit prefixStart virtualStart dictEnd -> seq_ok sequence ->
  op + WILDCOPY_OVERLENGTH <= litPtr -> litPtr + litLength sequence <= oend ->
  exec_spec m op oend wend litPtr litLimit prefixStart virtualStart dictEnd sequence
    (ZSTD_execSequenceSplitLitBuffer oend litLimit prefixStart virtualStart dictEnd
       (litPtr + litLength sequence - WILDCOPY_OVERLENGTH) m op sequence litPtr).
Proof. intros wend Hlay Hseq Hahead Hle. by apply execSequenceSplit_spec. Qed.

Lemma ZSTD_execSequenceSplit_lz77_witness :
  (exists m', ZSTD_execSequenceSplitLitBuffer (P := armeabi_v7a) 230 203 0 0 0 170 demo_mem 3 {| litLength := 2; matchLength := 5; offset := 4 |} 200 = Ok (7, 202, m') /\
     take 10 m' = [1; 2; 3; 65; 66; 2; 3; 65; 66; 2]) /\
  exec_spec demo_mem 3 230 202 200 203 0 0 0 {| litLength := 2; matchLength := 5; offset := 4 |}
    (ZSTD_execSequenceSplitLitBuffer (P := armeabi_v7a) 230 203 0 0 0 170 demo_mem 3 {| litLength := 2; matchLength := 5; offset := 4 |} 200).
Proof.
  split; [eexists; split; vm_compute; reflexivity|].
  apply (ZSTD_execSequenceSplit_lz77 (P := armeabi_v7a) demo_mem 3 230 200 203 0 0 0 {| litLength := 2; matchLength := 5; offset := 4 |}).
  - constructor; unfold WILDCOPY_OVERLENGTH; change (zlen demo_mem) with 263; simpl; try lia. by vm_compute.
  - unfold seq_ok; simpl; split_and!; first [lia | by vm_compute].
  - unfold WILDCOPY_OVERLENGTH. lia.
  - simpl. lia.
Defined.

(** [ZSTD_safecopyDstBeforeSrc] is not a [memmove] for every destination before the source: 49 literals that
    lie 17 bytes ahead of their destination are not copied, because the overshoot of its first stride loop has
    overwritten bytes that the loop for the leftovers still has to read. *)
Theorem ZSTD_safecopyDstBeforeSrc_clobbers :
  let m := map Z.of_nat (seq 0 100) in
  exists m' m'', ZSTD_safecopyDstBeforeSrc m 3 20 49 = Ok m' /\
    memmove m 3 20 49 = Ok m'' /\ slice m' 3 49 <> slice m'' 3 49.
Proof. eexists _, _. split; [vm_compute; reflexivity|]. split; [vm_compute; reflexivity|]. vm_compute. discriminate. Qed.
