(* ===== verification/SeqTable.v ===== *)
(** * zstd_internal.h, zstd_decompress_block.c: tables of sequence codes

    A sequence is coded as three symbols (literal length, offset, match length), each with a base
    value and additional bits.  [ZSTD_buildFSETable] builds a decoding table whose cells hold base
    and additional bits instead of the symbol; it is shown to be the table of [FSE_buildDTable] seen
    through the two arrays, and the three tables the code lists for the default distributions are
    shown to be the ones it builds. *)
From S2P Require Import Prelude Mem Errors Bits BitStream Fse FseSpread FseBuild FseState.

(** ** Constants *)

Definition MINMATCH : Z := 3.
Definition MaxML : Z := 52.
Definition MaxLL : Z := 35.
Definition DefaultMaxOff : Z := 28.
Definition MaxOff : Z := 31.
Definition MaxSeq : Z := Z.max MaxLL MaxML.
Definition MLFSELog : Z := 9.
Definition LLFSELog : Z := 9.
Definition OffFSELog : Z := 8.
Definition MaxFSELog : Z := Z.max (Z.max MLFSELog LLFSELog) OffFSELog.
Definition MaxMLBits : Z := 16.
Definition MaxLLBits : Z := 16.
Definition ZSTD_BUILD_FSE_TABLE_WKSP_SIZE : Z := 2 * (MaxSeq + 1) + Z.shiftl 1 MaxFSELog + 8.

Definition LL_bits : list Z :=
  [0; 0; 0; 0; 0; 0; 0; 0;
   0; 0; 0; 0; 0; 0; 0; 0;
   1; 1; 1; 1; 2; 2; 3; 3;
   4; 6; 7; 8; 9; 10; 11; 12;
   13; 14; 15; 16].
Definition LL_defaultNorm : list Z :=
  [4; 3; 2; 2; 2; 2; 2; 2;
   2; 2; 2; 2; 2; 1; 1; 1;
   2; 2; 2; 2; 2; 2; 2; 2;
   2; 3; 2; 1; 1; 1; 1; 1;
   -1; -1; -1; -1].
Definition LL_defaultNormLog : Z := 6.

Definition ML_bits : list Z :=
  [0; 0; 0; 0; 0; 0; 0; 0;
   0; 0; 0; 0; 0; 0; 0; 0;
   0; 0; 0; 0; 0; 0; 0; 0;
   0; 0; 0; 0; 0; 0; 0; 0;
   1; 1; 1; 1; 2; 2; 3; 3;
   4; 4; 5; 7; 8; 9; 10; 11;
   12; 13; 14; 15; 16].
Definition ML_defaultNorm : list Z :=
  [1; 4; 3; 2; 2; 2; 2; 2;
   2; 1; 1; 1; 1; 1; 1; 1;
   1; 1; 1; 1; 1; 1; 1; 1;
   1; 1; 1; 1; 1; 1; 1; 1;
   1; 1; 1; 1; 1; 1; 1; 1;
   1; 1; 1; 1; 1; 1; -1; -1;
   -1; -1; -1; -1; -1].
Definition ML_defaultNormLog : Z := 6.

Definition OF_defaultNorm : list Z :=
  [1; 1; 1; 1; 1; 1; 2; 2;
   2; 1; 1; 1; 1; 1; 1; 1;
   1; 1; 1; 1; 1; 1; 1; 1;
   -1; -1; -1; -1; -1].
Definition OF_defaultNormLog : Z := 5.

Definition LL_base : list Z :=
  [0; 1; 2; 3; 4; 5; 6; 7;
   8; 9; 10; 11; 12; 13; 14; 15;
   16; 18; 20; 22; 24; 28; 32; 40;
   48; 64; 0x80; 0x100; 0x200; 0x400; 0x800; 0x1000;
   0x2000; 0x4000; 0x8000; 0x10000].

Definition OF_base : list Z :=
  [0; 1; 1; 5; 0xD; 0x1D; 0x3D; 0x7D;
   0xFD; 0x1FD; 0x3FD; 0x7FD; 0xFFD; 0x1FFD; 0x3FFD; 0x7FFD;
   0xFFFD; 0x1FFFD; 0x3FFFD; 0x7FFFD; 0xFFFFD; 0x1FFFFD; 0x3FFFFD; 0x7FFFFD;
   0xFFFFFD; 0x1FFFFFD; 0x3FFFFFD; 0x7FFFFFD; 0xFFFFFFD; 0x1FFFFFFD; 0x3FFFFFFD; 0x7FFFFFFD].

Definition OF_bits : list Z :=
  [0; 1; 2; 3; 4; 5; 6; 7;
   8; 9; 10; 11; 12; 13; 14; 15;
   16; 17; 18; 19; 20; 21; 22; 23;
   24; 25; 26; 27; 28; 29; 30; 31].

Definition ML_base : list Z :=
  [3; 4; 5; 6; 7; 8; 9; 10;
   11; 12; 13; 14; 15; 16; 17; 18;
   19; 20; 21; 22; 23; 24; 25; 26;
   27; 28; 29; 30; 31; 32; 33; 34;
   35; 37; 39; 41; 43; 47; 51; 59;
   67; 83; 99; 0x83; 0x103; 0x203; 0x403; 0x803;
   0x1003; 0x2003; 0x4003; 0x8003; 0x10003].

(** ** The decoding table *)

Record ZSTD_seqSymbol := { nextState : Z; nbAdditionalBits : Z; sq_nbBits : Z; baseValue : Z }.

#[export] Instance ZSTD_seqSymbol_eq_dec : EqDecision ZSTD_seqSymbol.
Proof. solve_decision. Defined.

(** The [ZSTD_seqSymbol_header] and the cells behind it. *)
Record SeqTable := { st_fastMode : Z; st_tableLog : Z; st_cells : list ZSTD_seqSymbol }.

#[export] Instance SeqTable_eq_dec : EqDecision SeqTable.
Proof. solve_decision. Defined.

Section Definitions.
Context `{P : Platform}.

(** [tableDecode[i].baseValue = s] *)
Definition put_base (tableDecode : list ZSTD_seqSymbol) (i s : Z) : res (list ZSTD_seqSymbol) :=
  let* c := aget tableDecode i in
  aset tableDecode i {| nextState := nextState c; nbAdditionalBits := nbAdditionalBits c; sq_nbBits := sq_nbBits c; baseValue := s |}.

(** Counters and low-probability symbols: ([tableDecode], [symbolNext], [highThreshold], [fastMode]). *)
Definition seq_lowprob (normalizedCounter : list Z) (tableLog s : Z)
    (st : list ZSTD_seqSymbol * list Z * Z * Z) : res (list ZSTD_seqSymbol * list Z * Z * Z) :=
  let largeLimit := s16 (Z.shiftl 1 (tableLog - 1)) in
  let* n := aget normalizedCounter s in
  let '(tableDecode, symbolNext, highThreshold, fastMode) := st in
  if n =? -1 then
    let* tableDecode := put_base tableDecode highThreshold s in
    let* symbolNext := aset symbolNext s 1 in
    Ok (tableDecode, symbolNext, u32 (highThreshold - 1), fastMode)
  else
    let fastMode := if largeLimit <=? n then 0 else fastMode in
    oassert (0 <=? n) ;;;
    let* symbolNext := aset symbolNext s (u16 n) in
    Ok (tableDecode, symbolNext, highThreshold, fastMode).

(** One cell of the table: ([tableDecode], [symbolNext]). *)
Definition seq_cell (baseValues additionalBits : list Z) (tableLog u : Z) (st : list ZSTD_seqSymbol * list Z)
  : res (list ZSTD_seqSymbol * list Z) :=
  let '(tableDecode, symbolNext) := st in
  let tableSize := Z.shiftl 1 tableLog in
  let* c := aget tableDecode u in
  let sym := baseValue c in
  let* next := aget symbolNext sym in
  let* symbolNext := aset symbolNext sym (u16 (next + 1)) in
  let* hb := ZSTD_highbit32 next in
  let nb := u8 (tableLog - hb) in
  let* add := aget additionalBits sym in
  oassert (add <? 255) ;;;
  let* base := aget baseValues sym in
  let* tableDecode := aset tableDecode u
    {| nextState := u16 (u32 (u32 (Z.shiftl next nb) - tableSize)); nbAdditionalBits := add; sq_nbBits := nb; baseValue := base |} in
  Ok (tableDecode, symbolNext).

Definition ZSTD_buildFSETable_body (dt : SeqTable) (normalizedCounter : list Z) (maxSymbolValue : Z)
    (baseValues additionalBits : list Z) (tableLog : Z) (wksp : list Z) : res SeqTable :=
  let maxSV1 := maxSymbolValue + 1 in
  let tableSize := Z.shiftl 1 tableLog in
  let symbolNext := replicate (Z.to_nat maxSV1) 0 in
  let spread := drop (Z.to_nat (2 * (MaxSeq + 1))) wksp in
  let highThreshold := tableSize - 1 in
  oassert (maxSymbolValue <=? MaxSeq) ;;;
  oassert (tableLog <=? MaxFSELog) ;;;
  oassert (ZSTD_BUILD_FSE_TABLE_WKSP_SIZE <=? zlen wksp) ;;;
  let* tableDecode := asub (st_cells dt) 0 tableSize in
  let* (tableDecode, symbolNext, highThreshold, fastMode) :=
    for_range 0 maxSV1 (seq_lowprob normalizedCounter tableLog) (tableDecode, symbolNext, highThreshold, 1) in
  oassert (tableSize <=? 512) ;;;
  let* tableDecode :=
    if highThreshold =? tableSize - 1 then
      let* spread := lay_down normalizedCounter maxSV1 spread in
      walk_unrolled put_base spread tableSize tableDecode
    else
      let* (tableDecode, position) :=
        walk_lowprob put_base normalizedCounter maxSV1 tableSize highThreshold tableDecode in
      oassert (position =? 0) ;;;
      Ok tableDecode in
  let* (tableDecode, _) := for_range 0 tableSize (seq_cell baseValues additionalBits tableLog) (tableDecode, symbolNext) in
  Ok {| st_fastMode := fastMode; st_tableLog := tableLog; st_cells := splice (st_cells dt) 0 tableDecode |}.

Definition ZSTD_buildFSETable := ZSTD_buildFSETable_body.

Definition ZSTD_buildSeqTable_rle (dt : SeqTable) (base nbAddBits : Z) : res SeqTable :=
  oassert (nbAddBits <? 255) ;;;
  let* cells := aset (st_cells dt) 0 {| nextState := 0; nbAdditionalBits := nbAddBits; sq_nbBits := 0; baseValue := base |} in
  Ok {| st_fastMode := 0; st_tableLog := 0; st_cells := cells |}.
End Definitions.

(** ** The tables listed for the default distributions *)

(** The first two fields of the first entry, read as the header's [fastMode]; nothing reads it. *)
Definition default_fastMode `{P : Platform} : Z := if MEM_isLittleEndian then 0x01010001 else 0x00010101.

(** A cell as the listings give it: next state, additional bits, bits, base value. *)
Definition seqSymbol (next add nb base : Z) : ZSTD_seqSymbol :=
  {| nextState := next; nbAdditionalBits := add; sq_nbBits := nb; baseValue := base |}.

Definition LL_defaultDTable `{P : Platform} : SeqTable := {| st_fastMode := default_fastMode; st_tableLog := LL_defaultNormLog; st_cells :=
  [seqSymbol 0 0 4 0; seqSymbol 16 0 4 0; seqSymbol 32 0 5 1; seqSymbol 0 0 5 3;
   seqSymbol 0 0 5 4; seqSymbol 0 0 5 6; seqSymbol 0 0 5 7; seqSymbol 0 0 5 9;
   seqSymbol 0 0 5 10; seqSymbol 0 0 5 12; seqSymbol 0 0 6 14; seqSymbol 0 1 5 16;
   seqSymbol 0 1 5 20; seqSymbol 0 1 5 22; seqSymbol 0 2 5 28; seqSymbol 0 3 5 32;
   seqSymbol 0 4 5 48; seqSymbol 32 6 5 64; seqSymbol 0 7 5 128; seqSymbol 0 8 6 256;
   seqSymbol 0 10 6 1024; seqSymbol 0 12 6 4096; seqSymbol 32 0 4 0; seqSymbol 0 0 4 1;
   seqSymbol 0 0 5 2; seqSymbol 32 0 5 4; seqSymbol 0 0 5 5; seqSymbol 32 0 5 7;
   seqSymbol 0 0 5 8; seqSymbol 32 0 5 10; seqSymbol 0 0 5 11; seqSymbol 0 0 6 13;
   seqSymbol 32 1 5 16; seqSymbol 0 1 5 18; seqSymbol 32 1 5 22; seqSymbol 0 2 5 24;
   seqSymbol 32 3 5 32; seqSymbol 0 3 5 40; seqSymbol 0 6 4 64; seqSymbol 16 6 4 64;
   seqSymbol 32 7 5 128; seqSymbol 0 9 6 512; seqSymbol 0 11 6 2048; seqSymbol 48 0 4 0;
   seqSymbol 16 0 4 1; seqSymbol 32 0 5 2; seqSymbol 32 0 5 3; seqSymbol 32 0 5 5;
   seqSymbol 32 0 5 6; seqSymbol 32 0 5 8; seqSymbol 32 0 5 9; seqSymbol 32 0 5 11;
   seqSymbol 32 0 5 12; seqSymbol 0 0 6 15; seqSymbol 32 1 5 18; seqSymbol 32 1 5 20;
   seqSymbol 32 2 5 24; seqSymbol 32 2 5 28; seqSymbol 32 3 5 40; seqSymbol 32 4 5 48;
   seqSymbol 0 16 6 65536; seqSymbol 0 15 6 32768; seqSymbol 0 14 6 16384; seqSymbol 0 13 6 8192] |}.

Definition OF_defaultDTable `{P : Platform} : SeqTable := {| st_fastMode := default_fastMode; st_tableLog := OF_defaultNormLog; st_cells :=
  [seqSymbol 0 0 5 0; seqSymbol 0 6 4 61; seqSymbol 0 9 5 509; seqSymbol 0 15 5 32765;
   seqSymbol 0 21 5 2097149; seqSymbol 0 3 5 5; seqSymbol 0 7 4 125; seqSymbol 0 12 5 4093;
   seqSymbol 0 18 5 262141; seqSymbol 0 23 5 8388605; seqSymbol 0 5 5 29; seqSymbol 0 8 4 253;
   seqSymbol 0 14 5 16381; seqSymbol 0 20 5 1048573; seqSymbol 0 2 5 1; seqSymbol 16 7 4 125;
   seqSymbol 0 11 5 2045; seqSymbol 0 17 5 131069; seqSymbol 0 22 5 4194301; seqSymbol 0 4 5 13;
   seqSymbol 16 8 4 253; seqSymbol 0 13 5 8189; seqSymbol 0 19 5 524285; seqSymbol 0 1 5 1;
   seqSymbol 16 6 4 61; seqSymbol 0 10 5 1021; seqSymbol 0 16 5 65533; seqSymbol 0 28 5 268435453;
   seqSymbol 0 27 5 134217725; seqSymbol 0 26 5 67108861; seqSymbol 0 25 5 33554429; seqSymbol 0 24 5 16777213] |}.

Definition ML_defaultDTable `{P : Platform} : SeqTable := {| st_fastMode := default_fastMode; st_tableLog := ML_defaultNormLog; st_cells :=
  [seqSymbol 0 0 6 3; seqSymbol 0 0 4 4; seqSymbol 32 0 5 5; seqSymbol 0 0 5 6;
   seqSymbol 0 0 5 8; seqSymbol 0 0 5 9; seqSymbol 0 0 5 11; seqSymbol 0 0 6 13;
   seqSymbol 0 0 6 16; seqSymbol 0 0 6 19; seqSymbol 0 0 6 22; seqSymbol 0 0 6 25;
   seqSymbol 0 0 6 28; seqSymbol 0 0 6 31; seqSymbol 0 0 6 34; seqSymbol 0 1 6 37;
   seqSymbol 0 1 6 41; seqSymbol 0 2 6 47; seqSymbol 0 3 6 59; seqSymbol 0 4 6 83;
   seqSymbol 0 7 6 131; seqSymbol 0 9 6 515; seqSymbol 16 0 4 4; seqSymbol 0 0 4 5;
   seqSymbol 32 0 5 6; seqSymbol 0 0 5 7; seqSymbol 32 0 5 9; seqSymbol 0 0 5 10;
   seqSymbol 0 0 6 12; seqSymbol 0 0 6 15; seqSymbol 0 0 6 18; seqSymbol 0 0 6 21;
   seqSymbol 0 0 6 24; seqSymbol 0 0 6 27; seqSymbol 0 0 6 30; seqSymbol 0 0 6 33;
   seqSymbol 0 1 6 35; seqSymbol 0 1 6 39; seqSymbol 0 2 6 43; seqSymbol 0 3 6 51;
   seqSymbol 0 4 6 67; seqSymbol 0 5 6 99; seqSymbol 0 8 6 259; seqSymbol 32 0 4 4;
   seqSymbol 48 0 4 4; seqSymbol 16 0 4 5; seqSymbol 32 0 5 7; seqSymbol 32 0 5 8;
   seqSymbol 32 0 5 10; seqSymbol 32 0 5 11; seqSymbol 0 0 6 14; seqSymbol 0 0 6 17;
   seqSymbol 0 0 6 20; seqSymbol 0 0 6 23; seqSymbol 0 0 6 26; seqSymbol 0 0 6 29;
   seqSymbol 0 0 6 32; seqSymbol 0 16 6 65539; seqSymbol 0 15 6 32771; seqSymbol 0 14 6 16387;
   seqSymbol 0 13 6 8195; seqSymbol 0 12 6 4099; seqSymbol 0 11 6 2051; seqSymbol 0 10 6 1027] |}.

(** ** What [ZSTD_buildFSETable] builds *)

(** The cell of [FSE_buildDTable] with its symbol looked up in the two arrays. *)
Definition seq_of (baseValues additionalBits : list Z) (c : FSE_decode_t) : ZSTD_seqSymbol :=
  {| nextState := newState c; nbAdditionalBits := nth (Z.to_nat (symbol c)) additionalBits 0; sq_nbBits := nbBits c;
     baseValue := nth (Z.to_nat (symbol c)) baseValues 0 |}.

Lemma aget_nth (l : list Z) i : 0 <= i < zlen l -> aget l i = (Ok (nth (Z.to_nat i) l 0) : res Z).
Proof.
  intros Hi. destruct (lookup_lt_is_Some_2 l (Z.to_nat i)) as [x Hx]; [unfold zlen in *; lia|].
  rewrite (nth_lookup_Some l _ 0 x Hx). apply aget_Ok. split; [lia|done].
Qed.

Section Build.
Context `{P : Platform} (norm : list Z) (k : Z) (counter baseValues additionalBits : list Z).
Hypothesis Hnorm : norm_ok norm k.
Hypothesis Hpre : norm `prefix_of` counter.
Hypothesis Hk : k <= MaxFSELog.
Hypothesis Hmax : zlen norm <= MaxSeq + 1.
Hypothesis Hbase : zlen norm <= zlen baseValues.
Hypothesis Hbits : zlen norm <= zlen additionalBits.
Hypothesis Hadd : Forall (fun b => b < 255) additionalBits.

Lemma put_base_spec (table : list ZSTD_seqSymbol) i s : 0 <= i < zlen table ->
  exists table', put_base table i s = Ok table' /\ map baseValue table' = <[Z.to_nat i := s]> (map baseValue table).
Proof.
  intros Hi. unfold put_base. destruct (lookup_lt_is_Some_2 table (Z.to_nat i)) as [c Hc]; [unfold zlen in *; lia|].
  assert (aget table i = (Ok c : res ZSTD_seqSymbol)) as -> by (apply aget_Ok; split; [lia|done]).
  cbn [obind]. rewrite aset_Ok by done. eexists; split; [reflexivity|]. by rewrite (list_fmap_insert baseValue).
Qed.

Definition seq_low_inv (table0 : list ZSTD_seqSymbol) (j : Z) (st : list ZSTD_seqSymbol * list Z * Z * Z) : Prop :=
  let '(table, symbolNext, high, fast) := st in
  let lw := lows 0 (take (Z.to_nat j) norm) in
  map baseValue table = write_all (map baseValue table0) (zip (top_cells k (length lw)) lw) /\
  zlen symbolNext = zlen norm /\
  (forall i n, Z.of_nat i < j -> norm !! i = Some n -> symbolNext !! i = Some (occ n)) /\
  high = u32 (2 ^ k - 1 - zlen lw) /\ fast = fast_of k (take (Z.to_nat j) norm).

Lemma k_range : 5 <= k <= 9.
Proof. destruct Hnorm. unfold MaxFSELog, MLFSELog, LLFSELog, OffFSELog in Hk. lia. Qed.

Lemma seq_lowprob_step table0 j st :
  zlen table0 = 2 ^ k -> 0 <= j < zlen norm -> seq_low_inv table0 j st ->
  exists st', seq_lowprob counter k j st = Ok st' /\ seq_low_inv table0 (j + 1) st'.
Proof.
  intros Ht0 Hj. destruct st as [[[table symbolNext] high] fast]. intros (Hv & Hz & Hsn & Hh & Hf).
  destruct (norm_lookup norm k counter Hnorm Hpre j Hj) as (n & Hn & Hget & Hge & Hocc). pose proof (pow_k_bound norm k Hnorm) as Hb. pose proof k_range as Hkr.
  destruct (take_snoc_norm norm j n ltac:(lia) Hn) as [Hs Hzt].
  unfold seq_lowprob. rewrite Hget. cbn [obind].
  assert (0 < 2 ^ (k - 1)) by (apply pow2_pos; lia). assert (2 ^ (k - 1) <= 2 ^ 8) by (apply Z.pow_le_mono_r; lia).
  assert (s16 (Z.shiftl 1 (k - 1)) = 2 ^ (k - 1)) as ->.
  { rewrite Z.shiftl_mul_pow2, Z.mul_1_l by lia. apply sgn_small; lia. }
  assert (forall v, v = occ n -> forall i m, Z.of_nat i < j + 1 -> norm !! i = Some m ->
            <[Z.to_nat j := v]> symbolNext !! i = Some (occ m)) as Hsn'.
  { intros v -> i m Hi Hm. destruct (decide (i = Z.to_nat j)) as [->|Hne].
    - rewrite list_lookup_insert_eq by (unfold zlen in *; lia). congruence.
    - rewrite list_lookup_insert_ne by done. apply Hsn; [lia|done]. }
  assert (fast_of k (take (Z.to_nat (j + 1)) norm) = if 2 ^ (k - 1) <=? n then 0 else fast) as Hfast.
  { rewrite Hs, Hf. unfold fast_of. rewrite forallb_app. simpl.
    destruct (forallb _ _); simpl; zcases; try done; lia. }
  destruct (Z.eqb_spec n (-1)) as [->|Hne].
  - destruct (low_write norm k Hnorm baseValue put_base table0 table j (-1) put_base_spec Ht0 ltac:(lia) Hn eq_refl Hv)
      as (Hu & Hl' & t' & Ht' & Hv').
    rewrite (wrap_small 8) in Ht' by (destruct Hnorm as (_ & ? & _); lia).
    rewrite Hh, Hu, Ht'. cbn [obind]. rewrite aset_Ok by lia. cbn [obind].
    eexists; split; [reflexivity|]. split; [done|]. split; [by rewrite zlen_insert|].
    split; [by apply Hsn'|]. split; [f_equal; lia|]. rewrite Hfast. zcases; [lia|done].
  - rewrite (proj2 (Z.leb_le 0 n)) by lia. cbn [oassert obind].
    rewrite aset_Ok by lia. cbn [obind]. unfold occ in *. rewrite (proj2 (Z.eqb_neq _ _)) in * by done.
    rewrite (wrap_small 16) by lia. eexists; split; [reflexivity|].
    assert (lows 0 (take (Z.to_nat (j + 1)) norm) = lows 0 (take (Z.to_nat j) norm)) as Hlw.
    { rewrite Hs, lows_snoc, (proj2 (Z.eqb_neq _ _)), app_nil_r by done. done. }
    unfold seq_low_inv. rewrite Hlw. split; [done|]. split; [by rewrite zlen_insert|].
    split; [by apply Hsn'|]. split; [done|]. by rewrite Hfast.
Qed.

Definition seq_cell_inv (syms : list Z) (u : Z) (st : list ZSTD_seqSymbol * list Z) : Prop :=
  let '(table, symbolNext) := st in
  zlen table = 2 ^ k /\ zlen symbolNext = zlen norm /\
  (forall i, Z.of_nat i < u -> table !! i = seq_of baseValues additionalBits <$> dtable_ref norm k syms !! i) /\
  (forall i, u <= Z.of_nat i -> baseValue <$> table !! i = syms !! i) /\
  (forall s, 0 <= s < zlen norm ->
     symbolNext !! Z.to_nat s = Some (freq norm s + count_sym s (take (Z.to_nat u) syms))).

Lemma seq_cell_step syms u st :
  spread_ok norm k syms -> 0 <= u < 2 ^ k -> seq_cell_inv syms u st ->
  exists st', seq_cell baseValues additionalBits k u st = Ok st' /\ seq_cell_inv syms (u + 1) st'.
Proof.
  intros Hsy Hu. destruct st as [table symbolNext]. intros (Ht & Hz & Hdone & Htodo & Hcnt).
  pose proof (pow_k_bound norm k Hnorm) as Hb. pose proof k_range as Hkr.
  assert (2 ^ k <= 2 ^ 12) by (apply Z.pow_le_mono_r; lia).
  destruct (lookup_lt_is_Some_2 syms (Z.to_nat u)) as [s Hs]; [destruct Hsy as [Hsz _]; unfold zlen in *; lia|].
  destruct (lookup_lt_is_Some_2 table (Z.to_nat u)) as [c Hc]; [unfold zlen in *; lia|].
  assert (baseValue c = s) as Hsc.
  { specialize (Htodo (Z.to_nat u) ltac:(lia)). rewrite Hc, Hs in Htodo. simpl in Htodo. congruence. }
  pose proof (sym_range norm k syms Hnorm Hsy _ s Hs) as Hsr.
  pose proof (sub_state_range norm k syms Hnorm Hsy _ s Hs) as [Hxr Hf].
  pose proof (freq_range norm k Hnorm s) as Hfr. fold (sub_state norm syms (Z.to_nat u) s) in Hcnt.
  set (x := sub_state norm syms (Z.to_nat u) s) in *.
  destruct (log2_state norm k Hnorm x) as (Hlg & Hlo & Hhi); [lia|].
  assert (0 < 2 ^ (k - Z.log2 x)) by (apply pow2_pos; lia).
  unfold seq_cell. assert (aget table u = (Ok c : res ZSTD_seqSymbol)) as -> by (apply aget_Ok; split; [lia|done]).
  cbn [obind]. rewrite Hsc.
  assert (aget symbolNext s = (Ok x : res Z)) as -> by (apply aget_Ok; split; [lia|by apply Hcnt]).
  cbn [obind]. rewrite aset_Ok by lia. cbn [obind]. rewrite highbit32_val by lia. cbn [obind].
  rewrite (aget_nth additionalBits) by lia. cbn [obind].
  assert (nth (Z.to_nat s) additionalBits 0 < 255) as Hlt.
  { destruct (lookup_lt_is_Some_2 additionalBits (Z.to_nat s)) as [b Hbt]; [unfold zlen in *; lia|].
    rewrite (nth_lookup_Some _ _ 0 b Hbt). by apply (proj1 (Forall_lookup _ _) Hadd _ _ Hbt). }
  rewrite (proj2 (Z.ltb_lt _ 255) Hlt). cbn [oassert obind]. rewrite (aget_nth baseValues) by lia. cbn [obind].
  rewrite (wrap_small 8) by lia. rewrite aset_Ok by lia. cbn [obind].
  rewrite !Z.shiftl_mul_pow2, Z.mul_1_l by lia. rewrite (wrap_small 32 (x * _)) by lia.
  rewrite (wrap_small 32), (wrap_small 16 (x + 1)), (wrap_small 16) by lia. eexists; split; [reflexivity|].
  unfold seq_cell_inv. split; [by rewrite zlen_insert|]. split; [by rewrite zlen_insert|].
  replace (Z.to_nat (u + 1)) with (S (Z.to_nat u)) by lia. rewrite (take_S_r syms _ s) by done.
  split; [|split].
  - intros i Hi. destruct (decide (i = Z.to_nat u)) as [->|Hne].
    + rewrite list_lookup_insert_eq by (unfold zlen in *; lia).
      unfold dtable_ref. rewrite list_lookup_imap, Hs. done.
    + rewrite list_lookup_insert_ne by done. apply Hdone. lia.
  - intros i Hi. rewrite list_lookup_insert_ne by lia. apply Htodo. lia.
  - intros s' Hs'. rewrite count_sym_app, count_sym_cons. change (count_sym s' []) with 0.
    destruct (decide (s = s')) as [->|Hne].
    + rewrite list_lookup_insert_eq by (unfold zlen in *; lia). f_equal. unfold x, sub_state. lia.
    + rewrite list_lookup_insert_ne by lia. rewrite Hcnt by done. f_equal. lia.
Qed.

(** On admissible counts [ZSTD_buildFSETable] fails no assertion and builds the reference table. *)
Lemma buildFSETable_spec dt wksp :
  2 ^ k <= zlen (st_cells dt) -> ZSTD_BUILD_FSE_TABLE_WKSP_SIZE <= zlen wksp ->
  exists syms, spread_ok norm k syms /\
    ZSTD_buildFSETable dt counter (zlen norm - 1) baseValues additionalBits k wksp =
    Ok {| st_fastMode := fast_of k norm; st_tableLog := k;
          st_cells := splice (st_cells dt) 0 (seq_of baseValues additionalBits <$> dtable_ref norm k syms) |}.
Proof.
  intros Hdt Hw. pose proof (pow_k_bound norm k Hnorm) as Hb. pose proof k_range as Hkr. pose proof Hnorm as (_ & Hl & _).
  assert (2 ^ k <= 2 ^ 9) as Hk9 by (apply Z.pow_le_mono_r; lia).
  assert (Z.shiftl 1 k = 2 ^ k) as Hsh by (rewrite Z.shiftl_mul_pow2 by lia; lia).
  unfold ZSTD_buildFSETable, ZSTD_buildFSETable_body. rewrite Hsh.
  rewrite (proj2 (Z.leb_le (zlen norm - 1) _)), (proj2 (Z.leb_le k _)), (proj2 (Z.leb_le _ (zlen wksp))) by (done || lia). cbn [oassert obind].
  replace (zlen norm - 1 + 1) with (zlen norm) in * by lia. rewrite asub_Ok by lia. cbn [obind].
  set (t0 := slice (st_cells dt) 0 (2 ^ k)). assert (zlen t0 = 2 ^ k) as Ht0 by (apply zlen_slice; lia).
  destruct (wp_exists (for_range 0 (zlen norm) (seq_lowprob counter k)
      (t0, replicate (Z.to_nat (zlen norm)) 0, 2 ^ k - 1, 1)) (seq_low_inv t0 (zlen norm)))
    as ([[[t1 sn] hi] fast] & -> & Hv & Hz & Hsn & -> & ->).
  { apply wp_for_range; [lia| |].
    - unfold seq_low_inv. simpl take. cbn [lows length top_cells zip]. split; [done|].
      split; [rewrite zlen_replicate; lia|]. split; [intros; lia|]. split; [|done].
      change (zlen (lows 0 (take (Z.to_nat 0) norm))) with 0. rewrite wrap_small by lia. lia.
    - intros j st Hj Hi. destruct (seq_lowprob_step t0 j st) as (st' & -> & Hi'); done. }
  cbn [obind]. rewrite take_ge in * by (unfold zlen; lia). rewrite (proj2 (Z.leb_le (2 ^ k) 512)) by lia. cbn [oassert obind].
  destruct (spread_placed norm k counter Hnorm Hpre baseValue put_base (fun p => oassert (p =? 0))
      (drop (Z.to_nat (2 * (MaxSeq + 1))) wksp) t0 t1) as (t2 & -> & Hsy); try done.
  { apply put_base_spec. }
  { unfold ZSTD_BUILD_FSE_TABLE_WKSP_SIZE in Hw. change (Z.shiftl 1 MaxFSELog) with (2 ^ 9) in Hw. unfold zlen in *. rewrite length_drop. lia. }
  cbn [obind]. exists (map baseValue t2). split; [done|].
  destruct (wp_exists (for_range 0 (2 ^ k) (seq_cell baseValues additionalBits k) (t2, sn)) (seq_cell_inv (map baseValue t2) (2 ^ k)))
    as ([t3 sn3] & -> & Ht3 & _ & Hdone & _).
  { apply wp_for_range; [lia| |].
    - pose proof Hsy as [Hz2 _]. unfold seq_cell_inv. split; [unfold zlen in *; rewrite length_map in Hz2; lia|].
      split; [done|]. split; [intros; lia|]. split; [intros i _; by rewrite list_lookup_fmap|].
      intros s Hs. simpl. change (count_sym s []) with 0. rewrite Z.add_0_r.
      destruct (norm_lookup norm k counter Hnorm Hpre s Hs) as (n & Hn & _). rewrite (Hsn _ n) by (done || lia).
      f_equal. rewrite <- (freq_lookup norm _ n Hn). f_equal. lia.
    - intros u st Hu Hi. destruct (seq_cell_step (map baseValue t2) u st) as (st' & -> & Hi'); done. }
  cbn [obind]. do 3 f_equal. apply (list_eq_same_length _ _ (Z.to_nat (2 ^ k))).
  - rewrite length_fmap. unfold dtable_ref. rewrite length_imap. destruct Hsy as [Hz2 _]. unfold zlen in *. lia.
  - unfold zlen in *. lia.
  - intros i x y Hi Hx Hy. specialize (Hdone i ltac:(lia)). rewrite list_lookup_fmap in Hy. congruence.
Qed.
End Build.

(** *** The default tables *)

Definition blank : ZSTD_seqSymbol := seqSymbol 0 0 0 0.
Definition blank_table (k : Z) : SeqTable := {| st_fastMode := 0; st_tableLog := 0; st_cells := replicate (Z.to_nat (2 ^ k)) blank |}.
Definition blank_wksp : list Z := replicate (Z.to_nat ZSTD_BUILD_FSE_TABLE_WKSP_SIZE) 0.

(** Building in one storage decides what is built in any. *)
Lemma build_anywhere `{P : Platform} norm m k baseValues additionalBits cells fast dt wksp :
  m = zlen norm - 1 -> norm_ok norm k -> k <= MaxFSELog -> zlen norm <= MaxSeq + 1 -> zlen norm <= zlen baseValues -> zlen norm <= zlen additionalBits ->
  Forall (fun b => b < 255) additionalBits ->
  ZSTD_buildFSETable (blank_table k) norm m baseValues additionalBits k blank_wksp
    = Ok {| st_fastMode := fast; st_tableLog := k; st_cells := cells |} ->
  2 ^ k <= zlen (st_cells dt) -> ZSTD_BUILD_FSE_TABLE_WKSP_SIZE <= zlen wksp ->
  exists syms, spread_ok norm k syms /\ (seq_of baseValues additionalBits <$> dtable_ref norm k syms) = cells /\
    ZSTD_buildFSETable dt norm m baseValues additionalBits k wksp
      = Ok {| st_fastMode := fast; st_tableLog := k; st_cells := splice (st_cells dt) 0 cells |}.
Proof.
  intros -> Hn Hk Hm Hb Ha Hf Hrun Hdt Hw. assert (0 <= k) by (destruct Hn; lia). assert (0 < 2 ^ k) by (apply pow2_pos; lia).
  destruct (buildFSETable_spec norm k norm baseValues additionalBits Hn ltac:(done) Hk Hm Hb Ha Hf (blank_table k) blank_wksp) as (syms & Hsy & H1).
  { cbn [st_cells blank_table]. rewrite zlen_replicate. lia. }
  { done. }
  destruct (buildFSETable_spec norm k norm baseValues additionalBits Hn ltac:(done) Hk Hm Hb Ha Hf dt wksp Hdt Hw) as (syms' & Hsy' & ->).
  rewrite <- (spread_unique norm k syms syms' Hn Hsy Hsy'). exists syms. split; [done|].
  rewrite Hrun in H1. injection H1 as Hfast Hcells.
  assert ((seq_of baseValues additionalBits <$> dtable_ref norm k syms) = cells) as <-; [|by rewrite Hfast].
  rewrite Hcells. unfold splice. cbn [take st_cells blank_table Z.to_nat app].
  rewrite drop_ge, app_nil_r; [done|]. rewrite length_replicate. unfold zlen.
  rewrite length_fmap. unfold dtable_ref. rewrite length_imap. destruct Hsy as [Hz _]. unfold zlen in Hz. lia.
Qed.

Lemma norm_ok_check norm k :
  ((5 <=? k) && (k <=? 15) && (0 <? zlen norm) && (zlen norm <=? 256) && forallb (fun n => -1 <=? n) norm && (total norm =? 2 ^ k)) = true -> norm_ok norm k.
Proof.
  intros H. rewrite !andb_true_iff in H. destruct H as (((((H1 & H2) & H3) & H4) & H5) & H6). split; [lia|]. split; [lia|]. split; [|lia].
  apply Forall_forall. intros n Hn%list_elem_of_In. rewrite List.forallb_forall in H5. specialize (H5 n Hn). lia.
Qed.

Lemma bits_check l : forallb (fun b => b <? 255) l = true -> Forall (fun b => b < 255) l.
Proof. intros H. apply Forall_forall. intros n Hn%list_elem_of_In. rewrite List.forallb_forall in H. specialize (H n Hn). lia. Qed.

(** The three builds, evaluated. *)
Lemma default_builds `{P : Platform} :
  ZSTD_buildFSETable (blank_table LL_defaultNormLog) LL_defaultNorm MaxLL LL_base LL_bits LL_defaultNormLog blank_wksp
    = Ok {| st_fastMode := 1; st_tableLog := LL_defaultNormLog; st_cells := st_cells LL_defaultDTable |} /\
  ZSTD_buildFSETable (blank_table OF_defaultNormLog) OF_defaultNorm DefaultMaxOff OF_base OF_bits OF_defaultNormLog blank_wksp
    = Ok {| st_fastMode := 1; st_tableLog := OF_defaultNormLog; st_cells := st_cells OF_defaultDTable |} /\
  ZSTD_buildFSETable (blank_table ML_defaultNormLog) ML_defaultNorm MaxML ML_base ML_bits ML_defaultNormLog blank_wksp
    = Ok {| st_fastMode := 1; st_tableLog := ML_defaultNormLog; st_cells := st_cells ML_defaultDTable |}.
Proof. destruct P as [[] [] []]; vm_compute; done. Qed.

Lemma default_norms : norm_ok LL_defaultNorm LL_defaultNormLog /\ norm_ok OF_defaultNorm OF_defaultNormLog /\ norm_ok ML_defaultNorm ML_defaultNormLog.
Proof. split; [|split]; apply norm_ok_check; by vm_compute. Qed.

Lemma code_bits : Forall (fun b => b < 255) LL_bits /\ Forall (fun b => b < 255) OF_bits /\ Forall (fun b => b < 255) ML_bits.
Proof. split; [|split]; apply bits_check; by vm_compute. Qed.

(** The three decoding tables the code lists for the default distributions of literal lengths, offsets and match lengths are exactly the ones
    [ZSTD_buildFSETable] builds from those distributions, in any storage and workspace large enough and on every platform. *)
Theorem ZSTD_default_tables `{P : Platform} dt wksp :
  64 <= zlen (st_cells dt) -> ZSTD_BUILD_FSE_TABLE_WKSP_SIZE <= zlen wksp ->
  ZSTD_buildFSETable dt LL_defaultNorm MaxLL LL_base LL_bits LL_defaultNormLog wksp
    = Ok {| st_fastMode := 1; st_tableLog := st_tableLog LL_defaultDTable; st_cells := splice (st_cells dt) 0 (st_cells LL_defaultDTable) |} /\
  ZSTD_buildFSETable dt OF_defaultNorm DefaultMaxOff OF_base OF_bits OF_defaultNormLog wksp
    = Ok {| st_fastMode := 1; st_tableLog := st_tableLog OF_defaultDTable; st_cells := splice (st_cells dt) 0 (st_cells OF_defaultDTable) |} /\
  ZSTD_buildFSETable dt ML_defaultNorm MaxML ML_base ML_bits ML_defaultNormLog wksp
    = Ok {| st_fastMode := 1; st_tableLog := st_tableLog ML_defaultDTable; st_cells := splice (st_cells dt) 0 (st_cells ML_defaultDTable) |}.
Proof.
  intros Hdt Hw. destruct default_builds as (H1 & H2 & H3), default_norms as (N1 & N2 & N3), code_bits as (B1 & B2 & B3).
  split; [|split].
  - destruct (build_anywhere LL_defaultNorm MaxLL LL_defaultNormLog LL_base LL_bits (st_cells LL_defaultDTable) 1 dt wksp) as (syms & _ & _ & H);
      [reflexivity|exact N1|by vm_compute..|exact B1|exact H1|exact Hdt|exact Hw|exact H].
  - destruct (build_anywhere OF_defaultNorm DefaultMaxOff OF_defaultNormLog OF_base OF_bits (st_cells OF_defaultDTable) 1 dt wksp) as (syms & _ & _ & H);
      [reflexivity|exact N2|by vm_compute..|exact B2|exact H2|change (2 ^ OF_defaultNormLog) with 32; lia|exact Hw|exact H].
  - destruct (build_anywhere ML_defaultNorm MaxML ML_defaultNormLog ML_base ML_bits (st_cells ML_defaultDTable) 1 dt wksp) as (syms & _ & _ & H);
      [reflexivity|exact N3|by vm_compute..|exact B3|exact H3|exact Hdt|exact Hw|exact H].
Qed.

Lemma ZSTD_default_tables_witness :
  let P := arm64_v8a in
  ZSTD_buildFSETable (blank_table 6) ML_defaultNorm MaxML ML_base ML_bits ML_defaultNormLog blank_wksp
    = Ok {| st_fastMode := 1; st_tableLog := 6; st_cells := st_cells ML_defaultDTable |}.
Proof.
  intros P. destruct (ZSTD_default_tables (blank_table 6) blank_wksp) as (_ & _ & H); [by vm_compute|by vm_compute|]. rewrite H. reflexivity.
Defined.
