(* ===== verification/SeqStore.v ===== *)
(** * zstd_compress_internal.h: the store of sequences and their codes

    The match finders leave their sequences in a [SeqStore_t]: lengths in 16 bits, of which at most
    one may be longer, and offsets or repeat codes as [offBase].  [ZSTD_seqToCodes] gives each length
    and offset its code; a code's base value and additional bits give the length back.
    [ZSTD_updateRep] keeps the history of offsets the repeat codes refer to. *)
From S2P Require Import Prelude Mem Errors Bits BitStream Frame SeqTable.

Definition ZSTD_REP_NUM : Z := 3.
Definition repStartValue : list Z := [1; 4; 8].
Definition STREAM_ACCUMULATOR_MIN_32 : Z := 25.
Definition STREAM_ACCUMULATOR_MIN_64 : Z := 57.

Record SeqDef := { sd_offBase : Z; sd_litLength : Z; sd_mlBase : Z }.

Inductive ZSTD_longLengthType_e := ZSTD_llt_none | ZSTD_llt_literalLength | ZSTD_llt_matchLength.

#[export] Instance ZSTD_longLengthType_e_eq_dec : EqDecision ZSTD_longLengthType_e.
Proof. solve_decision. Defined.

Record SeqStore_t := {
  ss_sequences : list SeqDef;
  ss_maxNbSeq : Z;
  ss_longLengthType : ZSTD_longLengthType_e;
  ss_longLengthPos : Z }.

Section Definitions.
Context `{P : Platform}.

Definition STREAM_ACCUMULATOR_MIN : Z := if MEM_64bits then STREAM_ACCUMULATOR_MIN_64 else STREAM_ACCUMULATOR_MIN_32.

(** (litLength, matchLength) *)
Definition ZSTD_getSequenceLength (seqStore : SeqStore_t) (pos : Z) (seq : SeqDef) : Z * Z :=
  let long t := if (ss_longLengthPos seqStore =? u32 pos) && bool_decide (ss_longLengthType seqStore = t) then 0x10000 else 0 in
  (u32 (sd_litLength seq + long ZSTD_llt_literalLength), u32 (sd_mlBase seq + MINMATCH + long ZSTD_llt_matchLength)).

Definition ZSTD_storeSeqOnly (st : SeqStore_t) (litLength offBase matchLength : Z) : res SeqStore_t :=
  let pos := zlen (ss_sequences st) in
  oassert (pos <? ss_maxNbSeq st) ;;;
  oassert (litLength <=? ZSTD_BLOCKSIZE_MAX) ;;;
  let* st := if 0xFFFF <? litLength then
      oassert (bool_decide (ss_longLengthType st = ZSTD_llt_none)) ;;;
      Ok {| ss_sequences := ss_sequences st; ss_maxNbSeq := ss_maxNbSeq st; ss_longLengthType := ZSTD_llt_literalLength; ss_longLengthPos := u32 pos |}
    else Ok st in
  oassert (matchLength <=? ZSTD_BLOCKSIZE_MAX) ;;;
  oassert (MINMATCH <=? matchLength) ;;;
  let mlBase := matchLength - MINMATCH in
  let* st := if 0xFFFF <? mlBase then
      oassert (bool_decide (ss_longLengthType st = ZSTD_llt_none)) ;;;
      Ok {| ss_sequences := ss_sequences st; ss_maxNbSeq := ss_maxNbSeq st; ss_longLengthType := ZSTD_llt_matchLength; ss_longLengthPos := u32 pos |}
    else Ok st in
  Ok {| ss_sequences := ss_sequences st ++ [{| sd_offBase := offBase; sd_litLength := u16 litLength; sd_mlBase := u16 mlBase |}];
        ss_maxNbSeq := ss_maxNbSeq st; ss_longLengthType := ss_longLengthType st; ss_longLengthPos := ss_longLengthPos st |}.

Definition LL_Code : list Z :=
  [0; 1; 2; 3; 4; 5; 6; 7;
   8; 9; 10; 11; 12; 13; 14; 15;
   16; 16; 17; 17; 18; 18; 19; 19;
   20; 20; 20; 20; 21; 21; 21; 21;
   22; 22; 22; 22; 22; 22; 22; 22;
   23; 23; 23; 23; 23; 23; 23; 23;
   24; 24; 24; 24; 24; 24; 24; 24;
   24; 24; 24; 24; 24; 24; 24; 24].

Definition ZSTD_LLcode (litLength : Z) : res Z :=
  if 63 <? litLength then let* hb := ZSTD_highbit32 litLength in Ok (u32 (hb + 19)) else aget LL_Code litLength.

Definition ML_Code : list Z :=
  [0; 1; 2; 3; 4; 5; 6; 7; 8; 9; 10; 11; 12; 13; 14; 15;
   16; 17; 18; 19; 20; 21; 22; 23; 24; 25; 26; 27; 28; 29; 30; 31;
   32; 32; 33; 33; 34; 34; 35; 35; 36; 36; 36; 36; 37; 37; 37; 37;
   38; 38; 38; 38; 38; 38; 38; 38; 39; 39; 39; 39; 39; 39; 39; 39;
   40; 40; 40; 40; 40; 40; 40; 40; 40; 40; 40; 40; 40; 40; 40; 40;
   41; 41; 41; 41; 41; 41; 41; 41; 41; 41; 41; 41; 41; 41; 41; 41;
   42; 42; 42; 42; 42; 42; 42; 42; 42; 42; 42; 42; 42; 42; 42; 42;
   42; 42; 42; 42; 42; 42; 42; 42; 42; 42; 42; 42; 42; 42; 42; 42].

Definition ZSTD_MLcode (mlBase : Z) : res Z :=
  if 127 <? mlBase then let* hb := ZSTD_highbit32 mlBase in Ok (u32 (hb + 36)) else aget ML_Code mlBase.

(** One sequence of the loop: ([llCode], [ofCode], [mlCode], [longOffsets]). *)
Definition seq_codes (seq : SeqDef) (st : list Z * list Z * list Z * bool) : res (list Z * list Z * list Z * bool) :=
  let '(llCode, ofCode, mlCode, longOffsets) := st in
  let* ofc := ZSTD_highbit32 (sd_offBase seq) in
  let* ll := ZSTD_LLcode (sd_litLength seq) in
  let* ml := ZSTD_MLcode (sd_mlBase seq) in
  oassert (negb (MEM_64bits && (STREAM_ACCUMULATOR_MIN <=? ofc))) ;;;
  Ok (llCode ++ [u8 ll], ofCode ++ [u8 ofc], mlCode ++ [u8 ml], longOffsets || (negb MEM_64bits && (STREAM_ACCUMULATOR_MIN <=? ofc))).

Definition ZSTD_seqToCodes (st : SeqStore_t) : res (list Z * list Z * list Z * bool) :=
  oassert (zlen (ss_sequences st) <=? ss_maxNbSeq st) ;;;
  let* (llCode, ofCode, mlCode, longOffsets) := ofold seq_codes (ss_sequences st) ([], [], [], false) in
  let* llCode := if bool_decide (ss_longLengthType st = ZSTD_llt_literalLength) then aset llCode (ss_longLengthPos st) MaxLL else Ok llCode in
  let* mlCode := if bool_decide (ss_longLengthType st = ZSTD_llt_matchLength) then aset mlCode (ss_longLengthPos st) MaxML else Ok mlCode in
  Ok (llCode, ofCode, mlCode, longOffsets).

(** [rep] after a sequence, three offsets. *)
Definition ZSTD_updateRep (rep : list Z) (offBase : Z) (ll0 : bool) : res (list Z) :=
  let* r0 := aget rep 0 in
  let* r1 := aget rep 1 in
  let* r2 := aget rep 2 in
  if ZSTD_REP_NUM <? offBase then Ok [offBase - ZSTD_REP_NUM; r0; r1]
  else
    oassert (1 <=? offBase) ;;;
    let repCode := offBase - 1 + (if ll0 then 1 else 0) in
    if 0 <? repCode then
      let* currentOffset := if repCode =? ZSTD_REP_NUM then Ok (u32 (r0 - 1)) else aget rep repCode in
      Ok [currentOffset; r0; if 2 <=? repCode then r1 else r2]
    else Ok rep.
End Definitions.

(** ** Codes stand for the lengths *)

(** Code [c] with base values [base] and [bits] stands for the value whose low bits are those of [low]. *)
Definition code_val (base bits : list Z) (c low : Z) : Z :=
  nth (Z.to_nat c) base 0 + low mod 2 ^ nth (Z.to_nat c) bits 0.

Definition ll_code (l : Z) : Z := if 63 <? l then Z.log2 l + 19 else nth (Z.to_nat l) LL_Code 0.
Definition ml_code (l : Z) : Z := if 127 <? l then Z.log2 l + 36 else nth (Z.to_nat l) ML_Code 0.

(** A check over the entries of a table of codes. *)
Definition codes_check (table base bits : list Z) (mx n : Z) : bool :=
  let c := nth (Z.to_nat n) table 0 in
  ok_eqb (aget (E := ZSTD_ErrorCode) table n) c && (0 <=? c) && (c <? mx) && (code_val base bits c n =? n).

Section Codes.
Context `{P : Platform}.

(** Above the table, the code gives the position of the highest bit. *)
Lemma high_code_val base bits d lo l :
  (forall i, lo <= i < 16 -> nth (Z.to_nat (i + d)) base 0 = 2 ^ i /\ nth (Z.to_nat (i + d)) bits 0 = i) ->
  0 < lo -> 2 ^ lo <= l < 2 ^ 16 -> lo <= Z.log2 l < 16 /\ code_val base bits (Z.log2 l + d) l = l.
Proof.
  intros Ht Hlo Hl. assert (0 < 2 ^ lo) by (apply pow2_pos; lia). assert (lo <= Z.log2 l < 16) as Hlg.
  { split; [by apply Z.log2_le_pow2; lia|]. apply Z.log2_lt_pow2; lia. }
  split; [done|]. pose proof (Z.log2_spec l ltac:(lia)) as [H1 H2]. unfold code_val. destruct (Ht _ Hlg) as [-> ->].
  rewrite Z.pow_succ_r in H2 by lia. rewrite <- (Z.mod_unique_pos l (2 ^ Z.log2 l) 1 (l - 2 ^ Z.log2 l)); lia.
Qed.

Lemma LLcode_val l : 0 <= l < 2 ^ 16 -> ZSTD_LLcode l = Ok (ll_code l) /\ 0 <= ll_code l < MaxLL /\ code_val LL_base LL_bits (ll_code l) l = l.
Proof.
  intros Hl. unfold ZSTD_LLcode, ll_code. destruct (Z.ltb_spec 63 l) as [Hb|Hs].
  - rewrite highbit32_val by lia. cbn [obind].
    destruct (high_code_val LL_base LL_bits 19 6 l) as [Hlg Hv]; [|lia|lia|].
    { intros i Hi. assert (i = 6 \/ i = 7 \/ i = 8 \/ i = 9 \/ i = 10 \/ i = 11 \/ i = 12 \/ i = 13 \/ i = 14 \/ i = 15) as Hc by lia.
      repeat (destruct Hc as [->|Hc]; [by vm_compute|]). by subst i. }
    rewrite wrap_small by lia. unfold MaxLL. split; [done|]. split; [lia|done].
  - assert (codes_check LL_Code LL_base LL_bits MaxLL l = true) as Hf by (refine (all_below_spec 64 _ l _ _); [by vm_compute|lia]).
    unfold codes_check in Hf. rewrite !andb_true_iff in Hf. destruct Hf as (((H1 & H2) & H3) & H4).
    split; [by apply ok_eqb_eq|]. split; lia.
Qed.

Lemma MLcode_val l : 0 <= l < 2 ^ 16 -> ZSTD_MLcode l = Ok (ml_code l) /\ 0 <= ml_code l < MaxML /\ code_val ML_base ML_bits (ml_code l) l = l + MINMATCH.
Proof.
  intros Hl. unfold ZSTD_MLcode, ml_code.
  assert (forall c, 0 <= c < MaxML -> nth (Z.to_nat c) ML_base 0 = nth (Z.to_nat c) ((fun b => b - MINMATCH) <$> ML_base) 0 + MINMATCH) as Hsh.
  { intros c Hc. apply Z.eqb_eq. refine (all_below_spec (Z.to_nat MaxML) (fun c => nth (Z.to_nat c) ML_base 0 =? nth (Z.to_nat c) ((fun b => b - MINMATCH) <$> ML_base) 0 + MINMATCH) c _ Hc).
    by vm_compute. }
  assert (forall c, 0 <= c < MaxML -> code_val ((fun b => b - MINMATCH) <$> ML_base) ML_bits c l = l -> code_val ML_base ML_bits c l = l + MINMATCH) as Hcv.
  { intros c Hc Hv. unfold code_val in *. rewrite Hsh by done. lia. }
  destruct (Z.ltb_spec 127 l) as [Hb|Hs].
  - rewrite highbit32_val by lia. cbn [obind].
    destruct (high_code_val ((fun b => b - MINMATCH) <$> ML_base) ML_bits 36 7 l) as [Hlg Hv]; [|lia|lia|].
    { intros i Hi. assert (i = 7 \/ i = 8 \/ i = 9 \/ i = 10 \/ i = 11 \/ i = 12 \/ i = 13 \/ i = 14 \/ i = 15) as Hc by lia.
      repeat (destruct Hc as [->|Hc]; [by vm_compute|]). by subst i. }
    rewrite wrap_small by lia. split; [done|]. unfold MaxML in *. split; [lia|]. apply Hcv; [lia|done].
  - assert (codes_check ML_Code ((fun b => b - MINMATCH) <$> ML_base) ML_bits MaxML l = true) as Hf by (refine (all_below_spec 128 _ l _ _); [by vm_compute|lia]).
    unfold codes_check in Hf. rewrite !andb_true_iff in Hf. destruct Hf as (((H1 & H2) & H3) & H4).
    split; [by apply ok_eqb_eq|]. split; [lia|]. apply Hcv; lia.
Qed.
End Codes.

(** ** What [ZSTD_seqToCodes] computes *)

Record coded_seq := { q_def : SeqDef; q_ll : Z; q_of : Z; q_ml : Z }.

Definition def_ok (s : SeqDef) : Prop :=
  0 < sd_offBase s < 2 ^ 32 /\ 0 <= sd_litLength s < 2 ^ 16 /\ 0 <= sd_mlBase s < 2 ^ 16.

(** A store as [ZSTD_storeSeqOnly] leaves it. *)
Definition store_ok (st : SeqStore_t) : Prop :=
  Forall def_ok (ss_sequences st) /\ zlen (ss_sequences st) <= ss_maxNbSeq st /\ zlen (ss_sequences st) < 2 ^ 32 /\
  (ss_longLengthType st <> ZSTD_llt_none -> 0 <= ss_longLengthPos st < zlen (ss_sequences st)).

(** The codes of sequence [i] stand for its lengths and its offset. *)
Definition coded_ok (st : SeqStore_t) (i : nat) (q : coded_seq) : Prop :=
  def_ok (q_def q) /\ 0 <= q_ll q <= MaxLL /\ 0 <= q_ml q <= MaxML /\ q_of q = Z.log2 (sd_offBase (q_def q)) /\
  (code_val LL_base LL_bits (q_ll q) (sd_litLength (q_def q)), code_val ML_base ML_bits (q_ml q) (sd_mlBase (q_def q)))
    = ZSTD_getSequenceLength st (Z.of_nat i) (q_def q).

Section Spec.
Context `{P : Platform}.

Definition base_coded (s : SeqDef) : coded_seq :=
  {| q_def := s; q_ll := ll_code (sd_litLength s); q_of := Z.log2 (sd_offBase s); q_ml := ml_code (sd_mlBase s) |}.

Definition has_long (l : list SeqDef) : bool := existsb (fun s => negb MEM_64bits && (STREAM_ACCUMULATOR_MIN <=? Z.log2 (sd_offBase s))) l.

Lemma offBase_log s : def_ok s -> 0 <= Z.log2 (sd_offBase s) < 32.
Proof. intros [H _]. split; [apply Z.log2_nonneg|]. apply Z.log2_lt_pow2; lia. Qed.

Lemma seq_codes_fold l : Forall def_ok l -> forall a b c lo,
  ofold seq_codes l (a, b, c, lo) =
  Ok (a ++ (q_ll <$> (base_coded <$> l)), b ++ (q_of <$> (base_coded <$> l)), c ++ (q_ml <$> (base_coded <$> l)), lo || has_long l).
Proof.
  induction 1 as [|s l Hs Hl IH]; intros a b c lo; cbn; [by rewrite !app_nil_r, orb_false_r|].
  pose proof (offBase_log s Hs) as Hlog. pose proof Hs as (Ho & Hll & Hml).
  destruct (LLcode_val _ Hll) as (H1 & R1 & _), (MLcode_val _ Hml) as (H2 & R2 & _). unfold MaxLL, MaxML in *.
  rewrite highbit32_val by done. cbn [obind]. rewrite H1. cbn [obind]. rewrite H2. cbn [obind].
  assert (MEM_64bits && (STREAM_ACCUMULATOR_MIN <=? Z.log2 (sd_offBase s)) = false) as ->.
  { unfold STREAM_ACCUMULATOR_MIN. destruct MEM_64bits; [|done]. cbn. apply Z.leb_gt. unfold STREAM_ACCUMULATOR_MIN_64. lia. }
  cbn [negb oassert obind]. rewrite IH, !(wrap_small 8) by lia. rewrite <- !app_assoc, orb_assoc. done.
Qed.

Definition long_ll (q : coded_seq) : coded_seq := {| q_def := q_def q; q_ll := MaxLL; q_of := q_of q; q_ml := q_ml q |}.
Definition long_ml (q : coded_seq) : coded_seq := {| q_def := q_def q; q_ll := q_ll q; q_of := q_of q; q_ml := MaxML |}.

(** The sequences with their codes. *)
Definition coded (st : SeqStore_t) : list coded_seq :=
  let cs := base_coded <$> ss_sequences st in
  match ss_longLengthType st with
  | ZSTD_llt_none => cs
  | ZSTD_llt_literalLength => alter long_ll (Z.to_nat (ss_longLengthPos st)) cs
  | ZSTD_llt_matchLength => alter long_ml (Z.to_nat (ss_longLengthPos st)) cs
  end.

Lemma aset_alter {B} (g : coded_seq -> B) f (cs : list coded_seq) i v : 0 <= i < zlen cs -> (forall q, g (f q) = v) ->
  aset (g <$> cs) i v = (Ok (g <$> alter f (Z.to_nat i) cs) : res (list B)).
Proof.
  intros Hi Hv. rewrite aset_Ok by (unfold zlen in *; rewrite length_fmap; lia). f_equal. apply list_eq. intros j. rewrite list_lookup_fmap.
  destruct (decide (j = Z.to_nat i)) as [->|Hne].
  - rewrite list_lookup_insert_eq by (unfold zlen in *; rewrite length_fmap; lia). rewrite list_lookup_alter_eq.
    destruct (lookup_lt_is_Some_2 cs (Z.to_nat i)) as [q ->]; [unfold zlen in *; lia|]. cbn. by rewrite Hv.
  - by rewrite list_lookup_insert_ne, list_lookup_alter_ne, list_lookup_fmap by done.
Qed.

Lemma alter_fmap_same {B} (g : coded_seq -> B) f (cs : list coded_seq) i : (forall q, g (f q) = g q) -> g <$> alter f i cs = g <$> cs.
Proof.
  intros Hg. apply list_eq. intros j. rewrite !list_lookup_fmap. destruct (decide (j = i)) as [->|Hne]; [|by rewrite list_lookup_alter_ne].
  rewrite list_lookup_alter_eq. destruct (cs !! i); [|done]. cbn. by rewrite Hg.
Qed.

Lemma seqToCodes_run st : store_ok st ->
  ZSTD_seqToCodes st = Ok (q_ll <$> coded st, q_of <$> coded st, q_ml <$> coded st, has_long (ss_sequences st)) /\ q_def <$> coded st = ss_sequences st.
Proof.
  intros (Hs & Hm & Hl & Hp). unfold ZSTD_seqToCodes, coded. rewrite (proj2 (Z.leb_le _ _)) by done. cbn [oassert obind].
  rewrite (seq_codes_fold _ Hs). cbn [obind app orb]. assert (q_def <$> (base_coded <$> ss_sequences st) = ss_sequences st) as Hd.
  { rewrite <- list_fmap_compose. apply list_fmap_id. }
  assert (zlen (base_coded <$> ss_sequences st) = zlen (ss_sequences st)) as Hz by (unfold zlen; by rewrite length_fmap).
  destruct (ss_longLengthType st); cbn.
  - done.
  - rewrite (aset_alter q_ll long_ll) by first [done|rewrite Hz; apply Hp; done]. cbn [obind].
    by rewrite (alter_fmap_same q_of), (alter_fmap_same q_ml), (alter_fmap_same q_def).
  - rewrite (aset_alter q_ml long_ml) by first [done|rewrite Hz; apply Hp; done]. cbn [obind].
    by rewrite (alter_fmap_same q_of), (alter_fmap_same q_ll), (alter_fmap_same q_def).
Qed.

Lemma base_coded_val s : def_ok s -> 
  0 <= ll_code (sd_litLength s) < MaxLL /\ 0 <= ml_code (sd_mlBase s) < MaxML /\
  code_val LL_base LL_bits (ll_code (sd_litLength s)) (sd_litLength s) = sd_litLength s /\
  code_val ML_base ML_bits (ml_code (sd_mlBase s)) (sd_mlBase s) = sd_mlBase s + MINMATCH /\
  code_val LL_base LL_bits MaxLL (sd_litLength s) = sd_litLength s + 0x10000 /\
  code_val ML_base ML_bits MaxML (sd_mlBase s) = sd_mlBase s + MINMATCH + 0x10000.
Proof.
  intros (_ & H1 & H2). destruct (LLcode_val _ H1) as (_ & ? & ->), (MLcode_val _ H2) as (_ & ? & ->). split; [done|]. split; [done|]. split; [done|]. split; [done|].
  unfold code_val. change (nth (Z.to_nat MaxLL) LL_base 0) with 0x10000. change (nth (Z.to_nat MaxML) ML_base 0) with 0x10003.
  change (nth (Z.to_nat MaxLL) LL_bits 0) with 16. change (nth (Z.to_nat MaxML) ML_bits 0) with 16. unfold MINMATCH. rewrite !Z.mod_small by lia. lia.
Qed.

Lemma coded_lookup st i q : store_ok st -> coded st !! i = Some q -> coded_ok st i q.
Proof.
  intros (Hs & Hm & Hl & Hp) Hq. assert (exists s, ss_sequences st !! i = Some s /\ def_ok s /\
    (q = base_coded s /\ (ss_longLengthType st = ZSTD_llt_none \/ ss_longLengthPos st <> Z.of_nat i) \/
     q = long_ll (base_coded s) /\ ss_longLengthType st = ZSTD_llt_literalLength /\ ss_longLengthPos st = Z.of_nat i \/
     q = long_ml (base_coded s) /\ ss_longLengthType st = ZSTD_llt_matchLength /\ ss_longLengthPos st = Z.of_nat i)) as (s & Hi & Hok & Hc).
  { unfold coded in Hq. destruct (ss_longLengthType st) eqn:E.
    2,3: destruct (decide (ss_longLengthPos st = Z.of_nat i)) as [Heq|Hne];
      [rewrite Heq, Nat2Z.id, list_lookup_alter_eq in Hq|rewrite list_lookup_alter_ne in Hq by (specialize (Hp ltac:(done)); lia)].
    all: rewrite list_lookup_fmap in Hq; destruct (ss_sequences st !! i) as [s|] eqn:Hsi; [|done]; cbn in Hq; injection Hq as <-; exists s;
      (split; [done|]); (split; [by apply (proj1 (Forall_lookup _ _) Hs i s)|]); auto 6. }
  assert (Z.of_nat i < zlen (ss_sequences st)) by (apply lookup_lt_Some in Hi; unfold zlen; lia).
  pose proof Hok as (_ & Hll & Hml). destruct (base_coded_val s Hok) as (R1 & R2 & V1 & V2 & V3 & V4). unfold coded_ok, ZSTD_getSequenceLength, MINMATCH in *.
  rewrite (wrap_small 32 (Z.of_nat i)) by lia.
  destruct Hc as [[-> Hc]|[(-> & Ht & Hc)|(-> & Ht & Hc)]]; cbn [q_def q_ll q_of q_ml base_coded long_ll long_ml]; unfold MaxLL, MaxML in *;
    (split; [done|]); (split; [lia|]); (split; [lia|]); (split; [done|]).
  - assert (forall t, t <> ZSTD_llt_none -> (ss_longLengthPos st =? Z.of_nat i) && bool_decide (ss_longLengthType st = t) = false) as Hf.
    { intros t Ht. destruct Hc as [-> |Hne]; [|by rewrite (proj2 (Z.eqb_neq _ _) Hne)]. rewrite bool_decide_eq_false_2 by congruence. apply andb_false_r. }
    rewrite !Hf by done. rewrite V1, V2, !(wrap_small 32) by lia. f_equal; lia.
  - rewrite Hc, Z.eqb_refl, Ht, bool_decide_eq_true_2, bool_decide_eq_false_2 by done. cbn [andb]. rewrite V3, V2, !(wrap_small 32) by lia. f_equal; lia.
  - rewrite Hc, Z.eqb_refl, Ht, bool_decide_eq_false_2, bool_decide_eq_true_2 by done. cbn [andb]. rewrite V1, V4, !(wrap_small 32) by lia. f_equal; lia.
Qed.

Lemma coded_short st i q : store_ok st -> coded st !! i = Some q -> MEM_64bits = false -> has_long (ss_sequences st) = false -> q_of q < STREAM_ACCUMULATOR_MIN_32.
Proof.
  intros Hst Hq H32 Hlo. destruct (coded_lookup st i q Hst Hq) as (_ & _ & _ & -> & _).
  assert (q_def q ∈ ss_sequences st) as Hin.
  { destruct (seqToCodes_run st Hst) as [_ <-]. apply list_elem_of_fmap. exists q. split; [done|]. by eapply list_elem_of_lookup_2. }
  unfold has_long in Hlo. apply Z.nle_gt. intros Hle. assert (existsb (fun s => negb MEM_64bits && (STREAM_ACCUMULATOR_MIN <=? Z.log2 (sd_offBase s))) (ss_sequences st) = true); [|congruence].
  apply existsb_exists. exists (q_def q). split; [by apply list_elem_of_In|]. unfold STREAM_ACCUMULATOR_MIN. rewrite H32. cbn. by apply Z.leb_le.
Qed.
End Spec.

(** ** Storing sequences *)

(** A sequence as a match finder reports it: literal length, [offBase], match length; both lengths lie in one block. *)
Definition found : Type := Z * Z * Z.

Definition found_ok (f : found) : Prop :=
  let '(ll, ob, ml) := f in 0 <= ll /\ 0 < ob < 2 ^ 32 /\ MINMATCH <= ml /\ ll + ml <= ZSTD_BLOCKSIZE_MAX.

(** How many of its lengths do not fit 16 bits. *)
Definition longs (f : found) : Z :=
  let '(ll, ob, ml) := f in (if 0xFFFF <? ll then 1 else 0) + (if 0xFFFF <? ml - MINMATCH then 1 else 0).

Definition all_longs (fs : list found) : Z := foldr (fun f n => longs f + n) 0 fs.

Definition new_store (maxNbSeq : Z) : SeqStore_t :=
  {| ss_sequences := []; ss_maxNbSeq := maxNbSeq; ss_longLengthType := ZSTD_llt_none; ss_longLengthPos := 0 |}.

(** What the store says of its sequences. *)
Definition stored (st : SeqStore_t) : list found :=
  imap (fun i s => let '(ll, ml) := ZSTD_getSequenceLength st (Z.of_nat i) s in (ll, sd_offBase s, ml)) (ss_sequences st).

Section Store.
Context `{P : Platform}.

Definition store_all (fs : list found) (st : SeqStore_t) : res SeqStore_t :=
  ofold (fun '(ll, ob, ml) st => ZSTD_storeSeqOnly st ll ob ml) fs st.

(** Appending a sequence, with the long length it brings, if any. *)
Lemma stored_snoc st t (pos : Z) s ll ml :
  store_ok st -> zlen (ss_sequences st) + 1 < 2 ^ 32 ->
  (t = ss_longLengthType st /\ pos = ss_longLengthPos st \/ ss_longLengthType st = ZSTD_llt_none /\ pos = zlen (ss_sequences st)) ->
  let st' := {| ss_sequences := ss_sequences st ++ [s]; ss_maxNbSeq := ss_maxNbSeq st; ss_longLengthType := t; ss_longLengthPos := pos |} in
  ZSTD_getSequenceLength st' (zlen (ss_sequences st)) s = (ll, ml) ->
  stored st' = stored st ++ [(ll, sd_offBase s, ml)].
Proof.
  intros (Hs & Hm & Hl & Hp) Hlen Ht st' Hg. unfold stored. cbn [ss_sequences st']. rewrite imap_app. f_equal.
  - apply imap_ext. intros i s0 Hi. apply lookup_lt_Some in Hi.
    assert (ZSTD_getSequenceLength st' (Z.of_nat i) s0 = ZSTD_getSequenceLength st (Z.of_nat i) s0) as ->; [|done].
    unfold ZSTD_getSequenceLength. cbn [ss_longLengthPos ss_longLengthType st']. unfold zlen in *. rewrite (wrap_small 32 (Z.of_nat i)) by lia.
    destruct Ht as [[-> ->]|[Ht ->]]; [done|]. rewrite Ht, (proj2 (Z.eqb_neq _ _)) by lia.
    cbn [andb]. rewrite !bool_decide_eq_false_2 by done. by rewrite !andb_false_r.
  - cbn -[ZSTD_getSequenceLength]. rewrite Nat.add_0_r. fold (zlen (ss_sequences st)). by rewrite Hg.
Qed.

Lemma storeSeqOnly_spec st ll ob ml :
  store_ok st -> zlen (ss_sequences st) < ss_maxNbSeq st -> zlen (ss_sequences st) + 1 < 2 ^ 32 -> found_ok (ll, ob, ml) ->
  longs (ll, ob, ml) = 0 \/ longs (ll, ob, ml) = 1 /\ ss_longLengthType st = ZSTD_llt_none ->
  exists st', ZSTD_storeSeqOnly st ll ob ml = Ok st' /\ store_ok st' /\ stored st' = stored st ++ [(ll, ob, ml)] /\
    ss_maxNbSeq st' = ss_maxNbSeq st /\ zlen (ss_sequences st') = zlen (ss_sequences st) + 1 /\
    (longs (ll, ob, ml) = 0 -> ss_longLengthType st' = ss_longLengthType st).
Proof.
  intros Hst Hroom Hlen (Hll & Hob & Hml & Hsum) Hlongs. pose proof Hst as (Hs & Hm & Hl & Hp). unfold ZSTD_storeSeqOnly, longs, MINMATCH in *.
  change ZSTD_BLOCKSIZE_MAX with (2 ^ 17) in *. pose proof (zlen_nonneg (ss_sequences st)).
  rewrite (proj2 (Z.ltb_lt _ (ss_maxNbSeq st))), (proj2 (Z.leb_le ll _)), (proj2 (Z.leb_le ml _)), (proj2 (Z.leb_le 3 ml)) by lia. cbn [oassert obind].
  rewrite (wrap_small 32 (zlen _)) by lia.
  set (s := {| sd_offBase := ob; sd_litLength := u16 ll; sd_mlBase := u16 (ml - 3) |}).
  assert (0 <= u16 ll < 2 ^ 16 /\ 0 <= u16 (ml - 3) < 2 ^ 16) as [U1 U2] by (split; apply Z.mod_pos_bound; lia).
  assert (def_ok s) as Hsq by done.
  assert (zlen (ss_sequences st ++ [s]) = zlen (ss_sequences st) + 1) as Hz by (rewrite zlen_app; done).
  assert (forall t pos, (t <> ZSTD_llt_none -> 0 <= pos < zlen (ss_sequences st) + 1) ->
    store_ok {| ss_sequences := ss_sequences st ++ [s]; ss_maxNbSeq := ss_maxNbSeq st; ss_longLengthType := t; ss_longLengthPos := pos |}) as Hok.
  { intros t pos Ht. unfold store_ok. cbn [ss_sequences ss_maxNbSeq ss_longLengthType ss_longLengthPos]. rewrite Hz.
    split; [apply Forall_app; split; [done|by constructor]|]. split; [lia|]. split; [lia|done]. }
  assert (forall x, 0xFFFF < x < 2 ^ 17 -> u16 x + 0x10000 = x) as Hw.
  { intros x Hx. unfold wrap. rewrite <- (Z.mod_unique_pos x (2 ^ 16) 1 (x - 2 ^ 16)); lia. }
  assert (forall t pos, ZSTD_getSequenceLength {| ss_sequences := ss_sequences st ++ [s]; ss_maxNbSeq := ss_maxNbSeq st; ss_longLengthType := t; ss_longLengthPos := pos |}
      (zlen (ss_sequences st)) s =
    (u16 ll + (if (pos =? zlen (ss_sequences st)) && bool_decide (t = ZSTD_llt_literalLength) then 0x10000 else 0),
     u16 (ml - 3) + 3 + (if (pos =? zlen (ss_sequences st)) && bool_decide (t = ZSTD_llt_matchLength) then 0x10000 else 0))) as Hgl.
  { intros t pos. unfold ZSTD_getSequenceLength, MINMATCH. cbn [ss_longLengthPos ss_longLengthType sd_litLength sd_mlBase s].
    rewrite (wrap_small 32 (zlen _)) by lia. destruct (_ && _), (_ && _); rewrite !(wrap_small 32) by lia; done. }
  destruct (Z.ltb_spec 0xFFFF ll) as [Hbl|Hsl], (Z.ltb_spec 0xFFFF (ml - 3)) as [Hbm|Hsm]; [lia|..].
  - destruct Hlongs as [?|[_ Hnone]]; [lia|]. rewrite bool_decide_eq_true_2 by done. cbn [oassert obind ss_sequences ss_maxNbSeq ss_longLengthType ss_longLengthPos]. fold s.
    eexists. split; [reflexivity|]. split; [apply Hok; lia|]. split; [|split; [done|split; [done|lia]]].
    apply (stored_snoc st); [done|lia|by right|]. rewrite Hgl, Z.eqb_refl. rewrite bool_decide_eq_true_2, bool_decide_eq_false_2 by done. cbn [andb].
    rewrite Hw by lia. rewrite (wrap_small 16 (ml - 3)) by lia. f_equal; lia.
  - destruct Hlongs as [?|[_ Hnone]]; [lia|]. cbn [obind]. rewrite bool_decide_eq_true_2 by done. cbn [oassert obind ss_sequences ss_maxNbSeq ss_longLengthType ss_longLengthPos]. fold s.
    eexists. split; [reflexivity|]. split; [apply Hok; lia|]. split; [|split; [done|split; [done|lia]]].
    apply (stored_snoc st); [done|lia|by right|]. rewrite Hgl, Z.eqb_refl. rewrite bool_decide_eq_false_2, bool_decide_eq_true_2 by done. cbn [andb].
    rewrite (wrap_small 16 ll) by lia. f_equal; [lia|]. specialize (Hw (ml - 3) ltac:(lia)). lia.
  - cbn [obind]. fold s. eexists. split; [reflexivity|]. split; [apply Hok; intros Ht; specialize (Hp Ht); lia|]. split; [|done].
    apply (stored_snoc st); [done|lia|by left|]. rewrite Hgl.
    assert (forall t, t <> ZSTD_llt_none -> (ss_longLengthPos st =? zlen (ss_sequences st)) && bool_decide (ss_longLengthType st = t) = false) as Hf.
    { intros t Ht. case_bool_decide as He; [|apply andb_false_r]. rewrite (proj2 (Z.eqb_neq _ _)); [done|]. specialize (Hp ltac:(congruence)). lia. }
    rewrite !Hf, !(wrap_small 16) by (done || lia). f_equal; lia.
Qed.

Lemma store_all_spec fs : forall st, store_ok st -> Forall found_ok fs -> zlen (ss_sequences st) + zlen fs <= ss_maxNbSeq st ->
  zlen (ss_sequences st) + zlen fs < 2 ^ 32 -> all_longs fs <= 1 -> (all_longs fs = 1 -> ss_longLengthType st = ZSTD_llt_none) ->
  exists st', store_all fs st = Ok st' /\ store_ok st' /\ stored st' = stored st ++ fs.
Proof.
  induction fs as [|[[ll ob] ml] fs IH]; intros st Hst Hf Hm Hl Hlg Hn; [exists st; cbn; by rewrite app_nil_r|].
  apply Forall_cons in Hf as [Hf Hfs]. rewrite zlen_cons in Hm, Hl. cbn [all_longs foldr] in Hlg, Hn. fold (all_longs fs) in Hlg, Hn. pose proof (zlen_nonneg fs).
  assert (0 <= longs (ll, ob, ml)) by (unfold longs; zcases; lia).
  assert (0 <= all_longs fs). { clear. induction fs as [|[[? ?] ?] fs IH]; cbn; [done|]. fold (all_longs fs). zcases; lia. }
  destruct (storeSeqOnly_spec st ll ob ml Hst) as (st1 & Hs1 & Hok1 & Hst1 & Hm1 & Hz1 & Ht1); [lia|lia|done| |].
  { destruct (decide (longs (ll, ob, ml) = 0)); [by left|right]. split; [lia|]. apply Hn. lia. }
  destruct (IH st1 Hok1 Hfs) as (st' & Hs' & Hok' & Hst'); [lia|lia|lia| |].
  { intros Ha. rewrite Ht1 by lia. apply Hn. lia. }
  exists st'. cbn [store_all ofold]. rewrite Hs1. cbn [obind]. split; [done|]. split; [done|]. by rewrite Hst', Hst1, <- app_assoc.
Qed.
End Store.
