(* ===== verification/SeqEncode.v ===== *)
(** * zstd_compress_sequences.c: writing the sequences of a block

    [ZSTD_encodeSequences] writes, from the last sequence to the first, three interleaved FSE states
    and the additional bits of the three codes into one bit stream.  Its client theorems are proved
    against an interface, [Coder]: a table the encoder steps through and the decoding table that
    undoes it, discharged by FSE tables and by the tables of a single symbol. *)
From S2P Require Import Prelude Mem Errors Bits BitStream BitFields Fse FseSpread FseBuild FseState Frame SeqTable SeqStore.

Section Definitions.
Context `{P : Platform}.

Record enc_seqs := {
  es_stream : BIT_CStream_t;
  es_ML : FSE_CState_t;
  es_OF : FSE_CState_t;
  es_LL : FSE_CState_t }.

Definition flush_if (b : bool) (c : BIT_CStream_t) : res BIT_CStream_t := if b then BIT_flushBits c else Ok c.

(** The additional bits of an offset. *)
Definition add_offset (longOffsets : bool) (c : BIT_CStream_t) (offBase ofBits : Z) : res BIT_CStream_t :=
  if longOffsets then
    let extraBits := ofBits - Z.min ofBits (STREAM_ACCUMULATOR_MIN - 1) in
    let* c := if negb (extraBits =? 0) then let* c := BIT_addBits c offBase extraBits in BIT_flushBits c else Ok c in
    BIT_addBits c (Z.shiftr offBase extraBits) (ofBits - extraBits)
  else BIT_addBits c offBase ofBits.

(** The last sequence, which needs no state bits. *)
Definition encode_last (ctML ctOF ctLL : FSE_CTable) (c : BIT_CStream_t) (seq : SeqDef) (ll of_ ml : Z) (longOffsets : bool) : res enc_seqs :=
  let* stML := FSE_initCState2 ctML ml in
  let* stOF := FSE_initCState2 ctOF of_ in
  let* stLL := FSE_initCState2 ctLL ll in
  let* llBits := aget LL_bits ll in
  let* c := BIT_addBits c (sd_litLength seq) llBits in
  let* c := flush_if MEM_32bits c in
  let* mlBits := aget ML_bits ml in
  let* c := BIT_addBits c (sd_mlBase seq) mlBits in
  let* c := flush_if MEM_32bits c in
  let* c := add_offset longOffsets c (sd_offBase seq) of_ in
  let* c := BIT_flushBits c in
  Ok {| es_stream := c; es_ML := stML; es_OF := stOF; es_LL := stLL |}.

(** One turn of the loop. *)
Definition encode_one (seq : SeqDef) (llCode ofCode mlCode : Z) (longOffsets : bool) (e : enc_seqs) : res enc_seqs :=
  let* llBits := aget LL_bits llCode in
  let ofBits := ofCode in
  let* mlBits := aget ML_bits mlCode in
  let* (c, stOF) := FSE_encodeSymbol (es_stream e) (es_OF e) ofCode in
  let* (c, stML) := FSE_encodeSymbol c (es_ML e) mlCode in
  let* c := flush_if MEM_32bits c in
  let* (c, stLL) := FSE_encodeSymbol c (es_LL e) llCode in
  let* c := flush_if (MEM_32bits || (64 - 7 - (LLFSELog + MLFSELog + OffFSELog) <=? ofBits + mlBits + llBits)) c in
  let* c := BIT_addBits c (sd_litLength seq) llBits in
  let* c := flush_if (MEM_32bits && (24 <? llBits + mlBits)) c in
  let* c := BIT_addBits c (sd_mlBase seq) mlBits in
  let* c := flush_if (MEM_32bits || (56 <? ofBits + mlBits + llBits)) c in
  let* c := add_offset longOffsets c (sd_offBase seq) ofBits in
  let* c := BIT_flushBits c in
  Ok {| es_stream := c; es_ML := stML; es_OF := stOF; es_LL := stLL |}.

(** [for (n=nbSeq-2 ; n<nbSeq ; n--)]: [n] runs down to 0 and wraps around. *)
Definition ZSTD_encodeSequences_body (mem : list Z) (dst dstCapacity : Z)
    (CTable_MatchLength : FSE_CTable) (mlCodeTable : list Z) (CTable_OffsetBits : FSE_CTable) (ofCodeTable : list Z)
    (CTable_LitLength : FSE_CTable) (llCodeTable : list Z) (sequences : list SeqDef) (nbSeq : Z) (longOffsets : bool) : res (Z * list Z) :=
  let* blockStream := match BIT_initCStream mem dst dstCapacity with Ok c => Ok c | Err _ => Err ZSTD_error_dstSize_tooSmall | Fault f => Fault f end in
  let* ml := aget mlCodeTable (nbSeq - 1) in
  let* of_ := aget ofCodeTable (nbSeq - 1) in
  let* ll := aget llCodeTable (nbSeq - 1) in
  let* seq := aget sequences (nbSeq - 1) in
  let* e := encode_last CTable_MatchLength CTable_OffsetBits CTable_LitLength blockStream seq ll of_ ml longOffsets in
  let* e := for_range 0 (nbSeq - 1) (fun i e =>
    let n := nbSeq - 2 - i in
    let* llCode := aget llCodeTable n in
    let* ofCode := aget ofCodeTable n in
    let* mlCode := aget mlCodeTable n in
    let* seq := aget sequences n in
    encode_one seq llCode ofCode mlCode longOffsets e) e in
  let* c := FSE_flushCState (es_stream e) (es_ML e) in
  let* c := FSE_flushCState c (es_OF e) in
  let* c := FSE_flushCState c (es_LL e) in
  let* (streamSize, c) := BIT_closeCStream c in
  reject_if (streamSize =? 0) ZSTD_error_dstSize_tooSmall ;;;
  Ok (streamSize, c_mem c).

Definition ZSTD_encodeSequences := ZSTD_encodeSequences_body.
End Definitions.

(** ** Coders *)

(** What a cell of the decoding table says: the symbol it stands for, the bits it reads and the state they lead to. *)
Definition cell_for (bases bits : list Z) (dt : SeqTable) (i s : Z) (c : ZSTD_seqSymbol) : Prop :=
  0 <= i < 2 ^ st_tableLog dt /\ st_cells dt !! Z.to_nat i = Some c /\
  baseValue c = nth (Z.to_nat s) bases 0 /\ nbAdditionalBits c = nth (Z.to_nat s) bits 0.

(** Encoding [s] in state [i] emits the low [nb] bits of [i] and goes to state [i'], whose cell gives [s] and, from those bits, [i] back. *)
Definition coder_step (bases bits : list Z) (dt : SeqTable) (i s nb i' : Z) : Prop :=
  0 <= nb <= st_tableLog dt /\ exists c, cell_for bases bits dt i' s c /\ sq_nbBits c = nb /\ nextState c + i mod 2 ^ nb = i.

(** An encoding table and the decoding table that undoes it, for the symbols [sup]; [at_state] relates the encoder's state to the decoder's. *)
Class Coder `{P : Platform} (bases bits : list Z) (ct : FSE_CTable) (dt : SeqTable) (sup : Z -> Prop) := {
  at_state : FSE_CState_t -> Z -> Prop;
  coder_log : 0 <= st_tableLog dt <= 15;
  coder_state st i : at_state st i ->
    0 <= i < 2 ^ st_tableLog dt /\ cs_stateLog st = st_tableLog dt /\ size_t (cs_value st) mod 2 ^ st_tableLog dt = i;
  coder_init s : sup s -> exists st i c, FSE_initCState2 ct s = Ok st /\ at_state st i /\ cell_for bases bits dt i s c;
  coder_encode c st i s fs a : at_state st i -> sup s -> w_fields c fs a -> a + st_tableLog dt + 7 < regBits ->
    exists c' st' i' nb, FSE_encodeSymbol c st s = Ok (c', st') /\ c_frame c c' /\ at_state st' i' /\ coder_step bases bits dt i s nb i' /\
      w_fields c' (fs ++ [(i, nb)]) (a + nb) }.

(** *** FSE tables *)

Section FseCoder.
Context `{P : Platform} (bases bits norm : list Z) (k : Z) (syms : list Z) (ct : FSE_CTable) (dt : SeqTable).
Hypothesis Hnorm : norm_ok norm k.
Hypothesis Hsyms : spread_ok norm k syms.
Hypothesis Hct : ctable_ok norm k syms ct.
Hypothesis Hk : k <= 14.
Hypothesis Hlog : st_tableLog dt = k.
Hypothesis Hcells : (seq_of bases bits <$> dtable_ref norm k syms) `prefix_of` st_cells dt.

Definition fse_sup (s : Z) : Prop := 0 <= s < zlen norm /\ 0 < freq norm s.
Definition fse_at (st : FSE_CState_t) (i : Z) : Prop := cs_ok k ct st (2 ^ k + i).

Lemma fse_cell u c : dtable_ref norm k syms !! u = Some c -> cell_for bases bits dt (Z.of_nat u) (symbol c) (seq_of bases bits c).
Proof.
  intros Hu. pose proof (lookup_lt_Some _ _ _ Hu) as Hlt. unfold dtable_ref in Hlt. rewrite length_imap in Hlt.
  split; [rewrite Hlog; destruct Hsyms as [Hz _]; unfold zlen in Hz; lia|]. rewrite Nat2Z.id. split; [|done].
  eapply prefix_lookup_Some; [|exact Hcells]. by rewrite list_lookup_fmap, Hu.
Qed.

Lemma fse_state st i : fse_at st i -> 0 <= i < 2 ^ k /\ cs_stateLog st = k /\ size_t (cs_value st) mod 2 ^ k = i.
Proof.
  intros (Hv & _ & _ & Hl & Hr). split; [lia|]. split; [done|]. rewrite Hv.
  assert (2 ^ k <= 2 ^ 14) by (apply Z.pow_le_mono_r; [lia|done]). rewrite size_t_small by lia.
  replace (2 ^ k + i) with (i + 1 * 2 ^ k) by lia. rewrite Z.mod_add by lia. apply Z.mod_small. lia.
Qed.

Lemma fse_init s : fse_sup s -> exists st i c, FSE_initCState2 ct s = Ok st /\ fse_at st i /\ cell_for bases bits dt i s c.
Proof.
  intros [Hs Hf]. destruct (initCState2_spec norm k syms Hnorm Hsyms ct s Hct Hk Hs Hf) as (st & u & Hi & Hok & Hc).
  exists st, (Z.of_nat u), (seq_of bases bits (dcell k (freq norm s) s)). split; [done|]. split; [done|]. by apply (fse_cell u (dcell k (freq norm s) s)).
Qed.

Lemma fse_encode c st i s fs a : fse_at st i -> fse_sup s -> w_fields c fs a -> a + k + 7 < regBits ->
  exists c' st' i' nb, FSE_encodeSymbol c st s = Ok (c', st') /\ c_frame c c' /\ fse_at st' i' /\ coder_step bases bits dt i s nb i' /\
    w_fields c' (fs ++ [(i, nb)]) (a + nb).
Proof.
  intros Hat [Hs Hf] [Hfs Hw] Ha. assert (0 <= k) by (destruct Hnorm; lia).
  destruct (encodeSymbol_spec norm k syms Hnorm Hsyms ct c st _ s _ _ a Hct Hat Hs Hf Hw Ha) as (c' & v' & nb & He & Hfr & Hok & Hstep & Hnb & Hw').
  destruct Hstep as (u & d & -> & Hu & Hsym & Hnbs & Hback).
  assert ((2 ^ k + i) mod 2 ^ nb = i mod 2 ^ nb) as Hm.
  { replace k with (nb + (k - nb)) by lia. rewrite Z.pow_add_r by lia. rewrite Z.add_comm, (Z.mul_comm (2 ^ nb)). apply Z.mod_add. apply Z.pow_nonzero; lia. }
  rewrite Hm in *. exists c', (cs_set_value st (2 ^ k + Z.of_nat u)), (Z.of_nat u), nb. split; [done|]. split; [done|]. split; [done|]. split.
  - rewrite <- Hsym. unfold coder_step. rewrite Hlog. split; [lia|]. exists (seq_of bases bits d). split; [by apply fse_cell|]. split; [done|]. cbn [nextState seq_of]. lia.
  - split; [apply Forall_app; split; [done|]; by constructor; [apply Hnb|]|]. rewrite val_app, bits_app by done.
    cbn -[Z.pow]. rewrite Z.mul_0_r, !Z.add_0_r, (Z.mul_comm (2 ^ _)). done.
Qed.

Definition fse_coder : Coder bases bits ct dt fse_sup.
Proof.
  refine {| at_state := fse_at |}.
  - rewrite Hlog. destruct Hnorm; lia.
  - rewrite Hlog. apply fse_state.
  - apply fse_init.
  - rewrite Hlog. apply fse_encode.
Defined.
End FseCoder.

(** *** Tables of a single symbol *)

Section RleCoder.
Context `{P : Platform} (bases bits : list Z) (s : Z) (ct0 ct : FSE_CTable) (dt0 dt : SeqTable).
Hypothesis Hs : 0 <= s.
Hypothesis Hbuild : FSE_buildCTable_rle ct0 s = Ok ct.
Hypothesis Hseq : ZSTD_buildSeqTable_rle dt0 (nth (Z.to_nat s) bases 0) (nth (Z.to_nat s) bits 0) = Ok dt.

Definition rle_state (v : Z) : FSE_CState_t :=
  {| cs_value := v; cs_stateTable := [0; 0]; cs_symbolTT := <[Z.to_nat s := {| deltaNbBits := 0; deltaFindState := 0 |}]> (ct_symbolTT ct0); cs_stateLog := 0 |}.

Lemma rle_tables : s < zlen (ct_symbolTT ct0) /\ ct_tableLog ct = 0 /\ ct_stateTable ct = [0; 0] /\ ct_symbolTT ct = cs_symbolTT (rle_state 0) /\
  st_tableLog dt = 0 /\ cell_for bases bits dt 0 s {| nextState := 0; nbAdditionalBits := nth (Z.to_nat s) bits 0; sq_nbBits := 0; baseValue := nth (Z.to_nat s) bases 0 |}.
Proof.
  assert (s < zlen (ct_symbolTT ct0)) as Hlt.
  { destruct (Z.lt_ge_cases s (zlen (ct_symbolTT ct0))) as [|Hge]; [done|]. unfold FSE_buildCTable_rle, aset in Hbuild. cbn in Hbuild.
    rewrite (proj2 (Z.ltb_ge s _)) in Hbuild by lia. by rewrite andb_false_r in Hbuild. }
  unfold FSE_buildCTable_rle in Hbuild. cbn [aset] in Hbuild. rewrite !aset_Ok in Hbuild by (done || (unfold zlen in *; cbn; lia)).
  cbn [obind] in Hbuild. rewrite aset_Ok in Hbuild by done. injection Hbuild as <-. split; [done|]. split; [done|]. split; [done|]. split; [done|].
  unfold ZSTD_buildSeqTable_rle in Hseq. apply bind_Ok in Hseq as (? & _ & Hseq). apply bind_Ok in Hseq as (cells & Hcells & Hseq). injection Hseq as <-.
  split; [done|]. split; [by cbn|]. split; [|done]. cbn [st_cells]. unfold aset in Hcells. destruct (_ && _) eqn:E; [|done]. injection Hcells as <-.
  apply list_lookup_insert_eq. apply andb_true_iff in E as [_ E]. unfold zlen in E. lia.
Qed.

Definition rle_coder : Coder bases bits ct dt (fun x => x = s).
Proof.
  destruct rle_tables as (Hlt & Hl & Hst & Htt & Hdl & Hc).
  assert (aget (cs_symbolTT (rle_state 0)) s = (Ok {| deltaNbBits := 0; deltaFindState := 0 |} : res _)) as Hg.
  { apply aget_Ok. split; [done|]. apply list_lookup_insert_eq. unfold zlen in Hlt. lia. }
  refine {| at_state := fun st i => st = rle_state 0 /\ i = 0 |}.
  - lia.
  - intros st i [-> ->]. rewrite Hdl. cbn. rewrite Z.mod_1_r. split; [lia|done].
  - intros x ->. exists (rle_state 0), 0. eexists. split; [|split; [done|exact Hc]]. unfold FSE_initCState2, FSE_initCState. rewrite Hl, Hst, Htt. cbn [cs_symbolTT cs_stateTable].
    cbn [cs_symbolTT rle_state] in Hg. cbn [rle_state cs_symbolTT]. rewrite Hg. cbn [obind deltaNbBits deltaFindState].
    change (Z.shiftr (u32 (0 + Z.shiftl 1 15)) 16) with 0. change (u32 (u32 (Z.shiftl 0 16) - 0)) with 0.
    replace (ptrdiff_of_u32 0) with 0 by (unfold ptrdiff_of_u32; by destruct MEM_64bits). reflexivity.
  - intros c st i x fs a [-> ->] -> Hw Ha. rewrite Hdl in Ha. unfold FSE_encodeSymbol. rewrite Hg. cbn [obind deltaNbBits deltaFindState rle_state cs_value cs_stateTable].
    assert (u32 (Z.shiftr (add_ptrdiff_u32 0 0) 16) = 0) as -> by (unfold add_ptrdiff_u32; by destruct MEM_64bits).
    destruct (w_add c fs a (size_t 0) 0 Hw) as (c' & -> & Hfr & Hw'); [lia|lia|]. cbn [obind]. exists c', (rle_state 0), 0, 0.
    split; [reflexivity|]. split; [done|]. split; [done|]. split.
    + split; [lia|]. eexists. split; [exact Hc|]. done.
    + eapply w_fields_same; [| | |exact Hw'].
      * apply Forall_app. split; [apply Hw|]. by repeat constructor.
      * rewrite !val_app by apply Hw. cbn -[Z.pow]. by rewrite !Z.mod_1_r.
      * by rewrite !bits_app.
Defined.
End RleCoder.

(** ** What [ZSTD_encodeSequences] writes *)

Definition llb (q : coded_seq) : Z := nth (Z.to_nat (q_ll q)) LL_bits 0.
Definition mlb (q : coded_seq) : Z := nth (Z.to_nat (q_ml q)) ML_bits 0.

(** The additional bits of a sequence. *)
Definition extra_fields (q : coded_seq) : list (Z * Z) :=
  [(sd_litLength (q_def q), llb q); (sd_mlBase (q_def q), mlb q); (sd_offBase (q_def q), q_of q)].

(** [seq_stream il io im fs qs]: from the decoding states [il], [io], [im] the fields [fs] decode to the sequences [qs]. *)
Inductive seq_stream (tLL tOF tML : SeqTable) : Z -> Z -> Z -> list (Z * Z) -> list coded_seq -> Prop :=
| seq_last q il io im cl co cm :
    cell_for LL_base LL_bits tLL il (q_ll q) cl -> cell_for OF_base OF_bits tOF io (q_of q) co -> cell_for ML_base ML_bits tML im (q_ml q) cm ->
    seq_stream tLL tOF tML il io im (extra_fields q) [q]
| seq_more q qs fs il io im nl no nm il' io' im' :
    seq_stream tLL tOF tML il io im fs qs ->
    coder_step LL_base LL_bits tLL il (q_ll q) nl il' -> coder_step OF_base OF_bits tOF io (q_of q) no io' ->
    coder_step ML_base ML_bits tML im (q_ml q) nm im' ->
    seq_stream tLL tOF tML il' io' im' (fs ++ [(io, no); (im, nm); (il, nl)] ++ extra_fields q) (q :: qs).

(** Codes in range; offsets that [longOffsets] announces correctly. *)
Definition q_ok `{P : Platform} (longOffsets : bool) (q : coded_seq) : Prop :=
  0 <= q_ll q <= MaxLL /\ 0 <= q_ml q <= MaxML /\ 0 <= q_of q <= MaxOff /\
  (MEM_64bits = false -> longOffsets = false -> q_of q < STREAM_ACCUMULATOR_MIN_32).

Section Encode.
Context `{P : Platform}.

Lemma regBits_val : regBits = if MEM_64bits then 64 else 32.
Proof. unfold regBits, sizeof_size_t. by destruct MEM_64bits. Qed.

Lemma code_bits_get q lo : q_ok lo q ->
  aget LL_bits (q_ll q) = (Ok (llb q) : res Z) /\ 0 <= llb q <= 16 /\ aget ML_bits (q_ml q) = (Ok (mlb q) : res Z) /\ 0 <= mlb q <= 16.
Proof.
  intros (Hl & Hm & _). unfold MaxLL, MaxML in *. unfold llb, mlb. assert (zlen LL_bits = 36 /\ zlen ML_bits = 53) as [Z1 Z2] by done.
  rewrite !aget_nth by lia. split; [done|]. split; [|split; [done|]].
  - assert ((0 <=? nth (Z.to_nat (q_ll q)) LL_bits 0) && (nth (Z.to_nat (q_ll q)) LL_bits 0 <=? 16) = true); [|lia].
    refine (all_below_spec 36 (fun n => (0 <=? nth (Z.to_nat n) LL_bits 0) && (nth (Z.to_nat n) LL_bits 0 <=? 16)) (q_ll q) _ _); [by vm_compute|lia].
  - assert ((0 <=? nth (Z.to_nat (q_ml q)) ML_bits 0) && (nth (Z.to_nat (q_ml q)) ML_bits 0 <=? 16) = true); [|lia].
    refine (all_below_spec 53 (fun n => (0 <=? nth (Z.to_nat n) ML_bits 0) && (nth (Z.to_nat n) ML_bits 0 <=? 16)) (q_ml q) _ _); [by vm_compute|lia].
Qed.

Lemma flush_if_spec b c fs a : w_fields c fs a -> exists c', flush_if b c = Ok c' /\ c_frame c c' /\ w_fields c' fs (if b then 0 else a).
Proof. intros Hw. destruct b; [by apply (w_flush c fs a)|]. by exists c. Qed.

(** The additional bits of an offset, in one or two fields, and the flush after them. *)
Lemma add_offset_spec lo c fs a ob nb : w_fields c fs a -> 0 <= nb <= MaxOff ->
  (MEM_64bits = false -> a = 0 /\ (lo = false -> nb < STREAM_ACCUMULATOR_MIN_32)) ->
  (MEM_64bits = true -> (fields_bits fs - a) mod 8 + a + nb < 64) ->
  exists c1 c', add_offset lo c ob nb = Ok c1 /\ BIT_flushBits c1 = Ok c' /\ c_frame c c' /\ w_fields c' (fs ++ [(ob, nb)]) 0.
Proof.
  intros Hw Hnb H32 H64. pose proof regBits_val as Hreg. unfold MaxOff, STREAM_ACCUMULATOR_MIN_32 in *.
  assert (forall c f a v n, w_fields c f a -> 0 <= n < 32 -> (fields_bits f - a) mod 8 + a + n < regBits ->
    exists c1 c', BIT_addBits c v n = Ok c1 /\ BIT_flushBits c1 = Ok c' /\ c_frame c c' /\ w_fields c' (f ++ [(v, n)]) 0) as Haf.
  { clear. intros c f a v n Hw Hn Hr. destruct (w_add_exact c f a v n Hw Hn Hr) as (c1 & H1 & Hfr1 & Hw1).
    destruct (w_flush c1 _ _ Hw1) as (c2 & H2 & Hfr2 & Hw2). exists c1, c2. split; [done|]. split; [done|]. split; [|done]. by eapply c_frame_trans. }
  unfold add_offset. set (e := nb - Z.min nb (STREAM_ACCUMULATOR_MIN - 1)).
  destruct (lo && negb (e =? 0)) eqn:Hlong.
  - apply andb_true_iff in Hlong as [-> He%negb_true_iff%Z.eqb_neq]. rewrite (proj2 (Z.eqb_neq _ _) He). cbn [negb].
    assert (MEM_64bits = false) as H by (unfold e, STREAM_ACCUMULATOR_MIN, STREAM_ACCUMULATOR_MIN_64 in He; destruct MEM_64bits; [lia|done]).
    destruct (H32 H) as [-> _]. rewrite H in Hreg. assert (1 <= e <= 7 /\ nb - e = 24) as [He1 He2].
    { unfold e, STREAM_ACCUMULATOR_MIN, STREAM_ACCUMULATOR_MIN_32 in *. rewrite H in *. lia. }
    destruct (Haf c fs 0 ob e Hw) as (c1 & c2 & -> & H2 & Hfr2 & Hw2); [lia|pose proof (Z.mod_pos_bound (fields_bits fs - 0) 8); lia|].
    cbn [obind]. rewrite H2. cbn [obind].
    destruct (Haf c2 _ 0 (Z.shiftr ob e) (nb - e) Hw2) as (c3 & c4 & -> & H4 & Hfr4 & Hw4);
      [lia|pose proof (Z.mod_pos_bound (fields_bits (fs ++ [(ob, e)]) - 0) 8); lia|].
    exists c3, c4. split; [done|]. split; [done|]. split; [by eapply c_frame_trans|]. rewrite <- app_assoc in Hw4.
    destruct (field_split fs ob e nb) as [Hv Hb]; [apply Hw|lia|]. eapply w_fields_same; [|symmetry; exact Hv|symmetry; exact Hb|exact Hw4].
    apply Forall_app. split; [apply Hw|]. constructor; [apply Hnb|done].
  - assert ((if lo then
      let* c := if negb (e =? 0) then let* c := BIT_addBits c ob e in BIT_flushBits c else Ok c in BIT_addBits c (Z.shiftr ob e) (nb - e)
      else BIT_addBits c ob nb) = BIT_addBits c ob nb) as ->.
    { destruct lo; [|done]. cbn [andb] in Hlong. rewrite Hlong. apply negb_false_iff, Z.eqb_eq in Hlong. rewrite Hlong. cbn [obind]. by rewrite Z.sub_0_r. }
    apply (Haf c fs a ob nb Hw); [lia|]. rewrite Hreg. destruct MEM_64bits eqn:H; [by apply H64|]. destruct (H32 eq_refl) as [-> Hn].
    pose proof (Z.mod_pos_bound (fields_bits fs - 0) 8). destruct lo; [|specialize (Hn eq_refl); lia].
    cbn [andb] in Hlong. apply negb_false_iff, Z.eqb_eq in Hlong. unfold e, STREAM_ACCUMULATOR_MIN, STREAM_ACCUMULATOR_MIN_32 in Hlong. rewrite H in Hlong. lia.
Qed.

Section Tables.
Context (ctLL ctOF ctML : FSE_CTable) (tLL tOF tML : SeqTable) (supLL supOF supML : Z -> Prop) (lo : bool).
Context {cLL : Coder LL_base LL_bits ctLL tLL supLL} {cOF : Coder OF_base OF_bits ctOF tOF supOF} {cML : Coder ML_base ML_bits ctML tML supML}.
Hypothesis Hlogs : st_tableLog tLL <= LLFSELog /\ st_tableLog tOF <= OffFSELog /\ st_tableLog tML <= MLFSELog.

Definition q_sup (q : coded_seq) : Prop := q_ok lo q /\ supLL (q_ll q) /\ supOF (q_of q) /\ supML (q_ml q).

(** The encoder has written the sequences [qs]. *)
Definition enc_at (c0 : BIT_CStream_t) (e : enc_seqs) (qs : list coded_seq) (fs : list (Z * Z)) : Prop :=
  exists il io im, at_state (Coder := cLL) (es_LL e) il /\ at_state (Coder := cOF) (es_OF e) io /\ at_state (Coder := cML) (es_ML e) im /\
    seq_stream tLL tOF tML il io im fs qs /\ w_fields (es_stream e) fs 0 /\ c_frame c0 (es_stream e).

Lemma encode_last_spec c q : q_sup q -> w_fields c [] 0 ->
  exists e, encode_last ctML ctOF ctLL c (q_def q) (q_ll q) (q_of q) (q_ml q) lo = Ok e /\ enc_at c e [q] (extra_fields q).
Proof.
  intros (Hq & Sl & So & Sm) Hw. destruct (code_bits_get q lo Hq) as (Gl & Bl & Gm & Bm). pose proof Hq as (_ & _ & Ho & Hs). pose proof regBits_val as Hreg.
  destruct (coder_init _ Sm) as (sm & im & cm & Im & Am & Cm), (coder_init _ So) as (so & io & co & Io & Ao & Co), (coder_init _ Sl) as (sl & il & cl & Il & Al & Cl).
  unfold encode_last. rewrite Im. cbn [obind]. rewrite Io. cbn [obind]. rewrite Il. cbn [obind]. rewrite Gl. cbn [obind].
  destruct (w_add_exact c [] 0 (sd_litLength (q_def q)) (llb q) Hw) as (c1 & -> & F1 & W1); [lia|change ((fields_bits [] - 0) mod 8) with 0; destruct MEM_64bits; lia|].
  cbn [obind]. destruct (flush_if_spec MEM_32bits _ _ _ W1) as (c2 & -> & F2 & W2). cbn [obind]. rewrite Gm. cbn [obind].
  unfold MEM_32bits in *. set (a2 := if negb MEM_64bits then 0 else 0 + llb q) in *.
  assert (0 <= a2 <= 16 /\ (MEM_64bits = true -> (fields_bits ([] ++ [(sd_litLength (q_def q), llb q)]) - a2) mod 8 = 0 /\ a2 = llb q)) as [A2 M2].
  { unfold a2. split; [destruct MEM_64bits; cbn [negb]; lia|]. intros ->. cbn [negb]. rewrite bits_app. cbn [fields_bits foldr snd]. replace (_ - _) with 0 by lia. split; [done|lia]. }
  pose proof (Z.mod_pos_bound (fields_bits ([] ++ [(sd_litLength (q_def q), llb q)]) - a2) 8 ltac:(lia)).
  destruct (w_add_exact c2 _ a2 (sd_mlBase (q_def q)) (mlb q) W2) as (c3 & -> & F3 & W3); [lia| |].
  { rewrite Hreg. destruct MEM_64bits; [destruct (M2 eq_refl); lia|]. unfold a2 in *. cbn [negb] in *. lia. }
  cbn [obind]. destruct (flush_if_spec (negb MEM_64bits) _ _ _ W3) as (c4 & -> & F4 & W4). cbn [obind].
  destruct (add_offset_spec lo c4 _ _ (sd_offBase (q_def q)) (q_of q) W4 Ho) as (c5 & c6 & -> & H6 & F6 & W6).
  { intros H0. rewrite H0. split; [done|]. intros Hlo. by apply Hs. }
  { intros H0. destruct (M2 H0) as [E1 E2]. rewrite H0, E2. cbn [negb]. rewrite !bits_app. cbn [fields_bits foldr snd]. unfold MaxOff in Ho. replace (_ - _) with 0 by lia. change (0 mod 8) with 0. lia. }
  cbn [obind]. rewrite H6. cbn [obind]. eexists. split; [reflexivity|]. exists il, io, im. cbn [es_LL es_OF es_ML es_stream].
  split; [done|]. split; [done|]. split; [done|]. split; [by eapply seq_last|]. split; [exact W6|]. repeat (eapply c_frame_trans; [eassumption|]). done.
Qed.
Lemma encode_one_spec c0 e qs fs q : q_sup q -> enc_at c0 e qs fs ->
  exists e' fs', encode_one (q_def q) (q_ll q) (q_of q) (q_ml q) lo e = Ok e' /\ enc_at c0 e' (q :: qs) fs'.
Proof.
  intros (Hq & Sl & So & Sm) (il & io & im & Al & Ao & Am & Hst & Hw & Hfr0). destruct Hlogs as (Ll & Lo & Lm). unfold LLFSELog, OffFSELog, MLFSELog in *.
  destruct (code_bits_get q lo Hq) as (Gl & Bl & Gm & Bm). pose proof Hq as (_ & _ & Ho & Hs). pose proof regBits_val as Hreg.
  unfold encode_one, MEM_32bits, LLFSELog, MLFSELog, OffFSELog. rewrite Gl. cbn [obind]. rewrite Gm. cbn [obind].
  destruct (coder_encode _ _ _ _ fs 0 Ao So Hw) as (c1 & so & io' & no & -> & F1 & Ao' & So' & W1); [destruct MEM_64bits; lia|]. cbn [obind].
  assert (0 <= no <= 8) by (destruct So'; lia).
  destruct (coder_encode _ _ _ _ _ _ Am Sm W1) as (c2 & sm & im' & nm & -> & F2 & Am' & Sm' & W2); [destruct MEM_64bits; lia|]. cbn [obind].
  assert (0 <= nm <= 9) by (destruct Sm'; lia).
  destruct (flush_if_spec (negb MEM_64bits) _ _ _ W2) as (c3 & -> & F3 & W3). cbn [obind].
  destruct (coder_encode _ _ _ _ _ _ Al Sl W3) as (c4 & sl & il' & nl & -> & F4 & Al' & Sl' & W4); [destruct MEM_64bits; cbn [negb]; lia|]. cbn [obind].
  assert (0 <= nl <= 9) by (destruct Sl'; lia). rewrite <- !app_assoc in W4. cbn [app] in W4.
  set (T := q_of q + mlb q + llb q). set (a4 := (if negb MEM_64bits then 0 else 0 + no + nm) + nl) in W4.
  assert (0 <= a4 <= 26) by (unfold a4; destruct MEM_64bits; cbn [negb]; lia).
  destruct (flush_if_spec (negb MEM_64bits || (64 - 7 - (9 + 9 + 8) <=? T)) _ _ _ W4) as (c5 & -> & F5 & W5). cbn [obind].
  set (a5 := if negb MEM_64bits || (64 - 7 - (9 + 9 + 8) <=? T) then 0 else a4) in W5.
  assert (0 <= a5 /\ (MEM_64bits = false -> a5 = 0) /\ (a5 = 0 \/ a5 <= 26 /\ T <= 30)) as (A5 & A5' & A5'').
  { unfold a5. destruct MEM_64bits; cbn [negb orb]; [|split; [lia|by auto]]. destruct (Z.leb_spec (64 - 7 - (9 + 9 + 8)) T); [split; [lia|by auto]|]. split; [lia|]. split; [done|]. right. lia. }
  destruct (w_add c5 _ a5 (sd_litLength (q_def q)) (llb q) W5) as (c6 & -> & F6 & W6); [lia|destruct MEM_64bits; [|specialize (A5' eq_refl)]; lia|]. cbn [obind].
  destruct (flush_if_spec (negb MEM_64bits && (24 <? llb q + mlb q)) _ _ _ W6) as (c7 & -> & F7 & W7). cbn [obind].
  set (a7 := if negb MEM_64bits && (24 <? llb q + mlb q) then 0 else a5 + llb q) in W7.
  assert (0 <= a7 <= a5 + llb q /\ a7 + mlb q + 7 < regBits) as [A7 A7'].
  { unfold a7. destruct MEM_64bits; cbn [negb andb]; [lia|]. specialize (A5' eq_refl). destruct (Z.ltb_spec 24 (llb q + mlb q)); lia. }
  destruct (w_add c7 _ a7 (sd_mlBase (q_def q)) (mlb q) W7) as (c8 & -> & F8 & W8); [lia|lia|]. cbn [obind].
  destruct (flush_if_spec (negb MEM_64bits || (56 <? T)) _ _ _ W8) as (c9 & -> & F9 & W9). cbn [obind].
  set (a9 := if negb MEM_64bits || (56 <? T) then 0 else a7 + mlb q) in W9.
  assert (0 <= a9 /\ (MEM_64bits = false -> a9 = 0) /\ (a9 = 0 \/ a9 + q_of q <= 56)) as (A9 & A9' & A9'').
  { unfold a9. destruct MEM_64bits; cbn [negb orb]; [|split; [lia|by auto]]. destruct (Z.ltb_spec 56 T); [split; [lia|by auto]|]. split; [lia|]. split; [done|]. right. lia. }
  destruct (add_offset_spec lo c9 _ a9 (sd_offBase (q_def q)) (q_of q) W9 Ho) as (c10 & c11 & -> & H11 & F11 & W11).
  { intros H64. split; [by apply A9'|]. intros Hlo. by apply Hs. }
  { intros H64. rewrite H64 in *. match goal with |- ?x mod 8 + _ + _ < _ => pose proof (Z.mod_pos_bound x 8) end. unfold MaxOff in Ho. lia. }
  cbn [obind]. rewrite H11. cbn [obind]. eexists _, _. split; [reflexivity|]. exists il', io', im'. cbn [es_LL es_OF es_ML es_stream].
  split; [done|]. split; [done|]. split; [done|]. split; [by eapply seq_more|]. split; [rewrite <- !app_assoc in W11; cbn [app] in W11; exact W11|].
  repeat (eapply c_frame_trans; [eassumption|]). done.
Qed.

Lemma flushCState_spec {bases bits ct dt sup} {C : Coder bases bits ct dt sup} c st i fs : at_state st i -> w_fields c fs 0 -> st_tableLog dt <= 15 ->
  exists c', FSE_flushCState c st = Ok c' /\ c_frame c c' /\ w_fields c' (fs ++ [(i, st_tableLog dt)]) 0.
Proof.
  intros Hat Hw Hl. destruct (coder_state _ _ Hat) as (Hi & Hlog & Hv). pose proof coder_log as Hr. pose proof regBits_val as Hreg. unfold FSE_flushCState. rewrite Hlog.
  destruct (w_add c fs 0 (size_t (cs_value st)) (st_tableLog dt) Hw) as (c1 & -> & F1 & W1); [lia|destruct MEM_64bits; lia|]. cbn [obind].
  destruct (w_flush _ _ _ W1) as (c2 & -> & F2 & W2). exists c2. split; [done|]. split; [by eapply c_frame_trans|].
  eapply w_fields_same; [| | |exact W2].
  - apply Forall_app. split; [apply Hw|]. by constructor; [apply Hr|].
  - rewrite !val_app by apply Hw. cbn -[Z.pow]. by rewrite Hv, (Z.mod_small i) by lia.
  - by rewrite !bits_app.
Qed.
Lemma code_get {B} (g : coded_seq -> B) qs n q : 0 <= n -> qs !! Z.to_nat n = Some q -> aget (g <$> qs) n = (Ok (g q) : res B).
Proof. intros Hn Hq. apply aget_Ok. split; [done|]. by rewrite list_lookup_fmap, Hq. Qed.

(** The loop, from the last sequence but one to the first. *)
Lemma encode_loop c0 qs e q fs : last qs = Some q -> Forall q_sup qs -> enc_at c0 e [q] fs ->
  exists e' fs', for_range 0 (zlen qs - 1) (fun i e =>
    let n := zlen qs - 2 - i in
    let* llCode := aget (q_ll <$> qs) n in
    let* ofCode := aget (q_of <$> qs) n in
    let* mlCode := aget (q_ml <$> qs) n in
    let* seq := aget (q_def <$> qs) n in
    encode_one seq llCode ofCode mlCode lo e) e = Ok e' /\ enc_at c0 e' qs fs'.
Proof.
  intros Hlast Hsup He. assert (1 <= zlen qs) by (destruct qs; [done|rewrite zlen_cons; pose proof (zlen_nonneg qs); lia]).
  match goal with |- exists e' fs', ?m = _ /\ _ => destruct (wp_exists m (fun e' => exists fs', enc_at c0 e' (drop (Z.to_nat (zlen qs - 1 - (zlen qs - 1))) qs) fs')) as (e' & -> & fs' & Hat) end.
  - apply (wp_for_range (fun i e' => exists fs', enc_at c0 e' (drop (Z.to_nat (zlen qs - 1 - i)) qs) fs')); [lia| |].
    + exists fs. rewrite last_lookup in Hlast. rewrite Z.sub_0_r. replace (Z.to_nat (zlen qs - 1)) with (pred (length qs)) by (unfold zlen; lia).
      rewrite (drop_S qs q) by done. rewrite drop_ge by lia. done.
    + intros i e1 Hi (fs1 & Hat). cbn beta zeta. set (n := zlen qs - 2 - i). destruct (lookup_lt_is_Some_2 qs (Z.to_nat n)) as [q1 Hq1]; [unfold n, zlen in *; lia|].
      rewrite !(code_get _ qs n q1) by (done || (unfold n; lia)). cbn [obind].
      destruct (encode_one_spec c0 e1 _ fs1 q1 (proj1 (Forall_lookup _ _) Hsup _ _ Hq1) Hat) as (e2 & fs2 & -> & Hat2). cbn [wp]. exists fs2.
      replace (Z.to_nat (zlen qs - 1 - (i + 1))) with (Z.to_nat n) by (unfold n; lia). rewrite (drop_S qs q1) by done.
      replace (S (Z.to_nat n)) with (Z.to_nat (zlen qs - 1 - i)) by (unfold n; lia). done.
  - exists e', fs'. split; [done|]. by rewrite Z.sub_diag in Hat.
Qed.

Lemma encodeSequences_spec mem dst cap qs :
  bytes mem -> 0 <= dst -> dst + cap <= zlen mem -> sizeof_size_t < cap -> qs <> [] -> Forall q_sup qs ->
  exists il io im fs, seq_stream tLL tOF tML il io im fs qs /\
    0 <= il < 2 ^ st_tableLog tLL /\ 0 <= io < 2 ^ st_tableLog tOF /\ 0 <= im < 2 ^ st_tableLog tML /\
    let all := fs ++ [(im, st_tableLog tML); (io, st_tableLog tOF); (il, st_tableLog tLL)] in
    let run := ZSTD_encodeSequences mem dst cap ctML (q_ml <$> qs) ctOF (q_of <$> qs) ctLL (q_ll <$> qs) (q_def <$> qs) (zlen qs) lo in
    Forall nonneg all /\
    (cap - sizeof_size_t <= (fields_bits all + 1) / 8 -> run = Err ZSTD_error_dstSize_tooSmall) /\
    ((fields_bits all + 1) / 8 < cap - sizeof_size_t -> exists mem', run = Ok (fields_bits all / 8 + 1, mem') /\
       zlen mem' = zlen mem /\ bytes mem' /\ take (Z.to_nat dst) mem' = take (Z.to_nat dst) mem /\ fields_bits all / 8 + 1 <= cap /\
       le_val (slice mem' dst (fields_bits all / 8 + 1)) = fields_val all + 2 ^ fields_bits all).
Proof.
  intros Hb Hd Hl Hc Hne Hsup. destruct (last qs) as [q|] eqn:Hlast; [|by apply last_None in Hlast].
  assert (1 <= zlen qs) by (destruct qs; [done|rewrite zlen_cons; pose proof (zlen_nonneg qs); lia]).
  assert (qs !! Z.to_nat (zlen qs - 1) = Some q) as Hq.
  { rewrite last_lookup in Hlast. rewrite <- Hlast. f_equal. unfold zlen. lia. }
  destruct (w_open mem dst cap) as (c & Ho & Hw & Hm & Hst & Hen); try done.
  destruct (encode_last_spec c q (proj1 (Forall_lookup _ _) Hsup _ _ Hq) Hw) as (e & He & Hat).
  destruct (encode_loop c qs e q _ Hlast Hsup Hat) as (e' & fs & Hloop & il & io & im & Al & Ao & Am & Hs & Hwe & Hfr).
  destruct Hlogs as (Ll & Lo & Lm). unfold LLFSELog, OffFSELog, MLFSELog in *.
  destruct (flushCState_spec _ _ _ _ Am Hwe) as (c1 & E1 & F1 & W1); [lia|]. destruct (flushCState_spec _ _ _ _ Ao W1) as (c2 & E2 & F2 & W2); [lia|].
  destruct (flushCState_spec _ _ _ _ Al W2) as (c3 & E3 & F3 & W3); [lia|]. rewrite <- !app_assoc in W3. cbn [app] in W3.
  assert (c_frame c c3) as (Fs & Fe & Fz & Ft) by (repeat (eapply c_frame_trans; [eassumption|]); done).
  exists il, io, im, fs. split; [done|]. split; [apply (coder_state _ _ Al)|]. split; [apply (coder_state _ _ Ao)|]. split; [apply (coder_state _ _ Am)|].
  cbv zeta. set (all := fs ++ [_; _; _]) in *. split; [apply W3|].
  destruct (w_close c3 all cap W3) as (size & c4 & E4 & Hwf4 & (Gs & Ge & Gz & Gt) & Hfull & Hfit); [lia|].
  assert (ZSTD_encodeSequences mem dst cap ctML (q_ml <$> qs) ctOF (q_of <$> qs) ctLL (q_ll <$> qs) (q_def <$> qs) (zlen qs) lo =
    (reject_if (size =? 0) ZSTD_error_dstSize_tooSmall ;;; Ok (size, c_mem c4))) as ->.
  { unfold ZSTD_encodeSequences, ZSTD_encodeSequences_body. rewrite Ho. cbn [obind]. rewrite !(code_get _ qs _ q) by (done || lia). cbn [obind].
    rewrite He. cbn [obind]. rewrite Hloop. cbn [obind]. rewrite E1. cbn [obind]. rewrite E2. cbn [obind]. rewrite E3. cbn [obind]. by rewrite E4. }
  assert (0 <= fields_bits all / 8) by (apply Z.div_pos; [apply bits_nonneg, W3|lia]).
  split; [intros Hx; by rewrite (Hfull Hx)|]. intros Hx. destruct (Hfit Hx) as (-> & Hsz & Himg).
  rewrite (proj2 (Z.eqb_neq _ 0)) by lia. exists (c_mem c4). split; [done|]. rewrite Fs, Hst in *. split; [rewrite Gz, Fz, Hm; done|]. split; [apply Hwf4|].
  split; [congruence|]. done.
Qed.
End Tables.
End Encode.
