(* ===== verification/SeqDecode.v ===== *)
(** * zstd_decompress_block.c: reading and executing the sequences of a block

    [ZSTD_decodeSequence] reads one sequence from three interleaved FSE states and a bit stream and
    resolves its offset against the last three; [ZSTD_decompressSequences] runs it, with
    [ZSTD_execSequence], over a block.  The stream [ZSTD_encodeSequences] writes is shown to decode
    to the sequences it was given. *)
From S2P Require Import Prelude Mem Errors Bits BitStream BitFields Fse FseSpread FseBuild FseState Frame ExecSeq SeqTable SeqStore SeqEncode.

Definition ZSTD_WINDOWLOG_MAX_32 : Z := 30.
Definition LONG_OFFSETS_MAX_EXTRA_BITS_32 : Z :=
  if STREAM_ACCUMULATOR_MIN_32 <? ZSTD_WINDOWLOG_MAX_32 then ZSTD_WINDOWLOG_MAX_32 - STREAM_ACCUMULATOR_MIN_32 else 0.

Record ZSTD_fseState := { fss_state : Z; fss_table : list ZSTD_seqSymbol }.

Record seqState_t := {
  sqs_DStream : BIT_DStream_t;
  sqs_stateLL : ZSTD_fseState;
  sqs_stateOffb : ZSTD_fseState;
  sqs_stateML : ZSTD_fseState;
  sqs_prevOffset : list Z }.

Inductive ZSTD_litLocation_e := ZSTD_not_in_dst | ZSTD_in_dst | ZSTD_split.

#[export] Instance ZSTD_litLocation_e_eq_dec : EqDecision ZSTD_litLocation_e.
Proof. solve_decision. Defined.

(** What a decompression context holds of the block being decoded: the tables [LLTptr], [OFTptr] and [MLTptr] point to, the space for built ones, the repeated
    offsets, the literals and where the history lies. *)
Record ZSTD_DCtx := {
  dc_LLTptr : SeqTable; dc_OFTptr : SeqTable; dc_MLTptr : SeqTable;
  dc_LLTable : SeqTable; dc_OFTable : SeqTable; dc_MLTable : SeqTable;
  dc_workspace : list Z;
  dc_fseEntropy : bool;
  dc_rep : list Z;
  dc_litPtr : Z; dc_litSize : Z; dc_litBuffer : Z; dc_litBufferLocation : ZSTD_litLocation_e;
  dc_prefixStart : Z; dc_virtualStart : Z; dc_dictEnd : Z }.

Section Definitions.
Context `{P : Platform}.

Definition ZSTD_initFseState (bitD : BIT_DStream_t) (dt : SeqTable) : res (ZSTD_fseState * BIT_DStream_t) :=
  let* (state, bitD) := BIT_readBits bitD (st_tableLog dt) in
  let* (_, bitD) := BIT_reloadDStream bitD in
  Ok ({| fss_state := state; fss_table := st_cells dt |}, bitD).

Definition ZSTD_updateFseStateWithDInfo (st : ZSTD_fseState) (bitD : BIT_DStream_t) (next nbBits : Z) : res (ZSTD_fseState * BIT_DStream_t) :=
  let* (lowBits, bitD) := BIT_readBits bitD nbBits in
  Ok ({| fss_state := size_t (next + lowBits); fss_table := fss_table st |}, bitD).

(** [if (b) BIT_reloadDStream(bitD)] *)
Definition reload_if (b : bool) (bitD : BIT_DStream_t) : res BIT_DStream_t :=
  if b then let* (_, bitD) := BIT_reloadDStream bitD in Ok bitD else Ok bitD.

(** The offset of a sequence, the stream and the previous offsets after it. *)
Definition decode_offset (longOffsets : bool) (ofBase ofBits : Z) (ll0 : bool) (bitD : BIT_DStream_t) (prevOffset : list Z) : res (Z * BIT_DStream_t * list Z) :=
  let* p0 := aget prevOffset 0 in
  let* p1 := aget prevOffset 1 in
  let* p2 := aget prevOffset 2 in
  if 1 <? ofBits then
    let* (offset, bitD) :=
      if MEM_32bits && longOffsets && (STREAM_ACCUMULATOR_MIN_32 <=? ofBits) then
        let extraBits := LONG_OFFSETS_MAX_EXTRA_BITS_32 in
        let* (hi, bitD) := BIT_readBitsFast bitD (ofBits - extraBits) in
        let offset := size_t (ofBase + size_t (Z.shiftl hi extraBits)) in
        let* (_, bitD) := BIT_reloadDStream bitD in
        let* (lo, bitD) := BIT_readBitsFast bitD extraBits in
        Ok (size_t (offset + lo), bitD)
      else
        let* (v, bitD) := BIT_readBitsFast bitD ofBits in
        let* bitD := reload_if MEM_32bits bitD in
        Ok (size_t (ofBase + v), bitD) in
    Ok (offset, bitD, [offset; p0; p1])
  else if ofBits =? 0 then
    let offset := if ll0 then p1 else p0 in
    Ok (offset, bitD, [offset; if ll0 then p0 else p1; p2])
  else
    let* (v, bitD) := BIT_readBitsFast bitD 1 in
    let offset := size_t (ofBase + (if ll0 then 1 else 0) + v) in
    let* temp := if offset =? 3 then Ok (size_t (p0 - 1)) else aget prevOffset offset in
    let temp := size_t (temp - (if temp =? 0 then 1 else 0)) in
    Ok (temp, bitD, [temp; p0; if negb (offset =? 1) then p1 else p2]).

(** [if (nbBits > 0) value += BIT_readBitsFast(bitD, nbBits)] *)
Definition read_extra (value nbBits : Z) (bitD : BIT_DStream_t) : res (Z * BIT_DStream_t) :=
  if 0 <? nbBits then
    let* (v, bitD) := BIT_readBitsFast bitD nbBits in
    Ok (size_t (value + v), bitD)
  else Ok (value, bitD).

(** The part of [ZSTD_decodeSequence] before the states are updated: the sequence, the stream and the previous offsets. *)
Definition decode_values (longOffsets : bool) (llDInfo mlDInfo ofDInfo : ZSTD_seqSymbol) (bitD : BIT_DStream_t) (prevOffset : list Z)
  : res (seq_t * BIT_DStream_t * list Z) :=
  let llBits := nbAdditionalBits llDInfo in
  let mlBits := nbAdditionalBits mlDInfo in
  let ofBits := nbAdditionalBits ofDInfo in
  let totalBits := u8 (llBits + mlBits + ofBits) in
  oassert (llBits <=? MaxLLBits) ;;;
  oassert (mlBits <=? MaxMLBits) ;;;
  oassert (ofBits <=? MaxOff) ;;;
  let* (offset, bitD, prevOffset) :=
    decode_offset longOffsets (baseValue ofDInfo) ofBits (baseValue llDInfo =? 0) bitD prevOffset in
  let* (matchLength, bitD) := read_extra (baseValue mlDInfo) mlBits bitD in
  let* bitD := reload_if (MEM_32bits && (STREAM_ACCUMULATOR_MIN_32 - LONG_OFFSETS_MAX_EXTRA_BITS_32 <=? mlBits + llBits)) bitD in
  let* bitD := reload_if (MEM_64bits && (STREAM_ACCUMULATOR_MIN_64 - (LLFSELog + MLFSELog + OffFSELog) <=? totalBits)) bitD in
  let* (litLength, bitD) := read_extra (baseValue llDInfo) llBits bitD in
  let* bitD := reload_if MEM_32bits bitD in
  Ok ({| litLength := litLength; matchLength := matchLength; offset := offset |}, bitD, prevOffset).

Definition ZSTD_decodeSequence (s : seqState_t) (longOffsets isLastSeq : bool) : res (seq_t * seqState_t) :=
  let* llDInfo := aget (fss_table (sqs_stateLL s)) (fss_state (sqs_stateLL s)) in
  let* mlDInfo := aget (fss_table (sqs_stateML s)) (fss_state (sqs_stateML s)) in
  let* ofDInfo := aget (fss_table (sqs_stateOffb s)) (fss_state (sqs_stateOffb s)) in
  let* (seq, bitD, prevOffset) := decode_values longOffsets llDInfo mlDInfo ofDInfo (sqs_DStream s) (sqs_prevOffset s) in
  if negb isLastSeq then
    let* (stateLL, bitD) := ZSTD_updateFseStateWithDInfo (sqs_stateLL s) bitD (nextState llDInfo) (sq_nbBits llDInfo) in
    let* (stateML, bitD) := ZSTD_updateFseStateWithDInfo (sqs_stateML s) bitD (nextState mlDInfo) (sq_nbBits mlDInfo) in
    let* bitD := reload_if MEM_32bits bitD in
    let* (stateOffb, bitD) := ZSTD_updateFseStateWithDInfo (sqs_stateOffb s) bitD (nextState ofDInfo) (sq_nbBits ofDInfo) in
    let* bitD := reload_if true bitD in
    Ok (seq, {| sqs_DStream := bitD; sqs_stateLL := stateLL; sqs_stateOffb := stateOffb; sqs_stateML := stateML; sqs_prevOffset := prevOffset |})
  else
    Ok (seq, {| sqs_DStream := bitD; sqs_stateLL := sqs_stateLL s; sqs_stateOffb := sqs_stateOffb s; sqs_stateML := sqs_stateML s; sqs_prevOffset := prevOffset |}).

(** The memory [m] holds the output, the literals and the history; [src] the bit stream. *)
Definition ZSTD_decompressSequences_body (dctx : ZSTD_DCtx) (m : list Z) (ostart maxDstSize : Z)
    (src : list Z) (seqStart seqSize nbSeq : Z) (isLongOffset : bool) : res (Z * list Z * ZSTD_DCtx) :=
  let oend := if bool_decide (dc_litBufferLocation dctx = ZSTD_not_in_dst) then ostart + maxDstSize else dc_litBuffer dctx in
  let litEnd := dc_litPtr dctx + dc_litSize dctx in
  let* (m, op, litPtr, dctx) :=
    if negb (nbSeq =? 0) then
      let* bitD := match BIT_initDStream src seqStart seqSize with Ok d => Ok d | Err _ => Err ZSTD_error_corruption_detected | Fault f => Fault f end in
      let* (stateLL, bitD) := ZSTD_initFseState bitD (dc_LLTptr dctx) in
      let* (stateOffb, bitD) := ZSTD_initFseState bitD (dc_OFTptr dctx) in
      let* (stateML, bitD) := ZSTD_initFseState bitD (dc_MLTptr dctx) in
      let seqState := {| sqs_DStream := bitD; sqs_stateLL := stateLL; sqs_stateOffb := stateOffb; sqs_stateML := stateML; sqs_prevOffset := dc_rep dctx |} in
      let* (seqState, m, op, litPtr) := for_range 0 nbSeq (fun i '(seqState, m, op, litPtr) =>
        let* (sequence, seqState) := ZSTD_decodeSequence seqState isLongOffset (nbSeq - i =? 1) in
        let* (oneSeqSize, litPtr, m) := ZSTD_execSequence oend litEnd (dc_prefixStart dctx) (dc_virtualStart dctx) (dc_dictEnd dctx) m op sequence litPtr in
        Ok (seqState, m, op + oneSeqSize, litPtr)) (seqState, m, ostart, dc_litPtr dctx) in
      reject_if (negb (BIT_endOfDStream (sqs_DStream seqState))) ZSTD_error_corruption_detected ;;;
      Ok (m, op, litPtr,
          {| dc_LLTptr := dc_LLTptr dctx; dc_OFTptr := dc_OFTptr dctx; dc_MLTptr := dc_MLTptr dctx;
             dc_LLTable := dc_LLTable dctx; dc_OFTable := dc_OFTable dctx; dc_MLTable := dc_MLTable dctx; dc_workspace := dc_workspace dctx; dc_fseEntropy := true;
             dc_rep := (fun r => u32 r) <$> sqs_prevOffset seqState; dc_litPtr := dc_litPtr dctx; dc_litSize := dc_litSize dctx; dc_litBuffer := dc_litBuffer dctx;
             dc_litBufferLocation := dc_litBufferLocation dctx; dc_prefixStart := dc_prefixStart dctx; dc_virtualStart := dc_virtualStart dctx;
             dc_dictEnd := dc_dictEnd dctx |})
    else Ok (m, ostart, dc_litPtr dctx, dctx) in
  let lastLLSize := size_t (litEnd - litPtr) in
  reject_if (size_t (oend - op) <? lastLLSize) ZSTD_error_dstSize_tooSmall ;;;
  let* m := memcpy m op litPtr lastLLSize in
  Ok (op + lastLLSize - ostart, m, dctx).

Definition ZSTD_decompressSequences := ZSTD_decompressSequences_body.
End Definitions.

(** ** Reading back what the encoder wrote *)

Section Read.
Context `{P : Platform}.

Lemma reload_if_spec b d size fs lim : r_fields d size fs lim -> exists d', reload_if b d = Ok d' /\ r_fields d' size fs (if b then 7 else lim).
Proof.
  intros Hr. unfold reload_if. destruct b; [|by exists d]. destruct (r_reload d size fs lim Hr) as (st & d' & -> & Hr'). cbn [obind]. by exists d'.
Qed.

Lemma read_extra_spec value v nb d size fs lim : r_fields d size (fs ++ [(v, nb)]) lim -> 0 <= nb < 32 -> lim + nb <= regBits ->
  0 <= value -> value + 2 ^ nb <= 2 ^ 32 ->
  exists d', read_extra value nb d = Ok (value + v mod 2 ^ nb, d') /\ r_fields d' size fs (lim + nb).
Proof.
  intros Hr Hnb Hreg Hv Hs. unfold read_extra. pose proof (Z.mod_pos_bound v (2 ^ nb) ltac:(apply pow2_pos; lia)). destruct (Z.ltb_spec 0 nb) as [Hp|Hz].
  - destruct (r_readFast d size fs v nb lim Hr) as (d' & -> & Hr'); [lia|lia|]. cbn [obind]. exists d'. split; [|done]. rewrite size_t_small by lia. done.
  - assert (nb = 0) as -> by lia. exists d. rewrite Z.mod_1_r, !Z.add_0_r. split; [done|]. assert (Forall nonneg fs) as Hfs by (destruct Hr as [Hf _]; by apply Forall_app in Hf as [? _]).
    eapply r_fields_same; [done| | |exact Hr].
    + rewrite val_app by done. cbn -[Z.pow]. rewrite Z.mod_1_r. lia.
    + rewrite bits_app. cbn. lia.
Qed.

Lemma update_spec st i nb next d size fs lim : r_fields d size (fs ++ [(i, nb)]) lim -> 0 <= nb <= 15 -> lim + nb <= regBits ->
  next + i mod 2 ^ nb = i -> 0 <= i < 2 ^ 32 ->
  exists d', ZSTD_updateFseStateWithDInfo st d next nb = Ok ({| fss_state := i; fss_table := fss_table st |}, d') /\ r_fields d' size fs (lim + nb).
Proof.
  intros Hr Hnb Hreg He Hi. destruct (r_read d size fs i nb lim Hr) as (_ & d' & Hd & Hr'); [lia|lia|]. exists d'. split; [|done].
  unfold ZSTD_updateFseStateWithDInfo. rewrite Hd. cbn [obind]. rewrite He, size_t_small by done. done.
Qed.

(** Code [n] of an offset stands for [2^n - 3] and [n] additional bits. *)
Lemma OF_tables n : 0 <= n <= MaxOff -> nth (Z.to_nat n) OF_bits 0 = n /\ nth (Z.to_nat n) OF_base 0 = (if n =? 0 then 0 else if n =? 1 then 1 else 2 ^ n - 3).
Proof.
  intros Hn. unfold MaxOff in Hn. rewrite <- !Z.eqb_eq, <- andb_true_iff.
  refine (all_below_spec 32 (fun n => (nth (Z.to_nat n) OF_bits 0 =? n) && (nth (Z.to_nat n) OF_base 0 =? (if n =? 0 then 0 else if n =? 1 then 1 else 2 ^ n - 3))) n _ _);
    [by vm_compute|lia].
Qed.

(** Offsets as the format allows them: three offsets of 32 bits, not zero. *)
Definition rep_ok (rep : list Z) : Prop := length rep = 3%nat /\ Forall (fun r => 1 <= r < 2 ^ 32) rep.

Lemma rep_ok_3 a b c : 1 <= a < 2 ^ 32 -> 1 <= b < 2 ^ 32 -> 1 <= c < 2 ^ 32 -> rep_ok [a; b; c].
Proof. intros Ha Hb Hc. split; [done|]. do 3 (apply Forall_cons_2; [done|]). apply Forall_nil_2. Qed.

(** What [longOffsets] and the window allow an offset code to be. *)
Definition of_fits (longOffsets : bool) (n : Z) : Prop :=
  MEM_64bits = false -> n <= ZSTD_WINDOWLOG_MAX_32 /\ (longOffsets = false -> n <= STREAM_ACCUMULATOR_MIN_32).

(** An offset above the repeated ones. *)
Lemma decode_new_offset lo ob n ll0 d size fs p0 p1 p2 : n = Z.log2 ob -> 3 < ob < 2 ^ 32 -> of_fits lo n -> r_fields d size (fs ++ [(ob, n)]) 7 ->
  exists d', decode_offset lo (nth (Z.to_nat n) OF_base 0) n ll0 d [p0; p1; p2] = Ok (ob - 3, d', [ob - 3; p0; p1]) /\
    r_fields d' size fs (if MEM_64bits then 7 + n else 12).
Proof.
  intros Hn Hob Hfit Hr. assert (2 <= n <= 31) as Hnr.
  { rewrite Hn. split; [apply Z.log2_le_pow2; lia|]. assert (Z.log2 ob < 32) by (apply Z.log2_lt_pow2; lia). lia. }
  destruct (OF_tables n) as [_ ->]; [unfold MaxOff; lia|]. rewrite (proj2 (Z.eqb_neq n 0)), (proj2 (Z.eqb_neq n 1)) by lia.
  assert (2 ^ n <= ob < 2 * 2 ^ n) as Hlg by (pose proof (Z.log2_spec ob ltac:(lia)) as [H1 H2]; rewrite <- Hn, Z.pow_succ_r in * by lia; lia).
  assert (ob mod 2 ^ n = ob - 2 ^ n) as Hm by (symmetry; apply Z.mod_unique_pos with 1; lia).
  assert (2 ^ n <= 2 ^ 31) by (apply Z.pow_le_mono_r; lia). assert (2 ^ 2 <= 2 ^ n) by (apply Z.pow_le_mono_r; lia).
  pose proof regBits_val as Hreg. unfold decode_offset, MEM_32bits, STREAM_ACCUMULATOR_MIN_32. rewrite (proj2 (Z.ltb_lt 1 n)) by lia. cbn [aget obind].
  change (aget [p0; p1; p2] 0) with (Ok p0 : res Z). change (aget [p0; p1; p2] 1) with (Ok p1 : res Z). change (aget [p0; p1; p2] 2) with (Ok p2 : res Z). cbn [obind].
  unfold of_fits, ZSTD_WINDOWLOG_MAX_32, STREAM_ACCUMULATOR_MIN_32 in Hfit. destruct (negb MEM_64bits && lo && (25 <=? n)) eqn:Hlong.
  - rewrite !andb_true_iff in Hlong. destruct Hlong as [[H64%negb_true_iff ->] H25]. rewrite H64 in *. destruct (Hfit eq_refl) as [H30 _].
    change LONG_OFFSETS_MAX_EXTRA_BITS_32 with 5. assert (Forall nonneg fs) as Hfs by (destruct Hr as [Hf _]; by apply Forall_app in Hf as [? _]).
    destruct (field_split fs ob 5 n Hfs ltac:(lia)) as [Hv Hb]. apply (r_fields_same _ _ _ (fs ++ [(ob, 5); (Z.shiftr ob 5, n - 5)])) in Hr; [|apply Forall_app; split; [done|repeat constructor; unfold nonneg; cbn [snd]; lia]|done|done].
    change [(ob, 5); (Z.shiftr ob 5, n - 5)] with ([(ob, 5)] ++ [(Z.shiftr ob 5, n - 5)]) in Hr. rewrite app_assoc in Hr.
    destruct (r_readFast d size _ _ _ _ Hr) as (d1 & -> & Hr1); [lia|lia|]. cbn [obind].
    destruct (r_reload d1 size _ _ Hr1) as (st & d2 & -> & Hr2). cbn [obind]. destruct (r_readFast d2 size _ _ _ _ Hr2) as (d3 & -> & Hr3); [lia|lia|]. cbn [obind].
    assert (ob mod 2 ^ n = ob mod 2 ^ 5 + 2 ^ 5 * (Z.shiftr ob 5 mod 2 ^ (n - 5))) as Hsplit.
    { rewrite Z.shiftr_div_pow2 by lia. rewrite <- Z.rem_mul_r by (try apply pow2_pos; lia). rewrite <- Z.pow_add_r by lia. f_equal. f_equal. lia. }
    set (hi := Z.shiftr ob 5 mod 2 ^ (n - 5)) in *. set (low := ob mod 2 ^ 5) in *. assert (0 <= low < 2 ^ 5) by (apply Z.mod_pos_bound; lia).
    assert (0 <= hi) by (apply Z.mod_pos_bound, pow2_pos; lia).
    rewrite Z.shiftl_mul_pow2 by lia. rewrite (size_t_small (hi * 2 ^ 5)), (size_t_small (2 ^ n - 3 + _)), size_t_small by lia.
    exists d3. split; [|eapply r_weaken; [exact Hr3|lia]]. replace (2 ^ n - 3 + hi * 2 ^ 5 + low) with (ob - 3) by lia. done.
  - assert (7 + n <= regBits) as Hroom.
    { rewrite Hreg. destruct MEM_64bits; [lia|]. destruct (Hfit eq_refl) as [_ Hs]. destruct lo; [|specialize (Hs eq_refl); lia]. cbn [negb andb] in Hlong. lia. }
    destruct (r_readFast d size _ _ _ _ Hr) as (d1 & -> & Hr1); [lia|lia|]. cbn [obind]. destruct (reload_if_spec (negb MEM_64bits) d1 size _ _ Hr1) as (d2 & -> & Hr2). cbn [obind].
    rewrite Hm, size_t_small by lia. exists d2. split; [by replace (2 ^ n - 3 + (ob - 2 ^ n)) with (ob - 3) by lia|].
    destruct MEM_64bits; cbn [negb] in Hr2; [done|]. eapply r_weaken; [exact Hr2|lia].
Qed.

(** The decoder resolves an offset the way [ZSTD_updateRep] does. *)
Lemma decode_offset_spec lo ob n ll0 d size fs rep rep' off : n = Z.log2 ob -> 0 < ob < 2 ^ 32 -> of_fits lo n -> r_fields d size (fs ++ [(ob, n)]) 7 ->
  rep_ok rep -> ZSTD_updateRep rep ob ll0 = Ok rep' -> head rep' = Some off -> 1 <= off ->
  rep_ok rep' /\ exists d', decode_offset lo (nth (Z.to_nat n) OF_base 0) n ll0 d rep = Ok (off, d', rep') /\
    r_fields d' size fs (if MEM_64bits then 7 + n else 12).
Proof.
  intros Hn Hob Hfit Hr [Hlen Hrep] Hup Hoff Hpos. destruct rep as [|p0 [|p1 [|p2 [|? ?]]]]; try done. clear Hlen.
  rewrite !Forall_cons in Hrep. destruct Hrep as (R0 & R1 & R2 & _). pose proof regBits_val as Hreg. unfold ZSTD_updateRep, ZSTD_REP_NUM in Hup.
  change (aget [p0; p1; p2] 0) with (Ok p0 : res Z) in Hup. change (aget [p0; p1; p2] 1) with (Ok p1 : res Z) in Hup. change (aget [p0; p1; p2] 2) with (Ok p2 : res Z) in Hup.
  cbn [obind] in Hup. destruct (Z.ltb_spec 3 ob) as [Hnew|Hrc].
  - injection Hup as <-. injection Hoff as <-. split; [apply rep_ok_3; lia|]. apply decode_new_offset; [done|lia|done|done].
  - rewrite (proj2 (Z.leb_le 1 ob)) in Hup by lia. cbn [oassert obind] in Hup. unfold decode_offset.
    change (aget [p0; p1; p2] 0) with (Ok p0 : res Z). change (aget [p0; p1; p2] 1) with (Ok p1 : res Z). change (aget [p0; p1; p2] 2) with (Ok p2 : res Z). cbn [obind].
    destruct (decide (ob = 1)) as [->|Hne].
    + change (Z.log2 1) with 0 in Hn. subst n. cbn [Z.ltb Z.compare Z.eqb].
      assert (r_fields d size fs (if MEM_64bits then 7 + 0 else 12)) as Hd.
      { eapply r_weaken; [eapply r_fields_same; [| | |exact Hr]|destruct MEM_64bits; lia];
          [destruct Hr as [Hf _]; by apply Forall_app in Hf as [? _]|rewrite val_app by (destruct Hr as [Hf _]; by apply Forall_app in Hf as [? _]); cbn -[Z.pow]; rewrite Z.mod_1_r; lia|rewrite bits_app; cbn; lia]. }
      destruct ll0; cbn in Hup; injection Hup as <-; injection Hoff as <-; (split; [by apply rep_ok_3|]); exists d; done.
    + assert (n = 1) as -> by (rewrite Hn; apply Z.log2_unique; lia). cbn [Z.ltb Z.compare Z.eqb Pos.compare Pos.compare_cont]. change (nth (Z.to_nat 1) OF_base 0) with 1.
      destruct (r_readFast d size _ _ _ _ Hr) as (d' & -> & Hr'); [lia|destruct MEM_64bits; lia|]. cbn [obind].
      assert (ob mod 2 ^ 1 = ob - 2) as -> by (symmetry; apply Z.mod_unique_pos with 1; lia).
      replace (1 + (if ll0 then 1 else 0) + (ob - 2)) with (ob - 1 + (if ll0 then 1 else 0)) by lia.
      set (rc := ob - 1 + (if ll0 then 1 else 0)) in *. assert (1 <= rc <= 3) as Hrc' by (unfold rc; destruct ll0; lia). rewrite size_t_small by lia.
      rewrite (proj2 (Z.ltb_lt 0 rc)) in Hup by lia.
      assert (exists cur, (if rc =? 3 then Ok (u32 (p0 - 1)) else aget [p0; p1; p2] rc) = (Ok cur : res Z) /\ 0 <= cur < 2 ^ 32 /\
        (if rc =? 3 then Ok (size_t (p0 - 1)) else aget [p0; p1; p2] rc) = (Ok cur : res Z)) as (cur & E1 & Hcr & E2).
      { destruct (Z.eqb_spec rc 3); [exists (p0 - 1); rewrite wrap_small, size_t_small by lia; split_and!; (done || lia)|].
        assert (rc = 1 \/ rc = 2) as [-> | ->] by lia; [exists p1|exists p2]; split_and!; (done || lia). }
      rewrite E1 in Hup. rewrite E2. cbn [obind] in *. injection Hup as <-. injection Hoff as <-. rewrite (proj2 (Z.eqb_neq cur 0)), Z.sub_0_r, size_t_small by lia.
      replace (negb (rc =? 1)) with (2 <=? rc) by lia. split; [apply rep_ok_3; [lia|lia|destruct (2 <=? rc); lia]|].
      exists d'. split; [done|]. eapply r_weaken; [exact Hr'|destruct MEM_64bits; lia].
Qed.

(** The codes of a sequence, as the decoder can take them. *)
Definition dq_ok (lo : bool) (q : coded_seq) : Prop :=
  0 <= q_ll q <= MaxLL /\ 0 <= q_ml q <= MaxML /\ q_of q = Z.log2 (sd_offBase (q_def q)) /\ 0 < sd_offBase (q_def q) < 2 ^ 32 /\ of_fits lo (q_of q).

(** The lengths the codes stand for. *)
Definition q_lit (q : coded_seq) : Z := code_val LL_base LL_bits (q_ll q) (sd_litLength (q_def q)).
Definition q_match (q : coded_seq) : Z := code_val ML_base ML_bits (q_ml q) (sd_mlBase (q_def q)).

(** A check over the codes of a table: bases and bits fit, and only a code without additional bits has base 0. *)
Definition base_check (base bits : list Z) (c : Z) : bool :=
  let b := nth (Z.to_nat c) base 0 in let n := nth (Z.to_nat c) bits 0 in
  (0 <=? n) && (n <=? 16) && (0 <=? b) && (b <=? 2 ^ 17) && (if b =? 0 then n =? 0 else true).

Lemma code_bases lo q : dq_ok lo q -> let B := nth (Z.to_nat (q_ll q)) LL_base 0 in let M := nth (Z.to_nat (q_ml q)) ML_base 0 in
  0 <= llb q <= 16 /\ 0 <= mlb q <= 16 /\ 0 <= B <= 2 ^ 17 /\ 0 <= M <= 2 ^ 17 /\ (B =? 0) = (q_lit q =? 0).
Proof.
  intros (Hl & Hm & _) B M. unfold MaxLL, MaxML in *.
  assert (base_check LL_base LL_bits (q_ll q) = true) as H1 by (refine (all_below_spec 36 _ _ _ _); [by vm_compute|lia]).
  assert (base_check ML_base ML_bits (q_ml q) = true) as H2 by (refine (all_below_spec 53 _ _ _ _); [by vm_compute|lia]).
  unfold base_check in H1, H2. fold (llb q) (mlb q) B M in H1, H2. rewrite !andb_true_iff in H1, H2. destruct H1 as ((((A1 & A2) & A3) & A4) & A5), H2 as ((((B1 & B2) & B3) & B4) & _).
  assert (0 <= llb q) by lia. pose proof (Z.mod_pos_bound (sd_litLength (q_def q)) (2 ^ llb q) ltac:(by apply pow2_pos)).
  split; [lia|]. split; [lia|]. split; [lia|]. split; [lia|]. unfold q_lit, code_val. fold (llb q) B. destruct (Z.eqb_spec B 0) as [E|]; [|lia].
  apply Z.eqb_eq in A5. rewrite A5, Z.mod_1_r in *. lia.
Qed.

Lemma decode_values_spec lo q d size fs rep rep' off cl cm co : dq_ok lo q -> r_fields d size (fs ++ extra_fields q) 7 ->
  rep_ok rep -> ZSTD_updateRep rep (sd_offBase (q_def q)) (q_lit q =? 0) = Ok rep' -> head rep' = Some off -> 1 <= off ->
  baseValue cl = nth (Z.to_nat (q_ll q)) LL_base 0 -> nbAdditionalBits cl = llb q ->
  baseValue cm = nth (Z.to_nat (q_ml q)) ML_base 0 -> nbAdditionalBits cm = mlb q ->
  baseValue co = nth (Z.to_nat (q_of q)) OF_base 0 -> nbAdditionalBits co = nth (Z.to_nat (q_of q)) OF_bits 0 ->
  rep_ok rep' /\ exists d', decode_values lo cl cm co d rep = Ok ({| litLength := q_lit q; matchLength := q_match q; offset := off |}, d', rep') /\
    r_fields d' size fs (if MEM_64bits then 37 else 7).
Proof.
  intros Hq Hr Hrep Hup Hoff Hpos B1 B2 B3 B4 B5 B6. pose proof Hq as (_ & _ & Hof & Hob & Hfit). destruct (code_bases lo q Hq) as (L1 & L2 & L3 & L4 & Hll0).
  assert (0 <= q_of q <= 31) as Hor by (rewrite Hof; split; [apply Z.log2_nonneg|]; assert (Z.log2 (sd_offBase (q_def q)) < 32) by (apply Z.log2_lt_pow2; lia); lia).
  destruct (OF_tables (q_of q)) as [Hbits _]; [done|]. rewrite Hbits in B6. pose proof regBits_val as Hreg.
  assert (2 ^ llb q <= 2 ^ 16) by (apply Z.pow_le_mono_r; lia). assert (2 ^ mlb q <= 2 ^ 16) by (apply Z.pow_le_mono_r; lia).
  unfold decode_values. rewrite B1, B2, B3, B4, B5, B6, Hll0.
  rewrite (proj2 (Z.leb_le (llb q) MaxLLBits)), (proj2 (Z.leb_le (mlb q) MaxMLBits)), (proj2 (Z.leb_le (q_of q) MaxOff)) by (unfold MaxLLBits, MaxMLBits, MaxOff; lia).
  cbn [oassert obind]. unfold extra_fields in Hr. change [?a; ?b; ?c] with ([a] ++ [b] ++ [c]) in Hr. rewrite !app_assoc in Hr.
  destruct (decode_offset_spec lo _ _ (q_lit q =? 0) d size _ rep rep' off Hof Hob Hfit Hr Hrep Hup Hoff Hpos) as (Hrep' & d1 & -> & Hr1).
  split; [done|]. cbn [obind]. set (l1 := if MEM_64bits then 7 + q_of q else 12) in Hr1. assert (l1 + mlb q <= regBits) by (unfold l1; rewrite Hreg; destruct MEM_64bits; lia).
  destruct (read_extra_spec (nth (Z.to_nat (q_ml q)) ML_base 0) _ _ d1 size _ l1 Hr1) as (d2 & -> & Hr2); [lia|lia|lia|lia|]. cbn [obind].
  unfold MEM_32bits, STREAM_ACCUMULATOR_MIN_32, STREAM_ACCUMULATOR_MIN_64, LLFSELog, MLFSELog, OffFSELog. change LONG_OFFSETS_MAX_EXTRA_BITS_32 with 5.
  destruct (reload_if_spec (negb MEM_64bits && (25 - 5 <=? mlb q + llb q)) d2 size _ _ Hr2) as (d3 & -> & Hr3). cbn [obind].
  rewrite (wrap_small 8) by lia.
  destruct (reload_if_spec (MEM_64bits && (57 - (9 + 9 + 8) <=? llb q + mlb q + q_of q)) d3 size _ _ Hr3) as (d4 & -> & Hr4). cbn [obind].
  match type of Hr4 with r_fields _ _ _ ?l => set (l4 := l) in * end.
  assert (l4 + llb q <= regBits /\ (MEM_64bits = true -> l4 + llb q <= 37)) as [Hl4 Hl4'].
  { unfold l4, l1. rewrite Hreg. destruct MEM_64bits; cbn [negb andb];
      [destruct (Z.leb_spec (57 - (9 + 9 + 8)) (llb q + mlb q + q_of q)) | destruct (Z.leb_spec (25 - 5) (mlb q + llb q))]; (split; [lia|lia || done]). }
  destruct (read_extra_spec (nth (Z.to_nat (q_ll q)) LL_base 0) _ _ d4 size _ l4 Hr4) as (d5 & -> & Hr5); [lia|lia|lia|lia|]. cbn [obind].
  destruct (reload_if_spec (negb MEM_64bits) d5 size _ _ Hr5) as (d6 & -> & Hr6). cbn [obind]. exists d6. split; [done|].
  eapply r_weaken; [exact Hr6|]. destruct MEM_64bits; cbn [negb]; [by apply Hl4'|lia].
Qed.
End Read.

Section Stream.
Context `{P : Platform} (tLL tOF tML : SeqTable) (size : Z).
Hypothesis Hlogs : 0 <= st_tableLog tLL <= LLFSELog /\ 0 <= st_tableLog tOF <= OffFSELog /\ 0 <= st_tableLog tML <= MLFSELog.

(** The decoder is in states [il], [io], [im], with the fields [fs] to read. *)
Definition dec_at (s : seqState_t) (il io im : Z) (fs : list (Z * Z)) (rep : list Z) : Prop :=
  sqs_stateLL s = {| fss_state := il; fss_table := st_cells tLL |} /\
  sqs_stateOffb s = {| fss_state := io; fss_table := st_cells tOF |} /\
  sqs_stateML s = {| fss_state := im; fss_table := st_cells tML |} /\
  sqs_prevOffset s = rep /\ r_fields (sqs_DStream s) size fs 7.

Definition state_in (t : SeqTable) (i : Z) : Prop := 0 <= i < 2 ^ st_tableLog t.

Lemma seq_stream_states il io im fs qs : seq_stream tLL tOF tML il io im fs qs -> state_in tLL il /\ state_in tOF io /\ state_in tML im.
Proof.
  destruct 1 as [q il io im cl co cm Cl Co Cm|q qs fs il io im nl no nm il' io' im' _ Cl Co Cm].
  - split; [apply Cl|]. split; [apply Co|apply Cm].
  - destruct Cl as (_ & ? & Cl & _), Co as (_ & ? & Co & _), Cm as (_ & ? & Cm & _). split; [apply Cl|]. split; [apply Co|apply Cm].
Qed.

Lemma state_small t i : state_in t i -> st_tableLog t <= 9 -> 0 <= i < 2 ^ 32.
Proof. intros Hi Ht. unfold state_in in Hi. assert (2 ^ st_tableLog t <= 2 ^ 9) by (apply Z.pow_le_mono_r; lia). lia. Qed.

Lemma cell_get bases bits t i s c : cell_for bases bits t i s c -> aget (st_cells t) i = (Ok c : res ZSTD_seqSymbol).
Proof. intros (Hi & Hc & _). apply aget_Ok. split; [lia|done]. Qed.

Lemma decode_last_spec lo s il io im q cl co cm rep rep' off : dec_at s il io im (extra_fields q) rep -> dq_ok lo q ->
  cell_for LL_base LL_bits tLL il (q_ll q) cl -> cell_for OF_base OF_bits tOF io (q_of q) co -> cell_for ML_base ML_bits tML im (q_ml q) cm ->
  rep_ok rep -> ZSTD_updateRep rep (sd_offBase (q_def q)) (q_lit q =? 0) = Ok rep' -> head rep' = Some off -> 1 <= off ->
  rep_ok rep' /\ exists s', ZSTD_decodeSequence s lo true = Ok ({| litLength := q_lit q; matchLength := q_match q; offset := off |}, s') /\
    sqs_prevOffset s' = rep' /\ BIT_endOfDStream (sqs_DStream s') = true.
Proof.
  intros (El & Eo & Em & Hp & Hr) Hq Cl Co Cm Hrep Hup Hoff Hpos. unfold ZSTD_decodeSequence. rewrite El, Eo, Em, Hp. cbn [fss_table fss_state].
  rewrite (cell_get _ _ _ _ _ _ Cl), (cell_get _ _ _ _ _ _ Co), (cell_get _ _ _ _ _ _ Cm). cbn [obind]. destruct Cl as (_ & _ & L1 & L2), Co as (_ & _ & O1 & O2), Cm as (_ & _ & M1 & M2).
  destruct (decode_values_spec lo q (sqs_DStream s) size [] rep rep' off cl cm co) as (Hrep' & d' & -> & Hr'); try done. cbn [obind negb]. split; [done|].
  eexists. split; [reflexivity|]. split; [done|]. by eapply r_end.
Qed.

Lemma decode_more_spec lo s il io im fs q nl no nm il' io' im' rep rep' off :
  dec_at s il' io' im' (fs ++ [(io, no); (im, nm); (il, nl)] ++ extra_fields q) rep -> dq_ok lo q -> state_in tLL il -> state_in tOF io -> state_in tML im ->
  coder_step LL_base LL_bits tLL il (q_ll q) nl il' -> coder_step OF_base OF_bits tOF io (q_of q) no io' -> coder_step ML_base ML_bits tML im (q_ml q) nm im' ->
  rep_ok rep -> ZSTD_updateRep rep (sd_offBase (q_def q)) (q_lit q =? 0) = Ok rep' -> head rep' = Some off -> 1 <= off ->
  rep_ok rep' /\ exists s', ZSTD_decodeSequence s lo false = Ok ({| litLength := q_lit q; matchLength := q_match q; offset := off |}, s') /\
    dec_at s' il io im fs rep'.
Proof.
  intros (El & Eo & Em & Hp & Hr) Hq Sl So Sm (Nl & cl & Cl & Bl & Xl) (No & co & Co & Bo & Xo) (Nm & cm & Cm & Bm & Xm) Hrep Hup Hoff Hpos.
  destruct Hlogs as (Hl & Ho & Hm). unfold LLFSELog, OffFSELog, MLFSELog in *. pose proof regBits_val as Hreg.
  unfold ZSTD_decodeSequence. rewrite El, Eo, Em, Hp. cbn [fss_table fss_state].
  rewrite (cell_get _ _ _ _ _ _ Cl), (cell_get _ _ _ _ _ _ Co), (cell_get _ _ _ _ _ _ Cm). cbn [obind]. destruct Cl as (_ & _ & L1 & L2), Co as (_ & _ & O1 & O2), Cm as (_ & _ & M1 & M2).
  rewrite app_assoc in Hr. destruct (decode_values_spec lo q (sqs_DStream s) size _ rep rep' off cl cm co Hq Hr) as (Hrep' & d1 & -> & Hr1); try done. cbn [obind negb]. split; [done|].
  change [(io, no); (im, nm); (il, nl)] with ([(io, no)] ++ [(im, nm)] ++ [(il, nl)]) in Hr1. rewrite !app_assoc in Hr1. rewrite Bl, Bm, Bo.
  destruct (update_spec {| fss_state := il'; fss_table := st_cells tLL |} il nl (nextState cl) d1 size _ _ Hr1) as (d2 & -> & Hr2);
    [lia|destruct MEM_64bits; lia|done|by apply (state_small tLL); [|lia]|]. cbn [obind].
  destruct (update_spec {| fss_state := im'; fss_table := st_cells tML |} im nm (nextState cm) d2 size _ _ Hr2) as (d3 & -> & Hr3);
    [lia|destruct MEM_64bits; lia|done|by apply (state_small tML); [|lia]|]. cbn [obind].
  destruct (reload_if_spec MEM_32bits d3 size _ _ Hr3) as (d4 & -> & Hr4). cbn [obind]. unfold MEM_32bits in *.
  destruct (update_spec {| fss_state := io'; fss_table := st_cells tOF |} io no (nextState co) d4 size _ _ Hr4) as (d5 & -> & Hr5);
    [lia|destruct MEM_64bits; cbn [negb]; lia|done|by apply (state_small tOF); [|lia]|]. cbn [obind].
  destruct (reload_if_spec true d5 size _ _ Hr5) as (d6 & -> & Hr6). cbn [obind]. eexists. split; [reflexivity|]. done.
Qed.
End Stream.
