(* ===== verification/SeqBlock.v ===== *)
(** * The sequences of a block, from the match finder to the regenerated bytes

    [lz_block] is what a list of sequences and the literals of a block mean; [resolve] turns the
    repeated-offset codes of the format into offsets.  [ZSTD_decompressSequences] is shown to compute
    [lz_block] from the bit stream [ZSTD_encodeSequences] wrote. *)
From S2P Require Import Prelude Mem Errors Bits BitStream BitFields Fse FseSpread FseBuild FseState Frame ExecSeq SeqTable SeqStore SeqEncode SeqDecode.

(** ** The reference *)

(** Each sequence copies literals, then a match; what is left of the literals ends the block. *)
Fixpoint lz_block (h lits : list Z) (seqs : list seq_t) : option (list Z) :=
  match seqs with
  | [] => Some (h ++ lits)
  | s :: seqs =>
      if (zlen lits <? litLength s) || (zlen h + litLength s <? offset s) then None
      else lz_block (lz_copy (Z.to_nat (matchLength s)) (offset s) (h ++ take (Z.to_nat (litLength s)) lits))
             (drop (Z.to_nat (litLength s)) lits) seqs
  end.

(** The sequences a store holds, with the offsets their codes stand for after the offsets [rep]. *)
Fixpoint resolve `{P : Platform} (rep : list Z) (fs : list found) : res (list seq_t * list Z) :=
  match fs with
  | [] => Ok ([], rep)
  | (ll, ob, ml) :: fs =>
      let* rep := ZSTD_updateRep rep ob (ll =? 0) in
      let* off := aget rep 0 in
      let* (seqs, rep) := resolve rep fs in
      Ok ({| litLength := ll; matchLength := ml; offset := off |} :: seqs, rep)
  end.

Lemma lz_block_len seqs : forall h lits h', Forall (fun s => 0 <= litLength s /\ 0 <= matchLength s) seqs ->
  lz_block h lits seqs = Some h' -> zlen h + zlen lits <= zlen h'.
Proof.
  induction seqs as [|s seqs IH]; intros h lits h' Hf Hb; cbn [lz_block] in Hb; [injection Hb as <-; rewrite zlen_app; lia|].
  apply Forall_cons in Hf as [[Hl Hm] Hf]. destruct (Z.ltb_spec (zlen lits) (litLength s)); [done|]. cbn [orb] in Hb. destruct (_ <? _); [done|].
  apply IH in Hb; [|done]. rewrite zlen_lz_copy, zlen_app in Hb. unfold zlen in *. rewrite length_take, length_drop in Hb. lia.
Qed.

(** ** Executing sequences *)

Section Execute.
Context `{P : Platform} (m0 : list Z) (ostart oend litPtr0 litEnd prefixStart virtualStart dictEnd : Z).
Hypothesis Hlay : layout m0 ostart oend oend litPtr0 litEnd prefixStart virtualStart dictEnd.
Hypothesis Hsep : litEnd + WILDCOPY_OVERLENGTH <= ostart \/ oend <= litPtr0.

Let hist := history prefixStart virtualStart dictEnd.

(** Only the output has been written, and what is left of the literals is there. *)
Definition mem_inv (m : list Z) (op litPtr : Z) : Prop :=
  zlen m = zlen m0 /\ ostart <= op <= oend /\ litPtr0 <= litPtr <= litEnd /\
  (forall a, 0 <= a -> a < ostart \/ oend <= a -> rd m a = rd m0 a).

Lemma rd_slice (m : list Z) i n x : 0 <= i -> i + n <= zlen m -> 0 <= x < n -> rd (slice m i n) x = rd m (i + x).
Proof.
  intros Hi Hn Hx. apply rd_of_lookup. rewrite lookup_slice by lia.
  replace (i + x) with (i + Z.of_nat (Z.to_nat x)) by lia. rewrite <- rd_lookup by lia. f_equal. lia.
Qed.

Lemma lits_kept m op litPtr n : mem_inv m op litPtr -> 0 <= n -> litPtr + n <= litEnd -> slice m litPtr n = slice m0 litPtr n.
Proof.
  intros (Hz & Hop & Hl & Hfr) Hn Hle. destruct Hlay as [Ho Hli _ _]. unfold WILDCOPY_OVERLENGTH in *. apply list_rd_eq.
  - rewrite !zlen_slice by lia. done.
  - rewrite zlen_slice by lia. intros x Hx. rewrite !rd_slice by lia. apply Hfr; lia.
Qed.

Lemma layout_at m op litPtr : mem_inv m op litPtr -> layout m op oend oend litPtr litEnd prefixStart virtualStart dictEnd /\ (litEnd + WILDCOPY_OVERLENGTH <= op \/ oend <= litPtr).
Proof.
  intros (Hz & Hop & Hl & _). destruct Hlay as [Ho Hli Hd Hs]. split; [|lia]. constructor; rewrite ?Hz; [lia|lia| |done].
  intros Hv. destruct (Hd Hv) as (H1 & H2 & H3). lia.
Qed.

(** A sequence of a block that [lz_block] accepts and whose result fits. *)
Lemma exec_step m op litPtr s seqs h' : mem_inv m op litPtr -> Forall seq_ok (s :: seqs) ->
  lz_block (hist m op) (slice m0 litPtr (litEnd - litPtr)) (s :: seqs) = Some h' -> zlen h' <= oend - virtualStart ->
  exists m' n, ZSTD_execSequence oend litEnd prefixStart virtualStart dictEnd m op s litPtr = Ok (n, litPtr + litLength s, m') /\
    mem_inv m' (op + n) (litPtr + litLength s) /\
    lz_block (hist m' (op + n)) (slice m0 (litPtr + litLength s) (litEnd - (litPtr + litLength s))) seqs = Some h'.
Proof.
  intros Hm Hok Hb Hfit. destruct (layout_at m op litPtr Hm) as [Hl Hs]. pose proof Hm as (Hz & Hop & Hlp & Hfr).
  apply Forall_cons in Hok as [Hs0 Hoks]. pose proof Hs0 as (Hll & Hml & Hof & _). destruct Hlay as [Ho Hli Hd Hsz].
  pose proof (execSequence_spec m op oend litPtr litEnd prefixStart virtualStart dictEnd s Hs0 Hl Hs) as Hspec. unfold exec_spec in Hspec. cbv zeta in Hspec.
  unfold WILDCOPY_OVERLENGTH in *. cbn [lz_block] in Hb. unfold hist in Hb. rewrite zlen_slice in Hb by lia. rewrite zlen_history in Hb by lia.
  destruct (Z.ltb_spec (litEnd - litPtr) (litLength s)); [done|]. cbn [orb] in Hb. destruct (Z.ltb_spec (op - virtualStart + litLength s) (offset s)); [done|].
  assert (take (Z.to_nat (litLength s)) (slice m0 litPtr (litEnd - litPtr)) = slice m litPtr (litLength s)) as Htake.
  { rewrite (lits_kept m op litPtr) by (done || lia). unfold slice. rewrite take_take. f_equal. lia. }
  rewrite drop_slice, Htake in Hb by lia.
  assert (op + (litLength s + matchLength s) <= oend) as Hroom.
  { apply lz_block_len in Hb; [|eapply Forall_impl; [exact Hoks|]; intros ? (? & ? & _); lia].
    rewrite zlen_lz_copy, zlen_app, zlen_history, !zlen_slice in Hb by lia. lia. }
  rewrite (proj2 (Z.ltb_ge (oend - op) _)), (proj2 (Z.ltb_ge (op + litLength s - virtualStart) _)) in Hspec by lia.
  destruct Hspec as (m' & -> & Hz' & Hh' & Hfr'). exists m', (litLength s + matchLength s). split; [done|]. split.
  - split; [lia|]. split; [lia|]. split; [lia|]. intros a Ha Hout. rewrite Hfr' by lia. by apply Hfr.
  - unfold hist. rewrite Hh'. replace (litEnd - (litPtr + litLength s)) with (litEnd - litPtr - litLength s) by lia. done.
Qed.

(** The literals after the last sequence. *)
Lemma last_literals m op litPtr h' : mem_inv m op litPtr ->
  lz_block (hist m op) (slice m0 litPtr (litEnd - litPtr)) [] = Some h' -> zlen h' <= oend - virtualStart ->
  op + (litEnd - litPtr) <= oend /\ zlen h' = op + (litEnd - litPtr) - virtualStart /\
  exists m', memcpy m op litPtr (litEnd - litPtr) = Ok m' /\ hist m' (op + (litEnd - litPtr)) = h' /\ mem_inv m' (op + (litEnd - litPtr)) litEnd.
Proof.
  intros Hm Hb Hfit. destruct (layout_at m op litPtr Hm) as [Hl Hs]. pose proof Hm as (Hz & Hop & Hlp & Hfr). destruct Hlay as [Ho Hli Hd Hsz].
  cbn [lz_block] in Hb. injection Hb as Hb. set (n := litEnd - litPtr) in *. unfold WILDCOPY_OVERLENGTH in *.
  assert (zlen h' = op + n - virtualStart) as Hzh by (rewrite <- Hb; unfold hist; rewrite zlen_app, zlen_history, zlen_slice by (unfold n; lia); lia).
  split; [lia|]. split; [done|]. unfold memcpy. assert ((n <=? op - litPtr) || (n <=? litPtr - op) = true) as ->.
  { apply orb_true_iff. rewrite !Z.leb_le. unfold n in *. lia. }
  cbn [oassert obind]. destruct (memmove_spec m op litPtr n) as (m' & -> & Hz' & Hrd); [unfold n in *; lia..|]. exists m'. split; [done|]. split.
  - assert (0 <= n) by (unfold n; lia). assert (litPtr + n = litEnd) by (unfold n; lia). rewrite <- Hb, <- (lits_kept m op litPtr n) by (done || lia).
    apply (history_append prefixStart virtualStart dictEnd); [lia|lia|lia|lia| |].
    + intros a Ha. destruct (vaddr_before m op oend oend litPtr litEnd prefixStart virtualStart dictEnd {| litLength := 0; matchLength := 0; offset := 0 |} Hl a Ha) as [Hv0 Hv]. rewrite Hrd by done.
      destruct (Z.leb_spec op (vaddr prefixStart dictEnd a)); [|done]. rewrite (proj2 (Z.ltb_ge _ _)) by lia. done.
    + intros i Hi. rewrite Hrd by lia. rewrite (proj2 (Z.leb_le op _)), (proj2 (Z.ltb_lt _ _)) by lia. cbn [andb]. f_equal. lia.
  - split; [lia|]. split; [unfold n in *; lia|]. split; [unfold n in *; lia|]. intros a Ha Hout. rewrite Hrd by done.
    destruct (Z.leb_spec op a); [|by apply Hfr]. rewrite (proj2 (Z.ltb_ge _ _)) by lia. cbn [andb]. by apply Hfr.
Qed.
End Execute.

(** ** Decoding and executing a block *)

Definition found_of (q : coded_seq) : found := (q_lit q, sd_offBase (q_def q), q_match q).

Section Block.
Context `{P : Platform} (m0 : list Z) (ostart oend litPtr0 litEnd prefixStart virtualStart dictEnd : Z).
Hypothesis Hlay : layout m0 ostart oend oend litPtr0 litEnd prefixStart virtualStart dictEnd.
Hypothesis Hsep : litEnd + WILDCOPY_OVERLENGTH <= ostart \/ oend <= litPtr0.
Context (tLL tOF tML : SeqTable) (size : Z) (lo : bool) (rep' h' : list Z).
Hypothesis Hlogs : 0 <= st_tableLog tLL <= LLFSELog /\ 0 <= st_tableLog tOF <= OffFSELog /\ 0 <= st_tableLog tML <= MLFSELog.
Hypothesis Hfit : zlen h' <= oend - virtualStart.

(** The decoder before the sequences [qs], or at the end of the stream. *)
Definition dec_before (s : seqState_t) (qs : list coded_seq) (rep : list Z) : Prop :=
  match qs with
  | [] => sqs_prevOffset s = rep /\ BIT_endOfDStream (sqs_DStream s) = true
  | _ => exists il io im fs, seq_stream tLL tOF tML il io im fs qs /\ dec_at tLL tOF tML size s il io im fs rep
  end.

Definition block_inv (qs : list coded_seq) (st : seqState_t * list Z * Z * Z) : Prop :=
  let '(s, m, op, litPtr) := st in
  Forall (dq_ok lo) qs /\ mem_inv m0 ostart oend litPtr0 litEnd m op litPtr /\
  exists rep seqs, rep_ok rep /\ dec_before s qs rep /\ resolve rep (found_of <$> qs) = Ok (seqs, rep') /\ Forall seq_ok seqs /\
    lz_block (history prefixStart virtualStart dictEnd m op) (slice m0 litPtr (litEnd - litPtr)) seqs = Some h'.

(** One turn of the loop. *)
Definition block_turn (isLast : bool) (st : seqState_t * list Z * Z * Z) : res (seqState_t * list Z * Z * Z) :=
  let '(seqState, m, op, litPtr) := st in
  let* (sequence, seqState) := ZSTD_decodeSequence seqState lo isLast in
  let* (oneSeqSize, litPtr, m) := ZSTD_execSequence oend litEnd prefixStart virtualStart dictEnd m op sequence litPtr in
  Ok (seqState, m, op + oneSeqSize, litPtr).

Lemma aget_head (l : list Z) x : aget l 0 = (Ok x : res Z) -> head l = Some x.
Proof. intros H. apply aget_Ok in H as [_ H]. by destruct l. Qed.

Lemma decode_next s q qs rep rep1 off : dec_before s (q :: qs) rep -> Forall (dq_ok lo) (q :: qs) -> rep_ok rep ->
  ZSTD_updateRep rep (sd_offBase (q_def q)) (q_lit q =? 0) = Ok rep1 -> head rep1 = Some off -> 1 <= off ->
  rep_ok rep1 /\ exists s', ZSTD_decodeSequence s lo (bool_decide (qs = [])) = Ok ({| litLength := q_lit q; matchLength := q_match q; offset := off |}, s') /\ dec_before s' qs rep1.
Proof.
  intros (il & io & im & fs & Hs & Hd) Hq Hrep Hup Hoff Hpos. apply Forall_cons in Hq as [Hq _].
  inversion Hs as [q' ? ? ? cl co cm Cl Co Cm|q' qs' fs' il0 io0 im0 nl no nm il' io' im' Hs' Sl So Sm]; subst.
  - rewrite bool_decide_eq_true_2 by done. destruct (decode_last_spec tLL tOF tML size lo s il io im q cl co cm rep rep1 off) as (H1 & s' & H2 & H3 & H4); try done. split; [done|]. by exists s'.
  - assert (qs <> []) by (by inversion Hs'; subst). rewrite bool_decide_eq_false_2 by done. destruct (seq_stream_states tLL tOF tML _ _ _ _ _ Hs') as (Tl & To & Tm).
    destruct (decode_more_spec tLL tOF tML size Hlogs lo s il0 io0 im0 fs' q nl no nm il io im rep rep1 off) as (H1 & s' & H2 & H3); try done.
    split; [done|]. exists s'. split; [done|]. destruct qs; [done|]. by exists il0, io0, im0, fs'.
Qed.

Lemma block_step q qs st : block_inv (q :: qs) st -> exists st', block_turn (bool_decide (qs = [])) st = Ok st' /\ block_inv qs st'.
Proof.
  destruct st as [[[s m] op] litPtr]. intros (Hq & Hm & rep & seqs & Hrep & Hd & Hres & Hok & Hb). cbn [fmap list_fmap found_of resolve] in Hres.
  apply bind_Ok in Hres as (rep1 & Hup & Hres). apply bind_Ok in Hres as (off & Hoff & Hres). apply bind_Ok in Hres as ([seqs1 repx] & Hres & [= <- ->]).
  pose proof Hok as Hok0. apply Forall_cons in Hok0 as [(_ & _ & Hpos & _) Hok1]. cbn [offset] in Hpos.
  destruct (decode_next s q qs rep rep1 off Hd Hq Hrep Hup (aget_head _ _ Hoff) Hpos) as (Hrep1 & s' & Hdec & Hd').
  destruct (exec_step m0 ostart oend litPtr0 litEnd prefixStart virtualStart dictEnd Hlay Hsep m op litPtr _ _ _ Hm Hok Hb Hfit) as (m' & n & Hex & Hm' & Hb').
  unfold block_turn. rewrite Hdec. cbn [obind]. rewrite Hex. cbn [obind]. eexists. split; [reflexivity|].
  apply Forall_cons in Hq as [_ Hq]. split; [done|]. split; [done|]. by exists rep1, seqs1.
Qed.

Lemma block_loop nbSeq qs st : nbSeq = zlen qs -> block_inv qs st ->
  exists st', for_range 0 nbSeq (fun i st => block_turn (nbSeq - i =? 1) st) st = Ok st' /\ block_inv [] st'.
Proof.
  intros -> Hst. pose proof (zlen_nonneg qs).
  match goal with |- exists st', ?m = _ /\ _ => destruct (wp_exists m (fun st' => exists qs', zlen qs' = zlen qs - zlen qs /\ block_inv qs' st')) as (st' & -> & qs' & Hz & Hi) end.
  - apply (wp_for_range (fun i st' => exists qs', zlen qs' = zlen qs - i /\ block_inv qs' st')); [done|by exists qs; split; [lia|]|].
    intros i st1 Hi (qs' & Hz & Hinv). destruct qs' as [|q qs']; [change (zlen []) with 0 in Hz; lia|]. rewrite zlen_cons in Hz.
    replace (zlen qs - i =? 1) with (bool_decide (qs' = [])).
    2: { case_bool_decide as Hn; [subst qs'; change (zlen []) with 0 in Hz; symmetry; apply Z.eqb_eq; lia|]. symmetry. apply Z.eqb_neq. destruct qs'; [done|]. rewrite zlen_cons in Hz. pose proof (zlen_nonneg qs'). lia. }
    destruct (block_step q qs' st1 Hinv) as (st2 & -> & Hinv2). cbn [wp]. exists qs'. split; [lia|done].
  - exists st'. split; [done|]. assert (qs' = []) as -> by (apply nil_length_inv; unfold zlen in *; lia). done.
Qed.
End Block.

Section Decompress.
Context `{P : Platform}.

Lemma initFseState_spec t i d size fs lim : r_fields d size (fs ++ [(i, st_tableLog t)]) lim -> lim <= 8 -> 0 <= st_tableLog t <= 9 -> state_in t i ->
  exists d', ZSTD_initFseState d t = Ok ({| fss_state := i; fss_table := st_cells t |}, d') /\ r_fields d' size fs 7.
Proof.
  intros Hr Hl Ht Hi. pose proof regBits_val as Hreg. destruct (r_read d size fs i (st_tableLog t) lim Hr) as (_ & d1 & Hd & Hr1); [lia|destruct MEM_64bits; lia|].
  destruct (r_reload d1 size fs _ Hr1) as (st & d2 & Hre & Hr2). exists d2. split; [|done]. unfold ZSTD_initFseState. rewrite Hd. cbn [obind]. rewrite Hre. cbn [obind].
  by rewrite (Z.mod_small i) by done.
Qed.

Lemma rep_ok_u32 rep : rep_ok rep -> (fun r => u32 r) <$> rep = rep.
Proof.
  intros [_ Hf]. induction Hf as [|r rep Hr _ IH]; [done|]. rewrite fmap_cons, IH, wrap_small by lia. done.
Qed.

(** The bit stream of a block: the fields of its sequences, then the three initial states. *)
Definition stream_of (tLL tOF tML : SeqTable) (il io im : Z) (fs : list (Z * Z)) : list (Z * Z) :=
  fs ++ [(im, st_tableLog tML); (io, st_tableLog tOF); (il, st_tableLog tLL)].

Lemma decompressSequences_spec (dctx : ZSTD_DCtx) m0 ostart maxDstSize src seqStart qs lo il io im fs seqs rep' h' :
  let tLL := dc_LLTptr dctx in let tOF := dc_OFTptr dctx in let tML := dc_MLTptr dctx in
  let all := stream_of tLL tOF tML il io im fs in let size := fields_bits all / 8 + 1 in
  let oend := ostart + maxDstSize in let litEnd := dc_litPtr dctx + dc_litSize dctx in
  dc_litBufferLocation dctx = ZSTD_not_in_dst ->
  layout m0 ostart oend oend (dc_litPtr dctx) litEnd (dc_prefixStart dctx) (dc_virtualStart dctx) (dc_dictEnd dctx) ->
  litEnd + WILDCOPY_OVERLENGTH <= ostart \/ oend <= dc_litPtr dctx ->
  0 <= st_tableLog tLL <= LLFSELog /\ 0 <= st_tableLog tOF <= OffFSELog /\ 0 <= st_tableLog tML <= MLFSELog ->
  bytes src -> 0 <= seqStart -> seqStart + size <= zlen src -> Forall nonneg all -> le_val (slice src seqStart size) = fields_val all + 2 ^ fields_bits all ->
  qs <> [] -> seq_stream tLL tOF tML il io im fs qs -> Forall (dq_ok lo) qs -> rep_ok (dc_rep dctx) ->
  resolve (dc_rep dctx) (found_of <$> qs) = Ok (seqs, rep') -> Forall seq_ok seqs ->
  lz_block (history (dc_prefixStart dctx) (dc_virtualStart dctx) (dc_dictEnd dctx) m0 ostart) (slice m0 (dc_litPtr dctx) (dc_litSize dctx)) seqs = Some h' ->
  zlen h' <= oend - dc_virtualStart dctx ->
  exists m' dctx', ZSTD_decompressSequences dctx m0 ostart maxDstSize src seqStart size (zlen qs) lo = Ok (zlen h' - (ostart - dc_virtualStart dctx), m', dctx') /\
    history (dc_prefixStart dctx) (dc_virtualStart dctx) (dc_dictEnd dctx) m' (dc_virtualStart dctx + zlen h') = h' /\ dc_rep dctx' = rep' /\
    zlen m' = zlen m0 /\ (forall a, 0 <= a -> a < ostart \/ oend <= a -> rd m' a = rd m0 a).
Proof.
  intros tLL tOF tML all size oend litEnd Hloc Hlay Hsep Hlogs Hsrc Hs0 Hs1 Hnn Himg Hne Hstr Hdq Hrep Hres Hok Hb Hfit.
  destruct (r_open src seqStart all Hsrc Hs0 Hs1 Hnn Himg) as (d0 & Hd0 & Hr0). fold size in Hd0, Hr0.
  destruct (seq_stream_states tLL tOF tML _ _ _ _ _ Hstr) as (Sl & So & Sm). pose proof Hlogs as (Ll & Lo & Lm). unfold LLFSELog, OffFSELog, MLFSELog in Ll, Lo, Lm.
  unfold all, stream_of in Hr0. change [?a; ?b; ?c] with ([a] ++ [b] ++ [c]) in Hr0. rewrite !app_assoc in Hr0.
  destruct (initFseState_spec tLL il d0 size _ _ Hr0) as (d1 & Hi1 & Hr1); [lia|lia|done|].
  destruct (initFseState_spec tOF io d1 size _ _ Hr1) as (d2 & Hi2 & Hr2); [lia|lia|done|].
  destruct (initFseState_spec tML im d2 size _ _ Hr2) as (d3 & Hi3 & Hr3); [lia|lia|done|].
  set (s0 := {| sqs_DStream := d3; sqs_stateLL := {| fss_state := il; fss_table := st_cells tLL |}; sqs_stateOffb := {| fss_state := io; fss_table := st_cells tOF |};
    sqs_stateML := {| fss_state := im; fss_table := st_cells tML |}; sqs_prevOffset := dc_rep dctx |}).
  destruct Hlay as [Ho Hli Hd Hsz] eqn:E. clear E.
  destruct (block_loop m0 ostart oend (dc_litPtr dctx) litEnd (dc_prefixStart dctx) (dc_virtualStart dctx) (dc_dictEnd dctx) Hlay Hsep tLL tOF tML size lo rep' h' Hlogs Hfit
    (zlen qs) qs (s0, m0, ostart, dc_litPtr dctx) eq_refl) as ([[[s m] op] litPtr] & Hloop & _ & Hm & rep & seqs1 & Hrep1 & [Hp Hend] & [= <- ->] & _ & Hb1).
  { split; [done|]. split; [split; [done|]; split; [lia|]; split; [unfold litEnd; lia|done]|]. exists (dc_rep dctx), seqs. split; [done|]. split.
    - destruct qs as [|q qs]; [done|]. by exists il, io, im, fs.
    - split; [done|]. split; [done|]. unfold litEnd. by replace (dc_litPtr dctx + dc_litSize dctx - dc_litPtr dctx) with (dc_litSize dctx) by lia. }
  destruct (last_literals m0 ostart oend (dc_litPtr dctx) litEnd (dc_prefixStart dctx) (dc_virtualStart dctx) (dc_dictEnd dctx) Hlay Hsep m op litPtr h' Hm Hb1 Hfit) as (Hroom & Hzh & m' & Hcp & Hh & Hm').
  assert (1 <= zlen qs) by (destruct qs; [done|rewrite zlen_cons; pose proof (zlen_nonneg qs); lia]).
  assert (size_t (litEnd - litPtr) = litEnd - litPtr /\ size_t (oend - op) = oend - op) as [E1 E2].
  { destruct Hm as (_ & Hop & Hl & _). split; unfold size_t; apply wrap_small; unfold WILDCOPY_OVERLENGTH in *; lia. }
  unfold ZSTD_decompressSequences, ZSTD_decompressSequences_body. rewrite bool_decide_eq_true_2 by done. fold oend litEnd tLL tOF tML.
  rewrite (proj2 (Z.eqb_neq (zlen qs) 0)) by lia. cbn [negb]. rewrite Hd0. cbn [obind]. rewrite Hi1. cbn [obind]. rewrite Hi2. cbn [obind]. rewrite Hi3. cbn [obind]. fold s0.
  match goal with |- context [for_range 0 (zlen qs) ?f ?st] => replace (for_range 0 (zlen qs) f st) with (Ok (s, m, op, litPtr) : res (seqState_t * list Z * Z * Z)) end.
  cbn [obind]. rewrite Hend. cbn [negb reject_if obind]. rewrite E1, E2, (proj2 (Z.ltb_ge (oend - op) _)) by lia. cbn [reject_if obind]. rewrite Hcp. cbn [obind].
  eexists _, _. split; [f_equal; f_equal; f_equal; lia|]. destruct Hm' as (Hz' & _ & _ & Hfr'). cbn [dc_rep]. rewrite Hp, rep_ok_u32 by done.
  split; [|done]. rewrite <- Hh at 2. f_equal. lia.
Qed.
End Decompress.

(** ** From the store to the regenerated block *)

Section RoundTrip.
Context `{P : Platform}.

Lemma new_store_ok maxNbSeq : 0 <= maxNbSeq -> store_ok (new_store maxNbSeq).
Proof. intros H. split; [apply Forall_nil_2|]. split; [exact H|]. split; [done|]. intros E. by destruct E. Qed.

Lemma found_coded st : store_ok st -> found_of <$> coded st = stored st.
Proof.
  intros Hst. destruct (seqToCodes_run st Hst) as [_ Hdef]. apply list_eq. intros i. unfold stored. rewrite list_lookup_imap, <- Hdef, !list_lookup_fmap.
  destruct (coded st !! i) as [q|] eqn:Hq; [|done]. cbn [fmap option_fmap option_map]. destruct (coded_lookup st i q Hst Hq) as (_ & _ & _ & _ & <-). done.
Qed.

(** The bits a sequence takes. *)
Lemma stream_bits tLL tOF tML il io im fs qs lo : seq_stream tLL tOF tML il io im fs qs ->
  st_tableLog tLL <= LLFSELog /\ st_tableLog tOF <= OffFSELog /\ st_tableLog tML <= MLFSELog -> Forall (q_ok lo) qs -> fields_bits fs <= 89 * zlen qs.
Proof.
  unfold LLFSELog, OffFSELog, MLFSELog. intros Hs Hl. induction Hs as [q il io im cl co cm _ _ _|q qs fs il io im nl no nm il' io' im' _ IH Sl So Sm]; intros Hq;
    apply Forall_cons in Hq as [Hq Hqs]; destruct (code_bits_get q lo Hq) as (_ & Bl & _ & Bm); pose proof Hq as (_ & _ & Ho & _); unfold MaxOff in Ho.
  - unfold extra_fields, fields_bits. cbn [foldr snd]. change (zlen [q]) with 1. lia.
  - destruct Sl as [Nl _], So as [No _], Sm as [Nm _]. specialize (IH Hqs). rewrite zlen_cons, !bits_app. unfold extra_fields, fields_bits at 2 3. cbn [foldr snd]. lia.
Qed.

Lemma stored_dq st lo lo' : store_ok st -> Forall (fun '(_, ob, _) => of_fits lo' (Z.log2 ob)) (stored st) -> lo = has_long (ss_sequences st) ->
  Forall (dq_ok lo') (coded st) /\ Forall (q_ok lo) (coded st).
Proof.
  intros Hst Hfit ->. rewrite <- (found_coded st Hst), Forall_fmap in Hfit. rewrite !Forall_lookup in *. split; intros i q Hq;
    destruct (coded_lookup st i q Hst Hq) as (Hd & Hl & Hm & Hof & _); pose proof (offBase_log _ Hd).
  - split; [done|]. split; [done|]. split; [done|]. split; [apply Hd|]. rewrite Hof. apply (Hfit i q Hq).
  - split; [done|]. split; [done|]. unfold MaxOff. split; [lia|]. intros H64 Hlo. by eapply coded_short.
Qed.

Lemma encode_small mem dst cap ctML mls ctOF ofs ctLL lls seqs n lo : cap <= sizeof_size_t ->
  ZSTD_encodeSequences mem dst cap ctML mls ctOF ofs ctLL lls seqs n lo = Err ZSTD_error_dstSize_tooSmall.
Proof. intros Hc. unfold ZSTD_encodeSequences, ZSTD_encodeSequences_body, BIT_initCStream. by rewrite (proj2 (Z.leb_le _ _) Hc). Qed.

Lemma resolve_lengths fs : forall rep seqs rep', Forall found_ok fs -> resolve rep fs = Ok (seqs, rep') -> Forall (fun s => 1 <= offset s) seqs -> Forall seq_ok seqs.
Proof.
  induction fs as [|[[ll ob] ml] fs IH]; intros rep seqs rep' Hf Hr Ho; cbn [resolve] in Hr; [by injection Hr as <- <-|].
  apply bind_Ok in Hr as (rep1 & _ & Hr). apply bind_Ok in Hr as (off & _ & Hr). apply bind_Ok in Hr as ([seqs1 rep2] & Hr & [= <- <-]).
  apply Forall_cons in Hf as [(H1 & H2 & H3 & H4) Hf]. apply Forall_cons in Ho as [Ho Hos]. constructor; [|by eapply IH].
  unfold seq_ok. cbn [litLength matchLength offset] in *. unfold MINMATCH, WILDCOPY_OVERLENGTH in *. change ZSTD_BLOCKSIZE_MAX with (2 ^ 17) in H4.
  split; [done|]. split; [lia|]. split; [done|]. assert (2 ^ 32 <= 2 ^ (8 * sizeof_size_t)) by (apply Z.pow_le_mono_r; destruct sizeof_size_t_cases; lia). lia.
Qed.
End RoundTrip.

(** ** Tables that form coders *)

Section Built.
Context `{P : Platform} (norm counter : list Z) (k : Z) (bases bits : list Z).
Hypothesis Hnorm : norm_ok norm k.
Hypothesis Hpre : norm `prefix_of` counter.
Hypothesis Hk : k <= MaxFSELog.
Context (ct : FSE_CTable) (wkC : list Z).
Hypothesis Hct : 2 ^ k <= zlen (ct_stateTable ct) /\ zlen norm <= zlen (ct_symbolTT ct) /\ 2 * (zlen norm + 1) + 2 * 2 ^ k + 8 <= zlen wkC.

Lemma built_coder syms dt : spread_ok norm k syms -> st_tableLog dt = k -> (seq_of bases bits <$> dtable_ref norm k syms) `prefix_of` st_cells dt ->
  exists ct', FSE_buildCTable_wksp ct counter (zlen norm - 1) k wkC = Ok ct' /\ inhabited (Coder bases bits ct' dt (fse_sup norm)).
Proof.
  intros Hsy Hlog Hcells. destruct Hct as (H1 & H2 & H3). destruct (buildCTable_spec norm k counter Hnorm Hpre ct wkC H1 H2 H3) as (syms' & ct' & Hsy' & -> & Hok & _).
  rewrite (spread_unique norm k syms' syms Hnorm Hsy' Hsy) in Hok. exists ct'. split; [done|]. constructor. unfold MaxFSELog, MLFSELog, LLFSELog, OffFSELog in Hk.
  apply (fse_coder bases bits norm k syms ct' dt); try done. lia.
Qed.
End Built.

(** C35: the encoding table of [FSE_buildCTable_wksp] and the decoding table of [ZSTD_buildFSETable], built from the same normalized counts, undo each
    other: each step of the encoder emits bits from which the decoder's cell gives back the base value, the additional bits and the state before it. *)
Theorem ZSTD_tables_are_coders `{P : Platform} norm counter k bases bits ct wkC dt wkD :
  norm_ok norm k -> norm `prefix_of` counter -> k <= MaxFSELog -> zlen norm <= MaxSeq + 1 ->
  zlen norm <= zlen bases -> zlen norm <= zlen bits -> Forall (fun b => b < 255) bits ->
  2 ^ k <= zlen (ct_stateTable ct) /\ zlen norm <= zlen (ct_symbolTT ct) /\ 2 * (zlen norm + 1) + 2 * 2 ^ k + 8 <= zlen wkC ->
  2 ^ k <= zlen (st_cells dt) -> ZSTD_BUILD_FSE_TABLE_WKSP_SIZE <= zlen wkD ->
  exists ct' dt', FSE_buildCTable_wksp ct counter (zlen norm - 1) k wkC = Ok ct' /\
    ZSTD_buildFSETable dt counter (zlen norm - 1) bases bits k wkD = Ok dt' /\ st_tableLog dt' = k /\
    inhabited (Coder bases bits ct' dt' (fun s => 0 <= s < zlen norm /\ 0 < freq norm s)).
Proof.
  intros Hn Hpre Hk Hmax Hb Ha Hbits Hct Hdt Hw.
  destruct (buildFSETable_spec norm k counter bases bits Hn Hpre Hk Hmax Hb Ha Hbits dt wkD Hdt Hw) as (syms & Hsy & ->).
  set (dt' := {| st_fastMode := _ |}). destruct (built_coder norm counter k bases bits Hn Hpre Hk ct wkC Hct syms dt' Hsy eq_refl) as (ct' & -> & Hc).
  { unfold dt', splice. cbn [st_cells Z.to_nat take app]. by eexists. }
  by exists ct', dt'.
Qed.

(** Storage for an encoding table and its workspace. *)
Definition blank_ctable : FSE_CTable :=
  {| ct_tableLog := 0; ct_maxSymbolValue := 0; ct_stateTable := replicate 512 0; ct_symbolTT := replicate 64 {| deltaNbBits := 0; deltaFindState := 0 |} |}.
Definition blank_cwksp : list Z := replicate 1200 0.

Lemma ZSTD_tables_are_coders_witness :
  exists ct' dt', FSE_buildCTable_wksp (P := armeabi_v7a) blank_ctable [20; -1; 5; 6; 0] 3 5 blank_cwksp = Ok ct' /\
    ZSTD_buildFSETable (P := armeabi_v7a) (blank_table 5) [20; -1; 5; 6; 0] 3 OF_base OF_bits 5 blank_wksp = Ok dt' /\ st_tableLog dt' = 5.
Proof.
  destruct (ZSTD_tables_are_coders (P := armeabi_v7a) [20; -1; 5; 6] [20; -1; 5; 6; 0] 5 OF_base OF_bits blank_ctable blank_cwksp (blank_table 5) blank_wksp)
    as (ct' & dt' & H1 & H2 & H3 & _).
  - apply norm_ok_check. by vm_compute.
  - by exists [0].
  - by vm_compute.
  - by vm_compute.
  - by vm_compute.
  - by vm_compute.
  - apply bits_check. by vm_compute.
  - split_and!; by vm_compute.
  - by vm_compute.
  - by vm_compute.
  - by exists ct', dt'.
Defined.

(** The predefined tables. *)
Lemma default_coders `{P : Platform} : exists ctLL ctOF ctML,
  FSE_buildCTable_wksp blank_ctable LL_defaultNorm MaxLL LL_defaultNormLog blank_cwksp = Ok ctLL /\
  FSE_buildCTable_wksp blank_ctable OF_defaultNorm DefaultMaxOff OF_defaultNormLog blank_cwksp = Ok ctOF /\
  FSE_buildCTable_wksp blank_ctable ML_defaultNorm MaxML ML_defaultNormLog blank_cwksp = Ok ctML /\
  inhabited (Coder LL_base LL_bits ctLL LL_defaultDTable (fse_sup LL_defaultNorm)) /\
  inhabited (Coder OF_base OF_bits ctOF OF_defaultDTable (fse_sup OF_defaultNorm)) /\
  inhabited (Coder ML_base ML_bits ctML ML_defaultDTable (fse_sup ML_defaultNorm)).
Proof.
  destruct default_builds as (B1 & B2 & B3), default_norms as (N1 & N2 & N3), code_bits as (C1 & C2 & C3).
  destruct (build_anywhere LL_defaultNorm MaxLL LL_defaultNormLog LL_base LL_bits (st_cells LL_defaultDTable) 1 (blank_table 6) blank_wksp) as (s1 & Y1 & E1 & _);
    [reflexivity|exact N1|by vm_compute..|exact C1|exact B1|by vm_compute|by vm_compute|].
  destruct (build_anywhere OF_defaultNorm DefaultMaxOff OF_defaultNormLog OF_base OF_bits (st_cells OF_defaultDTable) 1 (blank_table 6) blank_wksp) as (s2 & Y2 & E2 & _);
    [reflexivity|exact N2|by vm_compute..|exact C2|exact B2|by vm_compute|by vm_compute|].
  destruct (build_anywhere ML_defaultNorm MaxML ML_defaultNormLog ML_base ML_bits (st_cells ML_defaultDTable) 1 (blank_table 6) blank_wksp) as (s3 & Y3 & E3 & _);
    [reflexivity|exact N3|by vm_compute..|exact C3|exact B3|by vm_compute|by vm_compute|].
  destruct (built_coder LL_defaultNorm LL_defaultNorm LL_defaultNormLog LL_base LL_bits N1 ltac:(done) ltac:(by vm_compute) blank_ctable blank_cwksp ltac:(split_and!; by vm_compute) s1 LL_defaultDTable Y1 eq_refl)
    as (c1 & H1 & K1); [by rewrite E1|].
  destruct (built_coder OF_defaultNorm OF_defaultNorm OF_defaultNormLog OF_base OF_bits N2 ltac:(done) ltac:(by vm_compute) blank_ctable blank_cwksp ltac:(split_and!; by vm_compute) s2 OF_defaultDTable Y2 eq_refl)
    as (c2 & H2 & K2); [by rewrite E2|].
  destruct (built_coder ML_defaultNorm ML_defaultNorm ML_defaultNormLog ML_base ML_bits N3 ltac:(done) ltac:(by vm_compute) blank_ctable blank_cwksp ltac:(split_and!; by vm_compute) s3 ML_defaultDTable Y3 eq_refl)
    as (c3 & H3 & K3); [by rewrite E3|].
  exists c1, c2, c3. split; [exact H1|]. split; [exact H2|]. split; [exact H3|]. split; [exact K1|]. split; [exact K2|exact K3].
Qed.

(** C1: the sequences of a block survive the entropy coder.  Sequences stored by [ZSTD_storeSeqOnly], turned into codes by [ZSTD_seqToCodes] and
    written by [ZSTD_encodeSequences] are read back by [ZSTD_decompressSequences] with the same lengths and with the offsets [ZSTD_updateRep] gives
    their codes, and it regenerates exactly the block that they and the literals stand for, leaves the repeated offsets [ZSTD_updateRep] leaves, and
    writes nothing outside the output.  Writing never goes out of bounds; it fails only with [dstSize_tooSmall], and not when the buffer has room for 89
    bits a sequence. *)
Theorem ZSTD_sequences_round_trip `{P : Platform} ctLL ctOF ctML (dctx : ZSTD_DCtx) supLL supOF supML
    {cLL : Coder LL_base LL_bits ctLL (dc_LLTptr dctx) supLL} {cOF : Coder OF_base OF_bits ctOF (dc_OFTptr dctx) supOF} {cML : Coder ML_base ML_bits ctML (dc_MLTptr dctx) supML}
    (fd : list found) maxNbSeq mem dst cap m0 ostart maxDstSize lo' seqs rep' h' :
  let oend := ostart + maxDstSize in let litEnd := dc_litPtr dctx + dc_litSize dctx in
  let hist := history (dc_prefixStart dctx) (dc_virtualStart dctx) (dc_dictEnd dctx) in
  st_tableLog (dc_LLTptr dctx) <= LLFSELog /\ st_tableLog (dc_OFTptr dctx) <= OffFSELog /\ st_tableLog (dc_MLTptr dctx) <= MLFSELog ->
  fd <> [] -> Forall found_ok fd -> all_longs fd <= 1 -> zlen fd <= maxNbSeq -> zlen fd < 2 ^ 32 ->
  Forall (fun '(_, ob, _) => of_fits lo' (Z.log2 ob)) fd ->
  bytes mem -> 0 <= dst -> dst + cap <= zlen mem ->
  dc_litBufferLocation dctx = ZSTD_not_in_dst ->
  layout m0 ostart oend oend (dc_litPtr dctx) litEnd (dc_prefixStart dctx) (dc_virtualStart dctx) (dc_dictEnd dctx) ->
  litEnd + WILDCOPY_OVERLENGTH <= ostart \/ oend <= dc_litPtr dctx ->
  rep_ok (dc_rep dctx) -> resolve (dc_rep dctx) fd = Ok (seqs, rep') -> Forall (fun s => 1 <= offset s) seqs ->
  lz_block (hist m0 ostart) (slice m0 (dc_litPtr dctx) (dc_litSize dctx)) seqs = Some h' -> zlen h' <= oend - dc_virtualStart dctx ->
  exists st llCode ofCode mlCode lo, store_all fd (new_store maxNbSeq) = Ok st /\ ZSTD_seqToCodes st = Ok (llCode, ofCode, mlCode, lo) /\
    (Forall supLL llCode -> Forall supOF ofCode -> Forall supML mlCode ->
     let run := ZSTD_encodeSequences mem dst cap ctML mlCode ctOF ofCode ctLL llCode (ss_sequences st) (zlen fd) lo in
     (run = Err ZSTD_error_dstSize_tooSmall /\ 8 * (cap - sizeof_size_t) <= 89 * zlen fd + 27) \/
     exists size mem', run = Ok (size, mem') /\ size <= cap /\ zlen mem' = zlen mem /\ take (Z.to_nat dst) mem' = take (Z.to_nat dst) mem /\
       exists m' dctx', ZSTD_decompressSequences dctx m0 ostart maxDstSize mem' dst size (zlen fd) lo' = Ok (zlen h' - zlen (hist m0 ostart), m', dctx') /\
         hist m' (dc_virtualStart dctx + zlen h') = h' /\ dc_rep dctx' = rep' /\ zlen m' = zlen m0 /\
         (forall a, 0 <= a -> a < ostart \/ oend <= a -> rd m' a = rd m0 a)).
Proof.
  intros oend litEnd hist Hlogs Hne Hf Hlg Hmax Hlen Hfit Hb Hd Hl Hloc Hlay Hsep Hrep Hres Hoff Hlz Hroom.
  destruct (store_all_spec fd (new_store maxNbSeq)) as (st & Hst & Hok & Hstored); [by apply new_store_ok; pose proof (zlen_nonneg fd); lia|done|change (zlen (ss_sequences (new_store maxNbSeq))) with 0; cbn [ss_maxNbSeq new_store]; lia|change (zlen (ss_sequences (new_store maxNbSeq))) with 0; lia|done|done|].
  change (stored (new_store maxNbSeq)) with (@nil found) in Hstored. cbn [app] in Hstored. destruct (seqToCodes_run st Hok) as [Hrun Hdef].
  set (lo := has_long (ss_sequences st)) in *. pose proof (found_coded st Hok) as Hfc. rewrite Hstored in Hfc. rewrite <- Hstored in Hfit.
  destruct (stored_dq st lo lo' Hok Hfit eq_refl) as [Hdq Hq]. exists st, (q_ll <$> coded st), (q_of <$> coded st), (q_ml <$> coded st), lo. split; [done|]. split; [done|].
  intros Sl So Sm. rewrite !Forall_fmap in Sl, So, Sm. assert (coded st <> []) as Hne' by (intros E; rewrite E in Hfc; by subst fd).
  assert (zlen fd = zlen (coded st)) as -> by (rewrite <- Hfc; unfold zlen; by rewrite length_fmap).
  assert (Forall (q_sup supLL supOF supML lo) (coded st)) as Hsup.
  { rewrite Forall_lookup in *. intros i q Hi. split; [by apply (Hq i)|]. split; [by apply (Sl i)|]. split; [by apply (So i)|by apply (Sm i)]. }
  intros run. destruct (Z.le_gt_cases cap sizeof_size_t) as [Hsmall|Hbig].
  { left. split; [by apply encode_small|]. pose proof (zlen_nonneg (coded st)). lia. }
  destruct (encodeSequences_spec ctLL ctOF ctML (dc_LLTptr dctx) (dc_OFTptr dctx) (dc_MLTptr dctx) supLL supOF supML lo Hlogs mem dst cap (coded st))
    as (il & io & im & fs & Hs & _ & _ & _ & Hnn & Herr & Hrest); try done. rewrite Hdef in Herr, Hrest. fold run in Herr, Hrest.
  fold (stream_of (dc_LLTptr dctx) (dc_OFTptr dctx) (dc_MLTptr dctx) il io im fs) in Hnn, Herr, Hrest. set (all := stream_of _ _ _ _ _ _ _) in *.
  destruct (Z.le_gt_cases (cap - sizeof_size_t) ((fields_bits all + 1) / 8)) as [Hfull|Hfits].
  - left. split; [by apply Herr|]. pose proof (stream_bits _ _ _ _ _ _ _ _ lo Hs Hlogs Hq). unfold all, stream_of in Hfull. rewrite bits_app in Hfull. unfold fields_bits at 2 in Hfull. cbn [foldr snd] in Hfull.
    unfold LLFSELog, OffFSELog, MLFSELog in Hlogs. apply Z.mul_le_mono_nonneg_l with (p := 8) in Hfull; [|lia].
    match type of Hfull with _ <= 8 * (?x / 8) => pose proof (Z.mul_div_le x 8) end. lia.
  - right. destruct (Hrest Hfits) as (mem' & Hok' & Hz & Hby & Htk & Hcap & Himg). exists (fields_bits all / 8 + 1), mem'. split; [done|]. split; [done|]. split; [done|]. split; [done|].
    destruct (decompressSequences_spec dctx m0 ostart maxDstSize mem' dst (coded st) lo' il io im fs seqs rep' h') as (m' & dctx' & Hdec & Hh & Hrep' & Hzm & Hfr); try done.
    { pose proof (coder_log (Coder := cLL)). pose proof (coder_log (Coder := cOF)). pose proof (coder_log (Coder := cML)). destruct Hlogs as (? & ? & ?). lia. }
    { fold all. lia. }
    { by rewrite Hfc. }
    { by eapply resolve_lengths. }
    fold all in Hdec. exists m', dctx'. split; [|done]. rewrite Hdec. unfold hist. rewrite zlen_history; [done|]. destruct Hlay; lia.
Qed.

(** Two sequences, the second with a repeated offset less one, after a history of three bytes; the literals lie at address 200. *)
Definition demo_found : list found := [(2, 6, 4); (0, 3, 3)].
Definition demo_dctx `{P : Platform} : ZSTD_DCtx :=
  {| dc_LLTptr := LL_defaultDTable; dc_OFTptr := OF_defaultDTable; dc_MLTptr := ML_defaultDTable;
     dc_LLTable := blank_table 9; dc_OFTable := blank_table 8; dc_MLTable := blank_table 9; dc_workspace := replicate 2560 0; dc_fseEntropy := false; dc_rep := [1; 4; 8];
     dc_litPtr := 200; dc_litSize := 3; dc_litBuffer := 200; dc_litBufferLocation := ZSTD_not_in_dst; dc_prefixStart := 0; dc_virtualStart := 0; dc_dictEnd := 0 |}.

(** Closes a comparison of closed numbers, without a look at the hypotheses. *)
Ltac eval_prop := vm_compute; repeat split; first [reflexivity | let H := fresh in intros H; discriminate H].

Lemma ZSTD_sequences_round_trip_witness :
  let P := armeabi_v7a in
  exists ctLL ctOF ctML size mem' m' dctx',
    FSE_buildCTable_wksp blank_ctable ML_defaultNorm MaxML ML_defaultNormLog blank_cwksp = Ok ctML /\
    ZSTD_encodeSequences (replicate 60 0) 3 50 ctML [1; 0] ctOF [2; 1] ctLL [2; 0]
      [{| sd_offBase := 6; sd_litLength := 2; sd_mlBase := 1 |}; {| sd_offBase := 3; sd_litLength := 0; sd_mlBase := 0 |}] 2 false = Ok (size, mem') /\
    ZSTD_decompressSequences demo_dctx demo_mem 3 197 mem' 3 size 2 false = Ok (10, m', dctx') /\
    history 0 0 0 m' 13 = [1; 2; 3; 65; 66; 3; 65; 66; 3; 66; 3; 66; 67] /\ dc_rep dctx' = [2; 3; 1].
Proof.
  intros P. destruct default_coders as (ctLL & ctOF & ctML & _ & _ & Hml & [cLL] & [cOF] & [cML]).
  destruct (ZSTD_sequences_round_trip (P := P) ctLL ctOF ctML demo_dctx _ _ _ demo_found 2 (replicate 60 0) 3 50 demo_mem 3 197 false
    [{| litLength := 2; matchLength := 4; offset := 3 |}; {| litLength := 0; matchLength := 3; offset := 2 |}] [2; 3; 1] [1; 2; 3; 65; 66; 3; 65; 66; 3; 66; 3; 66; 67])
    as (st & lls & ofs & mls & lo & Hst & Hcodes & Hrun).
  - eval_prop.
  - eval_prop.
  - repeat (apply Forall_cons_2; [eval_prop|]). apply Forall_nil_2.
  - eval_prop.
  - eval_prop.
  - eval_prop.
  - repeat (apply Forall_cons_2; [intros _; split; [eval_prop|intros _; eval_prop]|]). apply Forall_nil_2.
  - eval_bytes.
  - lia.
  - eval_prop.
  - eval_prop.
  - constructor; unfold WILDCOPY_OVERLENGTH; change (zlen demo_mem) with 263; cbn [dc_prefixStart dc_virtualStart dc_litPtr dc_litSize dc_dictEnd demo_dctx]; try lia. eval_prop.
  - right. eval_prop.
  - apply rep_ok_3; lia.
  - eval_prop.
  - repeat (apply Forall_cons_2; [eval_prop|]). apply Forall_nil_2.
  - eval_prop.
  - eval_prop.
  - vm_compute in Hst. injection Hst as <-. vm_compute in Hcodes. injection Hcodes as <- <- <- <-.
    destruct Hrun as [[_ Hbad]|(size & mem' & Hrun & _ & _ & _ & m' & dctx' & Hdec & Hh & Hr & _)].
    1, 2, 3: repeat (apply Forall_cons_2; [eval_prop|]); apply Forall_nil_2.
    + exfalso. vm_compute in Hbad. apply Hbad; reflexivity.
    + exists ctLL, ctOF, ctML, size, mem', m', dctx'. split; [exact Hml|]. split; [exact Hrun|]. split; [exact Hdec|]. split; [exact Hh|exact Hr].
Defined.
