(* ===== verification/SeqSafe.v ===== *)
(** * Decoding sequences from any bytes

    On valid tables, [ZSTD_decodeSequence] and [ZSTD_decompressSequences] are shown to stay inside
    their buffers whatever the bit stream holds: they return, report an error of the library, or
    regenerate at most the room they were given, and the repeated offsets they leave are valid. *)
From S2P Require Import Prelude Mem Errors Bits BitStream BitFields Fse FseSpread FseBuild FseState Frame ExecSeq SeqTable SeqStore SeqEncode SeqDecode SeqBlock.

(** A cell of a table of [2^k] cells: it leads back into the table, and its base and bits are those of a code up to [mx]. *)
Definition cell_safe (bases bits : list Z) (mx k : Z) (c : ZSTD_seqSymbol) : Prop :=
  0 <= sq_nbBits c <= k /\ 0 <= nextState c /\ nextState c + 2 ^ sq_nbBits c <= 2 ^ k /\
  exists s, 0 <= s <= mx /\ baseValue c = nth (Z.to_nat s) bases 0 /\ nbAdditionalBits c = nth (Z.to_nat s) bits 0.

Definition seqtable_ok (bases bits : list Z) (mx maxLog : Z) (t : SeqTable) : Prop :=
  0 <= st_tableLog t <= maxLog /\
  forall u, 0 <= u < 2 ^ st_tableLog t -> exists c, st_cells t !! Z.to_nat u = Some c /\ cell_safe bases bits mx (st_tableLog t) c.

Section Safe.
Context `{P : Platform} (size : Z).

(** At most [B] bits of the register are consumed. *)
Definition d_safe (d : BIT_DStream_t) (B : Z) : Prop := d_wf d size /\ d_bitsConsumed d <= B.

Lemma wp_reload_if b d B (Q : BIT_DStream_t -> Prop) R : d_safe d B -> 64 <= B -> (forall d', d_safe d' B -> Q d') -> wp (reload_if b d) Q R.
Proof.
  intros [Hwf Hb] HB HQ. unfold reload_if. destruct b; [|by apply HQ]. destruct (reloadDStream_spec d size Hwf) as (st & d' & -> & Hwf' & _ & _ & Hov & Hrel).
  cbn [obind wp]. apply HQ. split; [done|]. destruct (decide (st = BIT_DStream_overflow)) as [E|E]; [rewrite Hov by done; done|].
  destruct (Hrel E) as [Hr _]. destruct regBits_cases; lia.
Qed.

Lemma wp_fast nb d B (Q : Z * BIT_DStream_t -> Prop) R : d_safe d B -> 1 <= nb < 32 -> B < 2 ^ 30 -> (forall v d', 0 <= v < 2 ^ nb -> d_safe d' (B + nb) -> Q (v, d')) -> wp (BIT_readBitsFast d nb) Q R.
Proof. intros [Hwf Hb] Hnb HB HQ. apply (wp_readBitsFast d size); [done|done|lia|]. intros v d' Hv Hwf' _ Hb'. apply HQ; [done|]. split; [done|lia]. Qed.

Lemma wp_read nb d B (Q : Z * BIT_DStream_t -> Prop) R : d_safe d B -> 0 <= nb < 32 -> B < 2 ^ 30 -> (forall v d', 0 <= v < 2 ^ nb -> d_safe d' (B + nb) -> Q (v, d')) -> wp (BIT_readBits d nb) Q R.
Proof. intros [Hwf Hb] Hnb HB HQ. apply (wp_readBits d size); [done|done|lia|]. intros v d' Hv Hwf' _ Hb'. apply HQ; [done|]. split; [done|lia]. Qed.

Lemma d_safe_weaken d B B' : d_safe d B -> B <= B' -> d_safe d B'.
Proof. intros [? ?] ?. split; [done|lia]. Qed.

Lemma wp_read_extra value nb d B (Q : Z * BIT_DStream_t -> Prop) R : d_safe d B -> 0 <= nb <= 16 -> B < 2 ^ 30 -> 0 <= value <= 2 ^ 17 ->
  (forall v d', value <= v <= 2 ^ 18 -> d_safe d' (B + 16) -> Q (v, d')) -> wp (read_extra value nb d) Q R.
Proof.
  intros Hd Hnb HB Hv HQ. unfold read_extra. destruct (Z.ltb_spec 0 nb); [|simpl; apply HQ; [lia|eapply d_safe_weaken; [done|lia]]].
  apply wp_bind. eapply wp_fast; [exact Hd|lia|lia|]. intros v d' Hr Hd'. simpl. assert (2 ^ nb <= 2 ^ 16) by (apply Z.pow_le_mono_r; lia).
  rewrite size_t_small by lia. apply HQ; [lia|]. eapply d_safe_weaken; [done|lia].
Qed.

(** The offsets after a sequence: valid ones, but for an impossible offset that [ZSTD_execSequence] rejects. *)
Definition rep_after (off : Z) (rep : list Z) : Prop :=
  exists a b, rep = [off; a; b] /\ 1 <= a < 2 ^ 32 /\ 1 <= b < 2 ^ 32 /\ (1 <= off < 2 ^ 32 \/ off = 2 ^ (8 * sizeof_size_t) - 1).

Lemma wp_decode_offset lo n ll0 d rep B (Q : Z * BIT_DStream_t * list Z -> Prop) R :
  0 <= n <= MaxOff -> d_safe d B -> 64 <= B < 2 ^ 29 -> rep_ok rep ->
  (forall off d' rep', d_safe d' (B + 31) -> rep_after off rep' -> Q (off, d', rep')) ->
  wp (decode_offset lo (nth (Z.to_nat n) OF_base 0) n ll0 d rep) Q R.
Proof.
  intros Hn Hd HB [Hlen Hrep] HQ. destruct rep as [|p0 [|p1 [|p2 [|? ?]]]]; try done. clear Hlen. rewrite !Forall_cons in Hrep. destruct Hrep as (R0 & R1 & R2 & _).
  destruct (OF_tables n Hn) as [_ ->]. unfold MaxOff in Hn. unfold decode_offset.
  change (aget [p0; p1; p2] 0) with (Ok p0 : res Z). change (aget [p0; p1; p2] 1) with (Ok p1 : res Z). change (aget [p0; p1; p2] 2) with (Ok p2 : res Z). cbn [obind].
  assert (forall v d', 0 <= v < 2 ^ n -> 2 <= n -> d_safe d' (B + 31) -> Q (2 ^ n - 3 + v, d', [2 ^ n - 3 + v; p0; p1])) as HQn.
  { intros v d' Hv Hn2 Hd'. assert (2 ^ 2 <= 2 ^ n <= 2 ^ 31) by (split; apply Z.pow_le_mono_r; lia). apply HQ; [done|]. exists p0, p1. split; [done|]. split; [done|]. split; [done|]. left. lia. }
  destruct (Z.ltb_spec 1 n) as [Hnew|Hold].
  - rewrite (proj2 (Z.eqb_neq n 0)), (proj2 (Z.eqb_neq n 1)) by lia. assert (2 ^ 2 <= 2 ^ n <= 2 ^ 31) as Hp by (split; apply Z.pow_le_mono_r; lia).
    unfold STREAM_ACCUMULATOR_MIN_32. destruct (MEM_32bits && lo && (25 <=? n)) eqn:Hlong; apply wp_bind.
    + change LONG_OFFSETS_MAX_EXTRA_BITS_32 with 5. apply andb_true_iff in Hlong as [_ H25]. apply wp_bind. eapply wp_fast; [exact Hd|lia|lia|]. intros hi d1 Hhi Hd1. apply wp_bind.
      eapply (wp_mono (BIT_reloadDStream d1) (fun r => d_safe r.2 (B + (n - 5)))); [|intros [st d2] Hd2; cbn [snd] in Hd2|done].
      { pose proof (wp_reload_if true d1 (B + (n - 5)) (fun d2 => d_safe d2 (B + (n - 5))) R Hd1 ltac:(lia) ltac:(done)) as Hre. unfold reload_if in Hre.
        destruct (BIT_reloadDStream d1) as [[st d2]|e|f]; exact Hre. }
      apply wp_bind. eapply wp_fast; [exact Hd2|lia|lia|]. intros low d3 Hlow Hd3.
      rewrite Z.shiftl_mul_pow2 by lia. assert (hi * 2 ^ 5 + 2 ^ 5 <= 2 ^ n) by (replace n with (n - 5 + 5) at 1 by lia; rewrite Z.pow_add_r by lia; nia).
      rewrite (size_t_small (hi * 2 ^ 5)), (size_t_small (2 ^ n - 3 + _)), size_t_small by lia. cbn [wp].
      replace (2 ^ n - 3 + hi * 2 ^ 5 + low) with (2 ^ n - 3 + (hi * 2 ^ 5 + low)) by lia. apply HQn; [lia|lia|]. eapply d_safe_weaken; [exact Hd3|lia].
    + apply wp_bind. eapply wp_fast; [exact Hd|lia|lia|]. intros v d1 Hv Hd1. apply wp_bind. eapply wp_reload_if; [exact Hd1|lia|]. intros d2 Hd2. cbn [wp].
      rewrite size_t_small by lia. apply HQn; [done|lia|]. eapply d_safe_weaken; [exact Hd2|lia].
  - destruct (Z.eqb_spec n 0) as [->|Hn0].
    + simpl. destruct ll0; (apply HQ; [eapply d_safe_weaken; [exact Hd|lia]|]); eexists _, _; (split; [reflexivity|]); (split; [done|]); (split; [done|by left]).
    + assert (n = 1) as -> by lia. cbn [Z.eqb Pos.eqb]. apply wp_bind. eapply wp_fast; [exact Hd|lia|lia|]. intros v d1 Hv Hd1. rewrite size_t_small by (destruct ll0; lia).
      set (rc := 1 + (if ll0 then 1 else 0) + v). assert (1 <= rc <= 3) by (unfold rc; destruct ll0; lia). apply wp_bind.
      assert (exists cur, (if rc =? 3 then Ok (size_t (p0 - 1)) else aget [p0; p1; p2] rc) = (Ok cur : res Z) /\ 0 <= cur < 2 ^ 32) as (cur & -> & Hcr).
      { destruct (Z.eqb_spec rc 3); [exists (p0 - 1); rewrite size_t_small by lia; split; [done|lia]|].
        assert (rc = 1 \/ rc = 2) as [-> | ->] by lia; [exists p1|exists p2]; (split; [done|lia]). }
      cbn [wp]. apply HQ; [eapply d_safe_weaken; [exact Hd1|lia]|]. eexists _, _. split; [reflexivity|]. split; [done|]. split; [destruct (negb _); done|].
      destruct (Z.eqb_spec cur 0) as [->|]; [right|left; rewrite Z.sub_0_r, size_t_small by lia; lia].
      unfold size_t, wrap. symmetry. apply Z.mod_unique_pos with (-1); [split; [|lia]|lia]. assert (0 < 2 ^ (8 * sizeof_size_t)) by (apply pow2_pos; destruct sizeof_size_t_cases; lia). lia.
Qed.

(** Lengths as the codes give them. *)
Lemma LL_range s : 0 <= s <= MaxLL -> 0 <= nth (Z.to_nat s) LL_bits 0 <= 16 /\ 0 <= nth (Z.to_nat s) LL_base 0 <= 2 ^ 17.
Proof.
  intros Hs. unfold MaxLL in Hs. assert (base_check LL_base LL_bits s = true) as H by (refine (all_below_spec 36 _ _ _ _); [by vm_compute|lia]).
  unfold base_check in H. rewrite !andb_true_iff in H. destruct H as ((((A1 & A2) & A3) & A4) & _). lia.
Qed.

Lemma ML_range s : 0 <= s <= MaxML -> 0 <= nth (Z.to_nat s) ML_bits 0 <= 16 /\ 3 <= nth (Z.to_nat s) ML_base 0 <= 2 ^ 17.
Proof.
  intros Hs. unfold MaxML in Hs. assert (base_check ML_base ML_bits s && (3 <=? nth (Z.to_nat s) ML_base 0) = true) as H
    by (refine (all_below_spec 53 (fun s => base_check ML_base ML_bits s && (3 <=? nth (Z.to_nat s) ML_base 0)) _ _ _); [by vm_compute|lia]).
  unfold base_check in H. rewrite !andb_true_iff in H. destruct H as (((((A1 & A2) & A3) & A4) & _) & A5). lia.
Qed.

(** A sequence with lengths in range. *)
Definition seq_safe (s : seq_t) : Prop := 0 <= litLength s <= 2 ^ 18 /\ 3 <= matchLength s <= 2 ^ 18.

Lemma wp_decode_values lo cl cm co kl km ko d rep B (Q : seq_t * BIT_DStream_t * list Z -> Prop) R :
  cell_safe LL_base LL_bits MaxLL kl cl -> cell_safe ML_base ML_bits MaxML km cm -> cell_safe OF_base OF_bits MaxOff ko co ->
  d_safe d B -> 64 <= B < 2 ^ 28 -> rep_ok rep ->
  (forall s d' rep', seq_safe s -> d_safe d' (B + 63) -> rep_after (offset s) rep' -> Q (s, d', rep')) ->
  wp (decode_values lo cl cm co d rep) Q R.
Proof.
  intros (_ & _ & _ & sl & Sl & L1 & L2) (_ & _ & _ & sm & Sm & M1 & M2) (_ & _ & _ & so & So & O1 & O2) Hd HB Hrep HQ.
  destruct (LL_range sl Sl) as [Bl Vl], (ML_range sm Sm) as [Bm Vm], (OF_tables so So) as [Eo _]. unfold decode_values. rewrite L1, L2, M1, M2, O1, O2, Eo.
  unfold MaxLLBits, MaxMLBits. apply wp_bind, wp_assert; [lia|]. apply wp_bind, wp_assert; [lia|]. apply wp_bind, wp_assert; [lia|]. apply wp_bind.
  apply (wp_decode_offset lo so _ d rep B); [done|done|lia|done|]. intros off d1 rep' Hd1 Hr. cbn beta iota. apply wp_bind.
  eapply wp_read_extra; [exact Hd1|lia|lia|lia|]. intros ml d2 Hml Hd2. cbn beta iota. apply wp_bind. eapply wp_reload_if; [exact Hd2|lia|]. intros d3 Hd3. apply wp_bind.
  eapply wp_reload_if; [exact Hd3|lia|]. intros d4 Hd4. apply wp_bind. eapply wp_read_extra; [exact Hd4|lia|lia|lia|]. intros ll d5 Hll Hd5. cbn beta iota. apply wp_bind.
  eapply wp_reload_if; [exact Hd5|lia|]. intros d6 Hd6. cbn [wp]. apply HQ; [split; cbn [litLength matchLength]; lia|eapply d_safe_weaken; [exact Hd6|lia]|done].
Qed.

Context (tLL tOF tML : SeqTable).
Hypothesis Htables : seqtable_ok LL_base LL_bits MaxLL LLFSELog tLL /\ seqtable_ok OF_base OF_bits MaxOff OffFSELog tOF /\ seqtable_ok ML_base ML_bits MaxML MLFSELog tML.

Definition st_in (t : SeqTable) (st : ZSTD_fseState) : Prop := fss_table st = st_cells t /\ state_in t (fss_state st).

(** The decoder between two sequences. *)
Definition dec_safe (s : seqState_t) (B : Z) : Prop :=
  st_in tLL (sqs_stateLL s) /\ st_in tOF (sqs_stateOffb s) /\ st_in tML (sqs_stateML s) /\ d_safe (sqs_DStream s) B.

Lemma wp_cell {bases bits mx mxl} t st (Q : ZSTD_seqSymbol -> Prop) R : seqtable_ok bases bits mx mxl t -> st_in t st ->
  (forall c, cell_safe bases bits mx (st_tableLog t) c -> Q c) -> wp (aget (fss_table st) (fss_state st) : res ZSTD_seqSymbol) Q R.
Proof.
  intros [_ Ht] [Htab Hs] HQ. destruct (Ht _ Hs) as (c & Hc & Hok). rewrite Htab. assert (aget (st_cells t) (fss_state st) = (Ok c : res _)) as ->.
  { apply aget_Ok. destruct Hs. by split. } by apply HQ.
Qed.

Lemma wp_update {bases bits mx} t st c d B (Q : ZSTD_fseState * BIT_DStream_t -> Prop) R : cell_safe bases bits mx (st_tableLog t) c -> st_tableLog t <= 9 -> st_in t st ->
  d_safe d B -> B < 2 ^ 30 -> (forall st' d', st_in t st' -> d_safe d' (B + 9) -> Q (st', d')) -> wp (ZSTD_updateFseStateWithDInfo st d (nextState c) (sq_nbBits c)) Q R.
Proof.
  intros (Hnb & Hn & Hs & _) Ht [Htab _] Hd HB HQ. unfold ZSTD_updateFseStateWithDInfo. apply wp_bind. eapply wp_read; [exact Hd|lia|lia|]. intros v d' Hv Hd'. cbn [wp].
  assert (2 ^ st_tableLog t <= 2 ^ 9) by (apply Z.pow_le_mono_r; lia). rewrite size_t_small by lia. apply HQ; [|eapply d_safe_weaken; [exact Hd'|lia]].
  split; [done|]. unfold state_in. cbn [fss_state]. lia.
Qed.

Lemma wp_decodeSequence lo last s B (Q : seq_t * seqState_t -> Prop) R : dec_safe s B -> 64 <= B < 2 ^ 27 -> rep_ok (sqs_prevOffset s) ->
  (forall q s', seq_safe q -> dec_safe s' (B + 90) -> rep_after (offset q) (sqs_prevOffset s') -> Q (q, s')) -> wp (ZSTD_decodeSequence s lo last) Q R.
Proof.
  intros (Sl & So & Sm & Hd) HB Hrep HQ. destruct Htables as (Tl & To & Tm). unfold ZSTD_decodeSequence.
  apply wp_bind, (wp_cell tLL _ _ _ Tl Sl). intros cl Cl. apply wp_bind, (wp_cell tML _ _ _ Tm Sm). intros cm Cm. apply wp_bind, (wp_cell tOF _ _ _ To So). intros co Co.
  apply wp_bind. apply (wp_decode_values lo cl cm co _ _ _ _ _ B _ _ Cl Cm Co Hd); [lia|done|]. intros q d1 rep' Hq Hd1 Hr. cbn beta iota.
  destruct Tl as [Ll _], To as [Lo _], Tm as [Lm _]. unfold LLFSELog, OffFSELog, MLFSELog in *.
  destruct last; cbn [negb].
  - cbn [wp]. apply HQ; [done| |done]. split; [done|]. split; [done|]. split; [done|]. eapply d_safe_weaken; [exact Hd1|lia].
  - apply wp_bind. eapply (wp_update tLL); [exact Cl|lia|done|exact Hd1|lia|]. intros sl d2 Sl' Hd2. cbn beta iota. apply wp_bind.
    eapply (wp_update tML); [exact Cm|lia|done|exact Hd2|lia|]. intros sm d3 Sm' Hd3. cbn beta iota. apply wp_bind. eapply wp_reload_if; [exact Hd3|lia|]. intros d4 Hd4.
    apply wp_bind. eapply (wp_update tOF); [exact Co|lia|done|exact Hd4|lia|]. intros so d5 So' Hd5. cbn beta iota. apply wp_bind. eapply wp_reload_if; [exact Hd5|lia|]. intros d6 Hd6.
    cbn [wp]. apply HQ; [done| |done]. split; [done|]. split; [done|]. split; [done|]. eapply d_safe_weaken; [exact Hd6|lia].
Qed.
End Safe.

Section Block.
Context `{P : Platform} (m0 : list Z) (ostart oend litPtr0 litEnd prefixStart virtualStart dictEnd : Z).
Hypothesis Hlay : layout m0 ostart oend oend litPtr0 litEnd prefixStart virtualStart dictEnd.
Hypothesis Hsep : litEnd + WILDCOPY_OVERLENGTH <= ostart \/ oend <= litPtr0.
Context (tLL tOF tML : SeqTable) (size : Z).
Hypothesis Htables : seqtable_ok LL_base LL_bits MaxLL LLFSELog tLL /\ seqtable_ok OF_base OF_bits MaxOff OffFSELog tOF /\ seqtable_ok ML_base ML_bits MaxML MLFSELog tML.

Definition block_safe (i : Z) (st : seqState_t * list Z * Z * Z) : Prop :=
  let '(s, m, op, litPtr) := st in
  dec_safe size tLL tOF tML s (100 + 90 * i) /\ rep_ok (sqs_prevOffset s) /\ mem_inv m0 ostart oend litPtr0 litEnd m op litPtr.

(** Executing any sequence: an error, or an offset within the history. *)
Lemma wp_exec m op litPtr q (Q : Z * Z * list Z -> Prop) : mem_inv m0 ostart oend litPtr0 litEnd m op litPtr -> seq_safe q -> 1 <= offset q ->
  (forall n litPtr' m', offset q <= oend - virtualStart - 1 -> mem_inv m0 ostart oend litPtr0 litEnd m' (op + n) litPtr' -> Q (n, litPtr', m')) ->
  safe (ZSTD_execSequence oend litEnd prefixStart virtualStart dictEnd m op q litPtr) Q.
Proof.
  intros Hm [Hl Hml] Hof HQ. destruct (layout_at m0 ostart oend litPtr0 litEnd prefixStart virtualStart dictEnd Hlay Hsep m op litPtr Hm) as [Hlay' Hsep'].
  assert (2 ^ 32 <= 2 ^ (8 * sizeof_size_t)) by (apply Z.pow_le_mono_r; destruct sizeof_size_t_cases; lia).
  assert (seq_ok q) as Hq by (unfold seq_ok, WILDCOPY_OVERLENGTH; split_and!; lia).
  pose proof (execSequence_spec m op oend litPtr litEnd prefixStart virtualStart dictEnd q Hq Hlay' Hsep') as Hs. unfold exec_spec in Hs. cbv zeta in Hs.
  destruct Hm as (Hz & Hop & Hlp & Hfr). destruct (Z.ltb_spec (oend - op) (litLength q + matchLength q)); [by rewrite Hs|].
  destruct (Z.ltb_spec (litEnd - litPtr) (litLength q)); [by rewrite Hs|]. destruct (Z.ltb_spec (op + litLength q - virtualStart) (offset q)); [by rewrite Hs|].
  destruct Hs as (m' & -> & Hz' & _ & Hfr'). simpl. apply HQ; [lia|]. split; [lia|]. split; [lia|]. split; [lia|]. intros a Ha Hout. rewrite Hfr' by lia. by apply Hfr.
Qed.

Lemma rep_after_ok off rep : rep_after off rep -> off <= oend - virtualStart - 1 -> rep_ok rep.
Proof.
  intros (a & b & -> & Ha & Hb & Hoff) Hle. destruct Hlay as [Ho _ _ Hsz]. apply rep_ok_3; [|done|done]. destruct Hoff as [?|Hoff]; [done|]. lia.
Qed.

Lemma block_turn_safe lo last i st : block_safe i st -> 0 <= i < 2 ^ 17 -> safe (block_turn oend litEnd prefixStart virtualStart dictEnd lo last st) (block_safe (i + 1)).
Proof.
  destruct st as [[[s m] op] litPtr]. intros (Hd & Hrep & Hm) Hi. unfold block_turn. apply wp_bind.
  apply (wp_decodeSequence size tLL tOF tML Htables lo last s (100 + 90 * i)); [done|lia|done|]. intros q s' Hq Hd' Hra. cbn beta iota. apply wp_bind.
  assert (1 <= offset q) as Hof.
  { destruct Hra as (? & ? & _ & _ & _ & [?|Hx]); [lia|]. assert (2 ^ 32 <= 2 ^ (8 * sizeof_size_t)) by (apply Z.pow_le_mono_r; destruct sizeof_size_t_cases; lia). lia. }
  apply (wp_exec m op litPtr q); [done|done|done|]. intros n litPtr' m' Hle Hm'. simpl.
  split; [|split; [by eapply rep_after_ok|done]]. by replace (100 + 90 * (i + 1)) with (100 + 90 * i + 90) by lia.
Qed.

Lemma wp_initFseState t bases bits mx mxl d B (Q : ZSTD_fseState * BIT_DStream_t -> Prop) R : seqtable_ok bases bits mx mxl t -> mxl <= 9 -> d_safe size d B -> 64 <= B < 2 ^ 29 ->
  (forall st d', st_in t st -> d_safe size d' (B + 9) -> Q (st, d')) -> wp (ZSTD_initFseState d t) Q R.
Proof.
  intros [Hl _] Hmx Hd HB HQ. unfold ZSTD_initFseState. apply wp_bind. eapply wp_read; [exact Hd|lia|lia|]. intros v d1 Hv Hd1. cbn beta iota.
  pose proof (wp_reload_if size true d1 (B + 9) (fun d2 => d_safe size d2 (B + 9)) R) as Hre. unfold reload_if in Hre. apply wp_bind.
  destruct (BIT_reloadDStream d1) as [[st d2]|e|f]; cbn [wp obind] in *; (specialize (Hre ltac:(eapply d_safe_weaken; [exact Hd1|lia]) ltac:(lia) ltac:(done))); [|done..].
  by apply HQ.
Qed.
End Block.

(** The tables and their spaces are those of [dctx], and are marked as usable by the next block if there were sequences. *)
Definition keeps_tables (dctx dctx' : ZSTD_DCtx) (nbSeq : Z) : Prop :=
  dc_LLTptr dctx' = dc_LLTptr dctx /\ dc_OFTptr dctx' = dc_OFTptr dctx /\ dc_MLTptr dctx' = dc_MLTptr dctx /\
  dc_LLTable dctx' = dc_LLTable dctx /\ dc_OFTable dctx' = dc_OFTable dctx /\ dc_MLTable dctx' = dc_MLTable dctx /\
  dc_workspace dctx' = dc_workspace dctx /\ dc_fseEntropy dctx' = negb (nbSeq =? 0) || dc_fseEntropy dctx.

(** On valid tables and repeated offsets, whatever the bit stream and the number of sequences are. *)
Lemma decompressSequences_safe `{P : Platform} (dctx : ZSTD_DCtx) m0 ostart maxDstSize src seqStart seqSize nbSeq lo :
  let oend := if bool_decide (dc_litBufferLocation dctx = ZSTD_not_in_dst) then ostart + maxDstSize else dc_litBuffer dctx in
  let litEnd := dc_litPtr dctx + dc_litSize dctx in
  bytes src -> 0 <= seqStart -> seqStart + seqSize <= zlen src -> 0 <= nbSeq < 2 ^ 17 ->
  layout m0 ostart oend oend (dc_litPtr dctx) litEnd (dc_prefixStart dctx) (dc_virtualStart dctx) (dc_dictEnd dctx) ->
  litEnd + WILDCOPY_OVERLENGTH <= ostart \/ oend <= dc_litPtr dctx ->
  (nbSeq <> 0 -> seqtable_ok LL_base LL_bits MaxLL LLFSELog (dc_LLTptr dctx) /\ seqtable_ok OF_base OF_bits MaxOff OffFSELog (dc_OFTptr dctx) /\
     seqtable_ok ML_base ML_bits MaxML MLFSELog (dc_MLTptr dctx)) ->
  rep_ok (dc_rep dctx) ->
  safe (ZSTD_decompressSequences dctx m0 ostart maxDstSize src seqStart seqSize nbSeq lo) (fun '(n, m', dctx') =>
    0 <= n <= oend - ostart /\ zlen m' = zlen m0 /\ (forall a, 0 <= a -> a < ostart \/ oend <= a -> rd m' a = rd m0 a) /\ rep_ok (dc_rep dctx') /\
    keeps_tables dctx dctx' nbSeq).
Proof.
  intros oend litEnd Hsrc Hs0 Hs1 Hnb Hlay Hsep Htab Hrep. unfold ZSTD_decompressSequences, ZSTD_decompressSequences_body. fold oend litEnd. apply wp_bind.
  pose proof Hlay as [Ho Hli _ Hsz].
  apply (wp_mono _ (fun '(m, op, litPtr, dctx') => mem_inv m0 ostart oend (dc_litPtr dctx) litEnd m op litPtr /\ rep_ok (dc_rep dctx') /\ keeps_tables dctx dctx' nbSeq) _ (fun _ => True)); [| |done].
  - destruct (Z.eqb_spec nbSeq 0) as [->|Hne]; cbn [negb].
    { cbn [wp]. split; [split; [done|]; split; [lia|]; split; [unfold litEnd in *; lia|done]|]. by split. }
    destruct (Htab Hne) as (Tl & To & Tm). apply wp_bind. assert (Hreg : regBits <= 64) by (destruct regBits_cases; lia).
    pose proof (wp_initDStream src seqStart seqSize (fun d => d_safe seqSize d 64) Hsrc Hs0 Hs1) as Hinit.
    destruct (BIT_initDStream src seqStart seqSize) as [d0|e|f]; cbn [wp]; [|done|by apply Hinit; intros; split; [done|lia]].
    specialize (Hinit ltac:(intros; split; [done|lia])). cbn [wp safe] in Hinit. apply wp_bind.
    eapply (wp_initFseState seqSize (dc_LLTptr dctx)); [exact Tl|done|exact Hinit|lia|]. intros sl d1 Sl Hd1. cbn beta iota. apply wp_bind.
    eapply (wp_initFseState seqSize (dc_OFTptr dctx)); [exact To|done|exact Hd1|lia|]. intros so d2 So Hd2. cbn beta iota. apply wp_bind.
    eapply (wp_initFseState seqSize (dc_MLTptr dctx)); [exact Tm|done|exact Hd2|lia|]. intros sm d3 Sm Hd3. cbn beta iota. apply wp_bind.
    eapply wp_mono; [apply (wp_for_range (block_safe m0 ostart oend (dc_litPtr dctx) litEnd (dc_LLTptr dctx) (dc_OFTptr dctx) (dc_MLTptr dctx) seqSize) (fun _ => True)); [lia| |]| |done].
    + split; [split; [done|]; split; [done|]; split; [done|]; eapply d_safe_weaken; [exact Hd3|lia]|]. split; [done|]. split; [done|]. split; [lia|]. split; [unfold litEnd in *; lia|done].
    + intros i st Hi Hst. exact (block_turn_safe m0 ostart oend (dc_litPtr dctx) litEnd _ _ _ Hlay Hsep _ _ _ seqSize (Htab Hne) lo (nbSeq - i =? 1) i st Hst ltac:(lia)).
    + intros [[[s m] op] litPtr] (_ & Hr & Hm). cbn beta iota. apply wp_bind, wp_reject_if; [done|]. intros _. cbn [wp]. split; [done|]. cbn [dc_rep]. rewrite rep_ok_u32 by done. split; [done|].
      unfold keeps_tables. rewrite (proj2 (Z.eqb_neq nbSeq 0)) by done. done.
  - intros [[[m op] litPtr] dctx'] (Hm & Hr & Hk). pose proof Hm as (Hz & Hop & Hlp & Hfr). cbn beta iota. apply wp_bind, wp_reject_if; [done|]. intros Hroom.
    assert (size_t (litEnd - litPtr) = litEnd - litPtr /\ size_t (oend - op) = oend - op) as [E1 E2] by (split; unfold size_t; apply wrap_small; unfold WILDCOPY_OVERLENGTH in *; lia).
    rewrite E1, E2 in Hroom. rewrite E1. unfold memcpy. unfold WILDCOPY_OVERLENGTH in *. assert ((litEnd - litPtr <=? op - litPtr) || (litEnd - litPtr <=? litPtr - op) = true) as ->.
    { apply orb_true_iff. rewrite !Z.leb_le. lia. }
    cbn [oassert obind]. destruct (memmove_spec m op litPtr (litEnd - litPtr)) as (m' & -> & Hz' & Hrd); [lia..|]. cbn [obind wp].
    split; [lia|]. split; [lia|]. split; [|done]. intros a Ha Hout. rewrite Hrd by done. destruct (Z.leb_spec op a); [|by apply Hfr].
    rewrite (proj2 (Z.ltb_ge a _)) by lia. cbn [andb]. by apply Hfr.
Qed.
