(* ===== verification/SeqHeaders.v ===== *)
(** * zstd_decompress_block.c: the header of a sequences section

    [ZSTD_decodeSeqHeaders] reads the number of sequences and, for each of the three codes, how its
    decoding table is given: predefined, a single symbol, described in the block, or the previous
    one.  It is shown to be safe on any bytes and to leave valid tables, so that decoding the whole
    section is. *)
From S2P Require Import Prelude Mem Errors Bits BitStream BitFields Fse FseSpread FseBuild FseState NCount Frame ExecSeq SeqTable SeqStore SeqEncode SeqDecode SeqBlock SeqSafe.

Definition LONGNBSEQ : Z := 0x7F00.
Definition MIN_SEQUENCES_SIZE : Z := 1.

Inductive SymbolEncodingType_e := set_basic | set_rle | set_compressed | set_repeat.

(** The enumerators in order, for a field of two bits. *)
Definition SymbolEncodingType (n : Z) : SymbolEncodingType_e :=
  if n =? 0 then set_basic else if n =? 1 then set_rle else if n =? 2 then set_compressed else set_repeat.

Record ZSTD_OffsetInfo := { longOffsetShare : Z; maxNbAdditionalBits : Z }.

Section Definitions.
Context `{P : Platform}.

(** The bytes read, the space for the table and the table to use. *)
Definition ZSTD_buildSeqTable (DTableSpace DTablePtr : SeqTable) (type : SymbolEncodingType_e) (max maxLog : Z)
    (src : list Z) (ip srcSize : Z) (bases nbAdditionalBits : list Z) (defaultTable : SeqTable) (flagRepeatTable : bool) (wksp : list Z)
  : res (Z * SeqTable * SeqTable) :=
  match type with
  | set_rle =>
      reject_if (srcSize =? 0) ZSTD_error_srcSize_wrong ;;;
      let* symbol := aget src ip in
      reject_if (max <? symbol) ZSTD_error_corruption_detected ;;;
      let* baseline := aget bases symbol in
      let* nbBits := aget nbAdditionalBits symbol in
      let* DTableSpace := ZSTD_buildSeqTable_rle DTableSpace baseline nbBits in
      Ok (1, DTableSpace, DTableSpace)
  | set_basic => Ok (0, DTableSpace, defaultTable)
  | set_repeat =>
      reject_if (negb flagRepeatTable) ZSTD_error_corruption_detected ;;;
      Ok (0, DTableSpace, DTablePtr)
  | set_compressed =>
      let norm := replicate (Z.to_nat (MaxSeq + 1)) 0 in
      let* r := match FSE_readNCount norm max src ip srcSize with Ok r => Ok r | Err _ => Err ZSTD_error_corruption_detected | Fault f => Fault f end in
      reject_if (maxLog <? nc_tableLog r) ZSTD_error_corruption_detected ;;;
      let* DTableSpace := ZSTD_buildFSETable DTableSpace (nc_counter r) (nc_maxSV r) bases nbAdditionalBits (nc_tableLog r) wksp in
      Ok (nc_size r, DTableSpace, DTableSpace)
  end.

(** The number of sequences and the position after it. *)
Definition seq_count (src : list Z) (istart iend : Z) : res (Z * Z) :=
  let* nbSeq := aget src istart in
  let ip := istart + 1 in
  if 0x7F <? nbSeq then
    if nbSeq =? 0xFF then
      reject_if (iend <? ip + 2) ZSTD_error_srcSize_wrong ;;;
      let* v := MEM_readLE16 src ip in
      Ok (v + LONGNBSEQ, ip + 2)
    else
      reject_if (iend <=? ip) ZSTD_error_srcSize_wrong ;;;
      let* v := aget src ip in
      Ok (Z.shiftl (nbSeq - 0x80) 8 + v, ip + 1)
  else Ok (nbSeq, ip).

(** [RETURN_ERROR_IF(ZSTD_isError(size), corruption_detected, ...)] *)
Definition or_corrupted {A} (r : res A) : res A :=
  match r with Ok a => Ok a | Err _ => Err ZSTD_error_corruption_detected | Fault f => Fault f end.

Definition with_tables (dctx : ZSTD_DCtx) (LLTable LLTptr OFTable OFTptr MLTable MLTptr : SeqTable) : ZSTD_DCtx :=
  {| dc_LLTptr := LLTptr; dc_OFTptr := OFTptr; dc_MLTptr := MLTptr; dc_LLTable := LLTable; dc_OFTable := OFTable; dc_MLTable := MLTable;
     dc_workspace := dc_workspace dctx; dc_fseEntropy := dc_fseEntropy dctx; dc_rep := dc_rep dctx; dc_litPtr := dc_litPtr dctx; dc_litSize := dc_litSize dctx;
     dc_litBuffer := dc_litBuffer dctx; dc_litBufferLocation := dc_litBufferLocation dctx; dc_prefixStart := dc_prefixStart dctx;
     dc_virtualStart := dc_virtualStart dctx; dc_dictEnd := dc_dictEnd dctx |}.

(** The size of the header, the number of sequences and the context. *)
Definition ZSTD_decodeSeqHeaders (dctx : ZSTD_DCtx) (src : list Z) (istart srcSize : Z) : res (Z * Z * ZSTD_DCtx) :=
  let iend := istart + srcSize in
  reject_if (srcSize <? MIN_SEQUENCES_SIZE) ZSTD_error_srcSize_wrong ;;;
  let* (nbSeq, ip) := seq_count src istart iend in
  if nbSeq =? 0 then
    reject_if (negb (ip =? iend)) ZSTD_error_corruption_detected ;;;
    Ok (ip - istart, nbSeq, dctx)
  else
    reject_if (iend <? ip + 1) ZSTD_error_srcSize_wrong ;;;
    let* types := aget src ip in
    reject_if (negb (Z.land types 3 =? 0)) ZSTD_error_corruption_detected ;;;
    let LLtype := SymbolEncodingType (Z.shiftr types 6) in
    let OFtype := SymbolEncodingType (Z.land (Z.shiftr types 4) 3) in
    let MLtype := SymbolEncodingType (Z.land (Z.shiftr types 2) 3) in
    let ip := ip + 1 in
    let* (llhSize, LLTable, LLTptr) := or_corrupted (ZSTD_buildSeqTable (dc_LLTable dctx) (dc_LLTptr dctx) LLtype MaxLL LLFSELog src ip (iend - ip)
      LL_base LL_bits LL_defaultDTable (dc_fseEntropy dctx) (dc_workspace dctx)) in
    let ip := ip + llhSize in
    let* (ofhSize, OFTable, OFTptr) := or_corrupted (ZSTD_buildSeqTable (dc_OFTable dctx) (dc_OFTptr dctx) OFtype MaxOff OffFSELog src ip (iend - ip)
      OF_base OF_bits OF_defaultDTable (dc_fseEntropy dctx) (dc_workspace dctx)) in
    let ip := ip + ofhSize in
    let* (mlhSize, MLTable, MLTptr) := or_corrupted (ZSTD_buildSeqTable (dc_MLTable dctx) (dc_MLTptr dctx) MLtype MaxML MLFSELog src ip (iend - ip)
      ML_base ML_bits ML_defaultDTable (dc_fseEntropy dctx) (dc_workspace dctx)) in
    let ip := ip + mlhSize in
    Ok (ip - istart, nbSeq, with_tables dctx LLTable LLTptr OFTable OFTptr MLTable MLTptr).

Definition ZSTD_getOffsetInfo (offTable : SeqTable) (nbSeq : Z) : res ZSTD_OffsetInfo :=
  let info := {| longOffsetShare := 0; maxNbAdditionalBits := 0 |} in
  if negb (nbSeq =? 0) then
    let tableLog := st_tableLog offTable in
    let max := Z.shiftl 1 tableLog in
    oassert (max <=? Z.shiftl 1 OffFSELog) ;;;
    let* info := for_range 0 max (fun u info =>
      let* c := aget (st_cells offTable) u in
      Ok {| maxNbAdditionalBits := Z.max (maxNbAdditionalBits info) (nbAdditionalBits c);
            longOffsetShare := if 22 <? nbAdditionalBits c then u32 (longOffsetShare info + 1) else longOffsetShare info |}) info in
    oassert (tableLog <=? OffFSELog) ;;;
    Ok {| longOffsetShare := u32 (Z.shiftl (longOffsetShare info) (OffFSELog - tableLog)); maxNbAdditionalBits := maxNbAdditionalBits info |}
  else Ok info.

Definition ZSTD_maxShortOffset : res Z :=
  if MEM_64bits then Ok (size_t (-1))
  else
    let maxOffbase := size_t (Z.shiftl 1 (STREAM_ACCUMULATOR_MIN + 1)) - 1 in
    let maxOffset := maxOffbase - ZSTD_REP_NUM in
    let* hb := ZSTD_highbit32 (u32 maxOffbase) in
    oassert (hb =? STREAM_ACCUMULATOR_MIN) ;;;
    Ok maxOffset.

Definition ZSTD_totalHistorySize (op virtualStart : Z) : Z := size_t (op - virtualStart).

(** How [ZSTD_decompressBlock_internal] chooses the decoder of offsets, and the one that prefetches: ([isLongOffset], [usePrefetchDecoder]). *)
Definition choose_decoder (OFTptr : SeqTable) (totalHistorySize nbSeq : Z) (ddictIsCold : bool) : res (bool * bool) :=
  let* maxShort := ZSTD_maxShortOffset in
  let isLongOffset := MEM_32bits && (maxShort <? totalHistorySize) in
  let usePrefetchDecoder := ddictIsCold in
  if isLongOffset || (negb usePrefetchDecoder && (Z.shiftl 1 24 <? totalHistorySize) && (8 <? nbSeq)) then
    let* info := ZSTD_getOffsetInfo OFTptr nbSeq in
    let isLongOffset := if isLongOffset && (maxNbAdditionalBits info <=? STREAM_ACCUMULATOR_MIN) then false else isLongOffset in
    let usePrefetchDecoder := if negb usePrefetchDecoder then (if MEM_64bits then 7 else 20) <=? longOffsetShare info else usePrefetchDecoder in
    Ok (isLongOffset, usePrefetchDecoder)
  else Ok (isLongOffset, usePrefetchDecoder).
End Definitions.

(** ** Safety *)

(** The tables the sequences are decoded with. *)
Definition tables_ok (dctx : ZSTD_DCtx) : Prop :=
  seqtable_ok LL_base LL_bits MaxLL LLFSELog (dc_LLTptr dctx) /\ seqtable_ok OF_base OF_bits MaxOff OffFSELog (dc_OFTptr dctx) /\
  seqtable_ok ML_base ML_bits MaxML MLFSELog (dc_MLTptr dctx).

(** The space of a context. *)
Definition space_ok (dctx : ZSTD_DCtx) : Prop :=
  2 ^ LLFSELog <= zlen (st_cells (dc_LLTable dctx)) /\ 2 ^ OffFSELog <= zlen (st_cells (dc_OFTable dctx)) /\ 2 ^ MLFSELog <= zlen (st_cells (dc_MLTable dctx)) /\
  ZSTD_BUILD_FSE_TABLE_WKSP_SIZE <= zlen (dc_workspace dctx).

(** A table built from a distribution. *)
Lemma seqtable_built norm k syms bases bits mx maxLog t : norm_ok norm k -> spread_ok norm k syms -> st_tableLog t = k -> k <= maxLog -> zlen norm <= mx + 1 ->
  (seq_of bases bits <$> dtable_ref norm k syms) `prefix_of` st_cells t -> seqtable_ok bases bits mx maxLog t.
Proof.
  intros Hn Hsy Hlog Hk Hmx Hpre. assert (0 <= k) by (destruct Hn; lia). split; [lia|]. rewrite Hlog. intros u Hu.
  destruct (lookup_lt_is_Some_2 (dtable_ref norm k syms) (Z.to_nat u)) as [c Hc]; [unfold dtable_ref; rewrite length_imap; destruct Hsy as [Hz _]; unfold zlen in Hz; lia|].
  destruct (dtable_ref_wf norm k syms Hn Hsy _ c Hc) as (H1 & H2 & H3 & H4 & _). exists (seq_of bases bits c).
  split; [eapply prefix_lookup_Some; [|exact Hpre]; by rewrite list_lookup_fmap, Hc|]. split; [done|]. split; [done|]. split; [done|]. exists (symbol c). split; [lia|done].
Qed.

Section Build.
Context `{P : Platform} (bases bits : list Z) (mx maxLog : Z) (dflt : SeqTable).
Hypothesis Hmx : 0 <= mx <= MaxSeq.
Hypothesis Hbase : mx < zlen bases.
Hypothesis Hbits : mx < zlen bits.
Hypothesis Hadd : Forall (fun b => b < 255) bits.
Hypothesis Hlog : 0 <= maxLog <= MaxFSELog.
Hypothesis Hdflt : seqtable_ok bases bits mx maxLog dflt.

Lemma buildSeqTable_safe space ptr type src ip srcSize rep wksp :
  bytes src -> 0 <= ip -> 0 <= srcSize < 2 ^ 24 -> ip + srcSize <= zlen src -> 2 ^ maxLog <= zlen (st_cells space) -> ZSTD_BUILD_FSE_TABLE_WKSP_SIZE <= zlen wksp ->
  (rep = true -> seqtable_ok bases bits mx maxLog ptr) ->
  safe (ZSTD_buildSeqTable space ptr type mx maxLog src ip srcSize bases bits dflt rep wksp) (fun '(n, space', ptr') =>
    0 <= n <= srcSize /\ zlen (st_cells space') = zlen (st_cells space) /\ seqtable_ok bases bits mx maxLog ptr').
Proof.
  intros Hb Hip Hsz Hl Hsp Hw Hrep. assert (1 <= 2 ^ maxLog) by (change 1 with (2 ^ 0); apply Z.pow_le_mono_r; lia). unfold ZSTD_buildSeqTable. destruct type.
  - simpl. split; [lia|done].
  - apply wp_bind, wp_reject_if; [done|]. intros Hne%Z.eqb_neq. apply wp_bind, wp_aget; [lia|]. intros s Hs. pose proof (bytes_lookup _ _ _ Hb Hs) as Hsr. unfold is_byte in Hsr.
    apply wp_bind, wp_reject_if; [done|]. intros Hsm. rewrite (aget_nth bases), (aget_nth bits) by lia. cbn [obind].
    assert (nth (Z.to_nat s) bits 0 < 255) as Hlt.
    { destruct (lookup_lt_is_Some_2 bits (Z.to_nat s)) as [b Hbt]; [unfold zlen in *; lia|]. rewrite (nth_lookup_Some _ _ 0 b Hbt). by apply (proj1 (Forall_lookup _ _) Hadd _ _ Hbt). }
    unfold ZSTD_buildSeqTable_rle. rewrite (proj2 (Z.ltb_lt _ 255) Hlt). cbn [oassert obind]. rewrite aset_Ok by lia. cbn [obind wp safe].
    split; [lia|]. split; [cbn [st_cells]; by rewrite zlen_insert|]. split; [cbn [st_tableLog]; lia|]. cbn [st_tableLog st_cells]. intros u Hu. assert (u = 0) as -> by (change (2 ^ 0) with 1 in Hu; lia).
    eexists. split; [apply list_lookup_insert_eq; unfold zlen in *; lia|]. split; [cbn; lia|]. split; [cbn; lia|]. split; [cbn; lia|]. exists s. split; [lia|done].
  - pose proof (readNCount_safe src ip srcSize mx (replicate (Z.to_nat (MaxSeq + 1)) 0) Hb Hip Hsz Hl) as Hr. unfold MaxSeq, MaxLL, MaxML in *.
    specialize (Hr ltac:(lia) ltac:(rewrite zlen_replicate; lia)). apply wp_bind. destruct (FSE_readNCount _ _ _ _ _) as [r|e|f]; [|done|done]. cbn [wp].
    destruct Hr as (Hn & Htl & Hsv & Hz & _ & _ & Hok). apply wp_bind, wp_reject_if; [done|]. intros Hlg. unfold MaxFSELog, MLFSELog, LLFSELog, OffFSELog in Hlog.
    specialize (Hok ltac:(lia)). set (norm := take (Z.to_nat (nc_maxSV r + 1)) (nc_counter r)) in *. assert (zlen norm = nc_maxSV r + 1) as Hzn.
    { rewrite zlen_replicate in Hz. unfold norm, zlen in *. rewrite length_take. lia. }
    assert (2 ^ nc_tableLog r <= 2 ^ maxLog) by (apply Z.pow_le_mono_r; lia).
    destruct (buildFSETable_spec norm (nc_tableLog r) (nc_counter r) bases bits Hok ltac:(apply prefix_take) ltac:(unfold MaxFSELog, MLFSELog, LLFSELog, OffFSELog; lia)
      ltac:(unfold MaxSeq, MaxLL, MaxML; lia) ltac:(lia) ltac:(lia) Hadd space wksp ltac:(lia) Hw) as (syms & Hsy & Hbuild).
    replace (zlen norm - 1) with (nc_maxSV r) in Hbuild by lia. rewrite Hbuild. cbn [obind wp safe]. cbn [st_cells].
    assert (zlen (seq_of bases bits <$> dtable_ref norm (nc_tableLog r) syms) = 2 ^ nc_tableLog r) as Hzt by (unfold zlen; rewrite length_fmap; unfold dtable_ref; rewrite length_imap; apply Hsy).
    split; [lia|]. split; [by apply zlen_splice; lia|]. eapply (seqtable_built norm (nc_tableLog r) syms); [done|done|done|lia|lia|].
    unfold splice. cbn [Z.to_nat take app st_cells]. by eexists.
  - apply wp_bind, wp_reject_if; [done|]. intros Hf%negb_false_iff. simpl. split; [lia|]. split; [done|]. by apply Hrep.
Qed.
End Build.

Lemma default_tables_ok `{P : Platform} :
  seqtable_ok LL_base LL_bits MaxLL LLFSELog LL_defaultDTable /\ seqtable_ok OF_base OF_bits MaxOff OffFSELog OF_defaultDTable /\
  seqtable_ok ML_base ML_bits MaxML MLFSELog ML_defaultDTable.
Proof.
  destruct default_builds as (B1 & B2 & B3), default_norms as (N1 & N2 & N3), code_bits as (C1 & C2 & C3).
  destruct (build_anywhere LL_defaultNorm MaxLL LL_defaultNormLog LL_base LL_bits (st_cells LL_defaultDTable) 1 (blank_table 6) blank_wksp) as (s1 & Y1 & E1 & _);
    [reflexivity|exact N1|by vm_compute..|exact C1|exact B1|by vm_compute|by vm_compute|].
  destruct (build_anywhere OF_defaultNorm DefaultMaxOff OF_defaultNormLog OF_base OF_bits (st_cells OF_defaultDTable) 1 (blank_table 6) blank_wksp) as (s2 & Y2 & E2 & _);
    [reflexivity|exact N2|by vm_compute..|exact C2|exact B2|by vm_compute|by vm_compute|].
  destruct (build_anywhere ML_defaultNorm MaxML ML_defaultNormLog ML_base ML_bits (st_cells ML_defaultDTable) 1 (blank_table 6) blank_wksp) as (s3 & Y3 & E3 & _);
    [reflexivity|exact N3|by vm_compute..|exact C3|exact B3|by vm_compute|by vm_compute|].
  split; [|split].
  - apply (seqtable_built LL_defaultNorm LL_defaultNormLog s1); [exact N1|exact Y1|reflexivity|by vm_compute|by vm_compute|by rewrite E1].
  - apply (seqtable_built OF_defaultNorm OF_defaultNormLog s2); [exact N2|exact Y2|reflexivity|by vm_compute|by vm_compute|by rewrite E2].
  - apply (seqtable_built ML_defaultNorm ML_defaultNormLog s3); [exact N3|exact Y3|reflexivity|by vm_compute|by vm_compute|by rewrite E3].
Qed.

Section Headers.
Context `{P : Platform}.

Lemma wp_or_corrupted {A} (r : res A) Q : safe r Q -> safe (or_corrupted r) Q.
Proof. by destruct r. Qed.

Lemma seq_count_safe src istart iend : bytes src -> 0 <= istart < iend -> iend <= zlen src ->
  safe (seq_count src istart iend) (fun '(nbSeq, ip) => 0 <= nbSeq < 2 ^ 17 /\ istart < ip <= iend).
Proof.
  intros Hb Hi He. unfold seq_count. apply wp_bind, wp_aget; [lia|]. intros n Hn. pose proof (bytes_lookup _ _ _ Hb Hn) as Hnr. unfold is_byte in Hnr.
  destruct (Z.ltb_spec 0x7F n); [|simpl; lia]. destruct (Z.eqb_spec n 0xFF).
  - apply wp_bind, wp_reject_if; [done|]. intros Hlt. rewrite MEM_readLE16_val by (done || lia). cbn [obind safe wp].
    pose proof (le_val_slice_range src (istart + 1) 2 Hb) as Hr. unfold LONGNBSEQ. lia.
  - apply wp_bind, wp_reject_if; [done|]. intros Hlt. apply wp_bind, wp_aget; [lia|]. intros v Hv. pose proof (bytes_lookup _ _ _ Hb Hv) as Hvr. unfold is_byte in Hvr.
    simpl. rewrite Z.shiftl_mul_pow2 by lia. lia.
Qed.

(** What the headers leave: the rest of the context as it was, and tables that can be decoded with. *)
Definition headers_ok (dctx dctx' : ZSTD_DCtx) (srcSize n nbSeq : Z) : Prop :=
  0 <= n <= srcSize /\ 0 <= nbSeq < 2 ^ 17 /\ (nbSeq <> 0 \/ dc_fseEntropy dctx = true -> tables_ok dctx') /\ space_ok dctx' /\
  dctx' = with_tables dctx (dc_LLTable dctx') (dc_LLTptr dctx') (dc_OFTable dctx') (dc_OFTptr dctx') (dc_MLTable dctx') (dc_MLTptr dctx').

Lemma decodeSeqHeaders_safe dctx src istart srcSize :
  bytes src -> 0 <= istart -> 0 <= srcSize < 2 ^ 24 -> istart + srcSize <= zlen src -> space_ok dctx -> (dc_fseEntropy dctx = true -> tables_ok dctx) ->
  safe (ZSTD_decodeSeqHeaders dctx src istart srcSize) (fun '(n, nbSeq, dctx') => headers_ok dctx dctx' srcSize n nbSeq).
Proof.
  intros Hb Hi Hs Hl Hsp Hrep. pose proof Hsp as (S1 & S2 & S3 & S4). destruct default_tables_ok as (D1 & D2 & D3), code_bits as (C1 & C2 & C3).
  assert (zlen LL_base = 36 /\ zlen LL_bits = 36 /\ zlen OF_base = 32 /\ zlen OF_bits = 32 /\ zlen ML_base = 53 /\ zlen ML_bits = 53) as (Z1 & Z2 & Z3 & Z4 & Z5 & Z6) by done.
  unfold ZSTD_decodeSeqHeaders, MIN_SEQUENCES_SIZE. apply wp_bind, wp_reject_if; [done|]. intros Hlt. apply wp_bind.
  eapply wp_mono; [apply seq_count_safe; [done|lia|lia]| |done]. intros [nbSeq ip] [Hnb Hip]. cbn beta iota. destruct (Z.eqb_spec nbSeq 0) as [->|Hne].
  { apply wp_bind, wp_reject_if; [done|]. intros _. cbn [wp]. split; [lia|]. split; [lia|]. split; [intros [?|?]; [done|by apply Hrep]|]. split; [done|]. by destruct dctx. }
  apply wp_bind, wp_reject_if; [done|]. intros Hroom. apply wp_bind, wp_aget; [lia|]. intros types _. apply wp_bind, wp_reject_if; [done|]. intros _. cbv zeta.
  unfold MaxLL, MaxOff, MaxML, LLFSELog, OffFSELog, MLFSELog in *. apply wp_bind.
  eapply wp_mono; [apply wp_or_corrupted, (buildSeqTable_safe LL_base LL_bits 35 9); try done; try lia; intros E; by apply Hrep| |done].
  intros [[n1 t1] p1] (N1 & T1 & K1). cbn beta iota. apply wp_bind.
  eapply wp_mono; [apply wp_or_corrupted, (buildSeqTable_safe OF_base OF_bits 31 8); try done; try lia; intros E; by apply Hrep| |done].
  intros [[n2 t2] p2] (N2 & T2 & K2). cbn beta iota. apply wp_bind.
  eapply wp_mono; [apply wp_or_corrupted, (buildSeqTable_safe ML_base ML_bits 52 9); try done; try lia; intros E; by apply Hrep| |done].
  intros [[n3 t3] p3] (N3 & T3 & K3). cbn [wp]. split; [lia|]. split; [lia|]. split; [done|].
  split; [|done]. unfold space_ok, LLFSELog, OffFSELog, MLFSELog. cbn [dc_LLTable dc_OFTable dc_MLTable dc_workspace with_tables]. rewrite T1, T2, T3. done.
Qed.
End Headers.

(** [ZSTD_decodeSeqHeaders] and then [ZSTD_decompressSequences] on the rest of the section. *)
Definition decode_section `{P : Platform} (dctx : ZSTD_DCtx) (m : list Z) (ostart maxDstSize : Z) (src : list Z) (ip srcSize : Z) (isLongOffset : bool) : res (Z * list Z * ZSTD_DCtx) :=
  let* (seqHSize, nbSeq, dctx) := ZSTD_decodeSeqHeaders dctx src ip srcSize in
  ZSTD_decompressSequences dctx m ostart maxDstSize src (ip + seqHSize) (srcSize - seqHSize) nbSeq isLongOffset.

(** C11: decoding a sequences section is safe on any bytes.  [ZSTD_decodeSeqHeaders] reads only the section, writes only the spaces for tables and leaves
    tables that [ZSTD_decompressSequences] can run on (repeated tables only if there were any); both together return an error of the library or at most the
    room given, write nothing outside the output and leave valid repeated offsets and tables. *)
Theorem ZSTD_sequences_section_safe `{P : Platform} (dctx : ZSTD_DCtx) m0 ostart maxDstSize src ip srcSize lo :
  let oend := if bool_decide (dc_litBufferLocation dctx = ZSTD_not_in_dst) then ostart + maxDstSize else dc_litBuffer dctx in
  let litEnd := dc_litPtr dctx + dc_litSize dctx in
  bytes src -> 0 <= ip -> 0 <= srcSize < 2 ^ 24 -> ip + srcSize <= zlen src ->
  space_ok dctx -> (dc_fseEntropy dctx = true -> tables_ok dctx) -> rep_ok (dc_rep dctx) ->
  layout m0 ostart oend oend (dc_litPtr dctx) litEnd (dc_prefixStart dctx) (dc_virtualStart dctx) (dc_dictEnd dctx) ->
  litEnd + WILDCOPY_OVERLENGTH <= ostart \/ oend <= dc_litPtr dctx ->
  safe (decode_section dctx m0 ostart maxDstSize src ip srcSize lo) (fun '(n, m', dctx') =>
    0 <= n <= oend - ostart /\ zlen m' = zlen m0 /\ (forall a, 0 <= a -> a < ostart \/ oend <= a -> rd m' a = rd m0 a) /\
    rep_ok (dc_rep dctx') /\ space_ok dctx' /\ (dc_fseEntropy dctx' = true -> tables_ok dctx')).
Proof.
  intros oend litEnd Hb Hi Hs Hl Hsp Hrep Hr Hlay Hsep. unfold decode_section. apply wp_bind.
  eapply wp_mono; [by apply decodeSeqHeaders_safe| |done]. intros [[n nbSeq] d] (Hn & Hnb & Htab & Hsp' & Hd). cbn beta iota.
  pose proof (f_equal dc_fseEntropy Hd) as E1. pose proof (f_equal dc_rep Hd) as E2. pose proof (f_equal dc_litPtr Hd) as E3. pose proof (f_equal dc_litSize Hd) as E4.
  pose proof (f_equal dc_litBuffer Hd) as E5. pose proof (f_equal dc_litBufferLocation Hd) as E6. pose proof (f_equal dc_prefixStart Hd) as E7.
  pose proof (f_equal dc_virtualStart Hd) as E8. pose proof (f_equal dc_dictEnd Hd) as E9. cbn [with_tables dc_fseEntropy dc_rep dc_litPtr dc_litSize dc_litBuffer
    dc_litBufferLocation dc_prefixStart dc_virtualStart dc_dictEnd] in E1, E2, E3, E4, E5, E6, E7, E8, E9. clear Hd.
  pose proof (decompressSequences_safe d m0 ostart maxDstSize src (ip + n) (srcSize - n) nbSeq lo) as Hsafe. rewrite E2, E3, E4, E5, E6, E7, E8, E9 in Hsafe.
  fold oend litEnd in Hsafe. eapply wp_mono; [apply Hsafe; try done; try lia| |done].
  - intros Hne. apply Htab. by left.
  - intros [[k m'] d'] (H1 & H2 & H3 & H4 & K1 & K2 & K3 & K4 & K5 & K6 & K7 & K8). split; [done|]. split; [done|]. split; [done|]. split; [done|].
    unfold space_ok, tables_ok. rewrite K1, K2, K3, K4, K5, K6, K7, K8, E1. split; [done|]. intros He. apply Htab.
    apply orb_true_iff in He as [He|He]; [left|by right]. by apply negb_true_iff, Z.eqb_neq in He.
Qed.

(** Three tables of a single symbol each, and a stream of one bit. *)
Lemma ZSTD_sequences_section_safe_witness :
  let P := arm64_v8a in let src := [1; 84; 1; 0; 4; 1] in
  (exists m' dctx', decode_section demo_dctx demo_mem 3 197 src 0 6 false = Ok (10, m', dctx') /\ take 13 m' = [1; 2; 3; 65; 65; 65; 65; 65; 65; 65; 65; 66; 67]) /\
  decode_section demo_dctx demo_mem 3 197 [1; 84; 1; 0; 4; 5] 0 6 false = Err ZSTD_error_corruption_detected /\
  safe (decode_section demo_dctx demo_mem 3 197 src 0 6 false) (fun '(n, m', _) => 0 <= n <= 197 /\ zlen m' = zlen demo_mem).
Proof.
  intros P src. split; [eexists _, _; split; vm_compute; reflexivity|]. split; [vm_compute; reflexivity|].
  eapply wp_mono; [apply (ZSTD_sequences_section_safe (P := P) demo_dctx demo_mem 3 197 src 0 6 false)| |done].
  - eval_bytes.
  - lia.
  - lia.
  - by vm_compute.
  - split_and!; by vm_compute.
  - intros E. discriminate E.
  - apply rep_ok_3; lia.
  - constructor; unfold WILDCOPY_OVERLENGTH; change (zlen demo_mem) with 263; cbn [dc_prefixStart dc_virtualStart dc_litPtr dc_litSize dc_dictEnd demo_dctx];
      change (if bool_decide (dc_litBufferLocation demo_dctx = ZSTD_not_in_dst) then 3 + 197 else dc_litBuffer demo_dctx) with 200; try lia. by vm_compute.
  - right. by vm_compute.
  - intros [[n m'] d'] (H1 & H2 & _). exact (conj H1 H2).
Defined.

(** ** The choice of the decoder of offsets *)

Section Choice.
Context `{P : Platform} (t : SeqTable).
Hypothesis Htab : seqtable_ok OF_base OF_bits MaxOff OffFSELog t.

Lemma OF_cell_bits u c : 0 <= u < 2 ^ st_tableLog t -> st_cells t !! Z.to_nat u = Some c -> 0 <= nbAdditionalBits c <= MaxOff.
Proof.
  intros Hu Hc. destruct Htab as [_ Ht]. destruct (Ht u Hu) as (c' & Hc' & _ & _ & _ & s & Hs & _ & Hb). assert (c' = c) as -> by congruence.
  destruct (OF_tables s Hs) as [E _]. lia.
Qed.

Lemma getOffsetInfo_spec nbSeq : nbSeq <> 0 ->
  exists info, ZSTD_getOffsetInfo t nbSeq = Ok info /\ forall u c, 0 <= u < 2 ^ st_tableLog t -> st_cells t !! Z.to_nat u = Some c -> nbAdditionalBits c <= maxNbAdditionalBits info.
Proof.
  intros Hne. pose proof Htab as [Hl Ht]. unfold OffFSELog in Hl. unfold ZSTD_getOffsetInfo, OffFSELog. rewrite (proj2 (Z.eqb_neq nbSeq 0)) by done. cbn [negb].
  assert (Z.shiftl 1 (st_tableLog t) = 2 ^ st_tableLog t) as -> by (rewrite Z.shiftl_mul_pow2 by lia; lia). change (Z.shiftl 1 8) with (2 ^ 8).
  assert (0 < 2 ^ st_tableLog t <= 2 ^ 8) as Hp by (split; [apply pow2_pos; lia|apply Z.pow_le_mono_r; lia]). rewrite (proj2 (Z.leb_le (2 ^ st_tableLog t) _)) by lia. cbn [oassert obind].
  match goal with |- context [for_range 0 ?n ?f ?i] => destruct (wp_exists (for_range 0 n f i) (fun info => forall u c, 0 <= u < n -> st_cells t !! Z.to_nat u = Some c ->
    nbAdditionalBits c <= maxNbAdditionalBits info)) as (info & -> & Hinfo) end.
  - apply (wp_for_range (fun j info => forall u c, 0 <= u < j -> st_cells t !! Z.to_nat u = Some c -> nbAdditionalBits c <= maxNbAdditionalBits info)); [lia|intros; lia|].
    intros j info Hj Hi. destruct (Ht j Hj) as (c & Hc & _). assert (aget (st_cells t) j = (Ok c : res _)) as -> by (apply aget_Ok; split; [lia|done]). cbn [obind wp maxNbAdditionalBits].
    intros u c' Hu Hc'. destruct (decide (u = j)) as [->|]; [assert (c' = c) as -> by congruence; lia|]. specialize (Hi u c' ltac:(lia) Hc'). lia.
  - cbn [obind]. rewrite (proj2 (Z.leb_le (st_tableLog t) 8)) by lia. cbn [oassert obind]. eexists. split; [reflexivity|]. done.
Qed.

Lemma maxShortOffset_val : ZSTD_maxShortOffset = Ok (if MEM_64bits then size_t (-1) else 2 ^ 26 - 4).
Proof.
  unfold ZSTD_maxShortOffset, STREAM_ACCUMULATOR_MIN, STREAM_ACCUMULATOR_MIN_32, ZSTD_REP_NUM. destruct MEM_64bits; [done|].
  change (Z.shiftl 1 (25 + 1)) with (2 ^ 26). rewrite size_t_small by lia. rewrite highbit32_val by (rewrite wrap_small; lia). reflexivity.
Qed.
End Choice.

(** [ZSTD_decompressBlock_internal] announces long offsets whenever the block may hold one.  With a valid table of offsets, choosing the decoder neither
    fails nor goes out of bounds, and on a 32-bit target, if it chooses the decoder that reads an offset at once, then every offset code that a cell of the
    table stands for and whose offset can lie within the history fits the bits a register holds after a reload. *)
Theorem ZSTD_choose_decoder_fits `{P : Platform} t totalHistorySize nbSeq cold :
  seqtable_ok OF_base OF_bits MaxOff OffFSELog t -> nbSeq <> 0 ->
  exists lo pf, choose_decoder t totalHistorySize nbSeq cold = Ok (lo, pf) /\ (MEM_64bits = true -> lo = false) /\
    forall u c offBase, 0 <= u < 2 ^ st_tableLog t -> st_cells t !! Z.to_nat u = Some c -> nbAdditionalBits c = Z.log2 offBase ->
      0 < offBase -> offBase - ZSTD_REP_NUM <= totalHistorySize -> MEM_64bits = false -> lo = false -> nbAdditionalBits c <= STREAM_ACCUMULATOR_MIN_32.
Proof.
  intros Htab Hne. destruct (getOffsetInfo_spec t Htab nbSeq Hne) as (info & Hinfo & Hmax). unfold choose_decoder, MEM_32bits, STREAM_ACCUMULATOR_MIN, STREAM_ACCUMULATOR_MIN_32, ZSTD_REP_NUM.
  rewrite maxShortOffset_val. cbn [obind]. set (short := if MEM_64bits then size_t (-1) else 2 ^ 26 - 4).
  assert (forall offBase, MEM_64bits = false -> 0 < offBase -> offBase - 3 <= totalHistorySize -> totalHistorySize <= short -> Z.log2 offBase <= 25) as Hshort.
  { intros ob H64 Hob Hle Hs. unfold short in Hs. rewrite H64 in Hs. assert (Z.log2 ob < 26) by (apply Z.log2_lt_pow2; lia). lia. }
  destruct (_ || _) eqn:Hask.
  - rewrite Hinfo. cbn [obind]. eexists _, _. split; [reflexivity|]. split; [intros ->; by cbn|]. intros u c ob Hu Hc Hlog Hob Hle H64 Hlo. rewrite H64 in *. cbn [negb andb] in *.
    destruct (Z.ltb_spec short totalHistorySize); [|rewrite Hlog; by apply Hshort]. cbn [andb] in Hlo. unfold STREAM_ACCUMULATOR_MIN_32 in Hlo. destruct (Z.leb_spec (maxNbAdditionalBits info) 25); [|done].
    specialize (Hmax u c Hu Hc). lia.
  - eexists _, _. split; [reflexivity|]. split; [intros ->; by cbn|]. intros u c ob Hu Hc Hlog Hob Hle H64 Hlo. rewrite H64 in *. cbn [negb andb] in *.
    apply Z.ltb_ge in Hlo. rewrite Hlog. by apply Hshort.
Qed.

Lemma ZSTD_choose_decoder_fits_witness :
  let P := armeabi_v7a in
  choose_decoder OF_defaultDTable (2 ^ 20) 5 false = Ok (false, false) /\ choose_decoder OF_defaultDTable (2 ^ 27) 5 false = Ok (true, true) /\
  exists lo pf, choose_decoder OF_defaultDTable (2 ^ 27) 5 false = Ok (lo, pf) /\ (MEM_64bits = true -> lo = false).
Proof.
  intros P. split; [vm_compute; reflexivity|]. split; [vm_compute; reflexivity|].
  destruct (ZSTD_choose_decoder_fits (P := P) OF_defaultDTable (2 ^ 27) 5 false) as (lo & pf & H & H' & _).
  - apply default_tables_ok.
  - lia.
  - exists lo, pf. exact (conj H H').
Defined.
