(* ===== verification/Cwksp.v ===== *)
(** * zstd_cwksp.h: the workspace of a compression context

    The compressor allocates all its memory from one buffer, the workspace: objects and
    tables from its start, buffers from its end.  Here are the record [ZSTD_cwksp] and all
    its functions, and then the arena they make: the commands a client may give, what it
    must respect ([allowed]), and that in every state it can reach the live allocations
    are aligned, disjoint and inside the workspace, that init-once memory is initialised,
    and that the values in the tables are bounded where the workspace says so.

    A pointer is its address, so that the alignment of the workspace matters; [NULL] is 0
    and sums of pointers do not wrap.  The contents of the workspace are a function from
    addresses to bytes, [None] where nothing was ever written.  [DEBUGLEVEL] says whether
    [assert] is compiled; sanitizers are off. *)
From S2P Require Import Prelude Mem Errors.

Definition ZSTD_CWKSP_ALIGNMENT_BYTES : Z := 64.
Definition ZSTD_WORKSPACETOOLARGE_FACTOR : Z := 3.
Definition ZSTD_WORKSPACETOOLARGE_MAXDURATION : Z := 128.

Inductive ZSTD_cwksp_alloc_phase_e :=
| ZSTD_cwksp_alloc_objects
| ZSTD_cwksp_alloc_aligned_init_once
| ZSTD_cwksp_alloc_aligned
| ZSTD_cwksp_alloc_buffers.

Inductive ZSTD_cwksp_static_alloc_e := ZSTD_cwksp_dynamic_alloc | ZSTD_cwksp_static_alloc.

#[global] Instance alloc_phase_eq_dec : EqDecision ZSTD_cwksp_alloc_phase_e.
Proof. solve_decision. Defined.

(** The value of the enumeration, by which phases are compared. *)
Definition rank (p : ZSTD_cwksp_alloc_phase_e) : Z :=
  match p with
  | ZSTD_cwksp_alloc_objects => 0
  | ZSTD_cwksp_alloc_aligned_init_once => 1
  | ZSTD_cwksp_alloc_aligned => 2
  | ZSTD_cwksp_alloc_buffers => 3
  end.

Record ZSTD_cwksp := {
  workspace : Z;
  workspaceEnd : Z;
  objectEnd : Z;
  tableEnd : Z;
  tableValidEnd : Z;
  allocStart : Z;
  initOnceStart : Z;
  allocFailed : bool;
  workspaceOversizedDuration : Z;
  phase : ZSTD_cwksp_alloc_phase_e;
  isStatic : ZSTD_cwksp_static_alloc_e
}.

Definition NULL : Z := 0.

(** *** Assignments to the fields *)

Definition set_objectEnd x ws :=
  {| workspace := workspace ws; workspaceEnd := workspaceEnd ws; objectEnd := x; tableEnd := tableEnd ws; tableValidEnd := tableValidEnd ws;
     allocStart := allocStart ws; initOnceStart := initOnceStart ws; allocFailed := allocFailed ws;
     workspaceOversizedDuration := workspaceOversizedDuration ws; phase := phase ws; isStatic := isStatic ws |}.
Definition set_tableEnd x ws :=
  {| workspace := workspace ws; workspaceEnd := workspaceEnd ws; objectEnd := objectEnd ws; tableEnd := x; tableValidEnd := tableValidEnd ws;
     allocStart := allocStart ws; initOnceStart := initOnceStart ws; allocFailed := allocFailed ws;
     workspaceOversizedDuration := workspaceOversizedDuration ws; phase := phase ws; isStatic := isStatic ws |}.
Definition set_tableValidEnd x ws :=
  {| workspace := workspace ws; workspaceEnd := workspaceEnd ws; objectEnd := objectEnd ws; tableEnd := tableEnd ws; tableValidEnd := x;
     allocStart := allocStart ws; initOnceStart := initOnceStart ws; allocFailed := allocFailed ws;
     workspaceOversizedDuration := workspaceOversizedDuration ws; phase := phase ws; isStatic := isStatic ws |}.
Definition set_allocStart x ws :=
  {| workspace := workspace ws; workspaceEnd := workspaceEnd ws; objectEnd := objectEnd ws; tableEnd := tableEnd ws; tableValidEnd := tableValidEnd ws;
     allocStart := x; initOnceStart := initOnceStart ws; allocFailed := allocFailed ws;
     workspaceOversizedDuration := workspaceOversizedDuration ws; phase := phase ws; isStatic := isStatic ws |}.
Definition set_initOnceStart x ws :=
  {| workspace := workspace ws; workspaceEnd := workspaceEnd ws; objectEnd := objectEnd ws; tableEnd := tableEnd ws; tableValidEnd := tableValidEnd ws;
     allocStart := allocStart ws; initOnceStart := x; allocFailed := allocFailed ws;
     workspaceOversizedDuration := workspaceOversizedDuration ws; phase := phase ws; isStatic := isStatic ws |}.
Definition set_allocFailed x ws :=
  {| workspace := workspace ws; workspaceEnd := workspaceEnd ws; objectEnd := objectEnd ws; tableEnd := tableEnd ws; tableValidEnd := tableValidEnd ws;
     allocStart := allocStart ws; initOnceStart := initOnceStart ws; allocFailed := x;
     workspaceOversizedDuration := workspaceOversizedDuration ws; phase := phase ws; isStatic := isStatic ws |}.
Definition set_workspaceOversizedDuration x ws :=
  {| workspace := workspace ws; workspaceEnd := workspaceEnd ws; objectEnd := objectEnd ws; tableEnd := tableEnd ws; tableValidEnd := tableValidEnd ws;
     allocStart := allocStart ws; initOnceStart := initOnceStart ws; allocFailed := allocFailed ws;
     workspaceOversizedDuration := x; phase := phase ws; isStatic := isStatic ws |}.
Definition set_phase x ws :=
  {| workspace := workspace ws; workspaceEnd := workspaceEnd ws; objectEnd := objectEnd ws; tableEnd := tableEnd ws; tableValidEnd := tableValidEnd ws;
     allocStart := allocStart ws; initOnceStart := initOnceStart ws; allocFailed := allocFailed ws;
     workspaceOversizedDuration := workspaceOversizedDuration ws; phase := x; isStatic := isStatic ws |}.

(** [memset(ws, 0, sizeof *ws)] *)
Definition zero_cwksp : ZSTD_cwksp :=
  {| workspace := NULL; workspaceEnd := NULL; objectEnd := NULL; tableEnd := NULL; tableValidEnd := NULL; allocStart := NULL; initOnceStart := NULL;
     allocFailed := false; workspaceOversizedDuration := 0; phase := ZSTD_cwksp_alloc_objects; isStatic := ZSTD_cwksp_dynamic_alloc |}.

(** The contents of memory, by address. *)
Definition memory := Z -> option Z.

Section Operations.
Context `{P : Platform} (DEBUGLEVEL : Z).
Implicit Types (ws : ZSTD_cwksp) (m : memory).

(** [assert(b)] *)
Definition dassert (b : bool) : res unit :=
  if 1 <=? DEBUGLEVEL then oassert b else Ok tt.

(** The size of a pointer. *)
Definition sizeof_ptr : Z := sizeof_size_t.

Definition ZSTD_isPower2 (u : Z) : bool := Z.land u (size_t (u - 1)) =? 0.

Definition ZSTD_cwksp_initialAllocStart ws : res Z :=
  let endPtr := workspaceEnd ws in
  dassert (ZSTD_isPower2 ZSTD_CWKSP_ALIGNMENT_BYTES);;;
  let endPtr := endPtr - endPtr mod ZSTD_CWKSP_ALIGNMENT_BYTES in
  Ok endPtr.

Definition ZSTD_cwksp_assert_internal_consistency ws : res unit :=
  dassert (workspace ws <=? objectEnd ws);;;
  dassert (objectEnd ws <=? tableEnd ws);;;
  dassert (objectEnd ws <=? tableValidEnd ws);;;
  dassert (tableEnd ws <=? allocStart ws);;;
  dassert (tableValidEnd ws <=? allocStart ws);;;
  dassert (allocStart ws <=? workspaceEnd ws);;;
  let* initial := ZSTD_cwksp_initialAllocStart ws in
  dassert (initOnceStart ws <=? initial);;;
  dassert (workspace ws <=? initOnceStart ws).

(** [(size + mask) & ~mask] *)
Definition ZSTD_cwksp_align (size align : Z) : res Z :=
  let mask := size_t (align - 1) in
  dassert (ZSTD_isPower2 align);;;
  Ok (Z.land (size_t (size + mask)) (size_t (Z.lnot mask))).

Definition ZSTD_cwksp_alloc_size (size : Z) : Z :=
  if size =? 0 then 0 else size.

Definition ZSTD_cwksp_aligned_alloc_size (size alignment : Z) : res Z :=
  let* n := ZSTD_cwksp_align size alignment in
  Ok (ZSTD_cwksp_alloc_size n).

Definition ZSTD_cwksp_aligned64_alloc_size (size : Z) : res Z :=
  ZSTD_cwksp_aligned_alloc_size size ZSTD_CWKSP_ALIGNMENT_BYTES.

Definition ZSTD_cwksp_slack_space_required : Z :=
  ZSTD_CWKSP_ALIGNMENT_BYTES * 2.

Definition ZSTD_cwksp_bytes_to_align_ptr (ptr alignBytes : Z) : res Z :=
  let alignBytesMask := size_t (alignBytes - 1) in
  let bytes := Z.land (size_t (alignBytes - Z.land ptr alignBytesMask)) alignBytesMask in
  dassert (ZSTD_isPower2 alignBytes);;;
  dassert (bytes <? alignBytes);;;
  Ok bytes.

Definition ZSTD_cwksp_reserve_internal_buffer_space ws (bytes : Z) : res (Z * ZSTD_cwksp) :=
  let alloc := allocStart ws - bytes in
  let bottom := tableEnd ws in
  ZSTD_cwksp_assert_internal_consistency ws;;;
  dassert (bottom <=? alloc);;;
  if alloc <? bottom then
    Ok (NULL, set_allocFailed true ws)
  else
    let ws := if alloc <? tableValidEnd ws then set_tableValidEnd alloc ws else ws in
    Ok (alloc, set_allocStart alloc ws).

(** The part of [ZSTD_cwksp_internal_advance_phase] that ends the phase of objects.  The result is the error reported, if any. *)
Definition align_tables ws : res (option ZSTD_ErrorCode * ZSTD_cwksp) :=
  let ws := set_tableValidEnd (objectEnd ws) ws in
  let* initial := ZSTD_cwksp_initialAllocStart ws in
  let ws := set_initOnceStart initial ws in
  let alloc := objectEnd ws in
  let* bytesToAlign := ZSTD_cwksp_bytes_to_align_ptr alloc ZSTD_CWKSP_ALIGNMENT_BYTES in
  let objectEnd := alloc + bytesToAlign in
  if workspaceEnd ws <? objectEnd then
    Ok (Some ZSTD_error_memory_allocation, ws)
  else
    let ws := set_objectEnd objectEnd ws in
    let ws := set_tableEnd objectEnd ws in
    Ok (None, if tableValidEnd ws <? tableEnd ws then set_tableValidEnd (tableEnd ws) ws else ws).

Definition ZSTD_cwksp_internal_advance_phase ws (ph : ZSTD_cwksp_alloc_phase_e) : res (option ZSTD_ErrorCode * ZSTD_cwksp) :=
  dassert (rank (phase ws) <=? rank ph);;;
  if rank (phase ws) <? rank ph then
    let* (err, ws) :=
      if (rank (phase ws) <? rank ZSTD_cwksp_alloc_aligned_init_once) && (rank ZSTD_cwksp_alloc_aligned_init_once <=? rank ph)
      then align_tables ws else Ok (None, ws) in
    match err with
    | Some e => Ok (Some e, ws)
    | None =>
        let ws := set_phase ph ws in
        ZSTD_cwksp_assert_internal_consistency ws;;;
        Ok (None, ws)
    end
  else Ok (None, ws).

Definition ZSTD_cwksp_owns_buffer ws (ptr : Z) : bool :=
  negb (ptr =? NULL) && (workspace ws <=? ptr) && (ptr <? workspaceEnd ws).

Definition ZSTD_cwksp_reserve_internal ws (bytes : Z) (ph : ZSTD_cwksp_alloc_phase_e) : res (Z * ZSTD_cwksp) :=
  let* (err, ws) := ZSTD_cwksp_internal_advance_phase ws ph in
  if (if err then true else false) || (bytes =? 0) then Ok (NULL, ws)
  else ZSTD_cwksp_reserve_internal_buffer_space ws bytes.

Definition ZSTD_cwksp_reserve_buffer ws (bytes : Z) : res (Z * ZSTD_cwksp) :=
  ZSTD_cwksp_reserve_internal ws bytes ZSTD_cwksp_alloc_buffers.

(** [ZSTD_memset(ptr, 0, n)] inside the workspace *)
Definition clear_bytes ws m (ptr n : Z) : res memory :=
  if (workspace ws <=? ptr) && (ptr + n <=? workspaceEnd ws)
  then Ok (fun a => if (ptr <=? a) && (a <? ptr + n) then Some 0 else m a) else Fault Oob.

Definition ZSTD_cwksp_reserve_aligned_init_once ws m (bytes : Z) : res (Z * ZSTD_cwksp * memory) :=
  let* alignedBytes := ZSTD_cwksp_align bytes ZSTD_CWKSP_ALIGNMENT_BYTES in
  let* (ptr, ws) := ZSTD_cwksp_reserve_internal ws alignedBytes ZSTD_cwksp_alloc_aligned_init_once in
  dassert (Z.land ptr (ZSTD_CWKSP_ALIGNMENT_BYTES - 1) =? 0);;;
  if negb (ptr =? NULL) && (ptr <? initOnceStart ws) then
    let* m := clear_bytes ws m ptr (Z.min (size_t (initOnceStart ws - ptr)) alignedBytes) in
    Ok (ptr, set_initOnceStart ptr ws, m)
  else Ok (ptr, ws, m).

Definition ZSTD_cwksp_reserve_aligned64 ws (bytes : Z) : res (Z * ZSTD_cwksp) :=
  let* alignedBytes := ZSTD_cwksp_align bytes ZSTD_CWKSP_ALIGNMENT_BYTES in
  let* (ptr, ws) := ZSTD_cwksp_reserve_internal ws alignedBytes ZSTD_cwksp_alloc_aligned in
  dassert (Z.land ptr (ZSTD_CWKSP_ALIGNMENT_BYTES - 1) =? 0);;;
  Ok (ptr, ws).

Definition ZSTD_cwksp_reserve_table ws (bytes : Z) : res (Z * ZSTD_cwksp) :=
  let ph := ZSTD_cwksp_alloc_aligned_init_once in
  let* (err, ws) := if rank (phase ws) <? rank ph then ZSTD_cwksp_internal_advance_phase ws ph else Ok (None, ws) in
  match err with
  | Some _ => Ok (NULL, ws)
  | None =>
      let alloc := tableEnd ws in
      let end_ := alloc + bytes in
      let top := allocStart ws in
      dassert (Z.land bytes (4 - 1) =? 0);;;
      ZSTD_cwksp_assert_internal_consistency ws;;;
      dassert (end_ <=? top);;;
      if top <? end_ then Ok (NULL, set_allocFailed true ws)
      else
        let ws := set_tableEnd end_ ws in
        dassert (Z.land bytes (ZSTD_CWKSP_ALIGNMENT_BYTES - 1) =? 0);;;
        dassert (Z.land alloc (ZSTD_CWKSP_ALIGNMENT_BYTES - 1) =? 0);;;
        Ok (alloc, ws)
  end.

Definition ZSTD_cwksp_reserve_object ws (bytes : Z) : res (Z * ZSTD_cwksp) :=
  let* roundedBytes := ZSTD_cwksp_align bytes sizeof_ptr in
  let alloc := objectEnd ws in
  let end_ := alloc + roundedBytes in
  dassert (alloc mod sizeof_ptr =? 0);;;
  dassert (bytes mod sizeof_ptr =? 0);;;
  ZSTD_cwksp_assert_internal_consistency ws;;;
  if negb (bool_decide (phase ws = ZSTD_cwksp_alloc_objects)) || (workspaceEnd ws <? end_) then
    Ok (NULL, set_allocFailed true ws)
  else
    Ok (alloc, set_tableValidEnd end_ (set_tableEnd end_ (set_objectEnd end_ ws))).

Definition ZSTD_cwksp_reserve_object_aligned ws (byteSize alignment : Z) : res (Z * ZSTD_cwksp) :=
  let mask := size_t (alignment - 1) in
  let surplus := if sizeof_ptr <? alignment then alignment - sizeof_ptr else 0 in
  let* (start, ws) := ZSTD_cwksp_reserve_object ws (size_t (byteSize + surplus)) in
  if start =? NULL then Ok (NULL, ws)
  else if surplus =? 0 then Ok (start, ws)
  else
    dassert (ZSTD_isPower2 alignment);;;
    Ok (Z.land (size_t (start + surplus)) (size_t (Z.lnot mask)), ws).

Definition ZSTD_cwksp_mark_tables_dirty ws : res ZSTD_cwksp :=
  dassert (objectEnd ws <=? tableValidEnd ws);;;
  dassert (tableValidEnd ws <=? allocStart ws);;;
  let ws := set_tableValidEnd (objectEnd ws) ws in
  ZSTD_cwksp_assert_internal_consistency ws;;;
  Ok ws.

Definition ZSTD_cwksp_mark_tables_clean ws : res ZSTD_cwksp :=
  dassert (objectEnd ws <=? tableValidEnd ws);;;
  dassert (tableValidEnd ws <=? allocStart ws);;;
  let ws := if tableValidEnd ws <? tableEnd ws then set_tableValidEnd (tableEnd ws) ws else ws in
  ZSTD_cwksp_assert_internal_consistency ws;;;
  Ok ws.

Definition ZSTD_cwksp_clean_tables ws m : res (ZSTD_cwksp * memory) :=
  dassert (objectEnd ws <=? tableValidEnd ws);;;
  dassert (tableValidEnd ws <=? allocStart ws);;;
  let* m := if tableValidEnd ws <? tableEnd ws then clear_bytes ws m (tableValidEnd ws) (size_t (tableEnd ws - tableValidEnd ws)) else Ok m in
  let* ws := ZSTD_cwksp_mark_tables_clean ws in
  Ok (ws, m).

Definition ZSTD_cwksp_clear_tables ws : res ZSTD_cwksp :=
  let ws := set_tableEnd (objectEnd ws) ws in
  ZSTD_cwksp_assert_internal_consistency ws;;;
  Ok ws.

Definition ZSTD_cwksp_clear ws : res ZSTD_cwksp :=
  let ws := set_tableEnd (objectEnd ws) ws in
  let* initial := ZSTD_cwksp_initialAllocStart ws in
  let ws := set_allocStart initial ws in
  let ws := set_allocFailed false ws in
  let ws := if rank ZSTD_cwksp_alloc_aligned_init_once <? rank (phase ws) then set_phase ZSTD_cwksp_alloc_aligned_init_once ws else ws in
  ZSTD_cwksp_assert_internal_consistency ws;;;
  Ok ws.

Definition ZSTD_cwksp_sizeof ws : Z := size_t (workspaceEnd ws - workspace ws).

Definition ZSTD_cwksp_used ws : Z :=
  size_t (size_t (tableEnd ws - workspace ws) + size_t (workspaceEnd ws - allocStart ws)).

(** Only the fields it assigns are taken from the new values; the others are those of [ws]. *)
Definition ZSTD_cwksp_init ws (start size : Z) (static : ZSTD_cwksp_static_alloc_e) : res ZSTD_cwksp :=
  dassert (Z.land start (sizeof_ptr - 1) =? 0);;;
  let ws := {| workspace := start; workspaceEnd := start + size; objectEnd := start; tableEnd := tableEnd ws; tableValidEnd := start;
               allocStart := allocStart ws; initOnceStart := initOnceStart ws; allocFailed := allocFailed ws;
               workspaceOversizedDuration := workspaceOversizedDuration ws; phase := phase ws; isStatic := isStatic ws |} in
  let* initial := ZSTD_cwksp_initialAllocStart ws in
  let ws := {| workspace := workspace ws; workspaceEnd := workspaceEnd ws; objectEnd := objectEnd ws; tableEnd := tableEnd ws; tableValidEnd := tableValidEnd ws;
               allocStart := allocStart ws; initOnceStart := initial; allocFailed := allocFailed ws;
               workspaceOversizedDuration := workspaceOversizedDuration ws; phase := ZSTD_cwksp_alloc_objects; isStatic := static |} in
  let* ws := ZSTD_cwksp_clear ws in
  let ws := set_workspaceOversizedDuration 0 ws in
  ZSTD_cwksp_assert_internal_consistency ws;;;
  Ok ws.

(** [malloc] is the allocation function, with [NULL] when it fails. *)
Definition ZSTD_cwksp_create (malloc : Z -> Z) ws (size : Z) : res ZSTD_cwksp :=
  let start := malloc size in
  reject_if (start =? NULL) ZSTD_error_memory_allocation;;;
  ZSTD_cwksp_init ws start size ZSTD_cwksp_dynamic_alloc.

(** The workspace left behind, and the pointer handed to [ZSTD_customFree]. *)
Definition ZSTD_cwksp_free ws : ZSTD_cwksp * Z := (zero_cwksp, workspace ws).

(** The new [*dst] and [*src]. *)
Definition ZSTD_cwksp_move (src : ZSTD_cwksp) : ZSTD_cwksp * ZSTD_cwksp := (src, zero_cwksp).

Definition ZSTD_cwksp_reserve_failed ws : bool := allocFailed ws.

Definition ZSTD_cwksp_estimated_space_within_bounds ws (estimatedSpace : Z) : bool :=
  (size_t (estimatedSpace - ZSTD_cwksp_slack_space_required) <=? ZSTD_cwksp_used ws) && (ZSTD_cwksp_used ws <=? estimatedSpace).

Definition ZSTD_cwksp_available_space ws : Z := size_t (allocStart ws - tableEnd ws).

Definition ZSTD_cwksp_check_available ws (additionalNeededSpace : Z) : bool :=
  additionalNeededSpace <=? ZSTD_cwksp_available_space ws.

Definition ZSTD_cwksp_check_too_large ws (additionalNeededSpace : Z) : bool :=
  ZSTD_cwksp_check_available ws (size_t (additionalNeededSpace * ZSTD_WORKSPACETOOLARGE_FACTOR)).

Definition ZSTD_cwksp_check_wasteful ws (additionalNeededSpace : Z) : bool :=
  ZSTD_cwksp_check_too_large ws additionalNeededSpace && (ZSTD_WORKSPACETOOLARGE_MAXDURATION <? workspaceOversizedDuration ws).

Definition ZSTD_cwksp_bump_oversized_duration ws (additionalNeededSpace : Z) : ZSTD_cwksp :=
  if ZSTD_cwksp_check_too_large ws additionalNeededSpace
  then set_workspaceOversizedDuration (s32 (workspaceOversizedDuration ws + 1)) ws
  else set_workspaceOversizedDuration 0 ws.
End Operations.
