(* ===== verification/CwkspArena.v ===== *)
(** * The arena of zstd_cwksp.h

    The functions of [Cwksp] seen as an allocator.  A client gives commands and owns what
    it is given until it clears it; [allowed] is what the header asks of it.  Every state
    reached that way satisfies [arena_ok]. *)
From S2P Require Import Prelude Mem Errors Cwksp.

(** ** Alignment *)

(** Rounding up to a multiple of [k]. *)
Definition up (k x : Z) : Z := (x + (k - 1)) / k * k.

Lemma up_spec k x : 0 < k -> x <= up k x < x + k /\ up k x mod k = 0.
Proof.
  intros Hk. unfold up. pose proof (Z.div_mod (x + (k - 1)) k). pose proof (Z.mod_pos_bound (x + (k - 1)) k Hk). split; [lia|]. apply Z.mod_mul. lia.
Qed.

Lemma up_least k x y : 0 < k -> x <= y -> y mod k = 0 -> up k x <= y.
Proof.
  intros Hk Hy Hm. destruct (up_spec k x Hk) as [H1 H2]. apply Z.mod_divide in Hm as [c ->]; [|lia]. apply Z.mod_divide in H2 as [d Hd]; [|lia]. rewrite Hd in *.
  assert (d < c + 1) by (apply (Z.mul_lt_mono_pos_r k); lia). apply Z.mul_le_mono_nonneg_r; lia.
Qed.

Lemma up_multiple k x : 0 < k -> x mod k = 0 -> up k x = x.
Proof. intros Hk Hx. pose proof (up_spec k x Hk). pose proof (up_least k x x Hk). lia. Qed.

(** Rounding down. *)
Lemma down_greatest k x y : 0 < k -> x <= y -> x mod k = 0 -> x <= y - y mod k.
Proof.
  intros Hk Hxy Hx. apply Z.mod_divide in Hx as [c ->]; [|lia]. pose proof (Z.div_mod y k). pose proof (Z.mod_pos_bound y k Hk).
  assert (c < y / k + 1) by (apply (Z.mul_lt_mono_pos_r k); lia). assert (c * k <= y / k * k) by (apply Z.mul_le_mono_nonneg_r; lia). lia.
Qed.

Lemma down_multiple k y : 0 < k -> (y - y mod k) mod k = 0.
Proof. intros Hk. rewrite Zminus_mod_idemp_r, Z.sub_diag. apply Z.mod_0_l. lia. Qed.

Lemma mod_add_multiple k x y : 0 < k -> x mod k = 0 -> y mod k = 0 -> (x + y) mod k = 0.
Proof. intros Hk Hx Hy. rewrite Z.add_mod, Hx, Hy by lia. apply Z.mod_0_l. lia. Qed.

Lemma mod_sub_multiple k x y : 0 < k -> x mod k = 0 -> y mod k = 0 -> (x - y) mod k = 0.
Proof. intros Hk Hx Hy. rewrite Zminus_mod, Hx, Hy. apply Z.mod_0_l. lia. Qed.

Section Align.
Context `{P : Platform}.

Definition word_size : Z := 2 ^ (8 * sizeof_size_t).

Lemma word_size_big : 2 ^ 32 <= word_size.
Proof. unfold word_size. destruct sizeof_size_t_cases as [-> | ->]; by vm_compute. Qed.

Lemma size_t_in x : 0 <= x < word_size -> size_t x = x.
Proof. apply wrap_small. Qed.

(** Clearing the low bits. *)
Lemma land_lnot_mask x k : 0 <= x < word_size -> 0 <= k < 32 -> Z.land x (size_t (Z.lnot (2 ^ k - 1))) = x - x mod 2 ^ k.
Proof.
  intros Hx Hk. transitivity (Z.ldiff x (Z.ones k)).
  - apply Z.bits_inj'. intros i Hi. rewrite Z.land_spec, Z.ldiff_spec. unfold size_t. rewrite testbit_wrap by (destruct sizeof_size_t_cases; lia).
    rewrite Z.lnot_spec by done. rewrite Z.ones_equiv. destruct (Z.ltb_spec i (8 * sizeof_size_t)) as [?|Hge]; [done|]. by rewrite (testbit_small x _ i Hx Hge).
  - rewrite Z.ldiff_ones_r, Z.shiftl_mul_pow2, Z.shiftr_div_pow2 by lia. pose proof (Z.div_mod x (2 ^ k)). pose proof (pow2_pos k). lia.
Qed.

Lemma land_mask_mod x k : 0 <= k -> Z.land x (2 ^ k - 1) = x mod 2 ^ k.
Proof. apply land_ones_wrap. Qed.

Lemma isPower2_pow k : 0 <= k < 32 -> ZSTD_isPower2 (2 ^ k) = true.
Proof.
  intros Hk. unfold ZSTD_isPower2. assert (2 ^ k < 2 ^ 32) by (apply Z.pow_lt_mono_r; lia). pose proof (pow2_pos k). rewrite size_t_small by lia.
  rewrite land_mask_mod, Z.mod_same by lia. done.
Qed.

Lemma cwksp_align_pow D n k : 0 <= k < 32 -> 0 <= n -> n + 2 ^ k <= word_size -> ZSTD_cwksp_align D n (2 ^ k) = Ok (up (2 ^ k) n).
Proof.
  intros Hk Hn Hw. unfold ZSTD_cwksp_align. assert (2 ^ k < 2 ^ 32) by (apply Z.pow_lt_mono_r; lia). pose proof (pow2_pos k).
  rewrite (size_t_small (2 ^ k - 1)) by lia. unfold dassert. rewrite isPower2_pow by done.
  replace (if 1 <=? D then oassert true else Ok tt) with (Ok tt : res unit) by (by destruct (1 <=? D)). cbn [obind]. f_equal.
  rewrite size_t_in by lia. rewrite land_lnot_mask by lia. unfold up. pose proof (Z.div_mod (n + (2 ^ k - 1)) (2 ^ k)). lia.
Qed.

Lemma sizeof_ptr_pow : exists k, 2 <= k <= 3 /\ sizeof_ptr = 2 ^ k.
Proof. unfold sizeof_ptr. destruct sizeof_size_t_cases as [-> | ->]; [by exists 2|by exists 3]. Qed.

Lemma cwksp_align64 D n : 0 <= n -> n + 64 <= word_size -> ZSTD_cwksp_align D n ZSTD_CWKSP_ALIGNMENT_BYTES = Ok (up 64 n).
Proof. apply (cwksp_align_pow D n 6). lia. Qed.

Lemma cwksp_align_ptr D n : 0 <= n -> n + sizeof_ptr <= word_size -> ZSTD_cwksp_align D n sizeof_ptr = Ok (up sizeof_ptr n).
Proof. destruct sizeof_ptr_pow as (k & Hk & ->). apply cwksp_align_pow. lia. Qed.

Lemma sizeof_ptr_pos : 0 < sizeof_ptr.
Proof. destruct sizeof_ptr_pow as (k & Hk & ->). apply pow2_pos. lia. Qed.

Lemma bytes_to_align_64 D p : 0 <= p -> ZSTD_cwksp_bytes_to_align_ptr D p ZSTD_CWKSP_ALIGNMENT_BYTES = Ok (up 64 p - p).
Proof.
  intros Hp. unfold ZSTD_cwksp_bytes_to_align_ptr, ZSTD_CWKSP_ALIGNMENT_BYTES. rewrite (size_t_small (64 - 1)) by lia.
  change (64 - 1) with (2 ^ 6 - 1). rewrite !land_mask_mod by lia. change (2 ^ 6) with 64. pose proof (Z.mod_pos_bound p 64). rewrite size_t_small by lia.
  assert ((64 - p mod 64) mod 64 = up 64 p - p) as ->.
  { unfold up. rewrite Zminus_mod_idemp_r. symmetry. apply (Z.mod_unique_pos _ _ ((64 - p) / 64 - (64 - p) / 64 - (p + (64 - 1)) / 64 + 1)).
    - pose proof (Z.div_mod (p + (64 - 1)) 64). pose proof (Z.mod_pos_bound (p + (64 - 1)) 64). lia.
    - lia. }
  destruct (up_spec 64 p) as [Hu _]; [lia|]. unfold dassert. change (ZSTD_isPower2 64) with (ZSTD_isPower2 (2 ^ 6)). rewrite isPower2_pow by lia. zdecide. by destruct (1 <=? D).
Qed.

Lemma land63 p : 0 <= p -> p mod 64 = 0 -> (Z.land p (ZSTD_CWKSP_ALIGNMENT_BYTES - 1) =? 0) = true.
Proof. intros Hp Hm. change (ZSTD_CWKSP_ALIGNMENT_BYTES - 1) with (2 ^ 6 - 1). rewrite land_mask_mod by lia. by apply Z.eqb_eq. Qed.
End Align.

(** ** What a client does *)

Inductive kind := Object | Table | InitOnce | Aligned | Buffer.

#[global] Instance kind_eq_dec : EqDecision kind.
Proof. solve_decision. Defined.

Record allocation := { al_kind : kind; al_ptr : Z; al_size : Z; al_align : Z }.

(** A workspace in use: its contents, the allocations the client may still use, and a
    bound on the values the client puts into tables (the next index of its window). *)
Record arena := { ar_ws : ZSTD_cwksp; ar_mem : memory; ar_live : list allocation; ar_bound : Z }.

Inductive command :=
| ReserveObject (bytes : Z)
| ReserveObjectAligned (bytes k : Z)
| ReserveTable (bytes : Z)
| ReserveInitOnce (bytes : Z)
| ReserveAligned64 (bytes : Z)
| ReserveBuffer (bytes : Z)
| MarkTablesDirty
| MarkTablesClean
| CleanTables
| ClearTables
| Clear
| Poke (a b : Z)
| PokeTable (a v : Z)
| SetBound (b : Z).

Section Arena.
Context `{P : Platform} (D : Z).
Implicit Types (ws : ZSTD_cwksp) (m : memory) (A : arena).

(** The four bytes of an integer in memory, and the integer of four bytes. *)
Definition word_byte (v i : Z) : Z := (v / 256 ^ (if MEM_isLittleEndian then i else 3 - i)) mod 256.

Definition word m (a : Z) : option Z :=
  match m a, m (a + 1), m (a + 2), m (a + 3) with
  | Some b0, Some b1, Some b2, Some b3 =>
      Some (if MEM_isLittleEndian then b0 + 256 * (b1 + 256 * (b2 + 256 * b3)) else b3 + 256 * (b2 + 256 * (b1 + 256 * b0)))
  | _, _, _, _ => None
  end.

Definition set_byte m (a b : Z) : memory := fun x => if x =? a then Some b else m x.
Definition set_word m (a v : Z) : memory := fun x => if (a <=? x) && (x <? a + 4) then Some (word_byte v (x - a)) else m x.

(** What is below [e], the rest read as 0. *)
Definition masked m (e : Z) : memory := fun x => if x <? e then m x else Some 0.

(** The integers from [lo] to [e] are initialised and below [b].  The last one may lie on
    both sides of [e], of which only the part below counts. *)
Definition bounded m (lo e b : Z) : Prop :=
  forall a, lo <= a < e -> a mod 4 = 0 -> exists v, word (masked m e) a = Some v /\ v < b.

(** An allocation is recorded unless it failed. *)
Definition got k p n al A ws m : arena :=
  {| ar_ws := ws; ar_mem := m; ar_live := if p =? NULL then ar_live A else {| al_kind := k; al_ptr := p; al_size := n; al_align := al |} :: ar_live A; ar_bound := ar_bound A |}.

Definition keeps (f : kind -> bool) (l : list allocation) : list allocation := List.filter (fun x => f (al_kind x)) l.

Definition run (c : command) A : res arena :=
  let ws := ar_ws A in
  let m := ar_mem A in
  let upd ws m live := Ok {| ar_ws := ws; ar_mem := m; ar_live := live; ar_bound := ar_bound A |} in
  match c with
  | ReserveObject n => let* (p, ws) := ZSTD_cwksp_reserve_object D ws n in Ok (got Object p n sizeof_ptr A ws m)
  | ReserveObjectAligned n k => let* (p, ws) := ZSTD_cwksp_reserve_object_aligned D ws n (2 ^ k) in Ok (got Object p n (2 ^ k) A ws m)
  | ReserveTable n => let* (p, ws) := ZSTD_cwksp_reserve_table D ws n in Ok (got Table p n 64 A ws m)
  | ReserveInitOnce n => let* (p, ws, m) := ZSTD_cwksp_reserve_aligned_init_once D ws m n in Ok (got InitOnce p n 64 A ws m)
  | ReserveAligned64 n => let* (p, ws) := ZSTD_cwksp_reserve_aligned64 D ws n in Ok (got Aligned p n 64 A ws m)
  | ReserveBuffer n => let* (p, ws) := ZSTD_cwksp_reserve_buffer D ws n in Ok (got Buffer p n 1 A ws m)
  | MarkTablesDirty => let* ws := ZSTD_cwksp_mark_tables_dirty D ws in upd ws m (ar_live A)
  | MarkTablesClean => let* ws := ZSTD_cwksp_mark_tables_clean D ws in upd ws m (ar_live A)
  | CleanTables => let* (ws, m) := ZSTD_cwksp_clean_tables D ws m in upd ws m (ar_live A)
  | ClearTables => let* ws := ZSTD_cwksp_clear_tables D ws in upd ws m (keeps (fun k => negb (bool_decide (k = Table))) (ar_live A))
  | Clear => let* ws := ZSTD_cwksp_clear D ws in upd ws m (keeps (fun k => bool_decide (k = Object)) (ar_live A))
  | Poke a b => upd ws (set_byte m a b) (ar_live A)
  | PokeTable a v => upd ws (set_word m a v) (ar_live A)
  | SetBound b => Ok {| ar_ws := ws; ar_mem := m; ar_live := ar_live A; ar_bound := b |}
  end.

(** Where tables start, or will. *)
Definition table_top ws : Z := if bool_decide (phase ws = ZSTD_cwksp_alloc_objects) then up 64 (objectEnd ws) else tableEnd ws.

(** There is room for [n] more bytes of objects, respectively of anything else. *)
Definition object_fits ws n : Prop := objectEnd ws + n <= allocStart ws.
Definition fits ws n : Prop := table_top ws + n <= allocStart ws.

(** The rules for clients: sizes are far from the largest [size_t]; sizes of objects are
    multiples of a pointer, of tables of 64; categories are reserved in order; one writes
    only into one's allocations, and below [tableValidEnd] into a table only values below
    the bound; tables are declared clean when they are; the bound falls only when no table
    is valid.  With assertions compiled in, reservations must also fit. *)
Definition allowed (c : command) A : Prop :=
  let ws := ar_ws A in
  match c with
  | ReserveObject n => 0 <= n < 2 ^ 31 /\ n mod sizeof_ptr = 0 /\ (1 <= D -> object_fits ws n)
  | ReserveObjectAligned n k =>
      let surplus := if sizeof_ptr <? 2 ^ k then 2 ^ k - sizeof_ptr else 0 in
      0 <= n < 2 ^ 30 /\ 0 <= k < 16 /\ (n + surplus) mod sizeof_ptr = 0 /\ (1 <= D -> object_fits ws (n + surplus))
  | ReserveTable n => 0 <= n /\ n mod 64 = 0 /\ (1 <= D -> fits ws n)
  | ReserveInitOnce n => 0 <= n < 2 ^ 31 /\ rank (phase ws) <= 1 /\ (1 <= D -> fits ws (up 64 n))
  | ReserveAligned64 n => 0 <= n <= word_size - 64 /\ rank (phase ws) <= 2 /\ (1 <= D -> fits ws (up 64 n))
  | ReserveBuffer n => 0 <= n /\ (1 <= D -> fits ws n)
  | MarkTablesClean => bounded (ar_mem A) (objectEnd ws) (tableEnd ws) (ar_bound A)
  | Poke a b => is_byte b /\ exists x, In x (ar_live A) /\ al_kind x <> Table /\ al_ptr x <= a < al_ptr x + al_size x
  | PokeTable a v =>
      0 <= v < 2 ^ 32 /\ a mod 4 = 0 /\ (a < tableValidEnd ws -> v < ar_bound A) /\
      exists x, In x (ar_live A) /\ al_kind x = Table /\ al_ptr x <= a < al_ptr x + al_size x
  | SetBound b => 0 < b /\ (ar_bound A <= b \/ tableValidEnd ws <= objectEnd ws)
  | _ => True
  end.

(** ** The invariant *)

(** [ZSTD_cwksp_initialAllocStart] *)
Definition initial ws : Z := workspaceEnd ws - workspaceEnd ws mod 64.

Record cwksp_ok ws : Prop := {
  ok_start : 0 < workspace ws /\ workspace ws mod sizeof_ptr = 0;
  ok_end : workspace ws <= objectEnd ws <= workspaceEnd ws /\ workspaceEnd ws < word_size;
  (** While objects are reserved nothing else is, and the objects may reach beyond [allocStart]. *)
  ok_objects : phase ws = ZSTD_cwksp_alloc_objects ->
    objectEnd ws mod sizeof_ptr = 0 /\ tableEnd ws = objectEnd ws /\ tableValidEnd ws = objectEnd ws /\
    allocStart ws = initial ws /\ initOnceStart ws = initial ws /\ (1 <= D -> objectEnd ws <= initial ws);
  ok_tables : phase ws <> ZSTD_cwksp_alloc_objects ->
    objectEnd ws mod 64 = 0 /\ tableEnd ws mod 64 = 0 /\ objectEnd ws <= tableEnd ws <= allocStart ws /\ objectEnd ws <= tableValidEnd ws <= allocStart ws /\
    allocStart ws <= initial ws /\ objectEnd ws <= initOnceStart ws <= initial ws;
  ok_aligned : rank (phase ws) <= 2 -> allocStart ws mod 64 = 0;
  ok_init_once : rank (phase ws) <= 1 -> initOnceStart ws <= allocStart ws
}.

(** Where an allocation lies. *)
Definition placed ws (x : allocation) : Prop :=
  0 <= al_size x /\ al_ptr x mod al_align x = 0 /\ 0 < al_align x /\
  match al_kind x with
  | Object => workspace ws <= al_ptr x /\ al_ptr x + al_size x <= objectEnd ws
  | Table => al_align x = 64 /\ objectEnd ws <= al_ptr x /\ al_ptr x + al_size x <= tableEnd ws /\ al_size x mod 64 = 0
  | InitOnce => initOnceStart ws <= al_ptr x /\ allocStart ws <= al_ptr x /\ al_ptr x + al_size x <= initial ws
  | Aligned | Buffer => allocStart ws <= al_ptr x /\ al_ptr x + al_size x <= initial ws
  end.

Definition disjoint (x y : allocation) : Prop :=
  al_ptr x + al_size x <= al_ptr y \/ al_ptr y + al_size y <= al_ptr x.

Record arena_ok A : Prop := {
  ar_cwksp : cwksp_ok (ar_ws A);
  ar_placed : Forall (placed (ar_ws A)) (ar_live A);
  ar_disjoint : ForallOrdPairs disjoint (ar_live A);
  ar_objects_only : phase (ar_ws A) = ZSTD_cwksp_alloc_objects -> Forall (fun x => al_kind x = Object) (ar_live A);
  ar_bytes : forall a b, ar_mem A a = Some b -> is_byte b;
  ar_init_once : forall a, initOnceStart (ar_ws A) <= a < initial (ar_ws A) -> exists b, ar_mem A a = Some b;
  ar_bounded : bounded (ar_mem A) (objectEnd (ar_ws A)) (tableValidEnd (ar_ws A)) (ar_bound A);
  ar_positive : 0 < ar_bound A
}.
End Arena.

(** ** The operations keep the invariant *)

Ltac wsimpl :=
  cbn [workspace workspaceEnd objectEnd tableEnd tableValidEnd allocStart initOnceStart allocFailed workspaceOversizedDuration phase isStatic
    set_objectEnd set_tableEnd set_tableValidEnd set_allocStart set_initOnceStart set_allocFailed set_workspaceOversizedDuration set_phase
    ar_ws ar_mem ar_live ar_bound al_kind al_ptr al_size al_align rank] in *.

Section Specs.
Context `{P : Platform} (D : Z).
Implicit Types (ws : ZSTD_cwksp) (m : memory) (A : arena).

Lemma dassert_true b : (1 <= D -> b = true) -> dassert D b = Ok tt.
Proof. unfold dassert. intros Hb. destruct (Z.leb_spec 1 D); [|done]. by rewrite Hb. Qed.

Lemma initial_spec ws : initial ws <= workspaceEnd ws < initial ws + 64 /\ initial ws mod 64 = 0.
Proof. unfold initial. pose proof (Z.mod_pos_bound (workspaceEnd ws) 64). split; [lia|]. apply down_multiple. lia. Qed.

Lemma initialAllocStart_val ws : ZSTD_cwksp_initialAllocStart D ws = Ok (initial ws).
Proof. unfold ZSTD_cwksp_initialAllocStart. rewrite dassert_true; [done|]. intros _. apply (isPower2_pow 6). lia. Qed.

(** Tables can be aligned as soon as the last 64-byte boundary leaves room. *)
Lemma up64_initial ws : up 64 (objectEnd ws) <= workspaceEnd ws -> up 64 (objectEnd ws) <= initial ws.
Proof. intros H. apply down_greatest; [lia|done|]. apply up_spec. lia. Qed.

(** With assertions on, the consistency check always passes. *)
Lemma ok_consistent ws : cwksp_ok D ws -> ZSTD_cwksp_assert_internal_consistency D ws = Ok tt.
Proof.
  intros [Hs He Ho Ht Ha Hi]. unfold ZSTD_cwksp_assert_internal_consistency. destruct (initial_spec ws) as [Hin _]. rewrite initialAllocStart_val. cbn [obind].
  destruct (decide (phase ws = ZSTD_cwksp_alloc_objects)) as [E|E].
  - destruct (Ho E) as (_ & H1 & H2 & H3 & H4 & H5). repeat (rewrite dassert_true; [cbn [obind]|intros HD; specialize (H5 HD); apply Z.leb_le; lia]); done.
  - destruct (Ht E) as (_ & _ & H1 & H2 & H3 & H4). repeat (rewrite dassert_true; [cbn [obind]|intros HD; apply Z.leb_le; lia]); done.
Qed.

(** The workspace after [ZSTD_cwksp_internal_advance_phase]. *)
Definition opened ws : ZSTD_cwksp :=
  if bool_decide (phase ws = ZSTD_cwksp_alloc_objects)
  then set_tableValidEnd (table_top ws) (set_tableEnd (table_top ws) (set_objectEnd (table_top ws) ws)) else ws.

Lemma opened_ok ws ph : cwksp_ok D ws -> 1 <= rank ph -> rank (phase ws) <= rank ph -> table_top ws <= workspaceEnd ws -> cwksp_ok D (set_phase ph (opened ws)).
Proof.
  intros [Hs He Ho Ht Ha Hi] Hr Hle Hfit. unfold opened, table_top in *. destruct (initial_spec ws) as [Hin Hm].
  assert (ph <> ZSTD_cwksp_alloc_objects) as Hph by (intros ->; cbn in Hr; lia).
  destruct (bool_decide_reflect (phase ws = ZSTD_cwksp_alloc_objects)) as [E|E].
  - destruct (Ho E) as (H0 & H1 & H2 & H3 & H4 & H5). destruct (up_spec 64 (objectEnd ws)) as [Hu Hum]; [lia|]. pose proof (up64_initial ws Hfit) as Hui.
    unfold initial in *. constructor; wsimpl; unfold initial; wsimpl; intros; try done; lia.
  - unfold initial in *. constructor; wsimpl; intros; try done; [by apply Ht|apply Ha; lia|apply Hi; lia].
Qed.

Lemma advance_spec ws ph : cwksp_ok D ws -> 1 <= rank ph -> rank (phase ws) <= rank ph ->
  ZSTD_cwksp_internal_advance_phase D ws ph =
  if table_top ws <=? workspaceEnd ws then Ok (None, set_phase ph (opened ws)) else Ok (Some ZSTD_error_memory_allocation, ws).
Proof.
  intros Hok Hr Hle. pose proof (opened_ok ws ph Hok Hr Hle) as Hok'. unfold ZSTD_cwksp_internal_advance_phase.
  rewrite dassert_true by (intros; apply Z.leb_le; lia). cbn [obind].
  pose proof Hok as [Hs He Ho Ht Ha Hi]. destruct (initial_spec ws) as [Hin _]. unfold opened, table_top in *. destruct (bool_decide_reflect (phase ws = ZSTD_cwksp_alloc_objects)) as [E|E].
  - rewrite E in *. change (rank ZSTD_cwksp_alloc_objects) with 0 in *. change (rank ZSTD_cwksp_alloc_aligned_init_once) with 1. zdecide. cbn [andb].
    destruct (Ho eq_refl) as (H0 & H1 & H2 & H3 & H4 & H5). destruct (up_spec 64 (objectEnd ws)) as [Hu _]; [lia|].
    unfold align_tables. rewrite initialAllocStart_val. cbn [obind]. wsimpl. rewrite bytes_to_align_64 by lia. cbn [obind].
    replace (objectEnd ws + (up 64 (objectEnd ws) - objectEnd ws)) with (up 64 (objectEnd ws)) by lia. rewrite Z.ltb_antisym.
    change (initial (set_tableValidEnd (objectEnd ws) ws)) with (initial ws).
    destruct (Z.leb_spec (up 64 (objectEnd ws)) (workspaceEnd ws)) as [Hf|Hf]; cbn [negb].
    + match goal with |- context [if ?b then set_tableValidEnd ?x ?w else ?w] =>
        replace (if b then set_tableValidEnd x w else w) with (set_tableValidEnd (up 64 (objectEnd ws)) (set_tableEnd (up 64 (objectEnd ws)) (set_objectEnd (up 64 (objectEnd ws)) ws)))
      end.
      { cbn [obind]. by rewrite (ok_consistent _ (Hok' Hf)). }
      wsimpl. unfold set_tableValidEnd, set_tableEnd, set_objectEnd, set_initOnceStart. wsimpl. rewrite <- H4. zcases; [done|]. f_equal. lia.
    + rewrite <- H4, <- H2. by destruct ws.
  - assert (tableEnd ws <= workspaceEnd ws) as Hle' by (destruct (Ht E) as (_ & _ & ? & _ & ? & _); lia). specialize (Hok' Hle'). rewrite (proj2 (Z.leb_le _ _) Hle').
    destruct (Z.ltb_spec (rank (phase ws)) (rank ph)) as [Hlt|Hge].
    + change (rank ZSTD_cwksp_alloc_aligned_init_once) with 1. assert (1 <= rank (phase ws)) by (destruct (phase ws); [done|by vm_compute..]).
      zdecide. cbn [andb obind]. by rewrite (ok_consistent _ Hok').
    + assert (ph = phase ws) as -> by (destruct ph, (phase ws); cbn in *; done || lia). by destruct ws.
Qed.

(** *** Contents *)

Definition byte_mem m : Prop := forall a b, m a = Some b -> is_byte b.

Lemma masked_byte m e : byte_mem m -> byte_mem (masked m e).
Proof. intros Hm a b. unfold masked. zcases; [apply Hm|]. intros [= <-]. by split. Qed.

(** A word whose bytes do not grow does not grow. *)
Lemma word_le m m' a v : byte_mem m -> word m a = Some v ->
  (forall i, 0 <= i < 4 -> m' (a + i) = m (a + i) \/ m' (a + i) = Some 0) -> exists v', word m' a = Some v' /\ v' <= v.
Proof.
  intros Hb Hw Hi. unfold word in *. pose proof (Hi 0) as H0. rewrite Z.add_0_r in H0. pose proof (Hi 1) as H1. pose proof (Hi 2) as H2. pose proof (Hi 3) as H3. clear Hi.
  destruct (m a) as [b0|] eqn:E0, (m (a + 1)) as [b1|] eqn:E1, (m (a + 2)) as [b2|] eqn:E2, (m (a + 3)) as [b3|] eqn:E3; try done.
  apply Hb in E0, E1, E2, E3. unfold is_byte in *. injection Hw as <-.
  destruct (H0 ltac:(lia)) as [-> | ->], (H1 ltac:(lia)) as [-> | ->], (H2 ltac:(lia)) as [-> | ->], (H3 ltac:(lia)) as [-> | ->];
    eexists; (split; [reflexivity|]); destruct MEM_isLittleEndian; lia.
Qed.

Lemma bounded_lower m m' lo e e' b b' : byte_mem m -> bounded m lo e b -> e' <= e -> b <= b' -> (forall x, lo <= x < e' -> m' x = m x) -> bounded m' lo e' b'.
Proof.
  intros Hm Hb He Hbb Hx a Ha Ha4. destruct (Hb a ltac:(lia) Ha4) as (v & Hv & Hlt). destruct (word_le (masked m e) (masked m' e') a v) as (v' & Hv' & Hle).
  - by apply masked_byte.
  - done.
  - intros i Hi. unfold masked. destruct (Z.ltb_spec (a + i) e'); [|by right]. left. rewrite (proj2 (Z.ltb_lt _ _)) by lia. apply Hx. lia.
  - exists v'. split; [done|lia].
Qed.

Lemma bounded_empty m lo e b : e <= lo -> bounded m lo e b.
Proof. intros He a Ha. lia. Qed.

(** Zeroing from [e] on. *)
Lemma bounded_zeroed m m' lo e e' b : 0 < b -> bounded m lo e b -> e <= e' -> (forall x, x < e -> m' x = m x) -> (forall x, e <= x < e' -> m' x = Some 0) -> bounded m' lo e' b.
Proof.
  intros Hb Hbd He Hlow Hz a Ha Ha4. assert (forall x, masked m' e' x = masked m e x) as Hm.
  { intros x. unfold masked. destruct (Z.ltb_spec x e'), (Z.ltb_spec x e); try lia; [by apply Hlow|by apply Hz|done]. }
  unfold word. rewrite !Hm. destruct (Z.lt_ge_cases a e) as [Hlt|Hge]; [apply (Hbd a); [lia|done]|].
  unfold masked. rewrite !(proj2 (Z.ltb_ge _ _)) by lia. eexists. split; [reflexivity|]. by destruct MEM_isLittleEndian.
Qed.

Lemma word_byte_range v i : is_byte (word_byte v i).
Proof. apply Z.mod_pos_bound. lia. Qed.

Lemma word_of_bytes v : 0 <= v < 2 ^ 32 ->
  (if MEM_isLittleEndian then word_byte v 0 + 256 * (word_byte v 1 + 256 * (word_byte v 2 + 256 * word_byte v 3))
   else word_byte v 3 + 256 * (word_byte v 2 + 256 * (word_byte v 1 + 256 * word_byte v 0))) = v.
Proof.
  intros Hv. change (2 ^ 32) with 4294967296 in Hv. unfold word_byte. assert (v / 256 ^ 1 = v / 256) as E1 by done. assert (v / 256 ^ 0 = v) as E0 by apply Z.div_1_r.
  assert (v / 256 ^ 2 = v / 256 / 256) as E2 by (by rewrite Z.div_div). assert (v / 256 ^ 3 = v / 256 / 256 / 256) as E3 by (by rewrite !Z.div_div).
  destruct MEM_isLittleEndian; [|change (3 - 0) with 3; change (3 - 1) with 2; change (3 - 2) with 1; change (3 - 3) with 0]; rewrite E0, E1, E2, E3; clear E0 E1 E2 E3;
    pose proof (Z.div_mod v 256); pose proof (Z.div_mod (v / 256) 256); pose proof (Z.div_mod (v / 256 / 256) 256);
    rewrite (Z.mod_small (v / 256 / 256 / 256)) by (rewrite !Z.div_div by lia; split; [apply Z.div_pos|apply Z.div_lt_upper_bound]; lia); lia.
Qed.

(** A store into a table. *)
Lemma bounded_set_word m lo e b a v : byte_mem m -> bounded m lo e b -> a mod 4 = 0 -> 0 <= v < 2 ^ 32 -> (a < e -> v < b) -> bounded (set_word m a v) lo e b.
Proof.
  intros Hm Hb Ha Hv Hlt x Hx Hx4. destruct (Z.eq_dec x a) as [-> | Hne].
  - destruct (word_le (set_word m a v) (masked (set_word m a v) e) a v) as (v' & Hv' & Hle).
    + intros y z. unfold set_word. destruct (_ && _); [intros [= <-]; apply word_byte_range|apply Hm].
    + unfold word, set_word. zdecide. cbn [andb]. rewrite !Z.add_simpl_l, Z.sub_diag. f_equal. by apply word_of_bytes.
    + intros i Hi. unfold masked. destruct (_ <? _); auto.
    + exists v'. split; [done|]. specialize (Hlt ltac:(lia)). lia.
  - destruct (Hb x Hx Hx4) as (w & Hw & Hwb). exists w. split; [|done]. rewrite <- Hw.
    assert (forall i, 0 <= i < 4 -> masked (set_word m a v) e (x + i) = masked m e (x + i)) as He.
    { intros i Hi. unfold masked, set_word. destruct (_ <? e); [|done]. destruct (Z.leb_spec a (x + i)), (Z.ltb_spec (x + i) (a + 4)); try done. exfalso. clear -Ha Hx4 Hne Hi H H0.
      Z.div_mod_to_equations. lia. }
    pose proof (He 0) as H0. rewrite Z.add_0_r in H0. unfold word. rewrite H0, !He by lia. done.
Qed.
End Specs.

(** *** Allocations *)

Section Preserve.
Context `{P : Platform} (D : Z).
Implicit Types (ws : ZSTD_cwksp) (m : memory) (A : arena).

Definition with_ws ws A : arena := {| ar_ws := ws; ar_mem := ar_mem A; ar_live := ar_live A; ar_bound := ar_bound A |}.

Lemma arena_facts A : arena_ok D A -> let ws := ar_ws A in
  0 < workspace ws <= objectEnd ws /\ objectEnd ws <= workspaceEnd ws < word_size /\ initial ws <= workspaceEnd ws < initial ws + 64.
Proof.
  intros HA ws. destruct (initial_spec ws) as [Hi _]. destruct (ok_start _ _ (ar_cwksp _ _ HA)) as [Hs _]. pose proof (ok_end _ _ (ar_cwksp _ _ HA)) as He.
  fold ws in Hs, He. lia.
Qed.

(** Advancing the phase moves no allocation. *)
Lemma opened_arena A ph : arena_ok D A -> 1 <= rank ph -> rank (phase (ar_ws A)) <= rank ph -> table_top (ar_ws A) <= workspaceEnd (ar_ws A) ->
  arena_ok D (with_ws (set_phase ph (opened (ar_ws A))) A).
Proof.
  intros HA Hr Hle Hfit. pose proof (opened_ok D _ ph (ar_cwksp _ _ HA) Hr Hle Hfit) as Hok. destruct HA as [Hc Hp Hd Ho Hb Hi Ht Hpos].
  assert (ph <> ZSTD_cwksp_alloc_objects) as Hph by (intros ->; cbn in Hr; lia).
  unfold with_ws, opened, table_top in *. destruct (bool_decide_reflect (phase (ar_ws A) = ZSTD_cwksp_alloc_objects)) as [E|E]; [|constructor; wsimpl; try done].
  destruct (ok_objects _ _ Hc E) as (_ & H1 & H2 & H3 & H4 & _). destruct (up_spec 64 (objectEnd (ar_ws A))) as [Hu _]; [lia|].
  constructor; wsimpl; try done.
  - specialize (Ho E). rewrite Forall_forall in *. intros x Hx. specialize (Hp x Hx). specialize (Ho x Hx). unfold placed in *. rewrite Ho in *. wsimpl. intuition lia.
  - by apply bounded_empty.
Qed.

(** Room taken from the end for buffers.  [io] is the new start of the init-once area. *)
Definition took ws n io : ZSTD_cwksp :=
  set_initOnceStart io (set_allocStart (allocStart ws - n) (set_tableValidEnd (Z.min (tableValidEnd ws) (allocStart ws - n)) ws)).

Lemma took_arena A k n size al io m' : arena_ok D A -> let ws := ar_ws A in let p := allocStart ws - n in
  phase ws <> ZSTD_cwksp_alloc_objects -> k <> Object -> k <> Table -> 0 <= size <= n -> tableEnd ws <= p -> 0 < al -> p mod al = 0 ->
  (rank (phase ws) <= 2 -> n mod 64 = 0) -> objectEnd ws <= io <= initOnceStart ws -> (rank (phase ws) <= 1 \/ k = InitOnce -> io <= p) ->
  (forall a, a < p -> m' a = ar_mem A a) -> byte_mem m' -> (forall a, io <= a < initial ws -> exists b, m' a = Some b) ->
  arena_ok D (got k p size al A (took ws n io) m').
Proof.
  intros HA ws p Hph Hk1 Hk2 Hsz Hp Hal Hpal Hn Hio Hiop Hlow Hbm Hinit. destruct HA as [Hc Hpl Hd Ho Hb Hi Ht Hpos]. fold ws in Hc, Hpl, Ho, Hi, Ht.
  destruct Hc as [C1 C2 C3 C4 C5 C6]. destruct (C4 Hph) as (C41 & C42 & C43 & C44 & C45 & C46). unfold got. assert (p =? NULL = false) as -> by (apply Z.eqb_neq; unfold NULL; lia).
  constructor; wsimpl; fold ws p.
  - constructor; unfold took, initial in *; wsimpl; fold p; try done.
    + intros _. split; [done|]. split; [done|]. lia.
    + intros Hr. apply mod_sub_multiple; [lia| |]; auto.
    + intros Hr. apply Hiop. by left.
  - constructor.
    + unfold placed, took, initial in *. wsimpl. fold p. split; [lia|]. split; [done|]. split; [done|]. destruct k; try done; (split; [|lia]); try lia. apply Hiop. by right.
    + eapply Forall_impl; [exact Hpl|]. intros x. unfold placed, took, initial in *. wsimpl. fold p. destruct (al_kind x); intuition lia.
  - constructor; [|done]. eapply Forall_impl; [exact Hpl|]. intros x (X1 & X2 & X3 & X4). unfold disjoint. cbn [al_ptr al_size]. destruct (al_kind x); [right|right|left..]; subst p; lia.
  - intros Hx. by destruct Hph.
  - done.
  - unfold initial in *. done.
  - unfold took. wsimpl. fold p. eapply bounded_lower; [exact Hb|exact Ht|lia|lia|]. intros x Hx. apply Hlow. lia.
  - done.
Qed.

(** Room taken for tables. *)
Lemma table_arena A n : arena_ok D A -> let ws := ar_ws A in
  phase ws <> ZSTD_cwksp_alloc_objects -> 0 <= n -> n mod 64 = 0 -> tableEnd ws + n <= allocStart ws ->
  arena_ok D (got Table (tableEnd ws) n 64 A (set_tableEnd (tableEnd ws + n) ws) (ar_mem A)).
Proof.
  intros HA ws Hph Hn Hn64 Hfit. destruct HA as [Hc Hpl Hd Ho Hb Hi Ht Hpos]. fold ws in Hc, Hpl, Ho, Hi, Ht.
  destruct Hc as [C1 C2 C3 C4 C5 C6]. destruct (C4 Hph) as (C41 & C42 & C43 & C44 & C45 & C46). unfold got. assert (tableEnd ws =? NULL = false) as -> by (apply Z.eqb_neq; unfold NULL; lia).
  constructor; wsimpl; fold ws; try done.
  - constructor; unfold initial in *; wsimpl; try done. intros _. split; [done|]. split; [apply mod_add_multiple; [lia|done..]|]. lia.
  - constructor; [|eapply Forall_impl; [exact Hpl|]; intros x; unfold placed, initial in *; wsimpl; destruct (al_kind x); intuition lia].
    unfold placed, initial in *. wsimpl. repeat split; try done; lia.
  - constructor; [|done]. eapply Forall_impl; [exact Hpl|]. intros x (X1 & X2 & X3 & X4). unfold disjoint. cbn [al_ptr al_size]. destruct (al_kind x); [right|right|left..]; lia.
Qed.

(** Room taken for objects: [n] bytes from [objectEnd], of which the client gets [size] bytes from [p]. *)
Lemma object_arena A n p size al : arena_ok D A -> let ws := ar_ws A in
  phase ws = ZSTD_cwksp_alloc_objects -> 0 <= n -> n mod sizeof_ptr = 0 -> objectEnd ws + n <= workspaceEnd ws -> (1 <= D -> object_fits ws n) ->
  objectEnd ws <= p -> 0 <= size -> p + size <= objectEnd ws + n -> 0 < al -> p mod al = 0 ->
  let e := objectEnd ws + n in
  arena_ok D (got Object p size al A (set_tableValidEnd e (set_tableEnd e (set_objectEnd e ws))) (ar_mem A)).
Proof.
  intros HA ws Hph Hn Hnp Hfit Hdeb Hp Hs Hps Hal Hpal e. destruct HA as [Hc Hpl Hd Ho Hb Hi Ht Hpos]. fold ws in Hc, Hpl, Ho, Hi, Ht.
  destruct Hc as [C1 C2 C3 C4 C5 C6]. destruct (C3 Hph) as (C31 & C32 & C33 & C34 & C35 & C36). unfold got. assert (p =? NULL = false) as -> by (apply Z.eqb_neq; unfold NULL; lia).
  specialize (Ho Hph). unfold object_fits in Hdeb. constructor; wsimpl; fold ws; try done.
  - constructor; unfold initial in *; wsimpl; try done; [lia|]. intros _. split; [apply mod_add_multiple; [apply sizeof_ptr_pos|done..]|]. subst e. split_and!; try done. lia.
  - constructor; [unfold placed; wsimpl; split_and!; try done; lia|]. rewrite Forall_forall in *. intros x Hx. specialize (Hpl x Hx). specialize (Ho x Hx).
    unfold placed in *. rewrite Ho in *. wsimpl. intuition lia.
  - constructor; [|done]. rewrite Forall_forall in *. intros x Hx. specialize (Hpl x Hx) as (X1 & X2 & X3 & X4). rewrite (Ho x Hx) in X4. unfold disjoint. wsimpl. right. lia.
  - intros _. by constructor.
  - by apply bounded_empty.
Qed.

Lemma failed_arena A : arena_ok D A -> arena_ok D (with_ws (set_allocFailed true (ar_ws A)) A).
Proof. intros [[] Hpl Hd Ho Hb Hi Ht Hpos]. by constructor. Qed.

Lemma got_null k n al A ws m : got k NULL n al A ws m = {| ar_ws := ws; ar_mem := m; ar_live := ar_live A; ar_bound := ar_bound A |}.
Proof. done. Qed.

Lemma set_phase_same ws : set_phase (phase ws) ws = ws.
Proof. by destruct ws. Qed.

Lemma opened_fields ws ph : let w := set_phase ph (opened ws) in
  tableEnd w = table_top ws /\ allocStart w = allocStart ws /\ initOnceStart w = initOnceStart ws /\ workspaceEnd w = workspaceEnd ws /\ workspace w = workspace ws /\ phase w = ph.
Proof. intros w. subst w. unfold opened, table_top. by destruct (bool_decide _). Qed.

(** Reserving from the end, on every path. *)
Lemma reserve_internal_spec A n ph : arena_ok D A -> let ws := ar_ws A in let w := set_phase ph (opened ws) in
  1 <= rank ph -> rank (phase ws) <= rank ph -> 0 <= n -> (1 <= D -> fits ws n) ->
  ZSTD_cwksp_reserve_internal D ws n ph =
  if workspaceEnd ws <? table_top ws then Ok (NULL, ws) else if n =? 0 then Ok (NULL, w)
  else if allocStart ws - n <? table_top ws then Ok (NULL, set_allocFailed true w) else Ok (allocStart ws - n, took w n (initOnceStart ws)).
Proof.
  intros HA ws w Hr Hle Hn Hfit. unfold ZSTD_cwksp_reserve_internal. rewrite (advance_spec D ws ph (ar_cwksp _ _ HA) Hr Hle). rewrite Z.ltb_antisym.
  destruct (Z.leb_spec (table_top ws) (workspaceEnd ws)) as [Ht|Ht]; cbn [negb obind orb]; [|done]. destruct (Z.eqb_spec n 0) as [->|Hn0]; [done|]. fold w.
  destruct (opened_fields ws ph) as (W1 & W2 & W3 & W4 & W5 & W6). fold w in W1, W2, W3, W4, W5, W6.
  pose proof (opened_ok D ws ph (ar_cwksp _ _ HA) Hr Hle Ht) as Hok. fold w in Hok. unfold ZSTD_cwksp_reserve_internal_buffer_space. rewrite (ok_consistent D w Hok). cbn [obind].
  rewrite W1, W2. rewrite dassert_true by (intros HD; specialize (Hfit HD); unfold fits in Hfit; apply Z.leb_le; lia). cbn [obind].
  destruct (Z.ltb_spec (allocStart ws - n) (table_top ws)); [done|]. f_equal. f_equal. unfold took. rewrite W2. clearbody w.
  destruct (Z.ltb_spec (allocStart ws - n) (tableValidEnd w)); [rewrite Z.min_r by lia|rewrite Z.min_l by lia]; rewrite <- W3; by destruct w.
Qed.

Lemma reserve_table_spec A n : arena_ok D A -> let ws := ar_ws A in
  let ph := if bool_decide (phase ws = ZSTD_cwksp_alloc_objects) then ZSTD_cwksp_alloc_aligned_init_once else phase ws in let w := set_phase ph (opened ws) in
  0 <= n -> n mod 64 = 0 -> (1 <= D -> fits ws n) ->
  ZSTD_cwksp_reserve_table D ws n =
  if workspaceEnd ws <? table_top ws then Ok (NULL, ws)
  else if allocStart ws <? table_top ws + n then Ok (NULL, set_allocFailed true w) else Ok (table_top ws, set_tableEnd (table_top ws + n) w).
Proof.
  intros HA ws ph w Hn Hn64 Hfit. pose proof (ar_cwksp _ _ HA) as Hc. fold ws in Hc.
  assert (1 <= rank ph /\ rank (phase ws) <= rank ph) as [Hr Hle] by (subst ph; destruct (phase ws); case_bool_decide; by vm_compute || done).
  unfold ZSTD_cwksp_reserve_table.
  assert ((if rank (phase ws) <? rank ZSTD_cwksp_alloc_aligned_init_once then ZSTD_cwksp_internal_advance_phase D ws ZSTD_cwksp_alloc_aligned_init_once else Ok (None, ws)) =
    if workspaceEnd ws <? table_top ws then Ok (Some ZSTD_error_memory_allocation, ws) else Ok (None, w)) as ->.
  { rewrite (Z.ltb_antisym (table_top ws)). subst w ph. case_bool_decide as E.
    - rewrite E in *. cbn [rank]. change (0 <? 1) with true. cbv iota. rewrite (advance_spec D ws) by (done || (rewrite E; done)). by destruct (_ <=? _).
    - assert (1 <= rank (phase ws)) by (destruct (phase ws); by vm_compute || done). cbn [rank]. zdecide.
      assert (table_top ws = tableEnd ws) as Htt by (unfold table_top; by rewrite bool_decide_eq_false_2). destruct (ok_tables _ _ Hc E) as (_ & _ & ? & _ & ? & _).
      pose proof (initial_spec ws). rewrite Htt. zdecide. cbn [negb]. unfold opened. rewrite bool_decide_eq_false_2 by done. by rewrite set_phase_same. }
  destruct (Z.ltb_spec (workspaceEnd ws) (table_top ws)) as [Ht|Ht]; cbn [obind]; [done|].
  destruct (opened_fields ws ph) as (W1 & W2 & W3 & W4 & W5 & W6). fold w in W1, W2, W3, W4, W5, W6. pose proof (opened_ok D ws ph Hc Hr Hle Ht) as Hok. fold w in Hok.
  assert (0 <= table_top ws) by (destruct (arena_facts A HA) as (? & _ & _); pose proof (ok_tables _ _ Hok) as Htb; rewrite W1 in Htb; destruct (ok_start _ _ Hok), (ok_end _ _ Hok);
    destruct Htb as (_ & _ & ? & _); [rewrite W6; intros E; rewrite E in Hr; by cbn in Hr|]; lia).
  rewrite dassert_true; cbn [obind].
  2:{ intros _. change (4 - 1) with (2 ^ 2 - 1). rewrite land_mask_mod by lia. apply Z.eqb_eq. change (2 ^ 2) with 4. clear -Hn64. Z.div_mod_to_equations. lia. }
  rewrite (ok_consistent D w Hok). cbn [obind]. rewrite W1, W2. rewrite dassert_true by (intros HD; specialize (Hfit HD); unfold fits in Hfit; apply Z.leb_le; lia). cbn [obind].
  destruct (Z.ltb_spec (allocStart ws) (table_top ws + n)); [done|]. rewrite !dassert_true; [done| |]; intros _; apply land63; try done.
  rewrite <- W1. apply (ok_tables _ _ Hok). rewrite W6. intros E. rewrite E in Hr. by cbn in Hr.
Qed.

Lemma reserve_object_spec A n : arena_ok D A -> let ws := ar_ws A in 0 <= n < 2 ^ 31 -> n mod sizeof_ptr = 0 ->
  ZSTD_cwksp_reserve_object D ws n =
  let e := objectEnd ws + n in
  if bool_decide (phase ws = ZSTD_cwksp_alloc_objects) && (e <=? workspaceEnd ws)
  then Ok (objectEnd ws, set_tableValidEnd e (set_tableEnd e (set_objectEnd e ws))) else Ok (NULL, set_allocFailed true ws).
Proof.
  intros HA ws Hn Hnp. cbv zeta. set (e := objectEnd ws + n). unfold ZSTD_cwksp_reserve_object. pose proof (ar_cwksp _ _ HA) as Hc. fold ws in Hc. pose proof sizeof_ptr_pos as Hpp. destruct sizeof_ptr_pow as (k & Hk & Hpk).
  assert (sizeof_ptr <= 8) by (unfold sizeof_ptr; destruct sizeof_size_t_cases; lia).
  pose proof word_size_big. rewrite cwksp_align_ptr by lia. cbn [obind]. rewrite (up_multiple _ _ Hpp Hnp). fold e.
  rewrite !dassert_true.
  - cbn [obind]. rewrite (ok_consistent D ws Hc). cbn [obind]. rewrite Z.ltb_antisym. case_bool_decide; [|done]. cbn [negb orb andb]. by destruct (e <=? workspaceEnd ws).
  - intros _. by apply Z.eqb_eq.
  - intros _. apply Z.eqb_eq. destruct (decide (phase ws = ZSTD_cwksp_alloc_objects)) as [E|E].
    + by destruct (ok_objects _ _ Hc E).
    + destruct (ok_tables _ _ Hc E) as (H64 & _). apply Z.mod_divide in H64 as [c Hc']; [|lia]. apply Z.mod_divide; [lia|]. exists (c * 2 ^ (6 - k)).
      rewrite Hc', Hpk, <- Z.mul_assoc, <- Z.pow_add_r by lia. replace (6 - k + k) with 6 by lia. done.
Qed.

Lemma opened_objectEnd ws ph : cwksp_ok D ws -> cwksp_ok D (set_phase ph (opened ws)) -> 1 <= rank ph -> objectEnd (set_phase ph (opened ws)) <= initOnceStart ws.
Proof.
  intros H1 H2 Hr. destruct (opened_fields ws ph) as (W1 & W2 & W3 & W4 & W5 & W6). destruct (ok_tables _ _ H2) as (_ & _ & _ & _ & _ & Hi).
  - rewrite W6. intros ->. by cbn in Hr.
  - rewrite W3 in Hi. lia.
Qed.

(** Buffers and aligned buffers: the client asks for [n] of the [n'] bytes. *)
Lemma reserve_end_arena A n n' k al ph : arena_ok D A -> let ws := ar_ws A in
  2 <= rank ph -> rank (phase ws) <= rank ph -> k <> Object -> k <> Table -> k <> InitOnce -> 0 <= n <= n' -> (rank ph <= 2 -> n' mod 64 = 0 /\ al = 64) -> (2 < rank ph -> al = 1) -> (1 <= D -> fits ws n') ->
  exists p ws', ZSTD_cwksp_reserve_internal D ws n' ph = Ok (p, ws') /\ arena_ok D (got k p n al A ws' (ar_mem A)) /\
    (0 < n' -> fits ws n' -> p = allocStart ws - n') /\ (rank ph <= 2 -> 0 <= p /\ p mod 64 = 0).
Proof.
  intros HA ws Hr Hle K1 K2 K3 Hn Hph2 Hph3 Hfit. pose proof (reserve_internal_spec A n' ph HA) as Hsp. cbv zeta in Hsp. fold ws in Hsp. rewrite Hsp by (done || lia). clear Hsp. destruct (opened_fields ws ph) as (W1 & W2 & W3 & W4 & W5 & W6).
  destruct (arena_facts A HA) as (F1 & F2 & F3). fold ws in F1, F2, F3. unfold fits. pose proof (ar_cwksp _ _ HA) as Hc. fold ws in Hc.
  destruct (Z.ltb_spec (workspaceEnd ws) (table_top ws)) as [Ht|Ht].
  { eexists _, _. split; [done|]. rewrite got_null. split; [by destruct A|]. split; [|done]. intros _ Hf.
    destruct (decide (phase ws = ZSTD_cwksp_alloc_objects)) as [E|E]; [destruct (ok_objects _ _ Hc E) as (_ & _ & _ & ? & _)|destruct (ok_tables _ _ Hc E) as (_ & _ & _ & _ & ? & _)]; lia. }
  pose proof (opened_arena A ph HA ltac:(lia) Hle Ht) as HA'. fold ws in HA'.
  destruct (Z.eqb_spec n' 0) as [->|Hn0]; [eexists _, _; split; [done|]; rewrite got_null; split; [done|]; split; [lia|done]|].
  destruct (Z.ltb_spec (allocStart ws - n') (table_top ws)) as [Hlt|Hge].
  { eexists _, _. split; [done|]. rewrite got_null. split; [exact (failed_arena _ HA')|]. split; [lia|done]. }
  assert (ph <> ZSTD_cwksp_alloc_objects) as Hpo by (intros ->; by cbn in Hr).
  assert (rank ph <= 2 -> (allocStart ws - n') mod 64 = 0) as Hal.
  { intros H2. destruct (Hph2 H2) as [Hm _]. apply mod_sub_multiple; [lia| |done]. apply (ok_aligned _ _ Hc). lia. }
  assert (0 < table_top ws) as Hpos. { pose proof (ok_tables _ _ (ar_cwksp _ _ HA')) as Htb. cbn [with_ws ar_ws] in Htb. rewrite W6 in Htb. destruct (Htb Hpo) as (_ & _ & Hx & _).
    pose proof (ok_end _ _ (ar_cwksp _ _ HA')) as Hy. cbn [with_ws ar_ws] in Hy. lia. }
  eexists _, _. split; [done|]. split; [|split; [done|]; intros H2; split; [lia|by apply Hal]].
  pose proof (took_arena (with_ws (set_phase ph (opened ws)) A) k n' n al (initOnceStart ws) (ar_mem A) HA') as Htk.
  cbn [with_ws ar_ws ar_mem] in Htk. rewrite W1, W2, W3, W6 in Htk. unfold got in *. cbn [ar_live ar_bound with_ws] in Htk. apply Htk; try done.
  - destruct (Z.le_gt_cases (rank ph) 2) as [H2|H2]; [destruct (Hph2 H2) as [_ ->]|rewrite (Hph3 H2)]; lia.
  - destruct (Z.le_gt_cases (rank ph) 2) as [H2|H2]; [destruct (Hph2 H2) as [_ ->]; by apply Hal|rewrite (Hph3 H2); apply Z.mod_1_r].
  - intros H2. by apply Hph2.
  - split; [|lia]. apply opened_objectEnd; [done| |lia]. exact (ar_cwksp _ _ HA').
  - intros [?|?]; [lia|done].
  - exact (ar_bytes _ _ HA).
  - unfold initial. rewrite W4. exact (ar_init_once _ _ HA).
Qed.

(** Init-once buffers: the bytes that were not initialised before are cleared. *)
Lemma reserve_init_once_arena A n : arena_ok D A -> let ws := ar_ws A in
  0 <= n < 2 ^ 31 -> rank (phase ws) <= 1 -> (1 <= D -> fits ws (up 64 n)) ->
  exists p ws' m', ZSTD_cwksp_reserve_aligned_init_once D ws (ar_mem A) n = Ok (p, ws', m') /\ arena_ok D (got InitOnce p n 64 A ws' m') /\
    (0 < n -> fits ws (up 64 n) -> p = allocStart ws - up 64 n).
Proof.
  intros HA ws Hn Hph Hfit. unfold ZSTD_cwksp_reserve_aligned_init_once. pose proof word_size_big. rewrite cwksp_align64 by lia. cbn [obind].
  destruct (up_spec 64 n) as [Hu Hum]; [lia|]. set (n' := up 64 n) in *. set (ph := ZSTD_cwksp_alloc_aligned_init_once).
  pose proof (reserve_internal_spec A n' ph HA) as Hsp. cbv zeta in Hsp. fold ws in Hsp. rewrite Hsp by (done || lia). clear Hsp. destruct (opened_fields ws ph) as (W1 & W2 & W3 & W4 & W5 & W6).
  destruct (arena_facts A HA) as (F1 & F2 & F3). fold ws in F1, F2, F3. unfold fits. pose proof (ar_cwksp _ _ HA) as Hc. fold ws in Hc.
  destruct (Z.ltb_spec (workspaceEnd ws) (table_top ws)) as [Ht|Ht].
  { cbn [obind]. rewrite dassert_true by done. cbn [obind]. eexists _, _, _. split; [done|]. rewrite got_null. split; [by destruct A|]. intros _ Hf.
    destruct (decide (phase ws = ZSTD_cwksp_alloc_objects)) as [E|E]; [destruct (ok_objects _ _ Hc E) as (_ & _ & _ & ? & _)|destruct (ok_tables _ _ Hc E) as (_ & _ & _ & _ & ? & _)]; lia. }
  pose proof (opened_arena A ph HA ltac:(done) Hph Ht) as HA'. fold ws in HA'.
  destruct (Z.eqb_spec n' 0) as [E0|Hn0]. { cbn [obind]. rewrite dassert_true by done. cbn [obind]. eexists _, _, _. split; [done|]. rewrite got_null. split; [done|]. lia. }
  destruct (Z.ltb_spec (allocStart ws - n') (table_top ws)) as [Hlt|Hge].
  { cbn [obind]. rewrite dassert_true by done. cbn [obind]. eexists _, _, _. split; [done|]. rewrite got_null. split; [exact (failed_arena _ HA')|]. lia. }
  assert (ph <> ZSTD_cwksp_alloc_objects) as Hpo by done. set (p := allocStart ws - n') in *. set (w := set_phase ph (opened ws)) in *.
  assert (p mod 64 = 0) as Hal by (apply mod_sub_multiple; [lia| |done]; apply (ok_aligned _ _ Hc); lia).
  pose proof (ok_tables _ _ (ar_cwksp _ _ HA')) as Htb. cbn [with_ws ar_ws] in Htb. rewrite W1, W2, W3, W6 in Htb. destruct (Htb Hpo) as (_ & _ & Hx & Hx2 & Hx3 & Hx4).
  pose proof (ok_end _ _ (ar_cwksp _ _ HA')) as Hy. cbn [with_ws ar_ws] in Hy. rewrite W4, W5 in Hy. pose proof (ok_init_once _ _ Hc ltac:(lia)) as Hio.
  assert (0 < p) as Hpos by lia. cbn [obind]. rewrite dassert_true by (intros _; apply land63; [lia|done]). cbn [obind].
  replace (p =? NULL) with false by (symmetry; apply Z.eqb_neq; unfold NULL; lia). cbn [negb andb].
  pose proof (took_arena (with_ws w A) InitOnce n' n 64) as Htk. cbn [with_ws ar_ws ar_mem] in Htk. rewrite W1, W2, W3, W6 in Htk. fold p in Htk.
  change (initOnceStart (took w n' (initOnceStart ws))) with (initOnceStart ws).
  assert (initial w = initial ws) as Ein by (unfold initial; by rewrite W4).
  destruct (Z.ltb_spec p (initOnceStart ws)) as [Hnew|Hold].
  - rewrite size_t_in by lia. rewrite Z.min_l by lia. unfold clear_bytes. change (workspace (took w n' (initOnceStart ws))) with (workspace w). change (workspaceEnd (took w n' (initOnceStart ws))) with (workspaceEnd w).
    rewrite W4, W5. replace (p + (initOnceStart ws - p)) with (initOnceStart ws) by lia. rewrite Ein in Hx3, Hx4. zdecide. cbn [andb obind]. eexists _, _, _. split; [done|]. split; [|done].
    unfold got in *. cbn [ar_live ar_bound with_ws] in Htk. change (set_initOnceStart p (took w n' (initOnceStart ws))) with (took w n' p). apply Htk; try done; try lia.
    + intros a Ha. zdecide. done.
    + intros a b. destruct (_ && _); [intros [= <-]; by split|apply (ar_bytes _ _ HA)].
    + rewrite Ein. intros a Ha. destruct (Z.leb_spec p a), (Z.ltb_spec a (initOnceStart ws)); cbn [andb]; try (by eexists); try lia. apply (ar_init_once _ _ HA). fold ws. lia.
  - eexists _, _, _. split; [done|]. split; [|done]. unfold got in *. cbn [ar_live ar_bound with_ws] in Htk. apply Htk; try done; try lia.
    + exact (ar_bytes _ _ HA).
    + rewrite Ein. exact (ar_init_once _ _ HA).
Qed.

(** *** Marking and clearing *)

(** A change of [tableValidEnd]. *)
Lemma set_valid_arena A e m' : arena_ok D A -> let ws := ar_ws A in objectEnd ws <= e -> (phase ws = ZSTD_cwksp_alloc_objects -> e = objectEnd ws) ->
  (phase ws <> ZSTD_cwksp_alloc_objects -> e <= allocStart ws) -> byte_mem m' -> (forall a, ar_mem A a <> None -> m' a <> None) -> bounded m' (objectEnd ws) e (ar_bound A) ->
  arena_ok D {| ar_ws := set_tableValidEnd e ws; ar_mem := m'; ar_live := ar_live A; ar_bound := ar_bound A |}.
Proof.
  intros [[C1 C2 C3 C4 C5 C6] Hpl Hd Ho Hb Hi Ht Hpos] ws He Hobj Htab Hbm Hsome Hbd. fold ws in C1, C2, C3, C4, C5, C6, Hi. constructor; try done.
  - constructor; unfold initial in *; wsimpl; try done; intros Hp.
    + rewrite (Hobj Hp). destruct (C3 Hp) as (? & ? & ? & ? & ? & ?). by split_and!.
    + specialize (Htab Hp). destruct (C4 Hp) as (? & ? & ? & ? & ? & ?). split_and!; try done; lia.
  - intros a Ha. destruct (Hi a Ha) as [b Hab]. destruct (m' a) eqn:E; [by eexists|]. exfalso. apply (Hsome a); [by rewrite Hab|done].
Qed.

Lemma objects_debug A : arena_ok D A -> let ws := ar_ws A in 1 <= D -> objectEnd ws <= tableValidEnd ws <= allocStart ws.
Proof.
  intros HA ws HD. pose proof (ar_cwksp _ _ HA) as Hc. fold ws in Hc. destruct (decide (phase ws = ZSTD_cwksp_alloc_objects)) as [E|E].
  - destruct (ok_objects _ _ Hc E) as (_ & _ & ? & ? & _ & Hd). specialize (Hd HD). lia.
  - destruct (ok_tables _ _ Hc E) as (_ & _ & _ & ? & _). lia.
Qed.

Ltac valid_asserts HA := rewrite !dassert_true by (intros HD; pose proof (objects_debug _ HA HD); cbv zeta in *; repeat match goal with w := ar_ws _ |- _ => subst w end; apply Z.leb_le; lia); cbn [obind].

Ltac now_consistent HA :=
  let H := fresh in pose proof (ok_consistent _ _ (ar_cwksp _ _ HA)) as H; cbn [with_ws ar_ws] in H; by rewrite H.

Lemma mark_dirty_arena A : arena_ok D A -> let ws := ar_ws A in
  ZSTD_cwksp_mark_tables_dirty D ws = Ok (set_tableValidEnd (objectEnd ws) ws) /\ arena_ok D (with_ws (set_tableValidEnd (objectEnd ws) ws) A).
Proof.
  intros HA ws. assert (arena_ok D (with_ws (set_tableValidEnd (objectEnd ws) ws) A)) as HA'.
  { apply set_valid_arena; try done; [|exact (ar_bytes _ _ HA)|by apply bounded_empty]. intros E. destruct (ok_tables _ _ (ar_cwksp _ _ HA) E) as (_ & _ & ? & _). subst ws. lia. }
  split; [|done]. unfold ZSTD_cwksp_mark_tables_dirty. valid_asserts HA. now_consistent HA'.
Qed.

(** [ZSTD_cwksp_mark_tables_clean], when the tables are as the client says, in memory [m']. *)
Lemma mark_clean_arena A m' : arena_ok D A -> let ws := ar_ws A in let e := Z.max (tableValidEnd ws) (tableEnd ws) in
  byte_mem m' -> (forall a, ar_mem A a <> None -> m' a <> None) -> bounded m' (objectEnd ws) e (ar_bound A) ->
  ZSTD_cwksp_mark_tables_clean D ws = Ok (set_tableValidEnd e ws) /\
  arena_ok D {| ar_ws := set_tableValidEnd e ws; ar_mem := m'; ar_live := ar_live A; ar_bound := ar_bound A |}.
Proof.
  intros HA ws e Hbm Hs Hbd. pose proof (ar_cwksp _ _ HA) as Hc. fold ws in Hc.
  assert (arena_ok D {| ar_ws := set_tableValidEnd e ws; ar_mem := m'; ar_live := ar_live A; ar_bound := ar_bound A |}) as HA'.
  { apply set_valid_arena; try done; fold ws; destruct (decide (phase ws = ZSTD_cwksp_alloc_objects)) as [E|E]; try done; intros;
      first [destruct (ok_objects _ _ Hc E) as (_ & ? & ? & _)|destruct (ok_tables _ _ Hc E) as (_ & _ & ? & ? & _)]; subst e; lia. }
  split; [|done]. unfold ZSTD_cwksp_mark_tables_clean. valid_asserts HA.
  replace (if tableValidEnd ws <? tableEnd ws then set_tableValidEnd (tableEnd ws) ws else ws) with (set_tableValidEnd e ws).
  - now_consistent HA'.
  - subst e. clearbody ws. destruct (Z.ltb_spec (tableValidEnd ws) (tableEnd ws)); [by rewrite Z.max_r by lia|rewrite Z.max_l by lia; by destruct ws].
Qed.

Lemma clean_tables_arena A : arena_ok D A -> let ws := ar_ws A in let e := Z.max (tableValidEnd ws) (tableEnd ws) in
  exists m', ZSTD_cwksp_clean_tables D ws (ar_mem A) = Ok (set_tableValidEnd e ws, m') /\
    arena_ok D {| ar_ws := set_tableValidEnd e ws; ar_mem := m'; ar_live := ar_live A; ar_bound := ar_bound A |} /\
    (forall a, a < tableValidEnd ws \/ tableEnd ws <= a -> m' a = ar_mem A a).
Proof.
  intros HA ws e. unfold ZSTD_cwksp_clean_tables. valid_asserts HA. pose proof (ar_cwksp _ _ HA) as Hc. fold ws in Hc. destruct (arena_facts A HA) as (F1 & F2 & F3). fold ws in F1, F2, F3.
  pose proof (ar_bounded _ _ HA) as Hbd. fold ws in Hbd. destruct (Z.ltb_spec (tableValidEnd ws) (tableEnd ws)) as [Hlt|Hge].
  - assert (phase ws <> ZSTD_cwksp_alloc_objects) as E. { intros E. destruct (ok_objects _ _ Hc E) as (_ & ? & ? & _). lia. }
    destruct (ok_tables _ _ Hc E) as (_ & _ & H1 & H2 & H3 & _). rewrite size_t_in by lia. unfold clear_bytes.
    replace (tableValidEnd ws + (tableEnd ws - tableValidEnd ws)) with (tableEnd ws) by lia. rewrite !(proj2 (Z.leb_le _ _)) by lia. cbn [andb obind].
    set (m' := fun a : Z => if (tableValidEnd ws <=? a) && (a <? tableEnd ws) then Some 0 else ar_mem A a). destruct (mark_clean_arena A m' HA) as [Hmc HA'].
    + intros a b. unfold m'. destruct (_ && _); [intros [= <-]; by split|apply (ar_bytes _ _ HA)].
    + intros a Ha. unfold m'. by destruct (_ && _).
    + fold ws. rewrite Z.max_r by lia. apply (bounded_zeroed (ar_mem A) m' _ (tableValidEnd ws)); try done; try lia; [apply (ar_positive _ _ HA)|..]; intros x Hx; unfold m'; zdecide; done.
    + fold ws in Hmc, HA'. rewrite Hmc. cbn [obind]. exists m'. split; [done|]. split; [done|]. intros a Ha. unfold m'. destruct Ha; zdecide; by rewrite ?andb_false_r.
  - destruct (mark_clean_arena A (ar_mem A) HA) as [Hmc HA'].
    + exact (ar_bytes _ _ HA).
    + done.
    + fold ws. by rewrite Z.max_l by lia.
    + fold ws in Hmc, HA'. cbn [obind]. rewrite Hmc. exists (ar_mem A). split; [done|]. split; [exact HA'|done].
Qed.

Lemma filter_ordpairs {T} (R : T -> T -> Prop) f (l : list T) : ForallOrdPairs R l -> ForallOrdPairs R (List.filter f l).
Proof.
  induction 1 as [|x l Hx Hl IH]; simpl; [constructor|]. destruct (f x); [constructor; [|done]|done].
  rewrite Forall_forall in *. intros y Hy. apply Hx. apply list_elem_of_In in Hy. apply list_elem_of_In. by apply filter_In in Hy as [? _].
Qed.

Lemma filter_Forall {T} (Q Q' : T -> Prop) f (l : list T) : Forall Q l -> (forall x, Q x -> f x = true -> Q' x) -> Forall Q' (List.filter f l).
Proof. intros Hl HQ. induction Hl as [|x l Hx Hl IH]; simpl; [constructor|]. destruct (f x) eqn:E; [constructor; auto|done]. Qed.

Lemma clear_tables_arena A : arena_ok D A -> let ws := ar_ws A in
  ZSTD_cwksp_clear_tables D ws = Ok (set_tableEnd (objectEnd ws) ws) /\
  arena_ok D {| ar_ws := set_tableEnd (objectEnd ws) ws; ar_mem := ar_mem A; ar_live := keeps (fun k => negb (bool_decide (k = Table))) (ar_live A); ar_bound := ar_bound A |}.
Proof.
  intros HA ws. set (A' := Build_arena _ _ _ _). assert (arena_ok D A') as HA'.
  { destruct HA as [[C1 C2 C3 C4 C5 C6] Hpl Hd Ho Hb Hi Ht Hpos]. fold ws in C1, C2, C3, C4, C5, C6. subst A'. constructor; wsimpl; try done.
    - constructor; unfold initial in *; wsimpl; try done; intros Hp.
      + destruct (C3 Hp) as (? & ? & ? & ? & ? & ?). by split_and!.
      + destruct (C4 Hp) as (? & ? & ? & ? & ? & ?). split_and!; try done; lia.
    - eapply filter_Forall; [exact Hpl|]. intros x Hx Hk. unfold placed in *. wsimpl. fold ws in Hx. destruct (al_kind x); try done.
    - by apply filter_ordpairs.
    - intros Hp. eapply filter_Forall; [exact (Ho Hp)|done]. }
  split; [|done]. subst A'. unfold ZSTD_cwksp_clear_tables. now_consistent HA'.
Qed.

(** The workspace after [ZSTD_cwksp_clear]. *)
Definition cleared ws : ZSTD_cwksp :=
  let w := set_allocFailed false (set_allocStart (initial ws) (set_tableEnd (objectEnd ws) ws)) in
  if bool_decide (phase ws = ZSTD_cwksp_alloc_objects) then w else set_phase ZSTD_cwksp_alloc_aligned_init_once w.

Lemma clear_arena A : arena_ok D A -> let ws := ar_ws A in
  ZSTD_cwksp_clear D ws = Ok (cleared ws) /\
  arena_ok D {| ar_ws := cleared ws; ar_mem := ar_mem A; ar_live := keeps (fun k => bool_decide (k = Object)) (ar_live A); ar_bound := ar_bound A |}.
Proof.
  intros HA ws. set (A' := Build_arena _ _ _ _). assert (arena_ok D A') as HA'.
  { destruct HA as [[C1 C2 C3 C4 C5 C6] Hpl Hd Ho Hb Hi Ht Hpos]. fold ws in C1, C2, C3, C4, C5, C6. destruct (initial_spec ws) as [Hin Hm].
    assert (initial (cleared ws) = initial ws) as Ei by (unfold initial, cleared; by destruct (bool_decide _)).
    assert (objectEnd (cleared ws) = objectEnd ws /\ workspace (cleared ws) = workspace ws /\ workspaceEnd (cleared ws) = workspaceEnd ws /\ tableEnd (cleared ws) = objectEnd ws /\
      tableValidEnd (cleared ws) = tableValidEnd ws /\ allocStart (cleared ws) = initial ws /\ initOnceStart (cleared ws) = initOnceStart ws) as (E1 & E2 & E3 & E4 & E5 & E6 & E7)
      by (unfold cleared; by destruct (bool_decide _)).
    assert (phase (cleared ws) = ZSTD_cwksp_alloc_objects <-> phase ws = ZSTD_cwksp_alloc_objects) as Eph by (unfold cleared; by case_bool_decide).
    subst A'. constructor; wsimpl; rewrite ?Ei, ?E1, ?E5, ?E7; try done.
    - constructor; rewrite ?Ei, ?E1, ?E2, ?E3, ?E4, ?E5, ?E6, ?E7, ?Eph; try done; intros Hp.
      + destruct (C3 Hp) as (? & ? & ? & ? & ? & ?). by split_and!.
      + destruct (C4 Hp) as (? & ? & ? & ? & ? & ?). split_and!; try done; lia.
      + destruct (decide (phase ws = ZSTD_cwksp_alloc_objects)) as [E|E]; [destruct (C3 E)|destruct (C4 E)]; lia.
    - eapply filter_Forall; [exact Hpl|]. intros x Hx Hk. unfold placed in *. rewrite E1, E2. fold ws in Hx. destruct (al_kind x); try done.
    - by apply filter_ordpairs.
    - intros _. eapply filter_Forall; [exact Hpl|]. intros x _ Hk. by apply bool_decide_eq_true in Hk. }
  split; [|done]. subst A'. unfold ZSTD_cwksp_clear. rewrite initialAllocStart_val. cbn [obind].
  cbv zeta. match goal with |- context [if ?b then set_phase ?x ?w else ?w] => replace (if b then set_phase x w else w) with (cleared ws) end; [now_consistent HA'|].
  unfold cleared, initial. wsimpl. clear. clearbody ws. destruct ws as [? ? ? ? ? ? ? ? ? ph ?]. by destruct ph.
Qed.
End Preserve.
