(* ===== verification/CwkspClient.v ===== *)
(** * The clients of zstd_cwksp.h

    Every sequence of allowed commands keeps the arena in order ([reach]), a workspace of
    the size the estimates compute serves all its requests, and the set-up of a static
    compression context, which checks the room left by a difference that can wrap. *)
From S2P Require Import Prelude Mem Errors SeqTable Cwksp CwkspArena.

(** ** Every command *)

Section Client.
Context `{P : Platform} (D : Z).
Implicit Types (ws : ZSTD_cwksp) (m : memory) (A : arena).

Lemma poke_arena A a b : arena_ok D A -> is_byte b -> (a < objectEnd (ar_ws A) \/ tableValidEnd (ar_ws A) <= a) ->
  arena_ok D {| ar_ws := ar_ws A; ar_mem := set_byte (ar_mem A) a b; ar_live := ar_live A; ar_bound := ar_bound A |}.
Proof.
  intros [Hc Hpl Hd Ho Hb Hi Ht Hpos] Hbyte Ha. constructor; try done; cbn [ar_ws ar_mem ar_bound].
  - intros x y. unfold set_byte. destruct (_ =? _); [by intros [= <-]|apply Hb].
  - intros x Hx. unfold set_byte. destruct (_ =? _); [by eexists|by apply Hi].
  - eapply bounded_lower; [exact Hb|exact Ht|lia|lia|]. intros x Hx. unfold set_byte. by rewrite (proj2 (Z.eqb_neq _ _)) by lia.
Qed.

Lemma poke_table_arena A a v : arena_ok D A -> 0 <= v < 2 ^ 32 -> a mod 4 = 0 -> (a < tableValidEnd (ar_ws A) -> v < ar_bound A) ->
  arena_ok D {| ar_ws := ar_ws A; ar_mem := set_word (ar_mem A) a v; ar_live := ar_live A; ar_bound := ar_bound A |}.
Proof.
  intros [Hc Hpl Hd Ho Hb Hi Ht Hpos] Hv Ha Hlt. constructor; try done; cbn [ar_ws ar_mem ar_bound].
  - intros x y. unfold set_word. destruct (_ && _); [intros [= <-]; apply word_byte_range|apply Hb].
  - intros x Hx. unfold set_word. destruct (_ && _); [by eexists|by apply Hi].
  - by apply bounded_set_word.
Qed.

Lemma set_bound_arena A b : arena_ok D A -> 0 < b -> ar_bound A <= b \/ tableValidEnd (ar_ws A) <= objectEnd (ar_ws A) ->
  arena_ok D {| ar_ws := ar_ws A; ar_mem := ar_mem A; ar_live := ar_live A; ar_bound := b |}.
Proof.
  intros [Hc Hpl Hd Ho Hb Hi Ht Hpos] Hb0 Hor. constructor; try done; cbn [ar_ws ar_mem ar_bound].
  destruct Hor as [Hle|He]; [|by apply bounded_empty]. eapply bounded_lower; [exact Hb|exact Ht|lia|exact Hle|done].
Qed.

(** Allocations other than tables are clear of the area of valid tables. *)
Lemma placed_outside ws x a : cwksp_ok D ws -> placed ws x -> al_kind x <> Table -> (phase ws = ZSTD_cwksp_alloc_objects -> al_kind x = Object) ->
  al_ptr x <= a < al_ptr x + al_size x -> a < objectEnd ws \/ tableValidEnd ws <= a.
Proof.
  intros Hc (_ & _ & _ & Hp) Hk Hobj Ha. destruct (decide (al_kind x = Object)) as [E|E]; [rewrite E in Hp; lia|].
  destruct (decide (phase ws = ZSTD_cwksp_alloc_objects)) as [Ep|Ep]; [by destruct (E (Hobj Ep))|].
  destruct (ok_tables _ _ Hc Ep) as (_ & _ & _ & ? & _). destruct (al_kind x); try done; lia.
Qed.

Lemma reserve_object_arena A n : arena_ok D A -> allowed D (ReserveObject n) A ->
  exists p ws', ZSTD_cwksp_reserve_object D (ar_ws A) n = Ok (p, ws') /\
    (forall q size al, objectEnd (ar_ws A) <= q -> 0 <= size -> q + size <= objectEnd (ar_ws A) + n -> 0 < al -> q mod al = 0 ->
      arena_ok D (got Object (if p =? NULL then NULL else q) size al A ws' (ar_mem A))) /\
    (p = NULL \/ p = objectEnd (ar_ws A) /\ p mod sizeof_ptr = 0 /\ 0 < p /\ p + n <= workspaceEnd (ar_ws A)) /\
    (phase (ar_ws A) = ZSTD_cwksp_alloc_objects -> objectEnd (ar_ws A) + n <= workspaceEnd (ar_ws A) -> p = objectEnd (ar_ws A)).
Proof.
  intros HA (Hn & Hnp & Hfit). pose proof (reserve_object_spec D A n HA Hn Hnp) as Hsp. cbv zeta in Hsp. rewrite Hsp. clear Hsp.
  destruct (arena_facts D A HA) as (F1 & F2 & F3). case_bool_decide as E; cbn [andb]; [destruct (Z.leb_spec (objectEnd (ar_ws A) + n) (workspaceEnd (ar_ws A))) as [Hle|Hgt]|].
  - eexists _, _. split; [done|]. split; [|split; [right|done]].
    + intros q size al Hq Hs Hqs Hal Hqal. rewrite (proj2 (Z.eqb_neq _ _)) by (unfold NULL; lia). by apply object_arena; try lia.
    + split; [done|]. destruct (ok_objects _ _ (ar_cwksp _ _ HA) E) as (Ho & _). lia.
  - eexists _, _. split; [done|]. split; [|split; [by left|lia]]. intros. cbn [Z.eqb NULL]. rewrite got_null. by apply failed_arena.
  - eexists _, _. split; [done|]. split; [|split; [by left|done]]. intros. cbn [Z.eqb NULL]. rewrite got_null. by apply failed_arena.
Qed.

Lemma run_object A n : arena_ok D A -> allowed D (ReserveObject n) A -> exists A', run D (ReserveObject n) A = Ok A' /\ arena_ok D A'.
Proof.
  intros HA Hal. destruct (reserve_object_arena A n HA Hal) as (p & ws' & E & Hok & Hp & _). cbn [run]. rewrite E. cbn [obind]. eexists. split; [done|].
  destruct Hal as (Hn & _). destruct (arena_facts D A HA) as (F1 & _). destruct Hp as [->|(-> & Hm & Hpos & _)].
  - rewrite got_null. specialize (Hok (objectEnd (ar_ws A)) 0 1). cbn [Z.eqb NULL] in Hok. rewrite got_null in Hok. apply Hok; try lia. apply Z.mod_1_r.
  - pose proof (Hok (objectEnd (ar_ws A)) n sizeof_ptr) as Hk. rewrite (proj2 (Z.eqb_neq _ _)) in Hk by (unfold NULL; lia). apply Hk; try done; try lia. apply sizeof_ptr_pos.
Qed.

(** The next multiple of the alignment. *)
Lemma aligned_inside p k : 0 < p -> p mod sizeof_ptr = 0 -> 0 <= k < 16 -> sizeof_ptr < 2 ^ k -> p + (2 ^ k - sizeof_ptr) < word_size ->
  let s := 2 ^ k - sizeof_ptr in let q := Z.land (size_t (p + s)) (size_t (Z.lnot (size_t (2 ^ k - 1)))) in p <= q <= p + s /\ q mod 2 ^ k = 0.
Proof.
  intros Hp Hm Hk Hlt Hw s q. pose proof sizeof_ptr_pos as Hpp. assert (2 ^ k < 2 ^ 32) by (apply Z.pow_lt_mono_r; lia).
  subst q. rewrite (size_t_small (2 ^ k - 1)) by lia. rewrite size_t_in by lia. rewrite land_lnot_mask by lia.
  assert (0 < 2 ^ k) as Hk0 by (apply pow2_pos; lia). pose proof (Z.mod_pos_bound (p + s) (2 ^ k) Hk0) as Hb. split; [|by apply down_multiple]. split; [|lia].
  assert ((2 ^ k) mod sizeof_ptr = 0) as Hdiv.
  { destruct sizeof_ptr_pow as (j & Hj & Ej). rewrite Ej in *. assert (j < k) by (apply (Z.pow_lt_mono_r_iff 2); lia). replace k with (k - j + j) by lia. rewrite Z.pow_add_r by lia. apply Z.mod_mul. lia. }
  assert ((p + s) mod sizeof_ptr = 0) as Hps by (apply mod_add_multiple; [done..|]; apply mod_sub_multiple; [done..|]; apply Z.mod_same; lia).
  assert (((p + s) mod 2 ^ k) mod sizeof_ptr = 0) as Hr.
  { rewrite (Z.mod_eq (p + s) (2 ^ k)) by lia. apply mod_sub_multiple; [done..|]. rewrite Z.mul_mod, Hdiv, Z.mul_0_l by lia. apply Z.mod_0_l. lia. }
  assert ((p + s) mod 2 ^ k <= 2 ^ k - sizeof_ptr); [|lia]. apply Z.mod_divide in Hr as [c Hc]; [|lia]. apply Z.mod_divide in Hdiv as [d Hd]; [|lia]. rewrite Hc, Hd in *.
  assert (c < d) by (apply (Z.mul_lt_mono_pos_r sizeof_ptr); lia). assert ((c + 1) * sizeof_ptr <= d * sizeof_ptr) by (apply Z.mul_le_mono_nonneg_r; lia). lia.
Qed.

Lemma run_object_aligned A n k : arena_ok D A -> allowed D (ReserveObjectAligned n k) A -> exists A', run D (ReserveObjectAligned n k) A = Ok A' /\ arena_ok D A'.
Proof.
  intros HA (Hn & Hk & Hm & Hfit). cbn [run]. unfold ZSTD_cwksp_reserve_object_aligned. set (surplus := if sizeof_ptr <? 2 ^ k then 2 ^ k - sizeof_ptr else 0) in *.
  assert (2 ^ k < 2 ^ 16) as Hk16 by (apply Z.pow_lt_mono_r; lia). assert (0 < 2 ^ k) as Hk0 by (apply pow2_pos; lia). pose proof sizeof_ptr_pos as Hpp. pose proof word_size_big.
  assert (0 <= surplus < 2 ^ 16) as Hs by (subst surplus; zcases; lia). rewrite (size_t_small (n + surplus)) by lia.
  assert (allowed D (ReserveObject (n + surplus)) A) as Hal by (cbn [allowed]; split; [lia|done]).
  destruct (reserve_object_arena A _ HA Hal) as (p & ws' & -> & Hok & Hp & _). cbn [obind]. destruct (arena_facts D A HA) as (F1 & F2 & F3). destruct Hp as [->|(-> & Hpm & Hpos & Hend)].
  - cbn [Z.eqb NULL obind]. eexists. split; [done|]. rewrite got_null. specialize (Hok (objectEnd (ar_ws A)) 0 1). cbn [Z.eqb NULL] in Hok. rewrite got_null in Hok. apply Hok; try lia. apply Z.mod_1_r.
  - set (p := objectEnd (ar_ws A)) in *. assert (p =? NULL = false) as Hnn by (apply Z.eqb_neq; unfold NULL; lia). rewrite Hnn in *.
    destruct (Z.eqb_spec surplus 0) as [E0|Hne].
    + cbn [obind]. eexists. split; [done|]. apply Hok; try lia. assert (2 ^ k <= sizeof_ptr) as Hkp by (subst surplus; destruct (Z.ltb_spec sizeof_ptr (2 ^ k)); lia).
      destruct sizeof_ptr_pow as (j & Hj & Ej). rewrite Ej in Hkp, Hpm. assert (0 < 2 ^ j) by (apply pow2_pos; lia). assert (k <= j) by (apply (Z.pow_le_mono_r_iff 2); lia). apply Z.mod_divide in Hpm as [c Hc]; [|lia]. rewrite Hc.
      replace j with (j - k + k) by lia. rewrite Z.pow_add_r, Z.mul_assoc by lia. apply Z.mod_mul. lia.
    + rewrite dassert_true by (intros; apply isPower2_pow; lia). cbn [obind]. eexists. split; [done|].
      assert (sizeof_ptr < 2 ^ k) as Hlt by (subst surplus; destruct (Z.ltb_spec sizeof_ptr (2 ^ k)); lia). assert (surplus = 2 ^ k - sizeof_ptr) as Es by (subst surplus; by rewrite (proj2 (Z.ltb_lt _ _) Hlt)).
      destruct (aligned_inside p k) as [Hq Hqm]; try done; [lia|]. rewrite Es. apply Hok; try done; lia.
Qed.

Lemma run_table A n : arena_ok D A -> allowed D (ReserveTable n) A -> exists A', run D (ReserveTable n) A = Ok A' /\ arena_ok D A' /\
  (fits (ar_ws A) n -> ar_live A' = {| al_kind := Table; al_ptr := table_top (ar_ws A); al_size := n; al_align := 64 |} :: ar_live A).
Proof.
  intros HA (Hn & Hm & Hfit). cbn [run]. pose proof (reserve_table_spec D A n HA Hn Hm Hfit) as Hsp. cbv zeta in Hsp. rewrite Hsp. clear Hsp. set (ws := ar_ws A) in *.
  set (ph := if bool_decide _ then _ else _). destruct (opened_fields ws ph) as (W1 & W2 & W3 & W4 & W5 & W6). destruct (arena_facts D A HA) as (F1 & F2 & F3). fold ws in F1, F2, F3.
  assert (1 <= rank ph /\ rank (phase ws) <= rank ph) as [Hr Hle] by (subst ph; destruct (phase ws); case_bool_decide; by vm_compute || done).
  pose proof (ar_cwksp _ _ HA) as Hc. fold ws in Hc. destruct (Z.ltb_spec (workspaceEnd ws) (table_top ws)) as [Ht|Ht].
  { cbn [obind]. eexists. split; [done|]. rewrite got_null. split; [by destruct A|]. unfold fits. intros Hf.
    destruct (decide (phase ws = ZSTD_cwksp_alloc_objects)) as [E|E]; [destruct (ok_objects _ _ Hc E) as (_ & _ & _ & ? & _)|destruct (ok_tables _ _ Hc E) as (_ & _ & _ & _ & ? & _)]; lia. }
  pose proof (opened_arena D A ph HA Hr Hle Ht) as HA'. fold ws in HA'. destruct (Z.ltb_spec (allocStart ws) (table_top ws + n)) as [Hlt|Hge].
  { cbn [obind]. eexists. split; [done|]. rewrite got_null. split; [exact (failed_arena _ _ HA')|]. unfold fits. lia. }
  assert (ph <> ZSTD_cwksp_alloc_objects) as Hpo by (intros E; rewrite E in Hr; by cbn in Hr).
  pose proof (table_arena D (with_ws (set_phase ph (opened ws)) A) n HA') as Hta. cbn [with_ws ar_ws] in Hta. rewrite W1, W2, W6 in Hta. cbn [obind]. eexists. split; [done|]. split; [by apply Hta|].
  intros _. unfold got. cbn [ar_live]. pose proof (ok_tables _ _ (ar_cwksp _ _ HA')) as Htb. cbn [with_ws ar_ws] in Htb. rewrite W1, W6 in Htb. destruct (Htb Hpo) as (_ & _ & ? & _).
  pose proof (ok_end _ _ (ar_cwksp _ _ HA')) as He. cbn [with_ws ar_ws] in He. rewrite (proj2 (Z.eqb_neq _ _)); [done|]. unfold NULL. rewrite W5 in He. lia.
Qed.

Lemma run_end A k n n' al ph : arena_ok D A ->
  2 <= rank ph -> rank (phase (ar_ws A)) <= rank ph -> k <> Object -> k <> Table -> k <> InitOnce -> 0 <= n <= n' -> (rank ph <= 2 -> n' mod 64 = 0 /\ al = 64) -> (2 < rank ph -> al = 1) -> (1 <= D -> fits (ar_ws A) n') ->
  exists p ws', ZSTD_cwksp_reserve_internal D (ar_ws A) n' ph = Ok (p, ws') /\ arena_ok D (got k p n al A ws' (ar_mem A)) /\ (rank ph <= 2 -> 0 <= p /\ p mod 64 = 0).
Proof. intros HA H1 H2 H3 H4 H5 H6 H7 H8 H9. destruct (reserve_end_arena D A n n' k al ph HA H1 H2 H3 H4 H5 H6 H7 H8 H9) as (p & ws' & E & Hok & _ & Hal). by exists p, ws'. Qed.

(** An allowed command succeeds, whether or not assertions are compiled, and keeps the invariant. *)
Lemma run_ok c A : arena_ok D A -> allowed D c A -> exists A', run D c A = Ok A' /\ arena_ok D A'.
Proof.
  intros HA Hal. pose proof word_size_big. destruct c as [n|n k|n|n|n|n| | | | | |a b|a v|b].
  - by apply run_object.
  - by apply run_object_aligned.
  - destruct (run_table A n HA Hal) as (A' & ? & ? & _). by exists A'.
  - destruct Hal as (Hn & Hph & Hfit). destruct (reserve_init_once_arena D A n HA Hn Hph Hfit) as (p & ws' & m' & E & Hok & _). cbn [run]. rewrite E. by eexists.
  - destruct Hal as (Hn & Hph & Hfit). destruct (up_spec 64 n) as [Hu Hum]; [lia|].
    destruct (run_end A Aligned n (up 64 n) 64 ZSTD_cwksp_alloc_aligned) as (p & ws' & E & Hok & Hp); try done; [lia|].
    cbn [run]. unfold ZSTD_cwksp_reserve_aligned64. rewrite cwksp_align64 by lia. cbn [obind]. rewrite E. cbn [obind]. destruct (Hp ltac:(done)) as [Hp0 Hp64].
    rewrite dassert_true by (intros; by apply land63). by eexists.
  - destruct Hal as (Hn & Hfit). destruct (run_end A Buffer n n 1 ZSTD_cwksp_alloc_buffers) as (p & ws' & E & Hok & _); try done; [destruct (phase _); by vm_compute|].
    cbn [run]. unfold ZSTD_cwksp_reserve_buffer. rewrite E. by eexists.
  - destruct (mark_dirty_arena D A HA) as [E Hok]. cbn [run]. rewrite E. by eexists.
  - destruct (mark_clean_arena D A (ar_mem A) HA) as [E Hok]; [exact (ar_bytes _ _ HA)|done| |cbn [run]; rewrite E; by eexists].
    destruct (Z.max_spec (tableValidEnd (ar_ws A)) (tableEnd (ar_ws A))) as [[? ->]|[? ->]]; [exact Hal|apply (ar_bounded _ _ HA)].
  - destruct (clean_tables_arena D A HA) as (m' & E & Hok & _). cbn [run]. rewrite E. by eexists.
  - destruct (clear_tables_arena D A HA) as [E Hok]. cbn [run]. rewrite E. by eexists.
  - destruct (clear_arena D A HA) as [E Hok]. cbn [run]. rewrite E. by eexists.
  - destruct Hal as (Hb & x & Hx & Hk & Ha). eexists. split; [done|]. apply poke_arena; [done..|]. pose proof (ar_placed _ _ HA) as Hpl. rewrite Forall_forall in Hpl.
    apply list_elem_of_In in Hx. apply (placed_outside (ar_ws A) x a (ar_cwksp _ _ HA)); [by apply Hpl|done| |done]. intros E. pose proof (ar_objects_only _ _ HA E) as Ho. rewrite Forall_forall in Ho. by apply Ho.
  - destruct Hal as (Hv & Ha & Hlt & _). eexists. split; [done|]. by apply poke_table_arena.
  - destruct Hal as (Hb & Hor). eexists. split; [done|]. by apply set_bound_arena.
Qed.

(** ** A new workspace *)

Definition fresh start size static : ZSTD_cwksp :=
  let init := start + size - (start + size) mod 64 in
  {| workspace := start; workspaceEnd := start + size; objectEnd := start; tableEnd := start; tableValidEnd := start; allocStart := init; initOnceStart := init;
     allocFailed := false; workspaceOversizedDuration := 0; phase := ZSTD_cwksp_alloc_objects; isStatic := static |}.

(** Where a workspace may lie; with assertions on it reaches a 64-byte boundary. *)
Definition start_ok start size : Prop :=
  0 < start /\ start mod sizeof_ptr = 0 /\ 0 <= size /\ start + size < word_size /\ (1 <= D -> start <= start + size - (start + size) mod 64).

Lemma fresh_ok start size static : start_ok start size -> cwksp_ok D (fresh start size static).
Proof.
  intros (H1 & H2 & H3 & H4 & H5). constructor; unfold initial, fresh in *; wsimpl; try done; try lia.
  intros _. apply down_multiple. lia.
Qed.

Lemma init_spec ws start size static : start_ok start size -> ZSTD_cwksp_init D ws start size static = Ok (fresh start size static).
Proof.
  intros Hs. pose proof (fresh_ok start size static Hs) as Hok. destruct Hs as (H1 & H2 & H3 & H4 & H5). unfold ZSTD_cwksp_init. rewrite dassert_true; cbn [obind].
  2:{ intros _. destruct sizeof_ptr_pow as (k & Hk & Ek). rewrite Ek in *. rewrite land_mask_mod by lia. by apply Z.eqb_eq. }
  rewrite initialAllocStart_val. cbn [obind]. unfold ZSTD_cwksp_clear. rewrite initialAllocStart_val. cbn [obind]. unfold initial. wsimpl. change (1 <? 0) with false. cbv iota.
  assert (forall d, ZSTD_cwksp_assert_internal_consistency D (set_workspaceOversizedDuration d (fresh start size static)) = Ok tt) as Hcon by (intros d; apply ok_consistent; destruct Hok; by constructor).
  unfold fresh, set_allocFailed, set_allocStart, set_tableEnd, set_workspaceOversizedDuration in *. wsimpl. rewrite Hcon. cbn [obind]. wsimpl. by rewrite Hcon.
Qed.

Lemma fresh_arena start size static m b : start_ok start size -> byte_mem m -> 0 < b ->
  arena_ok D {| ar_ws := fresh start size static; ar_mem := m; ar_live := []; ar_bound := b |}.
Proof.
  intros Hs Hm Hb. constructor; cbn [ar_ws ar_live ar_mem ar_bound]; try done; try by constructor.
  - by apply fresh_ok.
  - intros a Ha. unfold initial, fresh in Ha. wsimpl. lia.
  - by apply bounded_empty.
Qed.

(** The states a client can bring a workspace to. *)
Inductive reach : arena -> Prop :=
| reach_init start size static ws0 ws m b : start_ok start size -> byte_mem m -> 0 < b -> ZSTD_cwksp_init D ws0 start size static = Ok ws ->
    reach {| ar_ws := ws; ar_mem := m; ar_live := []; ar_bound := b |}
| reach_run c A A' : reach A -> allowed D c A -> run D c A = Ok A' -> reach A'.

Lemma reach_ok A : reach A -> arena_ok D A.
Proof.
  induction 1 as [start size static ws0 ws m b Hs Hm Hb E|c A A' _ IH Hal E].
  - rewrite init_spec in E by done. injection E as <-. by apply fresh_arena.
  - destruct (run_ok c A IH Hal) as (A2 & E2 & Hok). congruence.
Qed.

(** An allocation lies in the workspace. *)
Lemma placed_inside ws x : cwksp_ok D ws -> placed ws x -> (phase ws = ZSTD_cwksp_alloc_objects -> al_kind x = Object) ->
  workspace ws <= al_ptr x /\ al_ptr x + al_size x <= workspaceEnd ws.
Proof.
  intros Hc (_ & _ & _ & Hp) Hobj. pose proof (ok_end _ _ Hc). destruct (initial_spec ws) as [Hin _].
  destruct (decide (phase ws = ZSTD_cwksp_alloc_objects)) as [E|E]; [rewrite (Hobj E) in Hp; lia|]. destruct (ok_tables _ _ Hc E) as (_ & _ & ? & _ & ? & _). destruct (al_kind x); lia.
Qed.
End Client.

(** The integers of tables that are marked clean. *)
Lemma tables_below `{P : Platform} D A : arena_ok D A -> tableEnd (ar_ws A) <= tableValidEnd (ar_ws A) ->
  forall x a, In x (ar_live A) -> al_kind x = Table -> al_ptr x <= a < al_ptr x + al_size x -> a mod 4 = 0 -> exists v, word (ar_mem A) a = Some v /\ v < ar_bound A.
Proof.
  intros HA Hv x a Hx Hk Ha Ha4. pose proof (ar_placed _ _ HA) as Hpl. rewrite Forall_forall in Hpl. apply list_elem_of_In in Hx. destruct (Hpl x Hx) as (Hs & Hal & _ & Hp). rewrite Hk in Hp. destruct Hp as (E64 & Hp1 & Hp2 & Hs64). rewrite E64 in Hal.
  destruct (ar_bounded _ _ HA a ltac:(lia) Ha4) as (v & Hw & Hlt). exists v. split; [|done]. rewrite <- Hw. unfold word, masked.
  assert (a + 3 < al_ptr x + al_size x) by (clear -Ha Ha4 Hal Hs64; Z.div_mod_to_equations; lia). by rewrite !(proj2 (Z.ltb_lt _ _)) by lia.
Qed.

(** Where allocations lie. *)
Lemma all_inside `{P : Platform} D A : arena_ok D A ->
  Forall (fun x => workspace (ar_ws A) <= al_ptr x /\ al_ptr x + al_size x <= workspaceEnd (ar_ws A) /\ al_ptr x mod al_align x = 0) (ar_live A).
Proof.
  intros HA. pose proof (ar_placed _ _ HA) as Hpl. pose proof (ar_objects_only _ _ HA) as Ho. rewrite Forall_forall in *. intros x Hx. specialize (Hpl x Hx).
  destruct (placed_inside D (ar_ws A) x (ar_cwksp _ _ HA) Hpl); [|by destruct Hpl as (_ & ? & _)]. intros E. by apply (Ho E).
Qed.

(** ** Allocation *)


(** C14: what a client finds in its memory.  Every byte of a live init-once allocation has been written at some time.  Whenever the tables are marked
    clean ([tableEnd <= tableValidEnd]), every integer of every live table is initialised and below the bound, although buffers may have overwritten
    part of the area in between; and [ZSTD_cwksp_clean_tables] always brings that about, changing no byte outside the tables and none that was valid. *)
Theorem ZSTD_cwksp_contents `{P : Platform} D A : reach D A ->
  (forall x a, In x (ar_live A) -> al_kind x = InitOnce -> al_ptr x <= a < al_ptr x + al_size x -> exists b, ar_mem A a = Some b) /\
  (tableEnd (ar_ws A) <= tableValidEnd (ar_ws A) ->
    forall x a, In x (ar_live A) -> al_kind x = Table -> al_ptr x <= a < al_ptr x + al_size x -> a mod 4 = 0 -> exists v, word (ar_mem A) a = Some v /\ v < ar_bound A) /\
  (exists A', run D CleanTables A = Ok A' /\ tableEnd (ar_ws A') <= tableValidEnd (ar_ws A') /\ ar_live A' = ar_live A /\
    forall a, a < tableValidEnd (ar_ws A) \/ tableEnd (ar_ws A) <= a -> ar_mem A' a = ar_mem A a).
Proof.
  intros HR. pose proof (reach_ok D A HR) as HA. pose proof (ar_placed _ _ HA) as Hpl. rewrite Forall_forall in Hpl. split; [|split].
  - intros x a Hx Hk Ha. apply list_elem_of_In in Hx. destruct (Hpl x Hx) as (_ & _ & _ & Hp). rewrite Hk in Hp. apply (ar_init_once _ _ HA). lia.
  - by apply (tables_below D A HA).
  - destruct (clean_tables_arena D A HA) as (m' & E & _ & Hm). cbn [run]. rewrite E. cbn [obind]. eexists. split; [done|]. wsimpl. split; [lia|]. by split.
Qed.

(** *** Sessions *)

Section Session.
Context `{P : Platform} (D : Z).

(** A test for [allowed]; a client that declares its tables clean itself is beyond it. *)
Definition allowedb (c : command) (A : arena) : bool :=
  let ws := ar_ws A in
  let fitsb n := (D <? 1) || (table_top ws + n <=? allocStart ws) in
  let owns f a := existsb (fun x => f (bool_decide (al_kind x = Table)) && (al_ptr x <=? a) && (a <? al_ptr x + al_size x)) (ar_live A) in
  match c with
  | ReserveObject n => (0 <=? n) && (n <? 2 ^ 31) && (n mod sizeof_ptr =? 0) && ((D <? 1) || (objectEnd ws + n <=? allocStart ws))
  | ReserveTable n => (0 <=? n) && (n mod 64 =? 0) && fitsb n
  | ReserveInitOnce n => (0 <=? n) && (n <? 2 ^ 31) && (rank (phase ws) <=? 1) && fitsb (up 64 n)
  | ReserveAligned64 n => (0 <=? n) && (n <? 2 ^ 31) && (rank (phase ws) <=? 2) && fitsb (up 64 n)
  | ReserveBuffer n => (0 <=? n) && fitsb n
  | Poke a b => (0 <=? b) && (b <? 256) && owns negb a
  | PokeTable a v => (0 <=? v) && (v <? 2 ^ 32) && (a mod 4 =? 0) && ((tableValidEnd ws <=? a) || (v <? ar_bound A)) && owns id a
  | ReserveObjectAligned _ _ | MarkTablesClean => false
  | SetBound b => (0 <? b) && ((ar_bound A <=? b) || (tableValidEnd ws <=? objectEnd ws))
  | _ => true
  end.

Lemma owns_spec (f : bool -> bool) (l : list allocation) a : existsb (fun x => f (bool_decide (al_kind x = Table)) && (al_ptr x <=? a) && (a <? al_ptr x + al_size x)) l = true ->
  exists x, In x l /\ f (bool_decide (al_kind x = Table)) = true /\ al_ptr x <= a < al_ptr x + al_size x.
Proof. intros H. apply existsb_exists in H as (x & Hx & H). exists x. split; [done|]. rewrite !andb_true_iff in H. destruct H as [[H1 H2] H3]. split; [done|]. lia. Qed.

Lemma allowedb_ok c A : allowedb c A = true -> allowed D c A.
Proof.
  pose proof word_size_big as Hwsb. destruct c; cbn [allowedb allowed]; try done; rewrite ?andb_true_iff; unfold object_fits, fits.
  1-5: intros H; repeat split; try (destruct_and?; lia); intros HD; destruct_and?; match goal with H : _ || _ = true |- _ => apply orb_true_iff in H as [?|?]; lia end.
  - intros [[H1 H2] H3]. split; [by split; lia|]. apply owns_spec in H3 as (x & Hx & Hk & Ha). exists x. split; [done|]. split; [|done]. by apply negb_true_iff, bool_decide_eq_false in Hk.
  - intros [[[[H1 H2] H3] H4] H5]. split; [lia|]. split; [lia|]. split; [intros Hlt; apply orb_true_iff in H4 as [?|?]; lia|].
    apply owns_spec in H5 as (x & Hx & Hk & Ha). exists x. split; [done|]. split; [|done]. by apply bool_decide_eq_true in Hk.
  - intros [H1 H2]. split; [lia|]. apply orb_true_iff in H2 as [?|?]; [left|right]; lia.
Qed.

(** The commands one after the other, as long as they are allowed. *)
Fixpoint session (cs : list command) (A : arena) : res arena :=
  match cs with
  | [] => Ok A
  | c :: cs => if allowedb c A then let* A := run D c A in session cs A else Fault AssertFailed
  end.

Lemma reach_session cs : forall A A', reach D A -> session cs A = Ok A' -> reach D A'.
Proof.
  induction cs as [|c cs IH]; cbn [session]; intros A A' HR E; [congruence|]. destruct (allowedb c A) eqn:Hal; [|done]. apply bind_Ok in E as (A1 & E1 & E2).
  apply (IH A1); [|done]. apply (reach_run D c A); [done|by apply allowedb_ok|done].
Qed.
End Session.

(** A workspace of 256 bytes.  The buffer of the second round takes 6 bytes from the area of valid tables and overwrites one; the table of the
    third round finds the rest as the first left it. *)
Definition demo_commands : list command :=
  [ReserveObject 16; ReserveTable 128; CleanTables; PokeTable 1208 5; Clear; ReserveBuffer 70; Poke 1211 9; Clear; ReserveTable 128; ReserveInitOnce 10; CleanTables].

Definition demo_arena : arena := {| ar_ws := fresh 1024 256 ZSTD_cwksp_static_alloc; ar_mem := fun _ => None; ar_live := []; ar_bound := 10 |}.

Lemma demo_reach : let P := arm64_v8a in reach 1 demo_arena.
Proof.
  intros P. apply (reach_init 1 1024 256 ZSTD_cwksp_static_alloc zero_cwksp); done.
Qed.

Definition demo_end : arena := match @session arm64_v8a 1 demo_commands demo_arena with Ok A => A | _ => demo_arena end.

Lemma demo_end_reach : let P := arm64_v8a in session 1 demo_commands demo_arena = Ok demo_end /\ reach 1 demo_end.
Proof.
  intros P. assert (session 1 demo_commands demo_arena = Ok demo_end) as E by (vm_compute; reflexivity). split; [exact E|].
  exact (reach_session 1 demo_commands demo_arena demo_end demo_reach E).
Qed.


Lemma ZSTD_cwksp_contents_witness : let P := arm64_v8a in
  session 1 demo_commands demo_arena = Ok demo_end /\ map (word (ar_mem demo_end)) [1088; 1208; 1212] = [Some 0; Some 5; Some 0] /\
  (exists v, word (ar_mem demo_end) 1100 = Some v /\ v < ar_bound demo_end) /\ exists b, ar_mem demo_end 1220 = Some b.
Proof.
  intros P. destruct demo_end_reach as [E HR]. split; [exact E|]. split; [vm_compute; reflexivity|].
  assert (ar_live demo_end = [{| al_kind := InitOnce; al_ptr := 1216; al_size := 10; al_align := 64 |}; {| al_kind := Table; al_ptr := 1088; al_size := 128; al_align := 64 |};
    {| al_kind := Object; al_ptr := 1024; al_size := 16; al_align := 8 |}]) as El by (vm_compute; reflexivity).
  destruct (ZSTD_cwksp_contents (P := P) 1 demo_end HR) as (Hio & Htab & _). rewrite El in Hio, Htab. split.
  - assert (tableEnd (ar_ws demo_end) <= tableValidEnd (ar_ws demo_end)) as Hle by (vm_compute; discriminate).
    apply (Htab Hle {| al_kind := Table; al_ptr := 1088; al_size := 128; al_align := 64 |}); [right; left; reflexivity|reflexivity|cbn; lia|reflexivity].
  - apply (Hio {| al_kind := InitOnce; al_ptr := 1216; al_size := 10; al_align := 64 |}); [left; reflexivity|reflexivity|cbn; lia].
Defined.

(** ** Enough space *)

Section Budget.
Context `{P : Platform} (D : Z).
Implicit Types (ws : ZSTD_cwksp) (A : arena).

(** What the estimates count for a request, and what the client must get for it. *)
Definition cost (c : command) : Z :=
  match c with
  | ReserveObject n | ReserveTable n | ReserveBuffer n => n
  | ReserveInitOnce n | ReserveAligned64 n => up 64 n
  | _ => 0
  end.

Definition costs (cs : list command) : Z := foldr (fun c s => cost c + s) 0 cs.

Definition served (c : command) : list (kind * Z) :=
  match c with
  | ReserveObject n => [(Object, n)]
  | ReserveTable n => [(Table, n)]
  | ReserveInitOnce n => if n =? 0 then [] else [(InitOnce, n)]
  | ReserveAligned64 n => if n =? 0 then [] else [(Aligned, n)]
  | ReserveBuffer n => if n =? 0 then [] else [(Buffer, n)]
  | _ => []
  end.

(** Requests in the order of the phases, [ph] being the current one; tables come at any time after the objects. *)
Fixpoint ordered (ph : Z) (cs : list command) : Prop :=
  match cs with
  | [] => True
  | c :: cs =>
      match c with
      | ReserveObject n => ph = 0 /\ 0 <= n < 2 ^ 31 /\ n mod sizeof_ptr = 0 /\ ordered 0 cs
      | ReserveTable n => 0 <= n /\ n mod 64 = 0 /\ ordered (Z.max 1 ph) cs
      | ReserveInitOnce n => ph <= 1 /\ 0 <= n < 2 ^ 31 /\ ordered 1 cs
      | ReserveAligned64 n => ph <= 2 /\ 0 <= n <= word_size - 64 /\ ordered 2 cs
      | ReserveBuffer n => 0 <= n /\ ordered 3 cs
      | _ => False
      end
  end.

Fixpoint run_all (cs : list command) A : res arena :=
  match cs with
  | [] => Ok A
  | c :: cs => let* A := run D c A in run_all cs A
  end.

Definition requests A : list (kind * Z) := map (fun x => (al_kind x, al_size x)) (rev (ar_live A)).

(** After requests of cost [S], room for [R] more. *)
Record account A (S R : Z) : Prop := {
  acc_ok : arena_ok D A;
  acc_never_failed : allocFailed (ar_ws A) = false;
  acc_objects : phase (ar_ws A) = ZSTD_cwksp_alloc_objects -> objectEnd (ar_ws A) = workspace (ar_ws A) + S /\ objectEnd (ar_ws A) + R + 128 <= workspaceEnd (ar_ws A);
  acc_rest : phase (ar_ws A) <> ZSTD_cwksp_alloc_objects ->
    let used := tableEnd (ar_ws A) - workspace (ar_ws A) + (initial (ar_ws A) - allocStart (ar_ws A)) in S <= used < S + 64 /\ tableEnd (ar_ws A) + R <= allocStart (ar_ws A)
}.

Lemma account_fits A S R : account A S R -> 0 <= R -> table_top (ar_ws A) <= workspaceEnd (ar_ws A) /\ fits (ar_ws A) R /\
  S <= table_top (ar_ws A) - workspace (ar_ws A) + (initial (ar_ws A) - allocStart (ar_ws A)) < S + 64.
Proof.
  intros [HA _ Ho Hr] HR. unfold fits, table_top. destruct (arena_facts D A HA) as (F1 & F2 & F3). case_bool_decide as E.
  - destruct (ok_objects _ _ (ar_cwksp _ _ HA) E) as (_ & _ & _ & H3 & _). destruct (Ho E) as [H1 H2]. destruct (up_spec 64 (objectEnd (ar_ws A))) as [Hu _]; [lia|]. lia.
  - destruct (Hr E) as [H1 H2]. destruct (ok_tables _ _ (ar_cwksp _ _ HA) E) as (_ & _ & ? & _ & ? & _). lia.
Qed.

Lemma fits_le ws n R : fits ws R -> n <= R -> fits ws n.
Proof. unfold fits. lia. Qed.

(** A workspace that took [n] bytes from the end, or for tables, keeps its account. *)
Lemma account_end A S R k n n' al ph io m' : account A S R -> 0 < n' <= R -> 1 <= rank ph -> let ws := ar_ws A in let p := allocStart ws - n' in
  arena_ok D (got k p n al A (took (set_phase ph (opened ws)) n' io) m') -> 0 < p ->
  account (got k p n al A (took (set_phase ph (opened ws)) n' io) m') (S + n') (R - n') /\ requests (got k p n al A (took (set_phase ph (opened ws)) n' io) m') = requests A ++ [(k, n)].
Proof.
  intros HS Hn Hr ws p Hok Hp. destruct (account_fits A S R HS ltac:(lia)) as (Ht & Hf & Hu). fold ws in Ht, Hf, Hu. destruct (opened_fields ws ph) as (W1 & W2 & W3 & W4 & W5 & W6).
  assert (p =? NULL = false) as Hnn by (apply Z.eqb_neq; unfold NULL; lia). split.
  - constructor; [done| | |].
    + cbn [got ar_ws took]. unfold took. wsimpl. unfold opened. pose proof (acc_never_failed _ _ _ HS). by destruct (bool_decide _).
    + cbn [got ar_ws]. intros E. change (phase (set_phase ph (opened ws)) = ZSTD_cwksp_alloc_objects) in E. rewrite W6 in E. rewrite E in Hr. by cbn in Hr.
    + intros _. cbn [got ar_ws]. unfold took, initial. cbn [set_initOnceStart set_allocStart set_tableValidEnd tableEnd workspace workspaceEnd allocStart]. rewrite W1, W2, W4, W5. fold (initial ws). unfold fits in Hf. lia.
  - unfold requests, got. cbn [ar_live]. rewrite Hnn. cbn [rev]. by rewrite map_app.
Qed.

Lemma account_table A S R n ph : account A S R -> 0 <= n <= R -> 1 <= rank ph -> let ws := ar_ws A in let w := set_tableEnd (table_top ws + n) (set_phase ph (opened ws)) in
  arena_ok D (got Table (table_top ws) n 64 A w (ar_mem A)) -> 0 < table_top ws ->
  account (got Table (table_top ws) n 64 A w (ar_mem A)) (S + n) (R - n) /\ requests (got Table (table_top ws) n 64 A w (ar_mem A)) = requests A ++ [(Table, n)].
Proof.
  intros HS Hn Hr ws w Hok Hp. destruct (account_fits A S R HS ltac:(lia)) as (Ht & Hf & Hu). fold ws in Ht, Hf, Hu. destruct (opened_fields ws ph) as (W1 & W2 & W3 & W4 & W5 & W6).
  assert (table_top ws =? NULL = false) as Hnn by (apply Z.eqb_neq; unfold NULL; lia). split.
  - constructor; [done| | |].
    + cbn [got ar_ws]. subst w. wsimpl. unfold opened. pose proof (acc_never_failed _ _ _ HS). by destruct (bool_decide _).
    + cbn [got ar_ws]. intros E. change (phase (set_phase ph (opened ws)) = ZSTD_cwksp_alloc_objects) in E. rewrite W6 in E. rewrite E in Hr. by cbn in Hr.
    + intros _. cbn [got ar_ws]. subst w. unfold initial. cbn [set_tableEnd tableEnd workspace workspaceEnd allocStart]. rewrite W2, W4, W5. fold (initial ws). unfold fits in Hf. lia.
  - unfold requests, got. cbn [ar_live]. rewrite Hnn. cbn [rev]. by rewrite map_app.
Qed.

(** A request for nothing only advances the phase. *)
Lemma account_open A S R ph : account A S R -> 0 <= R -> 1 <= rank ph -> rank (phase (ar_ws A)) <= rank ph -> account (with_ws (set_phase ph (opened (ar_ws A))) A) S R.
Proof.
  intros HS HR Hr Hle. destruct (account_fits A S R HS HR) as (Ht & Hf & Hu). destruct (opened_fields (ar_ws A) ph) as (W1 & W2 & W3 & W4 & W5 & W6). constructor.
  - apply opened_arena; try done. apply (acc_ok _ _ _ HS).
  - cbn [with_ws ar_ws]. wsimpl. unfold opened. pose proof (acc_never_failed _ _ _ HS). by destruct (bool_decide _).
  - cbn [with_ws ar_ws]. rewrite W6. intros ->. by cbn in Hr.
  - intros _. cbn [with_ws ar_ws]. unfold initial. rewrite W1, W2, W4, W5. fold (initial (ar_ws A)). unfold fits in Hf. lia.
Qed.

Lemma with_ws_got k n al A ws : got k NULL n al A ws (ar_mem A) = with_ws ws A.
Proof. done. Qed.

Lemma table_top_pos A : arena_ok D A -> 0 < table_top (ar_ws A).
Proof.
  intros HA. destruct (arena_facts D A HA) as (F1 & _ & _). destruct (up_spec 64 (objectEnd (ar_ws A))) as [? _]; [lia|]. unfold table_top in *.
  case_bool_decide as E'; [lia|]. destruct (ok_tables _ _ (ar_cwksp _ _ HA) E') as (_ & _ & ? & _). lia.
Qed.

(** A reservation from the end that fits. *)
Lemma account_reserve A S R k n n' al ph : account A S R ->
  2 <= rank ph -> rank (phase (ar_ws A)) <= rank ph -> k <> Object -> k <> Table -> k <> InitOnce -> 0 <= n <= n' -> n' <= R -> (n = 0 -> n' = 0) ->
  (rank ph <= 2 -> n' mod 64 = 0 /\ al = 64) -> (2 < rank ph -> al = 1) ->
  exists p ws', ZSTD_cwksp_reserve_internal D (ar_ws A) n' ph = Ok (p, ws') /\ (rank ph <= 2 -> 0 <= p /\ p mod 64 = 0) /\
    account (got k p n al A ws' (ar_mem A)) (S + n') (R - n') /\ requests (got k p n al A ws' (ar_mem A)) = requests A ++ (if n =? 0 then [] else [(k, n)]) /\ phase ws' = ph.
Proof.
  intros HS Hr Hle K1 K2 K3 Hn HR H0 Ha2 Ha3. destruct (account_fits A S R HS ltac:(lia)) as (Ht & Hf & Hu). pose proof (acc_ok _ _ _ HS) as HA. pose proof (fits_le _ n' R Hf HR) as Hfn.
  destruct (reserve_end_arena D A n n' k al ph HA Hr Hle K1 K2 K3 Hn Ha2 Ha3 (fun _ => Hfn)) as (p & ws' & E & Hok & _ & Hpal). exists p, ws'. split; [done|]. split; [done|].
  pose proof (reserve_internal_spec D A n' ph HA ltac:(lia) Hle ltac:(lia) (fun _ => Hfn)) as Hsp. cbv zeta in Hsp. rewrite E in Hsp. unfold fits in Hfn. rewrite (proj2 (Z.ltb_ge _ _)) in Hsp by lia.
  destruct (opened_fields (ar_ws A) ph) as (W1 & W2 & W3 & W4 & W5 & W6). destruct (Z.eqb_spec n' 0) as [E0|Hne].
  - injection Hsp as -> ->. assert (n = 0) as -> by lia. rewrite with_ws_got, E0, Z.add_0_r, Z.sub_0_r. split; [by apply account_open; try lia|]. split; [by rewrite app_nil_r|done].
  - rewrite (proj2 (Z.ltb_ge _ _)) in Hsp by lia. injection Hsp as -> ->. pose proof (table_top_pos A HA).
    rewrite (proj2 (Z.eqb_neq n 0)) by lia. destruct (account_end A S R k n n' al ph (initOnceStart (ar_ws A)) (ar_mem A) HS) as [H1 H2]; try done; lia.
Qed.

Lemma account_init_once A S R n : account A S R -> rank (phase (ar_ws A)) <= 1 -> 0 <= n < 2 ^ 31 -> up 64 n <= R ->
  exists A', run D (ReserveInitOnce n) A = Ok A' /\ account A' (S + up 64 n) (R - up 64 n) /\ requests A' = requests A ++ served (ReserveInitOnce n) /\ rank (phase (ar_ws A')) = 1.
Proof.
  intros HS Hle Hn HR. destruct (up_spec 64 n) as [Hu1 Hu2]; [lia|]. destruct (account_fits A S R HS ltac:(lia)) as (Ht & Hf & Hu). pose proof (acc_ok _ _ _ HS) as HA. pose proof (fits_le _ _ R Hf HR) as Hfn.
  destruct (reserve_init_once_arena D A n HA Hn Hle (fun _ => Hfn)) as (p & ws' & m' & E & Hok & _). cbn [run served]. rewrite E. cbn [obind]. eexists. split; [done|].
  set (ph := ZSTD_cwksp_alloc_aligned_init_once). pose proof (reserve_internal_spec D A (up 64 n) ph HA ltac:(done) Hle ltac:(lia) (fun _ => Hfn)) as Hsp. cbv zeta in Hsp. pose proof Hfn as Hfn'. unfold fits in Hfn'.
  rewrite (proj2 (Z.ltb_ge _ _)) in Hsp by lia. unfold ZSTD_cwksp_reserve_aligned_init_once in E. pose proof word_size_big. rewrite cwksp_align64 in E by lia. cbn [obind] in E. fold ph in E. rewrite Hsp in E. clear Hsp.
  destruct (opened_fields (ar_ws A) ph) as (W1 & W2 & W3 & W4 & W5 & W6). destruct (Z.eqb_spec (up 64 n) 0) as [E0|Hne].
  - cbn [obind] in E. rewrite dassert_true in E by done. cbn [obind Z.eqb NULL negb andb] in E. injection E as <- <- <-. assert (n = 0) as -> by lia. rewrite with_ws_got, E0, Z.add_0_r, Z.sub_0_r.
    split; [by apply account_open; try lia|]. split; [by rewrite app_nil_r|done].
  - rewrite (proj2 (Z.ltb_ge _ _)) in E by lia. cbn [obind] in E. pose proof (table_top_pos A HA) as Hpos. assert (0 < n) by (destruct (Z.eq_dec n 0) as [->|]; [by vm_compute in Hne|lia]).
    rewrite dassert_true in E. 2:{ intros _. apply land63; [lia|]. apply mod_sub_multiple; [lia| |done]. apply (ok_aligned _ _ (ar_cwksp _ _ HA)). lia. }
    cbn [obind] in E. rewrite (proj2 (Z.eqb_neq n 0)) by lia.
    assert (exists io, p = allocStart (ar_ws A) - up 64 n /\ ws' = took (set_phase ph (opened (ar_ws A))) (up 64 n) io) as (io & -> & ->).
    { destruct (_ && _); [apply bind_Ok in E as (m2 & _ & E); injection E as <- <- <-; by exists (allocStart (ar_ws A) - up 64 n)|injection E as <- <- <-; by eexists]. }
    destruct (account_end A S R InitOnce n (up 64 n) 64 ph io m' HS) as [H1 H2]; try done; lia.
Qed.

Lemma account_run A S R c cs : account A S R -> ordered (rank (phase (ar_ws A))) (c :: cs) -> 0 <= cost c <= R ->
  exists A', run D c A = Ok A' /\ account A' (S + cost c) (R - cost c) /\ requests A' = requests A ++ served c /\ ordered (rank (phase (ar_ws A'))) cs.
Proof.
  intros HS Hord HR. pose proof (acc_ok _ _ _ HS) as HA. pose proof word_size_big. destruct (account_fits A S R HS ltac:(lia)) as (Ht & Hf & Hu). pose proof (fits_le _ (cost c) R Hf ltac:(lia)) as Hfn.
  destruct c as [n| |n|n|n|n| | | | | | | |]; cbn [ordered] in Hord; try done; cbn [cost] in *.
  - destruct Hord as (Hph & Hn & Hm & Hord). assert (phase (ar_ws A) = ZSTD_cwksp_alloc_objects) as E by (by destruct (phase _)). destruct (acc_objects _ _ _ HS E) as [Ho1 Ho2].
    destruct (ok_objects _ _ (ar_cwksp _ _ HA) E) as (O1 & _ & _ & O4 & _). destruct (arena_facts D A HA) as (F1 & F2 & F3).
    assert (allowed D (ReserveObject n) A) as Hal by (cbn [allowed]; unfold object_fits; split; [done|]; split; [done|]; lia).
    destruct (run_object D A n HA Hal) as (A' & E1 & Hok). exists A'. split; [done|]. cbn [run] in E1. pose proof (reserve_object_spec D A n HA Hn Hm) as Hsp. cbv zeta in Hsp.
    rewrite bool_decide_eq_true_2 in Hsp by done. rewrite (proj2 (Z.leb_le _ _)) in Hsp by lia. cbn [andb] in Hsp. rewrite Hsp in E1. cbn [obind] in E1. injection E1 as <-. split; [|split].
    + constructor; [done|exact (acc_never_failed _ _ _ HS)| |intros Hp; by destruct Hp]. intros _. unfold got. wsimpl. lia.
    + unfold requests, got. cbn [ar_live]. rewrite (proj2 (Z.eqb_neq _ _)) by (unfold NULL; lia). cbn [rev]. by rewrite map_app.
    + cbn [got ar_ws]. wsimpl. by rewrite E.
  - destruct Hord as (Hn & Hm & Hord). set (ph := if bool_decide (phase (ar_ws A) = ZSTD_cwksp_alloc_objects) then ZSTD_cwksp_alloc_aligned_init_once else phase (ar_ws A)).
    assert (1 <= rank ph /\ rank ph = Z.max 1 (rank (phase (ar_ws A)))) as [Hr Hre] by (subst ph; destruct (phase (ar_ws A)); by vm_compute).
    destruct (run_table D A n HA) as (A' & E1 & Hok & _); [by split|]. exists A'. split; [done|]. cbn [run] in E1. pose proof (reserve_table_spec D A n HA Hn Hm (fun _ => Hfn)) as Hsp. cbv zeta in Hsp. fold ph in Hsp.
    unfold fits in Hfn. rewrite (proj2 (Z.ltb_ge _ _)) in Hsp by lia. rewrite (proj2 (Z.ltb_ge _ _)) in Hsp by lia. rewrite Hsp in E1. cbn [obind] in E1. injection E1 as <-.
    destruct (account_table A S R n ph HS HR Hr Hok (table_top_pos A HA)) as [H1 H2]. split; [done|]. split; [done|]. cbn [got ar_ws]. wsimpl. by rewrite Hre.
  - destruct Hord as (Hph & Hn & Hord). destruct (account_init_once A S R n HS Hph Hn ltac:(lia)) as (A' & E1 & H1 & H2 & H3). exists A'. rewrite H3. by split_and!.
  - destruct Hord as (Hph & Hn & Hord). destruct (up_spec 64 n) as [Hu1 Hu2]; [lia|].
    destruct (account_reserve A S R Aligned n (up 64 n) 64 ZSTD_cwksp_alloc_aligned HS) as (p & ws' & E1 & Hp & H1 & H2 & H3); try done; try lia; [intros ->; by vm_compute|].
    cbn [run]. unfold ZSTD_cwksp_reserve_aligned64. rewrite cwksp_align64 by lia. cbn [obind]. rewrite E1. cbn [obind]. destruct (Hp ltac:(done)). rewrite dassert_true by (intros; by apply land63).
    cbn [obind]. eexists. split; [done|]. split; [done|]. split; [done|]. cbn [got ar_ws]. by rewrite H3.
  - destruct Hord as (Hn & Hord). destruct (account_reserve A S R Buffer n n 1 ZSTD_cwksp_alloc_buffers HS) as (p & ws' & E1 & Hp & H1 & H2 & H3); try done; try lia; [destruct (phase _); by vm_compute|].
    cbn [run]. unfold ZSTD_cwksp_reserve_buffer. rewrite E1. cbn [obind]. eexists. split; [done|]. split; [done|]. split; [done|]. cbn [got ar_ws]. by rewrite H3.
Qed.

Lemma ordered_cost c cs ph : ordered ph (c :: cs) -> 0 <= cost c.
Proof. destruct c as [n| |n|n|n|n| | | | | | | |]; cbn [ordered cost]; intros; destruct_and?; try lia; pose proof (up_spec 64 n); lia. Qed.

Lemma ordered_tail c cs ph : ordered ph (c :: cs) -> exists ph', ordered ph' cs.
Proof. destruct c; cbn [ordered]; intros; destruct_and?; try done; by eexists. Qed.

Lemma ordered_costs cs ph : ordered ph cs -> 0 <= costs cs.
Proof.
  revert ph. induction cs as [|c cs IH]; intros ph Hord; [done|]. cbn [costs foldr]. fold (costs cs). pose proof (ordered_cost c cs ph Hord).
  destruct (ordered_tail c cs ph Hord) as [ph' Hd]. specialize (IH ph' Hd). lia.
Qed.

(** The space used is the cost and at most twice 63 bytes of alignment. *)
Lemma account_used A S R : account A S R -> 0 <= S -> 0 <= R -> S + 128 < word_size -> S <= ZSTD_cwksp_used (ar_ws A) <= S + 126.
Proof.
  intros HS H0 HR Hw. pose proof (acc_ok _ _ _ HS) as HA. destruct (arena_facts D A HA) as (F1 & F2 & F3). unfold ZSTD_cwksp_used.
  assert (exists u, S <= u < S + 64 /\ tableEnd (ar_ws A) - workspace (ar_ws A) + (initial (ar_ws A) - allocStart (ar_ws A)) = u /\ 0 <= tableEnd (ar_ws A) - workspace (ar_ws A) /\ allocStart (ar_ws A) <= initial (ar_ws A)) as (u & Hu & Eu & Ht & Ha).
  { eexists. split; [|split; [reflexivity|]]; destruct (decide (phase (ar_ws A) = ZSTD_cwksp_alloc_objects)) as [E|E];
      first [destruct (acc_objects _ _ _ HS E), (ok_objects _ _ (ar_cwksp _ _ HA) E) as (_ & ? & _ & ? & _)|destruct (acc_rest _ _ _ HS E), (ok_tables _ _ (ar_cwksp _ _ HA) E) as (_ & _ & ? & _ & ? & _)]; lia. }
  rewrite (size_t_in (tableEnd _ - _)) by lia. rewrite (size_t_in (workspaceEnd _ - _)) by lia. rewrite size_t_in by lia. lia.
Qed.

Lemma account_run_all cs : forall A S R, account A S R -> ordered (rank (phase (ar_ws A))) cs -> costs cs <= R ->
  0 <= costs cs /\ exists A', run_all cs A = Ok A' /\ account A' (S + costs cs) (R - costs cs) /\ requests A' = requests A ++ concat (map served cs).
Proof.
  induction cs as [|c cs IH]; intros A S R HS Hord HR; cbn [run_all costs foldr map concat] in *.
  - split; [done|]. exists A. rewrite Z.add_0_r, Z.sub_0_r, app_nil_r. done.
  - fold (costs cs) in *. pose proof (ordered_costs _ _ Hord) as Hcs. pose proof (ordered_cost c cs _ Hord) as Hc.
    assert (0 <= costs cs) as Hcs' by (destruct (ordered_tail c cs _ Hord) as [ph' Hd]; exact (ordered_costs _ _ Hd)).
    split; [lia|]. destruct (account_run A S R c cs HS Hord ltac:(lia)) as (A1 & E1 & H1 & H2 & H3). destruct (IH A1 _ _ H1 H3 ltac:(lia)) as (_ & A' & E' & H4 & H5). exists A'.
    rewrite E1. cbn [obind]. split; [done|]. split; [by replace (S + (cost c + costs cs)) with (S + cost c + costs cs) by lia; replace (R - (cost c + costs cs)) with (R - cost c - costs cs) by lia|].
    by rewrite H5, H2, <- app_assoc.
Qed.
End Budget.

(** A workspace of the estimated size serves all its requests.  If the room that [ZSTD_cwksp_aligned64_alloc_size] and the sizes of the other
    requests add up to, plus [ZSTD_cwksp_slack_space_required], is at most the size of a new workspace, then requests made in the order of the phases all
    succeed, with or without assertions and wherever the workspace lies; and if it is the size, the space used is within the bounds that
    [ZSTD_cwksp_estimated_space_within_bounds] tests. *)
Theorem ZSTD_cwksp_enough_space `{P : Platform} D ws0 start size static m b cs :
  0 < start -> start mod sizeof_ptr = 0 -> start + size < word_size -> byte_mem m -> 0 < b -> ordered 0 cs -> costs cs + ZSTD_cwksp_slack_space_required <= size ->
  exists ws A, ZSTD_cwksp_init D ws0 start size static = Ok ws /\ run_all D cs {| ar_ws := ws; ar_mem := m; ar_live := []; ar_bound := b |} = Ok A /\
    ZSTD_cwksp_reserve_failed (ar_ws A) = false /\ requests A = concat (map served cs) /\
    (costs cs + ZSTD_cwksp_slack_space_required = size -> ZSTD_cwksp_estimated_space_within_bounds (ar_ws A) size = true).
Proof.
  intros Hs1 Hs2 Hs3 Hm Hb Hord Hcost. unfold ZSTD_cwksp_slack_space_required, ZSTD_CWKSP_ALIGNMENT_BYTES in *. set (init := fresh start size static).
  pose proof (Z.mod_pos_bound (start + size) 64 ltac:(lia)) as Hmod.
  pose proof (ordered_costs cs 0 Hord) as Hc0.
  assert (start_ok D start size) as Hst by (repeat split; try done; lia). rewrite (init_spec D ws0 start size static Hst). exists init.
  assert (account D {| ar_ws := init; ar_mem := m; ar_live := []; ar_bound := b |} 0 (costs cs)) as HS.
  { constructor; [by apply fresh_arena|done| |done]. intros _. subst init. unfold fresh. wsimpl. lia. }
  destruct (account_run_all D cs _ 0 (costs cs) HS Hord ltac:(lia)) as (_ & A & E & HA & Hreq). exists A. split; [done|]. split; [done|]. split; [exact (acc_never_failed _ _ _ _ HA)|]. split; [done|].
  intros Hsz. pose proof (account_used D A _ _ HA ltac:(lia) ltac:(lia) ltac:(lia)) as Hu. unfold ZSTD_cwksp_estimated_space_within_bounds, ZSTD_cwksp_slack_space_required, ZSTD_CWKSP_ALIGNMENT_BYTES.
  rewrite size_t_in by lia. apply andb_true_iff. split; apply Z.leb_le; lia.
Qed.

(** Two objects, tables around a tag table, frequencies and two buffers, at an address that is a multiple of 8 only. *)
Lemma ZSTD_cwksp_enough_space_witness : let P := arm64_v8a in
  let cs := [ReserveObject 40; ReserveObject 8; ReserveTable 64; ReserveInitOnce 16; ReserveTable 128; ReserveAligned64 100; ReserveBuffer 0; ReserveBuffer 33] in
  costs cs = 465 /\ exists ws A, ZSTD_cwksp_init 1 zero_cwksp 1000 593 ZSTD_cwksp_dynamic_alloc = Ok ws /\
    run_all 1 cs {| ar_ws := ws; ar_mem := fun _ => None; ar_live := []; ar_bound := 1 |} = Ok A /\
    requests A = [(Object, 40); (Object, 8); (Table, 64); (InitOnce, 16); (Table, 128); (Aligned, 100); (Buffer, 33)].
Proof.
  intros P cs. split; [reflexivity|].
  destruct (ZSTD_cwksp_enough_space (P := P) 1 zero_cwksp 1000 593 ZSTD_cwksp_dynamic_alloc (fun _ => None) 1 cs) as (ws & A & E1 & E2 & _ & E3 & _); try done.
  exists ws, A. split; [exact E1|]. split; [exact E2|exact E3].
Defined.

(** ** Static contexts *)

Definition HUF_WORKSPACE_SIZE : Z := Z.shiftl 8 10 + 512.
Definition COMPRESS_SEQUENCES_WORKSPACE_SIZE : Z := 4 * (MaxSeq + 2).
Definition ENTROPY_WORKSPACE_SIZE : Z := HUF_WORKSPACE_SIZE + COMPRESS_SEQUENCES_WORKSPACE_SIZE.
Definition ZSTD_SLIPBLOCK_WORKSPACESIZE : Z := 8208.
Definition TMP_WORKSPACE_SIZE : Z := Z.max ENTROPY_WORKSPACE_SIZE ZSTD_SLIPBLOCK_WORKSPACESIZE.

(** The fields of a compression context that its set-up assigns. *)
Record ZSTD_CCtx := {
  cctx_address : Z;
  cctx_workspace : ZSTD_cwksp;
  staticSize : Z;
  prevCBlock : Z;
  nextCBlock : Z;
  tmpWorkspace : Z;
  tmpWkspSize : Z
}.

Section Static.
(** The sizes of the two structures, which the compiler chooses. *)
Context `{P : Platform} (D sizeof_CCtx sizeof_compressedBlockState : Z).

(** The context, if any; its [bmi2] flag depends on the processor and is left out. *)
Definition ZSTD_initStaticCCtx (ws0 : ZSTD_cwksp) (start workspaceSize : Z) : res (option ZSTD_CCtx) :=
  if workspaceSize <=? sizeof_CCtx then Ok None
  else if negb (Z.land start 7 =? 0) then Ok None
  else
    let* ws := ZSTD_cwksp_init D ws0 start workspaceSize ZSTD_cwksp_static_alloc in
    let* (cctx, ws) := ZSTD_cwksp_reserve_object D ws sizeof_CCtx in
    if cctx =? NULL then Ok None
    else
      let (ws, _) := ZSTD_cwksp_move ws in
      if negb (ZSTD_cwksp_check_available ws (TMP_WORKSPACE_SIZE + 2 * sizeof_compressedBlockState)) then Ok None
      else
        let* (prev, ws) := ZSTD_cwksp_reserve_object D ws sizeof_compressedBlockState in
        let* (next, ws) := ZSTD_cwksp_reserve_object D ws sizeof_compressedBlockState in
        let* (tmp, ws) := ZSTD_cwksp_reserve_object D ws TMP_WORKSPACE_SIZE in
        Ok (Some {| cctx_address := cctx; cctx_workspace := ws; staticSize := workspaceSize; prevCBlock := prev; nextCBlock := next; tmpWorkspace := tmp; tmpWkspSize := TMP_WORKSPACE_SIZE |}).

Hypothesis Hcctx : 0 < sizeof_CCtx < 2 ^ 24 /\ sizeof_CCtx mod 8 = 0.
Hypothesis Hblock : 0 < sizeof_compressedBlockState < 2 ^ 24 /\ sizeof_compressedBlockState mod 8 = 0.

Lemma mod8_ptr n : n mod 8 = 0 -> n mod sizeof_ptr = 0.
Proof. intros Hn. unfold sizeof_ptr. destruct sizeof_size_t_cases as [-> | ->]; [|done]. Z.div_mod_to_equations. lia. Qed.

(** Objects of a workspace that has nothing else. *)
Definition with_objects (n start size : Z) (failed : bool) : ZSTD_cwksp :=
  {| workspace := start; workspaceEnd := start + size; objectEnd := start + n; tableEnd := start + n; tableValidEnd := start + n;
     allocStart := start + size - (start + size) mod 64; initOnceStart := start + size - (start + size) mod 64; allocFailed := failed;
     workspaceOversizedDuration := 0; phase := ZSTD_cwksp_alloc_objects; isStatic := ZSTD_cwksp_static_alloc |}.

Definition object_arena_of n start size failed : arena := {| ar_ws := with_objects n start size failed; ar_mem := fun _ => None; ar_live := []; ar_bound := 1 |}.

Lemma objects_ok n start size failed : start_ok D start size -> 0 <= n <= size -> n mod sizeof_ptr = 0 -> (1 <= D -> start + n <= start + size - (start + size) mod 64) ->
  arena_ok D (object_arena_of n start size failed).
Proof.
  intros (H1 & H2 & H3 & H4 & H5) Hn Hm HD. constructor; cbn [object_arena_of ar_ws ar_live ar_mem ar_bound]; try done; try by constructor.
  - constructor; unfold initial, with_objects; wsimpl; try done; try lia.
    + intros _. split; [apply mod_add_multiple; [apply sizeof_ptr_pos|done..]|]. by split_and!.
    + intros _. apply down_multiple. lia.
  - intros a Ha. unfold initial, with_objects in Ha. wsimpl. lia.
  - by apply bounded_empty.
Qed.

Lemma next_object n k start size : start_ok D start size -> 0 <= n <= size -> n mod sizeof_ptr = 0 -> (1 <= D -> start + n <= start + size - (start + size) mod 64) ->
  0 <= k < 2 ^ 31 -> k mod sizeof_ptr = 0 -> forall failed,
  ZSTD_cwksp_reserve_object D (with_objects n start size failed) k =
  if n + k <=? size then Ok (start + n, with_objects (n + k) start size failed) else Ok (NULL, with_objects n start size true).
Proof.
  intros Hs Hn Hm HD Hk Hkm failed. pose proof (reserve_object_spec D _ k (objects_ok n start size failed Hs Hn Hm HD) Hk Hkm) as Hsp. cbv zeta in Hsp. cbn [object_arena_of ar_ws] in Hsp. rewrite Hsp.
  unfold with_objects. wsimpl. rewrite bool_decide_eq_true_2 by done. cbn [andb]. unfold set_tableValidEnd, set_tableEnd, set_objectEnd, set_allocFailed. wsimpl.
  destruct (Z.leb_spec (start + n + k) (start + size)), (Z.leb_spec (n + k) size); try lia; [|done]. by rewrite Z.add_assoc.
Qed.

(** With room for the context, its three blocks and the alignment, all of them are reserved, one after the other. *)
Lemma initStaticCCtx_large ws0 start size : let B := sizeof_compressedBlockState in let total := sizeof_CCtx + 2 * B + TMP_WORKSPACE_SIZE in
  0 < start -> start mod 8 = 0 -> start + size < word_size -> total + 63 <= size ->
  exists c, ZSTD_initStaticCCtx ws0 start size = Ok (Some c) /\ cctx_address c = start /\ prevCBlock c = start + sizeof_CCtx /\ nextCBlock c = prevCBlock c + B /\
    tmpWorkspace c = nextCBlock c + B /\ cctx_workspace c = with_objects total start size false.
Proof.
  intros B total Hs Hm Hw Hsz. destruct Hcctx as [Hc1 Hc2], Hblock as [Hb1 Hb2]. fold B in Hb1, Hb2. assert (TMP_WORKSPACE_SIZE = 8920) as Etmp by reflexivity.
  unfold ZSTD_initStaticCCtx. rewrite (proj2 (Z.leb_gt _ _)) by lia. change 7 with (2 ^ 3 - 1). rewrite land_mask_mod by lia. change (2 ^ 3) with 8. rewrite Hm. cbn [Z.eqb negb]. fold B.
  pose proof (Z.mod_pos_bound (start + size) 64 ltac:(lia)) as Hmod. assert (start_ok D start size) as Hst by (repeat split; try done; [by apply mod8_ptr|lia..]).
  pose proof (mod8_ptr _ Hc2) as Mc. pose proof (mod8_ptr _ Hb2) as Mb. pose proof sizeof_ptr_pos as Hpp. pose proof word_size_big.
  assert ((sizeof_CCtx + B) mod sizeof_ptr = 0) as M2 by (by apply mod_add_multiple). assert ((sizeof_CCtx + B + B) mod sizeof_ptr = 0) as M3 by (by apply mod_add_multiple).
  rewrite (init_spec D ws0 start size _ Hst). cbn [obind]. replace (fresh start size ZSTD_cwksp_static_alloc) with (with_objects 0 start size false) by (unfold fresh, with_objects; by rewrite Z.add_0_r).
  rewrite next_object by (try done; lia). zdecide. cbn [obind]. rewrite Z.add_0_r, Z.add_0_l. rewrite (proj2 (Z.eqb_neq start NULL)) by (unfold NULL; lia). cbn [ZSTD_cwksp_move].
  unfold ZSTD_cwksp_check_available, ZSTD_cwksp_available_space. replace (allocStart (with_objects sizeof_CCtx start size false) - tableEnd (with_objects sizeof_CCtx start size false))
    with (size - (start + size) mod 64 - sizeof_CCtx) by (unfold with_objects; wsimpl; lia). rewrite size_t_in by lia. rewrite (proj2 (Z.leb_le _ _)) by lia. cbn [negb].
  rewrite next_object by (try done; lia). zdecide. cbn [obind]. rewrite next_object by (try done; lia). zdecide. cbn [obind].
  rewrite next_object by (done || lia || (rewrite Etmp; split; lia) || by apply mod8_ptr). zdecide. cbn [obind]. eexists. split; [done|]. cbn [cctx_address prevCBlock nextCBlock tmpWorkspace cctx_workspace].
  split; [done|]. split; [done|]. split; [lia|]. split; [lia|]. f_equal. subst total. lia.
Qed.

(** When the context ends beyond the last 64-byte boundary of a release build, the room left is a negative difference, read as a huge [size_t]. *)
Lemma initStaticCCtx_small ws0 start size : D < 1 -> 0 < start -> start mod 64 = 0 -> start + size < word_size -> sizeof_CCtx < size < up 64 sizeof_CCtx -> size < sizeof_CCtx + sizeof_compressedBlockState ->
  size < sizeof_CCtx + TMP_WORKSPACE_SIZE ->
  exists c, ZSTD_initStaticCCtx ws0 start size = Ok (Some c) /\ prevCBlock c = NULL /\ nextCBlock c = NULL /\ tmpWorkspace c = NULL.
Proof.
  intros HD Hs Hm Hw Hsz Hb Ht. destruct Hcctx as [Hc1 Hc2], Hblock as [Hb1 Hb2]. set (B := sizeof_compressedBlockState) in *. assert (TMP_WORKSPACE_SIZE = 8920) as Etmp by reflexivity.
  assert (start mod 8 = 0) as Hm8 by (Z.div_mod_to_equations; lia).
  unfold ZSTD_initStaticCCtx. rewrite (proj2 (Z.leb_gt _ _)) by lia. change 7 with (2 ^ 3 - 1). rewrite land_mask_mod by lia. change (2 ^ 3) with 8. rewrite Hm8. cbn [Z.eqb negb]. fold B.
  assert (start_ok D start size) as Hst by (repeat split; try done; [by apply mod8_ptr|lia..]). pose proof (mod8_ptr _ Hc2) as Mc. pose proof (mod8_ptr _ Hb2) as Mb. pose proof word_size_big.
  rewrite (init_spec D ws0 start size _ Hst). cbn [obind]. replace (fresh start size ZSTD_cwksp_static_alloc) with (with_objects 0 start size false) by (unfold fresh, with_objects; by rewrite Z.add_0_r).
  rewrite next_object by (try done; lia). zdecide. cbn [obind]. rewrite Z.add_0_r, Z.add_0_l. rewrite (proj2 (Z.eqb_neq start NULL)) by (unfold NULL; lia). cbn [ZSTD_cwksp_move].
  assert (exists k, 0 < k < 64 /\ allocStart (with_objects sizeof_CCtx start size false) - tableEnd (with_objects sizeof_CCtx start size false) = - k) as (k & Hk & Ek).
  { unfold with_objects. wsimpl. pose proof (Z.mod_pos_bound (start + size) 64 ltac:(lia)). exists (sizeof_CCtx - (size - (start + size) mod 64)). split; [|lia].
    unfold up in Hsz. clear -Hsz Hm. Z.div_mod_to_equations. lia. }
  unfold ZSTD_cwksp_check_available, ZSTD_cwksp_available_space. rewrite Ek. assert (size_t (- k) = word_size - k) as -> by (unfold size_t, wrap; fold word_size; rewrite <- (Z.mod_add _ 1) by lia; rewrite Z.mod_small; lia).
  rewrite (proj2 (Z.leb_le _ _)) by lia. cbn [negb].
  rewrite next_object by (done || lia). zdecide. cbn [obind]. rewrite next_object by (done || lia). zdecide. cbn [obind].
  rewrite next_object by (done || lia || (rewrite Etmp; split; lia) || by apply mod8_ptr). zdecide. cbn [obind]. by eexists.
Qed.
End Static.

(** C40: [ZSTD_initStaticCCtx] on a workspace large enough reserves the context, its two block states and its scratch space one after the other.  On a
    workspace only slightly larger than the context it does not return [NULL]: if the workspace ends before the next 64-byte boundary, the room left is the
    difference [allocStart - tableEnd] of a smaller and a larger pointer, which passes the check as a huge [size_t]; the three reservations then fail
    and the context returned has null pointers for them. *)
Theorem ZSTD_initStaticCCtx_room `{P : Platform} D sizeof_CCtx sizeof_compressedBlockState ws0 start size :
  0 < sizeof_CCtx < 2 ^ 24 -> sizeof_CCtx mod 8 = 0 -> 64 <= sizeof_compressedBlockState < 2 ^ 24 -> sizeof_compressedBlockState mod 8 = 0 ->
  0 < start -> start mod 8 = 0 -> start + size < word_size ->
  (sizeof_CCtx + 2 * sizeof_compressedBlockState + TMP_WORKSPACE_SIZE + 63 <= size ->
    exists c, ZSTD_initStaticCCtx D sizeof_CCtx sizeof_compressedBlockState ws0 start size = Ok (Some c) /\ cctx_address c = start /\ prevCBlock c = start + sizeof_CCtx /\
      nextCBlock c = prevCBlock c + sizeof_compressedBlockState /\ tmpWorkspace c = nextCBlock c + sizeof_compressedBlockState /\
      ZSTD_cwksp_reserve_failed (cctx_workspace c) = false) /\
  (D < 1 -> start mod 64 = 0 -> sizeof_CCtx < size < up 64 sizeof_CCtx ->
    exists c, ZSTD_initStaticCCtx D sizeof_CCtx sizeof_compressedBlockState ws0 start size = Ok (Some c) /\ prevCBlock c = NULL /\ nextCBlock c = NULL /\ tmpWorkspace c = NULL).
Proof.
  intros H1 H2 H3 H4 Hs Hm Hw. assert (0 < sizeof_compressedBlockState < 2 ^ 24) as H3' by lia. split.
  - intros Hsz. destruct (initStaticCCtx_large D sizeof_CCtx sizeof_compressedBlockState (conj H1 H2) (conj H3' H4) ws0 start size Hs Hm Hw Hsz) as (c & E & C1 & C2 & C3 & C4 & C5).
    exists c. rewrite C5. by split_and!.
  - intros HD Hm64 Hsz. destruct (up_spec 64 sizeof_CCtx) as [Hu _]; [lia|]. assert (TMP_WORKSPACE_SIZE = 8920) as Etmp by reflexivity.
    apply (initStaticCCtx_small D sizeof_CCtx sizeof_compressedBlockState (conj H1 H2) (conj H3' H4)); try done; lia.
Qed.

(** A context of 5288 bytes in a workspace of 5296, and in one of 30000. *)
Lemma ZSTD_initStaticCCtx_room_witness : let P := arm64_v8a in
  (exists c, ZSTD_initStaticCCtx 0 5288 4600 zero_cwksp 4096 30000 = Ok (Some c) /\ tmpWorkspace c = 18584) /\
  exists c, ZSTD_initStaticCCtx 0 5288 4600 zero_cwksp 4096 5296 = Ok (Some c) /\ prevCBlock c = NULL.
Proof.
  intros P. split.
  - destruct (proj1 (ZSTD_initStaticCCtx_room (P := P) 0 5288 4600 zero_cwksp 4096 30000 ltac:(lia) eq_refl ltac:(lia) eq_refl ltac:(lia) eq_refl ltac:(by vm_compute)))
      as (c & E & C1 & C2 & C3 & C4 & _); [by vm_compute|]. exists c. split; [exact E|]. rewrite C4, C3, C2. reflexivity.
  - destruct (proj2 (ZSTD_initStaticCCtx_room (P := P) 0 5288 4600 zero_cwksp 4096 5296 ltac:(lia) eq_refl ltac:(lia) eq_refl ltac:(lia) eq_refl ltac:(by vm_compute)))
      as (c & E & C1 & _); [lia|reflexivity|by vm_compute|]. exists c. split; [exact E|exact C1].
Defined.
