(* ===== verification/CParams.v ===== *)
(** * Compression parameters

    The parameters a compression level stands for, their bounds, and their adjustment to
    the sizes of the source and of the dictionary, from zstd_compress.c and clevels.h.
    Every level, source size and dictionary size gives parameters within the bounds.

    Enumerations of the parameters are kept as the integers the interface passes.
    [assert] is a fault here, so that a result shows that no assertion fails. *)
From S2P Require Import Prelude Mem Errors Bits Frame.

Definition ZSTD_fast : Z := 1.
Definition ZSTD_dfast : Z := 2.
Definition ZSTD_greedy : Z := 3.
Definition ZSTD_lazy : Z := 4.
Definition ZSTD_lazy2 : Z := 5.
Definition ZSTD_btlazy2 : Z := 6.
Definition ZSTD_btopt : Z := 7.
Definition ZSTD_btultra : Z := 8.
Definition ZSTD_btultra2 : Z := 9.

Definition ZSTD_ps_auto : Z := 0.
Definition ZSTD_ps_enable : Z := 1.
Definition ZSTD_ps_disable : Z := 2.

Record ZSTD_compressionParameters := {
  cp_windowLog : Z;
  cp_chainLog : Z;
  cp_hashLog : Z;
  cp_searchLog : Z;
  cp_minMatch : Z;
  cp_targetLength : Z;
  cp_strategy : Z
}.

Definition cparams w c h s l t strat : ZSTD_compressionParameters :=
  {| cp_windowLog := w; cp_chainLog := c; cp_hashLog := h; cp_searchLog := s; cp_minMatch := l; cp_targetLength := t; cp_strategy := strat |}.

Inductive ZSTD_CParamMode_e := ZSTD_cpm_noAttachDict | ZSTD_cpm_attachDict | ZSTD_cpm_createCDict | ZSTD_cpm_unknown.

(** The parameters, and any other value of the enumeration's type. *)
Inductive ZSTD_cParameter :=
| ZSTD_c_compressionLevel | ZSTD_c_windowLog | ZSTD_c_hashLog | ZSTD_c_chainLog | ZSTD_c_searchLog | ZSTD_c_minMatch | ZSTD_c_targetLength | ZSTD_c_strategy
| ZSTD_c_targetCBlockSize | ZSTD_c_enableLongDistanceMatching | ZSTD_c_ldmHashLog | ZSTD_c_ldmMinMatch | ZSTD_c_ldmBucketSizeLog | ZSTD_c_ldmHashRateLog
| ZSTD_c_contentSizeFlag | ZSTD_c_checksumFlag | ZSTD_c_dictIDFlag | ZSTD_c_nbWorkers | ZSTD_c_jobSize | ZSTD_c_overlapLog
| ZSTD_c_rsyncable | ZSTD_c_format | ZSTD_c_forceMaxWindow | ZSTD_c_forceAttachDict | ZSTD_c_literalCompressionMode | ZSTD_c_srcSizeHint
| ZSTD_c_enableDedicatedDictSearch | ZSTD_c_stableInBuffer | ZSTD_c_stableOutBuffer | ZSTD_c_blockDelimiters | ZSTD_c_validateSequences
| ZSTD_c_blockSplitterLevel | ZSTD_c_splitAfterSequences | ZSTD_c_useRowMatchFinder | ZSTD_c_deterministicRefPrefix | ZSTD_c_prefetchCDictTables
| ZSTD_c_enableSeqProducerFallback | ZSTD_c_maxBlockSize | ZSTD_c_repcodeResolution
| ZSTD_c_unknown (value : Z).

#[global] Instance cParameter_eq_dec : EqDecision ZSTD_cParameter.
Proof. solve_decision. Defined.

Definition ZSTD_CLEVEL_DEFAULT : Z := 3.
Definition ZSTD_MAX_CLEVEL : Z := 22.
Definition ZSTD_WINDOWLOG_MIN : Z := 10.
Definition ZSTD_HASHLOG_MIN : Z := 6.
Definition ZSTD_CHAINLOG_MIN : Z := ZSTD_HASHLOG_MIN.
Definition ZSTD_SEARCHLOG_MIN : Z := 1.
Definition ZSTD_MINMATCH_MAX : Z := 7.
Definition ZSTD_MINMATCH_MIN : Z := 3.
Definition ZSTD_TARGETLENGTH_MAX : Z := ZSTD_BLOCKSIZE_MAX.
Definition ZSTD_TARGETLENGTH_MIN : Z := 0.
Definition ZSTD_STRATEGY_MIN : Z := ZSTD_fast.
Definition ZSTD_STRATEGY_MAX : Z := ZSTD_btultra2.
Definition ZSTD_BLOCKSIZE_MAX_MIN : Z := Z.shiftl 1 10.
Definition ZSTD_WINDOWLOG_LIMIT_DEFAULT : Z := 27.
Definition ZSTD_LDM_DEFAULT_WINDOW_LOG : Z := ZSTD_WINDOWLOG_LIMIT_DEFAULT.
Definition ZSTD_LDM_HASHLOG_MIN : Z := ZSTD_HASHLOG_MIN.
Definition ZSTD_LDM_MINMATCH_MIN : Z := 4.
Definition ZSTD_LDM_MINMATCH_MAX : Z := 4096.
Definition ZSTD_LDM_BUCKETSIZELOG_MIN : Z := 1.
Definition ZSTD_LDM_BUCKETSIZELOG_MAX : Z := 8.
Definition ZSTD_LDM_HASHRATELOG_MIN : Z := 0.
Definition ZSTD_TARGETCBLOCKSIZE_MIN : Z := 1340.
Definition ZSTD_TARGETCBLOCKSIZE_MAX : Z := ZSTD_BLOCKSIZE_MAX.
Definition ZSTD_SRCSIZEHINT_MIN : Z := 0.
Definition ZSTD_SRCSIZEHINT_MAX : Z := 2 ^ 31 - 1.
Definition ZSTD_BLOCKSPLITTER_LEVEL_MAX : Z := 6.
Definition ZSTD_SHORT_CACHE_TAG_BITS : Z := 8.
Definition ZSTD_ROW_HASH_TAG_BITS : Z := 8.
Definition ZSTD_LAZY_DDSS_BUCKET_LOG : Z := 2.

Definition ZSTD_defaultCParameters : list (list ZSTD_compressionParameters) := [
  [cparams 19 12 13 1 6 1 ZSTD_fast;
   cparams 19 13 14 1 7 0 ZSTD_fast;
   cparams 20 15 16 1 6 0 ZSTD_fast;
   cparams 21 16 17 1 5 0 ZSTD_dfast;
   cparams 21 18 18 1 5 0 ZSTD_dfast;
   cparams 21 18 19 3 5 2 ZSTD_greedy;
   cparams 21 18 19 3 5 4 ZSTD_lazy;
   cparams 21 19 20 4 5 8 ZSTD_lazy;
   cparams 21 19 20 4 5 16 ZSTD_lazy2;
   cparams 22 20 21 4 5 16 ZSTD_lazy2;
   cparams 22 21 22 5 5 16 ZSTD_lazy2;
   cparams 22 21 22 6 5 16 ZSTD_lazy2;
   cparams 22 22 23 6 5 32 ZSTD_lazy2;
   cparams 22 22 22 4 5 32 ZSTD_btlazy2;
   cparams 22 22 23 5 5 32 ZSTD_btlazy2;
   cparams 22 23 23 6 5 32 ZSTD_btlazy2;
   cparams 22 22 22 5 5 48 ZSTD_btopt;
   cparams 23 23 22 5 4 64 ZSTD_btopt;
   cparams 23 23 22 6 3 64 ZSTD_btultra;
   cparams 23 24 22 7 3 256 ZSTD_btultra2;
   cparams 25 25 23 7 3 256 ZSTD_btultra2;
   cparams 26 26 24 7 3 512 ZSTD_btultra2;
   cparams 27 27 25 9 3 999 ZSTD_btultra2];
  [cparams 18 12 13 1 5 1 ZSTD_fast;
   cparams 18 13 14 1 6 0 ZSTD_fast;
   cparams 18 14 14 1 5 0 ZSTD_dfast;
   cparams 18 16 16 1 4 0 ZSTD_dfast;
   cparams 18 16 17 3 5 2 ZSTD_greedy;
   cparams 18 17 18 5 5 2 ZSTD_greedy;
   cparams 18 18 19 3 5 4 ZSTD_lazy;
   cparams 18 18 19 4 4 4 ZSTD_lazy;
   cparams 18 18 19 4 4 8 ZSTD_lazy2;
   cparams 18 18 19 5 4 8 ZSTD_lazy2;
   cparams 18 18 19 6 4 8 ZSTD_lazy2;
   cparams 18 18 19 5 4 12 ZSTD_btlazy2;
   cparams 18 19 19 7 4 12 ZSTD_btlazy2;
   cparams 18 18 19 4 4 16 ZSTD_btopt;
   cparams 18 18 19 4 3 32 ZSTD_btopt;
   cparams 18 18 19 6 3 128 ZSTD_btopt;
   cparams 18 19 19 6 3 128 ZSTD_btultra;
   cparams 18 19 19 8 3 256 ZSTD_btultra;
   cparams 18 19 19 6 3 128 ZSTD_btultra2;
   cparams 18 19 19 8 3 256 ZSTD_btultra2;
   cparams 18 19 19 10 3 512 ZSTD_btultra2;
   cparams 18 19 19 12 3 512 ZSTD_btultra2;
   cparams 18 19 19 13 3 999 ZSTD_btultra2];
  [cparams 17 12 12 1 5 1 ZSTD_fast;
   cparams 17 12 13 1 6 0 ZSTD_fast;
   cparams 17 13 15 1 5 0 ZSTD_fast;
   cparams 17 15 16 2 5 0 ZSTD_dfast;
   cparams 17 17 17 2 4 0 ZSTD_dfast;
   cparams 17 16 17 3 4 2 ZSTD_greedy;
   cparams 17 16 17 3 4 4 ZSTD_lazy;
   cparams 17 16 17 3 4 8 ZSTD_lazy2;
   cparams 17 16 17 4 4 8 ZSTD_lazy2;
   cparams 17 16 17 5 4 8 ZSTD_lazy2;
   cparams 17 16 17 6 4 8 ZSTD_lazy2;
   cparams 17 17 17 5 4 8 ZSTD_btlazy2;
   cparams 17 18 17 7 4 12 ZSTD_btlazy2;
   cparams 17 18 17 3 4 12 ZSTD_btopt;
   cparams 17 18 17 4 3 32 ZSTD_btopt;
   cparams 17 18 17 6 3 256 ZSTD_btopt;
   cparams 17 18 17 6 3 128 ZSTD_btultra;
   cparams 17 18 17 8 3 256 ZSTD_btultra;
   cparams 17 18 17 10 3 512 ZSTD_btultra;
   cparams 17 18 17 5 3 256 ZSTD_btultra2;
   cparams 17 18 17 7 3 512 ZSTD_btultra2;
   cparams 17 18 17 9 3 512 ZSTD_btultra2;
   cparams 17 18 17 11 3 999 ZSTD_btultra2];
  [cparams 14 12 13 1 5 1 ZSTD_fast;
   cparams 14 14 15 1 5 0 ZSTD_fast;
   cparams 14 14 15 1 4 0 ZSTD_fast;
   cparams 14 14 15 2 4 0 ZSTD_dfast;
   cparams 14 14 14 4 4 2 ZSTD_greedy;
   cparams 14 14 14 3 4 4 ZSTD_lazy;
   cparams 14 14 14 4 4 8 ZSTD_lazy2;
   cparams 14 14 14 6 4 8 ZSTD_lazy2;
   cparams 14 14 14 8 4 8 ZSTD_lazy2;
   cparams 14 15 14 5 4 8 ZSTD_btlazy2;
   cparams 14 15 14 9 4 8 ZSTD_btlazy2;
   cparams 14 15 14 3 4 12 ZSTD_btopt;
   cparams 14 15 14 4 3 24 ZSTD_btopt;
   cparams 14 15 14 5 3 32 ZSTD_btultra;
   cparams 14 15 15 6 3 64 ZSTD_btultra;
   cparams 14 15 15 7 3 256 ZSTD_btultra;
   cparams 14 15 15 5 3 48 ZSTD_btultra2;
   cparams 14 15 15 6 3 128 ZSTD_btultra2;
   cparams 14 15 15 7 3 256 ZSTD_btultra2;
   cparams 14 15 15 8 3 256 ZSTD_btultra2;
   cparams 14 15 15 8 3 512 ZSTD_btultra2;
   cparams 14 15 15 9 3 512 ZSTD_btultra2;
   cparams 14 15 15 10 3 999 ZSTD_btultra2]].

Section Definitions.
Context `{P : Platform}.
Implicit Types (cPar : ZSTD_compressionParameters).

Definition ZSTD_HASHLOG_MAX : Z := if ZSTD_WINDOWLOG_MAX <? 30 then ZSTD_WINDOWLOG_MAX else 30.
Definition ZSTD_CHAINLOG_MAX : Z := if sizeof_size_t =? 4 then 29 else 30.
Definition ZSTD_SEARCHLOG_MAX : Z := ZSTD_WINDOWLOG_MAX - 1.
Definition ZSTD_LDM_HASHLOG_MAX : Z := ZSTD_HASHLOG_MAX.
Definition ZSTD_LDM_HASHRATELOG_MAX : Z := ZSTD_WINDOWLOG_MAX - ZSTD_HASHLOG_MIN.

Definition ZSTD_maxCLevel : Z := ZSTD_MAX_CLEVEL.
Definition ZSTD_minCLevel : Z := - ZSTD_TARGETLENGTH_MAX.
Definition ZSTD_defaultCLevel : Z := ZSTD_CLEVEL_DEFAULT.

(** The lower and upper bounds; multithreading is not compiled. *)
Definition ZSTD_cParam_getBounds (param : ZSTD_cParameter) : res (Z * Z) :=
  match param with
  | ZSTD_c_compressionLevel => Ok (ZSTD_minCLevel, ZSTD_maxCLevel)
  | ZSTD_c_windowLog => Ok (ZSTD_WINDOWLOG_MIN, ZSTD_WINDOWLOG_MAX)
  | ZSTD_c_hashLog => Ok (ZSTD_HASHLOG_MIN, ZSTD_HASHLOG_MAX)
  | ZSTD_c_chainLog => Ok (ZSTD_CHAINLOG_MIN, ZSTD_CHAINLOG_MAX)
  | ZSTD_c_searchLog => Ok (ZSTD_SEARCHLOG_MIN, ZSTD_SEARCHLOG_MAX)
  | ZSTD_c_minMatch => Ok (ZSTD_MINMATCH_MIN, ZSTD_MINMATCH_MAX)
  | ZSTD_c_targetLength => Ok (ZSTD_TARGETLENGTH_MIN, ZSTD_TARGETLENGTH_MAX)
  | ZSTD_c_strategy => Ok (ZSTD_STRATEGY_MIN, ZSTD_STRATEGY_MAX)
  | ZSTD_c_contentSizeFlag | ZSTD_c_checksumFlag | ZSTD_c_dictIDFlag => Ok (0, 1)
  | ZSTD_c_nbWorkers | ZSTD_c_jobSize | ZSTD_c_overlapLog => Ok (0, 0)
  | ZSTD_c_enableDedicatedDictSearch => Ok (0, 1)
  | ZSTD_c_enableLongDistanceMatching => Ok (ZSTD_ps_auto, ZSTD_ps_disable)
  | ZSTD_c_ldmHashLog => Ok (ZSTD_LDM_HASHLOG_MIN, ZSTD_LDM_HASHLOG_MAX)
  | ZSTD_c_ldmMinMatch => Ok (ZSTD_LDM_MINMATCH_MIN, ZSTD_LDM_MINMATCH_MAX)
  | ZSTD_c_ldmBucketSizeLog => Ok (ZSTD_LDM_BUCKETSIZELOG_MIN, ZSTD_LDM_BUCKETSIZELOG_MAX)
  | ZSTD_c_ldmHashRateLog => Ok (ZSTD_LDM_HASHRATELOG_MIN, ZSTD_LDM_HASHRATELOG_MAX)
  | ZSTD_c_rsyncable | ZSTD_c_forceMaxWindow => Ok (0, 1)
  | ZSTD_c_format => Ok (0, 1)
  | ZSTD_c_forceAttachDict => Ok (0, 3)
  | ZSTD_c_literalCompressionMode => Ok (ZSTD_ps_auto, ZSTD_ps_disable)
  | ZSTD_c_targetCBlockSize => Ok (ZSTD_TARGETCBLOCKSIZE_MIN, ZSTD_TARGETCBLOCKSIZE_MAX)
  | ZSTD_c_srcSizeHint => Ok (ZSTD_SRCSIZEHINT_MIN, ZSTD_SRCSIZEHINT_MAX)
  | ZSTD_c_stableInBuffer | ZSTD_c_stableOutBuffer => Ok (0, 1)
  | ZSTD_c_blockDelimiters => Ok (0, 1)
  | ZSTD_c_validateSequences => Ok (0, 1)
  | ZSTD_c_splitAfterSequences => Ok (ZSTD_ps_auto, ZSTD_ps_disable)
  | ZSTD_c_blockSplitterLevel => Ok (0, ZSTD_BLOCKSPLITTER_LEVEL_MAX)
  | ZSTD_c_useRowMatchFinder => Ok (ZSTD_ps_auto, ZSTD_ps_disable)
  | ZSTD_c_deterministicRefPrefix => Ok (0, 1)
  | ZSTD_c_prefetchCDictTables => Ok (ZSTD_ps_auto, ZSTD_ps_disable)
  | ZSTD_c_enableSeqProducerFallback => Ok (0, 1)
  | ZSTD_c_maxBlockSize => Ok (ZSTD_BLOCKSIZE_MAX_MIN, ZSTD_BLOCKSIZE_MAX)
  | ZSTD_c_repcodeResolution => Ok (ZSTD_ps_auto, ZSTD_ps_disable)
  | ZSTD_c_unknown _ => Err ZSTD_error_parameter_unsupported
  end.

Definition ZSTD_cParam_withinBounds (cParam : ZSTD_cParameter) (value : Z) : bool :=
  match ZSTD_cParam_getBounds cParam with
  | Ok (lowerBound, upperBound) => (lowerBound <=? value) && (value <=? upperBound)
  | _ => false
  end.

Definition ZSTD_cParam_clampBounds (cParam : ZSTD_cParameter) (value : Z) : res Z :=
  let* (lowerBound, upperBound) := ZSTD_cParam_getBounds cParam in
  let value := if value <? lowerBound then lowerBound else value in
  let value := if upperBound <? value then upperBound else value in
  Ok value.

Definition BOUNDCHECK (cParam : ZSTD_cParameter) (val : Z) : res unit :=
  reject_if (negb (ZSTD_cParam_withinBounds cParam val)) ZSTD_error_parameter_outOfBound.

Definition ZSTD_checkCParams (cParams : ZSTD_compressionParameters) : res unit :=
  BOUNDCHECK ZSTD_c_windowLog (s32 (cp_windowLog cParams)) ;;;
  BOUNDCHECK ZSTD_c_chainLog (s32 (cp_chainLog cParams)) ;;;
  BOUNDCHECK ZSTD_c_hashLog (s32 (cp_hashLog cParams)) ;;;
  BOUNDCHECK ZSTD_c_searchLog (s32 (cp_searchLog cParams)) ;;;
  BOUNDCHECK ZSTD_c_minMatch (s32 (cp_minMatch cParams)) ;;;
  BOUNDCHECK ZSTD_c_targetLength (s32 (cp_targetLength cParams)) ;;;
  BOUNDCHECK ZSTD_c_strategy (s32 (cp_strategy cParams)).

(** [CLAMP] *)
Definition CLAMP (cParam : ZSTD_cParameter) (val : Z) : Z :=
  match ZSTD_cParam_getBounds cParam with
  | Ok (lowerBound, upperBound) => if s32 val <? lowerBound then lowerBound else if upperBound <? s32 val then upperBound else val
  | _ => val
  end.

Definition ZSTD_clampCParams (cParams : ZSTD_compressionParameters) : ZSTD_compressionParameters :=
  {| cp_windowLog := CLAMP ZSTD_c_windowLog (cp_windowLog cParams);
     cp_chainLog := CLAMP ZSTD_c_chainLog (cp_chainLog cParams);
     cp_hashLog := CLAMP ZSTD_c_hashLog (cp_hashLog cParams);
     cp_searchLog := CLAMP ZSTD_c_searchLog (cp_searchLog cParams);
     cp_minMatch := CLAMP ZSTD_c_minMatch (cp_minMatch cParams);
     cp_targetLength := CLAMP ZSTD_c_targetLength (cp_targetLength cParams);
     cp_strategy := CLAMP ZSTD_c_strategy (cp_strategy cParams) |}.

Definition ZSTD_cycleLog (hashLog strat : Z) : Z :=
  let btScale := b2z (ZSTD_btlazy2 <=? strat) in
  u32 (hashLog - btScale).

Definition ZSTD_dictAndWindowLog (windowLog srcSize dictSize : Z) : res Z :=
  let maxWindowSize := Z.shiftl 1 ZSTD_WINDOWLOG_MAX in
  if dictSize =? 0 then Ok windowLog
  else
    oassert (windowLog <=? ZSTD_WINDOWLOG_MAX) ;;;
    oassert (negb (srcSize =? ZSTD_CONTENTSIZE_UNKNOWN)) ;;;
    let windowSize := Z.shiftl 1 windowLog in
    let dictAndWindowSize := u64 (dictSize + windowSize) in
    if u64 (dictSize + srcSize) <=? windowSize then Ok windowLog
    else if maxWindowSize <=? dictAndWindowSize then Ok ZSTD_WINDOWLOG_MAX
    else let* h := ZSTD_highbit32 (u32 (u32 dictAndWindowSize - 1)) in Ok (u32 (h + 1)).

Definition ZSTD_rowMatchFinderSupported (strategy : Z) : bool :=
  (ZSTD_greedy <=? strategy) && (strategy <=? ZSTD_lazy2).

Definition ZSTD_rowMatchFinderUsed (strategy mode : Z) : res bool :=
  oassert (negb (mode =? ZSTD_ps_auto)) ;;;
  Ok (ZSTD_rowMatchFinderSupported strategy && (mode =? ZSTD_ps_enable)).

Definition ZSTD_CDictIndicesAreTagged (cParams : ZSTD_compressionParameters) : bool :=
  (cp_strategy cParams =? ZSTD_fast) || (cp_strategy cParams =? ZSTD_dfast).

Definition set_windowLog x cPar := cparams x (cp_chainLog cPar) (cp_hashLog cPar) (cp_searchLog cPar) (cp_minMatch cPar) (cp_targetLength cPar) (cp_strategy cPar).
Definition set_chainLog x cPar := cparams (cp_windowLog cPar) x (cp_hashLog cPar) (cp_searchLog cPar) (cp_minMatch cPar) (cp_targetLength cPar) (cp_strategy cPar).
Definition set_hashLog x cPar := cparams (cp_windowLog cPar) (cp_chainLog cPar) x (cp_searchLog cPar) (cp_minMatch cPar) (cp_targetLength cPar) (cp_strategy cPar).
Definition set_targetLength x cPar := cparams (cp_windowLog cPar) (cp_chainLog cPar) (cp_hashLog cPar) (cp_searchLog cPar) (cp_minMatch cPar) x (cp_strategy cPar).

(** [switch (mode)]: the sizes to adjust for. *)
Definition mode_sizes (mode : ZSTD_CParamMode_e) (srcSize dictSize : Z) : Z * Z :=
  let minSrcSize := 513 in
  match mode with
  | ZSTD_cpm_unknown | ZSTD_cpm_noAttachDict => (srcSize, dictSize)
  | ZSTD_cpm_createCDict => (if negb (dictSize =? 0) && (srcSize =? ZSTD_CONTENTSIZE_UNKNOWN) then minSrcSize else srcSize, dictSize)
  | ZSTD_cpm_attachDict => (srcSize, 0)
  end.

(** The window is made no larger than the input. *)
Definition resize_window cPar (srcSize dictSize : Z) : res ZSTD_compressionParameters :=
  let maxWindowResize := Z.shiftl 1 (ZSTD_WINDOWLOG_MAX - 1) in
  if (srcSize <=? maxWindowResize) && (dictSize <=? maxWindowResize) then
    let tSize := u32 (srcSize + dictSize) in
    let hashSizeMin := Z.shiftl 1 ZSTD_HASHLOG_MIN in
    let* srcLog := if tSize <? hashSizeMin then Ok ZSTD_HASHLOG_MIN else let* h := ZSTD_highbit32 (u32 (tSize - 1)) in Ok (u32 (h + 1)) in
    Ok (if srcLog <? cp_windowLog cPar then set_windowLog srcLog cPar else cPar)
  else Ok cPar.

(** The tables are made no larger than window and dictionary. *)
Definition resize_tables cPar (srcSize dictSize : Z) : res ZSTD_compressionParameters :=
  if negb (srcSize =? ZSTD_CONTENTSIZE_UNKNOWN) then
    let* dictAndWindowLog := ZSTD_dictAndWindowLog (cp_windowLog cPar) srcSize dictSize in
    let cycleLog := ZSTD_cycleLog (cp_chainLog cPar) (cp_strategy cPar) in
    let cPar := if u32 (dictAndWindowLog + 1) <? cp_hashLog cPar then set_hashLog (u32 (dictAndWindowLog + 1)) cPar else cPar in
    Ok (if dictAndWindowLog <? cycleLog then set_chainLog (u32 (cp_chainLog cPar - u32 (cycleLog - dictAndWindowLog))) cPar else cPar)
  else Ok cPar.

(** Every block compressor is built in. *)
Definition ZSTD_adjustCParams_internal cPar (srcSize dictSize : Z) (mode : ZSTD_CParamMode_e) (useRowMatchFinder : Z) : res ZSTD_compressionParameters :=
  oassert (match ZSTD_checkCParams cPar with Ok _ => true | _ => false end) ;;;
  let (srcSize, dictSize) := mode_sizes mode srcSize dictSize in
  let* cPar := resize_window cPar srcSize dictSize in
  let* cPar := resize_tables cPar srcSize dictSize in
  let cPar := if cp_windowLog cPar <? ZSTD_WINDOWLOG_ABSOLUTEMIN then set_windowLog ZSTD_WINDOWLOG_ABSOLUTEMIN cPar else cPar in
  let cPar :=
    match mode with
    | ZSTD_cpm_createCDict =>
        if ZSTD_CDictIndicesAreTagged cPar then
          let maxShortCacheHashLog := 32 - ZSTD_SHORT_CACHE_TAG_BITS in
          let cPar := if maxShortCacheHashLog <? cp_hashLog cPar then set_hashLog maxShortCacheHashLog cPar else cPar in
          if maxShortCacheHashLog <? cp_chainLog cPar then set_chainLog maxShortCacheHashLog cPar else cPar
        else cPar
    | _ => cPar
    end in
  let useRowMatchFinder := if useRowMatchFinder =? ZSTD_ps_auto then ZSTD_ps_enable else useRowMatchFinder in
  let* used := ZSTD_rowMatchFinderUsed (cp_strategy cPar) useRowMatchFinder in
  if used then
    let rowLog := Z.max 4 (Z.min (cp_searchLog cPar) 6) in
    let maxRowHashLog := 32 - ZSTD_ROW_HASH_TAG_BITS in
    let maxHashLog := maxRowHashLog + rowLog in
    oassert (rowLog <=? cp_hashLog cPar) ;;;
    Ok (if maxHashLog <? cp_hashLog cPar then set_hashLog maxHashLog cPar else cPar)
  else Ok cPar.

Definition ZSTD_adjustCParams cPar (srcSize dictSize : Z) : res ZSTD_compressionParameters :=
  let cPar := ZSTD_clampCParams cPar in
  let srcSize := if srcSize =? 0 then ZSTD_CONTENTSIZE_UNKNOWN else srcSize in
  ZSTD_adjustCParams_internal cPar srcSize dictSize ZSTD_cpm_unknown ZSTD_ps_auto.

Definition ZSTD_getCParamRowSize (srcSizeHint dictSize : Z) (mode : ZSTD_CParamMode_e) : Z :=
  let dictSize := match mode with ZSTD_cpm_attachDict => 0 | _ => dictSize end in
  let unknown := srcSizeHint =? ZSTD_CONTENTSIZE_UNKNOWN in
  let addedSize := if unknown && (0 <? dictSize) then 500 else 0 in
  if unknown && (dictSize =? 0) then ZSTD_CONTENTSIZE_UNKNOWN else u64 (srcSizeHint + dictSize + addedSize).

Definition ZSTD_getCParams_internal (compressionLevel srcSizeHint dictSize : Z) (mode : ZSTD_CParamMode_e) : res ZSTD_compressionParameters :=
  let rSize := ZSTD_getCParamRowSize srcSizeHint dictSize mode in
  let tableID := b2z (rSize <=? Z.shiftl 256 10) + b2z (rSize <=? Z.shiftl 128 10) + b2z (rSize <=? Z.shiftl 16 10) in
  let row :=
    if compressionLevel =? 0 then ZSTD_CLEVEL_DEFAULT
    else if compressionLevel <? 0 then 0
    else if ZSTD_MAX_CLEVEL <? compressionLevel then ZSTD_MAX_CLEVEL
    else compressionLevel in
  let* rows := aget ZSTD_defaultCParameters tableID in
  let* cp := aget rows row in
  let cp :=
    if compressionLevel <? 0 then
      let clampedCompressionLevel := Z.max ZSTD_minCLevel compressionLevel in
      set_targetLength (u32 (- clampedCompressionLevel)) cp
    else cp in
  ZSTD_adjustCParams_internal cp srcSizeHint dictSize mode ZSTD_ps_auto.

Definition ZSTD_getCParams (compressionLevel srcSizeHint dictSize : Z) : res ZSTD_compressionParameters :=
  let srcSizeHint := if srcSizeHint =? 0 then ZSTD_CONTENTSIZE_UNKNOWN else srcSizeHint in
  ZSTD_getCParams_internal compressionLevel srcSizeHint dictSize ZSTD_cpm_unknown.

(** The two fields of [ZSTD_parameters]. *)
Definition ZSTD_getParams_internal (compressionLevel srcSizeHint dictSize : Z) (mode : ZSTD_CParamMode_e) : res (ZSTD_compressionParameters * ZSTD_frameParameters) :=
  let* cParams := ZSTD_getCParams_internal compressionLevel srcSizeHint dictSize mode in
  Ok (cParams, {| contentSizeFlag := 1; p_checksumFlag := 0; noDictIDFlag := 0 |}).

Definition ZSTD_getParams (compressionLevel srcSizeHint dictSize : Z) : res (ZSTD_compressionParameters * ZSTD_frameParameters) :=
  let srcSizeHint := if srcSizeHint =? 0 then ZSTD_CONTENTSIZE_UNKNOWN else srcSizeHint in
  ZSTD_getParams_internal compressionLevel srcSizeHint dictSize ZSTD_cpm_unknown.

Definition ZSTD_dedicatedDictSearch_getCParams (compressionLevel dictSize : Z) : res ZSTD_compressionParameters :=
  let* cParams := ZSTD_getCParams_internal compressionLevel 0 dictSize ZSTD_cpm_createCDict in
  Ok (if ZSTD_rowMatchFinderSupported (cp_strategy cParams) then set_hashLog (u32 (cp_hashLog cParams + ZSTD_LAZY_DDSS_BUCKET_LOG)) cParams else cParams).

Definition ZSTD_dedicatedDictSearch_isSupported (cParams : ZSTD_compressionParameters) : bool :=
  (ZSTD_greedy <=? cp_strategy cParams) && (cp_strategy cParams <=? ZSTD_lazy2) && (cp_chainLog cParams <? cp_hashLog cParams) && (cp_chainLog cParams <=? 24).

Definition ZSTD_dedicatedDictSearch_revertCParams (cParams : ZSTD_compressionParameters) : ZSTD_compressionParameters :=
  if ZSTD_rowMatchFinderSupported (cp_strategy cParams) then
    let cParams := set_hashLog (u32 (cp_hashLog cParams - ZSTD_LAZY_DDSS_BUCKET_LOG)) cParams in
    if cp_hashLog cParams <? ZSTD_HASHLOG_MIN then set_hashLog ZSTD_HASHLOG_MIN cParams else cParams
  else cParams.

Definition ZSTD_resolveRowMatchFinderMode (mode : Z) (cParams : ZSTD_compressionParameters) : Z :=
  if negb (mode =? ZSTD_ps_auto) then mode
  else if negb (ZSTD_rowMatchFinderSupported (cp_strategy cParams)) then ZSTD_ps_disable
  else if 14 <? cp_windowLog cParams then ZSTD_ps_enable else ZSTD_ps_disable.

Definition ZSTD_resolveBlockSplitterMode (mode : Z) (cParams : ZSTD_compressionParameters) : Z :=
  if negb (mode =? ZSTD_ps_auto) then mode
  else if (ZSTD_btopt <=? cp_strategy cParams) && (17 <=? cp_windowLog cParams) then ZSTD_ps_enable else ZSTD_ps_disable.

Definition ZSTD_allocateChainTable (strategy useRowMatchFinder : Z) (forDDSDict : bool) : res bool :=
  oassert (negb (useRowMatchFinder =? ZSTD_ps_auto)) ;;;
  if forDDSDict then Ok true
  else if negb (strategy =? ZSTD_fast) then let* used := ZSTD_rowMatchFinderUsed strategy useRowMatchFinder in Ok (negb used)
  else Ok false.

Definition ZSTD_resolveEnableLdm (mode : Z) (cParams : ZSTD_compressionParameters) : Z :=
  if negb (mode =? ZSTD_ps_auto) then mode
  else if (ZSTD_btopt <=? cp_strategy cParams) && (27 <=? cp_windowLog cParams) then ZSTD_ps_enable else ZSTD_ps_disable.

Definition ZSTD_resolveMaxBlockSize (maxBlockSize : Z) : Z :=
  if maxBlockSize =? 0 then ZSTD_BLOCKSIZE_MAX else maxBlockSize.

Definition ZSTD_resolveExternalRepcodeSearch (value cLevel : Z) : Z :=
  if negb (value =? ZSTD_ps_auto) then value
  else if cLevel <? 10 then ZSTD_ps_disable else ZSTD_ps_enable.
End Definitions.

(** ** Valid parameters *)

Section Valid.
Context `{P : Platform}.
Implicit Types (cPar : ZSTD_compressionParameters).

Definition fields : list (ZSTD_compressionParameters -> Z) := [cp_windowLog; cp_chainLog; cp_hashLog; cp_searchLog; cp_minMatch; cp_targetLength; cp_strategy].

(** The bounds that [ZSTD_checkCParams] tests. *)
Record cparams_ok cPar : Prop := {
  ok_windowLog : 10 <= cp_windowLog cPar <= ZSTD_WINDOWLOG_MAX;
  ok_chainLog : 6 <= cp_chainLog cPar <= ZSTD_CHAINLOG_MAX;
  ok_hashLog : 6 <= cp_hashLog cPar <= 30;
  ok_searchLog : 1 <= cp_searchLog cPar <= ZSTD_WINDOWLOG_MAX - 1;
  ok_minMatch : 3 <= cp_minMatch cPar <= 7;
  ok_targetLength : 0 <= cp_targetLength cPar <= 2 ^ 17;
  ok_strategy : 1 <= cp_strategy cPar <= 9
}.

Lemma log_limits : 30 <= ZSTD_WINDOWLOG_MAX <= 31 /\ 29 <= ZSTD_CHAINLOG_MAX <= 30 /\ ZSTD_HASHLOG_MAX = 30.
Proof. unfold ZSTD_HASHLOG_MAX, ZSTD_WINDOWLOG_MAX, ZSTD_CHAINLOG_MAX. destruct sizeof_size_t_cases as [-> | ->]; simpl; lia. Qed.

Lemma boundcheck_spec p lo hi v : ZSTD_cParam_getBounds p = Ok (lo, hi) -> BOUNDCHECK p v = if (lo <=? v) && (v <=? hi) then Ok tt else Err ZSTD_error_parameter_outOfBound.
Proof. intros E. unfold BOUNDCHECK, ZSTD_cParam_withinBounds. rewrite E. by destruct ((lo <=? v) && (v <=? hi)). Qed.

Lemma boundcheck_ok p lo hi v : ZSTD_cParam_getBounds p = Ok (lo, hi) -> lo <= v <= hi -> BOUNDCHECK p v = Ok tt.
Proof. intros E Hv. rewrite (boundcheck_spec p lo hi v E). by rewrite !(proj2 (Z.leb_le _ _)) by lia. Qed.

Lemma boundcheck_inv p lo hi v u : ZSTD_cParam_getBounds p = Ok (lo, hi) -> BOUNDCHECK p v = Ok u -> lo <= v <= hi.
Proof. intros E. rewrite (boundcheck_spec p lo hi v E). destruct (Z.leb_spec lo v), (Z.leb_spec v hi); cbn [andb]; intros; done || lia. Qed.

Lemma check_cparams cPar : cparams_ok cPar -> ZSTD_checkCParams cPar = Ok tt.
Proof.
  intros [H1 H2 H3 H4 H5 H6 H7]. pose proof log_limits. unfold ZSTD_checkCParams. rewrite !sgn_small by (simpl; lia).
  do 6 (erewrite boundcheck_ok; [cbn [obind]|reflexivity|
    unfold ZSTD_WINDOWLOG_MIN, ZSTD_CHAINLOG_MIN, ZSTD_HASHLOG_MIN, ZSTD_SEARCHLOG_MIN, ZSTD_SEARCHLOG_MAX, ZSTD_MINMATCH_MIN, ZSTD_MINMATCH_MAX, ZSTD_TARGETLENGTH_MIN, ZSTD_TARGETLENGTH_MAX in *;
    rewrite ?(proj2 (proj2 log_limits)); change ZSTD_BLOCKSIZE_MAX with (2 ^ 17); lia]).
  erewrite boundcheck_ok; [done|reflexivity|]. unfold ZSTD_STRATEGY_MIN, ZSTD_STRATEGY_MAX, ZSTD_fast, ZSTD_btultra2. lia.
Qed.

(** The converse, for values of the type of the fields. *)
Lemma checked_cparams cPar : (forall f, In f fields -> 0 <= f cPar < 2 ^ 31) ->
  ZSTD_checkCParams cPar = Ok tt -> cparams_ok cPar.
Proof.
  intros Hf. pose proof log_limits as (L1 & L2 & L3). pose proof (Hf cp_windowLog ltac:(simpl; tauto)). pose proof (Hf cp_chainLog ltac:(simpl; tauto)). pose proof (Hf cp_hashLog ltac:(simpl; tauto)).
  pose proof (Hf cp_searchLog ltac:(simpl; tauto)). pose proof (Hf cp_minMatch ltac:(simpl; tauto)). pose proof (Hf cp_targetLength ltac:(simpl; tauto)). pose proof (Hf cp_strategy ltac:(simpl; tauto)).
  unfold ZSTD_checkCParams. rewrite !sgn_small by (simpl; lia).
  intros E. repeat (apply bind_Ok in E as (? & ?E & E)). repeat match goal with H : BOUNDCHECK _ _ = Ok _ |- _ => eapply boundcheck_inv in H; [|reflexivity] end.
  unfold ZSTD_WINDOWLOG_MIN, ZSTD_CHAINLOG_MIN, ZSTD_HASHLOG_MIN, ZSTD_SEARCHLOG_MIN, ZSTD_SEARCHLOG_MAX, ZSTD_MINMATCH_MIN, ZSTD_MINMATCH_MAX, ZSTD_TARGETLENGTH_MIN, ZSTD_TARGETLENGTH_MAX,
    ZSTD_STRATEGY_MIN, ZSTD_STRATEGY_MAX, ZSTD_fast, ZSTD_btultra2 in *. rewrite L3 in *. change ZSTD_BLOCKSIZE_MAX with (2 ^ 17) in *. constructor; lia.
Qed.

(** ** Adjustment *)

Lemma set_windowLog_ok w cPar : cparams_ok cPar -> 10 <= w <= ZSTD_WINDOWLOG_MAX -> cparams_ok (set_windowLog w cPar).
Proof. intros [] ?. by constructor. Qed.
Lemma set_hashLog_ok h cPar : cparams_ok cPar -> 6 <= h <= 30 -> cparams_ok (set_hashLog h cPar).
Proof. intros [] ?. by constructor. Qed.
Lemma set_chainLog_ok c cPar : cparams_ok cPar -> 6 <= c <= ZSTD_CHAINLOG_MAX -> cparams_ok (set_chainLog c cPar).
Proof. intros [] ?. by constructor. Qed.

Lemma set_windowLog_same cPar : set_windowLog (cp_windowLog cPar) cPar = cPar.
Proof. by destruct cPar. Qed.

(** The smallest power of two that holds [n] values. *)
Lemma log2_up_pred n : 1 < n -> n <= 2 ^ (Z.log2 (n - 1) + 1).
Proof. intros Hn. pose proof (Z.log2_spec (n - 1) ltac:(lia)) as [_ H]. replace (Z.log2 (n - 1) + 1) with (Z.succ (Z.log2 (n - 1))) by lia. lia. Qed.

Lemma resize_window_spec cPar srcSize dictSize : 0 <= cp_windowLog cPar -> 0 <= srcSize -> 0 <= dictSize ->
  exists w, resize_window cPar srcSize dictSize = Ok (set_windowLog w cPar) /\ Z.min 6 (cp_windowLog cPar) <= w <= cp_windowLog cPar /\ (w = cp_windowLog cPar \/ srcSize + dictSize <= 2 ^ w).
Proof.
  intros Hw Hs Hd. unfold resize_window. pose proof log_limits as (L1 & _ & _). rewrite Z.shiftl_1_l.
  assert (2 ^ (ZSTD_WINDOWLOG_MAX - 1) <= 2 ^ 30) as Hmax by (apply pow_mono; lia).
  destruct (Z.leb_spec srcSize (2 ^ (ZSTD_WINDOWLOG_MAX - 1))) as [H1|H1]; cbn [andb]; [|exists (cp_windowLog cPar); rewrite set_windowLog_same; split; [done|]; split; [lia|by left]].
  destruct (Z.leb_spec dictSize (2 ^ (ZSTD_WINDOWLOG_MAX - 1))) as [H2|H2]; [|exists (cp_windowLog cPar); rewrite set_windowLog_same; split; [done|]; split; [lia|by left]].
  rewrite (wrap_small 32 (srcSize + dictSize)) by lia. unfold ZSTD_HASHLOG_MIN. change (Z.shiftl 1 6) with 64.
  assert (exists l, (if srcSize + dictSize <? 64 then Ok 6 else let* h := ZSTD_highbit32 (u32 (srcSize + dictSize - 1)) in Ok (u32 (h + 1))) = (Ok l : res Z) /\ 6 <= l /\ srcSize + dictSize <= 2 ^ l) as (l & -> & Hl & Hsum).
  { destruct (Z.ltb_spec (srcSize + dictSize) 64) as [Hlt|Hge]; [exists 6; split; [done|]; lia|]. rewrite (wrap_small 32) by lia. rewrite highbit32_val by lia. cbn [obind].
    assert (Z.log2 (srcSize + dictSize - 1) < 32) by (apply Z.log2_lt_pow2; lia). assert (5 <= Z.log2 (srcSize + dictSize - 1)) by (apply Z.log2_le_pow2; lia).
    rewrite (wrap_small 32) by lia. eexists. split; [done|]. split; [lia|]. apply log2_up_pred. lia. }
  cbn [obind]. destruct (Z.ltb_spec l (cp_windowLog cPar)).
  - exists l. split; [done|]. split; [lia|]. by right.
  - exists (cp_windowLog cPar). rewrite set_windowLog_same. split; [done|]. split; [lia|by left].
Qed.

Lemma dictAndWindowLog_spec w srcSize dictSize : 0 <= w <= ZSTD_WINDOWLOG_MAX -> srcSize <> ZSTD_CONTENTSIZE_UNKNOWN -> 0 <= dictSize < 2 ^ 63 ->
  exists d, ZSTD_dictAndWindowLog w srcSize dictSize = Ok d /\ w <= d <= ZSTD_WINDOWLOG_MAX.
Proof.
  intros Hw Hs Hd. unfold ZSTD_dictAndWindowLog. pose proof log_limits as (L1 & _ & _). destruct (Z.eqb_spec dictSize 0) as [|Hne]; [exists w; split; [done|lia]|].
  rewrite (proj2 (Z.leb_le _ _)) by lia. rewrite (proj2 (Z.eqb_neq _ _)) by done. cbn [oassert obind negb]. rewrite !Z.shiftl_1_l.
  assert (2 ^ w <= 2 ^ 31) as H31 by (apply pow_mono; lia). assert (0 < 2 ^ w) by (apply pow2_pos; lia). destruct (_ <=? 2 ^ w); [exists w; split; [done|lia]|]. rewrite (wrap_small 64) by lia.
  destruct (Z.leb_spec (2 ^ ZSTD_WINDOWLOG_MAX) (dictSize + 2 ^ w)) as [|Hlt]; [exists ZSTD_WINDOWLOG_MAX; split; [done|]; lia|].
  assert (2 ^ ZSTD_WINDOWLOG_MAX <= 2 ^ 31) by (apply pow_mono; lia). rewrite !(wrap_small 32) by (rewrite ?(wrap_small 32) by lia; lia). rewrite highbit32_val by lia. cbn [obind].
  assert (w <= Z.log2 (dictSize + 2 ^ w - 1)) by (apply Z.log2_le_pow2; lia). assert (Z.log2 (dictSize + 2 ^ w - 1) < ZSTD_WINDOWLOG_MAX) by (apply Z.log2_lt_pow2; lia).
  rewrite (wrap_small 32) by lia. eexists. split; [done|]. lia.
Qed.

(** Tables shrink, but not below the smallest valid ones. *)
Lemma resize_tables_spec cPar srcSize dictSize : 6 <= cp_windowLog cPar <= ZSTD_WINDOWLOG_MAX -> 6 <= cp_chainLog cPar <= 30 -> 6 <= cp_hashLog cPar <= 30 -> 0 <= dictSize < 2 ^ 63 ->
  exists h c, resize_tables cPar srcSize dictSize = Ok (set_chainLog c (set_hashLog h cPar)) /\ 6 <= h <= cp_hashLog cPar /\ 6 <= c <= cp_chainLog cPar.
Proof.
  intros Hw Hc Hh Hd. unfold resize_tables. pose proof log_limits as (L1 & _ & _).
  assert (forall x, set_chainLog (cp_chainLog x) (set_hashLog (cp_hashLog x) x) = x) as Hid by (by intros []).
  destruct (Z.eqb_spec srcSize ZSTD_CONTENTSIZE_UNKNOWN) as [|Hne]; cbn [negb]; [exists (cp_hashLog cPar), (cp_chainLog cPar); rewrite Hid; split; [done|]; lia|].
  destruct (dictAndWindowLog_spec (cp_windowLog cPar) srcSize dictSize ltac:(lia) Hne Hd) as (d & -> & Hdw). cbn [obind]. unfold ZSTD_cycleLog, b2z, ZSTD_btlazy2. rewrite (wrap_small 32 (d + 1)) by lia.
  set (bt := if 6 <=? cp_strategy cPar then 1 else 0). assert (0 <= bt <= 1) by (subst bt; destruct (6 <=? cp_strategy cPar); lia). rewrite (wrap_small 32 (cp_chainLog cPar - bt)) by lia.
  exists (Z.min (cp_hashLog cPar) (d + 1)), (Z.min (cp_chainLog cPar) (d + bt)). split; [|lia]. f_equal.
  destruct (Z.ltb_spec (d + 1) (cp_hashLog cPar)); destruct (Z.ltb_spec d (cp_chainLog cPar - bt)); unfold set_chainLog, set_hashLog, cparams; cbn [cp_windowLog cp_chainLog cp_hashLog cp_searchLog cp_minMatch cp_targetLength cp_strategy];
    rewrite ?(wrap_small 32 (cp_chainLog cPar - bt - d)) by lia; rewrite ?(wrap_small 32 (cp_chainLog cPar - _)) by lia; destruct cPar; cbn [cp_windowLog cp_chainLog cp_hashLog cp_searchLog cp_minMatch cp_targetLength cp_strategy] in *; f_equal; lia.
Qed.

(** What adjustment keeps: the parameters of the search, and tables and window no larger than they were. *)
Record adjusted cPar cPar' : Prop := {
  adj_ok : cparams_ok cPar';
  adj_windowLog : cp_windowLog cPar' <= cp_windowLog cPar;
  adj_chainLog : cp_chainLog cPar' <= cp_chainLog cPar;
  adj_hashLog : cp_hashLog cPar' <= cp_hashLog cPar;
  adj_search : cp_searchLog cPar' = cp_searchLog cPar /\ cp_minMatch cPar' = cp_minMatch cPar /\ cp_targetLength cPar' = cp_targetLength cPar /\ cp_strategy cPar' = cp_strategy cPar
}.

Lemma adjust_spec cPar srcSize dictSize mode row : cparams_ok cPar -> 0 <= srcSize < 2 ^ 64 -> 0 <= dictSize < 2 ^ 63 -> 0 <= row <= 2 ->
  exists cPar', ZSTD_adjustCParams_internal cPar srcSize dictSize mode row = Ok cPar' /\ adjusted cPar cPar' /\
    (let (src, dict) := mode_sizes mode srcSize dictSize in cp_windowLog cPar' = cp_windowLog cPar \/ src + dict <= 2 ^ cp_windowLog cPar').
Proof.
  intros Hok Hs Hd Hrow. pose proof Hok as [K1 K2 K3 K4 K5 K6 K7]. pose proof log_limits as (L1 & L2 & _). unfold ZSTD_adjustCParams_internal. rewrite (check_cparams cPar Hok). cbn [oassert obind].
  destruct (mode_sizes mode srcSize dictSize) as [src dict] eqn:Em. assert (0 <= src /\ 0 <= dict < 2 ^ 63) as [Hsrc Hdict].
  { unfold mode_sizes in Em. destruct mode; injection Em as <- <-; try lia. destruct (_ && _); lia. }
  destruct (resize_window_spec cPar src dict ltac:(lia) Hsrc ltac:(lia)) as (w & -> & Hw & Hcover). cbn [obind].
  destruct (resize_tables_spec (set_windowLog w cPar) src dict) as (h & c & -> & Hh & Hc); cbn [set_windowLog cparams cp_windowLog cp_chainLog cp_hashLog] in *; try lia. cbn [obind].
  set (p1 := set_chainLog c (set_hashLog h (set_windowLog w cPar))).
  set (p2 := if cp_windowLog p1 <? ZSTD_WINDOWLOG_ABSOLUTEMIN then set_windowLog ZSTD_WINDOWLOG_ABSOLUTEMIN p1 else p1).
  assert (p2 = cparams (Z.max 10 w) c h (cp_searchLog cPar) (cp_minMatch cPar) (cp_targetLength cPar) (cp_strategy cPar)) as Ep2.
  { subst p2 p1. cbn [set_chainLog set_hashLog set_windowLog cparams cp_windowLog]. unfold ZSTD_WINDOWLOG_ABSOLUTEMIN. destruct (Z.ltb_spec w 10); [by rewrite Z.max_l by lia|by rewrite Z.max_r by lia]. }
  assert (w = cp_windowLog cPar \/ src + dict <= 2 ^ Z.max 10 w) as Hcover'. { destruct Hcover as [->|Hc']; [by left|right]. assert (2 ^ w <= 2 ^ Z.max 10 w) by (apply pow_mono; lia). lia. }
  assert (forall c' h', 6 <= c' <= c -> 6 <= h' <= h -> adjusted cPar (cparams (Z.max 10 w) c' h' (cp_searchLog cPar) (cp_minMatch cPar) (cp_targetLength cPar) (cp_strategy cPar))) as Hadj.
  { intros c' h' Hc' Hh'. constructor; cbn [cparams cp_windowLog cp_chainLog cp_hashLog cp_searchLog cp_minMatch cp_targetLength cp_strategy]; try lia.
    constructor; cbn [cparams cp_windowLog cp_chainLog cp_hashLog cp_searchLog cp_minMatch cp_targetLength cp_strategy]; lia. }
  match goal with |- context [match mode with ZSTD_cpm_createCDict => ?a | _ => _ end] => set (p3 := match mode with ZSTD_cpm_createCDict => a | _ => p2 end) end.
  assert (exists c' h', 6 <= c' <= c /\ 6 <= h' <= h /\ p3 = cparams (Z.max 10 w) c' h' (cp_searchLog cPar) (cp_minMatch cPar) (cp_targetLength cPar) (cp_strategy cPar)) as (c' & h' & Hc' & Hh' & Ep3).
  { subst p3. rewrite Ep2. unfold ZSTD_SHORT_CACHE_TAG_BITS. change (32 - 8) with 24. destruct mode; try (exists c, h; split; [lia|]; split; [lia|done]).
    destruct (ZSTD_CDictIndicesAreTagged _); [|exists c, h; split; [lia|]; split; [lia|done]]. exists (Z.min c 24), (Z.min h 24). split; [lia|]. split; [lia|]. cbn [cparams cp_hashLog].
    destruct (Z.ltb_spec 24 h); cbn [set_hashLog cparams cp_chainLog]; destruct (Z.ltb_spec 24 c); unfold set_chainLog, set_hashLog, cparams; cbn [cp_windowLog cp_chainLog cp_hashLog cp_searchLog cp_minMatch cp_targetLength cp_strategy]; f_equal; lia. }
  clearbody p3. subst p3. set (row' := if row =? ZSTD_ps_auto then ZSTD_ps_enable else row). assert (row' <> 0) as Hr by (subst row'; unfold ZSTD_ps_auto, ZSTD_ps_enable; destruct (Z.eqb_spec row 0); lia).
  unfold ZSTD_rowMatchFinderUsed, ZSTD_ps_auto. rewrite (proj2 (Z.eqb_neq _ _)) by done. cbn [negb oassert obind].
  destruct (_ && _).
  - cbn [cparams cp_searchLog cp_hashLog]. unfold ZSTD_ROW_HASH_TAG_BITS. change (32 - 8) with 24. set (rowLog := Z.max 4 (Z.min (cp_searchLog cPar) 6)). assert (4 <= rowLog <= 6) by lia.
    rewrite (proj2 (Z.leb_le _ _)) by lia. cbn [oassert obind]. eexists. split; [reflexivity|].
    assert (forall x, cp_windowLog x = Z.max 10 w -> cp_windowLog x = cp_windowLog cPar \/ src + dict <= 2 ^ cp_windowLog x) as Hcov by (intros x ->; destruct Hcover'; [left; lia|by right]).
    destruct (Z.ltb_spec (24 + rowLog) h'); (split; [|by apply Hcov]); [exact (Hadj c' (24 + rowLog) ltac:(lia) ltac:(lia))|by apply Hadj].
  - eexists. split; [reflexivity|]. split; [by apply Hadj|]. cbn [cparams cp_windowLog]. destruct Hcover'; [left; lia|by right].
Qed.

(** ** Levels *)

(** The bounds of the rows of the tables. *)
Definition row_ok cPar : bool :=
  (10 <=? cp_windowLog cPar) && (cp_windowLog cPar <=? 27) && (6 <=? cp_chainLog cPar) && (cp_chainLog cPar <=? 27) && (6 <=? cp_hashLog cPar) && (cp_hashLog cPar <=? 25) &&
  (1 <=? cp_searchLog cPar) && (cp_searchLog cPar <=? 13) && (3 <=? cp_minMatch cPar) && (cp_minMatch cPar <=? 7) && (0 <=? cp_targetLength cPar) && (cp_targetLength cPar <=? 999) &&
  (1 <=? cp_strategy cPar) && (cp_strategy cPar <=? 9).

Lemma rows_ok t r rows cPar : ZSTD_defaultCParameters !! t = Some rows -> rows !! r = Some cPar -> row_ok cPar = true.
Proof.
  intros Ht Hr. assert (forallb (fun rows => (length rows =? 23)%nat && forallb row_ok rows) ZSTD_defaultCParameters = true) as Hall by (vm_compute; reflexivity).
  rewrite forallb_forall in Hall. specialize (Hall rows). apply list_elem_of_lookup_2, list_elem_of_In in Ht. specialize (Hall Ht). apply andb_true_iff in Hall as [_ Hall].
  rewrite forallb_forall in Hall. apply Hall. by apply list_elem_of_In, (list_elem_of_lookup_2 _ r).
Qed.

Lemma row_exists t : 0 <= t <= 3 -> exists rows, ZSTD_defaultCParameters !! Z.to_nat t = Some rows /\ length rows = 23%nat.
Proof. intros Ht. assert (t = 0 \/ t = 1 \/ t = 2 \/ t = 3) as [-> | [-> | [-> | ->]]] by lia; eexists; split; reflexivity. Qed.

Lemma row_cparams cPar : row_ok cPar = true -> cparams_ok cPar /\ cp_windowLog cPar <= 27.
Proof.
  unfold row_ok. rewrite !andb_true_iff. intros H. destruct_and?. pose proof log_limits. split; [constructor|]; lia.
Qed.

Lemma set_targetLength_ok x cPar : cparams_ok cPar -> 0 <= x <= 2 ^ 17 -> cparams_ok (set_targetLength x cPar).
Proof. intros [] ?. by constructor. Qed.

Lemma getCParams_spec level src dict mode : 0 <= src < 2 ^ 64 -> 0 <= dict < 2 ^ 63 ->
  exists cPar cPar' row, adjusted cPar cPar' /\ In row (concat ZSTD_defaultCParameters) /\ cp_windowLog cPar = cp_windowLog row /\ cp_windowLog row <= 27 /\ ZSTD_getCParams_internal level src dict mode = Ok cPar' /\
    (let (s, d) := mode_sizes mode src dict in cp_windowLog cPar' = cp_windowLog cPar \/ s + d <= 2 ^ cp_windowLog cPar').
Proof.
  intros Hs Hd. unfold ZSTD_getCParams_internal. set (t := b2z _ + b2z _ + b2z _). assert (0 <= t <= 3) as Ht by (subst t; unfold b2z; repeat destruct (_ <=? _); lia).
  set (row := if level =? 0 then _ else _). assert (0 <= row <= 22) as Hrow by (subst row; unfold ZSTD_CLEVEL_DEFAULT, ZSTD_MAX_CLEVEL; zcases; lia).
  destruct (row_exists t Ht) as (rows & Et & El). rewrite (proj2 (aget_Ok _ t rows)) by (split; [lia|done]). cbn [obind].
  destruct (lookup_lt_is_Some_2 rows (Z.to_nat row)) as [cp Ecp]; [lia|]. rewrite (proj2 (aget_Ok _ row cp)) by (split; [lia|done]). cbn [obind].
  destruct (row_cparams cp (rows_ok _ _ _ _ Et Ecp)) as [Hok Hw].
  set (cp' := if level <? 0 then _ else cp). assert (cparams_ok cp' /\ cp_windowLog cp' = cp_windowLog cp) as [Hok' Hw'].
  { subst cp'. destruct (Z.ltb_spec level 0); [|done]. split; [|done]. apply set_targetLength_ok; [done|]. unfold ZSTD_minCLevel, ZSTD_TARGETLENGTH_MAX. change ZSTD_BLOCKSIZE_MAX with (2 ^ 17). rewrite wrap_small by lia. lia. }
  destruct (adjust_spec cp' src dict mode ZSTD_ps_auto Hok' Hs Hd ltac:(unfold ZSTD_ps_auto; lia)) as (cp2 & E & Hadj & Hcov). exists cp', cp2, cp. split; [done|].
  split; [apply in_concat; exists rows; split; [by apply list_elem_of_In, (list_elem_of_lookup_2 _ (Z.to_nat t))|by apply list_elem_of_In, (list_elem_of_lookup_2 _ (Z.to_nat row))]|]. by split_and!.
Qed.

Lemma clamp_bounds p lo hi v : ZSTD_cParam_getBounds p = Ok (lo, hi) -> 0 <= lo <= hi -> hi < 2 ^ 31 -> 0 <= v < 2 ^ 32 -> lo <= CLAMP p v <= hi.
Proof.
  intros E Hlo Hhi Hv. unfold CLAMP. rewrite E. destruct (Z.lt_ge_cases v (2 ^ 31)) as [Hs|Hb].
  - rewrite (sgn_small 32) by (simpl; lia). zcases; lia.
  - assert (s32 v = v - 2 ^ 32) as -> by (unfold sgn; simpl; rewrite <- (Z.mod_add _ (-1)) by lia; rewrite Z.mod_small; lia). rewrite (proj2 (Z.ltb_lt _ _)) by lia. lia.
Qed.

Lemma clampCParams_ok cPar : (forall f, In f fields -> 0 <= f cPar < 2 ^ 32) -> cparams_ok (ZSTD_clampCParams cPar).
Proof.
  intros Hf. pose proof log_limits as (L1 & L2 & L3). pose proof (Hf cp_windowLog ltac:(simpl; tauto)). pose proof (Hf cp_chainLog ltac:(simpl; tauto)). pose proof (Hf cp_hashLog ltac:(simpl; tauto)).
  pose proof (Hf cp_searchLog ltac:(simpl; tauto)). pose proof (Hf cp_minMatch ltac:(simpl; tauto)). pose proof (Hf cp_targetLength ltac:(simpl; tauto)). pose proof (Hf cp_strategy ltac:(simpl; tauto)).
  constructor; cbn [ZSTD_clampCParams cp_windowLog cp_chainLog cp_hashLog cp_searchLog cp_minMatch cp_targetLength cp_strategy].
  - apply (clamp_bounds ZSTD_c_windowLog 10 ZSTD_WINDOWLOG_MAX); [done|lia..].
  - apply (clamp_bounds ZSTD_c_chainLog 6 ZSTD_CHAINLOG_MAX); [done|lia..].
  - apply (clamp_bounds ZSTD_c_hashLog 6 30); [cbn [ZSTD_cParam_getBounds]; by rewrite L3|lia..].
  - apply (clamp_bounds ZSTD_c_searchLog 1 (ZSTD_WINDOWLOG_MAX - 1)); [done|lia..].
  - apply (clamp_bounds ZSTD_c_minMatch 3 7); [done|lia..].
  - apply (clamp_bounds ZSTD_c_targetLength 0 (2 ^ 17)); [done|lia..].
  - apply (clamp_bounds ZSTD_c_strategy 1 9); [done|lia..].
Qed.
End Valid.

(** Every compression level gives valid parameters.  For every level, every size of the source (or unknown) and of the dictionary, and every mode,
    [ZSTD_getCParams_internal] returns (no assertion of it fails) parameters that [ZSTD_checkCParams] accepts, with a window that the decoder accepts by
    default; the window is shrunk only if the source and the dictionary still fit in it.  [ZSTD_adjustCParams] makes valid parameters of any seven numbers. *)
Theorem ZSTD_getCParams_valid `{P : Platform} level src dict mode cPar : 0 <= src < 2 ^ 64 -> 0 <= dict < 2 ^ 63 ->
  (forall f, In f fields -> 0 <= f cPar < 2 ^ 32) ->
  (exists row cp, ZSTD_getCParams_internal level src dict mode = Ok cp /\ ZSTD_checkCParams cp = Ok tt /\ cp_windowLog cp <= ZSTD_WINDOWLOG_LIMIT_DEFAULT /\
    (let (s, d) := mode_sizes mode src dict in cp_windowLog cp = cp_windowLog row \/ s + d <= 2 ^ cp_windowLog cp) /\ In row (concat ZSTD_defaultCParameters)) /\
  exists cp, ZSTD_adjustCParams cPar src dict = Ok cp /\ ZSTD_checkCParams cp = Ok tt.
Proof.
  intros Hs Hd Hf. split.
  - destruct (getCParams_spec level src dict mode Hs Hd) as (c1 & c2 & row & Hadj & Hrow & Ew & Hw & E & Hcov). exists row, c2. split; [done|]. split; [by apply check_cparams, (adj_ok _ _ Hadj)|].
    pose proof (adj_windowLog _ _ Hadj). split; [unfold ZSTD_WINDOWLOG_LIMIT_DEFAULT; lia|]. rewrite <- Ew. by split.
  - unfold ZSTD_adjustCParams. destruct (adjust_spec (ZSTD_clampCParams cPar) (if src =? 0 then ZSTD_CONTENTSIZE_UNKNOWN else src) dict ZSTD_cpm_unknown ZSTD_ps_auto) as (c2 & E & Hadj & _); try done.
    + by apply clampCParams_ok.
    + destruct (src =? 0); [by vm_compute|done].
    + exists c2. split; [done|]. by apply check_cparams, (adj_ok _ _ Hadj).
Qed.

Lemma ZSTD_getCParams_valid_witness : let P := arm64_v8a in let wild := cparams 4294967295 0 77 99 1 5 0 in
  ZSTD_getCParams_internal 3 1000 0 ZSTD_cpm_noAttachDict = Ok (cparams 10 10 11 2 4 0 ZSTD_dfast) /\ ZSTD_adjustCParams wild 1000 0 = Ok (cparams 10 6 11 30 3 5 ZSTD_fast) /\
  exists cp, ZSTD_getCParams_internal (-7) ZSTD_CONTENTSIZE_UNKNOWN 5 ZSTD_cpm_createCDict = Ok cp /\ ZSTD_checkCParams cp = Ok tt.
Proof.
  intros P wild. split; [vm_compute; reflexivity|]. split; [vm_compute; reflexivity|].
  destruct (ZSTD_getCParams_valid (P := P) (-7) ZSTD_CONTENTSIZE_UNKNOWN 5 ZSTD_cpm_createCDict wild) as ((row & cp & E & H & _) & _).
  - split; [by vm_compute|reflexivity].
  - split; [lia|reflexivity].
  - intros f Hf. cbn [fields In] in Hf. repeat (destruct Hf as [<- | Hf]; [split; [by vm_compute|reflexivity]|]). destruct Hf.
  - exists cp. split; [exact E|exact H].
Defined.
