(* ===== verification/RecordUpdate.v ===== *)
(** * Assignments to the fields of a record

    [r <| f := x |>] is [r] with [x] in its field [f], as a C assignment [r.f = x]
    leaves it, for the records that have an [Eta] instance; [r <| f ::= g |>] applies [g] to
    the field. *)
From S2P Require Import Prelude.

(** The identity that rebuilds a record from its fields. *)
Class Eta (R : Type) := eta : R -> R.

Class Setter {R T : Type} (proj : R -> T) := update : (T -> T) -> R -> R.
Arguments update {R T} proj {_} _ _.

(** The setter of a field is [eta] with that field replaced. *)
Ltac solve_setter :=
  match goal with
  | |- @Setter ?R ?T ?proj =>
      let e := constr:(_ : Eta R) in
      let e := eval red in e in
      match eval pattern proj in e with
      | ?k _ => let s := eval cbv beta in (fun (f : T -> T) => k (fun r : R => f (proj r))) in exact s
      end
  end.

#[global] Hint Extern 0 (Setter _) => solve_setter : typeclass_instances.

Notation "r <| f ::= g |>" := (update f g r) (at level 12, left associativity, f at next level).
Notation "r <| f := x |>" := (update f (fun _ => x) r) (at level 12, left associativity, f at next level).
