(* ===== verification/Calls.v ===== *)
(** * Calls that change an object

    A C function that works on an object may have changed it when it reports an error.  A [call]
    is the object afterwards with a result or the error; [triple I m Q] says that from every object in
    [I], [m] ends without a fault and leaves one in [Q]. *)
From S2P Require Import Prelude Mem Errors.

Definition call (S A : Type) : Type := S -> outcome Empty_set (S * (ZSTD_ErrorCode + A)).

Section Calls.
Context {S : Type}.

Definition cret {A} (a : A) : call S A := fun c => Ok (c, inr a).
Definition creject {A} (e : ZSTD_ErrorCode) : call S A := fun c => Ok (c, inl e).
Definition cbind {A B} (m : call S A) (k : A -> call S B) : call S B := fun c =>
  match m c with
  | Ok (c, inr a) => k a c
  | Ok (c, inl e) => Ok (c, inl e)
  | Err e => Err e
  | Fault f => Fault f
  end.
Definition cget : call S S := fun c => Ok (c, inr c).
Definition cmodify (f : S -> S) : call S unit := fun c => Ok (f c, inr tt).
Definition cassert (b : bool) : call S unit := if b then cret tt else fun _ => Fault AssertFailed.
Definition creject_if (b : bool) (e : ZSTD_ErrorCode) : call S unit := if b then creject e else cret tt.

(** A function that does not use the object. *)
Definition cpure {A} (m : res A) : call S A := fun c =>
  match m with Ok a => Ok (c, inr a) | Err e => Ok (c, inl e) | Fault f => Fault f end.

(** One step of a sequence. *)
Lemma bind_modify {B} f (k : unit -> call S B) c : cbind (cmodify f) k c = k tt (f c).
Proof. done. Qed.

Lemma bind_get {B} (k : S -> call S B) c : cbind cget k c = k c c.
Proof. done. Qed.

Lemma bind_ret {A B} (a : A) (k : A -> call S B) c : cbind (cret a) k c = k a c.
Proof. done. Qed.

Lemma bind_assert {B} b (k : unit -> call S B) c : b = true -> cbind (cassert b) k c = k tt c.
Proof. by intros ->. Qed.

Lemma bind_accept {B} b e (k : unit -> call S B) c : b = false -> cbind (creject_if b e) k c = k tt c.
Proof. by intros ->. Qed.

Lemma bind_pure {A B} (m : res A) a (k : A -> call S B) c : m = Ok a -> cbind (cpure m) k c = k a c.
Proof. by intros ->. Qed.

Lemma bind_step {A B} (m : call S A) (k : A -> call S B) c c' r : m c = Ok (c', r) -> cbind m k c = match r with inr a => k a c' | inl e => Ok (c', inl e) end.
Proof. unfold cbind. intros ->. by destruct r. Qed.

Definition triple {A} (I : S -> Prop) (m : call S A) (Q : S -> Prop) : Prop :=
  forall c, I c -> match m c with Ok (c', _) => Q c' | _ => False end.

Lemma triple_bind {A B} I Q R (m : call S A) (k : A -> call S B) : triple I m Q -> (forall a, triple Q (k a) R) -> (forall c, Q c -> R c) -> triple I (cbind m k) R.
Proof. intros Hm Hk Hw c Hc. unfold cbind. specialize (Hm c Hc). destruct (m c) as [[c' [e|a]]| |]; [by apply Hw|by apply Hk|done..]. Qed.

Lemma triple_weaken {A} (I I' Q Q' : S -> Prop) (m : call S A) : triple I' m Q' -> (forall c, I c -> I' c) -> (forall c, Q' c -> Q c) -> triple I m Q.
Proof. intros Hm HI HQ c Hc. specialize (Hm c (HI c Hc)). destruct (m c) as [[c' r]| |]; auto. Qed.

Lemma triple_ret {A} I (a : A) : triple I (cret a) I.
Proof. by intros c Hc. Qed.

Lemma triple_modify (I Q : S -> Prop) f : (forall c, I c -> Q (f c)) -> triple I (cmodify f) Q.
Proof. intros H c Hc. by apply H. Qed.

Lemma triple_get {B} (I R : S -> Prop) (k : S -> call S B) : (forall c, I c -> triple (eq c) (k c) R) -> triple I (cbind cget k) R.
Proof. intros H c Hc. exact (H c Hc c eq_refl). Qed.

Lemma triple_eq {A} (I R : S -> Prop) (m : call S A) : (forall c, I c -> triple (eq c) m R) -> triple I m R.
Proof. intros H c Hc. exact (H c Hc c eq_refl). Qed.

Lemma triple_reject_if I b e : triple I (creject_if b e) I.
Proof. intros c Hc. unfold creject_if. by destruct b. Qed.

Lemma triple_pure {A} I (m : res A) : match m with Fault _ => False | _ => True end -> triple I (cpure m) I.
Proof. intros Hm c Hc. unfold cpure. by destruct m. Qed.

(** From every object in [I], [m] succeeds with a result and an object in [Q]. *)
Definition wins {A} (I : S -> Prop) (m : call S A) (Q : A -> S -> Prop) : Prop :=
  forall c, I c -> exists c' a, m c = Ok (c', inr a) /\ Q a c'.

Lemma wins_bind {A B} I Q R (m : call S A) (k : A -> call S B) : wins I m Q -> (forall a, wins (Q a) (k a) R) -> wins I (cbind m k) R.
Proof. intros Hm Hk c Hc. unfold cbind. destruct (Hm c Hc) as (c' & a & -> & Hq). by apply Hk. Qed.

Lemma wins_ext {A} I (m m' : call S A) Q : (forall c, m c = m' c) -> wins I m Q -> wins I m' Q.
Proof. intros E H c Hc. rewrite <- E. by apply H. Qed.

Lemma wins_split {A} (X : Prop) (I : S -> Prop) (m : call S A) Q : (X -> wins I m Q) -> wins (fun c => X /\ I c) m Q.
Proof. intros H c [HX Hc]. by apply H. Qed.

Lemma wins_ret {A} (I : S -> Prop) (a : A) (Q : A -> S -> Prop) : (forall c, I c -> Q a c) -> wins I (cret a) Q.
Proof. intros H c Hc. exists c, a. split; [done|by apply H]. Qed.

Lemma wins_modify (I : S -> Prop) f (Q : unit -> S -> Prop) : (forall c, I c -> Q tt (f c)) -> wins I (cmodify f) Q.
Proof. intros H c Hc. exists (f c), tt. split; [done|by apply H]. Qed.

Lemma wins_then {B} (I J : S -> Prop) f (k : unit -> call S B) R : (forall c, I c -> J (f c)) -> wins J (k tt) R -> wins I (cbind (cmodify f) k) R.
Proof. intros H Hk c Hc. exact (Hk (f c) (H c Hc)). Qed.

Lemma wins_get {B} (I : S -> Prop) (k : S -> call S B) R : (forall c, I c -> wins (eq c) (k c) R) -> wins I (cbind cget k) R.
Proof. intros H c Hc. exact (H c Hc c eq_refl). Qed.

Lemma wins_weaken {A} (I I' : S -> Prop) (m : call S A) Q Q' : wins I' m Q' -> (forall c, I c -> I' c) -> (forall a c, Q' a c -> Q a c) -> wins I m Q.
Proof. intros Hm HI HQ c Hc. destruct (Hm c (HI c Hc)) as (c' & a & E & H). exists c', a. auto. Qed.

Lemma wins_pure {A} (I : S -> Prop) (m : res A) a (Q : A -> S -> Prop) : m = Ok a -> (forall c, I c -> Q a c) -> wins I (cpure m) Q.
Proof. intros -> H c Hc. exists c, a. split; [done|by apply H]. Qed.

Lemma wins_assert (I : S -> Prop) b (Q : unit -> S -> Prop) : b = true -> (forall c, I c -> Q tt c) -> wins I (cassert b) Q.
Proof. intros ->. apply wins_ret. Qed.

Lemma wins_reject_if (I : S -> Prop) b e (Q : unit -> S -> Prop) : b = false -> (forall c, I c -> Q tt c) -> wins I (creject_if b e) Q.
Proof. intros ->. apply wins_ret. Qed.

(** From every object in [I], [m] ends: with a result and an object in [Q], or with an error and an object in [E]. *)
Definition ends {A} (I : S -> Prop) (m : call S A) (Q : A -> S -> Prop) (E : ZSTD_ErrorCode -> S -> Prop) : Prop :=
  forall c, I c -> exists c' r, m c = Ok (c', r) /\ match r with inr a => Q a c' | inl e => E e c' end.

Lemma ends_wins {A} I (m : call S A) Q E : wins I m Q -> ends I m Q E.
Proof. intros H c Hc. destruct (H c Hc) as (c' & a & Em & HQ). by exists c', (inr a). Qed.

Lemma ends_bind {A B} I Q R E (m : call S A) (k : A -> call S B) : ends I m Q E -> (forall a, ends (Q a) (k a) R E) -> ends I (cbind m k) R E.
Proof. intros Hm Hk c Hc. unfold cbind. destruct (Hm c Hc) as (c' & [e|a] & -> & H); [by exists c', (inl e)|by apply Hk]. Qed.

Lemma ends_split {A} (X : Prop) (I : S -> Prop) (m : call S A) Q E : (X -> ends I m Q E) -> ends (fun c => X /\ I c) m Q E.
Proof. intros H c [HX Hc]. by apply H. Qed.

Lemma ends_eq {A} I (m : call S A) Q E : (forall c, I c -> ends (eq c) m Q E) -> ends I m Q E.
Proof. intros H c Hc. exact (H c Hc c eq_refl). Qed.

Lemma ends_weaken {A} (I I' : S -> Prop) (m : call S A) Q E : ends I' m Q E -> (forall c, I c -> I' c) -> ends I m Q E.
Proof. intros H HI c Hc. apply H. by apply HI. Qed.
End Calls.

Declare Scope call_scope.
Delimit Scope call_scope with call.
Notation "'let!' x := m 'in' k" := (cbind m (fun x => k)) (at level 200, x pattern, m at level 100, k at level 200, right associativity) : call_scope.
Notation "'do' m ; k" := (cbind m (fun _ => k)) (at level 200, m at level 100, k at level 200, right associativity) : call_scope.
