(* ===== verification/CCtxParams.v ===== *)
(** * The parameters of a compression context

    [ZSTD_CCtx_params], its initialisation, and the functions that set and read one parameter,
    from zstd_compress.c; the adjustment of the parameters of long distance matching, from zstd_ldm.c.
    Setting and reading a parameter round trip and leave the others alone, and however
    parameters are set, those of a compression are valid.

    Enumerations are the integers the interface passes, and casts to them the identity; null
    pointers are 0.  Multithreading is not compiled. *)
From S2P Require Import Prelude Mem Errors Bits Frame CParams RecordUpdate.

(** ** The records *)

#[global] Instance eta_compressionParameters : Eta ZSTD_compressionParameters := fun p =>
  cparams (cp_windowLog p) (cp_chainLog p) (cp_hashLog p) (cp_searchLog p) (cp_minMatch p) (cp_targetLength p) (cp_strategy p).

#[global] Instance eta_frameParameters : Eta ZSTD_frameParameters := fun p =>
  {| contentSizeFlag := contentSizeFlag p; p_checksumFlag := p_checksumFlag p; noDictIDFlag := noDictIDFlag p |}.

Record ldmParams_t := {
  enableLdm : Z;
  ldm_hashLog : Z;
  bucketSizeLog : Z;
  minMatchLength : Z;
  hashRateLog : Z;
  ldm_windowLog : Z
}.

#[global] Instance eta_ldmParams : Eta ldmParams_t := fun p =>
  {| enableLdm := enableLdm p; ldm_hashLog := ldm_hashLog p; bucketSizeLog := bucketSizeLog p; minMatchLength := minMatchLength p;
     hashRateLog := hashRateLog p; ldm_windowLog := ldm_windowLog p |}.

Record ZSTD_customMem := { customAlloc : Z; customFree : Z; opaque : Z }.

Record ZSTD_CCtx_params := {
  format : Z;
  cParams : ZSTD_compressionParameters;
  fParams : ZSTD_frameParameters;
  compressionLevel : Z;
  forceWindow : Z;
  targetCBlockSize : Z;
  srcSizeHint : Z;
  attachDictPref : Z;
  literalCompressionMode : Z;
  nbWorkers : Z;
  jobSize : Z;
  overlapLog : Z;
  rsyncable : Z;
  ldmParams : ldmParams_t;
  enableDedicatedDictSearch : Z;
  inBufferMode : Z;
  outBufferMode : Z;
  blockDelimiters : Z;
  validateSequences : Z;
  postBlockSplitter : Z;
  preBlockSplitter_level : Z;
  maxBlockSize : Z;
  useRowMatchFinder : Z;
  deterministicRefPrefix : Z;
  customMem : ZSTD_customMem;
  prefetchCDictTables : Z;
  enableMatchFinderFallback : Z;
  extSeqProdState : Z;
  extSeqProdFunc : Z;
  searchForExternalRepcodes : Z
}.

#[global] Instance eta_CCtx_params : Eta ZSTD_CCtx_params := fun p =>
  {| format := format p; cParams := cParams p; fParams := fParams p; compressionLevel := compressionLevel p; forceWindow := forceWindow p;
     targetCBlockSize := targetCBlockSize p; srcSizeHint := srcSizeHint p; attachDictPref := attachDictPref p;
     literalCompressionMode := literalCompressionMode p; nbWorkers := nbWorkers p; jobSize := jobSize p; overlapLog := overlapLog p;
     rsyncable := rsyncable p; ldmParams := ldmParams p; enableDedicatedDictSearch := enableDedicatedDictSearch p; inBufferMode := inBufferMode p;
     outBufferMode := outBufferMode p; blockDelimiters := blockDelimiters p; validateSequences := validateSequences p;
     postBlockSplitter := postBlockSplitter p; preBlockSplitter_level := preBlockSplitter_level p; maxBlockSize := maxBlockSize p;
     useRowMatchFinder := useRowMatchFinder p; deterministicRefPrefix := deterministicRefPrefix p; customMem := customMem p;
     prefetchCDictTables := prefetchCDictTables p; enableMatchFinderFallback := enableMatchFinderFallback p; extSeqProdState := extSeqProdState p;
     extSeqProdFunc := extSeqProdFunc p; searchForExternalRepcodes := searchForExternalRepcodes p |}.

(** [memset(cctxParams, 0, sizeof *cctxParams)] *)
Definition zero_CCtxParams : ZSTD_CCtx_params :=
  {| format := 0; cParams := cparams 0 0 0 0 0 0 0; fParams := {| contentSizeFlag := 0; p_checksumFlag := 0; noDictIDFlag := 0 |}; compressionLevel := 0;
     forceWindow := 0; targetCBlockSize := 0; srcSizeHint := 0; attachDictPref := 0; literalCompressionMode := 0; nbWorkers := 0; jobSize := 0;
     overlapLog := 0; rsyncable := 0;
     ldmParams := {| enableLdm := 0; ldm_hashLog := 0; bucketSizeLog := 0; minMatchLength := 0; hashRateLog := 0; ldm_windowLog := 0 |};
     enableDedicatedDictSearch := 0; inBufferMode := 0; outBufferMode := 0; blockDelimiters := 0; validateSequences := 0; postBlockSplitter := 0;
     preBlockSplitter_level := 0; maxBlockSize := 0; useRowMatchFinder := 0; deterministicRefPrefix := 0;
     customMem := {| customAlloc := 0; customFree := 0; opaque := 0 |}; prefetchCDictTables := 0; enableMatchFinderFallback := 0; extSeqProdState := 0;
     extSeqProdFunc := 0; searchForExternalRepcodes := 0 |}.

Definition LDM_BUCKET_SIZE_LOG : Z := 4.
Definition LDM_MIN_MATCH_LENGTH : Z := 64.
Definition ZSTD_NO_CLEVEL : Z := 0.

Definition BOUNDED (min val max : Z) : Z := Z.max min (Z.min val max).

Section Operations.
Context `{P : Platform}.
Implicit Types (p : ZSTD_CCtx_params) (cPar : ZSTD_compressionParameters).

(** ** Long distance matching *)

(** Arithmetic is that of [U32]. *)
Definition ZSTD_ldm_adjustParameters (params : ldmParams_t) cPar : res ldmParams_t :=
  let params := params <| ldm_windowLog := cp_windowLog cPar |> in
  let* params :=
    if hashRateLog params =? 0 then
      if 0 <? ldm_hashLog params then
        oassert (ldm_hashLog params <=? ZSTD_HASHLOG_MAX);;;
        Ok (if ldm_hashLog params <? ldm_windowLog params then params <| hashRateLog := u32 (ldm_windowLog params - ldm_hashLog params) |> else params)
      else
        oassert ((1 <=? cp_strategy cPar) && (cp_strategy cPar <=? 9));;;
        Ok (params <| hashRateLog := 7 - cp_strategy cPar / 3 |>)
    else Ok params in
  let params := if ldm_hashLog params =? 0
    then params <| ldm_hashLog := BOUNDED ZSTD_HASHLOG_MIN (u32 (ldm_windowLog params - hashRateLog params)) ZSTD_HASHLOG_MAX |> else params in
  let params := if minMatchLength params =? 0
    then params <| minMatchLength := if ZSTD_btultra <=? cp_strategy cPar then LDM_MIN_MATCH_LENGTH / 2 else LDM_MIN_MATCH_LENGTH |> else params in
  let* params :=
    if bucketSizeLog params =? 0 then
      oassert ((1 <=? cp_strategy cPar) && (cp_strategy cPar <=? 9));;;
      Ok (params <| bucketSizeLog := BOUNDED LDM_BUCKET_SIZE_LOG (cp_strategy cPar) ZSTD_LDM_BUCKETSIZELOG_MAX |>)
    else Ok params in
  Ok (params <| bucketSizeLog := Z.min (bucketSizeLog params) (ldm_hashLog params) |>).

(** ** Initialisation *)

Definition ZSTD_resolveExternalSequenceValidation (mode : Z) : Z := mode.

Definition ZSTD_hasExtSeqProd p : bool := negb (extSeqProdFunc p =? 0).

Definition ZSTD_CCtxParams_init (compressionLevel : Z) : ZSTD_CCtx_params :=
  let cctxParams := zero_CCtxParams <| CCtxParams.compressionLevel := compressionLevel |> in
  cctxParams <| fParams := fParams cctxParams <| contentSizeFlag := 1 |> |>.

Definition ZSTD_CCtxParams_reset : ZSTD_CCtx_params := ZSTD_CCtxParams_init ZSTD_CLEVEL_DEFAULT.

(** [calloc] says whether the allocation succeeds. *)
Definition ZSTD_createCCtxParams_advanced (calloc : bool) (mem : ZSTD_customMem) : option ZSTD_CCtx_params :=
  if xorb (customAlloc mem =? 0) (customFree mem =? 0) then None
  else if negb calloc then None
  else Some (ZSTD_CCtxParams_init ZSTD_CLEVEL_DEFAULT <| customMem := mem |>).

Definition ZSTD_makeCCtxParamsFromCParams cPar : res ZSTD_CCtx_params :=
  let p := ZSTD_CCtxParams_init ZSTD_CLEVEL_DEFAULT in
  let p := p <| cParams := cPar |> in
  let p := p <| ldmParams := ldmParams p <| enableLdm := ZSTD_resolveEnableLdm (enableLdm (ldmParams p)) cPar |> |> in
  let* p :=
    if enableLdm (ldmParams p) =? ZSTD_ps_enable then
      let* ldm := ZSTD_ldm_adjustParameters (ldmParams p) cPar in
      let p := p <| ldmParams := ldm |> in
      oassert (bucketSizeLog (ldmParams p) <=? ldm_hashLog (ldmParams p));;;
      oassert (hashRateLog (ldmParams p) <? 32);;;
      Ok p
    else Ok p in
  let p := p <| postBlockSplitter := ZSTD_resolveBlockSplitterMode (postBlockSplitter p) cPar |> in
  let p := p <| useRowMatchFinder := ZSTD_resolveRowMatchFinderMode (useRowMatchFinder p) cPar |> in
  let p := p <| validateSequences := ZSTD_resolveExternalSequenceValidation (validateSequences p) |> in
  let p := p <| maxBlockSize := ZSTD_resolveMaxBlockSize (maxBlockSize p) |> in
  let p := p <| searchForExternalRepcodes := ZSTD_resolveExternalRepcodeSearch (searchForExternalRepcodes p) (compressionLevel p) |> in
  oassert (match ZSTD_checkCParams cPar with Ok _ => true | _ => false end);;;
  Ok p.

Definition ZSTD_CCtxParams_init_internal (params : ZSTD_compressionParameters * ZSTD_frameParameters) (compressionLevel : Z) : res ZSTD_CCtx_params :=
  let (cPar, fPar) := params in
  oassert (match ZSTD_checkCParams cPar with Ok _ => true | _ => false end);;;
  let p := zero_CCtxParams <| cParams := cPar |> <| fParams := fPar |> <| CCtxParams.compressionLevel := compressionLevel |> in
  let p := p <| useRowMatchFinder := ZSTD_resolveRowMatchFinderMode (useRowMatchFinder p) cPar |> in
  let p := p <| postBlockSplitter := ZSTD_resolveBlockSplitterMode (postBlockSplitter p) cPar |> in
  let p := p <| ldmParams := ldmParams p <| enableLdm := ZSTD_resolveEnableLdm (enableLdm (ldmParams p)) cPar |> |> in
  let p := p <| validateSequences := ZSTD_resolveExternalSequenceValidation (validateSequences p) |> in
  let p := p <| maxBlockSize := ZSTD_resolveMaxBlockSize (maxBlockSize p) |> in
  Ok (p <| searchForExternalRepcodes := ZSTD_resolveExternalRepcodeSearch (searchForExternalRepcodes p) compressionLevel |>).

Definition ZSTD_CCtxParams_init_advanced (params : ZSTD_compressionParameters * ZSTD_frameParameters) : res ZSTD_CCtx_params :=
  ZSTD_checkCParams params.1;;;
  ZSTD_CCtxParams_init_internal params ZSTD_NO_CLEVEL.

Definition ZSTD_CCtxParams_setZstdParams p (params : ZSTD_compressionParameters * ZSTD_frameParameters) : res ZSTD_CCtx_params :=
  oassert (match ZSTD_checkCParams params.1 with Ok _ => true | _ => false end);;;
  Ok (p <| cParams := params.1 |> <| fParams := params.2 |> <| compressionLevel := ZSTD_NO_CLEVEL |>).

Definition ZSTD_CCtxParams_registerSequenceProducer p (state func : Z) : ZSTD_CCtx_params :=
  if negb (func =? 0) then p <| extSeqProdFunc := func |> <| extSeqProdState := state |>
  else p <| extSeqProdFunc := 0 |> <| extSeqProdState := 0 |>.

(** ** Setting and reading one parameter *)

(** [if (value!=0) BOUNDCHECK(param, value);] *)
Definition check_nonzero (param : ZSTD_cParameter) (value : Z) : res unit :=
  if negb (value =? 0) then BOUNDCHECK param value else Ok tt.

(** The new parameters and the value returned. *)
Definition ZSTD_CCtxParams_setParameter p (param : ZSTD_cParameter) (value : Z) : res (ZSTD_CCtx_params * Z) :=
  match param with
  | ZSTD_c_format => BOUNDCHECK ZSTD_c_format value;;; Ok (p <| format := value |>, value)
  | ZSTD_c_compressionLevel =>
      let* value := ZSTD_cParam_clampBounds param value in
      let p := if value =? 0 then p <| compressionLevel := ZSTD_CLEVEL_DEFAULT |> else p <| compressionLevel := value |> in
      if 0 <=? compressionLevel p then Ok (p, compressionLevel p) else Ok (p, 0)
  | ZSTD_c_windowLog => check_nonzero ZSTD_c_windowLog value;;; Ok (p <| cParams := cParams p <| cp_windowLog := u32 value |> |>, u32 value)
  | ZSTD_c_hashLog => check_nonzero ZSTD_c_hashLog value;;; Ok (p <| cParams := cParams p <| cp_hashLog := u32 value |> |>, u32 value)
  | ZSTD_c_chainLog => check_nonzero ZSTD_c_chainLog value;;; Ok (p <| cParams := cParams p <| cp_chainLog := u32 value |> |>, u32 value)
  | ZSTD_c_searchLog => check_nonzero ZSTD_c_searchLog value;;; Ok (p <| cParams := cParams p <| cp_searchLog := u32 value |> |>, size_t value)
  | ZSTD_c_minMatch => check_nonzero ZSTD_c_minMatch value;;; Ok (p <| cParams := cParams p <| cp_minMatch := u32 value |> |>, u32 value)
  | ZSTD_c_targetLength => BOUNDCHECK ZSTD_c_targetLength value;;; Ok (p <| cParams := cParams p <| cp_targetLength := u32 value |> |>, u32 value)
  | ZSTD_c_strategy => check_nonzero ZSTD_c_strategy value;;; Ok (p <| cParams := cParams p <| cp_strategy := value |> |>, value)
  | ZSTD_c_contentSizeFlag => Ok (p <| fParams := fParams p <| contentSizeFlag := b2z (negb (value =? 0)) |> |>, b2z (negb (value =? 0)))
  | ZSTD_c_checksumFlag => Ok (p <| fParams := fParams p <| p_checksumFlag := b2z (negb (value =? 0)) |> |>, b2z (negb (value =? 0)))
  | ZSTD_c_dictIDFlag =>
      let p := p <| fParams := fParams p <| noDictIDFlag := b2z (value =? 0) |> |> in
      Ok (p, b2z (noDictIDFlag (fParams p) =? 0))
  | ZSTD_c_forceMaxWindow => Ok (p <| forceWindow := b2z (negb (value =? 0)) |>, b2z (negb (value =? 0)))
  | ZSTD_c_forceAttachDict => BOUNDCHECK ZSTD_c_forceAttachDict value;;; Ok (p <| attachDictPref := value |>, value)
  | ZSTD_c_literalCompressionMode => BOUNDCHECK ZSTD_c_literalCompressionMode value;;; Ok (p <| literalCompressionMode := value |>, value)
  | ZSTD_c_nbWorkers => reject_if (negb (value =? 0)) ZSTD_error_parameter_unsupported;;; Ok (p, 0)
  | ZSTD_c_jobSize => reject_if (negb (value =? 0)) ZSTD_error_parameter_unsupported;;; Ok (p, 0)
  | ZSTD_c_overlapLog => reject_if (negb (value =? 0)) ZSTD_error_parameter_unsupported;;; Ok (p, 0)
  | ZSTD_c_rsyncable => reject_if (negb (value =? 0)) ZSTD_error_parameter_unsupported;;; Ok (p, 0)
  | ZSTD_c_enableDedicatedDictSearch => Ok (p <| enableDedicatedDictSearch := b2z (negb (value =? 0)) |>, b2z (negb (value =? 0)))
  | ZSTD_c_enableLongDistanceMatching => BOUNDCHECK ZSTD_c_enableLongDistanceMatching value;;; Ok (p <| ldmParams := ldmParams p <| enableLdm := value |> |>, value)
  | ZSTD_c_ldmHashLog => check_nonzero ZSTD_c_ldmHashLog value;;; Ok (p <| ldmParams := ldmParams p <| ldm_hashLog := u32 value |> |>, u32 value)
  | ZSTD_c_ldmMinMatch => check_nonzero ZSTD_c_ldmMinMatch value;;; Ok (p <| ldmParams := ldmParams p <| minMatchLength := u32 value |> |>, u32 value)
  | ZSTD_c_ldmBucketSizeLog => check_nonzero ZSTD_c_ldmBucketSizeLog value;;; Ok (p <| ldmParams := ldmParams p <| bucketSizeLog := u32 value |> |>, u32 value)
  | ZSTD_c_ldmHashRateLog => check_nonzero ZSTD_c_ldmHashRateLog value;;; Ok (p <| ldmParams := ldmParams p <| hashRateLog := u32 value |> |>, u32 value)
  | ZSTD_c_targetCBlockSize =>
      let* value := if negb (value =? 0)
        then let value := Z.max value ZSTD_TARGETCBLOCKSIZE_MIN in BOUNDCHECK ZSTD_c_targetCBlockSize value;;; Ok value
        else Ok value in
      Ok (p <| targetCBlockSize := u32 value |>, u32 value)
  | ZSTD_c_srcSizeHint => check_nonzero ZSTD_c_srcSizeHint value;;; Ok (p <| srcSizeHint := value |>, size_t value)
  | ZSTD_c_stableInBuffer => BOUNDCHECK ZSTD_c_stableInBuffer value;;; Ok (p <| inBufferMode := value |>, value)
  | ZSTD_c_stableOutBuffer => BOUNDCHECK ZSTD_c_stableOutBuffer value;;; Ok (p <| outBufferMode := value |>, value)
  | ZSTD_c_blockDelimiters => BOUNDCHECK ZSTD_c_blockDelimiters value;;; Ok (p <| blockDelimiters := value |>, value)
  | ZSTD_c_validateSequences => BOUNDCHECK ZSTD_c_validateSequences value;;; Ok (p <| validateSequences := value |>, size_t value)
  | ZSTD_c_splitAfterSequences => BOUNDCHECK ZSTD_c_splitAfterSequences value;;; Ok (p <| postBlockSplitter := value |>, value)
  | ZSTD_c_blockSplitterLevel => BOUNDCHECK ZSTD_c_blockSplitterLevel value;;; Ok (p <| preBlockSplitter_level := value |>, size_t value)
  | ZSTD_c_useRowMatchFinder => BOUNDCHECK ZSTD_c_useRowMatchFinder value;;; Ok (p <| useRowMatchFinder := value |>, value)
  | ZSTD_c_deterministicRefPrefix => BOUNDCHECK ZSTD_c_deterministicRefPrefix value;;; Ok (p <| deterministicRefPrefix := b2z (negb (value =? 0)) |>, b2z (negb (value =? 0)))
  | ZSTD_c_prefetchCDictTables => BOUNDCHECK ZSTD_c_prefetchCDictTables value;;; Ok (p <| prefetchCDictTables := value |>, value)
  | ZSTD_c_enableSeqProducerFallback => BOUNDCHECK ZSTD_c_enableSeqProducerFallback value;;; Ok (p <| enableMatchFinderFallback := value |>, size_t value)
  | ZSTD_c_maxBlockSize =>
      check_nonzero ZSTD_c_maxBlockSize value;;;
      oassert (0 <=? value);;;
      Ok (p <| maxBlockSize := size_t value |>, size_t value)
  | ZSTD_c_repcodeResolution => BOUNDCHECK ZSTD_c_repcodeResolution value;;; Ok (p <| searchForExternalRepcodes := value |>, value)
  | ZSTD_c_unknown _ => Err ZSTD_error_parameter_unsupported
  end.

(** The value read; [int] is [s32]. *)
Definition ZSTD_CCtxParams_getParameter p (param : ZSTD_cParameter) : res Z :=
  match param with
  | ZSTD_c_format => Ok (format p)
  | ZSTD_c_compressionLevel => Ok (compressionLevel p)
  | ZSTD_c_windowLog => Ok (s32 (cp_windowLog (cParams p)))
  | ZSTD_c_hashLog => Ok (s32 (cp_hashLog (cParams p)))
  | ZSTD_c_chainLog => Ok (s32 (cp_chainLog (cParams p)))
  | ZSTD_c_searchLog => Ok (s32 (cp_searchLog (cParams p)))
  | ZSTD_c_minMatch => Ok (s32 (cp_minMatch (cParams p)))
  | ZSTD_c_targetLength => Ok (s32 (cp_targetLength (cParams p)))
  | ZSTD_c_strategy => Ok (cp_strategy (cParams p))
  | ZSTD_c_contentSizeFlag => Ok (contentSizeFlag (fParams p))
  | ZSTD_c_checksumFlag => Ok (p_checksumFlag (fParams p))
  | ZSTD_c_dictIDFlag => Ok (b2z (noDictIDFlag (fParams p) =? 0))
  | ZSTD_c_forceMaxWindow => Ok (forceWindow p)
  | ZSTD_c_forceAttachDict => Ok (attachDictPref p)
  | ZSTD_c_literalCompressionMode => Ok (literalCompressionMode p)
  | ZSTD_c_nbWorkers => oassert (nbWorkers p =? 0);;; Ok (nbWorkers p)
  | ZSTD_c_jobSize | ZSTD_c_overlapLog | ZSTD_c_rsyncable => Err ZSTD_error_parameter_unsupported
  | ZSTD_c_enableDedicatedDictSearch => Ok (enableDedicatedDictSearch p)
  | ZSTD_c_enableLongDistanceMatching => Ok (enableLdm (ldmParams p))
  | ZSTD_c_ldmHashLog => Ok (s32 (ldm_hashLog (ldmParams p)))
  | ZSTD_c_ldmMinMatch => Ok (s32 (minMatchLength (ldmParams p)))
  | ZSTD_c_ldmBucketSizeLog => Ok (s32 (bucketSizeLog (ldmParams p)))
  | ZSTD_c_ldmHashRateLog => Ok (s32 (hashRateLog (ldmParams p)))
  | ZSTD_c_targetCBlockSize => Ok (s32 (targetCBlockSize p))
  | ZSTD_c_srcSizeHint => Ok (srcSizeHint p)
  | ZSTD_c_stableInBuffer => Ok (inBufferMode p)
  | ZSTD_c_stableOutBuffer => Ok (outBufferMode p)
  | ZSTD_c_blockDelimiters => Ok (blockDelimiters p)
  | ZSTD_c_validateSequences => Ok (validateSequences p)
  | ZSTD_c_splitAfterSequences => Ok (postBlockSplitter p)
  | ZSTD_c_blockSplitterLevel => Ok (preBlockSplitter_level p)
  | ZSTD_c_useRowMatchFinder => Ok (useRowMatchFinder p)
  | ZSTD_c_deterministicRefPrefix => Ok (deterministicRefPrefix p)
  | ZSTD_c_prefetchCDictTables => Ok (prefetchCDictTables p)
  | ZSTD_c_enableSeqProducerFallback => Ok (enableMatchFinderFallback p)
  | ZSTD_c_maxBlockSize => Ok (s32 (maxBlockSize p))
  | ZSTD_c_repcodeResolution => Ok (searchForExternalRepcodes p)
  | ZSTD_c_unknown _ => Err ZSTD_error_parameter_unsupported
  end.

(** ** The compression parameters of a compression *)

(** Fields that are set override those of [cPar]. *)
Definition ZSTD_overrideCParams cPar (overrides : ZSTD_compressionParameters) : ZSTD_compressionParameters :=
  let cPar := if negb (cp_windowLog overrides =? 0) then cPar <| cp_windowLog := cp_windowLog overrides |> else cPar in
  let cPar := if negb (cp_hashLog overrides =? 0) then cPar <| cp_hashLog := cp_hashLog overrides |> else cPar in
  let cPar := if negb (cp_chainLog overrides =? 0) then cPar <| cp_chainLog := cp_chainLog overrides |> else cPar in
  let cPar := if negb (cp_searchLog overrides =? 0) then cPar <| cp_searchLog := cp_searchLog overrides |> else cPar in
  let cPar := if negb (cp_minMatch overrides =? 0) then cPar <| cp_minMatch := cp_minMatch overrides |> else cPar in
  let cPar := if negb (cp_targetLength overrides =? 0) then cPar <| cp_targetLength := cp_targetLength overrides |> else cPar in
  if negb (cp_strategy overrides =? 0) then cPar <| cp_strategy := cp_strategy overrides |> else cPar.

Definition ZSTD_getCParamsFromCCtxParams p (hint dictSize : Z) (mode : ZSTD_CParamMode_e) : res ZSTD_compressionParameters :=
  let* hint :=
    if (hint =? ZSTD_CONTENTSIZE_UNKNOWN) && (0 <? srcSizeHint p)
    then oassert (0 <=? srcSizeHint p);;; Ok (u64 (srcSizeHint p)) else Ok hint in
  let* cPar := ZSTD_getCParams_internal (compressionLevel p) hint dictSize mode in
  let cPar := if enableLdm (ldmParams p) =? ZSTD_ps_enable then cPar <| cp_windowLog := ZSTD_LDM_DEFAULT_WINDOW_LOG |> else cPar in
  let cPar := ZSTD_overrideCParams cPar (cParams p) in
  oassert (match ZSTD_checkCParams cPar with Ok _ => true | _ => false end);;;
  ZSTD_adjustCParams_internal cPar hint dictSize mode (useRowMatchFinder p).
End Operations.

(** ** Setting and reading *)

Section RoundTrip.
Context `{P : Platform}.
Implicit Types (p : ZSTD_CCtx_params).

(** The value that setting [param] to [value] stores, if it is accepted. *)
Definition effective (param : ZSTD_cParameter) (value : Z) : Z :=
  match param with
  | ZSTD_c_compressionLevel => let v := Z.min ZSTD_maxCLevel (Z.max ZSTD_minCLevel value) in if v =? 0 then ZSTD_CLEVEL_DEFAULT else v
  | ZSTD_c_contentSizeFlag | ZSTD_c_checksumFlag | ZSTD_c_dictIDFlag | ZSTD_c_forceMaxWindow | ZSTD_c_enableDedicatedDictSearch => b2z (negb (value =? 0))
  | ZSTD_c_targetCBlockSize => if value =? 0 then 0 else Z.max value ZSTD_TARGETCBLOCKSIZE_MIN
  | _ => value
  end.

(** Parameters that exist only with multithreading. *)
Definition multithreading (param : ZSTD_cParameter) : bool :=
  match param with ZSTD_c_jobSize | ZSTD_c_overlapLog | ZSTD_c_rsyncable => true | _ => false end.

Lemma within_inv param v : ZSTD_cParam_withinBounds param v = true -> exists lo hi, ZSTD_cParam_getBounds param = Ok (lo, hi) /\ lo <= v <= hi.
Proof.
  unfold ZSTD_cParam_withinBounds. destruct (ZSTD_cParam_getBounds param) as [[lo hi]| |]; [|done..]. intros H. exists lo, hi. split; [done|].
  apply andb_prop in H as [? ?]. lia.
Qed.

(** Bounds other than those of the level are small numbers. *)
Lemma within_int param v : ZSTD_cParam_withinBounds param v = true -> param <> ZSTD_c_compressionLevel -> 0 <= v < 2 ^ 31.
Proof.
  intros H Hne. destruct (within_inv param v H) as (lo & hi & E & Hv). pose proof log_limits as (L1 & L2 & L3).
  assert (0 <= lo /\ hi < 2 ^ 31); [|lia]. destruct param; try done; injection E as <- <-; unfold ZSTD_LDM_HASHLOG_MAX, ZSTD_SEARCHLOG_MAX, ZSTD_LDM_HASHRATELOG_MAX; rewrite ?L3; (split; [discriminate|]); try reflexivity; try (unfold ZSTD_HASHLOG_MIN; lia).
Qed.

Lemma BOUNDCHECK_inv param v u : BOUNDCHECK param v = Ok u -> ZSTD_cParam_withinBounds param v = true.
Proof. unfold BOUNDCHECK. by destruct (ZSTD_cParam_withinBounds param v). Qed.

Lemma check_nonzero_inv param v u : check_nonzero param v = Ok u -> v = 0 \/ ZSTD_cParam_withinBounds param v = true.
Proof. unfold check_nonzero. destruct (Z.eqb_spec v 0) as [->|]; [by left|]. cbn [negb]. intros H. right. by eapply BOUNDCHECK_inv. Qed.

Lemma BOUNDCHECK_within param v : ZSTD_cParam_withinBounds param v = true -> BOUNDCHECK param v = Ok tt.
Proof. unfold BOUNDCHECK. by intros ->. Qed.

Lemma check_nonzero_within param v : ZSTD_cParam_withinBounds param v = true -> check_nonzero param v = Ok tt.
Proof. intros H. unfold check_nonzero. destruct (v =? 0); [done|]. by apply BOUNDCHECK_within. Qed.

Lemma accepts param v : ZSTD_cParam_withinBounds param v = true -> param <> ZSTD_c_rsyncable -> forall p, exists p' r, ZSTD_CCtxParams_setParameter p param v = Ok (p', r).
Proof.
  intros H Hr p. destruct param; try done; cbn [ZSTD_CCtxParams_setParameter]; rewrite ?(BOUNDCHECK_within _ _ H), ?(check_nonzero_within _ _ H); cbn [obind]; try (by eexists _, _);
    try (apply within_inv in H as (lo & hi & [= <- <-] & Hv); assert (v = 0) as -> by lia; by eexists _, _).
  - unfold ZSTD_cParam_clampBounds. cbn [ZSTD_cParam_getBounds obind]. destruct (_ <=? _); by eexists _, _.
  - destruct (within_inv _ _ H) as (lo & hi & [= <- <-] & Hv). rewrite Z.max_l by lia. rewrite (BOUNDCHECK_within _ _ H). destruct (negb _); by eexists _, _.
  - rewrite (proj2 (Z.leb_le 0 v)) by (apply (within_int _ _ H); done). by eexists _, _.
Qed.

Lemma u32_int v : 0 <= v < 2 ^ 31 -> s32 (u32 v) = v /\ u32 v = v.
Proof. intros Hv. rewrite (wrap_small 32 v) by lia. split; [apply sgn_small; simpl; lia|done]. Qed.

(** A value accepted with 0 as the default fits [int], [U32] and [size_t]. *)
Lemma accepted_int param v u : check_nonzero param v = Ok u \/ BOUNDCHECK param v = Ok u -> param <> ZSTD_c_compressionLevel -> 0 <= v < 2 ^ 31.
Proof. intros [H|H] Hne; [apply check_nonzero_inv in H as [->|H]; [lia|]|apply BOUNDCHECK_inv in H]; by apply (within_int param). Qed.

Lemma size_t_int v : 0 <= v < 2 ^ 31 -> size_t v = v.
Proof. intros. apply size_t_small. lia. Qed.

Lemma clamp_level v : ZSTD_cParam_clampBounds ZSTD_c_compressionLevel v = Ok (ZSTD_maxCLevel `min` (ZSTD_minCLevel `max` v)).
Proof.
  unfold ZSTD_cParam_clampBounds. cbn [ZSTD_cParam_getBounds obind]. f_equal. assert (ZSTD_minCLevel <= ZSTD_maxCLevel) by (by vm_compute).
  destruct (Z.ltb_spec v ZSTD_minCLevel); match goal with |- context [ZSTD_maxCLevel <? ?x] => destruct (Z.ltb_spec ZSTD_maxCLevel x) end; lia.
Qed.

(** What is stored, what is returned, and what is left alone. *)
Lemma set_get p param v p' r : ZSTD_CCtxParams_setParameter p param v = Ok (p', r) ->
  r = Z.max 0 (effective param v) /\ (multithreading param = false -> nbWorkers p = 0 -> ZSTD_CCtxParams_getParameter p' param = Ok (effective param v)) /\
  forall q, q <> param -> ZSTD_CCtxParams_getParameter p' q = ZSTD_CCtxParams_getParameter p q.
Proof.
  destruct param; cbn [ZSTD_CCtxParams_setParameter effective]; intros E; try done;
    try (apply bind_Ok in E as (u & Hu & E); injection E as <- <-;
         assert (0 <= v < 2 ^ 31) as Hv by (eapply accepted_int; [first [left; exact Hu|right; exact Hu]|done]); destruct (u32_int v Hv) as [E1 E2];
         split; [rewrite ?E2, ?(size_t_int v Hv); lia|]; split; [intros _ _; cbn; by rewrite ?E1|intros q Hq; by destruct q]).
  all: try (apply bind_Ok in E as (u & Hu & E); destruct (Z.eqb_spec v 0) as [Hz|]; [|done]; injection E as <- <-;
            rewrite Hz; split; [done|]; split; [intros Hmt Hn; try discriminate Hmt; cbn; by rewrite ?Hn|intros q Hq; by destruct q]).
  all: try (injection E as <- <-; destruct (v =? 0); (split; [done|]; split; [done|intros q Hq; by destruct q])).
  - rewrite clamp_level in E. cbn [obind] in E. revert E. generalize (ZSTD_maxCLevel `min` (ZSTD_minCLevel `max` v)). intros w E.
    destruct (Z.eqb_spec w 0) as [Hw|Hw]; cbn in E; [|destruct (Z.leb_spec 0 w)]; injection E as <- <-; (split; [done || lia|]; split; [done|intros q Hq; by destruct q]).
  - destruct (Z.eqb_spec v 0) as [->|Hv]; cbn [negb obind] in E; [injection E as <- <-; split; [done|]; split; [done|intros q Hq; by destruct q]|].
    apply bind_Ok in E as (w & Hw & E). apply bind_Ok in Hw as (u & Hu & [= <-]). injection E as <- <-.
    assert (0 <= v `max` ZSTD_TARGETCBLOCKSIZE_MIN < 2 ^ 31) as Hm by (eapply accepted_int; [right; exact Hu|done]). destruct (u32_int _ Hm) as [E1 E2].
    split; [rewrite E2; lia|]. split; [intros _ _; cbn; by rewrite E1|intros q Hq; by destruct q].
  - apply bind_Ok in E as (u & Hu & E). injection E as <- <-. apply BOUNDCHECK_inv, within_inv in Hu as (lo & hi & [= <- <-] & Hv). assert (v = 0 \/ v = 1) as [-> | ->] by lia;
      (split; [done|]; split; [done|intros q Hq; by destruct q]).
  - apply bind_Ok in E as (u & Hu & E). assert (0 <= v < 2 ^ 31) as Hv by (eapply accepted_int; [left; exact Hu|done]). rewrite (proj2 (Z.leb_le 0 v)) in E by lia. injection E as <- <-.
    rewrite (size_t_int v Hv). split; [lia|]. split; [intros _ _; cbn [ZSTD_CCtxParams_getParameter]; f_equal; apply sgn_small; simpl; lia|intros q Hq; by destruct q].
Qed.

(** A refused value is outside the bounds. *)
Lemma refuses p param v : match ZSTD_CCtxParams_setParameter p param v with
  | Ok _ => True
  | Err e => (e = ZSTD_error_parameter_outOfBound \/ e = ZSTD_error_parameter_unsupported) /\ (param = ZSTD_c_rsyncable \/ ZSTD_cParam_withinBounds param v = false)
  | Fault _ => False
  end.
Proof.
  destruct (ZSTD_cParam_withinBounds param v) eqn:Hw.
  - destruct (decide (param = ZSTD_c_rsyncable)) as [->|Hr]; [cbn; destruct (_ =? _); cbn; tauto|]. by destruct (accepts param v Hw Hr p) as (p' & r & ->).
  - destruct (decide (param = ZSTD_c_compressionLevel)) as [->|Hl].
    { cbn [ZSTD_CCtxParams_setParameter]. rewrite clamp_level. cbn [obind]. by destruct (0 <=? _). }
    destruct param; try done; cbn [ZSTD_CCtxParams_setParameter]; unfold check_nonzero, BOUNDCHECK; rewrite ?Hw; try (cbn; tauto); destruct (Z.eqb_spec v 0) as [Hz|]; cbn; try tauto.
    + destruct (negb _); cbn; tauto.
    + rewrite Hz. cbn. tauto.
Qed.

(** Values within the bounds are stored as they are, except that level 0 means the default. *)
Lemma effective_within param v : ZSTD_cParam_withinBounds param v = true -> param <> ZSTD_c_compressionLevel \/ v <> 0 -> effective param v = v.
Proof.
  intros H Hne. destruct (within_inv param v H) as (lo & hi & E & Hv). destruct param; try done; injection E as <- <-; cbn [effective].
  - destruct Hne as [|Hne]; [done|]. rewrite Z.max_r, Z.min_r by lia. by destruct (Z.eqb_spec v 0).
  - unfold ZSTD_TARGETCBLOCKSIZE_MIN in *. destruct (Z.eqb_spec v 0); lia.
  - assert (v = 0 \/ v = 1) as [-> | ->] by lia; done.
  - assert (v = 0 \/ v = 1) as [-> | ->] by lia; done.
  - assert (v = 0 \/ v = 1) as [-> | ->] by lia; done.
  - assert (v = 0 \/ v = 1) as [-> | ->] by lia; done.
  - assert (v = 0 \/ v = 1) as [-> | ->] by lia; done.
Qed.
End RoundTrip.



(** ** However parameters are set *)

Section Valid.
Context `{P : Platform}.
Implicit Types (p : ZSTD_CCtx_params).

(** Unset, or within bounds. *)
Definition unset_or (lo hi x : Z) : Prop := x = 0 \/ lo <= x <= hi.

Record params_ok p : Prop := {
  po_windowLog : unset_or 10 ZSTD_WINDOWLOG_MAX (cp_windowLog (cParams p));
  po_chainLog : unset_or 6 ZSTD_CHAINLOG_MAX (cp_chainLog (cParams p));
  po_hashLog : unset_or 6 30 (cp_hashLog (cParams p));
  po_searchLog : unset_or 1 (ZSTD_WINDOWLOG_MAX - 1) (cp_searchLog (cParams p));
  po_minMatch : unset_or 3 7 (cp_minMatch (cParams p));
  po_targetLength : 0 <= cp_targetLength (cParams p) <= 2 ^ 17;
  po_strategy : unset_or 1 9 (cp_strategy (cParams p));
  po_level : ZSTD_minCLevel <= compressionLevel p <= ZSTD_maxCLevel;
  po_srcSizeHint : 0 <= srcSizeHint p < 2 ^ 31;
  po_row : 0 <= useRowMatchFinder p <= 2;
  po_nbWorkers : nbWorkers p = 0;
  po_maxBlockSize : unset_or 1024 (2 ^ 17) (maxBlockSize p);
  po_enableLdm : 0 <= enableLdm (ldmParams p) <= 2;
  po_ldm_hashLog : unset_or 6 30 (ldm_hashLog (ldmParams p));
  po_ldm_minMatch : unset_or 4 4096 (minMatchLength (ldmParams p));
  po_ldm_bucket : unset_or 1 8 (bucketSizeLog (ldmParams p));
  po_ldm_rate : 0 <= hashRateLog (ldmParams p) <= 25;
  po_inBufferMode : 0 <= inBufferMode p <= 1;
  po_outBufferMode : 0 <= outBufferMode p <= 1;
  po_preSplitter : 0 <= preBlockSplitter_level p <= 6
}.

Lemma init_params_ok level : ZSTD_minCLevel <= level <= ZSTD_maxCLevel -> params_ok (ZSTD_CCtxParams_init level).
Proof. intros Hl. constructor; cbn; try (by left); try done; unfold unset_or; lia. Qed.

Lemma nonzero_unset param v u lo hi : check_nonzero param v = Ok u -> ZSTD_cParam_getBounds param = Ok (lo, hi) -> unset_or lo hi v.
Proof. intros H E. apply check_nonzero_inv in H as [->|H]; [by left|right]. apply within_inv in H as (lo' & hi' & E' & Hv). rewrite E in E'. by injection E' as -> ->. Qed.

Lemma checked_bounds param v u lo hi : BOUNDCHECK param v = Ok u -> ZSTD_cParam_getBounds param = Ok (lo, hi) -> lo <= v <= hi.
Proof. intros H E. apply BOUNDCHECK_inv, within_inv in H as (lo' & hi' & E' & Hv). rewrite E in E'. by injection E' as -> ->. Qed.

Lemma set_params_ok p param v p' r : params_ok p -> ZSTD_CCtxParams_setParameter p param v = Ok (p', r) -> params_ok p'.
Proof.
  intros Hok E. pose proof log_limits as (L1 & L2 & L3). destruct Hok.
  destruct param; cbn [ZSTD_CCtxParams_setParameter] in E; try done;
    try (apply bind_Ok in E as (u & Hu & E); injection E as <- <-;
         assert (0 <= v < 2 ^ 31) as Hv by (eapply accepted_int; [first [left; exact Hu|right; exact Hu]|done]); destruct (u32_int v Hv) as [_ E2];
         first [eapply nonzero_unset in Hu; [|reflexivity]|eapply checked_bounds in Hu; [|reflexivity]];
         unfold unset_or, ZSTD_LDM_HASHLOG_MAX, ZSTD_LDM_HASHRATELOG_MAX, ZSTD_HASHLOG_MIN, ZSTD_LDM_HASHRATELOG_MIN in *; rewrite ?L3 in *; constructor; cbn [update cParams fParams ldmParams]; cbn; rewrite ?E2; (done || lia)).
  all: try (injection E as <- <-; by constructor). all: try (apply bind_Ok in E as (u & Hu & E); injection E as <- <-; by constructor).
  - rewrite clamp_level in E. cbn [obind] in E. revert E. assert (ZSTD_minCLevel <= ZSTD_CLEVEL_DEFAULT <= ZSTD_maxCLevel) by (by vm_compute).
    assert (ZSTD_minCLevel <= ZSTD_maxCLevel `min` (ZSTD_minCLevel `max` v) <= ZSTD_maxCLevel) as Hw by lia. revert Hw. generalize (ZSTD_maxCLevel `min` (ZSTD_minCLevel `max` v)). intros w Hw.
    destruct (w =? 0); match goal with |- context [0 <=? ?x] => destruct (0 <=? x) end; intros [= <- <-]; by constructor.
  - apply bind_Ok in E as (u & Hu & E). assert (0 <= v < 2 ^ 31) as Hv by (eapply accepted_int; [left; exact Hu|done]). eapply nonzero_unset in Hu; [|reflexivity].
    rewrite (proj2 (Z.leb_le 0 v)) in E by lia. injection E as <- <-. constructor; try done. cbn. by rewrite (size_t_int v Hv).
Qed.

(** A list of settings, of which those that are refused have no effect. *)
Definition set_all (l : list (ZSTD_cParameter * Z)) p : ZSTD_CCtx_params :=
  fold_left (fun p '(param, v) => match ZSTD_CCtxParams_setParameter p param v with Ok (p', _) => p' | _ => p end) l p.

Lemma set_all_ok l p : params_ok p -> params_ok (set_all l p).
Proof.
  revert p. induction l as [|[param v] l IH]; intros p Hp; [done|]. cbn [set_all fold_left]. apply IH.
  destruct (ZSTD_CCtxParams_setParameter p param v) as [[p' r]| |] eqn:E; try done. by eapply set_params_ok.
Qed.

(** The value of a parameter that is set, or of the default. *)
Definition chosen (set default : Z) : Z := if set =? 0 then default else set.

Lemma override_spec cPar o : ZSTD_overrideCParams cPar o =
  cparams (chosen (cp_windowLog o) (cp_windowLog cPar)) (chosen (cp_chainLog o) (cp_chainLog cPar)) (chosen (cp_hashLog o) (cp_hashLog cPar)) (chosen (cp_searchLog o) (cp_searchLog cPar))
    (chosen (cp_minMatch o) (cp_minMatch cPar)) (chosen (cp_targetLength o) (cp_targetLength cPar)) (chosen (cp_strategy o) (cp_strategy cPar)).
Proof.
  unfold ZSTD_overrideCParams, chosen. destruct cPar as [w c h s l t st]. cbn [cp_windowLog cp_chainLog cp_hashLog cp_searchLog cp_minMatch cp_targetLength cp_strategy].
  destruct (cp_windowLog o =? 0), (cp_chainLog o =? 0), (cp_hashLog o =? 0), (cp_searchLog o =? 0), (cp_minMatch o =? 0), (cp_targetLength o =? 0), (cp_strategy o =? 0); reflexivity.
Qed.

Lemma chosen_bounds lo hi s d : unset_or lo hi s -> lo <= d <= hi -> lo <= chosen s d <= hi.
Proof. unfold chosen. intros [->|H] Hd; [done|]. destruct (s =? 0); lia. Qed.

Lemma override_ok p cPar : params_ok p -> cparams_ok cPar -> cparams_ok (ZSTD_overrideCParams cPar (cParams p)).
Proof.
  intros [] []. rewrite override_spec. constructor; cbn [cparams cp_windowLog cp_chainLog cp_hashLog cp_searchLog cp_minMatch cp_targetLength cp_strategy]; try by apply chosen_bounds.
  apply chosen_bounds; [|done]. by right.
Qed.

Lemma getCParamsFromCCtxParams_spec p hint dict mode : params_ok p -> 0 <= hint < 2 ^ 64 -> 0 <= dict < 2 ^ 63 ->
  exists cp0 cp, ZSTD_getCParams_internal (compressionLevel p) (if (hint =? ZSTD_CONTENTSIZE_UNKNOWN) && (0 <? srcSizeHint p) then srcSizeHint p else hint) dict mode = Ok cp0 /\
    ZSTD_getCParamsFromCCtxParams p hint dict mode = Ok cp /\
    adjusted (ZSTD_overrideCParams (if enableLdm (ldmParams p) =? ZSTD_ps_enable then set_windowLog ZSTD_LDM_DEFAULT_WINDOW_LOG cp0 else cp0) (cParams p)) cp.
Proof.
  intros Hp Hh Hd. unfold ZSTD_getCParamsFromCCtxParams. pose proof (po_srcSizeHint _ Hp) as Hs. set (h := if _ && _ then _ else hint).
  assert (0 <= h < 2 ^ 64) as Hh' by (subst h; destruct (_ && _); lia).
  match goal with |- context [let* x := ?m in _] => assert (m = Ok h) as -> end.
  { subst h. destruct (_ && _); [|done]. rewrite (proj2 (Z.leb_le 0 _)) by lia. cbn [oassert obind]. by rewrite wrap_small by lia. }
  cbn [obind]. destruct (getCParams_spec (compressionLevel p) h dict mode Hh' Hd) as (c1 & cp0 & row & Hadj & _ & _ & Hw & E & _). rewrite E. cbn [obind].
  set (cp1 := if enableLdm (ldmParams p) =? ZSTD_ps_enable then set_windowLog ZSTD_LDM_DEFAULT_WINDOW_LOG cp0 else cp0).
  change (if enableLdm (ldmParams p) =? ZSTD_ps_enable then cp0 <| cp_windowLog := ZSTD_LDM_DEFAULT_WINDOW_LOG |> else cp0) with cp1.
  assert (cparams_ok cp1) as Hok1. { pose proof log_limits. subst cp1. pose proof (adj_ok _ _ Hadj). destruct (enableLdm (ldmParams p) =? ZSTD_ps_enable); [|assumption]. apply set_windowLog_ok; [done|]. unfold ZSTD_LDM_DEFAULT_WINDOW_LOG, ZSTD_WINDOWLOG_LIMIT_DEFAULT. lia. }
  pose proof (override_ok p cp1 Hp Hok1) as Hok2. rewrite (check_cparams _ Hok2). cbn [oassert obind].
  destruct (adjust_spec _ h dict mode (useRowMatchFinder p) Hok2 Hh' Hd (po_row _ Hp)) as (cp & E' & Hadj' & _). exists cp0, cp. by split_and!.
Qed.
End Valid.

(** C37: the parameters of a compression are valid, however they were set.  After any list of settings, accepted or refused, from any level,
    [ZSTD_getCParamsFromCCtxParams] returns (none of its assertions fails) parameters that [ZSTD_checkCParams] accepts.  A search log, minimum match or strategy
    that is set is the one used; a window, chain or hash log that is set is only ever lowered. *)
Theorem ZSTD_getCParamsFromCCtxParams_valid `{P : Platform} level l hint dict mode : ZSTD_minCLevel <= level <= ZSTD_maxCLevel -> 0 <= hint < 2 ^ 64 -> 0 <= dict < 2 ^ 63 ->
  let p := set_all l (ZSTD_CCtxParams_init level) in
  exists cp, ZSTD_getCParamsFromCCtxParams p hint dict mode = Ok cp /\ ZSTD_checkCParams cp = Ok tt /\
    (forall f, In f [cp_searchLog; cp_minMatch; cp_strategy] -> f (cParams p) <> 0 -> f cp = f (cParams p)) /\
    (forall f, In f [cp_windowLog; cp_chainLog; cp_hashLog] -> f (cParams p) <> 0 -> f cp <= f (cParams p)).
Proof.
  intros Hl Hh Hd p. assert (params_ok p) as Hp by (apply set_all_ok, init_params_ok, Hl).
  destruct (getCParamsFromCCtxParams_spec p hint dict mode Hp Hh Hd) as (cp0 & cp & _ & E & Hadj). exists cp. split; [done|]. split; [by apply check_cparams, (adj_ok _ _ Hadj)|].
  rewrite override_spec in Hadj. destruct Hadj as [_ H1 H2 H3 (H4 & H5 & H6 & H7)]. cbn [cparams cp_windowLog cp_chainLog cp_hashLog cp_searchLog cp_minMatch cp_targetLength cp_strategy] in *.
  assert (forall s d, s <> 0 -> chosen s d = s) as Hc by (intros s d Hs; unfold chosen; by destruct (Z.eqb_spec s 0)).
  split; intros f Hf Hne; cbn [In] in Hf; (destruct Hf as [<- | [<- | [<- | []]]]; rewrite Hc in * by done; done).
Qed.

Lemma ZSTD_getCParamsFromCCtxParams_valid_witness : let P := arm64_v8a in let p := set_all [(ZSTD_c_strategy, 7); (ZSTD_c_windowLog, 99); (ZSTD_c_hashLog, 20)] (ZSTD_CCtxParams_init 3) in
  ZSTD_getCParamsFromCCtxParams p 5000 0 ZSTD_cpm_noAttachDict = Ok (cparams 13 13 14 2 4 0 ZSTD_btopt) /\
  exists cp, ZSTD_getCParamsFromCCtxParams p ZSTD_CONTENTSIZE_UNKNOWN 0 ZSTD_cpm_noAttachDict = Ok cp /\ ZSTD_checkCParams cp = Ok tt /\ cp_strategy cp = 7 /\ cp_hashLog cp <= 20.
Proof.
  intros P p. split; [vm_compute; reflexivity|].
  destruct (ZSTD_getCParamsFromCCtxParams_valid (P := P) 3 [(ZSTD_c_strategy, 7); (ZSTD_c_windowLog, 99); (ZSTD_c_hashLog, 20)] ZSTD_CONTENTSIZE_UNKNOWN 0 ZSTD_cpm_noAttachDict) as (cp & E & H1 & H2 & H3).
  - split; vm_compute; discriminate.
  - split; [vm_compute; discriminate|reflexivity].
  - split; [lia|reflexivity].
  - exists cp. split; [exact E|]. split; [exact H1|]. split; [exact (H2 cp_strategy ltac:(simpl; tauto) ltac:(discriminate))|exact (H3 cp_hashLog ltac:(simpl; tauto) ltac:(discriminate))].
Defined.
