(* ===== verification/CCtxApi.v ===== *)
(** * The interface of a compression context

    The functions of zstd_compress.c that set a context up: parameters, dictionaries, the pledged
    size, resets, and the transparent initialisation at the start of a stream.  A context is a
    state machine; a call that reports an error may have changed it.  Whatever calls are made, no
    assertion fails, no block is freed twice, none is lost, and a compression starts with valid
    parameters.

    Dictionaries are the addresses of their contents or of their digested form, [NULL] is 0.
    [blocks] holds what was allocated through [customMem] for dictionaries and not freed yet; freeing another block is a
    fault.  The results of allocations are arguments. *)
From S2P Require Import Prelude Mem Errors Bits Frame CParams RecordUpdate Calls CCtxParams.

Inductive ZSTD_cStreamStage := zcss_init | zcss_load | zcss_flush.
Inductive ZSTD_ResetDirective := ZSTD_reset_session_only | ZSTD_reset_parameters | ZSTD_reset_session_and_parameters.
Inductive ZSTD_EndDirective := ZSTD_e_continue | ZSTD_e_flush | ZSTD_e_end.
Inductive ZSTD_dictLoadMethod_e := ZSTD_dlm_byCopy | ZSTD_dlm_byRef.

#[global] Instance cStreamStage_eq_dec : EqDecision ZSTD_cStreamStage.
Proof. solve_decision. Defined.
#[global] Instance EndDirective_eq_dec : EqDecision ZSTD_EndDirective.
Proof. solve_decision. Defined.

(** The content type of a dictionary is passed on as it is. *)
Definition ZSTD_dct_auto : Z := 0.
Definition ZSTD_dct_rawContent : Z := 1.
Definition ZSTD_dictForceAttach : Z := 1.
Definition ZSTD_dictForceCopy : Z := 2.

Record ZSTD_prefixDict := { pd_dict : Z; pd_dictSize : Z; pd_contentType : Z }.
Record ZSTD_localDict := { ld_dictBuffer : Z; ld_dict : Z; ld_dictSize : Z; ld_contentType : Z; ld_cdict : Z }.

#[global] Instance eta_localDict : Eta ZSTD_localDict := fun d =>
  {| ld_dictBuffer := ld_dictBuffer d; ld_dict := ld_dict d; ld_dictSize := ld_dictSize d; ld_contentType := ld_contentType d; ld_cdict := ld_cdict d |}.

Definition no_prefix : ZSTD_prefixDict := {| pd_dict := 0; pd_dictSize := 0; pd_contentType := 0 |}.
Definition no_local : ZSTD_localDict := {| ld_dictBuffer := 0; ld_dict := 0; ld_dictSize := 0; ld_contentType := 0; ld_cdict := 0 |}.

(** The fields of a context that its interface uses. *)
Record ZSTD_CCtx := {
  streamStage : ZSTD_cStreamStage;
  cParamsChanged : bool;
  requestedParams : ZSTD_CCtx_params;
  pledgedSrcSizePlusOne : Z;
  staticSize : Z;
  localDict : ZSTD_localDict;
  cdict : Z;
  prefixDict : ZSTD_prefixDict;
  pool : Z;
  blocks : list Z
}.

#[global] Instance eta_CCtx : Eta ZSTD_CCtx := fun c =>
  {| streamStage := streamStage c; cParamsChanged := cParamsChanged c; requestedParams := requestedParams c; pledgedSrcSizePlusOne := pledgedSrcSizePlusOne c;
     staticSize := staticSize c; localDict := localDict c; cdict := cdict c; prefixDict := prefixDict c; pool := pool c; blocks := blocks c |}.

(** The fields of a digested dictionary that are used here. *)
Record ZSTD_CDict := { cd_strategy : Z; cd_dedicatedDictSearch : bool; cd_compressionLevel : Z; cd_dictContentSize : Z }.

Notation call := (call ZSTD_CCtx).

Section Operations.
Context `{P : Platform}.
Local Open Scope call_scope.

(** ** Memory *)

Definition ZSTD_customFree (ptr : Z) : call unit := fun c =>
  if ptr =? 0 then Ok (c, inr tt)
  else if bool_decide (ptr ∈ blocks c) then Ok (c <| blocks ::= List.filter (fun b => negb (b =? ptr)) |>, inr tt)
  else Fault Oob.

(** [ptr] is what the allocator returns. *)
Definition ZSTD_customMalloc (ptr : Z) : call Z := fun c =>
  if ptr =? 0 then Ok (c, inr 0) else Ok (c <| blocks ::= cons ptr |>, inr ptr).

(** All the memory of a digested dictionary is one block here. *)
Definition ZSTD_freeCDict (cdict : Z) : call unit := ZSTD_customFree cdict.

Definition ZSTD_clearAllDicts : call unit :=
  let! c := cget in
  do ZSTD_customFree (ld_dictBuffer (localDict c));
  do ZSTD_freeCDict (ld_cdict (localDict c));
  cmodify (fun c => c <| localDict := no_local |> <| prefixDict := no_prefix |> <| cdict := 0 |>).

(** ** Parameters *)

Definition ZSTD_isUpdateAuthorized (param : ZSTD_cParameter) : bool :=
  match param with
  | ZSTD_c_compressionLevel | ZSTD_c_hashLog | ZSTD_c_chainLog | ZSTD_c_searchLog | ZSTD_c_minMatch | ZSTD_c_targetLength | ZSTD_c_strategy | ZSTD_c_blockSplitterLevel => true
  | _ => false
  end.

Definition ZSTD_CCtx_setParameter (param : ZSTD_cParameter) (value : Z) : call Z :=
  let! c := cget in
  do if negb (bool_decide (streamStage c = zcss_init))
     then if ZSTD_isUpdateAuthorized param then cmodify (fun c => c <| cParamsChanged := true |>) else creject ZSTD_error_stage_wrong
     else cret tt;
  do match param with
     | ZSTD_c_nbWorkers => creject_if (negb (value =? 0) && negb (staticSize c =? 0)) ZSTD_error_parameter_unsupported
     | ZSTD_c_unknown _ => creject ZSTD_error_parameter_unsupported
     | _ => cret tt
     end;
  let! c := cget in
  let! (p, r) := cpure (ZSTD_CCtxParams_setParameter (requestedParams c) param value) in
  do cmodify (fun c => c <| requestedParams := p |>);
  cret r.

Definition ZSTD_CCtx_getParameter (param : ZSTD_cParameter) : call Z :=
  let! c := cget in cpure (ZSTD_CCtxParams_getParameter (requestedParams c) param).

Definition ZSTD_CCtx_setParametersUsingCCtxParams (params : ZSTD_CCtx_params) : call Z :=
  let! c := cget in
  do creject_if (negb (bool_decide (streamStage c = zcss_init))) ZSTD_error_stage_wrong;
  do creject_if (negb (cdict c =? 0)) ZSTD_error_stage_wrong;
  do cmodify (fun c => c <| requestedParams := params |>);
  cret 0.

Definition ZSTD_CCtx_setCParams (cPar : ZSTD_compressionParameters) : call Z :=
  do cpure (ZSTD_checkCParams cPar);
  do ZSTD_CCtx_setParameter ZSTD_c_windowLog (s32 (cp_windowLog cPar));
  do ZSTD_CCtx_setParameter ZSTD_c_chainLog (s32 (cp_chainLog cPar));
  do ZSTD_CCtx_setParameter ZSTD_c_hashLog (s32 (cp_hashLog cPar));
  do ZSTD_CCtx_setParameter ZSTD_c_searchLog (s32 (cp_searchLog cPar));
  do ZSTD_CCtx_setParameter ZSTD_c_minMatch (s32 (cp_minMatch cPar));
  do ZSTD_CCtx_setParameter ZSTD_c_targetLength (s32 (cp_targetLength cPar));
  do ZSTD_CCtx_setParameter ZSTD_c_strategy (cp_strategy cPar);
  cret 0.

Definition ZSTD_CCtx_setFParams (fPar : ZSTD_frameParameters) : call Z :=
  do ZSTD_CCtx_setParameter ZSTD_c_contentSizeFlag (b2z (negb (contentSizeFlag fPar =? 0)));
  do ZSTD_CCtx_setParameter ZSTD_c_checksumFlag (b2z (negb (p_checksumFlag fPar =? 0)));
  do ZSTD_CCtx_setParameter ZSTD_c_dictIDFlag (b2z (noDictIDFlag fPar =? 0));
  cret 0.

Definition ZSTD_CCtx_setParams (params : ZSTD_compressionParameters * ZSTD_frameParameters) : call Z :=
  do cpure (ZSTD_checkCParams params.1);
  do ZSTD_CCtx_setFParams params.2;
  do ZSTD_CCtx_setCParams params.1;
  cret 0.

Definition ZSTD_CCtx_setPledgedSrcSize (pledgedSrcSize : Z) : call Z :=
  let! c := cget in
  do creject_if (negb (bool_decide (streamStage c = zcss_init))) ZSTD_error_stage_wrong;
  do cmodify (fun c => c <| pledgedSrcSizePlusOne := u64 (pledgedSrcSize + 1) |>);
  cret 0.

Definition ZSTD_registerSequenceProducer (state func : Z) : call unit :=
  cmodify (fun c => c <| requestedParams := ZSTD_CCtxParams_registerSequenceProducer (requestedParams c) state func |>).

(** ** Dictionaries *)

(** [created] is the result of [ZSTD_createCDict_advanced2]. *)
Definition ZSTD_initLocalDict (created : Z) : call Z :=
  let! c := cget in
  let dl := localDict c in
  if ld_dict dl =? 0 then
    do cassert (ld_dictBuffer dl =? 0);
    do cassert (ld_cdict dl =? 0);
    do cassert (ld_dictSize dl =? 0);
    cret 0
  else if negb (ld_cdict dl =? 0) then
    do cassert (cdict c =? ld_cdict dl);
    cret 0
  else
    do cassert (0 <? ld_dictSize dl);
    do cassert (cdict c =? 0);
    do cassert (pd_dict (prefixDict c) =? 0);
    let! p := ZSTD_customMalloc created in
    do cmodify (fun c => c <| localDict := localDict c <| ld_cdict := p |> |>);
    do creject_if (p =? 0) ZSTD_error_memory_allocation;
    do cmodify (fun c => c <| cdict := ld_cdict (localDict c) |>);
    cret 0.

(** [buffer] is the result of the allocation for a copy of the dictionary. *)
Definition ZSTD_CCtx_loadDictionary_advanced (buffer dict dictSize : Z) (dictLoadMethod : ZSTD_dictLoadMethod_e) (dictContentType : Z) : call Z :=
  let! c := cget in
  do creject_if (negb (bool_decide (streamStage c = zcss_init))) ZSTD_error_stage_wrong;
  do ZSTD_clearAllDicts;
  if (dict =? 0) || (dictSize =? 0) then cret 0
  else
    do match dictLoadMethod with
       | ZSTD_dlm_byRef => cmodify (fun c => c <| localDict := localDict c <| ld_dict := dict |> |>)
       | ZSTD_dlm_byCopy =>
           do creject_if (negb (staticSize c =? 0)) ZSTD_error_memory_allocation;
           let! dictBuffer := ZSTD_customMalloc buffer in
           do creject_if (dictBuffer =? 0) ZSTD_error_memory_allocation;
           do cmodify (fun c => c <| localDict := localDict c <| ld_dictBuffer := dictBuffer |> |>);
           cmodify (fun c => c <| localDict := localDict c <| ld_dict := dictBuffer |> |>)
       end;
    do cmodify (fun c => c <| localDict := localDict c <| ld_dictSize := dictSize |> |>);
    do cmodify (fun c => c <| localDict := localDict c <| ld_contentType := dictContentType |> |>);
    cret 0.

Definition ZSTD_CCtx_loadDictionary_byReference (dict dictSize : Z) : call Z :=
  ZSTD_CCtx_loadDictionary_advanced 0 dict dictSize ZSTD_dlm_byRef ZSTD_dct_auto.

Definition ZSTD_CCtx_loadDictionary (buffer dict dictSize : Z) : call Z :=
  ZSTD_CCtx_loadDictionary_advanced buffer dict dictSize ZSTD_dlm_byCopy ZSTD_dct_auto.

Definition ZSTD_CCtx_refCDict (cd : Z) : call Z :=
  let! c := cget in
  do creject_if (negb (bool_decide (streamStage c = zcss_init))) ZSTD_error_stage_wrong;
  do ZSTD_clearAllDicts;
  do cmodify (fun c => c <| cdict := cd |>);
  cret 0.

Definition ZSTD_CCtx_refThreadPool (p : Z) : call Z :=
  let! c := cget in
  do creject_if (negb (bool_decide (streamStage c = zcss_init))) ZSTD_error_stage_wrong;
  do cmodify (fun c => c <| pool := p |>);
  cret 0.

Definition ZSTD_CCtx_refPrefix_advanced (prefix prefixSize dictContentType : Z) : call Z :=
  let! c := cget in
  do creject_if (negb (bool_decide (streamStage c = zcss_init))) ZSTD_error_stage_wrong;
  do ZSTD_clearAllDicts;
  do if negb (prefix =? 0) && (0 <? prefixSize)
     then cmodify (fun c => c <| prefixDict := {| pd_dict := prefix; pd_dictSize := prefixSize; pd_contentType := dictContentType |} |>)
     else cret tt;
  cret 0.

Definition ZSTD_CCtx_refPrefix (prefix prefixSize : Z) : call Z := ZSTD_CCtx_refPrefix_advanced prefix prefixSize ZSTD_dct_rawContent.

(** ** Resets *)

Definition ZSTD_CCtx_reset (reset : ZSTD_ResetDirective) : call Z :=
  do match reset with
     | ZSTD_reset_session_only | ZSTD_reset_session_and_parameters => cmodify (fun c => c <| streamStage := zcss_init |> <| pledgedSrcSizePlusOne := 0 |>)
     | _ => cret tt
     end;
  match reset with
  | ZSTD_reset_parameters | ZSTD_reset_session_and_parameters =>
      let! c := cget in
      do creject_if (negb (bool_decide (streamStage c = zcss_init))) ZSTD_error_stage_wrong;
      do ZSTD_clearAllDicts;
      do cmodify (fun c => c <| requestedParams := ZSTD_CCtxParams_reset |>);
      cret 0
  | _ => cret 0
  end.

(** [memset(cctx, 0, sizeof *cctx)], for a context in a workspace of [static] bytes, or allocated if [static] is 0. *)
Definition zero_CCtx (static : Z) : ZSTD_CCtx :=
  {| streamStage := zcss_init; cParamsChanged := false; requestedParams := zero_CCtxParams; pledgedSrcSizePlusOne := 0; staticSize := static;
     localDict := no_local; cdict := 0; prefixDict := no_prefix; pool := 0; blocks := [] |}.

Definition ZSTD_initCCtx : call unit :=
  fun c => match ZSTD_CCtx_reset ZSTD_reset_parameters c with
           | Ok (c, inr _) => Ok (c, inr tt)
           | Ok (_, inl _) => Fault AssertFailed
           | Err e => Err e
           | Fault f => Fault f
           end.

Definition ZSTD_resetCStream (pss : Z) : call Z :=
  let pledgedSrcSize := if pss =? 0 then ZSTD_CONTENTSIZE_UNKNOWN else pss in
  do ZSTD_CCtx_reset ZSTD_reset_session_only;
  do ZSTD_CCtx_setPledgedSrcSize pledgedSrcSize;
  cret 0.

Definition ZSTD_initCStream_internal (buffer dict dictSize cd : Z) (params : ZSTD_CCtx_params) (pledgedSrcSize : Z) : call Z :=
  do ZSTD_CCtx_reset ZSTD_reset_session_only;
  do ZSTD_CCtx_setPledgedSrcSize pledgedSrcSize;
  do cassert (match ZSTD_checkCParams (cParams params) with Ok _ => true | _ => false end);
  do cmodify (fun c => c <| requestedParams := params |>);
  do cassert (negb (negb (dict =? 0) && negb (cd =? 0)));
  do if negb (dict =? 0) then ZSTD_CCtx_loadDictionary buffer dict dictSize else ZSTD_CCtx_refCDict cd;
  cret 0.

Definition ZSTD_initCStream_usingCDict_advanced (cd : Z) (fPar : ZSTD_frameParameters) (pledgedSrcSize : Z) : call Z :=
  do ZSTD_CCtx_reset ZSTD_reset_session_only;
  do ZSTD_CCtx_setPledgedSrcSize pledgedSrcSize;
  do cmodify (fun c => c <| requestedParams := requestedParams c <| fParams := fPar |> |>);
  do ZSTD_CCtx_refCDict cd;
  cret 0.

Definition ZSTD_initCStream_usingCDict (cd : Z) : call Z :=
  do ZSTD_CCtx_reset ZSTD_reset_session_only;
  do ZSTD_CCtx_refCDict cd;
  cret 0.

Definition ZSTD_initCStream_advanced (buffer dict dictSize : Z) (params : ZSTD_compressionParameters * ZSTD_frameParameters) (pss : Z) : call Z :=
  let pledgedSrcSize := if (pss =? 0) && (contentSizeFlag params.2 =? 0) then ZSTD_CONTENTSIZE_UNKNOWN else pss in
  do ZSTD_CCtx_reset ZSTD_reset_session_only;
  do ZSTD_CCtx_setPledgedSrcSize pledgedSrcSize;
  do cpure (ZSTD_checkCParams params.1);
  let! c := cget in
  let! p := cpure (ZSTD_CCtxParams_setZstdParams (requestedParams c) params) in
  do cmodify (fun c => c <| requestedParams := p |>);
  do ZSTD_CCtx_loadDictionary buffer dict dictSize;
  cret 0.

Definition ZSTD_initCStream_usingDict (buffer dict dictSize level : Z) : call Z :=
  do ZSTD_CCtx_reset ZSTD_reset_session_only;
  do ZSTD_CCtx_setParameter ZSTD_c_compressionLevel level;
  do ZSTD_CCtx_loadDictionary buffer dict dictSize;
  cret 0.

Definition ZSTD_initCStream_srcSize (level pss : Z) : call Z :=
  let pledgedSrcSize := if pss =? 0 then ZSTD_CONTENTSIZE_UNKNOWN else pss in
  do ZSTD_CCtx_reset ZSTD_reset_session_only;
  do ZSTD_CCtx_refCDict 0;
  do ZSTD_CCtx_setParameter ZSTD_c_compressionLevel level;
  do ZSTD_CCtx_setPledgedSrcSize pledgedSrcSize;
  cret 0.

Definition ZSTD_initCStream (level : Z) : call Z :=
  do ZSTD_CCtx_reset ZSTD_reset_session_only;
  do ZSTD_CCtx_refCDict 0;
  do ZSTD_CCtx_setParameter ZSTD_c_compressionLevel level;
  cret 0.

(** ** The start of a compression *)

(** Digested dictionaries, by address, and the part of [ZSTD_CCtx_init_compressStream2] that begins the frame. *)
Context (cdict_at : Z -> ZSTD_CDict) (compressBegin : ZSTD_prefixDict -> Z -> ZSTD_CCtx_params -> Z -> res unit).

Definition attachDictSizeCutoffs : list Z :=
  [8 * 1024; 8 * 1024; 16 * 1024; 32 * 1024; 32 * 1024; 32 * 1024; 32 * 1024; 32 * 1024; 8 * 1024; 8 * 1024].

Definition ZSTD_shouldAttachDict (cd : ZSTD_CDict) (params : ZSTD_CCtx_params) (pledgedSrcSize : Z) : res bool :=
  let* cutoff := aget attachDictSizeCutoffs (cd_strategy cd) in
  Ok (cd_dedicatedDictSearch cd ||
      ((pledgedSrcSize <=? cutoff) || (pledgedSrcSize =? ZSTD_CONTENTSIZE_UNKNOWN) || (attachDictPref params =? ZSTD_dictForceAttach)) &&
      negb (attachDictPref params =? ZSTD_dictForceCopy) && (forceWindow params =? 0)).

Definition ZSTD_getCParamMode (cd : Z) (params : ZSTD_CCtx_params) (pledgedSrcSize : Z) : res ZSTD_CParamMode_e :=
  let* attach := if negb (cd =? 0) then ZSTD_shouldAttachDict (cdict_at cd) params pledgedSrcSize else Ok false in
  Ok (if attach then ZSTD_cpm_attachDict else ZSTD_cpm_noAttachDict).

(** Up to the start of the frame: the dictionaries, the parameters and the pledged size it starts with. *)
Definition init_params (created : Z) (endOp : ZSTD_EndDirective) (inSize : Z) : call (ZSTD_prefixDict * Z * ZSTD_CCtx_params * Z) :=
  let! c := cget in
  let params := requestedParams c in
  let prefix := prefixDict c in
  do ZSTD_initLocalDict created;
  do cmodify (fun c => c <| prefixDict := no_prefix |>);
  let! c := cget in
  do cassert ((pd_dict prefix =? 0) || (cdict c =? 0));
  let params := if negb (cdict c =? 0) && (ld_cdict (localDict c) =? 0) then params <| compressionLevel := cd_compressionLevel (cdict_at (cdict c)) |> else params in
  do if bool_decide (endOp = ZSTD_e_end) then cmodify (fun c => c <| pledgedSrcSizePlusOne := size_t (inSize + 1) |>) else cret tt;
  let! c := cget in
  let pledgedSrcSize := u64 (pledgedSrcSizePlusOne c - 1) in
  let dictSize := if negb (pd_dict prefix =? 0) then pd_dictSize prefix else if negb (cdict c =? 0) then cd_dictContentSize (cdict_at (cdict c)) else 0 in
  let! mode := cpure (ZSTD_getCParamMode (cdict c) params pledgedSrcSize) in
  let! cPar := cpure (ZSTD_getCParamsFromCCtxParams params pledgedSrcSize dictSize mode) in
  let params := params <| cParams := cPar |> in
  let params := params <| postBlockSplitter := ZSTD_resolveBlockSplitterMode (postBlockSplitter params) (cParams params) |> in
  let params := params <| ldmParams := ldmParams params <| enableLdm := ZSTD_resolveEnableLdm (enableLdm (ldmParams params)) (cParams params) |> |> in
  let params := params <| useRowMatchFinder := ZSTD_resolveRowMatchFinderMode (useRowMatchFinder params) (cParams params) |> in
  let params := params <| validateSequences := ZSTD_resolveExternalSequenceValidation (validateSequences params) |> in
  let params := params <| maxBlockSize := ZSTD_resolveMaxBlockSize (maxBlockSize params) |> in
  let params := params <| searchForExternalRepcodes := ZSTD_resolveExternalRepcodeSearch (searchForExternalRepcodes params) (compressionLevel params) |> in
  do cassert (match ZSTD_checkCParams (cParams params) with Ok _ => true | _ => false end);
  cret (prefix, cdict c, params, pledgedSrcSize).

(** Up to the initialisation of the buffers of the stream, which follows [compressBegin]. *)
Definition ZSTD_CCtx_init_compressStream2 (created : Z) (endOp : ZSTD_EndDirective) (inSize : Z) : call ZSTD_CCtx_params :=
  let! got := init_params created endOp inSize in
  let '(prefix, cd, params, pledgedSrcSize) := got in
  do cpure (compressBegin prefix cd params pledgedSrcSize);
  do cmodify (fun c => c <| streamStage := zcss_load |>);
  cret params.
End Operations.

(** ** What every call keeps *)

(** The blocks a context must free. *)
Definition owned (c : ZSTD_CCtx) : list Z := List.filter (fun b => negb (b =? 0)) [ld_dictBuffer (localDict c); ld_cdict (localDict c)].

Record ctx_ok `{P : Platform} (c : ZSTD_CCtx) : Prop := {
  co_params : params_ok (requestedParams c);
  co_blocks : blocks c ≡ₚ owned c;
  co_nodup : NoDup (owned c);
  co_none : ld_dict (localDict c) = 0 -> ld_dictBuffer (localDict c) = 0 /\ ld_cdict (localDict c) = 0 /\ ld_dictSize (localDict c) = 0;
  co_local : ld_dict (localDict c) <> 0 -> 0 < ld_dictSize (localDict c) < 2 ^ 63 /\ pd_dict (prefixDict c) = 0 /\ cdict c = ld_cdict (localDict c);
  co_prefix : pd_dict (prefixDict c) <> 0 -> cdict c = 0 /\ 0 < pd_dictSize (prefixDict c) < 2 ^ 63;
  co_pledged : 0 <= pledgedSrcSizePlusOne c < 2 ^ 64
}.

Section Kept.
Context `{P : Platform}.
Implicit Types (c : ZSTD_CCtx).

(** The allocator returns none of the blocks in use. *)
Definition fresh (ptr : Z) c : Prop := ~ In ptr (blocks c).

Definition cleared c : ZSTD_CCtx := c <| localDict := no_local |> <| prefixDict := no_prefix |> <| cdict := 0 |> <| blocks := [] |>.

Lemma free_owned c ptr : ptr <> 0 -> In ptr (blocks c) -> ZSTD_customFree ptr c = Ok (c <| blocks ::= List.filter (fun b => negb (b =? ptr)) |>, inr tt).
Proof. intros Hp Hin. unfold ZSTD_customFree. rewrite (proj2 (Z.eqb_neq _ _) Hp), bool_decide_eq_true_2; [done|]. by apply list_elem_of_In. Qed.

Lemma filter_none {A} (f : A -> bool) l : (forall x, In x l -> f x = false) -> List.filter f l = [].
Proof. induction l as [|x l IH]; intros H; [done|]. cbn. rewrite (H x) by (by left). apply IH. intros y Hy. apply H. by right. Qed.

Lemma cleared_eq c l : l = [] -> c <| blocks := l |> <| localDict := no_local |> <| prefixDict := no_prefix |> <| cdict := 0 |> = cleared c.
Proof. by intros ->. Qed.

(** Both blocks are freed, once. *)
Lemma clear_spec c : ctx_ok c -> ZSTD_clearAllDicts c = Ok (cleared c, inr tt).
Proof.
  intros [_ Hb Hn _ _ _ _]. unfold ZSTD_clearAllDicts, cbind, cget, ZSTD_freeCDict, owned in *. cbn [List.filter] in Hb, Hn.
  revert Hb Hn. generalize (ld_dictBuffer (localDict c)) (ld_cdict (localDict c)). intros b1 b2 Hb Hn.
  destruct (Z.eqb_spec b1 0) as [E1|N1], (Z.eqb_spec b2 0) as [E2|N2]; cbn [negb] in Hb, Hn.
  - apply Permutation_nil_r in Hb. unfold ZSTD_customFree. rewrite E1, E2. cbn [Z.eqb]. unfold cmodify. do 2 f_equal. by rewrite <- (cleared_eq c (blocks c)).
  - unfold ZSTD_customFree at 1. rewrite E1. cbn [Z.eqb]. rewrite free_owned by (try done; rewrite Hb; by left).
    unfold cmodify. do 2 f_equal. apply cleared_eq, filter_none. intros x Hx. rewrite Hb in Hx. destruct Hx as [<- | []]. by rewrite Z.eqb_refl.
  - rewrite free_owned by (try done; rewrite Hb; by left). unfold ZSTD_customFree. rewrite E2. cbn [Z.eqb].
    unfold cmodify. do 2 f_equal. apply cleared_eq, filter_none. intros x Hx. rewrite Hb in Hx. destruct Hx as [<- | []]. by rewrite Z.eqb_refl.
  - rewrite free_owned by (try done; rewrite Hb; by left). apply NoDup_cons in Hn as [Hne _]. assert (b2 <> b1) as Hd by (intros ->; apply Hne; by left).
    rewrite free_owned; [|done|].
    + unfold cmodify. do 2 f_equal. apply (cleared_eq c), filter_none. intros x Hx. apply filter_In in Hx as [Hx Hx1]. rewrite Hb in Hx. destruct Hx as [<- | [<- | []]].
      * by rewrite Z.eqb_refl in Hx1.
      * by rewrite Z.eqb_refl.
    + cbn. apply filter_In. split; [rewrite Hb; by right; left|]. by rewrite (proj2 (Z.eqb_neq _ _)).
Qed.

Lemma cleared_ok c : ctx_ok c -> ctx_ok (cleared c).
Proof. intros []. constructor; try done. by constructor. Qed.

(** The calls of a context in order, none of whose blocks is [ptr]. *)
Definition ready (ptr : Z) c : Prop := ctx_ok c /\ (ptr = 0 \/ fresh ptr c).

Lemma ready_ok ptr c : ready ptr c -> ctx_ok c.
Proof. by intros []. Qed.

(** A change of other fields than dictionaries. *)
Lemma ready_same ptr c c' : ready ptr c -> params_ok (requestedParams c') -> 0 <= pledgedSrcSizePlusOne c' < 2 ^ 64 ->
  localDict c' = localDict c -> prefixDict c' = prefixDict c -> cdict c' = cdict c -> blocks c' = blocks c -> ready ptr c'.
Proof.
  intros [[H1 H2 H3 H4 H5 H6 H7] Hf] Hp Hpl E1 E2 E3 E4. split; [|unfold fresh; by rewrite E4]. constructor; try done; unfold owned; rewrite ?E1, ?E2, ?E3, ?E4; done.
Qed.

Lemma triple_clear ptr : triple (ready ptr) ZSTD_clearAllDicts (fun c => ready ptr c /\ c = cleared c).
Proof. intros c [Hc Hf]. rewrite clear_spec by done. split; [|done]. split; [by apply cleared_ok|]. right. by intros []. Qed.

Lemma triple_setParameter ptr param value : triple (ready ptr) (ZSTD_CCtx_setParameter param value) (ready ptr).
Proof.
  unfold ZSTD_CCtx_setParameter. apply triple_get. intros c0 Hc0. eapply (triple_bind _ (ready ptr)).
  - intros c <-. destruct (negb _); [destruct (ZSTD_isUpdateAuthorized param)|]; cbn; try done. by apply (ready_same ptr c0); try done; apply (ready_ok _ _ Hc0).
  - intros _. eapply (triple_bind _ (ready ptr)); [|intros _|done].
    + destruct param; try apply triple_ret; try apply triple_reject_if. by intros c Hc.
    + apply triple_get. intros c1 Hc1. pose proof (refuses (requestedParams c1) param value) as Hr. destruct (ZSTD_CCtxParams_setParameter (requestedParams c1) param value) as [[p r]|e|f] eqn:E; [| |done].
      * intros c <-. cbn. apply (ready_same ptr c1); try done; [|apply (ready_ok _ _ Hc1)]. eapply set_params_ok; [|exact E]. apply (ready_ok _ _ Hc1).
      * intros c <-. exact Hc1.
  - done.
Qed.

(** A call that is only made in the first stage, after clearing the dictionaries. *)
Lemma triple_reload {A} ptr (m : ZSTD_CCtx -> call A) (R : ZSTD_CCtx -> Prop) : (forall c0, ready ptr c0 -> triple (fun c => ready ptr c /\ c = cleared c /\ staticSize c = staticSize c0) (m c0) R) -> (forall c, ready ptr c -> R c) ->
  triple (ready ptr) (cbind cget (fun c => cbind (creject_if (negb (bool_decide (streamStage c = zcss_init))) ZSTD_error_stage_wrong) (fun _ => cbind ZSTD_clearAllDicts (fun _ => m c)))) R.
Proof.
  intros Hm Hw. apply triple_get. intros c0 Hc0 c <-. unfold cbind, creject_if. destruct (negb _); [by apply Hw|]. cbn [cret]. rewrite (clear_spec c0) by apply Hc0. apply (Hm c0 Hc0 (cleared c0)).
  destruct Hc0 as [Hc Hf]. split; [|done]. split; [by apply cleared_ok|]. right. by intros [].
Qed.

Lemma ready_alloc ptr c : ctx_ok c -> c = cleared c -> forall d, 0 < d < 2 ^ 63 -> ptr <> 0 -> forall ct,
  ctx_ok (c <| blocks := [ptr] |> <| localDict := {| ld_dictBuffer := ptr; ld_dict := ptr; ld_dictSize := d; ld_contentType := ct; ld_cdict := 0 |} |>).
Proof.
  intros [] Hcl d Hd Hp ct. constructor; try done; cbn [update requestedParams blocks localDict pledgedSrcSizePlusOne prefixDict cdict].
  - unfold owned. cbn. by rewrite (proj2 (Z.eqb_neq _ _) Hp).
  - unfold owned. cbn. rewrite (proj2 (Z.eqb_neq _ _) Hp). cbn. apply NoDup_singleton.
  - intros _. cbn. rewrite Hcl. split; [exact Hd|by split].
Qed.

Lemma triple_loadDictionary buffer dict dictSize method ct : 0 <= dictSize < 2 ^ 63 -> triple (ready buffer) (ZSTD_CCtx_loadDictionary_advanced buffer dict dictSize method ct) ctx_ok.
Proof.
  intros Hd. unfold ZSTD_CCtx_loadDictionary_advanced. apply triple_reload; [|by intros c []]. intros c0 _ c ([Hok Hf] & Hcl & _).
  destruct (Z.eqb_spec dict 0) as [|Nd]; [done|]. destruct (Z.eqb_spec dictSize 0) as [|Ns]; [done|]. cbn [orb]. assert (blocks c = []) as Hb by (by rewrite Hcl).
  destruct method; unfold cbind, creject_if.
  - destruct (negb _); cbn [cret creject]; [done|]. unfold ZSTD_customMalloc. destruct (Z.eqb_spec buffer 0) as [->|Nb]; [done|]. cbn [Z.eqb]. rewrite (proj2 (Z.eqb_neq _ _) Nb). cbn.
    pose proof (ready_alloc buffer c Hok Hcl dictSize ltac:(lia) Nb ct) as H. rewrite Hcl in H |- *. exact H.
  - cbn. destruct Hok. rewrite Hcl in *. constructor; try done. intros _. cbn. split; [lia|done].
Qed.

Lemma triple_refCDict ptr cd : triple (ready ptr) (ZSTD_CCtx_refCDict cd) (ready ptr).
Proof.
  unfold ZSTD_CCtx_refCDict. apply triple_reload; [|done]. intros c0 _ c ([Hok Hf] & Hcl & _). cbn. split; [|done]. destruct Hok. rewrite Hcl in *. by constructor.
Qed.

Lemma triple_refPrefix ptr prefix size ct : 0 <= size < 2 ^ 63 -> triple (ready ptr) (ZSTD_CCtx_refPrefix_advanced prefix size ct) (ready ptr).
Proof.
  intros Hs. unfold ZSTD_CCtx_refPrefix_advanced. apply triple_reload; [|done]. intros c0 _ c ([Hok Hf] & Hcl & _). unfold cbind. destruct (Z.eqb_spec prefix 0); cbn; [done|].
  destruct (Z.ltb_spec 0 size); cbn; [|done]. split; [|done]. destruct Hok. rewrite Hcl in *. constructor; try done. intros _. cbn. split; [done|lia].
Qed.

Lemma triple_setPledged ptr n : triple (ready ptr) (ZSTD_CCtx_setPledgedSrcSize n) (ready ptr).
Proof.
  unfold ZSTD_CCtx_setPledgedSrcSize. apply triple_get. intros c0 Hc0 c <-. unfold cbind, creject_if. destruct (negb _); cbn; [done|]. apply (ready_same ptr c0); try done; [apply (ready_ok _ _ Hc0)|].
  cbn. apply wrap_range. lia.
Qed.

Lemma triple_refThreadPool ptr p : triple (ready ptr) (ZSTD_CCtx_refThreadPool p) (ready ptr).
Proof.
  unfold ZSTD_CCtx_refThreadPool. apply triple_get. intros c0 Hc0 c <-. unfold cbind, creject_if. destruct (negb _); cbn; [done|].
  by apply (ready_same ptr c0); try done; apply (ready_ok _ _ Hc0).
Qed.

Lemma reset_params_ok : params_ok ZSTD_CCtxParams_reset.
Proof. apply init_params_ok. split; vm_compute; discriminate. Qed.

Lemma triple_reset ptr d : triple (ready ptr) (ZSTD_CCtx_reset d) (ready ptr).
Proof.
  unfold ZSTD_CCtx_reset. eapply (triple_bind _ (ready ptr)); [|intros _|done].
  - destruct d; try apply triple_ret; apply triple_modify; intros c Hc; by apply (ready_same ptr c); try done; apply (ready_ok _ _ Hc).
  - destruct d; try apply triple_ret; (apply triple_reload; [|done]); intros c0 _ c (Hc & Hcl & _); cbn;
      apply (ready_same ptr c); try done; [apply reset_params_ok|apply (ready_ok _ _ Hc)|apply reset_params_ok|apply (ready_ok _ _ Hc)].
Qed.

Lemma triple_useParams ptr params : params_ok params -> triple (ready ptr) (ZSTD_CCtx_setParametersUsingCCtxParams params) (ready ptr).
Proof.
  intros Hp. unfold ZSTD_CCtx_setParametersUsingCCtxParams. apply triple_get. intros c0 Hc0 c <-. unfold cbind, creject_if. do 2 (destruct (negb _); cbn; [done|]).
  apply (ready_same ptr c0); try done. apply (ready_ok _ _ Hc0).
Qed.

(** Sequences of calls that keep a context in order. *)
Lemma triple_seq {A B} ptr (m : call A) (k : call B) : triple (ready ptr) m (ready ptr) -> triple (ready ptr) k (ready ptr) -> triple (ready ptr) (cbind m (fun _ => k)) (ready ptr).
Proof. intros Hm Hk. by eapply triple_bind; [exact Hm|intros; exact Hk|]. Qed.

Lemma triple_last {A B} ptr (m : call A) (k : call B) : triple (ready ptr) m (ready ptr) -> triple (ready ptr) k ctx_ok -> triple (ready ptr) (cbind m (fun _ => k)) ctx_ok.
Proof. intros Hm Hk. eapply triple_bind; [exact Hm|intros; exact Hk|by intros c []]. Qed.

Lemma triple_done {A B} I (m : call A) (b : B) : triple I m ctx_ok -> triple I (cbind m (fun _ => cret b)) ctx_ok.
Proof. intros Hm. eapply triple_bind; [exact Hm|intros; apply triple_ret|done]. Qed.

Lemma check_no_fault cPar : match ZSTD_checkCParams cPar with Fault _ => False | _ => True end.
Proof. unfold ZSTD_checkCParams, BOUNDCHECK. repeat (destruct (ZSTD_cParam_withinBounds _ _); cbn [negb reject_if obind]; [|done]). done. Qed.

Create HintDb ctx.
#[local] Hint Resolve triple_setParameter triple_loadDictionary triple_refCDict triple_refPrefix triple_setPledged triple_refThreadPool triple_reset triple_useParams triple_ret : ctx.

(** Calls one after the other. *)
Ltac seq := repeat first [apply triple_seq; [solve [auto with ctx]|]]; auto with ctx.

Lemma triple_check ptr cPar : triple (ready ptr) (cpure (ZSTD_checkCParams cPar)) (ready ptr).
Proof. apply triple_pure, check_no_fault. Qed.
#[local] Hint Resolve triple_check : ctx.

Lemma triple_setCParams ptr cPar : triple (ready ptr) (ZSTD_CCtx_setCParams cPar) (ready ptr).
Proof. unfold ZSTD_CCtx_setCParams. seq. Qed.
Lemma triple_setFParams ptr fPar : triple (ready ptr) (ZSTD_CCtx_setFParams fPar) (ready ptr).
Proof. unfold ZSTD_CCtx_setFParams. seq. Qed.
#[local] Hint Resolve triple_setCParams triple_setFParams : ctx.
Lemma triple_setParams ptr params : triple (ready ptr) (ZSTD_CCtx_setParams params) (ready ptr).
Proof. unfold ZSTD_CCtx_setParams. seq. Qed.

Lemma triple_resetCStream ptr n : triple (ready ptr) (ZSTD_resetCStream n) (ready ptr).
Proof. unfold ZSTD_resetCStream. seq. Qed.
Lemma triple_initCStream ptr level : triple (ready ptr) (ZSTD_initCStream level) (ready ptr).
Proof. unfold ZSTD_initCStream. seq. Qed.
Lemma triple_initCStream_srcSize ptr level n : triple (ready ptr) (ZSTD_initCStream_srcSize level n) (ready ptr).
Proof. unfold ZSTD_initCStream_srcSize. seq. Qed.
Lemma triple_initCStream_usingCDict ptr cd : triple (ready ptr) (ZSTD_initCStream_usingCDict cd) (ready ptr).
Proof. unfold ZSTD_initCStream_usingCDict. seq. Qed.

(** A change of the requested parameters. *)
Lemma triple_params ptr (f : ZSTD_CCtx -> ZSTD_CCtx_params) : (forall c, params_ok (requestedParams c) -> params_ok (f c)) ->
  triple (ready ptr) (cmodify (fun c => c <| requestedParams := f c |>)) (ready ptr).
Proof. intros Hf. apply triple_modify. intros c Hc. apply (ready_same ptr c); try done; [apply Hf|]; apply (ready_ok _ _ Hc). Qed.

Lemma triple_initCStream_usingCDict_advanced ptr cd fPar n : triple (ready ptr) (ZSTD_initCStream_usingCDict_advanced cd fPar n) (ready ptr).
Proof. unfold ZSTD_initCStream_usingCDict_advanced. do 2 (apply triple_seq; [auto with ctx|]). apply triple_seq; [|seq]. apply triple_params. intros c []. by constructor. Qed.

Lemma triple_initCStream_usingDict buffer dict dictSize level : 0 <= dictSize < 2 ^ 63 -> triple (ready buffer) (ZSTD_initCStream_usingDict buffer dict dictSize level) ctx_ok.
Proof. intros Hd. unfold ZSTD_initCStream_usingDict. do 2 (apply triple_last; [auto with ctx|]). by apply triple_done, triple_loadDictionary. Qed.

Lemma triple_initCStream_internal buffer dict dictSize cd params n : 0 <= dictSize < 2 ^ 63 -> params_ok params -> ZSTD_checkCParams (cParams params) = Ok tt -> dict = 0 \/ cd = 0 ->
  triple (ready buffer) (ZSTD_initCStream_internal buffer dict dictSize cd params n) ctx_ok.
Proof.
  intros Hd Hp Hc Hor. unfold ZSTD_initCStream_internal. do 2 (apply triple_last; [auto with ctx|]). rewrite Hc. apply triple_last; [apply triple_ret|]. apply triple_last; [by apply triple_params|].
  assert (negb (negb (dict =? 0) && negb (cd =? 0)) = true) as -> by (destruct Hor as [-> | ->]; [done|by destruct (dict =? 0)]). apply triple_last; [apply triple_ret|].
  apply triple_done. destruct (negb _); [by apply triple_loadDictionary|]. eapply triple_weaken; [apply triple_refCDict|done|by intros c []].
Qed.

Lemma triple_initCStream_advanced buffer dict dictSize params n : 0 <= dictSize < 2 ^ 63 -> (forall f, In f fields -> 0 <= f params.1 < 2 ^ 31) ->
  triple (ready buffer) (ZSTD_initCStream_advanced buffer dict dictSize params n) ctx_ok.
Proof.
  intros Hd Hf. unfold ZSTD_initCStream_advanced. do 2 (apply triple_last; [auto with ctx|]). destruct (ZSTD_checkCParams params.1) as [[]|e|f] eqn:E.
  - apply triple_last; [by apply triple_pure|]. apply triple_get. intros c0 Hc0. unfold ZSTD_CCtxParams_setZstdParams. rewrite E. cbn [oassert obind cpure].
    apply triple_eq. intros c <-. eapply triple_weaken with (I' := ready buffer) (Q' := ctx_ok); [|by intros c <-|done].
    destruct (checked_cparams _ Hf E). apply triple_last; [|by apply triple_done, triple_loadDictionary].
    apply triple_modify. intros c Hc. apply (ready_same buffer c); try done; [|apply (ready_ok _ _ Hc)]. destruct (co_params _ (ready_ok _ _ Hc0)).
    constructor; cbn; try done; try (by right).
  - intros c Hc. cbn. by apply ready_ok in Hc.
  - pose proof (check_no_fault params.1) as H. by rewrite E in H.
Qed.

(** After it, a local dictionary is digested, and is the dictionary of the context. *)
Lemma initLocalDict_spec created c : ready created c -> exists c' r, ZSTD_initLocalDict created c = Ok (c', r) /\ ctx_ok c' /\
  prefixDict c' = prefixDict c /\ requestedParams c' = requestedParams c /\ pledgedSrcSizePlusOne c' = pledgedSrcSizePlusOne c /\ streamStage c' = streamStage c.
Proof.
  intros [Hok Hf]. pose proof Hok as [H1 H2 H3 H4 H5 H6 H7]. unfold ZSTD_initLocalDict, cbind, cget. destruct (Z.eqb_spec (ld_dict (localDict c)) 0) as [E|N].
  { destruct (H4 E) as (-> & -> & ->). cbn. by eexists _, _. }
  destruct (H5 N) as (Hs & Hp & Hc). destruct (Z.eqb_spec (ld_cdict (localDict c)) 0) as [Ec|Nc]; cbn [negb].
  - rewrite (proj2 (Z.ltb_lt 0 _)) by lia. rewrite Hc, Ec, Hp. cbn. unfold ZSTD_customMalloc, creject_if. destruct (Z.eqb_spec created 0) as [->|Nn]; cbn.
    + eexists _, _. split; [done|]. split; [|done]. constructor; try done; cbn; unfold owned in *; cbn in *; try by rewrite Ec in *.
    + rewrite (proj2 (Z.eqb_neq _ _) Nn). cbn. eexists _, _. split; [done|]. split; [|done]. destruct Hf as [?|Hf]; [done|].
      assert (owned c = List.filter (fun b => negb (b =? 0)) [ld_dictBuffer (localDict c)]) as Eo by (unfold owned; rewrite Ec; cbn; by destruct (negb (ld_dictBuffer (localDict c) =? 0))).
      constructor; try done; cbn [update localDict blocks cdict prefixDict ld_dict ld_cdict ld_dictBuffer ld_dictSize].
      * rewrite H2, Eo. unfold owned. cbn. rewrite (proj2 (Z.eqb_neq _ _) Nn). cbn. destruct (negb _); [apply perm_swap|done].
      * unfold owned in *. cbn in *. rewrite (proj2 (Z.eqb_neq _ _) Nn). cbn. rewrite Ec in H2. cbn in H2. unfold fresh in Hf. destruct (negb _) in *; [|apply NoDup_singleton].
        apply NoDup_cons. split; [|apply NoDup_singleton]. intros Hx. apply list_elem_of_In in Hx. destruct Hx as [Hx|[]]. apply Hf. rewrite H2, Hx. by left.
  - rewrite Hc, Z.eqb_refl. cbn. by eexists _, _.
Qed.

(** Parameters with which a compression begins: valid, and nothing left to be chosen. *)
Record started (params : ZSTD_CCtx_params) : Prop := {
  st_cparams : cparams_ok (cParams params);
  st_row : 1 <= useRowMatchFinder params <= 2;
  st_split : postBlockSplitter params <> ZSTD_ps_auto;
  st_ldm : 1 <= enableLdm (ldmParams params) <= 2;
  st_block : 1024 <= maxBlockSize params <= 2 ^ 17;
  st_ldm_hashLog : unset_or 6 30 (ldm_hashLog (ldmParams params));
  st_ldm_minMatch : unset_or 4 4096 (minMatchLength (ldmParams params));
  st_ldm_bucket : unset_or 1 8 (bucketSizeLog (ldmParams params));
  st_ldm_rate : 0 <= hashRateLog (ldmParams params) <= 25;
  st_workers : nbWorkers params = 0;
  st_preSplitter : 0 <= preBlockSplitter_level params <= 6
}.

Context (cdict_at : Z -> ZSTD_CDict) (compressBegin : ZSTD_prefixDict -> Z -> ZSTD_CCtx_params -> Z -> res unit).
Hypothesis Hcdict : forall cd, 0 <= cd_strategy (cdict_at cd) <= 9 /\ ZSTD_minCLevel <= cd_compressionLevel (cdict_at cd) <= ZSTD_maxCLevel /\ 0 <= cd_dictContentSize (cdict_at cd) < 2 ^ 63.
Hypothesis Hbegin : forall prefix cd params n, started params -> match compressBegin prefix cd params n with Fault _ => False | _ => True end.

Lemma mode_no_fault cd params n : exists mode, ZSTD_getCParamMode cdict_at cd params n = Ok mode.
Proof.
  unfold ZSTD_getCParamMode. destruct (negb _); [|by eexists]. unfold ZSTD_shouldAttachDict. destruct (Hcdict cd) as (Hs & _). destruct (lookup_lt_is_Some_2 attachDictSizeCutoffs (Z.to_nat (cd_strategy (cdict_at cd)))) as [x Ex]; [cbn; lia|].
  rewrite (proj2 (aget_Ok _ _ x)) by (split; [lia|done]). cbn [obind]. by eexists.
Qed.

Lemma resolved_started params cPar : params_ok params -> cparams_ok cPar -> let params := params <| cParams := cPar |> in
  started (params <| postBlockSplitter := ZSTD_resolveBlockSplitterMode (postBlockSplitter params) cPar |>
    <| ldmParams := ldmParams params <| enableLdm := ZSTD_resolveEnableLdm (enableLdm (ldmParams params)) cPar |> |>
    <| useRowMatchFinder := ZSTD_resolveRowMatchFinderMode (useRowMatchFinder params) cPar |>
    <| validateSequences := ZSTD_resolveExternalSequenceValidation (validateSequences params) |>
    <| maxBlockSize := ZSTD_resolveMaxBlockSize (maxBlockSize params) |>
    <| searchForExternalRepcodes := ZSTD_resolveExternalRepcodeSearch (searchForExternalRepcodes params) (compressionLevel params) |>).
Proof.
  intros [] Hc params'. subst params'. constructor; cbn; try done.
  - unfold ZSTD_resolveRowMatchFinderMode, ZSTD_ps_auto, ZSTD_ps_enable, ZSTD_ps_disable. destruct (Z.eqb_spec (useRowMatchFinder params) 0); cbn [negb]; [|lia]. destruct (ZSTD_rowMatchFinderSupported _), (_ <? _); cbn; lia.
  - unfold ZSTD_resolveBlockSplitterMode, ZSTD_ps_auto, ZSTD_ps_enable, ZSTD_ps_disable. destruct (Z.eqb_spec (postBlockSplitter params) 0); cbn [negb]; [|done]. by destruct (_ && _).
  - unfold ZSTD_resolveEnableLdm, ZSTD_ps_auto, ZSTD_ps_enable, ZSTD_ps_disable. destruct (Z.eqb_spec (enableLdm (ldmParams params)) 0); cbn [negb]; [|lia]. destruct (_ && _); lia.
  - unfold ZSTD_resolveMaxBlockSize. destruct po_maxBlockSize as [-> | H]; [split; vm_compute; discriminate|]. rewrite (proj2 (Z.eqb_neq _ _)) by lia. done.
Qed.

Lemma size_t_64 x : 0 <= size_t x < 2 ^ 64.
Proof. unfold size_t, wrap. destruct sizeof_size_t_cases as [-> | ->]; pose proof (Z.mod_pos_bound x (2 ^ (8 * 4))); pose proof (Z.mod_pos_bound x (2 ^ (8 * 8))); lia. Qed.

(** What [init_params] gives: the context is still a good one, and the parameters are those requested with every choice made. *)
Lemma init_params_spec created endOp inSize c : 0 <= inSize -> ready created c -> exists c' r,
  init_params cdict_at created endOp inSize c = Ok (c', r) /\ ctx_ok c' /\ requestedParams c' = requestedParams c /\ streamStage c' = streamStage c /\
  match r with
  | inl _ => True
  | inr (_, _, params, n) => started params /\ inBufferMode params = inBufferMode (requestedParams c) /\ outBufferMode params = outBufferMode (requestedParams c) /\ 0 <= n < 2 ^ 64 /\
      fParams params = fParams (requestedParams c) /\ format params = format (requestedParams c) /\ (endOp = ZSTD_e_end -> inSize + 1 < 2 ^ (8 * sizeof_size_t) -> n = inSize)
  end.
Proof.
  intros Hi Hc. unfold init_params, cbind at 1, cget at 1, cbind at 1. destruct (initLocalDict_spec created c Hc) as (c1 & r & -> & Hok1 & Ep & Er & Epl & Est).
  destruct r as [e|v]; [by eexists _, _|]. unfold cbind at 1, cmodify at 1. set (c2 := c1 <| prefixDict := no_prefix |>). unfold cbind at 1, cget at 1.
  assert (ctx_ok c2) as Hok2. { destruct Hok1. constructor; try done. intros N. destruct (co_local0 N) as (? & _ & ?). split; [done|by split]. }
  assert ((pd_dict (prefixDict c) =? 0) || (cdict c2 =? 0) = true) as ->.
  { destruct (Z.eqb_spec (pd_dict (prefixDict c)) 0) as [|N]; [done|]. rewrite <- Ep in N. destruct (co_prefix _ Hok1 N) as [E _]. cbn. by rewrite E. }
  unfold cbind at 1, cassert at 1, cret at 1. set (params := if _ && _ then _ else _).
  assert (params_ok params) as Hpar. { subst params. pose proof (co_params _ (ready_ok _ _ Hc)) as H. destruct (_ && _); [|done]. destruct H. constructor; try done. apply (Hcdict (cdict c2)). }
  unfold cbind at 1. set (c3 := if bool_decide (endOp = ZSTD_e_end) then c2 <| pledgedSrcSizePlusOne := size_t (inSize + 1) |> else c2).
  match goal with |- context [(if ?b then ?x else ?y) c2] => assert ((if b then x else y) c2 = Ok (c3, inr tt)) as -> by (subst c3; by destruct b) end.
  assert (ctx_ok c3) as Hok3. { subst c3. destruct (bool_decide _); [|done]. destruct Hok2. constructor; try done. apply size_t_64. }
  unfold cbind at 1, cget at 1. set (n := u64 (pledgedSrcSizePlusOne c3 - 1)). assert (0 <= n < 2 ^ 64) as Hn by (apply wrap_range; lia).
  set (dictSize := if negb (pd_dict (prefixDict c) =? 0) then _ else _). assert (0 <= dictSize < 2 ^ 63) as Hd.
  { subst dictSize. destruct (Z.eqb_spec (pd_dict (prefixDict c)) 0) as [|N]; cbn [negb]; [destruct (Z.eqb_spec (cdict c3) 0); cbn [negb]; [lia|apply Hcdict]|]. destruct (co_prefix _ (ready_ok _ _ Hc) N). lia. }
  destruct (mode_no_fault (cdict c3) params n) as [mode ->]. unfold cpure at 1, cbind at 1.
  destruct (getCParamsFromCCtxParams_spec params n dictSize mode Hpar Hn Hd) as (cp0 & cp & _ & -> & Hadj). unfold cpure at 1, cbind at 1.
  pose proof (resolved_started params cp Hpar (adj_ok _ _ Hadj)) as Hst. cbv zeta in Hst |- *. cbn [update cParams] in Hst |- *. rewrite (check_cparams cp (adj_ok _ _ Hadj)). unfold cassert, cret at 1, cbind at 1.
  eexists _, _. split; [reflexivity|]. split; [done|]. cbn [update requestedParams streamStage].
  split; [subst c3; by destruct (bool_decide _)|]. split; [subst c3; by destruct (bool_decide _)|]. split; [exact Hst|]. cbn [update inBufferMode outBufferMode].
  split; [subst params; by destruct (_ && _)|]. split; [subst params; by destruct (_ && _)|]. split; [done|]. split; [subst params; by destruct (_ && _)|]. split; [subst params; by destruct (_ && _)|].
  intros Ee Hs. subst n c3. rewrite bool_decide_eq_true_2 by done. cbn [update pledgedSrcSizePlusOne]. unfold size_t. rewrite (wrap_small (8 * sizeof_size_t)) by lia. replace (inSize + 1 - 1) with inSize by lia. apply wrap_small. destruct sizeof_size_t_cases as [E|E]; rewrite E in Hs; lia.
Qed.

Lemma triple_init_compressStream2 created endOp inSize : 0 <= inSize -> triple (ready created) (ZSTD_CCtx_init_compressStream2 cdict_at compressBegin created endOp inSize) ctx_ok.
Proof.
  intros Hi c Hc. unfold ZSTD_CCtx_init_compressStream2. destruct (init_params_spec created endOp inSize c Hi Hc) as (c' & r & E & Hok & _ & _ & Hr). unfold cbind at 1. rewrite E.
  destruct r as [e|[[[prefix cd] params] n]]; [done|]. destruct Hr as (Hst & _). specialize (Hbegin prefix cd _ n Hst). unfold cbind at 1, cpure. destruct (compressBegin _ _ _ _); [|done..].
  destruct Hok. by constructor.
Qed.
End Kept.

(** ** Any sequence of calls *)

Inductive command :=
| SetParameter (param : ZSTD_cParameter) (value : Z)
| SetParametersUsingCCtxParams (params : ZSTD_CCtx_params)
| SetCParams (cPar : ZSTD_compressionParameters)
| SetFParams (fPar : ZSTD_frameParameters)
| SetParams (params : ZSTD_compressionParameters * ZSTD_frameParameters)
| SetPledgedSrcSize (n : Z)
| LoadDictionary (buffer dict dictSize : Z) (method : ZSTD_dictLoadMethod_e) (contentType : Z)
| RefCDict (cd : Z)
| RefPrefix (prefix prefixSize contentType : Z)
| RefThreadPool (p : Z)
| Reset (d : ZSTD_ResetDirective)
| ResetCStream (n : Z)
| InitCStream (level : Z)
| InitCStream_srcSize (level n : Z)
| InitCStream_usingCDict (cd : Z)
| InitCStream_usingCDict_advanced (cd : Z) (fPar : ZSTD_frameParameters) (n : Z)
| InitCStream_usingDict (buffer dict dictSize level : Z)
| InitCStream_advanced (buffer dict dictSize : Z) (params : ZSTD_compressionParameters * ZSTD_frameParameters) (n : Z)
| InitCStream_internal (buffer dict dictSize cd : Z) (params : ZSTD_CCtx_params) (n : Z)
| InitCompressStream2 (created : Z) (endOp : ZSTD_EndDirective) (inSize : Z).

Section Commands.
Context `{P : Platform} (cdict_at : Z -> ZSTD_CDict) (compressBegin : ZSTD_prefixDict -> Z -> ZSTD_CCtx_params -> Z -> res unit).

Definition run (x : command) : call unit :=
  match x with
  | SetParameter param value => cbind (ZSTD_CCtx_setParameter param value) (fun _ => cret tt)
  | SetParametersUsingCCtxParams params => cbind (ZSTD_CCtx_setParametersUsingCCtxParams params) (fun _ => cret tt)
  | SetCParams cPar => cbind (ZSTD_CCtx_setCParams cPar) (fun _ => cret tt)
  | SetFParams fPar => cbind (ZSTD_CCtx_setFParams fPar) (fun _ => cret tt)
  | SetParams params => cbind (ZSTD_CCtx_setParams params) (fun _ => cret tt)
  | SetPledgedSrcSize n => cbind (ZSTD_CCtx_setPledgedSrcSize n) (fun _ => cret tt)
  | LoadDictionary buffer dict dictSize method ct => cbind (ZSTD_CCtx_loadDictionary_advanced buffer dict dictSize method ct) (fun _ => cret tt)
  | RefCDict cd => cbind (ZSTD_CCtx_refCDict cd) (fun _ => cret tt)
  | RefPrefix prefix size ct => cbind (ZSTD_CCtx_refPrefix_advanced prefix size ct) (fun _ => cret tt)
  | RefThreadPool p => cbind (ZSTD_CCtx_refThreadPool p) (fun _ => cret tt)
  | Reset d => cbind (ZSTD_CCtx_reset d) (fun _ => cret tt)
  | ResetCStream n => cbind (ZSTD_resetCStream n) (fun _ => cret tt)
  | InitCStream level => cbind (ZSTD_initCStream level) (fun _ => cret tt)
  | InitCStream_srcSize level n => cbind (ZSTD_initCStream_srcSize level n) (fun _ => cret tt)
  | InitCStream_usingCDict cd => cbind (ZSTD_initCStream_usingCDict cd) (fun _ => cret tt)
  | InitCStream_usingCDict_advanced cd fPar n => cbind (ZSTD_initCStream_usingCDict_advanced cd fPar n) (fun _ => cret tt)
  | InitCStream_usingDict buffer dict dictSize level => cbind (ZSTD_initCStream_usingDict buffer dict dictSize level) (fun _ => cret tt)
  | InitCStream_advanced buffer dict dictSize params n => cbind (ZSTD_initCStream_advanced buffer dict dictSize params n) (fun _ => cret tt)
  | InitCStream_internal buffer dict dictSize cd params n => cbind (ZSTD_initCStream_internal buffer dict dictSize cd params n) (fun _ => cret tt)
  | InitCompressStream2 created endOp inSize => cbind (ZSTD_CCtx_init_compressStream2 cdict_at compressBegin created endOp inSize) (fun _ => cret tt)
  end.

(** What the allocator returns for the call. *)
Definition allocates (x : command) : Z :=
  match x with
  | LoadDictionary buffer _ _ _ _ | InitCStream_usingDict buffer _ _ _ | InitCStream_advanced buffer _ _ _ _ | InitCStream_internal buffer _ _ _ _ _ => buffer
  | InitCompressStream2 created _ _ => created
  | _ => 0
  end.

(** What the types of the arguments say, and what the documentation asks of a caller. *)
Definition arguments_ok (x : command) : Prop :=
  match x with
  | SetParametersUsingCCtxParams params => params_ok params
  | LoadDictionary _ _ dictSize _ _ | InitCStream_usingDict _ _ dictSize _ | RefPrefix _ dictSize _ => 0 <= dictSize < 2 ^ 63
  | InitCStream_advanced _ _ dictSize params _ => 0 <= dictSize < 2 ^ 63 /\ forall f, In f fields -> 0 <= f params.1 < 2 ^ 31
  | InitCStream_internal _ dict dictSize cd params _ => 0 <= dictSize < 2 ^ 63 /\ params_ok params /\ ZSTD_checkCParams (cParams params) = Ok tt /\ (dict = 0 \/ cd = 0)
  | InitCompressStream2 _ _ inSize => 0 <= inSize
  | _ => True
  end.

(** The contexts that calls can lead to. *)
Inductive reach : ZSTD_CCtx -> Prop :=
| reach_init static c : ZSTD_initCCtx (zero_CCtx static) = Ok (c, inr tt) -> reach c
| reach_run x c c' r : reach c -> arguments_ok x -> allocates x = 0 \/ ~ In (allocates x) (blocks c) -> run x c = Ok (c', r) -> reach c'.

Hypothesis Hcdict : forall cd, 0 <= cd_strategy (cdict_at cd) <= 9 /\ ZSTD_minCLevel <= cd_compressionLevel (cdict_at cd) <= ZSTD_maxCLevel /\ 0 <= cd_dictContentSize (cdict_at cd) < 2 ^ 63.
Hypothesis Hbegin : forall prefix cd params n, started params -> match compressBegin prefix cd params n with Fault _ => False | _ => True end.

Lemma triple_run x : arguments_ok x -> triple (ready (allocates x)) (run x) ctx_ok.
Proof.
  intros Ha. assert (forall A (m : call A) ptr, triple (ready ptr) m (ready ptr) -> triple (ready ptr) (cbind m (fun _ => cret tt)) ctx_ok) as Hk.
  { intros A m ptr Hm. apply triple_done. eapply triple_weaken; [exact Hm|done|by intros c []]. }
  destruct x; cbn [run allocates arguments_ok] in *.
  - apply Hk, triple_setParameter.
  - by apply Hk, triple_useParams.
  - apply Hk, triple_setCParams.
  - apply Hk, triple_setFParams.
  - apply Hk, triple_setParams.
  - apply Hk, triple_setPledged.
  - by apply triple_done, triple_loadDictionary.
  - apply Hk, triple_refCDict.
  - by apply Hk, triple_refPrefix.
  - apply Hk, triple_refThreadPool.
  - apply Hk, triple_reset.
  - apply Hk, triple_resetCStream.
  - apply Hk, triple_initCStream.
  - apply Hk, triple_initCStream_srcSize.
  - apply Hk, triple_initCStream_usingCDict.
  - apply Hk, triple_initCStream_usingCDict_advanced.
  - by apply triple_done, triple_initCStream_usingDict.
  - destruct Ha. by apply triple_done, triple_initCStream_advanced.
  - destruct Ha as (? & ? & ? & ?). by apply triple_done, triple_initCStream_internal.
  - by apply triple_done, triple_init_compressStream2.
Qed.

Lemma initCCtx_spec static : exists c, ZSTD_initCCtx (zero_CCtx static) = Ok (c, inr tt) /\ ctx_ok c.
Proof. eexists. split; [vm_compute; reflexivity|]. constructor; try done; try apply reset_params_ok; by constructor. Qed.

Lemma reach_ctx_ok c : reach c -> ctx_ok c.
Proof.
  induction 1 as [static c E|x c c' r Hr IH Ha Hf E].
  - destruct (initCCtx_spec static) as (c' & E' & Hok). rewrite E in E'. by injection E' as ->.
  - pose proof (triple_run x Ha c) as H. rewrite E in H. by apply H.
Qed.
End Commands.



(** ** All or nothing *)

Section Atomic.
Context `{P : Platform}.
Implicit Types (c : ZSTD_CCtx).

Lemma setParameter_init c param v p r : streamStage c = zcss_init -> (match param with ZSTD_c_nbWorkers | ZSTD_c_unknown _ => False | _ => True end) ->
  ZSTD_CCtxParams_setParameter (requestedParams c) param v = Ok (p, r) -> ZSTD_CCtx_setParameter param v c = Ok (c <| requestedParams := p |>, inr r).
Proof.
  intros Hs Hp E. unfold ZSTD_CCtx_setParameter, cbind, cget. rewrite bool_decide_eq_true_2 by done. cbn [negb cret]. destruct param; try done; cbn [cret]; unfold cpure; by rewrite E.
Qed.

Lemma setParameter_late c param v : streamStage c <> zcss_init -> ZSTD_isUpdateAuthorized param = false -> ZSTD_CCtx_setParameter param v c = Ok (c, inl ZSTD_error_stage_wrong).
Proof. intros Hs Hp. unfold ZSTD_CCtx_setParameter, cbind, cget. rewrite bool_decide_eq_false_2 by done. cbn [negb]. by rewrite Hp. Qed.

Lemma set_same c p p' : (c <| requestedParams := p |>) <| requestedParams := p' |> = c <| requestedParams := p' |>.
Proof. done. Qed.

(** Setting a parameter of a context in its first stage to a value within its bounds. *)
Lemma setParameter_within c p param v : streamStage c = zcss_init -> (match param with ZSTD_c_nbWorkers | ZSTD_c_unknown _ | ZSTD_c_rsyncable => False | _ => True end) ->
  ZSTD_cParam_withinBounds param v = true -> forall p', (forall q r, ZSTD_CCtxParams_setParameter p param v = Ok (q, r) -> q = p') ->
  exists r, ZSTD_CCtx_setParameter param v (c <| requestedParams := p |>) = Ok (c <| requestedParams := p' |>, inr r).
Proof.
  intros Hs Hp Hw p' Hq. destruct (accepts param v Hw) with (p := p) as (q & r & E); [by intros ->|]. exists r. rewrite <- (Hq q r E).
  by rewrite (setParameter_init _ param v q r) by (try done; by destruct param).
Qed.

Lemma within_ok param lo hi v : ZSTD_cParam_getBounds param = Ok (lo, hi) -> lo <= v <= hi -> ZSTD_cParam_withinBounds param v = true.
Proof. intros E Hv. unfold ZSTD_cParam_withinBounds. rewrite E. rewrite !(proj2 (Z.leb_le _ _)) by lia. done. Qed.

(** One step of [ZSTD_CCtx_setCParams] or [ZSTD_CCtx_setFParams]. *)
Lemma set_step {A} c p param v p' (k : Z -> call A) : streamStage c = zcss_init -> (match param with ZSTD_c_nbWorkers | ZSTD_c_unknown _ | ZSTD_c_rsyncable => False | _ => True end) ->
  ZSTD_cParam_withinBounds param v = true -> (forall q r, ZSTD_CCtxParams_setParameter p param v = Ok (q, r) -> q = p') -> (forall r r', k r = k r') ->
  cbind (ZSTD_CCtx_setParameter param v) k (c <| requestedParams := p |>) = k 0 (c <| requestedParams := p' |>).
Proof. intros Hs Hp Hw Hq Hk. unfold cbind. destruct (setParameter_within c p param v Hs Hp Hw p' Hq) as [r ->]. by rewrite (Hk r 0). Qed.

(** What a field holds after a value within its bounds is assigned. *)
Ltac assigned := let E := fresh in intros ? ? E; cbn [ZSTD_CCtxParams_setParameter] in E; try (apply bind_Ok in E as (? & _ & E)); by injection E as <- _.

Lemma setCParams_spec c p cPar : streamStage c = zcss_init -> cparams_ok cPar -> ZSTD_CCtx_setCParams cPar (c <| requestedParams := p |>) = Ok (c <| requestedParams := p <| cParams := cPar |> |>, inr 0).
Proof.
  intros Hs Hok. pose proof Hok as [K1 K2 K3 K4 K5 K6 K7]. pose proof log_limits as (L1 & L2 & L3). unfold ZSTD_CCtx_setCParams. unfold cbind at 1, cpure. rewrite (check_cparams cPar Hok).
  assert (forall x, 0 <= x < 2 ^ 31 -> s32 x = x) as Hsg by (intros x Hx; apply sgn_small; simpl; lia).
  assert (forall x, 0 <= x < 2 ^ 31 -> u32 x = x) as Hu by (intros x Hx; apply wrap_small; lia).
  rewrite !Hsg by lia. repeat (erewrite set_step; [|done|done|eapply within_ok; [reflexivity|unfold ZSTD_WINDOWLOG_MIN, ZSTD_CHAINLOG_MIN, ZSTD_HASHLOG_MIN, ZSTD_SEARCHLOG_MIN, ZSTD_SEARCHLOG_MAX, ZSTD_MINMATCH_MIN,
    ZSTD_MINMATCH_MAX, ZSTD_TARGETLENGTH_MIN, ZSTD_TARGETLENGTH_MAX, ZSTD_STRATEGY_MIN, ZSTD_STRATEGY_MAX, ZSTD_fast, ZSTD_btultra2; rewrite ?L3; change ZSTD_BLOCKSIZE_MAX with (2 ^ 17); lia]|assigned|done]).
  unfold cret. do 2 f_equal. cbn. rewrite !Hu by lia. by destruct cPar.
Qed.

(** Flags, as 0 and 1. *)
Definition normal_fParams (fPar : ZSTD_frameParameters) : ZSTD_frameParameters :=
  {| contentSizeFlag := b2z (negb (contentSizeFlag fPar =? 0)); p_checksumFlag := b2z (negb (p_checksumFlag fPar =? 0)); noDictIDFlag := b2z (negb (noDictIDFlag fPar =? 0)) |}.

Lemma setFParams_spec c p fPar : streamStage c = zcss_init -> ZSTD_CCtx_setFParams fPar (c <| requestedParams := p |>) = Ok (c <| requestedParams := p <| fParams := normal_fParams fPar |> |>, inr 0).
Proof.
  intros Hs. unfold ZSTD_CCtx_setFParams. assert (forall b, 0 <= b2z b <= 1) as Hb by (intros []; cbn; lia).
  repeat (erewrite set_step; [|done|done|eapply within_ok; [reflexivity|apply Hb]|assigned|done]). unfold cret. do 2 f_equal. unfold normal_fParams. cbn.
  by destruct (contentSizeFlag fPar =? 0), (p_checksumFlag fPar =? 0), (noDictIDFlag fPar =? 0).
Qed.

(** A call of the first stage, in a later one. *)
Lemma late_stage {A} (k : ZSTD_CCtx -> call A) c : streamStage c <> zcss_init ->
  cbind cget (fun c => cbind (creject_if (negb (bool_decide (streamStage c = zcss_init))) ZSTD_error_stage_wrong) (fun _ => k c)) c = Ok (c, inl ZSTD_error_stage_wrong).
Proof. intros Hs. unfold cbind, cget, creject_if. by rewrite bool_decide_eq_false_2 by done. Qed.
End Atomic.

(** [ZSTD_CCtx_setParams] updates all parameters or none.  With parameters that [ZSTD_checkCParams] refuses, or once a compression has started, it reports the error and leaves the
    context as it was; otherwise the compression and frame parameters are the given ones and nothing else changes.  Once a compression has started, dictionaries, the
    pledged size and the parameters that may not be updated are refused too, and the context is unchanged. *)
Theorem ZSTD_CCtx_setParams_atomic `{P : Platform} c cPar fPar : (forall f, In f fields -> 0 <= f cPar < 2 ^ 31) ->
  match ZSTD_checkCParams cPar with
  | Ok _ => ZSTD_CCtx_setParams (cPar, fPar) c = if bool_decide (streamStage c = zcss_init)
      then Ok (c <| requestedParams := requestedParams c <| fParams := normal_fParams fPar |> <| cParams := cPar |> |>, inr 0) else Ok (c, inl ZSTD_error_stage_wrong)
  | Err e => ZSTD_CCtx_setParams (cPar, fPar) c = Ok (c, inl e)
  | Fault _ => False
  end /\
  (streamStage c <> zcss_init ->
    (forall param v, ZSTD_isUpdateAuthorized param = false -> ZSTD_CCtx_setParameter param v c = Ok (c, inl ZSTD_error_stage_wrong)) /\
    (forall n, ZSTD_CCtx_setPledgedSrcSize n c = Ok (c, inl ZSTD_error_stage_wrong)) /\
    (forall b d s m t, ZSTD_CCtx_loadDictionary_advanced b d s m t c = Ok (c, inl ZSTD_error_stage_wrong)) /\
    (forall cd, ZSTD_CCtx_refCDict cd c = Ok (c, inl ZSTD_error_stage_wrong)) /\
    (forall d s t, ZSTD_CCtx_refPrefix_advanced d s t c = Ok (c, inl ZSTD_error_stage_wrong)) /\
    ZSTD_CCtx_reset ZSTD_reset_parameters c = Ok (c, inl ZSTD_error_stage_wrong)).
Proof.
  intros Hf. split.
  - unfold ZSTD_CCtx_setParams. cbn [fst snd]. pose proof (check_no_fault cPar) as Hn. destruct (ZSTD_checkCParams cPar) as [[]|e|f] eqn:E; [|done|done].
    unfold cbind at 1, cpure. destruct (decide (streamStage c = zcss_init)) as [Hs|Hs].
    + rewrite bool_decide_eq_true_2 by done. assert (c = c <| requestedParams := requestedParams c |>) as Ec by (by destruct c). rewrite Ec at 1. unfold cbind. rewrite setFParams_spec by done.
      rewrite setCParams_spec by (done || by apply checked_cparams). done.
    + rewrite bool_decide_eq_false_2 by done. unfold ZSTD_CCtx_setFParams, cbind. by rewrite setParameter_late.
  - intros Hs. split; [intros; by apply setParameter_late|]. repeat split; intros; by apply (late_stage (A := Z)).
Qed.

Lemma ZSTD_CCtx_setParams_atomic_witness : let P := arm64_v8a in let cPar := cparams 20 16 17 1 5 0 ZSTD_fast in let fPar := {| contentSizeFlag := 1; p_checksumFlag := 5; noDictIDFlag := 0 |} in
  ZSTD_checkCParams cPar = Ok tt /\ exists c, ZSTD_CCtx_setParams (cPar, fPar) (zero_CCtx 0) = Ok (c, inr 0) /\ cParams (requestedParams c) = cPar /\ p_checksumFlag (fParams (requestedParams c)) = 1.
Proof.
  intros P cPar fPar. split; [vm_compute; reflexivity|].
  destruct (ZSTD_CCtx_setParams_atomic (P := P) (zero_CCtx 0) cPar fPar) as [H _].
  - intros f Hf. cbn [fields In] in Hf. repeat (destruct Hf as [<- | Hf]; [split; [by vm_compute|reflexivity]|]). destruct Hf.
  - replace (ZSTD_checkCParams cPar) with (Ok (E := ZSTD_ErrorCode) tt) in H by (vm_compute; reflexivity). rewrite bool_decide_eq_true_2 in H by reflexivity. eexists. split; [exact H|]. split; reflexivity.
Defined.
