(* ===== verification/CCtxSize.v ===== *)
(** * The memory of a compression context: estimates

    How much memory a compression context takes, from zstd_compress.c and zstd_ldm.c: the tables of the match
    finder, the stores of sequences, the buffers of a stream.  [CCtxReset] shows that what is
    estimated here is what a context reserves.

    [DEBUGLEVEL] is as in [Cwksp].  The sizes of the two structures the compiler lays out are
    parameters; those of arrays of integers are written out. *)
From S2P Require Import Prelude Mem Errors Bits Frame SeqTable ExecSeq CParams RecordUpdate CCtxParams Cwksp CwkspClient.

Definition ZSTD_OPT_NUM : Z := Z.shiftl 1 12.
Definition ZSTD_OPT_SIZE : Z := ZSTD_OPT_NUM + 3.
Definition Litbits : Z := 8.
Definition ZSTD_HASHLOG3_MAX : Z := 17.

Definition sizeof_U32 : Z := 4.
Definition sizeof_SeqDef : Z := 8.
Definition sizeof_rawSeq : Z := 12.
Definition sizeof_ldmEntry_t : Z := 8.
Definition sizeof_Sequence : Z := 16.
Definition sizeof_match_t : Z := 8.
Definition sizeof_optimal_t : Z := 28.

Definition ZSTD_bm_buffered : Z := 0.
Definition ZSTD_bm_stable : Z := 1.

Section Estimates.
Context `{P : Platform} (D sizeof_CCtx sizeof_compressedBlockState : Z).
Implicit Types (cPar : ZSTD_compressionParameters) (p : ZSTD_CCtx_params).

(** [(size_t)1 << log] *)
Definition one_shl (log : Z) : Z := size_t (Z.shiftl 1 log).

Definition ZSTD_sizeof_matchState cPar (row : Z) (dds forCCtx : bool) : res Z :=
  let* chain := ZSTD_allocateChainTable (cp_strategy cPar) row (dds && negb forCCtx) in
  let chainSize := if chain then one_shl (cp_chainLog cPar) else 0 in
  let hSize := one_shl (cp_hashLog cPar) in
  let hashLog3 := if forCCtx && (cp_minMatch cPar =? 3) then Z.min ZSTD_HASHLOG3_MAX (cp_windowLog cPar) else 0 in
  let h3Size := if negb (hashLog3 =? 0) then one_shl hashLog3 else 0 in
  let tableSpace := size_t (chainSize * sizeof_U32 + hSize * sizeof_U32 + h3Size * sizeof_U32) in
  let* ml := ZSTD_cwksp_aligned64_alloc_size D ((MaxML + 1) * sizeof_U32) in
  let* ll := ZSTD_cwksp_aligned64_alloc_size D ((MaxLL + 1) * sizeof_U32) in
  let* off := ZSTD_cwksp_aligned64_alloc_size D ((MaxOff + 1) * sizeof_U32) in
  let* lit := ZSTD_cwksp_aligned64_alloc_size D (Z.shiftl 1 Litbits * sizeof_U32) in
  let* matches := ZSTD_cwksp_aligned64_alloc_size D (ZSTD_OPT_SIZE * sizeof_match_t) in
  let* prices := ZSTD_cwksp_aligned64_alloc_size D (ZSTD_OPT_SIZE * sizeof_optimal_t) in
  let optPotentialSpace := ml + ll + off + lit + matches + prices in
  let* rowUsed := ZSTD_rowMatchFinderUsed (cp_strategy cPar) row in
  let* lazyAdditionalSpace := if rowUsed then ZSTD_cwksp_aligned64_alloc_size D hSize else Ok 0 in
  let optSpace := if forCCtx && (ZSTD_btopt <=? cp_strategy cPar) then optPotentialSpace else 0 in
  let slackSpace := ZSTD_cwksp_slack_space_required in
  oassert (negb (row =? ZSTD_ps_auto));;;
  Ok (size_t (tableSpace + optSpace + slackSpace + lazyAdditionalSpace)).

Definition ZSTD_maxNbSeq (blockSize minMatch : Z) (useSequenceProducer : bool) : Z :=
  let divider := if (minMatch =? 3) || useSequenceProducer then 3 else 4 in
  blockSize / divider.

Definition ZSTD_sequenceBound (srcSize : Z) : Z :=
  let maxNbSeq := srcSize / ZSTD_MINMATCH_MIN + 1 in
  let maxNbDelims := srcSize / ZSTD_BLOCKSIZE_MAX_MIN + 1 in
  size_t (maxNbSeq + maxNbDelims).

(** Shifts of a distance beyond the width are not defined in C; here and below, the logs are below it. *)
Definition ZSTD_ldm_getTableSize (params : ldmParams_t) : Z :=
  let ldmHSize := one_shl (ldm_hashLog params) in
  let ldmBucketSizeLog := Z.min (bucketSizeLog params) (ldm_hashLog params) in
  let ldmBucketSize := one_shl (ldm_hashLog params - ldmBucketSizeLog) in
  let totalSize := size_t (ZSTD_cwksp_alloc_size ldmBucketSize + ZSTD_cwksp_alloc_size (size_t (ldmHSize * sizeof_ldmEntry_t))) in
  if enableLdm params =? ZSTD_ps_enable then totalSize else 0.

Definition ZSTD_ldm_getMaxNbSeq (params : ldmParams_t) (maxChunkSize : Z) : res Z :=
  if enableLdm params =? ZSTD_ps_enable
  then if minMatchLength params =? 0 then Fault DivByZero else Ok (maxChunkSize / minMatchLength params)
  else Ok 0.

Definition ZSTD_estimateCCtxSize_usingCCtxParams_internal cPar (ldm : ldmParams_t) (isStatic : bool) (row buffInSize buffOutSize pledgedSrcSize : Z) (useSequenceProducer : bool) (maxBlock : Z) : res Z :=
  let windowSize := size_t (BOUNDED 1 (Z.shiftl 1 (cp_windowLog cPar)) pledgedSrcSize) in
  let blockSize := Z.min (ZSTD_resolveMaxBlockSize maxBlock) windowSize in
  let maxNbSeq := ZSTD_maxNbSeq blockSize (cp_minMatch cPar) useSequenceProducer in
  let* seqs := ZSTD_cwksp_aligned64_alloc_size D (maxNbSeq * sizeof_SeqDef) in
  let tokenSpace := ZSTD_cwksp_alloc_size (WILDCOPY_OVERLENGTH + blockSize) + seqs + 3 * ZSTD_cwksp_alloc_size maxNbSeq in
  let tmpWorkSpace := ZSTD_cwksp_alloc_size TMP_WORKSPACE_SIZE in
  let blockStateSpace := 2 * ZSTD_cwksp_alloc_size sizeof_compressedBlockState in
  let* matchStateSize := ZSTD_sizeof_matchState cPar row false true in
  let ldmSpace := ZSTD_ldm_getTableSize ldm in
  let* maxNbLdmSeq := ZSTD_ldm_getMaxNbSeq ldm blockSize in
  let* ldmSeqSpace := if enableLdm ldm =? ZSTD_ps_enable then ZSTD_cwksp_aligned64_alloc_size D (maxNbLdmSeq * sizeof_rawSeq) else Ok 0 in
  let bufferSpace := ZSTD_cwksp_alloc_size buffInSize + ZSTD_cwksp_alloc_size buffOutSize in
  let cctxSpace := if isStatic then ZSTD_cwksp_alloc_size sizeof_CCtx else 0 in
  let maxNbExternalSeq := ZSTD_sequenceBound blockSize in
  let* externalSeqSpace := if useSequenceProducer then ZSTD_cwksp_aligned64_alloc_size D (maxNbExternalSeq * sizeof_Sequence) else Ok 0 in
  let neededSpace := size_t (cctxSpace + tmpWorkSpace + blockStateSpace + ldmSpace + ldmSeqSpace + matchStateSize + tokenSpace + bufferSpace + externalSeqSpace) in
  Ok neededSpace.

Definition ZSTD_estimateCCtxSize_usingCCtxParams p : res Z :=
  let* cPar := ZSTD_getCParamsFromCCtxParams p ZSTD_CONTENTSIZE_UNKNOWN 0 ZSTD_cpm_noAttachDict in
  let row := ZSTD_resolveRowMatchFinderMode (useRowMatchFinder p) cPar in
  reject_if (0 <? nbWorkers p) ZSTD_error_GENERIC;;;
  ZSTD_estimateCCtxSize_usingCCtxParams_internal cPar (ldmParams p) true row 0 0 ZSTD_CONTENTSIZE_UNKNOWN (ZSTD_hasExtSeqProd p) (maxBlockSize p).

(** [MAX] of two estimates, with and without the row-based match finder. *)
Definition larger_row (estimate : ZSTD_CCtx_params -> res Z) cPar : res Z :=
  let* initialParams := ZSTD_makeCCtxParamsFromCParams cPar in
  if ZSTD_rowMatchFinderSupported (cp_strategy cPar) then
    let initialParams := initialParams <| useRowMatchFinder := ZSTD_ps_disable |> in
    let* noRowCCtxSize := estimate initialParams in
    let initialParams := initialParams <| useRowMatchFinder := ZSTD_ps_enable |> in
    let* rowCCtxSize := estimate initialParams in
    Ok (Z.max noRowCCtxSize rowCCtxSize)
  else estimate initialParams.

Definition ZSTD_estimateCCtxSize_usingCParams cPar : res Z := larger_row ZSTD_estimateCCtxSize_usingCCtxParams cPar.

Definition srcSizeTiers : list Z := [16 * 1024; 128 * 1024; 256 * 1024; ZSTD_CONTENTSIZE_UNKNOWN].

Fixpoint largest (f : Z -> res Z) (l : list Z) (acc : Z) : res Z :=
  match l with
  | [] => Ok acc
  | x :: l => let* n := f x in largest f l (Z.max n acc)
  end.

Definition ZSTD_estimateCCtxSize_internal (level : Z) : res Z :=
  largest (fun tier => let* cPar := ZSTD_getCParams_internal level tier 0 ZSTD_cpm_noAttachDict in ZSTD_estimateCCtxSize_usingCParams cPar) srcSizeTiers 0.

(** The levels from [MIN(level, 1)] to [level]. *)
Definition levels_to (level : Z) : list Z :=
  map (fun i => Z.min level 1 + Z.of_nat i) (seq 0 (Z.to_nat (level - Z.min level 1 + 1))).

Definition ZSTD_estimateCCtxSize (level : Z) : res Z := largest ZSTD_estimateCCtxSize_internal (levels_to level) 0.

Definition ZSTD_estimateCStreamSize_usingCCtxParams p : res Z :=
  reject_if (0 <? nbWorkers p) ZSTD_error_GENERIC;;;
  let* cPar := ZSTD_getCParamsFromCCtxParams p ZSTD_CONTENTSIZE_UNKNOWN 0 ZSTD_cpm_noAttachDict in
  let blockSize := Z.min (ZSTD_resolveMaxBlockSize (maxBlockSize p)) (one_shl (cp_windowLog cPar)) in
  let inBuffSize := if inBufferMode p =? ZSTD_bm_buffered then size_t (one_shl (cp_windowLog cPar) + blockSize) else 0 in
  let* outBuffSize := if outBufferMode p =? ZSTD_bm_buffered then let* b := ZSTD_compressBound blockSize in Ok (size_t (b + 1)) else Ok 0 in
  let row := ZSTD_resolveRowMatchFinderMode (useRowMatchFinder p) (cParams p) in
  ZSTD_estimateCCtxSize_usingCCtxParams_internal cPar (ldmParams p) true row inBuffSize outBuffSize ZSTD_CONTENTSIZE_UNKNOWN (ZSTD_hasExtSeqProd p) (maxBlockSize p).

Definition ZSTD_estimateCStreamSize_usingCParams cPar : res Z := larger_row ZSTD_estimateCStreamSize_usingCCtxParams cPar.

Definition ZSTD_estimateCStreamSize_internal (level : Z) : res Z :=
  let* cPar := ZSTD_getCParams_internal level ZSTD_CONTENTSIZE_UNKNOWN 0 ZSTD_cpm_noAttachDict in
  ZSTD_estimateCStreamSize_usingCParams cPar.

Definition ZSTD_estimateCStreamSize (level : Z) : res Z := largest ZSTD_estimateCStreamSize_internal (levels_to level) 0.
End Estimates.
