(* ===== verification/CCtxReset.v ===== *)
(** * The reset of a compression context

    [ZSTD_resetCCtx_internal] of zstd_compress.c prepares a context for a frame: it computes the memory that the
    parameters need, replaces the workspace if that is too small or too large, and reserves the tables, stores and
    buffers in it.  Given the memory that [CCtxSize] estimates, every reservation
    succeeds, and a context can be reset again and again.

    Pointers are addresses and the contents of the workspace a memory, as in [Cwksp].  [malloc] gives the
    address of a new workspace of a given size, or 0. *)
From S2P Require Import Prelude Mem Errors Bits Frame SeqTable SeqStore ExecSeq Xxh64 CParams RecordUpdate Calls CCtxParams Cwksp CwkspArena CwkspClient CCtxSize.

Inductive ZSTD_compressionStage_e := ZSTDcs_created | ZSTDcs_init | ZSTDcs_ongoing | ZSTDcs_ending.
Inductive ZSTD_compResetPolicy_e := ZSTDcrp_makeClean | ZSTDcrp_leaveDirty.
Inductive ZSTD_indexResetPolicy_e := ZSTDirp_continue | ZSTDirp_reset.
Inductive ZSTD_resetTarget_e := ZSTD_resetTarget_CDict | ZSTD_resetTarget_CCtx.
Inductive ZSTD_buffered_policy_e := ZSTDb_not_buffered | ZSTDb_buffered.

#[global] Instance buffered_policy_eq_dec : EqDecision ZSTD_buffered_policy_e.
Proof. solve_decision. Defined.
#[global] Instance compressionStage_eq_dec : EqDecision ZSTD_compressionStage_e.
Proof. solve_decision. Defined.

Definition ZSTD_WINDOW_START_INDEX : Z := 2.
Definition ZSTD_INDEXOVERFLOW_MARGIN : Z := 16 * 2 ^ 20.

Record ZSTD_window_t := {
  w_nextSrc : Z;
  w_base : Z;
  w_dictBase : Z;
  w_dictLimit : Z;
  w_lowLimit : Z;
  w_nbOverflowCorrections : Z
}.

#[global] Instance eta_window : Eta ZSTD_window_t := fun r =>
  {| w_nextSrc := w_nextSrc r; w_base := w_base r; w_dictBase := w_dictBase r; w_dictLimit := w_dictLimit r; w_lowLimit := w_lowLimit r;
     w_nbOverflowCorrections := w_nbOverflowCorrections r |}.

(** The contents of a [ZSTD_compressedBlockState_t] that a reset assigns; a table that can be repeated is [true]. *)
Record ZSTD_blockState_values := {
  bs_rep : list Z;
  bs_huf_repeat : bool;
  bs_offcode_repeat : bool;
  bs_matchlength_repeat : bool;
  bs_litlength_repeat : bool
}.

#[global] Instance eta_blockState : Eta ZSTD_blockState_values := fun r =>
  {| bs_rep := bs_rep r; bs_huf_repeat := bs_huf_repeat r; bs_offcode_repeat := bs_offcode_repeat r; bs_matchlength_repeat := bs_matchlength_repeat r;
     bs_litlength_repeat := bs_litlength_repeat r |}.

Record optState_t := {
  opt_litFreq : Z;
  opt_litLengthFreq : Z;
  opt_matchLengthFreq : Z;
  opt_offCodeFreq : Z;
  opt_matchTable : Z;
  opt_priceTable : Z;
  opt_litLengthSum : Z
}.

#[global] Instance eta_optState : Eta optState_t := fun r =>
  {| opt_litFreq := opt_litFreq r; opt_litLengthFreq := opt_litLengthFreq r; opt_matchLengthFreq := opt_matchLengthFreq r;
     opt_offCodeFreq := opt_offCodeFreq r; opt_matchTable := opt_matchTable r; opt_priceTable := opt_priceTable r; opt_litLengthSum := opt_litLengthSum r |}.

Record ZSTD_MatchState_t := {
  ms_window : ZSTD_window_t;
  loadedDictEnd : Z;
  nextToUpdate : Z;
  hashLog3 : Z;
  rowHashLog : Z;
  tagTable : Z;
  hashSalt : Z;
  hashSaltEntropy : Z;
  hashTable : Z;
  hashTable3 : Z;
  chainTable : Z;
  dedicatedDictSearch : bool;
  opt : optState_t;
  dictMatchState : Z;
  ms_cParams : ZSTD_compressionParameters;
  ms_prefetchCDictTables : bool;
  lazySkipping : Z
}.

#[global] Instance eta_MatchState : Eta ZSTD_MatchState_t := fun r =>
  {| ms_window := ms_window r; loadedDictEnd := loadedDictEnd r; nextToUpdate := nextToUpdate r; hashLog3 := hashLog3 r; rowHashLog := rowHashLog r;
     tagTable := tagTable r; hashSalt := hashSalt r; hashSaltEntropy := hashSaltEntropy r; hashTable := hashTable r; hashTable3 := hashTable3 r;
     chainTable := chainTable r; dedicatedDictSearch := dedicatedDictSearch r; opt := opt r; dictMatchState := dictMatchState r;
     ms_cParams := ms_cParams r; ms_prefetchCDictTables := ms_prefetchCDictTables r; lazySkipping := lazySkipping r |}.

(** The pointers and capacities of the store of sequences. *)
Record SeqStore_ptrs := {
  sequencesStart : Z;
  litStart : Z;
  llCode : Z;
  mlCode : Z;
  ofCode : Z;
  maxNbSeq : Z;
  maxNbLit : Z
}.

#[global] Instance eta_SeqStore : Eta SeqStore_ptrs := fun r =>
  {| sequencesStart := sequencesStart r; litStart := litStart r; llCode := llCode r; mlCode := mlCode r; ofCode := ofCode r; maxNbSeq := maxNbSeq r;
     maxNbLit := maxNbLit r |}.

Record ldmState_t := {
  ldm_window : ZSTD_window_t;
  ldm_hashTable : Z;
  ldm_loadedDictEnd : Z;
  bucketOffsets : Z
}.

#[global] Instance eta_ldmState : Eta ldmState_t := fun r =>
  {| ldm_window := ldm_window r; ldm_hashTable := ldm_hashTable r; ldm_loadedDictEnd := ldm_loadedDictEnd r; bucketOffsets := bucketOffsets r |}.

Record RawSeqStore_t := {
  es_seq : Z;
  es_pos : Z;
  es_posInSequence : Z;
  es_size : Z;
  es_capacity : Z
}.

#[global] Instance eta_RawSeqStore : Eta RawSeqStore_t := fun r =>
  {| es_seq := es_seq r; es_pos := es_pos r; es_posInSequence := es_posInSequence r; es_size := es_size r; es_capacity := es_capacity r |}.

(** The fields of a context that a reset uses, and the contents of its workspace. *)
Record ZSTD_CCtx := {
  stage : ZSTD_compressionStage_e;
  appliedParams : ZSTD_CCtx_params;
  dictID : Z;
  dictContentSize : Z;
  ws : ZSTD_cwksp;
  mem : memory;
  blockSizeMax : Z;
  pledgedSrcSizePlusOne : Z;
  consumedSrcSize : Z;
  producedCSize : Z;
  xxhState : XXH64_state_t;
  staticSize : Z;
  isFirstBlock : bool;
  initialized : bool;
  seqStore : SeqStore_ptrs;
  ldmState : ldmState_t;
  ldmSequences : Z;
  maxNbLdmSequences : Z;
  externSeqStore : RawSeqStore_t;
  prevCBlock : Z;
  prevBlockState : ZSTD_blockState_values;
  nextCBlock : Z;
  matchState : ZSTD_MatchState_t;
  tmpWorkspace : Z;
  tmpWkspSize : Z;
  bufferedPolicy : ZSTD_buffered_policy_e;
  inBuff : Z;
  inBuffSize : Z;
  outBuff : Z;
  outBuffSize : Z;
  extSeqBuf : Z;
  extSeqBufCapacity : Z
}.

#[global] Instance eta_CCtx : Eta ZSTD_CCtx := fun r =>
  {| stage := stage r; appliedParams := appliedParams r; dictID := dictID r; dictContentSize := dictContentSize r; ws := ws r; mem := mem r;
     blockSizeMax := blockSizeMax r; pledgedSrcSizePlusOne := pledgedSrcSizePlusOne r; consumedSrcSize := consumedSrcSize r;
     producedCSize := producedCSize r; xxhState := xxhState r; staticSize := staticSize r; isFirstBlock := isFirstBlock r; initialized := initialized r;
     seqStore := seqStore r; ldmState := ldmState r; ldmSequences := ldmSequences r; maxNbLdmSequences := maxNbLdmSequences r;
     externSeqStore := externSeqStore r; prevCBlock := prevCBlock r; prevBlockState := prevBlockState r; nextCBlock := nextCBlock r;
     matchState := matchState r; tmpWorkspace := tmpWorkspace r; tmpWkspSize := tmpWkspSize r; bufferedPolicy := bufferedPolicy r; inBuff := inBuff r;
     inBuffSize := inBuffSize r; outBuff := outBuff r; outBuffSize := outBuffSize r; extSeqBuf := extSeqBuf r; extSeqBufCapacity := extSeqBufCapacity r |}.

Notation call := (call ZSTD_CCtx).

(** *** Assignments inside [matchState], [seqStore] and [ldmState] *)
Definition on_ms (f : ZSTD_MatchState_t -> ZSTD_MatchState_t) : call unit := cmodify (fun zc => zc <| matchState ::= f |>).
Definition on_seqStore (f : SeqStore_ptrs -> SeqStore_ptrs) : call unit := cmodify (fun zc => zc <| seqStore ::= f |>).
Definition on_ldm (f : ldmState_t -> ldmState_t) : call unit := cmodify (fun zc => zc <| ldmState ::= f |>).

Section Reset.
(** The address of the string a window without data points to, and the allocator. *)
Context `{P : Platform} (D sizeof_CCtx sizeof_compressedBlockState blank : Z) (malloc : Z -> Z).
Local Open Scope call_scope.

Definition ZSTD_CURRENT_MAX : Z := if MEM_64bits then 3500 * 2 ^ 20 else 2000 * 2 ^ 20.
Definition ZSTD_CHUNKSIZE_MAX : Z := 2 ^ 32 - 1 - ZSTD_CURRENT_MAX.

(** ** The workspace of a context *)

(** A function of the workspace. *)
Definition on_ws {A} (f : ZSTD_cwksp -> res (A * ZSTD_cwksp)) : call A := fun zc =>
  match f (ws zc) with
  | Ok (a, w) => Ok (zc <| ws := w |>, inr a)
  | Err e => Ok (zc, inl e)
  | Fault x => Fault x
  end.

Definition no_result (m : res ZSTD_cwksp) : res (unit * ZSTD_cwksp) := let* w := m in Ok (tt, w).

(** [ZSTD_cwksp_clean_tables] and [ZSTD_cwksp_reserve_aligned_init_once] also write to it. *)
Definition clean_tables : call unit := fun zc =>
  match ZSTD_cwksp_clean_tables D (ws zc) (mem zc) with
  | Ok (w, m) => Ok (zc <| ws := w |> <| mem := m |>, inr tt)
  | Err e => Ok (zc, inl e)
  | Fault x => Fault x
  end.

Definition reserve_init_once (bytes : Z) : call Z := fun zc =>
  match ZSTD_cwksp_reserve_aligned_init_once D (ws zc) (mem zc) bytes with
  | Ok (ptr, w, m) => Ok (zc <| ws := w |> <| mem := m |>, inr ptr)
  | Err e => Ok (zc, inl e)
  | Fault x => Fault x
  end.

(** [ZSTD_memset(ptr, 0, n)] *)
Definition memset0 (ptr n : Z) : call unit := fun zc =>
  match clear_bytes (ws zc) (mem zc) ptr n with
  | Ok m => Ok (zc <| mem := m |>, inr tt)
  | Err e => Ok (zc, inl e)
  | Fault x => Fault x
  end.

(** ** Windows and block states *)

Definition ZSTD_window_clear (w : ZSTD_window_t) : ZSTD_window_t :=
  let endT := size_t (w_nextSrc w - w_base w) in
  let end_ := u32 endT in
  w <| w_lowLimit := end_ |> <| w_dictLimit := end_ |>.

Definition ZSTD_window_init : ZSTD_window_t :=
  {| w_base := blank; w_dictBase := blank; w_dictLimit := ZSTD_WINDOW_START_INDEX; w_lowLimit := ZSTD_WINDOW_START_INDEX;
     w_nextSrc := blank + ZSTD_WINDOW_START_INDEX; w_nbOverflowCorrections := 0 |}.

Definition ZSTD_indexTooCloseToMax (w : ZSTD_window_t) : bool :=
  ZSTD_CURRENT_MAX - ZSTD_INDEXOVERFLOW_MARGIN <? size_t (w_nextSrc w - w_base w).

Definition ZSTD_dictTooBig (loadedDictSize : Z) : bool := ZSTD_CHUNKSIZE_MAX <? loadedDictSize.

(** Through a null pointer it is an access outside any object. *)
Definition ZSTD_reset_compressedBlockState : call unit := fun zc =>
  if prevCBlock zc =? NULL then Fault Oob
  else Ok (zc <| prevBlockState := {| bs_rep := repStartValue; bs_huf_repeat := false; bs_offcode_repeat := false; bs_matchlength_repeat := false; bs_litlength_repeat := false |} |>, inr tt).

Definition ZSTD_invalidateMatchState : call unit :=
  do on_ms (fun ms => ms <| ms_window ::= ZSTD_window_clear |>);
  do on_ms (fun ms => ms <| nextToUpdate := w_dictLimit (ms_window ms) |>);
  do on_ms (fun ms => ms <| loadedDictEnd := 0 |>);
  do on_ms (fun ms => ms <| opt := opt ms <| opt_litLengthSum := 0 |> |>);
  on_ms (fun ms => ms <| dictMatchState := NULL |>).

Definition ZSTD_bitmix (val len : Z) : res Z :=
  let* r49 := ZSTD_rotateRight_U64 val 49 in
  let* r24 := ZSTD_rotateRight_U64 val 24 in
  let val := Z.lxor val (Z.lxor r49 r24) in
  let val := u64 (val * 0x9FB21C651E98DF25) in
  let val := Z.lxor val (u64 (Z.shiftr val 35 + len)) in
  let val := u64 (val * 0x9FB21C651E98DF25) in
  Ok (Z.lxor val (Z.shiftr val 28)).

Definition ZSTD_advanceHashSalt : call unit :=
  let! zc := cget in
  let! a := cpure (ZSTD_bitmix (hashSalt (matchState zc)) 8) in
  let! b := cpure (ZSTD_bitmix (hashSaltEntropy (matchState zc)) 4) in
  on_ms (fun ms => ms <| hashSalt := Z.lxor a b |>).

(** ** The match finder *)

Definition for_CCtx (forWho : ZSTD_resetTarget_e) : bool := match forWho with ZSTD_resetTarget_CCtx => true | _ => false end.

(** The table of tags of the row-based match finder. *)
Definition reserve_tags (cPar : ZSTD_compressionParameters) (forWho : ZSTD_resetTarget_e) (hSize : Z) : call unit :=
  let tagTableSize := hSize in
  do match forWho with
     | ZSTD_resetTarget_CCtx =>
         let! t := reserve_init_once tagTableSize in
         do on_ms (fun ms => ms <| tagTable := t |>);
         ZSTD_advanceHashSalt
     | ZSTD_resetTarget_CDict =>
         let! t := on_ws (fun w => ZSTD_cwksp_reserve_aligned64 D w tagTableSize) in
         do on_ms (fun ms => ms <| tagTable := t |>);
         do memset0 t tagTableSize;
         on_ms (fun ms => ms <| hashSalt := 0 |>)
     end;
  let rowLog := BOUNDED 4 (cp_searchLog cPar) 6 in
  do cassert (rowLog <=? cp_hashLog cPar);
  on_ms (fun ms => ms <| rowHashLog := cp_hashLog cPar - rowLog |>).

(** One reservation of the optimal parser, stored in the field [f] sets. *)
Definition reserve_opt (bytes : Z) (f : Z -> optState_t -> optState_t) : call unit :=
  let! t := on_ws (fun w => ZSTD_cwksp_reserve_aligned64 D w bytes) in
  on_ms (fun ms => ms <| opt ::= f t |>).

Definition reserve_opt_space : call unit :=
  do reserve_opt (Z.shiftl 1 Litbits * sizeof_U32) (fun t o => o <| opt_litFreq := t |>);
  do reserve_opt ((MaxLL + 1) * sizeof_U32) (fun t o => o <| opt_litLengthFreq := t |>);
  do reserve_opt ((MaxML + 1) * sizeof_U32) (fun t o => o <| opt_matchLengthFreq := t |>);
  do reserve_opt ((MaxOff + 1) * sizeof_U32) (fun t o => o <| opt_offCodeFreq := t |>);
  do reserve_opt (ZSTD_OPT_SIZE * sizeof_match_t) (fun t o => o <| opt_matchTable := t |>);
  reserve_opt (ZSTD_OPT_SIZE * sizeof_optimal_t) (fun t o => o <| opt_priceTable := t |>).

Definition ZSTD_reset_matchState (cPar : ZSTD_compressionParameters) (row : Z) (crp : ZSTD_compResetPolicy_e) (forceResetIndex : ZSTD_indexResetPolicy_e) (forWho : ZSTD_resetTarget_e) : call Z :=
  let! zc := cget in
  let! chain := cpure (ZSTD_allocateChainTable (cp_strategy cPar) row (dedicatedDictSearch (matchState zc) && negb (for_CCtx forWho))) in
  let chainSize := if chain then one_shl (cp_chainLog cPar) else 0 in
  let hSize := one_shl (cp_hashLog cPar) in
  let log3 := if for_CCtx forWho && (cp_minMatch cPar =? 3) then Z.min ZSTD_HASHLOG3_MAX (cp_windowLog cPar) else 0 in
  let h3Size := if negb (log3 =? 0) then one_shl log3 else 0 in
  do cassert (negb (row =? ZSTD_ps_auto));
  do match forceResetIndex with
     | ZSTDirp_reset =>
         do on_ms (fun ms => ms <| ms_window := ZSTD_window_init |>);
         on_ws (fun w => no_result (ZSTD_cwksp_mark_tables_dirty D w))
     | ZSTDirp_continue => cret tt
     end;
  do on_ms (fun ms => ms <| hashLog3 := log3 |>);
  do on_ms (fun ms => ms <| lazySkipping := 0 |>);
  do ZSTD_invalidateMatchState;
  let! zc := cget in
  do cassert (negb (ZSTD_cwksp_reserve_failed (ws zc)));
  do on_ws (fun w => no_result (ZSTD_cwksp_clear_tables D w));
  let! t := on_ws (fun w => ZSTD_cwksp_reserve_table D w (size_t (hSize * sizeof_U32))) in
  do on_ms (fun ms => ms <| hashTable := t |>);
  let! t := on_ws (fun w => ZSTD_cwksp_reserve_table D w (size_t (chainSize * sizeof_U32))) in
  do on_ms (fun ms => ms <| chainTable := t |>);
  let! t := on_ws (fun w => ZSTD_cwksp_reserve_table D w (size_t (h3Size * sizeof_U32))) in
  do on_ms (fun ms => ms <| hashTable3 := t |>);
  let! zc := cget in
  do creject_if (ZSTD_cwksp_reserve_failed (ws zc)) ZSTD_error_memory_allocation;
  do match crp with ZSTDcrp_leaveDirty => cret tt | ZSTDcrp_makeClean => clean_tables end;
  let! rowUsed := cpure (ZSTD_rowMatchFinderUsed (cp_strategy cPar) row) in
  do if rowUsed then reserve_tags cPar forWho hSize else cret tt;
  do if for_CCtx forWho && (ZSTD_btopt <=? cp_strategy cPar) then reserve_opt_space else cret tt;
  do on_ms (fun ms => ms <| ms_cParams := cPar |>);
  let! zc := cget in
  do creject_if (ZSTD_cwksp_reserve_failed (ws zc)) ZSTD_error_memory_allocation;
  cret 0.

(** ** The context *)

Definition ZSTD_referenceExternalSequences (seq nbSeq : Z) : call unit :=
  let! zc := cget in
  do cassert (bool_decide (stage zc = ZSTDcs_init));
  do cassert ((nbSeq =? 0) || negb (enableLdm (ldmParams (appliedParams zc)) =? ZSTD_ps_enable));
  cmodify (fun zc => zc <| externSeqStore := {| es_seq := seq; es_size := nbSeq; es_capacity := nbSeq; es_pos := 0; es_posInSequence := 0 |} |>).

(** A workspace of the size needed, with the objects that live as long as it. *)
Definition replace_workspace (neededSpace : Z) : call unit :=
  let! zc := cget in
  do creject_if (negb (staticSize zc =? 0)) ZSTD_error_memory_allocation;
  do cmodify (fun zc => zc <| ws := (ZSTD_cwksp_free (ws zc)).1 |> <| mem := fun _ => None |>);
  do on_ws (fun w => no_result (ZSTD_cwksp_create D malloc w neededSpace));
  let! zc := cget in
  do cassert (ZSTD_cwksp_check_available (ws zc) (2 * sizeof_compressedBlockState));
  let! t := on_ws (fun w => ZSTD_cwksp_reserve_object D w sizeof_compressedBlockState) in
  do cmodify (fun zc => zc <| prevCBlock := t |>);
  do creject_if (t =? NULL) ZSTD_error_memory_allocation;
  let! t := on_ws (fun w => ZSTD_cwksp_reserve_object D w sizeof_compressedBlockState) in
  do cmodify (fun zc => zc <| nextCBlock := t |>);
  do creject_if (t =? NULL) ZSTD_error_memory_allocation;
  let! t := on_ws (fun w => ZSTD_cwksp_reserve_object D w TMP_WORKSPACE_SIZE) in
  do cmodify (fun zc => zc <| tmpWorkspace := t |>);
  do creject_if (t =? NULL) ZSTD_error_memory_allocation;
  cmodify (fun zc => zc <| tmpWkspSize := TMP_WORKSPACE_SIZE |>).

(** The tables of long distance matching. *)
Definition reserve_ldm_tables (params : ZSTD_CCtx_params) (maxNbLdmSeq : Z) : call unit :=
  let ldmHSize := one_shl (ldm_hashLog (ldmParams params)) in
  let! t := on_ws (fun w => ZSTD_cwksp_reserve_aligned64 D w (size_t (ldmHSize * sizeof_ldmEntry_t))) in
  do on_ldm (fun l => l <| ldm_hashTable := t |>);
  do memset0 t (size_t (ldmHSize * sizeof_ldmEntry_t));
  let! t := on_ws (fun w => ZSTD_cwksp_reserve_aligned64 D w (size_t (maxNbLdmSeq * sizeof_rawSeq))) in
  do cmodify (fun zc => zc <| ldmSequences := t |>);
  do cmodify (fun zc => zc <| maxNbLdmSequences := maxNbLdmSeq |>);
  do on_ldm (fun l => l <| ldm_window := ZSTD_window_init |>);
  on_ldm (fun l => l <| ldm_loadedDictEnd := 0 |>).

Definition reserve_ldm_buckets (params : ZSTD_CCtx_params) : call unit :=
  let numBuckets := one_shl (ldm_hashLog (ldmParams params) - bucketSizeLog (ldmParams params)) in
  let! t := on_ws (fun w => ZSTD_cwksp_reserve_buffer D w numBuckets) in
  do on_ldm (fun l => l <| bucketOffsets := t |>);
  memset0 t numBuckets.

(** The fields that a new frame sets. *)
Definition begin_frame (params : ZSTD_CCtx_params) (pledgedSrcSize blockSize : Z) : call unit :=
  do on_ms (fun ms => ms <| ms_cParams := cParams params |> <| ms_prefetchCDictTables := prefetchCDictTables params =? ZSTD_ps_enable |>);
  do cmodify (fun zc => zc <| pledgedSrcSizePlusOne := u64 (pledgedSrcSize + 1) |> <| consumedSrcSize := 0 |> <| producedCSize := 0 |>);
  do if pledgedSrcSize =? ZSTD_CONTENTSIZE_UNKNOWN
     then cmodify (fun zc => zc <| appliedParams := appliedParams zc <| fParams := fParams (appliedParams zc) <| contentSizeFlag := 0 |> |> |>) else cret tt;
  do cmodify (fun zc => zc <| blockSizeMax := blockSize |> <| xxhState := XXH64_reset 0 |> <| stage := ZSTDcs_init |> <| dictID := 0 |> <| dictContentSize := 0 |>);
  ZSTD_reset_compressedBlockState.

(** The stores and buffers, in the order of the phases. *)
Definition reserve_stores (params : ZSTD_CCtx_params) (blockSize maxNbSeq maxNbLdmSeq buffInSize buffOutSize : Z) (zbuff : ZSTD_buffered_policy_e) : call unit :=
  let! t := on_ws (fun w => ZSTD_cwksp_reserve_aligned64 D w (maxNbSeq * sizeof_SeqDef)) in
  do on_seqStore (fun s => s <| sequencesStart := t |>);
  do if enableLdm (ldmParams params) =? ZSTD_ps_enable then reserve_ldm_tables params maxNbLdmSeq else cret tt;
  do if ZSTD_hasExtSeqProd params then
       let maxNbExternalSeq := ZSTD_sequenceBound blockSize in
       do cmodify (fun zc => zc <| extSeqBufCapacity := maxNbExternalSeq |>);
       let! t := on_ws (fun w => ZSTD_cwksp_reserve_aligned64 D w (size_t (maxNbExternalSeq * sizeof_Sequence))) in
       cmodify (fun zc => zc <| extSeqBuf := t |>)
     else cret tt;
  let! t := on_ws (fun w => ZSTD_cwksp_reserve_buffer D w (blockSize + WILDCOPY_OVERLENGTH)) in
  do on_seqStore (fun s => s <| litStart := t |> <| maxNbLit := blockSize |>);
  do cmodify (fun zc => zc <| bufferedPolicy := zbuff |> <| inBuffSize := buffInSize |>);
  let! t := on_ws (fun w => ZSTD_cwksp_reserve_buffer D w buffInSize) in
  do cmodify (fun zc => zc <| inBuff := t |> <| outBuffSize := buffOutSize |>);
  let! t := on_ws (fun w => ZSTD_cwksp_reserve_buffer D w buffOutSize) in
  do cmodify (fun zc => zc <| outBuff := t |>);
  do if enableLdm (ldmParams params) =? ZSTD_ps_enable then reserve_ldm_buckets params else cret tt;
  do ZSTD_referenceExternalSequences NULL 0;
  do on_seqStore (fun s => s <| CCtxReset.maxNbSeq := maxNbSeq |>);
  let! t := on_ws (fun w => ZSTD_cwksp_reserve_buffer D w maxNbSeq) in
  do on_seqStore (fun s => s <| llCode := t |>);
  let! t := on_ws (fun w => ZSTD_cwksp_reserve_buffer D w maxNbSeq) in
  do on_seqStore (fun s => s <| mlCode := t |>);
  let! t := on_ws (fun w => ZSTD_cwksp_reserve_buffer D w maxNbSeq) in
  on_seqStore (fun s => s <| ofCode := t |>).

(** A size that reads as an error code is returned as that; it is reported as [ZSTD_error_GENERIC] here. *)
Definition ZSTD_resetCCtx_internal (params : ZSTD_CCtx_params) (pledgedSrcSize loadedDictSize : Z) (crp : ZSTD_compResetPolicy_e) (zbuff : ZSTD_buffered_policy_e) : call Z :=
  do cassert (match ZSTD_checkCParams (cParams params) with Ok _ => true | _ => false end);
  do cmodify (fun zc => zc <| isFirstBlock := true |>);
  do cmodify (fun zc => zc <| appliedParams := params |>);
  do cassert (negb (useRowMatchFinder params =? ZSTD_ps_auto));
  do cassert (negb (postBlockSplitter params =? ZSTD_ps_auto));
  do cassert (negb (enableLdm (ldmParams params) =? ZSTD_ps_auto));
  do cassert (negb (maxBlockSize params =? 0));
  do if enableLdm (ldmParams params) =? ZSTD_ps_enable then
       let! ldm := cpure (ZSTD_ldm_adjustParameters (ldmParams params) (cParams params)) in
       do cmodify (fun zc => zc <| appliedParams := appliedParams zc <| ldmParams := ldm |> |>);
       do cassert (bucketSizeLog ldm <=? ldm_hashLog ldm);
       cassert (hashRateLog ldm <? 32)
     else cret tt;
  let! zc := cget in
  let params := appliedParams zc in
  let windowSize := Z.max 1 (size_t (Z.min (Z.shiftl 1 (cp_windowLog (cParams params))) pledgedSrcSize)) in
  let blockSize := Z.min (maxBlockSize params) windowSize in
  let maxNbSeq := ZSTD_maxNbSeq blockSize (cp_minMatch (cParams params)) (ZSTD_hasExtSeqProd params) in
  let buffered := bool_decide (zbuff = ZSTDb_buffered) in
  let! buffOutSize := cpure (if buffered && (outBufferMode params =? ZSTD_bm_buffered) then let* b := ZSTD_compressBound blockSize in Ok (size_t (b + 1)) else Ok 0) in
  let buffInSize := if buffered && (inBufferMode params =? ZSTD_bm_buffered) then size_t (windowSize + blockSize) else 0 in
  let! maxNbLdmSeq := cpure (ZSTD_ldm_getMaxNbSeq (ldmParams params) blockSize) in
  let indexTooClose := ZSTD_indexTooCloseToMax (ms_window (matchState zc)) in
  let dictTooBig := ZSTD_dictTooBig loadedDictSize in
  let needsIndexReset := if indexTooClose || dictTooBig || negb (initialized zc) then ZSTDirp_reset else ZSTDirp_continue in
  let! neededSpace := cpure (ZSTD_estimateCCtxSize_usingCCtxParams_internal D sizeof_CCtx sizeof_compressedBlockState (cParams params) (ldmParams params) (negb (staticSize zc =? 0)) (useRowMatchFinder params)
    buffInSize buffOutSize pledgedSrcSize (ZSTD_hasExtSeqProd params) (maxBlockSize params)) in
  do creject_if (ERR_isError neededSpace) ZSTD_error_GENERIC;
  do if staticSize zc =? 0 then cmodify (fun zc => zc <| ws ::= fun w => ZSTD_cwksp_bump_oversized_duration w 0 |>) else cret tt;
  let! zc := cget in
  let workspaceTooSmall := ZSTD_cwksp_sizeof (ws zc) <? neededSpace in
  let workspaceWasteful := ZSTD_cwksp_check_wasteful (ws zc) neededSpace in
  let resizeWorkspace := workspaceTooSmall || workspaceWasteful in
  let! needsIndexReset := if resizeWorkspace then (do replace_workspace neededSpace; cret ZSTDirp_reset) else cret needsIndexReset in
  do on_ws (fun w => no_result (ZSTD_cwksp_clear D w));
  do begin_frame params pledgedSrcSize blockSize;
  do ZSTD_reset_matchState (cParams params) (useRowMatchFinder params) crp needsIndexReset ZSTD_resetTarget_CCtx;
  do reserve_stores params blockSize maxNbSeq maxNbLdmSeq buffInSize buffOutSize zbuff;
  let! zc := cget in
  do cassert (ZSTD_cwksp_estimated_space_within_bounds (ws zc) neededSpace);
  do cmodify (fun zc => zc <| initialized := true |>);
  cret 0.
End Reset.
