(* ===== verification/CCtxPlan.v ===== *)
(** * What a context reserves

    The list of reservations that [ZSTD_resetCCtx_internal] makes, and the proof that
    [ZSTD_estimateCCtxSize_usingCCtxParams_internal] adds up their cost. *)
From S2P Require Import Prelude Mem Errors Bits Frame FrameWalk SeqTable SeqStore ExecSeq CParams RecordUpdate Calls CCtxParams Cwksp CwkspArena CwkspClient CCtxSize.

Definition when {A} (b : bool) (l : list A) : list A := if b then l else [].

Section Plan.
Context `{P : Platform} (cPar : ZSTD_compressionParameters) (ldm : ldmParams_t) (row ext : bool) (blockSize inSize outSize : Z).

Definition ldm_on : bool := enableLdm ldm =? ZSTD_ps_enable.
Definition opt_on : bool := ZSTD_btopt <=? cp_strategy cPar.
Definition has_chain : bool := negb (cp_strategy cPar =? ZSTD_fast) && negb row.
Definition nbSeq : Z := ZSTD_maxNbSeq blockSize (cp_minMatch cPar) ext.
Definition nbLdm : Z := if ldm_on then blockSize / minMatchLength ldm else 0.

Definition hash_bytes : Z := 2 ^ cp_hashLog cPar * 4.
Definition chain_bytes : Z := if has_chain then 2 ^ cp_chainLog cPar * 4 else 0.
Definition hash3_bytes : Z := if cp_minMatch cPar =? 3 then 2 ^ Z.min ZSTD_HASHLOG3_MAX (cp_windowLog cPar) * 4 else 0.
Definition ldm_bytes : Z := 2 ^ ldm_hashLog ldm * 8.
Definition ldm_buckets : Z := 2 ^ (ldm_hashLog ldm - bucketSizeLog ldm).
Definition ext_bytes : Z := (blockSize / 3 + 1 + (blockSize / 1024 + 1)) * 16.

Definition opt_plan : list command := map ReserveAligned64 [256 * 4; 36 * 4; 53 * 4; 32 * 4; 4099 * 8; 4099 * 28].

Definition rest_plan : list command :=
  ReserveAligned64 (nbSeq * 8) :: when ldm_on [ReserveAligned64 ldm_bytes; ReserveAligned64 (nbLdm * 12)] ++ when ext [ReserveAligned64 ext_bytes] ++
  ReserveBuffer (blockSize + 32) :: ReserveBuffer inSize :: ReserveBuffer outSize :: when ldm_on [ReserveBuffer ldm_buckets] ++
  [ReserveBuffer nbSeq; ReserveBuffer nbSeq; ReserveBuffer nbSeq].

Definition plan : list command :=
  ReserveTable hash_bytes :: ReserveTable chain_bytes :: ReserveTable hash3_bytes :: when row [ReserveInitOnce (2 ^ cp_hashLog cPar)] ++ when opt_on opt_plan ++ rest_plan.

(** Parameters within their bounds, and sizes that a [size_t] can hold, together with [O] bytes of objects. *)
Record plan_ok (O : Z) : Prop := {
  pl_cParams : cparams_ok cPar;
  pl_block : 1 <= blockSize <= 2 ^ 17;
  pl_in : 0 <= inSize;
  pl_out : 0 <= outSize;
  pl_ldm : ldm_on = true -> 6 <= ldm_hashLog ldm <= 30 /\ 0 <= bucketSizeLog ldm <= ldm_hashLog ldm /\ 1 <= minMatchLength ldm;
  pl_objects : 0 <= O;
  pl_total : O + costs plan + 248 <= word_size
}.

Lemma costs_app l l' : costs (l ++ l') = costs l + costs l'.
Proof. induction l as [|c l IH]; [done|]. cbn [app costs foldr]. fold (costs l) (costs (l ++ l')). lia. Qed.

Lemma costs_when b l : costs (when b l) = if b then costs l else 0.
Proof. by destruct b. Qed.

Lemma up_le n : n <= up 64 n /\ (0 <= n -> 0 <= up 64 n).
Proof. destruct (up_spec 64 n) as [? _]; lia. Qed.

Lemma nbSeq_range : 1 <= blockSize -> 0 <= nbSeq <= blockSize.
Proof. intros H. unfold nbSeq, ZSTD_maxNbSeq. destruct (_ || _); split; try (apply Z.div_pos; lia); apply Z.div_le_upper_bound; lia. Qed.

Lemma nbLdm_range : 1 <= blockSize -> (ldm_on = true -> 1 <= minMatchLength ldm) -> 0 <= nbLdm <= blockSize.
Proof. intros H Hm. unfold nbLdm. destruct ldm_on; [|lia]. specialize (Hm eq_refl). split; [apply Z.div_pos; lia|apply Z.div_le_upper_bound; nia]. Qed.

Definition opt_cost : Z := costs opt_plan.

Lemma opt_cost_value : opt_cost = 149248.
Proof. reflexivity. Qed.

(** The cost of the whole, written as the code adds it. *)
Lemma costs_plan : costs plan = hash_bytes + chain_bytes + hash3_bytes + (if row then up 64 (2 ^ cp_hashLog cPar) else 0) + (if opt_on then opt_cost else 0) + up 64 (nbSeq * 8) +
  (if ldm_on then up 64 ldm_bytes + up 64 (nbLdm * 12) else 0) + (if ext then up 64 ext_bytes else 0) + (blockSize + 32) + inSize + outSize + (if ldm_on then ldm_buckets else 0) + 3 * nbSeq.
Proof.
  assert (forall c l, costs (c :: l) = cost c + costs l) as E by done. unfold plan, rest_plan, opt_cost. generalize opt_plan as o. intros o.
  destruct row, opt_on, ldm_on, ext; cbn [when app]; repeat (rewrite E || rewrite costs_app); cbn [cost]; change (costs []) with 0; lia.
Qed.

Lemma pow2_range x lo hi : 0 <= lo <= x -> x <= hi -> 2 ^ lo <= 2 ^ x <= 2 ^ hi.
Proof. intros H1 H2. split; apply Z.pow_le_mono_r; lia. Qed.

Lemma table_bytes_64 x : 6 <= x -> (2 ^ x * 4) mod 64 = 0.
Proof. intros Hx. replace x with (6 + (x - 6)) by lia. rewrite Z.pow_add_r by lia. replace (2 ^ 6 * 2 ^ (x - 6) * 4) with (4 * 2 ^ (x - 6) * 64) by lia. apply Z.mod_mul. lia. Qed.

Section Facts.
Context (O : Z) (Hok : plan_ok O).

(** Every part is non-negative, and no larger than the whole. *)
Lemma parts : 0 <= hash_bytes /\ 0 <= chain_bytes /\ 0 <= hash3_bytes /\ 0 <= 2 ^ cp_hashLog cPar <= 2 ^ 30 /\ 0 <= nbSeq <= blockSize /\ 0 <= nbLdm <= blockSize /\
  0 <= ldm_bytes /\ 0 <= ext_bytes < 2 ^ 24 /\ (ldm_on = true -> 1 <= ldm_buckets <= 2 ^ 30 /\ 512 <= ldm_bytes).
Proof.
  destruct Hok as [[Hw Hc Hh _ _ _ _] Hb Hi Ho Hl HO HT]. pose proof log_limits as (L1 & L2 & _). pose proof (nbSeq_range ltac:(lia)). assert (ldm_on = true -> 1 <= minMatchLength ldm) as Hm by (intros E; by destruct (Hl E) as (_ & _ & ?)).
  pose proof (nbLdm_range ltac:(lia) Hm). pose proof (pow2_range (cp_hashLog cPar) 6 30 ltac:(lia) ltac:(lia)).
  unfold hash_bytes, chain_bytes, hash3_bytes, ldm_bytes, ext_bytes. assert (0 <= 2 ^ ldm_hashLog ldm) by (apply Z.pow_nonneg; lia). assert (0 <= 2 ^ cp_chainLog cPar) by (apply Z.pow_nonneg; lia).
  assert (0 <= 2 ^ Z.min ZSTD_HASHLOG3_MAX (cp_windowLog cPar)) by (apply Z.pow_nonneg; lia).
  pose proof (Z.div_pos blockSize 3 ltac:(lia) ltac:(lia)). pose proof (Z.div_pos blockSize 1024 ltac:(lia) ltac:(lia)). pose proof (Z.div_le_upper_bound blockSize 3 blockSize ltac:(lia) ltac:(lia)). pose proof (Z.div_le_upper_bound blockSize 1024 blockSize ltac:(lia) ltac:(lia)).
  split_and!; try (by destruct has_chain || by destruct (_ =? _)); try lia.
  - destruct has_chain; lia.
  - destruct (_ =? 3); lia.
  - intros E. destruct (Hl E) as (? & ? & _). unfold ldm_buckets. pose proof (pow2_range (ldm_hashLog ldm - bucketSizeLog ldm) 0 30 ltac:(lia) ltac:(lia)). pose proof (pow2_range (ldm_hashLog ldm) 6 30 ltac:(lia) ltac:(lia)). lia.
Qed.

Lemma plan_bound : O + hash_bytes + chain_bytes + hash3_bytes + (if ldm_on then up 64 ldm_bytes + up 64 (nbLdm * 12) + ldm_buckets else 0) + inSize + outSize + 280 <= word_size.
Proof.
  destruct parts as (P1 & P2 & P3 & P4 & P5 & P6 & P7 & P8 & P9). pose proof (pl_total _ Hok) as HT. rewrite costs_plan in HT. rewrite opt_cost_value in HT. destruct Hok.
  pose proof (up_le (2 ^ cp_hashLog cPar)). pose proof (up_le (nbSeq * 8)). pose proof (up_le ext_bytes). destruct row, opt_on, ldm_on, ext; lia.
Qed.

Lemma plan_ordered : ordered 0 plan /\ ordered 1 plan.
Proof.
  destruct parts as (P1 & P2 & P3 & P4 & P5 & P6 & P7 & P8 & P9). pose proof plan_bound as HT. pose proof word_size_big. destruct Hok as [[Hw Hc Hh _ _ _ _] Hb Hi Ho Hl HO _].
  pose proof (up_le ldm_bytes). pose proof (up_le (nbLdm * 12)).
  assert (hash_bytes mod 64 = 0 /\ chain_bytes mod 64 = 0 /\ hash3_bytes mod 64 = 0) as (M1 & M2 & M3).
  { unfold hash_bytes, chain_bytes, hash3_bytes. split; [apply table_bytes_64; lia|]. split; [destruct has_chain|destruct (_ =? _)]; try done; apply table_bytes_64; [|unfold ZSTD_HASHLOG3_MAX]; lia. }
  split; unfold plan, rest_plan, opt_plan; destruct row, opt_on, ldm_on, ext; cbn [when app map ordered]; try (specialize (P9 eq_refl)); split_and!; try done; lia.
Qed.
End Facts.
End Plan.

(** ** The estimate *)

Section Estimate.
Context `{P : Platform} (D sizeof_CCtx sizeof_compressedBlockState : Z).
Implicit Types (cPar : ZSTD_compressionParameters) (ldm : ldmParams_t).

(** The cost of the objects that live as long as the workspace. *)
Definition objects_cost (isStatic : bool) : Z := (if isStatic then sizeof_CCtx else 0) + 2 * sizeof_compressedBlockState + TMP_WORKSPACE_SIZE.

Definition row_on cPar (mode : Z) : bool := ZSTD_rowMatchFinderSupported (cp_strategy cPar) && (mode =? ZSTD_ps_enable).

Lemma rowUsed_value cPar mode : mode <> ZSTD_ps_auto -> ZSTD_rowMatchFinderUsed (cp_strategy cPar) mode = Ok (row_on cPar mode).
Proof. intros H. unfold ZSTD_rowMatchFinderUsed. by rewrite (proj2 (Z.eqb_neq _ _) H). Qed.

Lemma chain_value cPar mode : mode <> ZSTD_ps_auto -> ZSTD_allocateChainTable (cp_strategy cPar) mode false = Ok (has_chain cPar (row_on cPar mode)).
Proof.
  intros H. unfold ZSTD_allocateChainTable, has_chain. rewrite (proj2 (Z.eqb_neq _ _) H), rowUsed_value by done. cbn [negb oassert obind]. by destruct (cp_strategy cPar =? ZSTD_fast).
Qed.

Lemma alloc_size_id n : ZSTD_cwksp_alloc_size n = n.
Proof. unfold ZSTD_cwksp_alloc_size. by destruct (Z.eqb_spec n 0). Qed.

Lemma aligned64_alloc n : 0 <= n -> n + 64 <= word_size -> ZSTD_cwksp_aligned64_alloc_size D n = Ok (up 64 n).
Proof. intros H1 H2. unfold ZSTD_cwksp_aligned64_alloc_size, ZSTD_cwksp_aligned_alloc_size. rewrite cwksp_align64 by done. cbn [obind]. by rewrite alloc_size_id. Qed.

Lemma one_shl_value x : 0 <= x < 32 -> one_shl x = 2 ^ x.
Proof.
  intros Hx. unfold one_shl. rewrite Z.shiftl_mul_pow2, Z.mul_1_l by lia. apply size_t_in. pose proof word_size_big. pose proof (pow2_pos x). assert (2 ^ x < 2 ^ 32) by (apply Z.pow_lt_mono_r; lia). lia.
Qed.

Lemma hash3_size cPar : 10 <= cp_windowLog cPar -> let log3 := if cp_minMatch cPar =? 3 then Z.min ZSTD_HASHLOG3_MAX (cp_windowLog cPar) else 0 in
  (if negb (log3 =? 0) then one_shl log3 else 0) * 4 = hash3_bytes cPar.
Proof.
  intros Hw. cbv zeta. unfold hash3_bytes. destruct (cp_minMatch cPar =? 3); [|done]. unfold ZSTD_HASHLOG3_MAX. rewrite (proj2 (Z.eqb_neq _ _)) by lia. cbn [negb]. by rewrite one_shl_value by lia.
Qed.

Lemma sequenceBound_value n : 0 <= n <= 2 ^ 17 -> ZSTD_sequenceBound n = n / 3 + 1 + (n / 1024 + 1).
Proof.
  intros Hn. unfold ZSTD_sequenceBound. change ZSTD_MINMATCH_MIN with 3. change ZSTD_BLOCKSIZE_MAX_MIN with 1024. apply size_t_in. pose proof word_size_big.
  pose proof (Z.div_pos n 3 ltac:(lia) ltac:(lia)). pose proof (Z.div_pos n 1024 ltac:(lia) ltac:(lia)). pose proof (Z.div_le_upper_bound n 3 n ltac:(lia) ltac:(lia)). pose proof (Z.div_le_upper_bound n 1024 n ltac:(lia) ltac:(lia)). lia.
Qed.

Section Value.
Context (cPar : ZSTD_compressionParameters) (ldm : ldmParams_t) (mode : Z) (ext : bool) (blockSize inSize outSize : Z) (isStatic : bool).
Local Notation row := (row_on cPar mode).
Local Notation O := (objects_cost isStatic).
Local Notation costs_all := (costs (plan cPar ldm row ext blockSize inSize outSize)).
Context (Hmode : mode <> ZSTD_ps_auto) (Hok : plan_ok cPar ldm row ext blockSize inSize outSize O).

Lemma matchState_value : ZSTD_sizeof_matchState D cPar mode false true =
  Ok (hash_bytes cPar + chain_bytes cPar row + hash3_bytes cPar + (if row then up 64 (2 ^ cp_hashLog cPar) else 0) + (if opt_on cPar then opt_cost else 0) + 128).
Proof.
  destruct (parts _ _ _ _ _ _ _ _ Hok) as (P1 & P2 & P3 & P4 & P5 & P6 & P7 & P8 & P9). pose proof (plan_bound _ _ _ _ _ _ _ _ Hok) as HT. pose proof word_size_big. destruct Hok as [[Hw Hc Hh _ _ _ _] Hb Hi Ho Hl HO _]. pose proof log_limits as (L1 & L2 & _).
  unfold ZSTD_sizeof_matchState. cbn [andb negb]. rewrite chain_value by done. cbn [obind].
  change ((MaxML + 1) * sizeof_U32) with 212. change ((MaxLL + 1) * sizeof_U32) with 144. change ((MaxOff + 1) * sizeof_U32) with 128. change (Z.shiftl 1 Litbits * sizeof_U32) with 1024.
  change (ZSTD_OPT_SIZE * sizeof_match_t) with 32792. change (ZSTD_OPT_SIZE * sizeof_optimal_t) with 114772. change sizeof_U32 with 4.
  rewrite (aligned64_alloc 212), (aligned64_alloc 144), (aligned64_alloc 128), (aligned64_alloc 1024), (aligned64_alloc 32792), (aligned64_alloc 114772) by lia. cbn [obind].
  rewrite rowUsed_value by done. cbn [obind]. rewrite (one_shl_value (cp_hashLog cPar)), (one_shl_value (cp_chainLog cPar)) by lia. rewrite (proj2 (Z.eqb_neq _ _) Hmode). cbn [negb oassert].
  rewrite hash3_size by lia. fold (opt_on cPar) (hash_bytes cPar). replace ((if has_chain cPar row then 2 ^ cp_chainLog cPar else 0) * 4) with (chain_bytes cPar row) by (unfold chain_bytes; by destruct (has_chain cPar row)).
  rewrite (aligned64_alloc (2 ^ cp_hashLog cPar)) by lia. change (up 64 212 + up 64 144 + up 64 128 + up 64 1024 + up 64 32792 + up 64 114772) with opt_cost. rewrite opt_cost_value. change ZSTD_cwksp_slack_space_required with 128.
  pose proof (up_spec 64 (2 ^ cp_hashLog cPar) ltac:(lia)) as [Hu _]. pose proof (pl_total _ _ _ _ _ _ _ _ Hok) as HT'. rewrite costs_plan, opt_cost_value in HT'.
  rewrite (size_t_in (chain_bytes cPar row + hash_bytes cPar + hash3_bytes cPar)) by (destruct (ldm_on ldm); pose proof (up_le (ldm_bytes ldm)); pose proof (up_le (nbLdm ldm blockSize * 12)); try specialize (P9 eq_refl); lia).
  pose proof (up_le (nbSeq cPar ext blockSize * 8)). pose proof (up_le (ext_bytes blockSize)). pose proof (up_le (ldm_bytes ldm)). pose proof (up_le (nbLdm ldm blockSize * 12)).
  destruct row, (opt_on cPar), (ldm_on ldm), ext; cbn [obind]; try specialize (P9 eq_refl); rewrite size_t_in by lia; f_equal; lia.
Qed.

Lemma ldm_values : ZSTD_ldm_getTableSize ldm = (if ldm_on ldm then ldm_buckets ldm + ldm_bytes ldm else 0) /\ ZSTD_ldm_getMaxNbSeq ldm blockSize = Ok (nbLdm ldm blockSize) /\
  (ldm_on ldm = true -> one_shl (ldm_hashLog ldm) = 2 ^ ldm_hashLog ldm /\ one_shl (ldm_hashLog ldm - bucketSizeLog ldm) = ldm_buckets ldm /\ size_t (one_shl (ldm_hashLog ldm) * sizeof_ldmEntry_t) = ldm_bytes ldm).
Proof.
  destruct (parts _ _ _ _ _ _ _ _ Hok) as (P1 & P2 & P3 & P4 & P5 & P6 & P7 & P8 & P9). pose proof (plan_bound _ _ _ _ _ _ _ _ Hok) as HT. pose proof (pl_ldm _ _ _ _ _ _ _ _ Hok) as Hl.
  destruct Hok as [_ Hb Hi Ho _ HO _]. unfold ZSTD_ldm_getTableSize, ZSTD_ldm_getMaxNbSeq, nbLdm in *. fold (ldm_on ldm). destruct (ldm_on ldm); [|done]. destruct (Hl eq_refl) as (H1 & H2 & H3). specialize (P9 eq_refl).
  pose proof (up_le (ldm_bytes ldm)). pose proof (up_le (blockSize / minMatchLength ldm * 12)). rewrite !alloc_size_id.
  assert (one_shl (ldm_hashLog ldm) = 2 ^ ldm_hashLog ldm) as E1 by (apply one_shl_value; lia). assert (one_shl (ldm_hashLog ldm - bucketSizeLog ldm) = ldm_buckets ldm) as E2 by (apply one_shl_value; lia).
  assert (size_t (one_shl (ldm_hashLog ldm) * sizeof_ldmEntry_t) = ldm_bytes ldm) as E3 by (rewrite E1; apply (size_t_in (ldm_bytes ldm)); lia).
  rewrite Z.min_l, E2, E3, (proj2 (Z.eqb_neq (minMatchLength ldm) 0)) by lia. split; [apply size_t_in; lia|]. by split.
Qed.

Lemma estimate_value pledged maxBlock : 0 <= pledged -> 0 < maxBlock -> blockSize = Z.min maxBlock (Z.max 1 (Z.min (2 ^ cp_windowLog cPar) pledged)) -> 0 <= sizeof_CCtx -> 0 <= sizeof_compressedBlockState ->
  ZSTD_estimateCCtxSize_usingCCtxParams_internal D sizeof_CCtx sizeof_compressedBlockState cPar ldm isStatic mode inSize outSize pledged ext maxBlock = Ok (O + costs_all + 128).
Proof.
  intros Hp Hm Hblock HC HB. pose proof matchState_value as HM. destruct ldm_values as (L1 & L2 & _).
  destruct (parts _ _ _ _ _ _ _ _ Hok) as (P1 & P2 & P3 & P4 & P5 & P6 & P7 & P8 & P9). pose proof (pl_total _ _ _ _ _ _ _ _ Hok) as HT. pose proof log_limits as (W1 & _). pose proof (ok_windowLog _ (pl_cParams _ _ _ _ _ _ _ _ Hok)) as Hw.
  destruct Hok as [_ Hb Hi Ho _ HO _]. pose proof (pow2_range (cp_windowLog cPar) 10 31 ltac:(lia) ltac:(lia)) as Hw2. pose proof word_size_big.
  unfold ZSTD_estimateCCtxSize_usingCCtxParams_internal, ZSTD_resolveMaxBlockSize, BOUNDED. rewrite (proj2 (Z.eqb_neq maxBlock 0)) by lia. rewrite Z.shiftl_mul_pow2, Z.mul_1_l by lia.
  rewrite (size_t_in (Z.max 1 (Z.min (2 ^ cp_windowLog cPar) pledged))) by lia. rewrite <- Hblock. fold (nbSeq cPar ext blockSize).
  rewrite L1, L2, HM, !alloc_size_id. cbn [obind]. change sizeof_SeqDef with 8. change sizeof_rawSeq with 12. change sizeof_Sequence with 16. change WILDCOPY_OVERLENGTH with 32.
  rewrite sequenceBound_value by lia. fold (ext_bytes blockSize). fold (ldm_on ldm). rewrite (aligned64_alloc (nbSeq cPar ext blockSize * 8)), (aligned64_alloc (nbLdm ldm blockSize * 12)), (aligned64_alloc (ext_bytes blockSize)) by lia. cbn [obind].
  rewrite costs_plan in HT |- *.
  assert (0 <= (if row then up 64 (2 ^ cp_hashLog cPar) else 0)) by (pose proof (up_le (2 ^ cp_hashLog cPar)); destruct row; lia). assert (0 <= (if opt_on cPar then opt_cost else 0)) by (rewrite opt_cost_value; destruct (opt_on cPar); lia).
  assert (ldm_on ldm = true -> up 64 (ldm_bytes ldm) = ldm_bytes ldm) as Eu.
  { intros E. apply up_multiple; [lia|]. unfold ldm_bytes. destruct (pl_ldm _ _ _ _ _ _ _ _ Hok E) as (? & _). replace (2 ^ ldm_hashLog ldm * 8) with (2 * (2 ^ ldm_hashLog ldm * 4)) by lia. rewrite Z.mul_mod, table_bytes_64 by lia. done. }
  pose proof (up_le (nbSeq cPar ext blockSize * 8)). pose proof (up_le (ext_bytes blockSize)). pose proof (up_le (nbLdm ldm blockSize * 12)). unfold objects_cost in *.
  destruct isStatic, (ldm_on ldm), ext; cbn [obind]; try rewrite (Eu eq_refl) in *; try specialize (P9 eq_refl); rewrite size_t_in; try (f_equal; lia); lia.
Qed.
End Value.
End Estimate.
