(* ===== verification/CCtxLayout.v ===== *)
(** * The layout of a context in its workspace

    A reset ([CCtxReset]) makes a list of reservations whose sizes [CCtxSize] adds up.  Its proof follows that list: at each
    point the allocations made so far are those the fields of the context point to, and the workspace has
    room for the rest. *)
From S2P Require Import Prelude Mem Errors Bits Frame SeqTable SeqStore ExecSeq Xxh64 CParams RecordUpdate Calls CCtxParams Cwksp CwkspArena CwkspClient CCtxSize CCtxReset.

(** A field that holds the address of a block. *)
Definition slot : Type := (ZSTD_CCtx -> Z) * command.

(** ** One reservation *)

Section Steps.
Context `{P : Platform} (D : Z).
Implicit Types (zc : ZSTD_CCtx) (w : ZSTD_cwksp).

(** Where tables start, or will, when none is reserved. *)
Definition base w : Z := if bool_decide (phase w = ZSTD_cwksp_alloc_objects) then up 64 (objectEnd w) else objectEnd w.

Lemma base_opened w ph : 1 <= rank ph -> base (set_phase ph (opened w)) = base w.
Proof.
  intros Hr. unfold base, opened, table_top. assert (ph <> ZSTD_cwksp_alloc_objects) by (intros ->; by cbn in Hr). cbn [phase set_phase]. rewrite bool_decide_eq_false_2 by done. by case_bool_decide.
Qed.

Definition same_frame w w' : Prop := workspace w' = workspace w /\ workspaceEnd w' = workspaceEnd w /\ base w' = base w /\ workspaceOversizedDuration w' = workspaceOversizedDuration w.

Lemma opened_frame w ph : 1 <= rank ph -> same_frame w (set_phase ph (opened w)).
Proof. intros Hr. destruct (opened_fields w ph) as (_ & _ & _ & W4 & W5 & _). split; [done|]. split; [done|]. split; [by apply base_opened|]. unfold opened. by destruct (bool_decide _). Qed.

(** The tables reserved need no cleaning. *)
Definition tables_valid w : Prop := tableEnd w <= tableValidEnd w.

Lemma reserve_internal_frame A n ph p w : arena_ok D A -> 1 <= rank ph -> rank (phase (ar_ws A)) <= rank ph -> 0 <= n -> (1 <= D -> fits (ar_ws A) n) ->
  ZSTD_cwksp_reserve_internal D (ar_ws A) n ph = Ok (p, w) -> same_frame (ar_ws A) w /\ (tables_valid (ar_ws A) -> tables_valid w).
Proof.
  intros HA Hr Hle Hn Hf. pose proof (reserve_internal_spec D A n ph HA Hr Hle Hn Hf) as E. cbv zeta in E. rewrite E. pose proof (opened_frame (ar_ws A) ph Hr) as Ho.
  destruct (opened_fields (ar_ws A) ph) as (W1 & W2 & _). assert (tables_valid (ar_ws A) -> table_top (ar_ws A) <= tableValidEnd (opened (ar_ws A))) as Hop.
  { intros Hv. unfold opened. destruct (bool_decide _) eqn:Eb; wsimpl; [lia|]. unfold table_top. by rewrite Eb. }
  destruct (_ <? _); [by intros [= <- <-]|]. destruct (n =? 0); [|destruct (Z.ltb_spec (allocStart (ar_ws A) - n) (table_top (ar_ws A)))]; intros [= <- <-]; (split; [exact Ho|]); intros Hv; specialize (Hop Hv);
    unfold tables_valid, took; wsimpl; rewrite ?W1; rewrite ?W2; try done; lia.
Qed.

(** The reservations of a reset, as commands of the arena. *)
Definition op (c : command) : call Z :=
  match c with
  | ReserveTable n => on_ws (fun w => ZSTD_cwksp_reserve_table D w n)
  | ReserveInitOnce n => reserve_init_once D n
  | ReserveAligned64 n => on_ws (fun w => ZSTD_cwksp_reserve_aligned64 D w n)
  | ReserveBuffer n => on_ws (fun w => ZSTD_cwksp_reserve_buffer D w n)
  | _ => cret NULL
  end.

Definition block (c : command) (p : Z) : allocation :=
  match c with
  | ReserveTable n => {| al_kind := Table; al_ptr := p; al_size := n; al_align := 64 |}
  | ReserveInitOnce n => {| al_kind := InitOnce; al_ptr := p; al_size := n; al_align := 64 |}
  | ReserveAligned64 n => {| al_kind := Aligned; al_ptr := p; al_size := n; al_align := 64 |}
  | ReserveBuffer n => {| al_kind := Buffer; al_ptr := p; al_size := n; al_align := 1 |}
  | ReserveObject n => {| al_kind := Object; al_ptr := p; al_size := n; al_align := sizeof_ptr |}
  | _ => {| al_kind := Object; al_ptr := NULL; al_size := 0; al_align := 1 |}
  end.

Definition after_objects (c : command) : bool :=
  match c with ReserveTable _ | ReserveInitOnce _ | ReserveAligned64 _ | ReserveBuffer _ => true | _ => false end.

Definition is_table (c : command) : bool := match c with ReserveTable _ => true | _ => false end.

Definition arena_of zc (live : list allocation) (b : Z) : arena := {| ar_ws := ws zc; ar_mem := mem zc; ar_live := live; ar_bound := b |}.

#[local] Lemma and_impl_r (X Y Z0 : Prop) : X /\ Y -> X /\ (Z0 -> Y).
Proof. tauto. Qed.

Lemma op_spec zc live b S R c cs : account D (arena_of zc live b) S R -> ordered (rank (phase (ws zc))) (c :: cs) -> 0 <= cost c <= R -> after_objects c = true ->
  exists p w m, op c zc = Ok (zc <| ws := w |> <| mem := m |>, inr p) /\ same_frame (ws zc) w /\ (is_table c = false -> tables_valid (ws zc) -> tables_valid w) /\ ordered (rank (phase w)) cs /\ (p = NULL -> al_size (block c p) = 0) /\
    account D {| ar_ws := w; ar_mem := m; ar_live := if p =? NULL then live else block c p :: live; ar_bound := b |} (S + cost c) (R - cost c).
Proof.
  intros HS Hord HR Hc. destruct (account_run D _ S R c cs HS Hord HR) as (A' & E & HS' & Hreq & Hord'). pose proof (acc_ok _ _ _ _ HS) as HA. pose proof word_size_big.
  destruct (account_fits D _ S R HS ltac:(lia)) as (_ & Hf & _). pose proof (fits_le _ (cost c) R Hf ltac:(lia)) as Hfn.
  assert (forall (k : kind) (n al p : Z) w m, A' = got k p n al (arena_of zc live b) w m -> requests A' = requests (arena_of zc live b) ++ (if n =? 0 then [] else [(k, n)]) \/ k = Table /\ 0 < p -> (p = NULL -> n = 0)) as Hnull.
  { intros k n al p w m -> [Hq|[_ Hp]] ->; [|unfold NULL in Hp; lia]. rewrite got_null in Hq. unfold requests in Hq. cbn [ar_live arena_of] in Hq. destruct (Z.eqb_spec n 0); [done|].
    symmetry in Hq. rewrite <- (app_nil_r (map _ _)) in Hq at 2. by apply app_inv_head in Hq. }
  destruct c as [n| |n|n|n|n| | | | | | | |]; try done; cbn [ordered cost served run op block al_size] in *; cbn [arena_of ar_ws ar_mem] in *.
  - apply bind_Ok in E as ([p w] & E & EA). injection EA as EA. exists p, w, (mem zc). unfold on_ws. rewrite E. split; [done|]. destruct Hord as (Hn & Hm & Hord).
    pose proof (reserve_table_spec D _ n HA Hn Hm (fun _ => Hfn)) as Hsp. cbv zeta in Hsp. cbn [arena_of ar_ws] in Hsp. rewrite E in Hsp. unfold fits in Hfn. cbn [arena_of ar_ws] in Hfn.
    pose proof (table_top_pos D _ HA) as Htp. cbn [arena_of ar_ws] in Htp. set (ph := if bool_decide (phase (ws zc) = ZSTD_cwksp_alloc_objects) then ZSTD_cwksp_alloc_aligned_init_once else phase (ws zc)) in *.
    assert (1 <= rank ph) as Hr by (subst ph; destruct (phase (ws zc)); by vm_compute). pose proof (opened_frame (ws zc) ph Hr) as Ho.
    split; [|split; [done|split; [by rewrite <- EA in Hord'|split; [|by rewrite <- EA in HS']]]].
    + destruct (_ <? _) in Hsp; [by injection Hsp as -> ->|]. destruct (_ <? _) in Hsp; injection Hsp as -> ->; exact Ho.
    + intros ->. exfalso. clear -Hreq EA. rewrite <- EA, got_null in Hreq. unfold requests in Hreq. cbn [ar_live arena_of] in Hreq. symmetry in Hreq. rewrite <- (app_nil_r (map _ _)) in Hreq at 2. by apply app_inv_head in Hreq.
  - destruct Hord as (Hph & Hn & Hord). apply bind_Ok in E as ([[p w] m] & E & EA). injection EA as EA. exists p, w, m. unfold reserve_init_once. rewrite E. split; [done|].
    apply and_assoc. split; [|split; [by rewrite <- EA in Hord'|split; [exact (Hnull _ _ _ _ _ _ (eq_sym EA) (or_introl Hreq))|by rewrite <- EA in HS']]].
    unfold ZSTD_cwksp_reserve_aligned_init_once in E. rewrite cwksp_align64 in E by lia. cbn [obind] in E. apply bind_Ok in E as ([p' w'] & E1 & E). apply bind_Ok in E as (u & _ & E).
    destruct (up_spec 64 n) as [Hu _]; [lia|]. assert (same_frame (ws zc) w' /\ (tables_valid (ws zc) -> tables_valid w')) as [Hfr Hva] by (eapply (reserve_internal_frame _ (up 64 n) ZSTD_cwksp_alloc_aligned_init_once p' w' HA); [by vm_compute|exact Hph|lia|by intros _|exact E1]).
    destruct (_ && _); [apply bind_Ok in E as (m' & _ & E)|]; by injection E as _ <- _.
  - destruct Hord as (Hph & Hn & Hord). apply bind_Ok in E as ([p w] & E & EA). injection EA as EA. exists p, w, (mem zc). unfold on_ws. rewrite E. split; [done|].
    apply and_assoc. split; [|split; [by rewrite <- EA in Hord'|split; [exact (Hnull _ _ _ _ _ _ (eq_sym EA) (or_introl Hreq))|by rewrite <- EA in HS']]].
    unfold ZSTD_cwksp_reserve_aligned64 in E. rewrite cwksp_align64 in E by lia. cbn [obind] in E. apply bind_Ok in E as ([p' w'] & E1 & E). apply bind_Ok in E as (u & _ & E). injection E as _ <-.
    destruct (up_spec 64 n) as [Hu _]; [lia|]. apply and_impl_r. eapply (reserve_internal_frame _ (up 64 n) ZSTD_cwksp_alloc_aligned p' w' HA); [by vm_compute|exact Hph|lia|by intros _|exact E1].
  - destruct Hord as (Hn & Hord). apply bind_Ok in E as ([p w] & E & EA). injection EA as EA. exists p, w, (mem zc). unfold on_ws. rewrite E. split; [done|].
    apply and_assoc. split; [|split; [by rewrite <- EA in Hord'|split; [exact (Hnull _ _ _ _ _ _ (eq_sym EA) (or_introl Hreq))|by rewrite <- EA in HS']]].
    unfold ZSTD_cwksp_reserve_buffer in E. apply and_impl_r. eapply (reserve_internal_frame _ n ZSTD_cwksp_alloc_buffers p w HA); [by vm_compute|cbn [arena_of ar_ws]; destruct (phase (ws zc)); by vm_compute|lia|by intros _|exact E].
Qed.

(** ** A run of reservations *)

Definition slots zc (l : list slot) : list (Z * command) := map (fun '(f, c) => (f zc, c)) l.

Definition blocks (l : list (Z * command)) : list allocation :=
  foldr (fun '(p, c) bs => if p =? NULL then bs else block c p :: bs) [] l.

(** Only an empty block has no address. *)
Definition served_slot (x : Z * command) : Prop := x.1 = NULL -> al_size (block x.2 x.1) = 0.

(** The fields in [dn] hold addresses that agree with the workspace in the way [X] says; [F] is what else is known of the context. *)
Definition holds (X : ZSTD_cwksp -> memory -> list (Z * command) -> Prop) (F : ZSTD_CCtx -> Prop) (dn : list slot) zc : Prop :=
  X (ws zc) (mem zc) (slots zc dn) /\ F zc.

(** [F] and [dn] do not look at the workspace. *)
Definition apart (F : ZSTD_CCtx -> Prop) (dn : list slot) : Prop :=
  forall w m zc, slots (zc <| ws := w |> <| mem := m |>) dn = slots zc dn /\ (F zc -> F (zc <| ws := w |> <| mem := m |>)).

Lemma wins_assign {B} (f : ZSTD_CCtx -> ZSTD_CCtx) X (F F' : ZSTD_CCtx -> Prop) dn (k : unit -> call B) Q :
  (forall zc, ws (f zc) = ws zc /\ mem (f zc) = mem zc /\ slots (f zc) dn = slots zc dn) -> (forall zc, F zc -> F' (f zc)) ->
  wins (holds X F' dn) (k tt) Q -> wins (holds X F dn) (cbind (cmodify f) k) Q.
Proof.
  intros Hset HF Hk. apply wins_then with (J := holds X F' dn); [|done]. intros zc [HX Hf]. destruct (Hset zc) as (S1 & S2 & S3). unfold holds. rewrite S1, S2, S3. split; [done|by apply HF].
Qed.

Lemma wins_see {B} X F dn (k : ZSTD_CCtx -> call B) Q :
  (forall zc, holds X F dn zc -> wins (holds X F dn) (k zc) Q) -> wins (holds X F dn) (cbind cget k) Q.
Proof. intros H zc Hzc. exact (H zc Hzc zc Hzc). Qed.

(** A step that changes the workspace. *)
Lemma wins_workspace {A} (m : call A) X (X' : A -> ZSTD_cwksp -> memory -> list (Z * command) -> Prop) F dn : apart F dn ->
  (forall zc, holds X F dn zc -> exists w' m' a, m zc = Ok (zc <| ws := w' |> <| mem := m' |>, inr a) /\ X' a w' m' (slots zc dn)) -> wins (holds X F dn) m (fun a => holds (X' a) F dn).
Proof.
  intros Hap Hm zc Hzc. destruct (Hm zc Hzc) as (w' & m' & a & E & HX). exists (zc <| ws := w' |> <| mem := m' |>), a. split; [done|]. destruct (Hap w' m' zc) as [S HF]. unfold holds. rewrite S.
  split; [done|]. apply HF. by destruct Hzc.
Qed.

(** *** Reservations *)

Section Rules.
(** Blocks outside those fields, which stay as they are. *)
Context (extra : list allocation).
(** The ends of the workspace, the cost of its objects and its time of being oversized. *)
Context (st en O dur : Z).

Definition framed w : Prop := workspace w = st /\ workspaceEnd w = en /\ base w = up 64 (st + O) /\ workspaceOversizedDuration w = dur.

Lemma framed_same w w' : framed w -> same_frame w w' -> framed w'.
Proof. intros (A1 & A2 & A3 & A4) (B1 & B2 & B3 & B4). split_and!; congruence. Qed.

Definition arena_at w m (l : list (Z * command)) (b : Z) : arena := {| ar_ws := w; ar_mem := m; ar_live := blocks l ++ extra; ar_bound := b |}.

(** The reservations in [cs] are still to be made, and will bring the cost of all to [T]. *)
Definition laying (T b : Z) (valid : bool) (cs : list command) w m (l : list (Z * command)) : Prop :=
  exists R, costs cs <= R /\ account D (arena_at w m l b) (T - costs cs) R /\ ordered (rank (phase w)) cs /\ framed w /\ Forall served_slot l /\ (valid = true -> tables_valid w).

Lemma wins_reserve {B} c (f : ZSTD_CCtx -> Z) (set : Z -> ZSTD_CCtx -> ZSTD_CCtx) T b valid (F : ZSTD_CCtx -> Prop) (F' : Z -> ZSTD_CCtx -> Prop) dn cs (k : Z -> unit -> call B) Q :
  after_objects c = true -> (valid = true -> is_table c = false) -> apart F dn ->
  (forall t zc, ws (set t zc) = ws zc /\ mem (set t zc) = mem zc /\ f (set t zc) = t /\ slots (set t zc) dn = slots zc dn) ->
  (forall t zc, F zc -> F' t (set t zc)) ->
  (forall t, wins (holds (laying T b valid cs) (F' t) ((f, c) :: dn)) (k t tt) Q) ->
  wins (holds (laying T b valid (c :: cs)) F dn) (cbind (op c) (fun t => cbind (cmodify (set t)) (k t))) Q.
Proof.
  intros Hc Hv Hap Hset HF Hk zc [(R & HR & HS & Hord & Hfr & Hsl & Hva) Hf]. cbn [costs foldr] in HR, HS. fold (costs cs) in HR, HS.
  pose proof (ordered_cost c cs _ Hord) as Hc0. destruct (ordered_tail c cs _ Hord) as [ph Ht]. pose proof (ordered_costs cs ph Ht) as Hcs.
  destruct (op_spec zc _ b _ R c cs HS Hord ltac:(lia) Hc) as (p & w & m & E & Hfr' & Htv & Hord' & Hp & HS'). unfold cbind at 1. rewrite E. unfold cbind at 1, cmodify.
  apply (Hk p). destruct (Hap w m zc) as [Hsw HFw]. destruct (Hset p (zc <| ws := w |> <| mem := m |>)) as (S1 & S2 & S3 & S4). split; [|by apply HF, HFw].
  exists (R - cost c). cbn [slots map]. fold (slots (set p (zc <| ws := w |> <| mem := m |>)) dn).
  rewrite S1, S2, S3, S4, Hsw. unfold arena_at. cbn [blocks foldr]. fold (blocks (slots zc dn)). cbn [ws mem update]. split; [lia|]. split.
  { replace (T - costs cs) with (T - (cost c + costs cs) + cost c) by lia. by destruct (p =? NULL). }
  split; [done|]. split; [by eapply framed_same|]. split; [by constructor|]. auto.
Qed.

Lemma laying_never_failed T b valid cs w m l : laying T b valid cs w m l -> allocFailed w = false.
Proof. intros (R & _ & HS & _). exact (acc_never_failed _ _ _ _ HS). Qed.

Lemma wins_clean_tables T b cs F dn : apart F dn -> wins (holds (laying T b false cs) F dn) (clean_tables D) (fun _ => holds (laying T b true cs) F dn).
Proof.
  intros Hap. apply (wins_workspace (clean_tables D) _ (fun _ => laying T b true cs)); [done|]. intros zc [(R & HR & HS & Hord & Hfr & Hsl & _) Hf].
  destruct (clean_tables_arena D _ (acc_ok _ _ _ _ HS)) as (m' & E & HA' & _). cbn [arena_at ar_ws ar_mem] in E. unfold clean_tables. rewrite E. eexists _, m', tt. split; [done|].
  exists R. split; [done|]. split; [|split; [done|]; split; [exact Hfr|]; split; [done|]; intros _; unfold tables_valid; wsimpl; lia].
  destruct HS as [_ H2 H3 H4]. constructor; [exact HA'|exact H2|exact H3|exact H4].
Qed.

(** *** Clearing a block *)

Lemma zero_arena A x : arena_ok D A -> In x (ar_live A) -> al_kind x <> Table ->
  exists m', clear_bytes (ar_ws A) (ar_mem A) (al_ptr x) (al_size x) = Ok m' /\ arena_ok D {| ar_ws := ar_ws A; ar_mem := m'; ar_live := ar_live A; ar_bound := ar_bound A |}.
Proof.
  intros HA Hx Hk. apply list_elem_of_In in Hx. pose proof (ar_placed _ _ HA) as Hpl. rewrite Forall_forall in Hpl. specialize (Hpl x Hx).
  assert (phase (ar_ws A) = ZSTD_cwksp_alloc_objects -> al_kind x = Object) as Ho. { intros E. pose proof (ar_objects_only _ _ HA E) as Ho. rewrite Forall_forall in Ho. by apply Ho. }
  destruct (placed_inside D _ x (ar_cwksp _ _ HA) Hpl Ho) as [H1 H2]. unfold clear_bytes. rewrite (proj2 (Z.leb_le _ _) H1), (proj2 (Z.leb_le _ _) H2). cbn [andb]. eexists. split; [done|].
  destruct HA as [Hc Hp Hd Hob Hb Hi Ht Hpos]. constructor; try done; cbn [ar_ws ar_mem ar_bound].
  - intros a v. destruct (_ && _); [intros [= <-]; by split|apply Hb].
  - intros a Ha. destruct (_ && _); [by eexists|by apply Hi].
  - eapply bounded_lower; [exact Hb|exact Ht|lia|lia|]. intros a Ha. destruct (Z.leb_spec (al_ptr x) a), (Z.ltb_spec a (al_ptr x + al_size x)); cbn [andb]; try done.
    destruct (placed_outside D _ x a Hc Hpl Hk Ho ltac:(lia)); lia.
Qed.

Lemma in_blocks t c l : In (t, c) l -> t <> NULL -> In (block c t) (blocks l).
Proof.
  intros Hin Ht. induction l as [|[p c'] l IH]; [done|]. cbn [blocks foldr]. fold (blocks l). destruct Hin as [[= -> ->]|Hin]; [rewrite (proj2 (Z.eqb_neq _ _)) by done; by left|].
  destruct (p =? NULL); [|right]; by apply IH.
Qed.

Lemma wins_memset0 T b valid cs F dn t n c : apart F dn -> (forall zc, F zc -> In (t, c) (slots zc dn)) -> n = al_size (block c t) -> al_ptr (block c t) = t -> 0 < n -> is_table c = false ->
  al_kind (block c t) <> Table -> wins (holds (laying T b valid cs) F dn) (memset0 t n) (fun _ => holds (laying T b valid cs) F dn).
Proof.
  intros Hap Hin Hn Hp Hpos Hc Hkd. apply (wins_workspace (memset0 t n) _ (fun _ => laying T b valid cs)); [done|]. intros zc [(R & HR & HS & Hord & Hfr & Hsl & Hv) Hf]. specialize (Hin zc Hf).
  assert (t <> NULL) as Ht. { intros E. rewrite Forall_forall in Hsl. apply list_elem_of_In in Hin. specialize (Hsl _ Hin E). cbn [fst snd] in Hsl. lia. }
  destruct (zero_arena _ (block c t) (acc_ok _ _ _ _ HS)) as (m' & E & HA'); [apply in_or_app; left; by apply in_blocks|done|]. cbn [arena_at ar_ws ar_mem] in E. rewrite Hp, <- Hn in E.
  unfold memset0. rewrite E. exists (ws zc), m', tt. split; [by destruct zc|]. exists R. split; [done|]. split; [|by split_and!].
  destruct HS as [_ H2 H3 H4]. by constructor.
Qed.

(** *** Before the first table *)

(** The objects of cost [O] are in the workspace, and nothing else. *)
Record bare (b : Z) w m (l : list (Z * command)) : Prop := {
  bare_ok : arena_ok D (arena_at w m l b);
  bare_never_failed : allocFailed w = false;
  bare_tables : tableEnd w = objectEnd w;
  bare_end : allocStart w = initial w;
  bare_frame : framed w;
  bare_objects : phase w = ZSTD_cwksp_alloc_objects -> objectEnd w = st + O;
  bare_phase : rank (phase w) <= 1;
  bare_served : Forall served_slot l
}.

Lemma bare_laying b w m l cs : bare b w m l -> 0 <= O -> ordered 0 cs -> ordered 1 cs -> O + costs cs + 128 <= en - st -> laying (O + costs cs) b false cs w m l.
Proof.
  intros [HA Hf Ht He Hb Ho Hp Hsl] HO O0 O1 Hsz. exists (costs cs). split; [done|]. split; [|split; [|split; [done|by split]]].
  - destruct (arena_facts D _ HA) as (F1 & F2 & F3). cbn [arena_at ar_ws] in *. pose proof (ordered_costs cs 0 O0). destruct Hb as (H1 & H2 & H3 & _). destruct (initial_spec w) as [Hi _].
    constructor; [done|done|intros E|intros E]; cbn [arena_at ar_ws]; [specialize (Ho E); lia|].
    unfold base in H3. rewrite bool_decide_eq_false_2 in H3 by done. destruct (up_spec 64 (st + O)) as [Hu _]; [lia|]. rewrite Ht, He, H3. lia.
  - destruct (phase w); cbn [rank] in *; try done; lia.
Qed.

Lemma bare_mark_dirty b b' w m l : bare b w m l -> 0 < b' -> exists w', ZSTD_cwksp_mark_tables_dirty D w = Ok w' /\ bare b' w' m l.
Proof.
  intros [HA Hf Ht He Hb Ho Hp Hsl] Hb'. destruct (mark_dirty_arena D _ HA) as [E HA']. cbn [arena_at ar_ws] in E. rewrite E. eexists. split; [done|].
  constructor; try done. apply (set_bound_arena D (with_ws (set_tableValidEnd (objectEnd w) w) (arena_at w m l b))); [exact HA'|done|right; cbn; lia].
Qed.

Lemma bare_clear_tables b w m l : bare b w m l -> ZSTD_cwksp_clear_tables D w = Ok w.
Proof.
  intros [HA Hf Ht He Hb Ho Hp Hsl]. destruct (clear_tables_arena D _ HA) as [E _]. cbn [arena_at ar_ws] in E. rewrite E. f_equal. rewrite <- Ht. by destruct w.
Qed.

(** *** Between resets *)

Definition object_only (c : command) : bool := match c with ReserveObject _ => true | _ => false end.

(** The objects of cost [O] are in the workspace, possibly with other blocks. *)
Record housed (b : Z) (live : list allocation) w m (l : list (Z * command)) : Prop := {
  housed_ok : arena_ok D {| ar_ws := w; ar_mem := m; ar_live := live; ar_bound := b |};
  housed_live : keeps (fun k => bool_decide (k = Object)) live = blocks l ++ extra;
  housed_frame : framed w;
  housed_objects : phase w = ZSTD_cwksp_alloc_objects -> objectEnd w = st + O;
  housed_served : Forall served_slot l
}.

Lemma clear_housed b live w m l : housed b live w m l -> exists w', ZSTD_cwksp_clear D w = Ok w' /\ bare b w' m l.
Proof.
  intros [HA Hl Hfr Ho Hsl]. destruct (clear_arena D _ HA) as [E HA']. cbn [ar_ws ar_mem ar_live ar_bound] in E, HA'. rewrite E. exists (cleared w). split; [done|]. rewrite Hl in HA'.
  assert (initial (cleared w) = initial w) as Ei by (unfold initial, cleared; by destruct (bool_decide _)).
  assert (framed (cleared w)) as Hfr'.
  { eapply framed_same; [exact Hfr|]. unfold same_frame, base, cleared. destruct (bool_decide (phase w = ZSTD_cwksp_alloc_objects)) eqn:Eb; cbn; by rewrite ?Eb. }
  constructor; try done; unfold cleared in *; destruct (bool_decide (phase w = ZSTD_cwksp_alloc_objects)) eqn:Eb; try done; apply bool_decide_eq_true in Eb.
  cbn [phase set_allocFailed set_allocStart set_tableEnd]. by rewrite Eb.
Qed.

Lemma blocks_of_app l l' : blocks (l ++ l') = blocks l ++ blocks l'.
Proof. induction l as [|[p c] l IH]; [done|]. cbn [blocks foldr app]. fold (blocks l) (blocks (l ++ l')). rewrite IH. by destruct (p =? NULL). Qed.

Lemma keeps_app f l l' : keeps f (l ++ l') = keeps f l ++ keeps f l'.
Proof. apply List.filter_app. Qed.

Lemma blocks_not_objects l : Forall (fun x => after_objects x.2 = true) l -> keeps (fun k => bool_decide (k = Object)) (blocks l) = [].
Proof.
  induction 1 as [|[p c] l Hc _ IH]; [done|]. cbn [blocks foldr]. fold (blocks l). cbn [snd] in Hc. destruct (p =? NULL); [done|]. unfold keeps in *. cbn [List.filter]. rewrite bool_decide_eq_false_2 by (by destruct c). done.
Qed.

Lemma blocks_objects l : Forall (fun x => object_only x.2 = true) l -> keeps (fun k => bool_decide (k = Object)) (blocks l) = blocks l.
Proof.
  induction 1 as [|[p c] l Hc _ IH]; [done|]. cbn [blocks foldr]. fold (blocks l). cbn [snd] in Hc. destruct (p =? NULL); [done|]. unfold keeps in *. cbn [List.filter]. rewrite bool_decide_eq_true_2 by (by destruct c). by rewrite IH.
Qed.

Lemma laying_housed T b valid w m l l' t c : laying T b valid [] w m (l ++ l') -> Forall (fun x => after_objects x.2 = true) l -> Forall (fun x => object_only x.2 = true) l' ->
  keeps (fun k => bool_decide (k = Object)) extra = extra -> In (t, c) l -> t <> NULL -> housed b (blocks (l ++ l') ++ extra) w m l'.
Proof.
  intros (R & _ & HS & _ & Hfr & Hsl & _) Hl Hl' He Hin Ht. pose proof (acc_ok _ _ _ _ HS) as HA. constructor; try done.
  - by rewrite keeps_app, blocks_of_app, keeps_app, blocks_not_objects, blocks_objects, He.
  - intros E. pose proof (ar_objects_only _ _ HA E) as Hob. rewrite Forall_forall in Hob. rewrite Forall_forall in Hl. cbn [arena_at ar_live] in Hob.
    specialize (Hob (block c t)). assert (In (block c t) (blocks (l ++ l') ++ extra)) as Hib by (rewrite blocks_of_app, <- app_assoc; apply in_or_app; left; by apply in_blocks).
    apply list_elem_of_In in Hib. specialize (Hob Hib). apply list_elem_of_In in Hin. specialize (Hl _ Hin). by destruct c.
  - apply Forall_app in Hsl as [_ ?]. done.
Qed.
End Rules.
End Steps.
