(* ===== verification/CCtxMatch.v ===== *)
(** * The match finder of a context

    [ZSTD_reset_matchState] makes its reservations and leaves the match finder without data: the first half of the
    list of [CCtxPlan], by the rules of [CCtxLayout]. *)
From S2P Require Import Prelude Mem Errors Bits Frame FrameWalk SeqTable SeqStore ExecSeq Xxh64 CParams RecordUpdate Calls CCtxParams Cwksp CwkspArena CwkspClient CCtxSize CCtxReset CCtxPlan CCtxLayout.

(** ** The fields *)

Section Fields.
Context `{P : Platform} (sizeof_compressedBlockState : Z) (cPar : ZSTD_compressionParameters) (ldm : ldmParams_t) (row ext : bool) (blockSize inSize outSize : Z).

Definition object_fields : list slot :=
  [(tmpWorkspace, ReserveObject TMP_WORKSPACE_SIZE); (nextCBlock, ReserveObject sizeof_compressedBlockState); (prevCBlock, ReserveObject sizeof_compressedBlockState)].

Definition table_fields : list slot :=
  [(fun zc => hashTable3 (matchState zc), ReserveTable (hash3_bytes cPar)); (fun zc => chainTable (matchState zc), ReserveTable (chain_bytes cPar row));
   (fun zc => hashTable (matchState zc), ReserveTable (hash_bytes cPar))].

Definition tag_fields : list slot := [(fun zc => tagTable (matchState zc), ReserveInitOnce (2 ^ cp_hashLog cPar))].

Definition opt_fields : list slot :=
  [(fun zc => opt_priceTable (opt (matchState zc)), ReserveAligned64 (4099 * 28)); (fun zc => opt_matchTable (opt (matchState zc)), ReserveAligned64 (4099 * 8));
   (fun zc => opt_offCodeFreq (opt (matchState zc)), ReserveAligned64 (32 * 4)); (fun zc => opt_matchLengthFreq (opt (matchState zc)), ReserveAligned64 (53 * 4));
   (fun zc => opt_litLengthFreq (opt (matchState zc)), ReserveAligned64 (36 * 4)); (fun zc => opt_litFreq (opt (matchState zc)), ReserveAligned64 (256 * 4))].

Definition match_fields : list slot := when (opt_on cPar) opt_fields ++ when row tag_fields ++ table_fields.
End Fields.

(** *** Fields that no assignment touches *)

Lemma slots_cons zc zc' f c l : f zc' = f zc -> slots zc' l = slots zc l -> slots zc' ((f, c) :: l) = slots zc ((f, c) :: l).
Proof. intros Hf Hl. exact (f_equal2 (fun x y => (x, c) :: y) Hf Hl). Qed.

Lemma slots_app zc zc' l l' : slots zc' l = slots zc l -> slots zc' l' = slots zc l' -> slots zc' (l ++ l') = slots zc (l ++ l').
Proof. intros H H'. exact (eq_trans (map_app _ l l') (eq_trans (f_equal2 (@app _) H H') (eq_sym (map_app _ l l')))). Qed.

Lemma slots_when zc zc' b l : slots zc' l = slots zc l -> slots zc' (when b l) = slots zc (when b l).
Proof. by destruct b. Qed.

Ltac untouched := intros; repeat first [reflexivity | apply slots_when | apply slots_app | apply slots_cons; [reflexivity|] | solve [auto]].

(** ** The match finder *)

Section Match.
Context `{P : Platform} (D blank : Z) (extra : list allocation) (st en O dur : Z) (cPar : ZSTD_compressionParameters) (mode : Z) (objs : list slot).
Local Notation row := (row_on cPar mode).
Local Notation laying := (laying D extra st en O dur).
Local Notation bare := (bare D extra st en O dur).
Implicit Types (F : ZSTD_CCtx -> Prop) (M : ZSTD_MatchState_t -> Prop).

Context (Hobjs : forall f zc, slots (zc <| matchState ::= f |>) objs = slots zc objs) (Hobjs' : forall w m zc, slots (zc <| ws := w |> <| mem := m |>) objs = slots zc objs).

(** Something known of the match finder and something known of the rest. *)
Definition both F M : ZSTD_CCtx -> Prop := fun zc => F zc /\ M (matchState zc).

Definition window_at (idx : Z) (ms : ZSTD_MatchState_t) : Prop := w_nextSrc (ms_window ms) - w_base (ms_window ms) = idx.
Definition window_cleared (idx : Z) (ms : ZSTD_MatchState_t) : Prop := window_at idx ms /\ w_lowLimit (ms_window ms) = idx /\ w_dictLimit (ms_window ms) = idx.

(** The match finder has no data: its indices start at [idx]. *)
Definition no_data (idx : Z) (ms : ZSTD_MatchState_t) : Prop := window_cleared idx ms /\ nextToUpdate ms = idx /\ loadedDictEnd ms = 0 /\ dictMatchState ms = NULL.

Lemma window_clear_spec idx w : w_nextSrc w - w_base w = idx -> 0 <= idx < 2 ^ 32 -> ZSTD_window_clear w = w <| w_lowLimit := idx |> <| w_dictLimit := idx |>.
Proof. intros E Hi. unfold ZSTD_window_clear. rewrite E, size_t_in by (pose proof word_size_big; lia). by rewrite wrap_small by lia. Qed.

Section Steps.
Context (F : ZSTD_CCtx -> Prop) (HF : forall f zc, F zc -> F (zc <| matchState ::= f |>)) (HF' : forall w m zc, F zc -> F (zc <| ws := w |> <| mem := m |>)).

Lemma apart_both M dn : (forall w m zc, slots (zc <| ws := w |> <| mem := m |>) dn = slots zc dn) -> apart (both F M) dn.
Proof. intros H w m zc. split; [apply H|]. intros [H1 H2]. split; [by apply HF'|exact H2]. Qed.

(** An assignment to the match finder. *)
Lemma wins_ms {B} f X M M' dn (k : unit -> call B) Q : (forall zc, slots (zc <| matchState ::= f |>) dn = slots zc dn) -> (forall ms, M ms -> M' (f ms)) ->
  wins (holds X (both F M') dn) (k tt) Q -> wins (holds X (both F M) dn) (cbind (on_ms f) k) Q.
Proof.
  intros Hs HM Hk. apply (wins_assign (fun zc => zc <| matchState ::= f |>) X _ (both F M')); [by intros zc|intros zc [H1 H2]; split; [by apply HF|by apply HM]|done].
Qed.

Lemma wins_ms_last f X M M' dn : (forall zc, slots (zc <| matchState ::= f |>) dn = slots zc dn) -> (forall ms, M ms -> M' (f ms)) ->
  wins (holds X (both F M) dn) (on_ms f) (fun _ => holds X (both F M') dn).
Proof.
  intros Hs HM zc [HX [H1 H2]]. eexists _, tt. split; [reflexivity|]. split; [|split; [by apply HF|by apply HM]]. by rewrite Hs.
Qed.

Lemma invalidate_wins X idx : 0 <= idx < 2 ^ 32 -> wins (holds X (both F (window_at idx)) objs) ZSTD_invalidateMatchState (fun _ => holds X (both F (no_data idx)) objs).
Proof.
  intros Hi. unfold ZSTD_invalidateMatchState. apply (wins_ms _ _ _ (window_cleared idx)); [done| |].
  { intros ms E. unfold window_cleared, window_at. cbn [update ms_window]. by rewrite (window_clear_spec idx) by done. }
  apply (wins_ms _ _ _ (fun ms => window_cleared idx ms /\ nextToUpdate ms = idx)); [done|by intros ms (? & ? & ?)|].
  do 2 (apply (wins_ms _ _ _ (fun ms => (window_cleared idx ms /\ nextToUpdate ms = idx) /\ loadedDictEnd ms = 0)); [done|by intros ms ?|]).
  apply wins_ms_last; [done|]. intros ms (((? & ? & ?) & ?) & ?). by repeat split.
Qed.

(** A reservation for the match finder. *)
Lemma wins_ms_reserve {B} c (f : ZSTD_CCtx -> Z) (g : Z -> ZSTD_MatchState_t -> ZSTD_MatchState_t) T b valid M dn cs (k : Z -> unit -> call B) Q :
  after_objects c = true -> (valid = true -> is_table c = false) -> (forall w m zc, slots (zc <| ws := w |> <| mem := m |>) dn = slots zc dn) ->
  (forall t zc, f (zc <| matchState ::= g t |>) = t /\ slots (zc <| matchState ::= g t |>) dn = slots zc dn) -> (forall t ms, M ms -> M (g t ms)) ->
  (forall t, wins (holds (laying T b valid cs) (both F M) ((f, c) :: dn)) (k t tt) Q) ->
  wins (holds (laying T b valid (c :: cs)) (both F M) dn) (cbind (op D c) (fun t => cbind (on_ms (g t)) (k t))) Q.
Proof.
  intros Hc Hv Hs Hf HM Hk. apply (wins_reserve D extra st en O dur c f (fun t zc => zc <| matchState ::= g t |>) T b valid _ (fun _ => both F M)); [done|done|by apply apart_both| | |done].
  - intros t zc. destruct (Hf t zc). by split_and!.
  - intros t zc [H1 H2]. split; [by apply HF|by apply HM].
Qed.

Lemma bitmix_Ok val len : exists v, ZSTD_bitmix val len = Ok v.
Proof. unfold ZSTD_bitmix, ZSTD_rotateRight_U64. cbn [oassert obind Z.ltb]. eexists. reflexivity. Qed.

Lemma advanceHashSalt_wins X idx dn : (forall v zc, slots (zc <| matchState ::= fun ms => ms <| hashSalt := v |> |>) dn = slots zc dn) ->
  wins (holds X (both F (no_data idx)) dn) ZSTD_advanceHashSalt (fun _ => holds X (both F (no_data idx)) dn).
Proof.
  intros Hs. unfold ZSTD_advanceHashSalt. apply wins_see. intros zc _. destruct (bitmix_Ok (hashSalt (matchState zc)) 8) as [v1 ->]. destruct (bitmix_Ok (hashSaltEntropy (matchState zc)) 4) as [v2 ->].
  eapply wins_bind with (Q := fun _ => holds X (both F (no_data idx)) dn); [by apply (wins_pure _ _ v1)|intros a]. eapply wins_bind with (Q := fun _ => holds X (both F (no_data idx)) dn); [by apply (wins_pure _ _ v2)|intros b].
  by apply wins_ms_last.
Qed.

Lemma reserve_opt_wins n (f : ZSTD_CCtx -> Z) g T b valid idx dn cs : (forall w m zc, slots (zc <| ws := w |> <| mem := m |>) dn = slots zc dn) ->
  (forall t zc, f (zc <| matchState ::= fun ms => ms <| opt ::= g t |> |>) = t /\ slots (zc <| matchState ::= fun ms => ms <| opt ::= g t |> |>) dn = slots zc dn) ->
  wins (holds (laying T b valid (ReserveAligned64 n :: cs)) (both F (no_data idx)) dn) (reserve_opt D n g) (fun _ => holds (laying T b valid cs) (both F (no_data idx)) ((f, ReserveAligned64 n) :: dn)).
Proof.
  intros Hs Hf. unfold reserve_opt. apply (wins_ext _ (cbind (op D (ReserveAligned64 n)) (fun t => cbind (on_ms (fun ms => ms <| opt ::= g t |>)) (fun _ => cret tt)))); [done|].
  apply (wins_ms_reserve (ReserveAligned64 n) f (fun t ms => ms <| opt ::= g t |>)); try done. intros t. by apply wins_ret.
Qed.

Ltac last_opt f := apply (reserve_opt_wins _ f); [untouched|split; [done|untouched]].
Ltac next_opt f := eapply wins_bind; [last_opt f|intros ?; cbv beta].

(** The parts that are reserved only for some strategies. *)
Lemma opt_space_wins T b valid idx dn cs : (forall w m zc, slots (zc <| ws := w |> <| mem := m |>) dn = slots zc dn) ->
  (forall f zc, slots (zc <| matchState ::= fun ms => ms <| opt ::= f |> |>) dn = slots zc dn) ->
  wins (holds (laying T b valid (opt_plan ++ cs)) (both F (no_data idx)) dn) (reserve_opt_space D) (fun _ => holds (laying T b valid cs) (both F (no_data idx)) (opt_fields ++ dn)).
Proof.
  intros Hs Hf. unfold reserve_opt_space, opt_plan, opt_fields. cbn [map app].
  next_opt (fun zc => opt_litFreq (opt (matchState zc))). next_opt (fun zc => opt_litLengthFreq (opt (matchState zc))). next_opt (fun zc => opt_matchLengthFreq (opt (matchState zc))).
  next_opt (fun zc => opt_offCodeFreq (opt (matchState zc))). next_opt (fun zc => opt_matchTable (opt (matchState zc))). last_opt (fun zc => opt_priceTable (opt (matchState zc))).
Qed.

Lemma tags_wins T b valid idx dn cs : cparams_ok cPar -> (forall w m zc, slots (zc <| ws := w |> <| mem := m |>) dn = slots zc dn) ->
  (forall v zc, slots (zc <| matchState ::= fun ms => ms <| tagTable := v |> |>) dn = slots zc dn) -> (forall v zc, slots (zc <| matchState ::= fun ms => ms <| hashSalt := v |> |>) dn = slots zc dn) ->
  (forall v zc, slots (zc <| matchState ::= fun ms => ms <| rowHashLog := v |> |>) dn = slots zc dn) ->
  wins (holds (laying T b valid (ReserveInitOnce (2 ^ cp_hashLog cPar) :: cs)) (both F (no_data idx)) dn) (reserve_tags D cPar ZSTD_resetTarget_CCtx (2 ^ cp_hashLog cPar))
    (fun _ => holds (laying T b valid cs) (both F (no_data idx)) (tag_fields cPar ++ dn)).
Proof.
  intros Hok H1 H2 H3 H4. unfold reserve_tags. set (done_ := tag_fields cPar ++ dn). eapply wins_bind with (Q := fun _ => holds (laying T b valid cs) (both F (no_data idx)) done_).
  - apply (wins_ms_reserve (ReserveInitOnce (2 ^ cp_hashLog cPar)) (fun zc => tagTable (matchState zc)) (fun t ms => ms <| tagTable := t |>)); try done. intros t. apply advanceHashSalt_wins. untouched.
  - intros ?. cbv zeta. eapply wins_bind with (Q := fun _ => holds (laying T b valid cs) (both F (no_data idx)) done_); [apply wins_assert; [|done]|intros ?; apply wins_ms_last; [unfold done_, tag_fields; untouched|done]].
    apply Z.leb_le. pose proof (ok_hashLog _ Hok). unfold BOUNDED. lia.
Qed.

Definition makes_clean (crp : ZSTD_compResetPolicy_e) : bool := match crp with ZSTDcrp_makeClean => true | ZSTDcrp_leaveDirty => false end.
Definition keeps_index (fri : ZSTD_indexResetPolicy_e) : bool := match fri with ZSTDirp_continue => true | ZSTDirp_reset => false end.

(** Where the indices start: after the data seen so far, or at the beginning. *)
Lemma index_wins {B} fri b idx (k : unit -> call B) Q : 0 < b -> (if keeps_index fri then b <= idx else idx = ZSTD_WINDOW_START_INDEX) ->
  wins (holds (bare idx) (both F (window_at idx)) objs) (k tt) Q ->
  wins (holds (bare b) (both F (fun ms => keeps_index fri = true -> window_at idx ms)) objs)
    (cbind (match fri with
       | ZSTDirp_reset => cbind (on_ms (fun ms => ms <| ms_window := ZSTD_window_init blank |>)) (fun _ => on_ws (fun w => no_result (ZSTD_cwksp_mark_tables_dirty D w)))
       | ZSTDirp_continue => cret tt end) k) Q.
Proof.
  intros Hb Hidx Hk. eapply wins_bind with (Q := fun _ => holds (bare idx) (both F (window_at idx)) objs); [|by intros []]. destruct fri; cbn [keeps_index] in Hidx.
  - apply wins_ret. intros zc [HX [H1 H2]]. split; [|split; [done|by apply H2]]. destruct HX. constructor; try done. eapply (set_bound_arena D (arena_at extra _ _ _ b)); [done|lia|by left].
  - subst idx. apply (wins_ms _ _ _ (window_at ZSTD_WINDOW_START_INDEX)); [done| |].
    { intros ms _. unfold window_at, ZSTD_window_init. cbn [update ms_window w_nextSrc w_base]. lia. }
    apply (wins_workspace _ _ (fun _ => bare ZSTD_WINDOW_START_INDEX)); [by apply apart_both|]. intros zc [HX _].
    destruct (bare_mark_dirty D extra st en O dur b ZSTD_WINDOW_START_INDEX _ _ _ HX ltac:(done)) as (w' & E & HX'). exists w', (mem zc), tt. unfold on_ws, no_result. by rewrite E.
Qed.

Section Whole.
Context (cs : list command) (idx : Z).
Local Notation whole := (ReserveTable (hash_bytes cPar) :: ReserveTable (chain_bytes cPar row) :: ReserveTable (hash3_bytes cPar) :: when row [ReserveInitOnce (2 ^ cp_hashLog cPar)] ++ when (opt_on cPar) opt_plan ++ cs).
Context (Hmode : mode <> ZSTD_ps_auto) (Hcp : cparams_ok cPar) (HO : 0 <= O) (Hord : ordered 0 whole /\ ordered 1 whole) (Hroom : O + costs whole + 128 <= en - st).
Context (Hsz : hash_bytes cPar < word_size /\ chain_bytes cPar row < word_size) (Hidx : 0 <= idx < 2 ^ 32).

Lemma code_sizes : one_shl (cp_hashLog cPar) = 2 ^ cp_hashLog cPar /\ size_t (one_shl (cp_hashLog cPar) * sizeof_U32) = hash_bytes cPar /\
  size_t ((if has_chain cPar row then one_shl (cp_chainLog cPar) else 0) * sizeof_U32) = chain_bytes cPar row /\
  (let log3 := if cp_minMatch cPar =? 3 then Z.min ZSTD_HASHLOG3_MAX (cp_windowLog cPar) else 0 in size_t ((if negb (log3 =? 0) then one_shl log3 else 0) * sizeof_U32) = hash3_bytes cPar).
Proof.
  destruct Hcp as [Hw Hc Hh _ _ _ _], Hsz as [S1 S2]. pose proof log_limits as (L1 & L2 & _). pose proof word_size_big. change sizeof_U32 with 4. split; [apply one_shl_value; lia|]. split; [|split].
  - rewrite one_shl_value by lia. apply (size_t_in (hash_bytes cPar)). unfold hash_bytes in *. pose proof (pow2_pos (cp_hashLog cPar)). lia.
  - replace ((if has_chain cPar row then one_shl (cp_chainLog cPar) else 0) * 4) with (chain_bytes cPar row) by (unfold chain_bytes; destruct (has_chain cPar row); [by rewrite one_shl_value by lia|done]).
    apply size_t_in. split; [|done]. unfold chain_bytes. pose proof (pow2_pos (cp_chainLog cPar)). destruct (has_chain cPar row); lia.
  - cbv zeta. rewrite (hash3_size cPar) by lia. apply size_t_in. unfold hash3_bytes. destruct (_ =? 3); [|lia]. pose proof (pow2_range (Z.min ZSTD_HASHLOG3_MAX (cp_windowLog cPar)) 10 17) as Hp. unfold ZSTD_HASHLOG3_MAX in *. lia.
Qed.

Lemma reset_matchState_wins b crp fri : 0 < b -> (if keeps_index fri then b <= idx else idx = ZSTD_WINDOW_START_INDEX) ->
  wins (holds (bare b) (both F (fun ms => keeps_index fri = true -> window_at idx ms)) objs) (ZSTD_reset_matchState D blank cPar mode crp fri ZSTD_resetTarget_CCtx)
    (fun r zc => r = 0 /\ holds (laying (O + costs whole) idx (makes_clean crp) cs) (both F (no_data idx)) (match_fields cPar row ++ objs) zc).
Proof.
  intros Hb Hi. destruct code_sizes as (E1 & E2 & E3 & E4). cbv zeta in E4. unfold ZSTD_reset_matchState. apply wins_see. intros zc0 _. cbn [for_CCtx negb andb]. rewrite andb_false_r.
  eapply wins_bind with (Q := fun c zc => c = has_chain cPar row /\ holds (bare b) (both F (fun ms => keeps_index fri = true -> window_at idx ms)) objs zc); [apply (wins_pure _ _ (has_chain cPar row)); [by apply chain_value|by intros zc Hzc]|].
  intros c. apply wins_split. intros ->. cbv zeta. rewrite E2, E3, E4, E1.
  eapply wins_bind with (Q := fun _ => holds (bare b) (both F (fun ms => keeps_index fri = true -> window_at idx ms)) objs); [apply wins_assert; [by rewrite (proj2 (Z.eqb_neq _ _) Hmode)|by intros zc Hzc]|intros ?].
  apply (index_wins fri b idx); [done|done|]. do 2 (apply (wins_ms _ _ _ (window_at idx)); [done|done|]).
  eapply wins_bind; [by apply invalidate_wins|intros ?; cbv beta]. apply wins_see. intros zc [HX _].
  eapply wins_bind with (Q := fun _ => holds (bare idx) (both F (no_data idx)) objs); [apply wins_assert; [unfold ZSTD_cwksp_reserve_failed; by rewrite (bare_never_failed _ _ _ _ _ _ _ _ _ _ HX)|by intros ? H]|intros ?].
  set (T := O + costs whole). eapply wins_bind with (Q := fun _ => holds (laying T idx false whole) (both F (no_data idx)) objs).
  { apply (wins_workspace _ _ (fun _ => laying T idx false whole)); [by apply apart_both|]. intros zc' [HX' _]. exists (ws zc'), (mem zc'), tt. unfold on_ws, no_result.
    rewrite (bare_clear_tables D extra st en O dur _ _ _ _ HX'). split; [by destruct zc'|]. by apply bare_laying; [| |apply Hord..|]. }
  intros ?. apply (wins_ms_reserve (ReserveTable (hash_bytes cPar)) (fun zc => hashTable (matchState zc)) (fun t ms => ms <| hashTable := t |>)); [done..|by split|done|intros t1].
  apply (wins_ms_reserve (ReserveTable (chain_bytes cPar row)) (fun zc => chainTable (matchState zc)) (fun t ms => ms <| chainTable := t |>)); [done..|untouched|split; [done|untouched]|done|intros t2].
  apply (wins_ms_reserve (ReserveTable (hash3_bytes cPar)) (fun zc => hashTable3 (matchState zc)) (fun t ms => ms <| hashTable3 := t |>)); [done..|untouched|split; [done|untouched]|done|intros t3].
  apply wins_see. intros zc3 [HX3 _]. unfold ZSTD_cwksp_reserve_failed. rewrite (laying_never_failed _ _ _ _ _ _ _ _ _ _ _ _ _ HX3). cbn [creject_if].
  set (dn3 := table_fields cPar row ++ objs). set (rest := when row [ReserveInitOnce (2 ^ cp_hashLog cPar)] ++ when (opt_on cPar) opt_plan ++ cs).
  assert (forall w m zc, slots (zc <| ws := w |> <| mem := m |>) dn3 = slots zc dn3) as Hdn3 by (subst dn3; untouched).
  eapply wins_bind with (Q := fun _ => holds (laying T idx false rest) (both F (no_data idx)) dn3); [by apply wins_ret|intros ?].
  eapply wins_bind with (Q := fun _ => holds (laying T idx (makes_clean crp) rest) (both F (no_data idx)) dn3).
  { destruct crp; [by apply wins_clean_tables, apart_both|by apply wins_ret]. }
  intros ?. rewrite rowUsed_value by done. eapply wins_bind with (Q := fun r zc => r = row /\ holds (laying T idx (makes_clean crp) rest) (both F (no_data idx)) dn3 zc); [by apply (wins_pure _ _ row)|].
  intros r. apply wins_split. intros ->. set (rest2 := when (opt_on cPar) opt_plan ++ cs). set (dn4 := when row (tag_fields cPar) ++ dn3).
  assert (forall w m zc, slots (zc <| ws := w |> <| mem := m |>) dn4 = slots zc dn4) as Hdn4 by (subst dn4 dn3; untouched).
  eapply wins_bind with (Q := fun _ => holds (laying T idx (makes_clean crp) rest2) (both F (no_data idx)) dn4).
  { subst rest dn4. destruct row; cbn [when app]; [|by apply wins_ret]. apply tags_wins; [done|done|subst dn3; untouched..]. }
  intros ?. fold (opt_on cPar). eapply wins_bind with (Q := fun _ => holds (laying T idx (makes_clean crp) cs) (both F (no_data idx)) (match_fields cPar row ++ objs)).
  { unfold match_fields. rewrite <- !app_assoc. fold dn3. fold dn4. subst rest2. destruct (opt_on cPar); cbn [when app]; [|by apply wins_ret]. apply opt_space_wins; [done|subst dn4 dn3; untouched]. }
  intros ?. apply (wins_ms _ _ _ (no_data idx)); [unfold match_fields; untouched|done|]. apply wins_see. intros zc5 [HX5 _]. unfold ZSTD_cwksp_reserve_failed. rewrite (laying_never_failed _ _ _ _ _ _ _ _ _ _ _ _ _ HX5). cbn [creject_if].
  eapply wins_bind with (Q := fun _ => holds (laying T idx (makes_clean crp) cs) (both F (no_data idx)) (match_fields cPar row ++ objs)); [by apply wins_ret|intros ?]. by apply wins_ret.
Qed.
End Whole.
End Steps.
End Match.
