(* ===== verification/CCtxStores.v ===== *)
(** * The stores and buffers of a context

    The second half of the reservations of [ZSTD_resetCCtx_internal], and what a context is when they are made. *)
From S2P Require Import Prelude Mem Errors Bits Frame FrameWalk SeqTable SeqStore ExecSeq Xxh64 CParams RecordUpdate Calls CCtxParams Cwksp CwkspArena CwkspClient CCtxSize CCtxReset CCtxPlan CCtxLayout CCtxMatch.

Section Stores.
Context `{P : Platform} (D blank : Z) (extra : list allocation) (st en O dur : Z) (params : ZSTD_CCtx_params) (mode : Z) (blockSize inSize outSize : Z) (zbuff : ZSTD_buffered_policy_e) (sizeof_compressedBlockState : Z).
Local Notation cPar := (cParams params).
Local Notation ldm := (ldmParams params).
Local Notation row := (row_on cPar mode).
Local Notation ext := (ZSTD_hasExtSeqProd params).
Local Notation nbSeq := (nbSeq cPar ext blockSize).
Local Notation nbLdm := (nbLdm ldm blockSize).
Local Notation laying := (laying D extra st en O dur).

(** What a new frame has set. *)
Definition core zc := (stage zc, appliedParams zc, (dictID zc, dictContentSize zc), blockSizeMax zc, (pledgedSrcSizePlusOne zc, consumedSrcSize zc, producedCSize zc), xxhState zc,
  (staticSize zc, isFirstBlock zc), prevBlockState zc, tmpWkspSize zc).

Definition ldm_fields : list slot := [(ldmSequences, ReserveAligned64 (nbLdm * 12)); (fun zc => ldm_hashTable (ldmState zc), ReserveAligned64 (ldm_bytes ldm))].
Definition ext_fields : list slot := [(extSeqBuf, ReserveAligned64 (ext_bytes blockSize))].
Definition bucket_fields : list slot := [(fun zc => bucketOffsets (ldmState zc), ReserveBuffer (ldm_buckets ldm))].
Definition buffer_fields : list slot := [(outBuff, ReserveBuffer outSize); (inBuff, ReserveBuffer inSize); (fun zc => litStart (seqStore zc), ReserveBuffer (blockSize + 32))].
Definition code_fields : list slot :=
  [(fun zc => ofCode (seqStore zc), ReserveBuffer nbSeq); (fun zc => mlCode (seqStore zc), ReserveBuffer nbSeq); (fun zc => llCode (seqStore zc), ReserveBuffer nbSeq)].

Definition store_fields : list slot :=
  code_fields ++ when (ldm_on ldm) bucket_fields ++ buffer_fields ++ when ext ext_fields ++ when (ldm_on ldm) ldm_fields ++ [(fun zc => sequencesStart (seqStore zc), ReserveAligned64 (nbSeq * 8))].

(** The capacities that go with them. *)
Definition capacities zc : Prop :=
  maxNbSeq (seqStore zc) = nbSeq /\ maxNbLit (seqStore zc) = blockSize /\ inBuffSize zc = inSize /\ outBuffSize zc = outSize /\ bufferedPolicy zc = zbuff /\
  (ext = true -> extSeqBufCapacity zc = ZSTD_sequenceBound blockSize) /\ (ldm_on ldm = true -> maxNbLdmSequences zc = nbLdm).

Context (z0 : ZSTD_CCtx) (idx T b : Z) (valid : bool).
Local Notation dn0 := (match_fields cPar row ++ object_fields sizeof_compressedBlockState).
Local Notation known := (fun zc => core zc = core z0 /\ no_data idx (matchState zc)).

(** A reservation after the match finder's, stored by [set]. *)
Lemma store_wins {B} c f set (F F' : ZSTD_CCtx -> Prop) dn cs (k : Z -> unit -> call B) Q : after_objects c = true -> is_table c = false -> apart F dn ->
  (forall t zc, ws (set t zc) = ws zc /\ mem (set t zc) = mem zc /\ f (set t zc) = t) -> (forall t zc, slots (set t zc) dn = slots zc dn) -> (forall t zc, F zc -> F' (set t zc)) ->
  (forall t, wins (holds (laying T b valid cs) F' ((f, c) :: dn)) (k t tt) Q) ->
  wins (holds (laying T b valid (c :: cs)) F dn) (cbind (op D c) (fun t => cbind (cmodify (set t)) (k t))) Q.
Proof.
  intros Hc Ht Hap Hset Hsl HF Hk. apply (wins_reserve D extra st en O dur c f set T b valid F (fun _ => F')); try done. intros t zc. destruct (Hset t zc) as (? & ? & ?). by split_and!.
Qed.

Ltac apart := intros ? ? ?; split; [unfold match_fields, table_fields, object_fields in *; untouched|by intros ?].
Ltac fields := unfold match_fields, table_fields, object_fields, ldm_fields, ext_fields, bucket_fields, buffer_fields, code_fields in *; untouched.

(** An assignment, a reservation, and a part that is left out for some parameters. *)
Ltac assign f F' := apply (wins_assign f _ _ F'); [intros ?; split_and!; [done|done|fields]|by intros ? H|].
Ltac reserve c f set F' := apply (store_wins c f set _ F'); [done|done|apart|done|fields|by intros ? ? H|intros ?].

Local Notation dn1 := ((fun zc => sequencesStart (seqStore zc), ReserveAligned64 (nbSeq * 8)) :: dn0).

Lemma ldm_tables_wins cs : size_t (one_shl (ldm_hashLog ldm) * sizeof_ldmEntry_t) = ldm_bytes ldm -> 0 < ldm_bytes ldm -> 0 <= nbLdm * 12 < word_size ->
  wins (holds (laying T b valid (ReserveAligned64 (ldm_bytes ldm) :: ReserveAligned64 (nbLdm * 12) :: cs)) known dn1) (reserve_ldm_tables D blank params nbLdm)
    (fun _ => holds (laying T b valid cs) (fun zc => known zc /\ maxNbLdmSequences zc = nbLdm) (ldm_fields ++ dn1)).
Proof.
  intros E Hb Hn. unfold reserve_ldm_tables. cbv zeta. rewrite E. change sizeof_rawSeq with 12. rewrite size_t_in by lia.
  apply (wins_reserve D extra st en O dur (ReserveAligned64 (ldm_bytes ldm)) (fun zc => ldm_hashTable (ldmState zc)) (fun t zc => zc <| ldmState ::= fun l => l <| ldm_hashTable := t |> |>) T b valid _
    (fun t zc => known zc /\ ldm_hashTable (ldmState zc) = t)); [done|done|apart|intros t zc; split_and!; [done..|fields]|by intros t zc H|].
  intros t. eapply wins_bind; [apply (wins_memset0 D extra st en O dur T b valid _ _ _ t _ (ReserveAligned64 (ldm_bytes ldm))); try done; [apart|intros zc [_ <-]; by left]|intros ?].
  apply (store_wins (ReserveAligned64 (nbLdm * 12)) ldmSequences (fun t zc => zc <| ldmSequences := t |>) _ known); [done|done|apart|done|fields|by intros t' zc [H _]|intros t'].
  assign (fun zc => zc <| maxNbLdmSequences := nbLdm |>) (fun zc => known zc /\ maxNbLdmSequences zc = nbLdm).
  assign (fun zc => zc <| ldmState ::= fun l => l <| ldm_window := ZSTD_window_init blank |> |>) (fun zc => known zc /\ maxNbLdmSequences zc = nbLdm).
  apply (wins_ext _ (cbind (on_ldm (fun l => l <| ldm_loadedDictEnd := 0 |>)) (fun _ => cret tt))); [done|].
  assign (fun zc => zc <| ldmState ::= fun l => l <| ldm_loadedDictEnd := 0 |> |>) (fun zc => known zc /\ maxNbLdmSequences zc = nbLdm). by apply wins_ret.
Qed.

Local Notation known1 := (fun zc => known zc /\ (ldm_on ldm = true -> maxNbLdmSequences zc = nbLdm)).
Local Notation known2 := (fun zc => known1 zc /\ (ext = true -> extSeqBufCapacity zc = ZSTD_sequenceBound blockSize)).
Local Notation dn2 := (when (ldm_on ldm) ldm_fields ++ dn1).
Local Notation dn3 := (when ext ext_fields ++ dn2).

Lemma ext_wins cs : size_t (ZSTD_sequenceBound blockSize * sizeof_Sequence) = ext_bytes blockSize ->
  wins (holds (laying T b valid (when ext [ReserveAligned64 (ext_bytes blockSize)] ++ cs)) known1 dn2)
    (if ext then cbind (cmodify (fun zc => zc <| extSeqBufCapacity := ZSTD_sequenceBound blockSize |>)) (fun _ => cbind (on_ws (fun w => ZSTD_cwksp_reserve_aligned64 D w (size_t (ZSTD_sequenceBound blockSize * sizeof_Sequence)))) (fun t => cmodify (fun zc => zc <| extSeqBuf := t |>))) else cret tt)
    (fun _ => holds (laying T b valid cs) known2 dn3).
Proof.
  intros E. destruct ext; cbn [when app]; [|apply wins_ret; by intros zc [HX H]]. rewrite E. assign (fun zc => zc <| extSeqBufCapacity := ZSTD_sequenceBound blockSize |>) (fun zc => known1 zc /\ (true = true -> extSeqBufCapacity zc = ZSTD_sequenceBound blockSize)).
  apply (wins_ext _ (cbind (op D (ReserveAligned64 (ext_bytes blockSize))) (fun t => cbind (cmodify (fun zc => zc <| extSeqBuf := t |>)) (fun _ => cret tt)))); [done|].
  reserve (ReserveAligned64 (ext_bytes blockSize)) extSeqBuf (fun t zc => zc <| extSeqBuf := t |>) (fun zc => known1 zc /\ (true = true -> extSeqBufCapacity zc = ZSTD_sequenceBound blockSize)). by apply wins_ret.
Qed.

Local Notation known5 := (fun zc => ((known2 zc /\ maxNbLit (seqStore zc) = blockSize) /\ bufferedPolicy zc = zbuff /\ inBuffSize zc = inSize) /\ outBuffSize zc = outSize).
Local Notation dn4 := (buffer_fields ++ dn3).
Local Notation dn5 := (when (ldm_on ldm) bucket_fields ++ dn4).

Lemma buckets_wins cs : one_shl (ldm_hashLog ldm - bucketSizeLog ldm) = ldm_buckets ldm -> 0 < ldm_buckets ldm ->
  wins (holds (laying T b valid (ReserveBuffer (ldm_buckets ldm) :: cs)) known5 dn4) (reserve_ldm_buckets D params) (fun _ => holds (laying T b valid cs) known5 (bucket_fields ++ dn4)).
Proof.
  intros E Hb. unfold reserve_ldm_buckets. cbv zeta. rewrite E.
  apply (wins_reserve D extra st en O dur (ReserveBuffer (ldm_buckets ldm)) (fun zc => bucketOffsets (ldmState zc)) (fun t zc => zc <| ldmState ::= fun l => l <| bucketOffsets := t |> |>) T b valid _
    (fun t zc => known5 zc /\ bucketOffsets (ldmState zc) = t)); [done|done|apart|intros t zc; split_and!; [done..|fields]|by intros t zc H|].
  intros t. eapply wins_weaken; [apply (wins_memset0 D extra st en O dur T b valid cs (fun zc => known5 zc /\ bucketOffsets (ldmState zc) = t) (bucket_fields ++ dn4) t (ldm_buckets ldm) (ReserveBuffer (ldm_buckets ldm))); try done; [apart|intros zc [_ <-]; by left]|done|].
  intros ? zc [HX [H _]]. by split.
Qed.

Lemma buckets_when q cs : (q = true -> one_shl (ldm_hashLog ldm - bucketSizeLog ldm) = ldm_buckets ldm /\ 0 < ldm_buckets ldm) ->
  wins (holds (laying T b valid (when q [ReserveBuffer (ldm_buckets ldm)] ++ cs)) known5 dn4) (if q then reserve_ldm_buckets D params else cret tt) (fun _ => holds (laying T b valid cs) known5 (when q bucket_fields ++ dn4)).
Proof. intros Hq. destruct q; [by apply buckets_wins; apply Hq|by apply wins_ret]. Qed.

Lemma reserve_stores_wins : stage z0 = ZSTDcs_init -> nbSeq * 8 < word_size -> size_t (ZSTD_sequenceBound blockSize * sizeof_Sequence) = ext_bytes blockSize -> 0 <= nbLdm * 12 < word_size ->
  (ldm_on ldm = true -> size_t (one_shl (ldm_hashLog ldm) * sizeof_ldmEntry_t) = ldm_bytes ldm /\ 0 < ldm_bytes ldm /\ one_shl (ldm_hashLog ldm - bucketSizeLog ldm) = ldm_buckets ldm /\ 0 < ldm_buckets ldm) ->
  wins (holds (laying T b valid (rest_plan cPar ldm ext blockSize inSize outSize)) known dn0) (reserve_stores D blank params blockSize nbSeq nbLdm inSize outSize zbuff)
    (fun _ => holds (laying T b valid []) (fun zc => known zc /\ capacities zc) (store_fields ++ dn0)).
Proof.
  intros Hst _ Hext Hn Hl. unfold reserve_stores, rest_plan, store_fields. fold (ldm_on ldm). change sizeof_SeqDef with 8. change WILDCOPY_OVERLENGTH with 32.
  reserve (ReserveAligned64 (nbSeq * 8)) (fun zc => sequencesStart (seqStore zc)) (fun t zc => zc <| seqStore ::= fun s => s <| sequencesStart := t |> |>) constr:(known).
  match goal with |- context [when ext _ ++ ?l] => set (rest := l) end.
  eapply wins_bind with (Q := fun _ => holds (laying T b valid (when ext [ReserveAligned64 (ext_bytes blockSize)] ++ rest)) known1 dn2).
  { destruct (ldm_on ldm) eqn:El; cbn [when app]; [|apply wins_ret; by intros zc [HX H]]. destruct (Hl eq_refl) as (L1 & L2 & _).
    eapply wins_weaken; [by apply ldm_tables_wins|done|]. by intros ? zc [HX [H1 H2]]. }
  intros ?. eapply wins_bind; [by apply ext_wins|intros ?; cbv beta]. subst rest.
  reserve (ReserveBuffer (blockSize + 32)) (fun zc => litStart (seqStore zc)) (fun t zc => zc <| seqStore ::= fun s => s <| litStart := t |> <| maxNbLit := blockSize |> |>) (fun zc => known2 zc /\ maxNbLit (seqStore zc) = blockSize).
  assign (fun zc => zc <| bufferedPolicy := zbuff |> <| inBuffSize := inSize |>) (fun zc => (known2 zc /\ maxNbLit (seqStore zc) = blockSize) /\ bufferedPolicy zc = zbuff /\ inBuffSize zc = inSize).
  reserve (ReserveBuffer inSize) inBuff (fun t zc => zc <| inBuff := t |> <| outBuffSize := outSize |>) constr:(known5).
  reserve (ReserveBuffer outSize) outBuff (fun t zc => zc <| outBuff := t |>) constr:(known5).
  eapply wins_bind; [apply buckets_when; by intros E; destruct (Hl E) as (_ & _ & ?)|intros ?; cbv beta].
  eapply wins_bind with (Q := fun _ => holds (laying T b valid [ReserveBuffer nbSeq; ReserveBuffer nbSeq; ReserveBuffer nbSeq]) known5 dn5).
  { unfold ZSTD_referenceExternalSequences. apply wins_see. intros zc1 [_ [[[[[[Hc _] _] _] _] _] _]]. rewrite bool_decide_eq_true_2 by (unfold core in Hc; congruence). cbn [cassert Z.eqb orb].
    do 2 (eapply wins_bind with (Q := fun _ => holds (laying T b valid [ReserveBuffer nbSeq; ReserveBuffer nbSeq; ReserveBuffer nbSeq]) known5 dn5); [by apply wins_ret|intros ?]).
    apply (wins_ext _ (cbind (cmodify (fun zc => zc <| externSeqStore := {| es_seq := NULL; es_size := 0; es_capacity := 0; es_pos := 0; es_posInSequence := 0 |} |>)) (fun _ => cret tt))); [done|].
    assign (fun zc => zc <| externSeqStore := {| es_seq := NULL; es_size := 0; es_capacity := 0; es_pos := 0; es_posInSequence := 0 |} |>) constr:(known5). by apply wins_ret. }
  intros ?. assign (fun zc => zc <| seqStore ::= fun s => s <| maxNbSeq := nbSeq |> |>) (fun zc => known5 zc /\ maxNbSeq (seqStore zc) = nbSeq).
  reserve (ReserveBuffer nbSeq) (fun zc => llCode (seqStore zc)) (fun t zc => zc <| seqStore ::= fun s => s <| llCode := t |> |>) (fun zc => known5 zc /\ maxNbSeq (seqStore zc) = nbSeq).
  reserve (ReserveBuffer nbSeq) (fun zc => mlCode (seqStore zc)) (fun t zc => zc <| seqStore ::= fun s => s <| mlCode := t |> |>) (fun zc => known5 zc /\ maxNbSeq (seqStore zc) = nbSeq).
  apply (wins_ext _ (cbind (op D (ReserveBuffer nbSeq)) (fun t => cbind (on_seqStore (fun s => s <| ofCode := t |>)) (fun _ => cret tt)))); [done|].
  reserve (ReserveBuffer nbSeq) (fun zc => ofCode (seqStore zc)) (fun t zc => zc <| seqStore ::= fun s => s <| ofCode := t |> |>) (fun zc => known5 zc /\ maxNbSeq (seqStore zc) = nbSeq).
  apply wins_ret. intros zc [HX H]. split; [|unfold capacities; tauto]. unfold code_fields. rewrite <- !app_assoc. exact HX.
Qed.
End Stores.
