(* ===== verification/CCtxUsable.v ===== *)
(** * A context can be reset again and again

    What holds of a context between two resets ([usable]), and the theorem that [ZSTD_resetCCtx_internal] keeps it:
    the workspace is replaced when it must be, every reservation succeeds, and the blocks are where
    [CCtxLayout] put them. *)
From S2P Require Import Prelude Mem Errors Bits Frame FrameWalk SeqTable SeqStore ExecSeq Xxh64 CParams RecordUpdate Calls CCtxParams Cwksp CwkspArena CwkspClient CCtxSize CCtxReset CCtxPlan CCtxLayout CCtxMatch CCtxStores.

(** ** The parameters of a reset *)

(** Valid, and with every choice made. *)
Record reset_params_ok `{P : Platform} (p : ZSTD_CCtx_params) : Prop := {
  rp_params : params_ok p;
  rp_cParams : cparams_ok (cParams p);
  rp_row : useRowMatchFinder p <> ZSTD_ps_auto;
  rp_split : postBlockSplitter p <> ZSTD_ps_auto;
  rp_ldm : enableLdm (ldmParams p) <> ZSTD_ps_auto;
  rp_block : maxBlockSize p <> 0
}.

(** With the parameters of long distance matching filled in. *)
Definition with_ldm `{P : Platform} (p : ZSTD_CCtx_params) : ZSTD_CCtx_params :=
  if enableLdm (ldmParams p) =? ZSTD_ps_enable then
    match ZSTD_ldm_adjustParameters (ldmParams p) (cParams p) with Ok l => p <| ldmParams := l |> | _ => p end
  else p.

Lemma ldm_adjust_ok `{P : Platform} p : params_ok p -> cparams_ok (cParams p) ->
  exists l, ZSTD_ldm_adjustParameters (ldmParams p) (cParams p) = Ok l /\ enableLdm l = enableLdm (ldmParams p) /\ 6 <= ldm_hashLog l <= 30 /\ 0 <= bucketSizeLog l <= ldm_hashLog l /\ 1 <= minMatchLength l /\ hashRateLog l < 32.
Proof.
  intros [] []. destruct (ldmParams p) as [en hl bl mm hr wl]. cbn [enableLdm ldm_hashLog bucketSizeLog minMatchLength hashRateLog] in *. unfold ZSTD_ldm_adjustParameters. pose proof log_limits as (L1 & L2 & L3).
  set (wlog := cp_windowLog (cParams p)) in *. set (strat := cp_strategy (cParams p)) in *. cbn [update enableLdm ldm_hashLog bucketSizeLog minMatchLength hashRateLog ldm_windowLog]. unfold unset_or in *.
  assert (exists r, (if hr =? 0 then if 0 <? hl then oassert (hl <=? ZSTD_HASHLOG_MAX);;; Ok (if hl <? wlog then Build_ldmParams_t en hl bl mm (u32 (wlog - hl)) wlog else Build_ldmParams_t en hl bl mm hr wlog)
    else oassert ((1 <=? strat) && (strat <=? 9));;; Ok (Build_ldmParams_t en hl bl mm (7 - strat / 3) wlog) else Ok (Build_ldmParams_t en hl bl mm hr wlog)) = Ok (Build_ldmParams_t en hl bl mm r wlog) /\ r < 32) as (r & -> & Hr).
  { destruct (Z.eqb_spec hr 0) as [->|]; [|by eexists; split; [done|lia]]. destruct (Z.ltb_spec 0 hl).
    - rewrite (proj2 (Z.leb_le _ _)) by lia. cbn [oassert obind]. destruct (Z.ltb_spec hl wlog); eexists; (split; [reflexivity|]); [rewrite wrap_small|]; lia.
    - rewrite !(proj2 (Z.leb_le _ _)) by lia. cbn [andb oassert obind]. eexists. split; [reflexivity|]. pose proof (Z.div_pos strat 3). lia. }
  cbn [obind update enableLdm ldm_hashLog bucketSizeLog minMatchLength hashRateLog ldm_windowLog].
  assert (6 <= (if hl =? 0 then BOUNDED ZSTD_HASHLOG_MIN (u32 (wlog - r)) ZSTD_HASHLOG_MAX else hl) <= 30) as Hh. { destruct (Z.eqb_spec hl 0); [|lia]. unfold BOUNDED, ZSTD_HASHLOG_MIN. lia. }
  set (h := if hl =? 0 then BOUNDED ZSTD_HASHLOG_MIN (u32 (wlog - r)) ZSTD_HASHLOG_MAX else hl) in *. set (m := if mm =? 0 then if ZSTD_btultra <=? strat then LDM_MIN_MATCH_LENGTH / 2 else LDM_MIN_MATCH_LENGTH else mm).
  assert (1 <= m) as Hm by (subst m; destruct (Z.eqb_spec mm 0); [destruct (_ <=? _); by vm_compute|lia]).
  match goal with |- context [if hl =? 0 then ?x else ?y] => replace (if hl =? 0 then x else y) with (Build_ldmParams_t en h bl mm r wlog) by (subst h; by destruct (hl =? 0)) end. cbn [minMatchLength].
  match goal with |- context [if mm =? 0 then ?x else ?y] => replace (if mm =? 0 then x else y) with (Build_ldmParams_t en h bl m r wlog) by (subst m; by destruct (mm =? 0)) end. cbn [bucketSizeLog].
  rewrite !(proj2 (Z.leb_le _ _)) by lia. cbn [andb oassert obind]. destruct (Z.eqb_spec bl 0); cbn [obind]; (eexists; split; [reflexivity|]); cbn [update enableLdm ldm_hashLog bucketSizeLog minMatchLength hashRateLog]; (split; [done|]);
    unfold BOUNDED, LDM_BUCKET_SIZE_LOG, ZSTD_LDM_BUCKETSIZELOG_MAX; lia.
Qed.

(** The sizes of a frame. *)
Section Sizes.
Context `{P : Platform} (p : ZSTD_CCtx_params) (pledged : Z) (zbuff : ZSTD_buffered_policy_e).

Definition frame_window : Z := Z.max 1 (Z.min (2 ^ cp_windowLog (cParams p)) pledged).
Definition frame_block : Z := Z.min (maxBlockSize p) frame_window.
Definition frame_in : Z := if bool_decide (zbuff = ZSTDb_buffered) && (inBufferMode p =? ZSTD_bm_buffered) then frame_window + frame_block else 0.
Definition frame_out : Z := if bool_decide (zbuff = ZSTDb_buffered) && (outBufferMode p =? ZSTD_bm_buffered) then bound_val frame_block + 1 else 0.

Definition frame_plan : list command :=
  plan (cParams p) (ldmParams p) (row_on (cParams p) (useRowMatchFinder p)) (ZSTD_hasExtSeqProd p) frame_block frame_in frame_out.

Definition frame_fields (B : Z) : list slot :=
  store_fields p frame_block frame_in frame_out ++ match_fields (cParams p) (row_on (cParams p) (useRowMatchFinder p)) ++ object_fields B.
End Sizes.

Section Usable.
(** [self] is the address of a context that lies in its own workspace. *)
Context `{P : Platform} (D sizeof_CCtx sizeof_compressedBlockState blank : Z) (malloc : Z -> Z) (self : Z).
Local Notation B := sizeof_compressedBlockState.
Context (HB : 64 <= B < 2 ^ 24 /\ B mod 8 = 0) (HC : 0 < sizeof_CCtx < 2 ^ 24).

(** Memory that [malloc] gives can hold pointers and does not wrap around. *)
Definition malloc_ok : Prop := forall n, malloc n <> NULL -> 0 < malloc n /\ malloc n mod sizeof_ptr = 0 /\ malloc n + n < word_size.

Definition is_static zc : bool := negb (staticSize zc =? 0).
Definition own (static : bool) : list allocation := if static then [{| al_kind := Object; al_ptr := self; al_size := sizeof_CCtx; al_align := sizeof_ptr |}] else [].
Definition total_objects (static : bool) : Z := objects_cost sizeof_CCtx B static.

Definition index_of zc : Z := w_nextSrc (ms_window (matchState zc)) - w_base (ms_window (matchState zc)).

(** The workspace holds the objects of the context; values in valid tables are below the indices in use; a static workspace is never found oversized. *)
Definition settled zc : Prop := exists live b,
  let w := ws zc in
  housed D (own (is_static zc)) (workspace w) (workspaceEnd w) (total_objects (is_static zc)) (workspaceOversizedDuration w) b live w (mem zc) (slots zc (object_fields B)) /\ 0 < b /\
  (initialized zc = true -> b <= index_of zc < word_size) /\ (is_static zc = true -> workspaceOversizedDuration w = 0).

(** Before the first reset, or after a failed allocation. *)
Definition empty zc : Prop := is_static zc = false /\ exists d, ws zc = set_workspaceOversizedDuration d zero_cwksp.

Definition usable zc : Prop := empty zc \/ settled zc.

Lemma arena_duration A d : arena_ok D A -> arena_ok D (with_ws (set_workspaceOversizedDuration d (ar_ws A)) A).
Proof. intros [[] Hpl Hd Ho Hb Hi Ht Hpos]. by constructor. Qed.

(** ** A new workspace *)

Lemma objects_value static : 0 <= total_objects static < 2 ^ 26 /\ total_objects false = B + B + TMP_WORKSPACE_SIZE.
Proof. unfold total_objects, objects_cost. assert (TMP_WORKSPACE_SIZE = 8920) as -> by reflexivity. destruct static; lia. Qed.

Lemma object_step A S R n : account D A S R -> phase (ar_ws A) = ZSTD_cwksp_alloc_objects -> 0 < n <= R -> n < 2 ^ 31 -> n mod sizeof_ptr = 0 ->
  exists p w, ZSTD_cwksp_reserve_object D (ar_ws A) n = Ok (p, w) /\ p <> NULL /\ account D (got Object p n sizeof_ptr A w (ar_mem A)) (S + n) (R - n) /\ phase w = ZSTD_cwksp_alloc_objects /\
    workspace w = workspace (ar_ws A) /\ workspaceEnd w = workspaceEnd (ar_ws A) /\ workspaceOversizedDuration w = workspaceOversizedDuration (ar_ws A).
Proof.
  intros HS Hp Hn Hn31 Hm. pose proof (acc_ok _ _ _ _ HS) as HA. destruct (acc_objects _ _ _ _ HS Hp) as [H1 H2]. destruct (arena_facts D A HA) as (F1 & F2 & F3).
  pose proof (reserve_object_spec D A n HA ltac:(lia) Hm) as E. cbv zeta in E. rewrite bool_decide_eq_true_2, (proj2 (Z.leb_le _ _)) in E by (done || lia). cbn [andb] in E.
  destruct (account_run D A S R (ReserveObject n) [] HS) as (A' & E' & HS' & _); [cbn [ordered]; rewrite Hp; by split_and!; try lia|cbn [cost]; lia|].
  cbn [run] in E'. rewrite E in E'. cbn [obind] in E'. injection E' as <-. eexists _, _. split; [exact E|]. split; [unfold NULL; lia|]. by split.
Qed.

Lemma mod8_B : B mod sizeof_ptr = 0 /\ TMP_WORKSPACE_SIZE mod sizeof_ptr = 0.
Proof. split; apply (mod8_ptr sizeof_CCtx B); [apply HB|done]. Qed.

(** The context when its workspace has been replaced, with its objects in place. *)
Definition rehoused zc zc' : Prop := exists p1 p2 p3 w,
  zc' = zc <| ws := w |> <| mem := fun _ => None |> <| prevCBlock := p1 |> <| nextCBlock := p2 |> <| tmpWorkspace := p3 |> <| tmpWkspSize := TMP_WORKSPACE_SIZE |> /\
  p1 <> NULL /\ p2 <> NULL /\ p3 <> NULL /\ exists live,
    housed D [] (workspace w) (workspaceEnd w) (total_objects false) 0 1 live w (fun _ => None) [(p3, ReserveObject TMP_WORKSPACE_SIZE); (p2, ReserveObject B); (p1, ReserveObject B)].

Lemma bind_on_ws {X Y} (f : ZSTD_cwksp -> res (X * ZSTD_cwksp)) (k : X -> call Y) zc a w : f (ws zc) = Ok (a, w) -> cbind (on_ws f) k zc = k a (zc <| ws := w |>).
Proof. intros E. unfold cbind, on_ws. by rewrite E. Qed.

Lemma replace_ends needed zc : malloc_ok -> is_static zc = false -> total_objects false + 128 <= needed ->
  ends (eq zc) (replace_workspace D B malloc needed) (fun _ zc' => rehoused zc zc' /\ workspaceEnd (ws zc') - workspace (ws zc') = needed)
    (fun e zc' => e = ZSTD_error_memory_allocation /\ malloc needed = NULL /\ zc' = zc <| ws := zero_cwksp |> <| mem := fun _ => None |>).
Proof.
  intros Hm Hst Hn zc0 <-. unfold replace_workspace. unfold cbind at 1, cget. unfold is_static in Hst. rewrite Hst. cbn [creject_if]. unfold cbind at 1, cret. rewrite bind_modify.
  cbn [ZSTD_cwksp_free fst]. destruct (Z.eqb_spec (malloc needed) NULL) as [E0|E0].
  { unfold cbind at 1, on_ws, no_result, ZSTD_cwksp_create. rewrite E0. eexists _, (inl _). split; [reflexivity|]. done. }
  destruct (Hm _ E0) as (M1 & M2 & M3). destruct (objects_value false) as [O1 O2]. pose proof (Z.mod_pos_bound (malloc needed + needed) 64 ltac:(lia)). destruct mod8_B as [B1 B2]. assert (TMP_WORKSPACE_SIZE = 8920) as ET by reflexivity.
  assert (start_ok D (malloc needed) needed) as Hs by (repeat split; try done; lia). set (start := malloc needed) in *. set (w0 := fresh start needed ZSTD_cwksp_dynamic_alloc).
  rewrite (bind_on_ws _ _ _ tt w0) by (unfold no_result, ZSTD_cwksp_create; fold start; rewrite (proj2 (Z.eqb_neq _ _) E0); cbn [reject_if obind]; by rewrite (init_spec D _ _ _ _ Hs)).
  unfold cbind at 1, cget. unfold ZSTD_cwksp_check_available, ZSTD_cwksp_available_space. cbn [ws update]. change (allocStart w0 - tableEnd w0) with (start + needed - (start + needed) mod 64 - start). rewrite size_t_in by lia.
  rewrite (proj2 (Z.leb_le _ _)) by lia. cbn [cassert]. unfold cbind at 1, cret.
  assert (account D {| ar_ws := w0; ar_mem := fun _ => None; ar_live := []; ar_bound := 1 |} 0 (total_objects false)) as HS0.
  { constructor; [by apply fresh_arena|done| |done]. intros _. subst w0. unfold fresh. wsimpl. lia. }
  destruct (object_step _ _ _ B HS0) as (p1 & w1 & E1 & N1 & HS1 & K1 & L1); [done|lia|lia|done|]. destruct (object_step _ _ _ B HS1) as (p2 & w2 & E2 & N2 & HS2 & K2 & L2); [done|lia|lia|done|].
  destruct (object_step _ _ _ TMP_WORKSPACE_SIZE HS2) as (p3 & w3 & E3 & N3 & HS3 & K3 & L3); [done|lia|lia|done|]. cbn [ar_ws got] in *.
  rewrite (bind_on_ws _ _ _ p1 w1) by exact E1. rewrite bind_modify. rewrite (proj2 (Z.eqb_neq _ _) N1). unfold cbind at 1, creject_if at 1, cret. rewrite (bind_on_ws _ _ _ p2 w2) by exact E2. rewrite bind_modify.
  rewrite (proj2 (Z.eqb_neq _ _) N2). unfold cbind at 1, creject_if at 1, cret. rewrite (bind_on_ws _ _ _ p3 w3) by exact E3. rewrite bind_modify. rewrite (proj2 (Z.eqb_neq _ _) N3). unfold cbind at 1, creject_if at 1, cret.
  eexists _, (inr tt). split; [reflexivity|]. destruct L1 as (A1 & A2 & A3), L2 as (A4 & A5 & A6), L3 as (A7 & A8 & A9). split; [|cbn [ws update]; rewrite A7, A4, A1, A8, A5, A2; unfold w0, fresh; wsimpl; lia].
  exists p1, p2, p3, w3. split; [reflexivity|]. split_and!; try done. destruct (acc_objects _ _ _ _ HS3 K3) as [Q1 _]. cbn [got ar_ws] in Q1.
  assert (objectEnd w3 = workspace w3 + total_objects false) as Q2 by lia.
  eexists. constructor; [exact (acc_ok _ _ _ _ HS3)|..].
  - rewrite app_nil_r. exact (blocks_objects [(p3, ReserveObject TMP_WORKSPACE_SIZE); (p2, ReserveObject B); (p1, ReserveObject B)] ltac:(by repeat constructor)).
  - split; [done|]. split; [done|]. split; [|by rewrite A9, A6, A3]. unfold base. rewrite bool_decide_eq_true_2 by done. by rewrite Q2.
  - done.
  - repeat constructor; intros E; by destruct (N1 E) || destruct (N2 E) || destruct (N3 E).
Qed.

(** ** The sizes are those of the code *)

Definition demand (static : bool) (p : ZSTD_CCtx_params) (pledged : Z) (zbuff : ZSTD_buffered_policy_e) : Z := total_objects static + costs (frame_plan p pledged zbuff) + 128.

Section Frame.
Context (p : ZSTD_CCtx_params) (pledged : Z) (zbuff : ZSTD_buffered_policy_e) (static : bool).
Context (Hcp : cparams_ok (cParams p)) (Hblk : 1 <= maxBlockSize p <= 2 ^ 17) (Hrow : useRowMatchFinder p <> ZSTD_ps_auto) (Hpl : 0 <= pledged < 2 ^ 64).
Context (Hldm : ldm_on (ldmParams p) = true -> 6 <= ldm_hashLog (ldmParams p) <= 30 /\ 0 <= bucketSizeLog (ldmParams p) <= ldm_hashLog (ldmParams p) /\ 1 <= minMatchLength (ldmParams p)).
Context (Hdem : demand static p pledged zbuff + 120 <= word_size).
Local Notation block := (frame_block p pledged).

Lemma window_range : 1 <= frame_window p pledged <= 2 ^ 31 /\ 1 <= block <= 2 ^ 17 /\ size_t (Z.min (Z.shiftl 1 (cp_windowLog (cParams p))) pledged) = Z.min (2 ^ cp_windowLog (cParams p)) pledged.
Proof.
  pose proof (ok_windowLog _ Hcp). pose proof log_limits as (L1 & _). pose proof (pow2_range (cp_windowLog (cParams p)) 10 31 ltac:(lia) ltac:(lia)).
  pose proof word_size_big. unfold frame_block, frame_window. rewrite Z.shiftl_mul_pow2, Z.mul_1_l by lia. split; [lia|]. split; [lia|]. apply size_t_in. lia.
Qed.

Lemma out_value : ZSTD_compressBound block = Ok (bound_val block) /\ 0 < bound_val block < 2 ^ 18.
Proof.
  destruct window_range as (_ & H & _). destruct (compressBound_val block) as [E [H1 H2]].
  { unfold ZSTD_MAX_INPUT_SIZE. destruct sizeof_size_t_cases as [-> | ->]; cbn [Z.eqb Pos.eqb]; lia. }
  unfold ZSTD_compressBound. rewrite E, (proj2 (Z.eqb_neq _ _)) by lia. split; [done|]. split; [done|]. unfold bound_val.
  pose proof (Z.div_le_upper_bound block 256 512 ltac:(lia) ltac:(lia)). destruct (Z.ltb_spec block 131072); [|lia]. pose proof (Z.div_le_upper_bound (131072 - block) 2048 64 ltac:(lia) ltac:(lia)). lia.
Qed.

Lemma frame_plan_ok : plan_ok (cParams p) (ldmParams p) (row_on (cParams p) (useRowMatchFinder p)) (ZSTD_hasExtSeqProd p) block (frame_in p pledged zbuff) (frame_out p pledged zbuff) (total_objects static).
Proof.
  destruct window_range as (H1 & H2 & _). destruct out_value as [_ H3]. destruct (objects_value static) as [H4 _].
  constructor; try done; [unfold frame_in; destruct (_ && _); lia|unfold frame_out; destruct (_ && _); lia|lia|]. unfold demand, frame_plan in Hdem. lia.
Qed.

Lemma frame_estimate : ZSTD_estimateCCtxSize_usingCCtxParams_internal D sizeof_CCtx B (cParams p) (ldmParams p) static (useRowMatchFinder p) (frame_in p pledged zbuff) (frame_out p pledged zbuff) pledged
  (ZSTD_hasExtSeqProd p) (maxBlockSize p) = Ok (demand static p pledged zbuff).
Proof.
  apply (estimate_value D sizeof_CCtx B (cParams p) (ldmParams p) (useRowMatchFinder p) (ZSTD_hasExtSeqProd p) block (frame_in p pledged zbuff) (frame_out p pledged zbuff) static Hrow frame_plan_ok); try done; lia.
Qed.

(** ** The frame begins *)

Definition begun_params : ZSTD_CCtx_params := if pledged =? ZSTD_CONTENTSIZE_UNKNOWN then p <| fParams := fParams p <| contentSizeFlag := 0 |> |> else p.

Definition first_block_state : ZSTD_blockState_values :=
  {| bs_rep := repStartValue; bs_huf_repeat := false; bs_offcode_repeat := false; bs_matchlength_repeat := false; bs_litlength_repeat := false |}.

Definition frame_core zc : Prop :=
  stage zc = ZSTDcs_init /\ appliedParams zc = begun_params /\ (dictID zc = 0 /\ dictContentSize zc = 0) /\ blockSizeMax zc = block /\
  (pledgedSrcSizePlusOne zc = u64 (pledged + 1) /\ consumedSrcSize zc = 0 /\ producedCSize zc = 0) /\ xxhState zc = XXH64_reset 0 /\ isFirstBlock zc = true /\ prevBlockState zc = first_block_state.

Lemma frame_core_same zc zc' : core zc' = core zc -> frame_core zc -> frame_core zc'.
Proof. unfold core, frame_core. intros [=] (? & ? & (? & ?) & ? & (? & ? & ?) & ? & ? & ?). split_and!; congruence. Qed.

Lemma begin_frame_value zc : prevCBlock zc <> NULL -> appliedParams zc = p -> isFirstBlock zc = true ->
  exists zc', begin_frame p pledged block zc = Ok (zc', inr tt) /\ frame_core zc' /\ ws zc' = ws zc /\ mem zc' = mem zc /\ slots zc' (object_fields B) = slots zc (object_fields B) /\
    ms_window (matchState zc') = ms_window (matchState zc) /\ staticSize zc' = staticSize zc.
Proof.
  intros Hn Ha Hf. unfold begin_frame, on_ms, frame_core, begun_params. rewrite !bind_modify.
  destruct (pledged =? ZSTD_CONTENTSIZE_UNKNOWN); [rewrite bind_modify|unfold cbind at 1, cret]; rewrite bind_modify; unfold ZSTD_reset_compressedBlockState;
    cbn [prevCBlock update]; rewrite (proj2 (Z.eqb_neq _ _) Hn); eexists; (split; [reflexivity|]); cbn [update stage appliedParams]; rewrite ?Ha; by split_and!.
Qed.

(** ** The reservations *)

Lemma bind_inr {X Y} (m : call X) (k : X -> call Y) zc zc' a : m zc = Ok (zc', inr a) -> cbind m k zc = k a zc'.
Proof. intros E. unfold cbind. by rewrite E. Qed.

Local Notation fields := (frame_fields p pledged zbuff B).
Local Notation row := (row_on (cParams p) (useRowMatchFinder p)).
Local Notation ext := (ZSTD_hasExtSeqProd p).

(** Where the blocks of a context are. *)
Record laid_out zc : Prop := {
  lo_served : Forall served_slot (slots zc fields);
  lo_inside : Forall (fun x => workspace (ws zc) <= al_ptr x /\ al_ptr x + al_size x <= workspaceEnd (ws zc) /\ al_ptr x mod al_align x = 0) (blocks (slots zc fields) ++ own static);
  lo_disjoint : ForallOrdPairs disjoint (blocks (slots zc fields) ++ own static)
}.

(** A context that is ready for the first block of a frame. *)
Record begun (crp : ZSTD_compResetPolicy_e) zc : Prop := {
  bg_core : frame_core zc;
  bg_initialized : initialized zc = true;
  bg_data : no_data (index_of zc) (matchState zc);
  bg_layout : laid_out zc;
  bg_capacities : capacities p block (frame_in p pledged zbuff) (frame_out p pledged zbuff) zbuff zc;
  (** An entry of a clean table is below every valid index. *)
  bg_clean : crp = ZSTDcrp_makeClean -> forall x a, In x (blocks (slots zc fields)) -> al_kind x = Table -> al_ptr x <= a < al_ptr x + al_size x -> a mod 4 = 0 ->
    exists v, word (mem zc) a = Some v /\ v < w_lowLimit (ms_window (matchState zc))
}.

Section Run.
Context (zc : ZSTD_CCtx) (st en dur b : Z) (live : list allocation) (crp : ZSTD_compResetPolicy_e) (fri : ZSTD_indexResetPolicy_e).
Context (Hh : housed D (own static) st en (total_objects static) dur b live (ws zc) (mem zc) (slots zc (object_fields B))) (Hb : 0 < b).
Context (Happ : appliedParams zc = p) (Hfirst : isFirstBlock zc = true) (Hstatic : is_static zc = static) (Hidx : if keeps_index fri then b <= index_of zc < 2 ^ 32 else True).
Context (Hroom : demand static p pledged zbuff <= en - st) (Hdur : static = true -> dur = 0).

Definition start_index : Z := if keeps_index fri then index_of zc else ZSTD_WINDOW_START_INDEX.

Lemma prev_not_null : prevCBlock zc <> NULL.
Proof.
  intros E. pose proof (housed_served _ _ _ _ _ _ _ _ _ _ _ Hh) as Hs. rewrite Forall_forall in Hs. specialize (Hs (prevCBlock zc, ReserveObject B)). cbn [served_slot fst snd] in Hs.
  assert (B = 0); [|lia]. apply Hs; [|done]. apply list_elem_of_In. right. right. by left.
Qed.

Lemma run_value : exists w' z2 z3 z4,
  ZSTD_cwksp_clear D (ws zc) = Ok w' /\ begin_frame p pledged block (zc <| ws := w' |>) = Ok (z2, inr tt) /\
  ZSTD_reset_matchState D blank (cParams p) (useRowMatchFinder p) crp fri ZSTD_resetTarget_CCtx z2 = Ok (z3, inr 0) /\
  reserve_stores D blank p block (nbSeq (cParams p) ext block) (nbLdm (ldmParams p) block) (frame_in p pledged zbuff) (frame_out p pledged zbuff) zbuff z3 = Ok (z4, inr tt) /\
  frame_core z2 /\ staticSize z2 = staticSize zc /\
  holds (laying D (own static) st en (total_objects static) dur (demand static p pledged zbuff - 128) start_index (makes_clean crp) [])
    (fun z => (core z = core z2 /\ no_data start_index (matchState z)) /\ capacities p block (frame_in p pledged zbuff) (frame_out p pledged zbuff) zbuff z) fields z4.
Proof.
  destruct (clear_housed _ _ _ _ _ _ _ _ _ _ _ Hh) as (w' & E1 & Hbare). set (z1 := zc <| ws := w' |>).
  destruct (begin_frame_value z1 prev_not_null Happ Hfirst) as (z2 & E2 & Hc2 & W2 & M2 & S2 & N2 & T2).
  pose proof frame_plan_ok as Hplan. destruct (plan_ordered _ _ _ _ _ _ _ _ Hplan) as [Ho0 Ho1]. pose proof (plan_bound _ _ _ _ _ _ _ _ Hplan) as Hpb. destruct (parts _ _ _ _ _ _ _ _ Hplan) as (P1 & P2 & P3 & P4 & P5 & P6 & P7 & P8 & P9).
  destruct (ldm_values sizeof_CCtx B (cParams p) (ldmParams p) (useRowMatchFinder p) ext block _ _ static Hplan) as (_ & _ & V3).
  destruct window_range as (_ & Hblock & _). pose proof word_size_big. destruct (objects_value static) as [Hob _].
  assert (0 <= (if ldm_on (ldmParams p) then up 64 (ldm_bytes (ldmParams p)) + up 64 (nbLdm (ldmParams p) block * 12) + ldm_buckets (ldmParams p) else 0)) as Hlq.
  { pose proof (up_le (ldm_bytes (ldmParams p))). pose proof (up_le (nbLdm (ldmParams p) block * 12)). destruct (ldm_on (ldmParams p)); [specialize (P9 eq_refl)|]; lia. }
  assert (0 <= start_index < 2 ^ 32) as Hsi by (unfold start_index, ZSTD_WINDOW_START_INDEX; destruct (keeps_index fri); lia).
  pose proof (reset_matchState_wins D blank (own static) st en (total_objects static) dur (cParams p) (useRowMatchFinder p) (object_fields B) ltac:(done) ltac:(done) (fun z => core z = core z2) ltac:(done) ltac:(done)
    (rest_plan (cParams p) (ldmParams p) ext block (frame_in p pledged zbuff) (frame_out p pledged zbuff)) start_index Hrow Hcp ltac:(lia) (conj Ho0 Ho1)) as HW.
  assert (total_objects static + costs (frame_plan p pledged zbuff) + 128 <= en - st) as Hroom' by exact Hroom. pose proof (pl_in _ _ _ _ _ _ _ _ Hplan). pose proof (pl_out _ _ _ _ _ _ _ _ Hplan).
  specialize (HW Hroom' ltac:(lia) Hsi b crp fri Hb). destruct (HW ltac:(unfold start_index; destruct (keeps_index fri); [lia|done]) z2) as (z3 & r & E3 & -> & Hz3).
  { split; [rewrite W2, M2, S2; exact Hbare|]. split; [done|]. intros Hk. unfold window_at, start_index. rewrite Hk, N2. done. }
  destruct (reserve_stores_wins D blank (own static) st en (total_objects static) dur p (useRowMatchFinder p) block (frame_in p pledged zbuff) (frame_out p pledged zbuff) zbuff B z2 start_index
    (total_objects static + costs (frame_plan p pledged zbuff)) start_index (makes_clean crp)) with (c := z3) as (z4 & [] & E4 & Hz4).
  - apply Hc2.
  - lia.
  - rewrite sequenceBound_value by lia. apply (size_t_in (ext_bytes block)). lia.
  - lia.
  - intros El. destruct (V3 El) as (_ & V5 & V6). specialize (P9 El). split_and!; try done; lia.
  - exact Hz3.
  - exists w', z2, z3, z4. split; [done|]. split; [done|]. split; [done|]. split; [exact E4|]. split; [done|]. split; [by rewrite T2|]. replace (demand static p pledged zbuff - 128) with (total_objects static + costs (frame_plan p pledged zbuff)) by (unfold demand; lia). exact Hz4.
Qed.

Lemma fields_split z : slots z fields = slots z (store_fields p block (frame_in p pledged zbuff) (frame_out p pledged zbuff) ++ match_fields (cParams p) row) ++ slots z (object_fields B).
Proof. unfold frame_fields. rewrite app_assoc. exact (map_app _ _ _). Qed.

Lemma in_slots f c z l : In (f, c) l -> In (f z, c) (slots z l).
Proof. exact (in_map (fun '(f, c) => (f z, c)) l (f, c)). Qed.

Lemma litStart_in z : In (litStart (seqStore z), ReserveBuffer (block + 32)) (slots z (store_fields p block (frame_in p pledged zbuff) (frame_out p pledged zbuff) ++ match_fields (cParams p) row)).
Proof. apply (in_slots (fun z => litStart (seqStore z))). apply in_or_app. left. unfold store_fields. apply in_or_app. right. apply in_or_app. right. apply in_or_app. left. right. right. by left. Qed.

Lemma Forall_slots (Q : command -> bool) z l : Forall (fun x => Q (snd x) = true) l -> Forall (fun x => Q x.2 = true) (slots z l).
Proof. intros H. induction H as [|[f c] l Hc _ IH]; constructor; done. Qed.

Lemma after_objects_fields z : Forall (fun x => after_objects x.2 = true) (slots z (store_fields p block (frame_in p pledged zbuff) (frame_out p pledged zbuff) ++ match_fields (cParams p) row)).
Proof.
  apply Forall_slots. unfold store_fields, match_fields. rewrite !Forall_app. destruct (ldm_on _), ext, (opt_on _), row; cbn [when]; split_and!; by repeat constructor.
Qed.

(** What is left when the last buffer is reserved. *)
Lemma laid_begun z2 z4 : frame_core z2 -> staticSize z2 = staticSize zc ->
  holds (laying D (own static) st en (total_objects static) dur (demand static p pledged zbuff - 128) start_index (makes_clean crp) [])
    (fun z => (core z = core z2 /\ no_data start_index (matchState z)) /\ capacities p block (frame_in p pledged zbuff) (frame_out p pledged zbuff) zbuff z) fields z4 ->
  ZSTD_cwksp_estimated_space_within_bounds (ws z4) (demand static p pledged zbuff) = true /\ settled (z4 <| initialized := true |>) /\ begun crp (z4 <| initialized := true |>).
Proof.
  intros Hc2 Hs2 [HX [[Hcore Hnd] Hcap]]. destruct HX as (R & HR & HS & _ & Hfr & Hsl & Hval). pose proof (acc_ok _ _ _ _ HS) as HA. destruct (objects_value static) as [Hob _]. pose proof frame_plan_ok as Hplan.
  destruct (plan_ordered _ _ _ _ _ _ _ _ Hplan) as [Ho0 _]. pose proof (ordered_costs _ _ Ho0) as Hc0. change (costs []) with 0 in *. destruct Hnd as ((Hw & Hlow & Hdict) & Hnext & Hld & Hdm).
  assert (index_of z4 = start_index) as Hix by exact Hw.
  assert (slots (z4 <| initialized := true |>) fields = slots z4 fields) as Esl by (unfold frame_fields, store_fields, match_fields; untouched). split; [|split].
  - pose proof (account_used D _ _ _ HS) as Hu. unfold demand, frame_plan in *. cbn [arena_at ar_ws] in Hu. unfold ZSTD_cwksp_estimated_space_within_bounds. change ZSTD_cwksp_slack_space_required with 128. rewrite size_t_in by lia.
    specialize (Hu ltac:(lia) ltac:(lia) ltac:(lia)). apply andb_true_iff. split; apply Z.leb_le; lia.
  - assert (is_static (z4 <| initialized := true |>) = static) as Est. { rewrite <- Hstatic. unfold is_static. change (staticSize (z4 <| initialized := true |>)) with (staticSize z4). unfold core in Hcore. by replace (staticSize z4) with (staticSize zc) by congruence. }
    exists (blocks (slots z4 fields) ++ own static), start_index. rewrite Est. destruct Hfr as (A1 & A2 & A3 & A4).
    change (index_of (z4 <| initialized := true |>)) with (index_of z4). cbn [ws update]. rewrite A1, A2, A4, Hix. split; [|split; [|split]].
    + assert (litStart (seqStore z4) <> NULL) as Hlit.
      { intros E. rewrite Forall_forall in Hsl. specialize (Hsl (litStart (seqStore z4), ReserveBuffer (block + 32))). cbn [served_slot fst snd block al_size CCtxLayout.block] in Hsl. destruct window_range as (_ & ? & _).
        assert (block + 32 = 0); [|lia]. apply Hsl; [|done]. rewrite fields_split. apply list_elem_of_In, in_or_app. left. apply litStart_in. }
      rewrite fields_split. change (slots (z4 <| initialized := true |>) (object_fields B)) with (slots z4 (object_fields B)). change (mem (z4 <| initialized := true |>)) with (mem z4).
      apply (laying_housed D (own static) st en (total_objects static) dur (demand static p pledged zbuff - 128) start_index (makes_clean crp) _ _ _ _ _ _ (ltac:(rewrite <- fields_split; exists R; by split_and!))
        (after_objects_fields z4) ltac:(by repeat constructor) ltac:(by destruct static) (litStart_in z4) Hlit).
    + exact (ar_positive _ _ HA).
    + intros _. pose proof word_size_big. unfold start_index. destruct (keeps_index fri); [|unfold ZSTD_WINDOW_START_INDEX]; lia.
    + exact Hdur.
  - pose proof (all_inside D _ HA) as Hin. cbn [arena_at ar_ws ar_live] in Hin. constructor; try done.
    + exact (frame_core_same z2 z4 Hcore Hc2).
    + change (index_of (z4 <| initialized := true |>)) with (index_of z4). rewrite Hix. by repeat split.
    + constructor; rewrite Esl; [exact Hsl|exact Hin|exact (ar_disjoint _ _ HA)].
    + intros Ecrp x a. rewrite Esl. intros Hx Hk Ha Ha4. rewrite Ecrp in Hval. destruct (tables_below D _ HA (Hval eq_refl) x a) as (v & Hv & Hlt); [apply in_or_app; by left|done..|]. exists v. split; [exact Hv|].
      change (w_lowLimit (ms_window (matchState (z4 <| initialized := true |>)))) with (w_lowLimit (ms_window (matchState z4))). rewrite Hlow. exact Hlt.
Qed.
End Run.
End Frame.

(** ** The whole reset *)

Lemma with_ldm_facts q : reset_params_ok q -> let p := with_ldm q in
  cParams p = cParams q /\ maxBlockSize p = maxBlockSize q /\ useRowMatchFinder p = useRowMatchFinder q /\ enableLdm (ldmParams p) = enableLdm (ldmParams q) /\ (1 <= maxBlockSize q <= 2 ^ 17) /\
  (ldm_on (ldmParams p) = true -> (6 <= ldm_hashLog (ldmParams p) <= 30 /\ 0 <= bucketSizeLog (ldmParams p) <= ldm_hashLog (ldmParams p) /\ 1 <= minMatchLength (ldmParams p)) /\
    ZSTD_ldm_adjustParameters (ldmParams q) (cParams q) = Ok (ldmParams p) /\ p = q <| ldmParams := ldmParams p |> /\ hashRateLog (ldmParams p) < 32).
Proof.
  intros [Hp Hcp Hrow _ _ Hblk]. assert (1 <= maxBlockSize q <= 2 ^ 17) as Hb by (destruct (po_maxBlockSize _ Hp) as [?|?]; [done|lia]). unfold with_ldm, ldm_on.
  destruct (enableLdm (ldmParams q) =? ZSTD_ps_enable) eqn:E; cbv zeta; [|by split_and!; try lia; rewrite ?E]. destruct (ldm_adjust_ok q Hp Hcp) as (l & El & E1 & E2 & E3 & E4 & E5). rewrite El. cbn [update cParams maxBlockSize useRowMatchFinder ldmParams].
  by split_and!; try lia.
Qed.

Section Whole.
Context (q : ZSTD_CCtx_params) (pledged dictSize : Z) (crp : ZSTD_compResetPolicy_e) (zbuff : ZSTD_buffered_policy_e).
Local Notation p := (with_ldm q).
Context (Hq : reset_params_ok q) (Hpl : 0 <= pledged < 2 ^ 64) (Hmalloc : malloc_ok).

(** What the code computes before it looks at the workspace. *)
Lemma reset_head zc (HD : demand (is_static zc) p pledged zbuff + 120 <= word_size) : let z1 := zc <| isFirstBlock := true |> <| appliedParams := p |> in let n := demand (is_static zc) p pledged zbuff in
  let fri := if ZSTD_indexTooCloseToMax (ms_window (matchState zc)) || ZSTD_dictTooBig dictSize || negb (initialized zc) then ZSTDirp_reset else ZSTDirp_continue in
  let z2 := if staticSize zc =? 0 then z1 <| ws ::= fun w => ZSTD_cwksp_bump_oversized_duration w 0 |> else z1 in
  ZSTD_resetCCtx_internal D sizeof_CCtx B blank malloc q pledged dictSize crp zbuff zc =
  cbind (if (ZSTD_cwksp_sizeof (ws z2) <? n) || ZSTD_cwksp_check_wasteful (ws z2) n then cbind (replace_workspace D B malloc n) (fun _ => cret ZSTDirp_reset) else cret fri) (fun fri =>
  cbind (on_ws (fun w => no_result (ZSTD_cwksp_clear D w))) (fun _ =>
  cbind (begin_frame p pledged (frame_block p pledged)) (fun _ =>
  cbind (ZSTD_reset_matchState D blank (cParams p) (useRowMatchFinder p) crp fri ZSTD_resetTarget_CCtx) (fun _ =>
  cbind (reserve_stores D blank p (frame_block p pledged) (nbSeq (cParams p) (ZSTD_hasExtSeqProd p) (frame_block p pledged)) (nbLdm (ldmParams p) (frame_block p pledged)) (frame_in p pledged zbuff) (frame_out p pledged zbuff) zbuff) (fun _ =>
  cbind cget (fun zc => cbind (cassert (ZSTD_cwksp_estimated_space_within_bounds (ws zc) n)) (fun _ => cbind (cmodify (fun zc => zc <| initialized := true |>)) (fun _ => cret 0)))))))) z2.
Proof.
  intros z1 n fri z2. destruct (with_ldm_facts q Hq) as (F1 & F2 & F3 & F4 & F5 & F6). destruct Hq as [Hp Hcp Hrow Hsplit Hldm Hblk].
  unfold ZSTD_resetCCtx_internal. rewrite (check_cparams _ Hcp). rewrite bind_assert by done. rewrite !bind_modify.
  rewrite !bind_assert by (rewrite ?(proj2 (Z.eqb_neq _ _) Hrow), ?(proj2 (Z.eqb_neq _ _) Hsplit), ?(proj2 (Z.eqb_neq _ _) Hldm), ?(proj2 (Z.eqb_neq _ _) Hblk); done).
  rewrite (bind_inr _ _ _ z1 tt).
  2:{ destruct (enableLdm (ldmParams q) =? ZSTD_ps_enable) eqn:E.
      - unfold ldm_on in F6. rewrite F4, E in F6. destruct (F6 eq_refl) as ((G1 & G2 & G3) & G4 & G5 & G6). rewrite (bind_inr _ _ _ (zc <| isFirstBlock := true |> <| appliedParams := q |>) (ldmParams p)) by (unfold cpure; by rewrite G4).
        rewrite bind_modify. rewrite bind_assert by (apply Z.leb_le; lia). unfold cassert. rewrite (proj2 (Z.ltb_lt _ _)) by lia. unfold cret. f_equal. f_equal. subst z1. cbn [update appliedParams]. by rewrite <- G5.
      - subst z1. unfold with_ldm. by rewrite E. }
  assert (cparams_ok (cParams p)) as Hcp' by (by rewrite F1). assert (1 <= maxBlockSize p <= 2 ^ 17) as Hblk' by (by rewrite F2). assert (useRowMatchFinder p <> ZSTD_ps_auto) as Hrow' by (by rewrite F3).
  destruct (window_range p pledged Hcp' Hblk' Hpl) as (W1 & W2 & W3).
  unfold cbind at 1, cget at 1. cbv beta zeta. change (appliedParams z1) with p. change (matchState z1) with (matchState zc). change (initialized z1) with (initialized zc). change (staticSize z1) with (staticSize zc). rewrite W3.
  change (Z.max 1 (Z.min (2 ^ cp_windowLog (cParams p)) pledged)) with (frame_window p pledged). change (Z.min (maxBlockSize p) (frame_window p pledged)) with (frame_block p pledged).
  assert (forall l, ldm_on (ldmParams p) = l -> l = true -> 6 <= ldm_hashLog (ldmParams p) <= 30 /\ 0 <= bucketSizeLog (ldmParams p) <= ldm_hashLog (ldmParams p) /\ 1 <= minMatchLength (ldmParams p)) as Hl by (intros l <- E; by destruct (F6 E)).
  specialize (Hl _ eq_refl). destruct (out_value p pledged Hcp' Hblk' Hpl) as [V1 V2]. pose proof word_size_big.
  pose proof (frame_plan_ok p pledged zbuff (is_static zc) Hcp' Hblk' Hpl Hl HD) as Hplan. destruct (ldm_values sizeof_CCtx B (cParams p) (ldmParams p) _ _ _ _ _ (is_static zc) Hplan) as (_ & V3 & _).
  rewrite (bind_inr (cpure _) _ _ z1 (frame_out p pledged zbuff)).
  2:{ unfold cpure, frame_out. destruct (_ && (outBufferMode p =? ZSTD_bm_buffered)); [|done]. rewrite V1. cbn [obind]. by rewrite size_t_in by lia. }
  rewrite (bind_inr (cpure _) _ _ z1 (nbLdm (ldmParams p) (frame_block p pledged))) by (unfold cpure; by rewrite V3).
  match goal with |- context [if bool_decide (zbuff = ZSTDb_buffered) && (inBufferMode p =? ZSTD_bm_buffered) then size_t ?x else 0] =>
    replace (if bool_decide (zbuff = ZSTDb_buffered) && (inBufferMode p =? ZSTD_bm_buffered) then size_t x else 0) with (frame_in p pledged zbuff) by (unfold frame_in; destruct (_ && _); [by rewrite size_t_in by lia|done]) end.
  change (negb (staticSize zc =? 0)) with (is_static zc). rewrite (bind_inr (cpure _) _ _ z1 n) by (unfold cpure; by rewrite (frame_estimate p pledged zbuff (is_static zc) Hcp' Hblk' Hrow' Hpl Hl HD)).
  rewrite isError_size by (fold word_size; lia). cbn [creject_if]. unfold cbind at 1, cret at 1. fold fri.
  rewrite (bind_inr _ _ _ z2 tt) by (subst z2; by destruct (staticSize zc =? 0)). reflexivity.
Qed.

Lemma reset_tail z st en dur b live fri : let static := is_static z in demand static p pledged zbuff + 120 <= word_size ->
  housed D (own static) st en (total_objects static) dur b live (ws z) (mem z) (slots z (object_fields B)) -> 0 < b -> appliedParams z = p -> isFirstBlock z = true ->
  (if keeps_index fri then b <= index_of z < 2 ^ 32 else True) -> demand static p pledged zbuff <= en - st -> (static = true -> dur = 0) -> exists z5,
  cbind (on_ws (fun w => no_result (ZSTD_cwksp_clear D w))) (fun _ =>
  cbind (begin_frame p pledged (frame_block p pledged)) (fun _ =>
  cbind (ZSTD_reset_matchState D blank (cParams p) (useRowMatchFinder p) crp fri ZSTD_resetTarget_CCtx) (fun _ =>
  cbind (reserve_stores D blank p (frame_block p pledged) (nbSeq (cParams p) (ZSTD_hasExtSeqProd p) (frame_block p pledged)) (nbLdm (ldmParams p) (frame_block p pledged)) (frame_in p pledged zbuff) (frame_out p pledged zbuff) zbuff) (fun _ =>
  cbind cget (fun zc => cbind (cassert (ZSTD_cwksp_estimated_space_within_bounds (ws zc) (demand static p pledged zbuff))) (fun _ => cbind (cmodify (fun zc => zc <| initialized := true |>)) (fun _ => cret 0))))))) z = Ok (z5, inr 0) /\
  usable z5 /\ begun p pledged zbuff static crp z5.
Proof.
  intros static HD Hh Hb Ha Hf Hi Hr Hd. destruct (with_ldm_facts q Hq) as (F1 & F2 & F3 & _ & F5 & F6). destruct Hq as [Hp Hcp Hrow _ _ Hblk]. rewrite <- F1 in Hcp. rewrite <- F2 in F5. rewrite <- F3 in Hrow.
  assert (ldm_on (ldmParams p) = true -> 6 <= ldm_hashLog (ldmParams p) <= 30 /\ 0 <= bucketSizeLog (ldmParams p) <= ldm_hashLog (ldmParams p) /\ 1 <= minMatchLength (ldmParams p)) as Hl by (intros E; by destruct (F6 E)).
  destruct (run_value p pledged zbuff static Hcp F5 Hrow Hpl Hl HD z st en dur b live crp fri Hh Hb Ha Hf Hi Hr) as (w' & z2 & z3 & z4 & E1 & E2 & E3 & E4 & Hc2 & Hs2 & HX).
  destruct (laid_begun p pledged zbuff static Hcp F5 Hpl Hl HD z st en dur b live crp fri Hh eq_refl Hi Hr Hd z2 z4 Hc2 Hs2 HX) as (Hwb & Hset & Hbeg).
  rewrite (bind_on_ws _ _ _ tt w') by (unfold no_result; by rewrite E1). rewrite (bind_inr _ _ _ z2 tt E2). rewrite (bind_inr _ _ _ z3 0 E3). rewrite (bind_inr _ _ _ z4 tt E4).
  unfold cbind at 1, cget. rewrite bind_assert by exact Hwb. rewrite bind_modify. eexists. split; [reflexivity|]. split; [by right|done].
Qed.

(** A reset that keeps the workspace continues after the indices in use, unless they are too large. *)
Lemma continues zc b : 0 < b -> (initialized zc = true -> b <= index_of zc < word_size) ->
  if keeps_index (if ZSTD_indexTooCloseToMax (ms_window (matchState zc)) || ZSTD_dictTooBig dictSize || negb (initialized zc) then ZSTDirp_reset else ZSTDirp_continue) then b <= index_of zc < 2 ^ 32 else True.
Proof.
  intros Hb Hi. destruct (_ || negb (initialized zc)) eqn:E; cbn [keeps_index]; [done|]. apply orb_false_iff in E as [E E3]. apply orb_false_iff in E as [E _]. apply negb_false_iff in E3. specialize (Hi E3). split; [lia|].
  unfold ZSTD_indexTooCloseToMax in E. apply Z.ltb_ge in E. change (w_nextSrc (ms_window (matchState zc)) - w_base (ms_window (matchState zc))) with (index_of zc) in E. rewrite size_t_in in E by lia.
  revert E. unfold ZSTD_CURRENT_MAX, ZSTD_INDEXOVERFLOW_MARGIN. destruct MEM_64bits; lia.
Qed.

(** The duration that a workspace has been oversized does not matter to its contents. *)
Lemma settled_bump zc d z : settled zc -> is_static zc = false \/ d = workspaceOversizedDuration (ws zc) -> z = zc <| isFirstBlock := true |> <| appliedParams := p |> <| ws := set_workspaceOversizedDuration d (ws zc) |> ->
  exists live b, housed D (own (is_static zc)) (workspace (ws zc)) (workspaceEnd (ws zc)) (total_objects (is_static zc)) d b live (ws z) (mem z) (slots z (object_fields B)) /\ 0 < b /\
    (initialized zc = true -> b <= index_of zc < word_size) /\ (is_static zc = true -> d = 0).
Proof.
  intros (live & b & [H1 H2 H3 H4 H5] & Hb & Hi & Hd) Hor ->. exists live, b. split; [|split; [done|]; split; [done|]; intros E; destruct Hor as [Hor| ->]; [congruence|by apply Hd]].
  constructor; try done; [exact (arena_duration _ d H1)|]. by destruct H3 as (? & ? & ? & ?).
Qed.

Lemma settled_size zc : settled zc -> ZSTD_cwksp_sizeof (ws zc) = workspaceEnd (ws zc) - workspace (ws zc).
Proof.
  intros (live & b & [H1 _ _ _ _] & _). destruct (arena_facts D _ H1) as (F1 & F2 & F3). cbn [ar_ws] in *. pose proof (ok_end _ _ (ar_cwksp _ _ H1)) as He. cbn [ar_ws] in He. unfold ZSTD_cwksp_sizeof. apply size_t_in. lia.
Qed.

Lemma bumped zc : let z1 := zc <| isFirstBlock := true |> <| appliedParams := p |> in
  exists d, (is_static zc = false \/ d = workspaceOversizedDuration (ws zc)) /\
    (if staticSize zc =? 0 then z1 <| ws ::= fun w => ZSTD_cwksp_bump_oversized_duration w 0 |> else z1) = z1 <| ws := set_workspaceOversizedDuration d (ws zc) |>.
Proof.
  intros z1. unfold is_static. destruct (staticSize zc =? 0) eqn:E.
  - change (z1 <| ws ::= fun w => ZSTD_cwksp_bump_oversized_duration w 0 |>) with (z1 <| ws := ZSTD_cwksp_bump_oversized_duration (ws zc) 0 |>). unfold ZSTD_cwksp_bump_oversized_duration.
    destruct (ZSTD_cwksp_check_too_large (ws zc) 0); eexists; (split; [by left|reflexivity]).
  - exists (workspaceOversizedDuration (ws zc)). split; [by right|]. replace (set_workspaceOversizedDuration (workspaceOversizedDuration (ws zc)) (ws zc)) with (ws zc) by (by destruct (ws zc)). by destruct zc.
Qed.

Definition reset_outcome zc (zc' : ZSTD_CCtx) (r : ZSTD_ErrorCode + Z) : Prop :=
  let n := demand (is_static zc) p pledged zbuff in
  match r with
  | inr v => v = 0 /\ begun p pledged zbuff (is_static zc) crp zc'
  | inl e => e = ZSTD_error_memory_allocation /\ if is_static zc then ZSTD_cwksp_sizeof (ws zc) < n else malloc n = NULL
  end.

Lemma reset_static_small zc d z2 fri (k : ZSTD_indexResetPolicy_e -> call Z) : settled zc -> is_static zc = true -> d = workspaceOversizedDuration (ws zc) ->
  z2 = zc <| isFirstBlock := true |> <| appliedParams := p |> <| ws := set_workspaceOversizedDuration d (ws zc) |> -> let n := demand (is_static zc) p pledged zbuff in
  (ZSTD_cwksp_sizeof (ws z2) <? n) || ZSTD_cwksp_check_wasteful (ws z2) n = true ->
  cbind (if (ZSTD_cwksp_sizeof (ws z2) <? n) || ZSTD_cwksp_check_wasteful (ws z2) n then cbind (replace_workspace D B malloc n) (fun _ => cret ZSTDirp_reset) else cret fri) k z2 = Ok (z2, inl ZSTD_error_memory_allocation) /\
  usable z2 /\ reset_outcome zc z2 (inl ZSTD_error_memory_allocation).
Proof.
  intros Hset Hst Hd Ez n Hre. destruct (settled_bump zc d z2 Hset ltac:(by right) Ez) as (live & b & Hh & Hb & Hi & Hd0). specialize (Hd0 Hst). rewrite Hre. split; [|split].
  - unfold replace_workspace. unfold cbind, cget. replace (negb (staticSize z2 =? 0)) with true by (rewrite Ez; symmetry; exact Hst). done.
  - right. exists live, b. assert (is_static z2 = is_static zc) as -> by (by rewrite Ez). rewrite Ez in *. split; [|by split_and!]. exact Hh.
  - split; [done|]. rewrite Hst. apply orb_true_iff in Hre as [Hre|Hre]; [apply Z.ltb_lt in Hre; rewrite Ez in Hre; subst n; by rewrite Hst in Hre|].
    unfold ZSTD_cwksp_check_wasteful in Hre. apply andb_true_iff in Hre as [_ Hre]. rewrite Ez in Hre. apply Z.ltb_lt in Hre. cbn in Hre. rewrite Hd0 in Hre. unfold ZSTD_WORKSPACETOOLARGE_MAXDURATION in Hre. lia.
Qed.

Lemma reset_rehoused z2 z3 : is_static z2 = false -> appliedParams z2 = p -> isFirstBlock z2 = true -> rehoused z2 z3 -> let n := demand false p pledged zbuff in
  n + 120 <= word_size -> workspaceEnd (ws z3) - workspace (ws z3) = n ->
  is_static z3 = false /\ appliedParams z3 = p /\ isFirstBlock z3 = true /\ exists live, housed D (own false) (workspace (ws z3)) (workspaceEnd (ws z3)) (total_objects false) 0 1 live (ws z3) (mem z3) (slots z3 (object_fields B)).
Proof. intros Hs Ha Hf (p1 & p2 & p3 & w & -> & _ & _ & _ & live & Hh) n HD Hsz. split; [exact Hs|]. split; [exact Ha|]. split; [exact Hf|]. exists live. exact Hh. Qed.

Lemma demand_objects static : demand static p pledged zbuff + 120 <= word_size -> total_objects static + 128 <= demand static p pledged zbuff.
Proof.
  intros HD. destruct (with_ldm_facts q Hq) as (F1 & F2 & F3 & _ & F5 & F6). destruct Hq as [_ Hcp _ _ _ _]. rewrite <- F1 in Hcp. rewrite <- F2 in F5.
  destruct (plan_ordered _ _ _ _ _ _ _ _ (frame_plan_ok p pledged zbuff static Hcp F5 Hpl ltac:(intros E; by destruct (F6 E)) HD)) as [Ho _]. apply ordered_costs in Ho. unfold demand, frame_plan. lia.
Qed.

Lemma reset_usable zc : usable zc -> demand (is_static zc) p pledged zbuff + 120 <= word_size ->
  exists zc' r, ZSTD_resetCCtx_internal D sizeof_CCtx B blank malloc q pledged dictSize crp zbuff zc = Ok (zc', r) /\ usable zc' /\ reset_outcome zc zc' r.
Proof.
  intros Hu HD. pose proof (reset_head zc HD) as E. cbv zeta in E. rewrite E. clear E. destruct (bumped zc) as (d & Hor & Ez). cbv zeta in Ez. rewrite Ez. clear Ez. set (n := demand (is_static zc) p pledged zbuff) in *.
  match goal with |- context [if (ZSTD_cwksp_sizeof (ws ?z) <? n) || _ then _ else cret ?f] => set (z2 := z); set (fri := f) end.
  assert (total_objects (is_static zc) + 128 <= n) as Hn by (by apply demand_objects). destruct (objects_value (is_static zc)) as [Hob _].
  destruct ((ZSTD_cwksp_sizeof (ws z2) <? n) || ZSTD_cwksp_check_wasteful (ws z2) n) eqn:Hre.
  - destruct (is_static zc) eqn:Es.
    + destruct Hu as [[Hu _]|Hu]; [congruence|]. pose proof (reset_static_small zc d z2 fri) as HR. rewrite Es in HR. fold n in HR. cbv zeta in HR. rewrite Hre in HR. eexists _, _. apply HR; try done. by destruct Hor.
    + destruct (replace_ends n z2 Hmalloc Es Hn z2 eq_refl) as (z3 & [e|[]] & E3 & Hz3).
      * destruct Hz3 as (-> & Hnull & ->). eexists _, (inl _). split; [unfold cbind at 1 2; rewrite E3; reflexivity|]. split; [left; split; [exact Es|by exists 0]|]. unfold reset_outcome. rewrite Es. done.
      * destruct Hz3 as [Hre3 Hsz]. destruct (reset_rehoused z2 z3 Es eq_refl eq_refl Hre3 HD Hsz) as (S1 & S2 & S3 & live & Hh). rewrite (bind_inr _ _ _ z3 ZSTDirp_reset) by (unfold cbind; by rewrite E3).
        destruct (reset_tail z3 (workspace (ws z3)) (workspaceEnd (ws z3)) 0 1 live ZSTDirp_reset) as (z5 & E5 & Hu5 & Hb5); try (rewrite S1); try done; [lia|]. rewrite S1 in E5, Hb5.
        exists z5, (inr 0). split; [exact E5|]. split; [done|]. unfold reset_outcome. by rewrite Es.
  - destruct Hu as [[Hst [d' Hw]]|Hu].
    + exfalso. apply orb_false_iff in Hre as [Hre _]. apply Z.ltb_ge in Hre. revert Hre. subst z2. cbn [ws update]. rewrite Hw. unfold ZSTD_cwksp_sizeof. cbn. unfold size_t, wrap. rewrite Z.mod_0_l by (apply Z.pow_nonzero; destruct sizeof_size_t_cases; lia). lia.
    + destruct (settled_bump zc d z2 Hu Hor eq_refl) as (live & b & Hh & Hb & Hi & Hd0). pose proof (settled_size zc Hu) as Hsz. rewrite (bind_inr _ _ _ z2 fri) by done. apply orb_false_iff in Hre as [Hre _]. apply Z.ltb_ge in Hre.
      change (ZSTD_cwksp_sizeof (ws z2)) with (ZSTD_cwksp_sizeof (ws zc)) in Hre.
      destruct (reset_tail z2 (workspace (ws zc)) (workspaceEnd (ws zc)) d b live fri) as (z5 & E5 & Hu5 & Hb5); try done; [exact (continues zc b Hb Hi)|change (is_static z2) with (is_static zc); fold n; lia|]. exists z5, (inr 0). by split_and!.
Qed.
End Whole.
End Usable.

(** ** Theorems *)

(** The choices a compression makes before it resets the context, with the parameters [cp] that were derived. *)
Definition resolved (p : ZSTD_CCtx_params) (cp : ZSTD_compressionParameters) : ZSTD_CCtx_params :=
  p <| cParams := cp |> <| postBlockSplitter := ZSTD_resolveBlockSplitterMode (postBlockSplitter p) cp |>
    <| ldmParams := ldmParams p <| enableLdm := ZSTD_resolveEnableLdm (enableLdm (ldmParams p)) cp |> |>
    <| useRowMatchFinder := ZSTD_resolveRowMatchFinderMode (useRowMatchFinder p) cp |> <| maxBlockSize := ZSTD_resolveMaxBlockSize (maxBlockSize p) |>.

Lemma resolve_not_auto m x : x <> ZSTD_ps_auto -> (if negb (m =? ZSTD_ps_auto) then m else x) <> ZSTD_ps_auto.
Proof. intros Hx. destruct (Z.eqb_spec m ZSTD_ps_auto); done. Qed.

Lemma resolve_range m x : 0 <= m <= 2 -> 0 <= x <= 2 -> 0 <= (if negb (m =? ZSTD_ps_auto) then m else x) <= 2.
Proof. intros Hm Hx. by destruct (m =? ZSTD_ps_auto). Qed.

Lemma resolved_ok `{P : Platform} p cp : params_ok p -> cparams_ok cp -> reset_params_ok (resolved p cp).
Proof.
  intros Hp Hcp. pose proof Hp as []. pose proof Hcp as []. assert (forall b : bool, (if b then ZSTD_ps_enable else ZSTD_ps_disable) <> ZSTD_ps_auto /\ 0 <= (if b then ZSTD_ps_enable else ZSTD_ps_disable) <= 2) as Hb by (by intros []).
  assert (maxBlockSize (resolved p cp) <> 0 /\ unset_or 1024 (2 ^ 17) (maxBlockSize (resolved p cp))) as [Hm1 Hm2].
  { unfold resolved, ZSTD_resolveMaxBlockSize. cbn [update maxBlockSize]. destruct (Z.eqb_spec (maxBlockSize p) 0); [split; [done|right; by vm_compute]|done]. }
  constructor; try done; [|unfold resolved, ZSTD_resolveRowMatchFinderMode|unfold resolved, ZSTD_resolveBlockSplitterMode|unfold resolved, ZSTD_resolveEnableLdm]; cbn [update useRowMatchFinder postBlockSplitter ldmParams enableLdm].
  - constructor; try done; try (by right); unfold resolved, ZSTD_resolveRowMatchFinderMode, ZSTD_resolveEnableLdm; cbn [update useRowMatchFinder ldmParams enableLdm]; apply resolve_range; try done; [destruct (negb _)|]; (done || apply Hb).
  - apply resolve_not_auto. destruct (negb _); [done|apply Hb].
  - apply resolve_not_auto, Hb.
  - apply resolve_not_auto, Hb.
Qed.


(** A context as [ZSTD_createCCtx] leaves it. *)
Definition new_CCtx : ZSTD_CCtx :=
  let window := {| w_nextSrc := 0; w_base := 0; w_dictBase := 0; w_dictLimit := 0; w_lowLimit := 0; w_nbOverflowCorrections := 0 |} in
  {| stage := ZSTDcs_created; appliedParams := zero_CCtxParams; dictID := 0; dictContentSize := 0; ws := zero_cwksp; mem := fun _ => None; blockSizeMax := 0; pledgedSrcSizePlusOne := 0; consumedSrcSize := 0;
     producedCSize := 0; xxhState := XXH64_reset 0; staticSize := 0; isFirstBlock := false; initialized := false;
     seqStore := {| sequencesStart := 0; litStart := 0; llCode := 0; mlCode := 0; ofCode := 0; maxNbSeq := 0; maxNbLit := 0 |};
     ldmState := {| ldm_window := window; ldm_hashTable := 0; ldm_loadedDictEnd := 0; bucketOffsets := 0 |}; ldmSequences := 0; maxNbLdmSequences := 0;
     externSeqStore := {| es_seq := 0; es_pos := 0; es_posInSequence := 0; es_size := 0; es_capacity := 0 |}; prevCBlock := 0; prevBlockState := first_block_state; nextCBlock := 0;
     matchState := {| ms_window := window; loadedDictEnd := 0; nextToUpdate := 0; hashLog3 := 0; rowHashLog := 0; tagTable := 0; hashSalt := 0; hashSaltEntropy := 0; hashTable := 0; hashTable3 := 0; chainTable := 0;
       dedicatedDictSearch := false; opt := {| opt_litFreq := 0; opt_litLengthFreq := 0; opt_matchLengthFreq := 0; opt_offCodeFreq := 0; opt_matchTable := 0; opt_priceTable := 0; opt_litLengthSum := 0 |};
       dictMatchState := 0; ms_cParams := cparams 0 0 0 0 0 0 0; ms_prefetchCDictTables := false; lazySkipping := 0 |};
     tmpWorkspace := 0; tmpWkspSize := 0; bufferedPolicy := ZSTDb_not_buffered; inBuff := 0; inBuffSize := 0; outBuff := 0; outBuffSize := 0; extSeqBuf := 0; extSeqBufCapacity := 0 |}.

(** Level 22, where long distance matching is chosen, for a stream of unknown size, with assertions compiled in. *)
Definition demo_params : ZSTD_CCtx_params := resolved (ZSTD_CCtxParams_init 22) (cparams 27 27 25 9 3 999 9).
Definition demo_malloc (n : Z) : Z := if n <? 2 ^ 40 then 4096 else NULL.


(** *** Estimates for callers *)

Lemma resolveMaxBlockSize_twice n : ZSTD_resolveMaxBlockSize (ZSTD_resolveMaxBlockSize n) = ZSTD_resolveMaxBlockSize n.
Proof. unfold ZSTD_resolveMaxBlockSize. by destruct (n =? 0) eqn:E; [|rewrite E]. Qed.

Lemma estimate_resolves `{P : Platform} D C B cPar l static row i o pl ext n :
  ZSTD_estimateCCtxSize_usingCCtxParams_internal D C B cPar l static row i o pl ext (ZSTD_resolveMaxBlockSize n) = ZSTD_estimateCCtxSize_usingCCtxParams_internal D C B cPar l static row i o pl ext n.
Proof. unfold ZSTD_estimateCCtxSize_usingCCtxParams_internal. by rewrite resolveMaxBlockSize_twice. Qed.

Lemma resolved_ldm p cp : enableLdm (ldmParams p) <> ZSTD_ps_auto -> ldmParams (resolved p cp) = ldmParams p.
Proof. intros H. unfold resolved, ZSTD_resolveEnableLdm. cbn [update ldmParams]. rewrite (proj2 (Z.eqb_neq _ _) H). cbn [negb]. by destruct (ldmParams p). Qed.


