(* ===== verification/CStream.v ===== *)
(** * Streaming compression

    [ZSTD_compressStream_generic] and the functions around it in zstd_compress.c: a state machine that takes input and
    gives output in pieces of any size, over the functions that begin a frame and compress a piece of it
    ([FrameCompressor]).  Input is collected in [inBuff] block by block, or left with the caller
    ([ZSTD_bm_stable]); output goes to the caller directly if there is room, and through [outBuff] if not.

    Buffers are the lists of their bytes; a pointer into one is an offset.  Accesses outside of a buffer are
    faults.  Multithreading is not compiled. *)
From S2P Require Import Prelude Mem Errors Bits Frame ExecSeq CParams RecordUpdate Calls CCtxParams CCtxSize CCtxApi.

(** ** Data *)

(** [in_bytes] is the memory from [in_src] to [in_src + size]. *)
Record ZSTD_inBuffer := { in_src : Z; in_bytes : list Z; in_pos : Z }.
Record ZSTD_outBuffer := { out_dst : Z; out_bytes : list Z; out_pos : Z }.

Definition in_size (b : ZSTD_inBuffer) : Z := zlen (in_bytes b).
Definition out_size (b : ZSTD_outBuffer) : Z := zlen (out_bytes b).

#[global] Instance eta_inBuffer : Eta ZSTD_inBuffer := fun b => {| in_src := in_src b; in_bytes := in_bytes b; in_pos := in_pos b |}.
#[global] Instance eta_outBuffer : Eta ZSTD_outBuffer := fun b => {| out_dst := out_dst b; out_bytes := out_bytes b; out_pos := out_pos b |}.

(** The arguments of [ZSTD_compressBegin_internal], and what it leaves in the context for the stream. *)
Record frame_job := { job_prefix : ZSTD_prefixDict; job_cdict : Z; job_params : ZSTD_CCtx_params; job_pledged : Z }.
Record frame_setup := { fs_params : ZSTD_CCtx_params; fs_block : Z; fs_in : list Z; fs_out : list Z }.

(** [ZSTD_compressBegin_internal], [ZSTD_compressContinue_public] and [ZSTD_compressEnd_public] on the state [C] of a frame.
    The last two are given the contents of [dst] and [src], and give the contents of [dst] afterwards and
    the number of bytes of the result. *)
Class FrameCompressor (C : Type) := {
  compressBegin : C -> frame_job -> outcome Empty_set (C * (ZSTD_ErrorCode + frame_setup));
  compressContinue : C -> list Z -> list Z -> outcome Empty_set (C * list Z * (ZSTD_ErrorCode + Z));
  compressEnd : C -> list Z -> list Z -> outcome Empty_set (C * list Z * (ZSTD_ErrorCode + Z))
}.

Section Stream.
Context `{P : Platform} {C : Type} `{FC : FrameCompressor C}.

(** The fields of a context that streaming uses: [api] are those of [CCtxApi]. *)
Record ZSTD_CStream := {
  api : ZSTD_CCtx;
  frame : C;
  appliedParams : ZSTD_CCtx_params;
  blockSizeMax : Z;
  inBuff : list Z;
  inBuffSize : Z;
  inToCompress : Z;
  inBuffPos : Z;
  inBuffTarget : Z;
  outBuff : list Z;
  outBuffSize : Z;
  outBuffContentSize : Z;
  outBuffFlushedSize : Z;
  frameEnded : bool;
  expectedInBuffer : ZSTD_inBuffer;
  stableIn_notConsumed : Z;
  expectedOutBufferSize : Z
}.

#[global] Instance eta_CStream : Eta ZSTD_CStream := fun z =>
  {| api := api z; frame := frame z; appliedParams := appliedParams z; blockSizeMax := blockSizeMax z; inBuff := inBuff z; inBuffSize := inBuffSize z;
     inToCompress := inToCompress z; inBuffPos := inBuffPos z; inBuffTarget := inBuffTarget z; outBuff := outBuff z; outBuffSize := outBuffSize z;
     outBuffContentSize := outBuffContentSize z; outBuffFlushedSize := outBuffFlushedSize z; frameEnded := frameEnded z;
     expectedInBuffer := expectedInBuffer z; stableIn_notConsumed := stableIn_notConsumed z; expectedOutBufferSize := expectedOutBufferSize z |}.

(** The value of [format] in the parameters. *)
Definition format_of (n : Z) : ZSTD_format_e := if n =? 0 then ZSTD_f_zstd1 else ZSTD_f_zstd1_magicless.

(** A context with the buffers of a call, and the local [ip] and [op] of [ZSTD_compressStream_generic], relative to [istart] and [ostart]. *)
Record stream := { zcs : ZSTD_CStream; input : ZSTD_inBuffer; output : ZSTD_outBuffer; ip : Z; op : Z }.

#[global] Instance eta_stream : Eta stream := fun s => {| zcs := zcs s; input := input s; output := output s; ip := ip s; op := op s |}.

Definition iend (s : stream) : Z := in_size (input s).
Definition oend (s : stream) : Z := out_size (output s).
Definition buffered_in (z : ZSTD_CStream) : bool := inBufferMode (appliedParams z) =? ZSTD_bm_buffered.
Definition buffered_out (z : ZSTD_CStream) : bool := outBufferMode (appliedParams z) =? ZSTD_bm_buffered.

Definition stable_in (z : ZSTD_CStream) : bool := inBufferMode (appliedParams z) =? ZSTD_bm_stable.
Definition stable_out (z : ZSTD_CStream) : bool := outBufferMode (appliedParams z) =? ZSTD_bm_stable.

Local Open Scope call_scope.
Notation scall := (Calls.call stream).

Definition on_zcs (f : ZSTD_CStream -> ZSTD_CStream) : scall unit := cmodify (fun s => s <| zcs ::= f |>).

(** A function of the interface, on the context. *)
Definition on_api {A} (m : Calls.call ZSTD_CCtx A) : scall A := fun s =>
  match m (api (zcs s)) with
  | Ok (c, r) => Ok (s <| zcs ::= fun z => z <| api := c |> |>, r)
  | Err e => Err e
  | Fault f => Fault f
  end.

(** ** Pieces of a frame *)

Definition ZSTD_limitCopy (dst : list Z) (at_dst dstCapacity : Z) (src : list Z) (at_src srcSize : Z) : res (list Z * Z) :=
  let length := Z.min dstCapacity srcSize in
  if 0 <? length then
    let* bs := asub src at_src length in
    let* dst := awrite dst at_dst bs in
    Ok (dst, length)
  else Ok (dst, length).

(** [ZSTD_compressEnd_public] or [ZSTD_compressContinue_public] of [src], to the output from [op] on or to [outBuff]. *)
Definition compress_to (lastBlock direct : bool) (src : list Z) : scall Z :=
  let! s := cget in
  let! dst := cpure (if direct then asub (out_bytes (output s)) (op s) (oend s - op s) else asub (outBuff (zcs s)) 0 (outBuffSize (zcs s))) in
  fun s =>
    match (if lastBlock then compressEnd else compressContinue) (frame (zcs s)) dst src with
    | Ok (c, dst, r) =>
        let s := s <| zcs ::= fun z => z <| frame := c |> |> in
        (do if direct then
              let! bs := cpure (awrite (out_bytes (output s)) (op s) dst) in
              cmodify (fun s => s <| output ::= fun o => o <| out_bytes := bs |> |>)
            else
              let! bs := cpure (awrite (outBuff (zcs s)) 0 dst) in
              on_zcs (fun z => z <| outBuff := bs |>);
         match r with inr n => cret n | inl e => creject e end) s
    | Err e => Err e
    | Fault f => Fault f
    end.

(** [ZSTD_CCtx_reset(zcs, ZSTD_reset_session_only)], its result ignored. *)
Definition reset_session : scall unit := do on_api (ZSTD_CCtx_reset ZSTD_reset_session_only); cret tt.

(** ** ZSTD_compressStream_generic *)

(** What follows a part of the loop's body: leave the loop, go round again, or fall through to the flush. *)
Inductive stream_next := Leave | Again | Flush.

(** Completes loading into [inBuff]; [true] if there is something to compress. *)
Definition load_buffered (flushMode : ZSTD_EndDirective) : scall bool :=
  let! s := cget in
  let z := zcs s in
  let toLoad := size_t (inBuffTarget z - inBuffPos z) in
  let! got := cpure (ZSTD_limitCopy (inBuff z) (inBuffPos z) toLoad (in_bytes (input s)) (ip s) (iend s - ip s)) in
  let '(buf, loaded) := got in
  do on_zcs (fun z => z <| inBuff := buf |> <| inBuffPos := inBuffPos z + loaded |>);
  do cmodify (fun s => s <| ip := ip s + loaded |>);
  let! s := cget in
  let z := zcs s in
  cret (negb (bool_decide (flushMode = ZSTD_e_continue) && (inBuffPos z <? inBuffTarget z)) &&
        negb (bool_decide (flushMode = ZSTD_e_flush) && (inBuffPos z =? inToCompress z))).

Definition load_stable (flushMode : ZSTD_EndDirective) : scall bool :=
  let! s := cget in
  do cassert (stable_in (zcs s));
  if bool_decide (flushMode = ZSTD_e_continue) && (iend s - ip s <? blockSizeMax (zcs s)) then
    do on_zcs (fun z => z <| stableIn_notConsumed := iend s - ip s |>);
    do cmodify (fun s => s <| ip := iend s |>);
    cret false
  else cret (negb (bool_decide (flushMode = ZSTD_e_flush) && (ip s =? iend s))).

(** Compresses [iSize] bytes of input, and prepares the next block. *)
Definition compress_input (flushMode : ZSTD_EndDirective) (iSize : Z) (direct : bool) : scall Z :=
  let! s := cget in
  let z := zcs s in
  if buffered_in z then
    let lastBlock := bool_decide (flushMode = ZSTD_e_end) && (ip s =? iend s) in
    let! src := cpure (asub (inBuff z) (inToCompress z) iSize) in
    let! cSize := compress_to lastBlock direct src in
    do on_zcs (fun z => z <| frameEnded := lastBlock |> <| inBuffTarget := size_t (inBuffPos z + blockSizeMax z) |>);
    do on_zcs (fun z => if inBuffSize z <? inBuffTarget z then z <| inBuffPos := 0 |> <| inBuffTarget := blockSizeMax z |> else z);
    let! s := cget in
    do cassert (lastBlock || (inBuffTarget (zcs s) <=? inBuffSize (zcs s)));
    do on_zcs (fun z => z <| inToCompress := inBuffPos z |>);
    cret cSize
  else
    let lastBlock := bool_decide (flushMode = ZSTD_e_end) && (ip s + iSize =? iend s) in
    let! src := cpure (asub (in_bytes (input s)) (ip s) iSize) in
    let! cSize := compress_to lastBlock direct src in
    do cmodify (fun s => s <| ip := ip s + iSize |>);
    do on_zcs (fun z => z <| frameEnded := lastBlock |>);
    let! s := cget in
    do cassert (negb lastBlock || (ip s =? iend s));
    cret cSize.

(** Compresses the current block. *)
Definition compress_block (flushMode : ZSTD_EndDirective) : scall stream_next :=
  let! s := cget in
  let z := zcs s in
  let iSize := if buffered_in z then size_t (inBuffPos z - inToCompress z) else Z.min (iend s - ip s) (blockSizeMax z) in
  let! bound := cpure (as_size (ZSTD_compressBound iSize)) in
  let direct := (bound <=? oend s - op s) || stable_out z in
  let! cSize := compress_input flushMode iSize direct in
  if direct then
    do cmodify (fun s => s <| op := op s + cSize |>);
    let! s := cget in
    if frameEnded (zcs s) then (do reset_session; cret Leave) else cret Again
  else
    do on_zcs (fun z => z <| outBuffContentSize := cSize |> <| outBuffFlushedSize := 0 |> <| api ::= fun c => c <| streamStage := zcss_flush |> |>);
    cret Flush.

(** The shortcut: the rest of the input ends the frame. *)
Definition end_directly : scall stream_next :=
  let! s := cget in
  let! src := cpure (asub (in_bytes (input s)) (ip s) (iend s - ip s)) in
  let! cSize := compress_to true true src in
  do cmodify (fun s => s <| ip := iend s |> <| op := op s + cSize |>);
  do on_zcs (fun z => z <| frameEnded := true |>);
  do reset_session;
  cret Leave.

Definition load_stage (flushMode : ZSTD_EndDirective) : scall stream_next :=
  let! s := cget in
  let z := zcs s in
  let! bound := cpure (as_size (ZSTD_compressBound (iend s - ip s))) in
  if bool_decide (flushMode = ZSTD_e_end) && ((bound <=? oend s - op s) || stable_out z) && (inBuffPos z =? 0) then end_directly
  else
    let! more := if buffered_in z then load_buffered flushMode else load_stable flushMode in
    if more then compress_block flushMode else cret Leave.

Definition flush_stage : scall stream_next :=
  let! s := cget in
  let z := zcs s in
  do cassert (buffered_out z);
  let toFlush := size_t (outBuffContentSize z - outBuffFlushedSize z) in
  let! got := cpure (ZSTD_limitCopy (out_bytes (output s)) (op s) (oend s - op s) (outBuff z) (outBuffFlushedSize z) toFlush) in
  let '(buf, flushed) := got in
  do cmodify (fun s => s <| output ::= fun o => o <| out_bytes := buf |> |> <| op := op s + flushed |>);
  do on_zcs (fun z => z <| outBuffFlushedSize := outBuffFlushedSize z + flushed |>);
  if negb (toFlush =? flushed) then
    let! s := cget in
    do cassert (op s =? oend s);
    cret Leave
  else
    do on_zcs (fun z => z <| outBuffContentSize := 0 |> <| outBuffFlushedSize := 0 |>);
    if frameEnded z then (do reset_session; cret Leave)
    else (do on_zcs (fun z => z <| api ::= fun c => c <| streamStage := zcss_load |> |>); cret Again).

(** One turn of the loop; [true] if there is more work. *)
Definition stream_turn (flushMode : ZSTD_EndDirective) : scall bool :=
  let! s := cget in
  let! n := match streamStage (api (zcs s)) with
            | zcss_init => creject ZSTD_error_init_missing
            | zcss_load => load_stage flushMode
            | zcss_flush => cret Flush
            end in
  let! n := match n with Flush => flush_stage | _ => cret n end in
  cret (match n with Leave => false | _ => true end).

Fixpoint stream_loop (fuel : nat) (flushMode : ZSTD_EndDirective) : scall unit :=
  match fuel with
  | O => fun _ => Fault OutOfFuel
  | S fuel => let! more := stream_turn flushMode in if more then stream_loop fuel flushMode else cret tt
  end.

Definition ZSTD_nextInputSizeHint (z : ZSTD_CStream) : Z :=
  if stable_in z then size_t (blockSizeMax z - stableIn_notConsumed z)
  else let hintInSize := size_t (inBuffTarget z - inBuffPos z) in if hintInSize =? 0 then blockSizeMax z else hintInSize.

(** Every turn but the last consumes input, a flush of the turns before and the last block apart. *)
Definition ZSTD_compressStream_generic (flushMode : ZSTD_EndDirective) : scall Z :=
  do cmodify (fun s => s <| ip := in_pos (input s) |> <| op := out_pos (output s) |>);
  let! s := cget in
  do if stable_in (zcs s) then
       do cassert (stableIn_notConsumed (zcs s) <=? in_pos (input s));
       do cmodify (fun s => s <| input ::= fun i => i <| in_pos := in_pos i - stableIn_notConsumed (zcs s) |> |> <| ip := ip s - stableIn_notConsumed (zcs s) |>);
       on_zcs (fun z => z <| stableIn_notConsumed := 0 |>)
     else cret tt;
  do if buffered_in (zcs s) then cassert (0 <? inBuffSize (zcs s)) else cret tt;
  do if buffered_out (zcs s) then cassert (0 <? outBuffSize (zcs s)) else cret tt;
  let! s := cget in
  do cassert (negb (in_src (input s) =? 0) || (in_size (input s) =? 0));
  do cassert (in_pos (input s) <=? in_size (input s));
  do cassert (negb (out_dst (output s) =? 0) || (out_size (output s) =? 0));
  do cassert (out_pos (output s) <=? out_size (output s));
  do stream_loop (Z.to_nat (iend s - ip s) + 3) flushMode;
  do cmodify (fun s => s <| input ::= fun i => i <| in_pos := ip s |> |> <| output ::= fun o => o <| out_pos := op s |> |>);
  let! s := cget in
  cret (if frameEnded (zcs s) then 0 else ZSTD_nextInputSizeHint (zcs s)).

(** ** The functions of the interface *)

Definition ZSTD_setBufferExpectations : scall unit :=
  do cmodify (fun s => if stable_in (zcs s) then s <| zcs ::= fun z => z <| expectedInBuffer := input s |> |> else s);
  cmodify (fun s => if stable_out (zcs s) then s <| zcs ::= fun z => z <| expectedOutBufferSize := size_t (out_size (output s) - out_pos (output s)) |> |> else s).

Definition ZSTD_checkBufferStability : scall unit :=
  let! s := cget in
  let z := zcs s in
  do if stable_in z then
       let expect := expectedInBuffer z in
       creject_if (negb (in_src expect =? in_src (input s)) || negb (in_pos expect =? in_pos (input s))) ZSTD_error_stabilityCondition_notRespected
     else cret tt;
  if stable_out z then
    creject_if (negb (expectedOutBufferSize z =? size_t (out_size (output s) - out_pos (output s)))) ZSTD_error_stabilityCondition_notRespected
  else cret tt.

Context (cdict_at : Z -> ZSTD_CDict).

(** With the initialisation of the buffers of the stream. *)
Definition ZSTD_CCtx_init_stream (created : Z) (endOp : ZSTD_EndDirective) (inSize : Z) : scall unit :=
  let! got := on_api (init_params cdict_at created endOp inSize) in
  let '(prefix, cd, params, pledgedSrcSize) := got in
  let! setup := fun s =>
    match compressBegin (frame (zcs s)) {| job_prefix := prefix; job_cdict := cd; job_params := params; job_pledged := pledgedSrcSize |} with
    | Ok (c, r) => Ok (s <| zcs ::= fun z => z <| frame := c |> |>, r)
    | Err e => Err e
    | Fault f => Fault f
    end in
  do on_zcs (fun z => z <| appliedParams := fs_params setup |> <| blockSizeMax := fs_block setup |> <| inBuff := fs_in setup |> <| inBuffSize := zlen (fs_in setup) |>
                        <| outBuff := fs_out setup |> <| outBuffSize := zlen (fs_out setup) |>);
  let! s := cget in
  do cassert (nbWorkers (appliedParams (zcs s)) =? 0);
  do on_zcs (fun z => z <| inToCompress := 0 |> <| inBuffPos := 0 |>
                        <| inBuffTarget := if buffered_in z then size_t (blockSizeMax z + b2z (blockSizeMax z =? pledgedSrcSize)) else 0 |>
                        <| outBuffContentSize := 0 |> <| outBuffFlushedSize := 0 |> <| frameEnded := false |>);
  on_api (cmodify (fun c => c <| streamStage := zcss_load |>)).

(** A caller that keeps its input has not given a block yet: no frame begins. *)
Definition wait_for_block : scall Z :=
  let! s := cget in
  let inputSize := in_size (input s) - in_pos (input s) in
  do if negb (stableIn_notConsumed (zcs s) =? 0) then
       do creject_if (negb (in_src (input s) =? in_src (expectedInBuffer (zcs s)))) ZSTD_error_stabilityCondition_notRespected;
       creject_if (negb (in_pos (input s) =? in_size (expectedInBuffer (zcs s)))) ZSTD_error_stabilityCondition_notRespected
     else cret tt;
  do cmodify (fun s => s <| input ::= fun i => i <| in_pos := in_size i |> |>);
  do cmodify (fun s => s <| zcs ::= fun z => z <| expectedInBuffer := input s |> <| stableIn_notConsumed := size_t (stableIn_notConsumed z + inputSize) |> |>);
  let! s := cget in
  cret (ZSTD_FRAMEHEADERSIZE_MIN (format_of (format (requestedParams (api (zcs s)))))).

(** The call once a frame has begun. *)
Definition stream_on (endOp : ZSTD_EndDirective) : scall Z :=
  do ZSTD_checkBufferStability;
  do ZSTD_compressStream_generic endOp;
  do ZSTD_setBufferExpectations;
  let! s := cget in
  cret (size_t (outBuffContentSize (zcs s) - outBuffFlushedSize (zcs s))).

Definition ZSTD_compressStream2 (created : Z) (endOp : ZSTD_EndDirective) : scall Z :=
  let! s := cget in
  do creject_if (out_size (output s) <? out_pos (output s)) ZSTD_error_dstSize_tooSmall;
  do creject_if (in_size (input s) <? in_pos (input s)) ZSTD_error_srcSize_wrong;
  let inputSize := in_size (input s) - in_pos (input s) in
  let totalInputSize := size_t (inputSize + stableIn_notConsumed (zcs s)) in
  if bool_decide (streamStage (api (zcs s)) = zcss_init) then
    if (inBufferMode (requestedParams (api (zcs s))) =? ZSTD_bm_stable) && bool_decide (endOp = ZSTD_e_continue) && (totalInputSize <? ZSTD_BLOCKSIZE_MAX) then wait_for_block
    else
      do ZSTD_CCtx_init_stream created endOp totalInputSize;
      do ZSTD_setBufferExpectations;
      stream_on endOp
  else stream_on endOp.

Definition ZSTD_compressStream (created : Z) : scall Z :=
  do ZSTD_compressStream2 created ZSTD_e_continue;
  let! s := cget in
  cret (ZSTD_nextInputSizeHint (zcs s)).

(** The functions that take buffers of their own: the context comes back, with the buffers' positions. *)
Definition with_buffers {A} (i : ZSTD_inBuffer) (o : ZSTD_outBuffer) (m : scall A) : Calls.call ZSTD_CStream (stream * A) := fun z =>
  match m {| zcs := z; input := i; output := o; ip := 0; op := 0 |} with
  | Ok (s, inr a) => Ok (zcs s, inr (s, a))
  | Ok (s, inl e) => Ok (zcs s, inl e)
  | Err e => Err e
  | Fault f => Fault f
  end.

Definition nullInput : ZSTD_inBuffer := {| in_src := 0; in_bytes := []; in_pos := 0 |}.
Definition inBuffer_forEndFlush (z : ZSTD_CStream) : ZSTD_inBuffer := if stable_in z then expectedInBuffer z else nullInput.

(** The output buffer afterwards, and the result. *)
Definition ZSTD_flushStream (created : Z) (o : ZSTD_outBuffer) : Calls.call ZSTD_CStream (ZSTD_outBuffer * Z) :=
  let! z := cget in
  let i := inBuffer_forEndFlush z in
  let i := i <| in_bytes := take (Z.to_nat (in_pos i)) (in_bytes i) |> in
  let! r := with_buffers i o (ZSTD_compressStream2 created ZSTD_e_flush) in
  cret (output r.1, r.2).

Definition ZSTD_endStream (created : Z) (o : ZSTD_outBuffer) : Calls.call ZSTD_CStream (ZSTD_outBuffer * Z) :=
  let! z := cget in
  let! r := with_buffers (inBuffer_forEndFlush z) o (ZSTD_compressStream2 created ZSTD_e_end) in
  let! z := cget in
  let lastBlockSize := if frameEnded z then 0 else ZSTD_blockHeaderSize in
  let checksumSize := if frameEnded z then 0 else size_t (p_checksumFlag (fParams (appliedParams z)) * 4) in
  cret (output r.1, size_t (r.2 + lastBlockSize + checksumSize)).

(** The contents of [dst] afterwards, with the result. *)
Definition ZSTD_compressStream2_simpleArgs (created dst : Z) (dst_bytes : list Z) (dstPos src : Z) (src_bytes : list Z) (srcPos : Z) (endOp : ZSTD_EndDirective) :
    Calls.call ZSTD_CStream (list Z * Z * Z * Z) :=
  let! r := with_buffers {| in_src := src; in_bytes := src_bytes; in_pos := srcPos |} {| out_dst := dst; out_bytes := dst_bytes; out_pos := dstPos |} (ZSTD_compressStream2 created endOp) in
  cret (out_bytes (output r.1), out_pos (output r.1), in_pos (input r.1), r.2).

(** The modes are put back whether the compression fails or not. *)
Definition ZSTD_compress2 (created dst : Z) (dst_bytes : list Z) (src : Z) (src_bytes : list Z) : Calls.call ZSTD_CStream (list Z * Z) := fun z =>
  let set_modes i o z := z <| api ::= fun c => c <| requestedParams := requestedParams c <| inBufferMode := i |> <| outBufferMode := o |> |> |> in
  let requested := requestedParams (api z) in
  match ZSTD_CCtx_reset ZSTD_reset_session_only (api z) with
  | Ok (c, _) =>
      let z := set_modes ZSTD_bm_stable ZSTD_bm_stable (z <| api := c |>) in
      match ZSTD_compressStream2_simpleArgs created dst dst_bytes 0 src src_bytes 0 ZSTD_e_end z with
      | Ok (z, r) =>
          (let! got := match r with inr a => cret a | inl e => creject e end in
           let '(bs, oPos, iPos, result) := got in
           do (if negb (result =? 0) then (do cassert (oPos =? zlen dst_bytes); creject ZSTD_error_dstSize_tooSmall) else cret tt);
           do cassert (iPos =? zlen src_bytes);
           cret (bs, oPos)) (set_modes (inBufferMode requested) (outBufferMode requested) z)
      | Err e => Err e
      | Fault f => Fault f
      end
  | Err e => Err e
  | Fault f => Fault f
  end.
End Stream.
