(* ===== verification/CStreamOk.v ===== *)
(** * A stream is a frame of what was fed

    What a compressor of frames promises to the stream ([FrameCompressorLaws]), what holds of a stream between two
    turns of its loop and between two calls, and the theorems: a call ends, no buffer is
    overrun, no byte is lost, repeated or moved, whatever the sizes of the buffers and the directives. *)
From S2P Require Import Prelude Mem Errors Bits Frame ExecSeq CParams RecordUpdate Calls CCtxParams CwkspArena CCtxSize CCtxApi CStream.

(** The fields of the records that assignments went to. *)
Ltac fields := cbn [update zcs input output ip op api frame appliedParams blockSizeMax inBuff inBuffSize inToCompress inBuffPos inBuffTarget outBuff outBuffSize outBuffContentSize
  outBuffFlushedSize frameEnded expectedInBuffer stableIn_notConsumed expectedOutBufferSize in_src in_bytes in_pos out_dst out_bytes out_pos streamStage requestedParams pledgedSrcSizePlusOne].

Section Memory.
Context `{P : Platform}.

(** The contents of an object in memory: two pointers into it have a difference. *)
Definition mem_ok (l : list Z) : Prop := bytes l /\ 2 * zlen l < word_size.

Lemma mem_ok_slice l i n : mem_ok l -> mem_ok (slice l i n).
Proof.
  intros [H1 H2]. split; [by apply bytes_slice|]. unfold slice, zlen in *. rewrite length_take, length_drop. lia.
Qed.

Lemma mem_ok_splice l i k : mem_ok l -> bytes k -> 0 <= i -> i + zlen k <= zlen l -> mem_ok (splice l i k).
Proof. intros [H1 H2] Hk Hi Hl. split; [by apply bytes_of_splice|]. by rewrite zlen_splice. Qed.

(** The copy of [ZSTD_limitCopy] ends at the end of the shorter buffer. *)
Lemma limitCopy_spec dst d dcap src a n : 0 <= d -> 0 <= dcap -> d + dcap <= zlen dst -> 0 <= a -> 0 <= n -> a + n <= zlen src ->
  ZSTD_limitCopy dst d dcap src a n = Ok (splice dst d (slice src a (Z.min dcap n)), Z.min dcap n).
Proof.
  intros. unfold ZSTD_limitCopy. destruct (Z.ltb_spec 0 (Z.min dcap n)) as [Hm|Hm].
  - rewrite asub_Ok by lia. cbn [obind]. rewrite awrite_Ok; [done|lia|]. rewrite zlen_slice; lia.
  - replace (Z.min dcap n) with 0 by lia. unfold slice, splice. cbn [Z.to_nat take]. rewrite firstn_O, app_nil_l. cbn [length]. rewrite Nat.add_0_r. by rewrite take_drop.
Qed.
End Memory.

(** ** The contract of a compressor of frames *)

Record setup_ok `{P : Platform} (j : frame_job) (su : frame_setup) : Prop := {
  su_inMode : inBufferMode (fs_params su) = inBufferMode (job_params j);
  su_outMode : outBufferMode (fs_params su) = outBufferMode (job_params j);
  su_workers : nbWorkers (fs_params su) = 0;
  su_block : 1 <= fs_block su;
  su_in : mem_ok (fs_in su);
  su_out : mem_ok (fs_out su);
  su_in_room : inBufferMode (job_params j) = ZSTD_bm_buffered -> fs_block su + 1 <= zlen (fs_in su) /\ zlen (fs_in su) + fs_block su < word_size;
  su_out_room : outBufferMode (job_params j) = ZSTD_bm_buffered -> 1 <= zlen (fs_out su)
}.

(** [session j c i o]: in the state [c] of the frame [j], [i] has been compressed and [o] produced; [complete j i o]: [o] is a frame of [i]. *)
Class FrameCompressorLaws `{P : Platform} (C : Type) `{FC : FrameCompressor C} := {
  session : frame_job -> C -> list Z -> list Z -> Prop;
  complete : frame_job -> list Z -> list Z -> Prop;
  begin_law c j : started (job_params j) -> 0 <= job_pledged j < 2 ^ 64 ->
    match compressBegin c j with
    | Ok (c, inr su) => session j c [] [] /\ setup_ok j su
    | Ok (_, inl _) => True
    | _ => False
    end;
  continue_law j c i o dst src : session j c i o -> mem_ok dst -> mem_ok src -> zlen i + zlen src < 2 ^ 64 ->
    match compressContinue c dst src with
    | Ok (c, dst', r) => bytes dst' /\ zlen dst' = zlen dst /\
        match r with inr n => 0 <= n <= zlen dst /\ session j c (i ++ src) (o ++ slice dst' 0 n) | inl _ => True end
    | _ => False
    end;
  end_law j c i o dst src : session j c i o -> mem_ok dst -> mem_ok src -> zlen i + zlen src < 2 ^ 64 ->
    match compressEnd c dst src with
    | Ok (c, dst', r) => bytes dst' /\ zlen dst' = zlen dst /\
        match r with inr n => 0 <= n <= zlen dst /\ complete j (i ++ src) (o ++ slice dst' 0 n) | inl _ => True end
    | _ => False
    end
}.

Section Turns.
Context `{P : Platform} {C : Type} `{FC : FrameCompressor C} `{FL : !FrameCompressorLaws C}.
Implicit Types (z : ZSTD_CStream (C := C)) (s : stream (C := C)).

(** ** What holds of a context while it streams *)

Record shape z : Prop := {
  sh_in_mode : buffered_in z = negb (stable_in z);
  sh_out_mode : buffered_out z = negb (stable_out z);
  sh_block : 1 <= blockSizeMax z;
  sh_in : mem_ok (inBuff z) /\ zlen (inBuff z) = inBuffSize z;
  sh_out : mem_ok (outBuff z) /\ zlen (outBuff z) = outBuffSize z;
  sh_load : if buffered_in z then 0 <= inToCompress z <= inBuffPos z /\ inBuffPos z <= inBuffTarget z <= inBuffSize z /\ blockSizeMax z <= inBuffSize z /\ inBuffSize z + blockSizeMax z < word_size
            else inToCompress z = 0 /\ inBuffPos z = 0;
  sh_room : buffered_out z = true -> 1 <= outBuffSize z;
  sh_flush : 0 <= outBuffFlushedSize z <= outBuffContentSize z /\ outBuffContentSize z <= outBuffSize z
}.

(** Input that waits in [inBuff], output that waits in [outBuff]. *)
Definition held z : list Z := slice (inBuff z) (inToCompress z) (inBuffPos z - inToCompress z).
Definition pending z : list Z := slice (outBuff z) (outBuffFlushedSize z) (outBuffContentSize z - outBuffFlushedSize z).

Definition stage_of z : ZSTD_cStreamStage := streamStage (api z).

Definition staged z : Prop :=
  match stage_of z with
  | zcss_load => outBuffContentSize z = 0 /\ outBuffFlushedSize z = 0 /\ frameEnded z = false
  | zcss_flush => buffered_out z = true /\ (frameEnded z = true -> held z = [])
  | zcss_init => outBuffContentSize z = 0 /\ outBuffFlushedSize z = 0 /\ frameEnded z = true /\ held z = []
  end.

(** [i] has been compressed to [o]. *)
Definition compressed (j : frame_job) z (i o : list Z) : Prop := if frameEnded z then complete j i o else session j (frame z) i o.

(** ** A piece of the frame *)

Lemma frame_law (last : bool) j c i o dst src : session j c i o -> mem_ok dst -> mem_ok src -> zlen i + zlen src < 2 ^ 64 -> exists c' dst' r,
  (if last then compressEnd else compressContinue) c dst src = Ok (c', dst', r) /\ bytes dst' /\ zlen dst' = zlen dst /\
  match r with inr n => 0 <= n <= zlen dst /\ (if last then complete j (i ++ src) (o ++ slice dst' 0 n) else session j c' (i ++ src) (o ++ slice dst' 0 n)) | inl _ => True end.
Proof.
  intros Hs Hd Hsrc Ht. destruct last.
  - pose proof (end_law j c i o dst src Hs Hd Hsrc Ht) as H. destruct (compressEnd c dst src) as [[[c' dst'] r]| |]; [|done..]. by exists c', dst', r.
  - pose proof (continue_law j c i o dst src Hs Hd Hsrc Ht) as H. destruct (compressContinue c dst src) as [[[c' dst'] r]| |]; [|done..]. by exists c', dst', r.
Qed.

Definition with_frame (c : C) s : stream := s <| zcs ::= fun z => z <| frame := c |> |>.

(** To the output: what lies before [op] stays. *)
Lemma compress_direct last src j i o s : session j (frame (zcs s)) i o -> mem_ok (out_bytes (output s)) -> 0 <= op s <= oend s -> mem_ok src -> zlen i + zlen src < 2 ^ 64 -> exists c' dst' r,
  compress_to last true src s = Ok (with_frame c' s <| output ::= fun b => b <| out_bytes := splice (out_bytes (output s)) (op s) dst' |> |>, r) /\
  bytes dst' /\ zlen dst' = oend s - op s /\
  match r with inr n => 0 <= n <= oend s - op s /\ (if last then complete j (i ++ src) (o ++ slice dst' 0 n) else session j c' (i ++ src) (o ++ slice dst' 0 n)) | inl _ => True end.
Proof.
  intros Hs Ho Hop Hsrc Ht. unfold oend, out_size in *. destruct (frame_law last j _ i o (slice (out_bytes (output s)) (op s) (zlen (out_bytes (output s)) - op s)) src Hs) as (c' & dst' & r & E & Hb & Hl & Hr); [by apply mem_ok_slice|done|done|].
  rewrite zlen_slice in Hl, Hr by lia. exists c', dst', r. unfold compress_to, cbind at 1, cget. unfold cbind at 1, cpure at 1. unfold oend, out_size. rewrite asub_Ok by lia. rewrite E.
  unfold with_frame. cbn [update zcs output op out_bytes]. unfold cbind at 1 2, cpure, cmodify. rewrite awrite_Ok by lia. split; [by destruct r|done].
Qed.

(** To [outBuff]. *)
Lemma compress_buffered last src j i o s : session j (frame (zcs s)) i o -> shape (zcs s) -> mem_ok src -> zlen i + zlen src < 2 ^ 64 -> exists c' dst' r,
  compress_to last false src s = Ok (with_frame c' s <| zcs ::= fun z => z <| outBuff := dst' |> |>, r) /\
  mem_ok dst' /\ zlen dst' = outBuffSize (zcs s) /\
  match r with inr n => 0 <= n <= outBuffSize (zcs s) /\ (if last then complete j (i ++ src) (o ++ slice dst' 0 n) else session j c' (i ++ src) (o ++ slice dst' 0 n)) | inl _ => True end.
Proof.
  intros Hs Hsh Hsrc Ht. destruct (sh_out _ Hsh) as [Ho Hl]. pose proof (zlen_nonneg (outBuff (zcs s))).
  destruct (frame_law last j _ i o (slice (outBuff (zcs s)) 0 (outBuffSize (zcs s))) src Hs) as (c' & dst' & r & E & Hb & Hl' & Hr); [by apply mem_ok_slice|done|done|].
  rewrite zlen_slice in Hl', Hr by lia. exists c', dst', r. unfold compress_to, cbind at 1, cget. unfold cbind at 1, cpure at 1. rewrite asub_Ok by lia. rewrite E.
  unfold with_frame. cbn [update zcs outBuff]. unfold cbind at 1 2, cpure, on_zcs, cmodify. rewrite awrite_Ok by lia.
  assert (splice (outBuff (zcs s)) 0 dst' = dst') as ->. { unfold splice. cbn [Z.to_nat take]. rewrite firstn_O, app_nil_l, drop_ge, app_nil_r; [done|]. unfold zlen in *. lia. }
  split; [by destruct r|]. split; [|done]. split; [done|]. rewrite Hl', <- Hl. apply Ho.
Qed.

(** ** The loop *)
Section Loop.
(** The frame; what was fed and given out before; the input, the output and the positions at the start; whether the frame was at its end. *)
Context (requested : ZSTD_CCtx_params) (expected : ZSTD_inBuffer) (expectedOut : Z).
Context (j : frame_job) (F M : list Z) (I : ZSTD_inBuffer) (O : ZSTD_outBuffer) (ip0 op0 : Z) (ended : bool).
Context (Htotal : zlen F + (in_size I - ip0) < 2 ^ 64).

(** At [p] of the input: what follows it has not been read, though [ip] may be further on.  A block may be [full] when it was loaded. *)
Record looping (full : bool) (p : Z) s : Prop := {
  lo_shape : shape (zcs s);
  lo_room : full = false -> buffered_in (zcs s) = true -> inBuffPos (zcs s) < inBuffTarget (zcs s);
  lo_staged : staged (zcs s);
  lo_api : ctx_ok (api (zcs s)) /\ requestedParams (api (zcs s)) = requested;
  lo_expected : expectedInBuffer (zcs s) = expected /\ expectedOutBufferSize (zcs s) = expectedOut;
  lo_input : input s = I /\ mem_ok (in_bytes I);
  lo_output : mem_ok (out_bytes (output s)) /\ zlen (out_bytes (output s)) = zlen (out_bytes O) /\ out_dst (output s) = out_dst O /\
              take (Z.to_nat op0) (out_bytes (output s)) = take (Z.to_nat op0) (out_bytes O);
  lo_ip : 0 <= ip0 <= p /\ p <= ip s <= in_size I;
  lo_op : 0 <= op0 <= op s /\ op s <= zlen (out_bytes O);
  lo_held_back : stableIn_notConsumed (zcs s) = ip s - p /\ (buffered_in (zcs s) = true -> ip s = p);
  lo_data : exists i o, compressed j (zcs s) i o /\ i ++ held (zcs s) = F ++ slice (in_bytes I) ip0 (p - ip0) /\
              o = M ++ slice (out_bytes (output s)) op0 (op s - op0) ++ pending (zcs s);
  lo_ended : frameEnded (zcs s) = true -> p = in_size I \/ ended = true
}.

(** When the loop is left. *)
Definition left (fm : ZSTD_EndDirective) (p : Z) s : Prop :=
  match stage_of (zcs s) with
  | zcss_init => p = ip s
  | zcss_load => ip s = in_size I /\ fm <> ZSTD_e_end /\ (fm = ZSTD_e_flush -> held (zcs s) = [] /\ p = ip s)
  | zcss_flush => 0 < zlen (pending (zcs s)) /\ op s = zlen (out_bytes O)
  end.

Lemma pending_none z : outBuffContentSize z = 0 -> outBuffFlushedSize z = 0 -> pending z = [].
Proof. intros E1 E2. unfold pending. by rewrite E1, E2. Qed.

Lemma zlen_pending z : shape z -> zlen (pending z) = outBuffContentSize z - outBuffFlushedSize z.
Proof. intros []. unfold pending. destruct sh_out0 as [_ ?]. rewrite zlen_slice; lia. Qed.

(** [ctx_ok] does not depend on the stage of the stream, nor on the pledged size. *)
Lemma ctx_stage c st n : ctx_ok c -> 0 <= n < 2 ^ 64 -> ctx_ok (c <| streamStage := st |> <| pledgedSrcSizePlusOne := n |>).
Proof. intros Hc Hn. apply (ready_ok 0), (ready_same 0 c); try done; [by split; [|left]|apply Hc]. Qed.

Lemma flush_turn s fm : looping false (ip s) s -> stage_of (zcs s) = zcss_flush -> exists s' n, flush_stage s = Ok (s', inr n) /\ ip s' = ip s /\ looping false (ip s) s' /\
  match n with
  | Leave => left fm (ip s) s'
  | Again => stage_of (zcs s') = zcss_load /\ held (zcs s') = held (zcs s) /\ frameEnded (zcs s) = false
  | Flush => False
  end.
Proof.
  intros H Hst. pose proof (lo_staged _ _ _ H) as Hsg. unfold staged in Hsg. rewrite Hst in Hsg. destruct Hsg as [Hsg Hheld]. pose proof (lo_shape _ _ _ H) as Hsh. destruct (sh_flush _ Hsh) as [Hf1 Hf2]. destruct (sh_out _ Hsh) as [Ho Hol].
  destruct (lo_output _ _ _ H) as (Hob & Hon & Hod & Hot). pose proof (lo_op _ _ _ H) as [Hop1 Hop2]. destruct Ho as [Hob' How].
  unfold flush_stage, cbind at 1, cget. rewrite Hsg. unfold cbind at 1, cassert, cret at 1. rewrite size_t_in by lia. unfold cbind at 1, cpure at 1. unfold oend, out_size.
  rewrite limitCopy_spec by lia. set (n := Z.min _ _). unfold cbind at 1, cmodify at 1, cbind at 1, on_zcs, cmodify at 1.
  assert (slice (splice (out_bytes (output s)) (op s) (slice (outBuff (zcs s)) (outBuffFlushedSize (zcs s)) n)) op0 (op s + n - op0) =
    slice (out_bytes (output s)) op0 (op s - op0) ++ slice (outBuff (zcs s)) (outBuffFlushedSize (zcs s)) n) as Eout.
  { replace (op s + n - op0) with (op s - op0 + n) by lia. rewrite slice_splice_prefix by (rewrite ?zlen_slice; lia). f_equal. rewrite take_ge; [done|]. pose proof (zlen_slice (outBuff (zcs s)) (outBuffFlushedSize (zcs s)) n). unfold zlen in *. lia. }
  pose proof (mem_ok_splice _ (op s) (slice (outBuff (zcs s)) (outBuffFlushedSize (zcs s)) n) Hob (bytes_slice _ _ _ Hob') ltac:(lia) ltac:(rewrite zlen_slice; lia)) as Hnew.
  pose proof (zlen_splice (out_bytes (output s)) (op s) (slice (outBuff (zcs s)) (outBuffFlushedSize (zcs s)) n) ltac:(lia) ltac:(rewrite zlen_slice; lia)) as Hnl.
  pose proof (take_splice (out_bytes (output s)) (op s) (slice (outBuff (zcs s)) (outBuffFlushedSize (zcs s)) n) op0 ltac:(lia) ltac:(lia)) as Hnt.
  destruct H as [Hsh' Hrm Hsg' [Ha1 Ha2] Hex Hin _ Hip _ Hnc (i & o & Hc & Hi & Eo) Hen].
  destruct (Z.eqb_spec (outBuffContentSize (zcs s) - outBuffFlushedSize (zcs s)) n) as [En|En]; cbn [negb].
  - unfold cbind at 1, cmodify at 1.
    assert (forall z', shape z' -> staged z' -> ctx_ok (api z') /\ requestedParams (api z') = requested -> expectedInBuffer z' = expected /\ expectedOutBufferSize z' = expectedOut ->
      stableIn_notConsumed z' = 0 -> buffered_in z' = buffered_in (zcs s) -> (buffered_in z' = true -> inBuffPos z' < inBuffTarget z') -> compressed j z' i o -> held z' = held (zcs s) -> pending z' = [] -> frameEnded z' = frameEnded (zcs s) ->
      looping false (ip s) (s <| zcs := z' |> <| output ::= fun b => b <| out_bytes := splice (out_bytes (output s)) (op s) (slice (outBuff (zcs s)) (outBuffFlushedSize (zcs s)) n) |> |> <| op := op s + n |>)) as Hk.
    { intros z' K1 K2 K3 K4 K5 K6 K6' K7 K8 K9 K10. constructor; fields; try done; [split_and!; [done|congruence|done|congruence]|lia|split; [rewrite K5; lia|done]| |by rewrite K10].
      exists i, o. split; [done|]. rewrite K8. split; [done|]. rewrite K9, app_nil_r, Eout, Eo. unfold pending. by rewrite En. }
    assert (0 <= pledgedSrcSizePlusOne (api (zcs s)) < 2 ^ 64) as Hpl by apply Ha1.
    destruct (frameEnded (zcs s)) eqn:Ef.
    + eexists (s <| zcs := zcs s <| outBuffContentSize := 0 |> <| outBuffFlushedSize := 0 |> <| api := api (zcs s) <| streamStage := zcss_init |> <| pledgedSrcSizePlusOne := 0 |> |> |> <| output ::= _ |> <| op := _ |>), Leave. split; [reflexivity|]. split; [done|]. split; [|done]. apply Hk; try done; fields.
      * destruct Hsh. constructor; try done. fields. lia.
      * unfold staged, stage_of. fields. split_and!; try done. by apply Hheld.
      * split; [by apply ctx_stage|done].
      * rewrite (proj1 Hnc). lia.
      * exact (Hrm eq_refl).
    + eexists (s <| zcs := zcs s <| outBuffContentSize := 0 |> <| outBuffFlushedSize := 0 |> <| api := api (zcs s) <| streamStage := zcss_load |> |> |> <| output ::= _ |> <| op := _ |>), Again. split; [reflexivity|]. split; [done|]. split; [|done]. apply Hk; try done; fields.
      * destruct Hsh. constructor; try done. fields. lia.
      * split; [|done]. by apply (ctx_stage _ _ _ Ha1 Hpl).
      * rewrite (proj1 Hnc). lia.
      * exact (Hrm eq_refl).
  - unfold cbind at 1, cget. fields. unfold oend, out_size. fields. rewrite Hnl, Hon. rewrite (proj2 (Z.eqb_eq (op s + n) _)) by lia. unfold cbind, cassert, cret.
    eexists _, Leave. split; [reflexivity|]. split; [done|]. split.
    + constructor; fields; try done; [| |split_and!; [done|congruence|done|congruence]|lia|].
      * destruct Hsh. constructor; try done. fields. lia.
      * unfold staged, stage_of in *. fields. rewrite Hst. split; [done|exact Hheld].
      * exists i, o. split; [done|]. split; [done|]. rewrite Eout, Eo, <- !app_assoc. unfold pending. fields. do 2 f_equal.
        rewrite slice_app by lia. f_equal. lia.
    + unfold left, stage_of, pending in *. fields. rewrite Hst. fields. split; [|lia]. rewrite zlen_slice; lia.
Qed.

(** *** Compressing a block *)

Lemma stream_bound_total n : exists b, as_size (ZSTD_compressBound n) = Ok b.
Proof. unfold ZSTD_compressBound. destruct (_ =? 0); by eexists. Qed.

(** The state of the buffers of a context when a block has been compressed. *)
Definition next_block z : ZSTD_CStream :=
  if buffered_in z then
    if inBuffSize z <? inBuffPos z + blockSizeMax z then z <| inBuffPos := 0 |> <| inBuffTarget := blockSizeMax z |> <| inToCompress := 0 |>
    else z <| inBuffTarget := inBuffPos z + blockSizeMax z |> <| inToCompress := inBuffPos z |>
  else z.

Definition block_size s : Z := if buffered_in (zcs s) then inBuffPos (zcs s) - inToCompress (zcs s) else Z.min (iend s - ip s) (blockSizeMax (zcs s)).
Definition block_src s : list Z := if buffered_in (zcs s) then held (zcs s) else slice (in_bytes (input s)) (ip s) (block_size s).
Definition block_ip s : Z := if buffered_in (zcs s) then ip s else ip s + block_size s.
Definition block_last fm s : bool := bool_decide (fm = ZSTD_e_end) && (block_ip s =? iend s).

Lemma next_block_ok z : shape z -> shape (next_block z) /\ held (next_block z) = [] /\ (buffered_in z = true -> inBuffPos (next_block z) < inBuffTarget (next_block z)).
Proof.
  intros H. pose proof (sh_load _ H) as Hl. pose proof (sh_block _ H). unfold next_block, held. destruct (buffered_in z) eqn:Eb.
  - destruct (Z.ltb_spec (inBuffSize z) (inBuffPos z + blockSizeMax z)); fields; (split; [|split; [by rewrite Z.sub_diag|lia]]);
      destruct H; constructor; try done; unfold buffered_in in *; fields; rewrite Eb; lia.
  - split; [done|]. split; [|done]. destruct Hl as [-> ->]. done.
Qed.

Lemma next_block_eq z (last : bool) : buffered_in z = true -> 0 <= inBuffPos z + blockSizeMax z < word_size ->
  let z1 := z <| frameEnded := last |> <| inBuffTarget := size_t (inBuffPos z + blockSizeMax z) |> in
  let z2 := if inBuffSize z1 <? inBuffTarget z1 then z1 <| inBuffPos := 0 |> <| inBuffTarget := blockSizeMax z1 |> else z1 in
  z2 <| inToCompress := inBuffPos z2 |> = next_block (z <| frameEnded := last |>).
Proof. destruct z. unfold next_block, buffered_in. fields. intros -> Hn. rewrite size_t_in by lia. by destruct (_ <? _). Qed.

Lemma next_block_stable z : buffered_in z = false -> next_block z = z.
Proof. unfold next_block. by intros ->. Qed.

(** Assignments to a stream, one after the other. *)
Lemma zcs_after s f g h : s <| zcs ::= f |> <| zcs ::= g |> <| zcs ::= h |> = s <| zcs := h (g (f (zcs s))) |>.
Proof. done. Qed.

Lemma zcs_ip s f : s <| zcs ::= f |> <| ip := ip s |> = s <| zcs := f (zcs s) |>.
Proof. by destruct s. Qed.

(** The stream after a piece of the frame was written, and its block marked as done. *)
Definition compressed_to (direct : bool) (c : C) (dst : list Z) s : stream :=
  if direct then with_frame c s <| output ::= fun b => b <| out_bytes := splice (out_bytes (output s)) (op s) dst |> |>
  else with_frame c s <| zcs ::= fun z => z <| outBuff := dst |> |>.

Definition block_done fm direct (c : C) (dst : list Z) s : stream :=
  compressed_to direct c dst s <| zcs ::= fun z => next_block (z <| frameEnded := block_last fm s |>) |> <| ip := block_ip s |>.

Lemma compress_step (last direct : bool) src i o s : session j (frame (zcs s)) i o -> shape (zcs s) -> mem_ok (out_bytes (output s)) -> 0 <= op s <= oend s -> mem_ok src -> zlen i + zlen src < 2 ^ 64 -> exists c dst r,
  compress_to last direct src s = Ok (compressed_to direct c dst s, r) /\ bytes dst /\ zlen dst = (if direct then oend s - op s else outBuffSize (zcs s)) /\
  match r with inr n => 0 <= n <= zlen dst /\ (if last then complete j (i ++ src) (o ++ slice dst 0 n) else session j c (i ++ src) (o ++ slice dst 0 n)) | inl _ => True end.
Proof.
  intros Hs Hsh Ho Hop Hsrc Ht. destruct direct.
  - destruct (compress_direct last src j i o s Hs Ho Hop Hsrc Ht) as (c & dst & r & E & Hb & Hl & Hr). exists c, dst, r. by rewrite Hl.
  - destruct (compress_buffered last src j i o s Hs Hsh Hsrc Ht) as (c & dst & r & E & Hb & Hl & Hr). exists c, dst, r. rewrite Hl. by destruct Hb.
Qed.

(** What was read and what was compressed, once the block is. *)
Lemma block_data s i : looping true (ip s) s -> i ++ held (zcs s) = F ++ slice (in_bytes I) ip0 (ip s - ip0) -> i ++ block_src s = F ++ slice (in_bytes I) ip0 (block_ip s - ip0).
Proof.
  intros H Hi. unfold block_src, block_ip. pose proof (sh_load _ (lo_shape _ _ _ H)) as Hl. destruct (lo_input _ _ _ H) as [Ei _]. pose proof (lo_ip _ _ _ H) as Hip. pose proof (sh_block _ (lo_shape _ _ _ H)). destruct (buffered_in (zcs s)) eqn:Eb; [done|].
  unfold held in Hi. destruct Hl as [E1 E2]. rewrite E1, E2 in Hi. cbn [Z.sub Z.opp Z.add] in Hi. unfold slice at 1 in Hi. cbn [Z.to_nat] in Hi. rewrite firstn_O, app_nil_r in Hi. rewrite Hi, <- app_assoc. f_equal.
  assert (0 <= block_size s) by (unfold block_size, iend; rewrite Eb, Ei; lia). rewrite Ei. replace (ip s) with (ip0 + (ip s - ip0)) at 2 by lia. rewrite slice_app by lia. f_equal. lia.
Qed.

Lemma block_ip_bounds s : looping true (ip s) s -> ip s <= block_ip s <= in_size I.
Proof.
  intros H. unfold block_ip, block_size, iend. pose proof (sh_block _ (lo_shape _ _ _ H)). destruct (lo_input _ _ _ H) as [-> _]. pose proof (lo_ip _ _ _ H). destruct (buffered_in (zcs s)); lia.
Qed.

Lemma block_total s i : looping true (ip s) s -> i ++ held (zcs s) = F ++ slice (in_bytes I) ip0 (ip s - ip0) -> zlen i + zlen (block_src s) < 2 ^ 64.
Proof.
  intros H Hi. pose proof (f_equal zlen (block_data s i H Hi)) as Hz. pose proof (block_ip_bounds s H). pose proof (lo_ip _ _ _ H). rewrite !zlen_app, zlen_slice in Hz by (unfold in_size in *; lia). lia.
Qed.

Lemma compress_input_spec fm direct i o s : session j (frame (zcs s)) i o -> looping true (ip s) s -> i ++ held (zcs s) = F ++ slice (in_bytes I) ip0 (ip s - ip0) -> exists c dst r,
  compress_input fm (block_size s) direct s = Ok (match r with inr _ => block_done fm direct c dst s | inl _ => compressed_to direct c dst s end, r) /\
  bytes dst /\ zlen dst = (if direct then oend s - op s else outBuffSize (zcs s)) /\
  match r with
  | inr n => 0 <= n <= zlen dst /\ (if block_last fm s then complete j (i ++ block_src s) (o ++ slice dst 0 n) else session j c (i ++ block_src s) (o ++ slice dst 0 n))
  | inl _ => True
  end.
Proof.
  intros Hs H Hdt. pose proof (lo_shape _ _ _ H) as Hsh. pose proof (sh_load _ Hsh) as Hl. pose proof (sh_block _ Hsh) as Hbl. destruct (sh_in _ Hsh) as [Hi Hin]. destruct (lo_output _ _ _ H) as (Hob & Hon & _). destruct (lo_input _ _ _ H) as [Ei Hib].
  pose proof (lo_ip _ _ _ H) as Hip. pose proof (lo_op _ _ _ H) as Hop.
  destruct (compress_step (block_last fm s) direct (block_src s) i o s) as (c & dst & r & E & Hb & Hd & Hr); try done.
  { unfold oend, out_size. lia. }
  { unfold block_src. destruct (buffered_in (zcs s)); [by apply mem_ok_slice|]. rewrite Ei. by apply mem_ok_slice. }
  { by apply block_total. }
  exists c, dst, r. split; [|done]. unfold compress_input. rewrite bind_get.
  destruct (buffered_in (zcs s)) eqn:Eb.
  - assert (bool_decide (fm = ZSTD_e_end) && (ip s =? iend s) = block_last fm s) as -> by (unfold block_last, block_ip; by rewrite Eb).
    assert (block_size s = inBuffPos (zcs s) - inToCompress (zcs s)) as -> by (unfold block_size; by rewrite Eb). rewrite (bind_pure _ (block_src s)) by (rewrite asub_Ok by lia; unfold block_src; by rewrite Eb).
    rewrite (bind_step _ _ _ _ _ E). destruct r as [e|n]; [done|]. unfold on_zcs at 1 2. rewrite !bind_modify, bind_get.
    assert (buffered_in (zcs (compressed_to direct c dst s)) = true /\ inBuffPos (zcs (compressed_to direct c dst s)) = inBuffPos (zcs s) /\ blockSizeMax (zcs (compressed_to direct c dst s)) = blockSizeMax (zcs s) /\
      inBuffSize (zcs (compressed_to direct c dst s)) = inBuffSize (zcs s) /\ ip (compressed_to direct c dst s) = ip s) as (E1 & E2 & E3 & E4 & E5) by by destruct direct.
    rewrite bind_assert. 2:{ apply orb_true_iff. right. apply Z.leb_le. fields. rewrite E2, E3, E4, size_t_in by lia. destruct (Z.ltb_spec (inBuffSize (zcs s)) (inBuffPos (zcs s) + blockSizeMax (zcs s))); fields; rewrite ?E2, ?E3, ?E4, ?size_t_in; lia. }
    unfold on_zcs. rewrite bind_modify. unfold cret, block_done, block_ip. rewrite Eb. do 2 f_equal. rewrite <- E5, zcs_ip, zcs_after.
    by rewrite <- next_block_eq by (rewrite ?E2, ?E3; done || lia).
  - assert (bool_decide (fm = ZSTD_e_end) && (ip s + block_size s =? iend s) = block_last fm s) as -> by (unfold block_last, block_ip; by rewrite Eb).
    rewrite (bind_pure _ (block_src s)).
    2:{ unfold block_src. rewrite Eb, Ei. unfold block_size, iend. rewrite Eb, Ei. apply asub_Ok; unfold in_size in *; lia. }
    rewrite (bind_step _ _ _ _ _ E). destruct r as [e|n]; [done|]. unfold on_zcs. rewrite !bind_modify, bind_get.
    assert (ip (compressed_to direct c dst s) = ip s /\ input (compressed_to direct c dst s) = input s) as [E1 E2] by by destruct direct.
    rewrite bind_assert. 2:{ unfold iend. fields. rewrite E1, E2. unfold block_last, block_ip, iend. rewrite Eb. destruct (bool_decide _), (Z.eqb_spec (ip s + block_size s) (in_size (input s))); done. }
    unfold cret, block_done, block_ip. do 2 f_equal. rewrite Eb, E1. transitivity (compressed_to direct c dst s <| zcs := zcs (compressed_to direct c dst s) <| frameEnded := block_last fm s |> |> <| ip := ip s + block_size s |>); [done|].
    rewrite <- (next_block_stable (zcs (compressed_to direct c dst s) <| frameEnded := block_last fm s |>)); [done|]. rewrite <- Eb. by destruct direct.
Qed.

Lemma next_block_form z : exists a b c, next_block z = z <| inBuffPos := a |> <| inBuffTarget := b |> <| inToCompress := c |>.
Proof.
  unfold next_block. destruct (buffered_in z); [destruct (_ <? _)|]; [by exists 0, (blockSizeMax z), 0|exists (inBuffPos z), (inBuffPos z + blockSizeMax z), (inBuffPos z)|exists (inBuffPos z), (inBuffTarget z), (inToCompress z)]; by destruct z.
Qed.

(** After an error the context can be reset. *)
Definition failed s : Prop := ctx_ok (api (zcs s)) /\ requestedParams (api (zcs s)) = requested.

Lemma block_turn fm s : looping true (ip s) s -> stage_of (zcs s) = zcss_load -> exists s' r, compress_block fm s = Ok (s', r) /\
  match r with
  | inl _ => failed s'
  | inr n => looping false (ip s') s' /\ ip s' = block_ip s /\ held (zcs s') = [] /\ frameEnded (zcs s') = block_last fm s /\ stage_of (zcs s') = match n with Leave => zcss_init | Again => zcss_load | Flush => zcss_flush end
  end.
Proof.
  intros H Hst. pose proof (lo_staged _ _ _ H) as Hsg. unfold staged in Hsg. rewrite Hst in Hsg. destruct Hsg as (Hg1 & Hg2 & Hg3). destruct (lo_data _ _ _ H) as (i & o & Hc & Hi & Ho). unfold compressed in Hc. rewrite Hg3 in Hc.
  pose proof (lo_shape _ _ _ H) as Hsh. unfold compress_block. rewrite bind_get.
  assert ((if buffered_in (zcs s) then size_t (inBuffPos (zcs s) - inToCompress (zcs s)) else Z.min (iend s - ip s) (blockSizeMax (zcs s))) = block_size s) as ->.
  { unfold block_size. pose proof (sh_load _ Hsh) as Hl. pose proof (sh_block _ Hsh). destruct (buffered_in (zcs s)); [|done]. rewrite size_t_in; lia. }
  destruct (stream_bound_total (block_size s)) as [b Eb]. rewrite (bind_pure _ _ _ _ Eb). remember ((b <=? oend s - op s) || stable_out (zcs s)) as direct eqn:Ed.
  destruct (compress_input_spec fm direct i o s Hc H Hi) as (c & dst & r & E & Hb & Hl & Hr). rewrite (bind_step _ _ _ _ _ E).
  destruct (lo_api _ _ _ H) as [Ha1 Ha2]. destruct r as [e|n]; [by eexists _, (inl e); split; [reflexivity|]; destruct direct|]. destruct Hr as [Hn Hr].
  pose proof (block_data s i H Hi) as Hdata. pose proof (block_ip_bounds s H) as Hbip. unfold block_done. set (z1 := zcs (compressed_to direct c dst s) <| frameEnded := block_last fm s |>).
  assert (shape z1) as Hz1. { subst z1. destruct Hsh. destruct direct; constructor; try done. split; [|done]. split; [done|]. change (2 * zlen dst < word_size). rewrite Hl, <- (proj2 sh_out0). apply sh_out0. }
  destruct (next_block_ok z1 Hz1) as (Hnb & Hh & Hroom). destruct (next_block_form z1) as (q1 & q2 & q3 & Enb).
  destruct (lo_output _ _ _ H) as (Hob & Hon & Hod & Hot). pose proof (lo_op _ _ _ H) as Hop. pose proof (lo_ip _ _ _ H) as Hip. destruct (lo_held_back _ _ _ H) as [Hnc _]. pose proof (pending_none _ Hg1 Hg2) as Hpn. rewrite Hpn, app_nil_r in Ho.
  assert (0 <= pledgedSrcSizePlusOne (api (zcs s)) < 2 ^ 64) as Hpl by apply Ha1.
  assert (block_last fm s = true -> block_ip s = in_size I) as Hlast.
  { unfold block_last, iend. rewrite (proj1 (lo_input _ _ _ H)). intros [_ E1]%andb_prop. by apply Z.eqb_eq. }
  assert (buffered_in (zcs s) = buffered_in z1) as Ebi by (subst z1; by destruct direct).
  destruct direct.
  - rewrite bind_modify, bind_get. unfold oend, out_size in Hl. set (out := splice (out_bytes (output s)) (op s) dst) in *.
    match goal with |- context [frameEnded (zcs ?x)] => change x with {| zcs := next_block z1; input := input s; output := output s <| out_bytes := out |>; ip := block_ip s; op := op s + n |} end. cbn [zcs].
    assert (mem_ok out /\ zlen out = zlen (out_bytes (output s)) /\ take (Z.to_nat op0) out = take (Z.to_nat op0) (out_bytes (output s)) /\ slice out op0 (op s + n - op0) = slice (out_bytes (output s)) op0 (op s - op0) ++ slice dst 0 n) as (O1 & O2 & O3 & O4).
    { subst out. split; [by apply mem_ok_splice; try done; lia|]. split; [apply zlen_splice; lia|]. split; [apply take_splice; lia|]. replace (op s + n - op0) with (op s - op0 + n) by lia. by rewrite slice_splice_prefix by lia. }
    assert (forall a, ctx_ok a /\ requestedParams a = requested -> staged (next_block z1 <| api := a |>) -> looping false (block_ip s) {| zcs := next_block z1 <| api := a |>; input := input s; output := output s <| out_bytes := out |>; ip := block_ip s; op := op s + n |}) as Hk.
    { intros a Hra Hsta. rewrite Enb in *. constructor; fields; try done.
      - destruct Hnb. by constructor.
      - exact (lo_expected _ _ _ H).
      - exact (lo_input _ _ _ H).
      - split_and!; [done|congruence|done|congruence].
      - lia.
      - lia.
      - split; [|done]. change (stableIn_notConsumed (zcs s) = block_ip s - block_ip s). rewrite Hnc. lia.
      - exists (i ++ block_src s), (o ++ slice dst 0 n). split; [unfold compressed; change (if block_last fm s then complete j (i ++ block_src s) (o ++ slice dst 0 n) else session j c (i ++ block_src s) (o ++ slice dst 0 n)); done|].
        split; [transitivity ((i ++ block_src s) ++ []); [f_equal; exact Hh|by rewrite app_nil_r]|]. rewrite O4, Ho, <- !app_assoc. do 2 f_equal. by rewrite pending_none, app_nil_r.
      - intros Hfe. left. by apply Hlast. }
    destruct (block_last fm s) eqn:El; rewrite Enb; fields.
    + rewrite <- Enb. eexists {| zcs := next_block z1 <| api := api (zcs s) <| streamStage := zcss_init |> <| pledgedSrcSizePlusOne := 0 |> |> |}, (inr Leave). split; [rewrite Enb; reflexivity|].
      split; [apply Hk; [split; [by apply ctx_stage|done]|rewrite Enb in *; by split_and!]|]. split; [done|]. split; [by rewrite <- Hh, Enb|]. rewrite Enb. by split.
    + rewrite <- Enb. eexists {| zcs := next_block z1 <| api := api (zcs s) |> |}, (inr Again). split; [rewrite Enb; reflexivity|].
      split; [apply Hk; [done|rewrite Enb; unfold staged, stage_of in *; fields; by rewrite Hst]|]. split; [done|]. split; [by rewrite <- Hh, Enb|]. rewrite Enb. by split.
  - unfold on_zcs. rewrite bind_modify. unfold cret. symmetry in Ed. apply orb_false_elim in Ed as [_ Ed].
    eexists {| zcs := next_block z1 <| outBuffContentSize := n |> <| outBuffFlushedSize := 0 |> <| api ::= fun c => c <| streamStage := zcss_flush |> |> |}, (inr Flush).
    split; [reflexivity|]. rewrite Enb in *. fields. split; [|done]. constructor; fields; try done.
    + destruct Hnb. constructor; try done. fields. change (outBuffSize z1) with (outBuffSize (zcs s)). lia.
    + unfold staged, stage_of. fields. split; [|by intros _]. change (buffered_out (zcs s) = true). by rewrite (sh_out_mode _ Hsh), Ed.
    + split; [|done]. by apply (ctx_stage _ _ _ Ha1 Hpl).
    + exact (lo_expected _ _ _ H).
    + exact (lo_input _ _ _ H).
    + lia.
    + split; [|done]. change (stableIn_notConsumed (zcs s) = block_ip s - block_ip s). rewrite Hnc. lia.
    + exists (i ++ block_src s), (o ++ slice dst 0 n). split; [unfold compressed; change (if block_last fm s then complete j (i ++ block_src s) (o ++ slice dst 0 n) else session j c (i ++ block_src s) (o ++ slice dst 0 n)); done|].
      split; [transitivity ((i ++ block_src s) ++ []); [f_equal; exact Hh|by rewrite app_nil_r]|]. rewrite Ho, <- app_assoc. do 2 f_equal. unfold pending. fields. by rewrite Z.sub_0_r.
    + intros Hfe. left. by apply Hlast.
Qed.

(** *** Loading *)

Lemma load_buffered_spec fm s : looping false (ip s) s -> stage_of (zcs s) = zcss_load -> buffered_in (zcs s) = true ->
  let n := Z.min (inBuffTarget (zcs s) - inBuffPos (zcs s)) (in_size I - ip s) in exists s1,
  load_buffered fm s = Ok (s1, inr (negb (bool_decide (fm = ZSTD_e_continue) && (inBuffPos (zcs s1) <? inBuffTarget (zcs s1))) && negb (bool_decide (fm = ZSTD_e_flush) && (inBuffPos (zcs s1) =? inToCompress (zcs s1))))) /\
  looping true (ip s1) s1 /\ stage_of (zcs s1) = zcss_load /\ ip s1 = ip s + n /\ buffered_in (zcs s1) = true /\
  inBuffPos (zcs s1) = inBuffPos (zcs s) + n /\ inBuffTarget (zcs s1) = inBuffTarget (zcs s) /\ inToCompress (zcs s1) = inToCompress (zcs s).
Proof.
  intros H Hst Hb n. destruct H as [Hsh Hrm Hsg Ha Hex [Ei Hib] Ho Hip Hop Hnc (i & o & Hc & Hi & Eo) Hen]. pose proof (sh_load _ Hsh) as Hl. rewrite Hb in Hl. destruct (sh_in _ Hsh) as [Him Hin]. pose proof (sh_block _ Hsh) as Hbl. destruct Hib as [Hib1 Hib2].
  specialize (Hrm eq_refl Hb). unfold load_buffered. rewrite bind_get, size_t_in by lia. unfold iend. rewrite Ei. unfold in_size in *.
  rewrite (bind_pure _ (splice (inBuff (zcs s)) (inBuffPos (zcs s)) (slice (in_bytes I) (ip s) n), n)) by (apply limitCopy_spec; lia).
  unfold on_zcs. rewrite !bind_modify, bind_get. unfold cret. eexists. split; [reflexivity|]. split; [|done].
  assert (zlen (slice (in_bytes I) (ip s) n) = n) as Hn by (apply zlen_slice; lia).
  pose proof (mem_ok_splice _ (inBuffPos (zcs s)) (slice (in_bytes I) (ip s) n) Him (bytes_slice _ _ _ Hib1) ltac:(lia) ltac:(lia)) as Hsp.
  constructor; fields; try done.
  - pose proof (zlen_splice (inBuff (zcs s)) (inBuffPos (zcs s)) (slice (in_bytes I) (ip s) n) ltac:(lia) ltac:(lia)) as Hz.
    destruct Hsh. constructor; try done; unfold buffered_in in *; fields; [split; [done|congruence]|]. rewrite Hb. lia.
  - unfold staged, stage_of in *. fields. rewrite Hst in *. exact Hsg.
  - unfold in_size. lia.
  - split; [|done]. destruct Hnc as [-> _]. lia.
  - exists i, o. split; [done|]. split; [|done]. unfold held in *. fields. replace (inBuffPos (zcs s) + n - inToCompress (zcs s)) with (inBuffPos (zcs s) - inToCompress (zcs s) + n) by lia.
    rewrite slice_splice_prefix by lia. rewrite app_assoc, Hi, <- app_assoc. f_equal. rewrite take_ge by (unfold zlen in Hn; lia). replace (ip s) with (ip0 + (ip s - ip0)) at 2 by lia. rewrite slice_app by lia. f_equal. lia.
  - intros Hf. unfold staged in Hsg. rewrite Hst in Hsg. destruct Hsg as (_ & _ & Hsg). congruence.
Qed.

(** Input that is left with the caller is said to be read. *)
Lemma load_stable_spec fm s : looping false (ip s) s -> stage_of (zcs s) = zcss_load -> buffered_in (zcs s) = false -> exists s1 more,
  load_stable fm s = Ok (s1, inr more) /\
  if more then s1 = s /\ (ip s < in_size I \/ fm = ZSTD_e_end) else looping false (ip s) s1 /\ left fm (ip s) s1.
Proof.
  intros H Hst Hb. destruct (lo_input _ _ _ H) as [Ei _]. pose proof (lo_ip _ _ _ H) as Hip. unfold load_stable. rewrite bind_get. pose proof (sh_in_mode _ (lo_shape _ _ _ H)) as Hm. rewrite Hb in Hm. pose proof (sh_block _ (lo_shape _ _ _ H)) as Hbl.
  rewrite bind_assert by (by destruct (stable_in (zcs s))). unfold iend. rewrite Ei. pose proof (sh_load _ (lo_shape _ _ _ H)) as Hl. rewrite Hb in Hl. destruct Hl as [Hl1 Hl2].
  assert (held (zcs s) = []) as Hh by (unfold held; by rewrite Hl1, Hl2).
  destruct (bool_decide_reflect (fm = ZSTD_e_continue)) as [->|Hfm]; [destruct (Z.ltb_spec (in_size I - ip s) (blockSizeMax (zcs s))) as [Hs|Hs]|]; cbn [andb].
  - unfold on_zcs. rewrite !bind_modify. unfold cret. eexists _, false. split; [reflexivity|]. unfold iend. fields. rewrite Ei. split; [|by unfold left, stage_of in *; fields; rewrite Hst].
    destruct H as [Hsh Hrm Hsg Ha Hex Hin Ho Hip' Hop Hnc Hd Hen]. constructor; fields; try done; [|lia|].
    + destruct Hsh. by constructor.
    + split; [done|]. intros E. change (buffered_in (zcs s) = true) in E. congruence.
  - eexists _, true. split; [reflexivity|]. split; [done|]. left. lia.
  - destruct (bool_decide_reflect (fm = ZSTD_e_flush)) as [->|Hfm2]; [destruct (Z.eqb_spec (ip s) (in_size I)) as [Es|Es]|]; cbn [andb negb].
    + eexists _, false. split; [reflexivity|]. split; [done|]. unfold left. rewrite Hst. by split_and!.
    + eexists _, true. split; [reflexivity|]. split; [done|]. left. lia.
    + eexists _, true. split; [reflexivity|]. split; [done|]. right. by destruct fm.
Qed.

Lemma shortcut_turn s : looping false (ip s) s -> stage_of (zcs s) = zcss_load -> inBuffPos (zcs s) = 0 -> exists s' r,
  end_directly s = Ok (s', r) /\
  match r with inl _ => failed s' | inr n => n = Leave /\ looping false (in_size I) s' /\ in_size I = ip s' /\ stage_of (zcs s') = zcss_init end.
Proof.
  intros H Hst Hp. pose proof (lo_staged _ _ _ H) as Hsg. unfold staged in Hsg. rewrite Hst in Hsg. destruct Hsg as (Hg1 & Hg2 & Hg3). destruct H as [Hsh Hrm _ Ha Hex [Ei Hib] (Hob & Hon & Hod & Hot) Hip Hop Hnc (i & o & Hc & Hi & Eo) Hen].
  unfold compressed in Hc. rewrite Hg3 in Hc. rewrite (pending_none _ Hg1 Hg2), app_nil_r in Eo. pose proof (sh_load _ Hsh) as Hl. assert (inToCompress (zcs s) = 0) as Htc by (destruct (buffered_in (zcs s)); lia).
  assert (held (zcs s) = []) as Hh by (unfold held; by rewrite Hp, Htc). rewrite Hh, app_nil_r in Hi. unfold end_directly. rewrite bind_get. unfold iend. rewrite Ei. unfold in_size in *. rewrite (bind_pure _ (slice (in_bytes I) (ip s) (zlen (in_bytes I) - ip s))) by (apply asub_Ok; lia).
  destruct (compress_direct true (slice (in_bytes I) (ip s) (zlen (in_bytes I) - ip s)) j i o s Hc Hob) as (c & dst & r & E & Hb & Hd & Hr); [unfold oend, out_size; lia|by apply mem_ok_slice| |].
  { pose proof (f_equal zlen Hi) as Hz. unfold in_size in Htotal. rewrite zlen_app, !zlen_slice in * by lia. lia. }
  rewrite (bind_step _ _ _ _ _ E). destruct r as [e|n]; [by eexists _, (inl e)|]. destruct Hr as [Hn Hcm]. unfold oend, out_size in *.
  set (out := splice (out_bytes (output s)) (op s) dst) in *.
  eexists {| zcs := zcs s <| frame := c |> <| frameEnded := true |> <| api := api (zcs s) <| streamStage := zcss_init |> <| pledgedSrcSizePlusOne := 0 |> |>; output := output s <| out_bytes := out |>; ip := zlen (in_bytes (input s)); op := op s + n |}, (inr Leave).
  split; [reflexivity|]. split; [done|]. split; [|by fields; rewrite Ei]. constructor; fields; try done.
  - destruct Hsh. by constructor.
  - split; [|by destruct Ha]. apply ctx_stage; [by destruct Ha|done].
  - subst out. split; [by apply mem_ok_splice; try done; lia|]. split; [rewrite zlen_splice by lia; done|]. split; [done|]. by rewrite take_splice by lia.
  - rewrite Ei. unfold in_size. lia.
  - lia.
  - split; [|by rewrite Ei]. rewrite Ei. unfold in_size. destruct Hnc as [-> _]. lia.
  - exists (i ++ slice (in_bytes I) (ip s) (zlen (in_bytes I) - ip s)), (o ++ slice dst 0 n). split; [done|]. split.
    + change (held _) with (held (zcs s)). rewrite Hh, app_nil_r, Hi, <- app_assoc. f_equal. unfold in_size. replace (ip s) with (ip0 + (ip s - ip0)) at 2 by lia. rewrite slice_app by lia. f_equal. lia.
    + rewrite pending_none, app_nil_r by done. subst out. replace (op s + n - op0) with (op s - op0 + n) by lia. rewrite slice_splice_prefix by lia. by rewrite Eo, <- app_assoc.
  - by left.
Qed.

Lemma load_turn fm s : looping false (ip s) s -> stage_of (zcs s) = zcss_load -> exists s' r, load_stage fm s = Ok (s', r) /\
  match r with
  | inl _ => failed s'
  | inr Leave => exists p, looping false p s' /\ left fm p s'
  | inr n => looping false (ip s') s' /\ held (zcs s') = [] /\ ip s <= ip s' /\ (frameEnded (zcs s') = false -> ip s < ip s' \/ held (zcs s) <> []) /\
             stage_of (zcs s') = match n with Flush => zcss_flush | _ => zcss_load end
  end.
Proof.
  intros H Hst. unfold load_stage. rewrite bind_get. destruct (stream_bound_total (iend s - ip s)) as [b Eb]. rewrite (bind_pure _ _ _ _ Eb).
  destruct (_ && _ && _) eqn:Ec.
  - apply andb_prop in Ec as [_ Ec]. apply Z.eqb_eq in Ec. destruct (shortcut_turn s H Hst Ec) as (s' & r & E & Hr). exists s', r. split; [exact E|]. destruct r as [e|n]; [done|]. destruct Hr as (-> & Hl & Hp & Hs). exists (in_size I). split; [done|].
    unfold left. by rewrite Hs.
  - clear Ec Eb. destruct (lo_input _ _ _ H) as [Ei _]. pose proof (lo_ip _ _ _ H) as Hip. destruct (buffered_in (zcs s)) eqn:Ebi.
    + destruct (load_buffered_spec fm s H Hst Ebi) as (s1 & E & H1 & Hst1 & Eip & Ebi1 & Epos & Etg & Etc). set (n := Z.min _ _) in *. rewrite (bind_step _ _ _ _ _ E). pose proof (lo_room _ _ _ H eq_refl Ebi) as Hrm.
      pose proof (sh_load _ (lo_shape _ _ _ H)) as Hl. rewrite Ebi in Hl. destruct (sh_in _ (lo_shape _ _ _ H)) as [_ Hin].
      destruct (_ && _) eqn:Em.
      * destruct (block_turn fm s1 H1 Hst1) as (s' & r & Eb & Hr). exists s', r. split; [done|]. destruct r as [e|n']; [done|]. destruct Hr as (Hl' & Eip' & Hh & Hf & Hs). unfold block_ip in Eip'. rewrite Ebi1 in Eip'.
        assert (frameEnded (zcs s') = false -> ip s < ip s' \/ held (zcs s) <> []) as Hprog.
        { rewrite Hf. unfold block_last, block_ip, iend. rewrite Ebi1, (proj1 (lo_input _ _ _ H1)). intros Hlast. destruct (Z.eq_dec n 0) as [E0|N0]; [|left; lia]. right. intros Hheld.
          assert (inBuffPos (zcs s) = inToCompress (zcs s)) as Epp. { pose proof (f_equal zlen Hheld) as Hz. unfold held in Hz. rewrite zlen_slice in Hz by lia. change (zlen []) with 0 in Hz. lia. }
          apply andb_prop in Em as [Em1 Em2]. destruct fm.
          - rewrite (proj2 (Z.ltb_lt (inBuffPos (zcs s1)) (inBuffTarget (zcs s1)))) in Em1 by lia. done.
          - rewrite (proj2 (Z.eqb_eq (inBuffPos (zcs s1)) (inToCompress (zcs s1)))) in Em2 by lia. done.
          - rewrite (proj2 (Z.eqb_eq (ip s1) (in_size I))) in Hlast by lia. done. }
        destruct n'; [eexists; split; [exact Hl'|unfold left; by rewrite Hs]|split_and!; try done; lia..].
      * eexists s1, (inr Leave). split; [reflexivity|]. exists (ip s1).
        assert (inBuffPos (zcs s1) < inBuffTarget (zcs s1)) as Hroom1. { apply andb_false_iff in Em as [Em|Em]; apply negb_false_iff, andb_prop in Em as [_ Em]; [by apply Z.ltb_lt|]. apply Z.eqb_eq in Em. lia. }
        split; [destruct H1; by constructor|]. unfold left. rewrite Hst1.
        apply andb_false_iff in Em as [Em|Em]; apply negb_false_iff, andb_prop in Em as [Em1 Em2]; apply bool_decide_eq_true in Em1; subst fm.
        -- split_and!; [lia|done|done].
        -- apply Z.eqb_eq in Em2. split_and!; [lia|done|]. intros _. split; [|done]. unfold held. by rewrite Em2, Z.sub_diag.
    + destruct (load_stable_spec fm s H Hst Ebi) as (s1 & more & E & Hm). rewrite (bind_step _ _ _ _ _ E). destruct more.
      * destruct Hm as [-> Hm]. assert (looping true (ip s) s) as H1 by (destruct H; by constructor). pose proof (sh_block _ (lo_shape _ _ _ H)).
        destruct (block_turn fm s H1 Hst) as (s' & r & Eb & Hr). exists s', r. split; [done|]. destruct r as [e|n']; [done|]. destruct Hr as (Hl' & Eip' & Hh & Hf & Hs). unfold block_ip, block_size, iend in Eip'. rewrite Ebi, Ei in Eip'.
        assert (frameEnded (zcs s') = false -> ip s < ip s' \/ held (zcs s) <> []) as Hprog.
        { rewrite Hf. unfold block_last, block_ip, block_size, iend. rewrite Ebi, Ei. intros Hlast. left. destruct Hm as [Hm| ->]; [lia|]. destruct (Z.eqb_spec (ip s + Z.min (in_size I - ip s) (blockSizeMax (zcs s))) (in_size I)); [done|lia]. }
        destruct n'; [eexists; split; [exact Hl'|unfold left; by rewrite Hs]|split_and!; try done; lia..].
      * eexists s1, (inr Leave). split; [reflexivity|]. by exists (ip s).
Qed.

(** *** Turns *)

(** Every turn but the last makes this smaller. *)
Definition work s : Z := in_size I - ip s + (if held (zcs s) then 0 else 1) + (if bool_decide (stage_of (zcs s) = zcss_flush) then 1 else 0).

Lemma stream_turn_spec fm s : looping false (ip s) s -> stage_of (zcs s) <> zcss_init -> exists s' r, stream_turn fm s = Ok (s', r) /\
  match r with
  | inl _ => failed s'
  | inr true => looping false (ip s') s' /\ stage_of (zcs s') <> zcss_init /\ work s' < work s
  | inr false => exists p, looping false p s' /\ left fm p s'
  end.
Proof.
  intros H Hst. unfold stream_turn. rewrite bind_get. fold (stage_of (zcs s)). pose proof (lo_ip _ _ _ H) as Hip.
  assert (forall s1, looping false (ip s1) s1 -> stage_of (zcs s1) = zcss_flush -> ip s <= ip s1 -> (frameEnded (zcs s1) = false -> in_size I - ip s1 + (if held (zcs s1) then 0 else 1) < work s) -> exists s' r,
    cbind flush_stage (fun n => cret match n with Leave => false | _ => true end) s1 = Ok (s', r) /\
    match r with inl _ => failed s' | inr true => looping false (ip s') s' /\ stage_of (zcs s') <> zcss_init /\ work s' < work s | inr false => exists p, looping false p s' /\ left fm p s' end) as Hfl.
  { intros s1 H1 Hs1 Hip1 Hd. destruct (flush_turn s1 fm H1 Hs1) as (s' & n & E & Eip & Hl & Hn). rewrite (bind_step _ _ _ _ _ E). unfold cret. destruct n; [eexists _, (inr false); split; [reflexivity|]; by exists (ip s1)| |done].
    destruct Hn as (Hs & Hh & Hf). eexists _, (inr true). split; [reflexivity|]. rewrite Eip, Hs. split_and!; [done|done|]. unfold work at 1. rewrite Eip, Hh, Hs, bool_decide_eq_false_2 by done. specialize (Hd Hf). lia. }
  destruct (stage_of (zcs s)) eqn:Es; [done| |].
  - destruct (load_turn fm s H Es) as (s' & r & E & Hr). rewrite (bind_step _ _ _ _ _ E). destruct r as [e|n]; [by eexists _, (inl e)|].
    assert (frameEnded (zcs s') = false -> (frameEnded (zcs s') = false -> ip s < ip s' \/ held (zcs s) <> []) -> held (zcs s') = [] -> ip s <= ip s' -> in_size I - ip s' + (if held (zcs s') then 0 else 1) < work s) as Hw.
    { intros Hf Hp -> Hle. unfold work. rewrite Es, bool_decide_eq_false_2 by done. destruct (Hp Hf) as [Hp'|Hp']; destruct (held (zcs s)); try lia. done. }
    destruct n; rewrite ?bind_ret.
    + eexists _, (inr false). by split.
    + destruct Hr as (Hl & Hh & Hle & Hp & Hs). eexists _, (inr true). split; [reflexivity|]. rewrite Hs. split_and!; [done|done|].
      pose proof (lo_staged _ _ _ Hl) as Hsg. unfold staged in Hsg. rewrite Hs in Hsg. unfold work at 1. rewrite Hs, bool_decide_eq_false_2 by done. specialize (Hw (proj2 (proj2 Hsg)) Hp Hh Hle). lia.
    + destruct Hr as (Hl & Hh & Hle & Hp & Hs). apply Hfl; try done. intros Hf. by apply Hw.
  - rewrite bind_ret. apply Hfl; try done. intros _. unfold work. rewrite Es, bool_decide_eq_true_2 by done. destruct (held (zcs s)); lia.
Qed.

(** The loop ends, before it runs out of turns. *)
Lemma stream_loop_spec fm : forall fuel s, looping false (ip s) s -> stage_of (zcs s) <> zcss_init -> work s < Z.of_nat fuel -> exists s' r, stream_loop fuel fm s = Ok (s', r) /\
  match r with inl _ => failed s' | inr _ => exists p, looping false p s' /\ left fm p s' end.
Proof.
  induction fuel as [|fuel IH]; intros s H Hst Hw.
  - pose proof (lo_ip _ _ _ H). unfold work in Hw. destruct (held (zcs s)), (bool_decide _); lia.
  - cbn [stream_loop]. destruct (stream_turn_spec fm s H Hst) as (s' & r & E & Hr). rewrite (bind_step _ _ _ _ _ E). destruct r as [e|[|]]; [by eexists _, (inl e)| |by eexists _, (inr tt)].
    destruct Hr as (Hl & Hs & Hlt). apply IH; [done|done|lia].
Qed.
End Loop.
End Turns.
