(* ===== verification/CStreamCall.v ===== *)
(** * The calls of a stream

    What holds of a context between two calls, whether a frame has begun or the context still waits for a block of
    input ([fed]), and the theorems about [ZSTD_compressStream2] and [ZSTD_compress2]. *)
From S2P Require Import Prelude Mem Errors Bits Frame ExecSeq CParams RecordUpdate Calls CCtxParams CwkspArena CCtxSize CCtxApi CStream CStreamOk.

Section Call.
Context `{P : Platform} {C : Type} `{FC : FrameCompressor C} `{FL : !FrameCompressorLaws C}.
Implicit Types (z : ZSTD_CStream (C := C)) (s : stream (C := C)).

(** ** Between two calls *)

(** Input that was said to be read and was left with the caller. *)
Definition held_back z : list Z := slice (in_bytes (expectedInBuffer z)) (in_pos (expectedInBuffer z) - stableIn_notConsumed z) (stableIn_notConsumed z).

(** What the frame of a call must be: the frame parameters and the format requested, the size of the whole input if it is given at once. *)
Record asked (requested : ZSTD_CCtx_params) (endOp : ZSTD_EndDirective) (n : Z) (j : frame_job) : Prop := {
  as_started : started (job_params j) /\ 0 <= job_pledged j < 2 ^ 64;
  as_fParams : fParams (job_params j) = fParams requested;
  as_format : format (job_params j) = format requested;
  as_pledged : endOp = ZSTD_e_end -> n + 1 < word_size -> job_pledged j = n
}.

(** What is known of the frames. *)
Context (J : frame_job -> Prop).

(** A frame has begun: of [F], some was compressed, some waits in [inBuff] and some was left with the caller; [M] was given out. *)
Record running (j : frame_job) (F M : list Z) z : Prop := {
  ru_shape : shape z;
  ru_room : buffered_in z = true -> inBuffPos z < inBuffTarget z;
  ru_staged : staged z;
  ru_stage : stage_of z <> zcss_init;
  ru_job : J j;
  ru_held_back : if buffered_in z then stableIn_notConsumed z = 0 else 0 <= stableIn_notConsumed z <= in_pos (expectedInBuffer z) /\ in_pos (expectedInBuffer z) <= in_size (expectedInBuffer z);
  ru_data : exists i o, compressed j z i o /\ F = i ++ held z ++ held_back z /\ o = M ++ pending z
}.

(** No frame has begun: all of [F] was left with the caller. *)
Record waiting (F : list Z) z : Prop := {
  wa_stage : stage_of z = zcss_init;
  wa_held_back : stableIn_notConsumed z = 0 \/ inBufferMode (requestedParams (api z)) = ZSTD_bm_stable /\ 0 < stableIn_notConsumed z <= in_pos (expectedInBuffer z) /\ in_pos (expectedInBuffer z) = in_size (expectedInBuffer z);
  wa_data : F = held_back z
}.

Definition fed (F M : list Z) z : Prop := waiting F z /\ M = [] \/ exists j, running j F M z.

(** The buffers of a call. *)
Record buffers_ok (i : ZSTD_inBuffer) (o : ZSTD_outBuffer) : Prop := {
  bu_in : mem_ok (in_bytes i) /\ 0 <= in_pos i /\ (in_src i = 0 -> in_size i = 0);
  bu_out : mem_ok (out_bytes o) /\ 0 <= out_pos o /\ (out_dst o = 0 -> out_size o = 0)
}.

(** What a caller owes that left input in its buffer: the bytes are still there, and the position is where it was left. *)
Definition steady z (i : ZSTD_inBuffer) : Prop := stableIn_notConsumed z <> 0 ->
  (stage_of z = zcss_init -> in_pos i = in_pos (expectedInBuffer z)) /\
  (in_pos i = in_pos (expectedInBuffer z) -> take (Z.to_nat (in_pos i)) (in_bytes i) = take (Z.to_nat (in_pos i)) (in_bytes (expectedInBuffer z))).

Definition rest (i : ZSTD_inBuffer) : list Z := drop (Z.to_nat (in_pos i)) (in_bytes i).

Lemma slice_of_take {A} (l k : list A) p q n : 0 <= q -> 0 <= n -> q + n <= p -> take (Z.to_nat p) l = take (Z.to_nat p) k -> slice l q n = slice k q n.
Proof.
  intros Hq Hn Hp E. assert (forall m : list A, slice m q n = slice (take (Z.to_nat p) m) q n) as Hm.
  { intros m. unfold slice. rewrite skipn_firstn_comm, take_take. f_equal. lia. }
  rewrite (Hm l), (Hm k). by rewrite E.
Qed.

Lemma slice_rest {A} (l : list A) q n : 0 <= q -> 0 <= n -> slice l q n ++ drop (Z.to_nat (q + n)) l = drop (Z.to_nat q) l.
Proof. intros Hq Hn. unfold slice. rewrite <- (take_drop (Z.to_nat n) (drop (Z.to_nat q) l)) at 2. f_equal. rewrite drop_drop. f_equal. lia. Qed.

(** ** The generic function *)
Section Generic.
Context (requested : ZSTD_CCtx_params) (j : frame_job) (F M : list Z) (i : ZSTD_inBuffer) (o : ZSTD_outBuffer) (z : ZSTD_CStream (C := C)).
Context (Hr : running j F M z) (Hb : buffers_ok i o) (Hi : in_pos i <= in_size i) (Ho : out_pos o <= out_size o) (Ha : ctx_ok (api z)) (Hq : requestedParams (api z) = requested).
(** The buffers have passed [ZSTD_checkBufferStability]. *)
Context (Hpos : stable_in z = true -> in_pos i = in_pos (expectedInBuffer z)) (Hst : steady z i) (Htotal : zlen F + zlen (rest i) < 2 ^ 64).

Definition start_pos : Z := in_pos i - stableIn_notConsumed z.
Definition pulled : ZSTD_inBuffer := i <| in_pos := start_pos |>.

Lemma start_pos_ok : 0 <= start_pos <= in_pos i /\ slice (in_bytes i) start_pos (stableIn_notConsumed z) = held_back z /\ (buffered_in z = true -> start_pos = in_pos i).
Proof.
  unfold start_pos. pose proof (ru_held_back _ _ _ _ Hr) as Hh. pose proof (sh_in_mode _ (ru_shape _ _ _ _ Hr)) as Hm. destruct (bu_in _ _ Hb) as (_ & Hi0 & _). destruct (buffered_in z) eqn:Eb.
  - unfold held_back. rewrite Hh. split_and!; [lia|lia| |lia]. unfold slice. cbn [Z.to_nat]. by rewrite !firstn_O.
  - destruct (stable_in z); [|done]. specialize (Hpos eq_refl). split_and!; [lia|lia| |done].
    destruct (Z.eq_dec (stableIn_notConsumed z) 0) as [E0|N0]; [unfold held_back; rewrite E0; unfold slice; cbn [Z.to_nat]; by rewrite !firstn_O|].
    unfold held_back. rewrite <- Hpos. apply (slice_of_take _ _ (in_pos i)); [lia|lia|lia|]. by apply (Hst N0).
Qed.

Lemma generic_spec fm ip' op' : exists s r, ZSTD_compressStream_generic fm {| zcs := z; input := i; output := o; ip := ip'; op := op' |} = Ok (s, r) /\
  match r with
  | inl _ => failed requested s
  | inr _ => exists p s1 F0, F = F0 ++ held_back z /\
      looping requested (expectedInBuffer z) (expectedOutBufferSize z) j F0 M pulled o start_pos (out_pos o) (frameEnded z) false p s1 /\ left pulled o fm p s1 /\
      s = s1 <| input ::= fun b => b <| in_pos := ip s1 |> |> <| output ::= fun b => b <| out_pos := op s1 |> |>
  end.
Proof.
  destruct start_pos_ok as (Hs1 & Hs2 & Hs3). destruct Hr as [Hsh Hrm Hsg Hstg HJ Hhb (i0 & o0 & Hc & HF & HM)]. destruct Hb as [(Hib & Hi0 & Hi1) (Hob & Ho0 & Ho1)]. set (z1 := if stable_in z then z <| stableIn_notConsumed := 0 |> else z).
  set (s1 := {| zcs := z1; input := pulled; output := o; ip := start_pos; op := out_pos o |}).
  assert (stableIn_notConsumed z1 = 0) as Hnc. { subst z1. destruct (stable_in z) eqn:Es; [done|]. rewrite (sh_in_mode _ Hsh), Es in Hhb. done. }
  assert (looping requested (expectedInBuffer z) (expectedOutBufferSize z) j (i0 ++ held z) M pulled o start_pos (out_pos o) (frameEnded z) false (ip s1) s1) as Hloop.
  { constructor; cbn [s1 zcs input output ip op pulled in_bytes update] in *.
    - subst z1. destruct (stable_in z); [|done]. destruct Hsh. by constructor.
    - intros _. subst z1. by destruct (stable_in z).
    - subst z1. by destruct (stable_in z).
    - subst z1. by destruct (stable_in z).
    - subst z1. by destruct (stable_in z).
    - done.
    - done.
    - unfold in_size in *. cbn. lia.
    - unfold out_size in *. lia.
    - rewrite Hnc. split; [lia|done].
    - exists i0, o0. split; [subst z1; by destruct (stable_in z)|]. rewrite !Z.sub_diag. split; [rewrite app_nil_r; subst z1; by destruct (stable_in z)|]. cbn [app]. rewrite HM. f_equal. subst z1. by destruct (stable_in z).
    - intros E. right. rewrite <- E. subst z1. by destruct (stable_in z). }
  unfold ZSTD_compressStream_generic. rewrite bind_modify, bind_get. cbn [update zcs input output ip op in_pos out_pos].
  match goal with |- context [cbind (if stable_in z then ?m else cret tt) _ ?s0] => assert ((if stable_in z then m else cret tt) s0 = Ok (s1, inr tt)) as E1 end.
  { subst s1 z1. destruct (stable_in z) eqn:Es.
    - rewrite bind_assert by (apply Z.leb_le; unfold start_pos in Hs1; cbn; lia). done.
    - unfold cret, pulled. assert (start_pos = in_pos i) as -> by (apply Hs3; by rewrite (sh_in_mode _ Hsh), Es). by destruct i. }
  rewrite (bind_step _ _ _ _ _ E1). clear E1.
  match goal with |- context [cbind ?m _ s1] => assert (m s1 = Ok (s1, inr tt)) as E2 end.
  { pose proof (sh_load _ Hsh) as Hl. pose proof (sh_block _ Hsh). destruct (buffered_in z); [|done]. unfold cassert. by rewrite (proj2 (Z.ltb_lt 0 (inBuffSize z))) by lia. }
  rewrite (bind_step _ _ _ _ _ E2). clear E2.
  match goal with |- context [cbind ?m _ s1] => assert (m s1 = Ok (s1, inr tt)) as E3 end.
  { pose proof (sh_room _ Hsh) as Hl. destruct (buffered_out z); [|done]. unfold cassert. by rewrite (proj2 (Z.ltb_lt 0 (outBuffSize z))) by (specialize (Hl eq_refl); lia). }
  rewrite (bind_step _ _ _ _ _ E3). clear E3. rewrite bind_get.
  rewrite bind_assert by (change (negb (in_src i =? 0) || (in_size i =? 0) = true); destruct (Z.eqb_spec (in_src i) 0); [by rewrite Hi1 by done|done]). rewrite bind_assert by (apply Z.leb_le; unfold in_size in *; cbn; lia).
  rewrite bind_assert by (change (negb (out_dst o =? 0) || (out_size o =? 0) = true); destruct (Z.eqb_spec (out_dst o) 0); [by rewrite Ho1 by done|done]). rewrite bind_assert by (by apply Z.leb_le).
  assert (zlen (i0 ++ held z) + (in_size pulled - start_pos) < 2 ^ 64) as Ht.
  { pose proof (f_equal zlen Hs2) as Hz. change (in_size pulled) with (in_size i). unfold rest in Htotal. assert (zlen (drop (Z.to_nat (in_pos i)) (in_bytes i)) = in_size i - in_pos i) as Ed by (unfold in_size, zlen in *; rewrite length_drop; lia).
    rewrite Ed, HF, app_assoc, zlen_app in Htotal. rewrite zlen_slice in Hz by (unfold start_pos, in_size in *; lia). unfold start_pos in *. lia. }
  destruct (stream_loop_spec requested (expectedInBuffer z) (expectedOutBufferSize z) j (i0 ++ held z) M pulled o start_pos (out_pos o) (frameEnded z) Ht fm (Z.to_nat (iend s1 - ip s1) + 3) s1 Hloop) as (s' & r & E & Hr').
  { subst s1 z1. cbn. by destruct (stable_in z). }
  { unfold work. change (iend s1) with (in_size i). change (ip s1) with start_pos. change (in_size pulled) with (in_size i). destruct (held (zcs s1)), (bool_decide (stage_of (zcs s1) = zcss_flush)); lia. }
  rewrite (bind_step _ _ _ _ _ E). destruct r as [e|u]; [by eexists _, (inl e)|]. destruct Hr' as (p & Hl & Hleft). rewrite bind_modify, bind_get. eexists _, (inr _). split; [reflexivity|].
  exists p, s', (i0 ++ held z). split; [by rewrite HF, app_assoc|done].
Qed.
End Generic.

(** ** What a call does *)

(** How a call ends: the frame goes on, the input is left with the caller and nothing has begun, or the frame is complete. *)
Inductive result (fm : ZSTD_EndDirective) (ended : bool) (F M : list Z) s (n : Z) : Prop :=
| goes_on j : running j F M (zcs s) -> n = zlen (pending (zcs s)) -> (0 < n -> out_pos (output s) = out_size (output s)) ->
    (n = 0 -> rest (input s) = [] /\ fm <> ZSTD_e_end /\ (fm = ZSTD_e_flush -> session j (frame (zcs s)) F M)) -> result fm ended F M s n
| waits : waiting F (zcs s) -> M = [] -> rest (input s) = [] -> fm = ZSTD_e_continue -> result fm ended F M s n
| finished j : J j -> complete j F M -> waiting [] (zcs s) -> n = 0 -> rest (input s) = [] \/ ended = true -> result fm ended F M s n.

Definition written (o o' : ZSTD_outBuffer) : list Z := slice (out_bytes o') (out_pos o) (out_pos o' - out_pos o).

(** What was fed with what is left of the input is what it was; what was given out before is still there. *)
Record served (requested : ZSTD_CCtx_params) (fm : ZSTD_EndDirective) (ended : bool) (F M : list Z) (i : ZSTD_inBuffer) (o : ZSTD_outBuffer) s (n : Z) : Prop := {
  sv_input : in_src (input s) = in_src i /\ in_bytes (input s) = in_bytes i /\ 0 <= in_pos (input s) <= in_size i;
  sv_output : mem_ok (out_bytes (output s)) /\ zlen (out_bytes (output s)) = zlen (out_bytes o) /\ out_pos o <= out_pos (output s) <= out_size o /\
              take (Z.to_nat (out_pos o)) (out_bytes (output s)) = take (Z.to_nat (out_pos o)) (out_bytes o);
  sv_api : ctx_ok (api (zcs s)) /\ requestedParams (api (zcs s)) = requested;
  sv_data : exists F', F' ++ rest (input s) = F ++ rest i /\ result fm ended F' (M ++ written o (output s)) s n
}.

Definition expects s : ZSTD_CStream :=
  let z := if stable_in (zcs s) then zcs s <| expectedInBuffer := input s |> else zcs s in
  if stable_out (zcs s) then z <| expectedOutBufferSize := size_t (out_size (output s) - out_pos (output s)) |> else z.

Lemma setBufferExpectations_spec s : ZSTD_setBufferExpectations s = Ok (s <| zcs := expects s |>, inr tt).
Proof.
  unfold ZSTD_setBufferExpectations. rewrite bind_modify. unfold cmodify, expects. do 2 f_equal. destruct s as [z i o ip' op']. unfold stable_in, stable_out. cbn [zcs input output].
  destruct (inBufferMode (appliedParams z) =? ZSTD_bm_stable); cbn [zcs update appliedParams output]; by destruct (outBufferMode (appliedParams z) =? ZSTD_bm_stable).
Qed.

Lemma expects_form s : exists e q, expects s = zcs s <| expectedInBuffer := e |> <| expectedOutBufferSize := q |> /\ (stable_in (zcs s) = true -> e = input s).
Proof.
  unfold expects. destruct (stable_in (zcs s)), (stable_out (zcs s)); [by eexists _, _|exists (input s), (expectedOutBufferSize (zcs s))|exists (expectedInBuffer (zcs s)), (size_t (out_size (output s) - out_pos (output s)))|exists (expectedInBuffer (zcs s)), (expectedOutBufferSize (zcs s))];
    (split; [by destruct (zcs s)|done]).
Qed.

Section After.
Context (requested : ZSTD_CCtx_params) (expected : ZSTD_inBuffer) (expectedOut : Z) (j : frame_job) (F0 M back : list Z) (i : ZSTD_inBuffer) (o : ZSTD_outBuffer) (start : Z) (ended : bool) (fm : ZSTD_EndDirective) (p : Z) (s1 : stream (C := C)).
Local Notation I := (i <| in_pos := start |>).
Context (Hl : looping requested expected expectedOut j F0 M I o start (out_pos o) ended false p s1) (Hleft : left I o fm p s1).
Context (Hback : slice (in_bytes i) start (in_pos i - start) = back) (Hstart : start <= in_pos i) (HJ : J j).

Local Notation s2 := (s1 <| input ::= fun b => b <| in_pos := ip s1 |> |> <| output ::= fun b => b <| out_pos := op s1 |> |>).
Local Notation s3 := (s2 <| zcs := expects s2 |>).

Lemma after_served : served requested fm ended (F0 ++ back) M i o s3 (size_t (outBuffContentSize (zcs s3) - outBuffFlushedSize (zcs s3))).
Proof.
  destruct Hl as [Hsh Hrm Hsg Ha Hex [Ei Hib] (Hob & Hon & Hod & Hot) Hip Hop [Hnc1 Hnc2] (i0 & o0 & Hc & Hi & Eo) Hen]. destruct (expects_form s2) as (e & q & Eex & He). cbn [update zcs] in He. pose proof (sh_flush _ Hsh) as Hf. destruct (sh_out _ Hsh) as [[_ Ho1] Ho2].
  assert (input s2 = i <| in_pos := ip s1 |>) as Ein by (cbn [update input]; by rewrite Ei).
  assert (rest (input s2) = drop (Z.to_nat (ip s1)) (in_bytes i)) as Erest by (unfold rest; cbn [update input]; by rewrite Ei).
  assert (in_size I = zlen (in_bytes i)) as Esz by done. rewrite Esz in *. change (in_bytes I) with (in_bytes i) in *. pose proof (zlen_pending _ Hsh) as Hp.
  rewrite Eex. cbn [update zcs outBuffContentSize outBuffFlushedSize]. rewrite size_t_in by lia. constructor; cbn [update zcs input output in_src in_bytes in_pos out_bytes out_pos api].
  - rewrite Ei. cbn [update in_src in_bytes]. unfold in_size. split_and!; try done; lia.
  - unfold out_size. split_and!; try done; lia.
  - done.
  - exists (F0 ++ slice (in_bytes i) start (ip s1 - start)). split.
    { rewrite <- !app_assoc. f_equal. unfold rest. cbn [update in_pos in_bytes]. rewrite Ei. cbn [update in_bytes]. rewrite <- Hback. replace (ip s1) with (start + (ip s1 - start)) at 2 by lia. rewrite slice_rest by lia.
      replace (in_pos i) with (start + (in_pos i - start)) at 2 by lia. by rewrite slice_rest by lia. }
    set (z' := zcs s1 <| expectedInBuffer := e |> <| expectedOutBufferSize := q |>). unfold written. cbn [update output out_bytes out_pos]. set (W := slice (out_bytes (output s1)) (out_pos o) (op s1 - out_pos o)) in *.
    assert (slice (in_bytes i) start (ip s1 - start) = slice (in_bytes i) start (p - start) ++ held_back z') as Esl.
    { unfold held_back. subst z'. cbn [update expectedInBuffer stableIn_notConsumed]. rewrite Hnc1. pose proof (sh_in_mode _ Hsh) as Hm. destruct (stable_in (zcs s1)).
      - rewrite (He eq_refl), Ein. cbn [update in_bytes in_pos]. replace (ip s1 - (ip s1 - p)) with (start + (p - start)) by lia. rewrite slice_app by lia. f_equal. lia.
      - rewrite (Hnc2 Hm), Z.sub_diag. unfold slice at 3. cbn [Z.to_nat]. by rewrite firstn_O, app_nil_r. }
    assert (stage_of (zcs s1) <> zcss_init -> running j (F0 ++ slice (in_bytes i) start (ip s1 - start)) (M ++ W) z') as Hrun.
    { intros Hn. constructor; [destruct Hsh; by constructor|by apply Hrm|exact Hsg|done|done| |].
      - change (buffered_in z') with (buffered_in (zcs s1)). change (stableIn_notConsumed z') with (stableIn_notConsumed (zcs s1)). change (expectedInBuffer z') with e. pose proof (sh_in_mode _ Hsh) as Hm. destruct (buffered_in (zcs s1)); [rewrite Hnc1, Hnc2 by done; lia|].
        destruct (stable_in (zcs s1)); [|done]. rewrite (He eq_refl), Ein. unfold in_size. cbn [update in_pos in_bytes]. lia.
      - exists i0, o0. split; [done|]. rewrite Esl, app_assoc, <- Hi, <- app_assoc. split; [done|]. by rewrite Eo, <- app_assoc. }
    unfold left in Hleft. unfold staged in Hsg. destruct (stage_of (zcs s1)) eqn:Est.
    + destruct Hsg as (G1 & G2 & G3 & G4). unfold compressed in Hc. rewrite G3 in Hc. rewrite G4, app_nil_r in Hi. rewrite (pending_none _ G1 G2), app_nil_r in Eo. subst p o0 i0. rewrite G1, G2. apply (finished _ _ _ _ _ _ j).
      * done.
      * done.
      * constructor; [done|left; change (stableIn_notConsumed (zcs s1) = 0); lia|]. change (zcs _) with z'. apply (f_equal zlen) in Esl. rewrite zlen_app in Esl. apply symmetry, nil_length_inv. pose proof (zlen_nonneg (held_back z')). unfold zlen in *. lia.
      * done.
      * change (rest (input s2) = [] \/ ended = true). rewrite Erest. destruct (Hen G3) as [Ep|]; [left; rewrite Ep; apply drop_ge; unfold zlen; lia|by right].
    + destruct Hsg as (G1 & G2 & G3), Hleft as (L1 & L2 & L3). apply (goes_on _ _ _ _ _ _ j).
      * by apply Hrun.
      * change (pending _) with (pending (zcs s1)). by rewrite (pending_none _ G1 G2), G1, G2.
      * rewrite G1, G2. lia.
      * intros _. split; [change (rest (input s2) = []); rewrite Erest, L1, Esz; apply drop_ge; unfold zlen; lia|]. split; [done|]. intros Hfm. destruct (L3 Hfm) as [L4 L5]. unfold compressed in Hc. rewrite G3 in Hc. change (session j (frame (zcs s1)) (F0 ++ slice (in_bytes i) start (ip s1 - start)) (M ++ W)).
        rewrite L4, app_nil_r in Hi. rewrite (pending_none _ G1 G2), app_nil_r in Eo. by rewrite <- L5, <- Hi, <- Eo.
    + destruct Hleft as [L1 L2]. apply (goes_on _ _ _ _ _ _ j).
      * by apply Hrun.
      * change (pending _) with (pending (zcs s1)). by rewrite Hp.
      * intros _. unfold out_size. cbn [update output out_pos out_bytes]. lia.
      * lia.
Qed.
End After.

(** ** The start of a frame *)
Section Start.
Context (cdict_at : Z -> ZSTD_CDict).
Context (Hcdict : forall cd, 0 <= cd_strategy (cdict_at cd) <= 9 /\ ZSTD_minCLevel <= cd_compressionLevel (cdict_at cd) <= ZSTD_maxCLevel /\ 0 <= cd_dictContentSize (cdict_at cd) < 2 ^ 63).

(** A frame has just begun. *)
Record begun (j : frame_job) z z' : Prop := {
  be_shape : shape z';
  be_room : buffered_in z' = true -> inBuffPos z' < inBuffTarget z';
  be_stage : stage_of z' = zcss_load /\ outBuffContentSize z' = 0 /\ outBuffFlushedSize z' = 0 /\ frameEnded z' = false;
  be_mode : inBufferMode (appliedParams z') = inBufferMode (requestedParams (api z));
  be_held : held z' = [];
  be_session : session j (frame z') [] [];
  be_api : ctx_ok (api z') /\ requestedParams (api z') = requestedParams (api z);
  be_back : stableIn_notConsumed z' = stableIn_notConsumed z /\ expectedInBuffer z' = expectedInBuffer z
}.

Lemma init_stream_spec created endOp n s : stage_of (zcs s) = zcss_init -> ready created (api (zcs s)) -> 0 <= n -> exists s' r,
  ZSTD_CCtx_init_stream cdict_at created endOp n s = Ok (s', r) /\ input s' = input s /\ output s' = output s /\
  match r with inl _ => failed (requestedParams (api (zcs s))) s' | inr _ => exists j, asked (requestedParams (api (zcs s))) endOp n j /\ begun j (zcs s) (zcs s') end.
Proof.
  intros Hst Ha Hn. pose proof (co_params _ (ready_ok _ _ Ha)) as Hpar. destruct (init_params_spec cdict_at Hcdict created endOp n _ Hn Ha) as (c & r & E & Hok & Hq & _ & Hr).
  unfold ZSTD_CCtx_init_stream. rewrite (bind_step _ _ s (s <| zcs ::= fun z => z <| api := c |> |>) r) by (unfold on_api; by rewrite E).
  destruct r as [e|[[[prefix cd] params] pledged]]; [by eexists _, (inl e)|]. destruct Hr as (Hstarted & Him & Hom & Hpl & Hfp & Hfm & Hap). set (j := {| job_prefix := prefix; job_cdict := cd; job_params := params; job_pledged := pledged |}).
  pose proof (begin_law (frame (zcs s)) j Hstarted Hpl) as Hbg. destruct (compressBegin (frame (zcs s)) j) as [[f r]| |] eqn:Ef; [|done..].
  rewrite (bind_step _ _ _ (s <| zcs ::= fun z => z <| api := c |> <| frame := f |> |>) r) by (cbn [update zcs frame]; by rewrite Ef).
  destruct r as [e|su]; [by eexists _, (inl e)|]. destruct Hbg as [Hse Hsu]. unfold on_zcs. rewrite bind_modify, bind_get, bind_assert by (apply Z.eqb_eq; exact (su_workers _ _ Hsu)). rewrite bind_modify.
  set (T := if inBufferMode (fs_params su) =? ZSTD_bm_buffered then size_t (fs_block su + b2z (fs_block su =? pledged)) else 0).
  set (z' := {| api := c <| streamStage := zcss_load |>; frame := f; appliedParams := fs_params su; blockSizeMax := fs_block su; inBuff := fs_in su; inBuffSize := zlen (fs_in su); inToCompress := 0; inBuffPos := 0; inBuffTarget := T;
    outBuff := fs_out su; outBuffSize := zlen (fs_out su); outBuffContentSize := 0; outBuffFlushedSize := 0; frameEnded := false; expectedInBuffer := expectedInBuffer (zcs s); stableIn_notConsumed := stableIn_notConsumed (zcs s);
    expectedOutBufferSize := expectedOutBufferSize (zcs s) |}).
  exists (s <| zcs := z' |>), (inr tt). split; [reflexivity|]. split; [done|]. split; [done|]. exists j. split; [by constructor|]. destruct Hsu as [S1 S2 S3 S4 S5 S6 S7 S8]. cbn [job_params j] in *. pose proof (po_inBufferMode _ Hpar) as P1. pose proof (po_outBufferMode _ Hpar) as P2.
  rewrite Him in S1, S7. rewrite Hom in S2, S8. unfold ZSTD_bm_buffered, ZSTD_bm_stable in *. pose proof (zlen_nonneg (fs_in su)). pose proof (zlen_nonneg (fs_out su)).
  assert (inBufferMode (requestedParams (api (zcs s))) = 0 -> 0 < T <= zlen (fs_in su)) as HT.
  { intros E0. destruct (S7 E0) as [S9 S10]. subst T. rewrite S1, E0, Z.eqb_refl. assert (0 <= b2z (fs_block su =? pledged) <= 1) by (destruct (fs_block su =? pledged); cbn; lia). rewrite size_t_in; lia. }
  cbn [update zcs]. constructor; cbn [z' api frame]; try done.
  - constructor; unfold buffered_in, stable_in, buffered_out, stable_out, ZSTD_bm_buffered, ZSTD_bm_stable; cbn [z' appliedParams blockSizeMax inBuff inBuffSize outBuff outBuffSize inToCompress inBuffPos inBuffTarget outBuffContentSize outBuffFlushedSize]; rewrite ?S1, ?S2; try done.
    + destruct (Z.eqb_spec (inBufferMode (requestedParams (api (zcs s)))) 0), (Z.eqb_spec (inBufferMode (requestedParams (api (zcs s)))) 1); cbn; done || lia.
    + destruct (Z.eqb_spec (outBufferMode (requestedParams (api (zcs s)))) 0), (Z.eqb_spec (outBufferMode (requestedParams (api (zcs s)))) 1); cbn; done || lia.
    + destruct (Z.eqb_spec (inBufferMode (requestedParams (api (zcs s)))) 0) as [E0|]; [|done]. specialize (HT E0). destruct (S7 E0). lia.
    + intros E0%Z.eqb_eq. by apply S8.
  - unfold buffered_in, ZSTD_bm_buffered. cbn [z' appliedParams inBuffPos inBuffTarget]. rewrite S1. intros E0%Z.eqb_eq. apply (HT E0).
  - split; [|done]. apply (ctx_stage c zcss_load (pledgedSrcSizePlusOne c) Hok). apply Hok.
Qed.

(** ** ZSTD_compressStream2 *)

Lemma checkBufferStability_spec s : exists r, ZSTD_checkBufferStability s = Ok (s, r) /\ match r with inl _ => True | inr _ => stable_in (zcs s) = true -> in_pos (input s) = in_pos (expectedInBuffer (zcs s)) end.
Proof.
  unfold ZSTD_checkBufferStability. rewrite bind_get. unfold cbind. destruct (stable_in (zcs s)).
  - unfold creject_if at 1. destruct (negb (in_src (expectedInBuffer (zcs s)) =? in_src (input s)) || negb (in_pos (expectedInBuffer (zcs s)) =? in_pos (input s))) eqn:E; [by eexists (inl _)|].
    apply orb_false_elim in E as [_ E%negb_false_iff%Z.eqb_eq]. cbn [cret]. destruct (stable_out (zcs s)); [unfold creject_if; destruct (negb _)|]; [by eexists (inl _)|by eexists (inr tt)..].
  - cbn [cret]. destruct (stable_out (zcs s)); [unfold creject_if; destruct (negb _)|]; [by eexists (inl _)|by eexists (inr tt)..].
Qed.

(** The part of a call that follows the start of the frame. *)
Lemma stream_rest_spec requested fm j F M z i o ip' op' : running j F M z -> buffers_ok i o -> in_pos i <= in_size i -> out_pos o <= out_size o -> ctx_ok (api z) -> requestedParams (api z) = requested -> steady z i -> zlen F + zlen (rest i) < 2 ^ 64 -> exists s r,
  stream_on fm {| zcs := z; input := i; output := o; ip := ip'; op := op' |} = Ok (s, r) /\
  match r with inl _ => failed requested s | inr n => served requested fm (frameEnded z) F M i o s n end.
Proof.
  intros Hr Hb Hi Ho Ha Hq Hs Htot. unfold stream_on. destruct (checkBufferStability_spec {| zcs := z; input := i; output := o; ip := ip'; op := op' |}) as (r & E & Hc). rewrite (bind_step _ _ _ _ _ E). destruct r as [e|u]; [by eexists _, (inl e)|]. cbn [zcs input] in Hc.
  destruct (generic_spec requested j F M i o z Hr Hb Hi Ho Ha Hq Hc Hs Htot fm ip' op') as (s & r & E2 & Hg). rewrite (bind_step _ _ _ _ _ E2). destruct r as [e|n]; [by eexists _, (inl e)|].
  destruct Hg as (p & s1 & F0 & -> & Hl & Hleft & ->). rewrite (bind_step _ _ _ _ _ (setBufferExpectations_spec _)), bind_get. eexists _, (inr _). split; [reflexivity|].
  destruct (start_pos_ok j _ M i o z Hr Hb Hc Hs) as (S1 & S2 & S3). apply (after_served requested (expectedInBuffer z) (expectedOutBufferSize z) j F0 M (held_back z) i o (start_pos i z) (frameEnded z) fm p s1 Hl Hleft); [|lia|apply Hr].
  rewrite <- S2. f_equal. unfold start_pos. lia.
Qed.

(** The input that was left with the caller is still before its position. *)
Lemma waiting_back F z i : waiting F z -> steady z i -> 0 <= in_pos i -> 0 <= stableIn_notConsumed z <= in_pos i /\ slice (in_bytes i) (in_pos i - stableIn_notConsumed z) (stableIn_notConsumed z) = F.
Proof.
  intros [W1 W2 ->] Hs Hi. unfold held_back. destruct W2 as [E0|(W2 & W3 & W4)].
  - rewrite E0. split; [lia|]. unfold slice. cbn [Z.to_nat]. by rewrite !firstn_O.
  - destruct Hs as [Hs1 Hs2]; [lia|]. specialize (Hs1 W1). split; [lia|]. rewrite <- Hs1. apply (slice_of_take _ _ (in_pos i)); [lia|lia|lia|]. by apply Hs2.
Qed.

Lemma begun_running j F z z' i o ip' op' : J j -> waiting F z -> steady z i -> 0 <= in_pos i <= in_size i -> begun j z z' -> let z2 := expects {| zcs := z'; input := i; output := o; ip := ip'; op := op' |} in
  running j F [] z2 /\ steady z2 i /\ ctx_ok (api z2) /\ requestedParams (api z2) = requestedParams (api z) /\ frameEnded z2 = false.
Proof.
  intros HJ Hw Hs Hi [] z2. destruct be_stage0 as (G1 & G2 & G3 & G4), be_api0 as [A1 A2], be_back0 as [B1 B2]. destruct (waiting_back F z i Hw Hs ltac:(lia)) as [K1 K2].
  destruct (expects_form {| zcs := z'; input := i; output := o; ip := ip'; op := op' |}) as (e & q & Ez & He). cbn [zcs input] in *. subst z2. rewrite Ez. pose proof (sh_in_mode _ be_shape0) as Hm.
  assert (buffered_in z' = true -> stableIn_notConsumed z = 0) as Hnb.
  { intros Hb. destruct (wa_held_back _ _ Hw) as [|(W & _)]; [done|]. unfold buffered_in in Hb. apply Z.eqb_eq in Hb. rewrite be_mode0, W in Hb. done. }
  split_and!; try done.
  - constructor; try done.
    + destruct be_shape0. by constructor.
    + unfold staged. change (stage_of _) with (stage_of z'). by rewrite G1.
    + change (stage_of z' <> zcss_init). by rewrite G1.
    + change (if buffered_in z' then stableIn_notConsumed z' = 0 else 0 <= stableIn_notConsumed z' <= in_pos e /\ in_pos e <= in_size e). rewrite B1. destruct (buffered_in z'); [by apply Hnb|]. destruct (stable_in z'); [|done]. rewrite (He eq_refl). lia.
    + exists [], []. change (held _) with (held z'). rewrite be_held0. split; [change (if frameEnded z' then complete j [] [] else session j (frame z') [] []); by rewrite G4|]. split.
      * unfold held_back. cbn [update expectedInBuffer stableIn_notConsumed app]. rewrite B1. destruct (stable_in z'); [by rewrite (He eq_refl), K2|]. rewrite (Hnb Hm) in *. rewrite <- K2. unfold slice. cbn [Z.to_nat]. by rewrite !firstn_O.
      * cbn [app]. symmetry. by apply pending_none.
  - intros Hn. change (stableIn_notConsumed z' <> 0) in Hn. rewrite B1 in Hn. cbn [update expectedInBuffer]. destruct (stable_in z'); [by rewrite (He eq_refl)|]. by destruct (Hn (Hnb Hm)).
Qed.

(** Less than a block, of a caller that keeps it: nothing begins. *)
Lemma wait_spec F z i o ip' op' : waiting F z -> buffers_ok i o -> in_pos i <= in_size i -> out_pos o <= out_size o -> ctx_ok (api z) -> steady z i -> inBufferMode (requestedParams (api z)) = ZSTD_bm_stable -> exists s r,
  wait_for_block {| zcs := z; input := i; output := o; ip := ip'; op := op' |} = Ok (s, r) /\
  match r with inl _ => failed (requestedParams (api z)) s | inr n => served (requestedParams (api z)) ZSTD_e_continue false F [] i o s n end.
Proof.
  intros Hw Hb Hi Ho Ha Hs Hmode. unfold wait_for_block. rewrite bind_get. cbn [zcs input]. set (inputSize := in_size i - in_pos i). destruct Hb as [(Hib & Hi0 & _) (Hob & Ho0 & _)]. destruct (waiting_back F z i Hw Hs Hi0) as [K1 K2]. destruct Hw as [W1 W2 W3].
  match goal with |- context [cbind ?m ?k ?s0] => assert (exists r, m s0 = Ok (s0, r)) as [r E] end.
  { destruct (negb (stableIn_notConsumed z =? 0)); [|by eexists (inr tt)]. unfold cbind, creject_if. destruct (negb (in_src i =? _)); [by eexists (inl _)|]. cbn [cret]. destruct (negb _); [by eexists (inl _)|by eexists (inr tt)]. }
  rewrite (bind_step _ _ _ _ _ E). destruct r as [e|u]; [by eexists _, (inl e)|]. rewrite !bind_modify, bind_get. cbn [update zcs input in_pos]. assert (0 <= stableIn_notConsumed z + inputSize <= in_size i) as Hn by (unfold inputSize; lia). destruct Hib as [Hib1 Hib2].
  assert (size_t (stableIn_notConsumed z + inputSize) = stableIn_notConsumed z + inputSize) as Esz by (apply size_t_in; unfold in_size in *; lia). eexists _, (inr _). split; [reflexivity|]. constructor; cbn [update zcs input output in_src in_bytes in_pos out_bytes out_pos api].
  - split_and!; try done. lia.
  - split_and!; done || lia.
  - done.
  - exists (F ++ rest i). assert (rest (i <| in_pos := in_size i |>) = []) as Er by (unfold rest, in_size, zlen; cbn; apply drop_ge; lia). split; [by rewrite <- app_assoc, Er, app_nil_r|].
    apply waits; [|unfold written; cbn [update output]; by rewrite Z.sub_diag|exact Er|done].
    constructor; cbn [update zcs api requestedParams expectedInBuffer stableIn_notConsumed in_pos]; [done| |].
    + rewrite Esz. destruct (Z.eq_dec (stableIn_notConsumed z + inputSize) 0) as [|N]; [by left|right]. split; [done|]. split; [lia|done].
    + unfold held_back. cbn [update zcs expectedInBuffer stableIn_notConsumed in_pos in_bytes]. rewrite Esz. replace (in_size i - (stableIn_notConsumed z + inputSize)) with (in_pos i - stableIn_notConsumed z) by (unfold inputSize; lia).
      rewrite <- slice_app by (unfold inputSize; lia). rewrite K2. f_equal. replace (in_pos i - stableIn_notConsumed z + stableIn_notConsumed z) with (in_pos i) by lia. unfold rest, slice, inputSize. symmetry. apply take_ge. rewrite length_drop. unfold in_size, zlen. lia.
Qed.

Lemma compressStream2_spec created fm F M z i o ip' op' : (stage_of z = zcss_init -> forall j, asked (requestedParams (api z)) fm (size_t (in_size i - in_pos i + stableIn_notConsumed z)) j -> J j) -> fed F M z -> ready created (api z) -> buffers_ok i o -> steady z i -> zlen F + zlen (rest i) < 2 ^ 64 -> exists s r,
  ZSTD_compressStream2 cdict_at created fm {| zcs := z; input := i; output := o; ip := ip'; op := op' |} = Ok (s, r) /\
  match r with inl _ => failed (requestedParams (api z)) s | inr n => served (requestedParams (api z)) fm (frameEnded z && bool_decide (stage_of z = zcss_flush)) F M i o s n end.
Proof.
  intros HJ Hf Ha Hb Hs Htot. pose proof (ready_ok _ _ Ha) as Hok. unfold ZSTD_compressStream2. rewrite bind_get. cbn [zcs input output].
  destruct (Z.ltb_spec (out_size o) (out_pos o)) as [Ho|Ho]; [by eexists _, (inl _)|]. rewrite bind_accept by done.
  destruct (Z.ltb_spec (in_size i) (in_pos i)) as [Hi|Hi]; [by eexists _, (inl _)|]. rewrite bind_accept by done. destruct (bu_in _ _ Hb) as (_ & Hi0 & _).
  fold (stage_of z). destruct Hf as [[Hw ->]|[j Hr]].
  - pose proof (wa_stage _ _ Hw) as Hst. rewrite Hst, (bool_decide_eq_true_2 (zcss_init = zcss_init)), (bool_decide_eq_false_2 (zcss_init = zcss_flush)) by done. rewrite andb_false_r.
    destruct (_ && _ && _) eqn:Ec.
    + apply andb_prop in Ec as [[Ec1%Z.eqb_eq Ec2%bool_decide_eq_true]%andb_prop _]. subst fm. by apply wait_spec.
    + clear Ec. set (n := size_t _). destruct (init_stream_spec created fm n {| zcs := z; input := i; output := o; ip := ip'; op := op' |} Hst Ha) as (s1 & r & E & E1 & E2 & Hr); [apply wrap_range; unfold sizeof_size_t; destruct MEM_64bits; lia|].
      rewrite (bind_step _ _ _ _ _ E). destruct r as [e|u]; [by eexists _, (inl e)|]. destruct Hr as (j & Hask & Hbg). rewrite (bind_step _ _ _ _ _ (setBufferExpectations_spec _)). cbn [zcs input output] in *.
      destruct s1 as [z1 i1 o1 ip1 op1]. cbn [zcs input output] in *. subst i1 o1. destruct (begun_running j F z z1 i o ip1 op1 (HJ Hst j Hask) Hw Hs (conj Hi0 Hi) Hbg) as (R1 & R2 & R3 & R4 & R5).
      destruct (stream_rest_spec _ fm j F [] _ i o ip1 op1 R1 Hb Hi Ho R3 R4 R2 Htot) as (s & r & Es & Hr). exists s, r. split; [exact Es|]. rewrite R5 in Hr. exact Hr.
  - pose proof (ru_stage _ _ _ _ Hr) as Hst. rewrite (bool_decide_eq_false_2 (stage_of z = zcss_init)) by done.
    destruct (stream_rest_spec (requestedParams (api z)) fm j F M z i o ip' op' Hr Hb Hi Ho Hok eq_refl Hs Htot) as (s & r & Es & Hr'). exists s, r. split; [exact Es|].
    destruct r as [e|n]; [done|]. assert (frameEnded z && bool_decide (stage_of z = zcss_flush) = frameEnded z) as ->; [|done].
    pose proof (ru_staged _ _ _ _ Hr) as Hsg. unfold staged in Hsg. destruct (stage_of z); [done| |by rewrite bool_decide_eq_true_2, andb_true_r]. destruct Hsg as (_ & _ & ->). done.
Qed.

(** ** ZSTD_compress2 *)

Lemma word_size_64 : word_size <= 2 ^ 64.
Proof. unfold word_size. destruct sizeof_size_t_cases as [-> | ->]; lia. Qed.

Lemma simpleArgs_spec created dst dst_bytes src src_bytes z : (forall j, asked (requestedParams (api z)) ZSTD_e_end (zlen src_bytes) j -> J j) -> waiting [] z -> ready created (api z) -> mem_ok dst_bytes -> (dst = 0 -> dst_bytes = []) -> mem_ok src_bytes -> (src = 0 -> src_bytes = []) -> exists z' r,
  ZSTD_compressStream2_simpleArgs cdict_at created dst dst_bytes 0 src src_bytes 0 ZSTD_e_end z = Ok (z', r) /\ ctx_ok (api z') /\ requestedParams (api z') = requestedParams (api z) /\
  match r with
  | inl _ => True
  | inr (bs, oPos, iPos, n) => (bytes bs /\ zlen bs = zlen dst_bytes) /\ 0 <= oPos <= zlen dst_bytes /\ (n <> 0 -> oPos = zlen dst_bytes) /\ (n = 0 -> iPos = zlen src_bytes /\ exists j, J j /\ complete j src_bytes (slice bs 0 oPos))
  end.
Proof.
  intros HJ Hw Ha Hd Hd0 Hs Hs0. assert (stableIn_notConsumed z = 0) as Hnc.
  { destruct Hw as [_ [W|(_ & W & W')] W3]; [done|]. exfalso. unfold in_size in W'. apply (f_equal zlen) in W3. unfold held_back in W3. rewrite zlen_slice in W3 by lia. change (zlen []) with 0 in W3. lia. }
  unfold ZSTD_compressStream2_simpleArgs. set (i := {| in_src := src; in_bytes := src_bytes; in_pos := 0 |}). set (o := {| out_dst := dst; out_bytes := dst_bytes; out_pos := 0 |}).
  destruct (compressStream2_spec created ZSTD_e_end [] [] z i o 0 0) as (s & r & E & Hr).
  { intros _. rewrite Hnc. change (in_size i) with (zlen src_bytes). change (in_pos i) with 0. pose proof (zlen_nonneg src_bytes). destruct Hs as [_ Hs]. rewrite size_t_in by lia. by rewrite Z.sub_0_r, Z.add_0_r. }
  { by left. }
  { done. }
  { constructor; (split; [done|]; split; [done|]; intros E0); [change (zlen src_bytes = 0); by rewrite Hs0|change (zlen dst_bytes = 0); by rewrite Hd0]. }
  2:{ destruct Hs as [_ Hs]. unfold rest. cbn [in_pos in_bytes i Z.to_nat]. rewrite drop_0. change (zlen []) with 0. pose proof word_size_64. lia. }
  { by intros []. }
  pose proof (zlen_nonneg src_bytes). pose proof (zlen_nonneg dst_bytes).
  destruct r as [e|n]; [exists (zcs s), (inl e)|exists (zcs s), (inr (out_bytes (output s), out_pos (output s), in_pos (input s), n))]; (split; [unfold cbind, with_buffers; rewrite E; reflexivity|]).
  - by destruct Hr.
  - destruct Hr as [(V1 & V2 & V3) (V4 & V5 & V6 & V7) [V8 V9] (F' & V10 & V11)]. split; [done|]. split; [done|]. cbn [in_bytes in_pos i out_bytes out_pos o] in *. unfold rest in V10. cbn [in_pos i in_bytes Z.to_nat] in V10. rewrite drop_0, app_nil_l, V2 in V10.
    unfold out_size, in_size in *. cbn [in_bytes i out_bytes o] in *. split; [split; [apply V4|done]|]. split; [lia|]. rewrite (wa_stage _ _ Hw), bool_decide_eq_false_2, andb_false_r in V11 by done.
    destruct V11 as [j K1 K2 K3 K4|K1 K2 K3 K4|j KJ K1 K2 K3 K4]; [|done|].
    + pose proof (zlen_nonneg (pending (zcs s))). split; [intros N; unfold out_size in K3; rewrite V5 in K3; apply K3; lia|]. intros E0. by destruct (K4 E0) as (_ & [] & _).
    + split; [done|]. intros _. destruct K4 as [K4|]; [|done]. unfold rest in K4. rewrite V2 in K4. rewrite K4, app_nil_r in V10. subst F'. split; [|exists j; split; [done|]; unfold written in K1; cbn [out_pos o app] in K1; by rewrite Z.sub_0_r in K1].
      apply (f_equal length) in K4. rewrite length_drop in K4. cbn [length] in K4. unfold zlen in *. lia.
Qed.

Lemma compress2_spec created dst dst_bytes src src_bytes z : (forall j, asked (requestedParams (api z)) ZSTD_e_end (zlen src_bytes) j -> J j) -> stableIn_notConsumed z = 0 -> ready created (api z) -> mem_ok dst_bytes -> (dst = 0 -> dst_bytes = []) -> mem_ok src_bytes -> (src = 0 -> src_bytes = []) -> exists z' r,
  ZSTD_compress2 cdict_at created dst dst_bytes src src_bytes z = Ok (z', r) /\ ctx_ok (api z') /\ requestedParams (api z') = requestedParams (api z) /\
  match r with inl _ => True | inr (bs, n) => (bytes bs /\ zlen bs = zlen dst_bytes) /\ 0 <= n <= zlen dst_bytes /\ exists j, J j /\ complete j src_bytes (slice bs 0 n) end.
Proof.
  intros HJ Hnc Ha Hd Hd0 Hs Hs0. unfold ZSTD_compress2. set (z1 := z <| api := api z <| streamStage := zcss_init |> <| pledgedSrcSizePlusOne := 0 |> <| requestedParams := requestedParams (api z) <| inBufferMode := ZSTD_bm_stable |> <| outBufferMode := ZSTD_bm_stable |> |> |>).
  change (ZSTD_CCtx_reset ZSTD_reset_session_only (api z)) with (@Ok Empty_set _ (api z <| streamStage := zcss_init |> <| pledgedSrcSizePlusOne := 0 |>, @inr ZSTD_ErrorCode Z 0)). cbn iota beta.
  destruct (simpleArgs_spec created dst dst_bytes src src_bytes z1) as (z2 & r & E & H1 & H2 & Hr); try done.
  { intros j []. apply HJ. by constructor. }
  { constructor; [done|by left|]. unfold held_back. change (stableIn_notConsumed z1) with (stableIn_notConsumed z). by rewrite Hnc. }
  { apply (ready_same created (api z)); try done. destruct (co_params _ (ready_ok _ _ Ha)). by constructor. }
  match goal with |- context [ZSTD_compressStream2_simpleArgs _ _ _ _ _ _ _ _ _ ?x] => change x with z1 end. rewrite E. set (z3 := z2 <| api ::= _ |>).
  assert (requestedParams (api z3) = requestedParams (api z)) as Hq. { subst z3. cbn [update api requestedParams]. rewrite H2. subst z1. cbn [update api requestedParams]. by destruct (requestedParams (api z)). }
  assert (ctx_ok (api z3)) as Hok. { apply (ready_ok 0), (ready_same 0 (api z2)); try done; [by split; [|left]| |apply H1]. rewrite Hq. apply (co_params _ (ready_ok _ _ Ha)). }
  destruct r as [e|[[[bs oPos] iPos] n]]; [by exists z3, (inl e)|]. destruct Hr as (R1 & R2 & R3 & R4). unfold cbind at 1, cret at 1. destruct (Z.eqb_spec n 0) as [E0|N0]; cbn [negb].
  - destruct (R4 E0) as [-> Hj]. rewrite bind_ret, bind_assert by apply Z.eqb_refl. by exists z3, (inr (bs, oPos)).
  - rewrite (R3 N0). rewrite (bind_step _ _ z3 z3 (inl ZSTD_error_dstSize_tooSmall)) by (by rewrite bind_assert by apply Z.eqb_refl). by exists z3, (inl ZSTD_error_dstSize_tooSmall).
Qed.
End Start.
End Call.
