(* ===== verification/CFrame.v ===== *)
(** * Compressing a frame

    [ZSTD_compressContinue_internal], [ZSTD_compress_frameChunk], [ZSTD_writeEpilogue] and [ZSTD_compressEnd_public] of
    zstd_compress.c: a frame is a header, blocks, an empty last block if none of them was the last, and a checksum.
    They use the functions that find matches and encode blocks through [BlockCompressor]; together they are the
    [FrameCompressor] of a stream.

    A call is given the contents of the memory from [dst] on; [op] is an offset into it.  Sequences are not
    collected, and [ZSTD_TRACE] is 0. *)
From S2P Require Import Prelude Mem Errors Bits Frame Xxh64 CParams RecordUpdate Calls CCtxParams CCtxSize CCtxReset CCtxApi CStream.

(** What a block compressor makes of a block: its state, the contents of [dst] and the number of bytes written. *)
Definition block_result (W : Type) : Type := outcome Empty_set (W * list Z * (ZSTD_ErrorCode + Z)).

(** The functions below a frame, on the state [W] of match finders and entropy tables. *)
Class BlockCompressor (W : Type) := {
  (** [ZSTD_compressBegin_internal], with [dictID] *)
  start_frame : W -> frame_job -> outcome Empty_set (W * (ZSTD_ErrorCode + frame_setup * Z));
  (** [ZSTD_window_update] of the windows with new input *)
  window_update : W -> list Z -> W;
  (** [ZSTD_splitBlock], of the input, the largest block and the level *)
  splitBlock : W -> list Z -> Z -> Z -> Z;
  (** [ZSTD_overflowCorrectIfNeeded] *)
  overflowCorrect : W -> list Z -> W;
  (** [ZSTD_checkDictValidity], [ZSTD_window_enforceMaxDist] and the update of [nextToUpdate] *)
  slide_window : W -> list Z -> W;
  compressBlock_targetCBlockSize : W -> list Z -> list Z -> Z -> block_result W;
  compressBlock_splitBlock : W -> list Z -> list Z -> Z -> block_result W;
  compressBlock_internal : W -> list Z -> list Z -> bool -> block_result W
}.

Definition MIN_CBLOCK_SIZE : Z := 1 + 1.
Definition KB128 : Z := 128 * 2 ^ 10.

Section Frame.
Context `{P : Platform} {W : Type} `{BC : BlockCompressor W}.

(** The fields of a context that are used here, and the contents of [dst]. *)
Record ZSTD_CFrame := {
  f_stage : ZSTD_compressionStage_e;
  f_params : ZSTD_CCtx_params;
  f_dictID : Z;
  f_pledgedSrcSizePlusOne : Z;
  f_consumedSrcSize : Z;
  f_producedCSize : Z;
  f_blockSizeMax : Z;
  f_xxhState : XXH64_state_t;
  f_isFirstBlock : bool;
  f_blocks : W;
  f_dst : list Z
}.

#[global] Instance eta_CFrame : Eta ZSTD_CFrame := fun c =>
  {| f_stage := f_stage c; f_params := f_params c; f_dictID := f_dictID c; f_pledgedSrcSizePlusOne := f_pledgedSrcSizePlusOne c;
     f_consumedSrcSize := f_consumedSrcSize c; f_producedCSize := f_producedCSize c; f_blockSizeMax := f_blockSizeMax c; f_xxhState := f_xxhState c;
     f_isFirstBlock := f_isFirstBlock c; f_blocks := f_blocks c; f_dst := f_dst c |}.

Local Open Scope call_scope.
Notation fcall := (Calls.call ZSTD_CFrame).

Definition on_blocks (f : W -> W) : fcall unit := cmodify (fun c => c <| f_blocks ::= f |>).

(** A function that writes to [dst] and does not use the context. *)
Definition on_dst {A} (f : list Z -> res (A * list Z)) : fcall A := fun c =>
  match f (f_dst c) with
  | Ok (a, d) => Ok (c <| f_dst := d |>, inr a)
  | Err e => Ok (c, inl e)
  | Fault x => Fault x
  end.

(** A block compressor, with [capacity] bytes from [op] on. *)
Definition on_block (f : W -> list Z -> block_result W) (op capacity : Z) : fcall Z := fun c =>
  match asub (f_dst c) op capacity with
  | Ok region =>
      match f (f_blocks c) region with
      | Ok (w, region, r) =>
          match awrite (f_dst c) op region with
          | Ok d => Ok (c <| f_blocks := w |> <| f_dst := d |>, r)
          | Err e => Err e
          | Fault x => Fault x
          end
      | Err e => Err e
      | Fault x => Fault x
      end
  | Err e => Err e
  | Fault x => Fault x
  end.

Definition splitLevels : list Z := [0; 0; 1; 2; 2; 3; 3; 4; 4; 4].

(** [src] is the rest of the input. *)
Definition ZSTD_optimalBlockSize (w : W) (src : list Z) (blockSizeMax splitLevel strat savings : Z) : res Z :=
  let srcSize := zlen src in
  if (srcSize <? KB128) || (blockSizeMax <? KB128) then Ok (Z.min srcSize blockSizeMax)
  else if savings <? 3 then Ok KB128
  else if splitLevel =? 1 then Ok KB128
  else
    let* level := if splitLevel =? 0 then oassert ((ZSTD_fast <=? strat) && (strat <=? ZSTD_btultra2));;; aget splitLevels strat
                  else oassert ((2 <=? splitLevel) && (splitLevel <=? 6));;; Ok (splitLevel - 2) in
    Ok (splitBlock w src blockSizeMax level).

Definition ZSTD_useTargetCBlockSize (p : ZSTD_CCtx_params) : bool := negb (targetCBlockSize p =? 0).
Definition ZSTD_blockSplitterEnabled (p : ZSTD_CCtx_params) : res bool := oassert (negb (postBlockSplitter p =? ZSTD_ps_auto));;; Ok (postBlockSplitter p =? ZSTD_ps_enable).

(** The block [src], with its header; its size. *)
Definition compress_chunk_block (src : list Z) (op dstCapacity lastBlock : Z) : fcall Z :=
  let! c := cget in
  let blockSize := zlen src in
  if ZSTD_useTargetCBlockSize (f_params c) then
    let! cSize := on_block (fun w dst => compressBlock_targetCBlockSize w dst src lastBlock) op dstCapacity in
    do cassert (0 <? cSize);
    do cassert (cSize <=? blockSize + ZSTD_blockHeaderSize);
    cret cSize
  else
    let! split := cpure (ZSTD_blockSplitterEnabled (f_params c)) in
    if split then
      let! cSize := on_block (fun w dst => compressBlock_splitBlock w dst src lastBlock) op dstCapacity in
      do cassert (0 <? cSize);
      cret cSize
    else
      let! cSize := on_block (fun w dst => compressBlock_internal w dst src true) (op + ZSTD_blockHeaderSize) (dstCapacity - ZSTD_blockHeaderSize) in
      if cSize =? 0 then on_dst (fun d => ZSTD_noCompressBlock d op dstCapacity src 0 blockSize lastBlock)
      else
        let cBlockHeader := if cSize =? 1 then u32 (u32 (lastBlock + Z.shiftl (blockType_val bt_rle) 1) + u32 (size_t (Z.shiftl blockSize 3)))
                            else u32 (u32 (lastBlock + Z.shiftl (blockType_val bt_compressed) 1) + u32 (size_t (Z.shiftl cSize 3))) in
        do on_dst (fun d => let* d := MEM_writeLE24 d op cBlockHeader in Ok (tt, d));
        cret (size_t (cSize + ZSTD_blockHeaderSize)).

(** The [while (remaining)] loop: [src] is what remains, [op] where the next block goes. *)
Fixpoint chunk_loop (fuel : nat) (src : list Z) (op dstCapacity savings lastFrameChunk : Z) : fcall Z :=
  if zlen src =? 0 then cret op
  else match fuel with
  | O => fun _ => Fault OutOfFuel
  | S fuel =>
      let! c := cget in
      let! blockSize := cpure (ZSTD_optimalBlockSize (f_blocks c) src (f_blockSizeMax c) (preBlockSplitter_level (f_params c)) (cp_strategy (cParams (f_params c))) savings) in
      let lastBlock := Z.land lastFrameChunk (b2z (blockSize =? zlen src)) in
      do cassert (blockSize <=? zlen src);
      do creject_if (dstCapacity <? ZSTD_blockHeaderSize + MIN_CBLOCK_SIZE + 1) ZSTD_error_dstSize_tooSmall;
      let! block := cpure (asub src 0 blockSize) in
      do on_blocks (fun w => slide_window (overflowCorrect w block) block);
      let! cSize := compress_chunk_block block op dstCapacity lastBlock in
      do cassert (cSize <=? dstCapacity);
      do cmodify (fun c => c <| f_isFirstBlock := false |>);
      chunk_loop fuel (drop (Z.to_nat blockSize) src) (op + cSize) (dstCapacity - cSize) (sgn 64 (savings + (blockSize - cSize))) lastFrameChunk
  end.

(** From [start] on; every block has at least a byte of input. *)
Definition ZSTD_compress_frameChunk (start dstCapacity : Z) (src : list Z) (lastFrameChunk : Z) : fcall Z :=
  let! c := cget in
  do cassert (cp_windowLog (cParams (f_params c)) <=? ZSTD_WINDOWLOG_MAX);
  let savings := sgn 64 (f_consumedSrcSize c - f_producedCSize c) in
  do if negb (p_checksumFlag (fParams (f_params c)) =? 0) && negb (zlen src =? 0) then
       let! h := cpure (XXH64_update (f_xxhState c) src (Some 0) (zlen src)) in
       cmodify (fun c => c <| f_xxhState := h |>)
     else cret tt;
  let! op := chunk_loop (length src) src start dstCapacity savings lastFrameChunk in
  do if negb (lastFrameChunk =? 0) && (start <? op) then cmodify (fun c => c <| f_stage := ZSTDcs_ending |>) else cret tt;
  cret (op - start).

Definition write_header (op dstCapacity pledgedSrcSize dictID : Z) : fcall Z :=
  let! c := cget in
  on_dst (fun d => ZSTD_writeFrameHeader d op dstCapacity (format_of (format (f_params c))) (cp_windowLog (cParams (f_params c))) (fParams (f_params c)) pledgedSrcSize dictID).

Definition ZSTD_compressContinue_internal (src : list Z) (frame : bool) (lastFrameChunk : Z) : fcall Z :=
  let! c := cget in
  let dstCapacity := zlen (f_dst c) in
  do creject_if (bool_decide (f_stage c = ZSTDcs_created)) ZSTD_error_stage_wrong;
  let! fhSize :=
    if frame && bool_decide (f_stage c = ZSTDcs_init) then
      let! fhSize := write_header 0 dstCapacity (u64 (f_pledgedSrcSizePlusOne c - 1)) (f_dictID c) in
      do cassert (fhSize <=? dstCapacity);
      do cmodify (fun c => c <| f_stage := ZSTDcs_ongoing |>);
      cret fhSize
    else cret 0 in
  if zlen src =? 0 then cret fhSize
  else
    do on_blocks (fun w => window_update w src);
    do if negb frame then on_blocks (fun w => overflowCorrect w src) else cret tt;
    let! cSize := if frame then ZSTD_compress_frameChunk fhSize (dstCapacity - fhSize) src lastFrameChunk
                  else on_block (fun w dst => compressBlock_internal w dst src false) fhSize (dstCapacity - fhSize) in
    do cmodify (fun c => c <| f_consumedSrcSize := u64 (f_consumedSrcSize c + zlen src) |> <| f_producedCSize := u64 (f_producedCSize c + (cSize + fhSize)) |>);
    let! c := cget in
    do cassert (negb (negb (contentSizeFlag (fParams (f_params c)) =? 0) && (f_pledgedSrcSizePlusOne c =? 0)));
    do if negb (f_pledgedSrcSizePlusOne c =? 0) then creject_if (f_pledgedSrcSizePlusOne c <? u64 (f_consumedSrcSize c + 1)) ZSTD_error_srcSize_wrong else cret tt;
    cret (cSize + fhSize).

Definition ZSTD_compressContinue_public (src : list Z) : fcall Z := ZSTD_compressContinue_internal src true 0.

Definition ZSTD_writeEpilogue (start : Z) : fcall Z :=
  let! c := cget in
  let dstCapacity := zlen (f_dst c) - start in
  do creject_if (bool_decide (f_stage c = ZSTDcs_created)) ZSTD_error_stage_wrong;
  let! fhSize :=
    if bool_decide (f_stage c = ZSTDcs_init) then
      let! fhSize := write_header start dstCapacity 0 0 in
      do cmodify (fun c => c <| f_stage := ZSTDcs_ongoing |>);
      cret fhSize
    else cret 0 in
  let op := start + fhSize in
  let dstCapacity := dstCapacity - fhSize in
  let! c := cget in
  let! blockHeaderSize :=
    if negb (bool_decide (f_stage c = ZSTDcs_ending)) then
      do creject_if (dstCapacity <? 3) ZSTD_error_dstSize_tooSmall;
      do on_dst (fun d => let* d := MEM_writeLE24 d op (1 + Z.shiftl (blockType_val bt_raw) 1 + 0) in Ok (tt, d));
      cret ZSTD_blockHeaderSize
    else cret 0 in
  let op := op + blockHeaderSize in
  let dstCapacity := dstCapacity - blockHeaderSize in
  let! checksumSize :=
    if negb (p_checksumFlag (fParams (f_params c)) =? 0) then
      let! h := cpure (XXH64_digest (f_xxhState c)) in
      let checksum := u32 h in
      do creject_if (dstCapacity <? 4) ZSTD_error_dstSize_tooSmall;
      do on_dst (fun d => let* d := MEM_writeLE32 d op checksum in Ok (tt, d));
      cret 4
    else cret 0 in
  do cmodify (fun c => c <| f_stage := ZSTDcs_created |>);
  cret (op + checksumSize - start).

Definition ZSTD_compressEnd_public (src : list Z) : fcall Z :=
  let! cSize := ZSTD_compressContinue_internal src true 1 in
  let! endResult := ZSTD_writeEpilogue cSize in
  let! c := cget in
  do cassert (negb (negb (contentSizeFlag (fParams (f_params c)) =? 0) && (f_pledgedSrcSizePlusOne c =? 0)));
  do if negb (f_pledgedSrcSizePlusOne c =? 0) then creject_if (negb (f_pledgedSrcSizePlusOne c =? u64 (f_consumedSrcSize c + 1))) ZSTD_error_srcSize_wrong else cret tt;
  cret (cSize + endResult).

(** The fields that [ZSTD_compressBegin_internal] sets for a new frame. *)
Definition begin_CFrame (c : ZSTD_CFrame) (w : W) (j : frame_job) (su : frame_setup) (dictID : Z) : ZSTD_CFrame :=
  c <| f_stage := ZSTDcs_init |> <| f_params := fs_params su |> <| f_dictID := dictID |> <| f_pledgedSrcSizePlusOne := u64 (job_pledged j + 1) |>
    <| f_consumedSrcSize := 0 |> <| f_producedCSize := 0 |> <| f_blockSizeMax := fs_block su |> <| f_xxhState := XXH64_reset 0 |> <| f_isFirstBlock := true |> <| f_blocks := w |>.

(** A call of one of them on [dst] and [src]. *)
Definition run_frame (m : fcall Z) (c : ZSTD_CFrame) (dst : list Z) : outcome Empty_set (ZSTD_CFrame * list Z * (ZSTD_ErrorCode + Z)) :=
  match m (c <| f_dst := dst |>) with
  | Ok (c, r) => Ok (c, f_dst c, r)
  | Err e => Err e
  | Fault x => Fault x
  end.

#[global] Instance CFrame_compressor : FrameCompressor ZSTD_CFrame := {|
  compressBegin c j :=
    match start_frame (f_blocks c) j with
    | Ok (w, inr (su, dictID)) => Ok (begin_CFrame c w j su dictID, inr su)
    | Ok (w, inl e) => Ok (c <| f_blocks := w |>, inl e)
    | Err e => Err e
    | Fault x => Fault x
    end;
  compressContinue c dst src := run_frame (ZSTD_compressContinue_public src) c dst;
  compressEnd c dst src := run_frame (ZSTD_compressEnd_public src) c dst
|}.
End Frame.
