(* ===== verification/CFrameOk.v ===== *)
(** * A compressed frame is well formed

    What block compressors promise ([BlockCompressorLaws]), what a frame is ([chain], [is_frame]): a header that says what was asked
    for, blocks whose contents are the input in order with the last one marked, and the checksum of the input.  The functions of
    [CFrame] keep the promises of a [FrameCompressor], so that every theorem about streams holds for them. *)
From S2P Require Import Prelude Mem Errors Bits Frame FrameWalk Xxh64 CParams RecordUpdate Calls CCtxParams CwkspArena CCtxSize CCtxReset CCtxApi CStream CStreamOk CFrame.

(** ** Frames *)

Definition block_head (last : Z) (t : blockType_e) (size : Z) : list Z := le_bytes 3 (last + 2 * blockType_val t + 8 * size).

Section Format.
(** [body h bs k]: the compressed block [bs] has the contents [k], after the contents [h] of the blocks before it. *)
Context (body : list Z -> list Z -> list Z -> Prop).

Inductive block (h : list Z) (last : Z) : list Z -> list Z -> Prop :=
| raw_block k : zlen k <= ZSTD_BLOCKSIZE_MAX -> block h last (block_head last bt_raw (zlen k) ++ k) k
| rle_block n b : 0 < Z.of_nat n <= ZSTD_BLOCKSIZE_MAX -> block h last (block_head last bt_rle (Z.of_nat n) ++ [b]) (replicate n b)
| compressed_block bs k : 2 <= zlen bs <= ZSTD_BLOCKSIZE_MAX -> body h bs k -> block h last (block_head last bt_compressed (zlen bs) ++ bs) k.

(** Blocks one after the other; if [last], the last of them says so, and no other. *)
Inductive chain (last : bool) : list Z -> list Z -> list Z -> Prop :=
| chain_nil h : last = false -> chain last h [] []
| chain_last h bs k : last = true -> block h 1 bs k -> chain last h bs k
| chain_cons h bs k bs' k' : block h 0 bs k -> chain last (h ++ k) bs' k' -> chain last h (bs ++ bs') (k ++ k').

Lemma chain_app last h bs k bs' k' : chain false h bs k -> chain last (h ++ k) bs' k' -> chain last h (bs ++ bs') (k ++ k').
Proof.
  intros H. induction H as [h _|h bs k E|h bs k bs2 k2 Hb Hc IH]; intros H'; [by rewrite app_nil_r in H'|done|].
  rewrite <- !app_assoc. apply chain_cons; [done|]. apply IH. by rewrite <- app_assoc.
Qed.

Lemma chain_one h last bs k : block h (b2z last) bs k -> chain last h bs k.
Proof.
  intros H. destruct last; [by apply chain_last|]. rewrite <- (app_nil_r bs), <- (app_nil_r k). apply chain_cons; [done|by apply chain_nil].
Qed.
End Format.

(** ** The contract of block compressors *)

(** The frame parameters in use, and the parameters that the frame's functions read. *)
Definition frame_fParams (j : frame_job) : ZSTD_frameParameters :=
  if job_pledged j =? ZSTD_CONTENTSIZE_UNKNOWN then fParams (job_params j) <| contentSizeFlag := 0 |> else fParams (job_params j).

Record applied (j : frame_job) (p : ZSTD_CCtx_params) : Prop := {
  ap_format : format p = format (job_params j);
  ap_windowLog : cp_windowLog (cParams p) = cp_windowLog (cParams (job_params j));
  ap_strategy : 1 <= cp_strategy (cParams p) <= 9;
  ap_fParams : fParams p = frame_fParams j;
  ap_split : postBlockSplitter p <> ZSTD_ps_auto;
  ap_preSplit : 0 <= preBlockSplitter_level p <= 6
}.

(** [good j w h]: the state [w] is that after blocks with the contents [h]. *)
Class BlockCompressorLaws `{P : Platform} (W : Type) `{BC : BlockCompressor W} := {
  good : frame_job -> W -> list Z -> Prop;
  body : frame_job -> list Z -> list Z -> list Z -> Prop;
  start_law w j : started (job_params j) -> 0 <= job_pledged j < 2 ^ 64 ->
    match start_frame w j with
    | Ok (w, inr (su, dictID)) => good j w [] /\ setup_ok j su /\ fs_block su <= ZSTD_BLOCKSIZE_MAX /\ applied j (fs_params su) /\ 0 <= dictID < 2 ^ 32
    | Ok (_, inl _) => True
    | _ => False
    end;
  window_law j w h src : good j w h -> good j (window_update w src) h;
  overflow_law j w h src : good j w h -> good j (overflowCorrect w src) h;
  slide_law j w h src : good j w h -> good j (slide_window w src) h;
  splitBlock_law w src bmax level : KB128 <= zlen src -> 0 < splitBlock w src bmax level <= KB128;
  target_law j w h dst src last : good j w h -> mem_ok dst -> mem_ok src -> 0 < zlen src <= ZSTD_BLOCKSIZE_MAX -> 0 <= last <= 1 ->
    match compressBlock_targetCBlockSize w dst src last with
    | Ok (w, dst', r) => bytes dst' /\ zlen dst' = zlen dst /\
        match r with inr n => 0 < n <= zlen dst /\ n <= zlen src + 3 /\ good j w (h ++ src) /\ chain (body j) (last =? 1) h (slice dst' 0 n) src | inl _ => True end
    | _ => False
    end;
  split_law j w h dst src last : good j w h -> mem_ok dst -> mem_ok src -> 0 < zlen src <= ZSTD_BLOCKSIZE_MAX -> 0 <= last <= 1 ->
    match compressBlock_splitBlock w dst src last with
    | Ok (w, dst', r) => bytes dst' /\ zlen dst' = zlen dst /\
        match r with inr n => 0 < n <= zlen dst /\ good j w (h ++ src) /\ chain (body j) (last =? 1) h (slice dst' 0 n) src | inl _ => True end
    | _ => False
    end;
  (** 0: not compressible; 1: a run of the byte written *)
  internal_law j w h dst src : good j w h -> mem_ok dst -> mem_ok src -> 0 < zlen src <= ZSTD_BLOCKSIZE_MAX ->
    match compressBlock_internal w dst src true with
    | Ok (w, dst', r) => bytes dst' /\ zlen dst' = zlen dst /\
        match r with
        | inr n => 0 <= n <= zlen dst /\ n <= zlen src /\ good j w (h ++ src) /\
            (n = 1 -> exists b, slice dst' 0 1 = [b] /\ src = replicate (length src) b) /\ (2 <= n -> body j h (slice dst' 0 n) src)
        | inl _ => True
        end
    | _ => False
    end
}.

Section FrameOk.
Context `{P : Platform} {W : Type} `{BC : BlockCompressor W} `{BL : !BlockCompressorLaws W}.
Implicit Types (c : ZSTD_CFrame (W := W)).

(** The header of the frame. *)
Definition frame_header (j : frame_job) (dictID : Z) : list Z :=
  w_hb (format_of (format (job_params j))) (cp_windowLog (cParams (job_params j))) (frame_fParams j) (job_pledged j) dictID.

Definition frame_checksum (j : frame_job) (i : list Z) : list Z :=
  if p_checksumFlag (frame_fParams j) =? 0 then [] else le_bytes 4 (u32 (xxh64_ref 0 i)).

(** [o] is a frame of [i]. *)
Definition is_frame (j : frame_job) (i o : list Z) : Prop :=
  (job_pledged j <> ZSTD_CONTENTSIZE_UNKNOWN -> zlen i = job_pledged j) /\
  exists dictID bs, 0 <= dictID < 2 ^ 32 /\ o = frame_header j dictID ++ bs ++ frame_checksum j i /\ chain (body j) true [] bs i.

(** The fields of a context in a frame of which [i] was compressed. *)
Record keeps (j : frame_job) (i : list Z) c : Prop := {
  ke_started : started (job_params j) /\ 0 <= job_pledged j < 2 ^ 64;
  ke_params : applied j (f_params c);
  ke_dictID : 0 <= f_dictID c < 2 ^ 32;
  ke_pledged : f_pledgedSrcSizePlusOne c = u64 (job_pledged j + 1);
  ke_block : 1 <= f_blockSizeMax c <= ZSTD_BLOCKSIZE_MAX;
  ke_hash : p_checksumFlag (frame_fParams j) <> 0 -> absorbed 0 i (f_xxhState c);
  ke_good : good j (f_blocks c) i
}.

(** The session of a frame: nothing was written before the first call. *)
Definition frame_session (j : frame_job) c (i o : list Z) : Prop :=
  keeps j i c /\ f_consumedSrcSize c = zlen i /\ zlen i < 2 ^ 64 /\
  ((f_stage c = ZSTDcs_init /\ i = [] /\ o = []) \/
   (f_stage c = ZSTDcs_ongoing /\ exists bs, o = frame_header j (f_dictID c) ++ bs /\ chain (body j) false [] bs i)).

(** ** One block *)

(** What a piece of code has written: [bs] at [op], and nothing before it. *)
Record wrote (d d' : list Z) (op : Z) (bs : list Z) : Prop := {
  wr_bytes : bytes d';
  wr_zlen : zlen d' = zlen d;
  wr_before : take (Z.to_nat op) d' = take (Z.to_nat op) d;
  wr_there : slice d' op (zlen bs) = bs
}.

Lemma wrote_splice d op bs k : bytes d -> bytes (bs ++ k) -> 0 <= op -> op + zlen (bs ++ k) <= zlen d -> wrote d (splice d op (bs ++ k)) op bs.
Proof.
  intros Hd Hk Ho Hl. pose proof (zlen_nonneg bs). pose proof (zlen_nonneg k). rewrite zlen_app in Hl. constructor.
  - by apply bytes_of_splice.
  - apply zlen_splice; [lia|rewrite zlen_app; lia].
  - apply take_splice; lia.
  - pose proof (slice_splice d op (bs ++ k) Ho ltac:(rewrite zlen_app; lia)) as E. rewrite zlen_app, <- slice_app in E by lia. apply app_inj_1 in E; [tauto|]. pose proof (zlen_slice (splice d op (bs ++ k)) op (zlen bs)) as Hz.
    rewrite zlen_splice in Hz by (rewrite ?zlen_app; lia). unfold zlen in *. lia.
Qed.

(** Writing goes on where it stopped. *)
Lemma wrote_app d d1 d2 op bs1 bs2 : wrote d d1 op bs1 -> wrote d1 d2 (op + zlen bs1) bs2 -> 0 <= op -> op + zlen bs1 <= zlen d -> wrote d d2 op (bs1 ++ bs2).
Proof.
  intros [A1 A2 A3 A4] [B1 B2 B3 B4] Ho Hl. pose proof (zlen_nonneg bs1). pose proof (zlen_nonneg bs2).
  assert (forall q n, 0 <= q -> 0 <= n -> q + n <= op + zlen bs1 -> slice d2 q n = slice d1 q n) as Hs.
  { intros q n Hq Hn Hqn. assert (forall l : list Z, slice l q n = slice (take (Z.to_nat (op + zlen bs1)) l) q n) as Hm by (intros l; unfold slice; rewrite skipn_firstn_comm, take_take; f_equal; lia). rewrite (Hm d2), (Hm d1). by rewrite B3. }
  constructor; [done|lia| |].
  - rewrite <- A3. specialize (Hs 0 op ltac:(lia) ltac:(lia) ltac:(lia)). exact Hs.
  - rewrite zlen_app, <- slice_app by lia. rewrite B4. f_equal. rewrite Hs by lia. done.
Qed.

Lemma wrote_nil d op : bytes d -> wrote d d op [].
Proof. intros Hd. constructor; try done. Qed.

Lemma on_block_val (f : W -> list Z -> block_result W) op cap c w d r : 0 <= op -> 0 <= cap -> op + cap <= zlen (f_dst c) -> f (f_blocks c) (slice (f_dst c) op cap) = Ok (w, d, r) -> zlen d = cap ->
  on_block f op cap c = Ok (c <| f_blocks := w |> <| f_dst := splice (f_dst c) op d |>, r).
Proof. intros Ho Hc Hl E Hd. unfold on_block. rewrite asub_Ok by lia. rewrite E. by rewrite awrite_Ok by lia. Qed.

Lemma head_bytes last t n : bytes (block_head last t n) /\ zlen (block_head last t n) = 3.
Proof. split; [apply bytes_le_bytes|]. unfold block_head. by rewrite zlen_le_bytes. Qed.

Lemma noCompressBlock_val d op cap src last : 0 <= last <= 1 -> zlen src <= ZSTD_BLOCKSIZE_MAX -> 0 <= op -> op + cap <= zlen d ->
  ZSTD_noCompressBlock d op cap src 0 (zlen src) last =
    if cap <? zlen src + 3 then Err ZSTD_error_dstSize_tooSmall else Ok (3 + zlen src, splice d op (block_head last bt_raw (zlen src) ++ src)).
Proof.
  intros Hl Hz Ho Hr. pose proof (zlen_nonneg src). change ZSTD_BLOCKSIZE_MAX with (2 ^ 17) in Hz. unfold ZSTD_noCompressBlock, ZSTD_blockHeaderSize, reject_if.
  rewrite (size_t_small (zlen src + 3)), (size_t_small (3 + zlen src)) by lia. rewrite block_header_word by lia. destruct (Z.ltb_spec cap (zlen src + 3)); [done|]. cbn [obind].
  rewrite MEM_writeLE24_val by (try apply block_header_fit; lia). cbn [obind]. fold (block_head last bt_raw (zlen src)). destruct (head_bytes last bt_raw (zlen src)) as [Hb Hh].
  rewrite asub_Ok by lia. cbn [obind]. assert (slice src 0 (zlen src) = src) as -> by (unfold slice, zlen; rewrite Nat2Z.id, drop_0; apply take_ge; lia).
  rewrite awrite_Ok by (rewrite ?zlen_splice by lia; lia). cbn [obind]. replace (op + 3) with (op + zlen (block_head last bt_raw (zlen src))) by lia. by rewrite splice_app by lia.
Qed.

(** What is written of a block, or of several. *)
Definition block_written (j : frame_job) (last : Z) (h src d : list Z) (op cap : Z) (w : W) (d' : list Z) (n : Z) : Prop :=
  0 < n <= cap /\ good j w (h ++ src) /\ exists bs, zlen bs = n /\ chain (body j) (last =? 1) h bs src /\ wrote d d' op bs.

Section Block.
Context (j : frame_job) (h src : list Z) (op cap last : Z) (c : ZSTD_CFrame (W := W)).
Context (Hap : applied j (f_params c)) (Hg : good j (f_blocks c) h) (Hd : mem_ok (f_dst c)) (Hs : mem_ok src) (Hz : 0 < zlen src <= ZSTD_BLOCKSIZE_MAX) (Hl : 0 <= last <= 1).
Context (Ho : 0 <= op) (Hc : 6 <= cap) (Hroom : op + cap <= zlen (f_dst c)).

(** A result that the compressor itself has framed. *)
Lemma framed_block (f : W -> list Z -> block_result W) w d (r : ZSTD_ErrorCode + Z) : f (f_blocks c) (slice (f_dst c) op cap) = Ok (w, d, r) -> bytes d -> zlen d = cap ->
  match r with inr n => 0 < n <= cap /\ good j w (h ++ src) /\ chain (body j) (last =? 1) h (slice d 0 n) src | inl _ => True end ->
  let d' := splice (f_dst c) op d in on_block f op cap c = Ok (c <| f_blocks := w |> <| f_dst := d' |>, r) /\ bytes d' /\ zlen d' = zlen (f_dst c) /\
  match r with inr n => block_written j last h src (f_dst c) op cap w d' n | inl _ => True end.
Proof.
  intros E Hb Hzd Hr d'. split; [by apply on_block_val; try lia|]. destruct Hd as [Hd1 Hd2]. split; [by apply bytes_of_splice|]. split; [apply zlen_splice; lia|]. destruct r as [e|n]; [done|].
  destruct Hr as (Hn & Hgd & Hch). split; [done|]. split; [done|]. exists (slice d 0 n). split; [apply zlen_slice; lia|]. split; [done|]. subst d'. assert (slice d 0 n ++ drop (Z.to_nat n) d = d) as Ed by (unfold slice; cbn [Z.to_nat]; by rewrite drop_0, take_drop).
  rewrite <- Ed at 1. apply wrote_splice; rewrite ?Ed; done || lia.
Qed.

(** The header that goes before a run or a compressed block. *)
Lemma write_head d n t : 0 <= n <= ZSTD_BLOCKSIZE_MAX -> bytes d -> zlen d = zlen (f_dst c) ->
  let word := u32 (u32 (last + Z.shiftl (blockType_val t) 1) + u32 (size_t (Z.shiftl n 3))) in
  (let* d := MEM_writeLE24 d op word in Ok (tt, d)) = (Ok (tt, splice d op (block_head last t n)) : res (unit * list Z)).
Proof.
  intros Hn Hb Hd' word. change ZSTD_BLOCKSIZE_MAX with (2 ^ 17) in Hn. subst word. rewrite block_header_word by lia. rewrite MEM_writeLE24_val by (try apply block_header_fit; lia). done.
Qed.

Lemma internal_block w d n : compressBlock_internal (f_blocks c) (slice (f_dst c) (op + 3) (cap - 3)) src true = Ok (w, d, inr n) -> bytes d -> zlen d = cap - 3 -> n <> 0 -> 0 <= n <= cap - 3 -> n <= zlen src -> good j w (h ++ src) ->
  (n = 1 -> exists b, slice d 0 1 = [b] /\ src = replicate (length src) b) -> (2 <= n -> body j h (slice d 0 n) src) ->
  let t := if n =? 1 then bt_rle else bt_compressed in let size := if n =? 1 then zlen src else n in
  let d' := splice (splice (f_dst c) (op + 3) d) op (block_head last t size) in
  bytes d' /\ zlen d' = zlen (f_dst c) /\ block_written j last h src (f_dst c) op cap w d' (n + 3).
Proof.
  intros E Hb Hzd Hn0 Hn Hns Hgd H1 H2 t size d'. destruct Hd as [Hd1 Hd2]. destruct (head_bytes last t size) as [K1 K2].
  assert (splice (splice (f_dst c) (op + 3) d) op (block_head last t size) = splice (f_dst c) op (block_head last t size ++ d)) as Ed.
  { replace (op + 3) with (op + zlen (block_head last t size)) by lia. apply splice_before; lia. }
  assert (slice d 0 n ++ drop (Z.to_nat n) d = d) as Edd by (unfold slice; cbn [Z.to_nat]; by rewrite drop_0, take_drop). assert (zlen (slice d 0 n) = n) as Hsl by (apply zlen_slice; lia). subst d'. rewrite Ed.
  split; [apply bytes_of_splice; [done|by apply Forall_app]|]. split; [apply zlen_splice; rewrite ?zlen_app; lia|].
  split; [lia|]. split; [done|]. exists (block_head last t size ++ slice d 0 n). split; [rewrite zlen_app; lia|]. split.
  - apply chain_one. replace (b2z (last =? 1)) with last by (destruct (Z.eqb_spec last 1); cbn; lia). subst t size. destruct (Z.eqb_spec n 1) as [->|N1].
    + destruct (H1 eq_refl) as (b & -> & Er). rewrite Er at 2. apply rle_block. unfold zlen in Hz. lia.
    + rewrite <- Hsl at 1. apply compressed_block; [lia|]. apply H2. lia.
  - rewrite <- Edd at 1. rewrite app_assoc. apply wrote_splice; rewrite <- ?app_assoc, ?Edd; [done|by apply Forall_app|lia|rewrite zlen_app; lia].
Qed.

Lemma chunk_block_spec : exists w d r, compress_chunk_block src op cap last c = Ok (c <| f_blocks := w |> <| f_dst := d |>, r) /\ bytes d /\ zlen d = zlen (f_dst c) /\
  match r with inr n => block_written j last h src (f_dst c) op cap w d n | inl _ => True end.
Proof.
  assert (mem_ok (slice (f_dst c) op cap)) as Hm by by apply mem_ok_slice. assert (zlen (slice (f_dst c) op cap) = cap) as Hsl by (apply zlen_slice; lia).
  unfold compress_chunk_block. rewrite bind_get. destruct (ZSTD_useTargetCBlockSize (f_params c)).
  - pose proof (target_law j _ h _ src last Hg Hm Hs Hz Hl) as H. destruct (compressBlock_targetCBlockSize (f_blocks c) (slice (f_dst c) op cap) src last) as [[[w d] r]| |] eqn:E; [|done..]. destruct H as (H1 & H2 & H3). rewrite Hsl in *.
    destruct (framed_block (fun w dst => compressBlock_targetCBlockSize w dst src last) w d r E H1 H2) as (Eb & B1 & B2 & B3); [destruct r as [|n]; [done|]; tauto|].
    rewrite (bind_step _ _ _ _ _ Eb). eexists w, _, r. destruct r as [e|n]; [by split|]. rewrite !bind_assert by (apply Z.ltb_lt || apply Z.leb_le; unfold ZSTD_blockHeaderSize; lia). by split.
  - rewrite (bind_pure _ (postBlockSplitter (f_params c) =? ZSTD_ps_enable)) by (unfold ZSTD_blockSplitterEnabled; by rewrite (proj2 (Z.eqb_neq _ _) (ap_split _ _ Hap))). destruct (_ =? ZSTD_ps_enable).
    + pose proof (split_law j _ h _ src last Hg Hm Hs Hz Hl) as H. destruct (compressBlock_splitBlock (f_blocks c) (slice (f_dst c) op cap) src last) as [[[w d] r]| |] eqn:E; [|done..]. destruct H as (H1 & H2 & H3). rewrite Hsl in *.
      destruct (framed_block (fun w dst => compressBlock_splitBlock w dst src last) w d r E H1 H2 H3) as (Eb & B1 & B2 & B3).
      rewrite (bind_step _ _ _ _ _ Eb). eexists w, _, r. destruct r as [e|n]; [by split|]. rewrite bind_assert by (apply Z.ltb_lt; lia). by split.
    + clear Hm Hsl. assert (mem_ok (slice (f_dst c) (op + 3) (cap - 3))) as Hm by by apply mem_ok_slice. assert (zlen (slice (f_dst c) (op + 3) (cap - 3)) = cap - 3) as Hsl by (apply zlen_slice; lia).
      pose proof (internal_law j _ h _ src Hg Hm Hs Hz) as H. destruct (compressBlock_internal (f_blocks c) (slice (f_dst c) (op + 3) (cap - 3)) src true) as [[[w d] r]| |] eqn:E; [|done..]. destruct H as (H1 & H2 & H3). rewrite Hsl in *.
      unfold ZSTD_blockHeaderSize. rewrite (bind_step _ _ _ _ _ (on_block_val (fun w dst => compressBlock_internal w dst src true) (op + 3) (cap - 3) c w d r ltac:(lia) ltac:(lia) ltac:(lia) E H2)). destruct Hd as [Hd1 Hd2].
      assert (bytes (splice (f_dst c) (op + 3) d) /\ zlen (splice (f_dst c) (op + 3) d) = zlen (f_dst c)) as [S1 S2] by (split; [by apply bytes_of_splice|apply zlen_splice; lia]).
      destruct r as [e|n]; [eexists w, _, (inl e); split; [reflexivity|done]|]. destruct H3 as (N1 & N2 & N3 & N4 & N5). destruct (Z.eqb_spec n 0) as [->|Nn].
      * unfold on_dst. cbn [update f_dst]. rewrite noCompressBlock_val by lia. destruct (Z.ltb_spec cap (zlen src + 3)); [by eexists w, _, (inl _)|]. destruct (head_bytes last bt_raw (zlen src)) as [K1 K2].
        eexists w, _, (inr _). split; [reflexivity|]. split; [apply bytes_of_splice; [done|]; apply Forall_app; split; [done|apply Hs]|]. split; [rewrite zlen_splice; rewrite ?zlen_app; lia|].
        split; [lia|]. split; [done|]. exists (block_head last bt_raw (zlen src) ++ src). split; [rewrite zlen_app; lia|]. split.
        -- apply chain_one. replace (b2z (last =? 1)) with last by (destruct (Z.eqb_spec last 1); cbn; lia). apply raw_block. lia.
        -- pose proof (wrote_splice (splice (f_dst c) (op + 3) d) op (block_head last bt_raw (zlen src) ++ src) [] S1) as Hw. rewrite app_nil_r in Hw. destruct Hw as [W1 W2 W3 W4]; [apply Forall_app; split; [done|apply Hs]|done|rewrite zlen_app; lia|].
           constructor; [done|lia| |done]. rewrite W3. apply take_splice; lia.
      * destruct (internal_block w d n E H1 H2 Nn N1 N2 N3 N4 N5) as (B1 & B2 & B3).
        match goal with |- context [on_dst ?f] => assert (f (splice (f_dst c) (op + 3) d) = Ok (tt, splice (splice (f_dst c) (op + 3) d) op (block_head last (if n =? 1 then bt_rle else bt_compressed) (if n =? 1 then zlen src else n)))) as Eh end.
        { cbv beta. destruct (Z.eqb_spec n 1); apply write_head; try done; lia. }
        rewrite (bind_step _ _ _ (c <| f_blocks := w |> <| f_dst := splice (splice (f_dst c) (op + 3) d) op (block_head last (if n =? 1 then bt_rle else bt_compressed) (if n =? 1 then zlen src else n)) |>) (inr tt)) by (unfold on_dst; cbn [update f_dst]; by rewrite Eh).
        eexists w, _, (inr _). split; [reflexivity|]. split; [done|]. split; [done|]. change ZSTD_BLOCKSIZE_MAX with (2 ^ 17) in Hz. by rewrite size_t_small by lia.
Qed.
End Block.

(** ** A chunk of blocks *)

Lemma optimalBlockSize_spec w src bmax level strat savings : 0 < zlen src -> 1 <= bmax <= ZSTD_BLOCKSIZE_MAX -> 0 <= level <= 6 -> 1 <= strat <= 9 ->
  exists b, ZSTD_optimalBlockSize w src bmax level strat savings = Ok b /\ 0 < b <= zlen src /\ b <= ZSTD_BLOCKSIZE_MAX.
Proof.
  intros Hz Hb Hv Hst. unfold ZSTD_optimalBlockSize. change ZSTD_BLOCKSIZE_MAX with KB128 in *. assert (0 < KB128) by done. destruct (Z.ltb_spec (zlen src) KB128), (Z.ltb_spec bmax KB128); cbn [orb]; try (eexists; split; [reflexivity|lia]).
  destruct (savings <? 3); [eexists; split; [reflexivity|]; unfold KB128 in *; lia|]. destruct (Z.eqb_spec level 1); [eexists; split; [reflexivity|]; unfold KB128 in *; lia|].
  assert (forall x, exists b, (let* level := Ok x in Ok (splitBlock w src bmax level)) = (Ok b : res Z) /\ 0 < b <= zlen src /\ b <= KB128) as Hx.
  { intros x. eexists. split; [reflexivity|]. pose proof (splitBlock_law w src bmax x ltac:(lia)). lia. }
  destruct (Z.eqb_spec level 0).
  - unfold ZSTD_fast, ZSTD_btultra2. rewrite !(proj2 (Z.leb_le _ _)) by lia. cbn [andb oassert obind]. destruct (lookup_lt_is_Some_2 splitLevels (Z.to_nat strat)) as [x Ex]; [cbn; lia|]. rewrite (proj2 (aget_Ok _ _ x)) by (split; [lia|done]). apply Hx.
  - destruct (Z.leb_spec 2 level), (Z.leb_spec level 6); cbn [andb oassert obind]; [apply Hx|lia..].
Qed.

(** The context after blocks were compressed. *)
Definition after_blocks (w : W) (d : list Z) (first : bool) c : ZSTD_CFrame := c <| f_blocks := w |> <| f_dst := d |> <| f_isFirstBlock := first |>.

Lemma after_same c : after_blocks (f_blocks c) (f_dst c) (f_isFirstBlock c) c = c.
Proof. by destruct c. Qed.

Lemma after_twice w d f w' d' f' c : after_blocks w' d' f' (after_blocks w d f c) = after_blocks w' d' f' c.
Proof. done. Qed.

Lemma chunk_loop_spec j last : 0 <= last <= 1 -> forall fuel src h op cap savings c, applied j (f_params c) -> 1 <= f_blockSizeMax c <= ZSTD_BLOCKSIZE_MAX -> good j (f_blocks c) h -> mem_ok (f_dst c) -> mem_ok src ->
  0 <= op -> 0 <= cap -> op + cap <= zlen (f_dst c) -> (length src <= fuel)%nat -> exists w d first r, chunk_loop fuel src op cap savings last c = Ok (after_blocks w d first c, r) /\ bytes d /\ zlen d = zlen (f_dst c) /\
  match r with
  | inr op' => op <= op' <= op + cap /\ (if zlen src =? 0 then op' = op else op < op') /\ good j w (h ++ src) /\ exists bs, zlen bs = op' - op /\ chain (body j) ((0 <? zlen src) && (last =? 1)) h bs src /\ wrote (f_dst c) d op bs
  | inl _ => True
  end.
Proof.
  intros Hl. induction fuel as [|fuel IH]; intros src h op cap savings c Hap Hbm Hg Hd Hs Ho Hc Hroom Hf.
  { destruct src; [|cbn in Hf; lia]. cbn. exists (f_blocks c), (f_dst c), (f_isFirstBlock c), (inr op). rewrite after_same. split; [done|]. split; [apply Hd|]. split; [done|]. split; [lia|]. split; [done|]. rewrite app_nil_r. split; [done|].
    exists []. split; [change (zlen []) with 0; lia|]. split; [by apply chain_nil|]. apply wrote_nil, Hd. }
  cbn [chunk_loop]. destruct (Z.eqb_spec (zlen src) 0) as [E0|N0].
  { assert (src = []) as -> by (by destruct src). exists (f_blocks c), (f_dst c), (f_isFirstBlock c), (inr op). rewrite after_same. split; [done|]. split; [apply Hd|]. split; [done|]. split; [lia|]. split; [done|]. rewrite app_nil_r. split; [done|].
    exists []. split; [change (zlen []) with 0; lia|]. split; [by apply chain_nil|]. apply wrote_nil, Hd. }
  pose proof (zlen_nonneg src) as Hz0. rewrite bind_get. destruct (optimalBlockSize_spec (f_blocks c) src (f_blockSizeMax c) (preBlockSplitter_level (f_params c)) (cp_strategy (cParams (f_params c))) savings) as (b & Eb & Hb & Hbmax); [lia|done|apply Hap|apply Hap|].
  rewrite (bind_pure _ _ _ _ Eb), bind_assert by (apply Z.leb_le; lia). unfold MIN_CBLOCK_SIZE, ZSTD_blockHeaderSize. destruct (Z.ltb_spec cap (3 + (1 + 1) + 1)) as [|Hcap].
  { exists (f_blocks c), (f_dst c), (f_isFirstBlock c), (inl ZSTD_error_dstSize_tooSmall). rewrite after_same. split; [done|]. by destruct Hd. }
  unfold creject_if. rewrite bind_ret. rewrite (bind_pure _ (slice src 0 b)) by (apply asub_Ok; lia). unfold on_blocks. rewrite bind_modify. set (blk := slice src 0 b). set (lastb := Z.land last _). set (c1 := c <| f_blocks ::= _ |>).
  assert (zlen blk = b) as Hblk by (apply zlen_slice; lia). assert (src = blk ++ drop (Z.to_nat b) src) as Esrc by (unfold blk, slice; cbn [Z.to_nat]; by rewrite drop_0, take_drop).
  assert (lastb = b2z ((b =? zlen src) && (last =? 1))) as Elast by (unfold lastb; destruct (Z.eqb_spec last 1) as [->|]; [|replace last with 0 by lia]; by destruct (b =? zlen src)).
  destruct (chunk_block_spec j h blk op cap lastb c1) as (w & d & r & E & Bd & Zd & Hr); [done|by apply slide_law, overflow_law|done|by apply mem_ok_slice|lia|rewrite Elast; destruct (_ && _); cbn; lia|done|lia|done|].
  rewrite (bind_step _ _ _ _ _ E). destruct r as [e|n]; [by exists w, d, (f_isFirstBlock c), (inl e)|]. destruct Hr as (Hn & Hgw & bs & Hbs & Hch & Hwr). rewrite bind_assert by (apply Z.leb_le; lia). rewrite bind_modify. set (c2 := _ <| f_isFirstBlock := false |>).
  change (zlen d = zlen (f_dst c)) in Zd. destruct (IH (drop (Z.to_nat b) src) (h ++ blk) (op + n) (cap - n) (sgn 64 (savings + (b - n))) c2) as (w' & d' & first & r & E' & Bd' & Zd' & Hr'); [done|done|done|by split; [|change (2 * zlen d < word_size); rewrite Zd; apply Hd]| |lia|lia|change (op + n + (cap - n) <= zlen d); lia| |].
  { destruct Hs as [Hs1 Hs2]. split; [by apply Forall_drop|]. unfold zlen in *. rewrite length_drop. lia. }
  { rewrite length_drop. unfold zlen in *. lia. }
  exists w', d', first, r. split; [exact E'|]. split; [done|]. change (zlen d' = zlen d) in Zd'. split; [congruence|]. destruct r as [e|op']; [done|]. destruct Hr' as (K1 & K2 & K3 & bs' & K4 & K5 & K6). split; [lia|]. split; [lia|].
  rewrite <- app_assoc, <- Esrc in K3. split; [done|]. exists (bs ++ bs'). split; [rewrite zlen_app; lia|]. rewrite (proj2 (Z.ltb_lt 0 (zlen src))) by lia. cbn [andb]. change (f_dst c2) with d in K6. change (f_dst c1) with (f_dst c) in Hwr. rewrite <- Hbs in K6. split; [|by apply (wrote_app _ d); [| |lia|lia]].
  assert (zlen (drop (Z.to_nat b) src) = zlen src - b) as Hrest by (unfold zlen in *; rewrite length_drop; lia). rewrite Esrc. rewrite Hrest in *. destruct (Z.eqb_spec b (zlen src)) as [Eb'|Nb]; cbn [andb] in Elast.
  - assert (drop (Z.to_nat b) src = []) as Enil by (apply drop_ge; unfold zlen in *; lia). rewrite Enil, ?app_nil_r. rewrite Eb', Z.sub_diag in K2. assert (zlen bs' = 0) as K7 by (cbn in K2; lia). assert (bs' = []) as -> by (by destruct bs'). rewrite app_nil_r. rewrite Elast in Hch. by destruct (last =? 1).
  - rewrite (proj2 (Z.ltb_lt 0 (zlen src - b))) in K5 by lia. rewrite Elast in Hch. by apply chain_app.
Qed.

Lemma slice_full (l : list Z) : slice l 0 (zlen l) = l.
Proof. unfold slice, zlen. rewrite Nat2Z.id, drop_0. apply take_ge. lia. Qed.

Lemma splice_nil (l : list Z) n : splice l n [] = l.
Proof. unfold splice. cbn [length app]. by rewrite Nat.add_0_r, take_drop. Qed.

Lemma word_size_min : 2 ^ 32 <= word_size.
Proof. unfold word_size. destruct sizeof_size_t_cases as [-> | ->]; lia. Qed.

(** The fields a chunk changes. *)
Definition after_chunk (hash : XXH64_state_t) (w : W) (d : list Z) (first : bool) (st : ZSTD_compressionStage_e) c : ZSTD_CFrame :=
  after_blocks w d first c <| f_xxhState := hash |> <| f_stage := st |>.

Lemma wide_update j i src c : keeps j i c -> mem_ok src -> zlen i + zlen src < 2 ^ 64 -> p_checksumFlag (frame_fParams j) <> 0 ->
  exists hash, XXH64_update (f_xxhState c) src (Some 0) (zlen src) = Ok hash /\ absorbed 0 (i ++ src) hash.
Proof.
  intros Hk [Hs1 Hs2] Ht Hf. pose proof (zlen_nonneg src). destruct (update_absorb 0 i (f_xxhState c) src 0 (zlen src)) as (hash & E & Ha); [by apply Hk|done|lia|lia|lia| |done|].
  - change (2 ^ (8 * sizeof_size_t)) with word_size. pose proof word_size_min. lia.
  - exists hash. split; [done|]. by rewrite slice_full in Ha.
Qed.

(** [ZSTD_compress_frameChunk]: the input as blocks, and in the checksum. *)
Lemma frameChunk_spec j i src start last c : keeps j i c -> 0 <= last <= 1 -> mem_ok (f_dst c) -> mem_ok src -> zlen src <> 0 -> zlen i + zlen src < 2 ^ 64 -> 0 <= start <= zlen (f_dst c) ->
  exists hash w d first st r, ZSTD_compress_frameChunk start (zlen (f_dst c) - start) src last c = Ok (after_chunk hash w d first st c, r) /\ bytes d /\ zlen d = zlen (f_dst c) /\
  match r with
  | inr n => 0 <= n /\ start + n <= zlen d /\ keeps j (i ++ src) (after_chunk hash w d first st c) /\ st = (if last =? 1 then ZSTDcs_ending else f_stage c) /\
      exists bs, zlen bs = n /\ chain (body j) (last =? 1) i bs src /\ wrote (f_dst c) d start bs
  | inl _ => True
  end.
Proof.
  intros Hk Hl Hd Hs Hz Ht Hst. pose proof (zlen_nonneg src). pose proof (ke_params _ _ _ Hk) as Hap. unfold ZSTD_compress_frameChunk. rewrite bind_get.
  rewrite bind_assert by (apply Z.leb_le; rewrite (ap_windowLog _ _ Hap); apply (st_cparams _ (proj1 (ke_started _ _ _ Hk)))). set (savings := sgn 64 _).
  match goal with |- context [cbind ?m _ c] => assert (exists hash, m c = Ok (c <| f_xxhState := hash |>, inr tt) /\ (p_checksumFlag (frame_fParams j) <> 0 -> absorbed 0 (i ++ src) hash)) as (hash & E & Hh) end.
  { rewrite (ap_fParams _ _ Hap), (proj2 (Z.eqb_neq (zlen src) 0)) by done. cbn [negb]. rewrite andb_true_r. destruct (Z.eqb_spec (p_checksumFlag (frame_fParams j)) 0) as [|Hf]; cbn [negb].
    - exists (f_xxhState c). split; [by destruct c|done].
    - destruct (wide_update j i src c Hk Hs Ht Hf) as (hash & E & Ha). exists hash. rewrite (bind_pure _ _ _ _ E). by split. }
  rewrite (bind_step _ _ _ _ _ E). clear E.
  destruct (chunk_loop_spec j last Hl (length src) src i start (zlen (f_dst c) - start) savings (c <| f_xxhState := hash |>)) as (w & d & first & r & E & Bd & Zd & Hr); try done; try (apply Hk); [lia|lia|cbn [update f_dst]; lia|].
  rewrite (bind_step _ _ _ _ _ E). cbn [update f_dst] in Zd. destruct r as [e|op']; [by eexists hash, w, d, first, (f_stage c), (inl e)|]. destruct Hr as (K1 & K2 & K3 & bs & K4 & K5 & K6). rewrite (proj2 (Z.eqb_neq (zlen src) 0)) in K2 by done. rewrite (proj2 (Z.ltb_lt 0 (zlen src))) in K5 by lia.
  eexists hash, w, d, first, (if last =? 1 then ZSTDcs_ending else f_stage c), (inr _). rewrite (proj2 (Z.ltb_lt start op')) by lia. rewrite andb_true_r. split.
  { assert (negb (last =? 0) = (last =? 1)) as -> by (destruct (Z.eqb_spec last 0), (Z.eqb_spec last 1); done || lia). destruct (last =? 1); reflexivity. }
  split; [done|]. split; [done|]. split; [lia|]. split; [lia|]. split; [destruct Hk; by constructor|]. split; [done|]. by exists bs.
Qed.

(** ** The header *)

(** No header without room for the longest. *)
Lemma writeFrameHeader_small mem dst cap fmt windowLog fp pledged did : (contentSizeFlag fp <> 0 -> pledged <> ZSTD_CONTENTSIZE_UNKNOWN) -> cap < ZSTD_FRAMEHEADERSIZE_MAX ->
  ZSTD_writeFrameHeader mem dst cap fmt windowLog fp pledged did = Err ZSTD_error_dstSize_tooSmall.
Proof.
  intros Hk Hc. unfold ZSTD_writeFrameHeader. assert (oassert (negb (negb (contentSizeFlag fp =? 0) && (pledged =? ZSTD_CONTENTSIZE_UNKNOWN))) = (Ok tt : res unit)) as ->.
  { destruct (Z.eqb_spec (contentSizeFlag fp) 0) as [|Hn]; [done|]. cbn [negb andb]. by rewrite (proj2 (Z.eqb_neq _ _) (Hk Hn)). }
  cbn [obind]. unfold reject_if. by rewrite (proj2 (Z.ltb_lt cap _)).
Qed.

Lemma header_facts j dictID : started (job_params j) -> 0 <= job_pledged j < 2 ^ 64 -> 0 <= dictID < 2 ^ 32 ->
  bytes (frame_header j dictID) /\ 0 < zlen (frame_header j dictID) <= ZSTD_FRAMEHEADERSIZE_MAX /\
  forall c, applied j (f_params c) -> exists d r, write_header 0 (zlen (f_dst c)) (job_pledged j) dictID c = Ok (c <| f_dst := d |>, r) /\
    match r with inr n => n = zlen (frame_header j dictID) /\ n <= zlen (f_dst c) /\ d = splice (f_dst c) 0 (frame_header j dictID) | inl _ => d = f_dst c end.
Proof.
  intros Hj Hp Hi. assert (ZSTD_WINDOWLOG_ABSOLUTEMIN <= cp_windowLog (cParams (job_params j)) <= ZSTD_WINDOWLOG_MAX) as Hwl by apply (st_cparams _ Hj).
  assert (contentSizeFlag (frame_fParams j) <> 0 -> job_pledged j <> ZSTD_CONTENTSIZE_UNKNOWN) as Hknown. { unfold frame_fParams. by destruct (Z.eqb_spec (job_pledged j) ZSTD_CONTENTSIZE_UNKNOWN). }
  assert (0 < zlen (frame_header j dictID) <= ZSTD_FRAMEHEADERSIZE_MAX) as Hz.
  { unfold frame_header, w_hb. match goal with |- context [header_bytes ?f ?a ?b ?c ?d ?e ?g ?h] => pose proof (header_size_max f a b c d e g h); pose proof (zlen_nonneg (magic_bytes f)) end. lia. }
  split; [by apply w_hb_bytes|]. split; [done|].
  intros c Hap. unfold write_header. rewrite bind_get. unfold on_dst. rewrite (ap_format _ _ Hap), (ap_windowLog _ _ Hap), (ap_fParams _ _ Hap). destruct (Z.le_gt_cases ZSTD_FRAMEHEADERSIZE_MAX (zlen (f_dst c))).
  - rewrite writeFrameHeader_val by (done || lia). eexists _, (inr _). split; [reflexivity|]. fold (frame_header j dictID). split; [done|]. split; [lia|done].
  - rewrite writeFrameHeader_small by (done || lia). exists (f_dst c), (inl ZSTD_error_dstSize_tooSmall). split; [by destruct c|done].
Qed.

(** ** A piece of a frame *)

(** The size was announced and is not exceeded, or it was not announced. *)
Lemma pledged_flag j i c : keeps j i c -> negb (negb (contentSizeFlag (fParams (f_params c)) =? 0) && (f_pledgedSrcSizePlusOne c =? 0)) = true.
Proof.
  intros []. destruct ke_started0 as [_ Hp]. rewrite (ap_fParams _ _ ke_params0), ke_pledged0. unfold frame_fParams. destruct (Z.eqb_spec (job_pledged j) ZSTD_CONTENTSIZE_UNKNOWN) as [|N]; [done|].
  assert (job_pledged j <> 2 ^ 64 - 1) as N' by exact N. rewrite wrap_small by lia. rewrite (proj2 (Z.eqb_neq (job_pledged j + 1) 0)) by lia. by rewrite andb_false_r.
Qed.

(** The state between the parts of a call: [i] was compressed, and [o] with the first [n] bytes of [dst] is a header and blocks. *)
Definition so_far (j : frame_job) (last : bool) (i o : list Z) (n : Z) c : Prop :=
  keeps j i c /\ f_stage c = (if last then ZSTDcs_ending else ZSTDcs_ongoing) /\
  exists bs, o ++ slice (f_dst c) 0 n = frame_header j (f_dictID c) ++ bs /\ chain (body j) last [] bs i.

Lemma first_header j i o c : frame_session j c i o -> mem_ok (f_dst c) -> exists st d r,
  (if true && bool_decide (f_stage c = ZSTDcs_init) then
     (let! fhSize := write_header 0 (zlen (f_dst c)) (u64 (f_pledgedSrcSizePlusOne c - 1)) (f_dictID c) in
      do cassert (fhSize <=? zlen (f_dst c));
      do cmodify (fun c => c <| f_stage := ZSTDcs_ongoing |>);
      cret fhSize)%call
   else cret 0) c = Ok (c <| f_dst := d |> <| f_stage := st |>, r) /\ bytes d /\ zlen d = zlen (f_dst c) /\
  match r with inr n => 0 <= n <= zlen d /\ so_far j false i o n (c <| f_dst := d |> <| f_stage := st |>) | inl _ => True end.
Proof.
  intros (Hk & _ & _ & Hst) [Hd1 Hd2]. cbn [andb]. destruct Hst as [(Hst & -> & ->)|(Hst & bs & -> & Hch)]; rewrite Hst.
  - rewrite bool_decide_eq_true_2 by done. destruct (ke_started _ _ _ Hk) as [Hj Hp]. destruct (header_facts j (f_dictID c) Hj Hp (ke_dictID _ _ _ Hk)) as (Hb & Hz & Hw).
    assert (u64 (f_pledgedSrcSizePlusOne c - 1) = job_pledged j) as ->. { rewrite (ke_pledged _ _ _ Hk). unfold wrap. rewrite Zminus_mod_idemp_l. replace (job_pledged j + 1 - 1) with (job_pledged j) by lia. by apply Z.mod_small. }
    destruct (Hw c (ke_params _ _ _ Hk)) as (d & r & E & Hr). rewrite (bind_step _ _ _ _ _ E). destruct r as [e|n].
    + subst d. exists (f_stage c), (f_dst c), (inl e). split; [by destruct c|done].
    + destruct Hr as (-> & Hn & ->). rewrite bind_assert by (apply Z.leb_le; lia). rewrite bind_modify. exists ZSTDcs_ongoing, (splice (f_dst c) 0 (frame_header j (f_dictID c))), (inr (zlen (frame_header j (f_dictID c)))).
      split; [done|]. split; [by apply bytes_of_splice|]. rewrite zlen_splice by lia. split; [done|]. split; [lia|].
      split; [destruct Hk; by constructor|]. split; [done|]. exists []. split; [|by apply chain_nil].
      rewrite app_nil_r. exact (slice_splice (f_dst c) 0 (frame_header j (f_dictID c)) ltac:(lia) ltac:(lia)).
  - rewrite bool_decide_eq_false_2 by done. pose proof (zlen_nonneg (f_dst c)). exists ZSTDcs_ongoing, (f_dst c), (inr 0). split; [rewrite <- Hst; by destruct c|]. split; [done|]. split; [done|]. split; [lia|]. split; [destruct Hk; by constructor|]. split; [done|].
    exists bs. by rewrite app_nil_r.
Qed.

(** The header and the blocks of [src]; [last] is marked. *)
Lemma continue_internal_spec j i o src last c : frame_session j c i o -> 0 <= last <= 1 -> mem_ok (f_dst c) -> mem_ok src -> zlen i + zlen src < 2 ^ 64 -> exists c' r,
  ZSTD_compressContinue_internal src true last c = Ok (c', r) /\ bytes (f_dst c') /\ zlen (f_dst c') = zlen (f_dst c) /\
  match r with inr n => 0 <= n <= zlen (f_dst c) /\ f_consumedSrcSize c' = zlen (i ++ src) /\ so_far j (negb (zlen src =? 0) && (last =? 1)) (i ++ src) o n c' | inl _ => True end.
Proof.
  intros Hs Hl Hd Hsrc Ht. pose proof (zlen_nonneg i). pose proof (zlen_nonneg src). destruct (first_header j i o c Hs Hd) as (st & d & r & E & Bd & Zd & Hr). destruct Hs as (Hk & Hcon & _ & Hst). unfold ZSTD_compressContinue_internal. rewrite bind_get.
  rewrite bind_accept by (destruct Hst as [(-> & _)|(-> & _)]; done). rewrite (bind_step _ _ _ _ _ E). clear E Hst. destruct r as [e|n]; [by eexists _, (inl e)|]. destruct Hr as (Hn & Hk' & Est & bs & Ebs & Hch). set (c1 := c <| f_dst := d |> <| f_stage := st |>) in *.
  destruct (Z.eqb_spec (zlen src) 0) as [E0|N0]; cbn [negb andb].
  { assert (src = []) as -> by by destruct src. rewrite app_nil_r. eexists c1, (inr n). split; [done|]. split; [done|]. split; [done|]. split; [lia|]. split; [exact Hcon|]. split; [done|]. split; [done|]. by exists bs. }
  unfold on_blocks. rewrite bind_modify, bind_ret. set (c2 := c1 <| f_blocks ::= _ |>). assert (keeps j i c2) as Hk2 by (destruct Hk'; constructor; try done; by apply window_law).
  assert (mem_ok d) as Hmd by (split; [done|rewrite Zd; apply Hd]).
  destruct (frameChunk_spec j i src n last c2 Hk2 Hl) as (hash & w & d' & first & st' & r & E & Bd' & Zd' & Hr); try done. change (f_dst c2) with d in *. rewrite Zd in E at 1.
  rewrite (bind_step _ _ _ _ _ E). destruct r as [e|m]; [eexists _, (inl e); split; [reflexivity|]; split; [done|]; split; [change (zlen d' = zlen (f_dst c)); congruence|done]|]. destruct Hr as (M0 & M1 & Hk3 & Est' & bs' & Hbs' & Hch' & Hwr).
  rewrite bind_modify, bind_get. set (c3 := after_chunk _ _ _ _ _ _) in *. set (c4 := c3 <| f_consumedSrcSize := _ |> <| f_producedCSize := _ |>). assert (keeps j (i ++ src) c4) as Hk4 by (destruct Hk3; by constructor).
  rewrite bind_assert by exact (pledged_flag _ _ _ Hk4). match goal with |- context [cbind ?f _ c4] => assert (exists r, f c4 = Ok (c4, r)) as [r E'] end.
  { unfold creject_if. destruct (negb _); [destruct (_ <? _)|]; by eexists. }
  rewrite (bind_step _ _ _ _ _ E'). exists c4. destruct r as [e|u]; eexists; (split; [reflexivity|]); (split; [done|]); (split; [change (zlen d' = zlen (f_dst c)); congruence|]); [done|].
  split; [lia|]. split; [change (u64 (f_consumedSrcSize c + zlen src) = zlen (i ++ src)); rewrite zlen_app, Hcon, wrap_small by lia; done|]. split; [done|]. split; [change (st' = (if last =? 1 then ZSTDcs_ending else ZSTDcs_ongoing)); by rewrite Est', <- Est|].
  exists (bs ++ bs'). split; [|by apply chain_app]. change (f_dst c4) with d'. change (f_dictID c4) with (f_dictID c1). change (f_dst c1) with d in Ebs. rewrite app_assoc, <- Ebs, <- app_assoc. f_equal.
  rewrite (Z.add_comm m n), <- slice_app by lia. rewrite Z.add_0_l. f_equal; [|rewrite <- Hbs'; apply Hwr]. unfold slice. cbn [Z.to_nat]. rewrite !drop_0. apply Hwr.
Qed.

(** ** The end of a frame *)

(** What [ZSTD_writeEpilogue] adds: an empty last block if the last one was not marked, and the checksum. *)
Definition epilogue (j : frame_job) (last : bool) (i : list Z) : list Z := (if last then [] else block_head 1 bt_raw 0) ++ frame_checksum j i.

Lemma zlen_checksum j i : zlen (frame_checksum j i) = if p_checksumFlag (frame_fParams j) =? 0 then 0 else 4.
Proof. unfold frame_checksum. by destruct (_ =? 0). Qed.

Lemma writeEpilogue_spec j (last : bool) i start c : keeps j i c -> f_stage c = (if last then ZSTDcs_ending else ZSTDcs_ongoing) -> mem_ok (f_dst c) -> 0 <= start <= zlen (f_dst c) -> exists d st r,
  ZSTD_writeEpilogue start c = Ok (c <| f_dst := d |> <| f_stage := st |>, r) /\ bytes d /\ zlen d = zlen (f_dst c) /\
  match r with inr n => n = zlen (epilogue j last i) /\ start + n <= zlen d /\ wrote (f_dst c) d start (epilogue j last i) | inl _ => True end.
Proof.
  intros Hk Hst [Hd1 Hd2] Hs. pose proof (ke_params _ _ _ Hk) as Hap. unfold ZSTD_writeEpilogue. rewrite bind_get. rewrite bind_accept by (rewrite Hst; by destruct last). rewrite bool_decide_eq_false_2 by (rewrite Hst; by destruct last). rewrite bind_ret, bind_get.
  rewrite !Z.add_0_r, !Z.sub_0_r. set (head := if last then [] else block_head 1 bt_raw 0). destruct (head_bytes 1 bt_raw 0) as [Hb1 Hb2].
  assert (bytes head /\ 0 <= zlen head) as [Hh1 Hh2] by (split; [subst head; by destruct last|apply zlen_nonneg]).
  match goal with |- context [cbind ?m _ c] => assert (m c = Ok (c, inl ZSTD_error_dstSize_tooSmall) \/ m c = Ok (c <| f_dst := splice (f_dst c) start head |>, inr (zlen head)) /\ start + zlen head <= zlen (f_dst c)) as HE end.
  { rewrite Hst. subst head. destruct last; [rewrite bool_decide_eq_true_2 by done|rewrite bool_decide_eq_false_2 by done]; cbn [negb].
    - right. rewrite splice_nil. split; [by destruct c|change (zlen []) with 0; lia].
    - unfold creject_if. destruct (Z.ltb_spec (zlen (f_dst c) - start) 3) as [|Hr]; [by left|right]. rewrite bind_ret. unfold on_dst, cbind, cret. rewrite MEM_writeLE24_val by lia. split; [done|lia]. }
  destruct HE as [E|[E Hroom]]; rewrite (bind_step _ _ _ _ _ E); clear E; [exists (f_dst c), (f_stage c), (inl ZSTD_error_dstSize_tooSmall); split; [by destruct c|done]|].
  set (c1 := c <| f_dst := splice (f_dst c) start head |>). assert (bytes (f_dst c1) /\ zlen (f_dst c1) = zlen (f_dst c)) as [B1 Z1] by (split; [by apply bytes_of_splice|by apply zlen_splice; lia]).
  set (sum := frame_checksum j i). assert (bytes sum) as Hsb by (subst sum; unfold frame_checksum; destruct (_ =? 0); [done|apply bytes_le_bytes]).
  match goal with |- context [cbind ?m _ c1] => assert (m c1 = Ok (c1, inl ZSTD_error_dstSize_tooSmall) \/ m c1 = Ok (c1 <| f_dst := splice (f_dst c1) (start + zlen head) sum |>, inr (zlen sum)) /\ start + zlen head + zlen sum <= zlen (f_dst c)) as HE end.
  { rewrite (ap_fParams _ _ Hap). pose proof (zlen_checksum j i) as Hz. fold sum in Hz. subst sum. unfold frame_checksum in *. destruct (Z.eqb_spec (p_checksumFlag (frame_fParams j)) 0) as [|Hf]; cbn [negb] in *.
    - right. rewrite splice_nil. split; [by destruct c|change (zlen []) with 0; lia].
    - rewrite (bind_pure _ (xxh64_ref 0 i)) by (apply (digest_val 0 i); [lia|by apply (ke_hash _ _ _ Hk)]). unfold creject_if. destruct (Z.ltb_spec (zlen (f_dst c) - start - zlen head) 4) as [|Hr]; [by left|right]. rewrite bind_ret. unfold on_dst, cbind, cret.
      rewrite MEM_writeLE32_val by (try (rewrite Z1; lia); try apply wrap_range; lia). split; [done|lia]. }
  destruct HE as [E|[E Hroom2]]; rewrite (bind_step _ _ _ _ _ E); clear E.
  { exists (f_dst c1), (f_stage c), (inl ZSTD_error_dstSize_tooSmall). split; [by destruct c|done]. }
  rewrite bind_modify. exists (splice (f_dst c1) (start + zlen head) sum), ZSTDcs_created, (inr (start + zlen head + zlen sum - start)). split; [done|]. split; [by apply bytes_of_splice|]. split; [rewrite zlen_splice by lia; done|].
  unfold epilogue. fold head. fold sum. rewrite zlen_app. split; [lia|]. split; [rewrite zlen_splice by lia; lia|]. apply (wrote_app _ (f_dst c1)); [| |lia|lia].
  - pose proof (wrote_splice (f_dst c) start head []) as Hw. rewrite app_nil_r in Hw. by apply Hw; try lia.
  - pose proof (wrote_splice (f_dst c1) (start + zlen head) sum []) as Hw. rewrite app_nil_r in Hw. apply Hw; try done; lia.
Qed.

Lemma epilogue_chain j last bs i : chain (body j) last [] bs i -> exists bs', bs ++ (if last then [] else block_head 1 bt_raw 0) = bs' /\ chain (body j) true [] bs' i.
Proof.
  intros Hc. eexists. split; [reflexivity|]. destruct last; [by rewrite app_nil_r|]. rewrite <- (app_nil_r i). apply chain_app; [done|]. apply chain_last; [done|].
  rewrite <- (app_nil_r (block_head 1 bt_raw 0)). by apply (raw_block (body j) _ 1 []).
Qed.

Lemma session_dst j i o dst c : frame_session j c i o -> frame_session j (c <| f_dst := dst |>) i o.
Proof. intros (Hk & H). split; [destruct Hk; by constructor|exact H]. Qed.

(** A frame of the input, of the size that was announced. *)
Lemma compressEnd_spec j i o src c : frame_session j c i o -> mem_ok (f_dst c) -> mem_ok src -> zlen i + zlen src < 2 ^ 64 -> exists c' r,
  ZSTD_compressEnd_public src c = Ok (c', r) /\ bytes (f_dst c') /\ zlen (f_dst c') = zlen (f_dst c) /\
  match r with inr n => 0 <= n <= zlen (f_dst c) /\ is_frame j (i ++ src) (o ++ slice (f_dst c') 0 n) | inl _ => True end.
Proof.
  intros Hs Hd Hsrc Ht. unfold ZSTD_compressEnd_public. destruct (continue_internal_spec j i o src 1 c Hs ltac:(lia) Hd Hsrc Ht) as (c1 & r & E & B1 & Z1 & Hr). rewrite (bind_step _ _ _ _ _ E). clear E. destruct r as [e|n]; [by exists c1, (inl e)|].
  destruct Hr as (Hn & Hcon & Hk & Hst & bs & Ebs & Hch). set (last := negb (zlen src =? 0) && (1 =? 1)) in *.
  destruct (writeEpilogue_spec j last (i ++ src) n c1 Hk Hst) as (d & st & r & E & B2 & Z2 & Hr); [split; [done|rewrite Z1; apply Hd]|lia|]. rewrite (bind_step _ _ _ _ _ E). clear E. set (c2 := c1 <| f_dst := d |> <| f_stage := st |>).
  assert (zlen (f_dst c2) = zlen (f_dst c)) as Z3 by (change (zlen d = zlen (f_dst c)); congruence). destruct r as [e|m]; [by exists c2, (inl e)|]. destruct Hr as (-> & Hm & Hwr). pose proof (zlen_nonneg (epilogue j last (i ++ src))). rewrite bind_get.
  assert (keeps j (i ++ src) c2) as Hk2 by (destruct Hk; by constructor). rewrite bind_assert by exact (pledged_flag _ _ _ Hk2). rewrite (ke_pledged _ _ _ Hk2). change (f_consumedSrcSize c2) with (f_consumedSrcSize c1). rewrite Hcon. destruct (ke_started _ _ _ Hk2) as [_ Hp].
  assert (is_frame j (i ++ src) (o ++ slice d 0 (n + zlen (epilogue j last (i ++ src)))) \/ (u64 (job_pledged j + 1) =? 0) = false /\ (u64 (job_pledged j + 1) =? u64 (zlen (i ++ src) + 1)) = false) as [Hf|[-> ->]]; [| |by exists c2, (inl ZSTD_error_srcSize_wrong)].
  - destruct (Z.eqb_spec (u64 (job_pledged j + 1)) 0) as [Eu|Nu]; [left|destruct (Z.eqb_spec (u64 (job_pledged j + 1)) (u64 (zlen (i ++ src) + 1))) as [Eq|]; [left|by right]]; (split; [intros Np|]).
    1,3: assert (job_pledged j <> 2 ^ 64 - 1) as Np' by exact Np; rewrite wrap_small in * by lia; try lia.
    { rewrite zlen_app in *. pose proof (zlen_nonneg i). pose proof (zlen_nonneg src). destruct (Z.eq_dec (zlen i + zlen src + 1) (2 ^ 64)) as [Eo|]; [rewrite Eo in Eq; change (u64 (2 ^ 64)) with 0 in Eq; lia|]. rewrite wrap_small in Eq by lia. lia. }
    all: destruct (epilogue_chain j last bs _ Hch) as (bs' & Eb & Hch'); exists (f_dictID c1), bs'; split; [apply Hk|]; split; [|done]; rewrite <- slice_app by lia; rewrite Z.add_0_l, (wr_there _ _ _ _ Hwr);
      replace (slice d 0 n) with (slice (f_dst c1) 0 n) by (unfold slice; cbn [Z.to_nat]; rewrite !drop_0; symmetry; apply Hwr); rewrite app_assoc, Ebs, <- Eb; unfold epilogue; by rewrite <- !app_assoc.
  - match goal with |- context [cbind ?f _ c2] => assert (exists r, f c2 = Ok (c2, r)) as [r E'] end.
    { unfold creject_if. repeat case_match; by eexists. }
    rewrite (bind_step _ _ _ _ _ E'). exists c2. destruct r as [e|u]; eexists; (split; [reflexivity|]); (split; [done|]); (split; [done|]); [done|]. split; [|done]. change (zlen d = zlen (f_dst c)) in Z3. lia.
Qed.

(** ** Frames for streams *)

Lemma begin_session w j su dictID c : started (job_params j) -> 0 <= job_pledged j < 2 ^ 64 -> good j w [] -> 1 <= fs_block su <= ZSTD_BLOCKSIZE_MAX -> applied j (fs_params su) -> 0 <= dictID < 2 ^ 32 ->
  frame_session j (begin_CFrame c w j su dictID) [] [].
Proof.
  intros. split; [constructor; try done; intros _; apply reset_absorbed|]. split; [done|]. split; [change (0 < 2 ^ 64); lia|]. by left.
Qed.

#[global] Instance CFrame_laws : FrameCompressorLaws (ZSTD_CFrame (W := W)).
Proof.
  refine {| session := frame_session; complete := is_frame |}.
  - intros c j Hj Hp. pose proof (start_law (f_blocks c) j Hj Hp) as H. cbn. destruct (start_frame (f_blocks c) j) as [[w [e|[su dictID]]]| |]; [done| |done..]. destruct H as (H1 & H2 & H3 & H4 & H5). split; [|done].
    apply begin_session; try done. pose proof (su_block _ _ H2). lia.
  - intros j c i o dst src Hs Hd Hsrc Ht. cbn. unfold run_frame, ZSTD_compressContinue_public. destruct (continue_internal_spec j i o src 0 (c <| f_dst := dst |>) (session_dst _ _ _ _ _ Hs) ltac:(lia) Hd Hsrc Ht) as (c' & r & -> & B & Z & Hr).
    split; [done|]. split; [done|]. destruct r as [|n]; [done|]. destruct Hr as (Hn & Hcon & Hk & Hst & bs & Ebs & Hch). split; [done|]. rewrite andb_false_r in *. split; [done|]. split; [done|]. split; [by rewrite zlen_app|]. right. split; [done|]. by exists bs.
  - intros j c i o dst src Hs Hd Hsrc Ht. cbn. unfold run_frame. destruct (compressEnd_spec j i o src (c <| f_dst := dst |>) (session_dst _ _ _ _ _ Hs) Hd Hsrc Ht) as (c' & r & -> & B & Z & Hr). done.
Defined.
End FrameOk.
