(* ===== verification/CStreamFrames.v ===== *)
(** * The frames of a stream

    What the caller of [ZSTD_compressStream2] and [ZSTD_compress2] gets, with the frames of [CFrame]: what was consumed is in the
    frames that were given out, in order; and [ZSTD_findFrameSizeInfo] finds each frame's end and the size of its contents.  The
    theorems hold for every block compressor that keeps [BlockCompressorLaws]; [stored_blocks] is one. *)
From S2P Require Import Prelude Mem Errors Bits Frame FrameWalk Xxh64 CParams RecordUpdate Calls CCtxParams CwkspArena CCtxSize CCtxReset CCtxApi CStream CStreamOk CStreamCall CFrame CFrameOk.

(** ** Walking over a frame *)
Section Walk.
Context `{P : Platform}.
Context (body : list Z -> list Z -> list Z -> Prop).

Lemma block_step_val h last bs k buf ip rem nb : block body h last bs k -> 0 <= last <= 1 -> bytes buf -> stands_at buf ip bs -> zlen bs <= rem ->
  3 <= zlen bs /\ let st := (ip + zlen bs, rem - zlen bs, nb + 1) in block_step buf (ip, rem, nb) = Ok (if last =? 1 then inr (inl st) else inl st).
Proof.
  intros Hb Hl Hbuf Hst Hr. assert (exists t size content, bs = block_head last t size ++ content /\ 0 <= size < 2 ^ 21 /\ t <> bt_reserved /\ zlen content = if decide (t = bt_rle) then 1 else size) as (t & size & content & -> & Hs & Ht & Hc).
  { assert (ZSTD_BLOCKSIZE_MAX < 2 ^ 21) as Hm by done. pose proof (zlen_nonneg k). destruct Hb as [k Hk|n b Hk|bs k Hk _]; eexists _, _, _; (split; [reflexivity|]); (split; [lia|done]). }
  destruct (head_bytes last t size) as [_ Hz]. rewrite zlen_app, Hz, Hc in *. pose proof (zlen_nonneg content). split; [destruct (decide _); lia|]. cbv zeta. unfold block_step.
  rewrite (getcBlockSize_val buf ip rem last t size Hbuf Hl Hs Ht); [|destruct (decide _); lia|by eapply stands_at_app]. unfold ZSTD_blockHeaderSize. set (n := if decide _ then 1 else size) in *. rewrite (proj2 (Z.ltb_ge rem (3 + n))) by lia. cbn [lastBlock].
  destruct (Z.eqb_spec last 1) as [->|]; [done|]. by replace last with 0 by lia.
Qed.

Lemma chain_walk h bs k buf : bytes buf -> chain body true h bs k -> forall ip rem nb fuel, stands_at buf ip bs -> zlen bs <= rem -> zlen bs < Z.of_nat fuel ->
  exists nb', loop fuel (block_step buf) (ip, rem, nb) = Ok (inl (ip + zlen bs, rem - zlen bs, nb')).
Proof.
  intros Hbuf Hc. induction Hc as [h|h bs k _ Hb|h bs k bs' k' Hb Hc IH]; [done| |]; intros ip rem nb fuel Hst Hr Hf; (destruct fuel as [|fuel]; [pose proof (zlen_nonneg bs); pose proof (zlen_nonneg (bs ++ [])); unfold zlen in *; rewrite ?length_app in *; lia|]); cbn [loop].
  - destruct (block_step_val h 1 bs k buf ip rem nb Hb ltac:(lia) Hbuf Hst Hr) as [_ E]. cbv zeta in E. rewrite E. by eexists.
  - rewrite zlen_app in *. pose proof (zlen_nonneg bs'). destruct (block_step_val h 0 bs k buf ip rem nb Hb ltac:(lia) Hbuf) as [Hz E]; [by eapply stands_at_app|lia|]. cbv zeta in E. rewrite E. cbn [obind Z.eqb].
    destruct (IH (ip + zlen bs) (rem - zlen bs) (nb + 1) fuel) as [nb' ->]; [|lia|lia|exists nb'; do 2 f_equal; f_equal; f_equal; lia].
    rewrite <- (app_nil_r bs') in Hst. by apply stands_at_mid in Hst.
Qed.
End Walk.

Section FrameWalks.
Context `{P : Platform} {W : Type} `{BC : BlockCompressor W} `{BL : !BlockCompressorLaws W}.

(** The walk over a frame ends where the frame does, and finds the size of the contents if the frame has it. *)
Lemma frame_walk j i o buf src n : started (job_params j) -> 0 <= job_pledged j < 2 ^ 64 -> 0 <= p_checksumFlag (fParams (job_params j)) -> is_frame j i o -> bytes buf -> stands_at buf src o -> zlen o <= n -> exists info,
  ZSTD_findFrameSizeInfo buf src n (format_of (format (job_params j))) = Ok info /\ compressedSize info = zlen o /\ (contentSizeFlag (frame_fParams j) <> 0 -> decompressedBound info = zlen i).
Proof.
  intros Hj Hp Hck (Hpl & did & bs & Hdid & -> & Hch) Hb Hst Hn. assert (ZSTD_WINDOWLOG_ABSOLUTEMIN <= cp_windowLog (cParams (job_params j)) <= ZSTD_WINDOWLOG_MAX) as Hwl by apply (st_cparams _ Hj).
  assert (contentSizeFlag (frame_fParams j) <> 0 -> job_pledged j <> ZSTD_CONTENTSIZE_UNKNOWN) as Hknown by (unfold frame_fParams; by destruct (Z.eqb_spec (job_pledged j) ZSTD_CONTENTSIZE_UNKNOWN)).
  assert (p_checksumFlag (frame_fParams j) = p_checksumFlag (fParams (job_params j))) as Eck by (unfold frame_fParams; by destruct (_ =? _)). set (hb := frame_header j did) in *. set (sum := frame_checksum j i) in *.
  rewrite !zlen_app in *. pose proof (zlen_nonneg hb). pose proof (zlen_nonneg bs). pose proof (zlen_nonneg sum). pose proof (stands_at_app _ _ _ _ Hst) as Hsth. assert (stands_at buf (src + zlen hb) bs) as Hstb by by apply (stands_at_mid buf src hb bs sum).
  unfold ZSTD_findFrameSizeInfo. match goal with |- context [obind ?m _] => assert (m = Ok false) as -> end.
  { destruct (format_of _) eqn:Ef; [|done]. rewrite bool_decide_true by done. cbn [andb]. destruct (ZSTD_SKIPPABLEHEADERSIZE <=? n); [|done]. unfold hb, frame_header, w_hb, header_bytes in Hsth. rewrite Ef in Hsth.
    pose proof (magic_read buf src Hb ZSTD_f_zstd1 _ Hsth) as E. rewrite decide_False in E by done. by rewrite E. }
  cbn [obind]. rewrite (w_hb_read _ _ _ _ _ Hwl Hdid Hp buf src zero_header n Hb Hsth) by (change (zlen hb <= n); lia). cbn [Z.ltb Z.compare]. cbn [expected headerSize]. match goal with |- context [zlen (w_hb ?a ?b ?c ?d ?e)] => change (w_hb a b c d e) with hb end.
  destruct (chain_walk (body j) [] bs i buf Hb Hch (src + zlen hb) (n - zlen hb) 0 (S (Z.to_nat n)) Hstb ltac:(lia) ltac:(lia)) as [nb ->]. cbn [obind]. unfold expected. cbn [checksumFlag frameContentSize].
  assert (zlen sum = if b2z (0 <? p_checksumFlag (frame_fParams j)) =? 0 then 0 else 4) as Es by (unfold sum; rewrite zlen_checksum, Eck; destruct (Z.eqb_spec (p_checksumFlag (fParams (job_params j))) 0) as [->|]; [done|]; by rewrite (proj2 (Z.ltb_lt 0 _)) by lia).
  destruct (_ =? 0); cbn [negb andb]; [|rewrite (proj2 (Z.ltb_ge _ 4)) by lia]; (eexists; split; [reflexivity|]; cbn [compressedSize decompressedBound]; split; [lia|]);
    intros Hc; rewrite (proj2 (Z.eqb_neq _ _) Hc); cbn [negb]; rewrite (proj2 (Z.eqb_neq _ _) (Hknown Hc)); symmetry; by apply Hpl, Hknown.
Qed.
End FrameWalks.

(** ** Blocks that are stored *)

(** A block compressor that finds no matches: every block is raw. *)
Definition stored_block `{P : Platform} (dst src : list Z) (last : Z) : block_result unit :=
  match ZSTD_noCompressBlock dst 0 (zlen dst) src 0 (zlen src) last with
  | Ok (n, dst) => Ok (tt, dst, inr n)
  | Err e => Ok (tt, dst, inl e)
  | Fault f => Fault f
  end.

Definition stored_setup (j : frame_job) : frame_setup :=
  let n := Z.to_nat (maxBlockSize (job_params j)) in
  {| fs_params := job_params j <| fParams := frame_fParams j |>; fs_block := maxBlockSize (job_params j); fs_in := replicate (n + 1) 0; fs_out := replicate (n + 64) 0 |}.

#[global] Instance stored_blocks `{P : Platform} : BlockCompressor unit := {|
  start_frame _ j := Ok (tt, inr (stored_setup j, 0));
  window_update w _ := w;
  splitBlock _ _ _ _ := KB128;
  overflowCorrect w _ := w;
  slide_window w _ := w;
  compressBlock_targetCBlockSize _ dst src last := stored_block dst src last;
  compressBlock_splitBlock _ dst src last := stored_block dst src last;
  compressBlock_internal _ dst src _ := Ok (tt, dst, inr 0)
|}.

Section Stored.
Context `{P : Platform}.

Lemma zeros_ok n : Z.of_nat n <= 2 ^ 18 -> mem_ok (replicate n 0) /\ zlen (replicate n 0) = Z.of_nat n.
Proof.
  intros Hn. unfold zlen. rewrite length_replicate. split; [|done]. split; [by apply Forall_replicate|]. unfold zlen. rewrite length_replicate. pose proof word_size_min. lia.
Qed.

Lemma stored_setup_ok j : started (job_params j) -> setup_ok j (stored_setup j) /\ fs_block (stored_setup j) <= ZSTD_BLOCKSIZE_MAX /\ applied j (fs_params (stored_setup j)).
Proof.
  intros [Hc _ Hs _ Hb _ _ _ _ Hw Hp]. assert (ZSTD_BLOCKSIZE_MAX = 2 ^ 17) as Hm by done. pose proof word_size_min. unfold stored_setup. set (n := Z.to_nat (maxBlockSize (job_params j))). assert (Z.of_nat n = maxBlockSize (job_params j)) as Hn by lia.
  destruct (zeros_ok (n + 1) ltac:(lia)) as [A1 A2]. destruct (zeros_ok (n + 64) ltac:(lia)) as [B1 B2]. split_and!; [constructor| |constructor]; cbn [fs_params fs_block fs_in fs_out update]; try done; try lia; apply Hc.
Qed.

Lemma stored_block_spec (body : list Z -> list Z -> list Z -> Prop) h dst src last : mem_ok dst -> mem_ok src -> 0 < zlen src <= ZSTD_BLOCKSIZE_MAX -> 0 <= last <= 1 ->
  match stored_block dst src last with
  | Ok (w, dst', r) => bytes dst' /\ zlen dst' = zlen dst /\
      match r with inr n => 0 < n <= zlen dst /\ n <= zlen src + 3 /\ True /\ chain body (last =? 1) h (slice dst' 0 n) src | inl _ => True end
  | _ => False
  end.
Proof.
  intros [Hd _] [Hs _] Hz Hl. unfold stored_block. rewrite noCompressBlock_val by lia. destruct (Z.ltb_spec (zlen dst) (zlen src + 3)) as [|Hr]; [done|]. destruct (head_bytes last bt_raw (zlen src)) as [K1 K2].
  assert (zlen (block_head last bt_raw (zlen src) ++ src) = 3 + zlen src) as Hk by (rewrite zlen_app; lia). split; [apply bytes_of_splice; [done|by apply Forall_app]|]. split; [apply zlen_splice; lia|].
  split; [lia|]. split; [lia|]. split; [done|]. rewrite <- Hk, slice_splice by lia. apply chain_one. replace (b2z (last =? 1)) with last by (destruct (Z.eqb_spec last 1); cbn; lia). apply raw_block. lia.
Qed.

#[global] Instance stored_laws : BlockCompressorLaws unit.
Proof.
  refine {| good := fun _ _ _ => True; body := fun _ _ _ _ => False |}; try done.
  - intros w j Hj Hp. cbn. destruct (stored_setup_ok j Hj) as (H1 & H2 & H3). split_and!; done || lia.
  - intros j w h dst src last _. cbn. apply stored_block_spec.
  - intros j w h dst src last _ Hd Hs Hz Hl. pose proof (stored_block_spec (fun _ _ _ => False) h dst src last Hd Hs Hz Hl) as H. cbn. destruct (stored_block dst src last) as [[[w' d] r]| |]; [|done..]. destruct H as (H1 & H2 & H3). split; [done|]. split; [done|]. destruct r; [done|]. tauto.
  - intros j w h dst src _ [Hd _] Hs Hz. cbn. pose proof (zlen_nonneg dst). split_and!; try done; lia.
Defined.
End Stored.

(** ** Calls *)
Section Calls.
Context `{P : Platform} {C : Type} `{FC : FrameCompressor C} `{FL : !FrameCompressorLaws C}.
Context (cdict_at : Z -> ZSTD_CDict).
Implicit Types (z : ZSTD_CStream (C := C)) (s : stream (C := C)).

(** Dictionaries that [ZSTD_createCDict] makes. *)
Definition cdicts_ok : Prop := forall cd, 0 <= cd_strategy (cdict_at cd) <= 9 /\ ZSTD_minCLevel <= cd_compressionLevel (cdict_at cd) <= ZSTD_maxCLevel /\ 0 <= cd_dictContentSize (cdict_at cd) < 2 ^ 63.

(** A frame with the frame parameters and the format requested. *)
Definition as_requested (p : ZSTD_CCtx_params) (j : frame_job) : Prop :=
  started (job_params j) /\ 0 <= job_pledged j < 2 ^ 64 /\ fParams (job_params j) = fParams p /\ format (job_params j) = format p.

Lemma asked_requested p fm n j : asked p fm n j -> as_requested p j.
Proof. intros [[H1 H2] H3 H4 _]. done. Qed.

(** [streamed created z0 I O z]: successful calls have taken [z0] to [z], have consumed [I] and given out [O].  What a call consumed, with what is left of its input, is
    what was there before: with an input buffer that stays with the caller, a call may also give back input. *)
Inductive streamed (created : Z) z0 : list Z -> list Z -> ZSTD_CStream (C := C) -> Prop :=
| streamed_start : streamed created z0 [] [] z0
| streamed_call I O z fm i o ip' op' s n I' : streamed created z0 I O z -> ready created (api z) -> buffers_ok i o -> steady z i -> zlen I + zlen (rest i) < 2 ^ 64 ->
    ZSTD_compressStream2 cdict_at created fm {| zcs := z; input := i; output := o; ip := ip'; op := op' |} = Ok (s, inr n) -> I' ++ rest (input s) = I ++ rest i ->
    streamed created z0 I' (O ++ written o (output s)) (zcs s).

Definition inputs (frames : list (list Z * list Z)) : list Z := concat (fst <$> frames).
Definition outputs (frames : list (list Z * list Z)) : list Z := concat (snd <$> frames).

Lemma inputs_snoc frames F M : inputs (frames ++ [(F, M)]) = inputs frames ++ F /\ outputs (frames ++ [(F, M)]) = outputs frames ++ M.
Proof. unfold inputs, outputs. rewrite !fmap_app, !concat_app. cbn. by rewrite !app_nil_r. Qed.

(** [I] and [O] are frames and what was fed to the next one. *)
Definition delivered (p : ZSTD_CCtx_params) (I O : list Z) z : Prop := exists frames F M,
  I = inputs frames ++ F /\ O = outputs frames ++ M /\ Forall (fun f => exists j, as_requested p j /\ complete j f.1 f.2) frames /\ fed (as_requested p) F M z.

Lemma delivered_step p fm ended F M i o s n I O frames I' : I = inputs frames ++ F -> O = outputs frames ++ M -> Forall (fun f => exists j, as_requested p j /\ complete j f.1 f.2) frames ->
  served (as_requested p) p fm ended F M i o s n -> I' ++ rest (input s) = I ++ rest i -> delivered p I' (O ++ written o (output s)) (zcs s).
Proof.
  intros -> -> Hfr [_ _ _ (F' & EF & Hres)] EI. rewrite <- app_assoc, <- EF, app_assoc in EI. apply app_inj_2 in EI as [-> _]; [|done]. destruct Hres as [j Hrun _ _ _|Hw HM _ _|j HJ Hc Hw _ _].
  - exists frames, F', (M ++ written o (output s)). rewrite app_assoc. split_and!; try done. right. by exists j.
  - exists frames, F', (M ++ written o (output s)). rewrite app_assoc. split_and!; try done. by left.
  - exists (frames ++ [(F', M ++ written o (output s))]), [], []. destruct (inputs_snoc frames F' (M ++ written o (output s))) as [-> ->]. rewrite !app_nil_r, app_assoc. split_and!; try done; [|by left].
    apply Forall_app. split; [done|]. apply Forall_singleton. by exists j.
Qed.

Lemma streamed_delivered created z0 I O z : cdicts_ok -> waiting [] z0 -> streamed created z0 I O z -> requestedParams (api z) = requestedParams (api z0) /\ delivered (requestedParams (api z0)) I O z.
Proof.
  intros Hcd Hw H. induction H as [|I O z fm i o ip' op' s n I' Hs [Hq (frames & F & M & EI & EO & Hfr & Hf)] Ha Hb Hst Ht E EI'].
  { split; [done|]. exists [], [], []. split_and!; try done. by left. }
  destruct (compressStream2_spec (as_requested (requestedParams (api z0))) cdict_at Hcd created fm F M z i o ip' op') as (s' & r & E' & Hr); try done.
  { intros _ j. rewrite <- Hq. apply asked_requested. }
  { rewrite EI, zlen_app in Ht. pose proof (zlen_nonneg (inputs frames)). lia. }
  rewrite E in E'. injection E' as <- <-. rewrite Hq in Hr. split; [apply (sv_api _ _ _ _ _ _ _ _ _ _ Hr)|]. by eapply delivered_step.
Qed.

(** The context stays in order. *)
Lemma streamed_ok created z0 I O z fm i o ip' op' s n : cdicts_ok -> waiting [] z0 -> streamed created z0 I O z -> ready created (api z) -> buffers_ok i o -> steady z i -> zlen I + zlen (rest i) < 2 ^ 64 ->
  ZSTD_compressStream2 cdict_at created fm {| zcs := z; input := i; output := o; ip := ip'; op := op' |} = Ok (s, inr n) -> ctx_ok (api (zcs s)).
Proof.
  intros Hcd Hw H Ha Hb Hst Ht E. destruct (streamed_delivered created z0 I O z Hcd Hw H) as [Hq (frames & F & M & EI & _ & _ & Hf)].
  destruct (compressStream2_spec (as_requested (requestedParams (api z0))) cdict_at Hcd created fm F M z i o ip' op') as (s' & r & E' & Hr); try done.
  { intros _ j. rewrite <- Hq. apply asked_requested. }
  { rewrite EI, zlen_app in Ht. pose proof (zlen_nonneg (inputs frames)). lia. }
  rewrite E in E'. injection E' as <- <-. apply (sv_api _ _ _ _ _ _ _ _ _ _ Hr).
Qed.
End Calls.

(** ** What callers get *)


(** C3: a stream is a sequence of frames.  After any sequence of successful calls, with buffers of any size and any directives, the input consumed so far is the contents of
    complete frames with the parameters requested, followed by what was fed to the frame under way, and the output is those frames and the beginning of the next one.
    When no frame is under way and no input waits with the caller, the output is exactly the frames of the input. *)
Theorem ZSTD_stream_frames `{P : Platform} {C : Type} `{FC : FrameCompressor C} `{FL : !FrameCompressorLaws C} cdict_at created (z0 z : ZSTD_CStream (C := C)) I O :
  cdicts_ok cdict_at -> waiting [] z0 -> streamed cdict_at created z0 I O z ->
  delivered (requestedParams (api z0)) I O z /\
  (stage_of z = zcss_init -> stableIn_notConsumed z = 0 -> exists frames, I = inputs frames /\ O = outputs frames /\ Forall (fun f => exists j, as_requested (requestedParams (api z0)) j /\ complete j f.1 f.2) frames).
Proof.
  intros Hcd Hw H. destruct (streamed_delivered cdict_at created z0 I O z Hcd Hw H) as [_ Hd]. split; [done|]. intros Hst Hnc. destruct Hd as (frames & F & M & -> & -> & Hfr & Hf). exists frames.
  destruct Hf as [[[_ _ EF] ->]|[j Hr]]; [|by destruct (ru_stage _ _ _ _ _ Hr)]. assert (F = []) as -> by (rewrite EF; unfold held_back; by rewrite Hnc). by rewrite !app_nil_r.
Qed.


(** ** Examples *)

(** A context with nothing in it, for the parameters [p]. *)
Definition idle_stream `{P : Platform} (p : ZSTD_CCtx_params) : ZSTD_CStream (C := ZSTD_CFrame (W := unit)) :=
  let nothing := {| in_src := 0; in_bytes := []; in_pos := 0 |} in
  {| api := {| streamStage := zcss_init; cParamsChanged := false; requestedParams := p; pledgedSrcSizePlusOne := 0; staticSize := 0; localDict := no_local; cdict := 0; prefixDict := no_prefix; pool := 0; blocks := [] |};
     frame := {| f_stage := ZSTDcs_created; f_params := ZSTD_CCtxParams_reset; f_dictID := 0; f_pledgedSrcSizePlusOne := 0; f_consumedSrcSize := 0; f_producedCSize := 0; f_blockSizeMax := 0; f_xxhState := XXH64_reset 0; f_isFirstBlock := false; f_blocks := tt; f_dst := [] |};
     appliedParams := ZSTD_CCtxParams_reset; blockSizeMax := 0; inBuff := []; inBuffSize := 0; inToCompress := 0; inBuffPos := 0; inBuffTarget := 0; outBuff := []; outBuffSize := 0; outBuffContentSize := 0; outBuffFlushedSize := 0; frameEnded := false;
     expectedInBuffer := nothing; stableIn_notConsumed := 0; expectedOutBufferSize := 0 |}.

Definition some_cdict (_ : Z) : ZSTD_CDict := {| cd_strategy := 3; cd_dedicatedDictSearch := false; cd_compressionLevel := 5; cd_dictContentSize := 100 |}.
Definition small_params `{P : Platform} : ZSTD_CCtx_params := ZSTD_CCtxParams_init 3 <| maxBlockSize := 1024 |> <| fParams := {| contentSizeFlag := 1; p_checksumFlag := 1; noDictIDFlag := 0 |} |>.
Definition stable_params `{P : Platform} : ZSTD_CCtx_params := small_params <| inBufferMode := ZSTD_bm_stable |>.

(** The call succeeds, and then [k]. *)
Definition and_then {S A} (r : outcome Empty_set (S * (ZSTD_ErrorCode + A))) (k : S -> A -> bool) : bool := match r with Ok (s, inr a) => k s a | _ => false end.

Lemma and_then_inv {S A} (r : outcome Empty_set (S * (ZSTD_ErrorCode + A))) k : and_then r k = true -> exists s a, r = Ok (s, inr a) /\ k s a = true.
Proof. destruct r as [[s [e|a]]| |]; [done| |done..]. intros H. by exists s, a. Qed.

Section Examples.
#[local] Existing Instance arm64_v8a.

(** The input at 8192, an output of [n] bytes, and a call with them. *)
Local Notation input_of bs := {| in_src := 8192; in_bytes := bs; in_pos := 0 |}.
Local Notation output_of n := {| out_dst := 4096; out_bytes := replicate n 0; out_pos := 0 |}.
Local Notation on_stream z i o := {| zcs := z; input := i; output := o; ip := 0; op := 0 |}.

Lemma some_cdicts_ok : cdicts_ok some_cdict.
Proof. intros cd. cbn. split; [lia|]. split; [split; vm_compute; discriminate|lia]. Qed.

Lemma small_params_ok : params_ok small_params.
Proof. pose proof (init_params_ok 3 ltac:(split; vm_compute; discriminate)) as []. constructor; assumption || (right; cbn; lia). Qed.

Lemma idle_ready p : params_ok p -> ready 0 (api (idle_stream p)).
Proof. intros Hp. split; [|by left]. constructor; try done. constructor. Qed.

Lemma idle_waiting p : waiting [] (idle_stream p).
Proof. constructor; [done|by left|done]. Qed.

Lemma small_mem l : forallb (fun b => (0 <=? b) && (b <? 256)) l = true -> (length l < 1000)%nat -> mem_ok l.
Proof.
  intros Hb Hl. split; [|unfold zlen; pose proof word_size_min; lia]. apply Forall_forall. intros x Hx. rewrite forallb_forall in Hb. apply list_elem_of_In in Hx. specialize (Hb x Hx). unfold is_byte. lia.
Qed.


Lemma small_buffers bs n : forallb (fun b => (0 <=? b) && (b <? 256)) bs = true -> (length bs < 1000)%nat -> (n < 1000)%nat -> buffers_ok (input_of bs) (output_of n).
Proof.
  intros Hb Hl Hn. constructor; (split; [|split; [cbn; lia|discriminate]]); [by apply small_mem|]. apply small_mem; [|cbn; rewrite length_replicate; lia]. cbn [out_bytes]. clear. induction n; [done|exact IHn].
Qed.

(** ** Witnesses *)

Lemma first_call : and_then (ZSTD_compressStream2 some_cdict 0 ZSTD_e_continue (on_stream (idle_stream small_params) (input_of [1; 2; 3; 4; 5]) (output_of 4))) (fun _ _ => true) = true.
Proof. vm_compute. reflexivity. Qed.


(** What a call leaves behind: no input left over, and [w] written. *)
Local Notation leaves s n w := (bool_decide ((rest (input s) = [] /\ stableIn_notConsumed (zcs s) = 0) /\ written (output_of n) (output s) = w)).

(** Three calls: the first bytes wait in the context, then the output is too short for the frame. *)
Lemma three_calls :
  and_then (ZSTD_compressStream2 some_cdict 0 ZSTD_e_continue (on_stream (idle_stream small_params) (input_of [1; 2; 3; 4; 5]) (output_of 4))) (fun s1 _ => leaves s1 4 [] &&
  and_then (ZSTD_compressStream2 some_cdict 0 ZSTD_e_end (on_stream (zcs s1) (input_of [6; 7]) (output_of 10))) (fun s2 _ => leaves s2 10 [40; 181; 47; 253; 4; 88; 57; 0; 0; 1] &&
  and_then (ZSTD_compressStream2 some_cdict 0 ZSTD_e_end (on_stream (zcs s2) (input_of []) (output_of 100))) (fun s3 n => leaves s3 100 [2; 3; 4; 5; 6; 7; 201; 92; 169; 60] && bool_decide (stage_of (zcs s3) = zcss_init)))) = true.
Proof. vm_compute. reflexivity. Qed.

Lemma ZSTD_stream_frames_witness : exists frames, inputs frames = [1; 2; 3; 4; 5; 6; 7] /\ outputs frames = [40; 181; 47; 253; 4; 88; 57; 0; 0; 1; 2; 3; 4; 5; 6; 7; 201; 92; 169; 60] /\
  Forall (fun f => exists j, as_requested small_params j /\ is_frame j f.1 f.2) frames.
Proof.
  destruct (and_then_inv _ _ three_calls) as (s1 & n1 & E1 & H1). apply andb_prop in H1 as [[[R1 N1] W1]%bool_decide_eq_true H1]. destruct (and_then_inv _ _ H1) as (s2 & n2 & E2 & H2).
  apply andb_prop in H2 as [[[R2 N2] W2]%bool_decide_eq_true H2]. destruct (and_then_inv _ _ H2) as (s3 & n3 & E3 & H3). apply andb_prop in H3 as [[[R3 N3] W3]%bool_decide_eq_true Hst%bool_decide_eq_true].
  set (z0 := idle_stream small_params) in *. assert (waiting [] z0) as Hw by apply idle_waiting. assert (ready 0 (api z0)) as Ha by apply idle_ready, small_params_ok. pose proof some_cdicts_ok as Hcd.
  assert (buffers_ok (input_of [1; 2; 3; 4; 5]) (output_of 4)) as B1 by (apply small_buffers; [reflexivity|cbn; lia|lia]). assert (buffers_ok (input_of [6; 7]) (output_of 10)) as B2 by (apply small_buffers; [reflexivity|cbn; lia|lia]). assert (buffers_ok (input_of []) (output_of 100)) as B3 by (apply small_buffers; [reflexivity|cbn; lia|lia]).
  assert (steady z0 (input_of [1; 2; 3; 4; 5])) as S1 by (intros N; destruct (N eq_refl)). assert (steady (zcs s1) (input_of [6; 7])) as S2 by (intros N; destruct (N N1)). assert (steady (zcs s2) (input_of [])) as S3 by (intros N; destruct (N N2)).
  pose proof (streamed_start some_cdict 0 z0) as T0.
  assert (streamed some_cdict 0 z0 [1; 2; 3; 4; 5] ([] ++ written (output_of 4) (output s1)) (zcs s1)) as T1 by (eapply streamed_call; [exact T0|exact Ha|exact B1|exact S1|vm_compute; reflexivity|exact E1|rewrite R1; reflexivity]).
  assert (ready 0 (api (zcs s1))) as A1 by (split; [|left; reflexivity]; eapply streamed_ok; [exact Hcd|exact Hw|exact T0|exact Ha|exact B1|exact S1|vm_compute; reflexivity|exact E1]).
  assert (streamed some_cdict 0 z0 [1; 2; 3; 4; 5; 6; 7] (([] ++ written (output_of 4) (output s1)) ++ written (output_of 10) (output s2)) (zcs s2)) as T2 by (eapply streamed_call; [exact T1|exact A1|exact B2|exact S2|vm_compute; reflexivity|exact E2|rewrite R2; reflexivity]).
  assert (ready 0 (api (zcs s2))) as A2 by (split; [|left; reflexivity]; eapply streamed_ok; [exact Hcd|exact Hw|exact T1|exact A1|exact B2|exact S2|vm_compute; reflexivity|exact E2]).
  assert (streamed some_cdict 0 z0 [1; 2; 3; 4; 5; 6; 7] ((([] ++ written (output_of 4) (output s1)) ++ written (output_of 10) (output s2)) ++ written (output_of 100) (output s3)) (zcs s3)) as T3 by (eapply streamed_call; [exact T2|exact A2|exact B3|exact S3|vm_compute; reflexivity|exact E3|rewrite R3; reflexivity]).
  destruct (ZSTD_stream_frames some_cdict 0 z0 (zcs s3) _ _ Hcd Hw T3) as [_ H]. destruct (H Hst N3) as (frames & EI & EO & Hf). exists frames. split; [symmetry; exact EI|]. split; [rewrite <- EO, W1, W2, W3; reflexivity|exact Hf].
Defined.

Lemma one_call : and_then (ZSTD_compress2 some_cdict 0 4096 (replicate 64 0) 8192 [1; 2; 3; 4; 5] (idle_stream small_params)) (fun _ r => bool_decide (r.2 = 18 /\ slice r.1 0 18 = [40; 181; 47; 253; 36; 5; 41; 0; 0; 1; 2; 3; 4; 5; 47; 214; 192; 132])) = true.
Proof. vm_compute. reflexivity. Qed.


(** ** Input that was left with the caller *)

Definition faults {A} (r : outcome Empty_set A) : bool := match r with Fault AssertFailed => true | _ => false end.

(** A caller that keeps its input gives less than a block; the context only notes how much. *)
Local Notation after_five k := (and_then (ZSTD_compressStream2 some_cdict 0 ZSTD_e_continue (on_stream (idle_stream stable_params) (input_of [1; 2; 3; 4; 5]) (output_of 40))) k).

(** A reset does not forget it: [ZSTD_compress2] of three other bytes goes back five bytes before its input. *)
Example ZSTD_CCtx_reset_keeps_input :
  after_five (fun s _ => and_then (ZSTD_CCtx_reset ZSTD_reset_session_and_parameters (api (zcs s))) (fun c _ => faults (ZSTD_compress2 some_cdict 0 4096 (replicate 64 0) 12288 [7; 8; 9] (zcs s <| api := c |>)))) = true.
Proof. vm_compute. reflexivity. Qed.

(** The next call is not checked against the buffer that was left, if it ends the frame: with another buffer and its position at the start, it goes back before its input. *)
Example ZSTD_compressStream2_unchecked_input :
  after_five (fun s _ => faults (ZSTD_compressStream2 some_cdict 0 ZSTD_e_end (on_stream (zcs s) {| in_src := 12288; in_bytes := [7; 8; 9]; in_pos := 0 |} (output_of 64)))) = true.
Proof. vm_compute. reflexivity. Qed.

(** [ZSTD_flushStream] and [ZSTD_endStream] take the buffer mode of the frame before, and give no input. *)
Example ZSTD_endStream_forgets_input :
  after_five (fun s _ => faults (ZSTD_endStream some_cdict 0 (output_of 64) (zcs s)) && faults (ZSTD_flushStream some_cdict 0 (output_of 64) (zcs s))) = true.
Proof. vm_compute. reflexivity. Qed.
End Examples.
