(* ===== verification/Kotlin.v ===== *)
(** * What the Kotlin code uses of its language

    Arrays whose accesses raise out of range, [Int] arithmetic and the exceptions
    of the library.  A call ends with a value or an exception; a [Fault] is only a
    loop whose fuel ran out. *)
From S2P Require Import Prelude.

Inductive kt_exception :=
| IndexOutOfBounds
| NegativeArraySize
| IllegalArgument
| ProtocolException
| CompressionException.
Notation kt := (outcome kt_exception).

(** [%] on [Int]. *)
Definition irem (a b : Z) : Z := Z.rem a b.

(** [toInt] of a [UInt] and back. *)
Definition toInt (x : Z) : Z := s32 x.
Definition toUInt (x : Z) : Z := u32 x.

Section Arrays.
Context {A : Type}.
Implicit Types (a : list A).

Definition kget a (i : Z) : kt A :=
  match (if 0 <=? i then a !! Z.to_nat i else None) with Some x => Ok x | None => Err IndexOutOfBounds end.

Definition kset a (i : Z) (x : A) : kt (list A) :=
  if (0 <=? i) && (i <? zlen a) then Ok (<[Z.to_nat i := x]> a) else Err IndexOutOfBounds.

Definition arrayOf (n : Z) (x : A) : kt (list A) :=
  if n <? 0 then Err NegativeArraySize else Ok (replicate (Z.to_nat n) x).

Lemma kget_Ok a i x : 0 <= i -> a !! Z.to_nat i = Some x -> kget a i = Ok x.
Proof. intros Hi Hx. unfold kget. rewrite (proj2 (Z.leb_le 0 i)) by lia. by rewrite Hx. Qed.

Lemma kset_Ok a i x : 0 <= i < zlen a -> kset a i x = Ok (<[Z.to_nat i := x]> a).
Proof. intros Hi. unfold kset. by rewrite (proj2 (Z.leb_le 0 i)), (proj2 (Z.ltb_lt i _)) by lia. Qed.
End Arrays.

Definition arrayOfNulls {T} (n : Z) : kt (list (option T)) := arrayOf n None.

Lemma toInt_toUInt k : - 2 ^ 31 <= k < 2 ^ 31 -> toInt (toUInt k) = k.
Proof.
  intros Hk. unfold toInt, toUInt, sgn, wrap. change (32 - 1) with 31. rewrite Zplus_mod_idemp_l.
  rewrite Z.mod_small by (change (2 ^ 32) with (2 * 2 ^ 31); lia). lia.
Qed.

Lemma toInt_range x : - 2 ^ 31 <= toInt x < 2 ^ 31.
Proof.
  unfold toInt, sgn. change (32 - 1) with 31. pose proof (Z.mod_pos_bound (x + 2 ^ 31) (2 ^ 32) ltac:(lia)).
  change (2 ^ 32) with (2 * 2 ^ 31) in *. lia.
Qed.
