(* ===== verification/Ring.v ===== *)
(** * Ring.kt: the FIFO ring of the reactor-local queues

    A circular array that doubles when it is full.  Its operations refine a list:
    any sequence of them gives the results a queue gives, no live element is ever
    lost or reordered by the growth, and vacated slots hold no reference. *)
From S2P Require Import Prelude Kotlin.

Section Definitions.
Context {T : Type}.

Record Ring := { items : list (option T); head : Z; rsize : Z }.

Definition newRing (initial : Z) : kt Ring :=
  let* a := arrayOfNulls (Z.max initial 4) in
  Ok {| items := a; head := 0; rsize := 0 |}.

Definition isEmpty (r : Ring) : bool := rsize r =? 0.
Definition isNotEmpty (r : Ring) : bool := negb (rsize r =? 0).

Definition grow (r : Ring) : kt Ring :=
  let n := zlen (items r) in
  let* bigger := arrayOfNulls (s32 (n * 2)) in
  let* bigger := for_range 0 (rsize r) (fun i bigger =>
    let* x := kget (items r) (irem (s32 (head r + i)) n) in
    kset bigger i x) bigger in
  Ok {| items := bigger; head := 0; rsize := rsize r |}.

Definition addLast (r : Ring) (x : T) : kt Ring :=
  let* r := if rsize r =? zlen (items r) then grow r else Ok r in
  let* a := kset (items r) (irem (s32 (head r + rsize r)) (zlen (items r))) (Some x) in
  Ok {| items := a; head := head r; rsize := s32 (rsize r + 1) |}.

Definition removeFirstOrNull (r : Ring) : kt (option T * Ring) :=
  if rsize r =? 0 then Ok (None, r)
  else
    let* x := kget (items r) (head r) in
    let* a := kset (items r) (head r) None in
    Ok (x, {| items := a; head := irem (s32 (head r + 1)) (zlen a); rsize := s32 (rsize r - 1) |}).

Definition clear (r : Ring) : kt Ring :=
  let* a := for_range 0 (rsize r) (fun i a => kset a (irem (s32 (head r + i)) (zlen a)) None) (items r) in
  Ok {| items := a; head := 0; rsize := 0 |}.

(** ** The queue it implements *)

Definition slot_of (r : Ring) (i : Z) : Z := (head r + i) mod zlen (items r).

(** [r] holds the elements of [q], first in first; all other slots are null. *)
Definition holds (r : Ring) (q : list T) : Prop :=
  4 <= zlen (items r) <= 2 ^ 30 /\ 0 <= head r < zlen (items r) /\ rsize r = zlen q /\ zlen q <= zlen (items r) /\
  (forall i, 0 <= i < zlen q -> items r !! Z.to_nat (slot_of r i) = Some (q !! Z.to_nat i)) /\
  (forall i, zlen q <= i < zlen (items r) -> items r !! Z.to_nat (slot_of r i) = Some None).
End Definitions.
Arguments Ring : clear implicits.

Section Lemmas.
Context {T : Type}.
Implicit Types (r : Ring T) (q : list T).

Lemma slot_val r i : 4 <= zlen (items r) <= 2 ^ 30 -> 0 <= head r < zlen (items r) -> 0 <= i <= zlen (items r) ->
  irem (s32 (head r + i)) (zlen (items r)) = slot_of r i /\ 0 <= slot_of r i < zlen (items r).
Proof.
  intros Hn Hh Hi. unfold slot_of, irem. rewrite (sgn_small 32) by (lia || (change (2 ^ (32 - 1)) with (2 ^ 31); lia)).
  split; [apply Z.rem_mod_nonneg; lia|apply Z.mod_pos_bound; lia].
Qed.

(** Slots of different positions are different. *)
Lemma slot_inj r i j : 0 < zlen (items r) -> 0 <= i < zlen (items r) -> 0 <= j < zlen (items r) -> slot_of r i = slot_of r j -> i = j.
Proof.
  unfold slot_of. intros Hn Hi Hj E. set (n := zlen (items r)) in *. apply (f_equal (fun x => (x - head r) mod n)) in E.
  rewrite !Zminus_mod_idemp_l in E. replace (head r + i - head r) with i in E by lia. replace (head r + j - head r) with j in E by lia.
  rewrite !Z.mod_small in E by lia. done.
Qed.

Lemma lookup_snoc_Z q x i : 0 <= i < zlen q + 1 -> (q ++ [x]) !! Z.to_nat i = if i <? zlen q then q !! Z.to_nat i else Some x.
Proof.
  unfold zlen. intros Hi. destruct (Z.ltb_spec i (Z.of_nat (length q))); [by rewrite lookup_app_l by lia|].
  rewrite lookup_app_r by lia. by replace (Z.to_nat i - length q)%nat with 0%nat by lia.
Qed.

Lemma holds_new initial : initial <= 2 ^ 30 -> exists r : Ring T, newRing initial = Ok r /\ holds r [].
Proof.
  intros Hi. unfold newRing, arrayOfNulls, arrayOf. rewrite (proj2 (Z.ltb_ge (Z.max initial 4) 0)) by lia. cbn [obind]. eexists. split; [reflexivity|].
  unfold holds; simpl. rewrite zlen_replicate. split; [lia|]. split; [lia|]. split; [done|]. split; [unfold zlen; simpl; lia|].
  split; [unfold zlen; simpl; lia|]. intros i Hi'. apply lookup_replicate_2. unfold slot_of; cbn [items head]. rewrite zlen_replicate.
  pose proof (Z.mod_pos_bound (0 + i) (Z.of_nat (Z.to_nat (Z.max initial 4))) ltac:(lia)). lia.
Qed.

(** Appending when there is room. *)
Lemma holds_push r q x :
  holds r q -> zlen q < zlen (items r) ->
  exists a, kset (items r) (irem (s32 (head r + rsize r)) (zlen (items r))) (Some x) = Ok a /\
    holds {| items := a; head := head r; rsize := s32 (rsize r + 1) |} (q ++ [x]).
Proof.
  intros (Hn & Hh & Hs & Hq & Hlive & Hdead) Hlt. pose proof (zlen_nonneg q). rewrite Hs.
  destruct (slot_val r (zlen q)) as [-> Hr]; [lia..|]. rewrite kset_Ok by done. eexists. split; [reflexivity|].
  rewrite (sgn_small 32) by (lia || (change (2 ^ (32 - 1)) with (2 ^ 31); lia)).
  unfold holds; cbn [items head rsize]. rewrite zlen_insert, zlen_app. change (zlen [x]) with 1.
  split; [done|]. split; [done|]. split; [done|]. split; [lia|].
  assert (forall i, slot_of {| items := <[Z.to_nat (slot_of r (zlen q)) := Some x]> (items r); head := head r; rsize := zlen q + 1 |} i = slot_of r i) as Hso
    by (intros i; unfold slot_of; cbn [items head]; by rewrite zlen_insert).
  split; intros i Hi; rewrite Hso.
  - rewrite lookup_snoc_Z by lia. destruct (Z.ltb_spec i (zlen q)) as [Hl|Hg].
    + rewrite list_lookup_insert_ne; [apply Hlive; lia|]. destruct (slot_val r i) as [_ ?]; [lia..|].
      intros E. apply Z2Nat.inj in E; [|lia..]. apply slot_inj in E; lia.
    + assert (i = zlen q) as -> by lia. apply lookup_insert_Z. lia.
  - rewrite list_lookup_insert_ne; [apply Hdead; lia|]. destruct (slot_val r i) as [_ ?]; [lia..|].
    intros E. apply Z2Nat.inj in E; [|lia..]. apply slot_inj in E; lia.
Qed.

Lemma holds_pop r x q :
  holds r (x :: q) -> exists r', removeFirstOrNull r = Ok (Some x, r') /\ holds r' q.
Proof.
  intros (Hn & Hh & Hs & Hq & Hlive & Hdead). rewrite zlen_cons in *. pose proof (zlen_nonneg q). unfold removeFirstOrNull.
  rewrite (proj2 (Z.eqb_neq (rsize r) 0)) by lia.
  assert (slot_of r 0 = head r) as H0 by (unfold slot_of; rewrite Z.add_0_r; apply Z.mod_small; lia).
  pose proof (Hlive 0 ltac:(lia)) as Hx. rewrite H0 in Hx. rewrite (kget_Ok _ _ _ (proj1 Hh) Hx). cbn [obind].
  rewrite kset_Ok by done. cbn [obind]. eexists. split; [reflexivity|].
  rewrite zlen_insert. destruct (slot_val r 1) as [-> Hr1]; [lia..|].
  rewrite (sgn_small 32) by (lia || (change (2 ^ (32 - 1)) with (2 ^ 31); lia)).
  unfold holds; cbn [items head rsize]. rewrite zlen_insert. split; [done|]. split; [done|]. split; [lia|]. split; [lia|].
  assert (forall i, 0 <= i < zlen (items r) - 1 ->
    slot_of {| items := <[Z.to_nat (head r) := None]> (items r); head := slot_of r 1; rsize := rsize r - 1 |} i = slot_of r (i + 1)) as Hso.
  { intros i Hi. unfold slot_of; cbn [items head]. rewrite zlen_insert, Zplus_mod_idemp_l. f_equal. lia. }
  assert (forall i, 0 < i < zlen (items r) -> Z.to_nat (head r) <> Z.to_nat (slot_of r i)) as Hne.
  { intros i Hi E. destruct (slot_val r i) as [_ ?]; [lia..|]. apply Z2Nat.inj in E; [|lia..]. rewrite <- H0 in E. apply slot_inj in E; lia. }
  split; intros i Hi.
  - rewrite Hso by lia. rewrite list_lookup_insert_ne by (apply Hne; lia). rewrite Hlive by lia.
    by replace (Z.to_nat (i + 1)) with (S (Z.to_nat i)) by lia.
  - destruct (Z.eq_dec i (zlen (items r) - 1)) as [->|].
    + unfold slot_of; cbn [items head]. rewrite zlen_insert, Zplus_mod_idemp_l.
      replace (head r + 1 + (zlen (items r) - 1)) with (head r + 1 * zlen (items r)) by lia.
      rewrite Z.mod_add, (Z.mod_small (head r)) by lia. apply lookup_insert_Z. lia.
    + rewrite Hso by lia. rewrite list_lookup_insert_ne by (apply Hne; lia). apply Hdead. lia.
Qed.

Lemma holds_grow r q :
  holds r q -> zlen q = zlen (items r) -> zlen (items r) <= 2 ^ 29 ->
  exists r', grow r = Ok r' /\ holds r' q /\ zlen (items r') = 2 * zlen (items r).
Proof.
  intros (Hn & Hh & Hs & Hq & Hlive & Hdead) Hfull Hle. unfold grow, arrayOfNulls, arrayOf.
  rewrite (sgn_small 32) by (lia || (change (2 ^ (32 - 1)) with (2 ^ 31); lia)). rewrite (proj2 (Z.ltb_ge (zlen (items r) * 2) 0)) by lia. cbn [obind].
  set (big := replicate (Z.to_nat (zlen (items r) * 2)) None).
  assert (zlen big = 2 * zlen (items r)) as Hbig by (unfold big; rewrite zlen_replicate; lia).
  assert (wp (for_range 0 (rsize r) (fun i bigger => let* x := kget (items r) (irem (s32 (head r + i)) (zlen (items r))) in kset bigger i x) big)
    (fun a => zlen a = zlen big /\ (forall i, 0 <= i < rsize r -> a !! Z.to_nat i = Some (q !! Z.to_nat i)) /\
              (forall i, rsize r <= i < zlen big -> a !! Z.to_nat i = Some None)) (fun _ => False)) as H.
  { apply (wp_for_range (fun s a => zlen a = zlen big /\ (forall i, 0 <= i < s -> a !! Z.to_nat i = Some (q !! Z.to_nat i)) /\
              (forall i, s <= i < zlen big -> a !! Z.to_nat i = Some None))); [lia| |].
    - split; [done|]. split; [lia|]. intros i Hi. unfold big in *. rewrite zlen_replicate in Hi. apply lookup_replicate_2. lia.
    - intros s a Hsr (Hz & H1 & H2). destruct (slot_val r s) as [-> Hsl]; [lia..|].
      rewrite (kget_Ok _ _ _ (proj1 Hsl) (Hlive s ltac:(lia))). cbn [obind]. rewrite kset_Ok by lia. cbn [wp].
      rewrite zlen_insert. split; [done|]. split; intros i Hi.
      + destruct (Z.eq_dec i s) as [->|]; [apply lookup_insert_Z; lia|].
        rewrite list_lookup_insert_ne by lia. apply H1. lia.
      + rewrite list_lookup_insert_ne by lia. apply H2. lia. }
  apply wp_exists in H as (a & -> & Hz & H1 & H2). cbn [obind]. eexists. split; [reflexivity|].
  unfold holds; cbn [items head rsize]. split; [|lia]. split; [lia|]. split; [lia|]. split; [done|]. split; [lia|].
  assert (forall i, 0 <= i < zlen a -> slot_of {| items := a; head := 0; rsize := rsize r |} i = i) as Hso
    by (intros i Hi; unfold slot_of; cbn [items head]; apply Z.mod_small; lia).
  split; intros i Hi; rewrite Hso by lia; [apply H1|apply H2]; lia.
Qed.

Lemma holds_addLast r q x :
  holds r q -> zlen q < 2 ^ 29 -> exists r', addLast r x = Ok r' /\ holds r' (q ++ [x]).
Proof.
  intros Hr Hq. pose proof Hr as (Hn & Hh & Hs & Hle & _). unfold addLast. destruct (Z.eqb_spec (rsize r) (zlen (items r))) as [E|E].
  - destruct (holds_grow r q Hr) as (r1 & -> & Hr1 & Hz); [lia|lia|]. cbn [obind].
    destruct (holds_push r1 q x Hr1) as (a & -> & Ha); [lia|]. cbn [obind]. by eexists.
  - cbn [obind]. destruct (holds_push r q x Hr) as (a & -> & Ha); [lia|]. cbn [obind]. by eexists.
Qed.

Lemma holds_clear r q : holds r q -> exists r', clear r = Ok r' /\ holds r' [].
Proof.
  intros (Hn & Hh & Hs & Hq & Hlive & Hdead). pose proof (zlen_nonneg q) as Hq0. unfold clear.
  assert (wp (for_range 0 (rsize r) (fun i a => kset a (irem (s32 (head r + i)) (zlen a)) None) (items r))
    (fun a => zlen a = zlen (items r) /\ forall i, 0 <= i < zlen (items r) -> a !! Z.to_nat (slot_of r i) = Some None) (fun _ => False)) as H.
  { eapply (wp_mono _ _ _ (fun _ => False)); [apply (wp_for_range (fun s a => zlen a = zlen (items r) /\ (forall i, 0 <= i < s \/ rsize r <= i < zlen (items r) ->
      a !! Z.to_nat (slot_of r i) = Some None))); [lia| |]| |done].
    - split; [done|]. intros i [?|?]; [lia|]. apply Hdead. lia.
    - intros s a Hsr (Hz & H1). rewrite Hz. destruct (slot_val r s) as [-> Hsl]; [lia..|]. rewrite kset_Ok by lia. cbn [wp].
      rewrite zlen_insert. split; [done|]. intros i Hi. destruct (Z.eq_dec i s) as [->|]; [apply lookup_insert_Z; lia|].
      rewrite list_lookup_insert_ne; [apply H1; lia|]. destruct (slot_val r i) as [_ ?]; [lia..|].
      intros E. apply Z2Nat.inj in E; [|lia..]. apply slot_inj in E; lia.
    - intros a [Hz H1]. split; [done|]. intros i Hi. apply H1. lia. }
  apply wp_exists in H as (a & -> & Hz & H1). cbn [obind]. eexists. split; [reflexivity|].
  unfold holds; cbn [items head rsize]. split; [lia|]. split; [lia|]. split; [done|]. split; [unfold zlen; simpl; lia|].
  split; [unfold zlen; simpl; lia|]. intros i Hi. unfold slot_of at 1; cbn [items head]. change (zlen []) with 0 in Hi.
  rewrite Z.add_0_l, Z.mod_small by lia. pose proof (H1 ((i - head r) mod zlen (items r))) as Hx.
  rewrite <- Hx by (apply Z.mod_pos_bound; lia). do 2 f_equal. unfold slot_of. rewrite Zplus_mod_idemp_r.
  replace (head r + (i - head r)) with i by lia. rewrite Z.mod_small by lia. done.
Qed.
End Lemmas.

(** ** Sequences of operations *)

Section Traces.
Context {T : Type}.

Inductive op := AddLast (x : T) | RemoveFirst | Clear | Size.

(** What an operation lets its caller see. *)
Inductive seen := Done | Removed (x : option T) | SizeIs (n : Z).

Definition ring_step (r : Ring T) (o : op) : kt (seen * Ring T) :=
  match o with
  | AddLast x => let* r := addLast r x in Ok (Done, r)
  | RemoveFirst => let* (x, r) := removeFirstOrNull r in Ok (Removed x, r)
  | Clear => let* r := clear r in Ok (Done, r)
  | Size => Ok (SizeIs (rsize r), r)
  end.

Fixpoint ring_run (r : Ring T) (os : list op) : kt (list seen) :=
  match os with
  | [] => Ok []
  | o :: os => let* (y, r) := ring_step r o in let* ys := ring_run r os in Ok (y :: ys)
  end.

(** The queue, on lists. *)
Definition queue_step (q : list T) (o : op) : seen * list T :=
  match o with
  | AddLast x => (Done, q ++ [x])
  | RemoveFirst => match q with [] => (Removed None, []) | x :: q => (Removed (Some x), q) end
  | Clear => (Done, [])
  | Size => (SizeIs (zlen q), q)
  end.

Fixpoint queue_run (q : list T) (os : list op) : list seen :=
  match os with
  | [] => []
  | o :: os => let '(y, q) := queue_step q o in y :: queue_run q os
  end.

Lemma ring_step_sim r q o :
  holds r q -> zlen q < 2 ^ 29 ->
  exists r', ring_step r o = Ok ((queue_step q o).1, r') /\ holds r' (queue_step q o).2 /\ zlen (queue_step q o).2 <= zlen q + 1.
Proof.
  intros Hr Hq. pose proof (zlen_nonneg q). destruct o as [x| | |]; cbn [ring_step queue_step fst snd].
  - destruct (holds_addLast r q x Hr Hq) as (r' & -> & H'). exists r'. split; [done|]. split; [done|]. rewrite zlen_app. unfold zlen at 2. simpl. lia.
  - destruct q as [|x q].
    + exists r. unfold removeFirstOrNull. pose proof Hr as (_ & _ & -> & _). done.
    + destruct (holds_pop r x q Hr) as (r' & -> & H'). exists r'. split; [done|]. split; [done|]. rewrite zlen_cons in *. simpl. lia.
  - destruct (holds_clear r q Hr) as (r' & -> & H'). exists r'. split; [done|]. split; [done|]. unfold zlen in *. simpl. lia.
  - exists r. pose proof Hr as (_ & _ & -> & _). split; [done|]. split; [done|]. lia.
Qed.

Lemma ring_run_sim os : forall r q, holds r q -> zlen q + zlen os < 2 ^ 29 -> ring_run r os = Ok (queue_run q os).
Proof.
  induction os as [|o os IH]; intros r q Hr Hl; [done|]. rewrite zlen_cons in Hl. pose proof (zlen_nonneg os). cbn [ring_run queue_run].
  destruct (ring_step_sim r q o Hr) as (r' & -> & H' & Hz); [lia|]. destruct (queue_step q o) as [y q']. cbn [fst snd obind] in *.
  by rewrite (IH r' q') by (try done; lia).
Qed.
End Traces.
Arguments op : clear implicits.
Arguments seen : clear implicits.

(** C25: any sequence of fewer than 2^29 operations on a new [Ring] of any initial capacity raises no exception and
    shows its caller exactly what a FIFO queue shows: removals in order of insertion, null when empty, and sizes,
    through wrap-around and every growth of the array. *)
Theorem Ring_refines_queue {T : Type} (initial : Z) (os : list (op T)) :
  initial <= 2 ^ 30 -> zlen os < 2 ^ 29 ->
  (let* r := newRing initial in ring_run r os) = Ok (queue_run [] os).
Proof.
  intros Hi Ho. destruct (holds_new (T := T) initial Hi) as (r & -> & Hr). cbn [obind]. apply ring_run_sim; [done|].
  unfold zlen at 1. simpl. lia.
Qed.

Lemma Ring_refines_queue_witness :
  let os := [AddLast 1; AddLast 2; RemoveFirst; AddLast 3; AddLast 4; AddLast 5; AddLast 6; Size; RemoveFirst; RemoveFirst; Clear; RemoveFirst] in
  (let* r := newRing 1 in ring_run r os) =
    Ok [Done; Done; Removed (Some 1); Done; Done; Done; Done; SizeIs 5; Removed (Some 2); Removed (Some 3); Done; Removed None].
Proof. intros os. rewrite Ring_refines_queue; [reflexivity|lia|by vm_compute]. Defined.

(** the ring's invariant, kept by every operation while it holds fewer than 2^29 elements: the live slots hold the
    queue in order, and every other slot is null, so no removed element stays reachable through the array. *)
Theorem Ring_invariant {T : Type} (r : Ring T) (q : list T) :
  holds r q -> zlen q < 2 ^ 29 ->
  (forall x, exists r', addLast r x = Ok r' /\ holds r' (q ++ [x])) /\
  (exists r', removeFirstOrNull r = Ok (hd_error q, r') /\ holds r' (tl q)) /\
  (exists r', clear r = Ok r' /\ holds r' []) /\
  isEmpty r = bool_decide (q = []).
Proof.
  intros Hr Hq. split; [intros x; by apply holds_addLast|]. split; [|split; [by eapply holds_clear|]].
  - destruct q as [|x q]; [|by apply holds_pop]. exists r. unfold removeFirstOrNull. by pose proof Hr as (_ & _ & -> & _).
  - unfold isEmpty. pose proof Hr as (_ & _ & -> & _). destruct q as [|x q]; [done|]. rewrite zlen_cons. pose proof (zlen_nonneg q).
    rewrite (proj2 (Z.eqb_neq _ 0)) by lia. by rewrite bool_decide_eq_false_2.
Qed.

Lemma Ring_invariant_witness :
  let r := {| items := [Some 7; None; None; Some 5]; head := 3; rsize := 2 |} in
  holds r [5; 7] /\ exists r', removeFirstOrNull r = Ok (Some 5, r') /\ holds r' [7].
Proof.
  intros r. assert (holds r [5; 7]) as Hr.
  { split; [vm_compute; split; discriminate|]. split; [vm_compute; split; [discriminate|reflexivity]|]. split; [done|]. split; [vm_compute; discriminate|].
    change (zlen [5; 7]) with 2. change (zlen (items r)) with 4.
    split; intros i Hi; [assert (i = 0 \/ i = 1) as [->| ->] by lia|assert (i = 2 \/ i = 3) as [->| ->] by lia]; reflexivity. }
  split; [done|]. destruct (Ring_invariant r [5; 7] Hr ltac:(by vm_compute)) as (_ & H & _). exact H.
Defined.
