(* ===== verification/ReactorQueue.v ===== *)
(** * ReactorQueue.kt: the bounded queue between the read loop and the handler loop

    The queue is owned by one reactor thread.  Its state is a [Ring], the two slots of
    parked coroutines, the closed flag and the two watched jobs.  [send], [receive],
    [close] and [onCancelled] are translated over a small monad that keeps the state and
    the effects of a call also when the call throws.  [Step] then runs a producer and a
    consumer coroutine, the reactor's queue of dispatched tasks, cancellation and [close]
    in any order.

    Coroutines, jobs and the reactor's resumer belong to kotlinx and neton-io: what a call
    learns from them (whether a job is active, whether the resumer takes a hand-off, the
    handle of a registration) is an argument, [Env]. *)
From stdpp Require Import relations.
From S2P Require Import Prelude Kotlin Ring.

(** ** The environment of the queue *)

Notation job := nat (only parsing).
Notation handle := nat (only parsing).

(** A continuation: the coroutine it resumes and [context[Job]]. *)
Record Continuation := { coroutine : nat; contextJob : option job }.

Inductive exn :=
| ClosedException
| CancellationException
| Uncaught (e : kt_exception).

(** What one call asks of kotlinx and neton-io: the answer of [ReactorResumer.resume], the two
    reads of [job.isActive] in [watch], and the handle [invokeOnCompletion] returns. *)
Record Env := { accepts : bool; isActive1 : job -> bool; isActive2 : job -> bool; newHandle : handle }.

Section Definitions.
Context {T : Type}.

(** What a resumed coroutine sees at its suspension point. *)
Inductive resumption :=
| Value (item : option T)
| Unit
| Exception (e : exn).

Inductive effect :=
| Dispatch (c : Continuation) (r : resumption)
| Register (j : job) (h : handle)
| Dispose (h : handle)
| Report.

Record ReactorQueue := {
  capacity : Z;
  items : Ring T;
  resumer : bool;
  takeWaiter : option Continuation;
  putWaiter : option Continuation;
  closed : bool;
  watchedA : option job; handleA : option handle;
  watchedB : option job; handleB : option handle }.

Definition set_items (s : ReactorQueue) (r : Ring T) : ReactorQueue :=
  {| capacity := capacity s; items := r; resumer := resumer s; takeWaiter := takeWaiter s; putWaiter := putWaiter s; closed := closed s;
     watchedA := watchedA s; handleA := handleA s; watchedB := watchedB s; handleB := handleB s |}.
Definition set_takeWaiter (s : ReactorQueue) (c : option Continuation) : ReactorQueue :=
  {| capacity := capacity s; items := items s; resumer := resumer s; takeWaiter := c; putWaiter := putWaiter s; closed := closed s;
     watchedA := watchedA s; handleA := handleA s; watchedB := watchedB s; handleB := handleB s |}.
Definition set_putWaiter (s : ReactorQueue) (c : option Continuation) : ReactorQueue :=
  {| capacity := capacity s; items := items s; resumer := resumer s; takeWaiter := takeWaiter s; putWaiter := c; closed := closed s;
     watchedA := watchedA s; handleA := handleA s; watchedB := watchedB s; handleB := handleB s |}.
Definition set_closed (s : ReactorQueue) : ReactorQueue :=
  {| capacity := capacity s; items := items s; resumer := resumer s; takeWaiter := takeWaiter s; putWaiter := putWaiter s; closed := true;
     watchedA := watchedA s; handleA := handleA s; watchedB := watchedB s; handleB := handleB s |}.
Definition set_watch (s : ReactorQueue) (ja : option job) (ha : option handle) (jb : option job) (hb : option handle) : ReactorQueue :=
  {| capacity := capacity s; items := items s; resumer := resumer s; takeWaiter := takeWaiter s; putWaiter := putWaiter s; closed := closed s;
     watchedA := ja; handleA := ha; watchedB := jb; handleB := hb |}.

(** ** Calls: state and effects survive an exception *)

Definition call (A : Type) : Type := ReactorQueue -> list effect * ReactorQueue * outcome exn A.

Definition ret {A} (a : A) : call A := fun s => ([], s, Ok a).
Definition throw {A} (e : exn) : call A := fun s => ([], s, Err e).
Definition get : call ReactorQueue := fun s => ([], s, Ok s).
Definition modify (f : ReactorQueue -> ReactorQueue) : call unit := fun s => ([], f s, Ok tt).
Definition emit (e : effect) : call unit := fun s => ([e], s, Ok tt).
Definition bind {A B} (m : call A) (k : A -> call B) : call B := fun s =>
  match m s with
  | (es, s', Ok a) => let '(es', s'', r) := k a s' in (es ++ es', s'', r)
  | (es, s', Err e) => (es, s', Err e)
  | (es, s', Fault f) => (es, s', Fault f)
  end.
(** A call of a [Ring] operation. *)
Definition lift {A} (m : kt A) : call A := fun s =>
  ([], s, match m with Ok a => Ok a | Err e => Err (Uncaught e) | Fault f => Fault f end).
End Definitions.
Arguments resumption : clear implicits.
Arguments effect : clear implicits.
Arguments ReactorQueue : clear implicits.
Arguments call : clear implicits.

Declare Scope call_scope.
Delimit Scope call_scope with call.
Notation "'let!' x := m 'in' k" := (bind m (fun x => k)) (at level 200, x pattern, m at level 100, k at level 200, right associativity) : call_scope.
Notation "'do' m ; k" := (bind m (fun _ => k)) (at level 200, m at level 100, k at level 200, right associativity) : call_scope.

Section Operations.
Context {T : Type} (env : Env).
Local Open Scope call_scope.

Definition newReactorQueue (cap : Z) (hasResumer : bool) : kt (ReactorQueue T) :=
  let* r := newRing (Z.min cap 16) in
  Ok {| capacity := cap; items := r; resumer := hasResumer; takeWaiter := None; putWaiter := None; closed := false;
        watchedA := None; handleA := None; watchedB := None; handleB := None |}.

Definition onRefused : call T unit := do modify set_closed; emit Report.

Definition resumeTake (c : Continuation) (item : option T) : call T unit :=
  let! s := get in
  if negb (resumer s) then emit (Dispatch c (Value item))
  else if accepts env then emit (Dispatch c (Value item)) else onRefused.

Definition resumePut (c : Continuation) : call T unit :=
  let! s := get in
  if negb (resumer s) then emit (Dispatch c Unit)
  else if accepts env then emit (Dispatch c Unit) else onRefused.

Definition offer (item : T) : call T bool :=
  let! s := get in
  if closed s then throw ClosedException
  else match takeWaiter s with
  | Some c => do modify (fun s => set_takeWaiter s None); do resumeTake c (Some item); ret true
  | None =>
      if rsize (items s) <? capacity s then
        let! r := lift (addLast (items s) item) in
        do modify (fun s => set_items s r);
        ret true
      else ret false
  end.

(** [handleA?.dispose()]. *)
Definition dispose (h : option handle) : call T unit := match h with Some h => emit (Dispose h) | None => ret tt end.

Definition watch (cont : Continuation) : call T unit :=
  match contextJob cont with
  | None => ret tt
  | Some j =>
      if negb (isActive1 env j) then throw CancellationException
      else
        let! s := get in
        if bool_decide (watchedA s = Some j) || bool_decide (watchedB s = Some j) then ret tt
        else
          let h := newHandle env in
          do emit (Register j h);
          if negb (isActive2 env j) then do emit (Dispose h); throw CancellationException
          else match watchedA s, watchedB s with
          | None, _ => modify (fun s => set_watch s (Some j) (Some h) (watchedB s) (handleB s))
          | _, None => modify (fun s => set_watch s (watchedA s) (handleA s) (Some j) (Some h))
          | _, _ => do dispose (handleA s); modify (fun s => set_watch s (watchedB s) (handleB s) (Some j) (Some h))
          end
  end.

(** A suspend function returns a value or [COROUTINE_SUSPENDED]. *)
Inductive suspend (A : Type) := Returned (a : A) | COROUTINE_SUSPENDED.
Arguments Returned {A} a.
Arguments COROUTINE_SUSPENDED {A}.

Definition parkTake (cont : Continuation) : call T (suspend (option T)) :=
  do watch cont; do modify (fun s => set_takeWaiter s (Some cont)); ret COROUTINE_SUSPENDED.

Definition parkPut (cont : Continuation) : call T (suspend unit) :=
  do watch cont; do modify (fun s => set_putWaiter s (Some cont)); ret COROUTINE_SUSPENDED.

(** The loop of [sendSlow], entered by [send] at [parkPut] and, when the coroutine is resumed, at the [offer] behind it. *)
Definition sendSlow (cont : Continuation) (item : T) : call T (suspend unit) := parkPut cont.
Definition sendSlow_resumed (cont : Continuation) (item : T) : call T (suspend unit) :=
  let! b := offer item in if b then ret (Returned tt) else parkPut cont.

Definition send (cont : Continuation) (item : T) : call T (suspend unit) :=
  let! b := offer item in if b then ret (Returned tt) else sendSlow cont item.

Definition receive (cont : Continuation) : call T (suspend (option T)) :=
  let! s := get in
  let! (x, r) := lift (removeFirstOrNull (items s)) in
  do modify (fun s => set_items s r);
  match x with
  | Some x =>
      do match putWaiter s with
         | Some c => do modify (fun s => set_putWaiter s None); resumePut c
         | None => ret tt
         end;
      ret (Returned (Some x))
  | None => if closed s then ret (Returned None) else parkTake cont
  end.

Definition close : call T unit :=
  let! s := get in
  if closed s then ret tt
  else
    do modify set_closed;
    do (if isEmpty (items s) then
          match takeWaiter s with
          | Some c => do modify (fun s => set_takeWaiter s None); resumeTake c None
          | None => ret tt
          end
        else ret tt);
    do match putWaiter s with
       | Some c => do modify (fun s => set_putWaiter s None); emit (Dispatch c (Exception ClosedException))
       | None => ret tt
       end;
    do dispose (handleA s);
    do dispose (handleB s);
    modify (fun s => set_watch s None None None None).

Definition onCancelled (j : job) : call T unit :=
  let! s := get in
  do match takeWaiter s with
     | Some c => if bool_decide (contextJob c = Some j)
                 then do modify (fun s => set_takeWaiter s None); emit (Dispatch c (Exception CancellationException))
                 else ret tt
     | None => ret tt
     end;
  let! s := get in
  match putWaiter s with
  | Some c => if bool_decide (contextJob c = Some j)
              then do modify (fun s => set_putWaiter s None); emit (Dispatch c (Exception CancellationException))
              else ret tt
  | None => ret tt
  end.
End Operations.
Arguments Returned {A} a.
Arguments COROUTINE_SUSPENDED {A}.
#[global] Arguments resumeTake : simpl never.
#[global] Arguments resumePut : simpl never.
#[global] Arguments watch : simpl never.
#[global] Arguments holds : simpl never.

(** ** A producer, a consumer and the reactor *)

Inductive task (T : Type) :=
| Resume (c : Continuation) (r : resumption T)
| CancelHop (j : job).
Arguments Resume {T} c r.
Arguments CancelHop {T} j.

(** The read loop: the packets still to send, or parked in [sendSlow] with one in hand. *)
Inductive producer_state (T : Type) :=
| Sending (todo : list T)
| SendParked (item : T) (todo : list T)
| SendFailed (rest : list T) (e : exn + fault).
Arguments Sending {T} todo.
Arguments SendParked {T} item todo.
Arguments SendFailed {T} rest e.

(** The handler loop: [receive() ?: break]. *)
Inductive consumer_state :=
| Receiving
| ReceiveParked
| Finished
| ReceiveFailed (e : exn + fault).

Record Sys (T : Type) := {
  queue : ReactorQueue T;
  producer : producer_state T;
  consumer : consumer_state;
  ready : list (task T);
  received : list T;
  registered : list (handle * job);
  cancelled : list job }.
Arguments queue {T} s : rename.
Arguments producer {T} s : rename.
Arguments consumer {T} s : rename.
Arguments ready {T} s : rename.
Arguments received {T} s : rename.
Arguments registered {T} s : rename.
Arguments cancelled {T} s : rename.

Section System.
Context {T : Type} (pjob cjob : option job).
Implicit Types (s : Sys T).

Definition pcont : Continuation := {| coroutine := 0; contextJob := pjob |}.
Definition ccont : Continuation := {| coroutine := 1; contextJob := cjob |}.

Definition with_producer s p : Sys T :=
  {| queue := queue s; producer := p; consumer := consumer s; ready := ready s; received := received s; registered := registered s; cancelled := cancelled s |}.
Definition with_consumer s c (xs : list T) : Sys T :=
  {| queue := queue s; producer := producer s; consumer := c; ready := ready s; received := received s ++ xs; registered := registered s; cancelled := cancelled s |}.
Definition with_queue s q (ts : list (task T)) (hs : list (handle * job)) : Sys T :=
  {| queue := q; producer := producer s; consumer := consumer s; ready := ts; received := received s; registered := hs; cancelled := cancelled s |}.

(** What the reactor and the jobs make of the effects of a call. *)
Definition tasks_of (es : list (effect T)) : list (task T) :=
  omap (fun e => match e with Dispatch c r => Some (Resume c r) | _ => None end) es.
Definition registrations (es : list (effect T)) (hs : list (handle * job)) : list (handle * job) :=
  foldl (fun hs e => match e with
    | Register j h => (h, j) :: hs
    | Dispose h => filter (fun p : handle * job => p.1 <> h) hs
    | _ => hs
    end) hs es.
Definition perform s (es : list (effect T)) (q : ReactorQueue T) : Sys T :=
  with_queue s q (ready s ++ tasks_of es) (registrations es (registered s)).

Definition run_send (m : call T (suspend unit)) (item : T) (todo : list T) s : Sys T :=
  let '(es, q, r) := m (queue s) in
  with_producer (perform s es q)
    match r with
    | Ok (Returned _) => Sending todo
    | Ok COROUTINE_SUSPENDED => SendParked item todo
    | Err e => SendFailed (item :: todo) (inl e)
    | Fault f => SendFailed (item :: todo) (inr f)
    end.

Definition run_receive (m : call T (suspend (option T))) s : Sys T :=
  let '(es, q, r) := m (queue s) in
  match r with
  | Ok (Returned (Some x)) => with_consumer (perform s es q) Receiving [x]
  | Ok (Returned None) => with_consumer (perform s es q) Finished []
  | Ok COROUTINE_SUSPENDED => with_consumer (perform s es q) ReceiveParked []
  | Err e => with_consumer (perform s es q) (ReceiveFailed (inl e)) []
  | Fault f => with_consumer (perform s es q) (ReceiveFailed (inr f)) []
  end.

Definition run_unit (m : call T unit) s : Sys T := let '(es, q, _) := m (queue s) in perform s es q.

(** A dispatched coroutine continues behind its suspension point. *)
Definition resume_producer env (r : resumption T) s : option (Sys T) :=
  match producer s, r with
  | SendParked item todo, Unit => Some (run_send (sendSlow_resumed env pcont item) item todo s)
  | SendParked item todo, Exception e => Some (with_producer s (SendFailed (item :: todo) (inl e)))
  | _, _ => None
  end.

Definition resume_consumer (r : resumption T) s : option (Sys T) :=
  match consumer s, r with
  | ReceiveParked, Value (Some x) => Some (with_consumer s Receiving [x])
  | ReceiveParked, Value None => Some (with_consumer s Finished [])
  | ReceiveParked, Exception e => Some (with_consumer s (ReceiveFailed (inl e)) [])
  | _, _ => None
  end.

Definition run_task env (t : task T) s : option (Sys T) :=
  match t with
  | Resume c r => if Nat.eqb (coroutine c) 0 then resume_producer env r s else resume_consumer r s
  | CancelHop j => Some (run_unit (onCancelled j) s)
  end.

(** What runs next on the reactor: a coroutine that did not suspend, or a dispatched task. *)
Inductive activity := Send | Receive | Task (i : nat).

Definition run_activity env (a : activity) s : option (Sys T) :=
  match a with
  | Send => match producer s with Sending (x :: todo) => Some (run_send (send env pcont x) x todo s) | _ => None end
  | Receive => match consumer s with Receiving => Some (run_receive (receive env ccont) s) | _ => None end
  | Task i => t ← ready s !! i; run_task env t (with_queue s (queue s) (delete i (ready s)) (registered s))
  end.

(** [job.cancel()], on any thread: the handlers registered for the job hop to the reactor. *)
Definition cancel_job (j : job) (hop : bool) s : Sys T :=
  {| queue := queue s; producer := producer s; consumer := consumer s;
     ready := ready s ++ ((fun _ => CancelHop j) <$> filter (fun p : handle * job => p.2 = j) (registered s)) ++ (if hop then [CancelHop j] else []);
     received := received s;
     registered := filter (fun p : handle * job => p.2 <> j) (registered s);
     cancelled := j :: cancelled s |}.

(** The answers a call gets: the resumer takes the hand-off, a job is active until it is cancelled, and a job of [race]
    is cancelled by another thread between the two reads of [watch]. *)
Definition env_at (race : list job) (h : handle) s : Env :=
  {| accepts := true; isActive1 := fun j => bool_decide (j ∉ cancelled s); isActive2 := fun j => bool_decide (j ∉ race ++ cancelled s); newHandle := h |}.

Definition jobs : list job := option_list pjob ++ option_list cjob.

(** A step of the reactor. *)
Inductive act_step s : Sys T -> Prop :=
| act_run a h s' : h ∉ (registered s).*1 -> run_activity (env_at [] h s) a s = Some s' -> act_step s s'
| act_race a h j hop s' : h ∉ (registered s).*1 -> j ∈ jobs -> j ∉ cancelled s ->
    run_activity (env_at [j] h s) a s = Some s' -> act_step s (cancel_job j hop s').

(** An event from outside: a job is cancelled, the connection closes. *)
Inductive outside_step s : Sys T -> Prop :=
| outside_cancel j : j ∈ jobs -> j ∉ cancelled s -> outside_step s (cancel_job j false s)
| outside_close h : closed (queue s) = false -> outside_step s (run_unit (close (env_at [] h s)) s).

Definition step s s' : Prop := act_step s s' \/ outside_step s s'.

Definition started (q : ReactorQueue T) (input : list T) : Sys T :=
  {| queue := q; producer := Sending input; consumer := Receiving; ready := []; received := []; registered := []; cancelled := [] |}.
End System.

(** ** What each call does while the resumer accepts *)

Lemma bind_Ok_call {T A B} (m : call T A) (k : A -> call T B) s es s' a :
  m s = (es, s', Ok a) -> bind m k s = let '(es', s'', r) := k a s' in (es ++ es', s'', r).
Proof. intros H. unfold bind. by rewrite H. Qed.

Section Calls.
Context {T : Type}.
Implicit Types (s q : ReactorQueue T) (qs : list T) (env : Env).

Lemma resumeTake_accepted env c x s : accepts env = true -> resumeTake env c x s = ([Dispatch c (Value x)], s, Ok tt).
Proof. intros He. unfold resumeTake, bind, get, emit. destruct (resumer s); simpl; [by rewrite He|done]. Qed.

Lemma resumePut_accepted env c s : accepts env = true -> resumePut env c s = ([Dispatch c Unit], s, Ok tt).
Proof. intros He. unfold resumePut, bind, get, emit. destruct (resumer s); simpl; [by rewrite He|done]. Qed.

Lemma offer_closed env x s : closed s = true -> offer env x s = ([], s, Err ClosedException).
Proof. intros Hc. unfold offer, bind, get. by rewrite Hc. Qed.

Lemma offer_hand_over env x c s : accepts env = true -> closed s = false -> takeWaiter s = Some c ->
  offer env x s = ([Dispatch c (Value (Some x))], set_takeWaiter s None, Ok true).
Proof. intros He Hc Ht. unfold offer, bind, get, modify. rewrite Hc, Ht. cbn. by rewrite resumeTake_accepted. Qed.

Lemma offer_append env x qs s : closed s = false -> takeWaiter s = None -> holds (items s) qs -> zlen qs < capacity s < 2 ^ 29 ->
  exists r, holds r (qs ++ [x]) /\ offer env x s = ([], set_items s r, Ok true).
Proof.
  intros Hc Ht Hq Hl. destruct (holds_addLast (items s) qs x Hq) as (r & Hr & Hq'); [lia|]. exists r. split; [done|].
  unfold offer, bind, get, modify, lift, ret. rewrite Hc, Ht. pose proof Hq as (_ & _ & -> & _).
  by rewrite (proj2 (Z.ltb_lt _ _)), Hr by lia.
Qed.

Lemma offer_full env x qs s : closed s = false -> takeWaiter s = None -> holds (items s) qs -> zlen qs = capacity s ->
  offer env x s = ([], s, Ok false).
Proof.
  intros Hc Ht Hq Hl. unfold offer, bind, get, ret. rewrite Hc, Ht. pose proof Hq as (_ & _ & -> & _).
  by rewrite (proj2 (Z.ltb_ge _ _)) by lia.
Qed.

Lemma receive_item env c x qs s : accepts env = true -> holds (items s) (x :: qs) ->
  exists r, holds r qs /\
    receive env c s = (match putWaiter s with Some p => [Dispatch p Unit] | None => [] end, set_putWaiter (set_items s r) None, Ok (Returned (Some x))).
Proof.
  intros He Hq. destruct (holds_pop (items s) x qs Hq) as (r & Hr & Hq'). exists r. split; [done|].
  unfold receive, bind, get, modify, lift, ret. cbn. rewrite Hr. cbn. destruct (putWaiter s) as [p|] eqn:Hp; [|by destruct s; cbn in *; subst].
  by rewrite resumePut_accepted.
Qed.

Lemma removeFirst_empty (r : Ring T) : holds r [] -> removeFirstOrNull r = Ok (None, r).
Proof. intros (_ & _ & Hl & _). unfold removeFirstOrNull. by rewrite Hl. Qed.

Lemma set_items_same s : set_items s (items s) = s.
Proof. by destruct s. Qed.

Lemma receive_closed env c s : holds (items s) [] -> closed s = true -> receive env c s = ([], s, Ok (Returned None)).
Proof.
  intros Hq Hc. unfold receive, bind, get, modify, lift, ret. cbn. rewrite removeFirst_empty by done. cbn. by rewrite Hc, set_items_same.
Qed.

Lemma receive_empty env c s : holds (items s) [] -> closed s = false -> receive env c s = parkTake env c s.
Proof.
  intros Hq Hc. unfold receive, bind, get, modify, lift, ret. cbn. rewrite removeFirst_empty by done. cbn. rewrite Hc, set_items_same.
  by destruct (parkTake env c s) as [[es s'] r].
Qed.

(** The waiters [close] resumes, and what they see. *)
Definition released s : list (effect T) :=
  match takeWaiter s with Some c => if isEmpty (items s) then [Dispatch c (Value None)] else [] | None => [] end ++
  match putWaiter s with Some c => [Dispatch c (Exception ClosedException)] | None => [] end.

Definition disposals s : list (effect T) := (Dispose <$> option_list (handleA s)) ++ (Dispose <$> option_list (handleB s)).

Definition shut s : ReactorQueue T :=
  {| capacity := capacity s; items := items s; resumer := resumer s;
     takeWaiter := if isEmpty (items s) then None else takeWaiter s; putWaiter := None; closed := true;
     watchedA := None; handleA := None; watchedB := None; handleB := None |}.

Lemma close_open env s : accepts env = true -> closed s = false -> close env s = (released s ++ disposals s, shut s, Ok tt).
Proof.
  intros He Hc. unfold close, bind, get, modify, ret, released, disposals, shut, dispose, emit. rewrite Hc. cbn.
  destruct s as [cap its res [t|] [p|] cl wA [hA|] wB [hB|]]; cbn in *; destruct (isEmpty its); cbn; try rewrite resumeTake_accepted by done; reflexivity.
Qed.

Definition hit (j : job) (w : option Continuation) : option Continuation :=
  match w with Some c => if bool_decide (contextJob c = Some j) then Some c else None | None => None end.
Definition spared (j : job) (w : option Continuation) : option Continuation :=
  match w with Some c => if bool_decide (contextJob c = Some j) then None else Some c | None => None end.

Lemma onCancelled_spec j s :
  onCancelled j s = ((fun c => Dispatch c (Exception CancellationException)) <$> option_list (hit j (takeWaiter s)) ++ option_list (hit j (putWaiter s)),
                     set_putWaiter (set_takeWaiter s (spared j (takeWaiter s))) (spared j (putWaiter s)), Ok tt).
Proof.
  unfold onCancelled, bind, get, modify, ret, emit, hit, spared.
  destruct s as [cap its res [t|] [p|] cl wA hA wB hB]; cbn; repeat (case_bool_decide; cbn); reflexivity.
Qed.

Lemma send_throws env c x s es s' e : offer env x s = (es, s', Err e) -> send env c x s = (es, s', Err e).
Proof. intros H. unfold send, bind. by rewrite H. Qed.

Lemma send_returns env c x s es s' : offer env x s = (es, s', Ok true) -> send env c x s = (es, s', Ok (Returned tt)).
Proof. intros H. unfold send, bind. rewrite H. cbn. by rewrite app_nil_r. Qed.

Lemma send_parks env c x s : offer env x s = ([], s, Ok false) -> send env c x s = parkPut env c s.
Proof. intros H. unfold send, sendSlow. rewrite (bind_Ok_call _ _ _ _ _ _ H). by destruct (parkPut env c s) as [[es s'] r]. Qed.

Lemma parkPut_spec env c s es s' r : watch env c s = (es, s', r) ->
  parkPut env c s = match r with
    | Ok _ => (es, set_putWaiter s' (Some c), Ok COROUTINE_SUSPENDED)
    | Err e => (es, s', Err e)
    | Fault f => (es, s', Fault f)
    end.
Proof. intros H. unfold parkPut, bind, modify, ret. rewrite H. destruct r; [|done..]. by rewrite !app_nil_r. Qed.

Lemma parkTake_spec env c s es s' r : watch env c s = (es, s', r) ->
  parkTake env c s = match r with
    | Ok _ => (es, set_takeWaiter s' (Some c), Ok COROUTINE_SUSPENDED)
    | Err e => (es, s', Err e)
    | Fault f => (es, s', Fault f)
    end.
Proof. intros H. unfold parkTake, bind, modify, ret. rewrite H. destruct r; [|done..]. by rewrite !app_nil_r. Qed.
End Calls.

(** ** The invariant of the running system *)

Definition pending {T} (k : nat) (l : list (task T)) : list (resumption T) :=
  omap (fun t => match t with Resume c r => if Nat.eqb (coroutine c) k then Some r else None | CancelHop _ => None end) l.

(** The item on its way to a parked receiver. *)
Definition handed {T} (l : list (task T)) : list T :=
  omap (fun r => match r with Value x => x | _ => None end) (pending 1 l).

Definition remaining {T} (p : producer_state T) : list T :=
  match p with Sending todo => todo | SendParked x todo => x :: todo | SendFailed rest _ => rest end.

(** The steps the system can still take before the outside interferes again. *)
Definition producer_weight {T} (p : producer_state T) : nat :=
  match p with Sending todo => 4 * length todo | SendParked _ todo => 4 * length todo + 2 | SendFailed _ _ => 0 end.
Definition consumer_weight (c : consumer_state) : nat := match c with Receiving => 1 | _ => 0 end.
Definition task_weight {T} (t : task T) : nat := match t with Resume _ _ => 2 | CancelHop _ => 5 end.
Definition weight {T} (s : Sys T) (qs : list T) : nat :=
  producer_weight (producer s) + consumer_weight (consumer s) + 3 * length qs + sum_list_with task_weight (ready s).

Definition advances {T} (s : Sys T) (qs : list T) (s' : Sys T) (qs' : list T) : Prop :=
  closed (queue s') = closed (queue s) /\ cancelled s' = cancelled s /\ (weight s' qs' < weight s qs)%nat.

#[global] Arguments pending : simpl never.
#[global] Arguments handed : simpl never.

(** The producer is not parked: its state is another. *)
Ltac not_parked := intros; intros (? & ? & ?); congruence.

Section Invariant.
Context {T : Type} (pjob cjob : option job).
Implicit Types (s : Sys T) (q : ReactorQueue T) (qs : list T) (l : list (task T)).
Notation pcont := (pcont pjob).
Notation ccont := (ccont cjob).
Notation jobs := (jobs pjob cjob).

(** A coroutine is parked in its slot with nothing dispatched to it, or out of it with exactly one resumption on its way;
    otherwise its slot is empty and nothing is on its way. *)
Definition slot_ok (parked : Prop) (waiter : option Continuation) (c : Continuation) (pend : list (resumption T))
    (P : Prop) (Q : resumption T -> Prop) : Prop :=
  (parked /\ waiter = Some c /\ pend = [] /\ P) \/
  (parked /\ waiter = None /\ exists r, pend = [r] /\ Q r) \/
  (~ parked /\ waiter = None /\ pend = []).

(** A parked coroutine hears of its cancellation: the hop is under way, or its job is active and watched. *)
Definition woken (oj : option job) q l (cs : list job) : Prop :=
  forall j, oj = Some j -> CancelHop j ∈ l \/ (j ∉ cs /\ (watchedA q = Some j \/ watchedB q = Some j)).

Definition cancelled_by (oj : option job) (cs : list job) : Prop := exists j, oj = Some j /\ j ∈ cs.

Definition consumer_sees q qs (cs : list job) (r : resumption T) : Prop :=
  match r with
  | Value (Some _) => True
  | Value None => closed q = true /\ qs = []
  | Unit => False
  | Exception e => e = CancellationException /\ cancelled_by cjob cs
  end.

Definition send_fails q (cs : list job) (e : exn) : Prop :=
  e = ClosedException /\ closed q = true \/ e = CancellationException /\ cancelled_by pjob cs.

Definition producer_sees q (cs : list job) (r : resumption T) : Prop :=
  match r with
  | Value _ => False
  | Unit => True
  | Exception e => send_fails q cs e
  end.

Definition slot_watch (hs : list (handle * job)) (cs : list job) (w : option job) (h : option handle) : Prop :=
  forall j, w = Some j -> j ∈ jobs /\ (j ∉ cs -> exists k, h = Some k /\ (k, j) ∈ hs).

(** The watched jobs are the producer's and the consumer's, each in one slot, and a watched job that is active has its handler registered. *)
Definition watch_ok q (hs : list (handle * job)) (cs : list job) : Prop :=
  slot_watch hs cs (watchedA q) (handleA q) /\ slot_watch hs cs (watchedB q) (handleB q) /\
  (watchedA q = None -> watchedB q = None) /\ (is_Some (watchedA q) -> watchedA q <> watchedB q).

Definition task_ok (cs : list job) (t : task T) : Prop :=
  match t with Resume c _ => c = pcont \/ c = ccont | CancelHop j => j ∈ cs end.

Definition outcome_ok q qs (cs : list job) (p : producer_state T) (c : consumer_state) : Prop :=
  match p with SendFailed _ (inl e) => send_fails q cs e | SendFailed _ (inr _) => False | _ => True end /\
  match c with
  | ReceiveFailed (inl e) => e = CancellationException /\ cancelled_by cjob cs
  | ReceiveFailed (inr _) => False
  | Finished => closed q = true /\ qs = []
  | _ => True
  end.

Record Inv (input : list T) (race : list job) s qs : Prop := {
  inv_holds : holds (items (queue s)) qs;
  inv_capacity : 1 <= capacity (queue s) < 2 ^ 29;
  inv_size : zlen qs <= capacity (queue s);
  inv_ready : Forall (task_ok (cancelled s)) (ready s);
  inv_consumer : slot_ok (consumer s = ReceiveParked) (takeWaiter (queue s)) ccont (pending 1 (ready s))
    (qs = [] /\ closed (queue s) = false /\ woken cjob (queue s) (ready s) (cancelled s)) (consumer_sees (queue s) qs (race ++ cancelled s));
  inv_producer : slot_ok (exists x todo, producer s = SendParked x todo) (putWaiter (queue s)) pcont (pending 0 (ready s))
    (zlen qs = capacity (queue s) /\ closed (queue s) = false /\ woken pjob (queue s) (ready s) (cancelled s))
    (producer_sees (queue s) (race ++ cancelled s));
  inv_fifo : input = received s ++ handed (ready s) ++ qs ++ remaining (producer s);
  inv_watch : watch_ok (queue s) (registered s) (cancelled s);
  inv_outcome : outcome_ok (queue s) qs (race ++ cancelled s) (producer s) (consumer s) }.

(** *** Tasks *)

Lemma pending_app k l l' : pending k (l ++ l') = pending k l ++ pending k l'.
Proof. apply omap_app. Qed.

Lemma handed_app l l' : handed (l ++ l') = handed l ++ handed l'.
Proof. unfold handed. by rewrite pending_app, omap_app. Qed.

Lemma tasks_of_app (es es' : list (effect T)) : tasks_of (es ++ es') = tasks_of es ++ tasks_of es'.
Proof. apply omap_app. Qed.

(** Taking a resumption out of the reactor's queue. *)
Lemma pending_take k c r r' l1 l2 : coroutine c = k -> pending k (l1 ++ Resume c r :: l2) = [r'] -> r = r' /\ pending k (l1 ++ l2) = [].
Proof.
  intros Hc. rewrite !pending_app. unfold pending at 2. cbn. rewrite Hc, Nat.eqb_refl. fold (pending k l2).
  intros H. destruct (pending k l1) as [|y l]; cbn in *; [by simplify_eq|]. simplify_eq. by destruct l.
Qed.

Lemma pending_other k c r l1 l2 : coroutine c <> k -> pending k (l1 ++ Resume c r :: l2) = pending k (l1 ++ l2).
Proof. intros Hc. rewrite !pending_app. f_equal. unfold pending at 1. cbn. by rewrite (proj2 (Nat.eqb_neq _ _) Hc). Qed.

Lemma pending_hop k j l1 l2 : pending k (l1 ++ CancelHop j :: l2) = pending k (l1 ++ l2).
Proof. by rewrite !pending_app. Qed.

Lemma pending_hops k j (hs : list (handle * job)) : pending (T := T) k ((fun _ => CancelHop j) <$> hs) = [].
Proof. induction hs as [|h hs IH]; [done|]. apply IH. Qed.

Lemma hop_elem j c r l1 l2 : CancelHop (T := T) j ∈ l1 ++ Resume c r :: l2 -> CancelHop (T := T) j ∈ l1 ++ l2.
Proof. rewrite !elem_of_app, elem_of_cons. intros [H|[H|H]]; [by left|done|by right]. Qed.

Lemma hop_elem_ne j j' l1 l2 : j <> j' -> CancelHop (T := T) j ∈ l1 ++ CancelHop j' :: l2 -> CancelHop (T := T) j ∈ l1 ++ l2.
Proof. rewrite !elem_of_app, elem_of_cons. intros Hj [H|[H|H]]; [by left|by simplify_eq|by right]. Qed.

(** *** Weakening *)

Lemma woken_mono oj q q' l l' cs :
  (forall j, CancelHop (T := T) j ∈ l -> CancelHop (T := T) j ∈ l') -> (forall j, watchedA q = Some j \/ watchedB q = Some j -> watchedA q' = Some j \/ watchedB q' = Some j) ->
  woken oj q l cs -> woken oj q' l' cs.
Proof. intros Hl Hq H j Hj. destruct (H j Hj) as [Hh|[Hc Hw]]; [left; by apply Hl|right; by split; [|apply Hq]]. Qed.

Lemma slot_ok_mono parked w c pend (P P' : Prop) (Q Q' : resumption T -> Prop) :
  (P -> P') -> (forall r, Q r -> Q' r) -> slot_ok parked w c pend P Q -> slot_ok parked w c pend P' Q'.
Proof. intros HP HQ [(?&?&?&?)|[(?&?&r&?&?)|?]]; [left|right; left|right; right]; naive_solver. Qed.

Lemma cancelled_by_mono oj cs cs' : cs ⊆ cs' -> cancelled_by oj cs -> cancelled_by oj cs'.
Proof. intros H (j & Hj & Hc). exists j. auto. Qed.

(** *** [watch]: with two jobs no watch is ever evicted *)

Definition same_queue q q' : Prop :=
  capacity q' = capacity q /\ items q' = items q /\ takeWaiter q' = takeWaiter q /\ putWaiter q' = putWaiter q /\ closed q' = closed q /\
  forall j, watchedA q = Some j \/ watchedB q = Some j -> watchedA q' = Some j \/ watchedB q' = Some j.

Lemma two_jobs (a b j : job) : a ∈ jobs -> b ∈ jobs -> a <> b -> j ∈ jobs -> j = a \/ j = b.
Proof. unfold jobs. destruct pjob, cjob; cbn; rewrite ?elem_of_cons, ?elem_of_nil; lia. Qed.

Lemma watch_fresh q hs cs j h : watch_ok q hs cs -> j ∈ jobs -> watchedA q <> Some j -> watchedB q <> Some j ->
  watchedA q = None /\ watch_ok (set_watch q (Some j) (Some h) (watchedB q) (handleB q)) ((h, j) :: hs) cs \/
  is_Some (watchedA q) /\ watchedB q = None /\ watch_ok (set_watch q (watchedA q) (handleA q) (Some j) (Some h)) ((h, j) :: hs) cs.
Proof.
  intros (HA & HB & Hab & Hne) Hj HnA HnB.
  assert (forall w k, slot_watch hs cs w k -> slot_watch ((h, j) :: hs) cs w k) as Hmono.
  { intros w k H j' Hj'. destruct (H j' Hj') as [? H']. split; [done|]. intros Hc. destruct (H' Hc) as (k' & ? & ?). exists k'. split; [done|]. by right. }
  assert (slot_watch ((h, j) :: hs) cs (Some j) (Some h)) as Hnew.
  { intros j' [= <-]. split; [done|]. intros _. exists h. split; [done|]. by left. }
  destruct (watchedA q) as [a|] eqn:EA.
  - right. split; [by eexists|]. destruct (watchedB q) as [b|] eqn:EB.
    + destruct (HA a eq_refl) as [Ha _]. destruct (HB b eq_refl) as [Hb _]. exfalso.
      destruct (two_jobs a b j) as [-> | ->]; try done. intros ->. by destruct (Hne (ltac:(by eexists))).
    + split; [done|]. split; [by apply Hmono|]. split; [by apply Hnew|]. cbn. split; [done|congruence].
  - left. split; [done|]. split; [by apply Hnew|]. split; [by apply Hmono|]. cbn. split; [done|congruence].
Qed.

Lemma registrations_fresh (h : handle) (j : job) (hs : list (handle * job)) : h ∉ hs.*1 ->
  registrations [Register (T := T) j h; Dispose h] hs = hs.
Proof.
  intros Hh. cbn [registrations foldl]. rewrite filter_cons_False by (cbn; tauto). induction hs as [|[k j'] hs IH]; [done|].
  cbn in Hh. rewrite elem_of_cons in Hh. rewrite filter_cons_True by (cbn; intros ->; tauto). f_equal. apply IH. tauto.
Qed.

Lemma watch_spec race h s c oj :
  contextJob c = oj -> (forall j, oj = Some j -> j ∈ jobs) -> h ∉ (registered s).*1 -> watch_ok (queue s) (registered s) (cancelled s) ->
  exists es q' r, watch (env_at race h s) c (queue s) = (es, q', r) /\ tasks_of es = [] /\ same_queue (queue s) q' /\
    watch_ok q' (registrations es (registered s)) (cancelled s) /\
    match r with
    | Ok _ => forall j, oj = Some j -> j ∉ cancelled s /\ (watchedA q' = Some j \/ watchedB q' = Some j)
    | Err e => e = CancellationException /\ cancelled_by oj (race ++ cancelled s)
    | Fault _ => False
    end.
Proof.
  intros Hc Hj Hh Hw. assert (same_queue (queue s) (queue s)) as Hrefl by done.
  unfold watch. rewrite Hc. destruct oj as [j|]; [|by exists [], (queue s), (Ok tt)]. specialize (Hj j eq_refl).
  cbn [env_at isActive1 isActive2 newHandle]. case_bool_decide as Hcan; cbn [negb]; [|exists [], (queue s), (Err CancellationException); do 5 (split; [done|]); exists j; split; [done|];
    rewrite elem_of_app; right; destruct (decide (j ∈ cancelled s)); tauto].
  destruct (bool_decide (watchedA (queue s) = Some j) || bool_decide (watchedB (queue s) = Some j)) eqn:E.
  { exists [], (queue s), (Ok tt). unfold bind, get. cbn beta iota. rewrite E. do 4 (split; [done|]). intros ? [= <-].
    apply orb_true_iff in E. rewrite !bool_decide_eq_true in E. done. }
  unfold bind at 1, get. cbn beta iota. rewrite E. apply orb_false_iff in E. rewrite !bool_decide_eq_false in E. destruct E as [EA EB].
  unfold bind, emit. cbn beta iota. case_bool_decide as Hr; cbn beta iota delta [negb modify throw].
  2: { exists [Register j h; Dispose h], (queue s), (Err CancellationException). rewrite registrations_fresh by done.
       do 5 (split; [done|]). exists j. split; [done|]. by destruct (decide (j ∈ race ++ cancelled s)). }
  destruct (watch_fresh (queue s) (registered s) (cancelled s) j h) as [[HA Hok]|([a Ha] & HB & Hok)]; try done.
  - rewrite HA. eexists _, _, _. split; [reflexivity|]. split; [done|]. split; [|split; [exact Hok|]].
    + do 5 (split; [done|]). cbn. intros k [Hk|Hk]; [congruence|by right].
    + intros ? [= <-]. split; [done|]. by left.
  - rewrite Ha, HB. eexists _, _, _. split; [reflexivity|]. split; [done|]. split; [|split; [exact Hok|]].
    + do 5 (split; [done|]). cbn. intros k [Hk|Hk]; [left; congruence|congruence].
    + intros ? [= <-]. split; [done|]. by right.
Qed.

(** *** The steps *)

Lemma slot_idle (parked : Prop) w c pend P Q : slot_ok parked w c pend P Q -> ~ parked -> w = None /\ pend = [].
Proof. intros [(?&_)|[(?&_)|(_ & H)]]; tauto. Qed.

Lemma in_jobs_p j : pjob = Some j -> j ∈ jobs.
Proof. intros ->. unfold jobs. cbn. by left. Qed.

Lemma in_jobs_c j : cjob = Some j -> j ∈ jobs.
Proof. intros ->. unfold jobs. apply elem_of_app. right. by left. Qed.

Lemma Inv_race input race s qs : Inv input [] s qs -> Inv input race s qs.
Proof.
  intros [Hq Hcap Hsz Hr Hc Hpr Hf Hw Ho]. assert (forall oj, cancelled_by oj (cancelled s) -> cancelled_by oj (race ++ cancelled s)) as Hm.
  { intros oj. apply cancelled_by_mono. intros j. rewrite elem_of_app. by right. }
  split; try done; cbn in *.
  - revert Hc. apply slot_ok_mono; [done|]. intros [[|]| |]; cbn; [done..|]. intros [-> ?]. auto.
  - revert Hpr. apply slot_ok_mono; [done|]. intros [| |]; cbn; [done..|]. intros [[-> ?]|[-> ?]]; [by left|right; auto].
  - destruct Ho as [Ho1 Ho2]. split.
    + destruct (producer s) as [| |? [|]]; try done. destruct Ho1 as [[-> ?]|[-> ?]]; [by left|right; auto].
    + destruct (consumer s) as [| | |[|]]; try done. destruct Ho2 as [-> ?]. auto.
Qed.

Lemma slot_not_parked (parked parked' : Prop) w c pend P Q (P' : Prop) (Q' : resumption T -> Prop) :
  slot_ok parked w c pend P Q -> ~ parked -> ~ parked' -> slot_ok parked' w c pend P' Q'.
Proof. intros H Hn Hn'. destruct (slot_idle _ _ _ _ _ _ H Hn) as [-> ->]. right. by right. Qed.

Definition consumer_slot parked q qs l cs ds : Prop :=
  slot_ok parked (takeWaiter q) ccont (pending 1 l) (qs = [] /\ closed q = false /\ woken cjob q l cs) (consumer_sees q qs ds).
Definition producer_slot parked q qs l cs ds : Prop :=
  slot_ok parked (putWaiter q) pcont (pending 0 l) (zlen qs = capacity q /\ closed q = false /\ woken pjob q l cs) (producer_sees q ds).

Lemma same_consumer parked q q' qs l cs ds : same_queue q q' -> consumer_slot parked q qs l cs ds -> consumer_slot parked q' qs l cs ds.
Proof.
  intros (_ & _ & H3 & _ & H5 & H6). unfold consumer_slot, consumer_sees. rewrite H3, H5. apply slot_ok_mono; [|done].
  intros (? & ? & Hk). split; [done|]. split; [done|]. by eapply woken_mono; [| |exact Hk].
Qed.

Lemma same_producer parked q q' qs l cs ds : same_queue q q' -> producer_slot parked q qs l cs ds -> producer_slot parked q' qs l cs ds.
Proof.
  intros (H1 & _ & _ & H4 & H5 & H6). unfold producer_slot, producer_sees, send_fails. rewrite H1, H4, H5. apply slot_ok_mono; [|done].
  intros (? & ? & Hk). split; [done|]. split; [done|]. by eapply woken_mono; [| |exact Hk].
Qed.

(** The effect of a call on the weight, given what its coroutine was doing. *)
Ltac advance H :=
  split; [cbn; congruence|split; [done|]]; unfold weight; cbn -[tasks_of];
  repeat match goal with E : tasks_of _ = [] |- _ => rewrite E; clear E end; rewrite ?H, ?sum_list_with_app, ?length_app; cbn; lia.

Lemma send_inv input race h s qs x todo :
  producer s = Sending (x :: todo) -> h ∉ (registered s).*1 -> Inv input [] s qs ->
  exists qs', let s' := run_send (send (env_at race h s) pcont x) x todo s in Inv input race s' qs' /\ advances s qs s' qs'.
Proof.
  intros Hp Hh HI. apply (Inv_race _ race) in HI as [Hq Hcap Hsz Hr Hc Hpr Hf Hw [Ho1 Ho2]]. set (env := env_at race h s).
  destruct (slot_idle _ _ _ _ _ _ Hpr) as [Hpw Hpd]; [not_parked|]. rewrite Hp in Hf.
  assert (closed (queue s) = true \/ closed (queue s) = false) as [Hcl|Hcl] by (destruct (closed (queue s)); auto).
  - exists qs. unfold run_send. rewrite (send_throws _ _ _ _ _ _ _ (offer_closed env x _ Hcl)). split; [|advance Hp].
    split; cbn; rewrite ?app_nil_r; try done.
    + eapply slot_not_parked; [exact Hpr|not_parked..].
    + split; [by left|done].
  - destruct (takeWaiter (queue s)) as [c|] eqn:Htw.
    + destruct Hc as [(Hpk & [= ->] & Hpc & -> & _ & Hwk)|[(_ & ? & _)|(_ & ? & _)]]; [|done..].
      exists []. unfold run_send. rewrite (send_returns _ _ _ _ _ _ (offer_hand_over env x ccont _ eq_refl Hcl Htw)). split; [|advance Hp].
      split; cbn; rewrite ?pending_app, ?Hpc, ?Hpd, ?handed_app; try done.
      * apply Forall_app. split; [done|]. constructor; [by right|done].
      * right. left. split; [done|]. split; [done|]. by exists (Value (Some x)).
      * right. right. split; [not_parked|done].
      * rewrite Hf. unfold handed at 1 2. rewrite Hpc. done.
    + destruct (decide (zlen qs < capacity (queue s))) as [Hlt|Hge].
      * destruct (offer_append env x qs (queue s) Hcl Htw Hq) as (r & Hr' & Hof); [lia|]. exists (qs ++ [x]).
        unfold run_send. rewrite (send_returns _ _ _ _ _ _ Hof). split; [|advance Hp].
        split; cbn; rewrite ?app_nil_r; try done.
        -- rewrite zlen_app. unfold zlen at 2. cbn. lia.
        -- rewrite Htw. revert Hc. intros [(_ & ? & _)|[(Hpk & _ & r' & Hpc & Hcs)|H]]; [done| |by right; right].
           right. left. split; [done|]. split; [done|]. exists r'. split; [done|]. destruct r' as [[|]| |]; try done. cbn in Hcs. destruct Hcs; congruence.
        -- eapply slot_not_parked; [exact Hpr|not_parked..].
        -- rewrite Hf. cbn. by rewrite <- !app_assoc.
        -- split; [done|]. destruct (consumer s); try done. by destruct Ho2 as [? _]; congruence.
      * assert (zlen qs = capacity (queue s)) as Hfull by lia.
        destruct (watch_spec race h s pcont pjob) as (es & q' & r & Hwt & Hts & Hsame & Hw' & Hres); try done; [apply in_jobs_p|]. fold env in Hwt.
        rewrite <- Htw in Hc. apply (same_consumer _ _ _ _ _ _ _ Hsame) in Hc. destruct Hsame as (Hs1 & Hs2 & Hs3 & Hs4 & Hs5 & Hs6).
        unfold run_send. rewrite (send_parks _ _ _ _ (offer_full env x qs (queue s) Hcl Htw Hq Hfull)). rewrite (parkPut_spec _ _ _ _ _ _ Hwt).
        exists qs. destruct r as [[]|e|]; [| |done].
        -- split; [|advance Hp]. split; cbn; rewrite ?Hts, ?app_nil_r; try done; rewrite ?Hs1, ?Hs2, ?Hs5; try done.
           ++ left. split; [by exists x, todo|]. split; [done|]. split; [done|]. split; [done|]. split; [done|].
              intros j Hj. right. by apply Hres.
           ++ split; [done|]. destruct (consumer s); try done. cbn. by rewrite Hs5.
        -- destruct Hres as [-> Hres]. split; [|advance Hp]. split; cbn; rewrite ?Hts, ?app_nil_r; try done; rewrite ?Hs1, ?Hs2, ?Hs4, ?Hs5; try done.
           ++ eapply slot_not_parked; [exact Hpr|not_parked..].
           ++ split; [by right|]. destruct (consumer s); try done. cbn. by rewrite Hs5.
Qed.

Lemma handed_nil l : pending 1 l = [] -> handed l = [].
Proof. intros H. unfold handed. by rewrite H. Qed.

Lemma closed_cases q : closed q = true \/ closed q = false.
Proof. destruct (closed q); auto. Qed.

Lemma receive_inv input race h s qs :
  consumer s = Receiving -> h ∉ (registered s).*1 -> Inv input [] s qs ->
  exists qs', let s' := run_receive (receive (env_at race h s) ccont) s in Inv input race s' qs' /\ advances s qs s' qs'.
Proof.
  intros Hcs Hh HI. apply (Inv_race _ race) in HI as [Hq Hcap Hsz Hr Hc Hpr Hf Hw [Ho1 Ho2]]. set (env := env_at race h s).
  destruct (slot_idle _ _ _ _ _ _ Hc) as [Htw Hcd]; [congruence|]. rewrite (handed_nil _ Hcd) in Hf. unfold run_receive.
  destruct qs as [|x qs].
  - exists []. destruct (closed_cases (queue s)) as [Hcl|Hcl].
    + rewrite (receive_closed env ccont _ Hq Hcl). split; [|advance Hcs]. split; cbn; rewrite ?app_nil_r, ?(handed_nil _ Hcd); try done.
      eapply slot_not_parked; [exact Hc|congruence..].
    + rewrite (receive_empty env ccont _ Hq Hcl).
      destruct (watch_spec race h s ccont cjob) as (es & q' & r & Hwt & Hts & Hsame & Hw' & Hres); try done; [apply in_jobs_c|]. fold env in Hwt.
      rewrite (parkTake_spec _ _ _ _ _ _ Hwt). apply (same_producer _ _ _ _ _ _ _ Hsame) in Hpr. destruct Hsame as (Hs1 & Hs2 & Hs3 & Hs4 & Hs5 & Hs6).
      destruct r as [[]|e|]; [| |done].
      * split; [|advance Hcs]. split; cbn; rewrite ?Hts, ?app_nil_r, ?(handed_nil _ Hcd); try done; rewrite ?Hs1, ?Hs2, ?Hs5; try done.
        -- left. do 5 (split; [done|]). intros j Hj. right. by apply Hres.
        -- split; [|done]. destruct (producer s) as [| |? [e|]]; try done. unfold send_fails in *. cbn. by rewrite Hs5.
      * destruct Hres as [-> Hres]. split; [|advance Hcs]. split; cbn; rewrite ?Hts, ?app_nil_r, ?(handed_nil _ Hcd); try done; rewrite ?Hs1, ?Hs2, ?Hs5; try done.
        -- rewrite Hs3. eapply slot_not_parked; [exact Hc|congruence..].
        -- split; [|done]. destruct (producer s) as [| |? [e|]]; try done. unfold send_fails in *. cbn. by rewrite Hs5.
  - destruct (receive_item env ccont x qs (queue s) eq_refl Hq) as (r & Hr' & ->). exists qs. rewrite zlen_cons in Hsz.
    assert (handed (ready s ++ tasks_of match putWaiter (queue s) with Some p => [Dispatch p Unit] | None => [] end) = []) as Hh0.
    { rewrite handed_app, (handed_nil _ Hcd). destruct (putWaiter (queue s)) as [p|]; [|done]. unfold handed, pending. cbn. by destruct (Nat.eqb _ _). }
    split; [|destruct (putWaiter (queue s)); advance Hcs]. split; cbn -[tasks_of].
    + done.
    + done.
    + lia.
    + apply Forall_app. split; [done|]. destruct Hpr as [(_ & -> & _)|[(_ & -> & _)|(_ & -> & _)]]; cbn; [|constructor..].
      constructor; [by left|constructor].
    + right. right. split; [congruence|]. split; [done|]. rewrite pending_app, Hcd.
      destruct Hpr as [(_ & -> & _)|[(_ & -> & _)|(_ & -> & _)]]; done.
    + right. rewrite pending_app. destruct Hpr as [(Hp & -> & -> & Hfull & Hcl & _)|[(Hp & -> & r' & -> & Hps)|(Hp & -> & ->)]].
      * left. split; [done|]. split; [done|]. by exists Unit.
      * left. split; [done|]. split; [done|]. by exists r'.
      * right. done.
    + rewrite Hh0, Hf. cbn. by rewrite <- !app_assoc.
    + destruct (putWaiter (queue s)); exact Hw.
    + split; [exact Ho1|exact I].
Qed.

Lemma Forall_remove (P : task T -> Prop) t l1 l2 : Forall P (l1 ++ t :: l2) -> P t /\ Forall P (l1 ++ l2).
Proof. rewrite !Forall_app, Forall_cons. tauto. Qed.

(** The state a resumption of the producer leaves when it is taken from the queue. *)
Lemma take_producer input s qs r l1 l2 : ready s = l1 ++ Resume pcont r :: l2 -> Inv input [] s qs ->
  exists x todo, producer s = SendParked x todo /\ producer_sees (queue s) (cancelled s) r /\
    Inv input [] (with_producer (with_queue s (queue s) (l1 ++ l2) (registered s)) (Sending (x :: todo))) qs.
Proof.
  intros Hrd [Hq Hcap Hsz Hr Hc Hpr Hf Hw [Ho1 Ho2]]. rewrite Hrd in *.
  assert (handed (l1 ++ l2) = handed (l1 ++ Resume pcont r :: l2)) as Hh by (unfold handed; by rewrite pending_other).
  destruct Hpr as [(_ & _ & Hp & _)|[((x & todo & Hx) & Hw0 & r' & Hp & Hs)|(_ & _ & Hp)]]; [exfalso|exists x, todo|exfalso].
  1,3: rewrite pending_app in Hp; apply app_eq_nil in Hp; destruct Hp as [_ Hp]; unfold pending in Hp; cbn in Hp; done.
  apply pending_take in Hp as [-> Hp]; [|done]. split; [done|]. split; [done|]. rewrite Hx in Hf. split; cbn; rewrite ?Hh; try done.
  - by apply Forall_remove in Hr as [_ ?].
  - rewrite pending_other in Hc by done. revert Hc. apply slot_ok_mono; [|done]. intros (? & ? & Hk). split; [done|]. split; [done|].
    eapply woken_mono; [|done|exact Hk]. intros j. apply hop_elem.
  - right. right. split; [not_parked|done].
Qed.

Lemma take_consumer input s qs r l1 l2 : ready s = l1 ++ Resume ccont r :: l2 -> Inv input [] s qs ->
  consumer s = ReceiveParked /\ consumer_sees (queue s) qs (cancelled s) r /\
  forall c, c <> ReceiveParked -> outcome_ok (queue s) qs (cancelled s) (producer s) c ->
    Inv input [] (with_consumer (with_queue s (queue s) (l1 ++ l2) (registered s)) c (match r with Value (Some x) => [x] | _ => [] end)) qs.
Proof.
  intros Hrd [Hq Hcap Hsz Hr Hc Hpr Hf Hw Ho]. rewrite Hrd in *.
  destruct Hc as [(_ & _ & Hp & _)|[(Hpk & Hw0 & r' & Hp & Hs)|(_ & _ & Hp)]]; [exfalso| |exfalso].
  1,3: rewrite pending_app in Hp; apply app_eq_nil in Hp; destruct Hp as [_ Hp]; unfold pending in Hp; cbn in Hp; done.
  unfold handed in Hf. rewrite Hp in Hf. apply pending_take in Hp as [-> Hp]; [|done]. split; [done|]. split; [done|]. intros c Hcn Hout.
  split; cbn; try done.
  - by apply Forall_remove in Hr as [_ ?].
  - right. right. done.
  - rewrite pending_other in Hpr by done. revert Hpr. apply slot_ok_mono; [|done]. intros (? & ? & Hk). split; [done|]. split; [done|].
    eapply woken_mono; [|done|exact Hk]. intros j. apply hop_elem.
  - rewrite Hf, (handed_nil _ Hp), <- app_assoc. f_equal. by destruct r' as [[|]| |].
Qed.

Lemma slot_count (parked : Prop) w c pend P Q : slot_ok parked w c pend P Q ->
  (parked -> (length (option_list w) + length pend)%nat = 1%nat) /\ (~ parked -> (length (option_list w) + length pend)%nat = 0%nat).
Proof. intros [(? & -> & -> & _)|[(? & -> & r & -> & _)|(? & -> & ->)]]; split; done. Qed.

Lemma slot_waiter (parked : Prop) w c pend P Q : slot_ok parked w c pend P Q -> w = None \/ w = Some c.
Proof. intros [(_ & -> & _)|[(_ & -> & _)|(_ & -> & _)]]; auto. Qed.

(** What [onCancelled] does to one slot. *)
Lemma slot_hop (j : job) (parked : Prop) w c pend (P P' : Prop) (Q Q' : resumption T -> Prop) :
  slot_ok parked w c pend P Q -> (P -> contextJob c <> Some j -> P') -> (forall r, Q r -> Q' r) ->
  (contextJob c = Some j -> Q' (Exception CancellationException)) ->
  slot_ok parked (spared j w) c (pend ++ ((fun _ => Exception CancellationException) <$> option_list (hit j w))) P' Q'.
Proof.
  intros [(Hp & -> & -> & HP)|[(Hp & -> & r & -> & Hr)|(Hp & -> & ->)]] HPP HQ HE; unfold spared, hit.
  - case_bool_decide as Hj; [|by left; auto]. right. left. split; [done|]. split; [done|]. eexists. split; [reflexivity|]. auto.
  - right. left. split; [done|]. split; [done|]. exists r. auto.
  - right. right. done.
Qed.

Definition hop_effects (j : job) (w w' : option Continuation) : list (effect T) :=
  (fun c => Dispatch c (Exception CancellationException)) <$> option_list (hit j w) ++ option_list (hit j w').

Lemma hop_pending j w w' : w = None \/ w = Some ccont -> w' = None \/ w' = Some pcont ->
  pending 1 (tasks_of (hop_effects j w w')) = ((fun _ => Exception CancellationException) <$> option_list (hit j w)) /\
  pending 0 (tasks_of (hop_effects j w w')) = ((fun _ => Exception CancellationException) <$> option_list (hit j w')) /\
  handed (tasks_of (hop_effects j w w')) = [] /\ forall cs, Forall (task_ok cs) (tasks_of (hop_effects j w w')) /\
  forall hs, registrations (hop_effects j w w') hs = hs.
Proof.
  intros [-> | ->] [-> | ->]; unfold hop_effects, hit, pending, handed, pending; cbn; repeat case_bool_decide; cbn;
    (do 3 (split; [done|])); intros; (split; [|done]); rewrite ?Forall_cons, ?Forall_nil; cbn; auto.
Qed.

Lemma hop_inv input s qs j l1 l2 : ready s = l1 ++ CancelHop j :: l2 -> Inv input [] s qs ->
  Inv input [] (run_unit (onCancelled j) (with_queue s (queue s) (l1 ++ l2) (registered s))) qs.
Proof.
  intros Hrd [Hq Hcap Hsz Hr Hc Hpr Hf Hw Ho]. rewrite Hrd in *. apply Forall_remove in Hr as [Hj Hr]. cbn in Hj.
  rewrite pending_hop in Hc, Hpr. assert (handed (l1 ++ CancelHop j :: l2) = handed (l1 ++ l2)) as Hh by (unfold handed; by rewrite pending_hop).
  unfold run_unit. rewrite onCancelled_spec. cbn [queue with_queue]. fold (hop_effects j (takeWaiter (queue s)) (putWaiter (queue s))).
  destruct (hop_pending j (takeWaiter (queue s)) (putWaiter (queue s))) as (E1 & E0 & Eh & Hall); [by eapply slot_waiter..|].
  destruct (Hall (cancelled s)) as [Ht Hreg].
  assert (forall k c oj w w', contextJob c = oj -> woken oj (queue s) (l1 ++ CancelHop j :: l2) (cancelled s) -> contextJob c <> Some j ->
    woken oj (set_putWaiter (set_takeWaiter (queue s) w) w') ((l1 ++ l2) ++ k) (cancelled s)) as Hwk.
  { intros k c oj w w' <- H Hne j' Hj'. destruct (H j' Hj') as [He|He]; [left|by right]. apply elem_of_app. left.
    apply (hop_elem_ne _ j); [congruence|done]. }
  split; cbn -[hop_effects tasks_of registrations]; rewrite ?(pending_app _ (l1 ++ l2)), ?(handed_app (l1 ++ l2)), ?E1, ?E0, ?Eh, ?Hreg, ?app_nil_r, <- ?Hh; try done.
  - by apply Forall_app.
  - eapply slot_hop; [exact Hc| |done|].
    + intros (? & ? & Hk) Hne. split; [done|]. split; [done|]. by apply (Hwk _ ccont).
    + intros Hcj. cbn. split; [done|]. by exists j.
  - eapply slot_hop; [exact Hpr| |done|].
    + intros (? & ? & Hk) Hne. split; [done|]. split; [done|]. by apply (Hwk _ pcont).
    + intros Hcj. cbn. right. split; [done|]. by exists j.
Qed.

(** A job cancelled while, or before, the call of a coroutine read it as active. *)
Lemma cancel_inv input j hop s qs : Inv input [j] s qs -> Inv input [] (cancel_job j hop s) qs.
Proof.
  intros [Hq Hcap Hsz Hr Hc Hpr Hf Hw Ho]. set (hops := ((fun _ => CancelHop (T := T) j) <$> filter (fun p : handle * job => p.2 = j) (registered s)) ++ (if hop then [CancelHop j] else [])).
  assert (forall k, pending k hops = []) as Hk.
  { intros k. unfold hops. rewrite pending_app, pending_hops. by destruct hop. }
  assert (forall oj, woken oj (queue s) (ready s) (cancelled s) -> woken oj (queue s) (ready s ++ hops) (j :: cancelled s)) as Hwk.
  { intros oj H j' Hj'. destruct (H j' Hj') as [He|[Hn He]]; [left; apply elem_of_app; by left|].
    destruct (decide (j' = j)) as [->|Hne]; [|right; split; [|done]; rewrite elem_of_cons; tauto]. left. apply elem_of_app. right. unfold hops.
    apply elem_of_app. left. apply list_elem_of_fmap. destruct Hw as (HA & HB & _).
    assert (exists k, (k, j) ∈ registered s) as (k & Hreg) by (destruct He as [He|He]; [destruct (HA j He) as [_ H']|destruct (HB j He) as [_ H']]; destruct (H' Hn) as (k & _ & ?); by exists k).
    exists (k, j). split; [done|]. by apply list_elem_of_filter. }
  assert (forall w h, slot_watch (registered s) (cancelled s) w h -> slot_watch (filter (fun p : handle * job => p.2 <> j) (registered s)) (j :: cancelled s) w h) as Hsl.
  { intros w h H j' Hj'. destruct (H j' Hj') as [? H']. split; [done|]. rewrite elem_of_cons. intros Hn. destruct H' as (k & -> & ?); [tauto|].
    exists k. split; [done|]. apply list_elem_of_filter. split; [cbn; tauto|done]. }
  split; unfold cancel_job; cbn; fold hops; rewrite ?pending_app, ?handed_app, ?(handed_nil hops), ?Hk, ?app_nil_r by apply Hk; try done.
  - apply Forall_app. split.
    + eapply Forall_impl; [exact Hr|]. intros [c r|j']; cbn; [done|]. rewrite elem_of_cons. auto.
    + unfold hops. apply Forall_app. split; [|destruct hop; repeat constructor]. apply Forall_fmap, Forall_forall. intros p _. cbn. by left.
  - revert Hc. apply slot_ok_mono; [|done]. intros (? & ? & H). auto.
  - revert Hpr. apply slot_ok_mono; [|done]. intros (? & ? & H). auto.
  - destruct Hw as (HA & HB & ?). split; [by apply Hsl|]. split; [by apply Hsl|done].
Qed.

Lemma disposals_tasks q : tasks_of (disposals q) = [].
Proof. unfold disposals. by destruct (handleA q), (handleB q). Qed.

Lemma isEmpty_nil (r : Ring T) : holds r [] -> isEmpty r = true.
Proof. intros (_ & _ & Hl & _). unfold isEmpty. by rewrite Hl. Qed.

Lemma close_inv input env s qs : accepts env = true -> closed (queue s) = false -> Inv input [] s qs -> Inv input [] (run_unit (close env) s) qs.
Proof.
  intros He Hcl [Hq Hcap Hsz Hr Hc Hpr Hf Hw [Ho1 Ho2]]. unfold run_unit. rewrite close_open by done. unfold perform. rewrite tasks_of_app, disposals_tasks, app_nil_r.
  assert (takeWaiter (queue s) = None \/ takeWaiter (queue s) = Some ccont /\ isEmpty (items (queue s)) = true) as Htw.
  { destruct Hc as [(_ & -> & _ & -> & _)|[(_ & -> & _)|(_ & -> & _)]]; auto using isEmpty_nil. }
  assert (putWaiter (queue s) = None \/ putWaiter (queue s) = Some pcont) as Hpw by by eapply slot_waiter.
  assert (takeWaiter (shut (queue s)) = None) as Hshut by (cbn; destruct Htw as [-> | [_ ->]]; [by destruct (isEmpty _)|done]).
  assert (pending 1 (tasks_of (released (queue s))) = match takeWaiter (queue s) with Some _ => [Value None] | None => [] end /\
          pending 0 (tasks_of (released (queue s))) = match putWaiter (queue s) with Some _ => [Exception ClosedException] | None => [] end /\
          handed (tasks_of (released (queue s))) = [] /\ Forall (task_ok (cancelled s)) (tasks_of (released (queue s)))) as (E1 & E0 & Eh & Et).
  { unfold released. destruct Htw as [-> | [-> ->]], Hpw as [-> | ->]; (do 3 (split; [done|])); cbn; rewrite ?Forall_cons, ?Forall_nil; cbn; auto. }
  split; cbn -[tasks_of released registrations takeWaiter]; rewrite ?pending_app, ?handed_app, ?E1, ?E0, ?Eh, ?app_nil_r; try done.
  - by apply Forall_app.
  - right. rewrite Hshut. destruct Hc as [(Hp & -> & -> & -> & _)|[(Hp & -> & r & -> & Hs)|(Hp & -> & ->)]].
    + left. split; [done|]. split; [done|]. by exists (Value None).
    + left. split; [done|]. split; [done|]. exists r. split; [done|]. destruct r as [[|]| |]; try done. cbn in Hs. destruct Hs; congruence.
    + right. done.
  - right. destruct Hpr as [(Hp & -> & -> & _)|[(Hp & -> & r & -> & Hs)|(Hp & -> & ->)]].
    + left. split; [done|]. split; [done|]. eexists. split; [reflexivity|]. by left.
    + left. split; [done|]. split; [done|]. exists r. split; [done|]. destruct r as [[|]| |]; try done. destruct Hs as [[_ ?]|?]; [congruence|by right].
    + right. done.
  - split; [by intros j|]. split; [by intros j|]. split; [done|]. by intros [j ?].
  - split.
    + destruct (producer s) as [| |? [e|]]; try done. destruct Ho1 as [[_ ?]|?]; [congruence|by right].
    + destruct (consumer s) as [| | |[e|]]; try done. by destruct Ho2.
Qed.

Lemma delete_split l i t : l !! i = Some t -> exists l1 l2, l = l1 ++ t :: l2 /\ delete i l = l1 ++ l2.
Proof. intros H. apply list_elem_of_split_length in H as (l1 & l2 & -> & ->). exists l1, l2. split; [done|]. by rewrite delete_middle. Qed.

Lemma hop_advances s qs j l1 l2 : ready s = l1 ++ CancelHop j :: l2 ->
  advances s qs (run_unit (onCancelled j) (with_queue s (queue s) (l1 ++ l2) (registered s))) qs.
Proof.
  intros Hl. unfold run_unit. rewrite onCancelled_spec. cbn. split; [done|]. split; [done|]. unfold weight. cbn. rewrite Hl, !sum_list_with_app.
  unfold hit. destruct (takeWaiter (queue s)), (putWaiter (queue s)); repeat case_bool_decide; cbn; lia.
Qed.

Lemma activity_inv input race h s qs a s' : h ∉ (registered s).*1 -> Inv input [] s qs ->
  run_activity pjob cjob (env_at race h s) a s = Some s' -> exists qs', Inv input race s' qs' /\ advances s qs s' qs'.
Proof.
  intros Hh HI. destruct a as [| |i]; cbn.
  - destruct (producer s) as [[|x todo]| |] eqn:Hp; try done. intros [= <-]. by eapply send_inv.
  - destruct (consumer s) eqn:Hc; try done. intros [= <-]. by eapply receive_inv.
  - destruct (ready s !! i) as [t|] eqn:Ht; [|done]. cbn. destruct (delete_split _ _ _ Ht) as (l1 & l2 & Hl & ->).
    pose proof (inv_ready _ _ _ _ HI) as Hr. rewrite Hl in Hr. apply Forall_remove in Hr as [Hr _].
    destruct t as [c r|j]; cbn; [|intros [= <-]; exists qs; split; [by apply Inv_race, hop_inv|by apply hop_advances]].
    destruct Hr as [-> | ->]; cbn.
    + destruct (take_producer _ _ _ _ _ _ Hl HI) as (x & todo & Hp & Hs & HI'). unfold resume_producer. cbn. rewrite Hp.
      destruct r as [|  |e]; [done|..]; intros [= <-].
      * change (sendSlow_resumed (env_at race h s) pcont x) with (send (env_at race h s) pcont x).
        set (s1 := with_producer _ _) in HI'. destruct (send_inv input race h s1 qs x todo eq_refl Hh HI') as (qs' & H & Hcl & Hcn & Hwt). exists qs'.
        split; [exact H|]. split; [exact Hcl|]. split; [exact Hcn|]. eapply Nat.lt_le_trans; [exact Hwt|]. unfold weight. cbn.
        rewrite Hp, Hl, !sum_list_with_app. cbn. lia.
      * exists qs. split; [|split; [done|split; [done|]]; unfold weight; cbn; rewrite Hp, Hl, !sum_list_with_app; cbn; lia].
        apply Inv_race. destruct HI' as [Hq Hcap Hsz Hr Hc Hpr Hf Hw [Ho1 Ho2]]. split; try done.
        cbn in *. eapply slot_not_parked; [exact Hpr|not_parked..].
    + destruct (take_consumer _ _ _ _ _ _ Hl HI) as (Hp & Hs & HI'). unfold resume_consumer. cbn. rewrite Hp.
      destruct (inv_outcome _ _ _ _ HI) as [Ho1 _].
      destruct r as [[x|]| |e]; [| |done|]; intros [= <-]; exists qs;
        (split; [apply Inv_race; apply HI'; try done|split; [done|split; [done|]]; unfold weight; cbn; rewrite Hp, Hl, !sum_list_with_app; cbn; lia]).
Qed.

Lemma step_inv input s s' qs : Inv input [] s qs -> step pjob cjob s s' -> exists qs', Inv input [] s' qs'.
Proof.
  intros HI [[a h s'' Hh Ha|a h j hop s'' Hh _ _ Ha]|[j _ _|h Hc]].
  - destruct (activity_inv _ _ _ _ _ _ _ Hh HI Ha) as (qs' & HI' & _). by exists qs'.
  - destruct (activity_inv _ _ _ _ _ _ _ Hh HI Ha) as (qs' & HI' & _). exists qs'. by apply cancel_inv.
  - exists qs. by apply cancel_inv, Inv_race.
  - exists qs. by apply close_inv.
Qed.

Lemma started_inv cap hasResumer q input : 1 <= cap < 2 ^ 29 -> newReactorQueue cap hasResumer = Ok q -> Inv input [] (started q input) [].
Proof.
  intros Hc. unfold newReactorQueue. destruct (holds_new (T := T) (Z.min cap 16)) as (r & -> & Hr); [lia|]. intros [= <-].
  split; cbn; try done.
  - unfold zlen. cbn. lia.
  - right. right. done.
  - right. right. split; [not_parked|done].
  - split; [by intros ?|]. split; [by intros ?|]. split; [done|]. by intros [? ?].
Qed.

(** ** Nothing waits for ever *)

(** Whatever the reactor runs next, and whatever happens outside, [P] comes to hold: the reactor can always run something, and every step leads on. *)
Inductive eventually (P : Sys T -> Prop) s : Prop :=
| eventually_now : P s -> eventually P s
| eventually_later : (exists s', act_step pjob cjob s s') -> (forall s', step pjob cjob s s' -> eventually P s') -> eventually P s.

(** No coroutine can run and no task is dispatched. *)
Definition quiescent s : Prop :=
  ready s = [] /\ (forall x todo, producer s <> Sending (x :: todo)) /\ consumer s <> Receiving.

(** How the system may stand still: the consumer's job was cancelled, or the consumer has received, in order, everything the producer
    sent before it ended, and has finished if the queue is closed and waits for more if it is open. *)
Definition settled (input : list T) s : Prop :=
  consumer s = ReceiveFailed (inl CancellationException) /\ cancelled_by cjob (cancelled s) \/
  consumer s = (if closed (queue s) then Finished else ReceiveParked) /\
  exists rest, input = received s ++ rest /\
    (rest = [] /\ producer s = Sending [] \/ exists e, producer s = SendFailed rest (inl e) /\ send_fails (queue s) (cancelled s) e).

(** No coroutine sleeps through its cancellation or the closing of the queue. *)
Definition no_sleeper s : Prop :=
  (consumer s = ReceiveParked -> closed (queue s) = false /\ ~ cancelled_by cjob (cancelled s)) /\
  (forall x todo, producer s = SendParked x todo -> closed (queue s) = false /\ ~ cancelled_by pjob (cancelled s)).

Lemma quiescent_dec s : quiescent s \/ ~ quiescent s.
Proof.
  unfold quiescent. destruct (ready s); [|right; by intros (? & _)]. destruct (consumer s); try (right; by intros (_ & _ & ?)); 
    (destruct (producer s) as [[|x todo]| |]; [left|right; intros (_ & H & _); by apply (H x todo)|left|left]; done).
Qed.

Lemma no_hop oj q cs : woken oj q (ready (T := T) (started q [])) cs -> ~ cancelled_by oj cs.
Proof. intros H (j & Hj & Hc). destruct (H j Hj) as [He|[Hn _]]; [by apply elem_of_nil in He|done]. Qed.

Lemma quiescent_settled input s qs : Inv input [] s qs -> quiescent s -> settled input s /\ no_sleeper s.
Proof.
  intros [Hq Hcap Hsz Hr Hc Hpr Hf Hw [Ho1 Ho2]] (Hrd & Hp & Hcs). rewrite Hrd in *. cbn in *.
  assert (no_sleeper s) as Hns.
  { split.
    - intros E. destruct Hc as [(_ & _ & _ & _ & ? & Hk)|[(_ & _ & r & ? & _)|(? & _)]]; [|done..]. split; [done|]. by eapply no_hop.
    - intros x todo E. destruct Hpr as [(_ & _ & _ & _ & ? & Hk)|[(_ & _ & r & ? & _)|(Hn & _)]]; [|done|by destruct Hn; exists x, todo].
      split; [done|]. by eapply no_hop. }
  split; [|done]. unfold settled. destruct (consumer s) as [| | |[e|]] eqn:Ec; try done.
  - right. destruct (proj1 Hns Ec) as [Hcl _]. rewrite Hcl. split; [done|]. assert (qs = []) as ->.
    { destruct Hc as [(_ & _ & _ & ? & _)|[(_ & _ & r & ? & _)|(? & _)]]; done. }
    exists (remaining (producer s)). split; [done|]. destruct (producer s) as [[|x todo]|x todo|rest [e|]] eqn:Ep; [by left|by destruct (Hp x todo)| |by right; exists e|done].
    destruct Hpr as [(_ & _ & _ & Hfull & _)|[(_ & _ & r & ? & _)|(Hn & _)]]; [|done|by destruct Hn; exists x, todo].
    unfold zlen in Hfull. cbn in Hfull. lia.
  - right. destruct Ho2 as [Hcl ->]. rewrite Hcl. split; [done|]. exists (remaining (producer s)). split; [done|].
    destruct (producer s) as [[|x todo]|x todo|rest [e|]] eqn:Ep; [by left|by destruct (Hp x todo)| |by right; exists e|done].
    destruct (proj2 Hns x todo Ep). congruence.
  - left. by destruct Ho2 as [-> ?].
Qed.

Definition next_handle s : handle := S (max_list (registered s).*1).

Lemma next_handle_fresh s : next_handle s ∉ (registered s).*1.
Proof. intros H. apply max_list_elem_of_le in H. unfold next_handle in H. lia. Qed.

(** Running chosen activities in turn. *)
Fixpoint run_all (acts : list activity) s : option (Sys T) :=
  match acts with
  | [] => Some s
  | a :: acts => s' ← run_activity pjob cjob (env_at [] (next_handle s) s) a s; run_all acts s'
  end.

Lemma run_all_reaches acts : forall s s', run_all acts s = Some s' -> rtc (step pjob cjob) s s'.
Proof.
  induction acts as [|a acts IH]; intros s s'; cbn; [by intros [= ->]|]. destruct (run_activity _ _ _ a s) as [s1|] eqn:Ha; [|done].
  intros H. eapply rtc_l; [|by apply IH]. left. eapply act_run; [apply next_handle_fresh|exact Ha].
Qed.

Lemma progress input s qs : Inv input [] s qs -> ~ quiescent s -> exists s', act_step pjob cjob s s'.
Proof.
  intros HI Hn. assert (forall a s', run_activity pjob cjob (env_at [] (next_handle s) s) a s = Some s' -> exists s', act_step pjob cjob s s') as Hrun
    by (intros a s' ?; exists s'; eapply act_run; [apply next_handle_fresh|done]).
  destruct (ready s) as [|t l] eqn:Hl.
  - destruct (producer s) as [[|x todo]| |] eqn:Hp.
    2: { eapply (Hrun Send). cbn. by rewrite Hp. }
    all: destruct (consumer s) eqn:Hc; [eapply (Hrun Receive); cbn; by rewrite Hc|..]; destruct Hn; unfold quiescent; by rewrite Hl, Hp, Hc.
  - assert (exists s', run_task pjob (env_at [] (next_handle s) s) t (with_queue s (queue s) l (registered s)) = Some s') as (s' & Hs').
    2: { eapply (Hrun (Task 0)). cbn. rewrite Hl. exact Hs'. }
    pose proof (inv_ready _ _ _ _ HI) as Hr. rewrite Hl, Forall_cons in Hr. destruct Hr as [Ht _].
    destruct t as [c r|j]; [|by eexists]. destruct Ht as [-> | ->]; cbn.
    + destruct (take_producer _ _ _ _ [] l Hl HI) as (x & todo & Hp & Hs & _). unfold resume_producer. cbn. rewrite Hp. destruct r; [done|by eexists..].
    + destruct (take_consumer _ _ _ _ [] l Hl HI) as (Hp & Hs & _). unfold resume_consumer. cbn. rewrite Hp. destruct r as [[|]| |]; [by eexists..|done|by eexists].
Qed.

(** How often the outside can still interfere. *)
Definition interference s : nat := (if closed (queue s) then 0 else 1) + length (filter (fun j => j ∉ cancelled s) jobs).

Lemma active_le (j : job) cs (l : list job) : (length (filter (fun i => i ∉ j :: cs) l) <= length (filter (fun i => i ∉ cs) l))%nat.
Proof.
  induction l as [|i l IH]; [done|]. rewrite !filter_cons. destruct (decide (i ∉ j :: cs)) as [H|H], (decide (i ∉ cs)) as [H'|H']; cbn; try lia.
  destruct H'. intros Hi. apply H. by right.
Qed.

Lemma active_lt (j : job) cs (l : list job) : j ∈ l -> j ∉ cs -> (length (filter (fun i => i ∉ j :: cs) l) < length (filter (fun i => i ∉ cs) l))%nat.
Proof.
  intros Hj Hc. induction l as [|i l IH]; [by apply elem_of_nil in Hj|]. apply elem_of_cons in Hj. rewrite !filter_cons.
  destruct (decide (j = i)) as [<-|Hne].
  - rewrite decide_False by (intros H; apply H; by left). rewrite decide_True by done. cbn. pose proof (active_le j cs l). lia.
  - destruct Hj as [?|Hj]; [done|]. specialize (IH Hj). destruct (decide (i ∉ j :: cs)) as [H|H], (decide (i ∉ cs)) as [H'|H']; cbn; try lia.
    destruct H'. intros Hi. apply H. by right.
Qed.

Lemma step_decreases input s s' qs : Inv input [] s qs -> step pjob cjob s s' ->
  exists qs', Inv input [] s' qs' /\ ((interference s' < interference s)%nat \/ interference s' = interference s /\ (weight s' qs' < weight s qs)%nat).
Proof.
  unfold interference. intros HI [[a h s'' Hh Ha|a h j hop s'' Hh Hj Hn Ha]|[j Hj Hn|h Hc]].
  - destruct (activity_inv _ _ _ _ _ _ _ Hh HI Ha) as (qs' & HI' & Hcl & Hcn & Hwt). exists qs'. split; [done|]. right. by rewrite Hcl, Hcn.
  - destruct (activity_inv _ _ _ _ _ _ _ Hh HI Ha) as (qs' & HI' & Hcl & Hcn & _). exists qs'. split; [by apply cancel_inv|]. left. cbn [queue cancelled cancel_job].
    rewrite Hcl, Hcn. by apply Nat.add_lt_mono_l, active_lt.
  - exists qs. split; [by apply cancel_inv, Inv_race|]. left. by apply Nat.add_lt_mono_l, active_lt.
  - exists qs. split; [by apply close_inv|]. left. unfold run_unit. rewrite close_open by done. cbn [perform with_queue queue cancelled shut closed]. rewrite Hc. lia.
Qed.

Lemma always_settles input s qs : Inv input [] s qs -> eventually (fun s => quiescent s /\ settled input s /\ no_sleeper s) s.
Proof.
  remember (interference s) as n eqn:Hn. revert s qs Hn. induction (lt_wf n) as [n _ IHn]. intros s qs. remember (weight s qs) as w eqn:Hw. revert s qs Hw.
  induction (lt_wf w) as [w _ IHw]. intros s qs -> -> HI. destruct (quiescent_dec s) as [Hq|Hq].
  - apply eventually_now. split; [done|]. by eapply quiescent_settled.
  - apply eventually_later; [by eapply progress|]. intros s' Hs. destruct (step_decreases _ _ _ _ HI Hs) as (qs' & HI' & [Hlt|[Heq Hlt]]).
    + by eapply IHn.
    + by eapply IHw.
Qed.

Lemma reachable_inv input s s' qs : Inv input [] s qs -> rtc (step pjob cjob) s s' -> exists qs', Inv input [] s' qs'.
Proof.
  intros HI Hr. revert qs HI. induction Hr as [s|s s1 s' Hs _ IH]; intros qs HI; [by exists qs|].
  destruct (step_inv _ _ _ _ HI Hs) as (qs1 & HI1). by eapply IH.
Qed.
End Invariant.

(** ** The properties *)

(** C24: the queue between a producer and a consumer neither loses, duplicates nor reorders an item, and never holds more than its capacity:
    whatever the reactor runs, whenever the queue is closed or a job is cancelled, what was received, what is on its way to the parked
    consumer, what the ring holds and what the producer has still to send are together exactly the input, in order. *)
Theorem ReactorQueue_fifo {T : Type} (pjob cjob : option job) (cap : Z) (hasResumer : bool) (q : ReactorQueue T) (input : list T) (s : Sys T) :
  1 <= cap < 2 ^ 29 -> newReactorQueue cap hasResumer = Ok q -> rtc (step pjob cjob) (started q input) s ->
  exists qs, holds (items (queue s)) qs /\ zlen qs <= capacity (queue s) /\
    input = received s ++ handed (ready s) ++ qs ++ remaining (producer s).
Proof.
  intros Hc Hq Hr. destruct (reachable_inv pjob cjob input _ _ _ (started_inv _ _ cap hasResumer q input Hc Hq) Hr) as (qs & HI).
  exists qs. by destruct HI.
Qed.

Lemma ReactorQueue_fifo_witness : exists (q : ReactorQueue Z) s,
  newReactorQueue 1 true = Ok q /\ rtc (step (Some 3%nat) (Some 5%nat)) (started q [7; 8; 9]) s /\ received s = [7] /\ handed (ready s) = [] /\
  exists qs, holds (items (queue s)) qs /\ zlen qs <= capacity (queue s) /\ [7; 8; 9] = received s ++ handed (ready s) ++ qs ++ remaining (producer s).
Proof.
  destruct (newReactorQueue (T := Z) 1 true) as [q| |] eqn:Hq; [|discriminate Hq..].
  destruct (run_all (Some 3%nat) (Some 5%nat) [Send; Send; Receive] (started q [7; 8; 9])) as [s|] eqn:Hs;
    [|vm_compute in Hq; injection Hq as <-; vm_compute in Hs; discriminate Hs].
  exists q, s. split; [done|]. pose proof (run_all_reaches _ _ _ _ _ Hs) as Hr. split; [done|].
  pose proof (ReactorQueue_fifo (Some 3%nat) (Some 5%nat) 1 true q [7; 8; 9] s ltac:(lia) Hq Hr) as H.
  vm_compute in Hq. injection Hq as <-. vm_compute in Hs. injection Hs as <-. split; [reflexivity|]. split; [reflexivity|]. exact H.
Defined.

(** A waiter is never resumed twice and never forgotten: in every reachable state a parked coroutine either sits in its own slot with
    nothing dispatched to it, or has left the slot and has exactly one resumption on its way; a coroutine that is not parked has neither.
    A parked receiver means an empty open queue, a parked sender a full open one. *)
Theorem ReactorQueue_waiters {T : Type} (pjob cjob : option job) (cap : Z) (hasResumer : bool) (q : ReactorQueue T) (input : list T) (s : Sys T) :
  1 <= cap < 2 ^ 29 -> newReactorQueue cap hasResumer = Ok q -> rtc (step pjob cjob) (started q input) s ->
  (length (option_list (takeWaiter (queue s))) + length (pending 1 (ready s)))%nat = (match consumer s with ReceiveParked => 1 | _ => 0 end)%nat /\
  (length (option_list (putWaiter (queue s))) + length (pending 0 (ready s)))%nat = (match producer s with SendParked _ _ => 1 | _ => 0 end)%nat /\
  (is_Some (takeWaiter (queue s)) -> isEmpty (items (queue s)) = true /\ closed (queue s) = false) /\
  (is_Some (putWaiter (queue s)) -> rsize (items (queue s)) = capacity (queue s) /\ closed (queue s) = false).
Proof.
  intros Hc Hq Hr. destruct (reachable_inv pjob cjob input _ _ _ (started_inv _ _ cap hasResumer q input Hc Hq) Hr) as (qs & HI).
  destruct HI as [Hh _ _ _ Hcs Hps _ _ _]. destruct (slot_count _ _ _ _ _ _ Hcs) as [C1 C0], (slot_count _ _ _ _ _ _ Hps) as [P1 P0].
  split; [destruct (consumer s); by auto|]. split; [|split].
  - destruct (producer s) as [|x todo|]; [apply P0; not_parked|apply P1; by exists x, todo|apply P0; not_parked].
  - intros [c Hw]. destruct Hcs as [(_ & _ & _ & -> & ? & _)|[(_ & ? & _)|(_ & ? & _)]]; [|congruence..]. split; [by apply isEmpty_nil|done].
  - intros [c Hw]. destruct Hps as [(_ & _ & _ & Hfull & ? & _)|[(_ & ? & _)|(_ & ? & _)]]; [|congruence..]. split; [|done].
    destruct Hh as (_ & _ & -> & _). done.
Qed.

Lemma ReactorQueue_waiters_witness : exists (q : ReactorQueue Z) s,
  newReactorQueue 1 true = Ok q /\ rtc (step (Some 3%nat) (Some 5%nat)) (started q [7; 8; 9]) s /\ putWaiter (queue s) = Some (pcont (Some 3%nat)) /\
  rsize (items (queue s)) = capacity (queue s).
Proof.
  destruct (newReactorQueue (T := Z) 1 true) as [q| |] eqn:Hq; [|discriminate Hq..].
  destruct (run_all (Some 3%nat) (Some 5%nat) [Send; Send] (started q [7; 8; 9])) as [s|] eqn:Hs;
    [|vm_compute in Hq; injection Hq as <-; vm_compute in Hs; discriminate Hs].
  exists q, s. split; [done|]. pose proof (run_all_reaches _ _ _ _ _ Hs) as Hr. split; [done|].
  destruct (ReactorQueue_waiters (Some 3%nat) (Some 5%nat) 1 true q [7; 8; 9] s ltac:(lia) Hq Hr) as (_ & _ & _ & H).
  vm_compute in Hq. injection Hq as <-. vm_compute in Hs. injection Hs as <-. split; [reflexivity|]. apply H. by eexists.
Defined.



(** A queue of capacity 0, which [ConnectionConfig] does not reject, never passes an item: the producer and the consumer both park, and nothing is
    left to run.  The capacity hypothesis above is needed. *)
Lemma ReactorQueue_capacity_zero : exists (q : ReactorQueue Z) s,
  newReactorQueue 0 true = Ok q /\ rtc (step None None) (started q [7]) s /\ quiescent s /\
  producer s = SendParked 7 [] /\ consumer s = ReceiveParked /\ closed (queue s) = false /\ received s = [].
Proof.
  eexists _, _. split; [reflexivity|]. split; [apply (run_all_reaches _ _ [Send; Receive]); reflexivity|]. split; [|done]. by split.
Qed.
