(* ===== verification/IdMap.v ===== *)
(** * IdMap.kt: the open-addressing map of pending requests

    Linear probing with backward-shift deletion over a power-of-two table kept at
    most half full.  Its operations refine a finite map: every probe ends, no
    deletion breaks another key's probe sequence, and the table's growth keeps
    every entry. *)
From stdpp Require Import gmap.
From S2P Require Import Prelude Kotlin.
#[local] Open Scope Z_scope.

Section Definitions.
Context {V : Type}.

Record IdMap := { keys : list Z; vals : list (option V); msize : Z }.

(** [var s = 16; while (s < n * 2) s = s shl 1] *)
Definition tableSize (n : Z) : kt Z :=
  loop 32 (fun s => Ok (if s <? s32 (n * 2) then inl (s32 (Z.shiftl s 1)) else inr s)) 16.

Definition newIdMap (initial : Z) : kt IdMap :=
  let* n := tableSize initial in
  let* ks := arrayOf n 0 in
  let* vs := arrayOfNulls (zlen ks) in
  Ok {| keys := ks; vals := vs; msize := 0 |}.

(** [((k * -0x61c88647) ushr 7) and mask] *)
Definition slot (k mask : Z) : Z := Z.land (Z.shiftr (u32 (k * -1640531527)) 7) mask.

(** [while (vals[i] != null) { if (keys[i] == k) ...; i = (i + 1) and mask }]: the slot of [k] ([inl]), or the
    first null slot ([inr]). *)
Definition probe (m : IdMap) (k mask : Z) : kt (Z + Z) :=
  loop (S (length (vals m))) (fun i =>
    let* v := kget (vals m) i in
    match v with
    | None => Ok (inr (inr i))
    | Some _ =>
        let* k' := kget (keys m) i in
        Ok (if k' =? k then inr (inl i) else inl (Z.land (i + 1) mask))
    end) (slot k mask).

(** [set] once there is room. *)
Definition put (m : IdMap) (k : Z) (v : V) : kt IdMap :=
  let mask := zlen (keys m) - 1 in
  let* r := probe m k mask in
  match r with
  | inl i =>
      let* vs := kset (vals m) i (Some v) in
      Ok {| keys := keys m; vals := vs; msize := msize m |}
  | inr i =>
      let* ks := kset (keys m) i k in
      let* vs := kset (vals m) i (Some v) in
      Ok {| keys := ks; vals := vs; msize := msize m + 1 |}
  end.

(** [grow], which calls [set] on the entries in turn. *)
Definition grow_with (set_ : IdMap -> Z -> V -> kt IdMap) (m : IdMap) : kt IdMap :=
  let* ks := arrayOf (s32 (zlen (keys m) * 2)) 0 in
  let* vs := arrayOfNulls (zlen ks) in
  for_range 0 (zlen (keys m)) (fun i m' =>
    let* v := kget (vals m) i in
    match v with
    | None => Ok m'
    | Some v => let* k := kget (keys m) i in set_ m' (toUInt k) v
    end) {| keys := ks; vals := vs; msize := 0 |}.

(** [set] and [grow] call each other; [depth] bounds the nesting. *)
Fixpoint set_depth (depth : nat) (m : IdMap) (id : Z) (v : V) : kt IdMap :=
  let* m :=
    if zlen (keys m) <? s32 ((msize m + 1) * 2) then
      match depth with
      | O => Fault OutOfFuel
      | S depth => grow_with (set_depth depth) m
      end
    else Ok m in
  put m (toInt id) v.

Definition set (m : IdMap) (id : Z) (v : V) : kt IdMap := set_depth 1 m id v.

(** Whether [home] lies cyclically in [i+1 .. j]. *)
Definition between (i j home mask : Z) : bool :=
  if i <=? j then (i + 1 <=? home) && (home <=? j)
  else ((i + 1 <=? home) && (home <=? mask)) || (home <=? j).

(** One turn of the backward shift: the hole [i] and the scan [j]. *)
Definition shift_body (mask : Z) (st : IdMap * Z * Z) : kt (IdMap * Z * Z + IdMap) :=
  let '(m, i, j) := st in
  let* vj := kget (vals m) j in
  match vj with
  | None => Ok (inr m)
  | Some _ =>
      let* kj := kget (keys m) j in
      let home := slot kj mask in
      let* (m, i) :=
        if between i j home mask then Ok (m, i)
        else
          let* ks := kset (keys m) i kj in
          let* vs := kset (vals m) i vj in
          let* vs := kset vs j None in
          Ok ({| keys := ks; vals := vs; msize := msize m |}, j) in
      Ok (inl (m, i, Z.land (j + 1) mask))
  end.

Definition remove (m : IdMap) (id : Z) : kt (option V * IdMap) :=
  let k := toInt id in
  let mask := zlen (keys m) - 1 in
  let* r := probe m k mask in
  match r with
  | inr _ => Ok (None, m)
  | inl i =>
      let* v := kget (vals m) i in
      let* vs := kset (vals m) i None in
      let m := {| keys := keys m; vals := vs; msize := msize m - 1 |} in
      let* m := loop (S (length (vals m))) (shift_body mask) (m, i, Z.land (i + 1) mask) in
      Ok (v, m)
  end.

(** The values [forEachValue] visits, in order. *)
Definition forEachValue (m : IdMap) : list V := omap id (vals m).

Definition clear (m : IdMap) : IdMap :=
  {| keys := keys m; vals := replicate (length (vals m)) None; msize := 0 |}.
End Definitions.
Arguments IdMap : clear implicits.

(** ** Positions on the circle *)

Section Circle.
Context (n : Z).
Hypothesis Hn : 2 <= n.

(** Steps from slot [a] to slot [b]. *)
Definition dist (a b : Z) : Z := if a <=? b then b - a else b - a + n.

(** The next slot. *)
Definition next (i : Z) : Z := if i + 1 =? n then 0 else i + 1.

Lemma between_dist i j h :
  0 <= i < n -> 0 <= j < n -> 0 <= h < n -> i <> j -> between i j h (n - 1) = (0 <? dist i h) && (dist i h <=? dist i j).
Proof. intros Hi Hj Hh Hij. unfold between, dist. zcases; simpl; try reflexivity; lia. Qed.
End Circle.

Lemma land_next e i : 1 <= e -> 0 <= i < 2 ^ e -> Z.land (i + 1) (2 ^ e - 1) = next (2 ^ e) i.
Proof.
  intros He Hi. rewrite land_ones_wrap by lia. unfold wrap, next. destruct (Z.eqb_spec (i + 1) (2 ^ e)) as [->|].
  - apply Z.mod_same. lia.
  - apply Z.mod_small. lia.
Qed.

Lemma slot_range k e : 0 <= e -> 0 <= slot k (2 ^ e - 1) < 2 ^ e.
Proof. intros He. unfold slot. rewrite land_ones_wrap by done. by apply wrap_range. Qed.

(** ** Tables *)

Section Tables.
Context {V : Type}.
Implicit Types (m : IdMap V) (i j p q : Z).

Definition val_at m i : option V := mjoin (vals m !! Z.to_nat i).
Definition key_at m i : Z := nth (Z.to_nat i) (keys m) 0.

Definition table m (n : Z) : Prop := zlen (keys m) = n /\ zlen (vals m) = n.

Lemma kget_val m n i : table m n -> 0 <= i < n -> kget (vals m) i = Ok (val_at m i).
Proof.
  intros [_ Hv] Hi. unfold val_at. destruct (lookup_lt_is_Some_2 (vals m) (Z.to_nat i)) as [x Hx]; [unfold zlen in *; lia|].
  rewrite Hx. apply kget_Ok; [lia|done].
Qed.

Lemma kget_key m n i : table m n -> 0 <= i < n -> kget (keys m) i = Ok (key_at m i).
Proof.
  intros [Hk _] Hi. unfold key_at. destruct (lookup_lt_is_Some_2 (keys m) (Z.to_nat i)) as [x Hx]; [unfold zlen in *; lia|].
  rewrite (nth_lookup_Some _ _ _ _ Hx). apply kget_Ok; [lia|done].
Qed.

Lemma val_insert m n i x j ks s :
  table m n -> 0 <= i < n -> 0 <= j < n ->
  val_at {| keys := ks; vals := <[Z.to_nat i := x]> (vals m); msize := s |} j = if j =? i then x else val_at m j.
Proof.
  intros [_ Hv] Hi Hj. unfold val_at; cbn [vals]. destruct (Z.eqb_spec j i) as [->|].
  - by rewrite lookup_insert_Z by lia.
  - by rewrite list_lookup_insert_ne by lia.
Qed.

Lemma key_insert m n i x j vs s :
  table m n -> 0 <= i < n -> 0 <= j < n ->
  key_at {| keys := <[Z.to_nat i := x]> (keys m); vals := vs; msize := s |} j = if j =? i then x else key_at m j.
Proof.
  intros [Hk _] Hi Hj. unfold key_at; cbn [keys]. rewrite !nth_lookup. destruct (Z.eqb_spec j i) as [->|].
  - by rewrite lookup_insert_Z by lia.
  - by rewrite list_lookup_insert_ne by lia.
Qed.

(** How many slots are taken. *)
Definition cnt (l : list (option V)) : Z := zlen (omap id l).

Lemma cnt_app l1 l2 : cnt (l1 ++ l2) = cnt l1 + cnt l2.
Proof. unfold cnt. by rewrite omap_app, zlen_app. Qed.

Lemma cnt_insert l (i : nat) x y :
  l !! i = Some x -> cnt (<[i := y]> l) = cnt l - cnt [x] + cnt [y].
Proof.
  intros Hi. pose proof (lookup_lt_Some _ _ _ Hi). rewrite insert_take_drop by done.
  rewrite <- (take_drop_middle l i x Hi) at 3. rewrite (cons_middle y), (cons_middle x), !cnt_app. lia.
Qed.

Lemma cnt_full l : (forall (i : nat) x, l !! i = Some x -> is_Some x) -> cnt l = zlen l.
Proof.
  induction l as [|x l IH]; intros H; [done|]. destruct (H 0%nat x eq_refl) as [v ->].
  change (Some v :: l) with ([Some v] ++ l). rewrite cnt_app, zlen_app, IH; [done|]. intros i y Hy. by apply (H (S i)).
Qed.

Lemma empty_slot m n : table m n -> 0 <= n -> cnt (vals m) < n -> exists e, 0 <= e < n /\ val_at m e = None.
Proof.
  intros [_ Hv] Hn Hc. destruct (decide (Forall is_Some (vals m))) as [Hall|Hno].
  - rewrite cnt_full in Hc; [lia|]. intros i x Hx. by apply (Forall_lookup_1 _ _ _ _ Hall Hx).
  - apply not_Forall_Exists in Hno; [|apply _]. apply Exists_exists in Hno as (x & Hx & Hn').
    apply list_elem_of_lookup in Hx as [i Hi]. exists (Z.of_nat i). pose proof (lookup_lt_Some _ _ _ Hi). split; [unfold zlen in *; lia|].
    unfold val_at. rewrite Nat2Z.id, Hi. simpl. by apply eq_None_not_Some.
Qed.

Lemma val_lookup m n i : table m n -> 0 <= i < n -> vals m !! Z.to_nat i = Some (val_at m i).
Proof.
  intros [_ Hv] Hi. unfold val_at. destruct (lookup_lt_is_Some_2 (vals m) (Z.to_nat i)) as [x Hx]; [unfold zlen in *; lia|]. by rewrite Hx.
Qed.
End Tables.

(** ** The invariant *)

Section Invariant.
Context {V : Type} (e : Z).
Hypothesis He : 4 <= e <= 30.
Let n := 2 ^ e.
Implicit Types (m : IdMap V) (M : gmap Z V).

Definition home (k : Z) : Z := slot k (2 ^ e - 1).
Definition taken m (p : Z) : Prop := val_at m p <> None.

(** Every key is found by probing from its home, the slot [hole] apart. *)
Definition linked m (hole : Z) : Prop :=
  forall p q, 0 <= p < n -> 0 <= q < n -> taken m p ->
    dist n (home (key_at m p)) q < dist n (home (key_at m p)) p -> q = hole \/ taken m q.

(** The entries are those of [M], each in one slot. *)
Record entries m M : Prop := {
  ent_table : table m n;
  ent_keys : forall p, 0 <= p < n -> taken m p -> - 2 ^ 31 <= key_at m p < 2 ^ 31;
  ent_inj : forall p q, 0 <= p < n -> 0 <= q < n -> taken m p -> taken m q -> key_at m p = key_at m q -> p = q;
  ent_map : forall k v, M !! k = Some v <-> exists p, 0 <= p < n /\ val_at m p = Some v /\ key_at m p = k;
  ent_cnt : cnt (vals m) = msize m;
  ent_size : msize m = Z.of_nat (size M)
}.

Record rep m M : Prop := {
  rep_ent : entries m M;
  rep_linked : linked m (-1);
  rep_load : 2 * msize m <= n
}.

Lemma n_val : 16 <= n <= 2 ^ 30.
Proof. unfold n. pose proof (pow_mono 4 e ltac:(lia)). pose proof (pow_mono e 30 ltac:(lia)). lia. Qed.

Lemma home_range k : 0 <= home k < n.
Proof. apply slot_range. lia. Qed.

Lemma next_val i : 0 <= i < n -> Z.land (i + 1) (n - 1) = next n i.
Proof. intros. apply land_next; [lia|done]. Qed.

(** ** Probing *)

Definition passed m (k h i : Z) : Prop :=
  forall q, 0 <= q < n -> dist n h q < dist n h i -> taken m q /\ key_at m q <> k.

Lemma probe_spec m k x :
  table m n -> 0 <= x < n -> val_at m x = None ->
  wp (probe m k (n - 1)) (fun r => match r with
    | inl i => 0 <= i < n /\ taken m i /\ key_at m i = k
    | inr i => 0 <= i < n /\ val_at m i = None /\ passed m k (home k) i end) (fun _ => False).
Proof.
  intros Ht Hx Hnone. pose proof (home_range k) as Hh. pose proof n_val. unfold probe. change (slot k (n - 1)) with (home k).
  apply (wp_loop (fun i => 0 <= i < n /\ dist n (home k) i <= dist n (home k) x /\ passed m k (home k) i)
    (fun i => dist n (home k) x - dist n (home k) i)).
  - split; [done|]. split; [unfold dist; zcases; lia|]. intros q Hq Hd. exfalso. revert Hd. unfold dist. zcases; lia.
  - destruct Ht as [_ Hv]. unfold zlen in Hv. unfold dist. zcases; lia.
  - intros i (Hi & Hd & _). lia.
  - intros i (Hi & Hd & Hp). rewrite (kget_val m n i Ht Hi). cbn [obind]. destruct (val_at m i) as [v|] eqn:Ev; [|simpl; done].
    rewrite (kget_key m n i Ht Hi). cbn [obind]. destruct (Z.eqb_spec (key_at m i) k) as [Ek|Ek]; simpl.
    + split; [done|]. split; [|done]. unfold taken. by rewrite Ev.
    + rewrite next_val by done. assert (i <> x) by congruence.
      assert (dist n (home k) (next n i) = dist n (home k) i + 1 /\ 0 <= next n i < n) as [Hnx Hnr]
        by (revert Hd; unfold dist, next; zcases; lia).
      rewrite Hnx. split; [|lia]. split; [done|]. split; [revert Hd Hnx; unfold dist, next; zcases; lia|].
      intros q Hq Hlt. destruct (Z.eq_dec q i) as [->|]; [split; [unfold taken; by rewrite Ev|done]|].
      apply Hp; [done|]. revert Hnx Hlt. unfold dist, next. zcases; lia.
Qed.

(** A probe that ends on a null slot shows the key absent. *)
Lemma passed_absent m k i :
  linked m (-1) -> 0 <= i < n -> val_at m i = None -> passed m k (home k) i ->
  forall p, 0 <= p < n -> taken m p -> key_at m p <> k.
Proof.
  intros Hl Hi Hnone Hp p Hpr Htk Ek. destruct (Z.lt_trichotomy (dist n (home k) p) (dist n (home k) i)) as [Hlt|[Heq|Hgt]].
  - by destruct (Hp p Hpr Hlt).
  - assert (p = i) as -> by (pose proof (home_range k); revert Heq; unfold dist; zcases; lia). done.
  - destruct (Hl p i Hpr Hi Htk) as [->|Hti]; [by rewrite Ek|lia|done].
Qed.

(** The slot of [k] gets another value. *)
Lemma replace_entry m M k v i :
  rep m M -> 0 <= i < n -> taken m i -> key_at m i = k ->
  rep {| keys := keys m; vals := <[Z.to_nat i := Some v]> (vals m); msize := msize m |} (<[k := v]> M).
Proof.
  intros [[Ht Hkeys Hinj Hmap Hcnt Hsize] Hlink Hload] Hi Htk Ek. set (m' := {| keys := _ |}).
  assert (forall j, 0 <= j < n -> val_at m' j = if j =? i then Some v else val_at m j) as Hv by (intros; by apply (val_insert m n)).
  assert (forall j, key_at m' j = key_at m j) as Hk by done.
  assert (forall j, 0 <= j < n -> taken m' j <-> taken m j) as Htk'
    by (intros j Hj; unfold taken in *; rewrite Hv by done; destruct (Z.eqb_spec j i) as [->|]; [split; [done|discriminate]|done]).
  split; [split|..].
  - destruct Ht as [Ht1 Ht2]. unfold m'. split; cbn [keys vals]; [done|]. by rewrite zlen_insert.
  - intros p Hp Hp'. rewrite Hk. apply Hkeys; [done|by apply Htk'].
  - intros p q Hp Hq Hp' Hq'. rewrite !Hk. apply Hinj; try done; by apply Htk'.
  - intros k' v'. destruct (decide (k = k')) as [<-|Hne].
    + rewrite lookup_insert_eq. split.
      * intros [= <-]. exists i. rewrite Hv, Z.eqb_refl by done. done.
      * intros (p & Hp & Hpv & Hpk). rewrite Hk in Hpk. assert (p = i) as ->.
        { apply Hinj; try done; [|congruence]. apply Htk'; [done|]. unfold taken. by rewrite Hpv. }
        rewrite Hv, Z.eqb_refl in Hpv by done. done.
    + rewrite lookup_insert_ne by done. rewrite Hmap. split; intros (p & Hp & Hpv & Hpk); exists p; (split; [done|]).
      * rewrite Hv by done. destruct (Z.eqb_spec p i) as [->|]; [congruence|done].
      * rewrite Hv in Hpv by done. destruct (Z.eqb_spec p i) as [->|]; [congruence|done].
  - unfold m'; cbn [vals msize]. rewrite (cnt_insert _ _ (val_at m i)) by (by apply (val_lookup m n)).
    unfold taken in Htk. destruct (val_at m i); [|done]. change (cnt [Some v]) with 1. change (cnt [Some _]) with 1. lia.
  - unfold m'; cbn [msize]. rewrite Hsize. f_equal. rewrite map_size_insert_Some; [done|]. unfold taken in Htk. destruct (val_at m i) as [w|] eqn:Ew; [|done].
    exists w. apply Hmap. by exists i.
  - intros p q Hp Hq Hp' Hd. rewrite !Hk in Hd. destruct (Hlink p q Hp Hq) as [->|]; [by apply Htk'|done|lia|]. right. by apply Htk'.
  - done.
Qed.

(** A null slot at the end of the probe gets the key. *)
Lemma new_entry m M k v i :
  rep m M -> 2 * (msize m + 1) <= n -> - 2 ^ 31 <= k < 2 ^ 31 ->
  0 <= i < n -> val_at m i = None -> passed m k (home k) i ->
  rep {| keys := <[Z.to_nat i := k]> (keys m); vals := <[Z.to_nat i := Some v]> (vals m); msize := msize m + 1 |} (<[k := v]> M).
Proof.
  intros [[Ht Hkeys Hinj Hmap Hcnt Hsize] Hlink Hload] Hroom Hkr Hi Hnone Hpass. set (m' := {| keys := _ |}).
  pose proof (passed_absent m k i Hlink Hi Hnone Hpass) as Habs.
  assert (forall j, 0 <= j < n -> val_at m' j = if j =? i then Some v else val_at m j) as Hv by (intros; by apply (val_insert m n)).
  assert (forall j, 0 <= j < n -> key_at m' j = if j =? i then k else key_at m j) as Hk by (intros; by apply (key_insert m n)).
  assert (forall j, 0 <= j < n -> taken m' j <-> j = i \/ taken m j) as Htk'.
  { intros j Hj. unfold taken. rewrite Hv by done. destruct (Z.eqb_spec j i) as [->|]; [split; [by left|discriminate]|].
    split; [by right|]. by intros [?|?]. }
  assert (M !! k = None) as HMk.
  { destruct (M !! k) as [w|] eqn:E; [|done]. apply Hmap in E as (p & Hp & Hpv & Hpk). destruct (Habs p Hp); [|done]. unfold taken. by rewrite Hpv. }
  split; [split|..].
  - destruct Ht as [Ht1 Ht2]. unfold m'. split; cbn [keys vals]; by rewrite zlen_insert.
  - intros p Hp Hp'. rewrite Hk by done. destruct (Z.eqb_spec p i); [done|]. apply Hkeys; [done|]. by apply Htk' in Hp' as [?|?].
  - intros p q Hp Hq Hp' Hq'. apply Htk' in Hp', Hq'; [|done..]. rewrite !Hk by done.
    destruct (Z.eqb_spec p i) as [->|], (Z.eqb_spec q i) as [->|]; try done; intros E.
    + exfalso. destruct Hq' as [?|Hq']; [done|]. by apply (Habs q Hq Hq').
    + exfalso. destruct Hp' as [?|Hp']; [done|]. by apply (Habs p Hp Hp').
    + destruct Hp', Hq'; try done. by apply Hinj.
  - intros k' v'. destruct (decide (k = k')) as [<-|Hne].
    + rewrite lookup_insert_eq. split.
      * intros [= <-]. exists i. by rewrite Hv, Hk, Z.eqb_refl.
      * intros (p & Hp & Hpv & Hpk). rewrite Hv in Hpv by done. rewrite Hk in Hpk by done. destruct (Z.eqb_spec p i); [done|].
        destruct (Habs p Hp); [unfold taken; by rewrite Hpv|done].
    + rewrite lookup_insert_ne by done. rewrite Hmap. split; intros (p & Hp & Hpv & Hpk); exists p; (split; [done|]).
      * rewrite Hv, Hk by done. destruct (Z.eqb_spec p i) as [->|]; [congruence|done].
      * rewrite Hv in Hpv by done. rewrite Hk in Hpk by done. destruct (Z.eqb_spec p i) as [->|]; [congruence|done].
  - unfold m'; cbn [vals msize]. rewrite (cnt_insert _ _ (val_at m i)) by (by apply (val_lookup m n)). rewrite Hnone.
    change (cnt [Some v]) with 1. change (cnt [None]) with 0. lia.
  - unfold m'; cbn [msize]. rewrite map_size_insert_None by done. lia.
  - intros p q Hp Hq Hp' Hd. apply Htk' in Hp'; [|done]. rewrite Htk' by done. rewrite Hk in Hd by done. destruct (Z.eqb_spec p i) as [->|].
    + right. right. by destruct (Hpass q Hq Hd).
    + destruct Hp' as [?|Hp']; [done|]. destruct (Hlink p q Hp Hq Hp' Hd); [by left|]. right. by right.
  - unfold m'; cbn [msize]. lia.
Qed.

Lemma put_rep m M k v :
  rep m M -> 2 * (msize m + 1) <= n -> - 2 ^ 31 <= k < 2 ^ 31 -> exists m', put m k v = Ok m' /\ rep m' (<[k := v]> M).
Proof.
  intros Hr Hroom Hkr. pose proof Hr as [[Ht Hkeys Hinj Hmap Hcnt Hsize] Hlink Hload]. pose proof n_val. unfold put.
  destruct (empty_slot m n Ht) as (x & Hx & Hnone); [lia|lia|]. pose proof (probe_spec m k x Ht Hx Hnone) as Hp.
  pose proof Ht as [Htk Htv]. rewrite Htk. apply wp_exists in Hp as (r & -> & Hp). cbn [obind]. destruct r as [i|i].
  - destruct Hp as (Hi & Hti & Ek). rewrite kset_Ok by lia. cbn [obind]. eexists. split; [reflexivity|]. by apply replace_entry.
  - destruct Hp as (Hi & Hni & Hpass). rewrite !kset_Ok by lia. cbn [obind]. eexists. split; [reflexivity|]. by apply new_entry.
Qed.

(** ** Deletion *)

(** The hole [i], the scan [j], a slot [x] that stays null: what lies between the hole and the scan stays where it is,
    and only keys from the scan on may need the hole. *)
Record shifting m M (x i j : Z) : Prop := {
  sh_ent : entries m M;
  sh_range : 0 <= i < n /\ 0 <= j < n /\ i <> j /\ 0 <= x < n /\ x <> i;
  sh_hole : val_at m i = None;
  sh_null : val_at m x = None;
  sh_scan : dist n i j <= dist n i x;
  sh_linked : linked m i;
  sh_after : forall p, 0 <= p < n -> taken m p ->
    dist n (home (key_at m p)) i < dist n (home (key_at m p)) p -> dist n i j <= dist n i p
}.

(** The scan ends: nobody needs the hole. *)
Lemma shift_done m M x i j : shifting m M x i j -> val_at m j = None -> linked m (-1).
Proof.
  intros [Hent (Hi & Hj & Hij & Hx & Hxi) Hhole Hnull Hscan Hlink Hafter] Hnone p q Hp Hq Htk Hd.
  destruct (Hlink p q Hp Hq Htk Hd) as [->|]; [|by right]. exfalso. specialize (Hafter p Hp Htk Hd).
  pose proof (home_range (key_at m p)). assert (p <> j) by (unfold taken in Htk; congruence).
  destruct (Hlink p j Hp Hj Htk) as [E|Htj]; [revert Hd Hafter; unfold dist; zcases; lia|lia|]. by unfold taken in Htj.
Qed.

(** The scanned key is between its home and the hole: it stays. *)
Lemma shift_stay m M x i j :
  shifting m M x i j -> taken m j -> between i j (home (key_at m j)) (n - 1) = true -> shifting m M x i (next n j).
Proof.
  intros [Hent (Hi & Hj & Hij & Hx & Hxi) Hhole Hnull Hscan Hlink Hafter] Htj Hb.
  pose proof (home_range (key_at m j)) as Hh. pose proof n_val. rewrite between_dist in Hb by (done || lia).
  apply andb_true_iff in Hb as [Hb1%Z.ltb_lt Hb2%Z.leb_le]. assert (x <> j) by (unfold taken in Htj; congruence).
  assert (dist n i (next n j) = dist n i j + 1 /\ 0 <= next n j < n /\ i <> next n j /\ dist n i j < dist n i x) as (Hd & Hr & Hne & Hlt)
    by (revert Hscan; unfold dist, next; zcases; lia).
  split; try done; [lia|]. intros p Hp Htk Hpath. specialize (Hafter p Hp Htk Hpath). rewrite Hd.
  destruct (Z.eq_dec p j) as [->|]; [exfalso; revert Hpath Hb1 Hb2; unfold dist; zcases; lia|].
  revert Hafter. unfold dist. zcases; lia.
Qed.

(** The scanned key needs the hole: it moves there, and leaves a hole. *)
Lemma shift_move m M x i j :
  shifting m M x i j -> taken m j -> between i j (home (key_at m j)) (n - 1) = false ->
  shifting {| keys := <[Z.to_nat i := key_at m j]> (keys m);
              vals := <[Z.to_nat j := None]> (<[Z.to_nat i := val_at m j]> (vals m)); msize := msize m |} M x j (next n j).
Proof.
  intros [[Ht Hkeys Hinj Hmap Hcnt Hsize] (Hi & Hj & Hij & Hx & Hxi) Hhole Hnull Hscan Hlink Hafter] Htj Hb.
  pose proof (home_range (key_at m j)) as Hh. pose proof n_val. rewrite between_dist in Hb by (done || lia).
  assert (dist n (home (key_at m j)) i < dist n (home (key_at m j)) j) as Hneed
    by (apply andb_false_iff in Hb as [Hb%Z.ltb_ge|Hb%Z.leb_gt]; revert Hb; unfold dist; zcases; lia).
  set (m' := {| keys := _ |}). assert (x <> j) by (unfold taken in Htj; congruence).
  assert (forall q, 0 <= q < n -> val_at m' q = if q =? j then None else if q =? i then val_at m j else val_at m q) as Hv.
  { intros q Hq. unfold m'.
    pose proof (val_insert {| keys := keys m; vals := <[Z.to_nat i := val_at m j]> (vals m); msize := msize m |} n j None q
      (<[Z.to_nat i := key_at m j]> (keys m)) (msize m)) as Hv1. cbn [vals] in Hv1. rewrite Hv1; [|destruct Ht; split; cbn [keys vals]; by rewrite ?zlen_insert|done..].
    by rewrite (val_insert m n) by done. }
  assert (forall q, 0 <= q < n -> key_at m' q = if q =? i then key_at m j else key_at m q) as Hk by (intros; by apply (key_insert m n)).
  assert (forall q, 0 <= q < n -> taken m' q <-> q <> j /\ (q = i \/ taken m q)) as Htk.
  { intros q Hq. unfold taken in *. rewrite Hv by done. destruct (Z.eqb_spec q j) as [->|]; [split; [done|by intros []]|].
    destruct (Z.eqb_spec q i) as [->|]; [split; [by auto|done]|]. split; [by auto|]. intros [_ [?|?]]; done. }
  split; [split|..].
  - destruct Ht as [Ht1 Ht2]. unfold m'. split; cbn [keys vals]; by rewrite !zlen_insert.
  - intros p Hp Hp'. apply Htk in Hp' as [Hpj Hp']; [|done]. rewrite Hk by done. destruct (Z.eqb_spec p i); [by apply Hkeys|].
    destruct Hp'; [done|]. by apply Hkeys.
  - intros p q Hp Hq Hp' Hq'. apply Htk in Hp' as [Hpj Hp'], Hq' as [Hqj Hq']; [|done..]. rewrite !Hk by done.
    destruct (Z.eqb_spec p i) as [->|], (Z.eqb_spec q i) as [->|]; try done; intros E.
    + destruct Hq' as [?|Hq']; [done|]. by apply Hinj in E.
    + destruct Hp' as [?|Hp']; [done|]. by apply Hinj in E.
    + destruct Hp', Hq'; try done. by apply Hinj.
  - intros k v. rewrite Hmap. split; intros (p & Hp & Hpv & Hpk).
    + destruct (Z.eq_dec p j) as [->|Hpj].
      * exists i. rewrite Hv, Hk, Z.eqb_refl by done. rewrite (proj2 (Z.eqb_neq i j)) by done. done.
      * exists p. rewrite Hv, Hk by done. rewrite (proj2 (Z.eqb_neq p j)) by done. destruct (Z.eqb_spec p i) as [->|]; [congruence|done].
    + rewrite Hv in Hpv by done. rewrite Hk in Hpk by done. destruct (Z.eqb_spec p j); [done|]. destruct (Z.eqb_spec p i); [by exists j|by exists p].
  - unfold m'; cbn [vals msize]. pose proof (val_lookup m n i Ht Hi) as Li. pose proof (val_lookup m n j Ht Hj) as Lj.
    rewrite (cnt_insert _ _ (val_at m j)) by (by rewrite list_lookup_insert_ne by lia). rewrite (cnt_insert _ _ _ _ Li), Hhole.
    change (cnt [None]) with 0. lia.
  - done.
  - unfold next. zcases; lia.
  - rewrite Hv, Z.eqb_refl by done. done.
  - rewrite Hv by done. rewrite (proj2 (Z.eqb_neq x j)), (proj2 (Z.eqb_neq x i)) by lia. done.
  - unfold dist, next. zcases; lia.
  - intros p q Hp Hq Hp' Hd. apply Htk in Hp' as [Hpj Hp']; [|done]. rewrite Hk in Hd by done.
    destruct (Z.eq_dec q j) as [->|Hqj]; [by left|]. right. apply Htk; [done|]. split; [done|].
    destruct (Z.eqb_spec p i) as [->|].
    + destruct (Hlink j q Hj Hq Htj) as [->|]; [lia|lia|by right].
    + destruct Hp' as [?|Hp']; [done|]. destruct (Hlink p q Hp Hq Hp' Hd) as [->|]; [by left|by right].
  - intros p Hp Hp' _. apply Htk in Hp' as [Hpj _]; [|done]. unfold dist, next. zcases; lia.
Qed.

Lemma shift_loop m M x i j :
  shifting m M x i j -> 2 * msize m <= n ->
  wp (loop (S (length (vals m))) (shift_body (n - 1)) (m, i, j)) (fun m' => rep m' M) (fun _ => False).
Proof.
  intros Hsh Hload. set (s0 := msize m).
  apply (wp_loop (fun st => let '(m', i', j') := st in shifting m' M x i' j' /\ msize m' = s0) (fun st => dist n st.2 x)).
  - done.
  - destruct Hsh as [[[Ht1 Ht2] _ _ _ _ _] (Hi & Hj & _ & Hx & _) _ _ _ _ _]. unfold zlen in Ht2. cbn [snd]. unfold dist. zcases; lia.
  - intros [[m' i'] j'] [[_ (Hi & Hj & _ & Hx & _) _ _ _ _ _] _]. cbn [snd]. unfold dist. zcases; lia.
  - intros [[m' i'] j'] [Hs Hm]. pose proof Hs as [[Ht _ _ _ _ _] (Hi & Hj & Hij & Hx & Hxi) Hhole Hnull Hscan Hlink Hafter].
    unfold shift_body. rewrite (kget_val m' n j' Ht Hj). cbn [obind]. destruct (val_at m' j') as [v|] eqn:Ev.
    2:{ cbn [wp]. split; [by destruct Hs|by eapply shift_done|lia]. }
    rewrite (kget_key m' n j' Ht Hj). cbn [obind]. change (slot (key_at m' j') (n - 1)) with (home (key_at m' j')).
    assert (taken m' j') as Htj by (unfold taken; by rewrite Ev). assert (x <> j') by congruence.
    assert (dist n (next n j') x < dist n j' x) as Hlt by (revert Hscan; unfold dist, next; zcases; lia).
    destruct (between i' j' (home (key_at m' j')) (n - 1)) eqn:Eb; cbn [obind].
    + rewrite next_val by done. cbn [wp]. split; [|done]. split; [by apply shift_stay|done].
    + destruct Ht as [Ht1 Ht2]. rewrite !kset_Ok by (rewrite ?zlen_insert; lia). cbn [obind]. rewrite kset_Ok by (rewrite ?zlen_insert; lia). cbn [obind].
      rewrite next_val by done. cbn [wp]. split; [|done]. split; [|done].
      pose proof (shift_move m' M x i' j' Hs Htj Eb) as Hmv. by rewrite Ev in Hmv.
Qed.

Lemma remove_rep m M id :
  rep m M -> exists m', remove m id = Ok (M !! toInt id, m') /\ rep m' (delete (toInt id) M).
Proof.
  intros Hr. pose proof Hr as [[Ht Hkeys Hinj Hmap Hcnt Hsize] Hlink Hload]. pose proof n_val. unfold remove. set (k := toInt id).
  destruct (empty_slot m n Ht) as (x & Hx & Hnone); [lia|lia|]. pose proof (probe_spec m k x Ht Hx Hnone) as Hp.
  pose proof Ht as [Htk Htv]. rewrite Htk. apply wp_exists in Hp as (r & -> & Hp). cbn [obind]. destruct r as [i|i].
  2:{ destruct Hp as (Hi & Hni & Hpass). pose proof (passed_absent m k i Hlink Hi Hni Hpass) as Habs.
      assert (M !! k = None) as HMk.
      { destruct (M !! k) as [w|] eqn:E; [|done]. apply Hmap in E as (p & Hp & Hpv & Hpk). destruct (Habs p Hp); [|done]. unfold taken. by rewrite Hpv. }
      exists m. rewrite HMk. by rewrite delete_id. }
  destruct Hp as (Hi & Hti & Ek). rewrite (kget_val m n i Ht Hi), kset_Ok by lia. cbn [obind]. rewrite next_val by done.
  destruct (val_at m i) as [v|] eqn:Ev; [|done]. assert (M !! k = Some v) as HMk by (apply Hmap; by exists i).
  set (m1 := {| keys := _ |}).
  assert (forall j, 0 <= j < n -> val_at m1 j = if j =? i then None else val_at m j) as Hv by (intros; by apply (val_insert m n)).
  assert (forall j, key_at m1 j = key_at m j) as Hk by done.
  assert (forall j, 0 <= j < n -> taken m1 j <-> j <> i /\ taken m j) as Htk'.
  { intros j Hj. unfold taken. rewrite Hv by done. destruct (Z.eqb_spec j i); [split; [done|by intros []]|by split; [|intros []]]. }
  assert (x <> i) by congruence.
  assert (shifting m1 (delete k M) x i (next n i)) as Hsh.
  { split; [split|..].
    - unfold m1. split; cbn [keys vals]; by rewrite ?zlen_insert.
    - intros p Hp [_ Hp']%Htk'; [|done]. rewrite Hk. by apply Hkeys.
    - intros p q Hp Hq [_ Hp']%Htk' [_ Hq']%Htk'; [|done..]. rewrite !Hk. by apply Hinj.
    - intros k' v'. rewrite lookup_delete_Some, Hmap. split.
      + intros (Hne & p & Hp & Hpv & Hpk). exists p. rewrite Hv by done. destruct (Z.eqb_spec p i) as [->|]; [congruence|done].
      + intros (p & Hp & Hpv & Hpk). rewrite Hv in Hpv by done. destruct (Z.eqb_spec p i) as [|Hpi]; [done|]. split; [|by exists p].
        intros Hkk. apply Hpi, Hinj; try done; [unfold taken; by rewrite Hpv|]. rewrite Hk in Hpk. congruence.
    - unfold m1; cbn [vals msize]. rewrite (cnt_insert _ _ (val_at m i)) by (by apply (val_lookup m n)). rewrite Ev.
      change (cnt [Some v]) with 1. change (cnt [None]) with 0. lia.
    - unfold m1; cbn [msize]. rewrite (map_size_delete_Some k M) by (by exists v). assert (size M <> 0%nat); [|lia].
      intros E%map_size_empty_inv. subst M. done.
    - unfold next. zcases; lia.
    - rewrite Hv, Z.eqb_refl by done. done.
    - rewrite Hv by done. by rewrite (proj2 (Z.eqb_neq x i)) by done.
    - unfold dist, next. zcases; lia.
    - intros p q Hp Hq Hp'%Htk' Hd; [|done]. rewrite !Hk in Hd. destruct (Hlink p q Hp Hq (proj2 Hp') Hd) as [->|Htq]; [lia|].
      destruct (Z.eq_dec q i) as [->|]; [by left|]. right. by apply Htk'.
    - intros p Hp Hp'%Htk' _; [|done]. destruct Hp' as [Hpi _]. unfold dist, next. zcases; lia. }
  assert (2 * msize m1 <= n) as Hl1 by (unfold m1; cbn [msize]; lia).
  pose proof (shift_loop m1 (delete k M) x i (next n i) Hsh Hl1) as Hloop. apply wp_exists in Hloop as (m' & -> & Hrep).
  cbn [obind]. exists m'. by rewrite HMk.
Qed.

Lemma rep_empty ks vs :
  zlen ks = n -> vs = replicate (Z.to_nat n) None -> rep {| keys := ks; vals := vs; msize := 0 |} ∅.
Proof.
  intros Hk ->. pose proof n_val. set (m := {| keys := _ |}).
  assert (forall p, val_at m p = None) as Hv.
  { intros p. unfold val_at, m; cbn [vals]. destruct (replicate (Z.to_nat n) None !! Z.to_nat p) as [x|] eqn:E; [|done].
    apply lookup_replicate_1 in E as [-> _]. done. }
  split; [split|..].
  - split; [done|]. unfold m; cbn [vals]. rewrite zlen_replicate. lia.
  - intros p Hp Htk. by destruct Htk.
  - intros p q Hp Hq Htk. by destruct Htk.
  - intros k v. rewrite lookup_empty. split; [done|]. intros (p & _ & Hpv & _). by rewrite Hv in Hpv.
  - unfold m; cbn [vals msize]. generalize (Z.to_nat n). intros c. induction c as [|c IH]; [done|]. cbn [replicate].
    change (None :: ?l) with ([None] ++ l). rewrite cnt_app, IH. done.
  - done.
  - intros p q Hp Hq Htk. by destruct Htk.
  - unfold m; cbn [msize]. lia.
Qed.
End Invariant.

(** ** Growth *)

Section Growth.
Context {V : Type} (e : Z).
Hypothesis He : 4 <= e <= 29.
Implicit Types (m : IdMap V) (M : gmap Z V).

Lemma set_room depth m M id v :
  rep e m M -> 2 * (msize m + 1) <= 2 ^ e -> exists m', set_depth depth m id v = Ok m' /\ rep e m' (<[toInt id := v]> M).
Proof.
  intros Hr Hroom. pose proof Hr as [[[Ht _] _ _ _ _ Hs] _ _]. pose proof (n_val e ltac:(lia)).
  assert ((if zlen (keys m) <? s32 ((msize m + 1) * 2) then
      match depth with O => Fault OutOfFuel | S depth => grow_with (set_depth depth) m end else Ok m) = (Ok m : kt (IdMap V))) as E.
  { rewrite Ht. rewrite sgn_small by (lia || (change (2 ^ (32 - 1)) with (2 ^ 31); lia)).
    by rewrite (proj2 (Z.ltb_ge (2 ^ e) _)) by lia. }
  destruct depth as [|depth]; cbn [set_depth]; rewrite E; cbn [obind]; apply put_rep; try done; try lia; apply toInt_range.
Qed.

(** The entries of the first [s] slots. *)
Definition prefix_map m M (s : Z) : Prop :=
  forall k v, M !! k = Some v <-> exists p, 0 <= p < s /\ val_at m p = Some v /\ key_at m p = k.

Lemma prefix_step m M Ms s k v :
  rep e m M -> 0 <= s < 2 ^ e -> val_at m s = Some v -> key_at m s = k -> prefix_map m Ms s -> prefix_map m (<[k := v]> Ms) (s + 1).
Proof.
  intros [[Ht Hkeys Hinj Hmap Hcnt Hsize] _ _] Hs Hv Hk Hp k' v'. destruct (decide (k = k')) as [<-|Hne].
  - rewrite lookup_insert_eq. split; [intros [= <-]; exists s; split; [lia|done]|].
    intros (p & Hpr & Hpv & Hpk). assert (p = s) as ->; [|congruence].
    apply Hinj; [lia|lia|unfold taken; by rewrite Hpv|unfold taken; by rewrite Hv|congruence].
  - rewrite lookup_insert_ne by done. rewrite (Hp k' v'). split; intros (p & Hpr & Hpv & Hpk); exists p; (split; [|done]); [lia|].
    destruct (Z.eq_dec p s) as [->|]; [congruence|lia].
Qed.

Lemma prefix_sub m M Ms s : rep e m M -> s <= 2 ^ e -> prefix_map m Ms s -> (size Ms <= size M)%nat.
Proof.
  intros [[_ _ _ Hmap _ _] _ _] Hs Hp. apply map_subseteq_size, map_subseteq_spec. intros k v (p & Hpr & Hpv)%Hp.
  apply Hmap. exists p. split; [lia|done].
Qed.

Lemma grow_rep m M :
  rep e m M -> exists m', grow_with (set_depth 0) m = Ok m' /\ rep (e + 1) m' M.
Proof.
  intros Hr. pose proof Hr as [[[Ht1 Ht2] Hkeys Hinj Hmap Hcnt Hsize] _ Hload]. pose proof (n_val e ltac:(lia)) as Hn.
  assert (2 ^ (e + 1) = 2 * 2 ^ e) as Hpow by (rewrite Z.pow_add_r by lia; lia). pose proof (pow_mono e 29 ltac:(lia)) as Hp29.
  unfold grow_with, arrayOfNulls, arrayOf. rewrite Ht1.
  rewrite (sgn_small 32) by (lia || (change (2 ^ (32 - 1)) with (2 ^ 31); lia)).
  rewrite (proj2 (Z.ltb_ge (2 ^ e * 2) 0)) by lia. cbn [obind]. rewrite zlen_replicate, (proj2 (Z.ltb_ge _ 0)) by lia. cbn [obind].
  match goal with |- exists m', for_range _ _ ?body ?m0 = _ /\ _ =>
    assert (wp (for_range 0 (2 ^ e) body m0) (fun m' => exists Ms, rep (e + 1) m' Ms /\ prefix_map m Ms (2 ^ e)) (fun _ => False)) as H end.
  { apply (wp_for_range (fun s m' => exists Ms, rep (e + 1) m' Ms /\ prefix_map m Ms s)); [lia| |].
    - exists ∅. split; [apply rep_empty; [lia|rewrite zlen_replicate, Hpow; lia|f_equal; rewrite Hpow; lia]|].
      intros k v. rewrite lookup_empty. split; [done|]. intros (p & Hp & _). lia.
    - intros s m' Hs (Ms & Hrs & Hps). rewrite (kget_val m (2 ^ e) s) by done. cbn [obind].
      destruct (val_at m s) as [v|] eqn:Ev.
      + rewrite (kget_key m (2 ^ e) s) by done. cbn [obind].
        pose proof (prefix_sub m M Ms s Hr ltac:(lia) Hps). pose proof Hrs as [[_ _ _ _ _ Hss] _ _].
        assert (- 2 ^ 31 <= key_at m s < 2 ^ 31) as Hkr by (apply Hkeys; [done|unfold taken; by rewrite Ev]).
        pose proof (put_rep (e + 1) ltac:(lia) m' Ms (key_at m s) v Hrs ltac:(lia) Hkr) as (m2 & Eput & Hr2).
        cbn [set_depth]. pose proof Hrs as [[[Hk' _] _ _ _ _ _] _ _]. rewrite Hk'.
        rewrite (sgn_small 32) by (lia || (change (2 ^ (32 - 1)) with (2 ^ 31); lia)).
        rewrite (proj2 (Z.ltb_ge (2 ^ (e + 1)) _)) by lia. cbn [obind]. rewrite toInt_toUInt, Eput by done. cbn [wp].
        exists (<[key_at m s := v]> Ms). split; [done|]. by eapply prefix_step.
      + cbn [wp]. exists Ms. split; [done|]. intros k v. rewrite (Hps k v).
        split; intros (p & Hp & Hpv & Hpk); exists p; (split; [|done]); [lia|]. destruct (Z.eq_dec p s) as [->|]; [congruence|lia]. }
  apply wp_exists in H as (m' & E & Ms & Hrs & Hps). exists m'. split; [done|].
  assert (Ms = M) as ->; [|done]. apply map_eq. intros k. apply option_eq. intros v. by rewrite (Hps k v), Hmap.
Qed.
End Growth.

(** ** Sequences of operations *)

Section Traces.
Context {V : Type}.
Implicit Types (m : IdMap V) (M : gmap Z V).

(** [m] is a table for [M]. *)
Definition idmap_rep m M : Prop := exists e, 4 <= e <= 29 /\ rep e m M.

Lemma set_rep m M id v :
  idmap_rep m M -> Z.of_nat (size M) < 2 ^ 27 -> exists m', set m id v = Ok m' /\ idmap_rep m' (<[toInt id := v]> M).
Proof.
  intros (e & He & Hr) Hsz. pose proof Hr as [[[Ht _] _ _ _ _ Hs] _ Hload]. destruct (Z.le_gt_cases (2 * (msize m + 1)) (2 ^ e)) as [Hle|Hgt].
  - destruct (set_room e ltac:(lia) 1 m M id v Hr Hle) as (m' & E & H'). exists m'. split; [done|]. by exists e.
  - assert (e < 28) as He28. { destruct (Z.le_gt_cases 28 e) as [H28|]; [|done]. pose proof (pow_mono 28 e ltac:(lia)). lia. }
    destruct (grow_rep e ltac:(lia) m M Hr) as (m1 & E1 & Hr1). pose proof Hr1 as [[_ _ _ _ _ Hs1] _ _].
    assert (2 ^ (e + 1) = 2 * 2 ^ e) as Hpow by (rewrite Z.pow_add_r by lia; lia). pose proof (n_val e ltac:(lia)).
    destruct (put_rep (e + 1) ltac:(lia) m1 M (toInt id) v Hr1 ltac:(lia) (toInt_range id)) as (m2 & E2 & Hr2).
    exists m2. split; [|exists (e + 1); split; [lia|done]]. unfold set. cbn [set_depth]. rewrite Ht.
    rewrite (sgn_small 32) by (lia || (change (2 ^ (32 - 1)) with (2 ^ 31); lia)). rewrite (proj2 (Z.ltb_lt (2 ^ e) _)) by lia.
    cbn [set_depth] in E1. rewrite E1. cbn [obind]. done.
Qed.

Lemma remove_idmap m M id : idmap_rep m M -> exists m', remove m id = Ok (M !! toInt id, m') /\ idmap_rep m' (delete (toInt id) M).
Proof.
  intros (e & He & Hr). destruct (remove_rep e ltac:(lia) m M id Hr) as (m' & E & H'). exists m'. split; [done|]. by exists e.
Qed.

Lemma clear_idmap m M : idmap_rep m M -> idmap_rep (clear m) ∅.
Proof.
  intros (e & He & Hr). exists e. split; [done|]. destruct Hr as [[[Ht1 Ht2] _ _ _ _ _] _ _]. apply rep_empty; [lia|done|]. f_equal. unfold zlen in Ht2. lia.
Qed.

Lemma tableSize_val initial : initial <= 2 ^ 28 -> exists e, 4 <= e <= 29 /\ (-2 ^ 30 <= initial -> tableSize initial = Ok (2 ^ e)).
Proof.
  intros Hi. destruct (Z.le_gt_cases (-2 ^ 30) initial) as [Hlo|Hlo]; [|exists 4; split; [lia|lia]].
  assert (wp (tableSize initial) (fun s => exists e, 4 <= e <= 29 /\ s = 2 ^ e) (fun _ => False)) as H.
  { unfold tableSize. rewrite sgn_small by (lia || (change (2 ^ (32 - 1)) with (2 ^ 31); lia)).
    apply (wp_loop (fun s => exists c, 4 <= c <= 29 /\ s = 2 ^ c) (fun s => 29 - Z.log2 s)).
    - by exists 4.
    - simpl. lia.
    - intros s (c & Hc & ->). rewrite Z.log2_pow2 by lia. lia.
    - intros s (c & Hc & ->). destruct (Z.ltb_spec (2 ^ c) (initial * 2)) as [Hlt|Hge]; simpl; [|by exists c].
      assert (c < 29) as Hc29. { destruct (Z.eq_dec c 29) as [->|]; [lia|lia]. }
      assert (2 ^ (c + 1) = 2 * 2 ^ c) as Hp by (rewrite Z.pow_add_r by lia; lia). pose proof (pow_mono (c + 1) 29 ltac:(lia)). pose proof (pow_mono 0 c ltac:(lia)).
      rewrite Z.shiftl_mul_pow2, sgn_small by (lia || (change (2 ^ (32 - 1)) with (2 ^ 31); lia)).
      change (2 ^ 1) with 2. rewrite Z.mul_comm, <- Hp. rewrite !Z.log2_pow2 by lia. split; [|lia]. exists (c + 1). split; [lia|done]. }
  apply wp_exists in H as (s & E & e & He & ->). by exists e.
Qed.

Lemma new_idmap initial : -2 ^ 30 <= initial <= 2 ^ 28 -> exists m : IdMap V, newIdMap initial = Ok m /\ idmap_rep m ∅.
Proof.
  intros Hi. destruct (tableSize_val initial) as (e & He & E); [lia|]. unfold newIdMap. rewrite E by lia. cbn [obind].
  pose proof (n_val e ltac:(lia)). unfold arrayOfNulls, arrayOf. rewrite (proj2 (Z.ltb_ge (2 ^ e) 0)) by lia. cbn [obind].
  rewrite zlen_replicate, (proj2 (Z.ltb_ge _ 0)) by lia. cbn [obind]. eexists. split; [reflexivity|]. exists e. split; [done|].
  apply rep_empty; [lia|rewrite zlen_replicate; lia|f_equal; lia].
Qed.

Inductive mop := MSet (id : Z) (v : V) | MRemove (id : Z) | MClear | MSize.
Inductive mseen := MDone | MRemoved (v : option V) | MSizeIs (n : Z).

Definition idmap_step m (o : mop) : kt (mseen * IdMap V) :=
  match o with
  | MSet id v => let* m := set m id v in Ok (MDone, m)
  | MRemove id => let* (v, m) := remove m id in Ok (MRemoved v, m)
  | MClear => Ok (MDone, clear m)
  | MSize => Ok (MSizeIs (msize m), m)
  end.

Fixpoint idmap_run m (os : list mop) : kt (list mseen) :=
  match os with
  | [] => Ok []
  | o :: os => let* (y, m) := idmap_step m o in let* ys := idmap_run m os in Ok (y :: ys)
  end.

(** The map, keyed by the ids read as [Int]s. *)
Definition map_step M (o : mop) : mseen * gmap Z V :=
  match o with
  | MSet id v => (MDone, <[toInt id := v]> M)
  | MRemove id => (MRemoved (M !! toInt id), delete (toInt id) M)
  | MClear => (MDone, ∅)
  | MSize => (MSizeIs (Z.of_nat (size M)), M)
  end.

Fixpoint map_run M (os : list mop) : list mseen :=
  match os with
  | [] => []
  | o :: os => let '(y, M) := map_step M o in y :: map_run M os
  end.

Lemma idmap_step_sim m M o :
  idmap_rep m M -> Z.of_nat (size M) < 2 ^ 27 ->
  exists m', idmap_step m o = Ok ((map_step M o).1, m') /\ idmap_rep m' (map_step M o).2 /\ (size (map_step M o).2 <= size M + 1)%nat.
Proof.
  intros Hr Hs. destruct o as [id v|id| |]; cbn [idmap_step map_step fst snd].
  - destruct (set_rep m M id v Hr Hs) as (m' & -> & H'). exists m'. split; [done|]. split; [done|]. rewrite map_size_insert. destruct (M !! toInt id); simpl; lia.
  - destruct (remove_idmap m M id Hr) as (m' & -> & H'). exists m'. split; [done|]. split; [done|]. rewrite map_size_delete. destruct (M !! toInt id); simpl; lia.
  - eexists. split; [done|]. split; [by eapply clear_idmap|]. rewrite map_size_empty. lia.
  - exists m. pose proof Hr as (e & _ & [[_ _ _ _ _ ->] _ _]). split; [done|]. split; [done|]. lia.
Qed.

Lemma idmap_run_sim os : forall m M, idmap_rep m M -> Z.of_nat (size M) + zlen os < 2 ^ 27 -> idmap_run m os = Ok (map_run M os).
Proof.
  induction os as [|o os IH]; intros m M Hr Hl; [done|]. rewrite zlen_cons in Hl. pose proof (zlen_nonneg os). cbn [idmap_run map_run].
  destruct (idmap_step_sim m M o Hr) as (m' & -> & H' & Hz); [lia|]. destruct (map_step M o) as [y M']. cbn [fst snd obind] in *.
  by rewrite (IH m' M') by (try done; lia).
Qed.

(** ** The values visited *)

Definition pairs (ks : list Z) (vs : list (option V)) : list (Z * V) :=
  omap (fun p => v ← p.2; Some (p.1, v)) (zip ks vs).

Lemma pairs_values ks : forall vs, length ks = length vs -> (pairs ks vs).*2 = omap id vs.
Proof.
  induction ks as [|k ks IH]; intros [|[v|] vs] Hl; try done; unfold pairs in *; simpl in *; [f_equal|]; apply IH; lia.
Qed.

Lemma elem_of_pairs ks vs k v : (k, v) ∈ pairs ks vs <-> exists i, ks !! i = Some k /\ vs !! i = Some (Some v).
Proof.
  unfold pairs. rewrite list_elem_of_omap. split.
  - intros ([k' o] & Hin & Ho). simpl in Ho. destruct o as [v'|]; [|done]. simpl in Ho. injection Ho as -> ->.
    apply list_elem_of_lookup in Hin as [i Hi]. exists i. apply lookup_zip_Some in Hi. done.
  - intros (i & Hk & Hv). exists (k, Some v). split; [|done]. apply (list_elem_of_lookup_2 _ i). by apply lookup_zip_Some.
Qed.

Lemma pairs_NoDup ks : forall vs,
  (forall i j k v w, ks !! i = Some k -> ks !! j = Some k -> vs !! i = Some (Some v) -> vs !! j = Some (Some w) -> i = j) -> NoDup (pairs ks vs).
Proof.
  induction ks as [|k ks IH]; intros [|o vs] Hinj; try constructor. assert (NoDup (pairs ks vs)) as Hnd.
  { apply IH. intros i j k' v w H1 H2 H3 H4. pose proof (Hinj (S i) (S j) k' v w H1 H2 H3 H4). lia. }
  destruct o as [v|]; [|done]. change (pairs (k :: ks) (Some v :: vs)) with ((k, v) :: pairs ks vs). constructor; [|done].
  intros (i & Hk & Hv)%elem_of_pairs. by pose proof (Hinj 0%nat (S i) k v v eq_refl Hk eq_refl Hv).
Qed.

Lemma forEachValue_perm m M : idmap_rep m M -> forEachValue m ≡ₚ (map_to_list M).*2.
Proof.
  intros (e & He & [[[Ht1 Ht2] _ Hinj Hmap _ _] _ _]). unfold forEachValue. unfold zlen in Ht1, Ht2.
  rewrite <- (pairs_values (keys m) (vals m)) by lia. apply fmap_Permutation, NoDup_Permutation.
  - apply pairs_NoDup. intros i j k v w Hi Hj Hv Hw. pose proof (lookup_lt_Some _ _ _ Hi). pose proof (lookup_lt_Some _ _ _ Hj).
    assert (Z.of_nat i = Z.of_nat j); [|lia]. apply Hinj; try lia.
    + unfold taken, val_at. by rewrite Nat2Z.id, Hv.
    + unfold taken, val_at. by rewrite Nat2Z.id, Hw.
    + unfold key_at. by rewrite !Nat2Z.id, (nth_lookup_Some _ _ _ _ Hi), (nth_lookup_Some _ _ _ _ Hj).
  - apply NoDup_map_to_list.
  - intros [k v]. rewrite elem_of_pairs, elem_of_map_to_list, Hmap. split.
    + intros (i & Hk & Hv). pose proof (lookup_lt_Some _ _ _ Hk). exists (Z.of_nat i). split; [lia|].
      unfold val_at, key_at. by rewrite Nat2Z.id, Hv, (nth_lookup_Some _ _ _ _ Hk).
    + intros (p & Hp & Hv & Hk). exists (Z.to_nat p). split.
      * unfold key_at in Hk. rewrite nth_lookup in Hk. destruct (lookup_lt_is_Some_2 (keys m) (Z.to_nat p)) as [k' E]; [lia|]. rewrite E in *. simpl in Hk. by rewrite Hk.
      * rewrite <- Hv. apply (val_lookup m (2 ^ e)); [split; unfold zlen; lia|lia].
Qed.
End Traces.
Arguments mop : clear implicits.
Arguments mseen : clear implicits.

(** C16: any sequence of fewer than 2^27 operations on a new [IdMap] raises no exception, every probe and every backward
    shift ends, and the caller sees exactly what a finite map shows: the value last set for an id on its removal, null
    for an absent id, and the number of entries, through collisions, deletions inside clusters and every growth. *)
Theorem IdMap_refines_map {V : Type} (initial : Z) (os : list (mop V)) :
  -2 ^ 30 <= initial <= 2 ^ 28 -> zlen os < 2 ^ 27 ->
  (let* m := newIdMap initial in idmap_run m os) = Ok (map_run ∅ os).
Proof.
  intros Hi Ho. destruct (new_idmap (V := V) initial Hi) as (m & -> & Hr). cbn [obind]. apply idmap_run_sim; [done|].
  rewrite map_size_empty. lia.
Qed.

Lemma IdMap_refines_map_witness :
  let os := [MSet 1 10; MSet 4294967295 20; MSet 1 11; MSize; MRemove 1; MRemove 1; MRemove 4294967295; MClear; MSize] in
  (let* m := newIdMap 16 in idmap_run m os) =
    Ok [MDone; MDone; MDone; MSizeIs 2; MRemoved (Some 11); MRemoved None; MRemoved (Some 20); MDone; MSizeIs 0].
Proof. intros os. rewrite IdMap_refines_map; [vm_compute; reflexivity|lia|by vm_compute]. Defined.

(** The table's invariant (a power of two, at most half full, each key in one slot and reachable from its home over
    occupied slots) is kept by every operation, and [forEachValue] visits the value of every entry exactly once. *)
Theorem IdMap_invariant {V : Type} (m : IdMap V) (M : gmap Z V) :
  idmap_rep m M ->
  (forall id v, Z.of_nat (size M) < 2 ^ 27 -> exists m', set m id v = Ok m' /\ idmap_rep m' (<[toInt id := v]> M)) /\
  (forall id, exists m', remove m id = Ok (M !! toInt id, m') /\ idmap_rep m' (delete (toInt id) M)) /\
  idmap_rep (clear m) ∅ /\ forEachValue m ≡ₚ (map_to_list M).*2.
Proof.
  intros Hr. split; [intros id v Hs; by apply set_rep|]. split; [intros id; by apply remove_idmap|].
  split; [by eapply clear_idmap|by apply forEachValue_perm].
Qed.

Lemma IdMap_invariant_witness :
  let m := {| keys := replicate 16 0; vals := replicate 16 (None : option Z); msize := 0 |} in
  idmap_rep m ∅ /\ exists m', set m 5 50 = Ok m' /\ idmap_rep m' (<[toInt 5 := 50]> ∅).
Proof.
  intros m. assert (idmap_rep m ∅) as Hr by (exists 4; split; [lia|]; apply rep_empty; [lia|reflexivity|reflexivity]).
  split; [done|]. destruct (IdMap_invariant m ∅ Hr) as [H _]. apply H. by vm_compute.
Defined.
