(* ===== verification/Packet.v ===== *)
(** * Packet.kt, PacketCodec.kt, LengthPrefixedPacketCodec.kt, PayloadCompression.kt

    The msgtrans wire format: packets, their codec with its overload guard, the
    length-prefixed frames of QUIC streams, and the compression of payloads around
    the codec.  The byte buffer is neton-io's and the compressors are zstd's and
    zlib's bindings: an interface each, with the documented behaviour the code
    relies on. *)
From S2P Require Import Prelude Mem Kotlin.

(** ** Packets *)

Inductive PacketType := OneWay | Request | Response.
Inductive Compression := CNone | Zstd | Zlib.

#[export] Instance PacketType_eq_dec : EqDecision PacketType.
Proof. solve_decision. Defined.
#[export] Instance Compression_eq_dec : EqDecision Compression.
Proof. solve_decision. Defined.

Definition PacketType_code (t : PacketType) : Z := match t with OneWay => 0 | Request => 1 | Response => 2 end.
Definition PacketType_fromCode (code : Z) : kt PacketType :=
  if code =? 0 then Ok OneWay else if code =? 1 then Ok Request else if code =? 2 then Ok Response
  else Err ProtocolException.

Definition Compression_code (c : Compression) : Z := match c with CNone => 0 | Zstd => 1 | Zlib => 2 end.
Definition Compression_fromCode (code : Z) : kt Compression :=
  if code =? 0 then Ok CNone else if code =? 1 then Ok Zstd else if code =? 2 then Ok Zlib
  else Err ProtocolException.

(** A [ByteArray] is a list of bytes, a [UInt] a number below 2^32. *)
Record Packet := {
  p_type : PacketType; messageId : Z; bizType : Z; payload : list Z; extHeader : list Z;
  compression : Compression; reserved : Z
}.

Definition PROTOCOL_VERSION : Z := 1.
Definition FIXED_HEADER_SIZE : Z := 16.

(** The constructor with its [init] block. *)
Definition newPacket (t : PacketType) (id biz : Z) (pay ext : list Z) (c : Compression) (res_ : Z) : kt Packet :=
  reject_if (negb ((0 <=? biz) && (biz <=? 255))) IllegalArgument ;;;
  reject_if (negb ((0 <=? res_) && (res_ <=? 65535))) IllegalArgument ;;;
  Ok {| p_type := t; messageId := id; bizType := biz; payload := pay; extHeader := ext; compression := c; reserved := res_ |}.

Definition Packet_size (p : Packet) : Z := s32 (FIXED_HEADER_SIZE + zlen (extHeader p) + zlen (payload p)).

Definition withPayload (p : Packet) (newPayload : list Z) (newCompression : Compression) : kt Packet :=
  newPacket (p_type p) (messageId p) (bizType p) newPayload (extHeader p) newCompression (reserved p).

Definition oneWay (pay : list Z) (biz id : Z) : kt Packet := newPacket OneWay id biz pay [] CNone 0.
Definition request (pay : list Z) (biz id : Z) : kt Packet := newPacket Request id biz pay [] CNone 0.
Definition response (pay : list Z) (biz id : Z) : kt Packet := newPacket Response id biz pay [] CNone 0.

(** ** neton-io's buffer *)

(** Big-endian bytes of the low [n] bytes of [x]. *)
Definition be_bytes (n : nat) (x : Z) : list Z := rev (le_bytes n x).

Class Buffer (B : Type) := {
  readableBytes : B -> Z;
  getUnsignedByte : B -> Z -> kt Z;
  getUnsignedShort : B -> Z -> kt Z;
  getInt : B -> Z -> kt Z;
  skip : B -> Z -> kt B;
  readBytes : B -> Z -> kt (list Z * B);
  writeByte : B -> Z -> B;
  writeShort : B -> Z -> B;
  writeInt : B -> Z -> B;
  writeBytes : B -> list Z -> B
}.

(** The bytes still to be read; absolute reads are relative to the first of them, and integers are big-endian. *)
Class BufferLaws (B : Type) `{Buffer B} := {
  contents : B -> list Z;
  readable_law : forall b, readableBytes b = zlen (contents b);
  getByte_law : forall b i, 0 <= i < zlen (contents b) -> getUnsignedByte b i = kget (contents b) i;
  getShort_law : forall b i, 0 <= i -> i + 2 <= zlen (contents b) -> getUnsignedShort b i = Ok (be_val (slice (contents b) i 2));
  getInt_law : forall b i, 0 <= i -> i + 4 <= zlen (contents b) -> getInt b i = Ok (s32 (be_val (slice (contents b) i 4)));
  skip_law : forall b n, 0 <= n <= zlen (contents b) -> exists b', skip b n = Ok b' /\ contents b' = drop (Z.to_nat n) (contents b);
  readBytes_law : forall b n, 0 <= n <= zlen (contents b) ->
    exists b', readBytes b n = Ok (take (Z.to_nat n) (contents b), b') /\ contents b' = drop (Z.to_nat n) (contents b);
  writeByte_law : forall b x, contents (writeByte b x) = contents b ++ [u8 x];
  writeShort_law : forall b x, contents (writeShort b x) = contents b ++ be_bytes 2 x;
  writeInt_law : forall b x, contents (writeInt b x) = contents b ++ be_bytes 4 x;
  writeBytes_law : forall b l, contents (writeBytes b l) = contents b ++ l
}.

Section Codec.
Context {B : Type} `{HB : Buffer B}.

(** ** PacketCodec *)

Definition DEFAULT_MAX_PAYLOAD : Z := 64 * 1024 * 1024.

Definition writeU16 (out : B) (value : Z) : B := writeShort out value.
Definition writeU32 (out : B) (value : Z) : B := writeInt out (toInt value).
Definition getU16 (b : B) (offset : Z) : kt Z := getUnsignedShort b offset.
Definition getU32 (b : B) (offset : Z) : kt Z := let* x := getInt b offset in Ok (toUInt x).

Definition encode (item : Packet) (out : B) : B :=
  let out := writeByte out PROTOCOL_VERSION in
  let out := writeByte out (Compression_code (compression item)) in
  let out := writeByte out (PacketType_code (p_type item)) in
  let out := writeByte out (bizType item) in
  let out := writeU32 out (messageId item) in
  let out := writeU16 out (zlen (extHeader item)) in
  let out := writeU32 out (toUInt (zlen (payload item))) in
  let out := writeU16 out (reserved item) in
  let out := if negb (zlen (extHeader item) =? 0) then writeBytes out (extHeader item) else out in
  if negb (zlen (payload item) =? 0) then writeBytes out (payload item) else out.

(** The packet and the buffer after it, or [None] while it is incomplete. *)
Definition decode (maxPayloadLength : Z) (buf : B) : kt (option (Packet * B)) :=
  if readableBytes buf <? FIXED_HEADER_SIZE then Ok None
  else
    let* version := getUnsignedByte buf 0 in
    reject_if (negb (version =? PROTOCOL_VERSION)) ProtocolException ;;;
    let* c := getUnsignedByte buf 1 in
    let* compression := Compression_fromCode c in
    let* t := getUnsignedByte buf 2 in
    let* type := PacketType_fromCode t in
    let* bizType := getUnsignedByte buf 3 in
    let* messageId := getU32 buf 4 in
    let* extHeaderLen := getU16 buf 8 in
    let* n := getU32 buf 10 in
    let payloadLen := Z.land n 4294967295 in
    let* reserved := getU16 buf 14 in
    reject_if (maxPayloadLength <? payloadLen) ProtocolException ;;;
    let total := FIXED_HEADER_SIZE + extHeaderLen + payloadLen in
    if readableBytes buf <? total then Ok None
    else
      let* buf := skip buf FIXED_HEADER_SIZE in
      let* (extHeader, buf) := if 0 <? extHeaderLen then readBytes buf extHeaderLen else Ok ([], buf) in
      let* (payload, buf) := if 0 <? payloadLen then readBytes buf (toInt payloadLen) else Ok ([], buf) in
      let* p := newPacket type messageId bizType payload extHeader compression reserved in
      Ok (Some (p, buf)).

(** ** LengthPrefixedPacketCodec *)

Definition PREFIX : Z := 4.
Definition maxFrameLength (maxPayloadLength : Z) : Z := sgn 64 (FIXED_HEADER_SIZE + 65535 + maxPayloadLength).

Definition lp_encode (item : Packet) (out : B) : B :=
  encode item (writeInt out (s32 (FIXED_HEADER_SIZE + zlen (extHeader item) + zlen (payload item)))).

Definition lp_decode (maxPayloadLength : Z) (buf : B) : kt (option (Packet * B)) :=
  if readableBytes buf <? PREFIX then Ok None
  else
    let* x := getInt buf 0 in
    let length := Z.land x 4294967295 in
    reject_if (maxFrameLength maxPayloadLength <? length) ProtocolException ;;;
    if readableBytes buf - PREFIX <? length then Ok None
    else
      reject_if (length <? FIXED_HEADER_SIZE) ProtocolException ;;;
      let* e := getUnsignedShort buf (PREFIX + 8) in
      let* y := getInt buf (PREFIX + 10) in
      let packetLength := FIXED_HEADER_SIZE + e + Z.land y 4294967295 in
      reject_if (negb (packetLength =? length)) ProtocolException ;;;
      let* buf := skip buf PREFIX in
      let* r := decode maxPayloadLength buf in
      match r with
      | Some r => Ok (Some r)
      | None => Err ProtocolException
      end.
End Codec.

(** ** The wire format *)

Definition wire (p : Packet) : list Z :=
  [PROTOCOL_VERSION; Compression_code (compression p); PacketType_code (p_type p); bizType p] ++
  be_bytes 4 (messageId p) ++ be_bytes 2 (zlen (extHeader p)) ++ be_bytes 4 (zlen (payload p)) ++ be_bytes 2 (reserved p) ++
  extHeader p ++ payload p.

Definition wire_size (p : Packet) : Z := FIXED_HEADER_SIZE + zlen (extHeader p) + zlen (payload p).

(** Packets the constructor accepts and the header can describe. *)
Definition packet_ok (p : Packet) : Prop :=
  0 <= messageId p < 2 ^ 32 /\ 0 <= bizType p <= 255 /\ 0 <= reserved p <= 65535 /\
  bytes (payload p) /\ bytes (extHeader p) /\ zlen (extHeader p) <= 65535 /\ wire_size p < 2 ^ 31.

Lemma length_be_bytes n x : length (be_bytes n x) = n.
Proof. unfold be_bytes. by rewrite length_rev, length_le_bytes. Qed.

Lemma be_bytes_val n l : bytes l -> length l = n -> be_bytes n (be_val l) = l.
Proof. intros Hl <-. unfold be_bytes, be_val. rewrite <- (length_rev l), le_bytes_val by (by apply Forall_rev). apply rev_involutive. Qed.

Lemma be_val_bytes n x : 0 <= x < 256 ^ Z.of_nat n -> be_val (be_bytes n x) = x.
Proof. intros Hx. unfold be_val, be_bytes. rewrite rev_involutive. by apply le_val_le_bytes_small. Qed.

Lemma be_bytes_wrap n x w : w = 8 * Z.of_nat n -> be_bytes n (wrap w x) = be_bytes n x.
Proof.
  intros ->. unfold be_bytes, wrap. f_equal. replace (2 ^ (8 * Z.of_nat n)) with (256 ^ Z.of_nat n); [apply le_bytes_mod|].
  rewrite Z.pow_mul_r by lia. done.
Qed.

Lemma be_bytes_signed x : be_bytes 4 (toInt x) = be_bytes 4 x.
Proof.
  rewrite <- (be_bytes_wrap 4 (toInt x) 32), <- (be_bytes_wrap 4 x 32) by done. f_equal. unfold toInt, sgn, wrap.
  change (32 - 1) with 31. rewrite Zminus_mod_idemp_l. f_equal. lia.
Qed.

Lemma toUInt_toInt x : 0 <= x < 2 ^ 32 -> toUInt (s32 x) = x.
Proof.
  intros Hx. unfold toUInt, sgn, wrap. change (32 - 1) with 31. rewrite Zminus_mod_idemp_l.
  replace (x + 2 ^ 31 - 2 ^ 31) with x by lia. apply Z.mod_small. lia.
Qed.

Lemma land_u32 x : Z.land x 4294967295 = u32 x.
Proof. change 4294967295 with (2 ^ 32 - 1). apply land_ones_wrap. lia. Qed.

(** ** A buffer of bytes in a list *)

#[export] Instance list_Buffer : Buffer (list Z) := {|
  readableBytes l := zlen l;
  getUnsignedByte l i := kget l i;
  getUnsignedShort l i := if i + 2 <=? zlen l then Ok (be_val (slice l i 2)) else Err IndexOutOfBounds;
  getInt l i := if i + 4 <=? zlen l then Ok (s32 (be_val (slice l i 4))) else Err IndexOutOfBounds;
  skip l n := if n <=? zlen l then Ok (drop (Z.to_nat n) l) else Err IndexOutOfBounds;
  readBytes l n := if n <=? zlen l then Ok (take (Z.to_nat n) l, drop (Z.to_nat n) l) else Err IndexOutOfBounds;
  writeByte l x := l ++ [u8 x];
  writeShort l x := l ++ be_bytes 2 x;
  writeInt l x := l ++ be_bytes 4 x;
  writeBytes l k := l ++ k
|}.

#[export] Instance list_BufferLaws : BufferLaws (list Z).
Proof.
  refine {| contents l := l |}; try done; intros; simpl; rewrite ?(proj2 (Z.leb_le _ _)) by lia; try done; by eexists.
Defined.

(** ** Encoding and decoding *)

Section Laws.
Context {B : Type} `{HL : BufferLaws B}.
Implicit Types (b : B) (p : Packet).

Lemma encode_contents p b : 0 <= bizType p <= 255 -> contents (encode p b) = contents b ++ wire p.
Proof.
  intros Hbiz. unfold encode, writeU16, writeU32, wire.
  assert (forall (b' : B) l, contents (if negb (zlen l =? 0) then writeBytes b' l else b') = contents b' ++ l) as Hopt.
  { intros b' l. destruct (Z.eqb_spec (zlen l) 0) as [E|]; simpl; [|apply writeBytes_law].
    destruct l; [by rewrite app_nil_r|]. rewrite zlen_cons in E. pose proof (zlen_nonneg l). lia. }
  rewrite !Hopt, !writeShort_law, !writeInt_law, !writeShort_law, !writeInt_law, !writeByte_law.
  rewrite !be_bytes_signed. unfold toUInt. rewrite (be_bytes_wrap 4 (zlen (payload p)) 32) by done.
  rewrite (wrap_small 8 (bizType p)) by lia.
  rewrite <- !app_assoc. destruct (compression p), (p_type p); reflexivity.
Qed.

Lemma encode_wire p b : packet_ok p -> contents (encode p b) = contents b ++ wire p.
Proof. intros (_ & Hbiz & _). by apply encode_contents. Qed.

(** What the decoder makes of a header and the bytes after it. *)
Definition header_packet (h rest : list Z) (c : Compression) (t : PacketType) : Packet :=
  let el := be_val (slice h 8 2) in
  {| p_type := t; messageId := be_val (slice h 4 4); bizType := nth 3 h 0;
     payload := slice rest el (be_val (slice h 10 4)); extHeader := take (Z.to_nat el) rest;
     compression := c; reserved := be_val (slice h 14 2) |}.

Definition header_result (max : Z) (h rest : list Z) (b' : B) : kt (option (Packet * B)) :=
  reject_if (negb (nth 0 h 0 =? PROTOCOL_VERSION)) ProtocolException ;;;
  let* c := Compression_fromCode (nth 1 h 0) in
  let* t := PacketType_fromCode (nth 2 h 0) in
  reject_if (max <? be_val (slice h 10 4)) ProtocolException ;;;
  if zlen rest <? be_val (slice h 8 2) + be_val (slice h 10 4) then Ok None
  else Ok (Some (header_packet h rest c t, b')).

Lemma field_range (h : list Z) i n : bytes h -> zlen h = 16 -> 0 <= i -> 0 <= n -> i + n <= 16 -> 0 <= be_val (slice h i n) < 2 ^ (8 * n).
Proof. intros Hb Hl Hi Hn Hin. apply be_val_slice_range; try done; lia. Qed.

Lemma slice_prefix (h rest : list Z) i n : 0 <= i -> 0 <= n -> i + n <= zlen h -> slice (h ++ rest) i n = slice h i n.
Proof.
  intros Hi Hn Hl. unfold slice, zlen in *. rewrite drop_app_le by lia. rewrite take_app_le by (rewrite length_drop; lia). done.
Qed.

Lemma kget_prefix (h rest : list Z) i : 0 <= i < zlen h -> kget (h ++ rest) i = Ok (nth (Z.to_nat i) h 0).
Proof.
  unfold zlen. intros Hi. apply kget_Ok; [lia|]. rewrite lookup_app_l by lia.
  destruct (lookup_lt_is_Some_2 h (Z.to_nat i)) as [x Hx]; [lia|]. by rewrite Hx, (nth_lookup_Some _ _ _ _ Hx).
Qed.

Lemma optional_read b n :
  0 <= n <= zlen (contents b) ->
  exists b', (if 0 <? n then readBytes b n else Ok ([], b)) = Ok (take (Z.to_nat n) (contents b), b') /\ contents b' = drop (Z.to_nat n) (contents b).
Proof.
  intros Hn. destruct (Z.ltb_spec 0 n); [by apply readBytes_law|]. assert (n = 0) as -> by lia. exists b. by rewrite take_0, drop_0.
Qed.

Lemma decode_val max b h rest :
  contents b = h ++ rest -> zlen h = 16 -> bytes h -> zlen (contents b) < 2 ^ 31 ->
  exists b', decode max b = header_result max h rest b' /\
    (be_val (slice h 8 2) + be_val (slice h 10 4) <= zlen rest ->
     contents b' = drop (Z.to_nat (be_val (slice h 8 2) + be_val (slice h 10 4))) rest).
Proof.
  intros Hc Hh Hb Hz. pose proof (zlen_nonneg rest). rewrite Hc, zlen_app in Hz.
  assert (forall i, 0 <= i < 16 -> getUnsignedByte b i = Ok (nth (Z.to_nat i) h 0)) as Gb
    by (intros i Hi; rewrite getByte_law by (rewrite Hc, zlen_app; lia); rewrite Hc; apply kget_prefix; lia).
  assert (forall i, 0 <= i -> i + 2 <= 16 -> getU16 b i = Ok (be_val (slice h i 2))) as Gs
    by (intros i Hi Hi2; unfold getU16; rewrite getShort_law by (try done; rewrite Hc, zlen_app; lia); rewrite Hc, slice_prefix by lia; done).
  assert (forall i, 0 <= i -> i + 4 <= 16 -> getU32 b i = Ok (be_val (slice h i 4))) as Gi.
  { intros i Hi Hi2. unfold getU32. rewrite getInt_law by (try done; rewrite Hc, zlen_app; lia). rewrite Hc, slice_prefix by lia. cbn [obind].
    pose proof (field_range h i 4 Hb Hh Hi ltac:(lia) Hi2). by rewrite toUInt_toInt. }
  pose proof (field_range h 8 2 Hb Hh ltac:(lia) ltac:(lia) ltac:(lia)) as R8. pose proof (field_range h 10 4 Hb Hh ltac:(lia) ltac:(lia) ltac:(lia)) as R10.
  pose proof (field_range h 14 2 Hb Hh ltac:(lia) ltac:(lia) ltac:(lia)) as R14. change (2 ^ (8 * 2)) with 65536 in *. change (2 ^ (8 * 4)) with (2 ^ 32) in *.
  assert (0 <= nth 3 h 0 <= 255) as R3.
  { destruct (lookup_lt_is_Some_2 h 3) as [x Hx]; [unfold zlen in Hh; lia|]. rewrite (nth_lookup_Some _ _ _ _ Hx).
    pose proof (bytes_lookup _ _ _ Hb Hx). unfold is_byte in *. lia. }
  destruct (skip_law b 16) as (b1 & E1 & C1); [rewrite Hc, zlen_app; lia|]. rewrite Hc in C1. rewrite drop_app_length' in C1 by (unfold zlen in Hh; lia).
  unfold decode, header_result, FIXED_HEADER_SIZE. rewrite readable_law, Hc, zlen_app, Hh. rewrite (proj2 (Z.ltb_ge (16 + zlen rest) 16)) by lia.
  rewrite !Gb, !Gi, !Gs by lia. cbn [obind]. change (Z.to_nat 0) with 0%nat. change (Z.to_nat 1) with 1%nat. change (Z.to_nat 2) with 2%nat. change (Z.to_nat 3) with 3%nat.
  set (el := be_val (slice h 8 2)) in *. set (pl := be_val (slice h 10 4)) in *. rewrite land_u32, (wrap_small 32 pl) by lia.
  replace (16 + zlen rest <? 16 + el + pl) with (zlen rest <? el + pl) by (zcases; (done || lia)).
  destruct (Z.ltb_spec (zlen rest) (el + pl)) as [Hshort|Hlong].
  { exists b. split; [|lia]. destruct (nth 0 h 0 =? PROTOCOL_VERSION); [|done]. cbn [negb reject_if obind].
    destruct (Compression_fromCode (nth 1 h 0)); [|done..]. cbn [obind]. destruct (PacketType_fromCode (nth 2 h 0)); [|done..]. done. }
  destruct (optional_read b1 el) as (b2 & E2 & C2); [rewrite C1; lia|]. rewrite C1 in E2, C2.
  assert (zlen (drop (Z.to_nat el) rest) = zlen rest - el) as Hd by (unfold zlen in *; rewrite length_drop; lia).
  destruct (optional_read b2 pl) as (b3 & E3 & C3); [rewrite C2; lia|]. rewrite C2 in E3, C3.
  exists b3. split; [|intros _; rewrite C3, drop_drop; f_equal; lia].
  destruct (nth 0 h 0 =? PROTOCOL_VERSION); [|done]. cbn [negb reject_if obind].
  destruct (Compression_fromCode (nth 1 h 0)) as [c| |]; [|done..]. cbn [obind]. destruct (PacketType_fromCode (nth 2 h 0)) as [t| |]; [|done..]. cbn [obind].
  destruct (max <? pl); [done|]. cbn [reject_if obind]. rewrite E1. cbn [obind]. rewrite E2. cbn [obind].
  unfold toInt. rewrite (sgn_small 32) by (lia || (change (2 ^ (32 - 1)) with (2 ^ 31); lia)). rewrite E3. cbn [obind].
  unfold newPacket, reject_if. rewrite (proj2 (Z.leb_le 0 (nth 3 h 0))), (proj2 (Z.leb_le (nth 3 h 0) 255)) by lia. cbn [andb negb obind].
  rewrite (proj2 (Z.leb_le 0 (be_val (slice h 14 2)))), (proj2 (Z.leb_le (be_val (slice h 14 2)) 65535)) by lia. done.
Qed.

(** ** Headers *)

Definition header (p : Packet) : list Z :=
  [PROTOCOL_VERSION; Compression_code (compression p); PacketType_code (p_type p); bizType p] ++
  be_bytes 4 (messageId p) ++ be_bytes 2 (zlen (extHeader p)) ++ be_bytes 4 (zlen (payload p)) ++ be_bytes 2 (reserved p).

Lemma wire_header p : wire p = header p ++ extHeader p ++ payload p.
Proof. unfold wire, header. by rewrite <- !app_assoc. Qed.

Lemma header_len p : zlen (header p) = 16.
Proof. unfold header, zlen. rewrite !length_app, !length_be_bytes. done. Qed.

Lemma zlen_wire p : zlen (wire p) = wire_size p.
Proof. rewrite wire_header, !zlen_app, header_len. unfold wire_size, FIXED_HEADER_SIZE. lia. Qed.

Lemma bytes_be n x : bytes (be_bytes n x).
Proof. apply Forall_rev, bytes_le_bytes. Qed.

Lemma header_bytes p : packet_ok p -> bytes (header p).
Proof.
  intros (_ & Hbiz & _). unfold header. rewrite !Forall_app. split; [|by split_and!; apply bytes_be].
  rewrite !Forall_cons. unfold is_byte, PROTOCOL_VERSION. split_and!; try constructor; try lia; destruct (compression p), (p_type p); simpl; lia.
Qed.

(** The fields of the header of a packet. *)
Lemma header_fields p :
  packet_ok p ->
  be_val (slice (header p) 4 4) = messageId p /\ be_val (slice (header p) 8 2) = zlen (extHeader p) /\
  be_val (slice (header p) 10 4) = zlen (payload p) /\ be_val (slice (header p) 14 2) = reserved p.
Proof.
  intros (Hid & Hbiz & Hres & _ & _ & Hel & Hsz). unfold wire_size, FIXED_HEADER_SIZE in Hsz.
  pose proof (zlen_nonneg (extHeader p)). pose proof (zlen_nonneg (payload p)).
  split_and!; [apply (be_val_bytes 4 (messageId p))|apply (be_val_bytes 2 (zlen (extHeader p)))
    |apply (be_val_bytes 4 (zlen (payload p)))|apply (be_val_bytes 2 (reserved p))]; change (256 ^ Z.of_nat 4) with (2 ^ 32); change (256 ^ Z.of_nat 2) with 65536; lia.
Qed.

Lemma header_result_ok max p rest b' :
  packet_ok p -> header_result max (header p) rest b' =
    (if max <? zlen (payload p) then Err ProtocolException
     else if zlen rest <? zlen (extHeader p) + zlen (payload p) then Ok None
     else Ok (Some (header_packet (header p) rest (compression p) (p_type p), b'))).
Proof.
  intros Hp. destruct (header_fields p Hp) as (_ & E8 & E10 & _). unfold header_result. rewrite E8, E10.
  cbn [header app nth]. unfold reject_if. rewrite Z.eqb_refl. cbn [negb obind].
  replace (Compression_fromCode (Compression_code (compression p))) with (Ok (compression p) : kt Compression) by (by destruct (compression p)).
  replace (PacketType_fromCode (PacketType_code (p_type p))) with (Ok (p_type p) : kt PacketType) by (by destruct (p_type p)).
  cbn [obind]. by destruct (max <? zlen (payload p)).
Qed.

Lemma header_packet_ok p rest : packet_ok p -> header_packet (header p) (extHeader p ++ payload p ++ rest) (compression p) (p_type p) = p.
Proof.
  intros Hp. destruct (header_fields p Hp) as (E4 & E8 & E10 & E14). unfold header_packet. rewrite E4, E8, E10, E14.
  pose proof (zlen_nonneg (payload p)) as H0. unfold slice, zlen in *. rewrite !Nat2Z.id.
  rewrite drop_app_length, take_app_length, take_app_length. by destruct p.
Qed.

(** A header read from the wire is the header of the packet it describes. *)
Lemma header_of_packet h rest c t :
  zlen h = 16 -> bytes h -> bytes rest -> zlen rest < 2 ^ 31 - 16 ->
  nth 0 h 0 = PROTOCOL_VERSION -> Compression_fromCode (nth 1 h 0) = Ok c -> PacketType_fromCode (nth 2 h 0) = Ok t ->
  be_val (slice h 8 2) + be_val (slice h 10 4) <= zlen rest ->
  let p := header_packet h rest c t in packet_ok p /\ header p = h /\ zlen (extHeader p) = be_val (slice h 8 2) /\ zlen (payload p) = be_val (slice h 10 4).
Proof.
  intros Hh Hb Hr Hz Hv Hc Ht Hlong p.
  pose proof (field_range h 4 4 Hb Hh ltac:(lia) ltac:(lia) ltac:(lia)) as R4. pose proof (field_range h 8 2 Hb Hh ltac:(lia) ltac:(lia) ltac:(lia)) as R8.
  pose proof (field_range h 10 4 Hb Hh ltac:(lia) ltac:(lia) ltac:(lia)) as R10. pose proof (field_range h 14 2 Hb Hh ltac:(lia) ltac:(lia) ltac:(lia)) as R14.
  change (2 ^ (8 * 2)) with 65536 in *. change (2 ^ (8 * 4)) with (2 ^ 32) in *.
  assert (zlen (extHeader p) = be_val (slice h 8 2)) as Ee by (unfold p, header_packet, zlen in *; cbn [extHeader]; rewrite length_take; lia).
  assert (zlen (payload p) = be_val (slice h 10 4)) as Ep by (unfold p, header_packet; cbn [payload]; apply zlen_slice; lia).
  assert (Compression_code c = nth 1 h 0) as Ec by (unfold Compression_fromCode in Hc; revert Hc; zcases; intros [= <-]; simpl; lia).
  assert (PacketType_code t = nth 2 h 0) as Et by (unfold PacketType_fromCode in Ht; revert Ht; zcases; intros [= <-]; simpl; lia).
  destruct h as [|h0 [|h1 [|h2 [|h3 [|h4 [|h5 [|h6 [|h7 [|h8 [|h9 [|h10 [|h11 [|h12 [|h13 [|h14 [|h15 [|]]]]]]]]]]]]]]]]];
    try (unfold zlen in Hh; simpl in Hh; lia).
  assert (is_byte h3) as B3 by (rewrite !Forall_cons in Hb; tauto). unfold is_byte in B3.
  split; [|split; [|done]].
  - split; [exact R4|]. split; [unfold p; simpl; lia|]. split; [unfold p, header_packet; cbn [reserved]; lia|].
    split; [by apply bytes_slice|]. split; [by apply Forall_take|]. split; [lia|]. unfold wire_size, FIXED_HEADER_SIZE. lia.
  - unfold header. rewrite Ee, Ep. unfold p, header_packet; cbn [compression p_type bizType messageId reserved nth]. rewrite Ec, Et. cbn [nth].
    change (slice [_; _; _; _; h4; h5; h6; h7; _; _; _; _; _; _; _; _] 4 4) with [h4; h5; h6; h7].
    change (slice [_; _; _; _; _; _; _; _; h8; h9; _; _; _; _; _; _] 8 2) with [h8; h9].
    change (slice [_; _; _; _; _; _; _; _; _; _; h10; h11; h12; h13; _; _] 10 4) with [h10; h11; h12; h13].
    change (slice [_; _; _; _; _; _; _; _; _; _; _; _; _; _; h14; h15] 14 2) with [h14; h15].
    rewrite !Forall_cons in Hb. destruct Hb as (? & ? & ? & ? & ? & ? & ? & ? & ? & ? & ? & ? & ? & ? & ? & ? & _).
    rewrite (be_bytes_val 4 [h4; h5; h6; h7]), (be_bytes_val 2 [h8; h9]), (be_bytes_val 4 [h10; h11; h12; h13]), (be_bytes_val 2 [h14; h15]) by (done || (rewrite !Forall_cons, Forall_nil; tauto)).
    simpl in Hv. by rewrite <- Hv.
Qed.

(** ** The packet codec *)

Lemma decode_wire max b p rest :
  packet_ok p -> zlen (payload p) <= max -> contents b = wire p ++ rest -> zlen (contents b) < 2 ^ 31 ->
  exists b', decode max b = Ok (Some (p, b')) /\ contents b' = rest.
Proof.
  intros Hp Hmax Hc Hz. destruct (header_fields p Hp) as (_ & E8 & E10 & _).
  rewrite wire_header, <- !app_assoc in Hc.
  destruct (decode_val max b (header p) _ Hc (header_len p) (header_bytes p Hp) Hz) as (b' & -> & Hb').
  rewrite E8, E10 in Hb'. exists b'. pose proof (zlen_nonneg (extHeader p)). pose proof (zlen_nonneg (payload p)). pose proof (zlen_nonneg rest).
  rewrite header_result_ok, (proj2 (Z.ltb_ge max _)) by done. rewrite !zlen_app in *.
  rewrite (proj2 (Z.ltb_ge _ (zlen (extHeader p) + zlen (payload p)))) by lia. rewrite header_packet_ok by done. split; [done|].
  rewrite Hb' by lia. rewrite (assoc_L (++)). apply drop_app_length'. rewrite length_app. unfold zlen. lia.
Qed.

Lemma decode_prefix max b p :
  packet_ok p -> zlen (payload p) <= max -> contents b `prefix_of` wire p -> contents b <> wire p -> decode max b = Ok None.
Proof.
  intros Hp Hmax [rest Hw] Hne. assert (rest <> []) as Hr by (intros ->; by rewrite app_nil_r in Hw).
  assert (0 < zlen rest) as Hr0 by (destruct rest; [done|]; rewrite zlen_cons; pose proof (zlen_nonneg rest); lia).
  pose proof (zlen_wire p) as Hzw. rewrite Hw, zlen_app in Hzw. pose proof Hp as (_ & _ & _ & _ & _ & _ & Hsz).
  destruct (Z.lt_ge_cases (zlen (contents b)) 16) as [Hlt|Hge].
  { unfold decode. rewrite readable_law. by rewrite (proj2 (Z.ltb_lt _ FIXED_HEADER_SIZE)). }
  assert (contents b = header p ++ drop 16 (contents b)) as Hc.
  { rewrite <- (take_drop 16 (contents b)) at 1. f_equal. rewrite wire_header in Hw. apply (f_equal (take 16)) in Hw.
    rewrite !take_app_le in Hw by (pose proof (header_len p); unfold zlen in *; lia).
    rewrite (take_ge (header p)) in Hw by (pose proof (header_len p); unfold zlen in *; lia). done. }
  destruct (decode_val max b (header p) _ Hc (header_len p) (header_bytes p Hp) ltac:(lia)) as (b' & -> & _).
  rewrite header_result_ok, (proj2 (Z.ltb_ge max _)) by done. rewrite (proj2 (Z.ltb_lt _ (zlen (extHeader p) + zlen (payload p)))); [done|].
  unfold wire_size, FIXED_HEADER_SIZE in Hzw. unfold zlen in *. rewrite length_drop. lia.
Qed.

Lemma decode_sound max b :
  bytes (contents b) -> zlen (contents b) < 2 ^ 31 ->
  wp (decode max b) (fun r => match r with
    | None => zlen (contents b) < 16 \/
        16 + be_val (slice (contents b) 8 2) + be_val (slice (contents b) 10 4) > zlen (contents b)
    | Some (p, b') => packet_ok p /\ zlen (payload p) <= max /\ contents b = wire p ++ contents b' end) (fun e => e = ProtocolException).
Proof.
  intros Hb Hz. destruct (Z.lt_ge_cases (zlen (contents b)) 16) as [Hlt|Hge].
  { unfold decode. rewrite readable_law, (proj2 (Z.ltb_lt _ FIXED_HEADER_SIZE)) by done. by left. }
  set (h := take 16 (contents b)). set (rest := drop 16 (contents b)).
  assert (contents b = h ++ rest) as Hc by (unfold h, rest; by rewrite take_drop).
  assert (zlen h = 16) as Hh by (unfold h, zlen in *; rewrite length_take; lia).
  assert (bytes h /\ bytes rest) as [Hhb Hrb] by (split; [by apply Forall_take|by apply Forall_drop]).
  destruct (decode_val max b h rest Hc Hh Hhb Hz) as (b' & -> & Hb'). rewrite Hc, zlen_app in Hz. unfold header_result.
  apply wp_bind, wp_reject_if; [done|]. intros Hv. apply negb_false_iff, Z.eqb_eq in Hv.
  destruct (Compression_fromCode (nth 1 h 0)) as [c|e|f] eqn:Ec; cbn [obind]; [|unfold Compression_fromCode in Ec; revert Ec; zcases; intros [=]; by subst..].
  destruct (PacketType_fromCode (nth 2 h 0)) as [t|e|f] eqn:Et; cbn [obind]; [|unfold PacketType_fromCode in Et; revert Et; zcases; intros [=]; by subst..].
  apply wp_bind, wp_reject_if; [done|]. intros Hmax%Z.ltb_ge.
  destruct (Z.ltb_spec (zlen rest) (be_val (slice h 8 2) + be_val (slice h 10 4))) as [Hshort|Hlong]; cbn [wp].
  - right. rewrite Hc, !slice_prefix, zlen_app by lia. lia.
  - destruct (header_of_packet h rest c t Hh Hhb Hrb ltac:(lia) Hv Ec Et Hlong) as (Hok & Hhd & He & Hpl).
    set (p := header_packet h rest c t) in *. split; [done|]. split; [lia|].
    rewrite wire_header, Hhd, Hc, <- !app_assoc. f_equal. rewrite Hb' by done.
    pose proof (zlen_nonneg (extHeader p)). pose proof (zlen_nonneg (payload p)).
    rewrite <- (take_drop (Z.to_nat (be_val (slice h 8 2))) rest) at 1. f_equal.
    rewrite <- (take_drop (Z.to_nat (be_val (slice h 10 4))) (drop _ rest)) at 1. f_equal. rewrite drop_drop. f_equal. lia.
Qed.

(** ** Frames *)

Definition frame (p : Packet) : list Z := be_bytes 4 (wire_size p) ++ wire p.

Lemma lp_encode_frame p b : packet_ok p -> contents (lp_encode p b) = contents b ++ frame p.
Proof.
  intros Hp. unfold lp_encode, frame. rewrite encode_wire, writeInt_law by done. rewrite <- app_assoc. do 2 f_equal. apply be_bytes_signed.
Qed.

Lemma getInt_u32 b i : bytes (contents b) -> 0 <= i -> i + 4 <= zlen (contents b) ->
  exists x, getInt b i = Ok x /\ Z.land x 4294967295 = be_val (slice (contents b) i 4) /\ 0 <= be_val (slice (contents b) i 4) < 2 ^ 32.
Proof.
  intros Hb Hi Hl. rewrite getInt_law by done. eexists. split; [reflexivity|]. pose proof (be_val_slice_range (contents b) i 4 Hb Hi ltac:(lia) Hl).
  rewrite land_u32. split; [by apply toUInt_toInt|done].
Qed.

Lemma slice_after (k l : list Z) i n : zlen k <= i -> slice (k ++ l) i n = slice l (i - zlen k) n.
Proof.
  intros Hi. unfold slice. rewrite drop_app_ge by (unfold zlen in *; lia). do 2 f_equal. unfold zlen. lia.
Qed.

Lemma wire_fields p rest :
  packet_ok p -> be_val (slice (wire p ++ rest) 8 2) = zlen (extHeader p) /\ be_val (slice (wire p ++ rest) 10 4) = zlen (payload p).
Proof.
  intros Hp. destruct (header_fields p Hp) as (_ & E8 & E10 & _). pose proof (header_len p).
  rewrite wire_header, <- !app_assoc, !slice_prefix by lia. done.
Qed.

(** After the length prefix. *)
Lemma lp_decode_step max b :
  bytes (contents b) -> 4 <= zlen (contents b) -> zlen (contents b) < 2 ^ 31 ->
  let c := contents b in
  exists b1, contents b1 = drop 4 c /\
  lp_decode max b =
    (if maxFrameLength max <? be_val (slice c 0 4) then Err ProtocolException
     else if zlen c - 4 <? be_val (slice c 0 4) then Ok None
     else if be_val (slice c 0 4) <? 16 then Err ProtocolException
     else if negb (16 + be_val (slice c 12 2) + be_val (slice c 14 4) =? be_val (slice c 0 4)) then Err ProtocolException
     else let* r := decode max b1 in match r with Some r => Ok (Some r) | None => Err ProtocolException end).
Proof.
  intros Hb H4 Hz c. destruct (skip_law b 4) as (b1 & E1 & C1); [lia|]. exists b1. split; [done|].
  destruct (getInt_u32 b 0 Hb) as (x & Ex & Lx & Rx); [lia|lia|]. unfold lp_decode, PREFIX, FIXED_HEADER_SIZE. rewrite readable_law.
  rewrite (proj2 (Z.ltb_ge (zlen (contents b)) 4)) by lia. rewrite Ex. cbn [obind]. rewrite Lx. fold c. unfold reject_if.
  destruct (maxFrameLength max <? be_val (slice c 0 4)); [done|]. cbn [obind].
  destruct (Z.ltb_spec (zlen c - 4) (be_val (slice c 0 4))); [done|]. destruct (Z.ltb_spec (be_val (slice c 0 4)) 16); [done|]. cbn [obind].
  change (4 + 8) with 12. change (4 + 10) with 14. rewrite getShort_law by (fold c; lia). cbn [obind].
  destruct (getInt_u32 b 14 Hb) as (y & Ey & Ly & Ry); [lia|fold c; lia|]. rewrite Ey. cbn [obind]. rewrite Ly. fold c.
  destruct (negb _); [done|]. cbn [obind]. rewrite E1. done.
Qed.

Lemma lp_decode_sound max b :
  bytes (contents b) -> zlen (contents b) < 2 ^ 31 ->
  wp (lp_decode max b) (fun r => match r with
    | None => zlen (contents b) < 4 \/ zlen (contents b) < 4 + be_val (slice (contents b) 0 4) <= 4 + maxFrameLength max
    | Some (p, b') => packet_ok p /\ zlen (payload p) <= max /\ contents b = frame p ++ contents b' end) (fun e => e = ProtocolException).
Proof.
  intros Hb Hz. destruct (Z.lt_ge_cases (zlen (contents b)) 4) as [Hlt|Hge].
  { unfold lp_decode. rewrite readable_law, (proj2 (Z.ltb_lt _ PREFIX)) by done. by left. }
  destruct (lp_decode_step max b Hb Hge Hz) as (b1 & C1 & ->). set (c := contents b) in *. set (L := be_val (slice c 0 4)).
  destruct (Z.ltb_spec (maxFrameLength max) L) as [|Hmax]; [done|]. destruct (Z.ltb_spec (zlen c - 4) L) as [|HLe]; [right; lia|].
  destruct (Z.ltb_spec L 16) as [|H16]; [done|]. destruct (Z.eqb_spec (16 + be_val (slice c 12 2) + be_val (slice c 14 4)) L) as [El|]; [|done]. cbn [negb].
  assert (zlen (contents b1) = zlen c - 4) as Hz1 by (rewrite C1; unfold zlen in *; rewrite length_drop; lia).
  assert (c = take 4 c ++ contents b1) as Hc by (rewrite C1; by rewrite take_drop).
  assert (zlen (take 4 c) = 4) as Ht4 by (unfold zlen in *; rewrite length_take; lia).
  assert (forall i n, 0 <= i -> slice c (i + 4) n = slice (contents b1) i n) as Hsl.
  { intros i n Hi. rewrite Hc, slice_after, Ht4 by lia. f_equal. lia. }
  pose proof (Hsl 8 2 ltac:(lia)) as S8. pose proof (Hsl 10 4 ltac:(lia)) as S10. change (8 + 4) with 12 in S8. change (10 + 4) with 14 in S10.
  apply wp_bind. eapply wp_mono; [apply (decode_sound max b1); [rewrite C1; by apply Forall_drop|lia]| |done].
  intros [[p b']|] Hr; cbn [wp]; [|exfalso; destruct Hr as [?|Hr]; [lia|rewrite <- S8, <- S10 in Hr; lia]].
  destruct Hr as (Hok & Hpl & Hw). split; [done|]. split; [done|]. destruct (wire_fields p (contents b') Hok) as [F8 F10].
  rewrite Hc, Hw. unfold frame. rewrite <- app_assoc. f_equal. rewrite <- Hw in F8, F10. rewrite <- S8 in F8. rewrite <- S10 in F10.
  replace (wire_size p) with L by (unfold wire_size, FIXED_HEADER_SIZE; lia). symmetry.
  change (slice c 0 4) with (take 4 c) in L. apply be_bytes_val; [by apply Forall_take|unfold zlen in Ht4; lia].
Qed.

Lemma lp_decode_frame max b p rest :
  packet_ok p -> zlen (payload p) <= max < 2 ^ 63 - 65551 -> contents b = frame p ++ rest -> bytes rest -> zlen (contents b) < 2 ^ 31 ->
  exists b', lp_decode max b = Ok (Some (p, b')) /\ contents b' = rest.
Proof.
  intros Hp Hmax Hc Hrb Hz. pose proof Hp as (_ & _ & _ & Hpb & Heb & Hel & Hsz). pose proof (zlen_wire p) as Hw.
  pose proof (zlen_nonneg (extHeader p)). pose proof (zlen_nonneg (payload p)). pose proof (zlen_nonneg rest).
  unfold wire_size, FIXED_HEADER_SIZE in *.
  assert (zlen (be_bytes 4 (wire_size p)) = 4) as Hp4 by (unfold zlen; by rewrite length_be_bytes).
  assert (bytes (contents b)) as Hb.
  { rewrite Hc. unfold frame. rewrite wire_header, !Forall_app. split_and!; try done; [apply bytes_be|by apply header_bytes]. }
  unfold frame in Hc. rewrite <- app_assoc in Hc. assert (4 <= zlen (contents b)) as H4 by (rewrite Hc, !zlen_app; lia).
  destruct (lp_decode_step max b Hb H4 Hz) as (b1 & C1 & ->).
  assert (contents b1 = wire p ++ rest) as C1' by (rewrite C1, Hc; apply drop_app_length'; by rewrite length_be_bytes).
  destruct (wire_fields p rest Hp) as [F8 F10].
  assert (be_val (slice (contents b) 0 4) = wire_size p) as E0.
  { rewrite Hc, slice_prefix by lia. change (slice (be_bytes 4 (wire_size p)) 0 4) with (be_bytes 4 (wire_size p)).
    apply be_val_bytes. unfold wire_size, FIXED_HEADER_SIZE. change (256 ^ Z.of_nat 4) with (2 ^ 32). lia. }
  assert (be_val (slice (contents b) 12 2) = zlen (extHeader p) /\ be_val (slice (contents b) 14 4) = zlen (payload p)) as [E12 E14].
  { rewrite Hc, !slice_after by lia. rewrite Hp4. done. }
  rewrite E0, E12, E14. unfold maxFrameLength, wire_size, FIXED_HEADER_SIZE.
  rewrite (sgn_small 64) by (lia || (change (2 ^ (64 - 1)) with (2 ^ 63); lia)). rewrite Hc, !zlen_app, Hp4, Hw.
  zdecide. cbn [negb]. destruct (decode_wire max b1 p rest Hp (proj1 Hmax) C1') as (b' & -> & Hb'); [rewrite C1', zlen_app; rewrite Hc, !zlen_app in Hz; lia|].
  by exists b'.
Qed.
End Laws.

(** ** Extension headers the length field cannot describe *)

(** What the wire format of such a packet starts with. *)
Definition truncated (p : Packet) : Packet :=
  let m := Z.to_nat (zlen (extHeader p) mod 65536) in
  {| p_type := p_type p; messageId := messageId p; bizType := bizType p;
     payload := take (length (payload p)) (drop m (extHeader p) ++ payload p); extHeader := take m (extHeader p);
     compression := compression p; reserved := reserved p |}.

Definition overflow (p : Packet) : list Z :=
  drop (length (payload p)) (drop (Z.to_nat (zlen (extHeader p) mod 65536)) (extHeader p) ++ payload p).

Lemma truncated_ext p : zlen (extHeader (truncated p)) = zlen (extHeader p) mod 65536.
Proof.
  pose proof (zlen_nonneg (extHeader p)). pose proof (Z.mod_pos_bound (zlen (extHeader p)) 65536 ltac:(lia)).
  pose proof (Z.mod_le (zlen (extHeader p)) 65536 ltac:(lia) ltac:(lia)).
  unfold truncated, zlen in *; cbn [extHeader]. rewrite length_take. lia.
Qed.

Lemma truncated_payload p : zlen (payload (truncated p)) = zlen (payload p).
Proof. unfold truncated, zlen; cbn [payload]. rewrite length_take, length_app, length_drop. lia. Qed.

Lemma truncated_wire p : wire p = wire (truncated p) ++ overflow p.
Proof.
  rewrite !wire_header, <- !app_assoc. f_equal.
  - unfold header. rewrite truncated_ext, truncated_payload. cbn [truncated compression p_type bizType messageId reserved].
    change 65536 with (2 ^ 16). fold (wrap 16 (zlen (extHeader p))). by rewrite (be_bytes_wrap 2 _ 16).
  - unfold overflow. cbn [truncated extHeader payload]. rewrite take_drop, (assoc_L (++)), take_drop. done.
Qed.

Lemma truncated_ok p :
  0 <= messageId p < 2 ^ 32 -> 0 <= bizType p <= 255 -> 0 <= reserved p <= 65535 ->
  bytes (payload p) -> bytes (extHeader p) -> wire_size p < 2 ^ 31 -> packet_ok (truncated p).
Proof.
  intros Hid Hbiz Hres Hpb Heb Hsz. pose proof (Z.mod_pos_bound (zlen (extHeader p)) 65536 ltac:(lia)).
  pose proof (Z.mod_le (zlen (extHeader p)) 65536 (zlen_nonneg _) ltac:(lia)).
  unfold packet_ok, wire_size, FIXED_HEADER_SIZE in *. rewrite truncated_ext, truncated_payload.
  cbn [truncated messageId bizType reserved]. do 3 (split; [done|]). split; [|split; [|lia]].
  - unfold truncated; cbn [payload]. apply Forall_take, Forall_app. split; [by apply Forall_drop|done].
  - unfold truncated; cbn [extHeader]. by apply Forall_take.
Qed.

Lemma zlen_overflow p : zlen (overflow p) = 65536 * (zlen (extHeader p) / 65536).
Proof.
  pose proof (Z.mod_pos_bound (zlen (extHeader p)) 65536 ltac:(lia)). pose proof (Z.div_mod (zlen (extHeader p)) 65536 ltac:(lia)).
  pose proof (Z.mod_le (zlen (extHeader p)) 65536 (zlen_nonneg _) ltac:(lia)).
  unfold overflow, zlen in *. rewrite length_drop, length_app, length_drop. lia.
Qed.

(** ** Claims *)

(** C21: encoding appends the wire format of a packet, of the size the packet announces; decoding it returns the
    packet and leaves the bytes after it, and every strict prefix of it waits for more bytes. *)
Theorem PacketCodec_round_trip {B : Type} `{BufferLaws B} (max : Z) (p : Packet) (rest : list Z) :
  packet_ok p -> zlen (payload p) <= max -> zlen (wire p ++ rest) < 2 ^ 31 ->
  (forall out : B, contents (encode p out) = contents out ++ wire p) /\ Packet_size p = zlen (wire p) /\
  (forall b : B, contents b = wire p ++ rest -> exists b', decode max b = Ok (Some (p, b')) /\ contents b' = rest) /\
  (forall b : B, contents b `prefix_of` wire p -> contents b <> wire p -> decode max b = Ok None).
Proof.
  intros Hp Hmax Hz. split_and!.
  - intros out. by apply encode_wire.
  - rewrite zlen_wire. pose proof Hp as (_ & _ & _ & _ & _ & _ & Hsz). unfold wire_size, FIXED_HEADER_SIZE in *.
    pose proof (zlen_nonneg (extHeader p)). pose proof (zlen_nonneg (payload p)).
    unfold Packet_size, FIXED_HEADER_SIZE. rewrite (sgn_small 32); [done|lia|]. change (2 ^ (32 - 1)) with (2 ^ 31). lia.
  - intros b Hb. apply decode_wire; try done. by rewrite Hb.
  - intros b. by apply decode_prefix.
Qed.

(** C22: whatever the buffer holds, decoding returns, and it raises nothing but [ProtocolException]; it waits only
    while the header or the packet it announces is incomplete, and a packet it returns is within the limit and is
    the one whose wire format was consumed. *)
Theorem PacketCodec_decode_exact {B : Type} `{BufferLaws B} (max : Z) (b : B) :
  bytes (contents b) -> zlen (contents b) < 2 ^ 31 ->
  wp (decode max b) (fun r => match r with
    | None => zlen (contents b) < 16 \/
        16 + be_val (slice (contents b) 8 2) + be_val (slice (contents b) 10 4) > zlen (contents b)
    | Some (p, b') => packet_ok p /\ zlen (payload p) <= max /\ contents b = wire p ++ contents b' end)
    (fun e => e = ProtocolException).
Proof. apply decode_sound. Qed.


(** C39: a packet whose extension header is longer than its 16-bit length field is accepted and encoded all the
    same; the decoder then returns another packet and leaves a multiple of 65536 bytes of the first one to be read as packets. *)
Theorem PacketCodec_long_extHeader {B : Type} `{BufferLaws B} (max : Z) t id biz pay ext c res_ p (out : B) :
  newPacket t id biz pay ext c res_ = Ok p -> 0 <= id < 2 ^ 32 -> bytes pay -> bytes ext -> 65535 < zlen ext ->
  wire_size p < 2 ^ 31 -> zlen pay <= max -> contents out = [] ->
  exists q b', decode max (encode p out) = Ok (Some (q, b')) /\ q <> p /\
    zlen (extHeader q) = zlen ext mod 65536 /\ zlen (contents b') = 65536 * (zlen ext / 65536).
Proof.
  unfold newPacket, reject_if. destruct (0 <=? biz) eqn:C0, (biz <=? 255) eqn:C1, (0 <=? res_) eqn:C2, (res_ <=? 65535) eqn:C3; try done.
  cbn [andb negb obind]. intros [= <-] Hid Hpb Heb Hext Hsz Hmax Hout. set (p := Build_Packet _ _ _ _ _ _ _) in *.
  assert (contents (encode p out) = wire (truncated p) ++ overflow p) as Hw.
  { rewrite <- truncated_wire, encode_contents by (simpl; lia). by rewrite Hout. }
  destruct (decode_wire max (encode p out) (truncated p) (overflow p)) as (b' & Hd & Hb'); try done.
  - apply truncated_ok; simpl; (done || lia).
  - by rewrite truncated_payload.
  - by rewrite Hw, <- truncated_wire, zlen_wire.
  - exists (truncated p), b'. split_and!; [done| |apply truncated_ext|by rewrite Hb', zlen_overflow].
    intros E. pose proof (truncated_ext p) as Ht. rewrite E in Ht. cbn [p extHeader] in Ht.
    pose proof (Z.mod_pos_bound (zlen ext) 65536 ltac:(lia)). lia.
Qed.

(** ** Witnesses *)

Definition w_packet : Packet :=
  {| p_type := Request; messageId := 4026531841; bizType := 7; payload := [104; 105; 255]; extHeader := [9; 8];
     compression := Zstd; reserved := 4 |}.

Lemma w_packet_ok : packet_ok w_packet.
Proof. unfold packet_ok, w_packet, is_byte. cbn [messageId bizType reserved payload extHeader]. repeat split; repeat constructor; vm_compute; congruence. Defined.

Lemma PacketCodec_round_trip_witness :
  wire w_packet = [1; 1; 1; 7; 240; 0; 0; 1; 0; 2; 0; 0; 0; 3; 0; 4; 9; 8; 104; 105; 255] /\
  (forall b : list Z, contents b = wire w_packet ++ [1; 0] -> exists b', decode 3 b = Ok (Some (w_packet, b')) /\ contents b' = [1; 0]).
Proof.
  split; [reflexivity|]. apply (PacketCodec_round_trip (B := list Z) 3 w_packet [1; 0]).
  - apply w_packet_ok.
  - vm_compute. congruence.
  - vm_compute. reflexivity.
Defined.

(** A payload above the limit, and a packet followed by another byte. *)
Lemma PacketCodec_decode_exact_witness :
  decode (B := list Z) 2 (wire w_packet) = Err ProtocolException /\
  decode (B := list Z) 3 (wire w_packet ++ [1]) = Ok (Some (w_packet, [1])) /\
  packet_ok w_packet.
Proof.
  split; [reflexivity|]. assert (decode (B := list Z) 3 (wire w_packet ++ [1]) = Ok (Some (w_packet, [1]))) as E by reflexivity.
  split; [exact E|]. pose proof (PacketCodec_decode_exact (B := list Z) 3 (wire w_packet ++ [1])) as Hw. rewrite E in Hw.
  apply Hw; [|vm_compute; reflexivity]. unfold is_byte. repeat constructor; vm_compute; congruence.
Defined.


Lemma PacketCodec_long_extHeader_witness :
  let ext := replicate (Z.to_nat 65537) 0 in
  exists p, newPacket OneWay 1 0 [] ext CNone 0 = Ok p /\
    exists q b', decode (B := list Z) 0 (encode p []) = Ok (Some (q, b')) /\ q <> p /\
      zlen (extHeader q) = zlen ext mod 65536 /\ zlen (contents b') = 65536 * (zlen ext / 65536).
Proof.
  intros ext. eexists. split; [reflexivity|].
  apply (PacketCodec_long_extHeader (B := list Z) 0 OneWay 1 0 [] ext CNone 0); try done.
  - unfold ext. apply Forall_replicate. split; lia.
Defined.
