(* ===== verification/Payload.v ===== *)
(** * PayloadCompression.kt, ZstdCodec.zstdKmp.kt

    The compression of payloads around the packet codec, and the zstd codec of the
    targets zstd-kmp supports: its two streaming loops with their output limit.  The
    streaming compressor and decompressor of zstd-kmp and the zlib codec are
    interfaces; the codec the loops make of them is shown to keep the promise the
    packet level relies on. *)
From S2P Require Import Prelude Mem Kotlin Packet.

(** ** Chunks of output *)

Record ByteCollector := { chunks : list (list Z); bc_size : Z }.

Definition newCollector : ByteCollector := {| chunks := []; bc_size := 0 |}.

(** [ByteArray.copyOf(n)]: truncated, or padded with zeros. *)
Definition copyOf (source : list Z) (n : Z) : list Z :=
  take (Z.to_nat n) (source ++ replicate (Z.to_nat n - length source) 0).

Definition append (c : ByteCollector) (source : list Z) (count : Z) : ByteCollector :=
  if count <=? 0 then c
  else {| chunks := chunks c ++ [copyOf source count]; bc_size := s32 (bc_size c + count) |}.

(** [chunk.copyInto(result, offset)] *)
Definition copyInto (chunk result : list Z) (offset : Z) : kt (list Z) :=
  if (0 <=? offset) && (offset + zlen chunk <=? zlen result) then Ok (splice result offset chunk) else Err IndexOutOfBounds.

Definition toByteArray (c : ByteCollector) : kt (list Z) :=
  let* result := arrayOf (bc_size c) 0 in
  let* (result, _) :=
    ofold (fun chunk '(result, offset) =>
      let* result := copyInto chunk result offset in Ok (result, s32 (offset + zlen chunk)))
      (chunks c) (result, 0) in
  Ok result.

Definition MAX_CHUNK_SIZE : Z := 64 * 1024.
Definition MIN_CHUNK_SIZE : Z := 1024.
Definition workingChunkSize (inputSize : Z) : Z := Z.min (Z.max inputSize MIN_CHUNK_SIZE) MAX_CHUNK_SIZE.

(** ** zstd-kmp *)

(** What a streaming call leaves: its return code, the bytes it took and gave, and the output array. *)
Record streamed := {
  remaining : Z; inputBytesProcessed : Z; outputBytesProcessed : Z; outputByteArray : list Z
}.

(** A streaming call takes the length of the (empty) output array, the input array and the end of the input in it. *)
Class ZstdKmp := {
  Compressor : Type;
  Decompressor : Type;
  zstdCompressor : Compressor;
  zstdDecompressor : Decompressor;
  setParameter : Compressor -> Z -> Z -> Z * Compressor;
  compressStream2 : Compressor -> Z -> list Z -> Z -> streamed * Compressor;
  decompressStream : Decompressor -> Z -> list Z -> Z -> streamed * Decompressor;
  isErrorCode : Z -> bool
}.

(** ** ZstdCodec *)

Section ZstdCodec.
Context `{ZstdKmp}.

Definition ZSTD_LEVEL : Z := 3.
Definition ZSTD_C_COMPRESSION_LEVEL : Z := 100.

(** [getErrorName(code)?.let { throw ... }] *)
Definition checkZstd (code : Z) : kt unit := reject_if (isErrorCode code) CompressionException.

(** The array, and the end of the input in it: [NO_INPUT] is one byte long with an end of 0. *)
Definition unread (input : list Z) (offset : Z) : kt (list Z * Z) :=
  if zlen input <=? offset then Ok ([0], 0)
  else if offset =? 0 then Ok (input, zlen input)
  else if offset <? 0 then Err IndexOutOfBounds
  else let l := drop (Z.to_nat offset) input in Ok (l, zlen l).

Definition compress_body (input : list Z) (chunkSize : Z) (st : Compressor * Z * ByteCollector)
    : kt (Compressor * Z * ByteCollector + Z * ByteCollector) :=
  let '(compressor, inputOffset, output) := st in
  let* (pending, inputEnd) := unread input inputOffset in
  let (r, compressor) := compressStream2 compressor chunkSize pending inputEnd in
  checkZstd (remaining r) ;;;
  let inputOffset := s32 (inputOffset + inputBytesProcessed r) in
  let output := append output (outputByteArray r) (outputBytesProcessed r) in
  reject_if (negb (remaining r =? 0) && (inputBytesProcessed r =? 0) && (outputBytesProcessed r =? 0)) CompressionException ;;;
  if remaining r =? 0 then Ok (inr (inputOffset, output)) else Ok (inl (compressor, inputOffset, output)).

(** [ZSTD_compressBound], without the refinement for sources below 128 KB. *)
Definition frame_bound (n : Z) : Z := n + n / 256 + 64.

(** Every call but the last takes or gives a byte, so as many calls as there are bytes on both sides are enough. *)
Definition ZstdCodec_compress (input : list Z) : kt (list Z) :=
  let chunkSize := workingChunkSize (zlen input) in
  let (code, compressor) := setParameter zstdCompressor ZSTD_C_COMPRESSION_LEVEL ZSTD_LEVEL in
  checkZstd code ;;;
  let* (inputOffset, output) := loop (Z.to_nat (zlen input + frame_bound (zlen input) + 1)) (compress_body input chunkSize) (compressor, 0, newCollector) in
  reject_if (negb (inputOffset =? zlen input)) CompressionException ;;;
  toByteArray output.

Definition decompress_body (input : list Z) (maxOutputSize preferredChunkSize : Z) (st : Decompressor * Z * ByteCollector)
    : kt (Decompressor * Z * ByteCollector + Z * ByteCollector) :=
  let '(decompressor, inputOffset, output) := st in
  let room := s32 (Z.min (s32 (maxOutputSize - bc_size output)) preferredChunkSize + 1) in
  let* chunk := arrayOf room 0 in
  let* (pending, inputEnd) := unread input inputOffset in
  let (r, decompressor) := decompressStream decompressor (zlen chunk) pending inputEnd in
  checkZstd (remaining r) ;;;
  let inputOffset := s32 (inputOffset + inputBytesProcessed r) in
  let produced := outputBytesProcessed r in
  reject_if (maxOutputSize <? s32 (bc_size output + produced)) CompressionException ;;;
  let output := append output (outputByteArray r) produced in
  reject_if (negb (remaining r =? 0) && (inputBytesProcessed r =? 0) && (produced =? 0)) CompressionException ;;;
  if remaining r =? 0 then Ok (inr (inputOffset, output)) else Ok (inl (decompressor, inputOffset, output)).

(** As above, with the limit in place of the bound. *)
Definition ZstdCodec_decompress (input : list Z) (maxOutputSize : Z) : kt (list Z) :=
  reject_if (zlen input =? 0) CompressionException ;;;
  let preferredChunkSize := workingChunkSize (zlen input) in
  let* (inputOffset, output) :=
    loop (Z.to_nat (zlen input + maxOutputSize + 1)) (decompress_body input maxOutputSize preferredChunkSize)
      (zstdDecompressor, 0, newCollector) in
  reject_if (negb (inputOffset =? zlen input)) CompressionException ;;;
  toByteArray output.
End ZstdCodec.

(** ** PayloadCompression *)

(** The two [expect object]s. *)
Record codec := { compress : list Z -> kt (list Z); decompress : list Z -> Z -> kt (list Z) }.

Section PayloadCompression.
Context (zstd zlib : codec).

Definition compress_payload (payload : list Z) (c : Compression) : kt (list Z) :=
  match c with
  | CNone => Ok payload
  | Zstd => compress zstd payload
  | Zlib => compress zlib payload
  end.

Definition decompress_payload (payload : list Z) (c : Compression) (maxOutputSize : Z) : kt (list Z) :=
  reject_if (negb (0 <=? maxOutputSize)) IllegalArgument ;;;
  match c with
  | CNone => Ok payload
  | Zstd => decompress zstd payload maxOutputSize
  | Zlib => decompress zlib payload maxOutputSize
  end.

Definition compress_packet (packet : Packet) (c : Compression) : kt Packet :=
  if negb (bool_decide (compression packet = CNone)) then Err CompressionException
  else if bool_decide (c = CNone) then Ok packet
  else let* body := compress_payload (payload packet) c in withPayload packet body c.

Definition decompress_packet (packet : Packet) (maxOutputSize : Z) : kt Packet :=
  if bool_decide (compression packet = CNone) then Ok packet
  else
    let* body := decompress_payload (payload packet) (compression packet) maxOutputSize in
    withPayload packet body CNone.
End PayloadCompression.

(** ** Collected output *)

Definition collected (c : ByteCollector) (l : list Z) : Prop := concat (chunks c) = l /\ bc_size c = zlen l /\ zlen l < 2 ^ 31.

Lemma newCollector_nil : collected newCollector [].
Proof. repeat split. Qed.

Lemma s32_id x : 0 <= x < 2 ^ 31 -> s32 x = x.
Proof. intros Hx. apply sgn_small; [lia|]. change (2 ^ (32 - 1)) with (2 ^ 31). lia. Qed.

Lemma append_collected c l source n :
  collected c l -> 0 <= n <= zlen source -> zlen l + n < 2 ^ 31 -> collected (append c source n) (l ++ take (Z.to_nat n) source).
Proof.
  intros (Hc & Hs & Hl) Hn Hz. pose proof (zlen_nonneg l). unfold append. destruct (Z.leb_spec n 0).
  { assert (n = 0) as -> by lia. rewrite take_0, app_nil_r. done. }
  assert (copyOf source n = take (Z.to_nat n) source) as E by (unfold copyOf; apply take_app_le; unfold zlen in Hn; lia).
  assert (zlen (take (Z.to_nat n) source) = n) as Ez by (unfold zlen in *; rewrite length_take; lia).
  unfold collected; cbn [chunks bc_size]. rewrite E, concat_app, zlen_app, Hc, Ez, Hs, s32_id by lia. cbn [concat]. rewrite app_nil_r. split_and!; [done|lia|lia].
Qed.

Lemma copy_chunks cs : forall pre,
  zlen pre + zlen (concat cs) < 2 ^ 31 ->
  ofold (fun chunk '(result, offset) =>
      let* result := copyInto chunk result offset in Ok (result, s32 (offset + zlen chunk)))
    cs (pre ++ replicate (length (concat cs)) 0, zlen pre) = (Ok (pre ++ concat cs, zlen (pre ++ concat cs)) : kt _).
Proof.
  induction cs as [|c cs IH]; intros pre Hz; cbn [concat ofold length replicate]; [by rewrite !app_nil_r|].
  cbn [concat] in Hz. rewrite zlen_app in Hz. pose proof (zlen_nonneg pre). pose proof (zlen_nonneg c). pose proof (zlen_nonneg (concat cs)).
  unfold copyInto at 1. rewrite zlen_app, zlen_replicate, length_app. rewrite Nat2Z.inj_add. fold (zlen c) (zlen (concat cs)). zdecide. cbn [andb obind].
  rewrite s32_id by lia. rewrite <- zlen_app.
  assert (splice (pre ++ replicate (length c + length (concat cs)) 0) (zlen pre) c = (pre ++ c) ++ replicate (length (concat cs)) 0) as ->.
  { unfold splice, zlen. rewrite Nat2Z.id, take_app_length, replicate_add. rewrite (app_assoc pre (replicate (length c) 0)).
    rewrite drop_app_length' by (rewrite length_app, length_replicate; done). by rewrite <- app_assoc. }
  rewrite IH by (rewrite zlen_app; lia). by rewrite <- app_assoc.
Qed.

Lemma toByteArray_collected c l : collected c l -> toByteArray c = Ok l.
Proof.
  intros (Hc & Hs & Hl). unfold toByteArray, arrayOf. pose proof (zlen_nonneg l). rewrite Hs. zdecide. cbn [obind].
  pose proof (copy_chunks (chunks c) []) as Hcp. rewrite Hc in Hcp. rewrite !app_nil_l in Hcp. change (zlen (@nil Z)) with 0 in Hcp.
  replace (Z.to_nat (zlen l)) with (length l) by (unfold zlen; lia). by rewrite Hcp by lia.
Qed.

(** ** What zstd-kmp promises *)

Definition in_bounds (r : streamed) (room n : Z) : Prop :=
  0 <= inputBytesProcessed r <= n /\ 0 <= outputBytesProcessed r <= room /\ zlen (outputByteArray r) = room /\ bytes (outputByteArray r).

Class ZstdKmpBounds `{ZstdKmp} := {
  compress_bounds : forall s room arr n, 1 <= room -> 0 <= n <= zlen arr -> in_bounds (compressStream2 s room arr n).1 room n;
  decompress_bounds : forall s room arr n, 1 <= room -> 0 <= n <= zlen arr -> in_bounds (decompressStream s room arr n).1 room n
}.

(** A state that turns the input [i] into the output [o] takes some of the one and gives some of the other; it reports
    0 when both are exhausted, and makes progress until then. *)
Definition advances `{ZstdKmp} {S} (step : S -> Z -> list Z -> Z -> streamed * S) (T : S -> list Z -> list Z -> Prop) : Prop :=
  forall s o room arr n, T s (take (Z.to_nat n) arr) o -> 1 <= room -> 0 <= n <= zlen arr ->
    let (r, s') := step s room arr n in
    let k := outputBytesProcessed r in
    isErrorCode (remaining r) = false /\ k <= zlen o /\ take (Z.to_nat k) (outputByteArray r) = take (Z.to_nat k) o /\
    (if remaining r =? 0 then inputBytesProcessed r = n /\ k = zlen o
     else 0 < inputBytesProcessed r + k /\ T s' (drop (Z.to_nat (inputBytesProcessed r)) (take (Z.to_nat n) arr)) (drop (Z.to_nat k) o)).

Class ZstdKmpLaws `{ZstdKmpBounds} := {
  Compresses : Compressor -> list Z -> list Z -> Prop;
  Decompresses : Decompressor -> list Z -> list Z -> Prop;
  compress_advances : advances compressStream2 Compresses;
  decompress_advances : advances decompressStream Decompresses;
  frame_law : forall l, bytes l -> zlen l <= 2 ^ 30 -> exists frame,
    let (code, s) := setParameter zstdCompressor ZSTD_C_COMPRESSION_LEVEL ZSTD_LEVEL in
    isErrorCode code = false /\ Compresses s l frame /\ Decompresses zstdDecompressor frame l /\
    bytes frame /\ 0 < zlen frame <= frame_bound (zlen l)
}.

(** ** The loops *)

Lemma unread_val input off :
  0 <= off <= zlen input -> exists arr n,
    unread input off = Ok (arr, n) /\ 0 <= n <= zlen arr /\ n = zlen input - off /\ take (Z.to_nat n) arr = drop (Z.to_nat off) input.
Proof.
  intros Hoff. unfold unread. destruct (Z.leb_spec (zlen input) off).
  { eexists _, _. split; [reflexivity|]. split; [done|]. split; [lia|]. rewrite drop_ge by (unfold zlen in *; lia). done. }
  destruct (Z.eqb_spec off 0) as [->|].
  { eexists _, _. split; [reflexivity|]. split; [lia|]. split; [lia|]. rewrite drop_0. apply take_ge. unfold zlen. lia. }
  destruct (Z.ltb_spec off 0); [lia|]. eexists _, _. split; [reflexivity|]. pose proof (zlen_nonneg (drop (Z.to_nat off) input)).
  split; [lia|]. split; [unfold zlen in *; rewrite length_drop; lia|]. apply take_ge. unfold zlen. lia.
Qed.

Section Loops.
Context `{ZstdKmpBounds}.
Implicit Types (input l o : list Z).

(** Where a loop stands: [off] bytes of the input are taken and [l] is given. *)
Definition standing {S} input (st : S * Z * ByteCollector) (s : S) (off : Z) l : Prop :=
  st.1.1 = s /\ st.1.2 = off /\ 0 <= off <= zlen input /\ collected st.2 l /\ bytes l.

(** What one call does to it. *)
Definition call_effect {S} input (st' : S * Z * ByteCollector + Z * ByteCollector) (r : streamed) (s' : S) (off : Z) l : Prop :=
  let off' := off + inputBytesProcessed r in
  let l' := l ++ take (Z.to_nat (outputBytesProcessed r)) (outputByteArray r) in
  match st' with
  | inl st' => remaining r <> 0 /\ 0 < inputBytesProcessed r + outputBytesProcessed r /\ standing input st' s' off' l'
  | inr (off'', out) => remaining r = 0 /\ off'' = off' /\ collected out l' /\ bytes l'
  end.

Lemma decompress_call input max pref st s off l :
  zlen input < 2 ^ 31 -> 0 <= max < 2 ^ 31 - 1 -> 1 <= pref < 2 ^ 31 - 1 -> standing input st s off l -> zlen l <= max ->
  exists room arr n, 1 <= room /\ 0 <= n <= zlen arr /\ n = zlen input - off /\ take (Z.to_nat n) arr = drop (Z.to_nat off) input /\
    let (r, s') := decompressStream s room arr n in
    wp (decompress_body input max pref st) (fun st' => isErrorCode (remaining r) = false /\ zlen l + outputBytesProcessed r <= max /\ call_effect input st' r s' off l)
      (fun e => e = CompressionException /\ (isErrorCode (remaining r) = true \/ max < zlen l + outputBytesProcessed r \/
         (remaining r <> 0 /\ inputBytesProcessed r + outputBytesProcessed r = 0))).
Proof.
  destruct st as [[s0 off0] out]. intros Hz Hmax Hpref (Es & Eo & Hoff & Hc & Hb) Hl. cbn [fst snd] in *. subst s0 off0.
  pose proof Hc as (_ & Hsz & _). pose proof (zlen_nonneg l). destruct (unread_val input off Hoff) as (arr & n & Eu & Hn & En & Ht).
  set (room := Z.min (max - zlen l) pref + 1). assert (1 <= room <= max - zlen l + 1 /\ room <= pref + 1) as Hroom by (unfold room; lia).
  exists room, arr, n. split_and!; try done; try lia. pose proof (decompress_bounds s room arr n ltac:(lia) Hn) as Hbd.
  destruct (decompressStream s room arr n) as [r s'] eqn:Er. cbn [fst] in Hbd. destruct Hbd as (Hi & Ho & Hoz & Hob).
  unfold decompress_body. rewrite Hsz, (s32_id (max - zlen l)) by lia. fold room. rewrite s32_id by lia.
  unfold arrayOf. rewrite (proj2 (Z.ltb_ge room 0)) by lia. cbn [obind]. rewrite zlen_replicate, Z2Nat.id by lia. rewrite Eu. cbn [obind]. rewrite Er.
  unfold checkZstd. apply wp_bind, wp_reject_if; [tauto|]. intros Herr.
  apply wp_bind. rewrite (s32_id (zlen l + _)) by lia. apply wp_reject_if; [intros Hov%Z.ltb_lt; tauto|]. intros Hfit%Z.ltb_ge.
  apply wp_bind, wp_reject_if; [rewrite !andb_true_iff, negb_true_iff, Z.eqb_neq, !Z.eqb_eq; intros [[? ?] ?]; split; [done|right; right; lia]|].
  intros Hprog. rewrite (s32_id (off + _)) by lia.
  pose proof (append_collected out l (outputByteArray r) (outputBytesProcessed r) Hc ltac:(lia) ltac:(lia)) as Hc'.
  assert (bytes (l ++ take (Z.to_nat (outputBytesProcessed r)) (outputByteArray r))) as Hb' by (apply Forall_app; split; [done|by apply Forall_take]).
  destruct (Z.eqb_spec (remaining r) 0) as [E0|E0]; cbn [wp]; (split; [done|]); (split; [done|]); unfold call_effect; cbn [fst snd].
  - done.
  - cbn [negb andb] in Hprog. rewrite andb_false_iff, !Z.eqb_neq in Hprog. split; [done|]. split; [lia|]. unfold standing; cbn [fst snd]. split_and!; try done; lia.
Qed.

Lemma compress_call input chunkSize st s off l :
  zlen input < 2 ^ 31 -> 1 <= chunkSize -> standing input st s off l ->
  exists arr n, 0 <= n <= zlen arr /\ n = zlen input - off /\ take (Z.to_nat n) arr = drop (Z.to_nat off) input /\
    let (r, s') := compressStream2 s chunkSize arr n in
    isErrorCode (remaining r) = false -> zlen l + outputBytesProcessed r < 2 ^ 31 ->
    (remaining r <> 0 -> 0 < inputBytesProcessed r + outputBytesProcessed r) ->
    wp (compress_body input chunkSize st) (fun st' => call_effect input st' r s' off l) (fun _ => False).
Proof.
  destruct st as [[s0 off0] out]. intros Hz Hchunk (Es & Eo & Hoff & Hc & Hb). cbn [fst snd] in *. subst s0 off0.
  destruct (unread_val input off Hoff) as (arr & n & Eu & Hn & En & Ht). exists arr, n. split_and!; try done; try lia.
  pose proof (compress_bounds s chunkSize arr n Hchunk Hn) as Hbd.
  destruct (compressStream2 s chunkSize arr n) as [r s'] eqn:Er. cbn [fst] in Hbd. destruct Hbd as (Hi & Ho & Hoz & Hob).
  intros Herr Hfit Hprog. unfold compress_body. rewrite Eu. cbn [obind]. rewrite Er. unfold checkZstd. rewrite Herr. cbn [reject_if obind].
  rewrite s32_id by lia. pose proof (append_collected out l (outputByteArray r) (outputBytesProcessed r) Hc ltac:(lia) Hfit) as Hc'.
  assert (bytes (l ++ take (Z.to_nat (outputBytesProcessed r)) (outputByteArray r))) as Hb' by (apply Forall_app; split; [done|by apply Forall_take]).
  destruct (Z.eqb_spec (remaining r) 0) as [E0|E0]; cbn [negb andb reject_if obind wp]; [done|].
  specialize (Hprog E0). apply wp_bind, wp_reject_if; [rewrite andb_true_iff, !Z.eqb_eq; lia|]. intros _. cbn [wp].
  split; [done|]. split; [done|]. unfold standing; cbn [fst snd]. split_and!; try done; lia.
Qed.

Lemma start_standing {S} input (s : S) : standing input (s, 0, newCollector) s 0 [].
Proof. unfold standing; cbn [fst snd]. pose proof (zlen_nonneg input). split_and!; try done; lia. Qed.

(** Whatever the decompressor gives, the limit holds and the calls are bounded. *)
Lemma decompress_loop_bounded input max pref :
  zlen input < 2 ^ 31 -> 0 <= max < 2 ^ 31 - 1 -> 1 <= pref < 2 ^ 31 - 1 ->
  wp (loop (Z.to_nat (zlen input + max + 1)) (decompress_body input max pref) (zstdDecompressor, 0, newCollector))
    (fun '(off, out) => exists l, collected out l /\ bytes l /\ zlen l <= max) (fun e => e = CompressionException).
Proof.
  intros Hz Hmax Hpref. pose proof (zlen_nonneg input).
  apply (wp_loop (fun st => exists s off l, standing input st s off l /\ zlen l <= max)
    (fun st => zlen input - st.1.2 + (max - bc_size st.2))).
  - exists zstdDecompressor, 0, []. split; [apply start_standing|]. unfold zlen; simpl; lia.
  - cbn [fst snd newCollector bc_size]. lia.
  - intros st (s & off & l & (_ & -> & Hoff & (_ & -> & _) & _) & Hl). lia.
  - intros st (s & off & l & Hst & Hl). destruct (decompress_call input max pref st s off l Hz Hmax Hpref Hst Hl) as (room & arr & n & Hroom & Hn & En & Ht & Hw).
    pose proof (decompress_bounds s room arr n Hroom Hn) as Hbd. destruct (decompressStream s room arr n) as [r s']. cbn [fst] in Hbd.
    destruct Hbd as (Hi & Ho & Hoz & Hob). eapply wp_mono; [apply Hw| |naive_solver]. intros st' (_ & Hfit & He).
    destruct Hst as (_ & -> & Hoff & (_ & -> & _) & _).
    assert (zlen (l ++ take (Z.to_nat (outputBytesProcessed r)) (outputByteArray r)) = zlen l + outputBytesProcessed r) as El
      by (rewrite zlen_app; f_equal; unfold zlen in *; rewrite length_take; lia).
    destruct st' as [st'|[off' out]]; cbn [call_effect] in He.
    + destruct He as (_ & Hprog & Hst'). split; [eexists _, _, _; split; [exact Hst'|lia]|].
      destruct Hst' as (_ & -> & _ & (_ & -> & _) & _). rewrite El. lia.
    + destruct He as (_ & _ & Hc & Hb). eexists. split; [exact Hc|]. split; [done|lia].
Qed.

Lemma workingChunkSize_range n : 1024 <= workingChunkSize n <= 65536.
Proof. unfold workingChunkSize, MIN_CHUNK_SIZE, MAX_CHUNK_SIZE. lia. Qed.

Lemma decompress_bounded input max :
  zlen input < 2 ^ 31 -> 0 <= max < 2 ^ 31 - 1 ->
  wp (ZstdCodec_decompress input max) (fun l => bytes l /\ zlen l <= max) (fun e => e = CompressionException).
Proof.
  intros Hz Hmax. unfold ZstdCodec_decompress. apply wp_bind, wp_reject_if; [done|]. intros _. pose proof (workingChunkSize_range (zlen input)).
  apply wp_bind. eapply wp_mono; [apply decompress_loop_bounded; lia| |done]. intros [off out] (l & Hc & Hb & Hl).
  apply wp_bind, wp_reject_if; [done|]. intros _. by rewrite (toByteArray_collected out l Hc).
Qed.
End Loops.

(** ** Round trips *)

Section RoundTrip.
Context `{ZstdKmpLaws}.
Implicit Types (input l o frame : list Z).

(** The state of a loop that turns the rest of its input into the rest of [total]. *)
Definition on_the_way {S} (T : S -> list Z -> list Z -> Prop) input total (st : S * Z * ByteCollector) (s : S) (off : Z) l o : Prop :=
  standing input st s off l /\ T s (drop (Z.to_nat off) input) o /\ l ++ o = total.

(** A call of a state on its way, and where it leads. *)
Lemma advance_step {S} (step : S -> Z -> list Z -> Z -> streamed * S) T input total st s off l o room arr n r s' :
  advances step T -> on_the_way T input total st s off l o -> 1 <= room -> 0 <= n <= zlen arr -> n = zlen input - off ->
  take (Z.to_nat n) arr = drop (Z.to_nat off) input -> step s room arr n = (r, s') -> in_bounds r room n ->
  isErrorCode (remaining r) = false /\ outputBytesProcessed r <= zlen o /\ (remaining r <> 0 -> 0 < inputBytesProcessed r + outputBytesProcessed r) /\
  forall st', call_effect input st' r s' off l ->
    match st' with
    | inl st' => exists off' l' o', on_the_way T input total st' s' off' l' o' /\ zlen l' = zlen l + outputBytesProcessed r /\
        zlen input - off' + zlen o' < zlen input - off + zlen o
    | inr (off', out) => off' = zlen input /\ collected out total /\ bytes total /\ zlen total = zlen l + outputBytesProcessed r
    end.
Proof.
  intros Hadv (Hst & HT & Htot) Hroom Hn En Ht Er (Hi & Ho & Hoz & Hob). rewrite <- Ht in HT. pose proof (Hadv s o room arr n HT Hroom Hn) as Ha.
  rewrite Er, Ht in Ha. destruct Ha as (Herr & Hk & Htk & Hend). set (k := outputBytesProcessed r) in *.
  assert (zlen (drop (Z.to_nat k) o) = zlen o - k) as Hdo by (unfold zlen in *; rewrite length_drop; lia).
  assert (zlen (l ++ take (Z.to_nat k) o) = zlen l + k) as Hlk by (rewrite zlen_app; f_equal; unfold zlen in *; rewrite length_take; lia).
  split; [done|]. split; [done|]. split; [intros E; rewrite (proj2 (Z.eqb_neq (remaining r) 0) E) in Hend; apply Hend|].
  intros [st'|[off' out]] He; cbn [call_effect] in He; fold k in He; rewrite Htk in He.
  - destruct He as (E0 & Hprog & Hst'). rewrite (proj2 (Z.eqb_neq (remaining r) 0) E0) in Hend. destruct Hend as [_ HT'].
    eexists _, _, _. split; [split; [exact Hst'|]; split|split; [done|]].
    + replace (Z.to_nat (off + inputBytesProcessed r)) with (Z.to_nat off + Z.to_nat (inputBytesProcessed r))%nat
        by (destruct Hst as (_ & _ & Hoff & _); lia). rewrite <- drop_drop. exact HT'.
    + by rewrite <- app_assoc, take_drop.
    + rewrite Hdo. lia.
  - destruct He as (E0 & -> & Hc & Hb). rewrite (proj2 (Z.eqb_eq (remaining r) 0) E0) in Hend. destruct Hend as [Ei Ek].
    rewrite take_ge in Hc, Hb, Hlk by (unfold zlen in Ek; lia). rewrite Htot in Hc, Hb, Hlk. split_and!; try done. lia.
Qed.

Lemma way_start {S} (T : S -> list Z -> list Z -> Prop) input total (s : S) :
  T s input total -> on_the_way T input total (s, 0, newCollector) s 0 [] total.
Proof. intros HT. split; [apply start_standing|]. by rewrite drop_0. Qed.

Lemma compress_loop_frame input chunkSize s frame :
  zlen input < 2 ^ 31 -> 1 <= chunkSize -> Compresses s input frame -> zlen frame <= frame_bound (zlen input) -> frame_bound (zlen input) < 2 ^ 31 ->
  exists out, loop (Z.to_nat (zlen input + frame_bound (zlen input) + 1)) (compress_body input chunkSize) (s, 0, newCollector) = Ok (zlen input, out) /\ collected out frame.
Proof.
  intros Hz Hch HT Hfb Hb. pose proof (zlen_nonneg input). pose proof (zlen_nonneg frame).
  assert (wp (loop (Z.to_nat (zlen input + frame_bound (zlen input) + 1)) (compress_body input chunkSize) (s, 0, newCollector))
    (fun '(off, out) => off = zlen input /\ collected out frame) (fun _ => False)) as Hw.
  - apply (wp_loop (fun st => exists s off l o, on_the_way Compresses input frame st s off l o)
      (fun st => zlen input - st.1.2 + (zlen frame - bc_size st.2))).
    + eexists _, _, _, _. by apply way_start.
    + cbn [fst snd newCollector bc_size]. lia.
    + intros st (s1 & off & l & o & (_ & -> & Hoff & (_ & -> & _) & _) & _ & <-). rewrite zlen_app. pose proof (zlen_nonneg o). lia.
    + intros st (s1 & off & l & o & Hway). pose proof Hway as (Hst & _ & Htot).
      destruct (compress_call input chunkSize st s1 off l Hz Hch Hst) as (arr & n & Hn & En & Ht & Hcall).
      pose proof (compress_bounds s1 chunkSize arr n Hch Hn) as Hbd. destruct (compressStream2 s1 chunkSize arr n) as [r s'] eqn:Er. cbn [fst] in Hbd.
      destruct (advance_step _ _ _ _ _ _ _ _ _ _ _ _ _ _ compress_advances Hway Hch Hn En Ht Er Hbd) as (Herr & Hk & Hprog & Heff).
      assert (zlen l + zlen o = zlen frame) as Hlo by (by rewrite <- Htot, zlen_app).
      eapply wp_mono; [apply Hcall; [done|lia|done]| |done]. intros st' He. specialize (Heff st' He). destruct st' as [st'|[off' out]].
      * destruct Heff as (off' & l' & o' & Hway' & _ & Hlt). split; [by eexists _, _, _, _|]. destruct Hst as (_ & -> & _ & (_ & -> & _) & _).
        destruct Hway' as ((_ & -> & _ & (_ & -> & _) & _) & _ & Htot'). assert (zlen l' + zlen o' = zlen frame) by (by rewrite <- Htot', zlen_app). lia.
      * tauto.
  - destruct (wp_exists _ _ Hw) as ([off out] & -> & -> & Hc). by exists out.
Qed.

Lemma decompress_loop_frame input max pref l :
  zlen input < 2 ^ 31 -> 0 <= max < 2 ^ 31 - 1 -> 1 <= pref < 2 ^ 31 - 1 -> Decompresses zstdDecompressor input l ->
  wp (loop (Z.to_nat (zlen input + max + 1)) (decompress_body input max pref) (zstdDecompressor, 0, newCollector))
    (fun '(off, out) => off = zlen input /\ collected out l /\ zlen l <= max) (fun e => e = CompressionException /\ max < zlen l).
Proof.
  intros Hz Hmax Hpref HT. pose proof (zlen_nonneg input).
  apply (wp_loop (fun st => exists s off k o, on_the_way Decompresses input l st s off k o /\ zlen k <= max)
    (fun st => zlen input - st.1.2 + (max - bc_size st.2))).
  - eexists _, _, _, _. split; [by apply way_start|]. unfold zlen; simpl; lia.
  - cbn [fst snd newCollector bc_size]. lia.
  - intros st (s1 & off & k & o & ((_ & -> & Hoff & (_ & -> & _) & _) & _) & Hk). lia.
  - intros st (s1 & off & k & o & Hway & Hk). pose proof Hway as (Hst & _ & Htot). 
    destruct (decompress_call input max pref st s1 off k Hz Hmax Hpref Hst Hk) as (room & arr & n & Hroom & Hn & En & Ht & Hcall).
    pose proof (decompress_bounds s1 room arr n Hroom Hn) as Hbd. destruct (decompressStream s1 room arr n) as [r s'] eqn:Er. cbn [fst] in Hbd.
    destruct (advance_step _ _ _ _ _ _ _ _ _ _ _ _ _ _ decompress_advances Hway Hroom Hn En Ht Er Hbd) as (Herr & Hko & Hprog & Heff).
    assert (zlen k + zlen o = zlen l) as Hlo by (by rewrite <- Htot, zlen_app). eapply wp_mono; [apply Hcall| |].
    + intros st' (_ & Hfit & He). specialize (Heff st' He). destruct st' as [st'|[off' out]].
      * destruct Heff as (off' & k' & o' & Hway' & Ek' & Hlt). split; [eexists _, _, _, _; split; [done|lia]|].
        destruct Hst as (_ & -> & _ & (_ & -> & _) & _). destruct Hway' as ((_ & -> & _ & (_ & -> & _) & _) & _ & Htot').
        assert (zlen k' + zlen o' = zlen l) by (by rewrite <- Htot', zlen_app). lia.
      * destruct Heff as (? & ? & ? & ?). split_and!; [done|done|lia].
    + intros e (-> & [?|[?|[E0 ?]]]); [congruence|split; [done|lia]|specialize (Hprog E0); lia].
Qed.
End RoundTrip.

(** ** What a codec promises *)

Class CodecLaws (k : codec) := {
  codec_round_trip : forall l, bytes l -> zlen l <= 2 ^ 30 -> exists c,
    compress k l = Ok c /\ bytes c /\ zlen c <= frame_bound (zlen l) /\
    forall max, 0 <= max < 2 ^ 31 - 1 -> decompress k c max = if zlen l <=? max then Ok l else Err CompressionException;
  codec_bounded : forall c max, zlen c < 2 ^ 31 -> 0 <= max < 2 ^ 31 - 1 ->
    wp (decompress k c max) (fun l => bytes l /\ zlen l <= max) (fun e => e = CompressionException)
}.

Lemma frame_bound_int n : 0 <= n <= 2 ^ 30 -> n <= frame_bound n < 2 ^ 31 - 2 ^ 20.
Proof. intros Hn. unfold frame_bound. pose proof (Z.div_pos n 256 ltac:(lia) ltac:(lia)). pose proof (Z.div_lt_upper_bound n 256 (2 ^ 23) ltac:(lia) ltac:(lia)). lia. Qed.

Definition ZstdCodec `{ZstdKmp} : codec := {| compress := ZstdCodec_compress; decompress := ZstdCodec_decompress |}.

Section Codec.
Context `{ZstdKmpLaws}.

Lemma compress_frame l : bytes l -> zlen l <= 2 ^ 30 -> exists frame,
  ZstdCodec_compress l = Ok frame /\ Decompresses zstdDecompressor frame l /\ bytes frame /\ 0 < zlen frame <= frame_bound (zlen l).
Proof.
  intros Hb Hz. pose proof (zlen_nonneg l). destruct (frame_law l Hb Hz) as (frame & Hf). unfold ZstdCodec_compress.
  destruct (setParameter zstdCompressor ZSTD_C_COMPRESSION_LEVEL ZSTD_LEVEL) as [code s]. destruct Hf as (Hcode & HC & HD & Hfb & Hfz).
  pose proof (frame_bound_int (zlen l) ltac:(lia)). pose proof (workingChunkSize_range (zlen l)).
  destruct (compress_loop_frame l (workingChunkSize (zlen l)) s frame ltac:(lia) ltac:(lia) HC ltac:(lia) ltac:(lia)) as (out & -> & Hc).
  exists frame. unfold checkZstd. rewrite Hcode. cbn [reject_if obind]. rewrite Z.eqb_refl. cbn [negb reject_if obind].
  by rewrite (toByteArray_collected out frame Hc).
Qed.

Lemma decompress_frame frame l max :
  Decompresses zstdDecompressor frame l -> 0 < zlen frame < 2 ^ 31 -> 0 <= max < 2 ^ 31 - 1 ->
  ZstdCodec_decompress frame max = if zlen l <=? max then Ok l else Err CompressionException.
Proof.
  intros HD Hz Hmax. unfold ZstdCodec_decompress. rewrite (proj2 (Z.eqb_neq (zlen frame) 0)) by lia. cbn [reject_if obind].
  pose proof (workingChunkSize_range (zlen frame)).
  pose proof (decompress_loop_frame frame max (workingChunkSize (zlen frame)) l ltac:(lia) Hmax ltac:(lia) HD) as Hw.
  destruct (loop _ _ _) as [[off out]|e|f]; cbn [wp] in Hw; [|..|done].
  - destruct Hw as (-> & Hc & Hl). cbn [obind]. rewrite Z.eqb_refl, (proj2 (Z.leb_le _ max)) by done. cbn [negb reject_if obind]. by apply toByteArray_collected.
  - destruct Hw as (-> & Hl). by rewrite (proj2 (Z.leb_gt _ max)) by done.
Qed.

(** The loops make a codec of zstd-kmp's streams. *)
#[export] Instance ZstdCodec_laws : CodecLaws ZstdCodec.
Proof.
  split; [|intros c max Hc Hmax; by apply decompress_bounded].
  intros l Hb Hz. destruct (compress_frame l Hb Hz) as (frame & Hc & HD & Hfb & Hfz). exists frame. split; [done|]. split; [done|]. split; [lia|].
  intros max Hmax. pose proof (frame_bound_int (zlen l) ltac:(pose proof (zlen_nonneg l); lia)). apply decompress_frame; [done|lia|done].
Qed.
End Codec.

(** ** Packets *)

Section Packets.
Context (zstd zlib : codec) {HZ : CodecLaws zstd} {HL : CodecLaws zlib}.

Definition with_body (p : Packet) (body : list Z) (c : Compression) : Packet :=
  {| p_type := p_type p; messageId := messageId p; bizType := bizType p; payload := body; extHeader := extHeader p; compression := c; reserved := reserved p |}.

Lemma withPayload_Ok p body c : 0 <= bizType p <= 255 -> 0 <= reserved p <= 65535 -> withPayload p body c = Ok (with_body p body c).
Proof. intros Hb Hr. unfold withPayload, newPacket, reject_if. by zdecide. Qed.

Lemma payload_round_trip l c :
  bytes l -> zlen l <= 2 ^ 30 -> exists body,
    compress_payload zstd zlib l c = Ok body /\ bytes body /\ zlen body <= frame_bound (zlen l) /\
    (forall max, zlen l <= max < 2 ^ 31 - 1 -> decompress_payload zstd zlib body c max = Ok l) /\
    (forall max, 0 <= max < zlen l -> c <> CNone -> decompress_payload zstd zlib body c max = Err CompressionException).
Proof.
  intros Hb Hz. pose proof (zlen_nonneg l). unfold compress_payload, decompress_payload, reject_if.
  assert (forall k, CodecLaws k -> exists body, compress k l = Ok body /\ bytes body /\ zlen body <= frame_bound (zlen l) /\
    (forall max, zlen l <= max < 2 ^ 31 - 1 -> ((if negb (0 <=? max) then Err IllegalArgument else Ok tt);;; decompress k body max) = Ok l) /\
    (forall max, 0 <= max < zlen l -> c <> CNone -> ((if negb (0 <=? max) then Err IllegalArgument else Ok tt);;; decompress k body max) = Err CompressionException)) as Hk.
  { intros k Hk. destruct (codec_round_trip l Hb Hz) as (body & E & Hbb & Hbz & Hd). exists body. split_and!; try done;
      intros max Hmax; intros; rewrite (proj2 (Z.leb_le 0 max)) by lia; cbn [negb obind]; rewrite Hd by lia; by zdecide. }
  destruct c; [|by apply Hk..]. exists l. split_and!; try done; [apply frame_bound_int; lia|].
  intros max Hmax. by rewrite (proj2 (Z.leb_le 0 max)) by lia.
Qed.

Lemma with_body_ok p body c : packet_ok p -> bytes body -> zlen body < 2 ^ 31 - 2 ^ 20 -> packet_ok (with_body p body c).
Proof.
  intros (H1 & H2 & H3 & H4 & H5 & H6 & H7) Hb Hz. unfold packet_ok, wire_size, FIXED_HEADER_SIZE in *. cbn [with_body messageId bizType reserved payload extHeader].
  repeat (split; [done|]). lia.
Qed.

Lemma with_body_id p : compression p = CNone -> with_body p (payload p) CNone = p.
Proof. destruct p; simpl. by intros ->. Qed.

Lemma packet_round_trip p c :
  packet_ok p -> compression p = CNone -> zlen (payload p) <= 2 ^ 30 ->
  exists q, compress_packet zstd zlib p c = Ok q /\ packet_ok q /\ compression q = c /\ zlen (payload q) <= frame_bound (zlen (payload p)) /\
    (forall max, zlen (payload p) <= max < 2 ^ 31 - 1 -> decompress_packet zstd zlib q max = Ok p) /\
    (forall max, 0 <= max < zlen (payload p) -> c <> CNone -> decompress_packet zstd zlib q max = Err CompressionException).
Proof.
  intros Hp Hn Hz. pose proof Hp as (_ & Hbiz & Hres & Hpb & _). pose proof (frame_bound_int (zlen (payload p)) ltac:(pose proof (zlen_nonneg (payload p)); lia)).
  unfold compress_packet, decompress_packet. rewrite bool_decide_true by done. cbn [negb]. destruct (decide (c = CNone)) as [->|Hc].
  { exists p. rewrite !bool_decide_true by done. split_and!; try done; lia. }
  destruct (payload_round_trip (payload p) c Hpb Hz) as (body & E & Hb & Hbz & Hok & Hbig). rewrite bool_decide_false by done. rewrite E. cbn [obind].
  exists (with_body p body c). rewrite withPayload_Ok by done. split; [done|]. split; [apply with_body_ok; (done || lia)|]. split; [done|]. split; [done|].
  cbn [with_body compression payload]. rewrite bool_decide_false by done.
  split; intros max Hmax; intros; [rewrite Hok by done|by rewrite Hbig by done]. cbn [obind]. rewrite withPayload_Ok by done.
  change (with_body (with_body p body c) (payload p) CNone) with (with_body p (payload p) CNone). by rewrite with_body_id.
Qed.

(** Inbound packets: whatever their payload. *)
Lemma decompress_packet_safe q max :
  packet_ok q -> 0 <= max < 2 ^ 31 - 2 ^ 20 ->
  wp (decompress_packet zstd zlib q max) (fun p => packet_ok p /\ compression p = CNone /\ p = with_body q (payload p) CNone /\
      (compression q <> CNone -> zlen (payload p) <= max))
    (fun e => e = CompressionException).
Proof.
  intros Hq Hmax. pose proof Hq as (_ & Hbiz & Hres & Hpb & _ & _ & Hsz). unfold decompress_packet. case_bool_decide as Hc.
  { cbn [wp]. split_and!; try done. by rewrite with_body_id. }
  assert (zlen (payload q) < 2 ^ 31) as Hz by (unfold wire_size, FIXED_HEADER_SIZE in Hsz; pose proof (zlen_nonneg (extHeader q)); lia).
  assert (wp (decompress_payload zstd zlib (payload q) (compression q) max) (fun l => bytes l /\ zlen l <= max) (fun e => e = CompressionException)) as Hw.
  { unfold decompress_payload. rewrite (proj2 (Z.leb_le 0 max)) by lia. cbn [negb reject_if obind].
    destruct (compression q); [done|apply codec_bounded; lia..]. }
  apply wp_bind. eapply wp_mono; [exact Hw| |done]. intros body (Hb & Hbz). rewrite withPayload_Ok by done. cbn [wp].
  split; [apply with_body_ok; (done || lia)|]. split; [done|]. split; [done|]. done.
Qed.
End Packets.

(** ** Claims *)

(** C20: whatever a decompressor within its bounds gives for whatever input, the zstd codec returns after at most as
    many calls as there are bytes of input and allowed output, with at most [maxOutputSize] bytes or with a
    [CompressionException]. *)
Theorem ZstdCodec_decompress_bounded `{ZstdKmpBounds} (input : list Z) (maxOutputSize : Z) :
  zlen input < 2 ^ 31 -> 0 <= maxOutputSize < 2 ^ 31 - 1 ->
  wp (ZstdCodec_decompress input maxOutputSize) (fun l => bytes l /\ zlen l <= maxOutputSize) (fun e => e = CompressionException).
Proof. apply decompress_bounded. Qed.

(** Compressing then decompressing over zstd-kmp's streams returns the input when it is within the limit and
    refuses it when it is not. *)
Theorem ZstdCodec_round_trip `{ZstdKmpLaws} (l : list Z) (maxOutputSize : Z) :
  bytes l -> zlen l <= 2 ^ 30 -> 0 <= maxOutputSize < 2 ^ 31 - 1 ->
  exists c, ZstdCodec_compress l = Ok c /\
    ZstdCodec_decompress c maxOutputSize = (if zlen l <=? maxOutputSize then Ok l else Err CompressionException).
Proof.
  intros Hb Hz Hmax. destruct (codec_round_trip (k := ZstdCodec) l Hb Hz) as (c & Hc & _ & _ & Hd). exists c. split; [done|]. by apply Hd.
Qed.


(** An inbound packet is passed on as plain bytes, with its other fields unchanged and its decompressed payload
    within the limit, or refused with a [CompressionException]. *)
Theorem PayloadCompression_inbound (zstd zlib : codec) `{CodecLaws zstd} `{CodecLaws zlib} (q : Packet) (maxOutputSize : Z) :
  packet_ok q -> 0 <= maxOutputSize < 2 ^ 31 - 2 ^ 20 ->
  wp (decompress_packet zstd zlib q maxOutputSize) (fun p =>
      packet_ok p /\ compression p = CNone /\ p = with_body q (payload p) CNone /\
      (compression q <> CNone -> zlen (payload p) <= maxOutputSize))
    (fun e => e = CompressionException).
Proof. apply decompress_packet_safe; done. Qed.

(** ** Witnesses *)

(** Streams that store their input behind one byte; the state says whether that byte has passed. *)
Module Stored.
Definition pad (room : Z) (l : list Z) : list Z := l ++ replicate (Z.to_nat room - length l) 0.

Definition copy (room : Z) (i : list Z) : streamed :=
  let k := Z.min room (zlen i) in
  {| remaining := zlen i - k; inputBytesProcessed := k; outputBytesProcessed := k; outputByteArray := pad room (take (Z.to_nat k) i) |}.

Definition idle (code room : Z) : streamed :=
  {| remaining := code; inputBytesProcessed := 0; outputBytesProcessed := 0; outputByteArray := pad room [] |}.

Definition input_of (arr : list Z) (n : Z) : list Z := map (wrap 8) (take (Z.to_nat n) arr).

Definition compressStream2 (started : bool) (room : Z) (arr : list Z) (n : Z) : streamed * bool :=
  let i := input_of arr n in
  if started then (copy room i, true)
  else
    let k := Z.min (room - 1) (zlen i) in
    ({| remaining := zlen i - k; inputBytesProcessed := k; outputBytesProcessed := k + 1;
        outputByteArray := pad room (40 :: take (Z.to_nat k) i) |}, true).

Definition decompressStream (started : bool) (room : Z) (arr : list Z) (n : Z) : streamed * bool :=
  let i := input_of arr n in
  if started then (copy room i, true)
  else match i with
       | x :: rest =>
           if x =? 40 then
             let r := copy room rest in
             ({| remaining := remaining r; inputBytesProcessed := inputBytesProcessed r + 1;
                 outputBytesProcessed := outputBytesProcessed r; outputByteArray := outputByteArray r |}, true)
           else (idle (-1) room, false)
       | [] => (idle 1 room, false)
       end.
End Stored.

#[local] Instance stored : ZstdKmp := {|
  zstdCompressor := false; zstdDecompressor := false;
  setParameter s _ _ := (0, s);
  compressStream2 := Stored.compressStream2;
  decompressStream := Stored.decompressStream;
  isErrorCode c := c <? 0
|}.

Lemma zlen_input_of arr n : 0 <= n <= zlen arr -> zlen (Stored.input_of arr n) = n.
Proof. intros Hn. unfold Stored.input_of, zlen in *. rewrite length_map, length_take. lia. Qed.

Lemma bytes_input_of arr n : bytes (Stored.input_of arr n).
Proof. apply Forall_forall. intros x Hx. apply list_elem_of_fmap in Hx as (y & -> & _). unfold is_byte, wrap. pose proof (Z.mod_pos_bound y (2 ^ 8)). lia. Qed.

Lemma input_of_bytes arr n : bytes (take (Z.to_nat n) arr) -> Stored.input_of arr n = take (Z.to_nat n) arr.
Proof.
  unfold Stored.input_of. generalize (take (Z.to_nat n) arr). intros l Hl. induction Hl as [|x l Hx Hl IH]; [done|]. simpl.
  rewrite IH, wrap_small; [done|]. unfold is_byte in Hx. lia.
Qed.

Lemma pad_len room l : zlen l <= room -> zlen (Stored.pad room l) = room.
Proof. intros Hl. unfold Stored.pad, zlen in *. rewrite length_app, length_replicate. lia. Qed.

Lemma pad_bytes room l : bytes l -> bytes (Stored.pad room l).
Proof. intros Hl. apply Forall_app. split; [done|]. apply Forall_replicate. unfold is_byte. lia. Qed.

Lemma take_pad room l k : (k <= length l)%nat -> take k (Stored.pad room l) = take k l.
Proof. intros. by apply take_app_le. Qed.

Lemma copy_bounds room i : 1 <= room -> bytes i -> in_bounds (Stored.copy room i) room (zlen i).
Proof.
  intros Hr Hi. pose proof (zlen_nonneg i). unfold in_bounds, Stored.copy; cbn [inputBytesProcessed outputBytesProcessed outputByteArray].
  split; [lia|]. split; [lia|]. split; [apply pad_len; unfold zlen; rewrite length_take; lia|]. by apply pad_bytes, Forall_take.
Qed.

#[local] Instance stored_bounds : ZstdKmpBounds.
Proof.
  split; intros [] room arr n Hr Hn; cbn [compressStream2 decompressStream stored]; unfold Stored.compressStream2, Stored.decompressStream;
    pose proof (bytes_input_of arr n) as Hb; pose proof (zlen_input_of arr n Hn) as Hz; set (i := Stored.input_of arr n) in *; clearbody i; clear Hn arr; subst n.
  - by apply copy_bounds.
  - pose proof (zlen_nonneg i). unfold in_bounds; cbn [fst inputBytesProcessed outputBytesProcessed outputByteArray]. split; [lia|]. split; [lia|].
    split; [apply pad_len; rewrite zlen_cons; unfold zlen; rewrite length_take; lia|]. apply pad_bytes. constructor; [unfold is_byte; lia|by apply Forall_take].
  - by apply copy_bounds.
  - assert (forall c, in_bounds (Stored.idle c room) room (zlen i)) as Hidle.
    { intros c. pose proof (zlen_nonneg i). unfold in_bounds, Stored.idle; cbn [inputBytesProcessed outputBytesProcessed outputByteArray]. split; [lia|]. split; [lia|].
      split; [apply pad_len; unfold zlen; simpl; lia|]. by apply pad_bytes. }
    destruct i as [|x i]; [apply Hidle|]. destruct (x =? 40); [|apply Hidle]. inversion_clear Hb.
    destruct (copy_bounds room i) as (? & ? & ?); try done. rewrite zlen_cons. unfold in_bounds; cbn [fst inputBytesProcessed outputBytesProcessed outputByteArray]. split; [lia|done].
Qed.

Lemma copy_advances room i : 1 <= room ->
  let r := Stored.copy room i in let k := outputBytesProcessed r in
  0 <= remaining r /\ 0 <= k <= zlen i /\ take (Z.to_nat k) (outputByteArray r) = take (Z.to_nat k) i /\ inputBytesProcessed r = k /\
  (if remaining r =? 0 then k = zlen i else 0 < k).
Proof.
  intros Hr. pose proof (zlen_nonneg i). unfold Stored.copy; cbn [remaining inputBytesProcessed outputBytesProcessed outputByteArray].
  split; [lia|]. split; [lia|]. split; [rewrite take_pad, take_take by (rewrite length_take; unfold zlen; lia); f_equal; lia|]. split; [done|].
  destruct (Z.eqb_spec (zlen i - Z.min room (zlen i)) 0); lia.
Qed.

#[local] Instance stored_laws : ZstdKmpLaws.
Proof.
  apply (Build_ZstdKmpLaws stored stored_bounds
    (fun (s : bool) i o => bytes i /\ o = (if s then [] else [40]) ++ i) (fun (s : bool) i o => bytes i /\ i = (if s then [] else [40]) ++ o)).
  - intros [] o room arr n [Hb ->] Hr Hn; cbn [compressStream2 isErrorCode stored]; unfold Stored.compressStream2; rewrite input_of_bytes by done;
      assert (zlen (take (Z.to_nat n) arr) = n) as Hz by (unfold zlen in *; rewrite length_take; lia); set (i := take (Z.to_nat n) arr) in *; clearbody i.
    + cbn [app]. destruct (copy_advances room i Hr) as (H0 & Hk & Ht & Ei & Hend). rewrite (proj2 (Z.ltb_ge _ 0)) by lia. split_and!; try done; [lia|].
      rewrite Ei. destruct (_ =? 0); [lia|]. split; [lia|]. split; [by apply Forall_drop|done].
    + pose proof (zlen_nonneg i). cbn [remaining inputBytesProcessed outputBytesProcessed outputByteArray app]. rewrite (proj2 (Z.ltb_ge _ 0)) by lia.
      rewrite zlen_cons. split; [done|]. split; [lia|]. set (k := Z.min (room - 1) (zlen i)). assert (0 <= k <= zlen i) as Hk by lia.
      replace (Z.to_nat (k + 1)) with (S (Z.to_nat k)) by lia. split.
      { rewrite take_pad by (simpl; rewrite length_take; unfold zlen in *; lia). simpl. rewrite take_take. do 2 f_equal. lia. }
      destruct (Z.eqb_spec (zlen i - k) 0); [lia|]. split; [lia|]. split; [by apply Forall_drop|done].
  - intros [] o room arr n [Hb Eo] Hr Hn; cbn [decompressStream isErrorCode stored]; unfold Stored.decompressStream; rewrite input_of_bytes by done;
      assert (zlen (take (Z.to_nat n) arr) = n) as Hz by (unfold zlen in *; rewrite length_take; lia); set (i := take (Z.to_nat n) arr) in *; clearbody i; cbn [app] in Eo; subst i.
    + destruct (copy_advances room o Hr) as (H0 & Hk & Ht & Ei & Hend). rewrite (proj2 (Z.ltb_ge _ 0)) by lia. split_and!; try done; [lia|].
      rewrite Ei. destruct (_ =? 0); [lia|]. split; [lia|]. split; [by apply Forall_drop|done].
    + rewrite zlen_cons in Hz. destruct (copy_advances room o Hr) as (H0 & Hk & Ht & Ei & Hend). cbn [Z.eqb Pos.eqb remaining inputBytesProcessed outputBytesProcessed outputByteArray].
      rewrite (proj2 (Z.ltb_ge _ 0)) by lia. split_and!; try done; [lia|]. rewrite Ei. destruct (_ =? 0); [lia|]. split; [lia|].
      replace (Z.to_nat (outputBytesProcessed (Stored.copy room o) + 1)) with (S (Z.to_nat (outputBytesProcessed (Stored.copy room o)))) by lia.
      simpl. inversion_clear Hb. split; [by apply Forall_drop|done].
  - intros l Hb Hz. exists (40 :: l). cbn [setParameter stored isErrorCode zstdCompressor zstdDecompressor]. pose proof (zlen_nonneg l).
    assert (bytes (40 :: l)) by (constructor; [unfold is_byte; lia|done]). split_and!; try done. rewrite zlen_cons.
    unfold frame_bound. pose proof (Z.div_pos (zlen l) 256 ltac:(lia) ltac:(lia)). lia.
Qed.

(** Three bytes; the limit refuses the second and the empty payload is refused. *)
Lemma ZstdCodec_decompress_bounded_witness :
  ZstdCodec_decompress [40; 7; 8; 9] 3 = Ok [7; 8; 9] /\ ZstdCodec_decompress [40; 7; 8; 9] 2 = Err CompressionException /\
  ZstdCodec_decompress [41; 7] 2 = Err CompressionException /\ zlen [7; 8; 9] <= 3.
Proof.
  assert (ZstdCodec_decompress [40; 7; 8; 9] 3 = Ok [7; 8; 9]) as E by (vm_compute; reflexivity).
  split; [exact E|]. split; [vm_compute; reflexivity|]. split; [vm_compute; reflexivity|].
  pose proof (ZstdCodec_decompress_bounded [40; 7; 8; 9] 3) as Hw. rewrite E in Hw. apply Hw; vm_compute; [reflexivity|split; [congruence|reflexivity]].
Defined.

Lemma ZstdCodec_round_trip_witness :
  exists c, ZstdCodec_compress [7; 8; 9] = Ok c /\ ZstdCodec_decompress c 5 = Ok [7; 8; 9].
Proof.
  apply (ZstdCodec_round_trip [7; 8; 9] 5).
  - repeat constructor; vm_compute; congruence.
  - vm_compute. congruence.
  - vm_compute. split; [congruence|reflexivity].
Defined.

Definition w_plain : Packet := with_body w_packet [7; 8; 9] CNone.


Lemma PayloadCompression_inbound_witness :
  decompress_packet ZstdCodec ZstdCodec (with_body w_packet [40; 1; 2] Zstd) 2 = Ok (with_body w_packet [1; 2] CNone) /\
  packet_ok (with_body w_packet [1; 2] CNone).
Proof.
  assert (decompress_packet ZstdCodec ZstdCodec (with_body w_packet [40; 1; 2] Zstd) 2 = Ok (with_body w_packet [1; 2] CNone)) as E by (vm_compute; reflexivity).
  split; [exact E|]. pose proof (PayloadCompression_inbound ZstdCodec ZstdCodec (with_body w_packet [40; 1; 2] Zstd) 2) as Hw. rewrite E in Hw. apply Hw.
  - apply with_body_ok; [apply w_packet_ok|repeat constructor; vm_compute; congruence|vm_compute; reflexivity].
  - vm_compute. split; [congruence|reflexivity].
Defined.
